(* ===== verification/_CoqProject ===== *)
-Q . S2P
Prelude.v
Errors.v
PacketIO.v
Nettool.v
ListH.v
Ipaddr.v
Pktbuf.v
PktbufOps.v
PktbufCursor.v
PktbufSpec.v
PktMem.v
TcpBuf.v
Buddy.v
NetTypes.v
NetState.v
Sock.v
TcpOut.v
Tcp.v
TcpIn.v
TcpState.v
NetDemo.v
TcpFrame.v
TcpTrans.v
TcpWp.v
TcpWire.v
TcpSend.v
TcpFind.v
TcpSpec.v
TcpAck.v
IpState.v
IpWp.v
Route.v
Netif.v
IpOut.v
IpWire.v
Icmp.v
IpIn.v
RouteSpec.v
IpOutSpec.v
Rbtree.v
RbRep.v
RbSpec.v
RbDelete.v
RbRefine.v
RbSearch.v
Sched.v
SchedRep.v
SchedSpec.v
SchedSys.v
SchedLoad.v
Timer.v
TimerRep.v
TimerTick.v
TimerSpec.v
TimerExec.v
TimerSched.v
TimerTop.v
SfsBuf.v
SfsLog.v
SfsCache.v
SfsLogSpec.v
SfsHead.v
SfsCommit.v
SfsCrash.v
SfsMount.v
SfsSafe.v
Vmm.v
VmmRep.v
VmmOps.v
VmmInsert.v
VmmPull.v
VmmCut.v
VmmSpec.v
VmmFind.v
VmmUser.v
VmmProc.v
VmmBrk.v
VmmDup.v
VmmDemo.v
VmmTop.v
