(* ===== verification/Prelude.v ===== *)
(** * Verification of the kernel

    A RISC-V teaching kernel with a TCP/IP stack ([src/code/kernel]).  This
    library models the parts of it that compute, as functions on explicit state,
    and proves what they do.  This file is the root: the notation, the control
    monad and the lemmas every part uses.

    ** How the model is made

    Every C function is a Rocq function in the monad [M S] below: state of type
    [S] in, an [outcome] out.  A failed [assert] or a [panic] is [Panic]; a null,
    dangling or foreign pointer dereferenced, an access out of bounds, a division
    by zero or a signed overflow is [Undef]; a sleep that nothing in a sequential
    run ends is [Block].  A loop is [loop fuel body locals]; a loop over a list or
    tree in memory has the size of the store as fuel, which a well-formed list or
    tree never uses up, and [NoFuel] is excluded by the theorems: they are
    statements of total correctness ([wp], or "returns [Ok] and").  Pointers are
    integers, objects live in finite maps from addresses, and an address that is
    not in the map is a null, wild or freed pointer.  Unsigned words wrap ([u8],
    [u16], [u32], [u64]); signed ones are checked ([signed]).  A spinlock is a
    flag; taking one that is held is [Panic], which is what a nested acquire on
    one CPU is.  The code is run sequentially: other CPUs and interrupts appear as
    sequences of calls (see [TcpTrans], [SchedSys], [SfsCrash]).

    ** The parts

    - Packets, [net/pktbuf.c]: [Pktbuf] has the chains of blocks, the cursor, the
      memory account and the locks; [PktbufOps] and [PktbufCursor] what each
      operation does to a well-formed state; [PktbufSpec] the contract, a packet
      as an array of bytes with a position.  [PacketIO] is the interface (class)
      the other protocols are proved against, [PktMem] words and headers in it.
    - [Nettool], [net/nettool.c]: byte order and the Internet checksum.
      [Ipaddr], [net/ipaddr.c].  [Errors]: return codes.
    - [ListH], [util/list.h]: rings of links in memory, represented as sequences.
    - TCP, [net/tcp*.c] and [net/sock.c]: [NetTypes] and [NetState] have the data
      and the class [NetEnv] of what the stack calls and is not modelled with it
      (allocation, timers, IP output, waiting); [Sock], [TcpOut], [Tcp], [TcpIn]
      and [TcpState] are the operations; [TcpBuf] is the ring of stream bytes.
      [TcpTrans] (with [TcpFrame]) is the state diagram, each edge labelled with the
      call, segment or timer that takes it, and the theorem that a call that returns
      moves its connection along an edge for it and leaves the others' states alone.
      [TcpWire], [TcpSend] are what goes on the wire, byte for byte; [TcpFind] the
      look-ups; [TcpSpec] sequence numbers, the window test and the round trip
      estimate; [TcpAck] acknowledgements, congestion and giving up.  [TcpWp]
      has the rules for the stack's accessors, [NetDemo] a concrete [NetEnv].
    - IP, [net/ipv4.c], [net/icmpv4.c], [net/netif.c]: [IpState] the data and the
      class [IpEnv] of link layers, mailboxes and protocols; [Route], [Netif],
      [IpOut], [IpIn], [Icmp] the operations; [IpWire] the header on the wire;
      [RouteSpec] longest prefix match; [IpOutSpec] routing, fragments and
      headers of an outgoing datagram, over a class [LinkLayer] of link layers that
      take or refuse a packet.  [IpWp] as [TcpWp], with a concrete [IpEnv].
    - [Buddy], [mm/buddyPmm.c]: the page allocator against the set of free pages.
    - Red-black trees, [util/rbtree.c]: [Rbtree] the operations; [RbRep] how a
      functional tree and a place in it lie in the store; [RbSpec] and [RbDelete]
      insertion and deletion; [RbRefine] the refinement of sorted lists;
      [RbSearch] search, neighbours, height, creation, and what a client's
      store keeps through the operations.
    - The scheduler, [schedule/*.c] and the scheduling calls of [kernel/proc.c]:
      [Sched] the operations; [SchedRep] a run queue as a list of processes and a
      tree of the runnable ones; [SchedSpec] each operation of the fair class on
      one queue; [SchedSys] all queues together, the invariant and the histories
      of calls; [SchedLoad] load averages, balancing, waking.
    - Timers, the timer list of [kernel/proc.c]: [Timer] the operations, with a class
      [TimerEnv] of the rest of the kernel and a function a timer calls as a tree of
      its steps and its calls back; [TimerRep] the list of differences as a queue of
      deadlines; [TimerTick] the tick; [TimerSpec] the contract, the queue and what each
      call makes of it; [TimerExec] the calls of function timers and histories
      of calls; [TimerSched] the class by the operations of the scheduler, and a process
      that sleeps for a time; [TimerTop] the theorems.
    - Address spaces, [mm/vmm.c], [mm/shmem.c], the copies between process and kernel
      of [mm/pmm.c] and the memory calls of [kernel/proc.c] ([do_brk], [do_mmap], [do_munmap], [do_shmem]): [Vmm] the data
      and the operations over the list, the tree and the cache of areas, with the
      class [VmEnv] of page-table entries, bytes of memory and shared pages; [VmmRep]
      how a space lies in the stores; [VmmOps] and [VmmInsert] finding, making,
      inserting and removing an area, and mapping; [VmmPull] and [VmmCut] collecting
      areas, unmapping and cutting; [VmmSpec] the contract, a space as a function
      from addresses, and histories of calls; [VmmFind] free ranges, checks of user
      memory and the end of a space; [VmmUser] the copies, which stop in an assertion
      where no page is mapped; [VmmDup] its copy; [VmmProc] and [VmmBrk] the
      calls of the process and the heap; [VmmDemo] a concrete environment; [VmmTop]
      the theorems.
    - The file system's log, [fs/sfs/log.c] over [fs/sfs/buf_io.c]: [SfsBuf] the
      disk, the device and the buffer cache; [SfsLog] the log and the block map;
      [SfsCache] the cache as a view of the blocks, with who holds and
      pins them; [SfsLogSpec], [SfsHead] and [SfsCommit] the parts of a commit and
      what each prefix of its writes leaves; [SfsCrash] calls as steps of an
      abstract file system; [SfsMount], [fs/sfs/sfs.c], mounting; [SfsSafe] crash
      safety and durability.  A block is written as a whole and in order: that is
      what the device is taken to promise.

    ** What the theorems show

    Refinements: a packet's cursor calls are those of a flat array, the stream
    ring is a bounded queue, the trees are sorted lists, the allocator's free
    lists are a set of pages, an address space is a function from addresses to what
    is mapped there, the timer list a queue of deadlines.  Functional theorems: headers, checksums and
    payload of every segment and datagram sent; the route chosen; the process
    picked; what an acknowledgement does; where a mapping goes and what an unmapping
    takes away.  Invariants and safety: the TCP state
    diagram, the run queues, file-system calls that are atomic in a crash.  Liveness: a connection gives up, a
    sleeper wakes at its tick.  Bounds: sequence comparison, timeouts, segment
    sizes, tree height.  The theorems named as errors are about inputs on which
    the code misbehaves as it is written; they are stated of the code, not of
    what it means to do.  Every theorem with hypotheses is applied to a concrete
    state by its [_witness].

    ** Not modelled

    Page tables, faults, swapping, traps, context switches, drivers and boot
    depend on machine state; page tables are a class of the address spaces, whose
    laws say which pages a call adds or removes and where a page's bytes lie.  Fork and exec, inodes,
    directories, the virtual file system and pipes, UDP, raw sockets, DNS, ARP,
    Ethernet, the network thread and the user
    programs are not modelled; where the modelled code calls them they are
    members of a class, with what is used of them as its laws.  Messages, dumps
    and boot-time self tests are left out. *)
From Stdlib Require Export ZArith Lia.
From stdpp Require Export gmap list.

#[global] Open Scope Z_scope.

(** ** Outcomes

    [Ok] is a normal return.  [Panic] is a failed [assert] or a [panic] of the
    kernel (both spin forever).  [Undef] is behaviour C leaves undefined: a null
    or dangling pointer dereferenced, an access out of bounds, a signed
    overflow.  [Block] is a sleep that nothing in a sequential run ends.
    [NoFuel] is a loop cut short; the termination theorems exclude it. *)

Inductive outcome (A : Type) : Type :=
| Ok (a : A)
| Panic
| Undef
| Block
| NoFuel.
Arguments Ok {A} a.
Arguments Panic {A}.
Arguments Undef {A}.
Arguments Block {A}.
Arguments NoFuel {A}.

(** A stateful computation of the kernel over a state [S]. *)
Definition M (S A : Type) : Type := S → outcome (A * S).

#[export] Instance M_ret S : MRet (M S) := λ A a s, Ok (a, s).

#[export] Instance M_bind S : MBind (M S) := λ A B k m s,
  match m s with
  | Ok (a, s') => k a s'
  | Panic => Panic
  | Undef => Undef
  | Block => Block
  | NoFuel => NoFuel
  end.

#[export] Instance outcome_ret : MRet outcome := @Ok.

#[export] Instance outcome_bind : MBind outcome := λ A B k m,
  match m with
  | Ok a => k a
  | Panic => Panic
  | Undef => Undef
  | Block => Block
  | NoFuel => NoFuel
  end.

Lemma outcome_bind_ok {A B} (a : A) (k : A → outcome B) : Ok a ≫= k = k a.
Proof. reflexivity. Qed.

Definition gets {S A} (f : S → A) : M S A := λ s, Ok (f s, s).
Definition modify {S} (f : S → S) : M S unit := λ s, Ok (tt, f s).
Definition panic {S A} : M S A := λ _, Panic.
Definition undef {S A} : M S A := λ _, Undef.
Definition block {S A} : M S A := λ _, Block.

(** The C macro [assert(x)]. *)
Definition assert_ {S} (b : bool) : M S unit := if b then mret tt else panic.

(** A partial memory access: [None] is undefined behaviour. *)
Definition of_option {S A} (o : option A) : M S A :=
  match o with Some a => mret a | None => undef end.

Definition of_outcome {S A} (o : outcome A) : M S A := λ s, a ← o; Ok (a, s).

(** A computation on a part [T] of the state [S]. *)
Definition zoom {S T A} (proj : S → T) (put : T → S → S) (m : M T A) : M S A :=
  λ s, '(a, t) ← m (proj s); Ok (a, put t s).

(** A loop with local variables [L]: the body returns [inl] of the new locals to
    go round again or [inr] of the result to leave. *)
Fixpoint loop {S L A} (fuel : nat) (body : L → M S (L + A)) (l : L) : M S A :=
  match fuel with
  | O => λ _, NoFuel
  | S fuel' =>
      r ← body l;
      match r with
      | inl l' => loop fuel' body l'
      | inr a => mret a
      end
  end.

(** The state after a run, for examples. *)
Definition run_state {S A} (m : M S A) (s : S) : S :=
  match m s with Ok (_, s') => s' | _ => s end.

(** ** Total correctness: the run returns normally and the result satisfies [Q]. *)

Definition wp {S A} (m : M S A) (s : S) (Q : A → S → Prop) : Prop :=
  match m s with Ok (a, s') => Q a s' | _ => False end.

Section wp_rules.
Context {S : Type}.

Lemma wp_run {A} (m : M S A) s Q :
  wp m s Q ↔ ∃ a s', m s = Ok (a, s') ∧ Q a s'.
Proof.
  unfold wp. split.
  - destruct (m s) as [[a s']| | | |]; naive_solver.
  - intros (a & s' & -> & H). exact H.
Qed.

(** A run goes wrong where the first step of it does, or what follows does. *)
Lemma undef_here {A B} (m : M S A) (k : A → M S B) s : m s = Undef → (m ≫= k) s = Undef.
Proof. unfold mbind, M_bind. by intros ->. Qed.

Lemma undef_after {A B} (m : M S A) (k : A → M S B) s :
  wp m s (λ a s', k a s' = Undef) → (m ≫= k) s = Undef.
Proof. intros (a & s' & E & H)%wp_run. unfold mbind, M_bind. by rewrite E. Qed.

Lemma wp_unit (m : M S unit) s (Q : S → Prop) :
  wp m s (λ _, Q) → ∃ s', m s = Ok (tt, s') ∧ Q s'.
Proof. intros ([] & s' & ? & ?)%wp_run. by exists s'. Qed.

Lemma wp_result {A} (m : M S A) s a s' :
  wp m s (λ b t, b = a ∧ t = s') → m s = Ok (a, s').
Proof. by intros (b & t & ? & -> & ->)%wp_run. Qed.

Lemma wp_of_run {A} (m : M S A) s a s' (Q : A → S → Prop) :
  m s = Ok (a, s') → Q a s' → wp m s Q.
Proof. unfold wp. by intros ->. Qed.

Lemma wp_conseq {A} (m : M S A) s (Q Q' : A → S → Prop) :
  wp m s Q → (∀ a s', Q a s' → Q' a s') → wp m s Q'.
Proof. unfold wp. destruct (m s) as [[a s']| | | |]; naive_solver. Qed.

Lemma wp_ret {A} (a : A) s (Q : A → S → Prop) : wp (mret a) s Q ↔ Q a s.
Proof. reflexivity. Qed.

Lemma wp_bind {A B} (m : M S A) (k : A → M S B) s Q :
  wp (m ≫= k) s Q ↔ wp m s (λ a s', wp (k a) s' Q).
Proof.
  unfold wp, mbind, M_bind. destruct (m s) as [[a s']| | | |]; reflexivity.
Qed.

Lemma wp_gets {A} (f : S → A) s (Q : A → S → Prop) : wp (gets f) s Q ↔ Q (f s) s.
Proof. reflexivity. Qed.

Lemma wp_modify (f : S → S) s (Q : unit → S → Prop) : wp (modify f) s Q ↔ Q tt (f s).
Proof. reflexivity. Qed.

Lemma wp_assert (b : bool) s (Q : unit → S → Prop) :
  wp (assert_ b) s Q ↔ b = true ∧ Q tt s.
Proof. unfold assert_, wp. destruct b; cbn; naive_solver. Qed.

Lemma wp_of_option {A} (o : option A) s (Q : A → S → Prop) :
  wp (of_option o) s Q ↔ ∃ a, o = Some a ∧ Q a s.
Proof. unfold of_option, wp. destruct o; cbn; naive_solver. Qed.

(** A loop terminates within its fuel when a measure bounded by the fuel
    decreases, and establishes [Q] when each round keeps the invariant [I]. *)
Lemma wp_loop {L A} (body : L → M S (L + A)) (I : L → S → Prop)
    (measure : L → S → nat) (Q : A → S → Prop) fuel l s :
  (∀ l s, I l s → wp (body l) s (λ r s',
     match r with
     | inl l' => I l' s' ∧ (measure l' s' < measure l s)%nat
     | inr a => Q a s'
     end)) →
  I l s → (measure l s < fuel)%nat → wp (loop fuel body l) s Q.
Proof.
  intros Hbody. revert l s.
  induction fuel as [|fuel IH]; intros l s HI Hm; [lia|].
  cbn [loop]. apply wp_bind.
  eapply wp_conseq; [apply (Hbody l s HI)|].
  intros [l'|a] s'; [|done].
  intros [HI' Hdec]. apply IH; [done|lia].
Qed.

(** Two steps before a result, taken together. *)
Lemma wp_seq_ret {A} (m1 m2 : M S unit) (x : A) s (Q : A → S → Prop) :
  wp (m1;; m2) s (λ _ s', Q x s') → wp (m1;; m2;; mret x) s Q.
Proof.
  rewrite !wp_bind. intros H. eapply wp_conseq; [exact H|].
  cbn. intros _ s' H'. rewrite wp_bind. by eapply wp_conseq; [exact H'|].
Qed.
End wp_rules.

Lemma wp_zoom {S T A} (proj : S → T) (put : T → S → S) (m : M T A) s Q :
  wp (zoom proj put m) s Q ↔ wp m (proj s) (λ a t, Q a (put t s)).
Proof.
  unfold wp, zoom, mbind, outcome_bind.
  destruct (m (proj s)) as [[a t]| | | |]; reflexivity.
Qed.

(** ** Machine words *)

(** The unsigned value of [x] on [w] bits, and the signed one (two's complement). *)
Definition wrap (w x : Z) : Z := x mod 2 ^ w.
Definition sint (w x : Z) : Z := (x + 2 ^ (w - 1)) mod 2 ^ w - 2 ^ (w - 1).

(** A signed result that does not fit its type is undefined. *)
Definition signed (w x : Z) : outcome Z :=
  if (- 2 ^ (w - 1) <=? x) && (x <? 2 ^ (w - 1)) then Ok x else Undef.

Abbreviation u8 := (wrap 8).
Abbreviation u16 := (wrap 16).
Abbreviation u32 := (wrap 32).
Abbreviation u64 := (wrap 64).
Abbreviation s32 := (sint 32).
Abbreviation s64 := (sint 64).

Lemma wp_of_ok {S A} (o : outcome A) (a : A) (w : S) (Q : A → S → Prop) :
  o = Ok a → Q a w → wp (of_outcome o) w Q.
Proof. by intros ->. Qed.

Lemma wp_signed {S} n x (w : S) (Q : Z → S → Prop) :
  - 2 ^ (n - 1) ≤ x < 2 ^ (n - 1) → Q x w → wp (of_outcome (signed n x)) w Q.
Proof.
  intros [H1 H2]. apply wp_of_ok. unfold signed.
  by rewrite (proj2 (Z.leb_le _ _)), (proj2 (Z.ltb_lt _ _)) by lia.
Qed.

Lemma wrap_small w x : 0 ≤ x < 2 ^ w → wrap w x = x.
Proof. intros H. unfold wrap. by apply Z.mod_small. Qed.

Lemma wrap_range w x : 0 ≤ w → 0 ≤ wrap w x < 2 ^ w.
Proof. intros Hw. unfold wrap. apply Z.mod_pos_bound. lia. Qed.

Lemma wrap_wrap w x : wrap w (wrap w x) = wrap w x.
Proof. unfold wrap. apply Zmod_mod. Qed.

Lemma wrap_add_l w x y : wrap w (wrap w x + y) = wrap w (x + y).
Proof. unfold wrap. apply Zplus_mod_idemp_l. Qed.

Lemma wrap_add_r w x y : wrap w (x + wrap w y) = wrap w (x + y).
Proof. unfold wrap. apply Zplus_mod_idemp_r. Qed.

Lemma wrap_sub_l w x y : wrap w (wrap w x - y) = wrap w (x - y).
Proof. unfold wrap. apply Zminus_mod_idemp_l. Qed.

Lemma wrap_sub_r w x y : wrap w (x - wrap w y) = wrap w (x - y).
Proof. unfold wrap. apply Zminus_mod_idemp_r. Qed.

Lemma wrap_shift w x k : 0 ≤ w → wrap w (x + k * 2 ^ w) = wrap w x.
Proof. intros. unfold wrap. apply Z_mod_plus_full. Qed.

Lemma wrap_range8 x : 0 ≤ u8 x < 256.
Proof. apply (wrap_range 8); lia. Qed.
Lemma wrap_range16 x : 0 ≤ u16 x < 65536.
Proof. apply (wrap_range 16); lia. Qed.
Lemma wrap_range32 x : 0 ≤ u32 x < 4294967296.
Proof. apply (wrap_range 32); lia. Qed.
Lemma wrap_range64 x : 0 ≤ u64 x < 18446744073709551616.
Proof. apply (wrap_range 64); lia. Qed.

Lemma sint_range w x : 0 < w → - 2 ^ (w - 1) ≤ sint w x < 2 ^ (w - 1).
Proof.
  intros Hw. unfold sint.
  assert (2 ^ w = 2 * 2 ^ (w - 1)) as E
    by (rewrite <- Z.pow_succ_r by lia; f_equal; lia).
  assert (0 < 2 ^ (w - 1)) by (apply Z.pow_pos_nonneg; lia).
  pose proof (Z.mod_pos_bound (x + 2 ^ (w - 1)) (2 ^ w)). lia.
Qed.

Lemma sint_wrap w x : sint w (wrap w x) = sint w x.
Proof. unfold sint, wrap. by rewrite Zplus_mod_idemp_l. Qed.

(** Removes a wrap-around that cannot happen. *)
Ltac unwrap :=
  repeat match goal with
  | |- context [wrap ?w ?x] =>
      rewrite (wrap_small w x) by (change (2 ^ w) with (Z.pow 2 w); cbn; lia)
  | H : context [wrap ?w ?x] |- _ =>
      rewrite (wrap_small w x) in H by (change (2 ^ w) with (Z.pow 2 w); cbn; lia)
  end.

(** Splits on the comparisons of the goal. *)
Ltac zcases :=
  repeat match goal with
  | |- context [?x <? ?y] => destruct (Z.ltb_spec x y)
  | |- context [?x <=? ?y] => destruct (Z.leb_spec x y)
  | |- context [?x =? ?y] => destruct (Z.eqb_spec x y)
  end.

(** ** Bytes and memory *)

Definition is_byte (b : Z) : Prop := 0 ≤ b < 256.
Abbreviation bytes := (list Z).

(** The length of a list as an integer of the model. *)
Abbreviation zlen l := (Z.of_nat (length l)).

Definition zlookup {A} (l : list A) (i : Z) : option A :=
  if 0 <=? i then l !! Z.to_nat i else None.

(** [n] bytes at offset [off]; a partial access is undefined. *)
Definition mem_read {A} (l : list A) (off n : Z) : option (list A) :=
  if (0 <=? off) && (0 <=? n) && (off + n <=? zlen l)
  then Some (take (Z.to_nat n) (drop (Z.to_nat off) l)) else None.

(** The bytes [bs] stored at offset [off]. *)
Definition mem_write {A} (l : list A) (off : Z) (bs : list A) : option (list A) :=
  if (0 <=? off) && (off + zlen bs <=? zlen l)
  then Some (take (Z.to_nat off) l ++ bs ++ drop (Z.to_nat off + length bs) l)
  else None.

Lemma mem_read_eq {A} (l : list A) off n :
  0 ≤ off → 0 ≤ n → off + n ≤ zlen l →
  mem_read l off n = Some (take (Z.to_nat n) (drop (Z.to_nat off) l)).
Proof.
  intros. unfold mem_read.
  by rewrite (proj2 (Z.leb_le 0 off)), (proj2 (Z.leb_le 0 n)), (proj2 (Z.leb_le (off + n) _)).
Qed.

Lemma mem_write_eq {A} (l : list A) off bs :
  0 ≤ off → off + zlen bs ≤ zlen l →
  mem_write l off bs =
    Some (take (Z.to_nat off) l ++ bs ++ drop (Z.to_nat off + length bs) l).
Proof.
  intros. unfold mem_write.
  by rewrite (proj2 (Z.leb_le 0 off)), (proj2 (Z.leb_le (off + _) _)).
Qed.

Lemma mem_write_length {A} (l l' : list A) off bs :
  mem_write l off bs = Some l' → length l' = length l.
Proof.
  unfold mem_write. destruct (Z.leb_spec 0 off), (Z.leb_spec (off + zlen bs) (zlen l)); try done.
  cbn. intros [= <-]. rewrite !length_app, length_take, length_drop. lia.
Qed.

Lemma mem_write_Forall {A} (P : A → Prop) (l l' : list A) off bs :
  mem_write l off bs = Some l' → Forall P l → Forall P bs → Forall P l'.
Proof.
  unfold mem_write. case_match; [|done]. intros [= <-] Hl Hb.
  apply Forall_app; split; [by apply Forall_take|].
  apply Forall_app; split; [done|by apply Forall_drop].
Qed.

(** Assignment to one cell of an array. *)
Definition zset {A} (l : list A) (i : Z) (x : A) : option (list A) := mem_write l i [x].

(** Splits [Forall P [x; ..]] into its elements. *)
Ltac forall_elems := repeat first [apply Forall_nil_2 | apply Forall_cons_2].

(** Induction on a list two elements at a time. *)
Lemma list_ind_pair {A} (P : list A → Prop) :
  P [] → (∀ x, P [x]) → (∀ x y l, P l → P (x :: y :: l)) → ∀ l, P l.
Proof.
  intros H0 H1 H2.
  fix IH 1. intros [|x [|y l]]; [exact H0|exact (H1 x)|exact (H2 x y l (IH l))].
Qed.

(** ** Bit operations as arithmetic *)

Lemma land_ones_mod x w : 0 ≤ w → Z.land x (2 ^ w - 1) = x mod 2 ^ w.
Proof. intros. rewrite <- Z.land_ones by done. by rewrite Z.ones_equiv, Z.sub_1_r. Qed.

Lemma lor_shiftl_add a b k :
  0 ≤ k → 0 ≤ a < 2 ^ k → Z.lor (Z.shiftl b k) a = b * 2 ^ k + a.
Proof.
  intros Hk Ha.
  assert (Z.land (Z.shiftl b k) a = 0) as H0.
  { apply Z.bits_inj'. intros n Hn. rewrite Z.land_spec, Z.bits_0.
    destruct (decide (n < k)).
    - by rewrite Z.shiftl_spec_low.
    - apply andb_false_intro2. rewrite <- (Z.mod_small a (2 ^ k)) by done.
      by rewrite Z.mod_pow2_bits_high by lia. }
  rewrite <- Z.lxor_lor by done. rewrite <- Z.add_nocarry_lxor by done.
  by rewrite Z.shiftl_mul_pow2.
Qed.

Lemma land_ff x : Z.land x 255 = x mod 256.
Proof. apply (land_ones_mod x 8). lia. Qed.

Lemma land_1_odd x : Z.land x 1 = if Z.odd x then 1 else 0.
Proof. rewrite <- Zmod_odd. apply (land_ones_mod x 1). lia. Qed.

Lemma Zodd_of_nat n : Z.odd (Z.of_nat n) = Nat.odd n.
Proof.
  induction n as [|n IH]; [done|].
  by rewrite Nat2Z.inj_succ, Z.odd_succ, Nat.odd_succ, <- Z.negb_odd, <- Nat.negb_odd, IH.
Qed.

Lemma lor_mul_add q b k m :
  0 ≤ k → m = q * 2 ^ k → 0 ≤ b < 2 ^ k → Z.lor m b = m + b.
Proof. intros Hk -> Hb. by rewrite <- Z.shiftl_mul_pow2, lor_shiftl_add, Z.shiftl_mul_pow2. Qed.

(** A window is its first part followed by the rest. *)
Lemma take_drop_split {A} (l : list A) (d a b : nat) :
  take (a + b) (drop d l) = take a (drop d l) ++ take b (drop (d + a) l).
Proof. by rewrite <- (take_take_drop (drop d l)), drop_drop. Qed.
