(* ===== verification/Errors.v ===== *)
(** * Return codes: [config/error_define.h], [net/net_config.h]

    The codes of the operations modelled, numbered as the enumeration numbers
    them; an operation returns one negated. *)
From S2P Require Import Prelude.

Definition NET_OK : Z := 0.
Definition NET_NEED_WAIT : Z := 1.
Definition NET_OK_CLOSE_WAIT : Z := 2.

Definition E_INVAL : Z := 3.
Definition E_NO_MEM : Z := 4.
Definition E_TIMEOUT : Z := 11.
Definition E_TOO_BIG : Z := 12.
Definition E_BUSY : Z := 15.
Definition E_MBX_FULL : Z := 27.
Definition E_MBX_EMPTY : Z := 28.
Definition E_NET : Z := 29.
Definition E_NET_SIZE : Z := 30.
Definition E_NET_PARAM : Z := 31.
Definition E_NET_STATE : Z := 32.
Definition E_NET_NONE : Z := 36.
Definition E_NET_NOT_SUPPORT : Z := 37.
Definition E_NET_FULL : Z := 38.
Definition E_NET_DATA : Z := 39.
Definition E_NET_MATCH : Z := 40.
Definition E_NET_CHECKSUM : Z := 41.
Definition E_NET_EXIST : Z := 42.
Definition E_NET_CONNECTED : Z := 43.
Definition E_NET_UNREACH : Z := 44.
Definition E_NET_BIND : Z := 45.
Definition E_NET_RESET : Z := 46.
Definition E_NET_CLOSE : Z := 47.
Definition E_NET_TMO : Z := 48.
