(* ===== verification/PacketIO.v ===== *)
(** * The interface of packets

    What [net/tcp_buf.c] and the protocols above rely on: a packet is an array
    of bytes with a position; a write stores bytes there, a read fetches them,
    and both move on.  [PktbufSpec] shows that [net/pktbuf.c] keeps it. *)
From S2P Require Import Prelude.

(** ** The flat packet *)

(** [bs] stored at offset [p]. *)
Definition splice (c : bytes) (p : Z) (bs : bytes) : bytes :=
  take (Z.to_nat p) c ++ bs ++ drop (Z.to_nat p + length bs) c.

Definition slice (c : bytes) (p n : Z) : bytes := take (Z.to_nat n) (drop (Z.to_nat p) c).

Lemma splice_length c p bs :
  0 ≤ p → p + zlen bs ≤ zlen c → length (splice c p bs) = length c.
Proof. intros. unfold splice. rewrite !length_app, length_take, length_drop. lia. Qed.

Lemma splice_nil c p : splice c p [] = c.
Proof. unfold splice. cbn. rewrite Nat.add_0_r. by rewrite take_drop. Qed.

Lemma splice_splice c p a b :
  0 ≤ p → p + zlen a + zlen b ≤ zlen c →
  splice (splice c p a) (p + zlen a) b = splice c p (a ++ b).
Proof.
  intros Hp Hl. unfold splice.
  replace (Z.to_nat (p + zlen a)) with (Z.to_nat p + length a)%nat by lia.
  assert (length (take (Z.to_nat p) c) = Z.to_nat p) as Ht by (rewrite length_take; lia).
  rewrite take_app_ge by lia. rewrite Ht.
  replace (Z.to_nat p + length a - Z.to_nat p)%nat with (length a) by lia.
  rewrite take_app_length. rewrite <- !app_assoc. do 3 f_equal.
  rewrite drop_app_ge by lia. rewrite Ht. rewrite drop_app_ge by lia.
  rewrite drop_drop, length_app. f_equal. lia.
Qed.

Lemma slice_splice c p bs :
  0 ≤ p → p + zlen bs ≤ zlen c → slice (splice c p bs) p (zlen bs) = bs.
Proof.
  intros Hp Hl. unfold slice, splice.
  rewrite drop_app_length' by (rewrite length_take; lia).
  by rewrite take_app_length' by lia.
Qed.

Lemma slice_app c p a b :
  0 ≤ p → 0 ≤ a → 0 ≤ b → slice c p (a + b) = slice c p a ++ slice c (p + a) b.
Proof.
  intros. unfold slice. rewrite Z2Nat.inj_add, take_drop_split by lia. do 3 f_equal. lia.
Qed.

Lemma slice_length c p n : 0 ≤ p → 0 ≤ n → p + n ≤ zlen c → zlen (slice c p n) = n.
Proof. intros. unfold slice. rewrite length_take, length_drop. lia. Qed.

Lemma slice_bytes c p n : Forall is_byte c → Forall is_byte (slice c p n).
Proof. intros. by apply Forall_take, Forall_drop. Qed.

Definition flat : Type := bytes * Z.

(** ** The operations and their laws *)

Class PacketIO (W : Type) := {
  pkt_write : bytes → M W Z;
  pkt_read : Z → M W (Z * bytes)
}.

Class PacketLaws {W : Type} `{PacketIO W} (view : W → flat → Prop) := {
  pkt_write_ok w c p src :
    view w (c, p) → Forall is_byte src → src ≠ [] → p + zlen src ≤ zlen c →
    wp (pkt_write src) w (λ r w', r = 0 ∧ view w' (splice c p src, p + zlen src));
  pkt_read_ok w c p n :
    view w (c, p) → 0 < n → p + n ≤ zlen c →
    wp (pkt_read n) w (λ r w', r = (0, slice c p n) ∧ view w' (c, p + n));
  pkt_view_ok w c p : view w (c, p) → 0 ≤ p ∧ p ≤ zlen c ∧ zlen c < 2 ^ 62 ∧ Forall is_byte c
}.
