(* ===== verification/Nettool.v ===== *)
(** * Byte order and the Internet checksum: [net/nettool.c], [net/nettool.h]

    [checksum16] adds the 16-bit little-endian words of a buffer into a 32-bit
    accumulator and folds the carries.  [wsum] is the mathematical weighted sum
    it computes and [norm] the fold's closed form. *)
From S2P Require Import Prelude.

(** ** Byte order *)

Definition swap_u16 (v : Z) : Z :=
  u16 (Z.lor (Z.shiftl (Z.land v 0xFF) 8) (Z.land (Z.shiftr v 8) 0xFF)).

Definition swap_u32 (v : Z) : Z :=
  u32 (Z.lor (Z.lor (Z.lor
    (Z.shiftl (Z.land (Z.shiftr v 0) 0xFF) 24)
    (Z.shiftl (Z.land (Z.shiftr v 8) 0xFF) 16))
    (Z.shiftl (Z.land (Z.shiftr v 16) 0xFF) 8))
    (Z.shiftl (Z.land (Z.shiftr v 24) 0xFF) 0)).

(** The target is little endian ([NET_ENDIAN_LITTLE] is 1). *)
Definition x_htons := swap_u16.
Definition x_ntohs := swap_u16.
Definition x_htonl := swap_u32.
Definition x_ntohl := swap_u32.

(** ** The checksum *)

(** [while (len > 1) { checksum += *curr_buf++; len -= 2; }]: the buffer left,
    the length left and the accumulator. *)
Fixpoint sum_words (buf : bytes) (len sum : Z) : outcome (bytes * Z * Z) :=
  if 1 <? len then
    match buf with
    | b0 :: b1 :: rest => sum_words rest (u16 (len - 2)) (u32 (sum + (b0 + 256 * b1)))
    | _ => Undef
    end
  else Ok (buf, len, sum).

(** [while ((high = checksum >> 16) != 0) checksum = high + (checksum & 0xffff)]. *)
Fixpoint fold_carry (fuel : nat) (sum : Z) : outcome Z :=
  let high := u16 (Z.shiftr sum 16) in
  if high =? 0 then Ok sum
  else match fuel with
       | O => NoFuel
       | S n => fold_carry n (u32 (high + Z.land sum 0xffff))
       end.

(** Rounds of carry folding a 32-bit accumulator needs at most. *)
Definition FOLD_ROUNDS : nat := 2.

Definition checksum16 (offset : Z) (buf : bytes) (len pre_sum : Z) (complement : bool)
    : outcome Z :=
  '(curr_buf, len, checksum) ←
    (if Z.land offset 1 =? 0 then Ok (buf, len, pre_sum)
     else match buf with
          | b :: rest => Ok (rest, u16 (len - 1), u32 (pre_sum + Z.shiftl b 8))
          | [] => Undef
          end);
  '(curr_buf, len, checksum) ← sum_words curr_buf len checksum;
  checksum ←
    (if 0 <? len then
       match curr_buf with
       | b :: _ => Ok (u32 (checksum + b))
       | [] => Undef
       end
     else Ok checksum);
  checksum ← fold_carry FOLD_ROUNDS checksum;
  mret (if complement then u16 (Z.lnot checksum) else u16 checksum).

(** ** Specification *)

(** Bytes at even positions weigh 1, at odd positions 256. *)
Fixpoint wsum (odd : bool) (bs : bytes) : Z :=
  match bs with
  | [] => 0
  | b :: r => (if odd then 256 * b else b) + wsum (negb odd) r
  end.

(** One's complement residue: 0 only for 0, otherwise in 1..65535. *)
Definition norm (x : Z) : Z := if x =? 0 then 0 else (x - 1) mod 65535 + 1.

Lemma wsum_app odd l1 l2 :
  wsum odd (l1 ++ l2) = wsum odd l1 + wsum (xorb odd (Nat.odd (length l1))) l2.
Proof.
  revert odd. induction l1 as [|b l1 IH]; intros odd; cbn [app wsum length].
  - by destruct odd.
  - rewrite IH, Nat.odd_succ, <- Nat.negb_odd.
    replace (xorb (negb odd) (Nat.odd (length l1)))
      with (xorb odd (negb (Nat.odd (length l1)))) by (by destruct odd, (Nat.odd _)).
    lia.
Qed.

(** A pair of bytes adds at most 65535, a first odd byte at most 65280. *)
Lemma wsum_bounds odd bs :
  Forall is_byte bs →
  0 ≤ wsum odd bs ∧
  2 * wsum odd bs ≤ 65535 * zlen bs + (if odd then 65025 else 0).
Proof.
  intros H. revert odd.
  induction H as [|b bs Hb _ IH]; intros odd; cbn [wsum length].
  - destruct odd; lia.
  - specialize (IH (negb odd)). unfold is_byte in Hb.
    destruct odd; cbn [negb] in *; lia.
Qed.

Lemma norm_range x : 0 ≤ norm x ≤ 65535.
Proof.
  unfold norm. destruct (Z.eqb_spec x 0); [lia|].
  pose proof (Z.mod_pos_bound (x - 1) 65535). lia.
Qed.

Lemma norm_small x : 0 ≤ x ≤ 65535 → norm x = x.
Proof.
  intros H. unfold norm. destruct (Z.eqb_spec x 0); [lia|].
  rewrite Z.mod_small; lia.
Qed.

Lemma norm_step x k : 0 < x → 0 ≤ k → norm (x + 65535 * k) = norm x.
Proof.
  intros Hx Hk. unfold norm.
  destruct (Z.eqb_spec (x + 65535 * k) 0); [lia|].
  destruct (Z.eqb_spec x 0); [lia|].
  replace (x + 65535 * k - 1) with (x - 1 + k * 65535) by lia.
  by rewrite Z_mod_plus_full.
Qed.

Lemma norm_decompose x : 0 ≤ x → ∃ k, 0 ≤ k ∧ x = norm x + 65535 * k.
Proof.
  intros H. unfold norm. destruct (Z.eqb_spec x 0) as [->|Hn].
  - exists 0. lia.
  - exists ((x - 1) / 65535). pose proof (Z.div_mod (x - 1) 65535).
    assert (0 ≤ (x - 1) / 65535) by (apply Z.div_pos; lia). lia.
Qed.

Lemma norm_zero x : 0 ≤ x → norm x = 0 → x = 0.
Proof.
  intros Hx H. unfold norm in H. destruct (Z.eqb_spec x 0); [done|].
  pose proof (Z.mod_pos_bound (x - 1) 65535). lia.
Qed.

(** Folding a partial sum early does not change the total. *)
Lemma norm_norm_add a b : 0 ≤ a → 0 ≤ b → norm (norm a + b) = norm (a + b).
Proof.
  intros Ha Hb. destruct (norm_decompose a Ha) as (k & Hk & E).
  destruct (decide (norm a + b = 0)) as [Hz|Hz].
  - pose proof (norm_range a). assert (a = 0) by (apply norm_zero; lia).
    by subst a.
  - pose proof (norm_range a). rewrite E at 2.
    replace (norm a + 65535 * k + b) with ((norm a + b) + 65535 * k) by lia.
    rewrite norm_step; lia.
Qed.

Lemma sum_words_spec buf len sum :
  Forall is_byte buf → 0 ≤ len ≤ zlen buf → len < 65536 → 0 ≤ sum →
  sum + wsum false (take (Z.to_nat len) buf) < 2 ^ 32 →
  sum_words buf len sum =
    Ok (drop (Z.to_nat (len - len mod 2)) buf, len mod 2,
        sum + wsum false (take (Z.to_nat (len - len mod 2)) buf)).
Proof.
  revert len sum.
  induction buf as [|b|b0 b1 rest IH] using list_ind_pair; intros len sum Hb Hl Hlt Hs Hsum;
    (assert (len = 0 ∨ len = 1 ∨ 1 < len) as [->|[->|H1]] by lia;
     [by cbn; rewrite Z.add_0_r|by cbn; rewrite Z.add_0_r|]);
    [cbn in Hl; lia|cbn in Hl; lia|].
  - inversion Hb as [|? ? Hb0 Hb']; subst. inversion Hb' as [|? ? Hb1 Hr]; subst.
    assert (Z.to_nat len = S (S (Z.to_nat (len - 2)))) as El by lia.
    assert ((len - 2) mod 2 = len mod 2) as Em.
    { replace len with (len - 2 + 1 * 2) at 2 by lia. by rewrite Z_mod_plus_full. }
    pose proof (Z.mod_pos_bound len 2 ltac:(lia)).
    assert (len mod 2 < len) by lia.
    assert (2 ≤ len - len mod 2) as Hge.
    { pose proof (Z.div_mod len 2 ltac:(lia)). lia. }
    rewrite El in Hsum. cbn [take wsum negb] in Hsum.
    cbn [length] in Hl. unfold is_byte in Hb0, Hb1.
    pose proof (proj1 (wsum_bounds false (take (Z.to_nat (len - 2)) rest)
      (Forall_take _ _ _ Hr))).
    cbn [sum_words]. destruct (Z.ltb_spec 1 len); [|lia].
    rewrite (wrap_small 16), (wrap_small 32) by lia.
    rewrite IH by (done || lia).
    rewrite Em.
    replace (Z.to_nat (len - len mod 2)) with (S (S (Z.to_nat (len - 2 - len mod 2)))) by lia.
    cbn [take drop wsum negb]. do 2 f_equal. lia.
Qed.

Lemma land_ffff x : 0 ≤ x → Z.land x 0xffff = x mod 65536.
Proof. intros. change 0xffff with (Z.ones 16). by rewrite Z.land_ones by lia. Qed.

Lemma fold_carry_step fuel x :
  0 ≤ x < 2 ^ 32 → 65536 ≤ x →
  fold_carry (S fuel) x = fold_carry fuel (x / 65536 + x mod 65536).
Proof.
  intros Hx Hb. cbn [fold_carry].
  rewrite Z.shiftr_div_pow2 by lia. change (2 ^ 16) with 65536.
  assert (1 ≤ x / 65536) by (apply Z.div_le_lower_bound; lia).
  assert (x / 65536 < 65536) by (apply Z.div_lt_upper_bound; lia).
  pose proof (Z.mod_pos_bound x 65536 ltac:(lia)).
  rewrite (wrap_small 16) by lia.
  destruct (Z.eqb_spec (x / 65536) 0); [lia|].
  by rewrite land_ffff, (wrap_small 32) by lia.
Qed.

Lemma fold_carry_done fuel x : 0 ≤ x < 65536 → fold_carry fuel x = Ok x.
Proof.
  intros Hx. destruct fuel; cbn [fold_carry];
    rewrite Z.shiftr_div_pow2 by lia; change (2 ^ 16) with 65536;
    by rewrite Z.div_small by lia.
Qed.

(** Two rounds of carry folding always suffice, and leave the residue. *)
Lemma fold_carry_spec x : 0 ≤ x < 2 ^ 32 → fold_carry FOLD_ROUNDS x = Ok (norm x).
Proof.
  intros Hx. unfold FOLD_ROUNDS.
  destruct (decide (x < 65536)).
  { rewrite fold_carry_done by lia. by rewrite norm_small by lia. }
  assert (∀ y, 65536 ≤ y < 2 ^ 32 →
    0 < y / 65536 < 65536 ∧ 0 ≤ y mod 65536 < 65536 ∧
    norm (y / 65536 + y mod 65536) = norm y) as Hstep.
  { intros y Hy. pose proof (Z.div_mod y 65536 ltac:(lia)).
    pose proof (Z.mod_pos_bound y 65536 ltac:(lia)).
    assert (0 < y / 65536 < 65536) by nia. repeat split; try lia.
    rewrite <- (norm_step (y / 65536 + y mod 65536) (y / 65536)) by lia.
    f_equal. lia. }
  destruct (Hstep x) as (Hh & Hl & En); [lia|].
  rewrite fold_carry_step, <- En by lia.
  set (y := x / 65536 + x mod 65536) in *.
  destruct (decide (y < 65536)).
  { rewrite fold_carry_done by lia. by rewrite norm_small by lia. }
  destruct (Hstep y) as (Hh' & Hl' & En'); [lia|].
  rewrite fold_carry_step, <- En' by lia.
  assert (y / 65536 = 1) as E1.
  { assert (y / 65536 < 2) by (apply Z.div_lt_upper_bound; lia). lia. }
  pose proof (Z.div_mod y 65536 ltac:(lia)).
  rewrite fold_carry_done by lia. by rewrite norm_small by lia.
Qed.

Lemma lnot16 x : 0 ≤ x < 65536 → u16 (Z.lnot x) = 65535 - x.
Proof.
  intros Hx. unfold wrap, Z.lnot. change (2 ^ 16) with 65536.
  replace (Z.pred (- x)) with (65535 - x + (-1) * 65536) by lia.
  rewrite Z_mod_plus_full. apply Z.mod_small. lia.
Qed.

(** The tail of the loop: the last byte of an odd run, or nothing. *)
Lemma wsum_last buf len :
  0 ≤ len ≤ zlen buf →
  wsum false (take (Z.to_nat len) buf) =
    wsum false (take (Z.to_nat (len - len mod 2)) buf) +
    (if 0 <? len mod 2
     then default 0 (head (drop (Z.to_nat (len - len mod 2)) buf)) else 0).
Proof.
  intros Hl. pose proof (Z.div_mod len 2 ltac:(lia)).
  pose proof (Z.mod_pos_bound len 2 ltac:(lia)).
  destruct (Z.ltb_spec 0 (len mod 2)).
  - assert (len mod 2 = 1) as E1 by lia. rewrite E1 in *.
    set (n := Z.to_nat (len - 1)).
    assert (Z.to_nat len = (n + 1)%nat) as -> by lia.
    rewrite <- (take_drop n buf) at 1. rewrite take_app_add' by (rewrite length_take; lia).
    rewrite wsum_app.
    assert (n = (2 * Z.to_nat (len / 2))%nat) as En by lia.
    assert (Nat.odd (length (take n buf)) = false) as ->.
    { rewrite length_take, Nat.min_l by lia. rewrite En.
      rewrite Nat.odd_mul. done. }
    destruct (drop n buf) as [|b r] eqn:Ed.
    { apply (f_equal length) in Ed. rewrite length_drop in Ed. cbn in Ed. lia. }
    f_equal. change (b + 0 = b). lia.
  - assert (len mod 2 = 0) as -> by lia. rewrite Z.sub_0_r. lia.
Qed.

Lemma checksum_tail buf len sum (c : bool) :
  Forall is_byte buf → 0 ≤ len ≤ zlen buf → len < 65536 → 0 ≤ sum →
  sum + wsum false (take (Z.to_nat len) buf) < 2 ^ 32 →
  ('(curr_buf, len, checksum) ← sum_words buf len sum;
   checksum ← (if 0 <? len then
       match curr_buf with b :: _ => Ok (u32 (checksum + b)) | [] => Undef end
     else Ok checksum);
   checksum ← fold_carry FOLD_ROUNDS checksum;
   mret (if c then u16 (Z.lnot checksum) else u16 checksum))
  = Ok (let r := norm (sum + wsum false (take (Z.to_nat len) buf)) in
        if c then 65535 - r else r).
Proof.
  intros Hb Hl Hlt Hs Hsum. rewrite sum_words_spec, outcome_bind_ok by done.
  pose proof (wsum_last buf len Hl) as Hlast.
  pose proof (proj1 (wsum_bounds false _ (Forall_take _ (Z.to_nat (len - len mod 2)) _ Hb))).
  pose proof (Z.mod_pos_bound len 2 ltac:(lia)).
  assert (∀ x, 0 ≤ x < 2 ^ 32 →
    (checksum ← fold_carry FOLD_ROUNDS x;
     mret (if c then u16 (Z.lnot checksum) else u16 checksum))
    = Ok (if c then 65535 - norm x else norm x)) as Hfold.
  { intros x Hx. rewrite fold_carry_spec by done. cbn. pose proof (norm_range x).
    unfold mret, outcome_ret. destruct c; [by rewrite lnot16 by lia|].
    by rewrite (wrap_small 16) by lia. }
  destruct (Z.ltb_spec 0 (len mod 2)) as [H1|H1].
  - destruct (drop (Z.to_nat (len - len mod 2)) buf) as [|b r] eqn:Ed.
    { apply (f_equal length) in Ed. rewrite length_drop in Ed. cbn in Ed.
      pose proof (Z.mod_le len 2). lia. }
    assert (is_byte b) as Hbb.
    { assert (Forall is_byte (b :: r)) as HF by (rewrite <- Ed; by apply Forall_drop).
      by inversion HF. }
    unfold is_byte in Hbb. cbn in Hlast.
    rewrite (wrap_small 32), outcome_bind_ok, Hfold by lia.
    rewrite Hlast. cbn zeta. by rewrite Z.add_assoc.
  - rewrite outcome_bind_ok, Hfold by lia. rewrite Hlast. cbn zeta. by rewrite Z.add_0_r.
Qed.

Lemma checksum16_run off buf len pre (c : bool) :
  Forall is_byte buf → 0 ≤ len ≤ zlen buf → len < 65536 →
  (Z.odd off = true → 0 < len) → 0 ≤ pre →
  pre + wsum (Z.odd off) (take (Z.to_nat len) buf) < 2 ^ 32 →
  checksum16 off buf len pre c =
    Ok (let r := norm (pre + wsum (Z.odd off) (take (Z.to_nat len) buf)) in
        if c then 65535 - r else r).
Proof.
  intros Hb Hl Hlt Ho Hp Hsum.
  unfold checksum16. rewrite land_1_odd.
  destruct (Z.odd off) eqn:Eo; cbn [Z.eqb].
  - specialize (Ho eq_refl). destruct buf as [|b rest]; [cbn in Hl; lia|].
    inversion Hb as [|? ? Hbb Hr]; subst. unfold is_byte in Hbb. cbn [length] in Hl.
    replace (Z.to_nat len) with (S (Z.to_nat (len - 1))) in * by lia.
    cbn [take wsum negb] in *. rewrite outcome_bind_ok.
    rewrite Z.shiftl_mul_pow2 by lia. change (2 ^ 8) with 256.
    pose proof (proj1 (wsum_bounds false _ (Forall_take _ (Z.to_nat (len - 1)) _ Hr))).
    rewrite (wrap_small 16), (wrap_small 32) by lia.
    etrans; [apply (checksum_tail rest (len - 1)); try done; lia|].
    cbn zeta. by replace (pre + b * 256 + wsum false (take (Z.to_nat (len - 1)) rest))
      with (pre + (256 * b + wsum false (take (Z.to_nat (len - 1)) rest))) by lia.
  - by apply (checksum_tail buf len pre).
Qed.

(** The sum of a buffer shorter than 64 KiB cannot overflow the accumulator. *)
Lemma wsum_take_bound odd buf len :
  Forall is_byte buf → 0 ≤ len < 65536 →
  0 ≤ wsum odd (take (Z.to_nat len) buf) < 2 ^ 31.
Proof.
  intros Hb Hl.
  pose proof (wsum_bounds odd _ (Forall_take _ (Z.to_nat len) _ Hb)) as [H0 H1].
  rewrite length_take in H1. destruct odd; lia.
Qed.

(** Checksumming a buffer in two chunks, the second at its own offset and
    starting from the first one's sum, is checksumming it whole. *)
Lemma checksum16_app off l1 l2 pre (c : bool) :
  Forall is_byte (l1 ++ l2) → l1 ≠ [] → l2 ≠ [] → zlen (l1 ++ l2) < 65536 →
  0 ≤ off → 0 ≤ pre < 2 ^ 31 →
  (s ← checksum16 off l1 (zlen l1) pre false;
   checksum16 (off + zlen l1) l2 (zlen l2) s c)
  = checksum16 off (l1 ++ l2) (zlen (l1 ++ l2)) pre c.
Proof.
  intros Hb Hn1 Hn2 Hl Ho Hp. pose proof Hb as [Hb1 Hb2]%Forall_app.
  rewrite length_app in *.
  assert (0 < zlen l1) by (destruct l1; [done|cbn; lia]).
  assert (0 < zlen l2) by (destruct l2; [done|cbn; lia]).
  assert (∀ (l : bytes), take (Z.to_nat (zlen l)) l = l) as Htk
    by (intros; rewrite Nat2Z.id; by rewrite firstn_all).
  pose proof (wsum_take_bound (Z.odd off) l1 (zlen l1) Hb1 ltac:(lia)) as B1.
  pose proof (wsum_take_bound (Z.odd off) (l1 ++ l2) (zlen (l1 ++ l2)) Hb
    ltac:(rewrite length_app; lia)) as B12.
  pose proof (norm_range (pre + wsum (Z.odd off) l1)).
  pose proof (wsum_take_bound (Z.odd (off + zlen l1)) l2 (zlen l2) Hb2 ltac:(lia)) as B2.
  rewrite Htk in B1, B2, B12.
  rewrite checksum16_run by (rewrite ?Htk; done || lia).
  rewrite outcome_bind_ok, Htk. cbn zeta.
  rewrite checksum16_run by (rewrite ?Htk; done || lia). rewrite Htk.
  rewrite checksum16_run.
  2: done. 2: rewrite length_app; lia. 2: lia. 2: lia. 2: lia.
  2: rewrite <- length_app, Htk; lia.
  rewrite <- length_app, Htk. cbn zeta.
  rewrite norm_norm_add by lia. rewrite wsum_app, Z.add_assoc.
  by rewrite Z.odd_add, Zodd_of_nat.
Qed.

(** ** Byte order lemmas *)

Lemma swap_u16_eq v : 0 ≤ v < 65536 → swap_u16 v = (v mod 256) * 256 + v / 256.
Proof.
  intros Hv. unfold swap_u16. change 0xFF with 255.
  rewrite !land_ff, Z.shiftr_div_pow2 by lia. change (2 ^ 8) with 256.
  pose proof (Z.mod_pos_bound v 256 ltac:(lia)).
  assert (0 ≤ v / 256 < 256) by (split; [apply Z.div_pos; lia|apply Z.div_lt_upper_bound; lia]).
  rewrite (Z.mod_small (v / 256)) by lia.
  rewrite lor_shiftl_add by lia. change (2 ^ 8) with 256.
  by rewrite (wrap_small 16) by lia.
Qed.

Lemma swap_u16_range v : 0 ≤ swap_u16 v < 65536.
Proof. apply wrap_range16. Qed.

Lemma swap_u32_range v : 0 ≤ swap_u32 v < 4294967296.
Proof. apply wrap_range32. Qed.

(** The four bytes of a word, least significant first. *)
Lemma swap_u32_bytes b0 b1 b2 b3 :
  is_byte b0 → is_byte b1 → is_byte b2 → is_byte b3 →
  swap_u32 (b0 + 256 * (b1 + 256 * (b2 + 256 * b3))) =
    b3 + 256 * (b2 + 256 * (b1 + 256 * b0)).
Proof.
  unfold is_byte. intros H0 H1 H2 H3. unfold swap_u32. change 0xFF with 255.
  rewrite !land_ff, !Z.shiftr_div_pow2, !Z.shiftl_mul_pow2 by lia.
  set (v := b0 + 256 * (b1 + 256 * (b2 + 256 * b3))).
  assert (v / 2 ^ 0 mod 256 = b0) as ->.
  { change (2 ^ 0) with 1. rewrite Z.div_1_r. unfold v.
    rewrite (Z.mul_comm 256), Z_mod_plus_full. apply Z.mod_small; lia. }
  assert (v / 2 ^ 8 = b1 + 256 * (b2 + 256 * b3)) as E8.
  { change (2 ^ 8) with 256. unfold v. rewrite (Z.mul_comm 256), Z.div_add by lia.
    rewrite (Z.div_small b0) by lia. lia. }
  assert (v / 2 ^ 16 = b2 + 256 * b3) as E16.
  { change (2 ^ 16) with (2 ^ 8 * 2 ^ 8). rewrite <- Z.div_div, E8 by lia.
    change (2 ^ 8) with 256. rewrite (Z.mul_comm 256), Z.div_add by lia.
    rewrite (Z.div_small b1) by lia. lia. }
  assert (v / 2 ^ 24 = b3) as E24.
  { change (2 ^ 24) with (2 ^ 16 * 2 ^ 8). rewrite <- Z.div_div, E16 by lia.
    change (2 ^ 8) with 256. rewrite (Z.mul_comm 256), Z.div_add by lia.
    rewrite (Z.div_small b2) by lia. lia. }
  rewrite E8, E16, E24, !(Z.mul_comm 256), !Z_mod_plus_full.
  rewrite (Z.mod_small b1), (Z.mod_small b2), (Z.mod_small b3) by lia.
  rewrite (lor_mul_add b0 (b1 * 2 ^ 16) 24) by lia.
  rewrite (lor_mul_add (b0 * 2 ^ 8 + b1) (b2 * 2 ^ 8) 16) by lia.
  rewrite (lor_mul_add (b0 * 2 ^ 16 + b1 * 2 ^ 8 + b2) (b3 * 2 ^ 0) 8) by lia.
  rewrite (wrap_small 32); lia.
Qed.

Lemma u32_bytes v : 0 ≤ v < 4294967296 → ∃ b0 b1 b2 b3,
  is_byte b0 ∧ is_byte b1 ∧ is_byte b2 ∧ is_byte b3 ∧
  v = b0 + 256 * (b1 + 256 * (b2 + 256 * b3)).
Proof.
  intros Hv. exists (v mod 256), (v / 256 mod 256), (v / 256 / 256 mod 256), (v / 256 / 256 / 256).
  unfold is_byte.
  pose proof (Z.mod_pos_bound v 256 ltac:(lia)).
  pose proof (Z.mod_pos_bound (v / 256) 256 ltac:(lia)).
  pose proof (Z.mod_pos_bound (v / 256 / 256) 256 ltac:(lia)).
  pose proof (Z.div_mod v 256 ltac:(lia)).
  pose proof (Z.div_mod (v / 256) 256 ltac:(lia)).
  pose proof (Z.div_mod (v / 256 / 256) 256 ltac:(lia)).
  repeat split; lia.
Qed.

(** ** Theorems *)

(** What [checksum16] computes *)
Theorem checksum16_correct off buf len pre c :
  Forall is_byte buf → 0 ≤ len ≤ zlen buf → len < 65536 →
  (Z.odd off = true → 0 < len) → 0 ≤ pre < 2 ^ 31 →
  checksum16 off buf len pre c =
    Ok (let r := norm (pre + wsum (Z.odd off) (take (Z.to_nat len) buf)) in
        if c then 65535 - r else r).
Proof.
  intros Hb Hl Hlt Ho Hp. pose proof (wsum_take_bound (Z.odd off) buf len Hb ltac:(lia)).
  apply checksum16_run; try done; lia.
Qed.

(** A packet that carries its checksum sums to zero *)
Lemma checksum16_verifies before after c :
  Forall is_byte before → Forall is_byte after → Z.Even (zlen before) →
  zlen before + 2 + zlen after < 65536 →
  checksum16 0 (before ++ [0; 0] ++ after) (zlen before + 2 + zlen after) 0 true = Ok c →
  checksum16 0 (before ++ [c mod 256; c / 256] ++ after)
    (zlen before + 2 + zlen after) 0 true = Ok 0.
Proof.
  intros Hb Ha He Hlen.
  assert (Nat.odd (length before) = false) as Hev.
  { destruct He as [k Hk]. rewrite <- Nat.negb_even, negb_false_iff.
    apply Nat.even_spec. exists (Z.to_nat k). lia. }
  set (s := wsum false before + wsum false after).
  assert (∀ x y, is_byte x → is_byte y →
    checksum16 0 (before ++ [x; y] ++ after) (zlen before + 2 + zlen after) 0 true
    = Ok (65535 - norm (s + (x + 256 * y)))) as Hrun.
  { intros x y Hx Hy.
    assert (zlen before + 2 + zlen after = zlen (before ++ [x; y] ++ after)) as El
      by (rewrite !length_app; cbn [length]; lia).
    assert (Forall is_byte (before ++ [x; y] ++ after)) as HF
      by (repeat (apply Forall_app; split); auto).
    pose proof (wsum_take_bound false _ (zlen (before ++ [x; y] ++ after)) HF ltac:(lia)).
    rewrite El, checksum16_run; change (Z.odd 0) with false; try done; try lia.
    cbn zeta. rewrite Nat2Z.id, firstn_all, !wsum_app, Hev.
    change (xorb (xorb false false) (Nat.odd (length [x; y]))) with false.
    do 3 f_equal. unfold s. cbn [xorb wsum negb]. lia. }
  pose proof (proj1 (wsum_bounds false _ Hb)). pose proof (proj1 (wsum_bounds false _ Ha)).
  rewrite Hrun by (unfold is_byte; lia). rewrite Z.mul_0_r, !Z.add_0_r.
  intros [= <-]. pose proof (norm_range s). set (c := 65535 - norm s).
  assert (0 ≤ c < 65536) by (unfold c; lia).
  assert (0 ≤ c / 256 < 256) by (split; [apply Z.div_pos; lia|apply Z.div_lt_upper_bound; lia]).
  pose proof (Z.mod_pos_bound c 256 ltac:(lia)). pose proof (Z.div_mod c 256 ltac:(lia)).
  rewrite Hrun by (unfold is_byte; lia).
  replace (c mod 256 + 256 * (c / 256)) with c by lia.
  destruct (norm_decompose s ltac:(unfold s; lia)) as (k & Hk & Es).
  replace (s + c) with (65535 + 65535 * k) by (unfold c; lia).
  by rewrite norm_step by lia.
Qed.

(** Byte order conversion is an involution. *)
Lemma checksum16_range buf len r :
  Forall is_byte buf → 0 ≤ len ≤ zlen buf → len < 65536 →
  checksum16 0 buf len 0 true = Ok r → 0 ≤ r < 2 ^ 16.
Proof.
  intros Hb Hl H16. pose proof (wsum_take_bound false buf len Hb ltac:(lia)).
  rewrite checksum16_run; change (Z.odd 0) with false; try done; try lia.
  cbv zeta. intros [= <-]. pose proof (norm_range (0 + wsum false (take (Z.to_nat len) buf))). lia.
Qed.

Lemma swap_involutive v w :
  0 ≤ v < 2 ^ 16 → 0 ≤ w < 2 ^ 32 →
  swap_u16 (swap_u16 v) = v ∧ swap_u32 (swap_u32 w) = w.
Proof.
  intros Hv Hw. split.
  - pose proof (Z.mod_pos_bound v 256 ltac:(lia)). pose proof (Z.div_mod v 256 ltac:(lia)).
    assert (0 ≤ v / 256 < 256)
      by (split; [apply Z.div_pos; lia|apply Z.div_lt_upper_bound; lia]).
    rewrite (swap_u16_eq v), swap_u16_eq by lia.
    rewrite (Z.add_comm (v mod 256 * 256)), Z_mod_plus_full, Z.div_add by lia.
    rewrite (Z.mod_small (v / 256)), (Z.div_small (v / 256)) by lia. lia.
  - destruct (u32_bytes w Hw) as (b0 & b1 & b2 & b3 & ? & ? & ? & ? & ->).
    by rewrite !swap_u32_bytes.
Qed.

(** ** Concrete inputs *)

Lemma checksum16_correct_witness :
  checksum16 0 [69; 0; 0; 28; 171] 5 0 true =
    Ok (65535 - norm (wsum false [69; 0; 0; 28; 171])).
Proof.
  apply (checksum16_correct 0 [69; 0; 0; 28; 171] 5 0 true);
    [forall_elems; unfold is_byte; lia|cbn; lia|lia|done|lia].
Defined.


