(* ===== verification/ListH.v ===== *)
(** * Intrusive circular lists: [util/list.h]

    A list is a ring of [List_entry] cells in a shared store; the ring's head is
    a cell that carries no element.  [is_list h hd es] says the ring at [hd]
    holds exactly the elements [es], in order; the operations' theorems relate
    each pointer manipulation to the operation on [es] and leave every other
    cell alone, so the components that keep such lists model them as lists. *)
From S2P Require Import Prelude.

Record List_entry := mk_entry { prev : Z; next : Z }.

(** The store: an address with no cell is not dereferenceable. *)
Abbreviation heap := (gmap Z List_entry).

(** ** Operations *)

Definition list_next (listelem : Z) : M heap Z :=
  h ← gets (lookup listelem); e ← of_option h; mret (next e).

Definition list_prev (listelem : Z) : M heap Z :=
  h ← gets (lookup listelem); e ← of_option h; mret (prev e).

(** [a->next = v] and [a->prev = v]. *)
Definition set_next (a v : Z) : M heap unit :=
  h ← gets (lookup a); e ← of_option h; modify (insert a (mk_entry (prev e) v)).

Definition set_prev (a v : Z) : M heap unit :=
  h ← gets (lookup a); e ← of_option h; modify (insert a (mk_entry v (next e))).

Definition list_init (elem : Z) : M heap unit :=
  set_next elem elem;; set_prev elem elem.

(** [prev->next = next->prev = elem; elem->next = next; elem->prev = prev]. *)
Definition __list_add (elem prev next : Z) : M heap unit :=
  set_prev next elem;; set_next prev elem;;
  set_next elem next;; set_prev elem prev.

Definition list_add_before (listelem elem : Z) : M heap unit :=
  p ← list_prev listelem; __list_add elem p listelem.

Definition list_add_after (listelem elem : Z) : M heap unit :=
  n ← list_next listelem; __list_add elem listelem n.

Definition list_add (listelem elem : Z) : M heap unit := list_add_before listelem elem.

Definition __list_del (prev next : Z) : M heap unit :=
  set_next prev next;; set_prev next prev.

Definition list_del (listelem : Z) : M heap unit :=
  p ← list_prev listelem; n ← list_next listelem; __list_del p n.

Definition list_del_init (listelem : Z) : M heap unit :=
  list_del listelem;; list_init listelem.

Definition list_empty (list : Z) : M heap bool :=
  n ← list_next list; mret (bool_decide (n = list)).

(** A ring has at most as many cells as the store: the loops' fuel. *)
Definition list_count (elem : Z) : M heap Z :=
  le ← list_next elem;
  fuel ← gets size;
  loop (S fuel) (λ '(le, count),
    if decide (le = elem) then mret (inr count)
    else le' ← list_next le; mret (inl (le', u64 (count + 1)))) (le, 0).

Definition list_contains (head elem : Z) : M heap bool :=
  le ← list_next head;
  fuel ← gets size;
  loop (S fuel) (λ le,
    if decide (le = head) then mret (inr false)
    else if decide (le = elem) then mret (inr true)
    else le' ← list_next le; mret (inl le')) le.

(** [list_for_each(le, head)] over a state that holds the cells: [nx] follows a
    link, [bound] counts cells, [L] are the locals; the body leaves with [inr],
    which is a [break] or a [return]; at the end of the list the locals come out. *)
Definition for_each {S L A} (nx : Z → M S Z) (bound : M S nat) (head : Z)
    (body : L → Z → M S (L + A)) (l : L) : M S (L + A) :=
  le ← nx head;
  fuel ← bound;
  loop (Datatypes.S fuel) (λ '(le, l),
    if decide (le = head) then mret (inr (inl l))
    else
      r ← body l le;
      match r with
      | inr a => mret (inr (inr a))
      | inl l' => le' ← nx le; mret (inl (le', l'))
      end) (le, l).

(** The locals after a walk that the body never leaves. *)
Definition walked {L} (r : L + Empty_set) : L :=
  match r with inl l => l | inr e => match e with end end.

Definition list_join (list1 list2 : Z) : M heap unit :=
  e ← list_empty list2;
  if (e : bool) then mret tt
  else
    p1 ← list_prev list1; n2 ← list_next list2; set_next p1 n2;;
    n2 ← list_next list2; p1 ← list_prev list1; set_prev n2 p1;;
    p2 ← list_prev list2; set_next p2 list1;;
    p2 ← list_prev list2; set_prev list1 p2;;
    list_init list2.

(** ** Representation *)

Definition nxt (h : heap) (a : Z) : option Z := next <$> h !! a.
Definition prv (h : heap) (a : Z) : option Z := prev <$> h !! a.

Definition linked (h : heap) (a b : Z) : Prop := nxt h a = Some b ∧ prv h b = Some a.

(** The cells from [a] through [es] to [b] are doubly linked in that order. *)
Fixpoint lseg (h : heap) (a : Z) (es : list Z) (b : Z) : Prop :=
  match es with
  | [] => linked h a b
  | e :: es' => linked h a e ∧ lseg h e es' b
  end.

Definition is_list (h : heap) (hd : Z) (es : list Z) : Prop :=
  NoDup (hd :: es) ∧ lseg h hd es hd.

#[export] Instance linked_dec h a b : Decision (linked h a b).
Proof. unfold linked. apply _. Defined.

#[export] Instance lseg_dec h a es b : Decision (lseg h a es b).
Proof. revert a. induction es as [|e es IH]; intros a; cbn [lseg]; apply _. Defined.

#[export] Instance is_list_dec h hd es : Decision (is_list h hd es).
Proof. unfold is_list. apply _. Defined.

(** ** The effect of a write *)

Lemma nxt_dom h a : a ∈ dom h ↔ is_Some (nxt h a).
Proof. rewrite elem_of_dom. unfold nxt. by rewrite fmap_is_Some. Qed.

Lemma prv_dom h a : a ∈ dom h ↔ is_Some (prv h a).
Proof. rewrite elem_of_dom. unfold prv. by rewrite fmap_is_Some. Qed.

Definition upd (f : Z → option Z) (a v : Z) : Z → option Z :=
  λ u, if decide (u = a) then Some v else f u.

Lemma upd_eq f a v : upd f a v a = Some v.
Proof. unfold upd. by rewrite decide_True. Qed.

Lemma upd_ne f a v u : u ≠ a → upd f a v u = f u.
Proof. intros. unfold upd. by rewrite decide_False. Qed.

(** [h'] has the cells of [h] with the links [n] and [p]. *)
Definition links (h h' : heap) (n p : Z → option Z) : Prop :=
  dom h' = dom h ∧ (∀ u, nxt h' u = n u) ∧ (∀ u, prv h' u = p u).

Lemma wp_set_next a v h (Q : unit → heap → Prop) :
  a ∈ dom h → (∀ h', links h h' (upd (nxt h) a v) (prv h) → Q tt h') →
  wp (set_next a v) h Q.
Proof.
  intros [e He]%elem_of_dom HQ. unfold set_next.
  rewrite wp_bind, wp_gets, wp_bind, wp_of_option. exists e. split; [done|].
  rewrite wp_modify. apply HQ. split_and!.
  - rewrite dom_insert_L. assert (a ∈ dom h) by (by apply elem_of_dom). set_solver.
  - intros u. unfold nxt, upd. destruct (decide (u = a)) as [->|].
    + by rewrite lookup_insert_eq.
    + by rewrite lookup_insert_ne.
  - intros u. unfold prv. destruct (decide (u = a)) as [->|].
    + by rewrite lookup_insert_eq, He.
    + by rewrite lookup_insert_ne.
Qed.

Lemma wp_set_prev a v h (Q : unit → heap → Prop) :
  a ∈ dom h → (∀ h', links h h' (nxt h) (upd (prv h) a v) → Q tt h') →
  wp (set_prev a v) h Q.
Proof.
  intros [e He]%elem_of_dom HQ. unfold set_prev.
  rewrite wp_bind, wp_gets, wp_bind, wp_of_option. exists e. split; [done|].
  rewrite wp_modify. apply HQ. split_and!.
  - rewrite dom_insert_L. assert (a ∈ dom h) by (by apply elem_of_dom). set_solver.
  - intros u. unfold nxt. destruct (decide (u = a)) as [->|].
    + by rewrite lookup_insert_eq, He.
    + by rewrite lookup_insert_ne.
  - intros u. unfold prv, upd. destruct (decide (u = a)) as [->|].
    + by rewrite lookup_insert_eq.
    + by rewrite lookup_insert_ne.
Qed.

Lemma wp_list_next a b h (Q : Z → heap → Prop) :
  nxt h a = Some b → Q b h → wp (list_next a) h Q.
Proof.
  unfold nxt. intros (e & He & ->)%fmap_Some HQ. unfold list_next.
  rewrite wp_bind, wp_gets, wp_bind, wp_of_option. by exists e.
Qed.

Lemma wp_list_prev a b h (Q : Z → heap → Prop) :
  prv h a = Some b → Q b h → wp (list_prev a) h Q.
Proof.
  unfold prv. intros (e & He & ->)%fmap_Some HQ. unfold list_prev.
  rewrite wp_bind, wp_gets, wp_bind, wp_of_option. by exists e.
Qed.

(** ** Segments *)

Lemma linked_frame h h' a b :
  nxt h' a = nxt h a → prv h' b = prv h b → linked h a b → linked h' a b.
Proof. unfold linked. by intros -> ->. Qed.

Lemma lseg_frame h h' a es b :
  (∀ u, u ∈ a :: es → nxt h' u = nxt h u) →
  (∀ u, u ∈ es ++ [b] → prv h' u = prv h u) →
  lseg h a es b → lseg h' a es b.
Proof.
  revert a. induction es as [|e es IH]; intros a Hn Hp; cbn.
  - apply linked_frame; [apply Hn|apply Hp]; set_solver.
  - intros [Hl Hs]. split.
    + eapply linked_frame, Hl; [apply Hn|apply Hp]; set_solver.
    + apply IH, Hs; intros u Hu; [apply Hn|apply Hp]; set_solver.
Qed.

Lemma lseg_app h a l1 c l2 b :
  lseg h a (l1 ++ c :: l2) b ↔ lseg h a l1 c ∧ lseg h c l2 b.
Proof.
  revert a. induction l1 as [|e l1 IH]; intros a; cbn; [done|].
  rewrite IH. naive_solver.
Qed.

Lemma lseg_first h a l b : lseg h a l b → nxt h a = Some (default b (head l)).
Proof. destruct l; cbn; unfold linked; naive_solver. Qed.

Lemma lseg_last h a l b : lseg h a l b → prv h b = Some (default a (last l)).
Proof.
  destruct l as [|x l] using rev_ind; [cbn; unfold linked; naive_solver|].
  rewrite last_snoc, lseg_app. cbn. unfold linked. naive_solver.
Qed.

Lemma lseg_dom h a l b u : lseg h a l b → u ∈ a :: l ++ [b] → u ∈ dom h.
Proof.
  revert a. induction l as [|e l IH]; intros a; cbn.
  - intros [Hn Hp] Hu. assert (u = a ∨ u = b) as [->| ->] by set_solver.
    + apply nxt_dom. by eexists.
    + apply prv_dom. by eexists.
  - intros [[Hn _] Hs] Hu. apply elem_of_cons in Hu as [->|Hu]; [|by eapply IH].
    apply nxt_dom. by eexists.
Qed.

(** Linking [e] in between the end of [l1] and the start of [l2]. *)
Lemma lseg_insert h h' a l1 l2 b e :
  NoDup (a :: l1 ++ l2) → NoDup (l1 ++ l2 ++ [b]) →
  lseg h a (l1 ++ l2) b →
  (∀ u, u ∈ a :: l1 ++ l2 → u ≠ default a (last l1) → nxt h' u = nxt h u) →
  (∀ u, u ∈ l1 ++ l2 ++ [b] → u ≠ default b (head l2) → prv h' u = prv h u) →
  linked h' (default a (last l1)) e → linked h' e (default b (head l2)) →
  lseg h' a (l1 ++ e :: l2) b.
Proof.
  revert a. induction l1 as [|c l1 IH]; intros a N1 N2 Hs Hn Hp L1 L2; cbn in *.
  - split; [done|]. destruct l2 as [|c l2]; [done|]. cbn in *. split; [done|].
    eapply lseg_frame, Hs.
    + intros u Hu. apply Hn; [set_solver|]. apply NoDup_cons in N1 as [? _]. set_solver.
    + intros u Hu. apply Hp; [set_solver|]. apply NoDup_cons in N2 as [? _]. set_solver.
  - destruct Hs as [Hl Hs].
    assert (default a (last (c :: l1)) = default c (last l1)) as Ed
      by (rewrite last_cons; by destruct (last l1)).
    rewrite Ed in *.
    assert (default c (last l1) ∈ c :: l1) as Hin.
    { destruct (last l1) eqn:El; cbn; [|set_solver].
      apply last_Some_elem_of in El. set_solver. }
    apply NoDup_cons in N1 as [Na N1]. apply NoDup_cons in N2 as [Nc N2].
    assert (default b (head l2) ∈ l2 ++ [b]) as Hy by (destruct l2; cbn; set_solver).
    split.
    + eapply linked_frame, Hl; [apply Hn|apply Hp]; set_solver.
    + apply IH; try done.
      * intros u Hu. apply Hn. set_solver.
      * intros u Hu. apply Hp. set_solver.
Qed.

(** Unlinking [e] from between [l1] and [l2]. *)
Lemma lseg_remove h h' a l1 e l2 b :
  NoDup (a :: l1 ++ e :: l2) → NoDup (l1 ++ e :: l2 ++ [b]) →
  lseg h a (l1 ++ e :: l2) b →
  (∀ u, u ∈ a :: l1 ++ l2 → u ≠ default a (last l1) → nxt h' u = nxt h u) →
  (∀ u, u ∈ l1 ++ l2 ++ [b] → u ≠ default b (head l2) → prv h' u = prv h u) →
  linked h' (default a (last l1)) (default b (head l2)) →
  lseg h' a (l1 ++ l2) b.
Proof.
  revert a. induction l1 as [|c l1 IH]; intros a N1 N2 Hs Hn Hp L; cbn in *.
  - destruct Hs as [_ Hs]. destruct l2 as [|c l2]; [done|]. cbn in *. split; [done|].
    destruct Hs as [_ Hs]. eapply lseg_frame, Hs.
    + intros u Hu. apply Hn; [set_solver|].
      apply NoDup_cons in N1 as [? _]. set_solver.
    + intros u Hu. apply Hp; [set_solver|].
      apply NoDup_cons in N2 as [_ [? _]%NoDup_cons]. set_solver.
  - destruct Hs as [Hl Hs].
    assert (default a (last (c :: l1)) = default c (last l1)) as Ed
      by (rewrite last_cons; by destruct (last l1)).
    rewrite Ed in *.
    assert (default c (last l1) ∈ c :: l1) as Hin.
    { destruct (last l1) eqn:El; cbn; [|set_solver].
      apply last_Some_elem_of in El. set_solver. }
    apply NoDup_cons in N1 as [Na N1]. apply NoDup_cons in N2 as [Nc N2].
    assert (default b (head l2) ∈ l2 ++ [b]) as Hy by (destruct l2; cbn; set_solver).
    split.
    + eapply linked_frame, Hl; [apply Hn|apply Hp]; set_solver.
    + apply IH; try done.
      * intros u Hu. apply Hn. set_solver.
      * intros u Hu. apply Hp. set_solver.
Qed.

(** ** The operations on rings *)

(** Only the links of the cells in [cells] may differ between [h] and [h']. *)
Definition touches (cells : list Z) (h h' : heap) : Prop :=
  dom h' = dom h ∧ ∀ u, u ∉ cells → h' !! u = h !! u.

Lemma cell_eq h h' u : nxt h' u = nxt h u → prv h' u = prv h u → h' !! u = h !! u.
Proof.
  unfold nxt, prv. destruct (h' !! u) as [[]|], (h !! u) as [[]|]; cbn; naive_solver.
Qed.

Lemma is_list_frame h h' hd es cells :
  is_list h hd es → touches cells h h' → (∀ u, u ∈ hd :: es → u ∉ cells) →
  is_list h' hd es.
Proof.
  intros [Hnd Hs] [_ Ht] Hd. split; [done|].
  eapply lseg_frame, Hs; intros u Hu; unfold nxt, prv;
    rewrite Ht; try done; apply Hd; set_solver.
Qed.

(** A ring depends on its own cells only. *)
Lemma is_list_same h h' hd es :
  is_list h hd es → (∀ u, u ∈ hd :: es → h' !! u = h !! u) → is_list h' hd es.
Proof.
  intros [Hnd Hs] He. split; [done|].
  eapply lseg_frame, Hs; intros u Hu; unfold nxt, prv; rewrite He; set_solver.
Qed.

(** The links from [a] lead to the cells [es] in turn. *)
Fixpoint path (h : heap) (a : Z) (es : list Z) : Prop :=
  match es with [] => True | e :: es' => nxt h a = Some e ∧ path h e es' end.

Lemma lseg_path h a es b : lseg h a es b → path h a es.
Proof. revert a. induction es as [|e es IH]; intros a; cbn; [done|]. intros [[? _] ?]. auto. Qed.

Lemma path_same h h' a es :
  path h a es → (∀ u, u ∈ a :: es → last (a :: es) ≠ Some u → nxt h' u = nxt h u) → NoDup (a :: es) →
  path h' a es.
Proof.
  revert a. induction es as [|e es IH]; intros a; cbn [path]; [done|].
  intros [Hn Hp] He [Ha Hnd]%NoDup_cons. split.
  - rewrite He; [done|set_solver|]. cbn [last]. intros El. apply Ha.
    apply last_Some in El as [l' El]. rewrite El. set_solver.
  - apply IH; [done| |done]. intros u Hu Hl. apply He; [set_solver|]. by cbn [last].
Qed.

Lemma path_dom h a es e u : path h a (es ++ [e]) → u ∈ a :: es → u ∈ dom h.
Proof.
  revert a. induction es as [|x es IH]; intros a; cbn [app path]; intros [Hn Hp] Hu.
  - apply nxt_dom. assert (u = a) as -> by set_solver. eauto.
  - apply elem_of_cons in Hu as [-> |Hu]; [apply nxt_dom; eauto|by eapply IH].
Qed.

Lemma path_size h a es e : path h a (es ++ [e]) → NoDup (a :: es) → (length es < size h)%nat.
Proof.
  intros Hp Hnd. rewrite <- size_dom.
  assert (list_to_set (a :: es) ⊆ dom h) as Hsub.
  { intros u Hu%elem_of_list_to_set. by eapply path_dom. }
  apply subseteq_size in Hsub. rewrite size_list_to_set in Hsub by done. cbn in Hsub. lia.
Qed.

Lemma wp___list_add e p n h (Q : unit → heap → Prop) :
  e ∈ dom h → p ∈ dom h → n ∈ dom h →
  (∀ h', links h h' (upd (upd (nxt h) p e) e n) (upd (upd (prv h) n e) e p) → Q tt h') →
  wp (__list_add e p n) h Q.
Proof.
  intros He Hp Hn HQ. unfold __list_add.
  apply wp_bind, wp_set_prev; [done|]. intros h1 (D1 & N1 & P1).
  apply wp_bind, wp_set_next; [by rewrite D1|]. intros h2 (D2 & N2 & P2).
  apply wp_bind, wp_set_next; [by rewrite D2, D1|]. intros h3 (D3 & N3 & P3).
  apply wp_set_prev; [by rewrite D3, D2, D1|]. intros h4 (D4 & N4 & P4).
  apply HQ. split_and!; [congruence|..]; intros u.
  - rewrite N4, N3. unfold upd. case_decide; [done|].
    rewrite N2. unfold upd. case_decide; [done|]. apply N1.
  - rewrite P4. unfold upd. case_decide; [done|].
    rewrite P3, P2, P1. done.
Qed.

Lemma NoDup_rot (hd : Z) es : NoDup (hd :: es) → NoDup (es ++ [hd]).
Proof. intros H. by rewrite <- Permutation_cons_append. Qed.

Lemma default_last_in (a : Z) l : default a (last l) ∈ a :: l.
Proof.
  destruct (last l) eqn:E; cbn; [|set_solver]. apply last_Some_elem_of in E. set_solver.
Qed.

Lemma default_head_in (b : Z) l : default b (head l) ∈ b :: l.
Proof. destruct l; cbn; set_solver. Qed.

(** Inserting [e] between two neighbours of a ring. *)
Lemma wp_insert hd l1 l2 e h (Q : unit → heap → Prop) :
  is_list h hd (l1 ++ l2) → e ∉ hd :: l1 ++ l2 → e ∈ dom h →
  (∀ h', is_list h' hd (l1 ++ e :: l2) → touches (e :: hd :: l1 ++ l2) h h' → Q tt h') →
  wp (__list_add e (default hd (last l1)) (default hd (head l2))) h Q.
Proof.
  intros [Hnd Hs] Hni He HQ.
  pose proof (default_last_in hd l1) as Hx. pose proof (default_head_in hd l2) as Hy.
  set (x := default hd (last l1)) in *. set (y := default hd (head l2)) in *.
  assert (x ≠ e ∧ y ≠ e) as [Hxe Hye] by set_solver.
  apply wp___list_add; [done|eapply lseg_dom; [done|set_solver]..|].
  intros h' (D & N & P). apply HQ.
  - split.
    + rewrite <- Permutation_middle. apply NoDup_cons in Hnd as [??].
      apply NoDup_cons; split; [set_solver|]. apply NoDup_cons; split; [set_solver|done].
    + eapply lseg_insert; try done.
      * rewrite app_assoc. by apply NoDup_rot.
      * intros u Hu Hne. rewrite N, !upd_ne; set_solver.
      * intros u Hu Hne. rewrite P, !upd_ne; set_solver.
      * split; [by rewrite N, upd_ne, upd_eq|by rewrite P, upd_eq].
      * split; [by rewrite N, upd_eq|by rewrite P, upd_ne, upd_eq].
  - split; [done|]. intros u Hu. apply cell_eq.
    + rewrite N, !upd_ne; set_solver.
    + rewrite P, !upd_ne; set_solver.
Qed.

Lemma wp_list_add_before hd es e h (Q : unit → heap → Prop) :
  is_list h hd es → e ∉ hd :: es → e ∈ dom h →
  (∀ h', is_list h' hd (es ++ [e]) → touches (e :: hd :: es) h h' → Q tt h') →
  wp (list_add_before hd e) h Q.
Proof.
  intros Hl Hni He HQ. unfold list_add_before.
  apply wp_bind. eapply wp_list_prev; [by apply lseg_last, Hl|].
  apply (wp_insert hd es []); rewrite ?app_nil_r; done.
Qed.

(** Insertion after any cell [p] of the ring, the head included. *)
Lemma wp_list_add_after hd l1 l2 e h (Q : unit → heap → Prop) :
  is_list h hd (l1 ++ l2) → e ∉ hd :: l1 ++ l2 → e ∈ dom h →
  (∀ h', is_list h' hd (l1 ++ e :: l2) → touches (e :: hd :: l1 ++ l2) h h' → Q tt h') →
  wp (list_add_after (default hd (last l1)) e) h Q.
Proof.
  intros Hl Hni He HQ. unfold list_add_after.
  apply wp_bind. eapply wp_list_next; [|by apply wp_insert].
  destruct Hl as [_ Hs]. clear HQ.
  destruct l1 as [|x l1] using rev_ind; [by apply lseg_first in Hs|].
  rewrite last_snoc. rewrite <- app_assoc in Hs. cbn in Hs.
  apply lseg_app in Hs as [_ Hs]. by apply lseg_first in Hs.
Qed.

(** Insertion in front, when only the links forward are known. *)
Lemma wp_list_add_after_path hd es e e1 h (Q : unit → heap → Prop) :
  path h hd (es ++ [e1]) → NoDup (hd :: es ++ [e1]) → es ≠ [] → e ∉ hd :: es ++ [e1] → e ∈ dom h →
  (∀ h', path h' hd (e :: es ++ [e1]) → Q tt h') → wp (list_add_after hd e) h Q.
Proof.
  intros Hp Hnd Hne Hni He HQ. destruct es as [|x es]; [done|].
  pose proof (λ u Hu, path_dom h hd (x :: es) _ u Hp Hu) as Hdom. cbn [app] in *.
  destruct Hp as [Hn Hp]. unfold list_add_after. apply wp_bind. eapply wp_list_next; [exact Hn|].
  apply wp___list_add; [done|apply Hdom; set_solver..|]. intros h' (_ & N & _). apply HQ.
  apply NoDup_cons in Hnd as [Hx Hnd]. cbn [path].
  rewrite !N, upd_eq, upd_ne, upd_eq by set_solver. split_and!; [done..|].
  eapply path_same; [exact Hp| |done].
  intros u Hu _. rewrite N, !upd_ne; [done|..]; set_solver.
Qed.

Lemma wp___list_del p n h (Q : unit → heap → Prop) :
  p ∈ dom h → n ∈ dom h →
  (∀ h', links h h' (upd (nxt h) p n) (upd (prv h) n p) → Q tt h') →
  wp (__list_del p n) h Q.
Proof.
  intros Hp Hn HQ. unfold __list_del.
  apply wp_bind, wp_set_next; [done|]. intros h1 (D1 & N1 & P1).
  apply wp_set_prev; [by rewrite D1|]. intros h2 (D2 & N2 & P2).
  apply HQ. split_and!; [congruence|..]; intros u.
  - by rewrite N2, N1.
  - rewrite P2. unfold upd. case_decide; [done|]. apply P1.
Qed.

Lemma wp_list_del hd l1 e l2 h (Q : unit → heap → Prop) :
  is_list h hd (l1 ++ e :: l2) →
  (∀ h', is_list h' hd (l1 ++ l2) → touches (hd :: l1 ++ l2) h h' → Q tt h') →
  wp (list_del e) h Q.
Proof.
  intros [Hnd Hs] HQ. unfold list_del.
  pose proof Hs as [H1 H2]%lseg_app.
  pose proof (default_last_in hd l1) as Hx. pose proof (default_head_in hd l2) as Hy.
  apply wp_bind. eapply wp_list_prev; [by apply lseg_last in H1|].
  apply wp_bind. eapply wp_list_next; [by apply lseg_first in H2|].
  set (x := default hd (last l1)) in *. set (y := default hd (head l2)) in *.
  apply wp___list_del; [apply (lseg_dom _ _ _ _ _ Hs); set_solver..|].
  intros h' (D & N & P). apply HQ.
  - split.
    + rewrite <- Permutation_middle in Hnd.
      apply NoDup_cons in Hnd as [? [??]%NoDup_cons].
      apply NoDup_cons. split; [set_solver|done].
    + eapply lseg_remove; try done.
      * rewrite app_comm_cons, app_assoc. by apply NoDup_rot.
      * intros u Hu Hne. by rewrite N, !upd_ne.
      * intros u Hu Hne. by rewrite P, !upd_ne.
      * split; [by rewrite N, upd_eq|by rewrite P, upd_eq].
  - split; [done|]. intros u Hu. apply cell_eq.
    + rewrite N, !upd_ne; set_solver.
    + rewrite P, !upd_ne; set_solver.
Qed.

Lemma wp_list_init e h (Q : unit → heap → Prop) :
  e ∈ dom h → (∀ h', is_list h' e [] → touches [e] h h' → Q tt h') →
  wp (list_init e) h Q.
Proof.
  intros He HQ. unfold list_init.
  apply wp_bind, wp_set_next; [done|]. intros h1 (D1 & N1 & P1).
  apply wp_set_prev; [by rewrite D1|]. intros h2 (D2 & N2 & P2).
  apply HQ.
  - split; [apply NoDup_singleton|]. split; [by rewrite N2, N1, upd_eq|by rewrite P2, upd_eq].
  - split; [congruence|]. intros u Hu. apply cell_eq.
    + rewrite N2, N1, upd_ne; set_solver.
    + rewrite P2, upd_ne, P1; set_solver.
Qed.

(** Insertion in front of any cell of a ring, the head included. *)
Lemma wp_list_add_before_at hd l1 l2 e h (Q : unit → heap → Prop) :
  is_list h hd (l1 ++ l2) → e ∉ hd :: l1 ++ l2 → e ∈ dom h →
  (∀ h', is_list h' hd (l1 ++ e :: l2) → touches (e :: hd :: l1 ++ l2) h h' → Q tt h') →
  wp (list_add_before (default hd (head l2)) e) h Q.
Proof.
  intros Hl Hni He HQ. unfold list_add_before. apply wp_bind.
  eapply wp_list_prev; [|by apply wp_insert]. destruct Hl as [_ Hs]. clear HQ.
  destruct l2 as [|x l2]; [rewrite app_nil_r in Hs; by apply lseg_last in Hs|].
  apply lseg_app in Hs as [Hs _]. by apply lseg_last in Hs.
Qed.

(** A cell taken out of a ring is a ring of its own. *)
Lemma wp_list_del_init hd l1 e l2 h (Q : unit → heap → Prop) :
  is_list h hd (l1 ++ e :: l2) →
  (∀ h', is_list h' hd (l1 ++ l2) → is_list h' e [] → touches (e :: hd :: l1 ++ l2) h h' → Q tt h') →
  wp (list_del_init e) h Q.
Proof.
  intros Hl HQ. unfold list_del_init. apply wp_bind. eapply wp_list_del; [exact Hl|].
  intros h1 Hl1 [D1 T1]. destruct Hl as [Hnd Hs].
  assert (e ∉ hd :: l1 ++ l2) as Hne.
  { rewrite <- Permutation_middle, Permutation_swap in Hnd. by apply NoDup_cons in Hnd as [? _]. }
  apply wp_list_init; [rewrite D1; eapply lseg_dom; [exact Hs|set_solver]|].
  intros h2 He [D2 T2]. apply HQ; [|done|].
  - eapply is_list_frame; [exact Hl1|by split|]. intros u Hu ->%list_elem_of_singleton. done.
  - split; [congruence|]. intros u Hu. rewrite T2, T1; [done|set_solver..].
Qed.

Lemma wp_list_empty hd es h (Q : bool → heap → Prop) :
  is_list h hd es → Q (bool_decide (es = [])) h → wp (list_empty hd) h Q.
Proof.
  intros [Hnd Hs] HQ. unfold list_empty.
  apply wp_bind. eapply wp_list_next; [by apply lseg_first in Hs|].
  rewrite wp_ret. replace (bool_decide _) with (bool_decide (es = [])); [done|].
  apply bool_decide_ext. destruct es; cbn; [done|].
  apply NoDup_cons in Hnd as [Hn _]. split; [done|]. intros ->. set_solver.
Qed.

Lemma is_list_size h hd es : is_list h hd es → (length es < size h)%nat.
Proof.
  intros [Hnd Hs]. rewrite <- size_dom.
  assert (list_to_set (hd :: es) ⊆ dom h) as Hsub.
  { intros u Hu%elem_of_list_to_set. eapply lseg_dom; [done|set_solver]. }
  apply subseteq_size in Hsub. rewrite size_list_to_set in Hsub by done. cbn in Hsub. lia.
Qed.

(** Walking a ring: after the elements [l1] the cursor is at the head of [l2]. *)
Lemma lseg_walk h a l1 x l2 b :
  lseg h a (l1 ++ x :: l2) b → nxt h x = Some (default b (head l2)).
Proof. intros [_ Hs]%lseg_app. by apply lseg_first in Hs. Qed.

(** A walk stops where its body does. *)
Lemma for_each_undef {S L A} (h : heap) (w : S) (nx : Z → M S Z) (bound : M S nat) n hd es e
    (body : L → Z → M S (L + A)) (P : L → Prop) l :
  path h hd (es ++ [e]) → hd ∉ es ++ [e] → (∀ a b, nxt h a = Some b → nx a w = Ok (b, w)) →
  bound w = Ok (n, w) → (length es ≤ n)%nat →
  (∀ l a, a ∈ es → P l → ∃ l', body l a w = Ok (inl l', w) ∧ P l') →
  (∀ l, P l → body l e w = Undef) → P l → for_each nx bound hd body l w = Undef.
Proof.
  intros Hp Hhd Hnx Hbd Hn Hb He HP. unfold for_each.
  assert (∀ m es a l, path h a (es ++ [e]) → hd ∉ es ++ [e] → (length es ≤ m)%nat →
    (∀ l a, a ∈ es → P l → ∃ l', body l a w = Ok (inl l', w) ∧ P l') → P l →
    mbind (M := M S) (λ le, loop (Datatypes.S m) (λ '(le, l),
      if decide (le = hd) then mret (inr (inl l))
      else
        r ← body l le;
        match r with
        | inr a => mret (inr (inr a))
        | inl l' => le' ← nx le; mret (inl (le', l'))
        end) (le, l)) (nx a) w = Undef) as Hgen.
  { clear Hp Hhd Hn Hb n Hbd es l HP. induction m as [|m IH]; intros es a l Hp Hhd Hm Hb HP;
      (destruct es as [|x es]; cbn [app path length] in Hp, Hm;
        [|try lia]; destruct Hp as [Hx Hp];
        unfold mbind, M_bind; rewrite (Hnx _ _ Hx); cbn [loop]; unfold mbind, M_bind;
        rewrite decide_False by set_solver).
    1,2: by rewrite He.
    destruct (Hb l x) as (l' & Hl' & HP'); [set_solver|done|]. rewrite Hl'.
    specialize (IH es x l' Hp ltac:(set_solver) ltac:(lia) ltac:(intros; apply Hb; [set_solver|done]) HP').
    unfold mbind, M_bind in IH. destruct es as [|y es]; cbn [app path] in Hp; destruct Hp as [Hy _];
      rewrite (Hnx _ _ Hy) in IH |- *; exact IH. }
  specialize (Hgen n es hd l Hp Hhd Hn Hb HP). unfold mbind, M_bind in Hgen |- *.
  destruct es as [|y es]; cbn [app path] in Hp; destruct Hp as [Hy _];
    rewrite (Hnx _ _ Hy) in Hgen |- *; rewrite Hbd; exact Hgen.
Qed.

(** Loops that walk a ring: [P l1 l2] holds of the cursor at the head of [l2]
    when [l1] has been passed; the remaining elements are the measure. *)
Lemma wp_walk {S L A} (h : S) hd es (cur : L → Z) (P : list Z → L → Prop)
    (body : L → M S (L + A)) (Q : A → S → Prop) fuel l0 :
  (length es < fuel)%nat →
  (∀ l1 l2 l, es = l1 ++ l2 → cur l = default hd (head l2) → P l1 l →
     wp (body l) h (λ r s', match r with
       | inl l' => s' = h ∧ ∃ x l2', l2 = x :: l2' ∧
           cur l' = default hd (head l2') ∧ P (l1 ++ [x]) l'
       | inr a => Q a s'
       end)) →
  cur l0 = default hd (head es) → P [] l0 →
  wp (loop fuel body l0) h Q.
Proof.
  intros Hf Hbody Hc0 HP0.
  assert (∀ n fuel l1 l2 l, (length l2 <= n)%nat → (n < fuel)%nat → es = l1 ++ l2 →
    cur l = default hd (head l2) → P l1 l → wp (loop fuel body l) h Q) as Hgen.
  { clear fuel Hf l0 Hc0 HP0.
    induction n as [|n IH]; intros [|fuel] l1 l2 l Hn Hf E Hc HP; try lia;
      cbn [loop]; apply wp_bind;
      (eapply wp_conseq; [by eapply Hbody|]); intros [l'|a] s'; try done;
      intros (-> & x & l2' & -> & Hc' & HP'); cbn in Hn; [lia|].
    eapply (IH fuel (l1 ++ [x]) l2'); try done; try lia. by rewrite <- app_assoc. }
  by eapply (Hgen (length es) fuel [] es).
Qed.

(** A walk with a body that changes nothing until it leaves: [P l1 l] holds of
    the locals [l] when the elements [l1] have been passed. *)
Lemma wp_for_each_inv {S L A} (h : heap) (w : S) (nx : Z → M S Z) (bound : M S nat) n hd es
    (body : L → Z → M S (L + A)) (P : list Z → L → Prop) l (Q : L + A → S → Prop) :
  is_list h hd es → (∀ a b, nxt h a = Some b → nx a w = Ok (b, w)) →
  bound w = Ok (n, w) → (length es ≤ n)%nat →
  (∀ l1 e l2 l, es = l1 ++ e :: l2 → P l1 l → wp (body l e) w (λ r w',
     match r with inl l' => w' = w ∧ P (l1 ++ [e]) l' | inr a => Q (inr a) w' end)) →
  (∀ l, P es l → Q (inl l) w) → P [] l → wp (for_each nx bound hd body l) w Q.
Proof.
  intros [Hnd Hs] Hnx Hbd Hn Hb HQ H0. unfold for_each.
  apply wp_bind. eapply wp_of_run; [apply Hnx; by apply lseg_first in Hs|].
  apply wp_bind. eapply wp_of_run; [exact Hbd|].
  apply (wp_walk w hd es fst (λ l1 x, P l1 x.2)); [lia| |done|done].
  intros l1 l2 [le l'] E1 Ele HP. cbn in Ele, HP. subst le.
  destruct l2 as [|e l2]; cbn [head default].
  - rewrite decide_True by done. rewrite wp_ret. rewrite app_nil_r in E1. subst. by apply HQ.
  - assert (e ≠ hd) as Hne by (intros ->; apply NoDup_cons in Hnd as [Hx _]; set_solver).
    rewrite decide_False by done. apply wp_bind. eapply wp_conseq; [by eapply Hb|].
    intros [l''|a] w'; [|done]. intros [-> HP']. apply wp_bind.
    eapply wp_of_run; [apply Hnx; rewrite E1 in Hs; by eapply lseg_walk|].
    rewrite wp_ret. split; [done|]. by exists e, l2.
Qed.

(** A walk whose body changes the state, but not the ring. *)
Lemma wp_for_each_state {S L A} (h : S → heap) (nx : Z → M S Z) (bound : M S nat) hd es
    (body : L → Z → M S (L + A)) (I : list Z → L → S → Prop) l w (Q : L + A → S → Prop) :
  (∀ l1 l w, I l1 l w → is_list (h w) hd es) → (∀ w a b, nxt (h w) a = Some b → nx a w = Ok (b, w)) →
  wp bound w (λ n w', w' = w ∧ (length es ≤ n)%nat) →
  (∀ l1 e l2 l w, es = l1 ++ e :: l2 → I l1 l w → wp (body l e) w (λ r w',
     match r with inl l' => I (l1 ++ [e]) l' w' | inr a => Q (inr a) w' end)) →
  (∀ l w, I es l w → Q (inl l) w) → I [] l w → wp (for_each nx bound hd body l) w Q.
Proof.
  intros HI Hnx Hbd Hb HQ H0. unfold for_each. pose proof (HI _ _ _ H0) as Hl0. apply wp_bind.
  eapply wp_of_run; [apply Hnx; destruct Hl0 as [_ Hs]; by apply lseg_first in Hs|].
  apply wp_bind. eapply wp_conseq; [exact Hbd|]. intros n ? [-> Hn]. clear Hbd.
  assert (∀ m l1 l2 l w, es = l1 ++ l2 → (length l2 < m)%nat → I l1 l w →
    wp (loop m (λ '(le, l), if decide (le = hd) then mret (inr (inl l)) else
      r ← body l le;
      match r with
      | inr a => mret (inr (inr a))
      | inl l' => le' ← nx le; mret (inl (le', l'))
      end) (default hd (head l2), l)) w Q) as Hgen; [|by apply (Hgen _ [] es); [|lia|]].
  induction m as [|m IH]; intros l1 l2 l' w' E1 Hm HI1; [lia|]. cbn [loop]. apply wp_bind.
  pose proof (HI _ _ _ HI1) as [Hnd _]. destruct l2 as [|e l2]; cbn [head default].
  - rewrite decide_True by done. rewrite wp_ret, wp_ret. rewrite app_nil_r in E1. subst. by apply HQ.
  - assert (e ≠ hd) as Hne by (intros ->; apply NoDup_cons in Hnd as [Hx _]; set_solver).
    rewrite decide_False by done. apply wp_bind. eapply wp_conseq; [by eapply Hb|].
    intros [l''|a] w''; [|by rewrite wp_ret, wp_ret]. intros HI2. pose proof (HI _ _ _ HI2) as [_ Hs].
    apply wp_bind. eapply wp_of_run; [apply Hnx; rewrite E1 in Hs; by eapply lseg_walk|].
    rewrite wp_ret. apply (IH (l1 ++ [e]) l2); [by rewrite <- app_assoc|cbn in Hm; lia|done].
Qed.

(** What a walk computes whose body only reads. *)
Fixpoint walk {L A} (f : L → Z → L + A) (es : list Z) (l : L) : L + A :=
  match es with
  | [] => inl l
  | e :: es' => match f l e with inr a => inr a | inl l' => walk f es' l' end
  end.

Lemma wp_for_each_read {S L A} (h : heap) (w : S) (nx : Z → M S Z) (bound : M S nat) n hd es
    (body : L → Z → M S (L + A)) (f : L → Z → L + A) l (Q : L + A → S → Prop) :
  is_list h hd es → (∀ a b, nxt h a = Some b → nx a w = Ok (b, w)) →
  bound w = Ok (n, w) → (length es ≤ n)%nat →
  (∀ l le, le ∈ es → body l le w = Ok (f l le, w)) →
  Q (walk f es l) w → wp (for_each nx bound hd body l) w Q.
Proof.
  intros Hl Hnx Hbd Hn Hb HQ.
  eapply (wp_for_each_inv h w nx bound n hd es body
    (λ l1 l', ∀ l2, es = l1 ++ l2 → walk f l2 l' = walk f es l)); try done.
  - intros l1 e l2 l' E1 HP. eapply wp_of_run; [apply Hb; rewrite E1; set_solver|].
    specialize (HP _ E1). cbn [walk] in HP. destruct (f l' e) as [l''|a]; [|by rewrite HP].
    split; [done|]. intros l3 E3. rewrite <- app_assoc, E1 in E3.
    apply app_inv_head in E3 as [= <-]. done.
  - intros l' HP. specialize (HP [] ltac:(by rewrite app_nil_r)). cbn in HP. by rewrite HP.
  - intros l2 ->. done.
Qed.

Lemma wp_list_count hd es h (Q : Z → heap → Prop) :
  is_list h hd es → Q (u64 (zlen es)) h → wp (list_count hd) h Q.
Proof.
  intros Hl HQ. pose proof (is_list_size _ _ _ Hl). destruct (Hl) as [Hnd Hs].
  unfold list_count. apply wp_bind. eapply wp_list_next; [by apply lseg_first in Hs|].
  rewrite wp_bind, wp_gets.
  apply (wp_walk h hd es fst (λ l1 '(_, c), c = u64 (zlen l1))); try done; [lia|].
  intros l1 l2 [le c] E Hc ->. cbn in Hc. subst le. destruct l2 as [|x l2]; cbn.
  - rewrite decide_True by done. rewrite app_nil_r in E. by subst.
  - apply NoDup_cons in Hnd as [Hnd _].
    rewrite decide_False by (intros ->; set_solver).
    apply wp_bind. eapply wp_list_next; [subst; by eapply lseg_walk|].
    rewrite wp_ret. split; [done|]. exists x, l2. split_and!; try done.
    rewrite wrap_add_l, length_app. f_equal. cbn. lia.
Qed.

Lemma wp_list_contains hd es e h (Q : bool → heap → Prop) :
  is_list h hd es → e ≠ hd → Q (bool_decide (e ∈ es)) h → wp (list_contains hd e) h Q.
Proof.
  intros Hl Hne HQ. pose proof (is_list_size _ _ _ Hl). destruct (Hl) as [Hnd Hs].
  unfold list_contains. apply wp_bind. eapply wp_list_next; [by apply lseg_first in Hs|].
  rewrite wp_bind, wp_gets.
  apply (wp_walk h hd es id (λ l1 _, e ∉ l1)); try done; [lia| |set_solver].
  intros l1 l2 le E Hc He. cbn in Hc. subst le. destruct l2 as [|x l2]; cbn.
  - rewrite decide_True by done. rewrite app_nil_r in E. subst.
    by rewrite bool_decide_eq_false_2 in HQ.
  - apply NoDup_cons in Hnd as [Hnd _].
    rewrite decide_False by (intros ->; set_solver).
    destruct (decide (x = e)) as [Hx|Hx].
    + assert (e ∈ es) as Hin by (rewrite E, Hx; set_solver).
      by rewrite (bool_decide_eq_true_2 _ Hin) in HQ.
    + apply wp_bind. eapply wp_list_next; [subst; by eapply lseg_walk|].
      rewrite wp_ret. split; [done|]. exists x, l2. split_and!; try done. set_solver.
Qed.

(** Changing where a segment ends. *)
Lemma lseg_retarget h h' a l b b' :
  NoDup (a :: l) → lseg h a l b →
  (∀ u, u ∈ a :: l → u ≠ default a (last l) → nxt h' u = nxt h u) →
  (∀ u, u ∈ l → prv h' u = prv h u) →
  linked h' (default a (last l)) b' → lseg h' a l b'.
Proof.
  revert a. induction l as [|c l IH]; intros a Nd Hs Hn Hp L; cbn in *; [done|].
  destruct Hs as [Hl Hs].
  assert (default a (last (c :: l)) = default c (last l)) as Ed
    by (rewrite last_cons; by destruct (last l)).
  rewrite Ed in *. pose proof (default_last_in c l). apply NoDup_cons in Nd as [Na Nd].
  split.
  - eapply linked_frame, Hl; [apply Hn|apply Hp]; set_solver.
  - apply IH; try done; [|set_solver]. intros u Hu. apply Hn. set_solver.
Qed.

Lemma wp_list_join hd1 es1 hd2 es2 h (Q : unit → heap → Prop) :
  is_list h hd1 es1 → is_list h hd2 es2 →
  (∀ u, u ∈ hd1 :: es1 → u ∉ hd2 :: es2) →
  (∀ h', is_list h' hd1 (es1 ++ es2) → is_list h' hd2 [] →
     touches (hd1 :: es1 ++ hd2 :: es2) h h' → Q tt h') →
  wp (list_join hd1 hd2) h Q.
Proof.
  intros Hl1 Hl2 Hdis HQ. unfold list_join.
  apply wp_bind. eapply wp_list_empty; [exact Hl2|].
  destruct es2 as [|c l2].
  { cbn. apply HQ; [by rewrite app_nil_r|done|done]. }
  rewrite bool_decide_eq_false_2 by done.
  destruct Hl1 as [N1 S1], Hl2 as [N2 S2].
  pose proof (default_last_in hd1 es1) as Hx. pose proof (default_last_in c l2) as Hz.
  pose proof (lseg_last _ _ _ _ S1) as P1. pose proof (lseg_last _ _ _ _ S2) as P2.
  assert (default hd2 (last (c :: l2)) = default c (last l2)) as Ed
    by (rewrite last_cons; by destruct (last l2)).
  rewrite Ed in P2.
  set (x := default hd1 (last es1)) in *. set (z := default c (last l2)) in *.
  destruct S2 as [[Nc Pc] S2].
  assert (∀ u, u ∈ hd1 :: es1 → u ∈ dom h) as D1
    by (intros; eapply (lseg_dom _ _ _ _ _ S1); set_solver).
  assert (∀ u, u ∈ c :: l2 ++ [hd2] → u ∈ dom h) as D2
    by (intros; eapply (lseg_dom _ _ _ _ _ S2); set_solver).
  pose proof N2 as [Nh2 Nc2]%NoDup_cons.
  apply wp_bind. eapply wp_list_prev; [exact P1|].
  apply wp_bind. eapply wp_list_next; [exact Nc|].
  apply wp_bind, wp_set_next; [set_solver|]. intros h1 (E1 & A1 & B1).
  apply wp_bind. eapply wp_list_next; [rewrite A1, upd_ne; [exact Nc|set_solver]|].
  apply wp_bind. eapply wp_list_prev; [rewrite B1; exact P1|].
  apply wp_bind, wp_set_prev; [set_solver|]. intros h2 (E2 & A2 & B2).
  apply wp_bind. eapply wp_list_prev; [rewrite B2, upd_ne, B1; [exact P2|set_solver]|].
  apply wp_bind, wp_set_next; [set_solver|]. intros h3 (E3 & A3 & B3).
  apply wp_bind. eapply wp_list_prev; [rewrite B3, B2, upd_ne, B1; [exact P2|set_solver]|].
  apply wp_bind, wp_set_prev; [set_solver|]. intros h4 (E4 & A4 & B4).
  apply wp_list_init; [rewrite E4, E3, E2, E1; apply D2; clear; set_solver|]. intros h5 Hl5 [E5 T5].
  assert (∀ u, u ≠ hd2 → nxt h5 u = upd (upd (nxt h) x c) z hd1 u) as A5.
  { intros u Hu. transitivity (nxt h4 u); [unfold nxt; by rewrite T5; [|set_solver]|].
    rewrite A4, A3. unfold upd. case_decide; [done|]. by rewrite A2, A1. }
  assert (∀ u, u ≠ hd2 → prv h5 u = upd (upd (prv h) c x) hd1 z u) as B5.
  { intros u Hu. transitivity (prv h4 u); [unfold prv; by rewrite T5; [|set_solver]|].
    rewrite B4. unfold upd. case_decide; [done|]. rewrite B3, B2.
    unfold upd. case_decide; [done|apply B1]. }
  clear A1 A2 A3 A4 B1 B2 B3 B4 T5.
  assert (∀ u, u ∈ hd1 :: es1 → u ∈ c :: l2 → False) as Hm
    by (intros u Hu Hu'; apply (Hdis u Hu); by apply list_elem_of_further).
  assert (∀ u, u ∈ hd1 :: es1 → u ≠ hd2) as Hn2
    by (intros u Hu ->; apply (Hdis _ Hu), list_elem_of_here).
  assert (∀ u, u ∈ hd1 :: es1 → u ≠ z) as Hnz by (intros u Hu ->; by apply (Hm z)).
  assert (∀ u, u ∈ hd1 :: es1 → u ≠ c) as Hnc
    by (intros u Hu ->; apply (Hm c); [done|apply list_elem_of_here]).
  assert (z ≠ hd2) by (intros Hzz; by rewrite Hzz in Hz).
  assert (c ≠ hd2) by (intros Hzz; rewrite Hzz in Nh2; apply Nh2, list_elem_of_here).
  assert (hd1 ∈ hd1 :: es1) by apply list_elem_of_here.
  assert (c ≠ hd1) by (intros Hzz; by apply (Hnc hd1)).
  apply HQ; [|done|].
  - split.
    + rewrite app_comm_cons. apply NoDup_app. split_and!; [done| |done]. exact Hm.
    + apply lseg_app. split.
      * eapply lseg_retarget; [done|exact S1|..].
        -- intros u Hu Hne. rewrite A5, !upd_ne; [done|done|by apply Hnz|by apply Hn2].
        -- intros u Hu. apply NoDup_cons in N1 as [N1 _].
           rewrite B5, !upd_ne; [done|by apply Hnc, list_elem_of_further| |
             by apply Hn2, list_elem_of_further]. by intros ->.
        -- split; [rewrite A5, upd_ne, upd_eq|rewrite B5, upd_ne, upd_eq]; auto.
      * eapply lseg_retarget; [done|exact S2|..].
        -- intros u Hu Hne. rewrite A5, !upd_ne; [done| |done|].
           ++ intros ->. by apply (Hm x).
           ++ intros ->. done.
        -- intros u Hu. apply NoDup_cons in Nc2 as [Nc2 _].
           rewrite B5, !upd_ne; [done| | |].
           ++ by intros ->.
           ++ intros ->. apply (Hm hd1); [apply list_elem_of_here|by apply list_elem_of_further].
           ++ intros ->. apply Nh2. by apply list_elem_of_further.
        -- split; [rewrite A5, upd_eq|rewrite B5, upd_eq]; auto.
  - split; [congruence|]. intros u Hu.
    assert (∀ v, v ∈ hd1 :: es1 ++ hd2 :: c :: l2 → u ≠ v) as Hu' by (by intros v Hv ->).
    assert (u ≠ z) by (apply Hu'; clear -Hz; set_solver).
    assert (u ≠ x) by (apply Hu'; clear -Hx; set_solver).
    assert (u ≠ c ∧ u ≠ hd1 ∧ u ≠ hd2) as (? & ? & ?)
      by (split_and!; apply Hu'; clear; set_solver).
    apply cell_eq.
    + rewrite A5, !upd_ne; auto.
    + rewrite B5, !upd_ne; auto.
Qed.

(** ** Theorems *)

(** Insertion refines insertion into the list of elements *)
Theorem list_add_refines hd l1 l2 e h :
  is_list h hd (l1 ++ l2) → e ∉ hd :: l1 ++ l2 → e ∈ dom h →
  (∃ h', list_add_after (default hd (last l1)) e h = Ok (tt, h') ∧
     is_list h' hd (l1 ++ e :: l2) ∧ touches (e :: hd :: l1 ++ l2) h h') ∧
  (∃ h', list_add hd e h = Ok (tt, h') ∧
     is_list h' hd ((l1 ++ l2) ++ [e]) ∧ touches (e :: hd :: l1 ++ l2) h h').
Proof.
  intros Hl Hni He. split; apply wp_unit.
  - by eapply wp_list_add_after.
  - by eapply wp_list_add_before.
Qed.

(** Removal refines removal *)
Theorem list_del_refines hd l1 e l2 h :
  is_list h hd (l1 ++ e :: l2) →
  ∃ h', list_del e h = Ok (tt, h') ∧
    is_list h' hd (l1 ++ l2) ∧ touches (hd :: l1 ++ l2) h h'.
Proof.
  intros Hl. apply wp_unit. by eapply wp_list_del.
Qed.

(** Joining two rings *)
Theorem list_join_refines hd1 es1 hd2 es2 h :
  is_list h hd1 es1 → is_list h hd2 es2 →
  (∀ u, u ∈ hd1 :: es1 → u ∉ hd2 :: es2) →
  ∃ h', list_join hd1 hd2 h = Ok (tt, h') ∧
    is_list h' hd1 (es1 ++ es2) ∧ is_list h' hd2 [] ∧
    touches (hd1 :: es1 ++ hd2 :: es2) h h'.
Proof.
  intros H1 H2 Hd. apply wp_unit. by eapply wp_list_join.
Qed.

(** The walks terminate with the right answer *)
Theorem list_walks_correct hd es e h :
  is_list h hd es → e ≠ hd →
  list_count hd h = Ok (u64 (zlen es), h) ∧
  list_contains hd e h = Ok (bool_decide (e ∈ es), h) ∧
  list_empty hd h = Ok (bool_decide (es = []), h).
Proof.
  intros Hl Hne. split_and!; apply wp_result.
  - by eapply wp_list_count.
  - by eapply wp_list_contains.
  - by eapply wp_list_empty.
Qed.

(** ** Concrete rings

    Ring 1 holds 2 and 3, ring 5 holds 6, and 4 is on its own. *)

Definition rings : heap := list_to_map
  [(1, mk_entry 3 2); (2, mk_entry 1 3); (3, mk_entry 2 1); (4, mk_entry 4 4);
   (5, mk_entry 6 6); (6, mk_entry 5 5)].

Lemma ring1_ok : is_list rings 1 [2; 3].
Proof. split; [by apply (bool_decide_unpack _)|]. by repeat split. Qed.

Lemma ring5_ok : is_list rings 5 [6].
Proof. split; [by apply (bool_decide_unpack _)|]. by repeat split. Qed.

Lemma list_add_refines_witness :
  (∃ h', list_add_after 2 4 rings = Ok (tt, h') ∧ is_list h' 1 [2; 4; 3] ∧
     touches [4; 1; 2; 3] rings h') ∧
  (∃ h', list_add 1 4 rings = Ok (tt, h') ∧ is_list h' 1 [2; 3; 4] ∧
     touches [4; 1; 2; 3] rings h').
Proof.
  apply (list_add_refines 1 [2] [3] 4 rings);
    [apply ring1_ok|by apply (bool_decide_unpack _)|by apply (bool_decide_unpack _)].
Defined.

Lemma list_del_refines_witness :
  ∃ h', list_del 2 rings = Ok (tt, h') ∧ is_list h' 1 [3] ∧ touches [1; 3] rings h'.
Proof. apply (list_del_refines 1 [] 2 [3] rings), ring1_ok. Defined.

Lemma list_join_refines_witness :
  ∃ h', list_join 1 5 rings = Ok (tt, h') ∧ is_list h' 1 [2; 3; 6] ∧ is_list h' 5 [] ∧
    touches [1; 2; 3; 5; 6] rings h'.
Proof.
  apply (list_join_refines 1 [2; 3] 5 [6] rings); [apply ring1_ok|apply ring5_ok|].
  apply Forall_forall. by apply (bool_decide_unpack _).
Defined.

Lemma list_walks_correct_witness :
  list_count 1 rings = Ok (u64 2, rings) ∧
  list_contains 1 6 rings = Ok (bool_decide (6 ∈ [2; 3]), rings) ∧
  list_empty 1 rings = Ok (bool_decide ([2; 3] = []), rings).
Proof. apply (list_walks_correct 1 [2; 3] 6 rings); [apply ring1_ok|done]. Defined.
