(* ===== verification/Ipaddr.v ===== *)
(** * IPv4 addresses: [net/ipaddr.c], [net/ipaddr.h]

    An address is the 32-bit word [q_addr]; [a_addr] is the same word seen as
    four bytes, in the order they have in memory (network order, as the bytes of
    a dotted string).  [type] has a single value and is left out. *)
From S2P Require Import Prelude Errors.

Definition Ipaddr : Type := Z.

Definition IPV4_ADDR_BROADCAST : Z := 0xFFFFFFFF.

(** The union: the bytes of a word and the word of four bytes. *)
Definition a_addr (q : Ipaddr) : bytes :=
  [q mod 256; q / 256 mod 256; q / 65536 mod 256; q / 16777216 mod 256].
Definition q_addr (a : bytes) : Ipaddr := foldr (λ b acc, b + 256 * acc) 0 a.

(** ** Operations *)

Definition ipaddr_set_any : Ipaddr := 0.
Definition ipaddr_get_any : Ipaddr := 0.
Definition ipaddr_set_all_1 : Ipaddr := 0xFFFFFFFF.

(** [ipaddr_copy(dest, src)]: a null [dest] or [src] changes nothing. *)
Definition ipaddr_copy (dest src : option Ipaddr) : option Ipaddr :=
  match dest, src with Some _, Some q => Some q | _, _ => dest end.

Definition ipaddr_is_equal (ip1 ip2 : Ipaddr) : bool := ip1 =? ip2.
Definition ipaddr_is_any (ip : Ipaddr) : bool := ip =? 0.
Definition ipaddr_is_local_broadcast (ip : Ipaddr) : bool := ip =? IPV4_ADDR_BROADCAST.

Definition ipaddr_to_buf (src : Ipaddr) : bytes := a_addr src.
Definition ipaddr_from_buf (ip_buf : bytes) : Ipaddr := q_addr (take 4 ip_buf).

Definition ipaddr_get_host (ip netmask : Ipaddr) : Ipaddr := Z.land ip (u32 (Z.lnot netmask)).
Definition ipaddr_get_net (ip netmask : Ipaddr) : Ipaddr := Z.land ip netmask.

Definition ipaddr_is_direct_broadcast (ip netmask : Ipaddr) : bool :=
  ipaddr_get_host ip netmask =? Z.land IPV4_ADDR_BROADCAST (u32 (Z.lnot netmask)).

Definition ipaddr_is_match (dest src netmask : Ipaddr) : bool :=
  let dest_netid := ipaddr_get_net dest netmask in
  let src_netid := ipaddr_get_net src netmask in
  if ipaddr_is_local_broadcast dest then true
  else if ipaddr_is_direct_broadcast dest netmask && ipaddr_is_equal dest_netid src_netid
       then true
  else ipaddr_is_equal dest src.

(** [while (addr) { if (addr & 1) cnt++; addr >>= 1; }]: a 32-bit word takes at
    most 32 rounds. *)
Fixpoint count_ones (fuel : nat) (addr cnt : Z) : outcome Z :=
  if addr =? 0 then Ok cnt else
  match fuel with
  | O => NoFuel
  | S fuel' =>
      count_ones fuel' (Z.shiftr addr 1) (if Z.odd addr then cnt + 1 else cnt)
  end.
Definition ipaddr_1_cnt (ip : Ipaddr) : outcome Z := count_ones 32 ip 0.

(** The loop of [ipaddr_from_str]: [p] walks over [a_addr], a store past its end
    is undefined; [sub_addr] is a [uint8_t].  The string ends with its list. *)
Fixpoint parse_addr (str : bytes) (a : bytes) (p sub_addr : Z) : outcome (Z * bytes) :=
  let store := match zset a p sub_addr with Some a' => Ok a' | None => Undef end in
  match str with
  | [] => a' ← store; Ok (0, a')
  | c :: str' =>
      if (48 <=? c) && (c <=? 57) then parse_addr str' a p (u8 (sub_addr * 10 + c - 48))
      else if c =? 46 then a' ← store; parse_addr str' a' (p + 1) 0
      else Ok (- E_NET_PARAM, a)
  end.

(** The return value and the address at [dest]; a null pointer is [None]. *)
Definition ipaddr_from_str (dest : option Ipaddr) (str : option bytes)
    : outcome (Z * option Ipaddr) :=
  match dest, str with
  | Some _, Some s => '(r, a) ← parse_addr s (a_addr 0) 0 0; Ok (r, Some (q_addr a))
  | _, _ => Ok (- E_NET_PARAM, dest)
  end.

(** ** The union *)

Lemma q_addr_range a : length a = 4%nat → Forall is_byte a → 0 ≤ q_addr a < 2 ^ 32.
Proof.
  destruct a as [|a [|b [|c [|d []]]]]; try done. intros _ H.
  repeat apply Forall_cons in H as [? H]. unfold is_byte in *. cbn. lia.
Qed.

Lemma a_addr_q_addr a : length a = 4%nat → Forall is_byte a → a_addr (q_addr a) = a.
Proof.
  destruct a as [|a [|b [|c [|d []]]]]; try done. intros _ H.
  repeat apply Forall_cons in H as [? H]. unfold is_byte in *. unfold a_addr. cbn.
  f_equal; [|f_equal; [|f_equal; [|f_equal]]]; Z.div_mod_to_equations; lia.
Qed.

Lemma q_addr_a_addr q : 0 ≤ q < 2 ^ 32 → q_addr (a_addr q) = q.
Proof. intros H. unfold a_addr. cbn. Z.div_mod_to_equations. lia. Qed.

Lemma a_addr_bytes q : length (a_addr q) = 4%nat ∧ Forall is_byte (a_addr q).
Proof.
  split; [done|]. unfold a_addr. forall_elems; unfold is_byte;
    apply Z.mod_pos_bound; lia.
Qed.

(** ** Parsing *)

(** The decimal digits of a byte. *)
Definition decimal (n : Z) : bytes :=
  if n <? 10 then [48 + n]
  else if n <? 100 then [48 + n / 10; 48 + n mod 10]
  else [48 + n / 100; 48 + n / 10 mod 10; 48 + n mod 10].

#[local] Arguments decimal : simpl never.

Definition dotted (a b c d : Z) : bytes :=
  decimal a ++ [46] ++ decimal b ++ [46] ++ decimal c ++ [46] ++ decimal d.

Lemma parse_digit x str a p sub :
  0 ≤ x < 10 → 0 ≤ sub * 10 + x < 256 →
  parse_addr (48 + x :: str) a p sub = parse_addr str a p (sub * 10 + x).
Proof.
  intros Hx Hs. cbn [parse_addr].
  rewrite (proj2 (Z.leb_le 48 _)), (proj2 (Z.leb_le _ 57)) by lia. cbn [andb].
  by rewrite (wrap_small 8) by lia; do 2 f_equal; lia.
Qed.

Lemma parse_decimal n str a p :
  is_byte n → parse_addr (decimal n ++ str) a p 0 = parse_addr str a p n.
Proof.
  intros Hn. unfold is_byte in Hn. unfold decimal.
  destruct (Z.ltb_spec n 10); [|destruct (Z.ltb_spec n 100)]; cbn [app].
  - by rewrite parse_digit by lia.
  - pose proof (Z.div_mod n 10). pose proof (Z.mod_pos_bound n 10).
    rewrite !parse_digit by lia. f_equal. lia.
  - pose proof (Z.div_mod n 10). pose proof (Z.mod_pos_bound n 10).
    pose proof (Z.div_mod (n / 10) 10). pose proof (Z.mod_pos_bound (n / 10) 10).
    assert (n / 100 = n / 10 / 10) as E by (rewrite Z.div_div by lia; done).
    rewrite !E, !parse_digit by lia. f_equal. lia.
Qed.

Lemma parse_dot str a a' p sub :
  zset a p sub = Some a' → parse_addr (46 :: str) a p sub = parse_addr str a' (p + 1) 0.
Proof. cbn [parse_addr]. by intros ->. Qed.

Lemma parse_dotted a b c d str :
  is_byte a → is_byte b → is_byte c → is_byte d →
  parse_addr (dotted a b c d ++ str) (a_addr 0) 0 0 = parse_addr str [a; b; c; 0] 3 d.
Proof.
  intros. unfold dotted. rewrite <- !app_assoc, parse_decimal by done. cbn [app].
  erewrite (parse_dot _ (a_addr 0)), parse_decimal by done.
  erewrite parse_dot, parse_decimal by done.
  by erewrite parse_dot, parse_decimal by done.
Qed.

(** A dotted decimal string is parsed to the address it prints, and any other
    character than a digit or a dot, met within the first four numbers, is
    refused *)
Theorem ipaddr_from_str_parses dest a b c d x rest :
  is_byte a → is_byte b → is_byte c → is_byte d → x < 46 ∨ x = 47 ∨ 57 < x →
  ipaddr_from_str (Some dest) (Some (dotted a b c d)) = Ok (0, Some (q_addr [a; b; c; d])) ∧
  (∃ q, ipaddr_from_str (Some dest) (Some (dotted a b c d ++ x :: rest))
     = Ok (- E_NET_PARAM, Some q)).
Proof.
  intros Ha Hb Hc Hd Hx. unfold ipaddr_from_str. split.
  - by rewrite <- (app_nil_r (dotted a b c d)), parse_dotted.
  - rewrite parse_dotted by done. cbn [parse_addr].
    rewrite (proj2 (Z.eqb_neq x 46)) by lia.
    replace ((48 <=? x) && (x <=? 57)) with false; [by eexists|].
    symmetry. apply andb_false_iff. rewrite !Z.leb_gt. lia.
Qed.

Lemma ipaddr_from_str_parses_witness :
  ipaddr_from_str (Some 0) (Some (dotted 192 168 1 20)) = Ok (0, Some (q_addr [192; 168; 1; 20])) ∧
  (∃ q, ipaddr_from_str (Some 0) (Some (dotted 192 168 1 20 ++ [32])) = Ok (- E_NET_PARAM, Some q)).
Proof. apply (ipaddr_from_str_parses 0 192 168 1 20 32 []); unfold is_byte; lia. Defined.

(** ** Counting mask bits *)

Definition popcount_from (k w : nat) (x : Z) : Z :=
  foldr (λ i n, Z.b2z (Z.testbit x (Z.of_nat i)) + n) 0 (seq k w).
Definition popcount (x : Z) : Z := popcount_from 0 32 x.

Lemma popcount_shift k w x : popcount_from (S k) w x = popcount_from k w (Z.shiftr x 1).
Proof.
  revert k. induction w as [|w IH]; intros k; [done|].
  unfold popcount_from in *. cbn [seq foldr]. rewrite IH. f_equal.
  rewrite Z.shiftr_spec by lia. do 2 f_equal. lia.
Qed.

Lemma popcount_zero k w : popcount_from k w 0 = 0.
Proof.
  revert k. unfold popcount_from.
  induction w as [|w IH]; intros k; cbn [seq foldr]; [done|]. by rewrite IH, Z.bits_0.
Qed.

Lemma count_ones_spec w addr cnt :
  0 ≤ addr < 2 ^ Z.of_nat w → count_ones w addr cnt = Ok (cnt + popcount_from 0 w addr).
Proof.
  revert addr cnt. induction w as [|w IH]; intros addr cnt Ha.
  - replace addr with 0 by (cbn in Ha; lia). cbn. by rewrite Z.add_0_r.
  - cbn [count_ones]. destruct (Z.eqb_spec addr 0) as [->|Hnz].
    { by rewrite popcount_zero, Z.add_0_r. }
    rewrite IH.
    + unfold popcount_from at 2. cbn [seq foldr]. fold (popcount_from 1 w addr).
      rewrite popcount_shift. cbn [Z.of_nat]. rewrite Z.bit0_odd.
      destruct (Z.odd addr); cbn [Z.b2z]; f_equal; lia.
    + rewrite Z.shiftr_div_pow2 by lia. rewrite Nat2Z.inj_succ, Z.pow_succ_r in Ha by lia.
      split; [apply Z.div_pos; lia|]. apply Z.div_lt_upper_bound; lia.
Qed.

Lemma count_ones_word ip : 0 ≤ ip < 2 ^ 32 → ipaddr_1_cnt ip = Ok (popcount ip).
Proof. intros. unfold ipaddr_1_cnt. by rewrite count_ones_spec. Qed.

(** ** Matching *)

(** Complementing a prefix mask leaves the host bits. *)
Lemma host_bits netmask i :
  0 ≤ i < 32 → Z.testbit (u32 (Z.lnot netmask)) i = negb (Z.testbit netmask i).
Proof.
  intros Hi. unfold wrap. rewrite Z.mod_pow2_bits_low by lia. by rewrite Z.lnot_spec by lia.
Qed.

(** A destination matches an interface when it is the interface's address, the
    limited broadcast, or the broadcast address of the interface's network: the
    same network bits and every host bit set; and the number of mask bits is the
    population count of the mask *)
Theorem ipaddr_is_match_spec dest src netmask :
  0 ≤ dest < 2 ^ 32 → 0 ≤ src < 2 ^ 32 → 0 ≤ netmask < 2 ^ 32 →
  (ipaddr_is_match dest src netmask = true ↔
     dest = src ∨ dest = IPV4_ADDR_BROADCAST ∨
     (∀ i, 0 ≤ i < 32 → Z.testbit dest i =
        if Z.testbit netmask i then Z.testbit src i else true)) ∧
  ipaddr_1_cnt netmask = Ok (popcount netmask).
Proof.
  intros Hd Hs Hm. split; [|by apply count_ones_word].
  assert (ipaddr_is_direct_broadcast dest netmask &&
          ipaddr_is_equal (ipaddr_get_net dest netmask) (ipaddr_get_net src netmask) = true ↔
    (∀ i, 0 ≤ i < 32 → Z.testbit dest i =
        if Z.testbit netmask i then Z.testbit src i else true)) as Hb.
  { rewrite andb_true_iff. unfold ipaddr_is_direct_broadcast, ipaddr_is_equal.
    rewrite !Z.eqb_eq. unfold ipaddr_get_host, ipaddr_get_net. split.
    - intros [H1 H2] i Hi.
      apply (f_equal (λ z, Z.testbit z i)) in H1, H2. rewrite !Z.land_spec in H1, H2.
      rewrite host_bits in H1 by done.
      replace (Z.testbit IPV4_ADDR_BROADCAST i) with true in H1
        by (symmetry; apply (Z.ones_spec_low 32); lia).
      destruct (Z.testbit netmask i), (Z.testbit dest i), (Z.testbit src i); done.
    - intros H. assert (∀ x y i, 0 ≤ x < 2 ^ 32 → 32 ≤ i → Z.testbit (Z.land x y) i = false) as Hhi.
      { intros x y i Hx Hi. rewrite Z.land_spec, <- (Z.mod_small x (2 ^ 32)) by done.
        by rewrite Z.mod_pow2_bits_high by lia. }
      split; apply Z.bits_inj'; intros i Hi;
        (destruct (decide (i < 32)); [|by rewrite !Hhi by (unfold IPV4_ADDR_BROADCAST; lia)]);
        rewrite !Z.land_spec, H by lia.
      + rewrite host_bits by lia.
        replace (Z.testbit IPV4_ADDR_BROADCAST i) with true
          by (symmetry; apply (Z.ones_spec_low 32); lia).
        by destruct (Z.testbit netmask i), (Z.testbit src i).
      + by destruct (Z.testbit netmask i), (Z.testbit src i). }
  clear Hd Hs Hm. unfold ipaddr_is_match, ipaddr_is_local_broadcast. rewrite <- Hb. clear Hb.
  destruct (ipaddr_is_direct_broadcast _ _ && _);
    destruct (Z.eqb_spec dest IPV4_ADDR_BROADCAST); unfold ipaddr_is_equal;
    rewrite ?Z.eqb_eq; intuition congruence.
Qed.

Lemma ipaddr_is_match_spec_witness :
  (ipaddr_is_match 0xFF01A8C0 0x1401A8C0 0x00FFFFFF = true ↔
     0xFF01A8C0 = 0x1401A8C0 ∨ 0xFF01A8C0 = IPV4_ADDR_BROADCAST ∨
     (∀ i, 0 ≤ i < 32 → Z.testbit 0xFF01A8C0 i =
        if Z.testbit 0x00FFFFFF i then Z.testbit 0x1401A8C0 i else true)) ∧
  ipaddr_1_cnt 0x00FFFFFF = Ok (popcount 0x00FFFFFF).
Proof. apply (ipaddr_is_match_spec 0xFF01A8C0 0x1401A8C0 0x00FFFFFF); lia. Defined.
