(* ===== verification/Pktbuf.v ===== *)
(** * Packet buffers: [net/pktbuf.c], [net/pktbuf.h]

    A packet is a chain of 512-byte blocks; each block's data is a window of its
    payload, so headers are added in front and removed without copying.  All
    packets share one memory account ([pktbuf_head]).  The model keeps the
    blocks, the windows, the read/write cursor, the account and the spinlocks.

    A [Pktbuf *] is an address of the store [bufs], a [Pktblk *] the block's
    identifier and a pointer into a payload an offset, so a cursor left on a
    freed block dangles and its use is undefined, as in the code. *)
From S2P Require Import Prelude Errors Nettool.

Definition PKTBUF_BLK_SIZE : Z := 512.
Definition PKTBUF_BLK_CNT : Z := 20000.

(** ** Data *)

Record Pktblk := mk_blk {
  blk_id : Z;          (* the block's address *)
  blk_size : Z;        (* size *)
  blk_data : Z;        (* data - payload *)
  blk_payload : bytes  (* payload *)
}.

Record Pktbuf := mk_buf {
  total_size : Z;
  pktblk_list : list Pktblk;
  pos : Z;
  ref : Z;
  cur_blk : option Z;   (* None is the null pointer *)
  blk_offset : Z;       (* offset in cur_blk's payload *)
  pktblk_lock : bool
}.

Record Pktbuf_head := mk_head {
  max_mem_size : Z;
  mem_size : Z;
  pktbuf_lock : bool;
  pktbuf_list : list Z
}.

(** The module's state: the account, the packets by address, and the number of
    allocations made, which names the next address. *)
Record pworld := mk_world {
  phead : Pktbuf_head;
  bufs : gmap Z Pktbuf;
  brk : Z
}.

Definition set_blk_size v b := mk_blk (blk_id b) v (blk_data b) (blk_payload b).
Definition set_blk_data v b := mk_blk (blk_id b) (blk_size b) v (blk_payload b).
Definition set_blk_payload v b := mk_blk (blk_id b) (blk_size b) (blk_data b) v.

Definition set_total v b :=
  mk_buf v (pktblk_list b) (pos b) (ref b) (cur_blk b) (blk_offset b) (pktblk_lock b).
Definition set_blks v b :=
  mk_buf (total_size b) v (pos b) (ref b) (cur_blk b) (blk_offset b) (pktblk_lock b).
Definition set_ref v b :=
  mk_buf (total_size b) (pktblk_list b) (pos b) v (cur_blk b) (blk_offset b) (pktblk_lock b).
Definition set_cursor p c o b :=
  mk_buf (total_size b) (pktblk_list b) p (ref b) c o (pktblk_lock b).
Definition set_blk_lock v b :=
  mk_buf (total_size b) (pktblk_list b) (pos b) (ref b) (cur_blk b) (blk_offset b) v.

Definition set_mem v h := mk_head (max_mem_size h) v (pktbuf_lock h) (pktbuf_list h).
Definition set_head_lock v h := mk_head (max_mem_size h) (mem_size h) v (pktbuf_list h).
Definition set_list v h := mk_head (max_mem_size h) (mem_size h) (pktbuf_lock h) v.

Definition on_head (f : Pktbuf_head → Pktbuf_head) (w : pworld) : pworld :=
  mk_world (f (phead w)) (bufs w) (brk w).
Definition on_bufs (f : gmap Z Pktbuf → gmap Z Pktbuf) (w : pworld) : pworld :=
  mk_world (phead w) (f (bufs w)) (brk w).

Lemma on_head_mk f h bs n : on_head f (mk_world h bs n) = mk_world (f h) bs n.
Proof. reflexivity. Qed.

Lemma on_bufs_mk b v h bs n :
  on_bufs (insert b v) (mk_world h bs n) = mk_world h (<[b := v]> bs) n.
Proof. reflexivity. Qed.

Lemma total_set_blks l v : total_size (set_blks l v) = total_size v.
Proof. reflexivity. Qed.
Lemma blks_set_total t v : pktblk_list (set_total t v) = pktblk_list v.
Proof. reflexivity. Qed.
Lemma blks_set_blks l v : pktblk_list (set_blks l v) = l.
Proof. reflexivity. Qed.
Lemma set_blks_blks l l' v : set_blks l (set_blks l' v) = set_blks l v.
Proof. reflexivity. Qed.
Lemma set_blks_total l t v : set_blks l (set_total t v) = set_total t (set_blks l v).
Proof. reflexivity. Qed.

(** Normalises a module state given by its parts. *)
Ltac wsimpl :=
  cbv beta iota delta [on_bufs on_head phead bufs brk set_mem set_head_lock set_list
    max_mem_size mem_size pktbuf_lock pktbuf_list];
  rewrite ?insert_insert_eq, ?lookup_insert_eq, ?set_blks_blks, ?total_set_blks, ?blks_set_total,
    ?blks_set_blks, ?set_blks_blks, ?set_blks_total.

(** The slab allocator as the module sees it: allocation number [n] returns the
    (uninitialised) payload of a block, or the null pointer. *)
Class Kmalloc := { kmalloc_payload : Z → option bytes }.

(** The allocator keeps its promise: it does not fail and a block is whole. *)
Class KmallocOk `{Kmalloc} := {
  kmalloc_ok n : ∃ p, kmalloc_payload n = Some p ∧ zlen p = PKTBUF_BLK_SIZE ∧ Forall is_byte p
}.

(** ** Locks and accessors *)

(** Taking a spinlock this hart already holds panics, as does releasing one it
    does not hold. *)
Definition acquire_head : M pworld unit :=
  l ← gets (λ w, pktbuf_lock (phead w)); assert_ (negb l);;
  modify (on_head (set_head_lock true)).
Definition release_head : M pworld unit :=
  l ← gets (λ w, pktbuf_lock (phead w)); assert_ l;;
  modify (on_head (set_head_lock false)).

Definition get_buf (b : Z) : M pworld Pktbuf :=
  o ← gets (λ w, bufs w !! b); of_option o.
Definition put_buf (b : Z) (v : Pktbuf) : M pworld unit := modify (on_bufs (insert b v)).
Definition upd_buf (b : Z) (f : Pktbuf → Pktbuf) : M pworld unit :=
  v ← get_buf b; put_buf b (f v).

Definition acquire_blk (b : Z) : M pworld unit :=
  v ← get_buf b; assert_ (negb (pktblk_lock v));; put_buf b (set_blk_lock true v).
Definition release_blk (b : Z) : M pworld unit :=
  v ← get_buf b; assert_ (pktblk_lock v);; put_buf b (set_blk_lock false v).

(** The block at address [id] of a packet; a freed block is not there. *)
Definition find_blk (id : Z) (v : Pktbuf) : option Pktblk :=
  list_find (λ k, blk_id k = id) (pktblk_list v) ≫= λ '(_, k), Some k.

(** [pktbuf_init]: the account starts empty. *)
Definition pktbuf_init (w : pworld) : pworld :=
  mk_world (mk_head (PKTBUF_BLK_CNT * PKTBUF_BLK_SIZE) 0 false []) (bufs w) (brk w).

(** [pkbuf_wakeup_nolock] wakes the first waiter, if any; a sequential run has
    no waiter, and [pkbuf_wait_nolock] sleeps for good. *)
Definition pkbuf_wakeup_nolock : M pworld unit := mret tt.
Definition pkbuf_wait_nolock : M pworld unit := block.

(** [while (mem_size + size > max_mem_size) wait]. *)
Definition wait_mem (size : Z) : M pworld unit :=
  h ← gets phead;
  if max_mem_size h <? u64 (mem_size h + size) then pkbuf_wait_nolock else mret tt.

(** ** Checks *)

(** The asserts of [print_check_blkbuf] on one packet (its printing left out). *)
Definition print_check_blkbuf (v : Pktbuf) : bool :=
  forallb (λ k,
    let pre_size := u64 (blk_data k) in
    let used_size := blk_size k in
    let tail_size := u64 (PKTBUF_BLK_SIZE - u64 (u64 (blk_data k) + blk_size k)) in
    u64 (pre_size + used_size + tail_size) =? PKTBUF_BLK_SIZE) (pktblk_list v)
  && (foldr (λ k s, u64 (blk_size k + s)) 0 (pktblk_list v) =? total_size v).

Fixpoint check_list (l : list Z) (count : Z) : M pworld Z :=
  match l with
  | [] => mret count
  | b :: l' =>
      v ← get_buf b;
      assert_ (print_check_blkbuf v);;
      check_list l' (u64 (count + total_size v))
  end.

Definition print_check_blkbuf_list : M pworld unit :=
  acquire_head;;
  l ← gets (λ w, pktbuf_list (phead w));
  count ← check_list l 0;
  h ← gets phead;
  assert_ ((count =? mem_size h) && (mem_size h <=? max_mem_size h));;
  release_head.

(** ** Allocation *)

Section pktbuf.
Context `{K : Kmalloc}.

(** [kmalloc] of a block followed by the assert that it succeeded. *)
Definition kmalloc_blk : M pworld (Z * bytes) :=
  n ← gets brk; modify (λ w, mk_world (phead w) (bufs w) (n + 1));;
  match kmalloc_payload n with
  | Some p => mret (n, p)
  | None => panic
  end.

Definition pktblock_alloc_list (b : Z) (size : Z) (add_front : bool) : M pworld unit :=
  loop (S (Z.to_nat size)) (λ size,
    if size =? 0 then mret (inr tt) else
    '(n, p) ← kmalloc_blk;
    let cur_size := if PKTBUF_BLK_SIZE <? size then PKTBUF_BLK_SIZE else size in
    (if add_front : bool then
       upd_buf b (λ v, set_blks
         (mk_blk n cur_size (PKTBUF_BLK_SIZE - cur_size) p :: pktblk_list v) v)
     else
       upd_buf b (λ v, set_blks (pktblk_list v ++ [mk_blk n cur_size 0 p]) v));;
    mret (inl (u64 (size - cur_size)))) size.

Definition pktbuf_reset_acc (b : Z) : M pworld unit :=
  acquire_blk b;;
  upd_buf b (λ v,
    match pktblk_list v with
    | k :: _ => set_cursor 0 (Some (blk_id k)) (blk_data k) v
    | [] => set_cursor 0 None 0 v
    end);;
  release_blk b.

Definition pktbuf_alloc (size : Z) : M pworld Z :=
  acquire_head;;
  wait_mem size;;
  '(buf, _) ← kmalloc_blk;
  put_buf buf (mk_buf size [] 0 1 None 0 false);;
  pktblock_alloc_list buf size true;;
  modify (on_head (λ h, set_list (pktbuf_list h ++ [buf]) h));;
  modify (on_head (λ h, set_mem (u64 (mem_size h + size)) h));;
  release_head;;
  pktbuf_reset_acc buf;;
  print_check_blkbuf_list;;
  mret buf.

Definition __pktbuf_free (b : Z) : M pworld unit :=
  acquire_head;;
  upd_buf b (set_blks []);;
  v ← get_buf b;
  modify (on_head (λ h, set_list (filter (λ x, x ≠ b) (pktbuf_list h)) h));;
  modify (on_head (λ h, set_mem (u64 (mem_size h - total_size v)) h));;
  pkbuf_wakeup_nolock;;
  release_head;;
  modify (on_bufs (delete b));;
  print_check_blkbuf_list.

Definition pktbuf_free (b : Z) : M pworld unit :=
  upd_buf b (λ v, set_ref (ref v - 1) v);;
  v ← get_buf b;
  if ref v =? 0 then __pktbuf_free b else mret tt.

Definition pktbuf_inc_ref (b : Z) : M pworld unit :=
  upd_buf b (λ v, set_ref (ref v + 1) v).

(** ** Headers, size, joining *)

Definition pktbuf_add_header (b : Z) (size : Z) (cont : bool) : M pworld Z :=
  v ← get_buf b;
  assert_ (negb (bool_decide (pktblk_list v = [])));;
  acquire_head;;
  wait_mem size;;
  v ← get_buf b;
  match pktblk_list v with
  | [] => undef
  | blk :: rest =>
      let reserve_size := u64 (blk_data blk) in
      modify (on_head (λ h, set_mem (u64 (mem_size h + size)) h));;
      (if size <=? reserve_size then
         put_buf b (set_total (u64 (total_size v + size)) (set_blks
           (set_blk_data (blk_data blk - size) (set_blk_size (u64 (blk_size blk + size)) blk)
            :: rest) v));;
         mret (inr tt)
       else if cont : bool then
         if PKTBUF_BLK_SIZE <? size then mret (inl (- E_NET_SIZE))
         else
           pktblock_alloc_list b size true;;
           upd_buf b (λ v, set_total (u64 (total_size v + size)) v);;
           mret (inr tt)
       else
         let blk := set_blk_size (u64 (blk_size blk + reserve_size)) (set_blk_data 0 blk) in
         put_buf b (set_blks (blk :: rest) v);;
         assert_ (blk_size blk =? PKTBUF_BLK_SIZE);;
         upd_buf b (λ v, set_total (u64 (total_size v + size)) v);;
         pktblock_alloc_list b (u64 (size - reserve_size)) true;;
         mret (inr tt)) ≫= λ r : Z + unit,
      match r with
      | inl e => mret e     (* [return -E_NET_SIZE] with the lock still held *)
      | inr _ => release_head;; print_check_blkbuf_list;; mret NET_OK
      end
  end.

Definition pktbuf_remove_header (b : Z) (size : Z) : M pworld Z :=
  v ← get_buf b;
  assert_ (negb (bool_decide (pktblk_list v = [])));;
  assert_ (size <=? total_size v);;
  acquire_head;;
  upd_buf b (λ v, set_total (u64 (total_size v - size)) v);;
  modify (on_head (λ h, set_mem (u64 (mem_size h - size)) h));;
  loop (S (length (pktblk_list v))) (λ size,
    if size =? 0 then mret (inr tt) else
    v ← get_buf b;
    match pktblk_list v with
    | [] => undef
    | blk :: rest =>
        if size <? blk_size blk then
          put_buf b (set_blks (set_blk_size (u64 (blk_size blk - size))
            (set_blk_data (blk_data blk + size) blk) :: rest) v);;
          mret (inr tt)
        else
          put_buf b (set_blks rest v);;
          mret (inl (u64 (size - blk_size blk)))
    end) size;;
  pkbuf_wakeup_nolock;;
  release_head;;
  print_check_blkbuf_list;;
  mret NET_OK.

Definition pktbuf_resize (b : Z) (to_size : Z) : M pworld Z :=
  v ← get_buf b;
  if to_size =? total_size v then mret NET_OK else
  acquire_head;;
  (if total_size v <? to_size then
     let inc_size := u64 (to_size - total_size v) in
     wait_mem inc_size;;
     (if total_size v =? 0 then pktblock_alloc_list b to_size false
      else
        match last (pktblk_list v) with
        | None => undef
        | Some tail_blk =>
            let front := take (length (pktblk_list v) - 1) (pktblk_list v) in
            let remain_size :=
              u64 (PKTBUF_BLK_SIZE - u64 (u64 (blk_data tail_blk) + blk_size tail_blk)) in
            if inc_size <=? remain_size then
              put_buf b (set_blks
                (front ++ [set_blk_size (u64 (blk_size tail_blk + inc_size)) tail_blk]) v)
            else
              put_buf b (set_blks
                (front ++ [set_blk_size (u64 (blk_size tail_blk + remain_size)) tail_blk]) v);;
              pktblock_alloc_list b (u64 (inc_size - remain_size)) false
        end);;
     upd_buf b (λ v, set_total (u64 (total_size v + inc_size)) v);;
     modify (on_head (λ h, set_mem (u64 (mem_size h + inc_size)) h))
   else
     let dec_size := u64 (total_size v - to_size) in
     put_buf b (set_total (u64 (total_size v - dec_size)) v);;
     modify (on_head (λ h, set_mem (u64 (mem_size h - dec_size)) h));;
     loop (S (length (pktblk_list v))) (λ dec_size,
       if dec_size =? 0 then mret (inr tt) else
       v ← get_buf b;
       match last (pktblk_list v) with
       | None => undef
       | Some tail_blk =>
           let front := take (length (pktblk_list v) - 1) (pktblk_list v) in
           if dec_size <? blk_size tail_blk then
             put_buf b (set_blks
               (front ++ [set_blk_size (u64 (blk_size tail_blk - dec_size)) tail_blk]) v);;
             mret (inr tt)
           else
             put_buf b (set_blks front v);;
             (if bool_decide (front = []) then assert_ (to_size =? 0);; mret (inr tt)
              else mret (inl (u64 (dec_size - blk_size tail_blk))))
       end) dec_size;;
     pkbuf_wakeup_nolock);;
  release_head;;
  print_check_blkbuf_list;;
  mret NET_OK.

(** [list_join] of a chain with itself would corrupt it: no caller does it. *)
Definition pktbuf_join (dest src : Z) : M pworld Z :=
  print_check_blkbuf_list;;
  acquire_head;;
  (if dest =? src then undef else mret tt);;
  s ← get_buf src;
  upd_buf dest (λ v, set_blks (pktblk_list v ++ pktblk_list s) v);;
  upd_buf dest (λ v, set_total (u64 (total_size v + total_size s)) v);;
  modify (on_head (λ h, set_list (filter (λ x, x ≠ src) (pktbuf_list h)) h));;
  modify (on_bufs (delete src));;
  release_head;;
  print_check_blkbuf_list;;
  mret NET_OK.

(** Makes the first [size] bytes contiguous in the first block.  The block [le]
    points to is always the second one: an emptied block is unlinked. *)
Definition pktbuf_set_cont (b : Z) (size : Z) : M pworld Z :=
  v ← get_buf b;
  if total_size v <? size then mret (- E_NET_SIZE) else
  if PKTBUF_BLK_SIZE <? size then mret (- E_NET_SIZE) else
  acquire_head;;
  assert_ (negb (bool_decide (pktblk_list v = [])));;
  match pktblk_list v with
  | [] => undef
  | first_blk :: rest =>
      if size <=? blk_size first_blk then release_head;; mret NET_OK
      else
        d ← of_option (mem_read (blk_payload first_blk) (blk_data first_blk) (blk_size first_blk));
        p ← of_option (mem_write (blk_payload first_blk) 0 d);
        put_buf b (set_blks (set_blk_data 0 (set_blk_payload p first_blk) :: rest) v);;
        loop (S (length (pktblk_list v))) (λ remaining,
          if remaining =? 0 then mret (inr tt) else
          v ← get_buf b;
          match pktblk_list v with
          | first_blk :: current_blk :: rest =>
              let move_size := if remaining <? blk_size current_blk then remaining
                               else blk_size current_blk in
              d ← of_option (mem_read (blk_payload current_blk) (blk_data current_blk) move_size);
              p ← of_option (mem_write (blk_payload first_blk)
                    (blk_data first_blk + blk_size first_blk) d);
              let first' := set_blk_size (u64 (blk_size first_blk + move_size))
                              (set_blk_payload p first_blk) in
              let current' := set_blk_size (u64 (blk_size current_blk - move_size))
                                (set_blk_data (blk_data current_blk + move_size) current_blk) in
              put_buf b (set_blks
                (first' :: if blk_size current' =? 0 then rest else current' :: rest) v);;
              mret (inl (u64 (remaining - move_size)))
          | _ => panic   (* assert(le != &buf->pktblk_list) *)
          end) (u64 (size - blk_size first_blk));;
        release_head;;
        print_check_blkbuf_list;;
        mret NET_OK
  end.

(** ** The cursor *)

Definition cur_blk_remain_nolock (b : Z) : M pworld Z :=
  v ← get_buf b;
  match cur_blk v with
  | None => mret 0
  | Some id =>
      k ← of_option (find_blk id v);
      mret (u64 (blk_data k + blk_size k - blk_offset v))
  end.

(** The block after the one at [id] in the chain. *)
Fixpoint blk_after (id : Z) (l : list Pktblk) : option Pktblk :=
  match l with
  | [] => None
  | k :: l' => if blk_id k =? id then head l' else blk_after id l'
  end.

Definition move_forward_nolock (b : Z) (size : Z) : M pworld unit :=
  v ← get_buf b;
  id ← of_option (cur_blk v);
  cur ← of_option (find_blk id v);
  let pos' := pos v + size in
  let off' := blk_offset v + size in
  if blk_data cur + blk_size cur <=? off' then
    match blk_after id (pktblk_list v) with
    | Some k => put_buf b (set_cursor pos' (Some (blk_id k)) (blk_data k) v)
    | None => put_buf b (set_cursor pos' None 0 v)
    end
  else put_buf b (set_cursor pos' (cur_blk v) off' v).

(** [memcpy] between the cursor and a caller's buffer. *)
Definition cursor_read (b : Z) (n : Z) : M pworld bytes :=
  v ← get_buf b;
  id ← of_option (cur_blk v);
  k ← of_option (find_blk id v);
  of_option (mem_read (blk_payload k) (blk_offset v) n).

Definition cursor_write (b : Z) (bs : bytes) : M pworld unit :=
  v ← get_buf b;
  id ← of_option (cur_blk v);
  k ← of_option (find_blk id v);
  p ← of_option (mem_write (blk_payload k) (blk_offset v) bs);
  put_buf b (set_blks
    (map (λ k', if blk_id k' =? id then set_blk_payload p k' else k') (pktblk_list v)) v).

Definition cur_copy (size blk_size : Z) : Z := if blk_size <? size then blk_size else size.

(** [src] holds [size] bytes; a null [src] or no bytes is a parameter error. *)
Definition pktbuf_write (b : Z) (src : bytes) : M pworld Z :=
  if zlen src =? 0 then mret (- E_NET_PARAM) else
  acquire_blk b;;
  v ← get_buf b;
  if u64 (total_size v - pos v) <? zlen src then release_blk b;; mret (- E_NET_SIZE) else
  loop (S (length src)) (λ src,
    if zlen src =? 0 then mret (inr tt) else
    r ← cur_blk_remain_nolock b;
    let n := cur_copy (zlen src) r in
    cursor_write b (take (Z.to_nat n) src);;
    move_forward_nolock b n;;
    mret (inl (drop (Z.to_nat n) src))) src;;
  release_blk b;;
  mret NET_OK.

(** The bytes read are returned; the error path returns before its release. *)
Definition pktbuf_read (b : Z) (size : Z) : M pworld (Z * bytes) :=
  if size =? 0 then mret (- NET_OK, []) else
  acquire_blk b;;
  v ← get_buf b;
  if u64 (total_size v - pos v) <? size then mret (- E_NET_SIZE, []) else
  dest ← loop (S (Z.to_nat size)) (λ '(size, dest),
    if size =? 0 then mret (inr dest) else
    r ← cur_blk_remain_nolock b;
    let n := cur_copy size r in
    d ← cursor_read b n;
    move_forward_nolock b n;;
    mret (inl (u64 (size - n), dest ++ d))) (size, []);
  release_blk b;;
  mret (NET_OK, dest).

Definition pktbuf_seek (b : Z) (offset : Z) : M pworld Z :=
  acquire_blk b;;
  v ← get_buf b;
  if pos v =? offset then release_blk b;; mret NET_OK else
  if (offset <? 0) || (total_size v <=? offset) then release_blk b;; mret (- E_NET_SIZE) else
  match pktblk_list v with
  | [] => panic
  | k :: _ =>
      move_size ←
        (if offset <? pos v then
           put_buf b (set_cursor 0 (Some (blk_id k)) (blk_data k) v);; mret offset
         else mret (u64 (offset - pos v)));
      loop (S (Z.to_nat move_size)) (λ move_size,
        if move_size =? 0 then mret (inr tt) else
        r ← cur_blk_remain_nolock b;
        let n := cur_copy move_size r in
        move_forward_nolock b n;;
        mret (inl (u64 (move_size - n)))) move_size;;
      release_blk b;;
      mret NET_OK
  end.

Definition pktbuf_copy (dest src : Z) (size : Z) : M pworld Z :=
  acquire_blk dest;;
  acquire_blk src;;
  d ← get_buf dest;
  s ← get_buf src;
  if (u64 (total_size d - pos d) <? size) || (u64 (total_size s - pos s) <? size) then
    release_blk src;; release_blk dest;; mret (- E_NET_SIZE)
  else
    loop (S (Z.to_nat size)) (λ size,
      if size =? 0 then mret (inr tt) else
      dest_remain ← cur_blk_remain_nolock dest;
      src_remain ← cur_blk_remain_nolock src;
      let n := cur_copy size (if src_remain <? dest_remain then src_remain else dest_remain) in
      bs ← cursor_read src n;
      cursor_write dest bs;;
      move_forward_nolock dest n;;
      move_forward_nolock src n;;
      mret (inl (u64 (size - n)))) size;;
    release_blk src;;
    release_blk dest;;
    mret NET_OK.

Definition pktbuf_fill (b : Z) (v : Z) (size : Z) : M pworld Z :=
  if size =? 0 then mret (- E_NET_PARAM) else
  acquire_blk b;;
  p ← get_buf b;
  if u64 (total_size p - pos p) <? size then release_blk b;; mret (- E_NET_SIZE) else
  loop (S (Z.to_nat size)) (λ size,
    if size =? 0 then mret (inr tt) else
    r ← cur_blk_remain_nolock b;
    let n := cur_copy size r in
    cursor_write b (replicate (Z.to_nat n) v);;
    move_forward_nolock b n;;
    mret (inl (u64 (size - n)))) size;;
  release_blk b;;
  mret NET_OK.

(** [remain_size] is an [int] compared with a [size_t]. *)
Definition pktbuf_checksum16 (b : Z) (size pre_sum : Z) (complement : bool) : M pworld Z :=
  acquire_blk b;;
  v ← get_buf b;
  assert_ (negb (ref v =? 0));;
  if u64 (s32 (total_size v - pos v)) <? size then release_blk b;; mret 0 else
  sum ← loop (S (Z.to_nat size)) (λ '(size, sum, offset),
    if size =? 0 then mret (inr sum) else
    blk_size ← cur_blk_remain_nolock b;
    let cur_size := cur_copy size blk_size in
    v ← get_buf b;
    id ← of_option (cur_blk v);
    k ← of_option (find_blk id v);
    sum ← of_outcome (checksum16 offset (drop (Z.to_nat (blk_offset v)) (blk_payload k))
                        (u16 cur_size) sum false);
    assert_ (blk_offset v + cur_size <=? blk_data k + PKTBUF_BLK_SIZE);;
    move_forward_nolock b cur_size;;
    mret (inl (u64 (size - cur_size), sum, u32 (offset + cur_size)))) (size, pre_sum, 0);
  release_blk b;;
  mret (if complement : bool then u16 (Z.lnot sum) else u16 sum).


(** ** Abstraction and invariant *)

(** The bytes a block holds, and those of a chain. *)
Definition blk_bytes (k : Pktblk) : bytes :=
  take (Z.to_nat (blk_size k)) (drop (Z.to_nat (blk_data k)) (blk_payload k)).

Definition content_of (l : list Pktblk) : bytes := concat (map blk_bytes l).

Definition content (v : Pktbuf) : bytes := content_of (pktblk_list v).

Definition blk_ids (v : Pktbuf) : list Z := map blk_id (pktblk_list v).

Record blk_ok (k : Pktblk) : Prop := {
  blk_nonempty : 0 < blk_size k;
  blk_in_payload : 0 ≤ blk_data k ∧ blk_data k + blk_size k ≤ PKTBUF_BLK_SIZE;
  blk_whole : zlen (blk_payload k) = PKTBUF_BLK_SIZE;
  blk_are_bytes : Forall is_byte (blk_payload k)
}.

(** A packet no operation is working on, all its blocks allocated before [n]. *)
Record buf_ok (n : Z) (v : Pktbuf) : Prop := {
  buf_blks : Forall blk_ok (pktblk_list v);
  buf_ids : NoDup (blk_ids v);
  buf_old : Forall (λ i, i < n) (blk_ids v);
  buf_total : total_size v = zlen (content v);
  buf_ref : 0 < ref v;
  buf_unlocked : pktblk_lock v = false
}.

Definition total_at (m : gmap Z Pktbuf) (b : Z) : Z :=
  match m !! b with Some v => total_size v | None => 0 end.

Fixpoint sum_totals (m : gmap Z Pktbuf) (l : list Z) : Z :=
  match l with [] => 0 | b :: l' => total_at m b + sum_totals m l' end.

(** The module between two calls. *)
Record wf (w : pworld) : Prop := {
  wf_unlocked : pktbuf_lock (phead w) = false;
  wf_nodup : NoDup (pktbuf_list (phead w));
  wf_dom b : b ∈ pktbuf_list (phead w) ↔ is_Some (bufs w !! b);
  wf_old b : b ∈ pktbuf_list (phead w) → b < brk w;
  wf_bufs b v : bufs w !! b = Some v → buf_ok (brk w) v;
  wf_disj b1 b2 v1 v2 i : b1 ≠ b2 → bufs w !! b1 = Some v1 → bufs w !! b2 = Some v2 →
    i ∈ blk_ids v1 → i ∈ blk_ids v2 → False;
  wf_mem : mem_size (phead w) = sum_totals (bufs w) (pktbuf_list (phead w));
  wf_max : mem_size (phead w) ≤ max_mem_size (phead w) < 2 ^ 62
}.

(** ** Lists of blocks *)

Lemma content_app l1 l2 : content_of (l1 ++ l2) = content_of l1 ++ content_of l2.
Proof. unfold content_of. by rewrite map_app, concat_app. Qed.

Lemma content_cons k l : content_of (k :: l) = blk_bytes k ++ content_of l.
Proof. reflexivity. Qed.

Lemma blk_bytes_len k : blk_ok k → zlen (blk_bytes k) = blk_size k.
Proof.
  intros [Hn [H0 H1] Hw _]. unfold blk_bytes.
  rewrite length_take, length_drop. unfold PKTBUF_BLK_SIZE in *. lia.
Qed.

Lemma blk_bytes_ok k : blk_ok k → Forall is_byte (blk_bytes k).
Proof. intros []. unfold blk_bytes. by apply Forall_take, Forall_drop. Qed.

Lemma content_bytes l : Forall blk_ok l → Forall is_byte (content_of l).
Proof.
  induction 1 as [|k l Hk _ IH]; [constructor|].
  rewrite content_cons. apply Forall_app. split; [by apply blk_bytes_ok|done].
Qed.

Lemma content_nil l : Forall blk_ok l → content_of l = [] → l = [].
Proof.
  destruct 1 as [|k l Hk _]; [done|]. rewrite content_cons. intros [E _]%app_eq_nil.
  pose proof (blk_bytes_len k Hk) as Hl. rewrite E in Hl. destruct Hk. cbn in Hl. lia.
Qed.

Lemma length_content l : Forall blk_ok l → (length l ≤ length (content_of l))%nat.
Proof.
  induction 1 as [|k l Hk _ IH]; [done|].
  rewrite content_cons, length_app. pose proof (blk_bytes_len k Hk). destruct Hk. cbn. lia.
Qed.

Lemma sum_totals_insert m l b v :
  NoDup l → b ∈ l → sum_totals (<[b:=v]> m) l = sum_totals m l - total_at m b + total_size v.
Proof.
  intros Hnd Hin. induction l as [|c l IH]; [set_solver|].
  apply NoDup_cons in Hnd as [Hni Hnd]. cbn.
  assert (∀ l', b ∉ l' → sum_totals (<[b:=v]> m) l' = sum_totals m l') as Hskip.
  { clear. induction l' as [|d l' IH]; [done|]. intros Hb. cbn. rewrite IH by set_solver.
    unfold total_at. rewrite lookup_insert_ne by set_solver. done. }
  destruct (decide (c = b)) as [->|Hne].
  - rewrite Hskip by done. unfold total_at at 1. rewrite lookup_insert_eq. lia.
  - rewrite IH by set_solver. unfold total_at at 1. rewrite lookup_insert_ne by done.
    fold (total_at m c). lia.
Qed.

Lemma sum_totals_nonneg m l :
  (∀ b v, m !! b = Some v → 0 ≤ total_size v) → 0 ≤ sum_totals m l.
Proof.
  intros Hm. induction l as [|b l IH]; cbn; [lia|].
  unfold total_at. destruct (m !! b) eqn:E; [|lia]. specialize (Hm _ _ E). lia.
Qed.

Lemma buf_total_nonneg n v : buf_ok n v → 0 ≤ total_size v.
Proof. intros []. lia. Qed.

Lemma wf_totals_nonneg w : wf w → ∀ b v, bufs w !! b = Some v → 0 ≤ total_size v.
Proof. intros Hw b v Hb. eapply buf_total_nonneg, wf_bufs; done. Qed.

(** One packet's bytes are part of the account. *)
Lemma wf_total_le w b v : wf w → bufs w !! b = Some v → total_size v ≤ mem_size (phead w).
Proof.
  intros Hw Hb. rewrite (wf_mem _ Hw).
  assert (b ∈ pktbuf_list (phead w)) as Hin by (apply (wf_dom _ Hw); eauto).
  pose proof (wf_totals_nonneg w Hw) as Hnn.
  revert Hin. generalize (pktbuf_list (phead w)). induction l as [|c l IH]; [set_solver|].
  pose proof (sum_totals_nonneg (bufs w) l Hnn).
  intros [->|Hin]%elem_of_cons; cbn.
  - unfold total_at at 1. rewrite Hb. lia.
  - specialize (IH Hin). unfold total_at. destruct (bufs w !! c) eqn:Ec; [|lia].
    specialize (Hnn _ _ Ec). lia.
Qed.

(** Replacing one packet and adjusting the account keeps the invariant, if its
    new blocks belong to no other packet. *)
Lemma wf_replace mx m l bs n b v v' n' :
  wf (mk_world (mk_head mx m false l) bs n) →
  bs !! b = Some v → n ≤ n' → buf_ok n' v' →
  (∀ i c u, c ≠ b → bs !! c = Some u → i ∈ blk_ids u → i ∈ blk_ids v' → False) →
  m - total_size v + total_size v' ≤ mx →
  wf (mk_world (mk_head mx (m - total_size v + total_size v') false l) (<[b:=v']> bs) n').
Proof.
  intros Hw Hb Hn Hv' Hd Hmx. pose proof Hw as [_ Hnd Hdom Hold Hbufs Hdis Hmem Hmax].
  cbn in *.
  assert (b ∈ l) as Hin by (apply Hdom; eauto).
  assert (∀ c u, bs !! c = Some u → buf_ok n' u) as Hok.
  { intros c u Hc. destruct (Hbufs c u Hc) as [? ? Ho ? ? ?]. split; try done.
    eapply Forall_impl; [exact Ho|]. cbn. lia. }
  split; cbn; try done.
  - intros c. rewrite Hdom. destruct (decide (c = b)) as [->|].
    + rewrite lookup_insert_eq. rewrite Hb. split; eauto.
    + by rewrite lookup_insert_ne.
  - intros c Hc. specialize (Hold c Hc). lia.
  - intros c u. destruct (decide (c = b)) as [->|].
    + rewrite lookup_insert_eq. by intros [= <-].
    + rewrite lookup_insert_ne by done. apply Hok.
  - intros b1 b2 v1 v2 i Hne.
    destruct (decide (b1 = b)) as [->|], (decide (b2 = b)) as [->|];
      rewrite ?lookup_insert_eq, ?lookup_insert_ne by done; try done.
    + intros [= <-] H2 Hi1 Hi2. by eapply (Hd i b2).
    + intros H1 [= <-] Hi1 Hi2. by eapply (Hd i b1).
    + by apply Hdis.
  - rewrite sum_totals_insert by done. unfold total_at. rewrite Hb. lia.
  - lia.
Qed.

Lemma wf_update mx m l bs n b v v' n' :
  wf (mk_world (mk_head mx m false l) bs n) →
  bs !! b = Some v → n ≤ n' → buf_ok n' v' →
  (∀ i, i ∈ blk_ids v' → i ∈ blk_ids v ∨ n ≤ i) →
  m - total_size v + total_size v' ≤ mx →
  wf (mk_world (mk_head mx (m - total_size v + total_size v') false l) (<[b:=v']> bs) n').
Proof.
  intros Hw Hb Hn Hv' Hids Hmx. apply (wf_replace _ _ _ _ n); try done.
  intros i c u Hne Hc Hi [Hi'|Hi']%Hids; [by eapply (wf_disj _ Hw c b)|].
  pose proof (buf_old _ _ (wf_bufs _ Hw c u Hc)) as Ho. rewrite Forall_forall in Ho.
  specialize (Ho i Hi). cbn in Ho. lia.
Qed.

Lemma sum_totals_app m l1 l2 : sum_totals m (l1 ++ l2) = sum_totals m l1 + sum_totals m l2.
Proof. induction l1 as [|b l1 IH]; cbn; lia. Qed.

Lemma sum_totals_ext m m' l :
  (∀ b, b ∈ l → m !! b = m' !! b) → sum_totals m l = sum_totals m' l.
Proof.
  induction l as [|b l IH]; intros H; [done|]. cbn. unfold total_at.
  rewrite (H b) by apply list_elem_of_here. f_equal. apply IH. intros c Hc. apply H.
  by apply list_elem_of_further.
Qed.

Lemma filter_ne_id (b : Z) (l : list Z) : b ∉ l → filter (λ x, x ≠ b) l = l.
Proof.
  induction l as [|c l IH]; [done|]. intros [? ?]%not_elem_of_cons.
  rewrite filter_cons, decide_True by done. by rewrite IH.
Qed.

Lemma sum_totals_remove m l b :
  NoDup l → b ∈ l →
  sum_totals (delete b m) (filter (λ x, x ≠ b) l) = sum_totals m l - total_at m b.
Proof.
  intros Hnd Hin. rewrite (sum_totals_ext _ m).
  2:{ intros c [Hc _]%list_elem_of_filter. by rewrite lookup_delete_ne. }
  induction l as [|c l IH]; [by apply elem_of_nil in Hin|].
  apply NoDup_cons in Hnd as [Hni Hnd]. rewrite filter_cons. cbn [sum_totals].
  destruct (decide (c ≠ b)) as [Hne|He].
  - cbn [sum_totals]. rewrite IH; [lia|done|]. apply elem_of_cons in Hin as [->|?]; done.
  - apply dec_stable in He as ->.
    rewrite filter_ne_id by done. lia.
Qed.

(** A new packet. *)
Lemma wf_add mx m l bs n b v n' :
  wf (mk_world (mk_head mx m false l) bs n) → n ≤ b < n' → buf_ok n' v →
  Forall (λ i, n ≤ i) (blk_ids v) → m + total_size v ≤ mx →
  wf (mk_world (mk_head mx (m + total_size v) false (l ++ [b])) (<[b:=v]> bs) n').
Proof.
  intros Hw Hbn Hv Hids Hmx. pose proof Hw as [_ Hnd Hdom Hold Hbufs Hdis Hmem Hmax].
  cbn in *. rewrite Forall_forall in Hids.
  assert (b ∉ l) as Hbl by (intros Hin; specialize (Hold _ Hin); lia).
  assert (∀ c u, bs !! c = Some u → c ≠ b) as Hcb
    by (intros c u Hc ->; apply Hbl, Hdom; eauto).
  assert (∀ c u i, bs !! c = Some u → i ∈ blk_ids u → i ∈ blk_ids v → False) as Hd.
  { intros c u i Hc Hi Hi'. specialize (Hids _ Hi').
    pose proof (buf_old _ _ (Hbufs c u Hc)) as Ho. rewrite Forall_forall in Ho.
    specialize (Ho _ Hi). lia. }
  split; cbn; try done.
  - apply NoDup_app. split_and!; [done| |apply NoDup_singleton].
    by intros c Hc ->%list_elem_of_singleton.
  - intros c. rewrite elem_of_app, list_elem_of_singleton. destruct (decide (c = b)) as [->|].
    + rewrite lookup_insert_eq. split; eauto.
    + rewrite lookup_insert_ne by done. rewrite <- Hdom. naive_solver.
  - intros c [Hc| ->%list_elem_of_singleton]%elem_of_app; [specialize (Hold _ Hc)|]; lia.
  - intros c u [[<- <-]|[_ Hc]]%lookup_insert_Some; [done|].
    destruct (Hbufs c u Hc) as [? ? Ho ? ? ?]. split; try done.
    eapply Forall_impl; [exact Ho|]. cbn. lia.
  - intros b1 b2 v1 v2 i Hne [[<- <-]|[_ H1]]%lookup_insert_Some
      [[<- <-]|[_ H2]]%lookup_insert_Some Hi1 Hi2; [done|by eapply (Hd b2)|by eapply (Hd b1)|].
    by apply (Hdis b1 b2 v1 v2 i).
  - rewrite sum_totals_app. cbn. unfold total_at. rewrite lookup_insert_eq.
    rewrite (sum_totals_ext (<[b:=v]> bs) bs); [lia|].
    intros c Hc. rewrite lookup_insert_ne; [done|]. by intros ->.
  - lia.
Qed.

(** Dropping one packet. *)
Lemma wf_remove mx m l bs n b v :
  wf (mk_world (mk_head mx m false l) bs n) → bs !! b = Some v →
  wf (mk_world (mk_head mx (m - total_size v) false (filter (λ x, x ≠ b) l)) (delete b bs) n).
Proof.
  intros Hw Hb. pose proof Hw as [_ Hnd Hdom Hold Hbufs Hdis Hmem Hmax].
  pose proof (wf_totals_nonneg _ Hw b v Hb) as Ht. cbn in *.
  assert (b ∈ l) as Hin by (apply Hdom; eauto).
  split; cbn; try done.
  - by apply NoDup_filter.
  - intros c. rewrite list_elem_of_filter, Hdom. destruct (decide (c = b)) as [->|].
    + rewrite lookup_delete_eq. split; [by intros [? _]|by intros [? ?]].
    + rewrite lookup_delete_ne by done. naive_solver.
  - intros c [_ Hc]%list_elem_of_filter. by apply Hold.
  - intros c u [? Hc]%lookup_delete_Some. by eapply Hbufs.
  - intros b1 b2 v1 v2 i Hne [? H1]%lookup_delete_Some [? H2]%lookup_delete_Some.
    by apply (Hdis b1 b2 v1 v2 i).
  - rewrite sum_totals_remove by done. unfold total_at. rewrite Hb. lia.
  - lia.
Qed.

(** ** The checks pass *)

Lemma content_size_sum l :
  Forall blk_ok l → zlen (content_of l) < 2 ^ 63 →
  foldr (λ k s, u64 (blk_size k + s)) 0 l = zlen (content_of l).
Proof.
  induction 1 as [|k l Hk _ IH]; intros Hb; [done|].
  rewrite content_cons, length_app in *. pose proof (blk_bytes_len k Hk).
  cbn [foldr]. rewrite IH by lia. rewrite (wrap_small 64); lia.
Qed.

Lemma print_check_pass n v : buf_ok n v → total_size v < 2 ^ 63 → print_check_blkbuf v = true.
Proof.
  intros [Hb _ _ Ht _ _] Hmax. unfold print_check_blkbuf.
  apply andb_true_intro. split.
  - apply forallb_forall. intros k Hk%list_elem_of_In.
    rewrite Forall_forall in Hb. destruct (Hb k Hk) as [? [??] ??]. unfold PKTBUF_BLK_SIZE in *.
    cbv zeta. rewrite (wrap_small 64 (blk_data k)) by lia.
    rewrite (wrap_small 64 (blk_data k + blk_size k)) by lia.
    rewrite (wrap_small 64 (512 - _)) by lia. rewrite (wrap_small 64) by lia. lia.
  - apply Z.eqb_eq. rewrite Ht. apply content_size_sum; [done|].
    unfold content in Ht. lia.
Qed.

Lemma check_list_pass w l c :
  (∀ b, b ∈ l → ∃ v, bufs w !! b = Some v ∧ print_check_blkbuf v = true ∧ 0 ≤ total_size v) →
  0 ≤ c → c + sum_totals (bufs w) l < 2 ^ 63 →
  check_list l c w = Ok (c + sum_totals (bufs w) l, w).
Proof.
  revert c. induction l as [|b l IH]; intros c Hl Hc Hs; cbn [check_list sum_totals].
  - by rewrite Z.add_0_r.
  - destruct (Hl b) as (v & Hb & Hp & Ht); [set_solver|].
    apply wp_result. unfold get_buf.
    rewrite !wp_bind, wp_gets, wp_of_option. exists v. split; [done|].
    rewrite wp_bind, wp_assert. split; [done|].
    cbn [sum_totals] in Hs. unfold total_at in *. rewrite Hb in *. fold (total_at (bufs w)) in *.
    assert (0 ≤ sum_totals (bufs w) l).
    { clear -Hl. induction l as [|d l IH]; cbn; [lia|].
      destruct (Hl d) as (u & Hd & _ & Hu); [set_solver|]. unfold total_at. rewrite Hd.
      assert (0 ≤ sum_totals (bufs w) l); [|lia]. apply IH. intros e He. apply Hl. set_solver. }
    rewrite (wrap_small 64) by lia.
    eapply wp_of_run; [apply IH; [|lia|lia]|split; [lia|done]].
    intros e He. apply Hl. set_solver.
Qed.

Lemma world_eta w :
  on_head (set_head_lock false) (on_head (set_head_lock true) w) =
  on_head (set_head_lock false) w.
Proof. done. Qed.

Lemma unlock_id w : pktbuf_lock (phead w) = false → on_head (set_head_lock false) w = w.
Proof. destruct w as [[]]; cbn. by intros ->. Qed.

Lemma check_pass w : wf w → print_check_blkbuf_list w = Ok (tt, w).
Proof.
  intros Hw. apply wp_result. unfold print_check_blkbuf_list, acquire_head, release_head.
  rewrite !wp_bind, wp_gets, wp_bind, wp_assert, (wf_unlocked _ Hw), wp_modify. split; [done|].
  rewrite wp_bind, wp_gets, wp_bind.
  pose proof (wf_max _ Hw). pose proof (wf_mem _ Hw) as Hm.
  eapply wp_of_run.
  - apply check_list_pass; cbn; [|lia|lia].
    intros b Hb. apply (wf_dom _ Hw) in Hb as [v Hv]. exists v. split_and!; [done| |].
    + eapply print_check_pass; [by eapply wf_bufs|]. pose proof (wf_total_le w b v Hw Hv). lia.
    + by eapply wf_totals_nonneg.
  - rewrite wp_bind, wp_gets, wp_bind, wp_assert. split.
    + cbn. apply andb_true_intro. split; [apply Z.eqb_eq; lia|apply Z.leb_le; lia].
    + rewrite wp_bind, wp_gets, wp_bind, wp_assert. split; [done|].
      rewrite wp_modify. split; [done|]. rewrite world_eta. apply unlock_id, Hw.
Qed.

Lemma wp_check w (Q : unit → pworld → Prop) :
  wf w → Q tt w → wp print_check_blkbuf_list w Q.
Proof. intros Hw. apply wp_of_run. by apply check_pass. Qed.

(** ** Steps *)

Lemma wp_get_buf b w v (Q : Pktbuf → pworld → Prop) :
  bufs w !! b = Some v → Q v w → wp (get_buf b) w Q.
Proof.
  intros Hb HQ. unfold get_buf. rewrite wp_bind, wp_gets, wp_of_option. eauto.
Qed.

Lemma wp_put_buf b v w (Q : unit → pworld → Prop) :
  Q tt (on_bufs (insert b v) w) → wp (put_buf b v) w Q.
Proof. done. Qed.

Lemma wp_upd_buf b f w v (Q : unit → pworld → Prop) :
  bufs w !! b = Some v → Q tt (on_bufs (insert b (f v)) w) → wp (upd_buf b f) w Q.
Proof. intros Hb HQ. unfold upd_buf. apply wp_bind. by eapply wp_get_buf. Qed.

Lemma wp_acquire_head w (Q : unit → pworld → Prop) :
  pktbuf_lock (phead w) = false → Q tt (on_head (set_head_lock true) w) → wp acquire_head w Q.
Proof.
  intros Hl HQ. unfold acquire_head. rewrite wp_bind, wp_gets, wp_bind, wp_assert, Hl. done.
Qed.

Lemma wp_release_head w (Q : unit → pworld → Prop) :
  pktbuf_lock (phead w) = true → Q tt (on_head (set_head_lock false) w) → wp release_head w Q.
Proof.
  intros Hl HQ. unfold release_head. rewrite wp_bind, wp_gets, wp_bind, wp_assert, Hl. done.
Qed.

Lemma wp_wait_mem size w (Q : unit → pworld → Prop) :
  0 ≤ mem_size (phead w) + size < 2 ^ 64 →
  mem_size (phead w) + size ≤ max_mem_size (phead w) → Q tt w → wp (wait_mem size) w Q.
Proof.
  intros H1 H2 HQ. unfold wait_mem. rewrite wp_bind, wp_gets.
  rewrite (wrap_small 64) by lia. destruct (Z.ltb_spec (max_mem_size (phead w))
    (mem_size (phead w) + size)); [lia|done].
Qed.

Lemma wp_acquire_blk b v w (Q : unit → pworld → Prop) :
  bufs w !! b = Some v → pktblk_lock v = false →
  Q tt (on_bufs (insert b (set_blk_lock true v)) w) → wp (acquire_blk b) w Q.
Proof.
  intros Hb Hl HQ. unfold acquire_blk. apply wp_bind. eapply wp_get_buf; [done|].
  rewrite wp_bind, wp_assert, Hl. split; [done|]. by apply wp_put_buf.
Qed.

Lemma wp_release_blk b v w (Q : unit → pworld → Prop) :
  bufs w !! b = Some v → pktblk_lock v = true →
  Q tt (on_bufs (insert b (set_blk_lock false v)) w) → wp (release_blk b) w Q.
Proof.
  intros Hb Hl HQ. unfold release_blk. apply wp_bind. eapply wp_get_buf; [done|].
  rewrite wp_bind, wp_assert, Hl. split; [done|]. by apply wp_put_buf.
Qed.
End pktbuf.
