(* ===== verification/PktbufOps.v ===== *)
(** * Packet buffers: what the operations do

    Every operation on a well-formed module state returns, keeps the invariant
    (so none of the code's asserts can fail), leaves the other packets alone and
    acts on the packet's bytes as the operation's name says. *)
From S2P Require Import Prelude Errors Nettool Pktbuf.

Section ops.
Context `{K : Kmalloc} `{KO : !KmallocOk}.

(** The blocks [blks] were allocated between [n] and [n']. *)
Definition fresh_blks (n n' : Z) (blks : list Pktblk) : Prop :=
  n ≤ n' ∧ Forall blk_ok blks ∧ NoDup (map blk_id blks) ∧
  Forall (λ i, n ≤ i < n') (map blk_id blks).

Lemma fresh_cons n n' i size data p blks :
  fresh_blks n n' blks → n' ≤ i → blk_ok (mk_blk i size data p) →
  fresh_blks n (i + 1) (mk_blk i size data p :: blks).
Proof.
  intros (Hle & Hok & Hnd & Hf) Hi Hk. rewrite Forall_forall in Hf. split_and!; [lia|..].
  - by constructor.
  - cbn. apply NoDup_cons. split; [|done]. intros Hin. specialize (Hf _ Hin). lia.
  - cbn. constructor; [lia|]. apply Forall_forall. intros j Hj. specialize (Hf _ Hj). lia.
Qed.

Lemma fresh_snoc n n' i size data p blks :
  fresh_blks n n' blks → n' ≤ i → blk_ok (mk_blk i size data p) →
  fresh_blks n (i + 1) (blks ++ [mk_blk i size data p]).
Proof.
  intros (Hle & Hok & Hnd & Hf) Hi Hk. rewrite Forall_forall in Hf. split_and!; [lia|..].
  - apply Forall_app. split; [done|]. by constructor.
  - rewrite map_app. apply NoDup_app. split_and!; [done| |apply NoDup_singleton].
    intros j Hj. specialize (Hf _ Hj). cbn. intros ->%list_elem_of_singleton. lia.
  - rewrite map_app. apply Forall_app. split; [|cbn; constructor; [lia|constructor]].
    apply Forall_forall. intros j Hj. specialize (Hf _ Hj). lia.
Qed.

Lemma content_set t l v : content (set_total t (set_blks l v)) = content_of l.
Proof. reflexivity. Qed.

Lemma set_blks_id v : set_blks (pktblk_list v) v = v.
Proof. by destruct v. Qed.

(** The size of the first block of [n] bytes: the others are full. *)
Definition first_size (n : Z) : Z := (n - 1) mod PKTBUF_BLK_SIZE + 1.

Lemma first_size_step n : PKTBUF_BLK_SIZE < n → first_size (n - PKTBUF_BLK_SIZE) = first_size n.
Proof.
  intros. unfold first_size, PKTBUF_BLK_SIZE in *. f_equal.
  replace (n - 512 - 1) with (n - 1 + (-1) * 512) by lia. apply Z_mod_plus_full.
Qed.

Lemma first_size_small n : 0 < n ≤ PKTBUF_BLK_SIZE → first_size n = n.
Proof. intros. unfold first_size, PKTBUF_BLK_SIZE in *. rewrite Z.mod_small by lia. lia. Qed.

(** The first block allocated in front lies at the end of its payload. *)
Definition front_blk (size : Z) (blks : list Pktblk) : Prop :=
  ∃ k r, blks = k :: r ∧ blk_size k = first_size size ∧
    blk_data k = PKTBUF_BLK_SIZE - first_size size.

Lemma wp_alloc_list b size (front : bool) h bs n v (Q : unit → pworld → Prop) :
  bs !! b = Some v → 0 ≤ size < 2 ^ 63 →
  (∀ blks n', fresh_blks n n' blks → zlen (content_of blks) = size →
     (0 < size ≤ PKTBUF_BLK_SIZE → ∃ k, blks = [k]) →
     (front = true → 0 < size → front_blk size blks) →
     Q tt (mk_world h (<[b := set_blks (if front then blks ++ pktblk_list v
                                        else pktblk_list v ++ blks) v]> bs) n')) →
  wp (pktblock_alloc_list b size front) (mk_world h bs n) Q.
Proof.
  intros Hb Hs HQ. unfold pktblock_alloc_list.
  apply (wp_loop _ (λ sz w, ∃ blks n',
    w = mk_world h (<[b := set_blks (if front then blks ++ pktblk_list v
                                     else pktblk_list v ++ blks) v]> bs) n' ∧
    fresh_blks n n' blks ∧ zlen (content_of blks) = size - sz ∧ 0 ≤ sz ≤ size ∧
    (size ≤ PKTBUF_BLK_SIZE → blks = [] ∧ sz = size ∨ (∃ k, blks = [k]) ∧ sz = 0) ∧
    (0 < sz → first_size sz = first_size size) ∧
    (sz = 0 → front = true → 0 < size → front_blk size blks))
    (λ sz _, Z.to_nat sz)).
  - intros sz w (blks & n' & -> & Hf & Hc & Hsz & Hone & Hfs & Hfb).
    destruct (Z.eqb_spec sz 0) as [->|Hnz].
    + rewrite wp_ret. apply HQ; [done|lia| |by auto]. intros H1.
      destruct Hone as [[_ ?]|[? _]]; [lia|lia|done].
    + rewrite wp_bind. destruct (kmalloc_ok n') as (p & Hp & Hlen & Hby).
      unfold kmalloc_blk. rewrite !wp_bind, wp_gets, wp_bind, wp_modify. cbn [phead bufs brk].
      rewrite Hp, wp_ret.
      set (cur := if PKTBUF_BLK_SIZE <? sz then PKTBUF_BLK_SIZE else sz).
      assert (0 < cur ≤ PKTBUF_BLK_SIZE ∧ cur ≤ sz) as [Hcur Hcs].
      { unfold cur. destruct (Z.ltb_spec PKTBUF_BLK_SIZE sz); unfold PKTBUF_BLK_SIZE in *; lia. }
      assert (∀ d, 0 ≤ d → d + cur ≤ PKTBUF_BLK_SIZE → blk_ok (mk_blk n' cur d p)) as Hk
        by (intros d ??; split; cbn; try done; lia).
      assert (∀ d, 0 ≤ d → d + cur ≤ PKTBUF_BLK_SIZE →
        zlen (blk_bytes (mk_blk n' cur d p)) = cur) as Hkl
        by (intros d ??; apply blk_bytes_len, Hk; done).
      assert (size ≤ PKTBUF_BLK_SIZE → blks = [] ∧ sz - cur = 0) as Hone'.
      { intros H1. destruct (Hone H1) as [[-> ->]|[_ ->]]; [|lia]. split; [done|].
        unfold cur. destruct (Z.ltb_spec PKTBUF_BLK_SIZE size); lia. }
      assert (0 < sz - cur → first_size (sz - cur) = first_size size) as Hfs'.
      { intros Hpos. unfold cur in *. destruct (Z.ltb_spec PKTBUF_BLK_SIZE sz); [|lia].
        rewrite first_size_step by done. apply Hfs. lia. }
      assert (sz - cur = 0 → cur = first_size size) as Hcf.
      { intros. rewrite <- Hfs by lia. replace cur with sz by lia. symmetry. apply first_size_small. lia. }
      pose proof Hf as (Hle & _).
      assert (u64 (sz - cur) = sz - cur) as Hu by (apply wrap_small; lia).
      destruct front; rewrite wp_bind;
        (eapply wp_upd_buf; [cbn; by rewrite lookup_insert_eq|]);
        rewrite wp_ret, on_bufs_mk, insert_insert_eq, Hu; (split; [|lia]).
      * exists (mk_blk n' cur (PKTBUF_BLK_SIZE - cur) p :: blks), (n' + 1). split_and!; try lia.
        -- done.
        -- apply (fresh_cons _ n'); [done|lia|apply Hk; lia].
        -- rewrite content_cons, length_app, Nat2Z.inj_add, Hkl by lia. lia.
        -- intros H1. right. destruct (Hone' H1) as [-> ?]. split; [by eexists|lia].
        -- intros H0 _ _. exists (mk_blk n' cur (PKTBUF_BLK_SIZE - cur) p), blks.
           rewrite <- Hcf by done. done.
      * exists (blks ++ [mk_blk n' cur 0 p]), (n' + 1). split_and!; try lia.
        -- by rewrite app_assoc.
        -- apply (fresh_snoc _ n'); [done|lia|apply Hk; lia].
        -- rewrite content_app, length_app, Nat2Z.inj_add, content_cons, app_nil_r, Hkl by lia.
           lia.
        -- intros H1. right. destruct (Hone' H1) as [-> ?]. split; [by eexists|lia].
  - exists [], n. rewrite app_nil_r. split_and!; [| |cbn; lia|lia|lia| |done|lia].
    + destruct front; cbn; rewrite set_blks_id; by rewrite insert_id.
    + split_and!; [lia|constructor..].
    + intros _. by left.
  - lia.
Qed.

(** ** Common endings *)

(** [w'] is [w] with packet [b] now [v']. *)
Definition updated (w : pworld) (b : Z) (v' : Pktbuf) (w' : pworld) : Prop :=
  wf w' ∧ bufs w' = <[b := v']> (bufs w) ∧
  pktbuf_list (phead w') = pktbuf_list (phead w) ∧
  max_mem_size (phead w') = max_mem_size (phead w).

Lemma updated_trans w b v1 w1 v2 w2 :
  updated w b v1 w1 → updated w1 b v2 w2 → updated w b v2 w2.
Proof.
  intros (_ & E1 & L1 & M1) (Hw & E2 & L2 & M2). split_and!; [done| |congruence|congruence].
  by rewrite E2, E1, insert_insert_eq.
Qed.

Lemma updated_mem w b v v' w' :
  wf w → bufs w !! b = Some v → updated w b v' w' →
  mem_size (phead w') = mem_size (phead w) - total_size v + total_size v'.
Proof.
  intros Hw Hb (Hw' & Eb & El & _). rewrite (wf_mem _ Hw), (wf_mem _ Hw'), El, Eb.
  rewrite sum_totals_insert by (try apply (wf_nodup _ Hw); apply (wf_dom _ Hw); eauto).
  unfold total_at. rewrite Hb. lia.
Qed.

Lemma buf_ok_set n n' v l t :
  buf_ok n v → Forall blk_ok l → NoDup (map blk_id l) →
  Forall (λ i, i < n') (map blk_id l) → t = zlen (content_of l) →
  buf_ok n' (set_total t (set_blks l v)).
Proof. intros [_ _ _ _ Hr Hl] ????. by split. Qed.

Lemma fresh_disjoint n n' v blks i :
  buf_ok n v → fresh_blks n n' blks → i ∈ map blk_id blks → i ∈ blk_ids v → False.
Proof.
  intros Hv (_ & _ & _ & Hf) Hi Hi'. pose proof (buf_old _ _ Hv) as Ho.
  rewrite Forall_forall in Hf, Ho. specialize (Hf _ Hi). specialize (Ho _ Hi'). lia.
Qed.

(** Old blocks [l] of the packet together with fresh ones, in either order. *)
Lemma buf_ok_fresh n n' v l blks t (front : bool) :
  buf_ok n v → Forall blk_ok l → NoDup (map blk_id l) →
  (∀ i, i ∈ map blk_id l → i ∈ blk_ids v) → fresh_blks n n' blks →
  t = zlen (content_of blks) + zlen (content_of l) →
  let l' := if front then blks ++ l else l ++ blks in
  buf_ok n' (set_total t (set_blks l' v)) ∧
  (∀ i, i ∈ map blk_id l' → i ∈ blk_ids v ∨ n ≤ i).
Proof.
  intros Hv Hl Hnd Hin Hf Ht l'. pose proof Hf as (Hle & Hok & Hndf & Hfr).
  assert (∀ i, i ∈ map blk_id blks → i ∈ map blk_id l → False) as Hdis.
  { intros i Hi Hi'. eapply fresh_disjoint; eauto. }
  assert (∀ i, i ∈ map blk_id l' ↔ i ∈ map blk_id blks ∨ i ∈ map blk_id l) as Hmem.
  { intros i. unfold l'. destruct front; rewrite map_app, elem_of_app; naive_solver. }
  rewrite Forall_forall in Hfr. pose proof (buf_old _ _ Hv) as Ho. rewrite Forall_forall in Ho.
  split.
  - eapply buf_ok_set; [done|..].
    + unfold l'. destruct front; by apply Forall_app.
    + unfold l'. destruct front; rewrite map_app; apply NoDup_app; split_and!; try done.
      intros i Hi Hi'. by eapply Hdis.
    + apply Forall_forall. intros i [Hi|Hi]%Hmem.
      * specialize (Hfr _ Hi). lia.
      * specialize (Ho _ (Hin _ Hi)). lia.
    + unfold l'. destruct front; rewrite content_app, length_app; lia.
  - intros i [Hi|Hi]%Hmem; [|by left; apply Hin]. specialize (Hfr _ Hi). right. lia.
Qed.

Lemma wp_finish mx m m' l bs n b v v' n' (r : Z) (Q : Z → pworld → Prop) :
  wf (mk_world (mk_head mx m false l) bs n) → bs !! b = Some v → n ≤ n' →
  buf_ok n' v' → (∀ i, i ∈ blk_ids v' → i ∈ blk_ids v ∨ n ≤ i) →
  m' = m - total_size v + total_size v' → m' ≤ mx →
  (∀ w', updated (mk_world (mk_head mx m false l) bs n) b v' w' → Q r w') →
  wp (release_head;; print_check_blkbuf_list;; mret r)
     (mk_world (mk_head mx m' true l) (<[b := v']> bs) n') Q.
Proof.
  intros Hw Hb Hn Hv' Hids -> Hmx HQ.
  pose proof (wf_update mx m l bs n b v v' n' Hw Hb Hn Hv' Hids Hmx) as Hw'.
  apply wp_bind, wp_release_head; [done|]. apply wp_bind, wp_check; [exact Hw'|].
  rewrite wp_ret. apply HQ. by split_and!.
Qed.

(** ** [pktbuf_add_header] *)

Lemma blk_grow_front k s :
  blk_ok k → 0 ≤ s ≤ blk_data k →
  let k' := set_blk_data (blk_data k - s) (set_blk_size (u64 (blk_size k + s)) k) in
  blk_ok k' ∧ zlen (blk_bytes k') = blk_size k + s ∧
  ∃ hdr, zlen hdr = s ∧ blk_bytes k' = hdr ++ blk_bytes k.
Proof.
  intros Hk Hs k'. pose proof Hk as [Hn [Hd0 Hd1] Hw Hby]. unfold PKTBUF_BLK_SIZE in *.
  assert (u64 (blk_size k + s) = blk_size k + s) as Hu by (apply wrap_small; lia).
  assert (blk_ok k') as Hk'.
  { split; unfold k'; cbn; rewrite ?Hu; unfold PKTBUF_BLK_SIZE; try done; lia. }
  split; [done|]. split.
  - rewrite blk_bytes_len by done. done.
  - exists (take (Z.to_nat s) (drop (Z.to_nat (blk_data k - s)) (blk_payload k))).
    split; [rewrite length_take, length_drop; lia|].
    unfold blk_bytes, k'. cbn. rewrite Hu.
    replace (Z.to_nat (blk_size k + s)) with (Z.to_nat s + Z.to_nat (blk_size k))%nat by lia.
    rewrite take_drop_split. do 3 f_equal. lia.
Qed.

Lemma wp_add_header b size (cont : bool) w v (Q : Z → pworld → Prop) :
  wf w → bufs w !! b = Some v → content v ≠ [] → 0 ≤ size →
  mem_size (phead w) + size ≤ max_mem_size (phead w) →
  (cont → size ≤ PKTBUF_BLK_SIZE) →
  (cont = false → ∀ k l', pktblk_list v = k :: l' →
     size ≤ blk_data k ∨ blk_data k + blk_size k = PKTBUF_BLK_SIZE) →
  (∀ v' w' hdr, updated w b v' w' → zlen hdr = size → content v' = hdr ++ content v →
     (cont → 0 < size → ∃ k l', pktblk_list v' = k :: l' ∧ size ≤ blk_size k) →
     ref v' = ref v → Q NET_OK w') →
  wp (pktbuf_add_header b size cont) w Q.
Proof.
  destruct w as [[mx m lk l] bs n]. intros Hw Hb Hne Hs Hmem Hc Hnc HQ.
  pose proof (wf_unlocked _ Hw) as Hlk. cbn in Hlk, Hb, Hmem. subst lk.
  pose proof (wf_bufs _ Hw b v Hb) as Hv. cbn in Hv.
  pose proof (wf_max _ Hw) as Hmax. cbn in Hmax.
  pose proof (wf_total_le _ b v Hw Hb) as Htm. cbn in Htm.
  pose proof (buf_total_nonneg _ _ Hv) as Ht0.
  destruct (pktblk_list v) as [|blk rest] eqn:El.
  { exfalso. apply Hne. unfold content. by rewrite El. }
  unfold pktbuf_add_header.
  apply wp_bind. eapply wp_get_buf; [done|]. rewrite wp_bind, wp_assert, El. split; [done|].
  apply wp_bind, wp_acquire_head; [done|].
  apply wp_bind, wp_wait_mem; [cbn; lia..|].
  apply wp_bind. eapply wp_get_buf; [done|]. rewrite El.
  rewrite wp_bind, wp_modify. wsimpl. rewrite (wrap_small 64 (m + size)) by lia.
  pose proof (buf_blks _ _ Hv) as Hblks. rewrite El in Hblks.
  pose proof (Forall_cons_1 _ _ _ Hblks) as [Hblk Hrest].
  pose proof (buf_ids _ _ Hv) as Hids. unfold blk_ids in Hids. rewrite El in Hids.
  pose proof (buf_total _ _ Hv) as Htot. unfold content in Htot. rewrite El in Htot.
  assert (∀ i, i ∈ map blk_id (blk :: rest) → i ∈ blk_ids v) as Hin
    by (intros; unfold blk_ids; by rewrite El).
  assert (u64 (blk_data blk) = blk_data blk) as Hrs.
  { destruct Hblk as [? [??] ??]. apply wrap_small. unfold PKTBUF_BLK_SIZE in *. lia. }
  assert (u64 (total_size v + size) = total_size v + size) as Hts by (apply wrap_small; lia).
  rewrite Hrs, Hts. apply wp_bind.
  destruct (Z.leb_spec size (blk_data blk)) as [Hle|Hgt].
  - destruct (blk_grow_front blk size Hblk) as (Hk' & Hlen' & hdr & Hh & Ehdr); [lia|].
    set (k' := set_blk_data _ _) in *.
    apply wp_bind, wp_put_buf. rewrite wp_ret. wsimpl.
    destruct (buf_ok_fresh n n v (k' :: rest) [] (total_size v + size) false Hv)
      as [Hok Hids']; try done.
    { by constructor. }
    { split_and!; [lia|constructor..]. }
    { rewrite content_cons, length_app in *. cbn. rewrite Ehdr, length_app. lia. }
    rewrite app_nil_r in *.
    eapply wp_finish; [exact Hw|done|lia|exact Hok|done|cbn; lia|lia|].
    intros w' Hw'. eapply HQ; [exact Hw'|exact Hh|..].
    + rewrite content_set, content_cons, Ehdr. unfold content. rewrite El, content_cons.
      by rewrite app_assoc.
    + intros _ _. exists k', rest. split; [done|]. pose proof (blk_bytes_len _ Hk').
      destruct Hblk. lia.
    + done.
  - pose proof Hblk as [Hbn [Hbd0 Hbd1] _ _].
    destruct cont.
    + specialize (Hc I). destruct (Z.ltb_spec PKTBUF_BLK_SIZE size); [lia|].
      apply wp_bind. eapply wp_alloc_list; [done|lia|].
      intros blks n' Hf Hlf Hone _. rewrite El.
      apply wp_bind. eapply wp_upd_buf; [cbn; by rewrite lookup_insert_eq|].
      rewrite wp_ret. wsimpl. rewrite Hts.
      destruct (buf_ok_fresh n n' v (blk :: rest) blks (total_size v + size) true Hv)
        as [Hok Hids']; try done; [lia|].
      pose proof Hf as (Hle & _).
      eapply wp_finish; [exact Hw|done|lia|exact Hok|done|cbn; lia|lia|].
      intros w' Hw'. eapply HQ; [exact Hw'|exact Hlf|..]; [| |done].
      * rewrite content_set, content_app. unfold content. by rewrite El.
      * intros _ Hpos. destruct Hone as [k ->]; [lia|]. exists k, (blk :: rest).
        split; [done|]. rewrite content_cons, app_nil_r in Hlf.
        destruct Hf as (_ & Hfo & _). apply Forall_cons_1 in Hfo as [Hfo _].
        rewrite blk_bytes_len in Hlf by done. lia.
    + destruct (Hnc eq_refl blk rest eq_refl) as [?|Hfull]; [lia|].
      destruct (blk_grow_front blk (blk_data blk) Hblk) as (Hk' & Hlen' & hdr & Hh & Ehdr); [lia|].
      rewrite Z.sub_diag in *. change (set_blk_size ?x (set_blk_data 0 blk))
        with (set_blk_data 0 (set_blk_size x blk)).
      set (k' := set_blk_data 0 _) in *.
      assert (blk_size k' = PKTBUF_BLK_SIZE) as Hks.
      { rewrite blk_bytes_len in Hlen' by done. lia. }
      apply wp_bind, wp_put_buf. rewrite wp_bind, wp_assert. split; [by apply Z.eqb_eq|].
      apply wp_bind. wsimpl. eapply wp_upd_buf; [cbn; by rewrite lookup_insert_eq|].
      wsimpl. rewrite Hts, (wrap_small 64 (size - blk_data blk)) by lia.
      apply wp_bind. eapply wp_alloc_list; [by rewrite lookup_insert_eq|lia|].
      intros blks n' Hf Hlf _ _. rewrite wp_ret. wsimpl.
      destruct (buf_ok_fresh n n' v (k' :: rest) blks (total_size v + size) true Hv)
        as [Hok Hids']; try done.
      { by constructor. }
      { rewrite content_cons, length_app in *. rewrite Ehdr, length_app. lia. }
      pose proof Hf as (Hle & _).
      eapply wp_finish; [exact Hw|done|lia|exact Hok|done|cbn; lia|lia|].
      intros w' Hw'. apply (HQ _ _ (content_of blks ++ hdr) Hw'); [| |done|done].
      * rewrite length_app. lia.
      * rewrite content_set, content_app, content_cons, Ehdr. unfold content. rewrite El, content_cons.
        by rewrite <- !app_assoc.
Qed.

(** ** [pktbuf_remove_header] *)

Lemma blk_shrink_front k s :
  blk_ok k → 0 ≤ s < blk_size k →
  let k' := set_blk_size (u64 (blk_size k - s)) (set_blk_data (blk_data k + s) k) in
  blk_ok k' ∧ blk_bytes k' = drop (Z.to_nat s) (blk_bytes k).
Proof.
  intros Hk Hs k'. pose proof Hk as [Hn [Hd0 Hd1] Hw Hby]. unfold PKTBUF_BLK_SIZE in *.
  assert (u64 (blk_size k - s) = blk_size k - s) as Hu by (apply wrap_small; lia).
  split.
  - split; unfold k'; cbn; rewrite ?Hu; unfold PKTBUF_BLK_SIZE; try done; lia.
  - unfold blk_bytes, k'. cbn. rewrite Hu.
    rewrite skipn_firstn_comm, drop_drop. f_equal; [lia|]. f_equal. lia.
Qed.

Lemma blk_shrink_back k s :
  blk_ok k → 0 ≤ s < blk_size k →
  let k' := set_blk_size (u64 (blk_size k - s)) k in
  blk_ok k' ∧ blk_bytes k' = take (Z.to_nat (blk_size k - s)) (blk_bytes k).
Proof.
  intros Hk Hs k'. pose proof Hk as [Hn [Hd0 Hd1] Hw Hby]. unfold PKTBUF_BLK_SIZE in *.
  assert (u64 (blk_size k - s) = blk_size k - s) as Hu by (apply wrap_small; lia).
  split.
  - split; unfold k'; cbn; rewrite ?Hu; unfold PKTBUF_BLK_SIZE; try done; lia.
  - unfold blk_bytes, k'. cbn. rewrite Hu, take_take. f_equal. lia.
Qed.

(** Blocks [l'] are a sound remainder of those of packet [v]. *)
Definition part_of (v : Pktbuf) (l' : list Pktblk) : Prop :=
  Forall blk_ok l' ∧ NoDup (map blk_id l') ∧ (∀ i, i ∈ map blk_id l' → i ∈ blk_ids v).

Lemma part_of_split n v l1 l2 :
  buf_ok n v → pktblk_list v = l1 ++ l2 → part_of v l1 ∧ part_of v l2.
Proof.
  intros Hv El. pose proof (buf_blks _ _ Hv) as Hb. pose proof (buf_ids _ _ Hv) as Hi.
  unfold part_of, blk_ids in *. rewrite El, ?map_app in *.
  apply Forall_app in Hb as [? ?]. apply NoDup_app in Hi as (? & ? & ?).
  split; split_and!; try done; intros i; rewrite elem_of_app; auto.
Qed.

Lemma part_of_subst v k k' l1 l2 :
  part_of v (l1 ++ k :: l2) → blk_ok k' → blk_id k' = blk_id k → part_of v (l1 ++ k' :: l2).
Proof.
  intros (Hb & Hi & Hin) Hk' Eid. split_and!.
  - apply Forall_app in Hb as [? [??]%Forall_cons]. by apply Forall_app; split; [|constructor].
  - rewrite map_app in *. cbn in *. by rewrite Eid.
  - rewrite map_app in *. cbn in *. by rewrite Eid.
Qed.

Lemma buf_ok_part n v l' t :
  buf_ok n v → part_of v l' → t = zlen (content_of l') →
  buf_ok n (set_total t (set_blks l' v)) ∧
  (∀ i, i ∈ map blk_id l' → i ∈ blk_ids v ∨ n ≤ i).
Proof.
  intros Hv (Hb & Hi & Hin) Ht. split; [|naive_solver].
  eapply buf_ok_set; try done. pose proof (buf_old _ _ Hv) as Ho.
  rewrite Forall_forall in *. naive_solver.
Qed.

(** The chain of packet [b]. *)
Definition blks_at (b : Z) (w : pworld) : list Pktblk :=
  match bufs w !! b with Some v => pktblk_list v | None => [] end.

Lemma blks_at_mk b h v bs n : blks_at b (mk_world h (<[b := v]> bs) n) = pktblk_list v.
Proof. unfold blks_at. cbn [bufs]. by rewrite lookup_insert_eq. Qed.

Lemma wp_remove_header b size w v (Q : Z → pworld → Prop) :
  wf w → bufs w !! b = Some v → content v ≠ [] → 0 ≤ size ≤ total_size v →
  (∀ v' w', updated w b v' w' → content v' = drop (Z.to_nat size) (content v) →
     ref v' = ref v → Q NET_OK w') →
  wp (pktbuf_remove_header b size) w Q.
Proof.
  destruct w as [[mx m lk l] bs n]. intros Hw Hb Hne Hs HQ.
  pose proof (wf_unlocked _ Hw) as Hlk. cbn in Hlk, Hb. subst lk.
  pose proof (wf_bufs _ Hw b v Hb) as Hv. cbn in Hv.
  pose proof (wf_max _ Hw) as Hmax. cbn in Hmax.
  pose proof (wf_total_le _ b v Hw Hb) as Htm. cbn in Htm.
  pose proof (buf_total _ _ Hv) as Htot.
  assert (pktblk_list v ≠ []) as Hl0.
  { intros E. apply Hne. unfold content. by rewrite E. }
  unfold pktbuf_remove_header.
  apply wp_bind. eapply wp_get_buf; [done|].
  rewrite wp_bind, wp_assert. split; [by rewrite bool_decide_eq_false_2|].
  rewrite wp_bind, wp_assert. split; [apply Z.leb_le; lia|].
  apply wp_bind, wp_acquire_head; [done|].
  apply wp_bind. eapply wp_upd_buf; [done|]. rewrite wp_bind, wp_modify. wsimpl.
  rewrite !(wrap_small 64) by lia. apply wp_bind.
  set (w1 lc := mk_world (mk_head mx (m - size) true l)
    (<[b := set_total (total_size v - size) (set_blks lc v)]> bs) n).
  apply (wp_loop _ (λ sz w, ∃ gone lc, w = w1 lc ∧ pktblk_list v = gone ++ lc ∧
      zlen (content_of gone) = size - sz ∧ 0 ≤ sz)
    (λ sz w, length (blks_at b w))).
  - intros sz w (gone & lc & -> & El & Eg & Hsz).
    assert (content v = content_of gone ++ content_of lc) as Ec
      by (unfold content; by rewrite El, content_app).
    destruct (part_of_split _ _ _ _ Hv El) as [_ Hpart].
    assert (∀ l', part_of v l' → content_of l' = drop (Z.to_nat size) (content v) →
      wp (pkbuf_wakeup_nolock;; release_head;; print_check_blkbuf_list;; mret NET_OK) (w1 l') Q)
      as Hend.
    { intros l' Hp Hc. unfold pkbuf_wakeup_nolock. rewrite wp_bind, wp_ret.
      destruct (buf_ok_part n v l' (total_size v - size) Hv Hp) as [Hok Hids].
      { rewrite Hc, length_drop. lia. }
      eapply wp_finish; [exact Hw|done|lia|exact Hok|done|cbn; lia|lia|].
      intros w' Hw'. apply (HQ _ _ Hw'); [by rewrite content_set|done]. }
    destruct (Z.eqb_spec sz 0) as [->|Hnz].
    + rewrite wp_ret. apply Hend; [done|].
      rewrite Ec, drop_app_length'; [done|lia].
    + apply wp_bind. eapply wp_get_buf; [cbn; by rewrite lookup_insert_eq|].
      rewrite blks_set_total, blks_set_blks.
      assert (zlen (content v) = zlen (content_of gone) + zlen (content_of lc)) as Elen
        by (rewrite Ec, length_app; lia).
      destruct lc as [|k rest]; [cbn in Elen; lia|].
      destruct Hpart as (Hb' & Hi' & Hin'). pose proof (Forall_cons_1 _ _ _ Hb') as [Hk Hr].
      pose proof (blk_bytes_len k Hk) as Hkl.
      destruct (Z.ltb_spec sz (blk_size k)).
      * destruct (blk_shrink_front k sz Hk) as [Hk' Ek']; [lia|]. set (k' := set_blk_size _ _) in *.
        rewrite wp_bind. apply wp_put_buf. rewrite wp_ret. unfold w1. wsimpl.
        apply (Hend (k' :: rest)).
        -- by apply (part_of_subst v k k' [] rest).
        -- rewrite Ec, content_cons, (content_cons k), Ek'.
           replace (Z.to_nat size) with (length (content_of gone) + Z.to_nat sz)%nat by lia.
           rewrite drop_app_add, drop_app_le by lia. done.
      * rewrite wp_bind. apply wp_put_buf. rewrite wp_ret. unfold w1. wsimpl.
        destruct Hk as [Hkpos [??] ??] eqn:Ek0. clear Ek0. unfold PKTBUF_BLK_SIZE in *.
        rewrite (wrap_small 64) by (split; [lia|]; cbn in *; lia). split.
        -- exists (gone ++ [k]), rest. split_and!.
           ++ done.
           ++ by rewrite <- app_assoc.
           ++ rewrite content_app, length_app, content_cons, app_nil_r. lia.
           ++ lia.
        -- unfold w1. rewrite !blks_at_mk. cbn. lia.
  - exists [], (pktblk_list v). split_and!; try done; cbn; try lia.
  - rewrite blks_at_mk, blks_set_total. lia.
Qed.

(** ** [pktbuf_resize] *)

Lemma updated_id w b v : wf w → bufs w !! b = Some v → updated w b v w.
Proof. intros Hw Hb. split_and!; try done. by rewrite insert_id. Qed.

Lemma take_front {A} (l : list A) x : take (length (l ++ [x]) - 1) (l ++ [x]) = l.
Proof. rewrite length_app. cbn. apply take_app_length'. lia. Qed.

Lemma list_snoc_cases {A} (l : list A) : l = [] ∨ ∃ front x, l = front ++ [x].
Proof. induction l as [|x l _] using rev_ind; [by left|right; eauto]. Qed.

Lemma blk_grow_back k s :
  blk_ok k → 0 ≤ s → blk_data k + blk_size k + s ≤ PKTBUF_BLK_SIZE →
  let k' := set_blk_size (u64 (blk_size k + s)) k in
  blk_ok k' ∧ ∃ extra, zlen extra = s ∧ blk_bytes k' = blk_bytes k ++ extra.
Proof.
  intros Hk Hs Hle k'. pose proof Hk as [Hn [Hd0 Hd1] Hw Hby]. unfold PKTBUF_BLK_SIZE in *.
  assert (u64 (blk_size k + s) = blk_size k + s) as Hu by (apply wrap_small; lia).
  assert (blk_ok k') as Hk'.
  { split; unfold k'; cbn; rewrite ?Hu; unfold PKTBUF_BLK_SIZE; try done; lia. }
  split; [done|].
  exists (take (Z.to_nat s) (drop (Z.to_nat (blk_data k) + Z.to_nat (blk_size k)) (blk_payload k))).
  split; [rewrite length_take, length_drop; lia|].
  unfold blk_bytes, k'. cbn. rewrite Hu.
  replace (Z.to_nat (blk_size k + s)) with (Z.to_nat (blk_size k) + Z.to_nat s)%nat by lia.
  by rewrite take_drop_split.
Qed.

Lemma part_of_all n v : buf_ok n v → part_of v (pktblk_list v).
Proof. intros [? ? ? ? ? ?]. by split_and!. Qed.

(** The first block is where it was, and not shorter. *)
Definition head_kept (l l' : list Pktblk) : Prop :=
  match l with
  | [] => True
  | k :: _ => ∃ k' r, l' = k' :: r ∧ blk_id k' = blk_id k ∧ blk_data k' = blk_data k ∧
      blk_size k ≤ blk_size k'
  end.

Lemma head_kept_grow front tl s r :
  blk_size tl ≤ s → head_kept (front ++ [tl]) ((front ++ [set_blk_size s tl]) ++ r).
Proof.
  intros Hs. destruct front as [|k front]; cbn.
  - exists (set_blk_size s tl), r. by split_and!.
  - exists k, (front ++ [set_blk_size s tl] ++ r). rewrite <- app_assoc. by split_and!.
Qed.

Lemma wp_resize_grow b to_size w v (Q : Z → pworld → Prop) :
  wf w → bufs w !! b = Some v → total_size v < to_size →
  mem_size (phead w) - total_size v + to_size ≤ max_mem_size (phead w) →
  (∀ v' w' extra, updated w b v' w' → content v' = content v ++ extra →
     zlen (content v') = to_size → ref v' = ref v →
     head_kept (pktblk_list v) (pktblk_list v') → Q NET_OK w') →
  wp (pktbuf_resize b to_size) w Q.
Proof.
  destruct w as [[mx m lk l] bs n]. intros Hw Hb Hs Hmem HQ.
  pose proof (wf_unlocked _ Hw) as Hlk. cbn in Hlk, Hb, Hmem. subst lk.
  pose proof (wf_bufs _ Hw b v Hb) as Hv. cbn in Hv.
  pose proof (wf_max _ Hw) as Hmax. cbn in Hmax.
  pose proof (wf_total_le _ b v Hw Hb) as Htm. cbn in Htm.
  pose proof (buf_total_nonneg _ _ Hv) as Ht0.
  pose proof (buf_total _ _ Hv) as Htot.
  unfold pktbuf_resize. apply wp_bind. eapply wp_get_buf; [done|].
  destruct (Z.eqb_spec to_size (total_size v)); [lia|].
  apply wp_bind, wp_acquire_head; [done|].
  destruct (Z.ltb_spec (total_size v) to_size) as [_|]; [|lia].
  cbv zeta. rewrite !(wrap_small 64 (to_size - total_size v)) by lia.
  apply wp_bind, wp_bind, wp_wait_mem; [cbn; lia..|].
  apply wp_bind.
  set (w1 lc n' := mk_world (mk_head mx m true l) (<[b := set_blks lc v]> bs) n').
  assert (∀ lc n' extra, n ≤ n' → buf_ok n' (set_total to_size (set_blks lc v)) →
    (∀ i, i ∈ map blk_id lc → i ∈ blk_ids v ∨ n ≤ i) →
    content_of lc = content v ++ extra → zlen (content_of lc) = to_size →
    head_kept (pktblk_list v) lc →
    wp (upd_buf b (λ v0, set_total (u64 (total_size v0 + (to_size - total_size v))) v0);;
        modify (on_head (λ h, set_mem (u64 (mem_size h + (to_size - total_size v))) h)))
      (w1 lc n') (λ _ w, wp (release_head;; print_check_blkbuf_list;; mret NET_OK) w Q)) as Hend.
  { intros lc n' extra Hn Hok Hids Hc Hl Hkept.
    apply wp_bind. eapply wp_upd_buf; [cbn; by rewrite lookup_insert_eq|].
    rewrite wp_modify. unfold w1. wsimpl. rewrite !(wrap_small 64) by lia.
    replace (total_size v + (to_size - total_size v)) with to_size by lia.
    eapply wp_finish; [exact Hw|done|lia|exact Hok|done|cbn; lia|lia|].
    intros w' Hw'. eapply HQ; [exact Hw'|exact Hc|exact Hl|done|exact Hkept]. }
  destruct (Z.eqb_spec (total_size v) 0) as [Hz|Hz].
  - assert (pktblk_list v = []) as El.
    { apply content_nil; [apply Hv|]. apply length_zero_iff_nil. unfold content in *. lia. }
    eapply wp_alloc_list; [done|lia|]. intros blks n' Hf Hlf _ _. rewrite El.
    pose proof Hf as (Hle & _).
    destruct (buf_ok_fresh n n' v [] blks to_size false Hv) as [Hok Hids]; try done;
      [constructor..|set_solver|cbn; lia|].
    apply (Hend ([] ++ blks) n' (content_of blks)); try done.
    + unfold content. by rewrite El.
    + by rewrite El.
  - destruct (list_snoc_cases (pktblk_list v)) as [El|(front & tl & El)].
    { unfold content in *. rewrite El in Htot. cbn in Htot. lia. }
    rewrite El, last_snoc, take_front.
    assert (content v = content_of front ++ blk_bytes tl) as Ec.
    { unfold content. by rewrite El, content_app, content_cons, app_nil_r. }
    pose proof (part_of_all _ _ Hv) as Hp. rewrite El in Hp.
    assert (blk_ok tl) as Htl.
    { destruct Hp as (Hb' & _). by apply Forall_app in Hb' as [_ [? _]%Forall_cons]. }
    pose proof Htl as [Hn [Hd0 Hd1] _ _]. cbv zeta. rewrite (wrap_small 64 (blk_data tl))
      by (unfold PKTBUF_BLK_SIZE in *; lia).
    rewrite !(wrap_small 64 (blk_data tl + blk_size tl)) by (unfold PKTBUF_BLK_SIZE in *; lia).
    rewrite !(wrap_small 64 (PKTBUF_BLK_SIZE - _)) by (unfold PKTBUF_BLK_SIZE in *; lia).
    set (remain := PKTBUF_BLK_SIZE - (blk_data tl + blk_size tl)).
    destruct (Z.leb_spec (to_size - total_size v) remain) as [Hfit|Hnofit].
    + destruct (blk_grow_back tl (to_size - total_size v) Htl) as (Hk' & extra & Hx & Ex); [lia..|].
      set (k' := set_blk_size _ _) in *.
      assert (content_of (front ++ [k']) = content v ++ extra) as Ec'
        by (rewrite content_app, content_cons, app_nil_r, Ex, Ec, app_assoc; done).
      assert (part_of v (front ++ [k'])) as Hp' by by apply (part_of_subst v tl).
      destruct (buf_ok_part n v _ to_size Hv Hp') as [Hok Hids].
      { rewrite Ec', length_app. lia. }
      apply wp_put_buf. wsimpl.
      apply (Hend (front ++ [k']) n extra); try done; [rewrite Ec', length_app; lia|].
      rewrite El, <- (app_nil_r (front ++ [k'])). apply head_kept_grow.
      rewrite (wrap_small 64); unfold remain, PKTBUF_BLK_SIZE in *; lia.
    + destruct (blk_grow_back tl remain Htl) as (Hk' & extra & Hx & Ex); [lia..|].
      set (k' := set_blk_size _ _) in *.
      assert (content_of (front ++ [k']) = content v ++ extra) as Ec'
        by (by rewrite content_app, content_cons, app_nil_r, Ex, Ec, app_assoc).
      assert (part_of v (front ++ [k'])) as (Hb1 & Hi1 & Hin1) by by apply (part_of_subst v tl).
      apply wp_bind, wp_put_buf. wsimpl. rewrite (wrap_small 64) by lia.
      eapply wp_alloc_list; [by rewrite lookup_insert_eq|lia|].
      intros blks n' Hf Hlf _ _. wsimpl. pose proof Hf as (Hle & _).
      destruct (buf_ok_fresh n n' v (front ++ [k']) blks to_size false Hv) as [Hok Hids]; try done.
      { rewrite Ec', length_app. lia. }
      apply (Hend _ n' (extra ++ content_of blks)); try done.
      * by rewrite content_app, Ec', app_assoc.
      * rewrite content_app, Ec', !length_app. lia.
      * rewrite El. apply head_kept_grow.
        rewrite (wrap_small 64); unfold remain, PKTBUF_BLK_SIZE in *; lia.
Qed.

Lemma wp_resize_shrink b to_size w v (Q : Z → pworld → Prop) :
  wf w → bufs w !! b = Some v → 0 ≤ to_size ≤ total_size v →
  (∀ v' w', updated w b v' w' → content v' = take (Z.to_nat to_size) (content v) →
     ref v' = ref v → Q NET_OK w') →
  wp (pktbuf_resize b to_size) w Q.
Proof.
  destruct w as [[mx m lk l] bs n]. intros Hw Hb Hs HQ.
  pose proof (wf_unlocked _ Hw) as Hlk. cbn in Hlk, Hb. subst lk.
  pose proof (wf_bufs _ Hw b v Hb) as Hv. cbn in Hv.
  pose proof (wf_max _ Hw) as Hmax. cbn in Hmax.
  pose proof (wf_total_le _ b v Hw Hb) as Htm. cbn in Htm.
  pose proof (buf_total _ _ Hv) as Htot.
  unfold pktbuf_resize. apply wp_bind. eapply wp_get_buf; [done|].
  destruct (Z.eqb_spec to_size (total_size v)) as [E|Hne].
  { rewrite wp_ret. eapply HQ; [by eapply updated_id| |done]. rewrite take_ge by lia. done. }
  apply wp_bind, wp_acquire_head; [done|].
  destruct (Z.ltb_spec (total_size v) to_size) as [|_]; [lia|].
  cbv zeta. rewrite !(wrap_small 64 (total_size v - to_size)) by lia.
  rewrite !wp_bind. apply wp_put_buf. rewrite wp_bind, wp_modify. wsimpl.
  rewrite !(wrap_small 64) by lia. rewrite wp_bind.
  set (dec := total_size v - to_size).
  set (w1 lc := mk_world (mk_head mx (m - dec) true l)
    (<[b := set_total (total_size v - dec) (set_blks lc v)]> bs) n).
  apply (wp_loop _ (λ d w, ∃ gone lc, w = w1 lc ∧ pktblk_list v = lc ++ gone ∧
      zlen (content_of gone) = dec - d ∧ 0 ≤ d)
    (λ d w, length (blks_at b w))).
  - intros d w (gone & lc & -> & El & Eg & Hd).
    assert (content v = content_of lc ++ content_of gone) as Ec
      by (unfold content; by rewrite El, content_app).
    assert (zlen (content v) = zlen (content_of lc) + zlen (content_of gone)) as Elen
      by (rewrite Ec, length_app; lia).
    destruct (part_of_split _ _ _ _ Hv El) as [Hpart _].
    assert (∀ l', part_of v l' → content_of l' = take (Z.to_nat to_size) (content v) →
      wp pkbuf_wakeup_nolock (w1 l') (λ _ w,
        wp (release_head;; print_check_blkbuf_list;; mret NET_OK) w Q)) as Hend.
    { intros l' Hp Hc. unfold pkbuf_wakeup_nolock. rewrite wp_ret.
      destruct (buf_ok_part n v l' (total_size v - dec) Hv Hp) as [Hok Hids].
      { rewrite Hc, length_take. lia. }
      eapply wp_finish; [exact Hw|done|lia|exact Hok|done|cbn; lia|lia|].
      intros w' Hw'. apply (HQ _ _ Hw'); [by rewrite content_set|done]. }
    destruct (Z.eqb_spec d 0) as [->|Hnz].
    + rewrite wp_ret. apply Hend; [done|].
      rewrite Ec, take_app_length'; [done|lia].
    + apply wp_bind. eapply wp_get_buf; [cbn; by rewrite lookup_insert_eq|].
      rewrite blks_set_total, blks_set_blks.
      destruct (list_snoc_cases lc) as [->|(front & tl & ->)]; [cbn in Elen; lia|].
      rewrite last_snoc, take_front.
      assert (blk_ok tl) as Htl.
      { destruct Hpart as (Hb' & _). by apply Forall_app in Hb' as [_ [? _]%Forall_cons]. }
      pose proof (blk_bytes_len tl Htl) as Hkl.
      assert (content_of (front ++ [tl]) = content_of front ++ blk_bytes tl) as Ef
        by (by rewrite content_app, content_cons, app_nil_r).
      rewrite Ef, length_app in Elen.
      destruct (Z.ltb_spec d (blk_size tl)).
      * destruct (blk_shrink_back tl d Htl) as [Hk' Ek']; [lia|]. set (k' := set_blk_size _ _) in *.
        rewrite wp_bind. apply wp_put_buf. rewrite wp_ret. unfold w1. wsimpl.
        apply (Hend (front ++ [k'])).
        -- by apply (part_of_subst v tl k' front []).
        -- rewrite content_app, content_cons, app_nil_r, Ek', Ec, Ef, <- app_assoc.
           replace (Z.to_nat to_size)
             with (length (content_of front) + Z.to_nat (blk_size tl - d))%nat by lia.
           rewrite take_app_add, take_app_le by lia. done.
      * rewrite wp_bind. apply wp_put_buf. unfold w1. wsimpl.
        assert (part_of v front) as Hpf.
        { rewrite <- app_assoc in El. by apply (part_of_split _ _ _ _ Hv El). }
        destruct (bool_decide_reflect (front = [])) as [->|Hfr].
        -- cbn in Elen. rewrite wp_bind, wp_assert. split; [apply Z.eqb_eq; lia|].
           rewrite wp_ret. apply (Hend []); [done|]. by replace to_size with 0 by lia.
        -- destruct Htl as [Hkpos [??] ??]. unfold PKTBUF_BLK_SIZE in *.
           rewrite wp_ret, (wrap_small 64) by lia. split.
           ++ exists (tl :: gone), front. split_and!; [done|by rewrite El, <- app_assoc| |lia].
              rewrite content_cons, length_app. lia.
           ++ rewrite !blks_at_mk. rewrite !blks_set_total, !blks_set_blks, length_app. cbn. lia.
  - exists [], (pktblk_list v). split_and!; try done.
    + by rewrite app_nil_r.
    + cbn. lia.
    + lia.
  - rewrite blks_at_mk, blks_set_total. lia.
Qed.

(** ** [pktbuf_join] *)

Lemma wp_join dest src w d s (Q : Z → pworld → Prop) :
  wf w → dest ≠ src → bufs w !! dest = Some d → bufs w !! src = Some s →
  (∀ v' w', wf w' → bufs w' = <[dest := v']> (delete src (bufs w)) →
     content v' = content d ++ content s → ref v' = ref d →
     mem_size (phead w') = mem_size (phead w) →
     max_mem_size (phead w') = max_mem_size (phead w) → Q NET_OK w') →
  wp (pktbuf_join dest src) w Q.
Proof.
  destruct w as [[mx m lk l] bs n]. intros Hw Hne Hd Hs HQ.
  pose proof (wf_unlocked _ Hw) as Hlk. cbn in Hlk, Hd, Hs. subst lk.
  pose proof (wf_bufs _ Hw _ _ Hd) as Hvd. pose proof (wf_bufs _ Hw _ _ Hs) as Hvs.
  cbn in Hvd, Hvs.
  pose proof (wf_remove _ _ _ _ _ _ _ Hw Hs) as Hw1.
  assert (delete src bs !! dest = Some d) as Hd1 by by rewrite lookup_delete_ne.
  pose proof (wf_max _ Hw) as Hmax. pose proof (wf_total_le _ _ _ Hw1 Hd1) as Hle.
  cbn in Hmax, Hle.
  pose proof (buf_total_nonneg _ _ Hvd). pose proof (buf_total_nonneg _ _ Hvs).
  unfold pktbuf_join. apply wp_bind, wp_check; [done|]. apply wp_bind, wp_acquire_head; [done|].
  destruct (Z.eqb_spec dest src); [done|]. rewrite wp_bind, wp_ret.
  apply wp_bind. eapply wp_get_buf; [done|]. wsimpl.
  apply wp_bind. eapply wp_upd_buf; [done|]. wsimpl.
  apply wp_bind. eapply wp_upd_buf; [cbn; by rewrite lookup_insert_eq|]. wsimpl.
  rewrite wp_bind, wp_modify, wp_bind, wp_modify. wsimpl.
  rewrite (wrap_small 64) by lia.
  rewrite delete_insert_ne by done.
  set (v' := set_total _ _).
  assert (∀ i, i ∈ blk_ids v' ↔ i ∈ blk_ids d ∨ i ∈ blk_ids s) as Hids.
  { intros i. unfold blk_ids, v'. rewrite blks_set_total, blks_set_blks, map_app.
    by rewrite elem_of_app. }
  assert (content v' = content d ++ content s) as Ec
    by (unfold v', content; by rewrite blks_set_total, blks_set_blks, content_app).
  assert (buf_ok n v') as Hv'.
  { eapply buf_ok_set; [exact Hvd|..].
    - apply Forall_app. split; [apply Hvd|apply Hvs].
    - rewrite map_app. apply NoDup_app. split_and!; [apply Hvd| |apply Hvs].
      intros i H1 H2. by apply (wf_disj _ Hw dest src d s i).
    - rewrite map_app. apply Forall_app. split; [apply Hvd|apply Hvs].
    - rewrite content_app, length_app, (buf_total _ _ Hvd), (buf_total _ _ Hvs).
      unfold content. lia. }
  assert (total_size v' = total_size d + total_size s) as Et by done.
  assert (wf (mk_world (mk_head mx m false (filter (λ x, x ≠ src) l))
    (<[dest:=v']> (delete src bs)) n)) as Hw'.
  { replace m with (m - total_size s - total_size d + total_size v') by lia.
    eapply wf_replace; [exact Hw1|done|lia|done| |lia].
    intros i c u Hc [Hcs Hu]%lookup_delete_Some Hi [Hi'|Hi']%Hids.
    - by apply (wf_disj _ Hw c dest u d i).
    - by apply (wf_disj _ Hw c src u s i). }
  apply wp_bind, wp_release_head; [done|]. apply wp_bind, wp_check; [exact Hw'|].
  rewrite wp_ret. by apply (HQ v').
Qed.

(** ** [pktbuf_set_cont] *)

Lemma blk_rebase k :
  blk_ok k → ∃ p, mem_write (blk_payload k) 0 (blk_bytes k) = Some p ∧
    let k' := set_blk_data 0 (set_blk_payload p k) in
    blk_ok k' ∧ blk_bytes k' = blk_bytes k.
Proof.
  intros Hk. pose proof (blk_bytes_len k Hk) as Hl. pose proof (blk_bytes_ok k Hk) as Hby.
  destruct Hk as [Hn [Hd0 Hd1] Hw Hb].
  assert (mem_write (blk_payload k) 0 (blk_bytes k) = Some _) as E
    by (apply mem_write_eq; lia).
  eexists. split; [exact E|]. split.
  - split; cbn; try done; [lia| |].
    + rewrite <- Hw. f_equal. by apply (mem_write_length _ _ _ _ E).
    + by apply (mem_write_Forall _ _ _ _ _ E).
  - unfold blk_bytes at 1. cbn. rewrite drop_0. change (Z.to_nat 0) with 0%nat. rewrite take_0.
    change ([] ++ ?x) with x. rewrite take_app_length'; [done|lia].
Qed.

Lemma blk_extend k d :
  blk_ok k → Forall is_byte d → blk_data k + blk_size k + zlen d ≤ PKTBUF_BLK_SIZE →
  ∃ p, mem_write (blk_payload k) (blk_data k + blk_size k) d = Some p ∧
    let k' := set_blk_size (u64 (blk_size k + zlen d)) (set_blk_payload p k) in
    blk_ok k' ∧ blk_bytes k' = blk_bytes k ++ d.
Proof.
  intros Hk Hby Hle. destruct Hk as [Hn [Hd0 Hd1] Hw Hb].
  assert (u64 (blk_size k + zlen d) = blk_size k + zlen d) as Hu
    by (apply wrap_small; unfold PKTBUF_BLK_SIZE in *; lia).
  assert (mem_write (blk_payload k) (blk_data k + blk_size k) d = Some _) as E
    by (apply mem_write_eq; lia).
  eexists. split; [exact E|]. split.
  - split; cbn; rewrite ?Hu; try done; [lia|lia| |].
    + rewrite <- Hw. f_equal. by apply (mem_write_length _ _ _ _ E).
    + by apply (mem_write_Forall _ _ _ _ _ E).
  - unfold blk_bytes. cbn. rewrite Hu.
    rewrite drop_app_le by (rewrite length_take; lia).
    rewrite skipn_firstn_comm.
    replace (Z.to_nat (blk_data k + blk_size k) - Z.to_nat (blk_data k))%nat
      with (Z.to_nat (blk_size k)) by lia.
    rewrite app_assoc. rewrite take_app_length'; [done|].
    rewrite length_app, length_take, length_drop. lia.
Qed.

(** One round moves the front of the second block to the end of the first. *)
Lemma set_cont_step v f c rest mv :
  part_of v (f :: c :: rest) → 0 < mv ≤ blk_size c →
  blk_data f + blk_size f + mv ≤ PKTBUF_BLK_SIZE →
  ∃ d p, mem_read (blk_payload c) (blk_data c) mv = Some d ∧
    mem_write (blk_payload f) (blk_data f + blk_size f) d = Some p ∧
    let f' := set_blk_size (u64 (blk_size f + mv)) (set_blk_payload p f) in
    let c' := set_blk_size (u64 (blk_size c - mv)) (set_blk_data (blk_data c + mv) c) in
    let l' := f' :: (if blk_size c' =? 0 then rest else c' :: rest) in
    part_of v l' ∧ content_of l' = content_of (f :: c :: rest) ∧ blk_size f' = blk_size f + mv.
Proof.
  intros Hp Hmv Hfit. pose proof Hp as (Hb & Hi & Hin).
  pose proof (Forall_cons_1 _ _ _ Hb) as [Hf Hb1]. pose proof (Forall_cons_1 _ _ _ Hb1) as [Hc Hr].
  pose proof Hc as [Hcn [Hcd0 Hcd1] Hcw Hcb]. unfold PKTBUF_BLK_SIZE in *.
  set (d := take (Z.to_nat mv) (drop (Z.to_nat (blk_data c)) (blk_payload c))).
  assert (zlen d = mv) as Hd by (unfold d; rewrite length_take, length_drop; lia).
  destruct (blk_extend f d Hf) as (p & Hw & Hok & Ef).
  { unfold d. by apply Forall_take, Forall_drop. }
  { unfold PKTBUF_BLK_SIZE. lia. }
  rewrite Hd in Hok, Ef. refine (ex_intro _ d (ex_intro _ p (conj _ (conj Hw _)))); [apply mem_read_eq; lia|].
  cbv zeta. set (f' := set_blk_size (u64 (blk_size f + mv)) _).
  set (c' := set_blk_size (u64 (blk_size c - mv)) _). assert (blk_size f' = blk_size f + mv) as Hsz.
  { unfold f'. cbn. destruct Hf as [? [??] ??]. apply wrap_small. lia. }
  assert (blk_size c' = blk_size c - mv) as Hcs by (unfold c'; cbn; apply wrap_small; lia).
  assert (part_of v (f' :: c :: rest)) as Hp1 by by apply (part_of_subst v f f' [] (c :: rest)).
  destruct (decide (mv = blk_size c)) as [->|Hne].
  - rewrite Hcs, Z.sub_diag. cbn [Z.eqb]. split_and!; [| |done].
    + destruct Hp1 as (H1 & H2 & H3). split_and!.
      * constructor; [by apply Forall_cons_1 in H1|done].
      * cbn in *. apply NoDup_cons in H2 as [H2 [_ ?]%NoDup_cons]. apply NoDup_cons. split; [|done].
        intros ?. apply H2. by apply list_elem_of_further.
      * intros i Hi'. apply H3. cbn in *. apply elem_of_cons in Hi' as [->|?].
        -- apply list_elem_of_here.
        -- by do 2 apply list_elem_of_further.
    + rewrite !content_cons. unfold f'. rewrite Ef. rewrite <- app_assoc. f_equal.
  - destruct (blk_shrink_front c mv Hc) as [Hc' Ec']; [lia|]. fold c' in Hc', Ec'.
    destruct (Z.eqb_spec (blk_size c') 0); [lia|]. split_and!; [| |done].
    + by apply (part_of_subst v c c' [f'] rest).
    + rewrite !content_cons, Ec'. unfold f'. rewrite Ef. rewrite <- !app_assoc. f_equal.
      rewrite app_assoc. f_equal. unfold d, blk_bytes.
      rewrite skipn_firstn_comm, drop_drop.
      replace (Z.to_nat (blk_size c)) with (Z.to_nat mv + Z.to_nat (blk_size c - mv))%nat by lia.
      rewrite take_drop_split. do 2 f_equal; lia.
Qed.

Lemma wp_set_cont b size w v (Q : Z → pworld → Prop) :
  wf w → bufs w !! b = Some v → content v ≠ [] → 0 ≤ size ≤ total_size v →
  size ≤ PKTBUF_BLK_SIZE →
  (∀ v' w', updated w b v' w' → content v' = content v →
     (∃ k l', pktblk_list v' = k :: l' ∧ size ≤ blk_size k) →
     ref v' = ref v → Q NET_OK w') →
  wp (pktbuf_set_cont b size) w Q.
Proof.
  destruct w as [[mx m lk l] bs n]. intros Hw Hb Hne Hs Hs512 HQ.
  pose proof (wf_unlocked _ Hw) as Hlk. cbn in Hlk, Hb. subst lk.
  pose proof (wf_bufs _ Hw b v Hb) as Hv. cbn in Hv.
  pose proof (wf_max _ Hw) as Hmax. cbn in Hmax.
  pose proof (wf_total_le _ b v Hw Hb) as Htm. cbn in Htm.
  pose proof (buf_total _ _ Hv) as Htot.
  destruct (pktblk_list v) as [|k rest] eqn:El.
  { exfalso. apply Hne. unfold content. by rewrite El. }
  unfold pktbuf_set_cont. apply wp_bind. eapply wp_get_buf; [done|].
  destruct (Z.ltb_spec (total_size v) size); [lia|].
  destruct (Z.ltb_spec PKTBUF_BLK_SIZE size); [lia|].
  apply wp_bind, wp_acquire_head; [done|]. rewrite El.
  rewrite wp_bind, wp_assert. split; [done|].
  pose proof (part_of_all _ _ Hv) as Hp. rewrite El in Hp.
  assert (blk_ok k) as Hk by (destruct Hp as (Hb0 & _); by apply Forall_cons_1 in Hb0 as [? _]).
  pose proof (blk_bytes_len k Hk) as Hkl.
  destruct (Z.leb_spec size (blk_size k)) as [Hle|Hgt].
  { apply wp_bind, wp_release_head; [done|]. rewrite wp_ret. wsimpl.
    eapply HQ; [by eapply updated_id|done|by eauto|done]. }
  pose proof Hk as [Hkn [Hkd0 Hkd1] Hkw _].
  destruct (blk_rebase k Hk) as (p & Hwr & Hok0 & E0).
  rewrite mem_read_eq by (unfold PKTBUF_BLK_SIZE in *; lia). cbn [of_option]. rewrite wp_bind, wp_ret.
  fold (blk_bytes k). rewrite Hwr. cbn [of_option]. rewrite wp_bind, wp_ret.
  set (k0 := set_blk_data 0 _) in *.
  rewrite wp_bind. apply wp_put_buf. wsimpl. rewrite wp_bind.
  rewrite (wrap_small 64) by (unfold PKTBUF_BLK_SIZE in *; lia).
  set (w1 lc := mk_world (mk_head mx m true l) (<[b := set_blks lc v]> bs) n).
  apply (wp_loop _ (λ r w, ∃ f rs, w = w1 (f :: rs) ∧ part_of v (f :: rs) ∧
      content_of (f :: rs) = content v ∧ blk_data f = 0 ∧ blk_size f = size - r ∧ 0 ≤ r)
    (λ r w, if r =? 0 then 0%nat else length (blks_at b w))).
  - intros r w (f & rs & -> & Hpr & Ec & Hf0 & Hfs & Hr).
    destruct Hpr as (Hb' & Hi' & Hin') eqn:EP. clear EP.
    pose proof (Forall_cons_1 _ _ _ Hb') as [Hf Hrs]. pose proof (blk_bytes_len f Hf) as Hfl.
    assert (zlen (content v) = blk_size f + zlen (content_of rs)) as Elen
      by (rewrite <- Ec, content_cons, length_app; lia).
    destruct (Z.eqb_spec r 0) as [->|Hr0].
    + rewrite wp_ret.
      destruct (buf_ok_part n v (f :: rs) (total_size v) Hv Hpr) as [Hok Hids].
      { rewrite Ec. lia. }
      assert (set_blks (f :: rs) v = set_total (total_size v) (set_blks (f :: rs) v)) as E by done.
      unfold w1. rewrite E.
      eapply wp_finish; [exact Hw|done|lia|exact Hok|done|cbn; lia|lia|].
      intros w' Hw'. apply (HQ _ _ Hw'); [by rewrite content_set| |done].
      exists f, rs. split; [done|]. lia.
    + apply wp_bind. eapply wp_get_buf; [cbn; by rewrite lookup_insert_eq|].
      rewrite blks_set_blks. destruct rs as [|c rs]; [cbn in Elen; lia|].
      set (mv := if r <? blk_size c then r else blk_size c).
      pose proof (Forall_cons_1 _ _ _ Hrs) as [Hc _].
      assert (0 < mv ≤ blk_size c ∧ mv ≤ r) as [Hmv Hmr].
      { unfold mv. destruct Hc. destruct (Z.ltb_spec r (blk_size c)); lia. }
      destruct (set_cont_step v f c rs mv Hpr Hmv) as (d & p' & Hrd & Hwr' & Hp' & Ec' & Hs').
      { rewrite Hf0, Hfs. lia. }
      rewrite Hrd. cbn [of_option]. rewrite wp_bind, wp_ret.
      rewrite Hwr'. cbn [of_option]. rewrite wp_bind, wp_ret.
      rewrite wp_bind. apply wp_put_buf. rewrite wp_ret. unfold w1. wsimpl.
      rewrite (wrap_small 64 (r - mv)) by (unfold PKTBUF_BLK_SIZE in *; lia).
      split.
      * eexists _, _. split_and!; [reflexivity|exact Hp'|by rewrite Ec'|done| |lia].
        rewrite Hs'. lia.
      * destruct (Z.eqb_spec r 0); [lia|]. rewrite !blks_at_mk, !blks_set_blks.
        destruct (Z.eqb_spec (r - mv) 0) as [|Hlast]; [cbn [length]; lia|].
        assert (mv = blk_size c) as Emv
          by (revert Hlast; unfold mv; destruct (Z.ltb_spec r (blk_size c)); lia).
        cbn [blk_size set_blk_size set_blk_data]. rewrite Emv, Z.sub_diag.
        change (u64 0 =? 0) with true. cbn [length]. lia.
  - exists k0, rest. split_and!; [done| | |done|cbn; lia|lia].
    + by apply (part_of_subst v k k0 [] rest).
    + unfold content. by rewrite El, !content_cons, E0.
  - destruct (_ =? 0); [lia|]. rewrite blks_at_mk, blks_set_blks. cbn [length]. lia.
Qed.

(** ** [pktbuf_alloc], [pktbuf_free], [pktbuf_inc_ref], [pktbuf_reset_acc] *)

(** The cursor at the packet's first byte. *)
Definition cursor_start (v : Pktbuf) : Pktbuf :=
  match pktblk_list v with
  | k :: _ => set_cursor 0 (Some (blk_id k)) (blk_data k) v
  | [] => set_cursor 0 None 0 v
  end.

Lemma cursor_start_blks v :
  pktblk_list (cursor_start v) = pktblk_list v ∧ total_size (cursor_start v) = total_size v ∧
  ref (cursor_start v) = ref v ∧ pktblk_lock (cursor_start v) = pktblk_lock v.
Proof. unfold cursor_start. by destruct v as [? [|k l] ? ? ? ? ?]. Qed.

(** A packet that differs only in its cursor or its reference count. *)
Lemma buf_ok_same n v v' :
  buf_ok n v → pktblk_list v' = pktblk_list v → total_size v' = total_size v →
  0 < ref v' → pktblk_lock v' = false → buf_ok n v'.
Proof.
  intros [H1 H2 H3 H4 H5 H6] El Et Hr Hk.
  split; unfold content, blk_ids in *; rewrite ?El, ?Et; done.
Qed.

Lemma wf_same w b v v' :
  wf w → bufs w !! b = Some v → pktblk_list v' = pktblk_list v → total_size v' = total_size v →
  0 < ref v' → pktblk_lock v' = false → updated w b v' (on_bufs (insert b v') w).
Proof.
  destruct w as [[mx m lk l] bs n]. intros Hw Hb El Et Hr Hk.
  pose proof (wf_unlocked _ Hw) as Hlk. cbn in Hlk, Hb. subst lk.
  pose proof (wf_max _ Hw) as Hmax. cbn in Hmax.
  split_and!; [|done|done|done]. rewrite on_bufs_mk.
  replace m with (m - total_size v + total_size v') by lia.
  apply (wf_update _ _ _ _ n); [done|done|lia| | |lia].
  - apply (buf_ok_same _ v); try done. by apply (wf_bufs _ Hw b v).
  - intros i. unfold blk_ids. rewrite El. by left.
Qed.

Lemma wp_reset_acc b w v (Q : unit → pworld → Prop) :
  wf w → bufs w !! b = Some v →
  (∀ w', updated w b (cursor_start v) w' → Q tt w') → wp (pktbuf_reset_acc b) w Q.
Proof.
  intros Hw Hb HQ. pose proof (wf_bufs _ Hw _ _ Hb) as Hv.
  unfold pktbuf_reset_acc. apply wp_bind. eapply wp_acquire_blk; [done|apply Hv|].
  apply wp_bind. eapply wp_upd_buf; [cbn; by rewrite lookup_insert_eq|].
  eapply wp_release_blk; [cbn; by rewrite lookup_insert_eq| |].
  { cbn. by destruct (pktblk_list v). }
  destruct (cursor_start_blks v) as (E1 & E2 & E3 & E4).
  pose proof (wf_same w b v (cursor_start v) Hw Hb E1 E2) as Hu.
  rewrite E3, E4 in Hu. specialize (Hu (buf_ref _ _ Hv) (buf_unlocked _ _ Hv)).
  assert (set_blk_lock false (match pktblk_list (set_blk_lock true v) with
     | k :: _ => set_cursor 0 (Some (blk_id k)) (blk_data k) (set_blk_lock true v)
     | [] => set_cursor 0 None 0 (set_blk_lock true v) end) = cursor_start v) as E.
  { unfold cursor_start. pose proof (buf_unlocked _ _ Hv) as Hl.
    destruct v as [? [|k l] ? ? ? ? ?]; cbn in *; by subst. }
  apply HQ. destruct w as [h bs n]. rewrite !on_bufs_mk in *. rewrite !insert_insert_eq.
  exact (eq_rect _ (λ x, updated _ b (cursor_start v) (mk_world h (<[b := x]> bs) n)) Hu _
    (eq_sym E)).
Qed.

Lemma wp_alloc size w (Q : Z → pworld → Prop) :
  wf w → 0 ≤ size → mem_size (phead w) + size ≤ max_mem_size (phead w) →
  (∀ v w', wf w' → bufs w !! brk w = None → bufs w' = <[brk w := v]> (bufs w) →
     zlen (content v) = size → ref v = 1 → cursor_start v = v →
     mem_size (phead w') = mem_size (phead w) + size →
     max_mem_size (phead w') = max_mem_size (phead w) →
     (0 < size ≤ PKTBUF_BLK_SIZE → ∃ k, pktblk_list v = [k]) →
     (0 < size → front_blk size (pktblk_list v)) → Q (brk w) w') →
  wp (pktbuf_alloc size) w Q.
Proof.
  destruct w as [[mx m lk l] bs n]. intros Hw Hs Hmem HQ.
  pose proof (wf_unlocked _ Hw) as Hlk. cbn in Hlk, Hmem. subst lk.
  pose proof (wf_max _ Hw) as Hmax. cbn in Hmax.
  pose proof (wf_mem _ Hw) as Hm. cbn in Hm.
  assert (0 ≤ m) as Hm0 by (rewrite Hm; apply sum_totals_nonneg, (wf_totals_nonneg _ Hw)).
  assert (bs !! n = None) as Hfresh.
  { destruct (bs !! n) eqn:E; [|done].
    assert (n ∈ l) as Hin by (apply (wf_dom _ Hw); cbn; eauto).
    pose proof (wf_old _ Hw _ Hin). cbn in *. lia. }
  unfold pktbuf_alloc. apply wp_bind, wp_acquire_head; [done|].
  apply wp_bind, wp_wait_mem; [cbn; lia..|].
  destruct (kmalloc_ok n) as (p & Hp & _). apply wp_bind. unfold kmalloc_blk.
  rewrite wp_bind, wp_gets, wp_bind, wp_modify. cbn [phead bufs brk on_head]. rewrite Hp, wp_ret.
  apply wp_bind, wp_put_buf. rewrite on_bufs_mk.
  set (v0 := mk_buf size [] 0 1 None 0 false).
  apply wp_bind. eapply wp_alloc_list; [by rewrite lookup_insert_eq|lia|].
  intros blks n' (Hle & Hok & Hnd & Hf) Hlf Hone Hfb.
  rewrite wp_bind, wp_modify, wp_bind, wp_modify. wsimpl.
  rewrite (wrap_small 64) by lia. rewrite app_nil_r.
  set (v1 := set_blks blks v0).
  assert (buf_ok n' v1) as Hv1.
  { split; cbn; try done. eapply Forall_impl; [exact Hf|]. cbn. lia. }
  apply wp_bind, wp_release_head; [done|]. wsimpl.
  assert (wf (mk_world (mk_head mx (m + total_size v1) false (l ++ [n])) (<[n:=v1]> bs) n')) as Hw1.
  { apply (wf_add _ _ _ _ n); [done|lia|done| |cbn; lia].
    eapply Forall_impl; [exact Hf|]. cbn. lia. }
  apply wp_bind. eapply wp_reset_acc; [exact Hw1|cbn; by rewrite lookup_insert_eq|].
  intros w' (Hw' & Eb & El & Em). apply wp_bind, wp_check; [done|]. rewrite wp_ret.
  apply (HQ (cursor_start v1)); try done.
  - rewrite Eb. cbn [bufs]. by rewrite insert_insert_eq.
  - unfold content. rewrite (proj1 (cursor_start_blks v1)). exact Hlf.
  - by rewrite (proj1 (proj2 (proj2 (cursor_start_blks v1)))).
  - unfold cursor_start, v1. cbn. by destruct blks.
  - rewrite (wf_mem _ Hw'), El, Eb. cbn [phead pktbuf_list bufs].
    pose proof (wf_mem _ Hw1) as Hm1. cbn in Hm1.
    rewrite sum_totals_insert by (try apply (wf_nodup _ Hw1); set_solver).
    unfold total_at. rewrite lookup_insert_eq.
    rewrite (proj1 (proj2 (cursor_start_blks v1))). cbn [phead mem_size]. lia.
  - intros Hsz. destruct (Hone Hsz) as [k ->]. exists k.
    by rewrite (proj1 (cursor_start_blks v1)).
  - intros Hsz. rewrite (proj1 (cursor_start_blks v1)). by apply Hfb.
Qed.

Lemma wp_free b w v (Q : unit → pworld → Prop) :
  wf w → bufs w !! b = Some v →
  (ref v = 1 → ∀ w', wf w' → bufs w' = delete b (bufs w) →
     mem_size (phead w') = mem_size (phead w) - total_size v →
     max_mem_size (phead w') = max_mem_size (phead w) → Q tt w') →
  (1 < ref v → ∀ w', updated w b (set_ref (ref v - 1) v) w' → Q tt w') →
  wp (pktbuf_free b) w Q.
Proof.
  intros Hw Hb HQ1 HQ2. pose proof (wf_bufs _ Hw _ _ Hb) as Hv.
  pose proof (buf_ref _ _ Hv) as Hr. pose proof (buf_unlocked _ _ Hv) as Hlk.
  unfold pktbuf_free. apply wp_bind. eapply wp_upd_buf; [done|].
  apply wp_bind. eapply wp_get_buf; [cbn; by rewrite lookup_insert_eq|].
  cbn [ref set_ref]. destruct (Z.eqb_spec (ref v - 1) 0).
  - destruct w as [[mx m lk l] bs n].
    pose proof (wf_unlocked _ Hw) as Hlk'. cbn in Hlk', Hb. subst lk.
    pose proof (wf_remove _ _ _ _ _ _ _ Hw Hb) as Hw1.
    pose proof (wf_total_le _ b v Hw Hb) as Htm. cbn in Htm.
    pose proof (wf_max _ Hw) as Hmax. cbn in Hmax.
    pose proof (buf_total_nonneg _ _ Hv).
    unfold __pktbuf_free. apply wp_bind, wp_acquire_head; [done|].
    apply wp_bind. eapply wp_upd_buf; [cbn; by rewrite lookup_insert_eq|]. wsimpl.
    apply wp_bind. eapply wp_get_buf; [cbn; by rewrite lookup_insert_eq|].
    rewrite wp_bind, wp_modify, wp_bind, wp_modify. unfold pkbuf_wakeup_nolock.
    rewrite wp_bind, wp_ret. apply wp_bind, wp_release_head; [done|].
    rewrite wp_bind, wp_modify. wsimpl.
    change (total_size (set_ref (ref v - 1) v)) with (total_size v).
    rewrite (wrap_small 64) by lia. rewrite delete_insert_eq.
    apply wp_check; [exact Hw1|]. by apply HQ1; [lia|..].
  - rewrite wp_ret. apply HQ2; [lia|]. apply (wf_same w b v); try done. cbn. lia.
Qed.

Lemma wp_inc_ref b w v (Q : unit → pworld → Prop) :
  wf w → bufs w !! b = Some v →
  (∀ w', updated w b (set_ref (ref v + 1) v) w' → Q tt w') → wp (pktbuf_inc_ref b) w Q.
Proof.
  intros Hw Hb HQ. pose proof (wf_bufs _ Hw _ _ Hb) as Hv.
  pose proof (buf_ref _ _ Hv). pose proof (buf_unlocked _ _ Hv).
  unfold pktbuf_inc_ref. eapply wp_upd_buf; [done|].
  apply HQ. apply (wf_same w b v); try done. cbn. lia.
Qed.
End ops.
