(* ===== verification/PktbufCursor.v ===== *)
(** * Packet buffers: the cursor

    A packet's cursor is a block and an offset in it.  This file shows that the
    cursor operations are those of a flat array of bytes with a position: the
    block structure is not observable. *)
From S2P Require Import Prelude Errors PacketIO Nettool Pktbuf PktbufOps.

(** ** Where the cursor is *)

Definition cursor_ok (v : Pktbuf) : Prop :=
  ∃ l1 l2, pktblk_list v = l1 ++ l2 ∧
  match l2 with
  | [] => cur_blk v = None ∧ pos v = zlen (content_of l1)
  | k :: _ => cur_blk v = Some (blk_id k) ∧
      blk_data k ≤ blk_offset v < blk_data k + blk_size k ∧
      pos v = zlen (content_of l1) + (blk_offset v - blk_data k)
  end.

Record chain_ok (v : Pktbuf) : Prop := {
  chain_blks : Forall blk_ok (pktblk_list v);
  chain_ids : NoDup (blk_ids v)
}.

Lemma buf_chain n v : buf_ok n v → chain_ok v.
Proof. by intros []. Qed.

Lemma find_blk_at v l1 k l2 :
  chain_ok v → pktblk_list v = l1 ++ k :: l2 → find_blk (blk_id k) v = Some k.
Proof.
  intros [_ Hnd] El. unfold find_blk, blk_ids in *. rewrite El in *.
  clear El. induction l1 as [|k1 l1 IH]; cbn.
  - by rewrite decide_True.
  - cbn in Hnd. apply NoDup_cons in Hnd as [Hn Hnd].
    rewrite decide_False.
    + specialize (IH Hnd). destruct (list_find _ (l1 ++ k :: l2)) as [[i k']|] eqn:E; [|done].
      cbn in *. exact IH.
    + intros He. apply Hn. rewrite He, map_app. cbn. set_solver.
Qed.

Lemma blk_after_at l1 k l2 :
  NoDup (map blk_id (l1 ++ k :: l2)) → blk_after (blk_id k) (l1 ++ k :: l2) = head l2.
Proof.
  induction l1 as [|k1 l1 IH]; cbn; intros Hnd.
  - by rewrite Z.eqb_refl.
  - apply NoDup_cons in Hnd as [Hn Hnd]. destruct (Z.eqb_spec (blk_id k1) (blk_id k)) as [He|].
    + exfalso. apply Hn. rewrite He, map_app. cbn. set_solver.
    + by apply IH.
Qed.

Lemma map_update_at (f : Pktblk → Pktblk) l1 k l2 :
  NoDup (map blk_id (l1 ++ k :: l2)) →
  map (λ k', if blk_id k' =? blk_id k then f k' else k') (l1 ++ k :: l2) = l1 ++ f k :: l2.
Proof.
  intros Hnd. rewrite map_app in *. cbn in *. rewrite Z.eqb_refl.
  apply NoDup_app in Hnd as (_ & Hd & [Hk _]%NoDup_cons).
  assert (∀ l, blk_id k ∉ map blk_id l →
    map (λ k', if blk_id k' =? blk_id k then f k' else k') l = l) as Hid.
  { clear. induction l as [|k1 l IH]; [done|]. cbn. intros Hn.
    destruct (Z.eqb_spec (blk_id k1) (blk_id k)) as [He|]; [set_solver|].
    rewrite IH by set_solver. done. }
  rewrite !Hid; [done|done|]. intros Hin. apply (Hd _ Hin). set_solver.
Qed.

Lemma cursor_pos v : chain_ok v → cursor_ok v → 0 ≤ pos v ≤ zlen (content v).
Proof.
  intros [Hb _] (l1 & l2 & El & Hc). unfold content. rewrite El, content_app, length_app.
  rewrite El in Hb. apply Forall_app in Hb as [_ Hb]. destruct l2 as [|k l2].
  - destruct Hc as [_ ->]. lia.
  - destruct Hc as (_ & Ho & ->). apply Forall_cons_1 in Hb as [Hk _].
    rewrite content_cons, length_app. pose proof (blk_bytes_len k Hk). lia.
Qed.

(** What a step of a cursor loop finds before the end of the packet. *)
Lemma cursor_inside v :
  chain_ok v → cursor_ok v → pos v < zlen (content v) →
  ∃ l1 k l2, pktblk_list v = l1 ++ k :: l2 ∧ cur_blk v = Some (blk_id k) ∧
    find_blk (blk_id k) v = Some k ∧ blk_ok k ∧
    blk_data k ≤ blk_offset v < blk_data k + blk_size k ∧
    pos v = zlen (content_of l1) + (blk_offset v - blk_data k) ∧
    pos v + (blk_data k + blk_size k - blk_offset v) ≤ zlen (content v).
Proof.
  intros Hch (l1 & [|k l2] & El & Hc) Hp.
  - destruct Hc as [_ Hc]. unfold content in Hp. rewrite El, app_nil_r in Hp. lia.
  - destruct Hc as (Hc & Ho & Hpos). exists l1, k, l2.
    pose proof (find_blk_at _ _ _ _ Hch El).
    pose proof (chain_blks _ Hch) as Hb. rewrite El in Hb.
    apply Forall_app in Hb as [_ [Hk _]%Forall_cons_1]. split_and!; try done; [lia|lia|].
    unfold content. rewrite El, content_app, content_cons, !length_app.
    pose proof (blk_bytes_len k Hk). lia.
Qed.

(** The bytes at the cursor, up to the block's end, as bytes of the payload. *)
Lemma slice_in_blk v l1 k l2 n :
  chain_ok v → pktblk_list v = l1 ++ k :: l2 →
  blk_data k ≤ blk_offset v < blk_data k + blk_size k →
  pos v = zlen (content_of l1) + (blk_offset v - blk_data k) →
  0 ≤ n ≤ blk_data k + blk_size k - blk_offset v →
  take (Z.to_nat n) (drop (Z.to_nat (blk_offset v)) (blk_payload k)) = slice (content v) (pos v) n.
Proof.
  intros Hch El Ho Hp Hn. pose proof (chain_blks _ Hch) as Hb. rewrite El in Hb.
  apply Forall_app in Hb as [_ [Hk _]%Forall_cons_1].
  pose proof (blk_bytes_len k Hk) as Hkl. destruct Hk as [? [??] Hw _].
  unfold slice, content. rewrite El, content_app, content_cons.
  rewrite drop_app_ge by lia.
  replace (Z.to_nat (pos v) - length (content_of l1))%nat
    with (Z.to_nat (blk_offset v - blk_data k)) by lia.
  rewrite drop_app_le by lia. rewrite take_app_le by (rewrite length_drop; lia).
  unfold blk_bytes. rewrite skipn_firstn_comm, take_take, drop_drop.
  f_equal; [lia|]. f_equal. lia.
Qed.

(** Writing [d] at the cursor within one block. *)
Lemma write_in_blk v l1 k l2 d :
  chain_ok v → pktblk_list v = l1 ++ k :: l2 →
  blk_data k ≤ blk_offset v < blk_data k + blk_size k →
  pos v = zlen (content_of l1) + (blk_offset v - blk_data k) →
  blk_offset v + zlen d ≤ blk_data k + blk_size k → Forall is_byte d →
  ∃ p, mem_write (blk_payload k) (blk_offset v) d = Some p ∧
    blk_ok (set_blk_payload p k) ∧
    content_of (l1 ++ set_blk_payload p k :: l2) = splice (content v) (pos v) d.
Proof.
  intros Hch El Ho Hp Hn Hd. pose proof (chain_blks _ Hch) as Hb. rewrite El in Hb.
  apply Forall_app in Hb as [_ [Hk _]%Forall_cons_1].
  pose proof (blk_bytes_len k Hk) as Hkl. destruct Hk as [Hk0 [Hk1 Hk2] Hw Hkb].
  unfold PKTBUF_BLK_SIZE in *.
  assert (mem_write (blk_payload k) (blk_offset v) d = Some _) as E by (apply mem_write_eq; lia).
  eexists. split; [exact E|]. split.
  { split; cbn; try done.
    - unfold PKTBUF_BLK_SIZE; rewrite <- Hw. f_equal. by apply (mem_write_length _ _ _ _ E).
    - by apply (mem_write_Forall _ _ _ _ _ E). }
  unfold content, splice. rewrite El, !content_app, !content_cons.
  replace (Z.to_nat (pos v))
    with (length (content_of l1) + Z.to_nat (blk_offset v - blk_data k))%nat by lia.
  rewrite take_app_add. rewrite <- Nat.add_assoc, drop_app_add, <- !app_assoc. f_equal.
  rewrite take_app_le by lia. rewrite drop_app_le by lia.
  rewrite !app_assoc. f_equal. unfold blk_bytes. cbn.
  rewrite take_take, skipn_firstn_comm, drop_drop.
  set (o := Z.to_nat (blk_offset v)). set (a := Z.to_nat (blk_data k)).
  set (s := Z.to_nat (blk_size k)).
  replace (Z.to_nat (blk_offset v - blk_data k)) with (o - a)%nat by lia.
  assert (length (blk_payload k) = 512%nat) as Hlen by lia.
  rewrite <- !app_assoc. rewrite drop_app_le by (rewrite length_take; lia).
  rewrite skipn_firstn_comm.
  assert (length (take (o - a) (drop a (blk_payload k))) = (o - a)%nat) as Hl1
    by (rewrite length_take, length_drop; lia).
  rewrite take_app_ge by lia. rewrite Hl1. rewrite take_app_ge by lia.
  f_equal; [f_equal; lia|]. f_equal. f_equal; [lia|]. f_equal. lia.
Qed.

(** ** One step of a cursor loop *)

(** [r] bytes are left at the cursor in its block. *)
Definition room (v : Pktbuf) (r : Z) : Prop :=
  ∃ l1 k l2, pktblk_list v = l1 ++ k :: l2 ∧ cur_blk v = Some (blk_id k) ∧
    find_blk (blk_id k) v = Some k ∧ blk_ok k ∧
    blk_data k ≤ blk_offset v < blk_data k + blk_size k ∧
    pos v = zlen (content_of l1) + (blk_offset v - blk_data k) ∧
    r = blk_data k + blk_size k - blk_offset v.

(** [u] is packet [v] in the middle of a cursor operation: same blocks, same
    account, a cursor that points into it. *)
(** Where a block's data lies. *)
Definition window (k : Pktblk) : Z * Z * Z := (blk_id k, blk_data k, blk_size k).

Record like (v u : Pktbuf) : Prop := {
  like_windows : map window (pktblk_list u) = map window (pktblk_list v);
  like_ids : blk_ids u = blk_ids v;
  like_total : total_size u = total_size v;
  like_ref : ref u = ref v;
  like_lock : pktblk_lock u = pktblk_lock v;
  like_len : zlen (content u) = zlen (content v);
  like_chain : chain_ok u;
  like_cursor : cursor_ok u
}.

Lemma like_refl v : chain_ok v → cursor_ok v → like v v.
Proof. by split. Qed.

Lemma like_trans v u t : like v u → like u t → like v t.
Proof. intros [] []. split; congruence. Qed.

Lemma wp_remain b w u (Q : Z → pworld → Prop) :
  bufs w !! b = Some u → chain_ok u → cursor_ok u → pos u < zlen (content u) →
  (∀ r, room u r → 0 < r → pos u + r ≤ zlen (content u) → Q r w) →
  wp (cur_blk_remain_nolock b) w Q.
Proof.
  intros Hb Hch Hc Hp HQ.
  destruct (cursor_inside u Hch Hc Hp) as (l1 & k & l2 & El & Ec & Ef & Hk & Ho & Hpos & Hle).
  unfold cur_blk_remain_nolock. apply wp_bind. eapply wp_get_buf; [done|].
  rewrite Ec, Ef. cbn [of_option]. rewrite wp_bind, wp_ret, wp_ret.
  pose proof Hk as [? [??] ? _]. unfold PKTBUF_BLK_SIZE in *. rewrite (wrap_small 64) by lia.
  apply HQ; [|lia|lia]. exists l1, k, l2. split_and!; try done; try lia.
Qed.

Lemma wp_cursor_read b w u r n (Q : bytes → pworld → Prop) :
  bufs w !! b = Some u → chain_ok u → room u r → 0 ≤ n ≤ r →
  Q (slice (content u) (pos u) n) w → wp (cursor_read b n) w Q.
Proof.
  intros Hb Hch (l1 & k & l2 & El & Ec & Ef & Hk & Ho & Hpos & ->) Hn HQ.
  unfold cursor_read. apply wp_bind. eapply wp_get_buf; [done|].
  rewrite Ec. cbn [of_option]. rewrite wp_bind, wp_ret, Ef. cbn [of_option].
  rewrite wp_bind, wp_ret. pose proof Hk as [? [??] ? _]. unfold PKTBUF_BLK_SIZE in *.
  rewrite mem_read_eq by lia. cbn [of_option]. rewrite wp_ret.
  by rewrite (slice_in_blk u l1 k l2) by done.
Qed.

Lemma wp_cursor_write b w u r d (Q : unit → pworld → Prop) :
  bufs w !! b = Some u → chain_ok u → room u r → 0 < zlen d ≤ r → Forall is_byte d →
  (∀ u', like u u' → room u' r → content u' = splice (content u) (pos u) d → pos u' = pos u →
     Q tt (on_bufs (insert b u') w)) →
  wp (cursor_write b d) w Q.
Proof.
  intros Hb Hch (l1 & k & l2 & El & Ec & Ef & Hk & Ho & Hpos & ->) Hn Hd HQ.
  unfold cursor_write. apply wp_bind. eapply wp_get_buf; [done|].
  rewrite Ec. cbn [of_option]. rewrite wp_bind, wp_ret, Ef. cbn [of_option].
  rewrite wp_bind, wp_ret.
  destruct (write_in_blk u l1 k l2 d Hch El Ho Hpos) as (p & Hp & Hk' & Ec'); [lia|done|].
  rewrite Hp. cbn [of_option]. rewrite wp_bind, wp_ret. apply wp_put_buf.
  pose proof (chain_ids _ Hch) as Hnd. unfold blk_ids in Hnd. rewrite El in Hnd.
  rewrite El, (map_update_at (set_blk_payload p)) by done.
  set (u' := set_blks _ _).
  assert (blk_ids u' = blk_ids u) as Hids.
  { unfold blk_ids, u'. rewrite blks_set_blks, El, !map_app. done. }
  assert (chain_ok u') as Hch'.
  { split; [|rewrite Hids; apply Hch]. unfold u'. rewrite blks_set_blks.
    pose proof (chain_blks _ Hch) as Hb'. rewrite El in Hb'.
    apply Forall_app in Hb' as [? [? ?]%Forall_cons_1]. apply Forall_app. split; [done|].
    by constructor. }
  assert (content u' = splice (content u) (pos u) d) as Ec1 by exact Ec'.
  assert (pktblk_list u' = l1 ++ set_blk_payload p k :: l2) as El' by done.
  apply HQ; [split; try done| |done|done].
  - rewrite El', El, !map_app. done.
  - rewrite Ec1, splice_length; [done|apply cursor_pos; [done|]|].
    + exists l1, (k :: l2). split_and!; try done; lia.
    + rewrite Hpos. unfold content. rewrite El, content_app, content_cons, !length_app.
      pose proof (blk_bytes_len k Hk). lia.
  - exists l1, (set_blk_payload p k :: l2). split_and!; try done; cbn; lia.
  - exists l1, (set_blk_payload p k), l2. split_and!; try done; try (cbn; lia).
    by apply (find_blk_at u' l1 (set_blk_payload p k) l2).
Qed.

Lemma wp_move b w u r n (Q : unit → pworld → Prop) :
  bufs w !! b = Some u → chain_ok u → room u r → 0 < n ≤ r →
  (∀ u', like u u' → content u' = content u → pos u' = pos u + n →
     Q tt (on_bufs (insert b u') w)) →
  wp (move_forward_nolock b n) w Q.
Proof.
  intros Hb Hch (l1 & k & l2 & El & Ec & Ef & Hk & Ho & Hpos & ->) Hn HQ.
  unfold move_forward_nolock. apply wp_bind. eapply wp_get_buf; [done|].
  rewrite Ec. cbn [of_option]. rewrite wp_bind, wp_ret, Ef. cbn [of_option].
  rewrite wp_bind, wp_ret.
  pose proof (chain_ids _ Hch) as Hnd. unfold blk_ids in Hnd. rewrite El in Hnd.
  rewrite El, blk_after_at by done.
  pose proof (chain_blks _ Hch) as Hb'. rewrite El in Hb'.
  apply Forall_app in Hb' as [_ [_ Hb2]%Forall_cons_1].
  pose proof (blk_bytes_len k Hk) as Hkl.
  assert (∀ p c o, chain_ok (set_cursor p c o u)) as Hch' by (intros; destruct Hch; by split).
  destruct (Z.leb_spec (blk_data k + blk_size k) (blk_offset u + n)) as [Hend|Hin].
  - destruct l2 as [|k2 l2]; cbn [head]; apply wp_put_buf; apply HQ; try done; split; try done.
    + exists (l1 ++ [k]), []. rewrite app_nil_r. split; [done|]. split; [done|]. cbn [pos set_cursor].
      rewrite content_app, content_cons, !length_app. cbn. lia.
    + exists (l1 ++ [k]), (k2 :: l2). split; [cbn; by rewrite <- app_assoc|]. split; [done|].
      cbn [pos set_cursor blk_offset]. apply Forall_cons_1 in Hb2 as [[] _]. split; [lia|].
      rewrite content_app, content_cons, !length_app. cbn. lia.
  - apply wp_put_buf, HQ; try done. split; try done.
    exists l1, (k :: l2). split; [done|]. split; [done|]. cbn [pos set_cursor blk_offset]. lia.
Qed.

(** ** Entering and leaving an operation *)

Lemma cur_copy_range size r : 0 < size → 0 < r → 0 < cur_copy size r ≤ r ∧ cur_copy size r ≤ size.
Proof. intros. unfold cur_copy. destruct (Z.ltb_spec r size); lia. Qed.

Lemma like_updated w b v u :
  wf w → bufs w !! b = Some v → like v u → updated w b u (on_bufs (insert b u) w).
Proof.
  destruct w as [[mx m lk l] bs n]. intros Hw Hb [_ Hi Ht Hr Hlk Hlen [Hk Hnd] _].
  pose proof (wf_unlocked _ Hw) as Hl. cbn in Hl, Hb. subst lk.
  pose proof (wf_bufs _ Hw b v Hb) as [Hv1 Hv2 Hv3 Hv4 Hv5 Hv6].
  pose proof (wf_max _ Hw) as Hmax. cbn in Hmax, Hv3.
  split_and!; [|done|done|done]. rewrite on_bufs_mk.
  replace m with (m - total_size v + total_size u) by lia.
  apply (wf_update _ _ _ _ n); [done|done|lia| | |lia].
  - split; try done; try congruence.
  - intros i. rewrite Hi. by left.
Qed.

Lemma like_unlock v u :
  pktblk_lock v = false → like (set_blk_lock true v) u → like v (set_blk_lock false u).
Proof.
  intros Hl [Hwi Hi Ht Hr Hlk Hlen [] Hc]. split; try done.
Qed.

Lemma like_locked v : chain_ok v → cursor_ok v → like (set_blk_lock true v) (set_blk_lock true v).
Proof. intros [] ?. by apply like_refl. Qed.

(** Releasing the packet's lock ends the operation. *)
Lemma wp_leave b w v u (Q : unit → pworld → Prop) :
  wf w → bufs w !! b = Some v → like (set_blk_lock true v) u →
  (∀ v' w', updated w b v' w' → like v v' → content v' = content u → pos v' = pos u → Q tt w') →
  wp (release_blk b) (on_bufs (insert b u) w) Q.
Proof.
  intros Hw Hb Hu HQ. eapply wp_release_blk; [cbn; by rewrite lookup_insert_eq| |].
  { by rewrite (like_lock _ _ Hu). }
  pose proof (buf_unlocked _ _ (wf_bufs _ Hw _ _ Hb)) as Hl.
  pose proof (like_unlock v u Hl Hu) as Hu'.
  destruct w as [h bs n]. rewrite !on_bufs_mk, insert_insert_eq.
  apply (HQ (set_blk_lock false u)); try done. by apply (like_updated (mk_world h bs n) b v).
Qed.

Lemma insert_at b u w : bufs (on_bufs (insert b u) w) !! b = Some u.
Proof. cbn. by rewrite lookup_insert_eq. Qed.

Lemma on_bufs_twice b u u' w :
  on_bufs (insert b u') (on_bufs (insert b u) w) = on_bufs (insert b u') w.
Proof. destruct w as [h bs n]. rewrite !on_bufs_mk. by rewrite insert_insert_eq. Qed.

Section cursor_ops.
Context `{K : Kmalloc} `{KO : !KmallocOk}.
Context (b : Z) (w : pworld) (v : Pktbuf).
Context (Hw : wf w) (Hb : bufs w !! b = Some v) (Hc : cursor_ok v).

Lemma enter_facts :
  chain_ok v ∧ pktblk_lock v = false ∧ total_size v = zlen (content v) ∧
  0 ≤ pos v ≤ total_size v ∧ total_size v < 2 ^ 62.
Proof.
  pose proof (wf_bufs _ Hw _ _ Hb) as Hv. pose proof (buf_chain _ _ Hv) as Hch.
  pose proof (cursor_pos _ Hch Hc). pose proof (buf_total _ _ Hv).
  pose proof (wf_total_le _ _ _ Hw Hb). pose proof (wf_max _ Hw).
  split_and!; try done; try lia. by apply (buf_unlocked (brk w)).
Qed.

Lemma wp_enter (Q : unit → pworld → Prop) :
  Q tt (on_bufs (insert b (set_blk_lock true v)) w) → wp (acquire_blk b) w Q.
Proof. intros HQ. eapply wp_acquire_blk; [done|apply enter_facts|done]. Qed.

(** *** [pktbuf_write] *)

Lemma wp_write src (Q : Z → pworld → Prop) :
  Forall is_byte src → src ≠ [] → zlen src ≤ total_size v - pos v →
  (∀ v' w', updated w b v' w' → like v v' → content v' = splice (content v) (pos v) src →
     pos v' = pos v + zlen src → Q NET_OK w') →
  wp (pktbuf_write b src) w Q.
Proof.
  intros Hby Hne Hs HQ. destruct enter_facts as (Hch & Hl & Ht & Hp & Hmax).
  unfold pktbuf_write. destruct (Z.eqb_spec (zlen src) 0) as [?|Hnz0]; [by destruct src|].
  apply wp_bind, wp_enter. apply wp_bind. eapply wp_get_buf; [apply insert_at|].
  cbn [total_size pos set_blk_lock]. rewrite (wrap_small 64) by lia.
  destruct (Z.ltb_spec (total_size v - pos v) (zlen src)); [lia|]. apply wp_bind.
  apply (wp_loop _ (λ rest w', ∃ u dn, w' = on_bufs (insert b u) w ∧ src = dn ++ rest ∧
      like (set_blk_lock true v) u ∧ content u = splice (content v) (pos v) dn ∧
      pos u = pos v + zlen dn) (λ rest _, length rest)).
  - intros rest w' (u & dn & -> & E & Hu & Ec & Ep).
    assert (zlen src = zlen dn + zlen rest) as El by (rewrite E, length_app; lia).
    pose proof (like_len _ _ Hu) as Hlen.
    change (content (set_blk_lock true v)) with (content v) in Hlen.
    rewrite E in Hby. apply Forall_app in Hby as [Hb1 Hb2].
    destruct (Z.eqb_spec (zlen rest) 0) as [E0|Hnz].
    + rewrite wp_ret. apply wp_bind. eapply wp_leave; [done..|].
      intros v' w' Hup Hlk Ec' Ep'. rewrite wp_ret.
      assert (rest = []) as -> by (by destruct rest).
      rewrite app_nil_r in E. subst dn. eapply HQ; [done|done|congruence|lia].
    + apply wp_bind. eapply wp_remain; [apply insert_at|apply Hu|apply Hu|lia|].
      intros r Hr Hr0 Hrl. destruct (cur_copy_range (zlen rest) r) as [Hn1 Hn2]; [lia..|].
      set (n := cur_copy _ _) in *.
      assert (zlen (take (Z.to_nat n) rest) = n) as Htk by (rewrite length_take; lia).
      apply wp_bind. eapply wp_cursor_write; [apply insert_at|apply Hu|done|lia|by apply Forall_take|].
      intros u1 Hu1 Hr1 Ec1 Ep1. rewrite on_bufs_twice.
      apply wp_bind. eapply wp_move; [apply insert_at|apply Hu1|done|lia|].
      intros u2 Hu2 Ec2 Ep2. rewrite on_bufs_twice, wp_ret. split; [|rewrite length_drop; lia].
      exists u2, (dn ++ take (Z.to_nat n) rest). split_and!; [done| | | |].
      * by rewrite <- app_assoc, take_drop.
      * eapply like_trans; [exact Hu|by eapply like_trans].
      * rewrite Ec2, Ec1, Ec, Ep. apply splice_splice; lia.
      * rewrite Ep2, Ep1, Ep, length_app. lia.
  - exists (set_blk_lock true v), []. split_and!; [done|done|by apply like_locked| |cbn; lia].
    by rewrite splice_nil.
  - lia.
Qed.

Lemma wp_write_short src (Q : Z → pworld → Prop) :
  src ≠ [] → total_size v - pos v < zlen src →
  (∀ v' w', updated w b v' w' → like v v' → content v' = content v → pos v' = pos v →
     Q (- E_NET_SIZE) w') →
  wp (pktbuf_write b src) w Q.
Proof.
  intros Hne Hs HQ. destruct enter_facts as (Hch & Hl & Ht & Hp & Hmax).
  unfold pktbuf_write. destruct (Z.eqb_spec (zlen src) 0) as [?|Hnz0]; [by destruct src|].
  apply wp_bind, wp_enter. apply wp_bind. eapply wp_get_buf; [apply insert_at|].
  cbn [total_size pos set_blk_lock]. rewrite (wrap_small 64) by lia.
  destruct (Z.ltb_spec (total_size v - pos v) (zlen src)); [|lia]. apply wp_bind.
  eapply wp_leave; [done|done|by apply like_locked|]. intros. rewrite wp_ret. by eapply HQ.
Qed.

(** *** [pktbuf_read] *)

Lemma wp_read size (Q : Z * bytes → pworld → Prop) :
  0 < size ≤ total_size v - pos v →
  (∀ v' w', updated w b v' w' → like v v' → content v' = content v →
     pos v' = pos v + size → Q (NET_OK, slice (content v) (pos v) size) w') →
  wp (pktbuf_read b size) w Q.
Proof.
  intros Hs HQ. destruct enter_facts as (Hch & Hl & Ht & Hp & Hmax).
  unfold pktbuf_read. destruct (Z.eqb_spec size 0) as [?|Hnz0]; [lia|].
  apply wp_bind, wp_enter. apply wp_bind. eapply wp_get_buf; [apply insert_at|].
  cbn [total_size pos set_blk_lock]. rewrite (wrap_small 64) by lia.
  destruct (Z.ltb_spec (total_size v - pos v) size); [lia|]. apply wp_bind.
  apply (wp_loop _ (λ '(sz, dest) w', ∃ u, w' = on_bufs (insert b u) w ∧
      like (set_blk_lock true v) u ∧ content u = content v ∧ 0 ≤ sz ≤ size ∧
      pos u = pos v + (size - sz) ∧ dest = slice (content v) (pos v) (size - sz))
      (λ '(sz, _) _, Z.to_nat sz)).
  - intros [sz dest] w' (u & -> & Hu & Ec & Hsz & Ep & ->).
    pose proof (like_len _ _ Hu) as Hlen.
    change (content (set_blk_lock true v)) with (content v) in Hlen.
    destruct (Z.eqb_spec sz 0) as [->|Hnz].
    + rewrite wp_ret. apply wp_bind. eapply wp_leave; [done..|].
      intros v' w' Hup Hlk Ec' Ep'. rewrite wp_ret, Z.sub_0_r.
      eapply HQ; [done|done|congruence|lia].
    + apply wp_bind. eapply wp_remain; [apply insert_at|apply Hu|apply Hu|lia|].
      intros r Hr Hr0 Hrl. destruct (cur_copy_range sz r) as [Hn1 Hn2]; [lia..|].
      set (n := cur_copy _ _) in *. cbv zeta.
      apply wp_bind. eapply wp_cursor_read; [apply insert_at|apply Hu|done|lia|].
      apply wp_bind. eapply wp_move; [apply insert_at|apply Hu|done|lia|].
      intros u2 Hu2 Ec2 Ep2. rewrite on_bufs_twice, wp_ret, (wrap_small 64) by lia.
      split; [|lia]. exists u2. split_and!; [done|by eapply like_trans|congruence|lia|lia|lia|].
      rewrite Ec, Ep. replace (size - (sz - n)) with ((size - sz) + n) by lia.
      by rewrite slice_app by lia.
  - exists (set_blk_lock true v). rewrite Z.sub_diag.
    split_and!; [done|by apply like_locked|done|lia|lia|cbn; lia|done].
  - lia.
Qed.

(** *** [pktbuf_seek] *)

(** The loop that walks the cursor forward. *)
Lemma wp_skip u0 size (k : unit → M pworld Z) (Q : Z → pworld → Prop) :
  like (set_blk_lock true v) u0 → content u0 = content v → 0 ≤ size →
  pos u0 + size ≤ total_size v →
  (∀ u, like (set_blk_lock true v) u → content u = content v → pos u = pos u0 + size →
     wp (k tt) (on_bufs (insert b u) w) Q) →
  wp (loop (S (Z.to_nat size)) (λ move_size,
        if move_size =? 0 then mret (inr tt) else
        r ← cur_blk_remain_nolock b;
        let n := cur_copy move_size r in
        move_forward_nolock b n;;
        mret (inl (u64 (move_size - n)))) size ≫= k) (on_bufs (insert b u0) w) Q.
Proof.
  intros Hu0 Ec0 Hs Hle HQ. destruct enter_facts as (Hch & Hl & Ht & Hp & Hmax).
  pose proof (cursor_pos u0 (like_chain _ _ Hu0) (like_cursor _ _ Hu0)) as Hp0. apply wp_bind.
  apply (wp_loop _ (λ sz w', ∃ u, w' = on_bufs (insert b u) w ∧
      like (set_blk_lock true v) u ∧ content u = content v ∧ 0 ≤ sz ≤ size ∧
      pos u = pos u0 + (size - sz)) (λ sz _, Z.to_nat sz)).
  - intros sz w' (u & -> & Hu & Ec & Hsz & Ep).
    destruct (Z.eqb_spec sz 0) as [->|Hnz].
    + rewrite wp_ret. apply HQ; [done|done|lia].
    + apply wp_bind. eapply wp_remain; [apply insert_at|apply Hu|apply Hu|rewrite Ec; lia|].
      intros r Hr Hr0 Hrl. destruct (cur_copy_range sz r) as [Hn1 Hn2]; [lia..|].
      set (n := cur_copy _ _) in *. cbv zeta.
      apply wp_bind. eapply wp_move; [apply insert_at|apply Hu|done|lia|].
      intros u2 Hu2 Ec2 Ep2. rewrite on_bufs_twice, wp_ret, (wrap_small 64) by lia.
      split; [|lia]. exists u2. split_and!; [done|by eapply like_trans|congruence|lia|lia|lia].
  - exists u0. split_and!; [done|done|done|lia|lia|lia].
  - lia.
Qed.

Definition seek_code (offset : Z) : Z :=
  if pos v =? offset then NET_OK
  else if (offset <? 0) || (total_size v <=? offset) then - E_NET_SIZE else NET_OK.

Lemma wp_seek offset (Q : Z → pworld → Prop) :
  (∀ v' w', updated w b v' w' → like v v' → content v' = content v →
     pos v' = (if seek_code offset =? NET_OK then offset else pos v) →
     Q (seek_code offset) w') →
  wp (pktbuf_seek b offset) w Q.
Proof.
  intros HQ. destruct enter_facts as (Hch & Hl & Ht & Hp & Hmax).
  unfold pktbuf_seek, seek_code in *. apply wp_bind, wp_enter.
  apply wp_bind. eapply wp_get_buf; [apply insert_at|]. cbn [pos total_size set_blk_lock pktblk_list].
  assert (like (set_blk_lock true v) (set_blk_lock true v)) as Hl0 by by apply like_locked.
  destruct (Z.eqb_spec (pos v) offset) as [<-|Hne].
  { apply wp_bind. eapply wp_leave; [done..|]. intros. rewrite wp_ret. by eapply HQ. }
  destruct (Z.ltb_spec offset 0); cbn [orb].
  { apply wp_bind. eapply wp_leave; [done..|]. intros. rewrite wp_ret. by eapply HQ. }
  destruct (Z.leb_spec (total_size v) offset).
  { apply wp_bind. eapply wp_leave; [done..|]. intros. rewrite wp_ret. by eapply HQ. }
  destruct (pktblk_list v) as [|k rest] eqn:El.
  { unfold content in Ht. rewrite El in Ht. cbn in Ht. lia. }
  assert (∀ u, like (set_blk_lock true v) u → content u = content v → pos u = offset →
    wp (release_blk b;; mret NET_OK) (on_bufs (insert b u) w) Q) as Hend.
  { intros u Hu Ec Ep. apply wp_bind. eapply wp_leave; [done..|]. intros. rewrite wp_ret.
    eapply HQ; [done|done|congruence|]. cbn. congruence. }
  destruct (Z.ltb_spec offset (pos v)).
  - rewrite !wp_bind. apply wp_put_buf. rewrite wp_ret, on_bufs_twice.
    set (u0 := set_cursor _ _ _ _). apply (wp_skip u0); try done; cbn [pos u0 set_cursor]; try lia.
    + split; try done.
      * by destruct Hch.
      * exists [], (k :: rest). split; [done|]. split; [done|]. cbn.
        pose proof (chain_blks _ Hch) as Hbk. rewrite El in Hbk.
        apply Forall_cons_1 in Hbk as [[] _]. lia.
  - rewrite wp_bind, wp_ret. rewrite (wrap_small 64) by lia.
    apply (wp_skip (set_blk_lock true v)); try done; cbn [pos set_blk_lock]; try lia.
    intros u Hu Ec Ep. apply Hend; [done|done|]. lia.
Qed.

(** *** [pktbuf_fill] *)

Lemma wp_fill x size (Q : Z → pworld → Prop) :
  is_byte x → 0 < size ≤ total_size v - pos v →
  (∀ v' w', updated w b v' w' → like v v' →
     content v' = splice (content v) (pos v) (replicate (Z.to_nat size) x) →
     pos v' = pos v + size → Q NET_OK w') →
  wp (pktbuf_fill b x size) w Q.
Proof.
  intros Hx Hs HQ. destruct enter_facts as (Hch & Hl & Ht & Hp & Hmax).
  unfold pktbuf_fill. destruct (Z.eqb_spec size 0) as [?|Hnz0]; [lia|].
  apply wp_bind, wp_enter. apply wp_bind. eapply wp_get_buf; [apply insert_at|].
  cbn [total_size pos set_blk_lock]. rewrite (wrap_small 64) by lia.
  destruct (Z.ltb_spec (total_size v - pos v) size); [lia|]. apply wp_bind.
  apply (wp_loop _ (λ sz w', ∃ u, w' = on_bufs (insert b u) w ∧
      like (set_blk_lock true v) u ∧ 0 ≤ sz ≤ size ∧ pos u = pos v + (size - sz) ∧
      content u = splice (content v) (pos v) (replicate (Z.to_nat (size - sz)) x))
      (λ sz _, Z.to_nat sz)).
  - intros sz w' (u & -> & Hu & Hsz & Ep & Ec).
    pose proof (like_len _ _ Hu) as Hlen.
    change (content (set_blk_lock true v)) with (content v) in Hlen.
    destruct (Z.eqb_spec sz 0) as [->|Hnz].
    + rewrite wp_ret. apply wp_bind. eapply wp_leave; [done..|].
      intros v' w' Hup Hlk Ec' Ep'. rewrite wp_ret. rewrite Z.sub_0_r in *.
      eapply HQ; [done|done|congruence|lia].
    + apply wp_bind. eapply wp_remain; [apply insert_at|apply Hu|apply Hu|lia|].
      intros r Hr Hr0 Hrl. destruct (cur_copy_range sz r) as [Hn1 Hn2]; [lia..|].
      set (n := cur_copy _ _) in *. cbv zeta.
      apply wp_bind. eapply wp_cursor_write; [apply insert_at|apply Hu|done|..].
      { rewrite length_replicate. lia. }
      { by apply Forall_replicate. }
      intros u1 Hu1 Hr1 Ec1 Ep1. rewrite on_bufs_twice.
      apply wp_bind. eapply wp_move; [apply insert_at|apply Hu1|done|lia|].
      intros u2 Hu2 Ec2 Ep2. rewrite on_bufs_twice, wp_ret, (wrap_small 64) by lia.
      split; [|lia]. exists u2. split_and!; [done| |lia|lia|lia|].
      * eapply like_trans; [exact Hu|by eapply like_trans].
      * rewrite Ec2, Ec1, Ec, Ep.
        replace (pos v + (size - sz))
          with (pos v + zlen (replicate (Z.to_nat (size - sz)) x)) by (rewrite length_replicate; lia).
        rewrite splice_splice by (rewrite ?length_replicate; lia).
        f_equal. rewrite <- replicate_add. f_equal. lia.
  - exists (set_blk_lock true v). rewrite Z.sub_diag. cbn [replicate Z.to_nat].
    rewrite splice_nil. split_and!; [done|by apply like_locked|lia|lia|cbn; lia|done].
  - lia.
Qed.

Lemma wp_fill_short x size (Q : Z → pworld → Prop) :
  total_size v - pos v < size →
  (∀ v' w', updated w b v' w' → like v v' → content v' = content v → pos v' = pos v →
     Q (- E_NET_SIZE) w') →
  wp (pktbuf_fill b x size) w Q.
Proof.
  intros Hs HQ. destruct enter_facts as (Hch & Hl & Ht & Hp & Hmax).
  unfold pktbuf_fill. destruct (Z.eqb_spec size 0) as [?|Hnz0]; [lia|].
  apply wp_bind, wp_enter. apply wp_bind. eapply wp_get_buf; [apply insert_at|].
  cbn [total_size pos set_blk_lock]. rewrite (wrap_small 64) by lia.
  destruct (Z.ltb_spec (total_size v - pos v) size); [|lia]. apply wp_bind.
  eapply wp_leave; [done|done|by apply like_locked|]. intros. rewrite wp_ret. by eapply HQ.
Qed.

(** A read past the end fails without releasing the packet's lock. *)
Lemma read_short_run size :
  total_size v - pos v < size →
  pktbuf_read b size w = Ok ((- E_NET_SIZE, []), on_bufs (insert b (set_blk_lock true v)) w).
Proof.
  intros Hs. destruct enter_facts as (Hch & Hl & Ht & Hp & Hmax).
  apply wp_result. unfold pktbuf_read. destruct (Z.eqb_spec size 0) as [?|Hnz0]; [lia|].
  apply wp_bind, wp_enter. apply wp_bind. eapply wp_get_buf; [apply insert_at|].
  cbn [total_size pos set_blk_lock]. rewrite (wrap_small 64) by lia.
  destruct (Z.ltb_spec (total_size v - pos v) size); [|lia]. by rewrite wp_ret.
Qed.

(** *** [pktbuf_checksum16] *)

Lemma wp_checksum size pre (c : bool) (Q : Z → pworld → Prop) :
  0 < size ≤ total_size v - pos v → size < 65536 → total_size v < 2 ^ 31 → 0 ≤ pre < 2 ^ 31 →
  (∀ v' w', updated w b v' w' → like v v' → content v' = content v → pos v' = pos v + size →
     let r := norm (pre + wsum false (slice (content v) (pos v) size)) in
     Q (if c then 65535 - r else r) w') →
  wp (pktbuf_checksum16 b size pre c) w Q.
Proof.
  intros Hs Hs16 H31 Hpre HQ. destruct enter_facts as (Hch & Hl & Ht & Hp & Hmax).
  unfold pktbuf_checksum16. apply wp_bind, wp_enter.
  apply wp_bind. eapply wp_get_buf; [apply insert_at|]. cbn [total_size pos set_blk_lock ref].
  pose proof (buf_ref _ _ (wf_bufs _ Hw _ _ Hb)) as Href.
  rewrite wp_bind, wp_assert. split; [destruct (Z.eqb_spec (ref v) 0); [lia|done]|].
  assert (s32 (total_size v - pos v) = total_size v - pos v) as Hs32.
  { unfold sint. rewrite Z.mod_small by lia. lia. }
  rewrite Hs32, (wrap_small 64) by lia.
  destruct (Z.ltb_spec (total_size v - pos v) size); [lia|]. apply wp_bind.
  set (X := norm (pre + wsum false (slice (content v) (pos v) size))) in *.
  apply (wp_loop _ (λ '(sz, sum, off) w', ∃ u, w' = on_bufs (insert b u) w ∧
      like (set_blk_lock true v) u ∧ content u = content v ∧ 0 ≤ sz ≤ size ∧
      pos u = pos v + off ∧ off = size - sz ∧ 0 ≤ sum < 2 ^ 31 ∧
      (sz < size → sum ≤ 65535) ∧
      norm (sum + wsum (Z.odd off) (slice (content v) (pos v + off) sz)) = X)
      (λ '(sz, _, _) _, Z.to_nat sz)).
  - intros [[sz sum] off] w' (u & -> & Hu & Ec & Hsz & Ep & Eoff & Hsum & Hsm & HX).
    destruct (Z.eqb_spec sz 0) as [->|Hnz].
    + rewrite wp_ret. apply wp_bind. eapply wp_leave; [done..|].
      intros v' w' Hup Hlk Ec' Ep'. rewrite wp_ret.
      assert (sum = X) as ->.
      { rewrite <- HX. unfold slice. cbn [Z.to_nat take wsum]. rewrite Z.add_0_r, norm_small; lia. }
      specialize (Hsm ltac:(lia)). rewrite lnot16 by lia. rewrite (wrap_small 16) by lia.
      apply (HQ v'); [done|done|congruence|lia].
    + apply wp_bind. eapply wp_remain; [apply insert_at|apply Hu|apply Hu|rewrite Ec; lia|].
      intros r Hr Hr0 Hrl. destruct (cur_copy_range sz r) as [Hn1 Hn2]; [lia..|].
      set (n := cur_copy _ _) in *. cbv zeta.
      apply wp_bind. eapply wp_get_buf; [apply insert_at|].
      pose proof Hr as (l1 & k & l2 & El & Ecur & Ef & Hk & Ho & Hpos & ->).
      rewrite Ecur. cbn [of_option]. rewrite wp_bind, wp_ret, Ef. cbn [of_option].
      rewrite wp_bind, wp_ret.
      pose proof Hk as [Hk0 [Hk1 Hk2] Hkw Hkb]. unfold PKTBUF_BLK_SIZE in *.
      pose proof (slice_in_blk u l1 k l2 n (like_chain _ _ Hu) El Ho Hpos ltac:(lia)) as Hsl.
      rewrite Ec, Ep in Hsl.
      assert (Forall is_byte (drop (Z.to_nat (blk_offset u)) (blk_payload k))) as Hdb
        by by apply Forall_drop.
      assert (n ≤ zlen (drop (Z.to_nat (blk_offset u)) (blk_payload k))) as Hnl
        by (rewrite length_drop; lia).
      rewrite (wrap_small 16) by lia.
      pose proof (wsum_take_bound (Z.odd off) _ n Hdb ltac:(lia)) as Hwb.
      rewrite checksum16_run by (done || lia). rewrite Hsl in *.
      set (A := wsum (Z.odd off) (slice (content v) (pos v + off) n)) in *.
      apply wp_bind. unfold of_outcome. rewrite wp_run. eexists _, _. split; [reflexivity|].
      rewrite wp_bind, wp_assert. split; [apply Z.leb_le; lia|].
      apply wp_bind. eapply wp_move; [apply insert_at|apply Hu|done|lia|].
      intros u2 Hu2 Ec2 Ep2. rewrite on_bufs_twice, wp_ret.
      rewrite (wrap_small 64), (wrap_small 32) by lia.
      split; [|lia]. exists u2. pose proof (norm_range (sum + A)).
      split_and!; [done|by eapply like_trans|congruence|lia|lia|lia|lia|lia|lia|lia|].
      assert (slice (content v) (pos v + off) sz = slice (content v) (pos v + off) n ++
        slice (content v) (pos v + off + n) (sz - n)) as Esl
        by (rewrite <- slice_app by lia; f_equal; lia).
      rewrite <- HX, Esl, wsum_app. fold A. rewrite (Z.add_assoc (pos v)).
      assert (length (slice (content v) (pos v + off) n) = Z.to_nat n) as Hlen.
      { pose proof (slice_length (content v) (pos v + off) n). rewrite Ec, Ep in Hrl. lia. }
      rewrite Hlen. replace (Z.odd (off + n)) with (xorb (Z.odd off) (Nat.odd (Z.to_nat n))).
      2:{ rewrite Z.odd_add, <- Zodd_of_nat. do 2 f_equal. lia. }
      assert (∀ o, 0 ≤ wsum o (slice (content v) (pos v + off + n) (sz - n))) as Hnn
        by (intros o; apply wsum_bounds, slice_bytes, content_bytes, (chain_blks _ Hch)).
      rewrite norm_norm_add; [|lia|apply Hnn].
      f_equal. lia.
  - exists (set_blk_lock true v). cbn [Z.odd]. rewrite Z.add_0_r.
    split_and!; [done|by apply like_locked|done|lia|lia|cbn; lia|lia|lia|lia|lia|done].
  - lia.
Qed.
End cursor_ops.

(** *** [pktbuf_copy] *)

Lemma on_bufs_comm a c x y w :
  a ≠ c → on_bufs (insert a x) (on_bufs (insert c y) w) = on_bufs (insert c y) (on_bufs (insert a x) w).
Proof. intros Hne. destruct w as [h bs n]. rewrite !on_bufs_mk. f_equal. by apply insert_insert_ne. Qed.

Lemma insert_other a c u w : a ≠ c → bufs (on_bufs (insert c u) w) !! a = bufs w !! a.
Proof. intros Hne. cbn. by rewrite lookup_insert_ne. Qed.

Section copy.
Context `{K : Kmalloc} `{KO : !KmallocOk}.
Context (dest src : Z) (w : pworld) (d s : Pktbuf).
Context (Hw : wf w) (Hds : dest ≠ src).
Context (Hd : bufs w !! dest = Some d) (Hs : bufs w !! src = Some s).
Context (Hcd : cursor_ok d) (Hcs : cursor_ok s).

(** The world with both packets replaced. *)
Definition both (ud us : Pktbuf) : pworld := on_bufs (insert dest ud) (on_bufs (insert src us) w).

Lemma both_dest ud us : bufs (both ud us) !! dest = Some ud.
Proof. apply insert_at. Qed.

Lemma both_src ud us : bufs (both ud us) !! src = Some us.
Proof. unfold both. rewrite insert_other by done. apply insert_at. Qed.

Lemma both_set_dest ud us ud' : on_bufs (insert dest ud') (both ud us) = both ud' us.
Proof. apply on_bufs_twice. Qed.

Lemma both_set_src ud us us' : on_bufs (insert src us') (both ud us) = both ud us'.
Proof. unfold both. rewrite on_bufs_comm, on_bufs_twice by done. done. Qed.

Lemma wp_leave_both ud us (Q : unit → pworld → Prop) :
  like (set_blk_lock true d) ud → like (set_blk_lock true s) us →
  (∀ d' s' w', wf w' → bufs w' = <[dest := d']> (<[src := s']> (bufs w)) →
     phead w' = phead w → like d d' → like s s' → content d' = content ud → content s' = content us →
     pos d' = pos ud → pos s' = pos us → Q tt w') →
  wp (release_blk src;; release_blk dest) (both ud us) Q.
Proof.
  intros Hud Hus HQ. apply wp_bind. eapply wp_release_blk; [apply both_src| |].
  { by rewrite (like_lock _ _ Hus). }
  rewrite both_set_src. eapply wp_release_blk; [apply both_dest| |].
  { by rewrite (like_lock _ _ Hud). }
  rewrite both_set_dest. unfold both.
  pose proof (like_unlock s us (buf_unlocked _ _ (wf_bufs _ Hw _ _ Hs)) Hus) as Hs'.
  pose proof (like_unlock d ud (buf_unlocked _ _ (wf_bufs _ Hw _ _ Hd)) Hud) as Hd'.
  destruct (like_updated w src s _ Hw Hs Hs') as (Hw1 & Eb1 & _).
  set (w1 := on_bufs (insert src _) w) in *.
  assert (bufs w1 !! dest = Some d) as Hd1 by (unfold w1; by rewrite insert_other).
  destruct (like_updated w1 dest d _ Hw1 Hd1 Hd') as (Hw2 & Eb2 & _).
  apply (HQ (set_blk_lock false ud) (set_blk_lock false us)); try done.
Qed.

Lemma wp_copy size (Q : Z → pworld → Prop) :
  0 ≤ size ≤ total_size d - pos d → size ≤ total_size s - pos s →
  (∀ d' s' w', wf w' → bufs w' = <[dest := d']> (<[src := s']> (bufs w)) → phead w' = phead w →
     like d d' → like s s' →
     content d' = splice (content d) (pos d) (slice (content s) (pos s) size) →
     content s' = content s → pos d' = pos d + size → pos s' = pos s + size → Q NET_OK w') →
  wp (pktbuf_copy dest src size) w Q.
Proof.
  intros Hsd Hss HQ.
  destruct (enter_facts dest w d Hw Hd Hcd) as (Hchd & Hld & Htd & Hpd & Hmd).
  destruct (enter_facts src w s Hw Hs Hcs) as (Hchs & Hls & Hts & Hps & Hms).
  unfold pktbuf_copy. apply wp_bind. eapply wp_acquire_blk; [done|done|].
  apply wp_bind. eapply wp_acquire_blk; [by rewrite insert_other|done|].
  rewrite on_bufs_comm by done. fold (both (set_blk_lock true d) (set_blk_lock true s)).
  apply wp_bind. eapply wp_get_buf; [apply both_dest|].
  apply wp_bind. eapply wp_get_buf; [apply both_src|].
  cbn [total_size pos set_blk_lock]. rewrite !(wrap_small 64) by lia.
  destruct (Z.ltb_spec (total_size d - pos d) size); [lia|].
  destruct (Z.ltb_spec (total_size s - pos s) size); [lia|]. cbn [orb]. apply wp_bind.
  apply (wp_loop _ (λ sz w', ∃ ud us, w' = both ud us ∧
      like (set_blk_lock true d) ud ∧ like (set_blk_lock true s) us ∧ 0 ≤ sz ≤ size ∧
      pos ud = pos d + (size - sz) ∧ pos us = pos s + (size - sz) ∧ content us = content s ∧
      content ud = splice (content d) (pos d) (slice (content s) (pos s) (size - sz)))
      (λ sz _, Z.to_nat sz)).
  - intros sz w' (ud & us & -> & Hud & Hus & Hsz & Epd & Eps & Ecs & Ecd).
    pose proof (like_len _ _ Hud) as Hlen.
    change (content (set_blk_lock true d)) with (content d) in Hlen.
    destruct (Z.eqb_spec sz 0) as [->|Hnz].
    + rewrite wp_ret. rewrite Z.sub_0_r in *.
      apply wp_seq_ret. eapply wp_leave_both; [done..|].
      intros d' s' w' Hw' Eb Eh Hl1 Hl2 Ec1 Ec2 Ep1 Ep2.
      eapply HQ; [done|done|done|done|done|congruence|congruence|lia|lia].
    + apply wp_bind. eapply wp_remain; [apply both_dest|apply Hud|apply Hud|lia|].
      intros r Hr Hr0 Hrl.
      apply wp_bind. eapply wp_remain; [apply both_src|apply Hus|apply Hus|rewrite Ecs; lia|].
      intros r' Hr' Hr0' Hrl'.
      set (m := if r' <? r then r' else r).
      assert (0 < m ≤ r ∧ m ≤ r') as [Hm1 Hm2] by (unfold m; destruct (Z.ltb_spec r' r); lia).
      destruct (cur_copy_range sz m) as [Hn1 Hn2]; [lia..|].
      set (n := cur_copy _ _) in *. cbv zeta.
      apply wp_bind. eapply wp_cursor_read; [apply both_src|apply Hus|done|lia|].
      rewrite Ecs, Eps. set (ch := slice (content s) (pos s + (size - sz)) n).
      assert (zlen ch = n) as Hch by (apply slice_length; lia).
      apply wp_bind. eapply wp_cursor_write; [apply both_dest|apply Hud|done|lia|..].
      { apply slice_bytes, content_bytes, (chain_blks _ Hchs). }
      intros u1 Hu1 Hr1 Ec1 Ep1. rewrite both_set_dest.
      apply wp_bind. eapply wp_move; [apply both_dest|apply Hu1|done|lia|].
      intros u2 Hu2 Ec2 Ep2. rewrite both_set_dest.
      apply wp_bind. eapply wp_move; [apply both_src|apply Hus|done|lia|].
      intros u3 Hu3 Ec3 Ep3. rewrite both_set_src.
      rewrite wp_ret, (wrap_small 64) by lia. split; [|lia]. exists u2, u3.
      split_and!; [done| |by eapply like_trans|lia|lia|lia|lia|congruence|].
      * eapply like_trans; [exact Hud|by eapply like_trans].
      * rewrite Ec2, Ec1, Ecd, Epd.
        assert (zlen (slice (content s) (pos s) (size - sz)) = size - sz) as Hsl
          by (apply slice_length; lia).
        rewrite <- Hsl at 2. rewrite splice_splice by lia. f_equal. unfold ch.
        rewrite <- slice_app by lia. f_equal. lia.
  - exists (set_blk_lock true d), (set_blk_lock true s). rewrite Z.sub_diag.
    split_and!; [done|by apply like_locked|by apply like_locked|lia|lia|cbn; lia|cbn; lia|done|].
    unfold slice. cbn [Z.to_nat take]. by rewrite splice_nil.
  - lia.
Qed.
End copy.
