(* ===== verification/PktbufSpec.v ===== *)
(** * Packet buffers: the contract

    A packet is an array of bytes with a position.  The cursor operations refine
    those of such an array, for every sequence of calls; the structural ones
    change the bytes as their names say.  The error paths that break the
    contract are stated too. *)
From S2P Require Import Prelude Errors PacketIO Nettool Pktbuf PktbufOps PktbufCursor.

Lemma cursor_start_ok v : Forall blk_ok (pktblk_list v) → cursor_start v = v → cursor_ok v.
Proof.
  intros Hb Hs. exists [], (pktblk_list v). split; [done|]. rewrite <- Hs.
  unfold cursor_start. destruct v as [t [|k l] p r c o lk]; cbn; [done|].
  apply Forall_cons_1 in Hb as [[] _]. split_and!; [done|lia|lia|lia].
Qed.

Lemma cursor_reset v :
  chain_ok v → cursor_ok (cursor_start v) ∧ pos (cursor_start v) = 0 ∧
  content (cursor_start v) = content v.
Proof.
  intros Hch. destruct (cursor_start_blks v) as (Ebl & _). split_and!.
  - apply cursor_start_ok; [rewrite Ebl; apply Hch|]. unfold cursor_start at 1. rewrite Ebl.
    unfold cursor_start. by destruct (pktblk_list v).
  - unfold cursor_start. by destruct (pktblk_list v).
  - unfold content. by rewrite Ebl.
Qed.

(** ** The specification: a flat packet *)

Definition flat_of (v : Pktbuf) : flat := (content v, pos v).

(** A call on one packet's cursor. *)
Inductive cop : Type :=
| CWrite (src : bytes)
| CRead (size : Z)
| CSeek (offset : Z)
| CFill (x size : Z).

Definition cop_ok (o : cop) : Prop :=
  match o with
  | CWrite src => Forall is_byte src
  | CRead size => 0 ≤ size
  | CSeek _ => True
  | CFill x size => is_byte x ∧ 0 ≤ size
  end.

(** The calls that return before they take the packet's lock, and what they return. *)
Definition at_once (o : cop) : option Z :=
  match o with
  | CWrite src => if zlen src =? 0 then Some (- E_NET_PARAM) else None
  | CRead size => if size =? 0 then Some NET_OK else None
  | CSeek _ => None
  | CFill _ size => if size =? 0 then Some (- E_NET_PARAM) else None
  end.

(** What the others return and leave, and whether they keep the lock: a read past the
    end does. *)
Definition flat_call (o : cop) (f : flat) : (Z * bytes) * (flat * bool) :=
  let '(c, p) := f in
  match o with
  | CWrite src =>
      if zlen c - p <? zlen src then ((- E_NET_SIZE, []), (f, false))
      else ((NET_OK, []), ((splice c p src, p + zlen src), false))
  | CRead size =>
      if zlen c - p <? size then ((- E_NET_SIZE, []), (f, true))
      else ((NET_OK, slice c p size), ((c, p + size), false))
  | CSeek offset =>
      if p =? offset then ((NET_OK, []), (f, false))
      else if (offset <? 0) || (zlen c <=? offset) then ((- E_NET_SIZE, []), (f, false))
      else ((NET_OK, []), ((c, offset), false))
  | CFill x size =>
      if zlen c - p <? size then ((- E_NET_SIZE, []), (f, false))
      else ((NET_OK, []), ((splice c p (replicate (Z.to_nat size) x), p + size), false))
  end.

(** A flat packet and whether its lock is held; a call that needs a lock held panics. *)
Definition flat_step (o : cop) (s : flat * bool) : outcome ((Z * bytes) * (flat * bool)) :=
  match at_once o with
  | Some r => Ok ((r, []), s)
  | None => if s.2 then Panic else Ok (flat_call o s.1)
  end.

Fixpoint flat_run (ops : list cop) (s : flat * bool) : outcome (list (Z * bytes) * (flat * bool)) :=
  match ops with
  | [] => Ok ([], s)
  | o :: ops' => '(r, s') ← flat_step o s; '(rs, s'') ← flat_run ops' s'; Ok (r :: rs, s'')
  end.

Section spec.
Context `{K : Kmalloc} `{KO : !KmallocOk}.

(** The code's calls. *)
Definition run_cop (b : Z) (o : cop) : M pworld (Z * bytes) :=
  match o with
  | CWrite src => r ← pktbuf_write b src; mret (r, [])
  | CRead size => pktbuf_read b size
  | CSeek offset => r ← pktbuf_seek b offset; mret (r, [])
  | CFill x size => r ← pktbuf_fill b x size; mret (r, [])
  end.

Fixpoint run_cops (b : Z) (ops : list cop) : M pworld (list (Z * bytes)) :=
  match ops with
  | [] => mret []
  | o :: ops' => r ← run_cop b o; rs ← run_cops b ops'; mret (r :: rs)
  end.

(** A packet of a module between two calls. *)
Definition live (w : pworld) (b : Z) (v : Pktbuf) : Prop := wf w ∧ bufs w !! b = Some v.

(** A packet ready for a call, and what survives a call. *)
Definition ready (w : pworld) (b : Z) (v : Pktbuf) : Prop :=
  wf w ∧ bufs w !! b = Some v ∧ cursor_ok v.

Lemma ready_updated w b v v' w' : updated w b v' w' → like v v' → ready w' b v'.
Proof.
  intros (Hw' & Eb & _) Hl. split_and!; [done| |apply Hl]. rewrite Eb. by rewrite lookup_insert_eq.
Qed.

(** A call that returns at once changes nothing, whoever holds the lock. *)
Lemma run_at_once w b o r : at_once o = Some r → run_cop b o w = Ok ((r, []), w).
Proof.
  intros Ha. destruct o as [src|size|offset|x size]; cbn in Ha |- *.
  - unfold pktbuf_write. destruct (zlen src =? 0); [|done]. by injection Ha as <-.
  - unfold pktbuf_read. destruct (size =? 0); [|done]. by injection Ha as <-.
  - done.
  - unfold pktbuf_fill. destruct (size =? 0); [|done]. by injection Ha as <-.
Qed.

(** The others panic on a packet whose lock is held. *)
Lemma acquire_held {A} w b v (k : unit → M pworld A) :
  bufs w !! b = Some v → pktblk_lock v = true → (acquire_blk b ≫= k) w = Panic.
Proof.
  intros Hb Hl. unfold acquire_blk, get_buf, mbind, M_bind, gets. rewrite Hb. cbn. by rewrite Hl.
Qed.

Lemma run_held w b v o : bufs w !! b = Some v → pktblk_lock v = true → at_once o = None → run_cop b o w = Panic.
Proof.
  intros Hb Hl Ha.
  assert (∀ (m : M pworld Z), m w = Panic → (r ← m; mret (r, [] : bytes)) w = Panic) as Hm
    by (intros m E; unfold mbind, M_bind; by rewrite E).
  destruct o as [src|size|offset|x size]; cbn in Ha |- *.
  - apply Hm. unfold pktbuf_write. destruct (zlen src =? 0); [done|]. by eapply acquire_held.
  - unfold pktbuf_read. destruct (size =? 0); [done|]. by eapply acquire_held.
  - apply Hm. unfold pktbuf_seek. by eapply acquire_held.
  - apply Hm. unfold pktbuf_fill. destruct (size =? 0); [done|]. by eapply acquire_held.
Qed.

(** Packet [b] after a call from [v]: free again, or as it was with its lock held. *)
Definition called (w : pworld) (b : Z) (v : Pktbuf) (s : flat * bool) (w' : pworld) : Prop :=
  if s.2 then w' = on_bufs (insert b (set_blk_lock true v)) w ∧ flat_of v = s.1
  else ∃ v', updated w b v' w' ∧ like v v' ∧ flat_of v' = s.1.

Lemma run_cop_spec w b v o :
  ready w b v → cop_ok o → at_once o = None →
  wp (run_cop b o) w (λ r w', r = (flat_call o (flat_of v)).1 ∧ called w b v (flat_call o (flat_of v)).2 w').
Proof.
  intros (Hw & Hb & Hc) Ho Ha. unfold flat_of, called.
  pose proof (enter_facts b w v Hw Hb Hc) as (Hch & _ & Ht & Hp & _).
  destruct o as [src|size|offset|x size]; cbn [run_cop cop_ok flat_call at_once] in *.
  - apply wp_bind. destruct (Z.eqb_spec (zlen src) 0) as [E0|Hnz]; [done|].
    assert (src ≠ []) by by intros ->.
    destruct (Z.ltb_spec (zlen (content v) - pos v) (zlen src)).
    + eapply wp_write_short; [done..|lia|]. intros v' w' ?? Ec Ep. rewrite wp_ret. split; [done|].
      exists v'. split_and!; [done..|]. cbn. unfold flat_of. by rewrite Ec, Ep.
    + eapply wp_write; [done..|lia|]. intros v' w' ?? Ec Ep. rewrite wp_ret. split; [done|].
      exists v'. split_and!; [done..|]. cbn. unfold flat_of. by rewrite Ec, Ep.
  - destruct (Z.eqb_spec size 0) as [->|Hnz]; [done|].
    destruct (Z.ltb_spec (zlen (content v) - pos v) size).
    + eapply wp_of_run; [eapply read_short_run; [done..|lia]|]. done.
    + eapply wp_read; [done..|lia|]. intros v' w' ?? Ec Ep. split; [done|].
      exists v'. split_and!; [done..|]. cbn. unfold flat_of. by rewrite Ec, Ep.
  - apply wp_bind. eapply wp_seek; [done..|]. unfold seek_code.
    intros v' w' ?? Ec Ep. rewrite wp_ret. rewrite Ht in *.
    destruct (Z.eqb_spec (pos v) offset) as [->|]; [|destruct (_ || _)];
      cbn in Ep; (split; [done|]; exists v'; split_and!; [done..|]; cbn; unfold flat_of; by rewrite Ec, Ep).
  - apply wp_bind. destruct (Z.eqb_spec size 0) as [E0|Hnz]; [done|].
    destruct (Z.ltb_spec (zlen (content v) - pos v) size).
    + eapply wp_fill_short; [done..|lia|]. intros v' w' ?? Ec Ep. rewrite wp_ret. split; [done|].
      exists v'. split_and!; [done..|]. cbn. unfold flat_of. by rewrite Ec, Ep.
    + eapply wp_fill; [done..|apply Ho|lia|]. intros v' w' ?? Ec Ep. rewrite wp_ret. split; [done|].
      exists v'. split_and!; [done..|]. cbn. unfold flat_of. by rewrite Ec, Ep.
Qed.

(** A history of calls from [v] in [w]: [s] is what is left. *)
Definition history_left (w : pworld) (b : Z) (v : Pktbuf) (s : flat * bool) (w' : pworld) : Prop :=
  ∃ v', bufs w' !! b = Some (set_blk_lock s.2 v') ∧ flat_of v' = s.1 ∧ (s.2 = false → ready w' b v') ∧
    total_size v' = total_size v ∧ blk_ids v' = blk_ids v ∧
    (∀ c, c ≠ b → bufs w' !! c = bufs w !! c) ∧ mem_size (phead w') = mem_size (phead w).

Definition run_is {A} (m : outcome (A * pworld)) (r : outcome (A * (flat * bool))) (P : flat * bool → pworld → Prop) : Prop :=
  match r with
  | Ok (a, s) => ∃ w', m = Ok (a, w') ∧ P s w'
  | Panic => m = Panic
  | _ => False
  end.

Lemma run_cops_held w b v f ops : bufs w !! b = Some v → pktblk_lock v = true →
  run_is (run_cops b ops w) (flat_run ops (f, true)) (λ s w', s = (f, true) ∧ w' = w).
Proof.
  intros Hb Hl. induction ops as [|o ops IH]; [by exists w|]. cbn [flat_run run_cops]. unfold flat_step.
  destruct (at_once o) as [r|] eqn:Ea.
  - unfold mbind, M_bind. rewrite (run_at_once w b o r Ea). cbn. revert IH. unfold run_is.
    destruct (flat_run ops (f, true)) as [[rs s]| | | |]; try done; cbn.
    + intros (w' & E1 & H). exists w'. unfold mbind, M_bind in E1. by rewrite E1.
    + intros E1. by rewrite E1.
  - cbn. unfold mbind, M_bind. by rewrite (run_held w b v o Hb Hl Ea).
Qed.

Lemma ready_lock w b v : ready w b v → set_blk_lock false v = v.
Proof. intros (Hw & Hb & _). pose proof (buf_unlocked _ _ (wf_bufs _ Hw _ _ Hb)) as Hl. destruct v. cbn in *. by subst. Qed.

Lemma updated_left w b v v1 w1 s w2 : ready w b v → updated w b v1 w1 → like v v1 → history_left w1 b v1 s w2 → history_left w b v s w2.
Proof.
  intros (Hw & Hb & _) (Hw1 & Eb1 & El1 & _) Hl (v2 & H1 & H2 & H3 & H4 & H5 & H6 & H7).
  exists v2. split_and!; try done; [by rewrite H4; apply Hl|by rewrite H5; apply Hl|..].
  - intros c Hc. rewrite H6, Eb1 by done. by rewrite lookup_insert_ne.
  - rewrite H7, (wf_mem _ Hw1), (wf_mem _ Hw), El1, Eb1.
    rewrite sum_totals_insert by (try apply (wf_nodup _ Hw); apply (wf_dom _ Hw); eauto).
    unfold total_at. rewrite Hb, (like_total _ _ Hl). lia.
Qed.

(** C20: every sequence of cursor calls on a well-formed packet does what the same calls
    do on a flat array of bytes with a position and a lock: same results, same bytes,
    same position, the chain of blocks and other packets as they were. A read past the
    end keeps the lock; from then on the calls that need it panic *)
Theorem pktbuf_cursor_refines w b v ops :
  ready w b v → Forall cop_ok ops →
  run_is (run_cops b ops w) (flat_run ops (flat_of v, false)) (history_left w b v).
Proof.
  revert w v. induction ops as [|o ops IH]; intros w v Hr Ho.
  { exists w. split; [done|]. exists v. cbn. rewrite (ready_lock w b v Hr). split_and!; try done. apply Hr. }
  apply Forall_cons in Ho as [Ho Hos]. cbn [flat_run run_cops]. unfold flat_step.
  destruct (at_once o) as [r|] eqn:Ea.
  { specialize (IH w v Hr Hos). unfold mbind at 1, M_bind at 1. rewrite (run_at_once w b o r Ea). cbn. revert IH. unfold run_is.
    destruct (flat_run ops _) as [[rs s]| | | |]; try done; cbn.
    - intros (w' & E1 & H). exists w'. unfold mbind, M_bind. by rewrite E1.
    - intros E1. unfold mbind, M_bind. by rewrite E1. }
  pose proof (run_cop_spec w b v o Hr Ho Ea) as (r & w1 & E1 & -> & Hc)%wp_run. cbn [snd fst].
  unfold mbind at 1, M_bind at 1. rewrite E1. cbn [mbind outcome_bind].
  destruct (flat_call o (flat_of v)) as [r [f [|]]]; unfold called in Hc; cbn [fst snd] in *.
  - destruct Hc as [-> Ef].
    set (w1 := on_bufs _ w) in *. assert (bufs w1 !! b = Some (set_blk_lock true v)) as Hb1 by apply insert_at.
    pose proof (run_cops_held w1 b _ f ops Hb1 eq_refl) as H. revert H. unfold run_is, mbind, outcome_bind, M_bind.
    destruct (flat_run ops (f, true)) as [[rs s]| | | |]; try done; [|by intros ->].
    intros (w2 & E2 & -> & ->). exists w1. rewrite E2. split; [done|]. exists v. split_and!; try done.
    intros c Hne. unfold w1. cbn. by rewrite lookup_insert_ne.
  - destruct Hc as (v1 & Hup & Hl & <-).
    pose proof (IH w1 v1 (ready_updated _ _ _ _ _ Hup Hl) Hos) as H. revert H. unfold run_is, mbind, outcome_bind, M_bind.
    destruct (flat_run ops (flat_of v1, false)) as [[rs s]| | | |]; try done; [|by intros ->].
    intros (w2 & E2 & H). exists w2. rewrite E2. split; [done|]. by eapply updated_left.
Qed.

(** A header is prepended in place or in new blocks *)
Theorem pktbuf_add_header_spec w b v size (cont : bool) :
  live w b v → content v ≠ [] → 0 ≤ size →
  mem_size (phead w) + size ≤ max_mem_size (phead w) →
  (cont → size ≤ PKTBUF_BLK_SIZE) →
  (cont = false → ∀ k l', pktblk_list v = k :: l' →
     size ≤ blk_data k ∨ blk_data k + blk_size k = PKTBUF_BLK_SIZE) →
  ∃ v' w' hdr, pktbuf_add_header b size cont w = Ok (NET_OK, w') ∧ updated w b v' w' ∧
    zlen hdr = size ∧ content v' = hdr ++ content v ∧
    (cont → 0 < size → ∃ k l', pktblk_list v' = k :: l' ∧ size ≤ blk_size k).
Proof.
  intros (Hw & Hb) Hne Hs Hm Hc Hnc.
  assert (wp (pktbuf_add_header b size cont) w (λ r w', r = NET_OK ∧ ∃ v' hdr,
    updated w b v' w' ∧ zlen hdr = size ∧ content v' = hdr ++ content v ∧
    (cont → 0 < size → ∃ k l', pktblk_list v' = k :: l' ∧ size ≤ blk_size k)))
    as (r & w' & E & -> & v' & hdr & H)%wp_run.
  { eapply wp_add_header; [done..|]. intros v' w' hdr ?????. split; [done|]. eauto 10. }
  exists v', w', hdr. by split.
Qed.

(** Removing a header that was just added gives the packet back *)
Theorem pktbuf_header_roundtrip w b v size (cont : bool) :
  live w b v → content v ≠ [] → 0 ≤ size →
  mem_size (phead w) + size ≤ max_mem_size (phead w) →
  (cont → size ≤ PKTBUF_BLK_SIZE) →
  (cont = false → ∀ k l', pktblk_list v = k :: l' →
     size ≤ blk_data k ∨ blk_data k + blk_size k = PKTBUF_BLK_SIZE) →
  ∃ v' w', (pktbuf_add_header b size cont;; pktbuf_remove_header b size) w = Ok (NET_OK, w') ∧
    wf w' ∧ bufs w' = <[b := v']> (bufs w) ∧ content v' = content v.
Proof.
  intros (Hw & Hb) Hne Hs Hm Hc Hnc.
  assert (wp (pktbuf_add_header b size cont;; pktbuf_remove_header b size) w (λ r w',
    r = NET_OK ∧ ∃ v', wf w' ∧ bufs w' = <[b := v']> (bufs w) ∧ content v' = content v))
    as (r & w' & E & -> & v' & H)%wp_run.
  { apply wp_bind. eapply wp_add_header; [done..|].
    intros v1 w1 hdr (Hw1 & Eb & _) Hh Ec _ _.
    assert (bufs w1 !! b = Some v1) as Hb1 by (rewrite Eb; by rewrite lookup_insert_eq).
    pose proof (buf_total _ _ (wf_bufs _ Hw1 _ _ Hb1)) as Ht.
    rewrite Ec, length_app in Ht.
    eapply wp_remove_header; [done|done| |lia|].
    { rewrite Ec. by destruct hdr, (content v). }
    intros v2 w2 (Hw2 & Eb2 & _) Ec2 _. split; [done|]. exists v2. split_and!; [done| |].
    - rewrite Eb2, Eb. by rewrite insert_insert_eq.
    - rewrite Ec2, Ec. apply drop_app_length'. lia. }
  exists v', w'. by split.
Qed.

(** Resizing keeps the bytes that fit *)
Theorem pktbuf_resize_spec w b v size :
  live w b v → 0 ≤ size →
  mem_size (phead w) - total_size v + size ≤ max_mem_size (phead w) →
  ∃ v' w' extra, pktbuf_resize b size w = Ok (NET_OK, w') ∧ updated w b v' w' ∧
    zlen (content v') = size ∧ content v' = take (Z.to_nat size) (content v) ++ extra.
Proof.
  intros (Hw & Hb) Hs Hm. pose proof (buf_total _ _ (wf_bufs _ Hw _ _ Hb)) as Ht.
  assert (wp (pktbuf_resize b size) w (λ r w', r = NET_OK ∧ ∃ v' extra, updated w b v' w' ∧
    zlen (content v') = size ∧ content v' = take (Z.to_nat size) (content v) ++ extra))
    as (r & w' & E & -> & v' & extra & H)%wp_run.
  { destruct (decide (total_size v < size)).
    - eapply wp_resize_grow; [done..|]. intros v' w' extra ? Ec ? _ _. split; [done|].
      exists v', extra. by rewrite take_ge by lia.
    - eapply wp_resize_shrink; [done|done|lia|]. intros v' w' ? Ec _. split; [done|].
      exists v', []. rewrite app_nil_r. split_and!; [done| |done].
      rewrite Ec, length_take. lia. }
  exists v', w', extra. by split.
Qed.

(** [pktbuf_set_cont] makes the first bytes contiguous and changes none *)
Theorem pktbuf_set_cont_spec w b v size :
  live w b v → content v ≠ [] → 0 ≤ size →
  if (total_size v <? size) || (PKTBUF_BLK_SIZE <? size)
  then pktbuf_set_cont b size w = Ok (- E_NET_SIZE, w)
  else ∃ v' w' k l', pktbuf_set_cont b size w = Ok (NET_OK, w') ∧ updated w b v' w' ∧
    content v' = content v ∧ pktblk_list v' = k :: l' ∧ size ≤ blk_size k.
Proof.
  intros (Hw & Hb) Hne Hs.
  destruct (Z.ltb_spec (total_size v) size) as [H1|H1]; cbn [orb].
  { apply wp_result. unfold pktbuf_set_cont. apply wp_bind. eapply wp_get_buf; [done|].
    by rewrite (proj2 (Z.ltb_lt _ _) H1), wp_ret. }
  destruct (Z.ltb_spec PKTBUF_BLK_SIZE size) as [H2|H2].
  { apply wp_result. unfold pktbuf_set_cont. apply wp_bind. eapply wp_get_buf; [done|].
    by rewrite (proj2 (Z.ltb_ge _ _) H1), (proj2 (Z.ltb_lt _ _) H2), wp_ret. }
  assert (wp (pktbuf_set_cont b size) w (λ r w', r = NET_OK ∧ ∃ v' k l', updated w b v' w' ∧
    content v' = content v ∧ pktblk_list v' = k :: l' ∧ size ≤ blk_size k))
    as (r & w' & E & -> & v' & k & l' & H)%wp_run.
  { eapply wp_set_cont; [done|done|done|lia|lia|]. intros v' w' ?? (k & l' & ? & ?) _.
    split; [done|]. eauto 10. }
  exists v', w', k, l'. by split.
Qed.

(** Joining concatenates the bytes and frees the source *)
Theorem pktbuf_join_spec w dest src d s :
  dest ≠ src → live w dest d → live w src s →
  ∃ v' w', pktbuf_join dest src w = Ok (NET_OK, w') ∧ wf w' ∧
    bufs w' = <[dest := v']> (delete src (bufs w)) ∧ content v' = content d ++ content s ∧
    mem_size (phead w') = mem_size (phead w).
Proof.
  intros Hne (Hw & Hd) (_ & Hs).
  assert (wp (pktbuf_join dest src) w (λ r w', r = NET_OK ∧ ∃ v', wf w' ∧
    bufs w' = <[dest := v']> (delete src (bufs w)) ∧ content v' = content d ++ content s ∧
    mem_size (phead w') = mem_size (phead w))) as (r & w' & E & -> & v' & H)%wp_run.
  { eapply wp_join; [done..|]. intros. split; [done|]. eauto 10. }
  exists v', w'. by split.
Qed.

(** What is allocated is fresh, and freeing it restores the module *)
Theorem pktbuf_alloc_free w size :
  wf w → 0 ≤ size → mem_size (phead w) + size ≤ max_mem_size (phead w) →
  ∃ v w1 w2, pktbuf_alloc size w = Ok (brk w, w1) ∧ live w1 (brk w) v ∧ bufs w !! brk w = None ∧
    bufs w1 = <[brk w := v]> (bufs w) ∧ zlen (content v) = size ∧ ref v = 1 ∧ pos v = 0 ∧
    mem_size (phead w1) = mem_size (phead w) + size ∧
    pktbuf_free (brk w) w1 = Ok (tt, w2) ∧ wf w2 ∧ bufs w2 = bufs w ∧
    mem_size (phead w2) = mem_size (phead w).
Proof.
  intros Hw Hs Hm.
  assert (wp (pktbuf_alloc size) w (λ r w1, r = brk w ∧ ∃ v, wf w1 ∧ bufs w !! brk w = None ∧
    bufs w1 = <[brk w := v]> (bufs w) ∧ zlen (content v) = size ∧ ref v = 1 ∧
    cursor_start v = v ∧ mem_size (phead w1) = mem_size (phead w) + size))
    as (r & w1 & E1 & -> & v & Hw1 & Hf & Eb & Ec & Er & Ecur & Em)%wp_run.
  { eapply wp_alloc; [done..|]. intros. split; [done|]. eauto 10. }
  assert (bufs w1 !! brk w = Some v) as Hb1 by (rewrite Eb; by rewrite lookup_insert_eq).
  pose proof (buf_total _ _ (wf_bufs _ Hw1 _ _ Hb1)) as Ht.
  assert (wp (pktbuf_free (brk w)) w1 (λ _ w2, wf w2 ∧ bufs w2 = bufs w ∧
    mem_size (phead w2) = mem_size (phead w))) as (w2 & E2 & Hw2 & Eb2 & Em2)%wp_unit.
  { eapply wp_free; [done..| |lia]. intros _ w2 Hw2 Eb2 Em2 _. split_and!; [done| |lia].
    rewrite Eb2, Eb. by apply delete_insert_id. }
  exists v, w1, w2. split_and!; try done. rewrite <- Ecur. unfold cursor_start.
  by destruct (pktblk_list v).
Qed.

(** The checksum of a range of a packet is that of its bytes laid out flat *)
Theorem pktbuf_checksum_spec w b v size pre (c : bool) :
  ready w b v → 0 < size ≤ total_size v - pos v → size < 65536 → total_size v < 2 ^ 31 →
  0 ≤ pre < 2 ^ 31 →
  ∃ r v' w', checksum16 0 (slice (content v) (pos v) size) size pre c = Ok r ∧
    pktbuf_checksum16 b size pre c w = Ok (r, w') ∧ ready w' b v' ∧
    flat_of v' = (content v, pos v + size).
Proof.
  intros (Hw & Hb & Hc) Hs Hs16 H31 Hpre.
  pose proof (enter_facts b w v Hw Hb Hc) as (Hch & _ & Ht & Hp & _).
  assert (zlen (slice (content v) (pos v) size) = size) as Hlen by (apply slice_length; lia).
  assert (Forall is_byte (slice (content v) (pos v) size)) as Hby
    by apply slice_bytes, content_bytes, (chain_blks _ Hch).
  assert (wp (pktbuf_checksum16 b size pre c) w (λ r w',
    checksum16 0 (slice (content v) (pos v) size) size pre c = Ok r ∧
    ∃ v', ready w' b v' ∧ flat_of v' = (content v, pos v + size)))
    as (r & w' & E & Hr & v' & H)%wp_run.
  { eapply wp_checksum; [done..|]. intros v' w' Hup Hl Ec Ep. split.
    - pose proof (wsum_take_bound false _ size Hby ltac:(lia)) as Hwb.
      assert (take (Z.to_nat size) (slice (content v) (pos v) size)
        = slice (content v) (pos v) size) as Htk by (apply take_ge; lia).
      rewrite Htk in Hwb. rewrite checksum16_run; cbn [Z.odd]; rewrite ?Htk; try done; lia.
    - exists v'. split; [by eapply ready_updated|]. unfold flat_of. by rewrite Ec, Ep. }
  exists r, v', w'. by split.
Qed.

(** *** [checksum_peso] of [net/nettool.c] *)

(** The checksum of a packet with the pseudo-header of TCP and UDP before it. *)
Definition checksum_peso (src_ip dest_ip : bytes) (protocol : Z) (b : Z) : M pworld Z :=
  v ← get_buf b;
  let zero_protocol := [0; protocol] in
  let len := x_htons (u16 (total_size v)) in
  sum ← of_outcome (checksum16 0 src_ip 4 0 false);
  sum ← of_outcome (checksum16 4 dest_ip 4 sum false);
  sum ← of_outcome (checksum16 8 zero_protocol 2 sum false);
  sum ← of_outcome (checksum16 10 [len mod 256; len / 256] 2 sum false);
  pktbuf_reset_acc b;;
  pktbuf_checksum16 b (total_size v) sum true.

Lemma wp_chunk off (buf : bytes) len pre w (Q : Z → pworld → Prop) :
  Forall is_byte buf → zlen buf = len → 0 < len < 16 → Z.even off = true → 0 ≤ pre < 2 ^ 31 →
  Q (norm (pre + wsum false buf)) w → wp (of_outcome (checksum16 off buf len pre false)) w Q.
Proof.
  intros Hb Hl Hlen Ho Hp HQ. pose proof (wsum_take_bound false buf len Hb ltac:(lia)) as Hw.
  assert (take (Z.to_nat len) buf = buf) as Htk by (apply take_ge; lia). rewrite Htk in Hw.
  unfold of_outcome.
  assert (Z.odd off = false) as Hodd by (by rewrite <- Z.negb_even, Ho).
  rewrite checksum16_run; rewrite ?Hodd, ?Htk; try done; lia.
Qed.

(** The pseudo-header of TCP and UDP, and the packet. *)
Definition peso_bytes (src dest : bytes) (protocol : Z) (data : bytes) : bytes :=
  src ++ dest ++ [0; protocol] ++ [zlen data / 256; zlen data mod 256] ++ data.

(** Its sum, taken piece by piece. *)
Lemma peso_chunks src dest z l c :
  Forall is_byte src → Forall is_byte dest → Forall is_byte z → Forall is_byte l →
  Forall is_byte c → zlen src = 4 → zlen dest = 4 → zlen z = 2 → zlen l = 2 →
  norm (norm (norm (norm (norm (0 + wsum false src) + wsum false dest) + wsum false z)
    + wsum false l) + wsum false c) = norm (0 + wsum false (src ++ dest ++ z ++ l ++ c)).
Proof.
  intros Hs Hd Hz Hl Hc Es Ed Ez El.
  assert (∀ l1 l2 : bytes, zlen l1 = 2 ∨ zlen l1 = 4 →
    wsum false (l1 ++ l2) = wsum false l1 + wsum false l2) as Hev.
  { intros l1 l2 Hn. rewrite wsum_app. f_equal. f_equal.
    assert (Nat.odd (length l1) = false) as ->; [|done].
    destruct Hn; [replace (length l1) with 2%nat by lia|replace (length l1) with 4%nat by lia]; done. }
  rewrite !Hev by lia. pose proof norm_range as Hnr.
  assert (∀ l, Forall is_byte l → 0 ≤ wsum false l) as Hnn by (intros; by apply wsum_bounds).
  pose proof (Hnn _ Hs). pose proof (Hnn _ Hd). pose proof (Hnn _ Hz). pose proof (Hnn _ Hl).
  pose proof (Hnn _ Hc).
  assert (∀ a b, 0 ≤ a → 0 ≤ b → norm (norm a + b) = norm (a + b)) as Hfold
    by (intros; by rewrite norm_norm_add).
  rewrite (Hfold (0 + wsum false src)), (Hfold (0 + wsum false src + wsum false dest)) by lia.
  rewrite (Hfold (_ + wsum false z)), Hfold by lia. f_equal. lia.
Qed.

(** The operation leaves the bytes and the blocks of the packet as they are. *)
Lemma wp_checksum_peso w b v src dest protocol (Q : Z → pworld → Prop) :
  live w b v → Forall is_byte src → Forall is_byte dest → zlen src = 4 → zlen dest = 4 →
  is_byte protocol → 0 < total_size v < 65536 - 12 →
  (∀ v' w' r, updated w b v' w' → map window (pktblk_list v') = map window (pktblk_list v) →
     content v' = content v → cursor_ok v' → ref v' = ref v →
     checksum16 0 (peso_bytes src dest protocol (content v)) (12 + zlen (content v)) 0 true = Ok r →
     Q r w') →
  wp (checksum_peso src dest protocol b) w Q.
Proof.
  intros (Hw & Hb) Hs Hd Hls Hld Hp Ht HQ.
  pose proof (buf_chain _ _ (wf_bufs _ Hw _ _ Hb)) as Hch.
  pose proof (buf_total _ _ (wf_bufs _ Hw _ _ Hb)) as Htot.
  pose proof (Z.mod_pos_bound (total_size v) 256 ltac:(lia)).
  pose proof (Z.div_mod (total_size v) 256 ltac:(lia)) as Hdm.
  assert (0 ≤ total_size v / 256 < 256) as Hdiv
    by (split; [apply Z.div_pos; lia|apply Z.div_lt_upper_bound; lia]).
  unfold peso_bytes in HQ. rewrite <- Htot in HQ.
  unfold checksum_peso. apply wp_bind. eapply wp_get_buf; [done|]. cbv zeta.
  rewrite (wrap_small 16) by lia. unfold x_htons.
  assert (swap_u16 (total_size v) mod 256 = total_size v / 256 ∧
    swap_u16 (total_size v) / 256 = total_size v mod 256) as [-> ->].
  { rewrite swap_u16_eq by lia. rewrite (Z.add_comm (_ * 256)). split.
    - rewrite Z_mod_plus_full. by apply Z.mod_small.
    - rewrite Z.div_add, (Z.div_small (total_size v / 256)) by lia. lia. }
  set (len2 := [total_size v / 256; total_size v mod 256]).
  assert (Forall is_byte [0; protocol]) as Hz by (forall_elems; [unfold is_byte; lia|done]).
  assert (Forall is_byte len2) as Hl2 by (unfold len2; forall_elems; unfold is_byte; lia).
  assert (∀ l, Forall is_byte l → 0 ≤ wsum false l) as Hnn by (intros; by apply wsum_bounds).
  pose proof norm_range as Hnr.
  apply wp_bind, wp_chunk; [done|done|lia|done|lia|]. pose proof (Hnr (0 + wsum false src)).
  apply wp_bind, wp_chunk; [done|done|lia|done|lia|].
  pose proof (Hnr (norm (0 + wsum false src) + wsum false dest)).
  apply wp_bind, wp_chunk; [done|done|lia|done|lia|].
  pose proof (Hnr (norm (norm (0 + wsum false src) + wsum false dest) + wsum false [0; protocol])).
  apply wp_bind, wp_chunk; [done|done|lia|done|lia|].
  set (sum := norm (_ + wsum false len2)). pose proof (Hnr _ : 0 ≤ sum ≤ 65535).
  apply wp_bind. eapply wp_reset_acc; [done|done|]. intros w1 Hup.
  pose proof Hup as (Hw1 & Eb1 & _).
  destruct (cursor_start_blks v) as (Ebl & Etot & _).
  assert (bufs w1 !! b = Some (cursor_start v)) as Hb1 by (rewrite Eb1; by rewrite lookup_insert_eq).
  destruct (cursor_reset v Hch) as (Hc1 & Ep & _).
  eapply wp_checksum; [done|done|done|lia|lia|lia|lia|].
  intros v' w' Hup' Hlk Ec' _. apply (HQ v').
  { eapply updated_trans; [exact Hup|done]. }
  { rewrite (like_windows _ _ Hlk). by rewrite Ebl. }
  { rewrite Ec'. unfold content. by rewrite Ebl. }
  { apply Hlk. }
  { rewrite (like_ref _ _ Hlk). by destruct (cursor_start_blks v) as (_ & _ & -> & _). }
  cbv zeta.
  assert (slice (content (cursor_start v)) (pos (cursor_start v)) (total_size v) = content v) as ->.
  { unfold slice, content. rewrite Ebl, Ep. cbn [Z.to_nat]. rewrite drop_0. apply take_ge.
    unfold content in Htot. lia. }
  assert (Forall is_byte (content v)) as Hcb by apply content_bytes, (chain_blks _ Hch).
  fold len2. unfold sum. rewrite peso_chunks by done.
  assert (Forall is_byte (src ++ dest ++ [0; protocol] ++ len2 ++ content v)) as Hall
    by (repeat (apply Forall_app; split); done).
  assert (zlen (src ++ dest ++ [0; protocol] ++ len2 ++ content v) = 12 + total_size v) as Elen
    by (rewrite !length_app; unfold len2; cbn [length]; lia).
  pose proof (wsum_take_bound false _ (12 + total_size v) Hall ltac:(lia)) as Hwb.
  rewrite take_ge in Hwb by lia. rewrite checksum16_run;
    change (Z.odd 0) with false; rewrite ?take_ge by lia; try done; try lia.
Qed.

(** The transport checksum is that of the pseudo-header and the packet laid
    out one after the other *)
Theorem checksum_peso_spec w b v src dest protocol :
  ready w b v → Forall is_byte src → Forall is_byte dest → zlen src = 4 → zlen dest = 4 →
  is_byte protocol → 0 < total_size v < 65536 - 12 →
  ∃ r w', checksum_peso src dest protocol b w = Ok (r, w') ∧ wf w' ∧
    let whole := src ++ dest ++ [0; protocol] ++
                 [total_size v / 256; total_size v mod 256] ++ content v in
    checksum16 0 whole (zlen whole) 0 true = Ok r.
Proof.
  intros Hr Hs Hd Hls Hld Hp Ht. pose proof Hr as (Hw & Hb & Hc).
  pose proof (buf_total _ _ (wf_bufs _ Hw _ _ Hb)) as Htot.
  assert (wp (checksum_peso src dest protocol b) w (λ r w', wf w' ∧
    checksum16 0 (peso_bytes src dest protocol (content v)) (12 + zlen (content v)) 0 true = Ok r))
    as (r & w' & E & Hw' & Hres)%wp_run.
  { eapply wp_checksum_peso; [by split|done..|]. intros v' w' r (Hw' & _) _ _ _ _ Hres. by split. }
  exists r, w'. split_and!; [done|done|]. cbv zeta. unfold peso_bytes in Hres.
  rewrite Htot. rewrite <- Hres. f_equal. rewrite !length_app. cbn [length]. lia.
Qed.

(** Copying between packets *)
Theorem pktbuf_copy_spec w dest src d s size :
  dest ≠ src → ready w dest d → ready w src s →
  0 ≤ size ≤ total_size d - pos d → size ≤ total_size s - pos s →
  ∃ d' s' w', pktbuf_copy dest src size w = Ok (NET_OK, w') ∧ ready w' dest d' ∧
    ready w' src s' ∧ flat_of s' = (content s, pos s + size) ∧
    flat_of d' = (splice (content d) (pos d) (slice (content s) (pos s) size), pos d + size).
Proof.
  intros Hne (Hw & Hd & Hcd) (_ & Hs & Hcs) Hsz1 Hsz2.
  assert (wp (pktbuf_copy dest src size) w (λ r w', r = NET_OK ∧ ∃ d' s', ready w' dest d' ∧
    ready w' src s' ∧ flat_of s' = (content s, pos s + size) ∧
    flat_of d' = (splice (content d) (pos d) (slice (content s) (pos s) size), pos d + size)))
    as (r & w' & E & -> & d' & s' & H)%wp_run.
  { eapply wp_copy; [done..|]. intros d' s' w' Hw' Eb _ Hl1 Hl2 Ec1 Ec2 Ep1 Ep2.
    split; [done|]. exists d', s'. unfold ready, flat_of. rewrite Eb.
    rewrite lookup_insert_eq, lookup_insert_ne, lookup_insert_eq by done.
    rewrite Ec1, Ec2, Ep1, Ep2. split_and!; try done; [apply Hl1|apply Hl2]. }
  exists d', s', w'. by split.
Qed.

(** A read past the end keeps the packet's lock, and the next call panics *)
Theorem pktbuf_read_short_keeps_lock w b v size offset :
  ready w b v → total_size v - pos v < size →
  ∃ w', pktbuf_read b size w = Ok ((- E_NET_SIZE, []), w') ∧
    bufs w' !! b = Some (set_blk_lock true v) ∧ pktbuf_seek b offset w' = Panic.
Proof.
  intros (Hw & Hb & Hc) Hs. eexists. split; [by eapply read_short_run|].
  split; [apply insert_at|]. unfold pktbuf_seek, acquire_blk, get_buf, mbind, M_bind, gets.
  by rewrite insert_at.
Qed.

(** A contiguous header larger than a block leaves the module locked and its
    account charged *)
Theorem pktbuf_add_header_too_large w b v k l size :
  live w b v → pktblk_list v = k :: l → PKTBUF_BLK_SIZE < size →
  mem_size (phead w) + size ≤ max_mem_size (phead w) →
  ∃ w', pktbuf_add_header b size true w = Ok (- E_NET_SIZE, w') ∧ bufs w' = bufs w ∧
    mem_size (phead w') = mem_size (phead w) + size ∧
    pktbuf_alloc 0 w' = Panic ∧ print_check_blkbuf_list w' = Panic.
Proof.
  destruct w as [[mx m lk ls] bs n]. intros (Hw & Hb) El Hs Hm.
  pose proof (wf_unlocked _ Hw) as Hlk. cbn in Hlk, Hb, Hm. subst lk.
  pose proof (wf_bufs _ Hw b v Hb) as Hv. pose proof (wf_max _ Hw) as Hmax. cbn in Hmax.
  pose proof (wf_total_le _ b v Hw Hb) as Htm. pose proof (buf_total_nonneg _ _ Hv). cbn in Htm.
  pose proof (buf_blks _ _ Hv) as Hbk. rewrite El in Hbk.
  apply Forall_cons_1 in Hbk as [[? [? ?] _ _] _]. unfold PKTBUF_BLK_SIZE in *.
  eexists. split; [|split; [|split; [|split]]].
  - apply wp_result. unfold pktbuf_add_header.
    apply wp_bind. eapply wp_get_buf; [done|]. rewrite wp_bind, wp_assert, El. split; [done|].
    apply wp_bind, wp_acquire_head; [done|]. apply wp_bind, wp_wait_mem; [cbn; lia..|].
    apply wp_bind. eapply wp_get_buf; [done|]. rewrite El, wp_bind, wp_modify, wp_bind.
    rewrite (wrap_small 64 (blk_data k)) by lia.
    destruct (Z.leb_spec size (blk_data k)); [lia|]. unfold PKTBUF_BLK_SIZE.
    destruct (Z.ltb_spec 512 size); [|lia]. rewrite wp_ret, wp_ret. split; [done|reflexivity].
  - reflexivity.
  - cbn. rewrite (wrap_small 64) by lia. done.
  - reflexivity.
  - reflexivity.
Qed.
End spec.

(** ** The interface the modules above use *)

Section instance.
Context `{K : Kmalloc} `{KO : !KmallocOk} (b : Z).

(** Packet [b] through the interface. *)
#[export] Instance pktbuf_io : PacketIO pworld := {
  pkt_write := pktbuf_write b;
  pkt_read := pktbuf_read b
}.

Definition pktbuf_view (w : pworld) (f : flat) : Prop := ∃ v, ready w b v ∧ flat_of v = f.

#[export] Instance pktbuf_laws : PacketLaws (H := pktbuf_io) pktbuf_view.
Proof.
  split.
  - intros w c p src (v & (Hw & Hb & Hc) & [= <- <-]) Hby Hne Hle.
    pose proof (buf_total _ _ (wf_bufs _ Hw _ _ Hb)).
    eapply wp_write; [done..|lia|]. intros v' w' Hup Hl Ec Ep. split; [done|].
    exists v'. split; [by eapply ready_updated|]. unfold flat_of. by rewrite Ec, Ep.
  - intros w c p n (v & (Hw & Hb & Hc) & [= <- <-]) Hn Hle.
    pose proof (buf_total _ _ (wf_bufs _ Hw _ _ Hb)).
    eapply wp_read; [done..|lia|]. intros v' w' Hup Hl Ec Ep. split; [done|].
    exists v'. split; [by eapply ready_updated|]. unfold flat_of. by rewrite Ec, Ep.
  - intros w c p (v & (Hw & Hb & Hc) & [= <- <-]).
    pose proof (enter_facts b w v Hw Hb Hc) as (Hch & _ & Ht & Hp & Hm).
    split_and!; [lia|lia|lia|]. by apply content_bytes, (chain_blks _ Hch).
Qed.

(** The same with what a packet [v0] of [w0] keeps while its cursor works. *)
Definition pktbuf_from (w0 : pworld) (v0 : Pktbuf) (w : pworld) (f : flat) : Prop :=
  ∃ v, updated w0 b v w ∧ like v0 v ∧ flat_of v = f.

Lemma pktbuf_from_ready w0 v0 v w : updated w0 b v w → like v0 v → ready w b v.
Proof.
  intros (Hw & Eb & _) Hl. split_and!; [done| |apply Hl]. rewrite Eb. by rewrite lookup_insert_eq.
Qed.

Lemma pktbuf_from_laws w0 v0 : PacketLaws (H := pktbuf_io) (pktbuf_from w0 v0).
Proof.
  split.
  - intros w c p src (v & Hup & Hl & [= <- <-]) Hby Hne Hle.
    destruct (pktbuf_from_ready _ _ _ _ Hup Hl) as (Hw & Hb & Hc).
    pose proof (buf_total _ _ (wf_bufs _ Hw _ _ Hb)).
    eapply wp_write; [done..|lia|]. intros v' w' Hup' Hl' Ec Ep. split; [done|].
    exists v'. split_and!; [by eapply updated_trans|by eapply like_trans|].
    unfold flat_of. by rewrite Ec, Ep.
  - intros w c p n (v & Hup & Hl & [= <- <-]) Hn Hle.
    destruct (pktbuf_from_ready _ _ _ _ Hup Hl) as (Hw & Hb & Hc).
    pose proof (buf_total _ _ (wf_bufs _ Hw _ _ Hb)).
    eapply wp_read; [done..|lia|]. intros v' w' Hup' Hl' Ec Ep. split; [done|].
    exists v'. split_and!; [by eapply updated_trans|by eapply like_trans|].
    unfold flat_of. by rewrite Ec, Ep.
  - intros w c p (v & Hup & Hl & E).
    apply (pkt_view_ok (PacketLaws := pktbuf_laws) w). exists v. split; [|done].
    by eapply pktbuf_from_ready.
Qed.
End instance.

(** ** Concrete packets

    The module just initialised, over an allocator of zeroed blocks, after
    allocating one packet of 600 bytes and one of 40. *)

#[export] Instance zero_kmalloc : Kmalloc := { kmalloc_payload _ := Some (replicate 512 0) }.

#[export] Instance zero_kmalloc_ok : KmallocOk.
Proof.
  split. intros n. eexists. split; [reflexivity|]. split; [reflexivity|].
  apply Forall_replicate. unfold is_byte. lia.
Qed.

Definition empty_world : pworld := pktbuf_init (mk_world (mk_head 0 0 false []) ∅ 0).

Lemma empty_wf : wf empty_world.
Proof.
  split; cbn; try done; try lia; try apply NoDup_nil_2.
  - intros b. rewrite lookup_empty. split; [by intros ?%elem_of_nil|by intros [? ?]].
  - by intros b ?%elem_of_nil.
Qed.

(** The same with addresses from 100 on. *)
Definition demo_pk : pworld := mk_world (phead empty_world) ∅ 100.

Lemma demo_pk_wf : wf demo_pk.
Proof. destruct empty_wf as [? ? Hd ? ? ? ? ?]. split; try done. by intros b ?%elem_of_nil. Qed.

Definition result_world {A} (r : outcome (A * pworld)) : pworld :=
  match r with Ok (_, w) => w | _ => empty_world end.

Definition demo1 : pworld := Eval vm_compute in result_world (pktbuf_alloc 600 empty_world).
Definition demo2 : pworld := Eval vm_compute in result_world (pktbuf_alloc 40 demo1).

Definition packet (w : pworld) (b : Z) : Pktbuf :=
  default (mk_buf 0 [] 0 0 None 0 false) (bufs w !! b).

Lemma alloc_ready size w w' :
  wf w → 0 ≤ size → mem_size (phead w) + size ≤ max_mem_size (phead w) →
  pktbuf_alloc size w = Ok (brk w, w') → ready w' (brk w) (packet w' (brk w)).
Proof.
  intros Hw Hs Hm E.
  assert (wp (pktbuf_alloc size) w (λ b w', ready w' b (packet w' b))) as H.
  { eapply wp_alloc; [done..|]. intros v w1 Hw1 _ Eb _ _ Hcs _ _ _ _.
    assert (bufs w1 !! brk w = Some v) as Hb by (rewrite Eb; by rewrite lookup_insert_eq).
    unfold packet. rewrite Hb. split_and!; [done|done|]. apply cursor_start_ok; [|done].
    apply (wf_bufs _ Hw1 _ _ Hb). }
  unfold wp in H. by rewrite E in H.
Qed.

Lemma demo1_ready : ready demo1 0 (packet demo1 0).
Proof. apply (alloc_ready 600 empty_world); [apply empty_wf|lia|by vm_compute|by vm_compute]. Qed.

Lemma demo1_live : live demo1 0 (packet demo1 0).
Proof. split; apply demo1_ready. Qed.

Lemma demo2_ready : ready demo2 (brk demo1) (packet demo2 (brk demo1)).
Proof. apply (alloc_ready 40 demo1); [apply demo1_ready|lia|by vm_compute|by vm_compute]. Qed.

(** ** The theorems at concrete packets *)

Lemma pktbuf_cursor_refines_witness :
  ∃ w', run_cops 0 [CSeek 84; CWrite [1; 2; 3; 4; 5; 6]; CSeek 86; CRead 3; CWrite [];
                    CSeek 600; CFill 7 4; CRead 600; CRead 0] demo1
    = Ok ([(NET_OK, []); (NET_OK, []); (NET_OK, []); (NET_OK, [3; 4; 5]); (- E_NET_PARAM, []);
           (- E_NET_SIZE, []); (NET_OK, []); (- E_NET_SIZE, []); (NET_OK, [])], w') ∧
    history_left demo1 0 (packet demo1 0)
      ((splice (splice (replicate 600 0) 84 [1; 2; 3; 4; 5; 6]) 89 [7; 7; 7; 7], 93), true) w'.
Proof.
  pose proof (pktbuf_cursor_refines demo1 0 (packet demo1 0)
    [CSeek 84; CWrite [1; 2; 3; 4; 5; 6]; CSeek 86; CRead 3; CWrite []; CSeek 600; CFill 7 4; CRead 600; CRead 0]
    demo1_ready ltac:(forall_elems; cbn; try done; try (split; [unfold is_byte|]; lia))) as H.
  vm_compute (flat_run _ _) in H. exact H.
Defined.

Lemma pktbuf_add_header_spec_witness :
  ∃ v' w' hdr, pktbuf_add_header 0 20 true demo1 = Ok (NET_OK, w') ∧ updated demo1 0 v' w' ∧
    zlen hdr = 20 ∧ content v' = hdr ++ content (packet demo1 0) ∧
    (true → 0 < 20 → ∃ k l', pktblk_list v' = k :: l' ∧ 20 ≤ blk_size k).
Proof.
  apply (pktbuf_add_header_spec demo1 0 (packet demo1 0) 20 true);
    [apply demo1_live|by vm_compute|lia|by vm_compute|unfold PKTBUF_BLK_SIZE; lia|done].
Defined.

Lemma pktbuf_header_roundtrip_witness :
  ∃ v' w', (pktbuf_add_header 0 800 false;; pktbuf_remove_header 0 800) demo1 = Ok (NET_OK, w') ∧
    wf w' ∧ bufs w' = <[0 := v']> (bufs demo1) ∧ content v' = content (packet demo1 0).
Proof.
  apply (pktbuf_header_roundtrip demo1 0 (packet demo1 0) 800 false);
    [apply demo1_live|by vm_compute|lia|by vm_compute|done|].
  intros _ k l' E. vm_compute in E. injection E as <- _. right. reflexivity.
Defined.

Lemma pktbuf_resize_spec_witness :
  ∃ v' w' extra, pktbuf_resize 0 1300 demo1 = Ok (NET_OK, w') ∧ updated demo1 0 v' w' ∧
    zlen (content v') = 1300 ∧ content v' = take 1300 (content (packet demo1 0)) ++ extra.
Proof.
  apply (pktbuf_resize_spec demo1 0 (packet demo1 0) 1300);
    [apply demo1_live|lia|by vm_compute].
Defined.

Lemma pktbuf_set_cont_spec_witness :
  ∃ v' w' k l', pktbuf_set_cont 0 300 demo1 = Ok (NET_OK, w') ∧ updated demo1 0 v' w' ∧
    content v' = content (packet demo1 0) ∧ pktblk_list v' = k :: l' ∧ 300 ≤ blk_size k.
Proof.
  apply (pktbuf_set_cont_spec demo1 0 (packet demo1 0) 300);
    [apply demo1_live|by vm_compute|lia].
Defined.

Lemma pktbuf_join_spec_witness :
  ∃ v' w', pktbuf_join 0 (brk demo1) demo2 = Ok (NET_OK, w') ∧ wf w' ∧
    bufs w' = <[0 := v']> (delete (brk demo1) (bufs demo2)) ∧
    content v' = content (packet demo2 0) ++ content (packet demo2 (brk demo1)) ∧
    mem_size (phead w') = mem_size (phead demo2).
Proof.
  apply (pktbuf_join_spec demo2 0 (brk demo1));
    [done|split; [apply demo2_ready|reflexivity]|split; [apply demo2_ready|reflexivity]].
Defined.

Lemma pktbuf_alloc_free_witness :
  ∃ v w1 w2, pktbuf_alloc 1000 demo1 = Ok (brk demo1, w1) ∧ live w1 (brk demo1) v ∧
    bufs demo1 !! brk demo1 = None ∧ bufs w1 = <[brk demo1 := v]> (bufs demo1) ∧
    zlen (content v) = 1000 ∧ ref v = 1 ∧ pos v = 0 ∧
    mem_size (phead w1) = mem_size (phead demo1) + 1000 ∧
    pktbuf_free (brk demo1) w1 = Ok (tt, w2) ∧ wf w2 ∧ bufs w2 = bufs demo1 ∧
    mem_size (phead w2) = mem_size (phead demo1).
Proof. apply (pktbuf_alloc_free demo1 1000); [apply demo1_ready|lia|by vm_compute]. Defined.

Lemma pktbuf_checksum_spec_witness :
  ∃ r v' w', checksum16 0 (slice (content (packet demo1 0)) 0 600) 600 0 true = Ok r ∧
    pktbuf_checksum16 0 600 0 true demo1 = Ok (r, w') ∧ ready w' 0 v' ∧
    flat_of v' = (content (packet demo1 0), 0 + 600).
Proof.
  apply (pktbuf_checksum_spec demo1 0 (packet demo1 0) 600 0 true);
    [apply demo1_ready|vm_compute; split; [done|by intros ?]|lia|by vm_compute|lia].
Defined.

Lemma pktbuf_copy_spec_witness :
  ∃ d' s' w', pktbuf_copy (brk demo1) 0 40 demo2 = Ok (NET_OK, w') ∧ ready w' (brk demo1) d' ∧
    ready w' 0 s' ∧ flat_of s' = (content (packet demo2 0), 0 + 40) ∧
    flat_of d' = (splice (content (packet demo2 (brk demo1))) 0
      (slice (content (packet demo2 0)) 0 40), 0 + 40).
Proof.
  apply (pktbuf_copy_spec demo2 (brk demo1) 0 (packet demo2 (brk demo1)) (packet demo2 0) 40);
    [done|apply demo2_ready| |by vm_compute|by vm_compute].
  split_and!; [apply demo2_ready|reflexivity|].
  apply cursor_start_ok; [|reflexivity].
  apply (wf_bufs demo2 (proj1 demo2_ready) 0). reflexivity.
Defined.

Lemma pktbuf_read_short_keeps_lock_witness :
  ∃ w', pktbuf_read 0 601 demo1 = Ok ((- E_NET_SIZE, []), w') ∧
    bufs w' !! 0 = Some (set_blk_lock true (packet demo1 0)) ∧ pktbuf_seek 0 5 w' = Panic.
Proof.
  apply (pktbuf_read_short_keeps_lock demo1 0 (packet demo1 0) 601 5);
    [apply demo1_ready|by vm_compute].
Defined.

Lemma pktbuf_add_header_too_large_witness :
  ∃ w', pktbuf_add_header 0 513 true demo1 = Ok (- E_NET_SIZE, w') ∧ bufs w' = bufs demo1 ∧
    mem_size (phead w') = mem_size (phead demo1) + 513 ∧
    pktbuf_alloc 0 w' = Panic ∧ print_check_blkbuf_list w' = Panic.
Proof.
  eapply (pktbuf_add_header_too_large demo1 0 (packet demo1 0));
    [apply demo1_live|reflexivity|by vm_compute|by vm_compute].
Defined.

Lemma checksum_peso_spec_witness :
  ∃ r w', checksum_peso [192; 168; 1; 2] [192; 168; 1; 3] 6 0 demo1 = Ok (r, w') ∧ wf w' ∧
    let whole := [192; 168; 1; 2] ++ [192; 168; 1; 3] ++ [0; 6] ++ [2; 88] ++
                 content (packet demo1 0) in
    checksum16 0 whole (zlen whole) 0 true = Ok r.
Proof.
  apply (checksum_peso_spec demo1 0 (packet demo1 0) [192; 168; 1; 2] [192; 168; 1; 3] 6);
    [apply demo1_ready|forall_elems; unfold is_byte; lia|forall_elems; unfold is_byte; lia|done|done|
     unfold is_byte; lia|by vm_compute].
Defined.

Lemma demo1_view : pktbuf_view 0 demo1 (content (packet demo1 0), 0).
Proof. exists (packet demo1 0). split; [apply demo1_ready|reflexivity]. Qed.
