(* ===== verification/PktMem.v ===== *)
(** * Headers in packets

    What the protocols of the stack share: words in memory, pointers into a
    packet's first block as [pktbuf_data] of [net/pktbuf.h] gives them, and the
    bytes of a packet read and written through such a pointer. *)
From S2P Require Import Prelude Errors PacketIO Nettool Pktbuf PktbufOps PktbufCursor PktbufSpec.

(** ** Words in memory and in network order *)

Definition le16 (x : Z) : bytes := [x mod 256; x / 256 mod 256].
Definition le32 (x : Z) : bytes :=
  [x mod 256; x / 256 mod 256; x / 65536 mod 256; x / 16777216 mod 256].
Definition get_le (l : bytes) (off n : Z) : Z := foldr (λ b acc, b + 256 * acc) 0 (slice l off n).

Definition be16 (x : Z) : bytes := [x / 256 mod 256; x mod 256].
Definition be32 (x : Z) : bytes :=
  [x / 16777216 mod 256; x / 65536 mod 256; x / 256 mod 256; x mod 256].

Lemma byte_mod x : is_byte (x mod 256).
Proof. apply Z.mod_pos_bound. lia. Qed.

Lemma le16_value x : 0 ≤ x < 2 ^ 16 → x mod 256 + 256 * (x / 256 mod 256) = x.
Proof.
  intros Hx. rewrite (Z.mod_small (x / 256)).
  - pose proof (Z.div_mod x 256). lia.
  - split; [by apply Z.div_pos; lia|apply Z.div_lt_upper_bound; lia].
Qed.

Lemma le32_value x : 0 ≤ x < 2 ^ 32 →
  x mod 256 + 256 * (x / 256 mod 256 + 256 * (x / 65536 mod 256 + 256 * (x / 16777216 mod 256))) = x.
Proof.
  intros Hx. change 65536 with (256 * 256). change 16777216 with (256 * 256 * 256).
  rewrite <- !Z.div_div by lia. rewrite (Z.mod_small (x / 256 / 256 / 256)).
  - pose proof (Z.div_mod x 256). pose proof (Z.div_mod (x / 256) 256).
    pose proof (Z.div_mod (x / 256 / 256) 256). lia.
  - split; [repeat apply Z.div_pos; lia|]. rewrite !Z.div_div by lia.
    apply Z.div_lt_upper_bound; lia.
Qed.

Lemma le16_swap x : 0 ≤ x < 2 ^ 16 → le16 (swap_u16 x) = be16 x.
Proof.
  intros Hx. unfold le16, be16. rewrite swap_u16_eq by done.
  pose proof (byte_mod x) as [? ?].
  assert (0 ≤ x / 256 < 256) by (split; [by apply Z.div_pos; lia|apply Z.div_lt_upper_bound; lia]).
  rewrite (Z.mod_small (x / 256)) by lia.
  rewrite Z.add_comm, Z_mod_plus_full, Z.mod_small, Z.div_add, (Z.div_small (x / 256)) by lia.
  rewrite Z.mod_small by lia. done.
Qed.

Lemma le32_bytes b0 b1 b2 b3 :
  is_byte b0 → is_byte b1 → is_byte b2 → is_byte b3 →
  le32 (b0 + 256 * (b1 + 256 * (b2 + 256 * b3))) = [b0; b1; b2; b3].
Proof.
  unfold is_byte. intros H0 H1 H2 H3. unfold le32. set (v := b0 + _).
  assert (v / 256 = b1 + 256 * (b2 + 256 * b3)) as E1
    by (symmetry; apply (Z.div_unique_pos _ _ _ b0); unfold v; lia).
  assert (v / 65536 = b2 + 256 * b3) as E2
    by (symmetry; apply (Z.div_unique_pos _ _ _ (b0 + 256 * b1)); unfold v; lia).
  assert (v / 16777216 = b3) as E3
    by (symmetry; apply (Z.div_unique_pos _ _ _ (b0 + 256 * (b1 + 256 * b2))); unfold v; lia).
  rewrite E1, E2, E3. unfold v. rewrite !(Z.mul_comm 256), !Z_mod_plus_full.
  by rewrite !Z.mod_small by lia.
Qed.

Lemma le32_swap x : 0 ≤ x < 2 ^ 32 → le32 (swap_u32 x) = be32 x.
Proof.
  intros Hx. destruct (u32_bytes x Hx) as (b0 & b1 & b2 & b3 & H0 & H1 & H2 & H3 & ->).
  rewrite swap_u32_bytes, le32_bytes by done.
  pose proof (le32_bytes b0 b1 b2 b3 H0 H1 H2 H3) as E. unfold le32 in E. unfold be32.
  by injection E as -> -> -> ->.
Qed.

Lemma le_bytes16 x : Forall is_byte (le16 x).
Proof. unfold le16. forall_elems; apply byte_mod. Qed.
Lemma le_bytes32 x : Forall is_byte (le32 x).
Proof. unfold le32. forall_elems; apply byte_mod. Qed.

Lemma get_le16 l pre x post n :
  n = zlen pre → 0 ≤ x < 2 ^ 16 → l = pre ++ le16 x ++ post → get_le l n 2 = x.
Proof.
  intros -> Hx ->. unfold get_le, slice. rewrite drop_app_length' by lia. change (Z.to_nat 2) with 2%nat.
  cbn -[Z.mul Z.add]. by rewrite Z.mul_0_r, Z.add_0_r, le16_value.
Qed.

Lemma get_le32 l pre x post n :
  n = zlen pre → 0 ≤ x < 2 ^ 32 → l = pre ++ le32 x ++ post → get_le l n 4 = x.
Proof.
  intros -> Hx ->. unfold get_le, slice. rewrite drop_app_length' by lia. change (Z.to_nat 4) with 4%nat.
  cbn -[Z.mul Z.add]. by rewrite Z.mul_0_r, Z.add_0_r, le32_value.
Qed.

Lemma get_le_range l off n : Forall is_byte l → 0 ≤ get_le l off n < 256 ^ Z.max 0 n.
Proof.
  intros Hl. unfold get_le.
  assert (∀ l, Forall is_byte l →
    0 ≤ foldr (λ b acc, b + 256 * acc) 0 l < 256 ^ zlen l) as Hf.
  { clear. induction 1 as [|b l Hb _ IH]; cbn [foldr length]; [cbn; lia|].
    rewrite Nat2Z.inj_succ, Z.pow_succ_r by lia. unfold is_byte in Hb. lia. }
  destruct (Hf (slice l off n)) as [H0 H1]; [by apply slice_bytes|]. split; [done|].
  eapply Z.lt_le_trans; [exact H1|]. apply Z.pow_le_mono_r; [lia|].
  unfold slice. rewrite length_take. lia.
Qed.

(** The checksum computed over a zeroed field, stored there, verifies. *)
Lemma checksum_fills before after c n :
  Forall is_byte before → Forall is_byte after → Z.Even (zlen before) →
  n = zlen before + 2 + zlen after ∧ n < 65536 →
  checksum16 0 (before ++ le16 0 ++ after) n 0 true = Ok c →
  0 ≤ c < 2 ^ 16 ∧ checksum16 0 (before ++ le16 c ++ after) n 0 true = Ok 0.
Proof.
  intros Hb Ha He [-> Hn] Hc. assert (0 ≤ c < 2 ^ 16) as Hcr.
  { eapply checksum16_range; [| | |exact Hc]; [|rewrite !length_app; cbn; lia|lia].
    apply Forall_app; split; [done|]. apply Forall_app; split; [apply le_bytes16|done]. }
  split; [done|]. unfold le16. rewrite (Z.mod_small (c / 256)).
  - by apply checksum16_verifies.
  - split; [apply Z.div_pos; lia|apply Z.div_lt_upper_bound; lia].
Qed.

(** Words of the first bytes of a buffer. *)
Lemma get_le_head l m off n :
  0 ≤ off → 0 ≤ n → off + n ≤ m → get_le (slice l 0 m) off n = get_le l off n.
Proof.
  intros ???. unfold get_le, slice. change (Z.to_nat 0) with 0%nat. rewrite drop_0.
  rewrite skipn_firstn_comm, take_take. do 2 f_equal. lia.
Qed.

(** ** Pointers into packets *)

(** A pointer into the payload of a packet's block. *)
Record bptr := mk_ptr { p_buf : Z; p_blk : Z; p_off : Z }.

(** [pktbuf_data]: the data of the first block; null for an empty packet. *)
Definition pktbuf_data (b : Z) : M pworld (option bptr) :=
  v ← get_buf b;
  match pktblk_list v with
  | [] => mret None
  | k :: _ => mret (Some (mk_ptr b (blk_id k) (blk_data k)))
  end.

(** Memory through such a pointer; a block freed meanwhile is not there. *)
Definition mem_load (p : bptr) (off n : Z) : M pworld bytes :=
  v ← get_buf (p_buf p);
  k ← of_option (find_blk (p_blk p) v);
  of_option (mem_read (blk_payload k) (p_off p + off) n).

Definition mem_store (p : bptr) (off : Z) (bs : bytes) : M pworld unit :=
  v ← get_buf (p_buf p);
  k ← of_option (find_blk (p_blk p) v);
  d ← of_option (mem_write (blk_payload k) (p_off p + off) bs);
  put_buf (p_buf p) (set_blks
    (map (λ k', if blk_id k' =? p_blk p then set_blk_payload d k' else k') (pktblk_list v)) v).

(** The pointer is dereferenced, so it is not null. *)
Definition hdr_ptr (b : Z) : M pworld bptr := o ← pktbuf_data b; of_option o.

(** ** The head of a packet *)

(** [p] points to the data of the first block of packet [b], and the header, of
    [n] bytes, is in that block. *)
Definition head_at (n b : Z) (v : Pktbuf) (p : bptr) : Prop :=
  p_buf p = b ∧ ∃ k r, pktblk_list v = k :: r ∧
    p_blk p = blk_id k ∧ p_off p = blk_data k ∧ n ≤ blk_size k.

Definition owns_head (n : Z) (w : pworld) (b : Z) (v : Pktbuf) (p : bptr) : Prop :=
  live w b v ∧ head_at n b v p.

Lemma header_windows n b v v' p :
  head_at n b v p → map window (pktblk_list v') = map window (pktblk_list v) → head_at n b v' p.
Proof.
  intros (Eb & k & r & El & E1 & E2 & Hs) Hwi. rewrite El in Hwi.
  destruct (pktblk_list v') as [|k' r'] eqn:El'; [done|]. injection Hwi as H1 H2 H3 H4.
  split; [done|]. exists k', r'. split_and!; try done; congruence.
Qed.

Lemma header_grown n b v v' p :
  head_at n b v p → head_kept (pktblk_list v) (pktblk_list v') → head_at n b v' p.
Proof.
  intros (Eb & k & r & El & E1 & E2 & Hs). rewrite El. intros (k' & r' & El' & H1 & H2 & H3).
  split; [done|]. exists k', r'. split_and!; try done; [congruence..|lia].
Qed.

Lemma owns_updated n w b v' p w' : updated w b v' w' → head_at n b v' p → owns_head n w' b v' p.
Proof.
  intros (Hw' & Eb & _) Hh. split; [|done]. split; [done|]. rewrite Eb. by rewrite lookup_insert_eq.
Qed.

(** A packet seen from the start of its first block. *)
Lemma owns_start n w b v p :
  owns_head n w b v p → ∃ k r, pktblk_list v = k :: r ∧ chain_ok v ∧ blk_ok k ∧
    find_blk (p_blk p) v = Some k ∧ p_blk p = blk_id k ∧ p_off p = blk_data k ∧
    n ≤ blk_size k ∧ total_size v = zlen (content v).
Proof.
  intros ((Hw & Hb) & Eb & k & r & El & E1 & E2 & Hs). exists k, r.
  pose proof (wf_bufs _ Hw _ _ Hb) as Hv. pose proof (buf_chain _ _ Hv) as Hch.
  split_and!; try done.
  - pose proof (chain_blks _ Hch) as Hbl. rewrite El in Hbl. by apply Forall_cons_1 in Hbl as [? _].
  - rewrite E1. by apply (find_blk_at v [] k r).
  - apply (buf_total _ _ Hv).
Qed.

(** The cursor at the start of the first block. *)
Definition at_start (v : Pktbuf) (k : Pktblk) : Pktbuf :=
  set_cursor 0 (Some (blk_id k)) (blk_data k) v.

(** A cursor stays good while the blocks' windows stay. *)
Lemma content_len_windows l l' :
  Forall blk_ok l → Forall blk_ok l' → map window l = map window l' →
  zlen (content_of l) = zlen (content_of l').
Proof.
  intros Hl. revert l'. induction Hl as [|k l Hk _ IH]; intros [|k' l'] Hl' E; try done.
  cbn [map] in E. injection E as _ _ Es E. apply Forall_cons_1 in Hl' as [Hk' Hl'].
  rewrite !content_cons, !length_app. specialize (IH l' Hl' E).
  pose proof (blk_bytes_len _ Hk). pose proof (blk_bytes_len _ Hk'). lia.
Qed.

Lemma cursor_windows v v' :
  Forall blk_ok (pktblk_list v) → Forall blk_ok (pktblk_list v') →
  map window (pktblk_list v) = map window (pktblk_list v') →
  cur_blk v' = cur_blk v → blk_offset v' = blk_offset v → pos v' = pos v →
  cursor_ok v → cursor_ok v'.
Proof.
  intros Hv Hv' E Ec Eo Ep (l1 & l2 & El & Hc). rewrite El in *. rewrite map_app in E.
  symmetry in E. apply map_eq_app in E as (m1 & m2 & Em & E1 & E2). rewrite Em in *.
  apply Forall_app in Hv as [Hv1 _]. apply Forall_app in Hv' as [Hv1' _].
  exists m1, m2. split; [done|]. pose proof (content_len_windows _ _ Hv1' Hv1 E1) as Hlen.
  destruct l2 as [|k l2], m2 as [|k' m2]; try done.
  - destruct Hc as [Hc Hp]. by rewrite Ec, Ep, Hlen.
  - cbn [map] in E2. injection E2 as Ei Ed Es _. destruct Hc as (Hc & Ho & Hp).
    rewrite Ec, Eo, Ep, Hlen, Ei, Ed, Es. done.
Qed.

(** Memory of the head, read and written. *)
Lemma wp_head_load n p off m b w v (Q : bytes → pworld → Prop) :
  owns_head n w b v p → 0 ≤ off < n → 0 ≤ m → off + m ≤ n →
  Q (slice (content v) off m) w → wp (mem_load p off m) w Q.
Proof.
  intros Ho Hoff Hm Hn HQ.
  destruct (owns_start n w b v p Ho) as (k & r & El & Hch & Hk & Ef & Ei & Eo & Hs & _).
  destruct Ho as ((Hw & Hb) & Ep & _). unfold mem_load. rewrite Ep.
  apply wp_bind. eapply wp_get_buf; [done|]. rewrite Ef. cbn [of_option].
  rewrite wp_bind, wp_ret. pose proof Hk as [? [? ?] ? _]. unfold PKTBUF_BLK_SIZE in *.
  rewrite mem_read_eq by lia. cbn [of_option]. rewrite wp_ret.
  assert (take (Z.to_nat m) (drop (Z.to_nat (p_off p + off)) (blk_payload k))
    = slice (content v) off m) as ->; [|done].
  rewrite Eo. change (content v) with (content (set_cursor off (Some (blk_id k)) (blk_data k + off) v)).
  apply (slice_in_blk (set_cursor off (Some (blk_id k)) (blk_data k + off) v) [] k r);
    [by destruct Hch; split|done|cbn; lia..].
Qed.

Lemma wp_head_store n p off bs b w v (Q : unit → pworld → Prop) :
  owns_head n w b v p → 0 ≤ off < n → off + zlen bs ≤ n → Forall is_byte bs →
  (∀ v' w', updated w b v' w' → head_at n b v' p → ref v' = ref v →
     total_size v' = total_size v → content v' = splice (content v) off bs →
     (cursor_ok v → like v v') → pos v' = pos v → Q tt w') →
  wp (mem_store p off bs) w Q.
Proof.
  intros Ho Hoff Hn Hbs HQ.
  destruct (owns_start n w b v p Ho) as (k & r & El & Hch & Hk & Ef & Ei & Eo & Hs & Et).
  destruct Ho as ((Hw & Hb) & Hh). pose proof Hh as (Ep & _).
  unfold mem_store. rewrite Ep.
  apply wp_bind. eapply wp_get_buf; [done|]. rewrite Ef. cbn [of_option].
  rewrite wp_bind, wp_ret, Eo. set (vc := set_cursor off (Some (blk_id k)) (blk_data k + off) v).
  destruct (write_in_blk vc [] k r bs) as (d & Ed & Hk' & Ec);
    [by destruct Hch; split|done|cbn; lia..|done|].
  change (blk_offset vc) with (blk_data k + off) in Ed. rewrite Ed. cbn [of_option].
  rewrite wp_bind, wp_ret. apply wp_put_buf.
  rewrite El, Ei. pose proof (chain_ids _ Hch) as Hnd. unfold blk_ids in Hnd. rewrite El in Hnd.
  pose proof (map_update_at (set_blk_payload d) [] k r Hnd) as Em. cbn [app] in Em. rewrite Em.
  set (v' := set_blks (set_blk_payload d k :: r) v).
  assert (content v' = splice (content v) off bs) as Ec' by exact Ec.
  assert (Forall blk_ok (pktblk_list v)) as Hbl by apply Hch.
  assert (Forall blk_ok (pktblk_list v')) as Hbl'.
  { unfold v'. rewrite blks_set_blks, El in *. apply Forall_cons_1 in Hbl as [_ ?]. by constructor. }
  assert (map window (pktblk_list v') = map window (pktblk_list v)) as Hwin
    by (unfold v'; by rewrite blks_set_blks, El).
  apply (HQ v'); try done.
  3: { intros Hcur. split; try done.
    - unfold blk_ids, v'. by rewrite blks_set_blks, El.
    - by apply content_len_windows.
    - by apply (cursor_windows v v'). }
  - destruct w as [[mx m lk l] bs0 n0]. pose proof (wf_unlocked _ Hw) as Hl. cbn in Hl, Hb. subst lk.
    pose proof (wf_bufs _ Hw b v Hb) as [Hv1 Hv2 Hv3 Hv4 Hv5 Hv6].
    pose proof (wf_max _ Hw) as Hmax. cbn in Hmax, Hv3.
    assert (zlen (content v') = zlen (content v)) as El'.
    { rewrite Ec', splice_length; [done|lia|]. unfold content. rewrite El, content_cons, length_app. pose proof (blk_bytes_len _ Hk). lia. }
    split_and!; [|done|done|done]. rewrite on_bufs_mk.
    assert (blk_ids v' = blk_ids v) as Eids by (unfold blk_ids, v'; by rewrite blks_set_blks, El).
    replace m with (m - total_size v + total_size v') by (cbn; lia).
    apply (wf_update _ _ _ _ n0); [done|done|lia| |by rewrite Eids; auto|cbn; lia].
    split; rewrite ?Eids; try done. change (total_size v') with (total_size v). lia.
  - by apply (header_windows n b v).
Qed.

Lemma wp_hdr_ptr n b v p pk (Q : bptr → pworld → Prop) :
  owns_head n pk b v p → Q p pk → wp (hdr_ptr b) pk Q.
Proof.
  intros ((Hw & Hb) & Eb & k & r & El & E1 & E2 & _) HQ. unfold hdr_ptr, pktbuf_data.
  apply wp_bind, wp_bind. eapply wp_get_buf; [done|]. rewrite El, wp_ret.
  cbn [of_option]. rewrite wp_ret. destruct p as [pb pi po]. cbn in *. by subst.
Qed.

