(* ===== verification/TcpBuf.v ===== *)
(** * TCP stream buffers: [net/tcp_buf.c], [net/tcp_buf.h]

    A ring of bytes.  Its operations are those of a queue of bounded length, and
    the transfers to and from packets go through the packet interface. *)
From S2P Require Import Prelude Errors PacketIO Nettool Pktbuf PktbufOps PktbufCursor PktbufSpec.

Record Tcp_buf := mk_tbuf {
  tb_count : Z;
  tb_in : Z;
  tb_out : Z;
  tb_size : Z;
  tb_data : bytes
}.

Definition tcp_buf_init (data : bytes) (size : Z) : Tcp_buf := mk_tbuf 0 0 0 size data.

Definition tcp_buf_size (b : Tcp_buf) : Z := tb_size b.
Definition tcp_buf_cnt (b : Tcp_buf) : Z := tb_count b.

Definition tcp_buf_free_cnt {S} (b : Tcp_buf) : M S Z :=
  assert_ (tb_count b <=? tb_size b);; mret (tb_size b - tb_count b).

(** [buffer] is the caller's memory from the pointer it passes on. *)
Definition tcp_buf_write_send (buffer : bytes) (len : Z) : M Tcp_buf unit :=
  loop (S (Z.to_nat len)) (λ '(buffer, len),
    if len <=? 0 then mret (inr tt) else
    x ← of_option (head buffer);
    b ← gets id;
    data ← of_option (zset (tb_data b) (tb_in b) x);
    let in_ := u64 (tb_in b + 1) in
    modify (λ _, mk_tbuf (u64 (tb_count b + 1)) (if tb_size b <=? in_ then 0 else in_)
                   (tb_out b) (tb_size b) data);;
    mret (inl (tail buffer, len - 1))) (buffer, len).

Definition tcp_buf_remove (cnt : Z) : M Tcp_buf Z :=
  b ← gets id;
  let cnt := if tb_count b <? cnt then tb_count b else cnt in
  let out := u64 (tb_out b + cnt) in
  modify (λ _, mk_tbuf (u64 (tb_count b - cnt)) (tb_in b)
    (if tb_size b <=? out then u64 (out - tb_size b) else out) (tb_size b) (tb_data b));;
  mret cnt.

(** The bytes stored to the caller's buffer are returned. *)
Definition tcp_buf_read_rcv (size : Z) : M Tcp_buf (Z * bytes) :=
  b ← gets id;
  let total := if tb_count b <? size then tb_count b else size in
  buf ← loop (S (Z.to_nat total)) (λ '(curr_size, buf),
    if total <=? curr_size then mret (inr buf) else
    b ← gets id;
    x ← of_option (zlookup (tb_data b) (tb_out b));
    let out := u64 (tb_out b + 1) in
    modify (λ _, mk_tbuf (u64 (tb_count b - 1)) (tb_in b)
      (if tb_size b <=? out then 0 else out) (tb_size b) (tb_data b));;
    mret (inl (curr_size + 1, buf ++ [x]))) (0, []);
  mret (total, buf).

Section transfer.
Context {W : Type} `{P : !PacketIO W}.

Definition tbuf_of (s : Tcp_buf * W) : Tcp_buf := fst s.
Definition set_tbuf (b : Tcp_buf) (s : Tcp_buf * W) : Tcp_buf * W := (b, snd s).
Definition on_packet {A} (m : M W A) : M (Tcp_buf * W) A :=
  zoom snd (λ w s, (fst s, w)) m.

Definition tcp_buf_read_send (offset count : Z) : M (Tcp_buf * W) unit :=
  b ← gets tbuf_of;
  let free_for_us := u64 (tb_count b - offset) in
  let count := if free_for_us <? count then free_for_us else count in
  let start := u64 (tb_out b + offset) in
  let start := if tb_size b <=? start then u64 (start - tb_size b) else start in
  loop (S (Z.to_nat count)) (λ '(start, count),
    if count <=? 0 then mret (inr tt) else
    let end_ := u64 (start + count) in
    let end_ := if tb_size b <=? end_ then tb_size b else end_ in
    let copy_size := u64 (end_ - start) in
    d ← of_option (mem_read (tb_data b) start copy_size);
    r ← on_packet (pkt_write d);
    assert_ (0 <=? r);;
    let start := u64 (start + copy_size) in
    mret (inl (if tb_size b <=? start then u64 (start - tb_size b) else start,
               u64 (count - copy_size)))) (start, count).

Definition tcp_buf_write_rcv (offset total : Z) : M (Tcp_buf * W) Z :=
  b ← gets tbuf_of;
  let start := u64 (tb_in b + offset) in
  let start := if tb_size b <=? start then u64 (start - tb_size b) else start in
  f ← tcp_buf_free_cnt b;
  let free_size := u64 (f - offset) in
  let total := if free_size <? total then free_size else total in
  start ← loop (S (Z.to_nat total)) (λ '(start, size),
    if size <=? 0 then mret (inr start) else
    b ← gets tbuf_of;
    let free_to_end := u64 (tb_size b - start) in
    let curr_copy := if free_to_end <? size then free_to_end else size in
    '(_, d) ← on_packet (pkt_read curr_copy);
    data ← of_option (mem_write (tb_data b) start d);
    modify (set_tbuf (mk_tbuf (u64 (tb_count b + curr_copy)) (tb_in b) (tb_out b) (tb_size b) data));;
    let start := u64 (start + curr_copy) in
    mret (inl (if tb_size b <=? start then u64 (start - tb_size b) else start,
               u64 (size - curr_copy)))) (start, total);
  b ← gets tbuf_of;
  modify (set_tbuf (mk_tbuf (tb_count b) start (tb_out b) (tb_size b) (tb_data b)));;
  mret total.
End transfer.

(** ** The queue a ring holds *)

Definition queue (b : Tcp_buf) : bytes :=
  take (Z.to_nat (tb_count b))
    (drop (Z.to_nat (tb_out b)) (tb_data b) ++ take (Z.to_nat (tb_out b)) (tb_data b)).

(** The index [i] places after a position of the ring. *)
Definition widx (s i : Z) : Z := if i <? s then i else i - s.

Record tbuf_ok (b : Tcp_buf) : Prop := {
  tb_pos : 0 < tb_size b < 2 ^ 62;
  tb_len : zlen (tb_data b) = tb_size b;
  tb_cnt_ok : 0 ≤ tb_count b ≤ tb_size b;
  tb_out_ok : 0 ≤ tb_out b < tb_size b;
  tb_in_ok : tb_in b = widx (tb_size b) (tb_out b + tb_count b);
  tb_bytes : Forall is_byte (tb_data b)
}.

Lemma queue_length b : tbuf_ok b → zlen (queue b) = tb_count b.
Proof.
  intros []. unfold queue. rewrite length_take, length_app, length_drop, length_take. lia.
Qed.

Lemma queue_lookup b i :
  tbuf_ok b → 0 ≤ i →
  queue b !! Z.to_nat i =
    if i <? tb_count b then tb_data b !! Z.to_nat (widx (tb_size b) (tb_out b + i)) else None.
Proof.
  intros [Hp Hl Hc Ho _ _] Hi. unfold queue, widx.
  destruct (Z.ltb_spec i (tb_count b)).
  - rewrite lookup_take_lt by lia. destruct (Z.ltb_spec (tb_out b + i) (tb_size b)).
    + rewrite lookup_app_l by (rewrite length_drop; lia). rewrite lookup_drop. f_equal. lia.
    + rewrite lookup_app_r by (rewrite length_drop; lia). rewrite length_drop.
      rewrite lookup_take_lt by lia. f_equal. lia.
  - apply lookup_take_ge. lia.
Qed.

(** Lists compared at the indices of the model. *)
Lemma list_eq_Z {A} (l1 l2 : list A) :
  (∀ i, 0 ≤ i → l1 !! Z.to_nat i = l2 !! Z.to_nat i) → l1 = l2.
Proof. intros H. apply list_eq. intros i. specialize (H (Z.of_nat i)). rewrite Nat2Z.id in H. apply H. lia. Qed.

Lemma mem_write_lookup (l l' : bytes) off bs i :
  mem_write l off bs = Some l' → 0 ≤ i →
  l' !! Z.to_nat i = if (off <=? i) && (i <? off + zlen bs) then bs !! Z.to_nat (i - off)
                     else l !! Z.to_nat i.
Proof.
  intros H Hi. unfold mem_write in H.
  destruct (Z.leb_spec 0 off), (Z.leb_spec (off + zlen bs) (zlen l)); try done.
  cbn in H. injection H as <-.
  assert (length (take (Z.to_nat off) l) = Z.to_nat off) as Ht by (rewrite length_take; lia).
  destruct (Z.leb_spec off i); cbn [andb].
  - rewrite lookup_app_r by lia. rewrite Ht.
    destruct (Z.ltb_spec i (off + zlen bs)).
    + rewrite lookup_app_l by lia. f_equal. lia.
    + rewrite lookup_app_r by lia. rewrite lookup_drop. f_equal. lia.
  - rewrite lookup_app_l by lia. apply lookup_take_lt. lia.
Qed.

(** Bytes stored at the ring's end, without wrapping, are appended to the queue. *)
Lemma queue_push b bs data in' :
  tbuf_ok b → zlen bs ≤ tb_size b - tb_count b → tb_in b + zlen bs ≤ tb_size b →
  Forall is_byte bs → mem_write (tb_data b) (tb_in b) bs = Some data →
  in' = widx (tb_size b) (tb_in b + zlen bs) →
  let b' := mk_tbuf (tb_count b + zlen bs) in' (tb_out b) (tb_size b) data in
  tbuf_ok b' ∧ queue b' = queue b ++ bs.
Proof.
  intros Hok Hfree Hend Hby Hw -> b'. pose proof Hok as [Hp Hl Hc Ho Hin Hb].
  assert (tbuf_ok b') as Hok'.
  { split; cbn; try done; try lia.
    - rewrite <- Hl. f_equal. by apply (mem_write_length _ _ _ _ Hw).
    - rewrite Hin in *. unfold widx in *. destruct (Z.ltb_spec (tb_out b + tb_count b) (tb_size b)).
      + by rewrite Z.add_assoc.
      + destruct (Z.ltb_spec (tb_out b + (tb_count b + zlen bs)) (tb_size b)); [lia|].
        destruct (Z.ltb_spec (tb_out b + tb_count b - tb_size b + zlen bs) (tb_size b)); lia.
    - by apply (mem_write_Forall _ _ _ _ _ Hw). }
  split; [done|]. apply list_eq_Z. intros i Hi.
  pose proof (queue_length b Hok) as Hql.
  rewrite (queue_lookup b') by done. cbn [tb_count tb_data tb_size tb_out b'].
  rewrite Hin in *. unfold widx in *.
  assert (0 ≤ (if tb_out b + i <? tb_size b then tb_out b + i else tb_out b + i - tb_size b)) as Hw0
    by (destruct (Z.ltb_spec (tb_out b + i) (tb_size b)); lia).
  rewrite (mem_write_lookup _ _ _ _ _ Hw) by exact Hw0.
  destruct (Z.ltb_spec i (tb_count b)) as [Hlt|Hge].
  - rewrite lookup_app_l by lia. rewrite (queue_lookup b) by done. unfold widx.
    rewrite (proj2 (Z.ltb_lt i (tb_count b))) by done.
    rewrite (proj2 (Z.ltb_lt i _)) by lia.
    replace (_ && _) with false; [done|]. symmetry. apply andb_false_iff.
    rewrite Z.leb_gt, Z.ltb_ge.
    destruct (Z.ltb_spec (tb_out b + i) (tb_size b)),
      (Z.ltb_spec (tb_out b + tb_count b) (tb_size b)); lia.
  - rewrite lookup_app_r by lia.
    destruct (Z.ltb_spec i (tb_count b + zlen bs)) as [Hlt'|Hge'].
    + replace (_ && _) with true.
      * f_equal. destruct (Z.ltb_spec (tb_out b + i) (tb_size b)),
          (Z.ltb_spec (tb_out b + tb_count b) (tb_size b)); lia.
      * symmetry. apply andb_true_iff. rewrite Z.leb_le, Z.ltb_lt.
        destruct (Z.ltb_spec (tb_out b + i) (tb_size b)),
          (Z.ltb_spec (tb_out b + tb_count b) (tb_size b)); lia.
    + symmetry. apply lookup_ge_None_2. lia.
Qed.

(** Moving the start of the ring drops from the front of the queue. *)
Lemma queue_pop b n out' :
  tbuf_ok b → 0 ≤ n ≤ tb_count b → out' = widx (tb_size b) (tb_out b + n) →
  let b' := mk_tbuf (tb_count b - n) (tb_in b) out' (tb_size b) (tb_data b) in
  tbuf_ok b' ∧ queue b' = drop (Z.to_nat n) (queue b).
Proof.
  intros Hok Hn -> b'. pose proof Hok as [Hp Hl Hc Ho Hin Hb]. unfold widx in *.
  assert (tbuf_ok b') as Hok'.
  { split; cbn; try done; try lia.
    - destruct (Z.ltb_spec (tb_out b + n) (tb_size b)); lia.
    - rewrite Hin. unfold widx.
      zcases; lia. }
  split; [done|]. apply list_eq_Z. intros i Hi. rewrite lookup_drop.
  replace (Z.to_nat n + Z.to_nat i)%nat with (Z.to_nat (n + i)) by lia.
  rewrite !queue_lookup by (done || lia). cbn [tb_count tb_data tb_size tb_out b']. unfold widx.
  zcases;
    try lia; try done; f_equal; lia.
Qed.

(** A stretch of the ring that does not wrap is a stretch of the queue. *)
Lemma queue_slice b off n :
  tbuf_ok b → 0 ≤ off → 0 ≤ n → off + n ≤ tb_count b →
  let start := widx (tb_size b) (tb_out b + off) in
  start + n ≤ tb_size b →
  mem_read (tb_data b) start n = Some (slice (queue b) off n).
Proof.
  intros Hok Hoff Hn Hle start Hend. pose proof Hok as [Hp Hl Hc Ho Hin Hb].
  assert (0 ≤ start) as Hs0
    by (unfold start, widx; destruct (Z.ltb_spec (tb_out b + off) (tb_size b)); lia).
  rewrite mem_read_eq by lia. f_equal. unfold slice. apply list_eq_Z. intros i Hi.
  destruct (Z.ltb_spec i n).
  - rewrite !lookup_take_lt by lia. rewrite !lookup_drop.
    replace (Z.to_nat off + Z.to_nat i)%nat with (Z.to_nat (off + i)) by lia.
    rewrite queue_lookup by (done || lia). rewrite (proj2 (Z.ltb_lt (off + i) _)) by lia.
    f_equal. unfold start, widx in *.
    repeat match goal with
      | |- context [?x <? ?y] => destruct (Z.ltb_spec x y)
      | H : context [?x <? ?y] |- _ => destruct (Z.ltb_spec x y) end; lia.
  - by rewrite !lookup_take_ge by lia.
Qed.

Lemma head_tail (l : bytes) n : 0 < n ≤ zlen l → ∃ x r, l = x :: r.
Proof. destruct l as [|x r]; [cbn; lia|eauto]. Qed.

Lemma wp_write_send buffer len b (Q : unit → Tcp_buf → Prop) :
  tbuf_ok b → 0 ≤ len ≤ zlen buffer → Forall is_byte buffer → len ≤ tb_size b - tb_count b →
  (∀ b', tbuf_ok b' → tb_size b' = tb_size b → queue b' = queue b ++ take (Z.to_nat len) buffer →
     Q tt b') →
  wp (tcp_buf_write_send buffer len) b Q.
Proof.
  intros Hok Hl Hby Hfree HQ. unfold tcp_buf_write_send.
  apply (wp_loop _ (λ '(rest, n) b', tbuf_ok b' ∧ tb_size b' = tb_size b ∧ 0 ≤ n ≤ len ∧
      rest = drop (Z.to_nat (len - n)) buffer ∧ tb_count b' = tb_count b + (len - n) ∧
      queue b' = queue b ++ take (Z.to_nat (len - n)) buffer) (λ '(_, n) _, Z.to_nat n)).
  - intros [rest n] b' (Hok' & Hs & Hn & -> & Hc & Hq).
    destruct (Z.leb_spec n 0).
    { rewrite wp_ret. replace n with 0 in * by lia. rewrite Z.sub_0_r in *. by apply HQ. }
    assert (zlen (drop (Z.to_nat (len - n)) buffer) = zlen buffer - (len - n)) as Hd
      by (rewrite length_drop; lia).
    destruct (head_tail (drop (Z.to_nat (len - n)) buffer) n) as (x & r & E); [lia|].
    rewrite E. cbn [head of_option tail]. rewrite wp_bind, wp_ret, wp_bind, wp_gets. cbn [id].
    assert (is_byte x) as Hx.
    { assert (Forall is_byte (x :: r)) as [? _]%Forall_cons_1
        by (rewrite <- E; by apply Forall_drop). done. }
    pose proof Hok' as [Hp Hlen Hcnt Ho Hin Hb].
    assert (0 ≤ tb_in b' < tb_size b') as Hi.
    { rewrite Hin. unfold widx. destruct (Z.ltb_spec (tb_out b' + tb_count b') (tb_size b')); lia. }
    assert (zset (tb_data b') (tb_in b') x = Some _) as Hz
      by (apply mem_write_eq; cbn; lia).
    rewrite Hz. cbn [of_option]. rewrite wp_bind, wp_ret, wp_bind, wp_modify, wp_ret.
    rewrite !(wrap_small 64) by lia.
    destruct (queue_push b' [x] _ (if tb_size b' <=? tb_in b' + 1 then 0 else tb_in b' + 1)
      Hok' ltac:(cbn; lia) ltac:(cbn; lia) ltac:(by forall_elems) Hz) as [Hok2 Hq2].
    { cbn. change (Z.of_nat 1) with 1. unfold widx. zcases; lia. }
    split; [|lia]. split_and!; [exact Hok2|done|lia|lia| |cbn; lia|].
    + replace (Z.to_nat (len - (n - 1))) with (Z.to_nat (len - n) + 1)%nat by lia.
      rewrite <- drop_drop, E. done.
    + refine (eq_trans Hq2 _). rewrite Hq, <- app_assoc. f_equal.
      replace (Z.to_nat (len - (n - 1))) with (Z.to_nat (len - n) + 1)%nat by lia.
      pose proof (take_drop_split buffer 0 (Z.to_nat (len - n)) 1) as Es.
      rewrite drop_0, Nat.add_0_l, E in Es. by rewrite Es.
  - rewrite Z.sub_diag. cbn [Z.to_nat drop take]. rewrite app_nil_r. split_and!; try done; lia.
  - lia.
Qed.

Lemma remove_run b cnt :
  tbuf_ok b → 0 ≤ cnt →
  let n := Z.min cnt (tb_count b) in
  ∃ b', tcp_buf_remove cnt b = Ok (n, b') ∧ tbuf_ok b' ∧ tb_size b' = tb_size b ∧
    queue b' = drop (Z.to_nat n) (queue b).
Proof.
  intros Hok Hcnt n. pose proof Hok as [Hp Hl Hc Ho Hin Hb].
  destruct (queue_pop b n (widx (tb_size b) (tb_out b + n)) Hok ltac:(lia) eq_refl) as [Hok' Hq].
  eexists. split; [|split; [exact Hok'|by split]].
  apply wp_result. unfold tcp_buf_remove. rewrite wp_bind, wp_gets. cbn [id].
  assert ((if tb_count b <? cnt then tb_count b else cnt) = n) as ->.
  { unfold n. destruct (Z.ltb_spec (tb_count b) cnt); lia. }
  rewrite wp_bind, wp_modify, wp_ret. split; [done|].
  rewrite !(wrap_small 64 (tb_out b + n)), !(wrap_small 64 (tb_count b - n)) by lia. f_equal.
  unfold widx. zcases; try lia. rewrite (wrap_small 64); lia.
Qed.

Lemma wp_read_rcv size b (Q : Z * bytes → Tcp_buf → Prop) :
  tbuf_ok b → 0 ≤ size →
  (∀ b', let n := Z.min size (tb_count b) in
     tbuf_ok b' → tb_size b' = tb_size b → queue b' = drop (Z.to_nat n) (queue b) →
     Q (n, take (Z.to_nat n) (queue b)) b') →
  wp (tcp_buf_read_rcv size) b Q.
Proof.
  intros Hok Hs HQ. unfold tcp_buf_read_rcv. rewrite wp_bind, wp_gets. cbn [id].
  pose proof Hok as [Hp Hl Hc Ho Hin Hb].
  assert ((if tb_count b <? size then tb_count b else size) = Z.min size (tb_count b)) as ->.
  { destruct (Z.ltb_spec (tb_count b) size); lia. }
  set (n := Z.min size (tb_count b)) in *. apply wp_bind.
  apply (wp_loop _ (λ '(i, buf) b', tbuf_ok b' ∧ tb_size b' = tb_size b ∧ 0 ≤ i ≤ n ∧
      buf = take (Z.to_nat i) (queue b) ∧ tb_count b' = tb_count b - i ∧
      queue b' = drop (Z.to_nat i) (queue b)) (λ '(i, _) _, Z.to_nat (n - i))).
  - intros [i buf] b' (Hok' & Hs' & Hi & -> & Hc' & Hq').
    destruct (Z.leb_spec n i).
    { rewrite wp_ret. replace i with n in * by lia. rewrite wp_ret. by apply HQ. }
    pose proof Hok' as [Hp' Hl' Hcnt' Ho' Hin' Hb'].
    rewrite wp_bind, wp_gets. cbn [id].
    assert (Z.to_nat i < length (queue b))%nat as Hlt
      by (pose proof (queue_length b Hok); lia).
    destruct (lookup_lt_is_Some_2 _ _ Hlt) as [x Hx].
    assert (queue b' !! Z.to_nat 0 = Some x) as Hx'.
    { rewrite Hq', lookup_drop. rewrite <- Hx. f_equal. lia. }
    rewrite queue_lookup in Hx' by (done || lia).
    rewrite (proj2 (Z.ltb_lt 0 _)) in Hx' by lia.
    assert (widx (tb_size b') (tb_out b' + 0) = tb_out b') as Hwx.
    { unfold widx. rewrite (proj2 (Z.ltb_lt _ _)); lia. }
    rewrite Hwx in Hx'. unfold zlookup. rewrite (proj2 (Z.leb_le 0 _)) by lia.
    rewrite Hx'. cbn [of_option]. rewrite wp_bind, wp_ret, wp_bind, wp_modify, wp_ret.
    rewrite !(wrap_small 64) by lia.
    destruct (queue_pop b' 1 (if tb_size b' <=? tb_out b' + 1 then 0 else tb_out b' + 1)
      Hok' ltac:(lia)) as [Hok2 Hq2].
    { unfold widx. zcases; lia. }
    split; [|lia]. split_and!; [exact Hok2|done|lia|lia| |cbn; lia|].
    + replace (Z.to_nat (i + 1)) with (S (Z.to_nat i)) by lia. by erewrite take_S_r.
    + refine (eq_trans Hq2 _). rewrite Hq', drop_drop. f_equal. lia.
  - split_and!; try done; lia.
  - lia.
Qed.

(** ** Transfers to and from packets *)

Section transfer_ok.
Context {W : Type} `{P : !PacketIO W} (view : W → flat → Prop) `{L : !PacketLaws view}.

Lemma wp_on_packet {A} (m : M W A) b w (Q : A → Tcp_buf * W → Prop) :
  wp m w (λ a w', Q a (b, w')) → wp (on_packet m) (b, w) Q.
Proof. intros H. unfold on_packet. apply wp_zoom. exact H. Qed.

Lemma wrap_widx s i : 0 < s < 2 ^ 62 → 0 ≤ i < s + s →
  (if s <=? i then u64 (i - s) else i) = widx s i.
Proof. intros Hs Hi. unfold widx. zcases; try lia. by rewrite (wrap_small 64) by lia. Qed.

Lemma wp_read_send b w c p offset count (Q : unit → Tcp_buf * W → Prop) :
  tbuf_ok b → view w (c, p) → 0 ≤ offset ≤ tb_count b → 0 ≤ count →
  let n := Z.min count (tb_count b - offset) in
  p + n ≤ zlen c →
  (∀ w', view w' (splice c p (slice (queue b) offset n), p + n) → Q tt (b, w')) →
  wp (tcp_buf_read_send offset count) (b, w) Q.
Proof.
  intros Hok Hv Hoff Hcnt n Hfit HQ. pose proof Hok as [Hp Hl Hc Ho Hin Hb].
  pose proof (pkt_view_ok _ _ _ Hv) as (Hp0 & Hpc & Hcmax & Hcb).
  pose proof (queue_length b Hok) as Hql.
  unfold tcp_buf_read_send. rewrite wp_bind, wp_gets. cbn [tbuf_of fst].
  rewrite (wrap_small 64 (tb_count b - offset)), (wrap_small 64 (tb_out b + offset)) by lia.
  rewrite wrap_widx by lia.
  assert ((if tb_count b - offset <? count then tb_count b - offset else count) = n) as ->
    by (unfold n; zcases; lia).
  apply (wp_loop _ (λ '(start, k) s, ∃ w', s = (b, w') ∧ 0 ≤ k ≤ n ∧
      start = widx (tb_size b) (tb_out b + widx (tb_size b) (offset + (n - k))) ∧
      view w' (splice c p (slice (queue b) offset (n - k)), p + (n - k)))
      (λ '(_, k) _, Z.to_nat k)).
  - intros [start k] s (w' & -> & Hk & Es & Hw'). cbv zeta.
    destruct (Z.leb_spec k 0).
    { rewrite wp_ret. replace k with 0 in * by lia. rewrite Z.sub_0_r in *. by apply HQ. }
    assert (widx (tb_size b) (offset + (n - k)) = offset + (n - k)) as Ewi
      by (unfold widx; zcases; lia).
    rewrite Ewi in Es.
    assert (0 ≤ start < tb_size b) as Hstart by (rewrite Es; unfold widx; zcases; lia).
    rewrite (wrap_small 64 (start + k)) by lia.
    set (end_ := if tb_size b <=? start + k then tb_size b else start + k).
    assert (start < end_ ≤ tb_size b ∧ end_ ≤ start + k) as [He1 He2] by (unfold end_; zcases; lia).
    rewrite (wrap_small 64 (end_ - start)) by lia.
    pose proof (queue_slice b (offset + (n - k)) (end_ - start) Hok ltac:(lia) ltac:(lia) ltac:(lia))
      as Hrd. cbv zeta in Hrd. rewrite <- Es in Hrd. specialize (Hrd ltac:(lia)).
    rewrite Hrd. cbn [of_option]. rewrite wp_bind, wp_ret. apply wp_bind, wp_on_packet.
    set (d := slice (queue b) (offset + (n - k)) (end_ - start)).
    assert (zlen d = end_ - start) as Hd by (apply slice_length; lia).
    assert (Forall is_byte d) as Hdb.
    { apply slice_bytes. unfold queue. apply Forall_take, Forall_app.
      split; [by apply Forall_drop|by apply Forall_take]. }
    eapply wp_conseq; [apply (pkt_write_ok _ _ _ d Hw'); [done| |]|].
    { intros E0. rewrite E0 in Hd. cbn in Hd. lia. }
    { rewrite splice_length by (rewrite ?slice_length; lia). lia. }
    cbn. intros r w'' [-> Hw'']. rewrite wp_bind, wp_assert. split; [done|].
    rewrite wp_ret. rewrite (wrap_small 64 (start + _)), (wrap_small 64 (k - _)) by lia.
    split; [|lia]. exists w''. split_and!; [done|lia|lia| |].
    + rewrite wrap_widx by lia. replace (start + (end_ - start)) with end_ by lia.
      rewrite Es in *. unfold end_, widx in *.
      repeat match goal with
        | |- context [?x <? ?y] => destruct (Z.ltb_spec x y)
        | H : context [?x <? ?y] |- _ => destruct (Z.ltb_spec x y)
        | H : context [?x <=? ?y] |- _ => destruct (Z.leb_spec x y)
        | |- context [?x <=? ?y] => destruct (Z.leb_spec x y) end; try lia.
    + assert (zlen (slice (queue b) offset (n - k)) = n - k) as Hsl by (apply slice_length; lia).
      rewrite <- Hsl in Hw'' at 2. rewrite splice_splice in Hw'' by (rewrite ?Hsl; lia).
      unfold d in Hw''. rewrite <- slice_app in Hw'' by lia.
      fold d in Hw''. rewrite Hd in Hw''.
      replace (n - k + (end_ - start)) with (n - (k - (end_ - start))) in Hw'' by lia.
      replace (p + (n - k) + (end_ - start)) with (p + (n - (k - (end_ - start)))) in Hw'' by lia.
      done.
  - exists w. rewrite Z.sub_diag, !Z.add_0_r. unfold slice. cbn [Z.to_nat take].
    rewrite splice_nil. split_and!; try done; try lia.
    unfold widx. zcases; lia.
  - lia.
Qed.

Lemma wp_write_rcv b w c p total (Q : Z → Tcp_buf * W → Prop) :
  tbuf_ok b → view w (c, p) → 0 ≤ total →
  let n := Z.min total (tb_size b - tb_count b) in
  p + n ≤ zlen c →
  (∀ b' w', tbuf_ok b' → tb_size b' = tb_size b → queue b' = queue b ++ slice c p n →
     view w' (c, p + n) → Q n (b', w')) →
  wp (tcp_buf_write_rcv 0 total) (b, w) Q.
Proof.
  intros Hok Hv Ht n Hfit HQ. pose proof Hok as [Hp Hl Hc Ho Hin Hb].
  pose proof (pkt_view_ok _ _ _ Hv) as (Hp0 & Hpc & Hcmax & Hcb).
  assert (0 ≤ tb_in b < tb_size b) as Hib by (rewrite Hin; unfold widx; zcases; lia).
  unfold tcp_buf_write_rcv. rewrite wp_bind, wp_gets. cbn [tbuf_of fst].
  rewrite Z.add_0_r, (wrap_small 64 (tb_in b)) by lia. rewrite wrap_widx by lia.
  assert (widx (tb_size b) (tb_in b) = tb_in b) as -> by (unfold widx; zcases; lia).
  unfold tcp_buf_free_cnt. rewrite wp_bind, wp_bind, wp_assert.
  split; [apply Z.leb_le; lia|]. rewrite wp_ret, Z.sub_0_r, (wrap_small 64) by lia.
  assert ((if tb_size b - tb_count b <? total then tb_size b - tb_count b else total) = n) as ->
    by (unfold n; zcases; lia).
  apply wp_bind.
  (* the ring so far, its [in] brought up to date *)
  apply (wp_loop _ (λ '(start, k) s, ∃ b1 w', s = (mk_tbuf (tb_count b1) (tb_in b) (tb_out b1)
        (tb_size b1) (tb_data b1), w') ∧ tbuf_ok b1 ∧ tb_size b1 = tb_size b ∧
      start = tb_in b1 ∧ 0 ≤ k ≤ n ∧ tb_count b1 = tb_count b + (n - k) ∧
      queue b1 = queue b ++ slice c p (n - k) ∧ view w' (c, p + (n - k)))
      (λ '(_, k) _, Z.to_nat k)).
  - intros [start k] s (b1 & w' & -> & Hok1 & Hs1 & -> & Hk & Hc1 & Hq1 & Hw'). cbv zeta.
    destruct (Z.leb_spec k 0).
    { rewrite wp_ret, wp_bind, wp_gets, wp_bind, wp_modify, wp_ret. cbn.
      replace k with 0 in * by lia. rewrite Z.sub_0_r in *. destruct b1. by apply HQ. }
    pose proof Hok1 as [Hp1 Hl1 Hcn1 Ho1 Hin1 Hb1].
    assert (0 ≤ tb_in b1 < tb_size b1) as Hib1 by (rewrite Hin1; unfold widx; zcases; lia).
    rewrite wp_bind, wp_gets. cbn [tbuf_of fst tb_size tb_data tb_count tb_out tb_in].
    rewrite (wrap_small 64 (tb_size b1 - tb_in b1)) by lia.
    set (m := if tb_size b1 - tb_in b1 <? k then tb_size b1 - tb_in b1 else k).
    assert (0 < m ≤ k ∧ m ≤ tb_size b1 - tb_in b1) as [Hm1 Hm2] by (unfold m; zcases; lia).
    apply wp_bind, wp_on_packet.
    eapply wp_conseq; [apply (pkt_read_ok _ _ _ m Hw'); lia|]. cbn. intros r w'' [-> Hw''].
    set (d := slice c (p + (n - k)) m).
    assert (zlen d = m) as Hd by (apply slice_length; lia).
    assert (mem_write (tb_data b1) (tb_in b1) d = Some _) as Hmw by (apply mem_write_eq; lia).
    rewrite Hmw. cbn [of_option]. rewrite wp_bind, wp_ret, wp_bind, wp_modify, wp_ret.
    rewrite (wrap_small 64 (tb_in b1 + m)) by lia. rewrite wrap_widx by lia.
    rewrite (wrap_small 64 (k - m)), (wrap_small 64 (tb_count b1 + m)) by lia.
    destruct (queue_push b1 d _ (widx (tb_size b1) (tb_in b1 + zlen d)) Hok1 ltac:(lia) ltac:(lia)
      ltac:(by apply slice_bytes) Hmw eq_refl) as [Hok2 Hq2].
    split; [|lia]. set (b2 := mk_tbuf _ _ _ _ _) in Hok2, Hq2.
    exists b2, w''. split_and!.
    + unfold b2. cbn. by rewrite Hd.
    + exact Hok2.
    + done.
    + cbn. by rewrite Hd.
    + lia.
    + lia.
    + cbn. rewrite Hd. lia.
    + rewrite Hq2, Hq1, <- app_assoc. f_equal. unfold d. rewrite <- slice_app by lia. f_equal. lia.
    + replace (p + (n - (k - m))) with (p + (n - k) + m) by lia. done.
  - exists b, w. rewrite Z.sub_diag, !Z.add_0_r. unfold slice. cbn [Z.to_nat take].
    rewrite app_nil_r. split_and!; try done; try lia. by destruct b.
  - lia.
Qed.
End transfer_ok.

(** ** The ring is a bounded queue *)

Inductive qop : Type :=
| QWrite (bs : bytes)      (* tcp_buf_write_send *)
| QRemove (cnt : Z)        (* tcp_buf_remove *)
| QRead (size : Z).        (* tcp_buf_read_rcv *)

Definition qop_ok (o : qop) : Prop :=
  match o with QWrite bs => Forall is_byte bs | QRemove cnt => 0 ≤ cnt | QRead size => 0 ≤ size end.

(** The queue's answer and contents; a write needs room, as the callers check. *)
Definition queue_step (size : Z) (o : qop) (q : bytes) : option ((Z * bytes) * bytes) :=
  match o with
  | QWrite bs => if zlen q + zlen bs <=? size then Some ((zlen bs, []), q ++ bs) else None
  | QRemove cnt =>
      let n := Z.min cnt (zlen q) in Some ((n, []), drop (Z.to_nat n) q)
  | QRead cnt =>
      let n := Z.min cnt (zlen q) in Some ((n, take (Z.to_nat n) q), drop (Z.to_nat n) q)
  end.

Definition ring_step (o : qop) : M Tcp_buf (Z * bytes) :=
  match o with
  | QWrite bs => tcp_buf_write_send bs (zlen bs);; mret (zlen bs, [])
  | QRemove cnt => n ← tcp_buf_remove cnt; mret (n, [])
  | QRead cnt => tcp_buf_read_rcv cnt
  end.

Fixpoint queue_run (size : Z) (ops : list qop) (q : bytes) : option (list (Z * bytes) * bytes) :=
  match ops with
  | [] => Some ([], q)
  | o :: ops' =>
      '(r, q') ← queue_step size o q;
      '(rs, q'') ← queue_run size ops' q';
      Some (r :: rs, q'')
  end.

Fixpoint ring_run (ops : list qop) : M Tcp_buf (list (Z * bytes)) :=
  match ops with
  | [] => mret []
  | o :: ops' => r ← ring_step o; rs ← ring_run ops'; mret (r :: rs)
  end.

Lemma ring_step_spec b o r q (Q : Z * bytes → Tcp_buf → Prop) :
  tbuf_ok b → qop_ok o → queue_step (tb_size b) o (queue b) = Some (r, q) →
  (∀ b', tbuf_ok b' → tb_size b' = tb_size b → queue b' = q → Q r b') →
  wp (ring_step o) b Q.
Proof.
  intros Hok Ho Hq HQ. pose proof (queue_length b Hok) as Hl.
  destruct o as [bs|cnt|cnt]; cbn [ring_step queue_step qop_ok] in *.
  - destruct (Z.leb_spec (zlen (queue b) + zlen bs) (tb_size b)); [|done]. injection Hq as <- <-.
    apply wp_bind. eapply wp_write_send; [done|lia|done|lia|]. intros b' Hok' Hs Eq.
    rewrite wp_ret. apply HQ; try done. by rewrite Eq, Nat2Z.id, firstn_all.
  - rewrite Hl in Hq. injection Hq as <- <-.
    destruct (remove_run b cnt Hok Ho) as (b' & E & Hok' & Hs & Eq).
    apply wp_bind. eapply wp_of_run; [exact E|]. rewrite wp_ret. by apply HQ.
  - injection Hq as <- <-. eapply wp_read_rcv; [done|done|]. cbn zeta. rewrite <- Hl.
    intros b' Hok' Hs Eq. by apply HQ.
Qed.

(** C23: the ring buffer is a bounded first-in first-out queue *)
Theorem tcp_buf_refines_queue b ops rs q :
  tbuf_ok b → Forall qop_ok ops → queue_run (tb_size b) ops (queue b) = Some (rs, q) →
  ∃ b', ring_run ops b = Ok (rs, b') ∧ tbuf_ok b' ∧ queue b' = q.
Proof.
  intros Hok Hops. revert b rs q Hok. induction Hops as [|o ops Ho _ IH]; intros b rs q Hok Hq.
  - injection Hq as <- <-. by exists b.
  - cbn [queue_run] in Hq.
    destruct (queue_step (tb_size b) o (queue b)) as [[r q1]|] eqn:E1; [|done]. cbn in Hq.
    destruct (queue_run (tb_size b) ops q1) as [[rs' q2]|] eqn:E2; [|done].
    injection Hq as <- <-.
    assert (wp (ring_step o) b (λ r' b1, r' = r ∧ tbuf_ok b1 ∧ tb_size b1 = tb_size b ∧ queue b1 = q1))
      as (r' & b1 & E & -> & Hok1 & Hs1 & Eq1)%wp_run
      by (eapply ring_step_spec; eauto).
    rewrite <- Hs1, <- Eq1 in E2. destruct (IH b1 rs' q2 Hok1 E2) as (b2 & Er & Hok2 & Eq2).
    exists b2. split_and!; try done. cbn [ring_run]. unfold mbind, M_bind.
    rewrite E. by rewrite Er.
Qed.

Lemma tcp_buf_init_ok data :
  0 < zlen data < 2 ^ 62 → Forall is_byte data →
  tbuf_ok (tcp_buf_init data (zlen data)) ∧ queue (tcp_buf_init data (zlen data)) = [].
Proof. intros Hl Hb. split; [|done]. split; cbn; try done; try lia. unfold widx. zcases; lia. Qed.

Section theorems.
Context {W : Type} `{P : !PacketIO W} (view : W → flat → Prop) `{L : !PacketLaws view}.

(** A stretch of the stream is copied to a packet, and stored bytes come from
    a packet, whatever the ring's alignment *)
Theorem tcp_buf_transfers b w c p offset count :
  tbuf_ok b → view w (c, p) → 0 ≤ offset ≤ tb_count b → 0 ≤ count →
  p + count ≤ zlen c →
  (let n := Z.min count (tb_count b - offset) in
   ∃ w', tcp_buf_read_send offset count (b, w) = Ok (tt, (b, w')) ∧
     view w' (splice c p (slice (queue b) offset n), p + n)) ∧
  (let n := Z.min count (tb_size b - tb_count b) in
   ∃ b' w', tcp_buf_write_rcv 0 count (b, w) = Ok (n, (b', w')) ∧ tbuf_ok b' ∧
     queue b' = queue b ++ slice c p n ∧ view w' (c, p + n)).
Proof.
  intros Hok Hv Hoff Hcnt Hfit. split; intros n.
  - assert (wp (tcp_buf_read_send offset count) (b, w) (λ _ s, ∃ w', s = (b, w') ∧
      view w' (splice c p (slice (queue b) offset n), p + n))) as (s & E & w' & -> & H)%wp_unit.
    { eapply (wp_read_send view); [done..|lia|]. eauto. }
    eauto.
  - assert (wp (tcp_buf_write_rcv 0 count) (b, w) (λ r s, r = n ∧ ∃ b' w', s = (b', w') ∧
      tbuf_ok b' ∧ queue b' = queue b ++ slice c p n ∧ view w' (c, p + n)))
      as (r & s & E & -> & b' & w' & -> & H)%wp_run.
    { eapply (wp_write_rcv view); [done..|lia|]. intros. split; [done|]. eauto 10. }
    exists b', w'. by split.
Qed.
End theorems.

(** ** A concrete ring *)

(** 30 bytes of a ring of 100, wrapped around its end. *)
Definition demo_ring : Tcp_buf := mk_tbuf 30 10 80 100 (seqZ 0 100).

Lemma demo_ring_ok : tbuf_ok demo_ring.
Proof.
  split; cbn; try done; try lia. apply Forall_forall. intros x Hx%elem_of_seqZ. unfold is_byte. lia.
Qed.

Lemma tcp_buf_refines_queue_witness :
  ∃ b', ring_run [QWrite [1; 2]; QRemove 25; QRead 6] demo_ring =
    Ok ([(2, []); (25, []); (6, [5; 6; 7; 8; 9; 1])], b') ∧ tbuf_ok b' ∧ queue b' = [2].
Proof.
  apply (tcp_buf_refines_queue demo_ring);
    [apply demo_ring_ok|forall_elems; cbn; try lia; forall_elems; unfold is_byte; lia|
     by vm_compute].
Defined.

Lemma tcp_buf_transfers_witness :
  let c := content (packet demo1 0) in
  (∃ w', tcp_buf_read_send (P := pktbuf_io 0) 15 25 (demo_ring, demo1) = Ok (tt, (demo_ring, w')) ∧
     pktbuf_view 0 w' (splice c 0 (slice (queue demo_ring) 15 15), 0 + 15)) ∧
  (∃ b' w', tcp_buf_write_rcv (P := pktbuf_io 0) 0 25 (demo_ring, demo1) = Ok (25, (b', w')) ∧
     tbuf_ok b' ∧ queue b' = queue demo_ring ++ slice c 0 25 ∧ pktbuf_view 0 w' (c, 0 + 25)).
Proof.
  apply (tcp_buf_transfers (P := pktbuf_io 0) (pktbuf_view 0) demo_ring demo1 _ 0 15 25);
    [apply demo_ring_ok|apply demo1_view|cbn; lia|lia|by vm_compute].
Defined.
