(* ===== verification/Buddy.v ===== *)
(** * The buddy page allocator: [mm/buddyPmm.c]

    A [Page *] is the page's index in the array [pages]; a free list is the
    sequence of the pages linked on it, head first ([ListH] shows that the
    intrusive list operations act on it so).  [None] in a store is an access
    outside the array. *)
From S2P Require Import Prelude.

Definition MAX_ORDER : Z := 10.
Definition MAX_ZONE_NUM : Z := 10.

Definition PG_RESERVED : Z := 0.
Definition PG_PROPERTY : Z := 1.

Record Page := mk_page {
  pg_ref : Z;
  pg_flags : Z;
  property : Z;
  zone_num : Z
}.

Record bstate := mk_bstate {
  pages : gmap Z Page;
  npage : Z;
  free_list : gmap Z (list Z);
  nr_free : gmap Z Z;
  zones : gmap Z Z;          (* mem_base *)
  zone_cnt : Z               (* the static zone_num of buddy_init_memmap *)
}.

Definition PageReserved (p : Page) : bool := Z.testbit (pg_flags p) PG_RESERVED.
Definition PageProperty (p : Page) : bool := Z.testbit (pg_flags p) PG_PROPERTY.

Definition set_flags v p := mk_page (pg_ref p) v (property p) (zone_num p).
Definition set_property v p := mk_page (pg_ref p) (pg_flags p) v (zone_num p).
Definition set_zone v p := mk_page (pg_ref p) (pg_flags p) (property p) v.
Definition set_page_ref v p := mk_page v (pg_flags p) (property p) (zone_num p).
Definition SetPageProperty (p : Page) : Page := set_flags (Z.setbit (pg_flags p) PG_PROPERTY) p.
Definition ClearPageProperty (p : Page) : Page := set_flags (Z.clearbit (pg_flags p) PG_PROPERTY) p.

Definition set_pages v s := mk_bstate v (npage s) (free_list s) (nr_free s) (zones s) (zone_cnt s).
Definition set_free v s := mk_bstate (pages s) (npage s) v (nr_free s) (zones s) (zone_cnt s).
Definition set_nr v s := mk_bstate (pages s) (npage s) (free_list s) v (zones s) (zone_cnt s).
Definition set_zones v c s := mk_bstate (pages s) (npage s) (free_list s) (nr_free s) v c.

Definition get_page (i : Z) : M bstate Page := o ← gets (λ s, pages s !! i); of_option o.
Definition upd_page (i : Z) (f : Page → Page) : M bstate unit :=
  p ← get_page i; modify (λ s, set_pages (<[i := f p]> (pages s)) s).

Definition get_free (o : Z) : M bstate (list Z) := l ← gets (λ s, free_list s !! o); of_option l.
Definition add_nr (o d : Z) : M bstate unit :=
  n ← gets (λ s, nr_free s !! o); n ← of_option n;
  modify (λ s, set_nr (<[o := u64 (n + d)]> (nr_free s)) s).

(** [list_add(&free_list(o), &page->page_link)] links before the head: last. *)
Definition free_add (o i : Z) : M bstate unit :=
  l ← get_free o; modify (λ s, set_free (<[o := l ++ [i]]> (free_list s)) s).

(** [list_del(&page->page_link)]: the page leaves whatever list it is on. *)
Definition page_list_del (i : Z) : M bstate unit :=
  f ← gets free_list;
  (if bool_decide (map_Forall (λ _ l, i ∉ l) f) then undef else mret tt);;
  modify (set_free (filter (λ x, x ≠ i) <$> f)).

(** ** [buddy_init], [buddy_init_memmap] *)

Definition orders : list Z := seqZ 0 (MAX_ORDER + 1).

Definition buddy_init (s : bstate) : bstate :=
  set_nr (list_to_map ((λ o, (o, 0)) <$> orders))
    (set_free (list_to_map ((λ o, (o, [])) <$> orders)) s).

Definition buddy_init_memmap (base n : Z) : M bstate unit :=
  z ← gets zone_cnt;
  assert_ ((0 <? n) && (z <? MAX_ZONE_NUM));;
  loop (S (Z.to_nat n)) (λ p,
    if p =? base + n then mret (inr tt) else
    pg ← get_page p;
    assert_ (PageReserved pg);;
    upd_page p (λ pg, set_page_ref 0 (set_zone z (set_property 0 (set_flags 0 pg))));;
    mret (inl (p + 1))) base;;
  modify (λ s, set_zones (<[z := base]> (zones s)) (z + 1) s);;
  loop (S (Z.to_nat (n + MAX_ORDER))) (λ '(n, p, order, order_size),
    if n =? 0 then mret (inr tt) else
    if order_size <=? n then
      upd_page p (λ pg, SetPageProperty (set_property order pg));;
      free_add order p;;
      add_nr order 1;;
      mret (inl (n - order_size, p + order_size, order, order_size))
    else mret (inl (n, p, u64 (order - 1), Z.shiftr order_size 1)))
    (n, base, MAX_ORDER, Z.shiftl 1 MAX_ORDER).

(** ** [buddy_alloc_pages] *)

Definition getorder {S} (n : Z) : M S Z :=
  loop (Z.to_nat (MAX_ORDER + 2)) (λ '(order, order_size),
    if MAX_ORDER <? order then panic else
    if n <=? order_size then mret (inr order)
    else mret (inl (order + 1, Z.shiftl order_size 1))) (0, 1).

(** The halves given back while a larger block is split down to [order]. *)
Definition split_block (page order cur_order : Z) : M bstate unit :=
  loop (S (Z.to_nat (cur_order - order))) (λ '(cur_order, size),
    if cur_order <=? order then mret (inr tt) else
    let cur_order := cur_order - 1 in
    let size := Z.shiftr size 1 in
    let buddy := page + size in
    upd_page buddy (λ pg, SetPageProperty (set_property cur_order pg));;
    add_nr cur_order 1;;
    free_add cur_order buddy;;
    mret (inl (cur_order, size))) (cur_order, Z.shiftl 1 cur_order).

Definition buddy_alloc_pages_sub (order : Z) : M bstate (option Z) :=
  assert_ (order <=? MAX_ORDER);;
  loop (S (Z.to_nat (MAX_ORDER + 1 - order))) (λ cur_order,
    if MAX_ORDER <? cur_order then mret (inr None) else
    l ← get_free cur_order;
    match l with
    | [] => mret (inl (cur_order + 1))
    | page :: _ =>
        add_nr cur_order (-1);;
        page_list_del page;;
        split_block page order cur_order;;
        upd_page page ClearPageProperty;;
        mret (inr (Some page))
    end) order.

(** ** [buddy_free_pages] *)

Definition page_is_buddy (page order z : Z) : M bstate bool :=
  np ← gets npage;
  if page <? np then
    pg ← get_page page;
    if zone_num pg =? z
    then mret (negb (PageReserved pg) && PageProperty pg && (property pg =? order))
    else mret false
  else mret false.

Definition page2idx (page : Z) : M bstate Z :=
  pg ← get_page page;
  b ← gets (λ s, zones s !! zone_num pg); b ← of_option b;
  mret (u64 (page - b)).

Definition idx2page (z idx : Z) : M bstate Z :=
  b ← gets (λ s, zones s !! z); b ← of_option b;
  mret (b + idx).

(** The merging loop: doubles the block while its buddy is free. *)
Definition merge (z : Z) (page_idx order : Z) : M bstate (Z * Z) :=
  loop (S (Z.to_nat (MAX_ORDER - order))) (λ '(page_idx, order),
    if MAX_ORDER <=? order then mret (inr (page_idx, order)) else
    let buddy_idx := Z.lxor page_idx (Z.shiftl 1 order) in
    buddy ← idx2page z buddy_idx;
    b ← page_is_buddy buddy order z;
    if negb b then mret (inr (page_idx, order)) else
    add_nr order (-1);;
    page_list_del buddy;;
    upd_page buddy ClearPageProperty;;
    mret (inl (Z.land page_idx buddy_idx, order + 1))) (page_idx, order).

Definition buddy_free_pages_sub (base order : Z) : M bstate unit :=
  page_idx ← page2idx base;
  assert_ (Z.land page_idx (Z.shiftl 1 order - 1) =? 0);;
  loop (S (Z.to_nat (Z.shiftl 1 order))) (λ p,
    if p =? base + Z.shiftl 1 order then mret (inr tt) else
    pg ← get_page p;
    assert_ (negb (PageReserved pg) && negb (PageProperty pg));;
    upd_page p (λ pg, set_page_ref 0 (set_flags 0 pg));;
    mret (inl (p + 1))) base;;
  pg ← get_page base;
  let z := zone_num pg in
  '(page_idx, order) ← merge z page_idx order;
  page ← idx2page z page_idx;
  upd_page page (λ pg, SetPageProperty (set_property order pg));;
  add_nr order 1;;
  free_add order page.

(** The block sizes go up while the next one does not exceed what is left, then
    down. *)
Definition buddy_free_pages (base n : Z) : M bstate unit :=
  assert_ (0 <? n);;
  if n =? 1 then buddy_free_pages_sub base 0 else
  '(base, n, order, order_size) ←
    loop (S (S (Z.to_nat MAX_ORDER))) (λ '(base, n, order, order_size),
      if n <=? order_size then mret (inr (base, n, order, order_size)) else
      assert_ (order <=? MAX_ORDER);;
      idx ← page2idx base;
      '(base, n) ← (if Z.land idx order_size =? 0 then mret (base, n)
                    else buddy_free_pages_sub base order;; mret (base + order_size, n - order_size));
      mret (inl (base, n, order + 1, Z.shiftl order_size 1))) (base, n, 0, 1);
  loop (S (Z.to_nat (n + order))) (λ '(base, n, order, order_size),
    if n =? 0 then mret (inr tt) else
    if n <? order_size then mret (inl (base, n, u64 (order - 1), Z.shiftr order_size 1)) else
    buddy_free_pages_sub base order;;
    mret (inl (base + order_size, n - order_size, order, order_size))) (base, n, order, order_size).

Definition buddy_alloc_pages (n : Z) : M bstate (option Z) :=
  assert_ (0 <? n);;
  order ← getorder n;
  let order_size := Z.shiftl 1 order in
  page ← buddy_alloc_pages_sub order;
  match page with
  | Some p =>
      (if n =? order_size then mret tt else buddy_free_pages (p + n) (order_size - n));;
      mret (Some p)
  | None => mret None
  end.

Definition buddy_nr_free_pages : M bstate Z :=
  loop (Z.to_nat (MAX_ORDER + 2)) (λ '(ret, order),
    if MAX_ORDER <? order then mret (inr ret) else
    n ← gets (λ s, nr_free s !! order); n ← of_option n;
    mret (inl (u64 (ret + n * Z.shiftl 1 order), order + 1))) (0, 0).

(** ** What the allocator maintains *)

(** Zone and reservation of each page: what no operation on free blocks changes. *)
Definition shape (s : bstate) : gmap Z (Z * bool) :=
  (λ pg, (zone_num pg, PageReserved pg)) <$> pages s.

(** [p] starts a naturally aligned block of order [o] of zone [z]. *)
Definition in_zone (s : bstate) (z p o : Z) : Prop :=
  ∃ base, zones s !! z = Some base ∧ 0 ≤ base ≤ p ∧ (p - base) mod 2 ^ o = 0 ∧
    ∀ i, p ≤ i < p + 2 ^ o → shape s !! i = Some (z, false).

(** [p] is a free block of order [o]. *)
Definition blk (s : bstate) (o p : Z) : Prop := ∃ l, free_list s !! o = Some l ∧ p ∈ l.

Definition in_block (p o i : Z) : Prop := p ≤ i < p + 2 ^ o.

(** Page [i] is free. *)
Definition free_page (s : bstate) (i : Z) : Prop := ∃ o p, blk s o p ∧ in_block p o i.

(** The invariant; the page [x], if any, is between the free lists and its new
    owner: its property flag is stale. *)
Record binv_but (x : option Z) (s : bstate) : Prop := {
  b_pages i : is_Some (pages s !! i) ↔ 0 ≤ i < npage s;
  b_small : 0 ≤ npage s < 2 ^ 48;
  b_lists o : 0 ≤ o ≤ MAX_ORDER →
    ∃ l, free_list s !! o = Some l ∧ NoDup l ∧ nr_free s !! o = Some (zlen l);
  b_keys o l : free_list s !! o = Some l → 0 ≤ o ≤ MAX_ORDER;
  b_zone o p : blk s o p → ∃ z, in_zone s z p o;
  b_flag i pg : Some i ≠ x → pages s !! i = Some pg → PageReserved pg = false →
    PageProperty pg = true → blk s (property pg) i;
  b_prop o p pg : blk s o p → pages s !! p = Some pg →
    PageProperty pg = true ∧ property pg = o;
  b_disj o p o' p' : blk s o p → blk s o' p' →
    (o = o' ∧ p = p') ∨ p + 2 ^ o ≤ p' ∨ p' + 2 ^ o' ≤ p
}.
Abbreviation binv := (binv_but None).

(** Same pages, same zones. *)
Definition same_ground (s s' : bstate) : Prop :=
  shape s' = shape s ∧ zones s' = zones s ∧ npage s' = npage s.

Lemma same_ground_refl s : same_ground s s.
Proof. done. Qed.

Lemma same_ground_trans s1 s2 s3 : same_ground s1 s2 → same_ground s2 s3 → same_ground s1 s3.
Proof. intros (?&?&?) (?&?&?). split_and!; congruence. Qed.

Lemma in_zone_ground s s' z p o : same_ground s s' → in_zone s z p o → in_zone s' z p o.
Proof. intros (E1 & E2 & _). unfold in_zone. by rewrite E1, E2. Qed.

(** The number of free pages the counters tell. *)
Definition count_at (s : bstate) (o : Z) : Z := default 0 (nr_free s !! o) * 2 ^ o.
Definition total_free (s : bstate) : Z := foldr (λ o t, count_at s o + t) 0 orders.

Lemma elem_of_orders o : o ∈ orders ↔ 0 ≤ o ≤ MAX_ORDER.
Proof. unfold orders. rewrite elem_of_seqZ. lia. Qed.

Lemma pow2_pos o : 0 ≤ o → 0 < 2 ^ o.
Proof. intros. by apply Z.pow_pos_nonneg. Qed.

Lemma blk_order x s o p : binv_but x s → blk s o p → 0 ≤ o ≤ MAX_ORDER.
Proof. intros Hs (l & Hl & _). by eapply b_keys. Qed.

Lemma shape_lookup s i z r :
  shape s !! i = Some (z, r) ↔
  ∃ pg, pages s !! i = Some pg ∧ zone_num pg = z ∧ PageReserved pg = r.
Proof. unfold shape. rewrite lookup_fmap, fmap_Some. naive_solver. Qed.

Lemma blk_head_page x s o p :
  binv_but x s → blk s o p → ∃ pg, pages s !! p = Some pg ∧ PageReserved pg = false ∧
    PageProperty pg = true ∧ property pg = o.
Proof.
  intros Hs Hb. pose proof (blk_order _ _ _ _ Hs Hb) as Ho.
  destruct (b_zone _ _ Hs _ _ Hb) as (z & base & _ & _ & _ & Hi).
  specialize (Hi p). pose proof (pow2_pos o ltac:(lia)).
  apply shape_lookup in Hi as (pg & Hp & _ & Hr); [|lia].
  destruct (b_prop _ _ Hs _ _ _ Hb Hp). eauto 10.
Qed.

Lemma blk_range x s o p : binv_but x s → blk s o p → 0 ≤ p ∧ p + 2 ^ o ≤ npage s.
Proof.
  intros Hs Hb. pose proof (blk_order _ _ _ _ Hs Hb) as Ho.
  destruct (b_zone _ _ Hs _ _ Hb) as (z & base & _ & H0 & _ & Hi). split; [lia|].
  pose proof (pow2_pos o ltac:(lia)).
  specialize (Hi (p + 2 ^ o - 1) ltac:(lia)). apply shape_lookup in Hi as (pg & Hp & _).
  pose proof (proj1 (b_pages _ _ Hs _) (mk_is_Some _ _ Hp)). lia.
Qed.

(** Distinct indices below [n] are at most [n]. *)
Lemma nodup_bounded (l : list Z) n :
  0 ≤ n → NoDup l → (∀ x, x ∈ l → 0 ≤ x < n) → zlen l ≤ n.
Proof.
  intros Hn Hnd Hl. assert (l ⊆+ seqZ 0 n) as Hs.
  { apply NoDup_submseteq; [done|]. intros x Hx. apply elem_of_seqZ. specialize (Hl _ Hx). lia. }
  apply submseteq_length in Hs. rewrite length_seqZ in Hs. lia.
Qed.

Lemma nr_bound x s o l :
  binv_but x s → free_list s !! o = Some l → NoDup l → zlen l ≤ npage s.
Proof.
  intros Hs Hl Hnd. apply (nodup_bounded l (npage s)); [apply (b_small _ _ Hs)|done|]. intros i Hi.
  assert (blk s o i) as Hb by (exists l; done).
  pose proof (blk_range _ _ _ _ Hs Hb). pose proof (blk_order _ _ _ _ Hs Hb).
  pose proof (pow2_pos o ltac:(lia)). lia.
Qed.

(** ** Flags *)

Lemma prop_set p : PageProperty (SetPageProperty p) = true.
Proof. apply (Z.setbit_eq (pg_flags p) PG_PROPERTY). by compute. Qed.

Lemma prop_clear p : PageProperty (ClearPageProperty p) = false.
Proof. apply (Z.clearbit_eq (pg_flags p) PG_PROPERTY). Qed.

Lemma reserved_set p : PageReserved (SetPageProperty p) = PageReserved p.
Proof. apply (Z.setbit_neq (pg_flags p) PG_PROPERTY PG_RESERVED); by compute. Qed.

Lemma reserved_clear p : PageReserved (ClearPageProperty p) = PageReserved p.
Proof. apply (Z.clearbit_neq (pg_flags p) PG_PROPERTY PG_RESERVED). by compute. Qed.

(** ** Steps *)

Lemma wp_get_page i s pg (Q : Page → bstate → Prop) :
  pages s !! i = Some pg → Q pg s → wp (get_page i) s Q.
Proof. intros Hp HQ. unfold get_page. rewrite wp_bind, wp_gets, wp_of_option. eauto. Qed.

Lemma wp_upd_page i f s pg (Q : unit → bstate → Prop) :
  pages s !! i = Some pg → Q tt (set_pages (<[i := f pg]> (pages s)) s) → wp (upd_page i f) s Q.
Proof. intros Hp HQ. unfold upd_page. apply wp_bind. by eapply wp_get_page. Qed.

Lemma wp_get_free o s l (Q : list Z → bstate → Prop) :
  free_list s !! o = Some l → Q l s → wp (get_free o) s Q.
Proof. intros Hl HQ. unfold get_free. rewrite wp_bind, wp_gets, wp_of_option. eauto. Qed.

Lemma wp_add_nr o d s n (Q : unit → bstate → Prop) :
  nr_free s !! o = Some n → Q tt (set_nr (<[o := u64 (n + d)]> (nr_free s)) s) →
  wp (add_nr o d) s Q.
Proof.
  intros Hn HQ. unfold add_nr. rewrite wp_bind, wp_gets, wp_bind, wp_of_option. eauto.
Qed.

Lemma wp_free_add o i s l (Q : unit → bstate → Prop) :
  free_list s !! o = Some l → Q tt (set_free (<[o := l ++ [i]]> (free_list s)) s) →
  wp (free_add o i) s Q.
Proof. intros Hl HQ. unfold free_add. apply wp_bind. by eapply wp_get_free. Qed.

Lemma wp_page_list_del i s (Q : unit → bstate → Prop) :
  (∃ o, blk s o i) → Q tt (set_free (filter (λ x, x ≠ i) <$> free_list s) s) →
  wp (page_list_del i) s Q.
Proof.
  intros (o & l & Hl & Hi) HQ. unfold page_list_del. rewrite wp_bind, wp_gets, wp_bind.
  rewrite bool_decide_eq_false_2; [done|].
  intros Hm. by apply (Hm o l Hl).
Qed.

Lemma ground_upd s i pg pg' :
  pages s !! i = Some pg → zone_num pg' = zone_num pg → PageReserved pg' = PageReserved pg →
  same_ground s (set_pages (<[i := pg']> (pages s)) s).
Proof.
  intros Hp Hz Hr. split_and!; [|done|done]. unfold shape. cbn [pages set_pages].
  rewrite fmap_insert, Hz, Hr. apply insert_id. by rewrite lookup_fmap, Hp.
Qed.

Lemma total_upd s s' o n n' :
  0 ≤ o ≤ MAX_ORDER → nr_free s !! o = Some n → nr_free s' = <[o := n']> (nr_free s) →
  total_free s' = total_free s + (n' - n) * 2 ^ o.
Proof.
  intros Ho Hn E. unfold total_free. apply elem_of_orders in Ho.
  assert (NoDup orders) as Hnd by apply NoDup_seqZ.
  revert Ho Hnd. generalize orders. intros l. induction l as [|a l IH]; [by intros ?%elem_of_nil|].
  intros Ho [Hni Hnd]%NoDup_cons. cbn.
  assert (∀ l, o ∉ l → foldr (λ o t, count_at s' o + t) 0 l = foldr (λ o t, count_at s o + t) 0 l)
    as Hskip.
  { clear -E. induction l as [|b l IH]; [done|]. intros [Hb Hl]%not_elem_of_cons. cbn.
    rewrite IH by done. unfold count_at. rewrite E, lookup_insert_ne by done. done. }
  destruct (decide (a = o)) as [->|Hne].
  - rewrite Hskip by done. unfold count_at at 1 3. rewrite E, lookup_insert_eq, Hn. cbn. lia.
  - apply elem_of_cons in Ho as [?|Ho]; [done|]. rewrite IH by done.
    unfold count_at at 1. rewrite E, lookup_insert_ne by done. unfold count_at at 2. lia.
Qed.

(** ** Taking a block off its free list *)

Lemma blk_pages_distinct x s o p o' p' :
  binv_but x s → blk s o p → blk s o' p' → (o = o' ∧ p = p') ∨ p ≠ p'.
Proof.
  intros Hs Hb Hb'. destruct (b_disj _ _ Hs _ _ _ _ Hb Hb') as [|H]; [by left|right].
  pose proof (pow2_pos o (proj1 (blk_order _ _ _ _ Hs Hb))).
  pose proof (pow2_pos o' (proj1 (blk_order _ _ _ _ Hs Hb'))). lia.
Qed.

Lemma wp_take s o p (Q : unit → bstate → Prop) :
  binv s → blk s o p →
  (∀ s', binv_but (Some p) s' → same_ground s s' → pages s' = pages s →
     (∀ o' p', blk s' o' p' ↔ blk s o' p' ∧ p' ≠ p) →
     total_free s' = total_free s - 2 ^ o → Q tt s') →
  wp (add_nr o (-1)) s (λ _ s1, wp (page_list_del p) s1 Q).
Proof.
  intros Hs Hb HQ. pose proof (blk_order _ _ _ _ Hs Hb) as Ho. pose proof Hb as (l & Hl & Hp).
  destruct (b_lists _ _ Hs o Ho) as (l0 & El & Hnd & Hnr). assert (l0 = l) as -> by congruence.
  assert (0 < zlen l) as Hlen by (destruct l; [by apply elem_of_nil in Hp|cbn; lia]).
  pose proof (nr_bound _ _ _ _ Hs Hl Hnd) as Hbd. pose proof (b_small _ _ Hs).
  eapply wp_add_nr; [done|]. rewrite (wrap_small 64) by lia.
  apply wp_page_list_del; [by exists o, l|]. cbn [free_list set_nr].
  set (s' := set_free _ _).
  assert (∀ o' l', free_list s' !! o' = Some l' ↔
    ∃ l1, free_list s !! o' = Some l1 ∧ l' = filter (λ x, x ≠ p) l1) as Hfl.
  { intros o' l'. unfold s'. cbn [free_list set_free set_nr]. rewrite lookup_fmap, fmap_Some. naive_solver. }
  assert (∀ o' p', blk s' o' p' ↔ blk s o' p' ∧ p' ≠ p) as Hblk.
  { intros o' p'. unfold blk. split.
    - intros (l' & (l1 & H1 & ->)%Hfl & [? ?]%list_elem_of_filter). eauto.
    - intros [(l1 & H1 & H2) ?]. exists (filter (λ x, x ≠ p) l1). split; [apply Hfl; eauto|].
      apply list_elem_of_filter. done. }
  assert (same_ground s s') as Hg by done.
  apply HQ; try done.
  - destruct Hs as [H1 H2 H3 H4 H5 H6 H7 H8]. split; try done.
    + intros o' Ho'. destruct (H3 o' Ho') as (l1 & E1 & Hnd1 & Hn1).
      exists (filter (λ x, x ≠ p) l1). split_and!; [apply Hfl; eauto|by apply NoDup_filter|].
      unfold s'. cbn [nr_free set_free set_nr]. destruct (decide (o' = o)) as [->|Hne].
      * rewrite lookup_insert_eq. assert (l1 = l) as -> by congruence. f_equal.
        destruct (list_elem_of_split _ _ Hp) as (a & c & ->).
        apply NoDup_app in Hnd1 as (_ & Hd1 & [Hd2 _]%NoDup_cons).
        rewrite filter_app, filter_cons_False by (intros ?; done).
        assert (∀ k : list Z, p ∉ k → filter (λ x, x ≠ p) k = k) as Hid.
        { clear. induction k as [|y k IH]; [done|]. intros [? ?]%not_elem_of_cons.
          rewrite filter_cons_True by done. by rewrite IH. }
        rewrite !Hid; [|done|intros Hin; apply (Hd1 _ Hin); apply list_elem_of_here].
        rewrite !length_app. cbn. lia.
      * rewrite lookup_insert_ne, Hn1 by done. do 3 f_equal. symmetry.
        assert (p ∉ l1) as Hni.
        { intros Hin. destruct (H8 o p o' p Hb) as [[? _]|Hd]; [by exists l1|done|].
          pose proof (pow2_pos o ltac:(lia)). pose proof (pow2_pos o' ltac:(lia)). lia. }
        clear -Hni. induction l1 as [|y k IH]; [done|]. apply not_elem_of_cons in Hni as [? ?].
        rewrite filter_cons_True by done. by rewrite IH.
    + intros o' l' (l1 & E1 & _)%Hfl. by eapply H4.
    + intros o' p' [Hb' _]%Hblk. by apply H5.
    + intros i pg Hi Hpg Hr Hpr. apply Hblk. split; [by eapply H6|]. congruence.
    + intros o' p' pg [Hb' _]%Hblk. by apply H7.
    + intros o1 p1 o2 p2 [Hb1 _]%Hblk [Hb2 _]%Hblk. by apply H8.
  - rewrite (total_upd s s' o (zlen l) (zlen l + -1) Ho Hnr) by done. lia.
Qed.

Lemma wp_take_seq {A} s o p (k : M bstate A) (Q : A → bstate → Prop) :
  binv s → blk s o p →
  (∀ s', binv_but (Some p) s' → same_ground s s' → pages s' = pages s →
     (∀ o' p', blk s' o' p' ↔ blk s o' p' ∧ p' ≠ p) →
     total_free s' = total_free s - 2 ^ o → wp k s' Q) →
  wp (add_nr o (-1);; page_list_del p;; k) s Q.
Proof.
  intros Hs Hb HQ. apply wp_bind.
  eapply wp_conseq; [apply (wp_take s o p (λ _ s', wp k s' Q)); done|].
  intros [] s1 H1. apply wp_bind. eapply wp_conseq; [exact H1|]. by intros [].
Qed.

(** Clearing the flag of the page in transit completes the step. *)
Lemma wp_clear s p pg (Q : unit → bstate → Prop) :
  binv_but (Some p) s → pages s !! p = Some pg → (∀ o, ¬ blk s o p) →
  (∀ s', binv s' → same_ground s s' → free_list s' = free_list s → nr_free s' = nr_free s → Q tt s') →
  wp (upd_page p ClearPageProperty) s Q.
Proof.
  intros Hs Hp Hno HQ. eapply wp_upd_page; [done|].
  pose proof (ground_upd s p pg (ClearPageProperty pg) Hp eq_refl (reserved_clear pg)) as Hg.
  apply HQ; try done. destruct Hs as [H1 H2 H3 H4 H5 H6 H7 H8]. split; try done.
  - intros i. cbn [pages set_pages npage]. destruct (decide (i = p)) as [->|].
    + rewrite lookup_insert_eq. rewrite <- H1, Hp. split; eauto.
    + by rewrite lookup_insert_ne.
  - intros o q Hb. destruct (H5 o q Hb) as [z Hz]. exists z. by eapply in_zone_ground.
  - intros i pg' _. cbn [pages set_pages]. destruct (decide (i = p)) as [->|].
    + rewrite lookup_insert_eq. intros [= <-] _. by rewrite prop_clear.
    + rewrite lookup_insert_ne by done. apply H6. congruence.
  - intros o q pg' Hb. cbn [pages set_pages]. rewrite lookup_insert_ne; [by apply H7|].
    intros ->. by apply (Hno o).
Qed.

(** ** Putting a block on its free list *)

Lemma put_page_props o pg :
  PageProperty (SetPageProperty (set_property o pg)) = true ∧
  property (SetPageProperty (set_property o pg)) = o ∧
  zone_num (SetPageProperty (set_property o pg)) = zone_num pg ∧
  PageReserved (SetPageProperty (set_property o pg)) = PageReserved pg.
Proof. split_and!; [apply prop_set|done|done|by rewrite reserved_set]. Qed.

(** The state once block [(o, p)] is linked; [l], [n] and [pg] are what the list,
    the counter and the page were. *)
Definition put_state (o p : Z) (l : list Z) (n : Z) (pg : Page) (s : bstate) : bstate :=
  mk_bstate (<[p := SetPageProperty (set_property o pg)]> (pages s)) (npage s)
    (<[o := l ++ [p]]> (free_list s)) (<[o := n + 1]> (nr_free s)) (zones s) (zone_cnt s).

Lemma blk_put s o p l n pg o' p' :
  free_list s !! o = Some l →
  blk (put_state o p l n pg s) o' p' ↔ blk s o' p' ∨ (o' = o ∧ p' = p).
Proof.
  intros Hl. unfold blk. cbn [free_list put_state]. split.
  - intros (l' & E & Hin). destruct (decide (o' = o)) as [->|].
    + rewrite lookup_insert_eq in E. injection E as <-.
      apply elem_of_app in Hin as [?| ->%list_elem_of_singleton]; [left; eauto|by right].
    + rewrite lookup_insert_ne in E by done. left; eauto.
  - intros [(l' & E & Hin)|[-> ->]].
    + destruct (decide (o' = o)) as [->|].
      * rewrite lookup_insert_eq. eexists. split; [done|]. assert (l' = l) as -> by congruence.
        apply elem_of_app. by left.
      * rewrite lookup_insert_ne by done. eauto.
    + rewrite lookup_insert_eq. eexists. split; [done|]. apply elem_of_app. right.
      by apply list_elem_of_singleton.
Qed.

Lemma put_ok x s z o p l n pg :
  binv_but x s → 0 ≤ o ≤ MAX_ORDER → in_zone s z p o →
  (∀ i, in_block p o i → ¬ free_page s i) →
  free_list s !! o = Some l → nr_free s !! o = Some n → pages s !! p = Some pg →
  let s' := put_state o p l n pg s in
  binv_but x s' ∧ same_ground s s' ∧ total_free s' = total_free s + 2 ^ o.
Proof.
  intros Hs Ho Hz Hfree Hl Hn Hp s'.
  destruct (put_page_props o pg) as (P1 & P2 & P3 & P4).
  pose proof (pow2_pos o ltac:(lia)) as Hpow.
  assert (same_ground s s') as Hg by (apply (ground_upd s p pg); done).
  assert (∀ o' p', blk s' o' p' ↔ blk s o' p' ∨ (o' = o ∧ p' = p)) as Hblk
    by (intros; by apply blk_put).
  assert (¬ free_page s p) as Hnp by (apply Hfree; unfold in_block; lia).
  assert (∀ o', ¬ blk s o' p) as Hnb.
  { intros o' Hb. apply Hnp. exists o', p. split; [done|]. unfold in_block.
    pose proof (pow2_pos o' (proj1 (blk_order _ _ _ _ Hs Hb))). lia. }
  destruct (b_lists _ _ Hs o Ho) as (l0 & El & Hnd & Hnr).
  assert (l0 = l) as -> by congruence. assert (n = zlen l) as -> by congruence.
  assert (p ∉ l) as Hpl by (intros Hin; apply (Hnb o); by exists l).
  split; [|split; [done|rewrite (total_upd s s' o (zlen l) (zlen l + 1) Ho Hn) by done; lia]].
  pose proof Hs as [H1 H2 H3 H4 H5 H6 H7 H8]. split; try done.
  - intros i. cbn [pages s' put_state npage]. rewrite <- H1. destruct (decide (i = p)) as [->|].
    + rewrite lookup_insert_eq, Hp. split; eauto.
    + by rewrite lookup_insert_ne.
  - intros o' Ho'. cbn [free_list nr_free s' put_state]. destruct (decide (o' = o)) as [->|].
    + rewrite !lookup_insert_eq. eexists. split_and!; [done| |].
      * apply NoDup_app. split_and!; [done| |apply NoDup_singleton].
        by intros y Hy ->%list_elem_of_singleton.
      * f_equal. rewrite length_app. cbn. lia.
    + rewrite !lookup_insert_ne by done. by apply H3.
  - intros o' l'. cbn [free_list s' put_state]. destruct (decide (o' = o)) as [->|]; [done|].
    rewrite lookup_insert_ne by done. apply H4.
  - intros o' p' [Hb|[-> ->]]%Hblk.
    + destruct (H5 o' p' Hb) as [z' Hz']. exists z'. by eapply in_zone_ground.
    + exists z. by eapply in_zone_ground.
  - intros i pg' Hi. cbn [pages s' put_state]. destruct (decide (i = p)) as [->|].
    + rewrite lookup_insert_eq. intros [= <-] _ _. apply Hblk. by right.
    + rewrite lookup_insert_ne by done. intros Hpg Hr Hpr. apply Hblk. left. by eapply H6.
  - intros o' p' pg'. cbn [pages s' put_state]. intros [Hb|[-> ->]]%Hblk.
    + rewrite lookup_insert_ne; [by apply H7|]. intros ->. by apply (Hnb o').
    + rewrite lookup_insert_eq. by intros [= <-].
  - assert (∀ o' p', blk s o' p' → p + 2 ^ o ≤ p' ∨ p' + 2 ^ o' ≤ p) as Hd.
    { intros o' p' Hb. pose proof (pow2_pos o' (proj1 (blk_order _ _ _ _ Hs Hb))).
      destruct (decide (p + 2 ^ o ≤ p')); [by left|].
      destruct (decide (p' + 2 ^ o' ≤ p)); [by right|]. exfalso.
      apply (Hfree (Z.max p p')); [unfold in_block; lia|]. exists o', p'.
      split; [done|]. unfold in_block. lia. }
    intros o1 p1 o2 p2 [Hb1|[-> ->]]%Hblk [Hb2|[-> ->]]%Hblk.
    + by apply H8.
    + destruct (Hd o1 p1 Hb1); lia.
    + destruct (Hd o2 p2 Hb2); lia.
    + by left.
Qed.

Lemma wp_put x s z o p (Q : unit → bstate → Prop) :
  binv_but x s → 0 ≤ o ≤ MAX_ORDER → in_zone s z p o →
  (∀ i, in_block p o i → ¬ free_page s i) →
  (∀ s', binv_but x s' → same_ground s s' → total_free s' = total_free s + 2 ^ o →
     (∀ o' p', blk s' o' p' ↔ blk s o' p' ∨ (o' = o ∧ p' = p)) →
     (∀ i, i ≠ p → pages s' !! i = pages s !! i) → Q tt s') →
  wp (upd_page p (λ pg, SetPageProperty (set_property o pg)))
    s (λ _ s1, wp (add_nr o 1) s1 (λ _ s2, wp (free_add o p) s2 Q)).
Proof.
  intros Hs Ho Hz Hfree HQ.
  destruct (b_lists _ _ Hs o Ho) as (l & Hl & Hnd & Hnr).
  pose proof (nr_bound _ _ _ _ Hs Hl Hnd). pose proof (b_small _ _ Hs).
  pose proof (pow2_pos o ltac:(lia)).
  assert (∃ pg, pages s !! p = Some pg) as [pg Hp].
  { destruct Hz as (base & _ & _ & _ & Hi). specialize (Hi p ltac:(lia)).
    apply shape_lookup in Hi as (pg & ? & _). eauto. }
  destruct (put_ok x s z o p l (zlen l) pg Hs Ho Hz Hfree Hl Hnr Hp) as (Hs' & Hg & Ht).
  eapply wp_upd_page; [done|]. eapply wp_add_nr; [done|]. rewrite (wrap_small 64) by lia.
  eapply wp_free_add; [done|]. change (Q tt (put_state o p l (zlen l) pg s)).
  apply HQ; try done.
  - intros. by apply blk_put.
  - intros i Hi. cbn. by rewrite lookup_insert_ne.
Qed.

Lemma wp_put_seq {A} x s z o p (k : M bstate A) (Q : A → bstate → Prop) :
  binv_but x s → 0 ≤ o ≤ MAX_ORDER → in_zone s z p o →
  (∀ i, in_block p o i → ¬ free_page s i) →
  (∀ s', binv_but x s' → same_ground s s' → total_free s' = total_free s + 2 ^ o →
     (∀ o' p', blk s' o' p' ↔ blk s o' p' ∨ (o' = o ∧ p' = p)) →
     (∀ i, i ≠ p → pages s' !! i = pages s !! i) → wp k s' Q) →
  wp (upd_page p (λ pg, SetPageProperty (set_property o pg));; add_nr o 1;; free_add o p;; k) s Q.
Proof.
  intros Hs Ho Hz Hfree HQ. apply wp_bind.
  eapply wp_conseq; [apply (wp_put x s z o p (λ _ s', wp k s' Q)); done|].
  intros [] s1 H1. apply wp_bind. eapply wp_conseq; [exact H1|].
  intros [] s2 H2. apply wp_bind. eapply wp_conseq; [exact H2|]. by intros [].
Qed.

(** ** Free pages after taking and putting a block *)

Lemma free_page_take x s s' o p :
  binv_but x s → blk s o p → (∀ o' p', blk s' o' p' ↔ blk s o' p' ∧ p' ≠ p) →
  ∀ i, free_page s' i ↔ free_page s i ∧ ¬ in_block p o i.
Proof.
  intros Hs Hb Hblk i. split.
  - intros (o' & p' & [Hb' Hne]%Hblk & Hi). split; [by exists o', p'|]. intros Hi'.
    unfold in_block in *. destruct (b_disj _ _ Hs _ _ _ _ Hb Hb') as [[? ?]|?]; [done|lia].
  - intros [(o' & p' & Hb' & Hi) Hni]. exists o', p'. split; [|done]. apply Hblk. split; [done|].
    intros ->. destruct (b_disj _ _ Hs _ _ _ _ Hb Hb') as [[-> _]|Hd]; [done|].
    pose proof (pow2_pos o (proj1 (blk_order _ _ _ _ Hs Hb))).
    pose proof (pow2_pos o' (proj1 (blk_order _ _ _ _ Hs Hb'))). lia.
Qed.

Lemma free_page_put s s' o p :
  (∀ o' p', blk s' o' p' ↔ blk s o' p' ∨ (o' = o ∧ p' = p)) →
  ∀ i, free_page s' i ↔ free_page s i ∨ in_block p o i.
Proof.
  intros Hblk i. split.
  - intros (o' & p' & [Hb|[-> ->]]%Hblk & Hi); [left; by exists o', p'|by right].
  - intros [(o' & p' & Hb & Hi)|Hi]; [exists o', p'|exists o, p]; (split; [|done]); apply Hblk; auto.
Qed.

(** A part of an aligned block. *)
Lemma in_zone_part s z p o p' o' :
  in_zone s z p o → 0 ≤ o' ≤ o → p ≤ p' → p' + 2 ^ o' ≤ p + 2 ^ o → (p' - p) mod 2 ^ o' = 0 →
  in_zone s z p' o'.
Proof.
  intros (base & Hb & H0 & Hm & Hi) Ho H1 H2 Hm'. exists base. split_and!; [done|lia|lia| |].
  - pose proof (pow2_pos o' ltac:(lia)).
    apply Z.mod_divide in Hm; [|pose proof (pow2_pos o ltac:(lia)); lia].
    apply Z.mod_divide in Hm'; [|lia]. apply Z.mod_divide; [lia|].
    replace (p' - base) with ((p' - p) + (p - base)) by lia. apply Z.divide_add_r; [done|].
    eapply Z.divide_trans; [|exact Hm]. exists (2 ^ (o - o')). rewrite <- Z.pow_add_r by lia.
    f_equal. lia.
  - intros i Hi'. apply Hi. lia.
Qed.

(** ** Allocation *)

Lemma shiftl_1 o : 0 ≤ o → Z.shiftl 1 o = 2 ^ o.
Proof. intros. rewrite Z.shiftl_mul_pow2 by done. lia. Qed.

Lemma pow2_half o : 0 < o → Z.shiftr (2 ^ o) 1 = 2 ^ (o - 1) ∧ 2 ^ o = 2 * 2 ^ (o - 1).
Proof.
  intros Ho. assert (2 ^ o = 2 * 2 ^ (o - 1)) as E
    by (rewrite <- Z.pow_succ_r by lia; f_equal; lia).
  split; [|done]. rewrite Z.shiftr_div_pow2 by lia. rewrite E. change (2 ^ 1) with 2.
  rewrite Z.mul_comm. by apply Z.div_mul.
Qed.

Lemma wp_split s1 z page order cur0 (Q : unit → bstate → Prop) :
  binv_but (Some page) s1 → 0 ≤ order ≤ cur0 → cur0 ≤ MAX_ORDER → in_zone s1 z page cur0 →
  (∀ i, in_block page cur0 i → ¬ free_page s1 i) →
  (∀ s', binv_but (Some page) s' → same_ground s1 s' →
     pages s' !! page = pages s1 !! page → (∀ o, ¬ blk s' o page) →
     (∀ i, free_page s' i ↔ free_page s1 i ∨ (in_block page cur0 i ∧ ¬ in_block page order i)) →
     total_free s' = total_free s1 + 2 ^ cur0 - 2 ^ order → Q tt s') →
  wp (split_block page order cur0) s1 Q.
Proof.
  intros Hs Ho Hc Hz Hfree HQ. unfold split_block. rewrite shiftl_1 by lia.
  apply (wp_loop _ (λ '(cur, size) s, size = 2 ^ cur ∧ order ≤ cur ≤ cur0 ∧
      binv_but (Some page) s ∧ same_ground s1 s ∧ pages s !! page = pages s1 !! page ∧
      (∀ o, ¬ blk s o page) ∧
      (∀ i, free_page s i ↔ free_page s1 i ∨ (in_block page cur0 i ∧ ¬ in_block page cur i)) ∧
      total_free s = total_free s1 + 2 ^ cur0 - 2 ^ cur) (λ '(cur, _) _, Z.to_nat (cur - order))).
  - intros [cur size] s (-> & Hcur & Hbi & Hg & Hpg & Hnb & Hfr & Ht).
    destruct (Z.leb_spec cur order).
    { rewrite wp_ret. assert (cur = order) as -> by lia. by apply HQ. }
    destruct (pow2_half cur ltac:(lia)) as [-> E2]. pose proof (pow2_pos (cur - 1) ltac:(lia)).
    assert (2 ^ cur ≤ 2 ^ cur0) as Hle by (apply Z.pow_le_mono_r; lia).
    cbv zeta. eapply (wp_put_seq (Some page) s z (cur - 1)).
    + done.
    + lia.
    + apply (in_zone_ground s1); [done|]. apply (in_zone_part _ _ page cur0); try done; try lia.
      replace (page + 2 ^ (cur - 1) - page) with (1 * 2 ^ (cur - 1)) by lia. apply Z.mod_mul. lia.
    + intros i Hi. unfold in_block in *. rewrite Hfr. intros [Hf|[_ Hn]]; [|lia].
      apply (Hfree i); [lia|done].
    + intros s' Hbi' Hg' Ht' Hblk' Hpg'. rewrite wp_ret. split; [|lia].
      split_and!; try done; try lia.
      * by eapply same_ground_trans.
      * rewrite Hpg' by lia. done.
      * intros o [Hb|[_ E]]%Hblk'; [by apply (Hnb o)|lia].
      * intros i. rewrite (free_page_put s s' _ _ Hblk'), Hfr. unfold in_block. split.
        -- intros [[?|[? ?]]|?]; [by left|right; lia|right; lia].
        -- intros [?|[? ?]]; [by left; left|]. destruct (decide (page + 2 ^ cur ≤ i)); [left; right; lia|].
           right. lia.
  - split_and!; try done; try lia.
    + intros o Hb. apply (Hfree page).
      * unfold in_block. pose proof (pow2_pos cur0 ltac:(lia)). lia.
      * exists o, page. split; [done|]. unfold in_block.
        pose proof (pow2_pos o (proj1 (blk_order _ _ _ _ Hs Hb))). lia.
    + intros i. tauto.
  - lia.
Qed.

Lemma take_head s o l p (Q : unit → bstate → Prop) :
  free_list s !! o = Some (p :: l) → blk s o p.
Proof. intros Hl. exists (p :: l). split; [done|]. apply list_elem_of_here. Qed.

Lemma wp_alloc_sub s order (Q : option Z → bstate → Prop) :
  binv s → 0 ≤ order ≤ MAX_ORDER →
  ((∀ o p, order ≤ o → ¬ blk s o p) → Q None s) →
  (∀ page z s', binv s' → same_ground s s' → in_zone s z page order →
     (∀ i, in_block page order i → free_page s i) →
     (∀ i, free_page s' i ↔ free_page s i ∧ ¬ in_block page order i) →
     total_free s' = total_free s - 2 ^ order → Q (Some page) s') →
  wp (buddy_alloc_pages_sub order) s Q.
Proof.
  intros Hs Ho HQ0 HQ1. unfold buddy_alloc_pages_sub. rewrite wp_bind, wp_assert.
  split; [apply Z.leb_le; lia|].
  apply (wp_loop _ (λ cur s', s' = s ∧ order ≤ cur ≤ MAX_ORDER + 1 ∧
      ∀ o p, order ≤ o < cur → ¬ blk s o p) (λ cur _, Z.to_nat (MAX_ORDER + 1 - cur))).
  - intros cur ? (-> & Hcur & Hno). destruct (Z.ltb_spec MAX_ORDER cur).
    { rewrite wp_ret. apply HQ0. intros o p Ho' Hb. pose proof (blk_order _ _ _ _ Hs Hb).
      by apply (Hno o p); [lia|]. }
    destruct (b_lists _ _ Hs cur ltac:(lia)) as (l & Hl & Hnd & Hnr).
    apply wp_bind. eapply wp_get_free; [done|]. destruct l as [|page l].
    { rewrite wp_ret. split; [|lia]. split_and!; [done|lia|lia|]. intros o p Ho'.
      destruct (decide (o = cur)) as [->|]; [|apply Hno; lia].
      intros (l' & El & Hin). assert (l' = []) as -> by congruence. by apply elem_of_nil in Hin. }
    assert (blk s cur page) as Hb by (by apply (take_head s cur l page (λ _ _, True))).
    destruct (b_zone _ _ Hs _ _ Hb) as [z Hz].
    eapply (wp_take_seq s cur page); [done|done|].
    intros s1 Hb1 Hg1 Hp1 Hblk1 Ht1.
    pose proof (free_page_take _ _ _ _ _ Hs Hb Hblk1) as Hfr1.
    apply wp_bind. eapply (wp_split s1 z); [done|lia|lia|by eapply in_zone_ground| |].
    { intros i Hi [_ Hn]%Hfr1. done. }
    intros s2 Hb2 Hg2 Hp2 Hnb2 Hfr2 Ht2.
    destruct (blk_head_page _ _ _ _ Hs Hb) as (pg & Hpg & _).
    apply wp_bind. eapply (wp_clear s2 page pg); [done|congruence|done|].
    intros s3 Hb3 Hg3 Hf3 Hn3. rewrite wp_ret.
    assert (∀ i, free_page s3 i ↔ free_page s2 i) as Hfr3.
    { intros i. unfold free_page, blk. by rewrite Hf3. }
    pose proof (pow2_pos order ltac:(lia)).
    assert (2 ^ order ≤ 2 ^ cur) as Hle by (apply Z.pow_le_mono_r; lia).
    apply (HQ1 page z); try done.
    + by eapply same_ground_trans; [exact Hg1|eapply same_ground_trans].
    + apply (in_zone_part _ _ page cur); try done; try lia. rewrite Z.sub_diag. apply Z.mod_0_l. lia.
    + intros i Hi. exists cur, page. split; [done|]. unfold in_block in *. lia.
    + intros i. rewrite Hfr3, Hfr2, Hfr1. split.
      * intros [[? Hn]|[? ?]]; (split; [|unfold in_block in *; lia]); [done|].
         by exists cur, page.
      * intros [? ?]. destruct (decide (page ≤ i ∧ i < page + 2 ^ cur)) as [?|Hn];
           [right; unfold in_block; split; [lia|done]|left; by split].
    + assert (total_free s3 = total_free s2) as -> by (unfold total_free, count_at; by rewrite Hn3).
      lia.
  - split_and!; [done|lia|lia|]. intros o p ?. lia.
  - lia.
Qed.

(** The least order whose block holds [n] pages. *)
Lemma getorder_run {S} (s : S) n :
  0 < n ≤ 2 ^ MAX_ORDER →
  ∃ o, getorder n s = Ok (o, s) ∧ 0 ≤ o ≤ MAX_ORDER ∧ n ≤ 2 ^ o ∧ (0 < o → 2 ^ (o - 1) < n).
Proof.
  intros Hn. assert (wp (getorder n) s (λ o s', s' = s ∧ 0 ≤ o ≤ MAX_ORDER ∧ n ≤ 2 ^ o ∧
    (0 < o → 2 ^ (o - 1) < n))) as (o & s' & E & -> & H)%wp_run; [|by exists o].
  unfold getorder. apply (wp_loop _ (λ '(o, sz) s', s' = s ∧ 0 ≤ o ≤ MAX_ORDER ∧ sz = 2 ^ o ∧
    (0 < o → 2 ^ (o - 1) < n)) (λ '(o, _) _, Z.to_nat (MAX_ORDER + 1 - o))).
  - intros [o sz] s' (-> & Ho & -> & Hlow). destruct (Z.ltb_spec MAX_ORDER o); [lia|].
    destruct (Z.leb_spec n (2 ^ o)); rewrite wp_ret; [split_and!; try done; lia|].
    split; [|lia]. split_and!; [done|lia| | |].
    + destruct (decide (o = MAX_ORDER)) as [->|]; [lia|]. lia.
    + rewrite Z.shiftl_mul_pow2 by lia. rewrite Z.add_1_r, Z.pow_succ_r by lia. lia.
    + intros _. by replace (o + 1 - 1) with o by lia.
  - split_and!; try done; lia.
  - unfold MAX_ORDER; lia.
Qed.

(** ** The buddy of a block *)

Lemma lxor_1 q : Z.lxor q 1 = if Z.even q then q + 1 else q - 1.
Proof.
  assert (∀ k, Z.lxor (2 * k) 1 = 2 * k + 1) as H.
  { intros k. symmetry. apply Z.add_nocarry_lxor.
    rewrite land_1_odd. rewrite Z.odd_mul. done. }
  destruct (Z.even q) eqn:E.
  - apply Z.even_spec in E as [k ->]. apply H.
  - assert (Z.odd q = true) as Ho by (by rewrite <- Z.negb_even, E).
    apply Z.odd_spec in Ho as [k ->]. rewrite <- H. rewrite Z.lxor_assoc, Z.lxor_nilpotent, Z.lxor_0_r, H. lia.
Qed.

Lemma land_lxor_1 q : Z.land q (Z.lxor q 1) = 2 * (q / 2).
Proof.
  apply Z.bits_inj'. intros n Hn. rewrite Z.land_spec, Z.lxor_spec.
  destruct (decide (n = 0)) as [->|Hne].
  - rewrite Z.testbit_even_0. change (Z.testbit 1 0) with true. by destruct (Z.testbit q 0).
  - replace n with (Z.succ (Z.pred n)) by lia.
    rewrite Z.testbit_even_succ by lia. rewrite <- Z.div2_div, Z.div2_spec, Z.shiftr_spec by lia.
    replace (Z.pred n + 1) with (Z.succ (Z.pred n)) by lia.
    assert (Z.testbit 1 (Z.succ (Z.pred n)) = false) as ->.
    { change 1 with (2 * 0 + 1). rewrite Z.testbit_odd_succ by lia. apply Z.bits_0. }
    rewrite xorb_false_r. apply andb_diag.
Qed.

(** Flipping bit [o] of an aligned index goes to the other half of the enclosing
    block, and clearing it to that block. *)
Lemma buddy_arith idx o :
  0 ≤ o → 0 ≤ idx → idx mod 2 ^ o = 0 →
  ∃ q, idx = q * 2 ^ o ∧ 0 ≤ q ∧
    Z.lxor idx (Z.shiftl 1 o) = (if Z.even q then idx + 2 ^ o else idx - 2 ^ o) ∧
    Z.land idx (Z.lxor idx (Z.shiftl 1 o)) = (if Z.even q then idx else idx - 2 ^ o).
Proof.
  intros Ho H0 Hm. pose proof (pow2_pos o Ho).
  apply Z.mod_divide in Hm as [q ->]; [|lia]. exists q.
  rewrite <- (Z.shiftl_mul_pow2 q o) by done. rewrite <- Z.shiftl_lxor, <- Z.shiftl_land.
  rewrite lxor_1 at 1. rewrite land_lxor_1, !Z.shiftl_mul_pow2 by done.
  assert (0 ≤ q) by nia. split_and!; [done|done| |].
  - destruct (Z.even q); lia.
  - destruct (Z.even q) eqn:E.
    + apply Z.even_spec in E as [k ->]. rewrite (Z.mul_comm 2 k), Z.div_mul by lia. lia.
    + assert (Z.odd q = true) as Hodd by (by rewrite <- Z.negb_even, E).
      apply Z.odd_spec in Hodd as [k ->]. replace ((2 * k + 1) / 2) with k by (apply Z.div_unique with 1; lia). lia.
Qed.

(** The block enclosing two aligned halves. *)
Lemma in_zone_join s z base p o :
  zones s !! z = Some base → 0 ≤ o → 0 ≤ base →
  in_zone s z (base + p) o → in_zone s z (base + (p + 2 ^ o)) o → p mod 2 ^ (o + 1) = 0 →
  in_zone s z (base + p) (o + 1).
Proof.
  intros Hz Ho H0 (b1 & E1 & H1 & _ & Hi1) (b2 & E2 & H2 & _ & Hi2) Hm.
  assert (b1 = base) as -> by congruence.
  exists base. split_and!; [done|lia|lia|by replace (base + p - base) with p by lia|].
  rewrite Z.add_1_r, Z.pow_succ_r by lia. intros i Hi.
  destruct (decide (i < base + p + 2 ^ o)); [apply Hi1|apply Hi2]; lia.
Qed.

Lemma wp_page_is_buddy s page o z (Q : bool → bstate → Prop) :
  binv s → 0 ≤ page →
  ((∃ zz, in_zone s zz page o ∧ zz = z) → blk s o page → Q true s) → Q false s →
  wp (page_is_buddy page o z) s Q.
Proof.
  intros Hs Hp HQ1 HQ0. unfold page_is_buddy. rewrite wp_bind, wp_gets.
  destruct (Z.ltb_spec page (npage s)); [|by rewrite wp_ret].
  destruct (proj2 (b_pages _ _ Hs page) ltac:(lia)) as [pg Hpg].
  apply wp_bind. eapply wp_get_page; [done|].
  destruct (Z.eqb_spec (zone_num pg) z) as [Hz|]; [|by rewrite wp_ret]. rewrite wp_ret.
  destruct (PageReserved pg) eqn:Er; [done|]. destruct (PageProperty pg) eqn:Ep; [|done].
  destruct (Z.eqb_spec (property pg) o) as [<-|]; [|done]. cbn [negb andb].
  assert (blk s (property pg) page) as Hb by (by apply (b_flag _ _ Hs page pg)).
  apply HQ1; [|done]. destruct (b_zone _ _ Hs _ _ Hb) as [z' Hz']. exists z'. split; [done|].
  destruct Hz' as (base & _ & _ & _ & Hi). pose proof (blk_order _ _ _ _ Hs Hb).
  pose proof (pow2_pos (property pg) ltac:(lia)).
  specialize (Hi page ltac:(lia)). apply shape_lookup in Hi as (pg' & E' & Ez & _). congruence.
Qed.

Lemma wp_idx2page s z idx base (Q : Z → bstate → Prop) :
  zones s !! z = Some base → Q (base + idx) s → wp (idx2page z idx) s Q.
Proof.
  intros Hz HQ. unfold idx2page. rewrite wp_bind, wp_gets, wp_bind, Hz. cbn [of_option].
  by rewrite wp_ret, wp_ret.
Qed.

Lemma wp_merge s1 z base idx0 order0 (Q : Z * Z → bstate → Prop) :
  binv s1 → zones s1 !! z = Some base → 0 ≤ base → 0 ≤ order0 ≤ MAX_ORDER →
  0 ≤ idx0 → in_zone s1 z (base + idx0) order0 →
  (∀ i, in_block (base + idx0) order0 i → ¬ free_page s1 i) →
  (∀ idx order s', binv s' → same_ground s1 s' → 0 ≤ order ≤ MAX_ORDER → 0 ≤ idx →
     in_zone s' z (base + idx) order →
     (∀ i, in_block (base + idx) order i → ¬ free_page s' i) →
     (∀ i, free_page s' i ∨ in_block (base + idx) order i ↔
           free_page s1 i ∨ in_block (base + idx0) order0 i) →
     total_free s' + 2 ^ order = total_free s1 + 2 ^ order0 → Q (idx, order) s') →
  wp (merge z idx0 order0) s1 Q.
Proof.
  intros Hs Hz H0 Ho Hi Hin Hfree HQ. unfold merge.
  apply (wp_loop _ (λ '(idx, order) s, binv s ∧ same_ground s1 s ∧ 0 ≤ order ≤ MAX_ORDER ∧
      0 ≤ idx ∧ in_zone s z (base + idx) order ∧
      (∀ i, in_block (base + idx) order i → ¬ free_page s i) ∧
      (∀ i, free_page s i ∨ in_block (base + idx) order i ↔
            free_page s1 i ∨ in_block (base + idx0) order0 i) ∧
      total_free s + 2 ^ order = total_free s1 + 2 ^ order0)
      (λ '(_, order) _, Z.to_nat (MAX_ORDER - order))).
  - intros [idx order] s (Hb & Hg & Hor & Hidx & Hzo & Hno & Hfr & Ht).
    destruct (Z.leb_spec MAX_ORDER order); [rewrite wp_ret; by apply HQ|].
    assert (zones s !! z = Some base) as Hz' by (destruct Hg as (_ & -> & _); done).
    assert (idx mod 2 ^ order = 0) as Hal.
    { destruct Hzo as (b' & Eb' & _ & Hm & _). assert (b' = base) as -> by congruence.
      by replace (base + idx - base) with idx in Hm by lia. }
    destruct (buddy_arith idx order ltac:(lia) Hidx Hal) as (q & Eq & Hq & Ex & El).
    pose proof (pow2_pos order ltac:(lia)) as Hpow. cbv zeta. rewrite El, Ex.
    set (bi := if Z.even q then idx + 2 ^ order else idx - 2 ^ order).
    assert (0 ≤ bi) as Hbi.
    { unfold bi. destruct (Z.even q) eqn:E; [lia|]. assert (q ≠ 0) by (by intros ->). nia. }
    apply wp_bind. eapply wp_idx2page; [done|].
    apply wp_bind. eapply (wp_page_is_buddy s (base + bi) order z); [done|lia| |].
    2:{ cbn [negb]. rewrite wp_ret. by apply HQ. }
    intros (? & Hzb & ->) Hblk. cbn [negb].
    eapply (wp_take_seq s order (base + bi)); [done|done|].
    intros s2 Hb2 Hg2 Hp2 Hblk2 Ht2.
    pose proof (free_page_take _ _ _ _ _ Hb Hblk Hblk2) as Hfr2.
    destruct (blk_head_page _ _ _ _ Hb Hblk) as (pg & Hpg & _).
    apply wp_bind. eapply (wp_clear s2 (base + bi) pg); [done|congruence| |].
    { intros o [_ Hne]%Hblk2. done. }
    intros s3 Hb3 Hg3 Hf3 Hn3. rewrite wp_ret.
    assert (∀ i, free_page s3 i ↔ free_page s2 i) as Hfr3.
    { intros i. unfold free_page, blk. by rewrite Hf3. }
    assert (total_free s3 = total_free s2) as Ht3 by (unfold total_free, count_at; by rewrite Hn3).
    set (ni := if Z.even q then idx else idx - 2 ^ order).
    assert (∀ i, in_block (base + ni) (order + 1) i ↔
      in_block (base + idx) order i ∨ in_block (base + bi) order i) as Hjoin.
    { intros i. unfold in_block. rewrite Z.add_1_r, Z.pow_succ_r by lia.
      unfold ni, bi. destruct (Z.even q); lia. }
    assert (same_ground s s3) as Hgs by (by eapply same_ground_trans).
    assert (ni mod 2 ^ (order + 1) = 0) as Hnm.
    { apply Z.mod_divide; [apply Z.pow_nonzero; lia|]. rewrite Z.add_1_r, Z.pow_succ_r by lia.
      unfold ni. destruct (Z.even q) eqn:E.
      - apply Z.even_spec in E as [k ->]. exists k. lia.
      - assert (Z.odd q = true) as Hodd by (by rewrite <- Z.negb_even, E).
        apply Z.odd_spec in Hodd as [k ->]. exists k. lia. }
    split; [|lia]. split_and!; try done; try lia.
    + by eapply same_ground_trans.
    + unfold ni, bi in *. destruct (Z.even q); lia.
    + apply (in_zone_ground s); [done|]. apply in_zone_join; try done; try lia.
      * unfold ni, bi in *. by destruct (Z.even q).
      * unfold ni, bi in *. destruct (Z.even q); [done|].
        by replace (idx - 2 ^ order + 2 ^ order) with idx by lia.
    + intros i [Hi1|Hi1]%Hjoin [Hf Hn]%Hfr3%Hfr2; [by apply (Hno i)|done].
    + intros i. rewrite Hfr3, Hfr2, Hjoin, <- Hfr. split.
      * intros [[? ?]|[?|?]]; [by left|by right|left; by exists order, (base + bi)].
      * intros [Hf|?]; [|by right; left].
        destruct (decide (base + bi ≤ i ∧ i < base + bi + 2 ^ order)) as [?|Hn];
          [right; right; unfold in_block; lia|left; split; [done|unfold in_block; lia]].
    + rewrite Ht3, Ht2. rewrite Z.add_1_r, Z.pow_succ_r by lia. lia.
  - split_and!; try done; try lia.
  - lia.
Qed.

(** ** Freeing *)

Lemma wp_put_last x s z o p (Q : unit → bstate → Prop) :
  binv_but x s → 0 ≤ o ≤ MAX_ORDER → in_zone s z p o →
  (∀ i, in_block p o i → ¬ free_page s i) →
  (∀ s', binv_but x s' → same_ground s s' → total_free s' = total_free s + 2 ^ o →
     (∀ o' p', blk s' o' p' ↔ blk s o' p' ∨ (o' = o ∧ p' = p)) → Q tt s') →
  wp (upd_page p (λ pg, SetPageProperty (set_property o pg));; add_nr o 1;; free_add o p) s Q.
Proof.
  intros Hs Ho Hz Hfree HQ. apply wp_bind.
  eapply wp_conseq; [apply (wp_put x s z o p Q); eauto|].
  intros [] s1 H1. apply wp_bind. eapply wp_conseq; [exact H1|]. by intros [].
Qed.

(** Resetting a page that is not free keeps everything. *)
Lemma wp_reset_page s p pg (Q : unit → bstate → Prop) :
  binv s → pages s !! p = Some pg → PageReserved pg = false → ¬ free_page s p →
  (∀ s', binv s' → same_ground s s' → free_list s' = free_list s → nr_free s' = nr_free s → Q tt s') →
  wp (upd_page p (λ pg, set_page_ref 0 (set_flags 0 pg))) s Q.
Proof.
  intros Hs Hp Hr Hno HQ. eapply wp_upd_page; [done|].
  assert (same_ground s (set_pages (<[p := set_page_ref 0 (set_flags 0 pg)]> (pages s)) s)) as Hg
    by (by apply (ground_upd s p pg)).
  apply HQ; try done. pose proof Hs as [H1 H2 H3 H4 H5 H6 H7 H8]. split; try done.
  - intros i. cbn [pages set_pages npage]. destruct (decide (i = p)) as [->|].
    + rewrite lookup_insert_eq. rewrite <- H1, Hp. split; eauto.
    + by rewrite lookup_insert_ne.
  - intros o q Hb. destruct (H5 o q Hb) as [z Hz]. exists z. by eapply in_zone_ground.
  - intros i pg' Hi. cbn [pages set_pages]. destruct (decide (i = p)) as [->|].
    + rewrite lookup_insert_eq. by intros [= <-].
    + rewrite lookup_insert_ne by done. by apply H6.
  - intros o q pg' Hb. cbn [pages set_pages]. rewrite lookup_insert_ne; [by apply H7|].
    intros ->. apply Hno. exists o, q. split; [done|]. unfold in_block.
    pose proof (pow2_pos o (proj1 (blk_order _ _ _ _ Hs Hb))). lia.
Qed.

Lemma wp_page2idx x s z p o (Q : Z → bstate → Prop) :
  binv_but x s → 0 ≤ o → in_zone s z p o →
  (∀ base, zones s !! z = Some base → 0 ≤ base ≤ p → (p - base) mod 2 ^ o = 0 → Q (p - base) s) →
  wp (page2idx p) s Q.
Proof.
  intros Hs Ho (base & Hz & H0 & Hm & Hi) HQ. pose proof (pow2_pos o Ho).
  destruct (proj1 (shape_lookup _ _ _ _) (Hi p ltac:(lia))) as (pg & Hp & Ez & _).
  pose proof (proj1 (b_pages _ _ Hs p) (mk_is_Some _ _ Hp)). pose proof (b_small _ _ Hs).
  unfold page2idx. apply wp_bind. eapply wp_get_page; [done|]. rewrite Ez.
  rewrite wp_bind, wp_gets, wp_bind, Hz. cbn [of_option].
  rewrite wp_ret, wp_ret, (wrap_small 64) by lia. by apply HQ.
Qed.

Lemma wp_free_sub s z base order (Q : unit → bstate → Prop) :
  binv s → 0 ≤ order ≤ MAX_ORDER → in_zone s z base order →
  (∀ i, in_block base order i → ¬ free_page s i) →
  (∀ s', binv s' → same_ground s s' →
     (∀ i, free_page s' i ↔ free_page s i ∨ in_block base order i) →
     total_free s' = total_free s + 2 ^ order → Q tt s') →
  wp (buddy_free_pages_sub base order) s Q.
Proof.
  intros Hs Ho Hz Hfree HQ. pose proof (pow2_pos order ltac:(lia)) as Hpow.
  unfold buddy_free_pages_sub. apply wp_bind.
  eapply wp_page2idx; [done|apply Ho|done|]. intros zb Hzb H0 Hal.
  rewrite shiftl_1, land_ones_mod by lia.
  rewrite wp_bind, wp_assert. split; [by apply Z.eqb_eq|]. apply wp_bind.
  apply (wp_loop _ (λ p s', base ≤ p ≤ base + 2 ^ order ∧ binv s' ∧ same_ground s s' ∧
      free_list s' = free_list s ∧ nr_free s' = nr_free s)
      (λ p _, Z.to_nat (base + 2 ^ order - p))).
  - intros p s1 (Hp & Hb1 & Hg1 & Hf1 & Hn1).
    assert (∀ i, free_page s1 i ↔ free_page s i) as Hfr1
      by (intros i; unfold free_page, blk; by rewrite Hf1).
    assert (in_zone s1 z base order) as Hz1 by by eapply in_zone_ground.
    destruct (Z.eqb_spec p (base + 2 ^ order)) as [->|Hne].
    + rewrite wp_ret. pose proof Hz1 as (zb' & Hzb' & _ & _ & Hi).
      assert (zb' = zb) as -> by (destruct Hg1 as (_ & Eg & _); congruence).
      destruct (proj1 (shape_lookup _ _ _ _) (Hi base ltac:(lia))) as (pg & Hpg & Ez & _).
      apply wp_bind. eapply wp_get_page; [done|]. rewrite Ez.
      apply wp_bind. eapply (wp_merge s1 z zb); try done; try lia.
      { by replace (zb + (base - zb)) with base by lia. }
      { replace (zb + (base - zb)) with base by lia. intros i Hi' Hf%Hfr1. by apply (Hfree i). }
      intros idx o s2 Hb2 Hg2 Ho2 Hidx Hz2 Hfree2 Hfr2 Ht2.
      apply wp_bind. eapply wp_idx2page; [destruct Hg2 as (_ & -> & _); done|].
      eapply (wp_put_last None s2 z o); [done|done|done|done|].
      intros s3 Hb3 Hg3 Ht3 Hblk3. apply HQ; [done| | |].
      * eapply same_ground_trans; [exact Hg1|]. by eapply same_ground_trans.
      * intros i. rewrite (free_page_put s2 s3 _ _ Hblk3), Hfr2, Hfr1.
        by replace (zb + (base - zb)) with base by lia.
      * assert (total_free s1 = total_free s) by (unfold total_free, count_at; by rewrite Hn1). lia.
    + assert (in_block base order p) as Hin by (unfold in_block; lia).
      destruct Hz1 as (zb' & _ & _ & _ & Hi).
      destruct (proj1 (shape_lookup _ _ _ _) (Hi p Hin)) as (pg & Hpg & _ & Hr).
      assert (¬ free_page s1 p) as Hnf by (rewrite Hfr1; by apply Hfree).
      apply wp_bind. eapply wp_get_page; [done|]. rewrite wp_bind, wp_assert. split.
      { rewrite Hr. cbn [negb andb]. destruct (PageProperty pg) eqn:Ep; [|done]. exfalso. apply Hnf.
        pose proof (b_flag _ _ Hb1 p pg ltac:(done) Hpg Hr Ep) as Hb.
        exists (property pg), p. split; [done|]. unfold in_block.
        pose proof (pow2_pos _ (proj1 (blk_order _ _ _ _ Hb1 Hb))). lia. }
      apply wp_bind. eapply wp_reset_page; [done..|]. intros s2 Hb2 Hg2 Hf2 Hn2. rewrite wp_ret.
      split; [|lia]. split_and!; try done; try lia; try congruence.
      by eapply same_ground_trans.
  - split_and!; try done; lia.
  - lia.
Qed.

(** [n] unreserved pages of zone [z] from [p] on. *)
Definition zone_range (s : bstate) (z p n : Z) : Prop :=
  ∃ base, zones s !! z = Some base ∧ 0 ≤ base ≤ p ∧
    ∀ i, p ≤ i < p + n → shape s !! i = Some (z, false).

Lemma zone_range_ground s s' z p n : same_ground s s' → zone_range s z p n → zone_range s' z p n.
Proof. intros (E1 & E2 & _). unfold zone_range. by rewrite E1, E2. Qed.

Lemma in_zone_range s z p o : in_zone s z p o → zone_range s z p (2 ^ o).
Proof. intros (b & H1 & H2 & _ & H3). by exists b. Qed.

Lemma land_pow2 q o : 0 ≤ o → Z.land (q * 2 ^ o) (2 ^ o) = if Z.even q then 0 else 2 ^ o.
Proof.
  intros Ho. rewrite <- (Z.shiftl_mul_pow2 q) by done. rewrite <- (shiftl_1 o) at 1 by done.
  rewrite <- Z.shiftl_land, land_1_odd, <- Z.negb_even.
  destruct (Z.even q); cbn [negb]; [apply Z.shiftl_0_l|by apply shiftl_1].
Qed.

Lemma mod_double q o : 0 ≤ o →
  (if Z.even q then q * 2 ^ o else q * 2 ^ o + 2 ^ o) mod 2 ^ (o + 1) = 0.
Proof.
  intros Ho. apply Z.mod_divide; [apply Z.pow_nonzero; lia|]. rewrite Z.add_1_r, Z.pow_succ_r by lia.
  destruct (Z.even q) eqn:E.
  - apply Z.even_spec in E as [k ->]. exists k. lia.
  - assert (Z.odd q = true) as Hodd by (by rewrite <- Z.negb_even, E).
    apply Z.odd_spec in Hodd as [k ->]. exists (k + 1). lia.
Qed.

(** One block of a range being freed from its front. *)
Lemma wp_free_front s z zb p n o (Q : unit → bstate → Prop) :
  binv s → 0 ≤ o ≤ MAX_ORDER → zones s !! z = Some zb → zone_range s z p n → 2 ^ o ≤ n →
  (p - zb) mod 2 ^ o = 0 → (∀ i, p ≤ i < p + n → ¬ free_page s i) →
  (∀ s', binv s' → same_ground s s' →
     (∀ i, free_page s' i ↔ free_page s i ∨ p ≤ i < p + 2 ^ o) →
     total_free s' = total_free s + 2 ^ o → Q tt s') →
  wp (buddy_free_pages_sub p o) s Q.
Proof.
  intros Hs Ho Hz (zb' & Hz' & H0 & Hi) Hle Hal Hno HQ. assert (zb' = zb) as -> by congruence.
  eapply (wp_free_sub s z); [done|done| | |].
  - exists zb. split_and!; try done; try lia. intros i Hi'. apply Hi. lia.
  - intros i Hi'. apply Hno. unfold in_block in Hi'. lia.
  - exact HQ.
Qed.

Lemma wp_free_pages s z base n (Q : unit → bstate → Prop) :
  binv s → 0 < n ≤ 2 ^ MAX_ORDER → zone_range s z base n →
  (∀ i, base ≤ i < base + n → ¬ free_page s i) →
  (∀ s', binv s' → same_ground s s' →
     (∀ i, free_page s' i ↔ free_page s i ∨ base ≤ i < base + n) →
     total_free s' = total_free s + n → Q tt s') →
  wp (buddy_free_pages base n) s Q.
Proof.
  intros Hs Hn Hr Hno HQ. pose proof Hr as (zb & Hz & H0 & Hi).
  unfold buddy_free_pages. rewrite wp_bind, wp_assert. split; [apply Z.ltb_lt; lia|].
  destruct (Z.eqb_spec n 1) as [->|Hn1].
  { apply (wp_free_front s z zb base 1 0); try done; try lia. apply Z.mod_1_r. }
  set (R s1 base1 n1 := binv s1 ∧ same_ground s s1 ∧ base ≤ base1 ∧ 0 ≤ n1 ∧
    base1 + n1 = base + n ∧ (∀ i, free_page s1 i ↔ free_page s i ∨ base ≤ i < base1) ∧
    total_free s1 = total_free s + (base1 - base)).
  (* freeing the next block *)
  assert (∀ s1 base1 n1 o (Q' : unit → bstate → Prop), R s1 base1 n1 → 0 ≤ o ≤ MAX_ORDER →
    2 ^ o ≤ n1 → (base1 - zb) mod 2 ^ o = 0 →
    (∀ s2, R s2 (base1 + 2 ^ o) (n1 - 2 ^ o) → Q' tt s2) →
    wp (buddy_free_pages_sub base1 o) s1 Q') as Hstep.
  { intros s1 base1 n1 o Q' (Hb1 & Hg1 & Hbase & Hn1' & Hsum & Hfr1 & Ht1) Ho Hle Hal HQ'.
    pose proof (pow2_pos o ltac:(lia)).
    apply (wp_free_front s1 z zb base1 n1 o); try done.
    - destruct Hg1 as (_ & -> & _). done.
    - apply (zone_range_ground s); [done|]. exists zb. split_and!; try done; try lia.
      intros i Hi'. apply Hi. lia.
    - intros i Hi' [Hf|?]%Hfr1; [|lia]. apply (Hno i); [lia|done].
    - intros s2 Hb2 Hg2 Hfr2 Ht2. apply HQ'. split_and!; try done; try lia.
      + by eapply same_ground_trans.
      + intros i. rewrite Hfr2, Hfr1. split; [intros [[?|?]|?]|intros [?|?]]; try (by left);
          try (right; lia); [by left; left|].
        destruct (decide (base1 ≤ i)); [right; lia|left; right; lia]. }
  assert (R s base n) as HR0.
  { split_and!; try done; try lia. intros i. split; [by left|intros [?|?]; [done|lia]]. }
  apply wp_bind.
  apply (wp_loop _ (λ '(base1, n1, o, sz) s1, R s1 base1 n1 ∧ 0 < n1 ∧ sz = 2 ^ o ∧
      0 ≤ o ≤ MAX_ORDER ∧ (base1 - zb) mod 2 ^ o = 0)
      (λ '(_, _, o, _) _, Z.to_nat (MAX_ORDER + 1 - o))).
  - intros [[[base1 n1] o] sz] s1 (HR & Hn1' & -> & Ho & Hal).
    pose proof (pow2_pos o ltac:(lia)) as Hpow.
    destruct (Z.leb_spec n1 (2 ^ o)) as [Hle|Hgt].
    + rewrite wp_ret. cbn [fst snd].
      apply (wp_loop _ (λ '(base1, n1, o, sz) s1, R s1 base1 n1 ∧ sz = 2 ^ o ∧
          0 ≤ o ≤ MAX_ORDER ∧ (base1 - zb) mod 2 ^ o = 0)
          (λ '(_, n1, o, _) _, Z.to_nat (n1 + o))); [|done|lia].
      clear s1 base1 n1 o HR Hn1' Ho Hal Hpow Hle.
      intros [[[base1 n1] o] sz] s1 (HR & -> & Ho & Hal).
      pose proof (pow2_pos o ltac:(lia)) as Hpow.
      pose proof HR as (Hb1 & Hg1 & Hbase & Hn0 & Hsum & Hfr1 & Ht1).
      destruct (Z.eqb_spec n1 0) as [->|Hnz].
      { rewrite wp_ret. rewrite Z.add_0_r in Hsum. subst base1.
        apply HQ; [done|done|done|lia]. }
      destruct (Z.ltb_spec n1 (2 ^ o)) as [Hlt|Hge].
      * assert (0 < o) as Hpos by (destruct (decide (o = 0)) as [->|]; [cbn in Hlt; lia|lia]).
        destruct (pow2_half o Hpos) as [-> E2]. rewrite wp_ret, (wrap_small 64) by (unfold MAX_ORDER in *; lia).
        split; [|lia]. split_and!; try done; try lia.
        apply Z.mod_divide in Hal; [|lia].
        apply Z.mod_divide; [pose proof (pow2_pos (o - 1)); lia|].
        eapply Z.divide_trans; [|exact Hal]. exists 2. lia.
      * apply wp_bind. eapply Hstep; [done|done|done|done|]. intros s2 HR2. rewrite wp_ret.
        split; [|lia]. split_and!; try done; try lia.
        replace (base1 + 2 ^ o - zb) with ((base1 - zb) + 1 * 2 ^ o) by lia.
        by rewrite Z_mod_plus_full.
    + rewrite wp_bind, wp_assert. split; [apply Z.leb_le; lia|].
      pose proof HR as (Hb1 & Hg1 & Hbase & Hn0 & Hsum & Hfr1 & Ht1).
      assert (o < MAX_ORDER) as HoM.
      { destruct (decide (o = MAX_ORDER)) as [->|]; lia. }
      assert (in_zone s1 z base1 o) as Hzo.
      { apply (in_zone_ground s); [done|]. exists zb. split_and!; try done; try lia.
        intros i Hi'. apply Hi. lia. }
      apply wp_bind. eapply wp_page2idx; [done|apply Ho|done|]. intros zb' Hz' _ _.
      assert (zb' = zb) as -> by (destruct Hg1 as (_ & E & _); congruence).
      assert (∃ q, base1 - zb = q * 2 ^ o) as [q Eq].
      { apply Z.mod_divide in Hal as [q ?]; [by exists q|lia]. }
      rewrite Eq, land_pow2 by lia.
      assert (Z.shiftl (2 ^ o) 1 = 2 ^ (o + 1)) as Esh.
      { rewrite Z.shiftl_mul_pow2, Z.add_1_r, Z.pow_succ_r by lia. lia. }
      pose proof (mod_double q o ltac:(lia)) as Hdbl. rewrite Esh. apply wp_bind.
      destruct (Z.even q) eqn:Ev.
      * rewrite Z.eqb_refl, wp_ret, wp_ret. split; [|lia]. split_and!; try done; try lia.
        by rewrite Eq.
      * destruct (Z.eqb_spec (2 ^ o) 0); [lia|]. apply wp_bind.
        eapply (Hstep s1 base1 n1); [done|lia|lia|done|]. intros s2 HR2. rewrite wp_ret, wp_ret.
        split; [|lia]. split_and!; try done; try lia.
        replace (base1 + 2 ^ o - zb) with (q * 2 ^ o + 2 ^ o) by lia. done.
  - split_and!; try done; try lia. apply Z.mod_1_r.
  - unfold MAX_ORDER. lia.
Qed.

Lemma wp_alloc_pages s n (Q : option Z → bstate → Prop) :
  binv s → 0 < n ≤ 2 ^ MAX_ORDER →
  ((∀ o p, n ≤ 2 ^ o → ¬ blk s o p) → Q None s) →
  (∀ page z s', binv s' → same_ground s s' → zone_range s z page n →
     (∀ i, page ≤ i < page + n → free_page s i) →
     (∀ i, free_page s' i ↔ free_page s i ∧ ¬ page ≤ i < page + n) →
     total_free s' = total_free s - n → Q (Some page) s') →
  wp (buddy_alloc_pages n) s Q.
Proof.
  intros Hs Hn HQ0 HQ1. unfold buddy_alloc_pages. rewrite wp_bind, wp_assert.
  split; [apply Z.ltb_lt; lia|].
  destruct (getorder_run s n Hn) as (o & Eo & Ho & Hle & Hlow).
  apply wp_bind. eapply wp_of_run; [exact Eo|]. rewrite shiftl_1 by lia.
  pose proof (pow2_pos o ltac:(lia)) as Hpow.
  apply wp_bind. eapply (wp_alloc_sub s o); [done|done| |].
  - intros Hno. rewrite wp_ret. apply HQ0. intros o' p Hn' Hb. apply (Hno o' p); [|done].
    destruct (decide (o ≤ o')) as [|Hgt]; [done|exfalso].
    pose proof (blk_order _ _ _ _ Hs Hb). specialize (Hlow ltac:(lia)).
    assert (2 ^ o' ≤ 2 ^ (o - 1)) by (apply Z.pow_le_mono_r; lia). lia.
  - intros page z s1 Hb1 Hg1 Hz Hall Hfr1 Ht1.
    pose proof (in_zone_range _ _ _ _ Hz) as (zb & Hzb & H0 & Hi).
    assert (zone_range s z page n) as Hrn.
    { exists zb. split_and!; try done; try lia. intros i Hi'. apply Hi. lia. }
    assert (∀ i, page ≤ i < page + n → free_page s i) as Halln.
    { intros i Hi'. apply Hall. unfold in_block. lia. }
    destruct (Z.eqb_spec n (2 ^ o)) as [->|Hne].
    + rewrite wp_bind, wp_ret, wp_ret. by apply (HQ1 page z).
    + apply wp_bind. apply (wp_free_pages s1 z (page + n) (2 ^ o - n)); [done| | | |].
      * assert (2 ^ o ≤ 2 ^ MAX_ORDER) by (apply Z.pow_le_mono_r; lia). lia.
      * apply (zone_range_ground s); [done|]. exists zb. split_and!; try done; try lia.
        intros i Hi'. apply Hi. lia.
      * intros i Hi' [_ Hn']%Hfr1. apply Hn'. unfold in_block. lia.
      * intros s2 Hb2 Hg2 Hfr2 Ht2. rewrite wp_ret. apply (HQ1 page z); try done; try lia.
        -- by eapply same_ground_trans.
        -- intros i. rewrite Hfr2, Hfr1. unfold in_block. split.
           ++ intros [[? ?]|?]; [split; [done|lia]|]. split; [apply Hall; unfold in_block; lia|lia].
           ++ intros [? ?]. destruct (decide (page ≤ i ∧ i < page + 2 ^ o)); [right; lia|left].
              split; [done|lia].
Qed.

(** ** The count *)

Definition blocks_of (s : bstate) : list (Z * Z) :=
  orders ≫= λ o, (λ p, (o, p)) <$> default [] (free_list s !! o).
Definition free_pages_of (s : bstate) : list Z :=
  blocks_of s ≫= λ '(o, p), seqZ p (2 ^ o).

Lemma elem_of_blocks x s o p : binv_but x s → (o, p) ∈ blocks_of s ↔ blk s o p.
Proof.
  intros Hs. unfold blocks_of, blk. rewrite list_elem_of_bind. split.
  - intros (o' & Hin & Ho'). apply list_elem_of_fmap in Hin as (p' & [= -> ->] & Hp').
    destruct (free_list s !! o'); [by eexists|by apply elem_of_nil in Hp'].
  - intros (l & Hl & Hp). exists o. split.
    + apply list_elem_of_fmap. exists p. by rewrite Hl.
    + apply elem_of_orders. by eapply b_keys.
Qed.

Lemma elem_of_free_pages x s i : binv_but x s → i ∈ free_pages_of s ↔ free_page s i.
Proof.
  intros Hs. unfold free_pages_of, free_page. rewrite list_elem_of_bind. split.
  - intros ([o p] & Hi%elem_of_seqZ & Hb). exists o, p. split; [by eapply elem_of_blocks|].
    unfold in_block. lia.
  - intros (o & p & Hb & Hi). exists (o, p). split; [apply elem_of_seqZ; exact Hi|].
    by eapply elem_of_blocks.
Qed.

Lemma nodup_blocks x s : binv_but x s → NoDup (blocks_of s).
Proof.
  intros Hs. apply NoDup_bind.
  - intros o1 o2 [o p] _ _ (? & [= -> ->] & _)%list_elem_of_fmap (? & [= -> ->] & _)%list_elem_of_fmap.
    done.
  - intros o Ho%elem_of_orders. destruct (b_lists _ _ Hs o Ho) as (l & -> & Hnd & _).
    apply NoDup_fmap_2; [|done]. by intros ?? [= ->].
  - apply NoDup_seqZ.
Qed.

Lemma nodup_free_pages x s : binv_but x s → NoDup (free_pages_of s).
Proof.
  intros Hs. apply NoDup_bind; [| |by eapply nodup_blocks].
  - intros [o1 p1] [o2 p2] i H1 H2 Hi1%elem_of_seqZ Hi2%elem_of_seqZ.
    apply (elem_of_blocks x) in H1; [|done]. apply (elem_of_blocks x) in H2; [|done].
    destruct (b_disj _ _ Hs _ _ _ _ H1 H2) as [[-> ->]|?]; [done|lia].
  - intros [o p] _. apply NoDup_seqZ.
Qed.

Lemma length_order_pages o (k : list Z) :
  0 ≤ o → zlen (((λ p, (o, p)) <$> k) ≫= λ '(o, p), seqZ p (2 ^ o)) = zlen k * 2 ^ o.
Proof.
  intros Ho. pose proof (pow2_pos o Ho). induction k as [|p k IH]; [done|].
  rewrite fmap_cons, bind_cons, length_app, length_seqZ.
  cbn [length]. rewrite Nat2Z.inj_add, IH. lia.
Qed.

Lemma length_free_pages x s : binv_but x s → zlen (free_pages_of s) = total_free s.
Proof.
  intros Hs. unfold free_pages_of, blocks_of, total_free.
  assert (∀ l, (∀ o, o ∈ l → 0 ≤ o ≤ MAX_ORDER) →
    zlen ((l ≫= λ o, (λ p, (o, p)) <$> default [] (free_list s !! o)) ≫= λ '(o, p), seqZ p (2 ^ o))
    = foldr (λ o t, count_at s o + t) 0 l) as H.
  { induction l as [|o l IH]; intros Hl; [done|]. cbn.
    rewrite bind_app, length_app, Nat2Z.inj_add, IH by (intros; apply Hl; by right).
    f_equal. unfold count_at.
    assert (0 ≤ o ≤ MAX_ORDER) as Ho by (apply Hl; by left).
    destruct (b_lists _ _ Hs o Ho) as (k & -> & _ & ->). cbn [default].
    apply length_order_pages. lia. }
  apply H. intros o. apply elem_of_orders.
Qed.

Lemma nr_free_run x s : binv_but x s → buddy_nr_free_pages s = Ok (total_free s, s).
Proof.
  intros Hs. apply wp_result. unfold buddy_nr_free_pages.
  set (part o := foldr (λ o t, count_at s o + t) 0 (seqZ 0 o)).
  assert (∀ o, 0 ≤ o → part (o + 1) = part o + count_at s o) as Hpart.
  { intros o Ho. unfold part. rewrite seqZ_app, foldr_app by lia.
    change (seqZ (0 + o) 1) with [o]. cbn [foldr]. rewrite Z.add_0_r.
    generalize (count_at s o). generalize (seqZ 0 o). clear. induction l as [|a l IH]; intros c; cbn; [lia|].
    rewrite IH. lia. }
  assert (∀ o, 0 ≤ o ≤ MAX_ORDER → 0 ≤ count_at s o ≤ 2 ^ 58) as Hc.
  { intros o Ho. unfold count_at. destruct (b_lists _ _ Hs o Ho) as (l & Hl & Hnd & ->). cbn.
    pose proof (nr_bound _ _ _ _ Hs Hl Hnd). pose proof (b_small _ _ Hs). pose proof (pow2_pos o ltac:(lia)).
    assert (2 ^ o ≤ 2 ^ MAX_ORDER) by (apply Z.pow_le_mono_r; lia). unfold MAX_ORDER in *.
    change (2 ^ 58) with (2 ^ 48 * 2 ^ 10). nia. }
  apply (wp_loop _ (λ '(ret, o) s', s' = s ∧ 0 ≤ o ≤ MAX_ORDER + 1 ∧ ret = part o ∧ 0 ≤ ret ≤ o * 2 ^ 58)
    (λ '(_, o) _, Z.to_nat (MAX_ORDER + 1 - o))).
  - intros [ret o] s' (-> & Ho & -> & Hret). destruct (Z.ltb_spec MAX_ORDER o).
    { rewrite wp_ret. split; [|done]. by assert (o = MAX_ORDER + 1) as -> by lia. }
    specialize (Hc o ltac:(lia)). specialize (Hpart o ltac:(lia)).
    rewrite wp_bind, wp_gets. rewrite shiftl_1 by lia. unfold count_at in Hc, Hpart.
    destruct (b_lists _ _ Hs o ltac:(lia)) as (l & Hl & Hnd & Hnr). rewrite Hnr in *. cbn in Hc, Hpart.
    cbn [of_option].
    rewrite wp_bind, wp_ret, wp_ret, (wrap_small 64) by (unfold MAX_ORDER in *; lia).
    split; [|lia]. split_and!; try done; try lia.
  - split_and!; try done; lia.
  - unfold MAX_ORDER. lia.
Qed.

(** ** [buddy_init_memmap] *)

Lemma wp_put_memmap {A} x s z o p (k : M bstate A) (Q : A → bstate → Prop) :
  binv_but x s → 0 ≤ o ≤ MAX_ORDER → in_zone s z p o →
  (∀ i, in_block p o i → ¬ free_page s i) →
  (∀ s', binv_but x s' → same_ground s s' → total_free s' = total_free s + 2 ^ o →
     (∀ o' p', blk s' o' p' ↔ blk s o' p' ∨ (o' = o ∧ p' = p)) →
     zone_cnt s' = zone_cnt s → wp k s' Q) →
  wp (upd_page p (λ pg, SetPageProperty (set_property o pg));; free_add o p;; add_nr o 1;; k) s Q.
Proof.
  intros Hs Ho Hz Hfree HQ.
  destruct (b_lists _ _ Hs o Ho) as (l & Hl & Hnd & Hnr).
  pose proof (nr_bound _ _ _ _ Hs Hl Hnd). pose proof (b_small _ _ Hs).
  pose proof (pow2_pos o ltac:(lia)).
  assert (∃ pg, pages s !! p = Some pg) as [pg Hp].
  { destruct Hz as (base & _ & _ & _ & Hi). specialize (Hi p ltac:(lia)).
    apply shape_lookup in Hi as (pg & ? & _). eauto. }
  destruct (put_ok x s z o p l (zlen l) pg Hs Ho Hz Hfree Hl Hnr Hp) as (Hs' & Hg & Ht).
  apply wp_bind. eapply wp_upd_page; [done|]. apply wp_bind. eapply wp_free_add; [done|].
  apply wp_bind. eapply wp_add_nr; [done|]. rewrite (wrap_small 64) by lia.
  change (wp k (put_state o p l (zlen l) pg s) Q).
  apply HQ; try done. intros. by apply blk_put.
Qed.

(** A reserved page handed to zone [z]. *)
Lemma wp_init_page s z p pg (Q : unit → bstate → Prop) :
  binv s → pages s !! p = Some pg → PageReserved pg = true →
  (∀ s', binv s' → shape s' = <[p := (z, false)]> (shape s) → zones s' = zones s →
     npage s' = npage s → zone_cnt s' = zone_cnt s → free_list s' = free_list s →
     nr_free s' = nr_free s → Q tt s') →
  wp (upd_page p (λ pg, set_page_ref 0 (set_zone z (set_property 0 (set_flags 0 pg))))) s Q.
Proof.
  intros Hs Hp Hr HQ. eapply wp_upd_page; [done|]. set (s' := set_pages _ s).
  assert (shape s' = <[p := (z, false)]> (shape s)) as Hsh
    by (unfold shape, s'; cbn [pages set_pages]; by rewrite fmap_insert).
  assert (∀ z' q o i, in_zone s z' q o → q ≤ i < q + 2 ^ o → i ≠ p) as Hne.
  { intros z' q o i (b & _ & _ & _ & Hi) Hi' ->. specialize (Hi p Hi').
    apply shape_lookup in Hi as (pg' & E & _ & E'). congruence. }
  apply HQ; try done. pose proof Hs as [H1 H2 H3 H4 H5 H6 H7 H8]. split; try done.
  - intros i. cbn [pages set_pages npage s']. destruct (decide (i = p)) as [->|].
    + rewrite lookup_insert_eq. rewrite <- H1, Hp. split; eauto.
    + by rewrite lookup_insert_ne.
  - intros o q Hb. destruct (H5 o q Hb) as [z' Hz]. exists z'.
    pose proof Hz as (b & Eb & H0 & Hm & Hi). exists b. split_and!; try done; try lia.
    intros i Hi'. rewrite Hsh, lookup_insert_ne; [by apply Hi|]. intros ->. by eapply Hne.
  - intros i pg' Hi. cbn [pages set_pages s']. destruct (decide (i = p)) as [->|].
    + rewrite lookup_insert_eq. by intros [= <-].
    + rewrite lookup_insert_ne by done. by apply H6.
  - intros o q pg' Hb. cbn [pages set_pages s']. rewrite lookup_insert_ne; [by apply H7|].
    intros ->. destruct (H5 o q Hb) as [z' Hz]. eapply Hne; [exact Hz| |done].
    pose proof (pow2_pos o (proj1 (blk_order _ _ _ _ Hs Hb))). lia.
Qed.

Lemma binv_zones s zs c : binv s → (∀ z b, zones s !! z = Some b → zs !! z = Some b) →
  binv (set_zones zs c s).
Proof.
  intros [H1 H2 H3 H4 H5 H6 H7 H8] Hz. split; try done.
  intros o p Hb. destruct (H5 o p Hb) as (z & b & Eb & H). exists z, b. split; [by apply Hz|done].
Qed.

Lemma wp_memmap s base n (Q : unit → bstate → Prop) :
  binv s → 0 < n → 0 ≤ base → zone_cnt s < MAX_ZONE_NUM → zones s !! zone_cnt s = None →
  (∀ i, base ≤ i < base + n → ∃ pg, pages s !! i = Some pg ∧ PageReserved pg = true) →
  (∀ s', binv s' → zone_range s' (zone_cnt s) base n → zone_cnt s' = zone_cnt s + 1 →
     (∀ i, free_page s' i ↔ free_page s i ∨ base ≤ i < base + n) →
     total_free s' = total_free s + n → Q tt s') →
  wp (buddy_init_memmap base n) s Q.
Proof.
  intros Hs Hn Hb0 Hzc Hznew Hres HQ. unfold buddy_init_memmap. rewrite wp_bind, wp_gets.
  rewrite wp_bind, wp_assert. split; [apply andb_true_intro; split; apply Z.ltb_lt; lia|].
  assert (∀ i, base ≤ i < base + n → ¬ free_page s i) as Hnof.
  { intros i Hi (o & p & Hb & Hin). destruct (b_zone _ _ Hs _ _ Hb) as (z & b & _ & _ & _ & Hall).
    destruct (proj1 (shape_lookup _ _ _ _) (Hall i Hin)) as (pg & E & _ & E'). destruct (Hres i Hi) as (pg' & E1 & E2).
    congruence. }
  apply wp_bind.
  apply (wp_loop _ (λ p s1, base ≤ p ≤ base + n ∧ binv s1 ∧ zones s1 = zones s ∧
      zone_cnt s1 = zone_cnt s ∧ free_list s1 = free_list s ∧ nr_free s1 = nr_free s ∧
      (∀ i, base ≤ i < p → shape s1 !! i = Some (zone_cnt s, false)) ∧
      (∀ i, p ≤ i < base + n → ∃ pg, pages s1 !! i = Some pg ∧ PageReserved pg = true))
      (λ p _, Z.to_nat (base + n - p))).
  2:{ split_and!; try done; try lia. }
  2:{ lia. }
  intros p s1 (Hp & Hb1 & Hz1 & Hc1 & Hf1 & Hn1 & Hdone & Htodo).
  destruct (Z.eqb_spec p (base + n)) as [->|Hne].
  2:{ destruct (Htodo p ltac:(lia)) as (pg & Hpg & Hr).
      apply wp_bind. eapply wp_get_page; [done|]. rewrite wp_bind, wp_assert. split; [done|].
      apply wp_bind. eapply (wp_init_page s1 (zone_cnt s) p pg); [done|done|done|].
      intros s2 Hb2 Hsh2 Hz2 Hnp2 Hc2 Hf2 Hn2. rewrite wp_ret. split; [|lia].
      split_and!; try lia; try congruence; try done.
      - intros i Hi. rewrite Hsh2. destruct (decide (i = p)) as [->|];
          [by rewrite lookup_insert_eq|rewrite lookup_insert_ne by done; apply Hdone; lia].
      - intros i Hi. destruct (Htodo i ltac:(lia)) as (pg' & E & Er).
        assert (shape s2 !! i = Some (zone_num pg', true)) as E2.
        { rewrite Hsh2, lookup_insert_ne by lia. apply shape_lookup. eauto. }
        apply shape_lookup in E2 as (pg2 & ? & _ & ?). eauto. }
  rewrite wp_ret, wp_bind, wp_modify. set (s2 := set_zones _ _ s1).
  assert (binv s2) as Hb2.
  { apply binv_zones; [done|]. intros z b E. rewrite lookup_insert_ne; [done|]. intros <-. congruence. }
  set (R s' p' n' := binv s' ∧ same_ground s2 s' ∧ zone_cnt s' = zone_cnt s + 1 ∧ base ≤ p' ∧
    0 ≤ n' ∧ p' + n' = base + n ∧ (∀ i, free_page s' i ↔ free_page s i ∨ base ≤ i < p') ∧
    total_free s' = total_free s + (p' - base)).
  assert (zones s2 !! zone_cnt s = Some base) as Hzb
    by (unfold s2; cbn; by rewrite lookup_insert_eq).
  apply (wp_loop _ (λ '(n', p', o, sz) s', R s' p' n' ∧ sz = 2 ^ o ∧ 0 ≤ o ≤ MAX_ORDER ∧
      (p' - base) mod 2 ^ o = 0) (λ '(n', _, o, _) _, Z.to_nat (n' + o))).
  - intros [[[n' p'] o] sz] s' (HR & -> & Ho & Hal). pose proof (pow2_pos o ltac:(lia)) as Hpow.
    pose proof HR as (Hb' & Hg' & Hc' & Hp' & Hn0 & Hsum & Hfr' & Ht').
    destruct (Z.eqb_spec n' 0) as [->|Hnz].
    { rewrite wp_ret. assert (p' = base + n) as -> by lia. apply HQ; try done; [|lia].
      apply (zone_range_ground s2); [done|]. exists base. split_and!; try done; lia. }
    destruct (Z.leb_spec (2 ^ o) n') as [Hle|Hgt].
    + eapply (wp_put_memmap None s' (zone_cnt s)); [done|done| | |].
      * apply (in_zone_ground s2); [done|]. exists base. split_and!; try done; try lia.
        intros i Hi. apply Hdone. lia.
      * unfold in_block. intros i Hi [Hf|?]%Hfr'; [|lia]. apply (Hnof i); [lia|done].
      * intros s3 Hb3 Hg3 Ht3 Hblk3 Hc3. rewrite wp_ret. split; [|lia].
        unfold R. split_and!; try done; try lia.
        -- by eapply same_ground_trans.
        -- intros i. rewrite (free_page_put s' s3 _ _ Hblk3), Hfr'. unfold in_block.
           split; [intros [[?|?]|?]|intros [?|?]]; try (by left); try (right; lia); [by left; left|].
           destruct (decide (p' ≤ i)); [right; lia|left; right; lia].
        -- replace (p' + 2 ^ o - base) with ((p' - base) + 1 * 2 ^ o) by lia.
           by rewrite Z_mod_plus_full.
    + assert (0 < o) as Hpos by (destruct (decide (o = 0)) as [->|]; [cbn in Hgt; lia|lia]).
      destruct (pow2_half o Hpos) as [-> E2].
      rewrite wp_ret, (wrap_small 64) by (unfold MAX_ORDER in *; lia).
      split; [|lia]. split_and!; try done; try lia.
      apply Z.mod_divide in Hal; [|lia].
      apply Z.mod_divide; [pose proof (pow2_pos (o - 1)); lia|].
      eapply Z.divide_trans; [|exact Hal]. exists 2. lia.
  - assert (∀ i, free_page s2 i ↔ free_page s i) as Hfr2
      by (intros i; unfold free_page, blk, s2; cbn [free_list set_zones]; by rewrite Hf1).
    split_and!; try done; try lia; [unfold R; split_and!; try done; try lia|].
    + intros i. rewrite Hfr2. split; [by left|intros [?|?]; [done|lia]].
    + assert (total_free s2 = total_free s); [|lia].
      unfold total_free, count_at, s2. cbn [nr_free set_zones]. by rewrite Hn1.
    + rewrite Z.sub_diag. by apply Z.mod_0_l.
  - unfold MAX_ORDER. lia.
Qed.

(** ** Theorems *)

(** C21: an allocation hands out free pages, or there is no block large enough *)
Theorem buddy_alloc_spec s n :
  binv s → 0 < n ≤ 2 ^ MAX_ORDER →
  ∃ r s', buddy_alloc_pages n s = Ok (r, s') ∧ binv s' ∧
    match r with
    | Some page =>
        (∃ z, zone_range s z page n) ∧
        (∀ i, page ≤ i < page + n → free_page s i) ∧
        (∀ i, free_page s' i ↔ free_page s i ∧ ¬ page ≤ i < page + n) ∧
        total_free s' = total_free s - n
    | None => s' = s ∧ ∀ o p, n ≤ 2 ^ o → ¬ blk s o p
    end.
Proof.
  intros Hs Hn. apply wp_run. eapply wp_alloc_pages; [done|done| |].
  - intros Hno. by split_and!.
  - intros page z s' Hb Hg Hz Hall Hfr Ht. split_and!; try done. by exists z.
Qed.

(** C22: freeing a run of at most 2^MAX_ORDER pages of a zone, none of them free, gives
    exactly these pages back, however the run is aligned, and keeps the invariant *)
Theorem buddy_free_spec s z base n :
  binv s → 0 < n ≤ 2 ^ MAX_ORDER → zone_range s z base n →
  (∀ i, base ≤ i < base + n → ¬ free_page s i) →
  ∃ s', buddy_free_pages base n s = Ok (tt, s') ∧ binv s' ∧
    (∀ i, free_page s' i ↔ free_page s i ∨ base ≤ i < base + n) ∧
    total_free s' = total_free s + n.
Proof.
  intros Hs Hn Hr Hno. apply (wp_unit _ _ (λ s', binv s' ∧ _)).
  eapply wp_free_pages; [done..|]. eauto.
Qed.

(** What was allocated can be freed, and the allocator is as before *)
Theorem buddy_alloc_free_roundtrip s n page s1 :
  binv s → 0 < n ≤ 2 ^ MAX_ORDER → buddy_alloc_pages n s = Ok (Some page, s1) →
  ∃ s2, buddy_free_pages page n s1 = Ok (tt, s2) ∧ binv s2 ∧
    (∀ i, free_page s2 i ↔ free_page s i) ∧ total_free s2 = total_free s.
Proof.
  intros Hs Hn E.
  assert (wp (buddy_alloc_pages n) s (λ r s1, match r with
    | Some page => wp (buddy_free_pages page n) s1 (λ _ s2, binv s2 ∧
        (∀ i, free_page s2 i ↔ free_page s i) ∧ total_free s2 = total_free s)
    | None => True end)) as H.
  { eapply wp_alloc_pages; [done|done|done|].
    intros p z s' Hb Hg Hz Hall Hfr Ht. eapply wp_free_pages; [done|done| | |].
    - by eapply zone_range_ground.
    - intros i Hi [_ Hn']%Hfr. done.
    - intros s2 Hb2 _ Hfr2 Ht2. split_and!; [done| |lia]. intros i. rewrite Hfr2, Hfr. split.
      + intros [[? _]|?]; [done|by apply Hall].
      + intros ?. destruct (decide (p ≤ i ∧ i < p + n)); [right; lia|left; split; [done|lia]]. }
  unfold wp at 1 in H. rewrite E in H. by apply wp_unit in H.
Qed.

(** The count the allocator reports is the number of free pages *)
Theorem buddy_nr_free_pages_counts s :
  binv s →
  ∃ l, buddy_nr_free_pages s = Ok (zlen l, s) ∧ NoDup l ∧ ∀ i, i ∈ l ↔ free_page s i.
Proof.
  intros Hs. exists (free_pages_of s). split_and!.
  - rewrite (length_free_pages None) by done. by apply (nr_free_run None).
  - by eapply nodup_free_pages.
  - intros i. by apply (elem_of_free_pages None).
Qed.

(** A new zone's pages become free, in blocks that are aligned in the zone *)
Theorem buddy_init_memmap_spec s base n :
  binv s → 0 < n → 0 ≤ base → zone_cnt s < MAX_ZONE_NUM → zones s !! zone_cnt s = None →
  (∀ i, base ≤ i < base + n → ∃ pg, pages s !! i = Some pg ∧ PageReserved pg = true) →
  ∃ s', buddy_init_memmap base n s = Ok (tt, s') ∧ binv s' ∧
    zone_range s' (zone_cnt s) base n ∧
    (∀ i, free_page s' i ↔ free_page s i ∨ base ≤ i < base + n) ∧
    total_free s' = total_free s + n.
Proof.
  intros Hs Hn H0 Hz Hnew Hres. apply (wp_unit _ _ (λ s', binv s' ∧ _)).
  eapply wp_memmap; [done..|]. eauto 10.
Qed.

(** A request beyond the largest block panics *)
Theorem buddy_alloc_too_large s n :
  2 ^ MAX_ORDER < n → buddy_alloc_pages n s = Panic.
Proof.
  intros Hn. unfold buddy_alloc_pages, assert_.
  rewrite (proj2 (Z.ltb_lt 0 n)) by (pose proof (pow2_pos MAX_ORDER); unfold MAX_ORDER in *; lia).
  assert (getorder n s = Panic) as E.
  { assert (∀ k o, (Z.of_nat k + o = MAX_ORDER + 2) → 0 ≤ o → (0 < k)%nat →
      loop k (λ '(order, order_size),
        if MAX_ORDER <? order then panic else
        if n <=? order_size then mret (inr order)
        else mret (inl (order + 1, Z.shiftl order_size 1))) (o, 2 ^ o) s = Panic) as H.
    { induction k as [|k IH]; intros o Hk Ho Hpos; [lia|]. cbn [loop]. unfold mbind, M_bind.
      destruct (Z.ltb_spec MAX_ORDER o); [done|].
      assert (2 ^ o ≤ 2 ^ MAX_ORDER) by (apply Z.pow_le_mono_r; lia).
      destruct (Z.leb_spec n (2 ^ o)); [lia|]. cbn -[loop Z.add Z.shiftl].
      rewrite Z.shiftl_mul_pow2 by lia. replace (2 ^ o * 2 ^ 1) with (2 ^ (o + 1))
        by (rewrite Z.pow_add_r by lia; lia).
      apply IH; lia. }
    apply (H _ 0); unfold MAX_ORDER; lia. }
  unfold mbind, M_bind. cbn. by rewrite E.
Qed.

(** ** A small machine

    64 pages, all reserved at first; zone 0 is pages 4 to 53. *)

Lemma lookup_seqZ_map {A} (f : Z → A) n i :
  (list_to_map ((λ i, (i, f i)) <$> seqZ 0 n) : gmap Z A) !! i =
    if decide (0 ≤ i < n) then Some (f i) else None.
Proof.
  assert (((λ i, (i, f i)) <$> seqZ 0 n).*1 = seqZ 0 n) as E.
  { rewrite <- list_fmap_compose. apply list_fmap_id. }
  destruct (decide (0 ≤ i < n)).
  - apply elem_of_list_to_map; [rewrite E; apply NoDup_seqZ|].
    apply list_elem_of_fmap. exists i. split; [done|]. apply elem_of_seqZ. lia.
  - apply not_elem_of_list_to_map. rewrite E, elem_of_seqZ. lia.
Qed.

Definition raw_machine : bstate :=
  mk_bstate (list_to_map ((λ i, (i, mk_page 7 1 3 0)) <$> seqZ 0 64)) 64 ∅ ∅ ∅ 0.

Lemma lookup_init_free s o :
  free_list (buddy_init s) !! o = if decide (0 ≤ o < MAX_ORDER + 1) then Some [] else None.
Proof. apply (lookup_seqZ_map (λ _, [])). Qed.

Lemma init_ok s :
  (∀ i, is_Some (pages s !! i) ↔ 0 ≤ i < npage s) → 0 ≤ npage s < 2 ^ 48 →
  (∀ i pg, pages s !! i = Some pg → PageReserved pg = true) → binv (buddy_init s).
Proof.
  intros Hp Hn Hr. assert (∀ o p, ¬ blk (buddy_init s) o p) as Hno.
  { intros o p (l & E & Hin). rewrite lookup_init_free in E. case_decide; [|done].
    injection E as <-. by apply elem_of_nil in Hin. }
  split; try done.
  - intros o Ho. exists []. rewrite lookup_init_free. rewrite decide_True by lia.
    split; [done|]. split; [apply NoDup_nil_2|]. unfold buddy_init. cbn [nr_free set_nr].
    unfold orders. rewrite (lookup_seqZ_map (λ _, 0)). by rewrite decide_True by lia.
  - intros o l E. rewrite lookup_init_free in E. case_decide; [lia|done].
  - intros o p Hb. by apply Hno in Hb.
  - intros i pg _ E Er. rewrite (Hr i pg E) in Er. done.
  - intros o p pg Hb. by apply Hno in Hb.
  - intros o p o' p' Hb. by apply Hno in Hb.
Qed.

Definition fresh_machine : bstate := buddy_init raw_machine.

Lemma raw_lookup i :
  pages fresh_machine !! i = if decide (0 ≤ i < 64) then Some (mk_page 7 1 3 0) else None.
Proof. apply (lookup_seqZ_map (λ _, mk_page 7 1 3 0)). Qed.

Lemma fresh_machine_ok : binv fresh_machine.
Proof.
  apply init_ok; [|cbn; lia|]; intros i.
  - change (pages raw_machine) with (pages fresh_machine). rewrite raw_lookup. cbn [npage raw_machine].
    case_decide; [split; [done|by eexists]|split; [by intros [? ?]|done]].
  - intros pg. change (pages raw_machine) with (pages fresh_machine). rewrite raw_lookup.
    case_decide; [by intros [= <-]|done].
Qed.

Lemma buddy_init_memmap_spec_witness :
  ∃ s', buddy_init_memmap 4 50 fresh_machine = Ok (tt, s') ∧ binv s' ∧
    zone_range s' 0 4 50 ∧ (∀ i, free_page s' i ↔ free_page fresh_machine i ∨ 4 ≤ i < 4 + 50) ∧
    total_free s' = total_free fresh_machine + 50.
Proof.
  apply (buddy_init_memmap_spec fresh_machine 4 50);
    [apply fresh_machine_ok|lia|lia|done|done|].
  intros i Hi. exists (mk_page 7 1 3 0). rewrite raw_lookup, decide_True by lia. done.
Defined.

Definition state_of {A} (d : bstate) (r : outcome (A * bstate)) : bstate :=
  match r with Ok (_, s) => s | _ => d end.

Definition machine : bstate :=
  Eval vm_compute in state_of fresh_machine (buddy_init_memmap 4 50 fresh_machine).

Lemma machine_ok : binv machine ∧ total_free machine = 50.
Proof.
  assert (wp (buddy_init_memmap 4 50) fresh_machine (λ _ s, binv s ∧ total_free s = 50)) as H.
  { eapply wp_memmap; [apply fresh_machine_ok|lia|lia|done|done| |].
    - intros i Hi. exists (mk_page 7 1 3 0). rewrite raw_lookup, decide_True by lia. done.
    - intros s' Hb _ _ _ Ht. split; [done|]. rewrite Ht. done. }
  apply wp_unit in H as (s' & E & H).
  assert (machine = s') as ->; [|done].
  change machine with (state_of fresh_machine (Ok (tt, machine))).
  replace (Ok (tt, machine)) with (buddy_init_memmap 4 50 fresh_machine) by (by vm_compute).
  by rewrite E.
Qed.

Definition machine2 : bstate := Eval vm_compute in state_of machine (buddy_alloc_pages 6 machine).

Lemma buddy_alloc_run : buddy_alloc_pages 6 machine = Ok (Some 36, machine2).
Proof. by vm_compute. Qed.

Lemma buddy_alloc_spec_witness :
  ∃ r s', buddy_alloc_pages 6 machine = Ok (r, s') ∧ binv s' ∧
    match r with
    | Some page =>
        (∃ z, zone_range machine z page 6) ∧ (∀ i, page ≤ i < page + 6 → free_page machine i) ∧
        (∀ i, free_page s' i ↔ free_page machine i ∧ ¬ page ≤ i < page + 6) ∧
        total_free s' = total_free machine - 6
    | None => s' = machine ∧ ∀ o p, 6 ≤ 2 ^ o → ¬ blk machine o p
    end.
Proof. apply (buddy_alloc_spec machine 6); [apply machine_ok|unfold MAX_ORDER; lia]. Defined.

Lemma machine2_ok :
  binv machine2 ∧ (∃ z, zone_range machine2 z 36 6) ∧ ∀ i, 36 ≤ i < 36 + 6 → ¬ free_page machine2 i.
Proof.
  assert (wp (buddy_alloc_pages 6) machine (λ r s, r = Some 36 → binv s ∧
    (∃ z, zone_range s z 36 6) ∧ ∀ i, 36 ≤ i < 36 + 6 → ¬ free_page s i)) as H.
  { eapply wp_alloc_pages; [apply machine_ok|unfold MAX_ORDER; lia|done|].
    intros page z s' Hb Hg Hz _ Hfr _ [= ->]. split_and!; [done| |].
    - exists z. by eapply zone_range_ground.
    - intros i Hi [_ Hn]%Hfr. done. }
  unfold wp in H. rewrite buddy_alloc_run in H. by apply H.
Qed.

Lemma buddy_free_spec_witness :
  ∃ z s', zone_range machine2 z 36 6 ∧ buddy_free_pages 36 6 machine2 = Ok (tt, s') ∧ binv s' ∧
    (∀ i, free_page s' i ↔ free_page machine2 i ∨ 36 ≤ i < 36 + 6) ∧
    total_free s' = total_free machine2 + 6.
Proof.
  destruct machine2_ok as (Hb & (z & Hz) & Hno).
  destruct (buddy_free_spec machine2 z 36 6) as (s' & H); [done|unfold MAX_ORDER; lia|done|done|].
  exists z, s'. by split.
Defined.

Lemma buddy_alloc_free_roundtrip_witness :
  ∃ s2, buddy_free_pages 36 6 machine2 = Ok (tt, s2) ∧ binv s2 ∧
    (∀ i, free_page s2 i ↔ free_page machine i) ∧ total_free s2 = total_free machine.
Proof.
  apply (buddy_alloc_free_roundtrip machine 6 36 machine2);
    [apply machine_ok|unfold MAX_ORDER; lia|apply buddy_alloc_run].
Defined.

Lemma buddy_nr_free_pages_counts_witness :
  ∃ l, buddy_nr_free_pages machine = Ok (zlen l, machine) ∧ NoDup l ∧
    ∀ i, i ∈ l ↔ free_page machine i.
Proof. apply (buddy_nr_free_pages_counts machine), machine_ok. Defined.

Lemma buddy_alloc_too_large_witness : buddy_alloc_pages 1025 machine = Panic.
Proof. apply (buddy_alloc_too_large machine 1025). done. Defined.
