(* ===== verification/NetTypes.v ===== *)
(** * The data of the TCP stack: [net/tcp.h], [net/sock.h]

    The records of connections, segments and sockets, the header as it lies in
    memory, and the state the stack works on.  A [Socket *] is an address of the
    store [n_socks]; since a connection is a member of its socket at offset 0,
    the same number is the [Tcp *], and 0 is the null pointer.  Link fields are
    cells of one heap: each object's link has an address of its own, from which
    the object is recovered as [to_struct] does.

    What the stack calls outside itself (timers, semaphores, the IP layer, the
    allocator, the clock) is the class [NetEnv]. *)
From S2P Require Import Prelude Errors ListH Ipaddr TcpBuf.

(** ** Constants *)

Definition TCP_SBUF_SIZE : Z := 4096 * 2.
Definition TCP_RBUF_SIZE : Z := 4096 * 2.
Definition TCP_DEFAULT_MSS : Z := 536.
Definition TCP_KEEPALIVE_TIME : Z := 2 * 60 * 60.
Definition TCP_KEEPALIVE_PROBES : Z := 10.
Definition TCP_KEEPALIVE_INTVL : Z := 5.
Definition NET_CLOSE_MAX_TMO : Z := 5000.
Definition TCP_TMO_MSL : Z := 8000.
Definition TCP_INIT_RTO : Z := 1000.
Definition TCP_RTO_MAX : Z := 2000.
Definition TCP_INT_RETRIES : Z := 5.
Definition TCP_PERSIST_RETRIES : Z := 10.
Definition TCP_DUPTHRESH : Z := 3.
Definition TCP_RTO_MIN : Z := 200.
Definition TCP_PERSIST_TMO : Z := 1000.
Definition TCP_NAGLE_TMO : Z := 250.

Definition NET_PROTOCOL_TCP : Z := 6.
Definition NET_PORT_EMPTY : Z := 0.
Definition NET_PORT_DYN_START : Z := 1024.
Definition NET_PORT_DYN_END : Z := 65535.

Definition WT_INTERAUPTED : Z := 0x80000000.
Definition WT_SOCK_READ : Z := Z.lor 0x400 WT_INTERAUPTED.
Definition WT_SOCK_WRITE : Z := Z.lor 0x401 WT_INTERAUPTED.
Definition WT_SOCK_CONN : Z := Z.lor 0x402 WT_INTERAUPTED.
Definition WT_SOCK_CLOSE : Z := Z.lor 0x404 WT_INTERAUPTED.
Definition WT_SOCK_ALL : Z := Z.lor (Z.lor WT_SOCK_READ WT_SOCK_WRITE) WT_SOCK_CONN.

Definition SIZEOF_TCP_HDR : Z := 20.
Definition SIZEOF_TCP_OPT_MSS : Z := 4.
Definition SIZEOF_IPV4_HDR : Z := 20.
Definition TCP_OPT_END : Z := 0.
Definition TCP_OPT_NOP : Z := 1.
Definition TCP_OPT_MSS : Z := 2.

(** ** States *)

Inductive Tcp_state :=
| TCP_STATE_FREE | TCP_STATE_CLOSED | TCP_STATE_LISTEN | TCP_STATE_SYN_SENT
| TCP_STATE_SYN_RECVD | TCP_STATE_ESTABLISHED | TCP_STATE_FIN_WAIT_1 | TCP_STATE_FIN_WAIT_2
| TCP_STATE_CLOSING | TCP_STATE_TIME_WAIT | TCP_STATE_CLOSE_WAIT | TCP_STATE_LAST_ACK
| TCP_STATE_MAX.
#[export] Instance Tcp_state_eq_dec : EqDecision Tcp_state.
Proof. solve_decision. Defined.

(** The output state machine. *)
Inductive Tcp_ostate :=
| TCP_OSTATE_IDLE | TCP_OSTATE_SENDING | TCP_OSTATE_REXMIT | TCP_OSTATE_PERSIST | TCP_OSTATE_MAX.
#[export] Instance Tcp_ostate_eq_dec : EqDecision Tcp_ostate.
Proof. solve_decision. Defined.

Inductive Tcp_oevent := TCP_OEVENT_SEND | TCP_OEVENT_XMIT.

Inductive Socket_type := SOCK_NONE | SOCK_RAW | SOCK_UDP | SOCK_TCP.
#[export] Instance Socket_type_eq_dec : EqDecision Socket_type.
Proof. solve_decision. Defined.

(** ** Records *)

(** The header as a value, in host byte order or as it came, its bit fields apart ([fack] is [f_ack]). *)
Record Tcp_hdr := mk_hdr {
  h_sport : Z;
  h_dport : Z;
  h_seq : Z;
  h_ack : Z;
  h_resv : Z;
  h_shdr : Z;
  h_fin : bool;
  h_syn : bool;
  h_rst : bool;
  h_psh : bool;
  h_fack : bool;
  h_urg : bool;
  h_ece : bool;
  h_cwr : bool;
  h_win : Z;
  h_checksum : Z;
  h_urgptr : Z
}.
Definition set_h_sport (v : Z) (r : Tcp_hdr) : Tcp_hdr :=
  mk_hdr v (h_dport r) (h_seq r) (h_ack r) (h_resv r) (h_shdr r) (h_fin r) (h_syn r) (h_rst r)
    (h_psh r) (h_fack r) (h_urg r) (h_ece r) (h_cwr r) (h_win r) (h_checksum r) (h_urgptr r).
Definition set_h_dport (v : Z) (r : Tcp_hdr) : Tcp_hdr :=
  mk_hdr (h_sport r) v (h_seq r) (h_ack r) (h_resv r) (h_shdr r) (h_fin r) (h_syn r) (h_rst r)
    (h_psh r) (h_fack r) (h_urg r) (h_ece r) (h_cwr r) (h_win r) (h_checksum r) (h_urgptr r).
Definition set_h_seq (v : Z) (r : Tcp_hdr) : Tcp_hdr :=
  mk_hdr (h_sport r) (h_dport r) v (h_ack r) (h_resv r) (h_shdr r) (h_fin r) (h_syn r) (h_rst r)
    (h_psh r) (h_fack r) (h_urg r) (h_ece r) (h_cwr r) (h_win r) (h_checksum r) (h_urgptr r).
Definition set_h_ack (v : Z) (r : Tcp_hdr) : Tcp_hdr :=
  mk_hdr (h_sport r) (h_dport r) (h_seq r) v (h_resv r) (h_shdr r) (h_fin r) (h_syn r) (h_rst r)
    (h_psh r) (h_fack r) (h_urg r) (h_ece r) (h_cwr r) (h_win r) (h_checksum r) (h_urgptr r).
Definition set_h_resv (v : Z) (r : Tcp_hdr) : Tcp_hdr :=
  mk_hdr (h_sport r) (h_dport r) (h_seq r) (h_ack r) v (h_shdr r) (h_fin r) (h_syn r) (h_rst r)
    (h_psh r) (h_fack r) (h_urg r) (h_ece r) (h_cwr r) (h_win r) (h_checksum r) (h_urgptr r).
Definition set_h_shdr (v : Z) (r : Tcp_hdr) : Tcp_hdr :=
  mk_hdr (h_sport r) (h_dport r) (h_seq r) (h_ack r) (h_resv r) v (h_fin r) (h_syn r) (h_rst r)
    (h_psh r) (h_fack r) (h_urg r) (h_ece r) (h_cwr r) (h_win r) (h_checksum r) (h_urgptr r).
Definition set_h_fin (v : bool) (r : Tcp_hdr) : Tcp_hdr :=
  mk_hdr (h_sport r) (h_dport r) (h_seq r) (h_ack r) (h_resv r) (h_shdr r) v (h_syn r) (h_rst r)
    (h_psh r) (h_fack r) (h_urg r) (h_ece r) (h_cwr r) (h_win r) (h_checksum r) (h_urgptr r).
Definition set_h_syn (v : bool) (r : Tcp_hdr) : Tcp_hdr :=
  mk_hdr (h_sport r) (h_dport r) (h_seq r) (h_ack r) (h_resv r) (h_shdr r) (h_fin r) v (h_rst r)
    (h_psh r) (h_fack r) (h_urg r) (h_ece r) (h_cwr r) (h_win r) (h_checksum r) (h_urgptr r).
Definition set_h_rst (v : bool) (r : Tcp_hdr) : Tcp_hdr :=
  mk_hdr (h_sport r) (h_dport r) (h_seq r) (h_ack r) (h_resv r) (h_shdr r) (h_fin r) (h_syn r) v
    (h_psh r) (h_fack r) (h_urg r) (h_ece r) (h_cwr r) (h_win r) (h_checksum r) (h_urgptr r).
Definition set_h_psh (v : bool) (r : Tcp_hdr) : Tcp_hdr :=
  mk_hdr (h_sport r) (h_dport r) (h_seq r) (h_ack r) (h_resv r) (h_shdr r) (h_fin r) (h_syn r)
    (h_rst r) v (h_fack r) (h_urg r) (h_ece r) (h_cwr r) (h_win r) (h_checksum r) (h_urgptr r).
Definition set_h_fack (v : bool) (r : Tcp_hdr) : Tcp_hdr :=
  mk_hdr (h_sport r) (h_dport r) (h_seq r) (h_ack r) (h_resv r) (h_shdr r) (h_fin r) (h_syn r)
    (h_rst r) (h_psh r) v (h_urg r) (h_ece r) (h_cwr r) (h_win r) (h_checksum r) (h_urgptr r).
Definition set_h_urg (v : bool) (r : Tcp_hdr) : Tcp_hdr :=
  mk_hdr (h_sport r) (h_dport r) (h_seq r) (h_ack r) (h_resv r) (h_shdr r) (h_fin r) (h_syn r)
    (h_rst r) (h_psh r) (h_fack r) v (h_ece r) (h_cwr r) (h_win r) (h_checksum r) (h_urgptr r).
Definition set_h_ece (v : bool) (r : Tcp_hdr) : Tcp_hdr :=
  mk_hdr (h_sport r) (h_dport r) (h_seq r) (h_ack r) (h_resv r) (h_shdr r) (h_fin r) (h_syn r)
    (h_rst r) (h_psh r) (h_fack r) (h_urg r) v (h_cwr r) (h_win r) (h_checksum r) (h_urgptr r).
Definition set_h_cwr (v : bool) (r : Tcp_hdr) : Tcp_hdr :=
  mk_hdr (h_sport r) (h_dport r) (h_seq r) (h_ack r) (h_resv r) (h_shdr r) (h_fin r) (h_syn r)
    (h_rst r) (h_psh r) (h_fack r) (h_urg r) (h_ece r) v (h_win r) (h_checksum r) (h_urgptr r).
Definition set_h_win (v : Z) (r : Tcp_hdr) : Tcp_hdr :=
  mk_hdr (h_sport r) (h_dport r) (h_seq r) (h_ack r) (h_resv r) (h_shdr r) (h_fin r) (h_syn r)
    (h_rst r) (h_psh r) (h_fack r) (h_urg r) (h_ece r) (h_cwr r) v (h_checksum r) (h_urgptr r).
Definition set_h_checksum (v : Z) (r : Tcp_hdr) : Tcp_hdr :=
  mk_hdr (h_sport r) (h_dport r) (h_seq r) (h_ack r) (h_resv r) (h_shdr r) (h_fin r) (h_syn r)
    (h_rst r) (h_psh r) (h_fack r) (h_urg r) (h_ece r) (h_cwr r) (h_win r) v (h_urgptr r).
Definition set_h_urgptr (v : Z) (r : Tcp_hdr) : Tcp_hdr :=
  mk_hdr (h_sport r) (h_dport r) (h_seq r) (h_ack r) (h_resv r) (h_shdr r) (h_fin r) (h_syn r)
    (h_rst r) (h_psh r) (h_fack r) (h_urg r) (h_ece r) (h_cwr r) (h_win r) (h_checksum r) v.

(** A received segment; [list_type] is [TCP_SEG_LIST_TYPE_OFO], and [buf] 0 when it was joined away. *)
Record Tcp_seg := mk_seg {
  sg_local_ip : Ipaddr;
  sg_remote_ip : Ipaddr;
  sg_hdr : Tcp_hdr;
  sg_buf : Z;
  sg_data_len : Z;
  sg_seq : Z;
  sg_seq_len : Z;
  sg_list_type : bool
}.
Definition set_sg_hdr (v : Tcp_hdr) (r : Tcp_seg) : Tcp_seg :=
  mk_seg (sg_local_ip r) (sg_remote_ip r) v (sg_buf r) (sg_data_len r) (sg_seq r) (sg_seq_len r)
    (sg_list_type r).
Definition set_sg_buf (v : Z) (r : Tcp_seg) : Tcp_seg :=
  mk_seg (sg_local_ip r) (sg_remote_ip r) (sg_hdr r) v (sg_data_len r) (sg_seq r) (sg_seq_len r)
    (sg_list_type r).
Definition set_sg_data_len (v : Z) (r : Tcp_seg) : Tcp_seg :=
  mk_seg (sg_local_ip r) (sg_remote_ip r) (sg_hdr r) (sg_buf r) v (sg_seq r) (sg_seq_len r)
    (sg_list_type r).
Definition set_sg_seq (v : Z) (r : Tcp_seg) : Tcp_seg :=
  mk_seg (sg_local_ip r) (sg_remote_ip r) (sg_hdr r) (sg_buf r) (sg_data_len r) v (sg_seq_len r)
    (sg_list_type r).
Definition set_sg_seq_len (v : Z) (r : Tcp_seg) : Tcp_seg :=
  mk_seg (sg_local_ip r) (sg_remote_ip r) (sg_hdr r) (sg_buf r) (sg_data_len r) (sg_seq r) v
    (sg_list_type r).
Definition set_sg_list_type (v : bool) (r : Tcp_seg) : Tcp_seg :=
  mk_seg (sg_local_ip r) (sg_remote_ip r) (sg_hdr r) (sg_buf r) (sg_data_len r) (sg_seq r)
    (sg_seq_len r) v.

(** The one-bit fields. *)
Record Tcp_flags := mk_flags {
  fl_syn_out : bool;
  fl_fin_out : bool;
  fl_irs_valid : bool;
  fl_fin_in : bool;
  fl_keep_enable : bool;
  fl_inactive : bool;
  fl_rto_going : bool;
  fl_nagle_dis_enble : bool;
  fl_ACK_delay : bool;
  fl_fast_recovery : bool
}.
Definition set_fl_syn_out (v : bool) (r : Tcp_flags) : Tcp_flags :=
  mk_flags v (fl_fin_out r) (fl_irs_valid r) (fl_fin_in r) (fl_keep_enable r) (fl_inactive r)
    (fl_rto_going r) (fl_nagle_dis_enble r) (fl_ACK_delay r) (fl_fast_recovery r).
Definition set_fl_fin_out (v : bool) (r : Tcp_flags) : Tcp_flags :=
  mk_flags (fl_syn_out r) v (fl_irs_valid r) (fl_fin_in r) (fl_keep_enable r) (fl_inactive r)
    (fl_rto_going r) (fl_nagle_dis_enble r) (fl_ACK_delay r) (fl_fast_recovery r).
Definition set_fl_irs_valid (v : bool) (r : Tcp_flags) : Tcp_flags :=
  mk_flags (fl_syn_out r) (fl_fin_out r) v (fl_fin_in r) (fl_keep_enable r) (fl_inactive r)
    (fl_rto_going r) (fl_nagle_dis_enble r) (fl_ACK_delay r) (fl_fast_recovery r).
Definition set_fl_fin_in (v : bool) (r : Tcp_flags) : Tcp_flags :=
  mk_flags (fl_syn_out r) (fl_fin_out r) (fl_irs_valid r) v (fl_keep_enable r) (fl_inactive r)
    (fl_rto_going r) (fl_nagle_dis_enble r) (fl_ACK_delay r) (fl_fast_recovery r).
Definition set_fl_keep_enable (v : bool) (r : Tcp_flags) : Tcp_flags :=
  mk_flags (fl_syn_out r) (fl_fin_out r) (fl_irs_valid r) (fl_fin_in r) v (fl_inactive r)
    (fl_rto_going r) (fl_nagle_dis_enble r) (fl_ACK_delay r) (fl_fast_recovery r).
Definition set_fl_inactive (v : bool) (r : Tcp_flags) : Tcp_flags :=
  mk_flags (fl_syn_out r) (fl_fin_out r) (fl_irs_valid r) (fl_fin_in r) (fl_keep_enable r) v
    (fl_rto_going r) (fl_nagle_dis_enble r) (fl_ACK_delay r) (fl_fast_recovery r).
Definition set_fl_rto_going (v : bool) (r : Tcp_flags) : Tcp_flags :=
  mk_flags (fl_syn_out r) (fl_fin_out r) (fl_irs_valid r) (fl_fin_in r) (fl_keep_enable r)
    (fl_inactive r) v (fl_nagle_dis_enble r) (fl_ACK_delay r) (fl_fast_recovery r).
Definition set_fl_nagle_dis_enble (v : bool) (r : Tcp_flags) : Tcp_flags :=
  mk_flags (fl_syn_out r) (fl_fin_out r) (fl_irs_valid r) (fl_fin_in r) (fl_keep_enable r)
    (fl_inactive r) (fl_rto_going r) v (fl_ACK_delay r) (fl_fast_recovery r).
Definition set_fl_ACK_delay (v : bool) (r : Tcp_flags) : Tcp_flags :=
  mk_flags (fl_syn_out r) (fl_fin_out r) (fl_irs_valid r) (fl_fin_in r) (fl_keep_enable r)
    (fl_inactive r) (fl_rto_going r) (fl_nagle_dis_enble r) v (fl_fast_recovery r).
Definition set_fl_fast_recovery (v : bool) (r : Tcp_flags) : Tcp_flags :=
  mk_flags (fl_syn_out r) (fl_fin_out r) (fl_irs_valid r) (fl_fin_in r) (fl_keep_enable r)
    (fl_inactive r) (fl_rto_going r) (fl_nagle_dis_enble r) (fl_ACK_delay r) v.

(** Timers are their addresses. *)
Record Tcp_conn := mk_conn {
  cn_keep_idle : Z;
  cn_keep_intvl : Z;
  cn_keep_cnt : Z;
  cn_keep_retry : Z;
  cn_keep_timer : Z;
  cn_nagle_timer : Z;
  cn_backlog : Z
}.
Definition set_cn_keep_idle (v : Z) (r : Tcp_conn) : Tcp_conn :=
  mk_conn v (cn_keep_intvl r) (cn_keep_cnt r) (cn_keep_retry r) (cn_keep_timer r)
    (cn_nagle_timer r) (cn_backlog r).
Definition set_cn_keep_intvl (v : Z) (r : Tcp_conn) : Tcp_conn :=
  mk_conn (cn_keep_idle r) v (cn_keep_cnt r) (cn_keep_retry r) (cn_keep_timer r)
    (cn_nagle_timer r) (cn_backlog r).
Definition set_cn_keep_cnt (v : Z) (r : Tcp_conn) : Tcp_conn :=
  mk_conn (cn_keep_idle r) (cn_keep_intvl r) v (cn_keep_retry r) (cn_keep_timer r)
    (cn_nagle_timer r) (cn_backlog r).
Definition set_cn_keep_retry (v : Z) (r : Tcp_conn) : Tcp_conn :=
  mk_conn (cn_keep_idle r) (cn_keep_intvl r) (cn_keep_cnt r) v (cn_keep_timer r)
    (cn_nagle_timer r) (cn_backlog r).
Definition set_cn_keep_timer (v : Z) (r : Tcp_conn) : Tcp_conn :=
  mk_conn (cn_keep_idle r) (cn_keep_intvl r) (cn_keep_cnt r) (cn_keep_retry r) v
    (cn_nagle_timer r) (cn_backlog r).
Definition set_cn_nagle_timer (v : Z) (r : Tcp_conn) : Tcp_conn :=
  mk_conn (cn_keep_idle r) (cn_keep_intvl r) (cn_keep_cnt r) (cn_keep_retry r) (cn_keep_timer r)
    v (cn_backlog r).
Definition set_cn_backlog (v : Z) (r : Tcp_conn) : Tcp_conn :=
  mk_conn (cn_keep_idle r) (cn_keep_intvl r) (cn_keep_cnt r) (cn_keep_retry r) (cn_keep_timer r)
    (cn_nagle_timer r) v.

(** The sending side.  A stream buffer without memory ([data] null) has no bytes. *)
Record Tcp_snd := mk_snd {
  sd_buf : Tcp_buf;
  sd_una : Z;
  sd_nxt : Z;
  sd_iss : Z;
  sd_snd_timer : Z;
  sd_rto : Z;
  sd_rexmit_cnt : Z;
  sd_rexmit_max : Z;
  sd_ostate : Tcp_ostate;
  sd_wl1_seq : Z;
  sd_wl2_ack : Z;
  sd_win : Z;
  sd_cwin : Z;
  sd_sthresh : Z;
  sd_rtttime : Z;
  sd_rttseq : Z;
  sd_srtt : Z;
  sd_rttvar : Z;
  sd_dup_ack : Z;
  sd_persist_cnt : Z;
  sd_persist_max : Z
}.
Definition set_sd_buf (v : Tcp_buf) (r : Tcp_snd) : Tcp_snd :=
  mk_snd v (sd_una r) (sd_nxt r) (sd_iss r) (sd_snd_timer r) (sd_rto r) (sd_rexmit_cnt r)
    (sd_rexmit_max r) (sd_ostate r) (sd_wl1_seq r) (sd_wl2_ack r) (sd_win r) (sd_cwin r)
    (sd_sthresh r) (sd_rtttime r) (sd_rttseq r) (sd_srtt r) (sd_rttvar r) (sd_dup_ack r)
    (sd_persist_cnt r) (sd_persist_max r).
Definition set_sd_una (v : Z) (r : Tcp_snd) : Tcp_snd :=
  mk_snd (sd_buf r) v (sd_nxt r) (sd_iss r) (sd_snd_timer r) (sd_rto r) (sd_rexmit_cnt r)
    (sd_rexmit_max r) (sd_ostate r) (sd_wl1_seq r) (sd_wl2_ack r) (sd_win r) (sd_cwin r)
    (sd_sthresh r) (sd_rtttime r) (sd_rttseq r) (sd_srtt r) (sd_rttvar r) (sd_dup_ack r)
    (sd_persist_cnt r) (sd_persist_max r).
Definition set_sd_nxt (v : Z) (r : Tcp_snd) : Tcp_snd :=
  mk_snd (sd_buf r) (sd_una r) v (sd_iss r) (sd_snd_timer r) (sd_rto r) (sd_rexmit_cnt r)
    (sd_rexmit_max r) (sd_ostate r) (sd_wl1_seq r) (sd_wl2_ack r) (sd_win r) (sd_cwin r)
    (sd_sthresh r) (sd_rtttime r) (sd_rttseq r) (sd_srtt r) (sd_rttvar r) (sd_dup_ack r)
    (sd_persist_cnt r) (sd_persist_max r).
Definition set_sd_iss (v : Z) (r : Tcp_snd) : Tcp_snd :=
  mk_snd (sd_buf r) (sd_una r) (sd_nxt r) v (sd_snd_timer r) (sd_rto r) (sd_rexmit_cnt r)
    (sd_rexmit_max r) (sd_ostate r) (sd_wl1_seq r) (sd_wl2_ack r) (sd_win r) (sd_cwin r)
    (sd_sthresh r) (sd_rtttime r) (sd_rttseq r) (sd_srtt r) (sd_rttvar r) (sd_dup_ack r)
    (sd_persist_cnt r) (sd_persist_max r).
Definition set_sd_snd_timer (v : Z) (r : Tcp_snd) : Tcp_snd :=
  mk_snd (sd_buf r) (sd_una r) (sd_nxt r) (sd_iss r) v (sd_rto r) (sd_rexmit_cnt r)
    (sd_rexmit_max r) (sd_ostate r) (sd_wl1_seq r) (sd_wl2_ack r) (sd_win r) (sd_cwin r)
    (sd_sthresh r) (sd_rtttime r) (sd_rttseq r) (sd_srtt r) (sd_rttvar r) (sd_dup_ack r)
    (sd_persist_cnt r) (sd_persist_max r).
Definition set_sd_rto (v : Z) (r : Tcp_snd) : Tcp_snd :=
  mk_snd (sd_buf r) (sd_una r) (sd_nxt r) (sd_iss r) (sd_snd_timer r) v (sd_rexmit_cnt r)
    (sd_rexmit_max r) (sd_ostate r) (sd_wl1_seq r) (sd_wl2_ack r) (sd_win r) (sd_cwin r)
    (sd_sthresh r) (sd_rtttime r) (sd_rttseq r) (sd_srtt r) (sd_rttvar r) (sd_dup_ack r)
    (sd_persist_cnt r) (sd_persist_max r).
Definition set_sd_rexmit_cnt (v : Z) (r : Tcp_snd) : Tcp_snd :=
  mk_snd (sd_buf r) (sd_una r) (sd_nxt r) (sd_iss r) (sd_snd_timer r) (sd_rto r) v
    (sd_rexmit_max r) (sd_ostate r) (sd_wl1_seq r) (sd_wl2_ack r) (sd_win r) (sd_cwin r)
    (sd_sthresh r) (sd_rtttime r) (sd_rttseq r) (sd_srtt r) (sd_rttvar r) (sd_dup_ack r)
    (sd_persist_cnt r) (sd_persist_max r).
Definition set_sd_rexmit_max (v : Z) (r : Tcp_snd) : Tcp_snd :=
  mk_snd (sd_buf r) (sd_una r) (sd_nxt r) (sd_iss r) (sd_snd_timer r) (sd_rto r)
    (sd_rexmit_cnt r) v (sd_ostate r) (sd_wl1_seq r) (sd_wl2_ack r) (sd_win r) (sd_cwin r)
    (sd_sthresh r) (sd_rtttime r) (sd_rttseq r) (sd_srtt r) (sd_rttvar r) (sd_dup_ack r)
    (sd_persist_cnt r) (sd_persist_max r).
Definition set_sd_ostate (v : Tcp_ostate) (r : Tcp_snd) : Tcp_snd :=
  mk_snd (sd_buf r) (sd_una r) (sd_nxt r) (sd_iss r) (sd_snd_timer r) (sd_rto r)
    (sd_rexmit_cnt r) (sd_rexmit_max r) v (sd_wl1_seq r) (sd_wl2_ack r) (sd_win r) (sd_cwin r)
    (sd_sthresh r) (sd_rtttime r) (sd_rttseq r) (sd_srtt r) (sd_rttvar r) (sd_dup_ack r)
    (sd_persist_cnt r) (sd_persist_max r).
Definition set_sd_wl1_seq (v : Z) (r : Tcp_snd) : Tcp_snd :=
  mk_snd (sd_buf r) (sd_una r) (sd_nxt r) (sd_iss r) (sd_snd_timer r) (sd_rto r)
    (sd_rexmit_cnt r) (sd_rexmit_max r) (sd_ostate r) v (sd_wl2_ack r) (sd_win r) (sd_cwin r)
    (sd_sthresh r) (sd_rtttime r) (sd_rttseq r) (sd_srtt r) (sd_rttvar r) (sd_dup_ack r)
    (sd_persist_cnt r) (sd_persist_max r).
Definition set_sd_wl2_ack (v : Z) (r : Tcp_snd) : Tcp_snd :=
  mk_snd (sd_buf r) (sd_una r) (sd_nxt r) (sd_iss r) (sd_snd_timer r) (sd_rto r)
    (sd_rexmit_cnt r) (sd_rexmit_max r) (sd_ostate r) (sd_wl1_seq r) v (sd_win r) (sd_cwin r)
    (sd_sthresh r) (sd_rtttime r) (sd_rttseq r) (sd_srtt r) (sd_rttvar r) (sd_dup_ack r)
    (sd_persist_cnt r) (sd_persist_max r).
Definition set_sd_win (v : Z) (r : Tcp_snd) : Tcp_snd :=
  mk_snd (sd_buf r) (sd_una r) (sd_nxt r) (sd_iss r) (sd_snd_timer r) (sd_rto r)
    (sd_rexmit_cnt r) (sd_rexmit_max r) (sd_ostate r) (sd_wl1_seq r) (sd_wl2_ack r) v
    (sd_cwin r) (sd_sthresh r) (sd_rtttime r) (sd_rttseq r) (sd_srtt r) (sd_rttvar r)
    (sd_dup_ack r) (sd_persist_cnt r) (sd_persist_max r).
Definition set_sd_cwin (v : Z) (r : Tcp_snd) : Tcp_snd :=
  mk_snd (sd_buf r) (sd_una r) (sd_nxt r) (sd_iss r) (sd_snd_timer r) (sd_rto r)
    (sd_rexmit_cnt r) (sd_rexmit_max r) (sd_ostate r) (sd_wl1_seq r) (sd_wl2_ack r) (sd_win r) v
    (sd_sthresh r) (sd_rtttime r) (sd_rttseq r) (sd_srtt r) (sd_rttvar r) (sd_dup_ack r)
    (sd_persist_cnt r) (sd_persist_max r).
Definition set_sd_sthresh (v : Z) (r : Tcp_snd) : Tcp_snd :=
  mk_snd (sd_buf r) (sd_una r) (sd_nxt r) (sd_iss r) (sd_snd_timer r) (sd_rto r)
    (sd_rexmit_cnt r) (sd_rexmit_max r) (sd_ostate r) (sd_wl1_seq r) (sd_wl2_ack r) (sd_win r)
    (sd_cwin r) v (sd_rtttime r) (sd_rttseq r) (sd_srtt r) (sd_rttvar r) (sd_dup_ack r)
    (sd_persist_cnt r) (sd_persist_max r).
Definition set_sd_rtttime (v : Z) (r : Tcp_snd) : Tcp_snd :=
  mk_snd (sd_buf r) (sd_una r) (sd_nxt r) (sd_iss r) (sd_snd_timer r) (sd_rto r)
    (sd_rexmit_cnt r) (sd_rexmit_max r) (sd_ostate r) (sd_wl1_seq r) (sd_wl2_ack r) (sd_win r)
    (sd_cwin r) (sd_sthresh r) v (sd_rttseq r) (sd_srtt r) (sd_rttvar r) (sd_dup_ack r)
    (sd_persist_cnt r) (sd_persist_max r).
Definition set_sd_rttseq (v : Z) (r : Tcp_snd) : Tcp_snd :=
  mk_snd (sd_buf r) (sd_una r) (sd_nxt r) (sd_iss r) (sd_snd_timer r) (sd_rto r)
    (sd_rexmit_cnt r) (sd_rexmit_max r) (sd_ostate r) (sd_wl1_seq r) (sd_wl2_ack r) (sd_win r)
    (sd_cwin r) (sd_sthresh r) (sd_rtttime r) v (sd_srtt r) (sd_rttvar r) (sd_dup_ack r)
    (sd_persist_cnt r) (sd_persist_max r).
Definition set_sd_srtt (v : Z) (r : Tcp_snd) : Tcp_snd :=
  mk_snd (sd_buf r) (sd_una r) (sd_nxt r) (sd_iss r) (sd_snd_timer r) (sd_rto r)
    (sd_rexmit_cnt r) (sd_rexmit_max r) (sd_ostate r) (sd_wl1_seq r) (sd_wl2_ack r) (sd_win r)
    (sd_cwin r) (sd_sthresh r) (sd_rtttime r) (sd_rttseq r) v (sd_rttvar r) (sd_dup_ack r)
    (sd_persist_cnt r) (sd_persist_max r).
Definition set_sd_rttvar (v : Z) (r : Tcp_snd) : Tcp_snd :=
  mk_snd (sd_buf r) (sd_una r) (sd_nxt r) (sd_iss r) (sd_snd_timer r) (sd_rto r)
    (sd_rexmit_cnt r) (sd_rexmit_max r) (sd_ostate r) (sd_wl1_seq r) (sd_wl2_ack r) (sd_win r)
    (sd_cwin r) (sd_sthresh r) (sd_rtttime r) (sd_rttseq r) (sd_srtt r) v (sd_dup_ack r)
    (sd_persist_cnt r) (sd_persist_max r).
Definition set_sd_dup_ack (v : Z) (r : Tcp_snd) : Tcp_snd :=
  mk_snd (sd_buf r) (sd_una r) (sd_nxt r) (sd_iss r) (sd_snd_timer r) (sd_rto r)
    (sd_rexmit_cnt r) (sd_rexmit_max r) (sd_ostate r) (sd_wl1_seq r) (sd_wl2_ack r) (sd_win r)
    (sd_cwin r) (sd_sthresh r) (sd_rtttime r) (sd_rttseq r) (sd_srtt r) (sd_rttvar r) v
    (sd_persist_cnt r) (sd_persist_max r).
Definition set_sd_persist_cnt (v : Z) (r : Tcp_snd) : Tcp_snd :=
  mk_snd (sd_buf r) (sd_una r) (sd_nxt r) (sd_iss r) (sd_snd_timer r) (sd_rto r)
    (sd_rexmit_cnt r) (sd_rexmit_max r) (sd_ostate r) (sd_wl1_seq r) (sd_wl2_ack r) (sd_win r)
    (sd_cwin r) (sd_sthresh r) (sd_rtttime r) (sd_rttseq r) (sd_srtt r) (sd_rttvar r)
    (sd_dup_ack r) v (sd_persist_max r).
Definition set_sd_persist_max (v : Z) (r : Tcp_snd) : Tcp_snd :=
  mk_snd (sd_buf r) (sd_una r) (sd_nxt r) (sd_iss r) (sd_snd_timer r) (sd_rto r)
    (sd_rexmit_cnt r) (sd_rexmit_max r) (sd_ostate r) (sd_wl1_seq r) (sd_wl2_ack r) (sd_win r)
    (sd_cwin r) (sd_sthresh r) (sd_rtttime r) (sd_rttseq r) (sd_srtt r) (sd_rttvar r)
    (sd_dup_ack r) (sd_persist_cnt r) v.

(** The receiving side; the head of [ofo_seq_list] is a cell of the heap. *)
Record Tcp_rcv := mk_rcv {
  rc_buf : Tcp_buf;
  rc_nxt : Z;
  rc_iss : Z
}.
Definition set_rc_buf (v : Tcp_buf) (r : Tcp_rcv) : Tcp_rcv :=
  mk_rcv v (rc_nxt r) (rc_iss r).
Definition set_rc_nxt (v : Z) (r : Tcp_rcv) : Tcp_rcv :=
  mk_rcv (rc_buf r) v (rc_iss r).
Definition set_rc_iss (v : Z) (r : Tcp_rcv) : Tcp_rcv :=
  mk_rcv (rc_buf r) (rc_nxt r) v.

Record Tcp := mk_tcp {
  tcp_parent : Z;
  tcp_flags : Tcp_flags;
  tcp_state : Tcp_state;
  tcp_mss : Z;
  tcp_conn : Tcp_conn;
  tcp_snd : Tcp_snd;
  tcp_rcv : Tcp_rcv
}.
Definition set_tcp_parent (v : Z) (r : Tcp) : Tcp :=
  mk_tcp v (tcp_flags r) (tcp_state r) (tcp_mss r) (tcp_conn r) (tcp_snd r) (tcp_rcv r).
Definition set_tcp_flags (v : Tcp_flags) (r : Tcp) : Tcp :=
  mk_tcp (tcp_parent r) v (tcp_state r) (tcp_mss r) (tcp_conn r) (tcp_snd r) (tcp_rcv r).
Definition set_tcp_state (v : Tcp_state) (r : Tcp) : Tcp :=
  mk_tcp (tcp_parent r) (tcp_flags r) v (tcp_mss r) (tcp_conn r) (tcp_snd r) (tcp_rcv r).
Definition set_tcp_mss (v : Z) (r : Tcp) : Tcp :=
  mk_tcp (tcp_parent r) (tcp_flags r) (tcp_state r) v (tcp_conn r) (tcp_snd r) (tcp_rcv r).
Definition set_tcp_conn (v : Tcp_conn) (r : Tcp) : Tcp :=
  mk_tcp (tcp_parent r) (tcp_flags r) (tcp_state r) (tcp_mss r) v (tcp_snd r) (tcp_rcv r).
Definition set_tcp_snd (v : Tcp_snd) (r : Tcp) : Tcp :=
  mk_tcp (tcp_parent r) (tcp_flags r) (tcp_state r) (tcp_mss r) (tcp_conn r) v (tcp_rcv r).
Definition set_tcp_rcv (v : Tcp_rcv) (r : Tcp) : Tcp :=
  mk_tcp (tcp_parent r) (tcp_flags r) (tcp_state r) (tcp_mss r) (tcp_conn r) (tcp_snd r) v.

(** A task's wait on a socket; the queue of its semaphore is outside. *)
Record Sock_wait := mk_wait {
  sw_ret : Z;
  sw_valid : bool;
  sw_state : Z
}.
Definition set_sw_ret (v : Z) (r : Sock_wait) : Sock_wait :=
  mk_wait v (sw_valid r) (sw_state r).
Definition set_sw_valid (v : bool) (r : Sock_wait) : Sock_wait :=
  mk_wait (sw_ret r) v (sw_state r).

(** [opened] is [state == SOCKET_STATE_OPENED]. *)
Record Socket := mk_socket {
  sk_tcp : Tcp;
  sk_id : Z;
  sk_opened : bool;
  sk_type : Socket_type;
  sk_local_ip : Ipaddr;
  sk_remote_ip : Ipaddr;
  sk_local_port : Z;
  sk_remote_port : Z;
  sk_family : Z;
  sk_protocol : Z;
  sk_ret : Z;
  sk_rcv_tmo : Z;
  sk_snd_tmo : Z;
  sk_close_tmo : Z;
  sk_conn_tmo : Z;
  sk_snd_wait : Sock_wait;
  sk_rcv_wait : Sock_wait;
  sk_conn_wait : Sock_wait;
  sk_close_wait : Sock_wait
}.
Definition set_sk_tcp (v : Tcp) (r : Socket) : Socket :=
  mk_socket v (sk_id r) (sk_opened r) (sk_type r) (sk_local_ip r) (sk_remote_ip r)
    (sk_local_port r) (sk_remote_port r) (sk_family r) (sk_protocol r) (sk_ret r) (sk_rcv_tmo r)
    (sk_snd_tmo r) (sk_close_tmo r) (sk_conn_tmo r) (sk_snd_wait r) (sk_rcv_wait r)
    (sk_conn_wait r) (sk_close_wait r).
Definition set_sk_id (v : Z) (r : Socket) : Socket :=
  mk_socket (sk_tcp r) v (sk_opened r) (sk_type r) (sk_local_ip r) (sk_remote_ip r)
    (sk_local_port r) (sk_remote_port r) (sk_family r) (sk_protocol r) (sk_ret r) (sk_rcv_tmo r)
    (sk_snd_tmo r) (sk_close_tmo r) (sk_conn_tmo r) (sk_snd_wait r) (sk_rcv_wait r)
    (sk_conn_wait r) (sk_close_wait r).
Definition set_sk_opened (v : bool) (r : Socket) : Socket :=
  mk_socket (sk_tcp r) (sk_id r) v (sk_type r) (sk_local_ip r) (sk_remote_ip r)
    (sk_local_port r) (sk_remote_port r) (sk_family r) (sk_protocol r) (sk_ret r) (sk_rcv_tmo r)
    (sk_snd_tmo r) (sk_close_tmo r) (sk_conn_tmo r) (sk_snd_wait r) (sk_rcv_wait r)
    (sk_conn_wait r) (sk_close_wait r).
Definition set_sk_type (v : Socket_type) (r : Socket) : Socket :=
  mk_socket (sk_tcp r) (sk_id r) (sk_opened r) v (sk_local_ip r) (sk_remote_ip r)
    (sk_local_port r) (sk_remote_port r) (sk_family r) (sk_protocol r) (sk_ret r) (sk_rcv_tmo r)
    (sk_snd_tmo r) (sk_close_tmo r) (sk_conn_tmo r) (sk_snd_wait r) (sk_rcv_wait r)
    (sk_conn_wait r) (sk_close_wait r).
Definition set_sk_local_ip (v : Ipaddr) (r : Socket) : Socket :=
  mk_socket (sk_tcp r) (sk_id r) (sk_opened r) (sk_type r) v (sk_remote_ip r) (sk_local_port r)
    (sk_remote_port r) (sk_family r) (sk_protocol r) (sk_ret r) (sk_rcv_tmo r) (sk_snd_tmo r)
    (sk_close_tmo r) (sk_conn_tmo r) (sk_snd_wait r) (sk_rcv_wait r) (sk_conn_wait r)
    (sk_close_wait r).
Definition set_sk_remote_ip (v : Ipaddr) (r : Socket) : Socket :=
  mk_socket (sk_tcp r) (sk_id r) (sk_opened r) (sk_type r) (sk_local_ip r) v (sk_local_port r)
    (sk_remote_port r) (sk_family r) (sk_protocol r) (sk_ret r) (sk_rcv_tmo r) (sk_snd_tmo r)
    (sk_close_tmo r) (sk_conn_tmo r) (sk_snd_wait r) (sk_rcv_wait r) (sk_conn_wait r)
    (sk_close_wait r).
Definition set_sk_local_port (v : Z) (r : Socket) : Socket :=
  mk_socket (sk_tcp r) (sk_id r) (sk_opened r) (sk_type r) (sk_local_ip r) (sk_remote_ip r) v
    (sk_remote_port r) (sk_family r) (sk_protocol r) (sk_ret r) (sk_rcv_tmo r) (sk_snd_tmo r)
    (sk_close_tmo r) (sk_conn_tmo r) (sk_snd_wait r) (sk_rcv_wait r) (sk_conn_wait r)
    (sk_close_wait r).
Definition set_sk_remote_port (v : Z) (r : Socket) : Socket :=
  mk_socket (sk_tcp r) (sk_id r) (sk_opened r) (sk_type r) (sk_local_ip r) (sk_remote_ip r)
    (sk_local_port r) v (sk_family r) (sk_protocol r) (sk_ret r) (sk_rcv_tmo r) (sk_snd_tmo r)
    (sk_close_tmo r) (sk_conn_tmo r) (sk_snd_wait r) (sk_rcv_wait r) (sk_conn_wait r)
    (sk_close_wait r).
Definition set_sk_family (v : Z) (r : Socket) : Socket :=
  mk_socket (sk_tcp r) (sk_id r) (sk_opened r) (sk_type r) (sk_local_ip r) (sk_remote_ip r)
    (sk_local_port r) (sk_remote_port r) v (sk_protocol r) (sk_ret r) (sk_rcv_tmo r)
    (sk_snd_tmo r) (sk_close_tmo r) (sk_conn_tmo r) (sk_snd_wait r) (sk_rcv_wait r)
    (sk_conn_wait r) (sk_close_wait r).
Definition set_sk_protocol (v : Z) (r : Socket) : Socket :=
  mk_socket (sk_tcp r) (sk_id r) (sk_opened r) (sk_type r) (sk_local_ip r) (sk_remote_ip r)
    (sk_local_port r) (sk_remote_port r) (sk_family r) v (sk_ret r) (sk_rcv_tmo r)
    (sk_snd_tmo r) (sk_close_tmo r) (sk_conn_tmo r) (sk_snd_wait r) (sk_rcv_wait r)
    (sk_conn_wait r) (sk_close_wait r).
Definition set_sk_ret (v : Z) (r : Socket) : Socket :=
  mk_socket (sk_tcp r) (sk_id r) (sk_opened r) (sk_type r) (sk_local_ip r) (sk_remote_ip r)
    (sk_local_port r) (sk_remote_port r) (sk_family r) (sk_protocol r) v (sk_rcv_tmo r)
    (sk_snd_tmo r) (sk_close_tmo r) (sk_conn_tmo r) (sk_snd_wait r) (sk_rcv_wait r)
    (sk_conn_wait r) (sk_close_wait r).
Definition set_sk_rcv_tmo (v : Z) (r : Socket) : Socket :=
  mk_socket (sk_tcp r) (sk_id r) (sk_opened r) (sk_type r) (sk_local_ip r) (sk_remote_ip r)
    (sk_local_port r) (sk_remote_port r) (sk_family r) (sk_protocol r) (sk_ret r) v
    (sk_snd_tmo r) (sk_close_tmo r) (sk_conn_tmo r) (sk_snd_wait r) (sk_rcv_wait r)
    (sk_conn_wait r) (sk_close_wait r).
Definition set_sk_snd_tmo (v : Z) (r : Socket) : Socket :=
  mk_socket (sk_tcp r) (sk_id r) (sk_opened r) (sk_type r) (sk_local_ip r) (sk_remote_ip r)
    (sk_local_port r) (sk_remote_port r) (sk_family r) (sk_protocol r) (sk_ret r) (sk_rcv_tmo r)
    v (sk_close_tmo r) (sk_conn_tmo r) (sk_snd_wait r) (sk_rcv_wait r) (sk_conn_wait r)
    (sk_close_wait r).
Definition set_sk_close_tmo (v : Z) (r : Socket) : Socket :=
  mk_socket (sk_tcp r) (sk_id r) (sk_opened r) (sk_type r) (sk_local_ip r) (sk_remote_ip r)
    (sk_local_port r) (sk_remote_port r) (sk_family r) (sk_protocol r) (sk_ret r) (sk_rcv_tmo r)
    (sk_snd_tmo r) v (sk_conn_tmo r) (sk_snd_wait r) (sk_rcv_wait r) (sk_conn_wait r)
    (sk_close_wait r).
Definition set_sk_conn_tmo (v : Z) (r : Socket) : Socket :=
  mk_socket (sk_tcp r) (sk_id r) (sk_opened r) (sk_type r) (sk_local_ip r) (sk_remote_ip r)
    (sk_local_port r) (sk_remote_port r) (sk_family r) (sk_protocol r) (sk_ret r) (sk_rcv_tmo r)
    (sk_snd_tmo r) (sk_close_tmo r) v (sk_snd_wait r) (sk_rcv_wait r) (sk_conn_wait r)
    (sk_close_wait r).
Definition set_sk_snd_wait (v : Sock_wait) (r : Socket) : Socket :=
  mk_socket (sk_tcp r) (sk_id r) (sk_opened r) (sk_type r) (sk_local_ip r) (sk_remote_ip r)
    (sk_local_port r) (sk_remote_port r) (sk_family r) (sk_protocol r) (sk_ret r) (sk_rcv_tmo r)
    (sk_snd_tmo r) (sk_close_tmo r) (sk_conn_tmo r) v (sk_rcv_wait r) (sk_conn_wait r)
    (sk_close_wait r).
Definition set_sk_rcv_wait (v : Sock_wait) (r : Socket) : Socket :=
  mk_socket (sk_tcp r) (sk_id r) (sk_opened r) (sk_type r) (sk_local_ip r) (sk_remote_ip r)
    (sk_local_port r) (sk_remote_port r) (sk_family r) (sk_protocol r) (sk_ret r) (sk_rcv_tmo r)
    (sk_snd_tmo r) (sk_close_tmo r) (sk_conn_tmo r) (sk_snd_wait r) v (sk_conn_wait r)
    (sk_close_wait r).
Definition set_sk_conn_wait (v : Sock_wait) (r : Socket) : Socket :=
  mk_socket (sk_tcp r) (sk_id r) (sk_opened r) (sk_type r) (sk_local_ip r) (sk_remote_ip r)
    (sk_local_port r) (sk_remote_port r) (sk_family r) (sk_protocol r) (sk_ret r) (sk_rcv_tmo r)
    (sk_snd_tmo r) (sk_close_tmo r) (sk_conn_tmo r) (sk_snd_wait r) (sk_rcv_wait r) v
    (sk_close_wait r).
Definition set_sk_close_wait (v : Sock_wait) (r : Socket) : Socket :=
  mk_socket (sk_tcp r) (sk_id r) (sk_opened r) (sk_type r) (sk_local_ip r) (sk_remote_ip r)
    (sk_local_port r) (sk_remote_port r) (sk_family r) (sk_protocol r) (sk_ret r) (sk_rcv_tmo r)
    (sk_snd_tmo r) (sk_close_tmo r) (sk_conn_tmo r) (sk_snd_wait r) (sk_rcv_wait r)
    (sk_conn_wait r) v.

Definition on_flags (f : Tcp_flags → Tcp_flags) (t : Tcp) : Tcp := set_tcp_flags (f (tcp_flags t)) t.
Definition on_conn (f : Tcp_conn → Tcp_conn) (t : Tcp) : Tcp := set_tcp_conn (f (tcp_conn t)) t.
Definition on_snd (f : Tcp_snd → Tcp_snd) (t : Tcp) : Tcp := set_tcp_snd (f (tcp_snd t)) t.
Definition on_rcv (f : Tcp_rcv → Tcp_rcv) (t : Tcp) : Tcp := set_tcp_rcv (f (tcp_rcv t)) t.
Definition on_tcp (f : Tcp → Tcp) (s : Socket) : Socket := set_sk_tcp (f (sk_tcp s)) s.

Abbreviation una t := (sd_una (tcp_snd t)).
Abbreviation snd_nxt t := (sd_nxt (tcp_snd t)).
Abbreviation rcv_nxt t := (rc_nxt (tcp_rcv t)).
Abbreviation snd_buf t := (sd_buf (tcp_snd t)).
Abbreviation rcv_buf t := (rc_buf (tcp_rcv t)).
Abbreviation syn_out t := (fl_syn_out (tcp_flags t)).
Abbreviation fin_out t := (fl_fin_out (tcp_flags t)).
Abbreviation fin_in t := (fl_fin_in (tcp_flags t)).
