(* ===== verification/NetState.v ===== *)
(** * The state of the TCP stack and its surroundings

    The header in memory, the state the stack works on, what it calls outside
    itself, and the accessors its operations share: reading and writing a
    connection, a segment, a link, a lock, a packet's header through the pointer
    [pktbuf_data] gives. *)
From S2P Require Import Prelude Errors PacketIO Nettool ListH Ipaddr Pktbuf PktbufOps PktbufCursor PktbufSpec PktMem TcpBuf NetTypes.

(** ** The header in memory *)

(** [flags], the sixteen bits that the bit fields share. *)
Definition hdr_flags (h : Tcp_hdr) : Z :=
  h_resv h + 16 * h_shdr h + 256 * Z.b2z (h_fin h) + 512 * Z.b2z (h_syn h)
  + 1024 * Z.b2z (h_rst h) + 2048 * Z.b2z (h_psh h) + 4096 * Z.b2z (h_fack h)
  + 8192 * Z.b2z (h_urg h) + 16384 * Z.b2z (h_ece h) + 32768 * Z.b2z (h_cwr h).

Definition encode_hdr (h : Tcp_hdr) : bytes :=
  le16 (h_sport h) ++ le16 (h_dport h) ++ le32 (h_seq h) ++ le32 (h_ack h)
  ++ le16 (hdr_flags h) ++ le16 (h_win h) ++ le16 (h_checksum h) ++ le16 (h_urgptr h).

Definition decode_hdr (l : bytes) : Tcp_hdr :=
  let flags := get_le l 12 2 in
  mk_hdr (get_le l 0 2) (get_le l 2 2) (get_le l 4 4) (get_le l 8 4)
    (Z.land flags 15) (Z.land (Z.shiftr flags 4) 15)
    (Z.testbit flags 8) (Z.testbit flags 9) (Z.testbit flags 10) (Z.testbit flags 11)
    (Z.testbit flags 12) (Z.testbit flags 13) (Z.testbit flags 14) (Z.testbit flags 15)
    (get_le l 14 2) (get_le l 16 2) (get_le l 18 2).

Definition tcp_hdr_size (h : Tcp_hdr) : Z := h_shdr h * 4.

(** The quotient is cut to the four bits of [shdr]. *)
Definition tcp_set_hdr_size (size : Z) (h : Tcp_hdr) : Tcp_hdr :=
  set_h_shdr (Z.land (u16 (size / 4)) 15) h.

(** [hdr->flags = 0]. *)
Definition clear_flags (h : Tcp_hdr) : Tcp_hdr :=
  mk_hdr (h_sport h) (h_dport h) (h_seq h) (h_ack h) 0 0
    false false false false false false false false (h_win h) (h_checksum h) (h_urgptr h).

(** ** Sequence numbers *)

(** The macros [(int32_t)(a) - (int32_t)(b) <= 0] and [< 0]. *)
Definition TCP_SEQ_LE (a b : Z) : outcome bool := d ← signed 32 (s32 a - s32 b); Ok (d <=? 0).
Definition TCP_SEQ_LT (a b : Z) : outcome bool := d ← signed 32 (s32 a - s32 b); Ok (d <? 0).

(** [a && b] and [a || b] with a partial right side. *)
Definition and_then (a : outcome bool) (b : outcome bool) : outcome bool :=
  x ← a; if x : bool then b else Ok false.
Definition or_else (a : outcome bool) (b : outcome bool) : outcome bool :=
  x ← a; if x : bool then Ok true else b.

(** ** The header in a packet *)

Definition hdr_load (p : bptr) : M pworld Tcp_hdr :=
  l ← mem_load p 0 SIZEOF_TCP_HDR; mret (decode_hdr l).
Definition hdr_store (p : bptr) (h : Tcp_hdr) : M pworld unit := mem_store p 0 (encode_hdr h).

(** Assignments to fields of the header. *)
Definition hdr_upd (p : bptr) (f : Tcp_hdr → Tcp_hdr) : M pworld unit :=
  h ← hdr_load p; hdr_store p (f h).

(** ** Surroundings *)

Inductive timer_cb :=
| do_nagle_ack_timer_tmo_cb | tcp_out_timer_tmo_cb | tcp_keepalive_tmo_cb | tcp_timewait_tmo_cb.

Inductive wait_queue := SND_WAIT | RCV_WAIT | CONN_WAIT | CLOSE_WAIT.

(** A route as the stack reads it: the next hop and the interface's address and MTU. *)
Record Rentry := mk_rentry { rt_next_hop : Ipaddr; rt_mtu : Z; rt_ipaddr : Ipaddr }.

Class NetEnv (E : Type) := {
  timer_func_add : timer_cb → Z → Z → M E Z;        (* function, argument, time: the timer *)
  del_func_timer : Z → M E unit;
  sys_gettime : M E Z;
  sem_up : Z → wait_queue → Z → M E unit;            (* the semaphore of a socket's wait *)
  sem_init : Z → wait_queue → M E unit;
  wakeup_queue : Z → wait_queue → M E unit;          (* every task in its queue *)
  wait_queue_empty : Z → wait_queue → M E bool;
  rt_find : Ipaddr → M E (option Rentry);
  ipv4_out : Z → Ipaddr → Ipaddr → Z → M (pworld * E) Z;
  rand : M E Z;
  kmalloc : Z → M E (option bytes);                   (* stream memory *)
  kmalloc_seg : M E Z;                                (* a [Tcp_seg]'s address, or 0 *)
  AllocPage : M E Z                                   (* a page of sockets, or 0 *)
}.

(** ** The state *)

Record netw (E : Type) := mk_net {
  n_socks : gmap Z Socket;
  n_segs : gmap Z Tcp_seg;
  n_cells : heap;
  n_tcp_lock : bool;           (* tcp_list_lock *)
  n_clean_lock : bool;         (* tcp_clean_list_lock *)
  n_sockets_lock : bool;       (* sockets_lock *)
  n_socket_map : list Z;       (* socket_map: pages, 0 null *)
  n_iss : Z;                   (* the static [seq] of tcp_get_iss *)
  n_pk : pworld;
  n_env : E
}.
Arguments mk_net {E}.
Arguments n_socks {E} _.
Arguments n_segs {E} _.
Arguments n_cells {E} _.
Arguments n_tcp_lock {E} _.
Arguments n_clean_lock {E} _.
Arguments n_sockets_lock {E} _.
Arguments n_socket_map {E} _.
Arguments n_iss {E} _.
Arguments n_pk {E} _.
Arguments n_env {E} _.

Section state.
Context {E : Type}.

Definition Net : Type → Type := M (netw E).

Definition set_socks v (w : netw E) := mk_net v (n_segs w) (n_cells w) (n_tcp_lock w)
  (n_clean_lock w) (n_sockets_lock w) (n_socket_map w) (n_iss w) (n_pk w) (n_env w).
Definition set_segs v (w : netw E) := mk_net (n_socks w) v (n_cells w) (n_tcp_lock w)
  (n_clean_lock w) (n_sockets_lock w) (n_socket_map w) (n_iss w) (n_pk w) (n_env w).
Definition set_cells v (w : netw E) := mk_net (n_socks w) (n_segs w) v (n_tcp_lock w)
  (n_clean_lock w) (n_sockets_lock w) (n_socket_map w) (n_iss w) (n_pk w) (n_env w).
Definition set_tcp_lock v (w : netw E) := mk_net (n_socks w) (n_segs w) (n_cells w) v
  (n_clean_lock w) (n_sockets_lock w) (n_socket_map w) (n_iss w) (n_pk w) (n_env w).
Definition set_clean_lock v (w : netw E) := mk_net (n_socks w) (n_segs w) (n_cells w)
  (n_tcp_lock w) v (n_sockets_lock w) (n_socket_map w) (n_iss w) (n_pk w) (n_env w).
Definition set_sockets_lock v (w : netw E) := mk_net (n_socks w) (n_segs w) (n_cells w)
  (n_tcp_lock w) (n_clean_lock w) v (n_socket_map w) (n_iss w) (n_pk w) (n_env w).
Definition set_socket_map v (w : netw E) := mk_net (n_socks w) (n_segs w) (n_cells w)
  (n_tcp_lock w) (n_clean_lock w) (n_sockets_lock w) v (n_iss w) (n_pk w) (n_env w).
Definition set_iss v (w : netw E) := mk_net (n_socks w) (n_segs w) (n_cells w)
  (n_tcp_lock w) (n_clean_lock w) (n_sockets_lock w) (n_socket_map w) v (n_pk w) (n_env w).
Definition set_pk_env (v : pworld * E) (w : netw E) := mk_net (n_socks w) (n_segs w) (n_cells w)
  (n_tcp_lock w) (n_clean_lock w) (n_sockets_lock w) (n_socket_map w) (n_iss w) v.1 v.2.

Definition on_pk {A} (m : M pworld A) : Net A := zoom n_pk (λ p w, set_pk_env (p, n_env w) w) m.
Definition on_env {A} (m : M E A) : Net A := zoom n_env (λ e w, set_pk_env (n_pk w, e) w) m.
Definition on_pk_env {A} (m : M (pworld * E) A) : Net A :=
  zoom (λ w, (n_pk w, n_env w)) set_pk_env m.
Definition on_cells {A} (m : M heap A) : Net A := zoom n_cells set_cells m.

(** Sockets and the connections in them, segments. *)
Definition get_sk (s : Z) : Net Socket := o ← gets (λ w, n_socks w !! s); of_option o.
Definition upd_sk (s : Z) (f : Socket → Socket) : Net unit :=
  v ← get_sk s; modify (λ w, set_socks (<[s := f v]> (n_socks w)) w).
Definition get_tcp (t : Z) : Net Tcp := v ← get_sk t; mret (sk_tcp v).
Definition upd_tcp (t : Z) (f : Tcp → Tcp) : Net unit := upd_sk t (on_tcp f).
Definition get_seg (sg : Z) : Net Tcp_seg := o ← gets (λ w, n_segs w !! sg); of_option o.
Definition upd_seg (sg : Z) (f : Tcp_seg → Tcp_seg) : Net unit :=
  v ← get_seg sg; modify (λ w, set_segs (<[sg := f v]> (n_segs w)) w).
Definition kfree_seg (sg : Z) : Net unit :=
  get_seg sg;; modify (λ w, set_segs (delete sg (n_segs w)) w).

(** The macro [skop_info(sk, tcp)]: the connection of an open TCP socket. *)
Definition skop_info (s : Z) : Net Z :=
  assert_ (negb (s =? 0));;
  v ← get_sk s;
  assert_ (sk_opened v && bool_decide (sk_type v = SOCK_TCP));;
  mret s.

(** From a connection to its socket. *)
Definition info2sk (t : Z) : Z := t.

(** Links: [socket_link] and the head [rcv.ofo_seq_list] of a socket,
    [tcp_ofo_link] of a segment, and the module's list heads. *)
Definition socket_link (s : Z) : Z := 4 * s.
Definition le2socket (le : Z) : Z := le / 4.
Definition ofo_seq_list (t : Z) : Z := 4 * t + 1.
Definition tcp_ofo_link (sg : Z) : Z := 4 * sg + 2.
Definition le2seq (le : Z) : Z := le / 4.
Definition tcp_list : Z := 3.
Definition tcp_clean_list : Z := 7.
Definition free_socket_list : Z := 11.

(** The spinlocks: as in [Pktbuf], acquiring one that is held, or releasing one
    that is not, panics. *)
Definition acquire_tcp_list : Net unit :=
  l ← gets n_tcp_lock; assert_ (negb l);; modify (set_tcp_lock true).
Definition release_tcp_list : Net unit :=
  l ← gets n_tcp_lock; assert_ l;; modify (set_tcp_lock false).
Definition acquire_clean_list : Net unit :=
  l ← gets n_clean_lock; assert_ (negb l);; modify (set_clean_lock true).
Definition release_clean_list : Net unit :=
  l ← gets n_clean_lock; assert_ l;; modify (set_clean_lock false).
Definition acquire_sockets : Net unit :=
  l ← gets n_sockets_lock; assert_ (negb l);; modify (set_sockets_lock true).
Definition release_sockets : Net unit :=
  l ← gets n_sockets_lock; assert_ l;; modify (set_sockets_lock false).

Definition list_for_each {L A} : Z → (L → Z → Net (L + A)) → L → Net (L + A) :=
  for_each (λ a, on_cells (list_next a)) (gets (λ w, size (n_cells w))).
End state.
Arguments Net : clear implicits.
