(* ===== verification/Sock.v ===== *)
(** * Sockets: [net/sock.c]

    The table of sockets, the waits of the tasks that use one, and the options
    common to every protocol.  The handlers of the requests, which dispatch on
    the protocol, are in [SockReq]. *)
From S2P Require Import Prelude Errors Nettool ListH Ipaddr Pktbuf TcpBuf PktMem NetTypes NetState.

Definition MAX_SOCKET_NUM : Z := 4096.

Definition SOL_SOCKET : Z := 0.
Definition SOL_TCP : Z := 1.
Definition SO_RCVTIMEO : Z := 1.
Definition SO_SNDTIMEO : Z := 2.
Definition SIZEOF_TIMEVAL : Z := 8.

Section sock.
Context {E : Type} `{NE : !NetEnv E}.

(** How many sockets fit in a page: [PGSIZE / sizeof(Socket)], a number the
    compiler knows.  Sockets of a page have consecutive addresses. *)
Context (SOCKET_P_PAGE : Z).

Definition MAX_SOCKET_PAGES : Z := (MAX_SOCKET_NUM + SOCKET_P_PAGE - 1) / SOCKET_P_PAGE.

(** ** Waits *)

Definition wait_of (q : wait_queue) (s : Socket) : Sock_wait :=
  match q with
  | SND_WAIT => sk_snd_wait s | RCV_WAIT => sk_rcv_wait s
  | CONN_WAIT => sk_conn_wait s | CLOSE_WAIT => sk_close_wait s
  end.

Definition on_wait (q : wait_queue) (f : Sock_wait → Sock_wait) (s : Socket) : Socket :=
  match q with
  | SND_WAIT => set_sk_snd_wait (f (sk_snd_wait s)) s
  | RCV_WAIT => set_sk_rcv_wait (f (sk_rcv_wait s)) s
  | CONN_WAIT => set_sk_conn_wait (f (sk_conn_wait s)) s
  | CLOSE_WAIT => set_sk_close_wait (f (sk_close_wait s)) s
  end.

(** [sem_init] makes the semaphore valid. *)
Definition sock_wait_init (s : Z) (q : wait_queue) : Net E Z :=
  on_env (sem_init s q);;
  upd_sk s (on_wait q (set_sw_valid true));;
  upd_sk s (on_wait q (set_sw_ret NET_OK));;
  mret NET_OK.

Definition sock_wait_destory (s : Z) (q : wait_queue) : Net E unit :=
  upd_sk s (on_wait q (set_sw_valid false));;
  on_env (wakeup_queue s q).

Definition sock_wait_leave (s : Z) (q : wait_queue) (ret : Z) : Net E unit :=
  v ← get_sk s;
  on_env (sem_up s q (sw_state (wait_of q v)));;
  upd_sk s (on_wait q (set_sw_ret ret)).

(** [if (type & mask)]. *)
Definition has_bits (type mask : Z) : bool := negb (Z.land type mask =? 0).

Definition sock_wakeup (s type ret : Z) : Net E unit :=
  (if has_bits type WT_SOCK_CONN then sock_wait_leave s CONN_WAIT ret else mret tt);;
  (if has_bits type WT_SOCK_WRITE then sock_wait_leave s SND_WAIT ret else mret tt);;
  (if has_bits type WT_SOCK_READ then sock_wait_leave s RCV_WAIT ret else mret tt);;
  upd_sk s (set_sk_ret ret).

(** ** Options *)

(** An [int] in the caller's memory. *)
Definition get_int (optval : bytes) (off : Z) : Z := s32 (get_le optval off 4).

Definition sock_setopt (s level optname : Z) (optval : bytes) (optlen : Z) : Net E Z :=
  if negb (level =? SOL_SOCKET) then mret (- E_NET_NOT_SUPPORT) else
  if (optname =? SO_RCVTIMEO) || (optname =? SO_SNDTIMEO) then
    if negb (optlen =? SIZEOF_TIMEVAL) then mret (- E_NET_PARAM) else
    ms ← of_outcome (signed 32 (get_int optval 0 * 1000));
    time_ms ← of_outcome (signed 32 (ms + Z.quot (get_int optval 4) 1000));
    (if optname =? SO_RCVTIMEO then upd_sk s (set_sk_rcv_tmo time_ms);; mret NET_OK
     else if optname =? SO_SNDTIMEO then upd_sk s (set_sk_snd_tmo time_ms);; mret NET_OK
     else mret (- E_NET_NOT_SUPPORT))
  else mret (- E_NET_NOT_SUPPORT).

(** ** The table *)

(** Memory set to zero. *)
Definition zero_buf : Tcp_buf := mk_tbuf 0 0 0 0 [].
Definition zero_tcp : Tcp := mk_tcp 0
  (mk_flags false false false false false false false false false false) TCP_STATE_FREE 0
  (mk_conn 0 0 0 0 0 0 0)
  (mk_snd zero_buf 0 0 0 0 0 0 0 TCP_OSTATE_IDLE 0 0 0 0 0 0 0 0 0 0 0 0)
  (mk_rcv zero_buf 0 0).
Definition zero_wait : Sock_wait := mk_wait 0 false 0.
Definition zero_socket : Socket := mk_socket zero_tcp 0 false SOCK_NONE 0 0 0 0 0 0 0 0 0 0 0
  zero_wait zero_wait zero_wait zero_wait.

(** [memset(socket, 0, sizeof(Socket))], the links in it included. *)
Definition memset_socket (s : Z) : Net E unit :=
  modify (λ w, set_socks (<[s := zero_socket]> (n_socks w)) w);;
  modify (λ w, set_cells (<[socket_link s := mk_entry 0 0]>
                         (<[ofo_seq_list s := mk_entry 0 0]> (n_cells w))) w).

Definition set_wait_state (q : wait_queue) (st : Z) (s : Socket) : Socket :=
  on_wait q (λ v, mk_wait (sw_ret v) (sw_valid v) st) s.

Definition sockets_init : Net E Z :=
  modify (set_socket_map (repeat 0 (Z.to_nat MAX_SOCKET_PAGES)));;
  modify (set_sockets_lock false);;
  modify (λ w, set_cells (<[free_socket_list := mk_entry 0 0]> (n_cells w)) w);;
  on_cells (list_init free_socket_list);;
  mret NET_OK.

Definition get_socket (id : Z) : Net E Z :=
  if (0 <=? id) && (id <? MAX_SOCKET_NUM) then
    let i := id / SOCKET_P_PAGE in
    let j := id mod SOCKET_P_PAGE in
    map ← gets n_socket_map;
    page ← of_option (zlookup map i);
    if negb (page =? 0) then
      let socket := page + j in
      v ← get_sk socket;
      if sk_opened v then mret socket else mret 0
    else mret 0
  else mret 0.

Definition socket_free (s : Z) : Net E unit :=
  let check q :=
    e ← on_env (wait_queue_empty s q); v ← get_sk s;
    assert_ (e && negb (sw_valid (wait_of q v))) in
  check SND_WAIT;; check RCV_WAIT;; check CONN_WAIT;; check CLOSE_WAIT;;
  upd_sk s (set_sk_opened false);;
  upd_sk s (set_sk_type SOCK_NONE);;
  acquire_sockets;;
  on_cells (list_add_before free_socket_list (socket_link s));;
  release_sockets.

(** The sockets of a fresh page, from [s] with number [id] on. *)
Fixpoint init_page (n : nat) (s id : Z) : Net E unit :=
  match n with
  | O => mret tt
  | S n' =>
      memset_socket s;;
      upd_sk s (set_sk_id id);;
      upd_sk s (set_sk_opened false);;
      on_cells (list_add_before free_socket_list (socket_link s));;
      init_page n' (s + 1) (id + 1)
  end.

(** A page of sockets for the first free entry of the map; whether there is one. *)
Definition grow_sockets : Net E bool :=
  map ← gets n_socket_map;
  match list_find (λ p, p = 0) map with
  | None => mret false
  | Some (i, _) =>
      page ← on_env AllocPage;
      if page =? 0 then mret false else
      let id := Z.of_nat i * SOCKET_P_PAGE in
      modify (set_socket_map (<[i := page]> map));;
      init_page (Z.to_nat SOCKET_P_PAGE) page id;;
      mret true
  end.

Definition new_socket : Net E Z :=
  acquire_sockets;;
  empty ← on_cells (list_empty free_socket_list);
  room ← (if empty : bool then grow_sockets else mret true);
  if negb room then release_sockets;; mret 0 else
  empty ← on_cells (list_empty free_socket_list);
  assert_ (negb empty);;
  le ← on_cells (list_next free_socket_list);
  let socket := le2socket le in
  on_cells (list_del_init (socket_link socket));;
  v ← get_sk socket;
  let save_id := sk_id v in
  memset_socket socket;;
  upd_sk socket (set_sk_id save_id);;
  upd_sk socket (set_sk_opened true);;
  upd_sk socket (set_sk_type SOCK_NONE);;
  sock_wait_init socket SND_WAIT;;
  sock_wait_init socket RCV_WAIT;;
  sock_wait_init socket CONN_WAIT;;
  sock_wait_init socket CLOSE_WAIT;;
  upd_sk socket (set_wait_state SND_WAIT WT_SOCK_WRITE);;
  upd_sk socket (set_wait_state RCV_WAIT WT_SOCK_READ);;
  upd_sk socket (set_wait_state CONN_WAIT WT_SOCK_CONN);;
  upd_sk socket (set_wait_state CLOSE_WAIT WT_SOCK_CLOSE);;
  release_sockets;;
  mret socket.

Definition get_index (s : Z) : Net E Z :=
  v ← get_sk s; assert_ (sk_opened v);; mret (sk_id v).

Definition socket_alloc : Net E Z :=
  s ← new_socket;
  if negb (s =? 0) then v ← get_sk s; mret (sk_id v) else mret (- E_NO_MEM).

Definition socket_close (id : Z) : Net E Z :=
  s ← get_socket id;
  if s =? 0 then mret (- E_INVAL) else
  sock_wait_destory s SND_WAIT;;
  sock_wait_destory s RCV_WAIT;;
  sock_wait_destory s CONN_WAIT;;
  sock_wait_destory s CLOSE_WAIT;;
  socket_free s;;
  mret 0.

(** The operations table [ops] is the socket's type. *)
Definition socket_init (s family protocol : Z) : Net E Z :=
  upd_sk s (set_sk_protocol protocol);;
  upd_sk s (set_sk_family family);;
  upd_sk s (set_sk_local_ip ipaddr_set_any);;
  upd_sk s (set_sk_remote_ip ipaddr_set_any);;
  upd_sk s (set_sk_local_port 0);;
  upd_sk s (set_sk_remote_port 0);;
  upd_sk s (set_sk_ret NET_OK);;
  upd_sk s (set_sk_rcv_tmo 0);;
  upd_sk s (set_sk_snd_tmo 0);;
  upd_sk s (set_sk_close_tmo NET_CLOSE_MAX_TMO);;
  upd_sk s (set_sk_conn_tmo 0);;
  on_cells (list_init (socket_link s));;
  mret NET_OK.
End sock.
