(* ===== verification/TcpOut.v ===== *)
(** * TCP output: [net/tcp_out.c]

    Building and sending segments, the processing of acknowledgements, the
    estimate of the round trip, the congestion window and the output state
    machine with its timer.  [tcp_rcv_window], [tcp_set_state], [tcp_abort] and
    [tcp_kill_all_timers] of [tcp.c] and [tcp_state.c] are here because the
    output calls them. *)
From S2P Require Import Prelude Errors PacketIO Nettool ListH Ipaddr Pktbuf PktbufOps PktbufCursor PktbufSpec PktMem TcpBuf NetTypes NetState Sock.

Section tcp_out.
Context {E : Type} `{NE : !NetEnv E} `{K : !Kmalloc}.

(** ** Shared with [tcp.c] and [tcp_state.c] *)

Definition tcp_rcv_window (t : Z) : Net E Z := v ← get_tcp t; tcp_buf_free_cnt (rcv_buf v).

Definition tcp_set_state (t : Z) (st : Tcp_state) : Net E unit := upd_tcp t (set_tcp_state st).

(** [if (timer) { del_func_timer(timer); timer = nullptr; }] for one of the
    connection's timers. *)
Definition kill_timer (get : Tcp → Z) (put : Z → Tcp → Tcp) (t : Z) : Net E unit :=
  v ← get_tcp t;
  if get v =? 0 then mret tt
  else on_env (del_func_timer (get v));; upd_tcp t (put 0).

Definition keep_timer (v : Tcp) : Z := cn_keep_timer (tcp_conn v).
Definition nagle_timer (v : Tcp) : Z := cn_nagle_timer (tcp_conn v).
Definition snd_timer (v : Tcp) : Z := sd_snd_timer (tcp_snd v).
Definition put_keep_timer (x : Z) : Tcp → Tcp := on_conn (set_cn_keep_timer x).
Definition put_nagle_timer (x : Z) : Tcp → Tcp := on_conn (set_cn_nagle_timer x).
Definition put_snd_timer (x : Z) : Tcp → Tcp := on_snd (set_sd_snd_timer x).

Definition tcp_kill_all_timers (t : Z) : Net E unit :=
  kill_timer keep_timer put_keep_timer t;;
  kill_timer nagle_timer put_nagle_timer t;;
  kill_timer snd_timer put_snd_timer t.

Definition tcp_abort (t ret : Z) : Net E Z :=
  tcp_kill_all_timers t;;
  tcp_set_state t TCP_STATE_CLOSED;;
  sock_wakeup (info2sk t) WT_SOCK_ALL ret;;
  mret NET_OK.

Definition sys_time_goes (pre : Z) : Net E Z :=
  now ← on_env sys_gettime;
  if now <=? pre then mret 0 else mret (now - pre).

(** The operations of a stream buffer, with the packets where they move bytes. *)
Definition on_stream {A} (get : Tcp → Tcp_buf) (put : Tcp_buf → Tcp → Tcp) (t : Z)
    (m : M (Tcp_buf * pworld) A) : Net E A :=
  v ← get_tcp t;
  '(a, b) ← on_pk (λ p, '(a, (b, p')) ← m (get v, p); Ok ((a, b), p'));
  upd_tcp t (put b);; mret a.

Definition put_snd_buf (b : Tcp_buf) : Tcp → Tcp := on_snd (set_sd_buf b).
Definition put_rcv_buf (b : Tcp_buf) : Tcp → Tcp := on_rcv (set_rc_buf b).

Definition on_snd_buf {A} (t : Z) (m : M Tcp_buf A) : Net E A :=
  on_stream (λ v, snd_buf v) put_snd_buf t (zoom fst (λ b s, (b, snd s)) m).
Definition on_rcv_buf {A} (t : Z) (m : M Tcp_buf A) : Net E A :=
  on_stream (λ v, rcv_buf v) put_rcv_buf t (zoom fst (λ b s, (b, snd s)) m).

(** ** Sending a segment *)

Definition swap_hdr (h : Tcp_hdr) : Tcp_hdr :=
  set_h_urgptr (x_htons (h_urgptr h)) (set_h_win (x_htons (h_win h))
    (set_h_ack (x_htonl (h_ack h)) (set_h_seq (x_htonl (h_seq h))
      (set_h_dport (x_htons (h_dport h)) (set_h_sport (x_htons (h_sport h)) h))))).

Definition send_out (out : bptr) (buf : Z) (dest src : Ipaddr) : Net E Z :=
  on_pk (hdr_upd out swap_hdr);;
  on_pk (hdr_upd out (set_h_checksum 0));;
  c ← on_pk (checksum_peso (a_addr dest) (a_addr src) NET_PROTOCOL_TCP buf);
  on_pk (hdr_upd out (set_h_checksum c));;
  ret ← on_pk_env (ipv4_out NET_PROTOCOL_TCP dest src buf);
  (if ret <? 0 then on_pk (pktbuf_free buf) else mret tt);;
  mret ret.

(** The header of the segments that only acknowledge: from the socket's ports,
    with the given sequence number, the receive window and [f_ack]. *)
Definition ack_hdr (sport dport seq ack win : Z) (h : Tcp_hdr) : Tcp_hdr :=
  tcp_set_hdr_size SIZEOF_TCP_HDR (set_h_urgptr 0 (set_h_win (u16 win)
    (set_h_fack true (clear_flags (set_h_ack ack (set_h_seq seq
      (set_h_dport dport (set_h_sport sport h)))))))).

Definition tcp_send_reset (sg : Z) : Net E Z :=
  seg ← get_seg sg;
  let in_ := sg_hdr seg in
  if h_rst in_ then mret NET_OK else
  buf ← on_pk (pktbuf_alloc SIZEOF_TCP_HDR);
  if buf =? 0 then mret (- E_NO_MEM) else
  out ← on_pk (hdr_ptr buf);
  on_pk (hdr_upd out (λ h,
    set_h_rst true (clear_flags (set_h_dport (h_sport in_) (set_h_sport (h_dport in_) h)))));;
  on_pk (hdr_upd out (λ h,
    if h_fack in_ then set_h_fack false (set_h_ack 0 (set_h_seq (h_ack in_) h))
    else set_h_fack true (set_h_ack (u32 (h_seq in_ + sg_seq_len seg)) (set_h_seq 0 h))));;
  on_pk (hdr_upd out (λ h,
    set_h_win 0 (set_h_urgptr 0 (tcp_set_hdr_size SIZEOF_TCP_HDR h))));;
  send_out out buf (sg_remote_ip seg) (sg_local_ip seg).

(** ** What to send *)

Definition tcp_do_output_nagle (v : Tcp) (dlen : Z) : bool :=
  (una v =? snd_nxt v) || fl_nagle_dis_enble (tcp_flags v) || (tcp_mss v <=? dlen)
  || syn_out v || fin_out v.

Definition tcp_do_input_nagle (t : Z) : Net E bool :=
  v ← get_tcp t;
  if fl_nagle_dis_enble (tcp_flags v) then mret true else
  win ← tcp_rcv_window t;
  mret ((tcp_mss v <=? win) || syn_out v || fin_out v).

(** [cwin < win ? cwin : win]. *)
Definition usable_win (s : Tcp_snd) : Z := if sd_cwin s <? sd_win s then sd_cwin s else sd_win s.

(** [*doff] and [*dlen], which stay unset when [nxt] is before [una]. *)
Definition get_send_info (t : Z) (rexmit no_newdata : bool) : Net E (option (Z * Z)) :=
  v ← get_tcp t;
  lt ← of_outcome (TCP_SEQ_LT (snd_nxt v) (una v));
  if (lt : bool) then mret None else
  let unacked := u32 (snd_nxt v - una v) in
  let cnt := tcp_buf_cnt (snd_buf v) in
  let '(doff, dlen) :=
    if rexmit then (0, if no_newdata then unacked else s64 (u64 (cnt - 0)))
    else let doff := if syn_out v then 0 else unacked in (doff, s64 (u64 (cnt - doff))) in
  let s := tcp_snd v in
  if sd_win s =? 0 then mret (Some (doff, 1)) else
  let dlen := if tcp_mss v <? dlen then tcp_mss v else dlen in
  let win := usable_win s in
  let dlen := if win <? u64 (dlen + doff) then s64 (u64 (win - doff)) else dlen in
  mret (Some (doff, dlen)).

Definition copy_send_data (t buf doff dlen : Z) : Net E Z :=
  if dlen =? 0 then mret 0 else
  v ← get_tcp t;
  let count := tb_count (snd_buf v) in
  let real_dlen := if dlen <=? u64 (count - doff) then dlen else count in
  if real_dlen =? 0 then mret 0 else
  pb ← on_pk (get_buf buf);
  ret ← on_pk (pktbuf_resize buf (u64 (total_size pb + real_dlen)));
  if ret <? 0 then mret (u64 ret) else
  p ← on_pk (hdr_ptr buf);
  h ← on_pk (hdr_load p);
  let hdr_size := tcp_hdr_size h in
  on_pk (pktbuf_reset_acc buf);;
  on_pk (pktbuf_seek buf hdr_size);;
  on_stream (λ v, snd_buf v) put_snd_buf t
    (@tcp_buf_read_send pworld (pktbuf_io buf) doff real_dlen);;
  mret real_dlen.

(** The MSS option after the header: kind, length, value in network order. *)
Definition write_sync_option (t buf : Z) : Net E unit :=
  pb ← on_pk (get_buf buf);
  ret ← on_pk (pktbuf_resize buf (u64 (total_size pb + SIZEOF_TCP_OPT_MSS)));
  if ret <? 0 then mret tt else
  v ← get_tcp t;
  on_pk (pktbuf_reset_acc buf);;
  on_pk (pktbuf_seek buf SIZEOF_TCP_HDR);;
  on_pk (pktbuf_write buf ([TCP_OPT_MSS; SIZEOF_TCP_OPT_MSS] ++ le16 (x_ntohs (tcp_mss v))));;
  mret tt.

(** A segment with only the header, for the connection's peer. *)
Definition send_ack_hdr (t seq : Z) (rst : bool) (dest src : Ipaddr) : Net E Z :=
  buf ← on_pk (pktbuf_alloc SIZEOF_TCP_HDR);
  if buf =? 0 then mret (- E_NO_MEM) else
  out ← on_pk (hdr_ptr buf);
  s ← get_sk (info2sk t);
  v ← get_tcp t;
  win ← tcp_rcv_window t;
  on_pk (hdr_upd out (λ h,
    let h := ack_hdr (sk_local_port s) (sk_remote_port s) seq (rcv_nxt v) win h in
    if rst then set_h_rst true h else h));;
  send_out out buf dest src.

Definition set_ACK_delay (b : bool) : Tcp → Tcp := on_flags (set_fl_ACK_delay b).

Definition do_nagle_ack_timer_tmo (t : Z) : Net E unit :=
  v ← get_tcp t;
  assert_ (negb (t =? 0));;
  if negb (fl_ACK_delay (tcp_flags v)) then mret tt else
  upd_tcp t (set_ACK_delay false);;
  s ← get_sk (info2sk t);
  v ← get_tcp t;
  send_ack_hdr t (snd_nxt v) false (sk_remote_ip s) (sk_local_ip s);;
  mret tt.

(** [if (!ACK_delay && !tcp_do_input_nagle(tcp))] put the acknowledgement off. *)
Definition delay_ack (t : Z) : Net E bool :=
  v ← get_tcp t;
  if fl_ACK_delay (tcp_flags v) then mret false else
  ok ← tcp_do_input_nagle t;
  if (ok : bool) then mret false else
  upd_tcp t (set_ACK_delay true);;
  tm ← on_env (timer_func_add do_nagle_ack_timer_tmo_cb t TCP_NAGLE_TMO);
  upd_tcp t (put_nagle_timer tm);;
  mret true.

Definition tcp_send_win_update (t : Z) : Net E Z :=
  d ← delay_ack t;
  if (d : bool) then mret NET_OK else
  upd_tcp t (set_ACK_delay false);;
  s ← get_sk (info2sk t);
  v ← get_tcp t;
  send_ack_hdr t (snd_nxt v) false (sk_remote_ip s) (sk_local_ip s).

Definition tcp_send_ack (t sg : Z) : Net E Z :=
  seg ← get_seg sg;
  if h_rst (sg_hdr seg) then mret NET_OK else
  d ← delay_ack t;
  if (d : bool) then mret NET_OK else
  upd_tcp t (set_ACK_delay false);;
  v ← get_tcp t;
  send_ack_hdr t (snd_nxt v) false (sg_remote_ip seg) (sg_local_ip seg).

Definition tcp_send_keepalive (t : Z) : Net E Z :=
  s ← get_sk (info2sk t);
  v ← get_tcp t;
  send_ack_hdr t (u32 (snd_nxt v - 1)) false (sk_remote_ip s) (sk_local_ip s).

Definition tcp_send_reset_for_tcp (t : Z) : Net E Z :=
  s ← get_sk (info2sk t);
  v ← get_tcp t;
  send_ack_hdr t (snd_nxt v) true (sk_remote_ip s) (sk_local_ip s).

(** ** Data segments *)

Definition zero_hdr : Tcp_hdr := mk_hdr 0 0 0 0 0 0
  false false false false false false false false 0 0 0.

(** The header of a segment that carries data or a flag, up to the options. *)
Definition open_segment (t seq : Z) : Net E (bptr * Z) :=
  s ← get_sk (info2sk t);
  buf ← on_pk (pktbuf_alloc SIZEOF_TCP_HDR);
  if buf =? 0 then mret (mk_ptr 0 0 0, 0) else
  hdr ← on_pk (hdr_ptr buf);
  on_pk (hdr_store hdr zero_hdr);;
  v ← get_tcp t;
  on_pk (hdr_upd hdr (λ h,
    set_h_syn (syn_out v) (clear_flags (set_h_ack (rcv_nxt v) (set_h_seq seq
      (set_h_dport (sk_remote_port s) (set_h_sport (sk_local_port s) h)))))));;
  h ← on_pk (hdr_load hdr);
  (if h_syn h then write_sync_option t buf else mret tt);;
  win ← tcp_rcv_window t;
  pb ← on_pk (get_buf buf);
  on_pk (hdr_upd hdr (λ h,
    tcp_set_hdr_size (total_size pb) (set_h_urgptr 0 (set_h_win (u16 win)
      (set_h_fin (if tcp_buf_cnt (snd_buf v) =? 0 then fin_out v else false)
        (set_h_fack (fl_irs_valid (tcp_flags v)) h))))));;
  mret (hdr, buf).

Definition tcp_transmit (t : Z) : Net E Z :=
  r ← get_send_info t false false;
  '(doff, dlen) ← of_option r;
  v ← get_tcp t;
  if (dlen <? 0) || negb (tcp_do_output_nagle v dlen) then mret NET_OK else
  let seq_len := dlen + Z.b2z (syn_out v) in
  let seq_len := if (tcp_buf_cnt (snd_buf v) =? 0) && fin_out v then seq_len + 1 else seq_len in
  if seq_len =? 0 then mret NET_OK else
  '(hdr, buf) ← open_segment t (snd_nxt v);
  if buf =? 0 then mret (- E_NO_MEM) else
  copy_send_data t buf doff dlen;;
  h ← on_pk (hdr_load hdr);
  upd_tcp t (on_snd (λ s, set_sd_nxt (u32 (sd_nxt s + dlen + Z.b2z (h_syn h) + Z.b2z (h_fin h))) s));;
  s ← get_sk (info2sk t);
  send_out hdr buf (sk_remote_ip s) (sk_local_ip s).

Definition tcp_retransmit (t : Z) (no_newdata : bool) : Net E Z :=
  r ← get_send_info t true no_newdata;
  '(doff, dlen) ← of_option r;
  v ← get_tcp t;
  if (dlen <? 0) || (negb (tcp_do_output_nagle v dlen) && negb no_newdata) then mret NET_OK else
  '(hdr, buf) ← open_segment t (una v);
  if buf =? 0 then mret (- E_NO_MEM) else
  let ctl := Z.b2z (syn_out v) + Z.b2z (fin_out v) in
  send_size ← (if 0 <? dlen - ctl then copy_send_data t buf doff (u64 (dlen - ctl)) else mret 0);
  if (send_size =? 0) && negb (syn_out v) && negb (fin_out v)
  then on_pk (pktbuf_free buf);; mret NET_OK else
  let una_rlimit := u32 (una v + dlen) in
  lt ← of_outcome (TCP_SEQ_LT (snd_nxt v) una_rlimit);
  (if (lt : bool) then
     let diff := u32 (una_rlimit - snd_nxt v - Z.b2z (syn_out v) - Z.b2z (fin_out v)) in
     upd_tcp t (on_snd (λ s, set_sd_nxt (u32 (sd_nxt s + diff)) s))
   else mret tt);;
  s ← get_sk (info2sk t);
  send_out hdr buf (sk_remote_ip s) (sk_local_ip s).

(** ** The output state machine *)

Definition tcp_set_ostate (t : Z) (st : Tcp_ostate) : Net E unit :=
  let arm (tmo : Z) (reset : Tcp_snd → Tcp_snd) :=
    upd_tcp t (on_snd reset);;
    upd_tcp t (on_snd (set_sd_ostate st));;
    kill_timer snd_timer put_snd_timer t;;
    tm ← on_env (timer_func_add tcp_out_timer_tmo_cb t (u64 tmo));
    upd_tcp t (put_snd_timer tm) in
  v ← get_tcp t;
  match st with
  | TCP_OSTATE_MAX => mret tt
  | TCP_OSTATE_IDLE =>
      upd_tcp t (on_snd (set_sd_ostate st));; kill_timer snd_timer put_snd_timer t
  | TCP_OSTATE_SENDING | TCP_OSTATE_REXMIT => arm (s32 (sd_rto (tcp_snd v))) (set_sd_rexmit_cnt 0)
  | TCP_OSTATE_PERSIST => arm TCP_PERSIST_TMO (set_sd_persist_cnt 0)
  end.

Definition tcp_begin_rto (t : Z) : Net E unit :=
  v ← get_tcp t;
  if fl_rto_going (tcp_flags v) then mret tt else
  upd_tcp t (on_snd (set_sd_rttseq (snd_nxt v)));;
  now ← on_env sys_gettime;
  upd_tcp t (on_snd (set_sd_rtttime now));;
  upd_tcp t (on_flags (set_fl_rto_going true)).

Definition tcp_end_rto (t : Z) : Net E unit := upd_tcp t (on_flags (set_fl_rto_going false)).

(** [if (win) { transmit; SENDING; begin_rto } else PERSIST]. *)
Definition send_or_persist (t : Z) : Net E unit :=
  v ← get_tcp t;
  if negb (sd_win (tcp_snd v) =? 0) then
    tcp_transmit t;; tcp_set_ostate t TCP_OSTATE_SENDING;; tcp_begin_rto t
  else tcp_set_ostate t TCP_OSTATE_PERSIST.

Definition tcp_ostate_idle_in (t : Z) (event : Tcp_oevent) : Net E unit :=
  match event with
  | TCP_OEVENT_SEND => send_or_persist t
  | TCP_OEVENT_XMIT => mret tt
  end.

(** [(una == nxt) || fin_out]: nothing is in flight, or the end of the stream is due. *)
Definition nothing_in_flight (v : Tcp) : bool := (una v =? snd_nxt v) || fin_out v.
Definition more_to_send (v : Tcp) : bool :=
  negb (tcp_buf_cnt (snd_buf v) =? 0) || fin_out v.

Definition tcp_ostate_sending_in (t : Z) (event : Tcp_oevent) : Net E unit :=
  match event with
  | TCP_OEVENT_SEND => send_or_persist t
  | TCP_OEVENT_XMIT =>
      v ← get_tcp t;
      if nothing_in_flight v then
        if more_to_send v then send_or_persist t else tcp_set_ostate t TCP_OSTATE_IDLE
      else mret tt
  end.

Definition tcp_ostate_rexmit_in (t : Z) (event : Tcp_oevent) : Net E unit :=
  match event with
  | TCP_OEVENT_SEND => mret tt
  | TCP_OEVENT_XMIT =>
      v ← get_tcp t;
      let win := negb (sd_win (tcp_snd v) =? 0) in
      if nothing_in_flight v then
        if more_to_send v then
          if win then tcp_transmit t;; tcp_set_ostate t TCP_OSTATE_SENDING
          else tcp_set_ostate t TCP_OSTATE_PERSIST
        else tcp_set_ostate t TCP_OSTATE_IDLE
      else if win then tcp_set_ostate t TCP_OSTATE_REXMIT
      else tcp_set_ostate t TCP_OSTATE_PERSIST
  end.

Definition tcp_ostate_persist_in (t : Z) (event : Tcp_oevent) : Net E unit :=
  match event with
  | TCP_OEVENT_SEND => mret tt
  | TCP_OEVENT_XMIT =>
      v ← get_tcp t;
      if sd_win (tcp_snd v) =? 0 then mret tt else
      if nothing_in_flight v then tcp_transmit t;; tcp_set_ostate t TCP_OSTATE_SENDING
      else tcp_set_ostate t TCP_OSTATE_REXMIT;; tcp_retransmit t true;; mret tt
  end.

Definition tcp_out_event (t : Z) (event : Tcp_oevent) : Net E unit :=
  v ← get_tcp t;
  match sd_ostate (tcp_snd v) with
  | TCP_OSTATE_IDLE => tcp_ostate_idle_in t event
  | TCP_OSTATE_SENDING => tcp_ostate_sending_in t event
  | TCP_OSTATE_REXMIT => tcp_ostate_rexmit_in t event
  | TCP_OSTATE_PERSIST => tcp_ostate_persist_in t event
  | TCP_OSTATE_MAX => mret tt
  end.

Definition tcp_send_syn (t : Z) : Net E Z :=
  upd_tcp t (on_flags (set_fl_syn_out true));; tcp_out_event t TCP_OEVENT_SEND;; mret NET_OK.

Definition tcp_send_fin (t : Z) : Net E Z :=
  upd_tcp t (on_flags (set_fl_fin_out true));; tcp_out_event t TCP_OEVENT_SEND;; mret NET_OK.

Definition tcp_write_sndbuf (t : Z) (buf : bytes) (len : Z) : Net E Z :=
  v ← get_tcp t;
  free ← tcp_buf_free_cnt (snd_buf v);
  let free_cnt := s32 free in
  if free_cnt =? 0 then mret 0 else
  let wr_len := s32 (if u64 free_cnt <? len then free_cnt else len) in
  on_snd_buf t (tcp_buf_write_send buf wr_len);;
  mret (u64 wr_len).

(** ** The timer *)

(** The congestion window after a loss: half the window in use, at least two
    segments, is the threshold. *)
Definition half_window (v : Tcp) : Z :=
  let sthresh := u64 (Z.shiftr (s64 (usable_win (tcp_snd v))) 1) in
  if sthresh <? tcp_mss v * 2 then tcp_mss v * 2 else sthresh.

Definition arm_out_timer (t tmo : Z) : Net E unit :=
  tm ← on_env (timer_func_add tcp_out_timer_tmo_cb t (u64 tmo));
  upd_tcp t (put_snd_timer tm).

Definition tcp_out_timer_tmo (t : Z) : Net E unit :=
  upd_tcp t (λ v, on_snd (set_sd_sthresh (half_window v)) v);;
  upd_tcp t (λ v, on_snd (set_sd_cwin (tcp_mss v)) v);;
  v ← get_tcp t;
  match sd_ostate (tcp_snd v) with
  | TCP_OSTATE_SENDING =>
      tcp_end_rto t;;
      ret ← tcp_retransmit t true;
      if ret <? 0 then mret tt else
      upd_tcp t (on_snd (set_sd_rexmit_cnt 1));;
      v ← get_tcp t;
      rto ← of_outcome (signed 64 (sd_rto (tcp_snd v) * 2));
      upd_tcp t (on_snd (set_sd_rto rto));;
      upd_tcp t (on_snd (set_sd_ostate TCP_OSTATE_REXMIT));;
      arm_out_timer t rto
  | TCP_OSTATE_REXMIT =>
      cnt ← of_outcome (signed 32 (sd_rexmit_cnt (tcp_snd v) + 1));
      upd_tcp t (on_snd (set_sd_rexmit_cnt cnt));;
      if sd_rexmit_max (tcp_snd v) <? cnt then tcp_abort t (- E_NET_TMO);; mret tt else
      ret ← tcp_retransmit t true;
      if ret <? 0 then mret tt else
      v ← get_tcp t;
      rto ← of_outcome (signed 64 (sd_rto (tcp_snd v) * 2));
      let rto := if TCP_RTO_MAX <=? rto then TCP_RTO_MAX else rto in
      upd_tcp t (on_snd (set_sd_rto rto));;
      arm_out_timer t rto
  | TCP_OSTATE_PERSIST =>
      cnt ← of_outcome (signed 32 (sd_persist_cnt (tcp_snd v) + 1));
      upd_tcp t (on_snd (set_sd_persist_cnt cnt));;
      if TCP_PERSIST_RETRIES <? cnt then tcp_abort t (- E_NET_TMO);; mret tt else
      ret ← tcp_retransmit t true;
      if ret <? 0 then mret tt else
      v ← get_tcp t;
      tmo ← of_outcome (signed 64 (Z.shiftl (sd_rto (tcp_snd v)) (sd_persist_cnt (tcp_snd v))));
      arm_out_timer t (if TCP_RTO_MAX <=? tmo then TCP_RTO_MAX else tmo)
  | _ => mret tt
  end.

(** ** Acknowledgements *)

Definition tcp_cal_snd_wnd (t sg : Z) : Net E unit :=
  seg ← get_seg sg;
  v ← get_tcp t;
  let s := tcp_snd v in
  newer ← of_outcome (or_else (TCP_SEQ_LT (sd_wl1_seq s) (sg_seq seg))
    (and_then (Ok (sd_wl1_seq s =? sg_seq seg)) (TCP_SEQ_LE (sd_wl2_ack s) (h_ack (sg_hdr seg)))));
  if (newer : bool) then
    upd_tcp t (on_snd (set_sd_win (h_win (sg_hdr seg))));;
    upd_tcp t (on_snd (set_sd_wl1_seq (sg_seq seg)));;
    upd_tcp t (on_snd (set_sd_wl2_ack (h_ack (sg_hdr seg))))
  else mret tt.

(** The estimate from one measure [rtt]: [srtt] is scaled by 8, [rttvar] by 4. *)
Definition rtt_update (rtt nxt : Z) (s : Tcp_snd) : Tcp_snd :=
  if negb (sd_srtt s =? 0) then
    let delta := rtt - Z.shiftr (sd_srtt s) 3 in
    set_sd_rttvar (sd_rttvar s + ((if delta <? 0 then - delta else delta) - Z.shiftr (sd_rttvar s) 2))
      (set_sd_srtt (sd_srtt s + delta) s)
  else
    set_sd_rttseq nxt (set_sd_rttvar (Z.shiftl rtt 1) (set_sd_srtt (Z.shiftl rtt 3) s)).

Definition rto_of (s : Tcp_snd) : Z :=
  let rto := Z.shiftr (sd_srtt s) 3 + sd_rttvar s in
  if rto <? TCP_RTO_MIN then TCP_RTO_MIN else rto.

Definition tcp_cal_rto (t : Z) : Net E unit :=
  v ← get_tcp t;
  if negb (fl_rto_going (tcp_flags v)) then mret tt else
  goes ← sys_time_goes (sd_rtttime (tcp_snd v));
  let rtt := s64 goes in
  let rtt := if rtt =? 0 then 1 else rtt in
  upd_tcp t (λ v, on_snd (rtt_update rtt (snd_nxt v)) v);;
  v ← get_tcp t;
  of_outcome (signed 64 (sd_srtt (tcp_snd v)));;
  of_outcome (signed 64 (sd_rttvar (tcp_snd v)));;
  of_outcome (signed 64 (Z.shiftr (sd_srtt (tcp_snd v)) 3 + sd_rttvar (tcp_snd v)));;
  upd_tcp t (λ v, on_snd (set_sd_rto (rto_of (tcp_snd v))) v);;
  upd_tcp t (on_flags (set_fl_rto_going false)).

(** [(mss * mss / cwin) < 1 ? 1 : (mss * mss / cwin)]: the product is an [int]. *)
Definition cwin_step (v : Tcp) : outcome Z :=
  sq ← signed 32 (tcp_mss v * tcp_mss v);
  if sd_cwin (tcp_snd v) =? 0 then Undef else
  let q := u64 sq / sd_cwin (tcp_snd v) in
  Ok (if q <? 1 then 1 else q).

(** A third duplicate: retransmit and halve the window; later ones inflate it. *)
Definition fast_retransmit (t : Z) : Net E unit :=
  v ← get_tcp t;
  if negb (fl_fast_recovery (tcp_flags v)) then
    tcp_retransmit t false;;
    tcp_set_ostate t TCP_OSTATE_REXMIT;;
    upd_tcp t (λ v, on_snd (set_sd_sthresh (half_window v)) v);;
    upd_tcp t (λ v, on_snd (λ s, set_sd_cwin (u64 (sd_sthresh s + 3 * tcp_mss v)) s) v);;
    upd_tcp t (on_flags (set_fl_fast_recovery true))
  else
    step ← of_outcome (cwin_step v);
    upd_tcp t (on_snd (λ s, set_sd_cwin (u64 (sd_cwin s + step)) s)).

(** Slow start below the threshold, one segment per round trip above it. *)
Definition grow_cwin (t : Z) : Net E unit :=
  v ← get_tcp t;
  let s := tcp_snd v in
  if sd_cwin s <? sd_sthresh s then
    let cwin := u64 (sd_cwin s + sd_cwin s) in
    upd_tcp t (on_snd (set_sd_cwin (if sd_sthresh s <? cwin then sd_sthresh s else cwin)))
  else
    step ← of_outcome (cwin_step v);
    upd_tcp t (on_snd (λ s, set_sd_cwin (u64 (sd_cwin s + step)) s)).

(** The bytes newly acknowledged leave the stream buffer. *)
Definition ack_bytes (t ack : Z) : Net E unit :=
  v ← get_tcp t;
  let acked_cnt := u32 (ack - una v) in
  let unacked_cnt := u32 (snd_nxt v - una v) in
  let curr_acked := if unacked_cnt <? acked_cnt then unacked_cnt else acked_cnt in
  if 0 <? curr_acked then
    upd_tcp t (on_snd (λ s, set_sd_una (u32 (sd_una s + curr_acked)) s));;
    removed ← on_snd_buf t (tcp_buf_remove curr_acked);
    let curr_acked := u64 (curr_acked - removed) in
    v ← get_tcp t;
    (if (tcp_buf_cnt (snd_buf v) =? 0) && negb (curr_acked =? 0) && fin_out v
     then upd_tcp t (on_flags (set_fl_fin_out false)) else mret tt);;
    sock_wakeup (info2sk t) WT_SOCK_WRITE NET_OK
  else mret tt.

(** An acknowledgement accepted: of something new, or a duplicate below the
    threshold. *)
Definition ack_accept (t ack : Z) : Net E Z :=
  upd_tcp t (on_snd (set_sd_dup_ack 0));;
  v ← get_tcp t;
  (if fl_fast_recovery (tcp_flags v) then
     upd_tcp t (on_flags (set_fl_fast_recovery false));;
     upd_tcp t (on_snd (λ s, set_sd_cwin (sd_sthresh s) s))
   else mret tt);;
  (if syn_out v then
     upd_tcp t (on_snd (λ s, set_sd_una (u32 (sd_una s + 1)) s));;
     upd_tcp t (on_flags (set_fl_syn_out false))
   else mret tt);;
  grow_cwin t;;
  ack_bytes t ack;;
  v ← get_tcp t;
  done ← of_outcome (TCP_SEQ_LE (sd_rttseq (tcp_snd v)) (una v));
  (if (done : bool) then tcp_cal_rto t else mret tt);;
  mret NET_OK.

Definition tcp_ack_process (t sg : Z) : Net E Z :=
  tcp_cal_snd_wnd t sg;;
  seg ← get_seg sg;
  let ack := h_ack (sg_hdr seg) in
  v ← get_tcp t;
  le ← of_outcome (TCP_SEQ_LE ack (una v));
  dup ← (if (le : bool) && bool_decide (sd_ostate (tcp_snd v) = TCP_OSTATE_SENDING) then
           n ← of_outcome (signed 32 (sd_dup_ack (tcp_snd v) + 1));
           upd_tcp t (on_snd (set_sd_dup_ack n));; mret (TCP_DUPTHRESH <=? n)
         else mret false);
  if (dup : bool) then fast_retransmit t;; mret NET_OK else
  v ← get_tcp t;
  future ← of_outcome (TCP_SEQ_LT (snd_nxt v) ack);
  if (future : bool) then
    (if decide (tcp_state v = TCP_STATE_SYN_RECVD) then tcp_send_reset sg else tcp_send_ack t sg);;
    mret (- E_NET_UNREACH)
  else ack_accept t ack.
End tcp_out.
