(* ===== verification/Tcp.v ===== *)
(** * TCP connections: [net/tcp.c]

    Creating, finding, opening and closing connections, the calls of the socket
    interface, options, keepalive, and the list of connections to reclaim. *)
From S2P Require Import Prelude Errors PacketIO Nettool ListH Ipaddr Pktbuf PktbufOps PktbufCursor PktbufSpec PktMem TcpBuf NetTypes NetState Sock TcpOut.

Definition SIZEOF_INT : Z := 4.
Definition TCP_KEEPIDLE : Z := 4.
Definition TCP_KEEPINTVL : Z := 5.
Definition TCP_KEEPCNT : Z := 6.
Definition TCP_NODELAY : Z := 7.
Definition AF_INET : Z := 0.

(** [Sockaddr_in]: the port in network byte order, the address word. *)
Record Sockaddr_in := mk_sockaddr { sin_family : Z; sin_port : Z; s_addr : Ipaddr }.

Section tcp.
Context {E : Type} `{NE : !NetEnv E} `{K : !Kmalloc}.
Context (SOCKET_P_PAGE : Z).

(** ** Creation and release *)

Definition tcps_init : Net E Z :=
  modify (λ w, set_cells (<[tcp_list := mk_entry 0 0]> (<[tcp_clean_list := mk_entry 0 0]>
    (n_cells w))) w);;
  on_cells (list_init tcp_list);;
  modify (set_tcp_lock false);;
  on_cells (list_init tcp_clean_list);;
  modify (set_clean_lock false);;
  mret NET_OK.

(** The fields [tcp_init] sets; the others keep their value. *)
Definition init_snd (s : Tcp_snd) : Tcp_snd :=
  mk_snd (mk_tbuf (tb_count (sd_buf s)) (tb_in (sd_buf s)) (tb_out (sd_buf s)) (tb_size (sd_buf s)) [])
    0 0 0 (sd_snd_timer s) TCP_INIT_RTO 0 0 TCP_OSTATE_IDLE 0 0 0 1 0 (sd_rtttime s) 0 0 0
    (sd_dup_ack s) 0 0.
Definition init_rcv (r : Tcp_rcv) : Tcp_rcv :=
  mk_rcv (mk_tbuf (tb_count (rc_buf r)) (tb_in (rc_buf r)) (tb_out (rc_buf r)) (tb_size (rc_buf r)) [])
    0 0.
Definition init_flags (f : Tcp_flags) : Tcp_flags :=
  mk_flags (fl_syn_out f) (fl_fin_out f) (fl_irs_valid f) (fl_fin_in f) false false
    (fl_rto_going f) false false false.
Definition init_tcp (v : Tcp) : Tcp :=
  mk_tcp 0 (init_flags (tcp_flags v)) TCP_STATE_CLOSED 0
    (mk_conn TCP_KEEPALIVE_TIME TCP_KEEPALIVE_INTVL TCP_KEEPALIVE_PROBES 0 0 0 0)
    (init_snd (tcp_snd v)) (init_rcv (tcp_rcv v)).

Definition tcp_init (s family protocol : Z) : Net E Z :=
  t ← skop_info s;
  ret ← socket_init s family protocol;
  if ret <? 0 then mret ret else
  upd_tcp t init_tcp;;
  on_cells (list_init (ofo_seq_list t));;
  e ← on_cells (list_empty (socket_link s));
  assert_ e;;
  acquire_tcp_list;;
  on_cells (list_add tcp_list (socket_link s));;
  release_tcp_list;;
  mret NET_OK.

(** [kfree(data); data = nullptr]. *)
Definition drop_data (b : Tcp_buf) : Tcp_buf :=
  mk_tbuf (tb_count b) (tb_in b) (tb_out b) (tb_size b) [].

Definition free_ofo_list (t : Z) : Net E unit :=
  next_le ← on_cells (list_next (ofo_seq_list t));
  fuel ← gets (λ w, size (n_cells w));
  loop (S fuel) (λ next_le,
    if decide (next_le = ofo_seq_list t) then mret (inr tt) else
    let next_s := le2seq next_le in
    next_le ← on_cells (list_next next_le);
    on_cells (list_del_init (tcp_ofo_link next_s));;
    seg ← get_seg next_s;
    on_pk (pktbuf_free (sg_buf seg));;
    kfree_seg next_s;;
    mret (inl next_le)) next_le.

Definition tcp_free (t : Z) : Net E unit :=
  let socket := info2sk t in
  tcp_kill_all_timers t;;
  upd_tcp t (λ v, put_snd_buf (drop_data (snd_buf v)) v);;
  upd_tcp t (λ v, put_rcv_buf (drop_data (rcv_buf v)) v);;
  free_ofo_list t;;
  tcp_set_state t TCP_STATE_FREE;;
  acquire_tcp_list;;
  on_cells (list_del (socket_link socket));;
  release_tcp_list.

Definition tcp_clear_parent (t : Z) : Net E unit :=
  list_for_each (A := Empty_set) tcp_list (λ _ le,
    child ← skop_info (le2socket le);
    v ← get_tcp child;
    (if tcp_parent v =? t then tcp_free child else mret tt);;
    mret (inl tt)) tt;;
  mret tt.

Definition tcp_close (s : Z) : Net E Z :=
  t ← skop_info s;
  v ← get_tcp t;
  match tcp_state v with
  | TCP_STATE_CLOSED => tcp_free t;; mret NET_OK
  | TCP_STATE_LISTEN =>
      tcp_clear_parent t;; tcp_abort t (- E_NET_CLOSE);; tcp_free t;; mret NET_OK
  | TCP_STATE_SYN_RECVD | TCP_STATE_SYN_SENT =>
      tcp_abort t (- E_NET_CLOSE);; tcp_free t;; mret NET_OK
  | TCP_STATE_CLOSE_WAIT =>
      tcp_send_fin t;; tcp_set_state t TCP_STATE_LAST_ACK;; mret NET_NEED_WAIT
  | TCP_STATE_ESTABLISHED =>
      tcp_send_fin t;; tcp_set_state t TCP_STATE_FIN_WAIT_1;; mret NET_NEED_WAIT
  | _ => mret (- E_NET_STATE)
  end.

(** ** Opening *)

(** Whether some connection has the port: the walk leaves at the first. *)
Definition port_used (port : Z) : Net E bool :=
  r ← list_for_each tcp_list (λ _ le,
    s ← get_sk (le2socket le);
    mret (if sk_local_port s =? port then inr tt else inl tt)) tt;
  mret (match r with inr _ => true | inl _ => false end).

Fixpoint port_scan (n : nat) (search_idx : Z) : Net E (option Z) :=
  match n with
  | O => mret None
  | S n' =>
      used ← port_used search_idx;
      let port := search_idx in
      let next := search_idx + 1 in
      let next := if NET_PORT_DYN_END <=? next then NET_PORT_DYN_START else next in
      if (used : bool) then port_scan n' next else mret (Some port)
  end.

Definition alloc_port : Net E Z :=
  r ← on_env rand;
  let search_idx := s32 (Z.rem r 1000 + NET_PORT_DYN_START) in
  acquire_tcp_list;;
  o ← port_scan (Z.to_nat (NET_PORT_DYN_END - NET_PORT_DYN_START)) search_idx;
  release_tcp_list;;
  mret (default (-1) o).

Definition tcp_get_iss : Net E Z :=
  modify (λ w, set_iss (u32 (n_iss w + if n_iss w =? 0 then 32435 else 305)) w);;
  gets n_iss.

Definition alloc_stream (size : Z) : Net E Tcp_buf :=
  d ← on_env (kmalloc size);
  match d with Some data => mret (tcp_buf_init data size) | None => panic end.

Definition tcp_init_connect (t : Z) : Net E Z :=
  s ← get_sk (info2sk t);
  o ← on_env (rt_find (sk_remote_ip s));
  rt ← of_option o;
  upd_tcp t (set_tcp_mss (
    if (rt_mtu rt =? 0) || negb (ipaddr_is_any (rt_next_hop rt)) then TCP_DEFAULT_MSS
    else u16 (rt_mtu rt - SIZEOF_IPV4_HDR - SIZEOF_TCP_HDR)));;
  b ← alloc_stream TCP_SBUF_SIZE;
  upd_tcp t (put_snd_buf b);;
  b ← alloc_stream TCP_RBUF_SIZE;
  upd_tcp t (put_rcv_buf b);;
  iss ← tcp_get_iss;
  upd_tcp t (on_snd (set_sd_iss iss));;
  upd_tcp t (on_snd (λ s, set_sd_una iss (set_sd_nxt iss s)));;
  upd_tcp t (λ v, on_snd (set_sd_win (tcp_mss v)) v);;
  upd_tcp t (on_snd (set_sd_ostate TCP_OSTATE_IDLE));;
  upd_tcp t (on_snd (set_sd_rexmit_max TCP_INT_RETRIES));;
  upd_tcp t (on_snd (set_sd_persist_max TCP_PERSIST_RETRIES));;
  upd_tcp t (on_rcv (set_rc_nxt 0));;
  mret NET_OK.

Definition tcp_conn_exist (t : Z) : Net E bool :=
  let socket := info2sk t in
  acquire_tcp_list;;
  v ← get_sk socket;
  r ← list_for_each tcp_list (λ _ le,
    let s := le2socket le in
    if s =? socket then mret (inl tt) else
    sv ← get_sk s;
    mret (if ipaddr_is_equal (sk_local_ip v) (sk_local_ip sv)
             && ipaddr_is_equal (sk_remote_ip v) (sk_remote_ip sv)
             && (sk_local_port v =? sk_local_port sv) && (sk_remote_port v =? sk_remote_port sv)
          then inr false (* [ret = false; break] *) else inl tt)) tt;
  release_tcp_list;;
  mret (match r with inr b => b | inl _ => false end).

Definition tcp_connect (s : Z) (addr : Sockaddr_in) : Net E Z :=
  t ← skop_info s;
  v ← get_tcp t;
  if negb (bool_decide (tcp_state v = TCP_STATE_CLOSED)) then mret (- E_NET_STATE) else
  upd_sk s (set_sk_remote_ip (s_addr addr));;
  upd_sk s (set_sk_remote_port (x_ntohs (sin_port addr)));;
  sv ← get_sk s;
  port ← (if sk_local_port sv =? NET_PORT_EMPTY then alloc_port else mret (sk_local_port sv));
  if port =? -1 then mret (- E_NET_NONE) else
  upd_sk s (set_sk_local_port (u16 port));;
  sv ← get_sk s;
  routed ← (if ipaddr_is_any (sk_local_ip sv) then
              o ← on_env (rt_find (sk_remote_ip sv));
              match o with
              | None => mret false
              | Some rt => upd_sk s (set_sk_local_ip (rt_ipaddr rt));; mret true
              end
            else mret true);
  if negb routed then mret (- E_NET_UNREACH) else
  ex ← tcp_conn_exist t;
  if (ex : bool) then mret (- E_NET_EXIST) else
  ret ← tcp_init_connect t;
  if ret <? 0 then mret ret else
  ret ← tcp_send_syn t;
  if ret <? 0 then mret ret else
  tcp_set_state t TCP_STATE_SYN_SENT;;
  mret NET_NEED_WAIT.

(** ** Finding the connection of a segment *)

(** An exact match at once, else the last one bound to any local address. *)
Definition find_connected (local_ip local_port remote_ip remote_port : Z) : Net E (Z + Z) :=
  list_for_each tcp_list (λ match_tcp le,
    let s := le2socket le in
    sv ← get_sk s;
    if (sk_local_port sv =? local_port) && ipaddr_is_equal (sk_remote_ip sv) remote_ip
       && (sk_remote_port sv =? remote_port) then
      if ipaddr_is_equal (sk_local_ip sv) local_ip then t ← skop_info s; mret (inr t)
      else if ipaddr_is_any (sk_local_ip sv) then t ← skop_info s; mret (inl t)
      else mret (inl match_tcp)
    else mret (inl match_tcp)) 0.

Definition find_listening (local_ip local_port : Z) : Net E (Z + Z) :=
  list_for_each tcp_list (λ match_tcp le,
    let s := le2socket le in
    t ← skop_info s;
    v ← get_tcp t;
    sv ← get_sk s;
    if bool_decide (tcp_state v = TCP_STATE_LISTEN) && (sk_local_port sv =? local_port) then
      if ipaddr_is_equal (sk_local_ip sv) local_ip then mret (inr t)
      else if ipaddr_is_any (sk_local_ip sv) then mret (inl t)
      else mret (inl match_tcp)
    else mret (inl match_tcp)) 0.

Definition tcp_find (local_ip local_port remote_ip remote_port : Z) : Net E Z :=
  acquire_tcp_list;;
  r ← find_connected local_ip local_port remote_ip remote_port;
  match r with
  | inr t => release_tcp_list;; mret t
  | inl match_tcp =>
      if negb (match_tcp =? 0) then release_tcp_list;; mret match_tcp else
      r ← find_listening local_ip local_port;
      release_tcp_list;;
      mret (match r with inr t => t | inl m => m end)
  end.

(** ** Keepalive *)

Definition keepalive_start_timer (t : Z) : Net E unit :=
  v ← get_tcp t;
  if bool_decide (tcp_state v = TCP_STATE_ESTABLISHED) then
    upd_tcp t (on_conn (set_cn_keep_retry 0));;
    tmo ← of_outcome (signed 32 (cn_keep_idle (tcp_conn v) * 1000));
    tm ← on_env (timer_func_add tcp_keepalive_tmo_cb t (u64 tmo));
    upd_tcp t (put_keep_timer tm)
  else mret tt.

(** [if (keep_timer) del_func_timer(keep_timer); keep_timer = nullptr;] *)
Definition stop_keep_timer (t : Z) : Net E unit := kill_timer keep_timer put_keep_timer t.

Definition tcp_keepalive_tmo (t : Z) : Net E unit :=
  v ← get_tcp t;
  retry ← of_outcome (signed 32 (cn_keep_retry (tcp_conn v) + 1));
  upd_tcp t (on_conn (set_cn_keep_retry retry));;
  if retry <=? cn_keep_cnt (tcp_conn v) then
    tcp_send_keepalive t;;
    stop_keep_timer t;;
    tmo ← of_outcome (signed 32 (cn_keep_intvl (tcp_conn v) * 1000));
    tm ← on_env (timer_func_add tcp_keepalive_tmo_cb t (u64 tmo));
    upd_tcp t (put_keep_timer tm)
  else
    tcp_send_reset_for_tcp t;; tcp_abort t (- E_NET_CLOSE);; mret tt.

Definition tcp_keepalive_start (t : Z) (run : bool) : Net E unit :=
  v ← get_tcp t;
  (if fl_keep_enable (tcp_flags v) && negb run then stop_keep_timer t
   else if negb (fl_keep_enable (tcp_flags v)) && run then keepalive_start_timer t
   else mret tt);;
  upd_tcp t (on_flags (set_fl_keep_enable run)).

Definition tcp_keepalive_restart (t : Z) : Net E unit :=
  v ← get_tcp t;
  if fl_keep_enable (tcp_flags v) then
    stop_keep_timer t;; keepalive_start_timer t;; upd_tcp t (on_conn (set_cn_keep_retry 0))
  else mret tt.

(** ** Options *)

(** The options after a header: [fetch i] is the byte at offset [i] from the
    header's start.  Every round moves on, so 64 rounds cover the 40 bytes. *)
Definition tcp_read_options (t : Z) (h : Tcp_hdr) (fetch : Z → Net E Z) : Net E unit :=
  let opt_end := tcp_hdr_size h in
  if opt_end <=? SIZEOF_TCP_HDR then mret tt else
  loop 64 (λ opt_start,
    if opt_end <=? opt_start then mret (inr tt) else
    kind ← fetch opt_start;
    if kind =? TCP_OPT_MSS then
      len ← fetch (opt_start + 1);
      if len =? 4 then
        b0 ← fetch (opt_start + 2);
        b1 ← fetch (opt_start + 3);
        let mss := x_ntohs (b0 + 256 * b1) in
        v ← get_tcp t;
        (if mss <? tcp_mss v then upd_tcp t (set_tcp_mss mss) else mret tt);;
        mret (inl (opt_start + len))
      else mret (inl (opt_start + 1 + len))
    else if kind =? TCP_OPT_NOP then mret (inl (opt_start + 1))
    else if kind =? TCP_OPT_END then mret (inr tt)
    else mret (inl (opt_start + 1))) SIZEOF_TCP_HDR.

(** Reading past the header of a packet, and past the copy of it in a segment,
    whose following bytes are other members of the structure. *)
Definition fetch_packet (p : bptr) (i : Z) : Net E Z :=
  l ← on_pk (mem_load p i 1); of_option (head l).
Definition fetch_seg (i : Z) : Net E Z := undef.

(** ** The socket interface *)

Definition tcp_send (s : Z) (buf : bytes) (len : Z) : Net E (Z * Z) :=
  t ← skop_info s;
  v ← get_tcp t;
  match tcp_state v with
  | TCP_STATE_CLOSED | TCP_STATE_FIN_WAIT_1 | TCP_STATE_FIN_WAIT_2 | TCP_STATE_CLOSING
  | TCP_STATE_TIME_WAIT | TCP_STATE_LAST_ACK => mret (- E_NET_CLOSE, 0)
  | TCP_STATE_ESTABLISHED | TCP_STATE_CLOSE_WAIT =>
      size ← tcp_write_sndbuf t buf len;
      if size =? 0 then mret (NET_NEED_WAIT, 0)
      else tcp_out_event t TCP_OEVENT_SEND;; mret (NET_OK, size)
  | _ => mret (- E_NET_STATE, 0)
  end.

(** The result, [*result_len] and the bytes stored to the caller's buffer. *)
Definition tcp_recv (s : Z) (len : Z) : Net E (Z * Z * bytes) :=
  t ← skop_info s;
  v ← get_tcp t;
  let receive need_wait :=
    pre_win ← tcp_rcv_window t;
    '(cnt, d) ← on_rcv_buf t (tcp_buf_read_rcv len);
    if 0 <? cnt then
      win ← tcp_rcv_window t;
      (if (pre_win =? 0) && negb (win =? 0) then tcp_send_win_update t;; mret tt else mret tt);;
      mret (NET_OK, cnt, d)
    else mret (need_wait, 0, []) in
  match tcp_state v with
  | TCP_STATE_LAST_ACK | TCP_STATE_CLOSED => mret (- E_NET_CLOSE, 0, [])
  | TCP_STATE_CLOSE_WAIT | TCP_STATE_CLOSING => receive NET_OK_CLOSE_WAIT
  | TCP_STATE_FIN_WAIT_1 | TCP_STATE_FIN_WAIT_2 | TCP_STATE_ESTABLISHED => receive NET_NEED_WAIT
  | _ => mret (- E_NET_STATE, 0, [])
  end.

Definition tcp_setopt (s level optname : Z) (optval : bytes) (optlen : Z) : Net E Z :=
  ret ← sock_setopt s level optname optval optlen;
  if ret =? NET_OK then mret NET_OK else
  if (ret <? 0) && negb (ret =? - E_NET_NOT_SUPPORT) then mret ret else
  t ← skop_info s;
  let value := get_int optval 0 in
  let with_int (m : Net E unit) : Net E Z :=
    if negb (optlen =? SIZEOF_INT) then mret (- E_NET_PARAM) else m;; mret NET_OK in
  if level =? SOL_SOCKET then with_int (tcp_keepalive_start t (negb (value =? 0)))
  else if level =? SOL_TCP then
    if optname =? TCP_KEEPIDLE then
      with_int (upd_tcp t (on_conn (set_cn_keep_idle value));; tcp_keepalive_restart t)
    else if optname =? TCP_KEEPINTVL then
      with_int (upd_tcp t (on_conn (set_cn_keep_intvl value));; tcp_keepalive_restart t)
    else if optname =? TCP_KEEPCNT then
      with_int (upd_tcp t (on_conn (set_cn_keep_cnt value));; tcp_keepalive_restart t)
    else if optname =? TCP_NODELAY then
      with_int (upd_tcp t (on_flags (set_fl_nagle_dis_enble (Z.odd value))))
    else mret (- E_NET_PARAM)
  else mret (- E_NET_PARAM).

(** The walk compares the socket's own address, not [s]'s. *)
Definition tcp_bind (s : Z) (addr : Sockaddr_in) : Net E Z :=
  t ← skop_info s;
  v ← get_tcp t;
  if negb (bool_decide (tcp_state v = TCP_STATE_CLOSED)) then mret (- E_NET_STATE) else
  if x_ntohs (sin_port addr) =? NET_PORT_EMPTY then mret (- E_NET_PARAM) else
  sv ← get_sk s;
  if negb (sk_local_port sv =? NET_PORT_EMPTY) then mret (- E_NET_BIND) else
  let local_ip := s_addr addr in
  ok ← (if ipaddr_is_any local_ip then mret true else
          o ← on_env (rt_find local_ip);
          mret (match o with
                | None => false
                | Some rt => ipaddr_is_equal local_ip (rt_ipaddr rt)
                end));
  if negb ok then mret (- E_NET_PARAM) else
  let port := x_ntohs (sin_port addr) in
  acquire_tcp_list;;
  r ← list_for_each tcp_list (λ _ le,
    let s' := le2socket le in
    sv' ← get_sk s';
    if (s' =? s) || negb (sk_remote_port sv' =? NET_PORT_EMPTY) then mret (inl tt) else
    if ipaddr_is_equal (sk_local_ip sv) local_ip && (sk_local_port sv =? port)
    then t' ← skop_info s'; mret (inr t') else mret (inl tt)) tt;
  release_tcp_list;;
  match r with
  | inr t' => mret (- E_NET_BIND)
  | inl _ =>
      upd_sk s (set_sk_local_ip local_ip);;
      upd_sk s (set_sk_local_port (x_ntohs (sin_port addr)));;
      mret NET_OK
  end.

Definition tcp_listen (s backlog : Z) : Net E Z :=
  t ← skop_info s;
  if backlog <=? 0 then mret (- E_NET_PARAM) else
  v ← get_tcp t;
  if negb (bool_decide (tcp_state v = TCP_STATE_CLOSED)) then mret (- E_NET_STATE) else
  tcp_set_state t TCP_STATE_LISTEN;;
  upd_tcp t (on_conn (set_cn_backlog backlog));;
  mret NET_OK.

(** The result and, for [NET_OK], [*addr] and [*client]. *)
Definition tcp_accept (s : Z) : Net E (Z * option (Sockaddr_in * Z)) :=
  acquire_tcp_list;;
  r ← list_for_each tcp_list (λ _ le,
    let s' := le2socket le in
    t ← skop_info s';
    v ← get_tcp t;
    other ← (if s' =? s then mret true else
               p ← skop_info s;
               mret (negb (tcp_parent v =? p)
                     || negb (bool_decide (tcp_state v = TCP_STATE_ESTABLISHED))));
    if (other : bool) then mret (inl tt) else
    if fl_inactive (tcp_flags v) then
      sv ← get_sk s';
      upd_tcp t (on_flags (set_fl_inactive false));;
      mret (inr (mk_sockaddr AF_INET (x_htons (sk_remote_port sv)) (sk_remote_ip sv), s'))
    else mret (inl tt)) tt;
  release_tcp_list;;
  match r with
  | inr res => mret (NET_OK, Some res)
  | inl _ => mret (NET_NEED_WAIT, None)
  end.

Definition tcp_backlog_count (t : Z) : Net E Z :=
  acquire_tcp_list;;
  r ← list_for_each (A := Empty_set) tcp_list (λ count le,
    child ← skop_info (le2socket le);
    v ← get_tcp child;
    if (tcp_parent v =? t) && fl_inactive (tcp_flags v) then
      count ← of_outcome (signed 32 (count + 1)); mret (inl count)
    else mret (inl count)) 0;
  release_tcp_list;;
  match r with inl count => mret count | inr e => match (e : Empty_set) with end end.

Definition tcp_create_child (parent sg : Z) : Net E Z :=
  let parent_socket := info2sk parent in
  child_socket ← new_socket SOCKET_P_PAGE;
  assert_ (negb (child_socket =? 0));;
  pv ← get_sk parent_socket;
  upd_sk child_socket (set_sk_type (sk_type pv));;
  ret ← tcp_init child_socket (sk_family pv) (sk_protocol pv);
  child ← skop_info child_socket;
  if ret <? 0 then mret 0 else
  seg ← get_seg sg;
  let h := sg_hdr seg in
  upd_sk child_socket (set_sk_local_ip (sg_local_ip seg));;
  upd_sk child_socket (set_sk_remote_ip (sg_remote_ip seg));;
  upd_sk child_socket (set_sk_local_port (h_dport h));;
  upd_sk child_socket (set_sk_remote_port (h_sport h));;
  upd_tcp child (set_tcp_parent parent);;
  upd_tcp child (on_flags (set_fl_irs_valid true));;
  upd_tcp child (on_flags (set_fl_inactive true));;
  upd_tcp child (on_conn (set_cn_backlog 0));;
  tcp_init_connect child;;
  upd_tcp child (on_rcv (set_rc_iss (sg_seq seg)));;
  upd_tcp child (on_rcv (set_rc_nxt (u32 (sg_seq seg + 1))));;
  upd_tcp child (on_snd (set_sd_win (h_win h)));;
  upd_tcp child (on_snd (set_sd_wl1_seq (sg_seq seg)));;
  upd_tcp child (on_snd (set_sd_wl2_ack (h_ack h)));;
  tcp_read_options child h fetch_seg;;
  mret child.

Definition tcp_destory (s : Z) : Net E unit :=
  t ← skop_info s;
  tcp_kill_all_timers t;;
  v ← get_tcp t;
  if bool_decide (tcp_state v = TCP_STATE_TIME_WAIT) then mret tt else tcp_free t.

(** ** Reclaiming *)

Definition add_clean_tcp_list (t : Z) : Net E unit :=
  acquire_clean_list;;
  on_cells (list_add tcp_clean_list (socket_link (info2sk t)));;
  release_clean_list.

Definition do_clean_tcp_list : Net E unit :=
  acquire_clean_list;;
  fuel ← gets (λ w, size (n_cells w));
  loop (S fuel) (λ _,
    le ← on_cells (list_next tcp_clean_list);
    if decide (le = tcp_clean_list) then mret (inr tt) else
    let s := le2socket le in
    t ← skop_info s;
    sv ← get_sk s;
    v ← get_tcp t;
    assert_ (sk_opened sv && bool_decide (tcp_state v = TCP_STATE_FREE));;
    on_cells (list_del (socket_link s));;
    socket_close SOCKET_P_PAGE (sk_id sv);;
    mret (inl tt)) tt;;
  release_clean_list.
End tcp.
