(* ===== verification/TcpIn.v ===== *)
(** * TCP input, the data path: [net/tcp_in.c]

    From a packet to a segment, the receive window's test, the queue of segments
    that came out of order, and the copy to the receive buffer.  The dispatch on
    the connection's state, [tcp_in], is in [TcpState] with the handlers. *)
From S2P Require Import Prelude Errors PacketIO Nettool ListH Ipaddr Pktbuf PktbufOps PktbufCursor PktbufSpec PktMem TcpBuf NetTypes NetState Sock TcpOut Tcp.

Section tcp_in.
Context {E : Type} `{NE : !NetEnv E} `{K : !Kmalloc}.

(** ** Segments *)

(** Memory for a segment, with its link. *)
Definition kmalloc_tcp_seg : Net E Z :=
  sg ← on_env kmalloc_seg;
  if sg =? 0 then mret 0 else
  modify (λ w, set_segs (<[sg := mk_seg 0 0 (mk_hdr 0 0 0 0 0 0
    false false false false false false false false 0 0 0) 0 0 0 0 false]> (n_segs w)) w);;
  modify (λ w, set_cells (<[tcp_ofo_link sg := mk_entry 0 0]> (n_cells w)) w);;
  mret sg.

(** The header is copied, then removed from the packet. *)
Definition tcp_seg_init (sg buf : Z) (local remote : Ipaddr) : Net E unit :=
  p ← on_pk (hdr_ptr buf);
  h ← on_pk (hdr_load p);
  pb ← on_pk (get_buf buf);
  let data_len := u32 (total_size pb - tcp_hdr_size h) in
  let seq_len := u32 (data_len + Z.b2z (h_syn h) + Z.b2z (h_fin h)) in
  upd_seg sg (λ _, mk_seg local remote h buf data_len (h_seq h) seq_len false);;
  on_cells (list_init (tcp_ofo_link sg));;
  on_pk (pktbuf_remove_header buf (tcp_hdr_size h));;
  mret tt.

(** [RCV.NXT =< seq < RCV.NXT+RCV.WND] as the code tests it. *)
Definition in_window (nxt win seq : Z) : outcome bool :=
  and_then (TCP_SEQ_LE nxt seq) (TCP_SEQ_LE seq (u32 (nxt + win - 1))).

(** The test on the numbers; the last [|=] evaluates both sides. *)
Definition seq_acceptable (nxt rcv_win seq seq_len : Z) : outcome bool :=
  if seq_len =? 0 then
    if rcv_win =? 0 then Ok (seq =? nxt) else in_window nxt rcv_win seq
  else if rcv_win =? 0 then Ok false
  else
    v ← in_window nxt rcv_win seq;
    let slast := u32 (seq + seq_len - 1) in
    w ← in_window nxt rcv_win slast;
    Ok (v || w).

Definition tcp_seq_acceptable (t sg : Z) : Net E bool :=
  win ← tcp_rcv_window t;
  v ← get_tcp t;
  seg ← get_seg sg;
  of_outcome (seq_acceptable (rcv_nxt v) (u32 win) (sg_seq seg) (sg_seq_len seg)).

(** ** Segments out of order *)

Definition add_len (n : Z) (s : Tcp_seg) : Tcp_seg :=
  set_sg_data_len (u32 (sg_data_len s + n)) (set_sg_seq_len (u32 (sg_seq_len s + n)) s).

(** [list_del_init; pktbuf_free; kfree] of a queued segment. *)
Definition drop_ofo (sg : Z) : Net E unit :=
  on_cells (list_del_init (tcp_ofo_link sg));;
  s ← get_seg sg;
  on_pk (pktbuf_free (sg_buf s));;
  kfree_seg sg.

(** The place before the first queued segment not before this one. *)
Definition ofo_place (t sg : Z) : Net E unit :=
  seg ← get_seg sg;
  let head := ofo_seq_list t in
  r ← list_for_each head (λ prev le,
    s ← get_seg (le2seq le);
    le_ ← of_outcome (TCP_SEQ_LE (sg_seq seg) (sg_seq s));
    if (le_ : bool) then on_cells (list_add_after prev (tcp_ofo_link sg));; mret (inr tt)
    else mret (inl le)) head;
  match r with
  | inr _ => mret tt
  | inl prev => on_cells (list_add_after prev (tcp_ofo_link sg))
  end.

(** The segments after it that it covers are dropped, the first it only
    overlaps or meets gives its tail. *)
Definition ofo_absorb (t sg : Z) : Net E unit :=
  let head := ofo_seq_list t in
  seg ← get_seg sg;
  let seg_end := u32 (sg_seq seg + sg_data_len seg) in
  next_le ← on_cells (list_next (tcp_ofo_link sg));
  fuel ← gets (λ w, size (n_cells w));
  loop (S fuel) (λ next_le,
    if decide (next_le = head) then mret (inr tt) else
    let next_s := le2seq next_le in
    next_le ← on_cells (list_next next_le);
    s ← get_seg next_s;
    let next_start := sg_seq s in
    let next_end := u32 (sg_seq s + sg_data_len s) in
    gap ← of_outcome (TCP_SEQ_LT seg_end next_start);
    if (gap : bool) then mret (inr tt) else
    covered ← of_outcome (TCP_SEQ_LE next_end seg_end);
    if (covered : bool) then drop_ofo next_s;; mret (inl next_le) else
    let tail_add_count := u32 (next_end - seg_end) in
    let off_seek := u32 (sg_data_len s - tail_add_count) in
    on_pk (pktbuf_remove_header (sg_buf s) off_seek);;
    on_pk (pktbuf_join (sg_buf seg) (sg_buf s));;
    on_cells (list_del_init (tcp_ofo_link next_s));;
    kfree_seg next_s;;
    upd_seg sg (add_len tail_add_count);;
    mret (inr tt)) next_le.

(** The segment before it takes what follows its own end. *)
Definition ofo_merge_prev (t sg : Z) : Net E unit :=
  prev_le ← on_cells (list_prev (tcp_ofo_link sg));
  if decide (prev_le = ofo_seq_list t) then mret tt else
  let prev_s := le2seq prev_le in
  p ← get_seg prev_s;
  seg ← get_seg sg;
  let prev_end := u32 (sg_seq p + sg_data_len p) in
  meets ← of_outcome (TCP_SEQ_LE (sg_seq seg) prev_end);
  if negb meets then mret tt else
  let head_cut_count := u32 (prev_end - sg_seq seg) in
  let prev_add_count := u32 (sg_data_len seg - head_cut_count) in
  on_pk (pktbuf_remove_header (sg_buf seg) head_cut_count);;
  on_pk (pktbuf_join (sg_buf p) (sg_buf seg));;
  upd_seg sg (set_sg_buf 0);;
  on_cells (list_del_init (tcp_ofo_link sg));;
  upd_seg prev_s (add_len prev_add_count).

Definition tcp_ofo_seq_insert (t sg : Z) : Net E unit :=
  seg ← get_seg sg;
  on_pk (pktbuf_reset_acc (sg_buf seg));;
  ofo_place t sg;;
  upd_seg sg (set_sg_list_type true);;
  ofo_absorb t sg;;
  ofo_merge_prev t sg.

(** ** The receive buffer *)

Definition write_rcv (t buf offset total : Z) : Net E Z :=
  on_stream (λ v, rcv_buf v) put_rcv_buf t
    (@tcp_buf_write_rcv pworld (pktbuf_io buf) offset total).

Definition check_tcp_ofo_seq (t check_seq : Z) : Net E Z :=
  let head := ofo_seq_list t in
  next_le ← on_cells (list_next head);
  fuel ← gets (λ w, size (n_cells w));
  loop (S fuel) (λ next_le,
    if decide (next_le = head) then mret (inr 0) else
    let next_s := le2seq next_le in
    next_le ← on_cells (list_next next_le);
    s ← get_seg next_s;
    let next_start := sg_seq s in
    let next_end := u32 (sg_seq s + sg_data_len s) in
    gap ← of_outcome (TCP_SEQ_LT check_seq next_start);
    if (gap : bool) then mret (inr 0) else
    covered ← of_outcome (TCP_SEQ_LE next_end check_seq);
    if (covered : bool) then drop_ofo next_s;; mret (inl next_le) else
    let tail_count := u32 (next_end - check_seq) in
    let off_seek := u32 (sg_data_len s - tail_count) in
    on_pk (pktbuf_seek (sg_buf s) off_seek);;
    recv_write_size ← write_rcv t (sg_buf s) 0 tail_count;
    let remain_recv := u64 (tail_count - recv_write_size) in
    (if negb (remain_recv =? 0) then
       let add_count := u32 (off_seek + recv_write_size) in
       on_pk (pktbuf_remove_header (sg_buf s) add_count);;
       upd_seg next_s (λ s, set_sg_data_len (u32 (sg_data_len s - add_count))
         (set_sg_seq_len (u32 (sg_seq_len s - add_count))
           (set_sg_seq (u32 (sg_seq s + add_count)) s)))
     else drop_ofo next_s);;
    mret (inr recv_write_size)) next_le.

(** What lies beyond the window is cut off, its FIN with it; [false] when the
    packet is shorter than the cut. *)
Definition cut_tail (t sg : Z) : Net E bool :=
  v ← get_tcp t;
  seg ← get_seg sg;
  let rlast := u32 (sg_seq seg + sg_data_len seg - 1) in
  free ← tcp_buf_free_cnt (rcv_buf v);
  let wlast := u32 (rcv_nxt v + free - 1) in
  beyond ← of_outcome (TCP_SEQ_LT wlast rlast);
  if negb beyond then mret true else
  let tail_cut := u32 (rlast - wlast) in
  (if h_fin (sg_hdr seg) then
     upd_seg sg (λ s, set_sg_seq_len (u32 (sg_seq_len s - 1))
       (set_sg_hdr (set_h_fin false (sg_hdr s)) s))
   else mret tt);;
  pb ← on_pk (get_buf (sg_buf seg));
  if total_size pb <? tail_cut then mret false else
  on_pk (pktbuf_resize (sg_buf seg) (u64 (total_size pb - tail_cut)));;
  upd_seg sg (λ s, set_sg_data_len (u32 (sg_data_len s - tail_cut))
    (set_sg_seq_len (u32 (sg_seq_len s - tail_cut)) s));;
  mret true.

(** What was received already is skipped. *)
Definition cut_head (t sg : Z) : Net E unit :=
  v ← get_tcp t;
  seg ← get_seg sg;
  old ← of_outcome (TCP_SEQ_LT (sg_seq seg) (rcv_nxt v));
  if negb old then mret tt else
  let head_cut := u32 (rcv_nxt v - sg_seq seg) in
  upd_seg sg (λ s, set_sg_hdr (set_h_seq (u32 (h_seq (sg_hdr s) + head_cut)) (sg_hdr s)) s);;
  upd_seg sg (λ s, set_sg_data_len (u32 (sg_data_len s - head_cut))
    (set_sg_seq_len (u32 (sg_seq_len s - head_cut))
      (set_sg_seq (u32 (sg_seq s + head_cut)) s)));;
  on_pk (pktbuf_seek (sg_buf seg) head_cut);;
  mret tt.

Definition copy_data_to_rcvbuf (t sg : Z) : Net E Z :=
  fits ← cut_tail t sg;
  if negb fits then mret (u64 (-1)) else
  seg ← get_seg sg;
  on_pk (pktbuf_reset_acc (sg_buf seg));;
  cut_head t sg;;
  v ← get_tcp t;
  seg ← get_seg sg;
  let doffset := u32 (sg_seq seg - rcv_nxt v) in
  let h := sg_hdr seg in
  if doffset =? 0 then
    rcv_count ← write_rcv t (sg_buf seg) doffset (sg_data_len seg);
    more ← check_tcp_ofo_seq t
      (u32 (h_seq h + rcv_count + Z.b2z (h_syn h) + Z.b2z (h_fin h)));
    mret (u64 (rcv_count + more))
  else
    tcp_send_ack t sg;;
    (if negb (sg_data_len seg =? 0) && negb (h_syn h || h_fin h)
     then tcp_ofo_seq_insert t sg else mret tt);;
    mret 0.

(** The function's body after its first statement. *)
Definition tcp_data_in_body (t sg : Z) : Net E Z :=
  seg ← get_seg sg;
  v ← get_tcp t;
  win ← tcp_rcv_window t;
  if (sg_seq seg =? rcv_nxt v) && (sg_data_len seg =? 1) && (win =? 0)
  then tcp_send_ack t sg;; mret NET_OK else
  size ← copy_data_to_rcvbuf t sg;   (* a [size_t]: never negative *)
  (if 0 <? size then upd_tcp t (on_rcv (λ r, set_rc_nxt (u32 (rc_nxt r + size)) r)) else mret tt);;
  let wakeup := 0 <? size in
  seg ← get_seg sg;
  if sg_list_type seg then assert_ (size =? 0);; mret NET_OK else
  v ← get_tcp t;
  wakeup ← (if h_fin (sg_hdr seg) && (rcv_nxt v =? sg_seq seg) then
              upd_tcp t (on_rcv (λ r, set_rc_nxt (u32 (rc_nxt r + 1)) r));;
              upd_tcp t (on_flags (set_fl_fin_in true));; mret true
            else mret wakeup);
  (if (wakeup : bool) then
     v ← get_tcp t;
     (if fin_in v then sock_wakeup (info2sk t) WT_SOCK_ALL (- E_NET_CLOSE)
      else sock_wakeup (info2sk t) WT_SOCK_READ NET_OK);;
     tcp_send_ack t sg;; mret tt
   else mret tt);;
  mret NET_OK.

(** The function starts with [assert(0)]. *)
Definition tcp_data_in (t sg : Z) : Net E Z := assert_ false;; tcp_data_in_body t sg.
End tcp_in.
