(* ===== verification/TcpState.v ===== *)
(** * TCP states: [net/tcp_state.c], and [tcp_in] of [net/tcp_in.c]

    One handler per state for an incoming segment, and their dispatch. *)
From Stdlib Require Import String.
From S2P Require Import Prelude Errors PacketIO Nettool ListH Ipaddr Pktbuf PktbufOps PktbufCursor PktbufSpec PktMem TcpBuf NetTypes NetState Sock TcpOut Tcp TcpIn.

Definition tcp_state_name (st : Tcp_state) : string :=
  match st with
  | TCP_STATE_FREE => "FREE" | TCP_STATE_CLOSED => "CLOSED" | TCP_STATE_LISTEN => "LISTEN"
  | TCP_STATE_SYN_SENT => "SYN_SENT" | TCP_STATE_SYN_RECVD => "SYN_RCVD"
  | TCP_STATE_ESTABLISHED => "ESTABLISHED" | TCP_STATE_FIN_WAIT_1 => "FIN_WAIT_1"
  | TCP_STATE_FIN_WAIT_2 => "FIN_WAIT_2" | TCP_STATE_CLOSING => "CLOSING"
  | TCP_STATE_TIME_WAIT => "TIME_WAIT" | TCP_STATE_CLOSE_WAIT => "CLOSE_WAIT"
  | TCP_STATE_LAST_ACK => "LAST_ACK" | TCP_STATE_MAX => "UNKNOWN"
  end.

Section tcp_state.
Context {E : Type} `{NE : !NetEnv E} `{K : !Kmalloc}.
Context (SOCKET_P_PAGE : Z).

(** The guards the synchronised states share: a reset aborts, a SYN is answered
    with a reset and aborts. *)
Definition rst_syn_guard (t sg : Z) : Net E (option Z) :=
  seg ← get_seg sg;
  if h_rst (sg_hdr seg) then r ← tcp_abort t (- E_NET_RESET); mret (Some r) else
  if h_syn (sg_hdr seg) then
    tcp_send_reset sg;; r ← tcp_abort t (- E_NET_RESET); mret (Some r)
  else mret None.

(** ... and then [if (tcp_ack_process(tcp, seg) < 0) return -err]. *)
Definition guarded (t sg err : Z) (k : Net E Z) : Net E Z :=
  g ← rst_syn_guard t sg;
  match g with
  | Some r => mret r
  | None => a ← tcp_ack_process t sg; if a <? 0 then mret (- err) else k
  end.

Definition tcp_closed_in (sg : Z) : Net E Z :=
  seg ← get_seg sg;
  (if h_rst (sg_hdr seg) then mret tt else tcp_send_reset sg;; mret tt);;
  mret NET_OK.

(** [ack - iss <= 0] and [ack - nxt > 0], of unsigned operands. *)
Definition syn_sent_bad_ack (ack iss nxt : Z) : bool :=
  (u32 (ack - iss) <=? 0) || (0 <? u32 (ack - nxt)).

Definition tcp_syn_sent_in (t sg : Z) : Net E Z :=
  seg ← get_seg sg;
  let h := sg_hdr seg in
  v ← get_tcp t;
  if h_fack h && syn_sent_bad_ack (h_ack h) (sd_iss (tcp_snd v)) (snd_nxt v)
  then tcp_send_reset sg else
  if h_rst h then (if h_fack h then tcp_abort t (- E_NET_RESET) else mret NET_OK) else
  if h_syn h then
    upd_tcp t (on_rcv (λ r, set_rc_nxt (u32 (h_seq h + 1)) (set_rc_iss (h_seq h) r)));;
    upd_tcp t (on_flags (set_fl_irs_valid true));;
    upd_tcp t (on_snd (λ s, set_sd_wl2_ack (h_ack h) (set_sd_wl1_seq (sg_seq seg)
      (set_sd_win (h_win h) s))));;
    upd_tcp t (λ v, on_snd (λ s, set_sd_cwin (2 * tcp_mss v) (set_sd_sthresh (10 * tcp_mss v) s)) v);;
    tcp_read_options t h fetch_seg;;
    if h_fack h then
      tcp_ack_process t sg;;
      tcp_set_ostate t TCP_OSTATE_IDLE;;
      tcp_send_ack t sg;;
      tcp_set_state t TCP_STATE_ESTABLISHED;;
      v ← get_tcp t;
      tcp_keepalive_start t (fl_keep_enable (tcp_flags v));;
      sock_wakeup (info2sk t) WT_SOCK_CONN NET_OK;;
      mret NET_OK
    else
      tcp_set_state t TCP_STATE_SYN_RECVD;; tcp_send_syn t;; mret NET_OK
  else mret NET_OK.

Definition tcp_established_in (t sg : Z) : Net E Z :=
  guarded t sg E_NET (
    tcp_data_in t sg;;
    tcp_out_event t TCP_OEVENT_XMIT;;
    v ← get_tcp t;
    (if fin_in v then tcp_set_state t TCP_STATE_CLOSE_WAIT else mret tt);;
    mret NET_OK).

Definition tcp_close_wait_in (t sg : Z) : Net E Z :=
  guarded t sg E_NET_UNREACH (tcp_out_event t TCP_OEVENT_XMIT;; mret NET_OK).

Definition tcp_up_close_wait (t : Z) : Net E Z :=
  sock_wait_leave (info2sk t) CLOSE_WAIT NET_OK;; mret NET_OK.

Definition tcp_last_ack_in (t sg : Z) : Net E Z :=
  guarded t sg E_NET_UNREACH (
    v ← get_tcp t;
    if fin_out v then mret NET_OK
    else tcp_free t;; tcp_abort t (- E_NET_CLOSE);; tcp_up_close_wait t).

Definition tcp_timewait_tmo (t : Z) : Net E unit := tcp_free t;; add_clean_tcp_list t.

Definition tcp_time_wait (t : Z) : Net E unit :=
  tcp_set_state t TCP_STATE_TIME_WAIT;;
  tcp_kill_all_timers t;;
  upd_tcp t (on_conn (set_cn_keep_retry 0));;
  tm ← on_env (timer_func_add tcp_timewait_tmo_cb t (2 * TCP_TMO_MSL));
  upd_tcp t (put_keep_timer tm);;
  sock_wakeup (info2sk t) WT_SOCK_ALL NET_OK;;
  sock_wait_leave (info2sk t) CLOSE_WAIT NET_OK.

Definition tcp_fin_wait_1_in (t sg : Z) : Net E Z :=
  guarded t sg E_NET (
    tcp_data_in t sg;;
    tcp_out_event t TCP_OEVENT_XMIT;;
    v ← get_tcp t;
    (if negb (fin_out v) then
       if fin_in v then tcp_time_wait t else tcp_set_state t TCP_STATE_FIN_WAIT_2
     else if fin_in v then tcp_set_state t TCP_STATE_CLOSING
     else mret tt);;
    mret NET_OK).

Definition tcp_fin_wait_2_in (t sg : Z) : Net E Z :=
  guarded t sg E_NET (
    tcp_data_in t sg;;
    tcp_out_event t TCP_OEVENT_XMIT;;
    v ← get_tcp t;
    (if fin_in v then tcp_time_wait t else mret tt);;
    mret NET_OK).

Definition tcp_closing_in (t sg : Z) : Net E Z :=
  guarded t sg E_NET (
    tcp_data_in t sg;;
    tcp_out_event t TCP_OEVENT_XMIT;;
    v ← get_tcp t;
    (if negb (fin_out v) && fin_in v then tcp_time_wait t else mret tt);;
    mret NET_OK).

Definition tcp_time_wait_in (t sg : Z) : Net E Z :=
  guarded t sg E_NET (
    v ← get_tcp t;
    (if fin_in v then tcp_send_ack t sg;; tcp_time_wait t else mret tt);;
    mret NET_OK).

Definition tcp_listen_in (t sg : Z) : Net E Z :=
  seg ← get_seg sg;
  let h := sg_hdr seg in
  if h_rst h then mret NET_OK else
  if h_fack h then tcp_send_reset sg;; mret NET_OK else
  if h_syn h then
    count ← tcp_backlog_count t;
    v ← get_tcp t;
    if cn_backlog (tcp_conn v) <=? count then mret (- E_NET_FULL) else
    child ← tcp_create_child SOCKET_P_PAGE t sg;
    if child =? 0 then mret (- E_NO_MEM) else
    tcp_send_syn child;;
    tcp_set_state child TCP_STATE_SYN_RECVD;;
    mret NET_OK
  else mret (- E_NET).

Definition tcp_syn_recvd_in (t sg : Z) : Net E Z :=
  seg ← get_seg sg;
  guarded t sg E_NET (
    v ← get_tcp t;
    let parent := tcp_parent v in
    (if h_fin (sg_hdr seg) then
       tcp_set_state t TCP_STATE_CLOSE_WAIT;;
       if parent =? 0 then mret tt
       else sock_wakeup (info2sk parent) WT_SOCK_CONN (- E_NET_CONNECTED)
     else
       tcp_set_state t TCP_STATE_ESTABLISHED;;
       tcp_keepalive_start t (fl_keep_enable (tcp_flags v));;
       if parent =? 0 then mret tt else sock_wakeup (info2sk parent) WT_SOCK_CONN NET_OK);;
    tcp_out_event t TCP_OEVENT_XMIT;;
    mret NET_OK).

(** ** The dispatch *)

(** The table of handlers; an empty entry is a null function. *)
Definition tcp_state_proc (st : Tcp_state) (t sg : Z) : Net E Z :=
  match st with
  | TCP_STATE_CLOSED => tcp_closed_in sg
  | TCP_STATE_SYN_SENT => tcp_syn_sent_in t sg
  | TCP_STATE_ESTABLISHED => tcp_established_in t sg
  | TCP_STATE_FIN_WAIT_1 => tcp_fin_wait_1_in t sg
  | TCP_STATE_FIN_WAIT_2 => tcp_fin_wait_2_in t sg
  | TCP_STATE_CLOSING => tcp_closing_in t sg
  | TCP_STATE_TIME_WAIT => tcp_time_wait_in t sg
  | TCP_STATE_CLOSE_WAIT => tcp_close_wait_in t sg
  | TCP_STATE_LAST_ACK => tcp_last_ack_in t sg
  | TCP_STATE_LISTEN => tcp_listen_in t sg
  | TCP_STATE_SYN_RECVD => tcp_syn_recvd_in t sg
  | TCP_STATE_FREE | TCP_STATE_MAX => undef
  end.

(** The states whose segments need not be in the window. *)
Definition unsynchronised (st : Tcp_state) : bool :=
  bool_decide (st = TCP_STATE_CLOSED) || bool_decide (st = TCP_STATE_SYN_SENT)
  || bool_decide (st = TCP_STATE_LISTEN) || bool_decide (st = TCP_STATE_SYN_RECVD).

(** [seg_drop]: a segment not queued is released with its packet. *)
Definition seg_drop (sg : Z) : Net E unit :=
  alone ← on_cells (list_empty (tcp_ofo_link sg));
  if negb alone then mret tt else
  seg ← get_seg sg;
  (if sg_buf seg =? 0 then mret tt else on_pk (pktbuf_free (sg_buf seg)));;
  kfree_seg sg.

(** The checks on a packet, before any state changes. *)
Definition check_packet (buf : Z) (src_ip dest_ip : Ipaddr) : Net E (Z + bptr) :=
  ret ← on_pk (pktbuf_set_cont buf SIZEOF_TCP_HDR);
  if ret <? 0 then mret (inl ret) else
  p ← on_pk (hdr_ptr buf);
  h ← on_pk (hdr_load p);
  ret ← (if 8 <? tcp_hdr_size h            (* sizeof(sizeof(Tcp_hdr)) *)
         then on_pk (pktbuf_set_cont buf SIZEOF_TCP_HDR) else mret NET_OK);
  if ret <? 0 then mret (inl ret) else
  h ← on_pk (hdr_load p);
  bad ← (if h_checksum h =? 0 then mret false else
           on_pk (pktbuf_reset_acc buf);;
           c ← on_pk (checksum_peso (a_addr dest_ip) (a_addr src_ip) NET_PROTOCOL_TCP buf);
           mret (negb (c =? 0)));
  if (bad : bool) then mret (inl (- E_NET_CHECKSUM)) else
  pb ← on_pk (get_buf buf);
  if (total_size pb <? SIZEOF_TCP_HDR) || (total_size pb <? tcp_hdr_size h)
  then mret (inl (- E_NET_SIZE)) else
  if (h_sport h =? 0) || (h_dport h =? 0) then mret (inl (- E_NET_UNREACH)) else
  if hdr_flags h =? 0 then mret (inl (- E_NET)) else
  mret (inr p).

Definition tcp_in (buf : Z) (src_ip dest_ip : Ipaddr) : Net E Z :=
  c ← check_packet buf src_ip dest_ip;
  match c with
  | inl ret => mret ret
  | inr p =>
      on_pk (hdr_upd p swap_hdr);;      (* [x_ntohs] is [x_htons] *)
      sg ← kmalloc_tcp_seg;
      tcp_seg_init sg buf dest_ip src_ip;;
      h ← on_pk (hdr_load p);           (* through the pointer into the packet *)
      t ← tcp_find dest_ip (h_dport h) src_ip (h_sport h);
      found ← (if t =? 0 then mret false else
                 v ← get_tcp t; mret (negb (bool_decide (tcp_state v = TCP_STATE_MAX))));
      if negb found then tcp_closed_in sg;; on_pk (pktbuf_free buf);; mret NET_OK else
      v ← get_tcp t;
      seg ← get_seg sg;
      ok ← (if unsynchronised (tcp_state v) then mret true else tcp_seq_acceptable t sg);
      (if (ok : bool) then
         tcp_keepalive_restart t;; v ← get_tcp t; tcp_state_proc (tcp_state v) t sg;; mret tt
       else
         h ← on_pk (hdr_load p);
         (if h_rst h then mret tt else tcp_send_ack t sg;; mret tt);;
         tcp_read_options t h (fetch_packet p));;
      seg_drop sg;;
      mret NET_OK
  end.
End tcp_state.
