(* ===== verification/NetDemo.v ===== *)
(** * A concrete surrounding and a concrete connection

    The instance of [NetEnv] with which the theorems about the TCP stack are
    evaluated: every call is recorded, allocations and timers get fresh numbers,
    the clock stands still, and the IP layer takes every packet. *)
From S2P Require Import Prelude Errors PacketIO Nettool ListH Ipaddr Pktbuf PktbufOps PktbufCursor PktbufSpec PktMem TcpBuf NetTypes NetState Sock.

Inductive demo_event :=
| DTimer (cb : timer_cb) (t tmo : Z) | DDelTimer (tm : Z) | DSemUp (s : Z) (q : wait_queue)
| DIpOut (protocol dest src : Z) (packet : bytes).

Record demo_env := mk_demo { d_log : list demo_event; d_next : Z; d_time : Z }.

Definition d_event (ev : demo_event) : M demo_env unit :=
  modify (λ e, mk_demo (d_log e ++ [ev]) (d_next e) (d_time e)).
Definition d_fresh : M demo_env Z :=
  n ← gets d_next; modify (λ e, mk_demo (d_log e) (n + 1) (d_time e));; mret n.

#[export] Instance demo_net_env : NetEnv demo_env := {
  timer_func_add cb t tmo := d_event (DTimer cb t tmo);; d_fresh;
  del_func_timer tm := d_event (DDelTimer tm);
  sys_gettime := gets d_time;
  sem_up s q _ := d_event (DSemUp s q);
  sem_init _ _ := mret tt;
  wakeup_queue _ _ := mret tt;
  wait_queue_empty _ _ := mret true;
  rt_find _ := mret (Some (mk_rentry 0 1500 (q_addr [192; 168; 1; 2])));
  ipv4_out protocol dest src buf := λ '(p, e),
    '(v, p') ← get_buf buf p;
    '(_, e') ← d_event (DIpOut protocol dest src (content v)) e;
    Ok (0, (p', e'));
  rand := mret 0;
  kmalloc size := mret (Some (replicate (Z.to_nat size) 0));
  kmalloc_seg := d_fresh;
  AllocPage := d_fresh
}.

(** Peers 192.168.1.2:2000 (here) and 192.168.1.3:80. *)
Definition demo_local : Ipaddr := q_addr [192; 168; 1; 2].
Definition demo_remote : Ipaddr := q_addr [192; 168; 1; 3].

(** An 8 KiB stream buffer that holds [bs]. *)
Definition demo_buf (bs : bytes) : Tcp_buf :=
  mk_tbuf (zlen bs) (zlen bs) 0 8192 (bs ++ replicate (Z.to_nat (8192 - zlen bs)) 0).

Lemma demo_buf_ok bs : Forall is_byte bs → zlen bs ≤ 8191 → tbuf_ok (demo_buf bs).
Proof.
  intros Hb Hl. split; cbn [tb_size tb_data tb_count tb_out tb_in demo_buf]; try lia.
  - rewrite length_app, length_replicate. lia.
  - unfold widx. zcases; lia.
  - apply Forall_app. split; [done|]. apply Forall_replicate. unfold is_byte. lia.
Qed.

(** Ten bytes to send, four of them in flight; the peer's window is 1000. *)
Definition demo_snd : Tcp_snd :=
  mk_snd (demo_buf (seqZ 1 10)) 5000 5004 4999 7 1000 0 5 TCP_OSTATE_SENDING 900 5000
    1000 1460 2920 0 5004 0 0 0 0 10.
Definition demo_tcp (st : Tcp_state) : Tcp :=
  mk_tcp 0 (mk_flags false false true false false false false false false false) st 1460
    (mk_conn 7200 5 10 0 0 0 0) demo_snd (mk_rcv (demo_buf []) 900 899).
Definition demo_wait (st : Z) : Sock_wait := mk_wait 0 true st.
Definition demo_sock (st : Tcp_state) : Socket :=
  mk_socket (demo_tcp st) 0 true SOCK_TCP demo_local demo_remote 2000 80 0 6 0 0 0 5000 0
    (demo_wait WT_SOCK_WRITE) (demo_wait WT_SOCK_READ) (demo_wait WT_SOCK_CONN)
    (demo_wait WT_SOCK_CLOSE).

(** A segment with the given flags and acknowledgement. *)
Definition demo_seg (fin syn rst ack : bool) (ackno : Z) : Tcp_seg :=
  mk_seg demo_local demo_remote
    (mk_hdr 80 2000 900 ackno 0 5 fin syn rst false ack false false false 1000 0 0)
    0 0 900 (Z.b2z syn + Z.b2z fin) false.

(** Connection 1 in state [st], segment 9; the links of an empty list of
    connections with connection 1 in it. *)
Definition demo_cells : heap := list_to_map [
  (tcp_list, mk_entry (socket_link 1) (socket_link 1));
  (socket_link 1, mk_entry tcp_list tcp_list);
  (ofo_seq_list 1, mk_entry (ofo_seq_list 1) (ofo_seq_list 1));
  (tcp_ofo_link 9, mk_entry (tcp_ofo_link 9) (tcp_ofo_link 9));
  (tcp_clean_list, mk_entry tcp_clean_list tcp_clean_list)].

Definition demo_net (st : Tcp_state) (seg : Tcp_seg) : netw demo_env :=
  mk_net {[1 := demo_sock st]} {[9 := seg]} demo_cells false false false [] 0 demo_pk
    (mk_demo [] 50 0).
