(* ===== verification/TcpFrame.v ===== *)
(** * What the operations of the stack leave alone

    [preserves R m]: every run of [m] that returns relates its states by the
    preorder [R].  The rules follow the constructors of the monad, so that the
    automation [preserve] proves most operations; the instance used is the state
    of one connection, which only [tcp_set_state] and the reinitialisation of a
    socket change.  No property of the surroundings is needed: whatever timers,
    semaphores and the IP layer do, they do it to their own state. *)
From S2P Require Import Prelude Errors PacketIO Nettool ListH Ipaddr Pktbuf PktbufOps PktbufCursor PktbufSpec PktMem TcpBuf NetTypes NetState Sock TcpOut Tcp TcpIn TcpState.

(** ** The rules *)

Definition preserves {S} (R : S → S → Prop) {A} (m : M S A) : Prop :=
  ∀ w a w', m w = Ok (a, w') → R w w'.

Section preserves.
Context {S : Type} (R : S → S → Prop) `{PR : !PreOrder R}.

Lemma preserves_ret {A} (a : A) : preserves R (mret a).
Proof. intros w b w' [= _ <-]. reflexivity. Qed.

Lemma preserves_bind {A B} (m : M S A) (k : A → M S B) :
  preserves R m → (∀ a, preserves R (k a)) → preserves R (m ≫= k).
Proof.
  intros Hm Hk w b w'' H. unfold mbind, M_bind in H.
  destruct (m w) as [[a w']| | | |] eqn:E; try done.
  etrans; [by eapply Hm|by eapply Hk].
Qed.

Lemma preserves_gets {A} (f : S → A) : preserves R (gets f).
Proof. intros w b w' [= _ <-]. reflexivity. Qed.

Lemma preserves_of_option {A} (o : option A) : preserves R (of_option o).
Proof. destruct o; [apply preserves_ret|done]. Qed.

Lemma preserves_of_outcome {A} (o : outcome A) : preserves R (of_outcome o).
Proof.
  intros w b w'. unfold of_outcome, mbind, outcome_bind. destruct o; try done.
  intros [= _ <-]. reflexivity.
Qed.

Lemma preserves_assert b : preserves R (assert_ b).
Proof. destruct b; [apply preserves_ret|done]. Qed.

Lemma preserves_undef {A} : preserves R (undef : M S A).
Proof. done. Qed.

Lemma preserves_panic {A} : preserves R (panic : M S A).
Proof. done. Qed.

Lemma preserves_modify f : (∀ w, R w (f w)) → preserves R (modify f).
Proof. intros H w b w' [= _ <-]. apply H. Qed.

Lemma preserves_zoom {T A} (proj : S → T) put (m : M T A) :
  (∀ w t, R w (put t w)) → preserves R (zoom proj put m).
Proof.
  intros H w a w' E. unfold zoom, mbind, outcome_bind in E.
  destruct (m (proj w)) as [[b t]| | | |]; try done. injection E as _ <-. apply H.
Qed.

Lemma preserves_loop {L A} fuel (body : L → M S (L + A)) l :
  (∀ l, preserves R (body l)) → preserves R (loop fuel body l).
Proof.
  intros Hb. revert l. induction fuel as [|fuel IH]; intros l; [done|]. cbn [loop].
  apply preserves_bind; [apply Hb|]. intros [l'|a]; [apply IH|apply preserves_ret].
Qed.
End preserves.

Create HintDb preserve.
#[export] Hint Extern 1 (preserves _ _) =>
  first [apply preserves_ret | apply preserves_gets | apply preserves_of_option
        | apply preserves_of_outcome | apply preserves_assert | apply preserves_undef
        | apply preserves_panic]; typeclasses eauto : preserve.

(** Follows a program's structure down to the operations the database knows. *)
Ltac preserve :=
  repeat first
    [ solve [auto 2 with preserve]
    | lazymatch goal with
      | |- preserves _ (mbind _ _) => apply preserves_bind; [typeclasses eauto| |intros ?]
      | |- preserves _ (loop _ _ _) => apply preserves_loop; [typeclasses eauto|intros ?]
      end
    | case_match ].

(** ** What is observed of one connection

    [f] is any part of a connection: its state, or what a timer counts. *)

Section frame.
Context {E : Type} `{NE : !NetEnv E} `{K : !Kmalloc}.

Context {X : Type} (f : Tcp → X).

Definition observe (t : Z) (w : netw E) : option X := (λ s, f (sk_tcp s)) <$> n_socks w !! t.

Definition same_obs (t : Z) (w w' : netw E) : Prop := observe t w' = observe t w.

#[export] Instance same_obs_preorder t : PreOrder (same_obs t).
Proof. split; [done|]. intros w1 w2 w3 H1 H2. unfold same_obs in *. congruence. Qed.

Abbreviation keeps t := (preserves (same_obs t)).

Lemma keeps_on_pk {A} t (m : M pworld A) : keeps t (on_pk m).
Proof. apply preserves_zoom. done. Qed.
Lemma keeps_on_env {A} t (m : M E A) : keeps t (on_env m).
Proof. apply preserves_zoom. done. Qed.
Lemma keeps_on_pk_env {A} t (m : M (pworld * E) A) : keeps t (on_pk_env m).
Proof. apply preserves_zoom. done. Qed.
Lemma keeps_on_cells {A} t (m : M heap A) : keeps t (on_cells m).
Proof. apply preserves_zoom. done. Qed.
End frame.
Abbreviation state_of := (observe tcp_state).
Abbreviation keeps_of f t := (preserves (same_obs f t)).
Abbreviation keeps t := (preserves (same_obs tcp_state t)).

#[export] Hint Resolve keeps_on_pk keeps_on_env keeps_on_pk_env keeps_on_cells : preserve.

Section frame_ops.
Context {E : Type} `{NE : !NetEnv E} `{K : !Kmalloc}.
Context {X : Type} (f : Tcp → X).
Implicit Types t s sg : Z.

Lemma keeps_get_sk t s : keeps_of f t (get_sk (E := E) s).
Proof. unfold get_sk. preserve. Qed.

Lemma keeps_get_tcp t s : keeps_of f t (get_tcp (E := E) s).
Proof. unfold get_tcp, get_sk. preserve. Qed.

Lemma keeps_get_seg t sg : keeps_of f t (get_seg (E := E) sg).
Proof. unfold get_seg. preserve. Qed.

Lemma keeps_upd_seg t sg g : keeps_of f t (upd_seg (E := E) sg g).
Proof. unfold upd_seg, get_seg. preserve. by apply preserves_modify. Qed.

Lemma keeps_upd_sk t s g :
  (∀ v, f (sk_tcp (g v)) = f (sk_tcp v)) → keeps_of f t (upd_sk (E := E) s g).
Proof.
  intros Hf w a w' H. unfold upd_sk, get_sk in H.
  unfold mbind, M_bind, gets, of_option, modify in H.
  destruct (n_socks w !! s) as [v|] eqn:Hs; [|done].
  cbn in H. injection H as _ <-. unfold same_obs, observe. cbn.
  destruct (decide (t = s)) as [->|].
  - by rewrite lookup_insert_eq, Hs; cbn; rewrite Hf.
  - by rewrite lookup_insert_ne.
Qed.

Lemma keeps_upd_tcp t s g : (∀ v, f (g v) = f v) → keeps_of f t (upd_tcp (E := E) s g).
Proof. intros Hf. apply keeps_upd_sk. intros v. apply Hf. Qed.
End frame_ops.

#[export] Hint Resolve keeps_get_sk keeps_get_tcp keeps_get_seg keeps_upd_seg : preserve.
#[export] Hint Extern 1 (preserves (same_obs _ _) (upd_tcp _ _)) =>
  apply keeps_upd_tcp; by intros [] : preserve.
#[export] Hint Extern 1 (preserves (same_obs _ _) (upd_sk _ _)) =>
  apply keeps_upd_sk; by intros [] : preserve.
#[export] Hint Extern 1 (preserves (same_obs _ _) (modify _)) =>
  by apply preserves_modify : preserve.

Section frame_out.
Context {E : Type} `{NE : !NetEnv E} `{K : !Kmalloc}.
Context {X : Type} (f : Tcp → X).
Implicit Types t s sg : Z.

Lemma keeps_skop t s : keeps_of f t (skop_info (E := E) s).
Proof. unfold skop_info. preserve. Qed.
#[local] Hint Resolve keeps_skop : preserve.

Lemma keeps_locks t :
  keeps_of f t (acquire_tcp_list (E := E)) ∧ keeps_of f t (release_tcp_list (E := E)) ∧
  keeps_of f t (acquire_clean_list (E := E)) ∧ keeps_of f t (release_clean_list (E := E)).
Proof.
  unfold acquire_tcp_list, release_tcp_list, acquire_clean_list, release_clean_list.
  split_and!; preserve.
Qed.

Lemma keeps_sock_wait_leave t s q r : keeps_of f t (sock_wait_leave (E := E) s q r).
Proof. unfold sock_wait_leave. preserve. apply keeps_upd_sk. intros []. by destruct q. Qed.
#[local] Hint Resolve keeps_sock_wait_leave : preserve.

Lemma keeps_sock_wakeup t s ty r : keeps_of f t (sock_wakeup (E := E) s ty r).
Proof. unfold sock_wakeup. preserve. Qed.

Lemma keeps_kill_timer t s get put :
  (∀ v, f (put 0 v) = f v) → keeps_of f t (kill_timer (E := E) get put s).
Proof. intros H. unfold kill_timer. preserve. Qed.

Lemma keeps_on_stream {A} t s get put (m : M (Tcp_buf * pworld) A) :
  (∀ b v, f (put b v) = f v) → keeps_of f t (on_stream (E := E) get put s m).
Proof. intros H. unfold on_stream. preserve. Qed.
End frame_out.

#[export] Hint Resolve keeps_skop keeps_sock_wait_leave keeps_sock_wakeup : preserve.
#[export] Hint Extern 1 (preserves (same_obs _ _) (on_stream _ _ _ _)) =>
  apply keeps_on_stream; intros ?; by intros [] : preserve.
#[export] Hint Extern 1 (preserves (same_obs _ _) (kill_timer _ _ _)) =>
  apply keeps_kill_timer; by intros [] : preserve.
#[export] Hint Extern 1 (preserves (same_obs _ _) acquire_tcp_list) => apply keeps_locks : preserve.
#[export] Hint Extern 1 (preserves (same_obs _ _) release_tcp_list) => apply keeps_locks : preserve.
#[export] Hint Extern 1 (preserves (same_obs _ _) acquire_clean_list) => apply keeps_locks : preserve.
#[export] Hint Extern 1 (preserves (same_obs _ _) release_clean_list) => apply keeps_locks : preserve.

(** Observations that sending does not change: of neither the next number nor
    the stream. *)
Class SendBlind {X} (f : Tcp → X) : Prop := {
  blind_nxt g v : f (on_snd (λ s, set_sd_nxt (g s) s) v) = f v;
  blind_snd_buf b v : f (put_snd_buf b v) = f v
}.

#[export] Instance state_blind : SendBlind tcp_state.
Proof. split; intros ? []; reflexivity. Qed.
#[export] Hint Extern 1 (SendBlind _) => typeclasses eauto : preserve.

Section frame_send.
Context {E : Type} `{NE : !NetEnv E} `{K : !Kmalloc}.
Context {X : Type} (f : Tcp → X) `{SB : !SendBlind f}.
Implicit Types t s sg : Z.

#[local] Hint Extern 1 (preserves (same_obs _ _) (upd_tcp _ _)) =>
  apply keeps_upd_tcp; intros ?; apply blind_nxt : preserve.
#[local] Hint Extern 1 (preserves (same_obs _ _) (on_stream _ _ _ _)) =>
  apply keeps_on_stream; intros ? ?; apply blind_snd_buf : preserve.

Lemma keeps_tcp_rcv_window t s : keeps_of f t (tcp_rcv_window (E := E) s).
Proof. unfold tcp_rcv_window, tcp_buf_free_cnt. preserve. Qed.
#[local] Hint Resolve keeps_tcp_rcv_window : preserve.

Lemma keeps_send_out t p b d s : keeps_of f t (send_out (E := E) p b d s).
Proof. unfold send_out. preserve. Qed.
#[local] Hint Resolve keeps_send_out : preserve.

Lemma keeps_send_ack_hdr t s q r d i : keeps_of f t (send_ack_hdr (E := E) s q r d i).
Proof. unfold send_ack_hdr. preserve. Qed.
#[local] Hint Resolve keeps_send_ack_hdr : preserve.

Lemma keeps_get_send_info t s r n : keeps_of f t (get_send_info (E := E) s r n).
Proof. unfold get_send_info. preserve. Qed.
#[local] Hint Resolve keeps_get_send_info : preserve.

Lemma keeps_copy_send_data t s b o d : keeps_of f t (copy_send_data (E := E) s b o d).
Proof. unfold copy_send_data. preserve. Qed.
#[local] Hint Resolve keeps_copy_send_data : preserve.

Lemma keeps_open_segment t s q : keeps_of f t (open_segment (E := E) s q).
Proof. unfold open_segment, write_sync_option. preserve. Qed.
#[local] Hint Resolve keeps_open_segment : preserve.

Lemma keeps_transmit t s : keeps_of f t (tcp_transmit (E := E) s).
Proof. unfold tcp_transmit. preserve. Qed.
#[local] Hint Resolve keeps_transmit : preserve.

Lemma keeps_retransmit t s n : keeps_of f t (tcp_retransmit (E := E) s n).
Proof. unfold tcp_retransmit. preserve. Qed.
#[local] Hint Resolve keeps_retransmit : preserve.

End frame_send.

#[export] Hint Resolve keeps_tcp_rcv_window keeps_send_out keeps_send_ack_hdr keeps_get_send_info
  keeps_copy_send_data keeps_open_segment keeps_transmit keeps_retransmit : preserve.

Lemma keeps_kill_all {E} `{!NetEnv E} t s : keeps t (tcp_kill_all_timers (E := E) s).
Proof. unfold tcp_kill_all_timers. preserve; apply keeps_kill_timer; by intros []. Qed.
#[export] Hint Resolve keeps_kill_all : preserve.
