(* ===== verification/TcpTrans.v ===== *)
(** * The state machine of a connection

    Which states a connection may go to in each call of the socket interface, each
    segment and each timer: the transitions of RFC 793, an abort to CLOSED, and FREE
    when the connection is released; and what is done to one connection leaves the
    others' states alone, the children of a listening one apart. *)
From S2P Require Import Prelude Errors PacketIO Nettool ListH Ipaddr Pktbuf PktbufOps PktbufCursor PktbufSpec PktMem TcpBuf NetTypes NetState Sock TcpOut Tcp TcpIn TcpState NetDemo TcpFrame.

(** ** Operations that leave every connection's state alone *)

Section stable.
Context {E : Type} `{NE : !NetEnv E} `{K : !Kmalloc}.
Implicit Types t s sg : Z.

Lemma keeps_send_reset t sg : keeps t (tcp_send_reset (E := E) sg).
Proof. unfold tcp_send_reset. preserve. Qed.

Lemma keeps_delay_ack t s : keeps t (delay_ack (E := E) s).
Proof. unfold delay_ack, tcp_do_input_nagle. preserve. Qed.
#[local] Hint Resolve keeps_delay_ack : preserve.

Lemma keeps_send_ack t s sg : keeps t (tcp_send_ack (E := E) s sg).
Proof. unfold tcp_send_ack. preserve. Qed.

Lemma keeps_win_update t s : keeps t (tcp_send_win_update (E := E) s).
Proof. unfold tcp_send_win_update. preserve. Qed.

Lemma keeps_send_keepalive t s : keeps t (tcp_send_keepalive (E := E) s).
Proof. unfold tcp_send_keepalive. preserve. Qed.

Lemma keeps_reset_for_tcp t s : keeps t (tcp_send_reset_for_tcp (E := E) s).
Proof. unfold tcp_send_reset_for_tcp. preserve. Qed.

Lemma keeps_set_ostate t s o : keeps t (tcp_set_ostate (E := E) s o).
Proof. unfold tcp_set_ostate. preserve. Qed.
#[local] Hint Resolve keeps_set_ostate : preserve.

Lemma keeps_begin_rto t s : keeps t (tcp_begin_rto (E := E) s).
Proof. unfold tcp_begin_rto. preserve. Qed.
#[local] Hint Resolve keeps_begin_rto : preserve.

Lemma keeps_out_event t s e : keeps t (tcp_out_event (E := E) s e).
Proof.
  unfold tcp_out_event, tcp_ostate_idle_in, tcp_ostate_sending_in, tcp_ostate_rexmit_in,
    tcp_ostate_persist_in, send_or_persist.
  preserve.
Qed.
#[local] Hint Resolve keeps_out_event : preserve.

Lemma keeps_send_syn t s : keeps t (tcp_send_syn (E := E) s).
Proof. unfold tcp_send_syn. preserve. Qed.

Lemma keeps_send_fin t s : keeps t (tcp_send_fin (E := E) s).
Proof. unfold tcp_send_fin. preserve. Qed.

Lemma keeps_write_sndbuf t s b n : keeps t (tcp_write_sndbuf (E := E) s b n).
Proof. unfold tcp_write_sndbuf, on_snd_buf, tcp_buf_free_cnt. preserve. Qed.

Lemma keeps_cal_snd_wnd t s sg : keeps t (tcp_cal_snd_wnd (E := E) s sg).
Proof. unfold tcp_cal_snd_wnd. preserve. Qed.
#[local] Hint Resolve keeps_cal_snd_wnd : preserve.

Lemma keeps_cal_rto t s : keeps t (tcp_cal_rto (E := E) s).
Proof. unfold tcp_cal_rto, sys_time_goes. preserve. Qed.
#[local] Hint Resolve keeps_cal_rto : preserve.

Lemma keeps_fast_retransmit t s : keeps t (fast_retransmit (E := E) s).
Proof. unfold fast_retransmit. preserve. Qed.
#[local] Hint Resolve keeps_fast_retransmit : preserve.

Lemma keeps_ack_accept t s a : keeps t (ack_accept (E := E) s a).
Proof. unfold ack_accept, grow_cwin, ack_bytes, on_snd_buf. preserve. Qed.
#[local] Hint Resolve keeps_ack_accept keeps_send_reset keeps_send_ack : preserve.

Lemma keeps_ack_process t s sg : keeps t (tcp_ack_process (E := E) s sg).
Proof. unfold tcp_ack_process. preserve. Qed.

Lemma keeps_read_options t s h f : (∀ i, keeps t (f i)) → keeps t (tcp_read_options (E := E) s h f).
Proof. intros H. unfold tcp_read_options. preserve. Qed.

Lemma keeps_keepalive_start t s b : keeps t (tcp_keepalive_start (E := E) s b).
Proof. unfold tcp_keepalive_start, stop_keep_timer, keepalive_start_timer. preserve. Qed.

Lemma keeps_keepalive_restart t s : keeps t (tcp_keepalive_restart (E := E) s).
Proof. unfold tcp_keepalive_restart, stop_keep_timer, keepalive_start_timer. preserve. Qed.

Lemma keeps_list_for_each {L A} t h (body : L → Z → Net E (L + A)) l :
  (∀ l le, keeps t (body l le)) → keeps t (list_for_each h body l).
Proof. intros H. unfold list_for_each, for_each. preserve. Qed.

Lemma keeps_port_scan t n i : keeps t (port_scan (E := E) n i).
Proof.
  revert i. induction n as [|n IH]; intros i; cbn [port_scan]; preserve.
  unfold port_used. preserve. apply keeps_list_for_each. intros. preserve.
Qed.

Lemma keeps_alloc_port t : keeps t (alloc_port (E := E)).
Proof. unfold alloc_port. preserve. apply keeps_port_scan. Qed.

Lemma keeps_conn_exist t s : keeps t (tcp_conn_exist (E := E) s).
Proof. unfold tcp_conn_exist. preserve. apply keeps_list_for_each. intros. preserve. Qed.

Lemma keeps_init_connect t s : keeps t (tcp_init_connect (E := E) s).
Proof. unfold tcp_init_connect, alloc_stream, tcp_get_iss. preserve. Qed.

Lemma keeps_free_ofo t s : keeps t (free_ofo_list (E := E) s).
Proof. unfold free_ofo_list, kfree_seg. preserve. Qed.

Lemma keeps_drop_ofo t sg : keeps t (drop_ofo (E := E) sg).
Proof. unfold drop_ofo, kfree_seg. preserve. Qed.
#[local] Hint Resolve keeps_drop_ofo : preserve.

Lemma keeps_ofo_insert t s sg : keeps t (tcp_ofo_seq_insert (E := E) s sg).
Proof.
  unfold tcp_ofo_seq_insert, ofo_place, ofo_absorb, ofo_merge_prev, kfree_seg. preserve.
  apply keeps_list_for_each. intros. preserve.
Qed.
#[local] Hint Resolve keeps_ofo_insert : preserve.

Lemma keeps_copy_rcv t s sg : keeps t (copy_data_to_rcvbuf (E := E) s sg).
Proof.
  unfold copy_data_to_rcvbuf, cut_tail, cut_head, write_rcv, check_tcp_ofo_seq, tcp_buf_free_cnt,
    write_rcv. preserve.
Qed.
#[local] Hint Resolve keeps_copy_rcv : preserve.

Lemma keeps_data_in_body t s sg : keeps t (tcp_data_in_body (E := E) s sg).
Proof. unfold tcp_data_in_body. preserve. Qed.
#[local] Hint Resolve keeps_data_in_body : preserve.

Lemma keeps_data_in t s sg : keeps t (tcp_data_in (E := E) s sg).
Proof. unfold tcp_data_in. preserve. Qed.
End stable.

#[export] Hint Resolve keeps_tcp_rcv_window keeps_send_out keeps_send_reset keeps_send_ack
  keeps_win_update keeps_send_keepalive keeps_reset_for_tcp keeps_retransmit keeps_set_ostate
  keeps_out_event keeps_send_syn keeps_send_fin keeps_write_sndbuf keeps_ack_process
  keeps_keepalive_start keeps_keepalive_restart keeps_alloc_port keeps_conn_exist
  keeps_init_connect keeps_free_ofo keeps_data_in : preserve.

(** ** Where a run leaves the connection *)

(** From a state in [P], every run that returns ends in one of [Q]. *)
Definition ends {E A} (t : Z) (P Q : Tcp_state → Prop) (m : Net E A) : Prop :=
  ∀ w a w' st, m w = Ok (a, w') → state_of t w = Some st → P st →
    ∃ st', state_of t w' = Some st' ∧ Q st'.

Section ends.
Context {E : Type} `{NE : !NetEnv E} `{K : !Kmalloc}.
Implicit Types (t s sg : Z) (P Q R : Tcp_state → Prop).

Lemma ends_keeps {A} t P (m : Net E A) : keeps t m → ends t P P m.
Proof.
  intros Hk w a w' st Hm Hst HP. exists st. split; [|done].
  rewrite <- Hst. by eapply Hk.
Qed.

Lemma ends_bind {A B} t P Q R (m : Net E A) (k : A → Net E B) :
  ends t P Q m → (∀ a, ends t Q R (k a)) → ends t P R (m ≫= k).
Proof.
  intros Hm Hk w b w'' st H Hst HP. unfold mbind, M_bind in H.
  destruct (m w) as [[a w']| | | |] eqn:Em; try done.
  destruct (Hm _ _ _ _ Em Hst HP) as (st' & Hst' & HQ). by eapply Hk.
Qed.

Lemma ends_seq_keeps {A B} t P R (m : Net E A) (k : A → Net E B) :
  keeps t m → (∀ a, ends t P R (k a)) → ends t P R (m ≫= k).
Proof. intros Hm Hk. eapply ends_bind; [by apply ends_keeps|done]. Qed.

Lemma ends_weaken {A} t P P' Q Q' (m : Net E A) :
  ends t P Q m → (∀ st, P' st → P st) → (∀ st, Q st → Q' st) → ends t P' Q' m.
Proof.
  intros Hm HP HQ w a w' st H Hst HP'.
  destruct (Hm w a w' st H Hst (HP _ HP')) as (st' & ? & ?). eauto.
Qed.

Lemma ends_done {A} t P Q (m : Net E A) :
  keeps t m → (∀ st, P st → Q st) → ends t P Q m.
Proof. intros Hm HQ. eapply ends_weaken; [by apply ends_keeps|done|done]. Qed.

Lemma ends_assoc {A B C} t P Q (m : Net E A) (k : A → Net E B) (k' : B → Net E C) :
  ends t P Q (m ≫= λ a, k a ≫= k') → ends t P Q ((m ≫= k) ≫= k').
Proof.
  intros H w c w' st Hr. apply (H w c w' st). unfold mbind, M_bind in *.
  by destruct (m w) as [[a w1]| | | |].
Qed.

Lemma ends_ret {A} t P Q (a : A) : (∀ st, P st → Q st) → ends t P Q (mret a : Net E A).
Proof. intros H w b w' st [= _ <-] Hst HP. eauto. Qed.

Lemma ends_panic {A} t P Q : ends t P Q (panic : Net E A).
Proof. by intros w a w' st. Qed.

Lemma ends_set_state t P st : ends t P (eq st) (tcp_set_state (E := E) t st).
Proof.
  intros w a w' st0 H Hst _. unfold tcp_set_state, upd_tcp, upd_sk, get_sk in H.
  unfold observe in *.
  unfold mbind, M_bind, gets, of_option, modify in H.
  destruct (n_socks w !! t) as [v|] eqn:Hs; [|done].
  cbn in H. injection H as _ <-. cbn. rewrite lookup_insert_eq. cbn. by eexists.
Qed.

(** Setting some connection's state leaves [t] with a state. *)
Lemma ends_set_some t s st :
  ends t (λ _, True) (λ _, True) (tcp_set_state (E := E) s st).
Proof.
  intros w a w' st0 H Hst _. unfold tcp_set_state, upd_tcp, upd_sk, get_sk in H.
  unfold observe in *.
  unfold mbind, M_bind, gets, of_option, modify in H.
  destruct (n_socks w !! s) as [v|] eqn:Hs; [|done].
  cbn in H. injection H as _ <-. cbn.
  destruct (decide (t = s)) as [->|].
  - rewrite lookup_insert_eq. by eexists.
  - rewrite lookup_insert_ne by done. by eexists.
Qed.

(** The state read is the one the connection is in. *)
Lemma ends_get_tcp {B} t P Q (k : Tcp → Net E B) :
  (∀ v, P (tcp_state v) → ends t (eq (tcp_state v)) Q (k v)) → ends t P Q (get_tcp t ≫= k).
Proof.
  intros Hk w b w' st H Hst HP. unfold observe in Hst.
  unfold get_tcp, get_sk, mbind, M_bind, gets, of_option, mret, M_ret in H.
  destruct (n_socks w !! t) as [sv|] eqn:Hs; [|done]. cbn in H, Hst. injection Hst as <-.
  eapply (Hk (sk_tcp sv)); [exact HP|exact H| |done].
  unfold observe. by rewrite Hs.
Qed.

Lemma ends_loop {L A} t P fuel (body : L → Net E (L + A)) l :
  (∀ l, ends t P P (body l)) → ends t P P (loop fuel body l).
Proof.
  intros Hb. revert l. induction fuel as [|fuel IH]; intros l; [by intros w a w' st|].
  cbn [loop]. eapply ends_bind; [apply Hb|]. intros [l'|a]; [apply IH|by apply ends_ret].
Qed.

(** Closes a branch: keeps what it does not set, and finds the state it set. *)
Ltac ends :=
  repeat first
    [ lazymatch goal with
      | |- ends _ _ _ (mret _) => apply ends_ret; intros ? ?; subst; solve [eauto]
      | |- ends ?t ?P ?Q (tcp_set_state ?t _ ≫= _) =>
          eapply ends_bind; [apply ends_set_state|intros ?]
      end
    | lazymatch goal with
      | |- ends _ _ _ (mbind _ _) => eapply ends_seq_keeps; [solve [preserve]|intros ?]
      end
    | eapply ends_done; [solve [preserve]|intros ? ?; subst; solve [eauto]]
    | case_match ].

Lemma ends_abort t r P : ends t P (eq TCP_STATE_CLOSED) (tcp_abort (E := E) t r).
Proof. unfold tcp_abort. ends. Qed.

Lemma ends_free t P : ends t P (eq TCP_STATE_FREE) (tcp_free (E := E) t).
Proof. unfold tcp_free. ends. Qed.

Lemma ends_free_some t s :
  ends t (λ _, True) (λ _, True) (tcp_free (E := E) s).
Proof.
  unfold tcp_free. do 4 (eapply ends_seq_keeps; [solve [preserve]|intros ?]).
  eapply ends_bind; [apply ends_set_some|intros ?]. ends.
Qed.

Lemma ends_clear_parent t :
  ends t (λ _, True) (λ _, True) (tcp_clear_parent (E := E) t).
Proof.
  unfold tcp_clear_parent. eapply ends_bind; [|intros ?; by apply ends_ret].
  unfold list_for_each, for_each. do 2 (eapply ends_seq_keeps; [solve [preserve]|intros ?]).
  apply ends_loop. intros [le l]. case_match; [by apply ends_ret|].
  eapply ends_bind; [|intros ?; ends].
  do 2 (eapply ends_seq_keeps; [solve [preserve]|intros ?]).
  eapply ends_bind; [|intros ?; by apply ends_ret].
  case_match; [apply ends_free_some|by apply ends_ret].
Qed.

Lemma ends_time_wait t P : ends t P (eq TCP_STATE_TIME_WAIT) (tcp_time_wait (E := E) t).
Proof. unfold tcp_time_wait. ends. Qed.
End ends.

(** ** The transitions *)

(** What is done to a connection: the socket interface, a segment for it, its timers. *)
Inductive tcp_call :=
| CallInit (family protocol : Z) | CallBind (addr : Sockaddr_in) | CallConnect (addr : Sockaddr_in)
| CallListen (backlog : Z) | CallAccept | CallSetopt (level optname : Z) (optval : bytes) (optlen : Z)
| CallSend (buf : bytes) (len : Z) | CallRecv (len : Z) | CallClose | CallDestroy
| SegmentIn (sg : Z) | OutTimer | KeepTimer | NagleTimer | TimeWaitTimer.

(** The state diagram: what moves a connection from which state to which. *)
Inductive tcp_edge : tcp_call → Tcp_state → Tcp_state → Prop :=
| edge_init f p st : tcp_edge (CallInit f p) st TCP_STATE_CLOSED
| edge_passive_open n : tcp_edge (CallListen n) TCP_STATE_CLOSED TCP_STATE_LISTEN
| edge_active_open addr : tcp_edge (CallConnect addr) TCP_STATE_CLOSED TCP_STATE_SYN_SENT
| edge_close : tcp_edge CallClose TCP_STATE_ESTABLISHED TCP_STATE_FIN_WAIT_1
| edge_close_after : tcp_edge CallClose TCP_STATE_CLOSE_WAIT TCP_STATE_LAST_ACK
| edge_release st :
    st ∈ [TCP_STATE_CLOSED; TCP_STATE_LISTEN; TCP_STATE_SYN_SENT; TCP_STATE_SYN_RECVD] →
    tcp_edge CallClose st TCP_STATE_FREE
| edge_destroy st : st ≠ TCP_STATE_TIME_WAIT → tcp_edge CallDestroy st TCP_STATE_FREE
| edge_syn_ack sg : tcp_edge (SegmentIn sg) TCP_STATE_SYN_SENT TCP_STATE_ESTABLISHED
| edge_simultaneous sg : tcp_edge (SegmentIn sg) TCP_STATE_SYN_SENT TCP_STATE_SYN_RECVD
| edge_accepted sg : tcp_edge (SegmentIn sg) TCP_STATE_SYN_RECVD TCP_STATE_ESTABLISHED
| edge_accepted_fin sg : tcp_edge (SegmentIn sg) TCP_STATE_SYN_RECVD TCP_STATE_CLOSE_WAIT
| edge_peer_closes sg : tcp_edge (SegmentIn sg) TCP_STATE_ESTABLISHED TCP_STATE_CLOSE_WAIT
| edge_fin_acked sg : tcp_edge (SegmentIn sg) TCP_STATE_FIN_WAIT_1 TCP_STATE_FIN_WAIT_2
| edge_both_close sg : tcp_edge (SegmentIn sg) TCP_STATE_FIN_WAIT_1 TCP_STATE_CLOSING
| edge_fin_both sg : tcp_edge (SegmentIn sg) TCP_STATE_FIN_WAIT_1 TCP_STATE_TIME_WAIT
| edge_fin_received sg : tcp_edge (SegmentIn sg) TCP_STATE_FIN_WAIT_2 TCP_STATE_TIME_WAIT
| edge_closing_acked sg : tcp_edge (SegmentIn sg) TCP_STATE_CLOSING TCP_STATE_TIME_WAIT
| edge_reset sg st : st ≠ TCP_STATE_CLOSED → st ≠ TCP_STATE_LISTEN →
    tcp_edge (SegmentIn sg) st TCP_STATE_CLOSED
| edge_no_answer st : tcp_edge OutTimer st TCP_STATE_CLOSED
| edge_no_keepalive st : tcp_edge KeepTimer st TCP_STATE_CLOSED
| edge_2msl st : tcp_edge TimeWaitTimer st TCP_STATE_FREE.

Section transitions.
Context {E : Type} `{NE : !NetEnv E} `{K : !Kmalloc}.
Context (SOCKET_P_PAGE : Z).
Implicit Types s t sg : Z.

(** A call on connection [s]; a segment goes to the handler of its state. *)
Definition run_call (s : Z) (c : tcp_call) : Net E unit :=
  match c with
  | CallInit family protocol => tcp_init s family protocol;; mret tt
  | CallBind addr => tcp_bind s addr;; mret tt
  | CallConnect addr => tcp_connect s addr;; mret tt
  | CallListen n => tcp_listen s n;; mret tt
  | CallAccept => tcp_accept s;; mret tt
  | CallSetopt level optname optval optlen => tcp_setopt s level optname optval optlen;; mret tt
  | CallSend buf len => tcp_send s buf len;; mret tt
  | CallRecv len => tcp_recv s len;; mret tt
  | CallClose => tcp_close s;; mret tt
  | CallDestroy => tcp_destory s
  | SegmentIn sg => v ← get_tcp s; tcp_state_proc SOCKET_P_PAGE (tcp_state v) s sg;; mret tt
  | OutTimer => tcp_out_timer_tmo s
  | KeepTimer => tcp_keepalive_tmo s
  | NagleTimer => do_nagle_ack_timer_tmo s
  | TimeWaitTimer => tcp_timewait_tmo s
  end.

Definition moved (c : tcp_call) (st st' : Tcp_state) : Prop := st' = st ∨ tcp_edge c st st'.

Lemma moved_refl c st : moved c st st.
Proof. by left. Qed.
Lemma moved_edge c st st' : tcp_edge c st st' → moved c st st'.
Proof. by right. Qed.
#[local] Hint Resolve moved_refl moved_edge : core.
#[local] Hint Constructors tcp_edge : core.
#[local] Hint Extern 1 (_ ≠ _) => discriminate : core.

(** *** The connection itself *)

Lemma ends_guarded t sg err (k : Net E Z) st :
  st ≠ TCP_STATE_CLOSED → st ≠ TCP_STATE_LISTEN →
  ends t (eq st) (moved (SegmentIn sg) st) k → ends t (eq st) (moved (SegmentIn sg) st) (guarded t sg err k).
Proof.
  intros Hc Hl Hk. unfold guarded, rst_syn_guard. apply ends_assoc.
  eapply ends_seq_keeps; [solve [preserve]|intros seg].
  destruct (h_rst (sg_hdr seg)).
  { apply ends_assoc. eapply ends_bind; [apply ends_abort|intros r].
    apply ends_ret. intros ? <-. auto. }
  destruct (h_syn (sg_hdr seg)).
  { apply ends_assoc. eapply ends_seq_keeps; [solve [preserve]|intros ?].
    apply ends_assoc. eapply ends_bind; [apply ends_abort|intros r].
    apply ends_ret. intros ? <-. auto. }
  change (ends t (eq st) (moved (SegmentIn sg) st)
    (a ← tcp_ack_process t sg; if a <? 0 then mret (- err) else k)).
  eapply ends_seq_keeps; [solve [preserve]|intros r]. case_match; [|done].
  apply ends_ret. intros ? <-. auto.
Qed.

Lemma keeps_read_seg_options t s h : keeps t (tcp_read_options (E := E) s h fetch_seg).
Proof. apply keeps_read_options. intros i. unfold fetch_seg. preserve. Qed.

Lemma keeps_closed_in t sg : keeps t (tcp_closed_in (E := E) sg).
Proof. unfold tcp_closed_in. preserve. Qed.
#[local] Hint Resolve keeps_read_seg_options keeps_closed_in : preserve.

(** The branches of a handler: what is kept, what is set, what is called. *)
Ltac transitions :=
  repeat first
    [ lazymatch goal with
      | |- ends _ (eq ?x) _ (mret _) => apply ends_ret; intros ? <-; solve [auto]
      | |- ends _ _ _ (guarded _ _ _ _) => apply ends_guarded; [discriminate..|]
      | |- ends ?t _ _ (tcp_set_state ?t _ ≫= _) =>
          eapply ends_bind; [apply ends_set_state|intros ?]
      | |- ends ?t _ _ (tcp_set_state ?t _) =>
          eapply ends_weaken; [apply (ends_set_state t)|eauto|intros ? <-; solve [auto]]
      | |- ends ?t _ _ (tcp_time_wait ?t ≫= _) =>
          eapply ends_bind; [apply ends_time_wait|intros ?]
      | |- ends ?t _ _ (tcp_abort ?t _ ≫= _) =>
          eapply ends_bind; [apply ends_abort|intros ?]
      | |- ends ?t _ _ (tcp_abort ?t _) =>
          eapply ends_weaken; [apply (ends_abort t)|eauto|intros ? <-; solve [auto]]
      | |- ends ?t _ _ (tcp_free ?t ≫= _) =>
          eapply ends_bind; [apply ends_free|intros ?]
      | |- ends _ _ _ (mbind _ (mbind _ _)) => apply ends_assoc
      | |- ends _ _ _ (mbind _ _) => eapply ends_seq_keeps; [solve [preserve]|intros ?]
      | |- ends _ _ _ (mbind _ (if ?b then _ else _)) => destruct b
      end
    | eapply ends_done; [solve [preserve]|intros ? <-; solve [auto]]
    | case_match ].

Lemma ends_syn_sent t sg :
  ends t (eq TCP_STATE_SYN_SENT) (moved (SegmentIn sg) TCP_STATE_SYN_SENT) (tcp_syn_sent_in (E := E) t sg).
Proof. unfold tcp_syn_sent_in. transitions. Qed.

Lemma ends_established t sg :
  ends t (eq TCP_STATE_ESTABLISHED) (moved (SegmentIn sg) TCP_STATE_ESTABLISHED) (tcp_established_in (E := E) t sg).
Proof. unfold tcp_established_in. transitions. Qed.

Lemma ends_fin_wait_1 t sg :
  ends t (eq TCP_STATE_FIN_WAIT_1) (moved (SegmentIn sg) TCP_STATE_FIN_WAIT_1) (tcp_fin_wait_1_in (E := E) t sg).
Proof. unfold tcp_fin_wait_1_in. transitions. Qed.

Lemma ends_fin_wait_2 t sg :
  ends t (eq TCP_STATE_FIN_WAIT_2) (moved (SegmentIn sg) TCP_STATE_FIN_WAIT_2) (tcp_fin_wait_2_in (E := E) t sg).
Proof. unfold tcp_fin_wait_2_in. transitions. Qed.

Lemma ends_closing t sg :
  ends t (eq TCP_STATE_CLOSING) (moved (SegmentIn sg) TCP_STATE_CLOSING) (tcp_closing_in (E := E) t sg).
Proof. unfold tcp_closing_in. transitions. Qed.

Lemma ends_time_wait_in t sg :
  ends t (eq TCP_STATE_TIME_WAIT) (moved (SegmentIn sg) TCP_STATE_TIME_WAIT) (tcp_time_wait_in (E := E) t sg).
Proof. unfold tcp_time_wait_in. transitions. Qed.

Lemma ends_close_wait t sg :
  ends t (eq TCP_STATE_CLOSE_WAIT) (moved (SegmentIn sg) TCP_STATE_CLOSE_WAIT) (tcp_close_wait_in (E := E) t sg).
Proof. unfold tcp_close_wait_in. transitions. Qed.

Lemma ends_last_ack t sg :
  ends t (eq TCP_STATE_LAST_ACK) (moved (SegmentIn sg) TCP_STATE_LAST_ACK) (tcp_last_ack_in (E := E) t sg).
Proof. unfold tcp_last_ack_in, tcp_up_close_wait. transitions. Qed.

Lemma ends_syn_recvd t sg :
  ends t (eq TCP_STATE_SYN_RECVD) (moved (SegmentIn sg) TCP_STATE_SYN_RECVD) (tcp_syn_recvd_in (E := E) t sg).
Proof. unfold tcp_syn_recvd_in. transitions. Qed.

Lemma ends_out_timer t st : ends t (eq st) (moved OutTimer st) (tcp_out_timer_tmo (E := E) t).
Proof. unfold tcp_out_timer_tmo, tcp_end_rto, arm_out_timer. transitions. Qed.

Lemma ends_keep_timer t st : ends t (eq st) (moved KeepTimer st) (tcp_keepalive_tmo (E := E) t).
Proof. unfold tcp_keepalive_tmo, stop_keep_timer. transitions. Qed.

(** [skop_info] returns its argument. *)
Lemma ends_skop {B} t s P Q (k : Z → Net E B) :
  ends t P Q (k s) → ends t P Q (skop_info s ≫= k).
Proof.
  intros Hk w b w' st H. apply (Hk w b w' st). revert H.
  unfold skop_info, mbind, M_bind, assert_, mret, M_ret.
  destruct (negb (s =? 0)); [|done]. cbv beta iota.
  destruct (get_sk s w) as [[v w1]| | | |] eqn:Hg; try done.
  assert (w1 = w) as ->.
  { revert Hg. unfold get_sk, mbind, M_bind, gets, of_option.
    destruct (n_socks w !! s); [|done]. by intros [= _ <-]. }
  destruct (sk_opened v && bool_decide (sk_type v = SOCK_TCP)); [exact id|done].
Qed.

Lemma ends_connect t addr st : ends t (eq st) (moved (CallConnect addr) st) (tcp_connect (E := E) t addr).
Proof.
  unfold tcp_connect. apply ends_skop, ends_get_tcp. intros v ->. cbv beta.
  destruct (decide (tcp_state v = TCP_STATE_CLOSED)) as [Hc|Hc];
    [rewrite (bool_decide_eq_true_2 _ Hc)|rewrite (bool_decide_eq_false_2 _ Hc)]; cbn [negb].
  - rewrite Hc. transitions.
  - transitions.
Qed.

Lemma ends_listen t n st : ends t (eq st) (moved (CallListen n) st) (tcp_listen (E := E) t n).
Proof.
  unfold tcp_listen. apply ends_skop. cbv beta. case_match; [transitions|].
  apply ends_get_tcp. intros v ->. cbv beta.
  destruct (decide (tcp_state v = TCP_STATE_CLOSED)) as [Hc|Hc];
    [rewrite (bool_decide_eq_true_2 _ Hc)|rewrite (bool_decide_eq_false_2 _ Hc)]; cbn [negb].
  - rewrite Hc. transitions.
  - transitions.
Qed.

Lemma ends_close t st : ends t (eq st) (moved CallClose st) (tcp_close (E := E) t).
Proof.
  unfold tcp_close. apply ends_skop, ends_get_tcp. intros v ->. cbv beta.
  destruct (tcp_state v) eqn:Hst; try by transitions.
  - eapply ends_bind; [apply ends_free|intros ?]. apply ends_ret. intros ? <-.
    apply moved_edge, edge_release. set_solver.
  - eapply ends_bind; [eapply ends_weaken; [apply ends_clear_parent|done|done]|intros ?].
    eapply ends_bind; [apply ends_abort|intros ?].
    eapply ends_bind; [apply ends_free|intros ?]. apply ends_ret. intros ? <-.
    apply moved_edge, edge_release. set_solver.
  - eapply ends_bind; [apply ends_abort|intros ?].
    eapply ends_bind; [apply ends_free|intros ?]. apply ends_ret. intros ? <-.
    apply moved_edge, edge_release. set_solver.
  - eapply ends_bind; [apply ends_abort|intros ?].
    eapply ends_bind; [apply ends_free|intros ?]. apply ends_ret. intros ? <-.
    apply moved_edge, edge_release. set_solver.
Qed.

Lemma keeps_send t s b n : keeps t (tcp_send (E := E) s b n).
Proof. unfold tcp_send. preserve. Qed.

Lemma keeps_recv t s n : keeps t (tcp_recv (E := E) s n).
Proof. unfold tcp_recv, on_rcv_buf. preserve. Qed.
#[local] Hint Resolve keeps_send keeps_recv : preserve.

Lemma ends_timewait_tmo t st : ends t (eq st) (moved TimeWaitTimer st) (tcp_timewait_tmo (E := E) t).
Proof.
  unfold tcp_timewait_tmo. eapply ends_bind; [apply ends_free|intros ?].
  unfold add_clean_tcp_list. eapply ends_done; [preserve|]. intros ? <-. auto.
Qed.

Lemma ends_destory t st : ends t (eq st) (moved CallDestroy st) (tcp_destory (E := E) t).
Proof.
  unfold tcp_destory. apply ends_skop. cbv beta.
  eapply ends_seq_keeps; [solve [preserve]|intros ?]. apply ends_get_tcp. intros v ->.
  destruct (decide (tcp_state v = TCP_STATE_TIME_WAIT)) as [Ht|Ht];
    [rewrite (bool_decide_eq_true_2 _ Ht)|rewrite (bool_decide_eq_false_2 _ Ht)].
  - apply ends_ret. intros ? <-. auto.
  - eapply ends_weaken; [apply ends_free|done|]. intros ? <-. auto.
Qed.

Lemma keeps_upd_init t s f p : keeps t (socket_init (E := E) s f p).
Proof. unfold socket_init. preserve. Qed.
#[local] Hint Resolve keeps_upd_init : preserve.

Lemma ends_segment t sg st :
  st ≠ TCP_STATE_LISTEN →
  ends t (eq st) (moved (SegmentIn sg) st) (tcp_state_proc (E := E) SOCKET_P_PAGE st t sg).
Proof.
  intros Hl. destruct st; cbn [tcp_state_proc]; try done; try by intros ???.
  - transitions.
  - apply ends_syn_sent.
  - apply ends_syn_recvd.
  - apply ends_established.
  - apply ends_fin_wait_1.
  - apply ends_fin_wait_2.
  - apply ends_closing.
  - apply ends_time_wait_in.
  - apply ends_close_wait.
  - apply ends_last_ack.
Qed.

Lemma ends_init t f p st : ends t (eq st) (moved (CallInit f p) st) (tcp_init (E := E) t f p).
Proof.
  unfold tcp_init. apply ends_skop. cbv beta. eapply ends_seq_keeps; [solve [preserve]|intros ret].
  case_match; [apply ends_ret; intros ? <-; auto|].
  eapply (ends_bind t _ (eq TCP_STATE_CLOSED)); [|intros ?].
  { intros w a w' st0 Hr Hst _. unfold upd_tcp, upd_sk, get_sk in Hr. unfold observe in *.
    unfold mbind, M_bind, gets, of_option, modify in Hr. destruct (n_socks w !! t) as [v|]; [|done].
    cbn in Hr. injection Hr as _ <-. cbn. rewrite lookup_insert_eq. by eexists. }
  eapply ends_done; [preserve|]. intros ? <-. auto.
Qed.

#[local] Hint Extern 1 (preserves _ (list_for_each _ _ _)) =>
  apply keeps_list_for_each; intros; preserve : preserve.

Lemma keeps_bind t s addr : keeps t (tcp_bind (E := E) s addr).
Proof.
  unfold tcp_bind. preserve.
Qed.

Lemma keeps_accept t s : keeps t (tcp_accept (E := E) s).
Proof. unfold tcp_accept. preserve. Qed.

Lemma keeps_setopt t s level optname optval optlen :
  keeps t (tcp_setopt (E := E) s level optname optval optlen).
Proof. unfold tcp_setopt, sock_setopt. cbv zeta. preserve. Qed.

Lemma keeps_nagle_tmo t s : keeps t (do_nagle_ack_timer_tmo (E := E) s).
Proof. unfold do_nagle_ack_timer_tmo. preserve. Qed.
#[local] Hint Resolve keeps_bind keeps_accept keeps_setopt keeps_nagle_tmo : preserve.

(** *** Runs *)

Lemma bind_run {S A B} (m : M S A) (k : A → M S B) x b x' :
  (m ≫= k) x = Ok (b, x') → ∃ a x1, m x = Ok (a, x1) ∧ k a x1 = Ok (b, x').
Proof.
  unfold mbind, M_bind. destruct (m x) as [[a x1]| | | |]; try done. intros H. by exists a, x1.
Qed.

Lemma get_tcp_run t (w : netw E) v w' :
  get_tcp t w = Ok (v, w') → w' = w ∧ ∃ s : Socket, n_socks w !! t = Some s ∧ v = sk_tcp s.
Proof.
  unfold get_tcp, get_sk, mbind, M_bind, gets, of_option.
  destruct (n_socks w !! t) as [s'|] eqn:Hs; [|done]. intros [= <- <-]. eauto.
Qed.

Lemma skop_info_run s w r w' : skop_info (E := E) s w = Ok (r, w') → r = s ∧ w' = w.
Proof.
  unfold skop_info. intros (u & w1 & H1 & (v & w2 & H2 & (u' & w3 & H3 & H4)%bind_run)%bind_run)%bind_run.
  unfold assert_ in *. do 2 case_match; try done. injection H1 as _ <-. injection H3 as _ <-.
  injection H4 as <- <-. revert H2. unfold get_sk, mbind, M_bind, gets, of_option.
  case_match; [|done]. by intros [= _ <-].
Qed.

(** *** The other connections *)

Section others.
Context (t s : Z) (Hne : s ≠ t).

Lemma keeps_skop_bind {B} (k : Z → Net E B) :
  keeps t (k s) → keeps t (skop_info s ≫= k).
Proof.
  intros Hk w b w' H. apply (Hk w b w'). revert H.
  unfold skop_info, mbind, M_bind, assert_, mret, M_ret.
  destruct (negb (s =? 0)); [|done]. cbv beta iota.
  destruct (get_sk s w) as [[v w1]| | | |] eqn:Hg; try done.
  assert (w1 = w) as ->.
  { revert Hg. unfold get_sk, mbind, M_bind, gets, of_option.
    destruct (n_socks w !! s); [|done]. by intros [= _ <-]. }
  destruct (sk_opened v && bool_decide (sk_type v = SOCK_TCP)); [exact id|done].
Qed.

Lemma keeps_upd_other g : keeps t (upd_tcp (E := E) s g).
Proof.
  intros w a w' H. unfold upd_tcp, upd_sk, get_sk in H.
  unfold mbind, M_bind, gets, of_option, modify in H.
  destruct (n_socks w !! s) as [v|] eqn:Hs; [|done]. cbn in H. injection H as _ <-.
  unfold same_obs, observe. cbn. by rewrite lookup_insert_ne.
Qed.
#[local] Hint Resolve keeps_upd_other : preserve.

Lemma keeps_state_other st : keeps t (tcp_set_state (E := E) s st).
Proof. unfold tcp_set_state. preserve. Qed.
#[local] Hint Resolve keeps_state_other : preserve.

Lemma keeps_abort_other r : keeps t (tcp_abort (E := E) s r).
Proof. unfold tcp_abort. preserve. Qed.

Lemma keeps_free_other : keeps t (tcp_free (E := E) s).
Proof. unfold tcp_free. preserve. Qed.

Lemma keeps_time_wait_other : keeps t (tcp_time_wait (E := E) s).
Proof. unfold tcp_time_wait. preserve. Qed.
#[local] Hint Resolve keeps_abort_other keeps_free_other keeps_time_wait_other : preserve.

Lemma keeps_handler_other st sg :
  st ≠ TCP_STATE_LISTEN → keeps t (tcp_state_proc (E := E) SOCKET_P_PAGE st s sg).
Proof.
  intros Hl. destruct st; cbn [tcp_state_proc]; try done;
    unfold tcp_syn_sent_in, tcp_established_in, tcp_fin_wait_1_in, tcp_fin_wait_2_in, tcp_closing_in,
      tcp_time_wait_in, tcp_close_wait_in, tcp_last_ack_in, tcp_up_close_wait, tcp_syn_recvd_in,
      guarded, rst_syn_guard; preserve.
Qed.

Lemma keeps_init_other f p : keeps t (tcp_init (E := E) s f p).
Proof. unfold tcp_init. apply keeps_skop_bind. preserve. Qed.

Lemma keeps_connect_other addr : keeps t (tcp_connect (E := E) s addr).
Proof. unfold tcp_connect. apply keeps_skop_bind. preserve. Qed.

Lemma keeps_listen_other n : keeps t (tcp_listen (E := E) s n).
Proof. unfold tcp_listen. apply keeps_skop_bind. preserve. Qed.

Lemma keeps_destory_other : keeps t (tcp_destory (E := E) s).
Proof. unfold tcp_destory. apply keeps_skop_bind. preserve. Qed.

Lemma keeps_timers_other :
  keeps t (tcp_out_timer_tmo (E := E) s) ∧ keeps t (tcp_keepalive_tmo (E := E) s) ∧
  keeps t (tcp_timewait_tmo (E := E) s).
Proof.
  unfold tcp_out_timer_tmo, tcp_end_rto, arm_out_timer, tcp_keepalive_tmo, stop_keep_timer,
    tcp_timewait_tmo, add_clean_tcp_list. split_and!; preserve.
Qed.

End others.

(** The close of a listening connection frees its children. *)
Section orphans.
Context (t s : Z).

Definition orphaned (w w' : netw E) : Prop :=
  observe tcp_parent t w' = observe tcp_parent t w ∧
  (state_of t w' = state_of t w ∨
   observe tcp_parent t w = Some s ∧ state_of t w' = Some TCP_STATE_FREE).

#[export] Instance orphaned_preorder : PreOrder orphaned.
Proof.
  split; [by split; [|left]|]. intros w1 w2 w3 [P1 S1] [P2 S2]. split; [congruence|].
  destruct S2 as [S2|[? S2]]; [|right; split; congruence].
  destruct S1 as [S1|[? S1]]; [left; congruence|right; split; congruence].
Qed.

Lemma orphaned_keeps {A} (m : Net E A) :
  keeps_of tcp_parent t m → keeps t m → preserves orphaned m.
Proof. intros H1 H2 w a w' Hr. split; [by eapply H1|left]. by eapply H2. Qed.

Lemma keeps_parent_free c : keeps_of tcp_parent t (tcp_free (E := E) c).
Proof. unfold tcp_free, tcp_kill_all_timers, free_ofo_list, kfree_seg, tcp_set_state. preserve. Qed.

Lemma orphaned_child c v w a w' :
  get_tcp (E := E) c w = Ok (v, w) → (if tcp_parent v =? s then tcp_free c else mret tt) w = Ok (a, w') →
  orphaned w w'.
Proof.
  intros (_ & sv & Hs & ->)%get_tcp_run Hr.
  destruct (Z.eqb_spec (tcp_parent (sk_tcp sv)) s) as [Hp|]; [|by injection Hr as _ <-].
  split; [by eapply keeps_parent_free|].
  destruct (decide (c = t)) as [->|Hc].
  - right. assert (observe tcp_parent t w = Some s) as -> by (unfold observe; by rewrite Hs, <- Hp).
    split; [done|]. destruct (ends_free t (λ _, True) w a w' (tcp_state (sk_tcp sv)) Hr) as (st & Hst & <-);
      [unfold observe; by rewrite Hs|done|done].
  - left. by eapply (keeps_free_other t c).
Qed.

Lemma orphaned_clear_parent : preserves orphaned (tcp_clear_parent (E := E) s).
Proof.
  unfold tcp_clear_parent. apply preserves_bind; [typeclasses eauto| |intros ?; apply (preserves_ret orphaned)].
  unfold list_for_each, for_each.
  apply preserves_bind; [typeclasses eauto|apply orphaned_keeps; preserve|intros le].
  apply preserves_bind; [typeclasses eauto|apply orphaned_keeps; preserve|intros fuel].
  apply preserves_loop; [typeclasses eauto|]. intros [le' l]. case_match; [apply (preserves_ret orphaned)|].
  intros w r w' Hr. apply bind_run in Hr as (r1 & w1 & Hr1 & Hr2).
  apply bind_run in Hr1 as (c & wc & [-> ->]%skop_info_run & Hr1).
  apply bind_run in Hr1 as (v & wv & Hv & Hr1). destruct (get_tcp_run _ _ _ _ Hv) as [-> _].
  apply bind_run in Hr1 as (u & w2 & Hf & [= <- <-]).
  etrans; [by eapply orphaned_child|]. revert Hr2. apply orphaned_keeps; preserve.
Qed.

Lemma close_other w r w' :
  s ≠ t → tcp_close (E := E) s w = Ok (r, w') →
  if decide (state_of s w = Some TCP_STATE_LISTEN) then orphaned w w' else state_of t w' = state_of t w.
Proof.
  intros Hne Hr. unfold tcp_close in Hr. apply bind_run in Hr as (s' & w1 & [-> ->]%skop_info_run & Hr).
  apply bind_run in Hr as (v & w1 & Hv & Hr). destruct (get_tcp_run _ _ _ _ Hv) as [-> (sv & Hs & ->)].
  assert (state_of s w = Some (tcp_state (sk_tcp sv))) as -> by (unfold observe; by rewrite Hs).
  destruct (decide (Some (tcp_state (sk_tcp sv)) = Some TCP_STATE_LISTEN)) as [[= El]|Hl].
  - rewrite El in Hr. revert Hr.
    apply (preserves_bind orphaned); [apply orphaned_clear_parent|intros _].
    apply (preserves_bind orphaned); [|intros _; apply (preserves_bind orphaned); [|intros _; apply (preserves_ret orphaned)]].
    + apply orphaned_keeps; [unfold tcp_abort, tcp_kill_all_timers, tcp_set_state; preserve|by apply keeps_abort_other].
    + apply orphaned_keeps; [apply keeps_parent_free|by apply keeps_free_other].
  - pose proof (keeps_free_other t s Hne). pose proof (keeps_abort_other t s Hne).
    pose proof (λ st, keeps_state_other t s Hne st).
    assert (∀ m : Net E Z, keeps t m → m w = Ok (r, w') → state_of t w' = state_of t w) as Hk
      by (intros m Hm Hrun; exact (Hm _ _ _ Hrun)).
    destruct (tcp_state (sk_tcp sv)); try done; (eapply Hk; [|exact Hr]); preserve.
Qed.
End orphans.

(** *** A segment for a listening connection *)

(** [new_socket] does not hand out [t]: it is not the first free socket, nor in the page
    the page allocator would give. *)
Record kept_apart (t : Z) (w : netw E) : Prop := {
  apart_free le : nxt (n_cells w) free_socket_list = Some le → le = free_socket_list ∨ le2socket le ≠ t;
  apart_page page e : AllocPage (n_env w) = Ok (page, e) →
    page = 0 ∨ ¬ (page ≤ t < page + SOCKET_P_PAGE)
}.

Section listen.
Context (t : Z).

Lemma keeps_memset c : c ≠ t → keeps t (memset_socket (E := E) c).
Proof.
  intros Hc. unfold memset_socket. apply preserves_bind; [typeclasses eauto| |intros ?; preserve].
  apply preserves_modify. intros w. unfold same_obs, observe. cbn. by rewrite lookup_insert_ne.
Qed.

(** The head of the free list points to itself or to a socket of [lo, hi). *)
Definition head_in (lo hi : Z) (h : heap) : Prop :=
  ∀ x, nxt h free_socket_list = Some x → x = free_socket_list ∨ ∃ i, lo ≤ i < hi ∧ x = socket_link i.

Lemma set_prev_run a v h u h' : set_prev a v h = Ok (u, h') → ∀ x, nxt h' x = nxt h x.
Proof.
  unfold set_prev, mbind, M_bind, gets, of_option, modify. destruct (h !! a) as [c|] eqn:Ha; [|done].
  intros [= _ <-] x. unfold nxt. destruct (decide (x = a)) as [->|].
  - by rewrite lookup_insert_eq, Ha.
  - by rewrite lookup_insert_ne.
Qed.

Lemma set_next_run a v h u h' : set_next a v h = Ok (u, h') → ∀ x, nxt h' x = upd (nxt h) a v x.
Proof.
  unfold set_next, mbind, M_bind, gets, of_option, modify. destruct (h !! a) as [c|] eqn:Ha; [|done].
  intros [= _ <-] x. unfold nxt, upd. destruct (decide (x = a)) as [->|].
  - by rewrite lookup_insert_eq.
  - by rewrite lookup_insert_ne.
Qed.

Lemma head_in_link lo hi i h u h' :
  lo ≤ i < hi → list_add_before free_socket_list (socket_link i) h = Ok (u, h') →
  head_in lo hi h → head_in lo hi h'.
Proof.
  intros Hi Hr Hh x Hx. assert (socket_link i ≠ free_socket_list) as Hl by (unfold socket_link, free_socket_list; lia).
  unfold list_add_before in Hr. apply bind_run in Hr as (p & h0 & Hp & Hr).
  assert (h0 = h) as ->.
  { revert Hp. unfold list_prev, mbind, M_bind, gets, of_option. by destruct (h !! _); intros [=]. }
  unfold __list_add in Hr. apply bind_run in Hr as (u1 & h1 & H1 & Hr).
  apply bind_run in Hr as (u2 & h2 & H2 & Hr).
  apply bind_run in Hr as (u3 & h3 & H3 & H4).
  pose proof (set_prev_run _ _ _ _ _ H1) as N1. pose proof (set_next_run _ _ _ _ _ H2) as N2.
  pose proof (set_next_run _ _ _ _ _ H3) as N3. pose proof (set_prev_run _ _ _ _ _ H4) as N4.
  rewrite N4, N3, upd_ne, N2 in Hx by done. unfold upd in Hx. case_decide.
  - injection Hx as <-. right. eauto.
  - rewrite N1 in Hx. by apply Hh.
Qed.

(** What making a page of sockets does to [t] and to the free list. *)
Definition page_made (lo hi : Z) (w w' : netw E) : Prop :=
  same_obs tcp_state t w w' ∧ (head_in lo hi (n_cells w) → head_in lo hi (n_cells w')).

#[local] Instance page_made_preorder lo hi : PreOrder (page_made lo hi).
Proof.
  split; [by split|]. intros w1 w2 w3 [S1 H1] [S2 H2]. split; [by etrans|auto].
Qed.

Lemma page_made_init lo hi n c id :
  ¬ (lo ≤ t < hi) → lo ≤ c → c + Z.of_nat n ≤ hi → preserves (page_made lo hi) (init_page (E := E) n c id).
Proof.
  intros Ht. revert c id. induction n as [|n IH]; intros c id Hl Hh; cbn [init_page].
  { by apply (preserves_ret (page_made lo hi)). }
  assert (∀ A (m : Net E A), keeps t m → (∀ w a w', m w = Ok (a, w') → n_cells w' = n_cells w) →
    preserves (page_made lo hi) m) as Hk.
  { intros A m H1 H2 w a w' Hr. split; [by eapply H1|]. by rewrite (H2 _ _ _ Hr). }
  assert (∀ g, (∀ v, tcp_state (sk_tcp (g v)) = tcp_state (sk_tcp v)) →
    preserves (page_made lo hi) (upd_sk (E := E) c g)) as Hu.
  { intros g Hg. apply Hk; [by apply keeps_upd_sk|]. intros w a w'. unfold upd_sk, get_sk, mbind, M_bind, gets, of_option, modify.
    destruct (n_socks w !! c); [|done]. by intros [= _ <-]. }
  apply preserves_bind; [typeclasses eauto| |intros _].
  { intros w a w' Hr. split; [eapply keeps_memset; [|exact Hr]; lia|].
    unfold memset_socket, mbind, M_bind, modify in Hr. injection Hr as _ <-.
    intros Hin x Hx. apply Hin. revert Hx. unfold nxt. cbn.
    rewrite !lookup_insert_ne by (unfold socket_link, ofo_seq_list, free_socket_list; lia). done. }
  apply preserves_bind; [typeclasses eauto|by apply Hu|intros _].
  apply preserves_bind; [typeclasses eauto|by apply Hu|intros _].
  apply preserves_bind; [typeclasses eauto| |intros _; apply IH; lia].
  intros w a w' Hr. split; [eapply keeps_on_cells; exact Hr|].
  unfold on_cells, zoom, mbind, outcome_bind in Hr.
  destruct (list_add_before _ _ _) as [[u h']| | | |] eqn:Hadd; try done. injection Hr as _ <-. cbn.
  eapply head_in_link; [|exact Hadd]. lia.
Qed.

Lemma grow_apart w b w' :
  kept_apart t w → nxt (n_cells w) free_socket_list = Some free_socket_list →
  grow_sockets SOCKET_P_PAGE w = Ok (b, w') →
  same_obs tcp_state t w w' ∧ (b = true → ∃ lo hi, ¬ (lo ≤ t < hi) ∧ head_in lo hi (n_cells w')).
Proof.
  intros [_ Hpage] Hempty Hr. unfold grow_sockets in Hr. apply bind_run in Hr as (map & w1 & [= _ <-] & Hr).
  destruct (list_find _ map) as [[i ?]|]; [|by injection Hr as <- <-].
  apply bind_run in Hr as (page & w1 & Ha & Hr). unfold on_env, zoom, mbind, outcome_bind in Ha.
  destruct (AllocPage (n_env w)) as [[p e]| | | |] eqn:Hal; try done. injection Ha as <- <-.
  destruct (Z.eqb_spec p 0) as [|Hp]; [by injection Hr as <- <-|]. destruct (Hpage p e eq_refl); [done|].
  apply bind_run in Hr as (u1 & w1 & [= _ <-] & Hr). apply bind_run in Hr as (u2 & w2 & Hi & [= <- <-]).
  set (hi := p + Z.of_nat (Z.to_nat SOCKET_P_PAGE)). assert (¬ (p ≤ t < hi)) as Hout by (unfold hi; lia).
  destruct (page_made_init p hi (Z.to_nat SOCKET_P_PAGE) p (Z.of_nat i * SOCKET_P_PAGE) Hout ltac:(lia) ltac:(unfold hi; lia) _ _ _ Hi)
    as [H1 H2].
  split; [exact H1|]. intros _. exists p, hi. split; [done|]. apply H2.
  intros x Hx. cbn in Hx. rewrite Hempty in Hx. injection Hx as <-. by left.
Qed.
(** What a run gives back. *)
Definition gives {A} (P : A → Prop) (m : Net E A) : Prop := ∀ w a w', m w = Ok (a, w') → P a.

Lemma gives_bind {A B} (P : B → Prop) (m : Net E A) k : (∀ a, gives P (k a)) → gives P (m ≫= k).
Proof. intros Hk w b w' (a & w1 & _ & Hr)%bind_run. by eapply Hk. Qed.

Lemma gives_ret {A} (P : A → Prop) a : P a → gives P (mret a).
Proof. by intros HP w b w' [= <- _]. Qed.

Lemma cells_empty_run l w b w' :
  on_cells (E := E) (list_empty l) w = Ok (b, w') →
  w' = w ∧ ∃ n, nxt (n_cells w) l = Some n ∧ b = bool_decide (n = l).
Proof.
  unfold on_cells, zoom, list_empty, list_next, mbind, M_bind, outcome_bind, gets, of_option, nxt.
  destruct (n_cells w !! l) as [c|]; [|done]. intros [= <- <-]. split; [by destruct w|]. by eexists.
Qed.

Lemma cells_next_run l w n w' :
  on_cells (E := E) (list_next l) w = Ok (n, w') → w' = w ∧ nxt (n_cells w) l = Some n.
Proof.
  unfold on_cells, zoom, list_next, mbind, M_bind, outcome_bind, gets, of_option, nxt.
  destruct (n_cells w !! l) as [c|]; [|done]. intros [= <- <-]. split; [by destruct w|done].
Qed.

Lemma assert_run b (w : netw E) u w' : assert_ b w = Ok (u, w') → b = true ∧ w' = w.
Proof. destruct b; [|done]. by intros [= _ <-]. Qed.

(** A fresh socket is not [t]. *)
Lemma new_socket_apart w c w' :
  kept_apart t w → new_socket SOCKET_P_PAGE w = Ok (c, w') → same_obs tcp_state t w w' ∧ (c = 0 ∨ c ≠ t).
Proof.
  intros Hw Hr. unfold new_socket in Hr. apply bind_run in Hr as (u0 & w1 & Ha & Hr).
  assert (same_obs tcp_state t w w1 ∧ kept_apart t w1) as [O1 K1].
  { unfold acquire_sockets in Ha. apply bind_run in Ha as (l & wa & [= _ <-] & Ha).
    apply bind_run in Ha as (u & wb & [_ ->]%assert_run & [= _ <-]). split; [done|]. by destruct Hw; split. }
  apply bind_run in Hr as (b & w2 & (-> & n & Hn & Hb)%cells_empty_run & Hr).
  apply bind_run in Hr as (room & w2 & Hg & Hr).
  assert (same_obs tcp_state t w1 w2 ∧ (room = true → nxt (n_cells w2) free_socket_list ≠ Some free_socket_list →
    ∀ le, nxt (n_cells w2) free_socket_list = Some le → le2socket le ≠ t)) as [O2 K2].
  { destruct b; subst.
    - symmetry in Hb. apply bool_decide_eq_true in Hb as ->.
      destruct (grow_apart w1 room w2 K1 Hn Hg) as [O2 Hin]. split; [done|]. intros Hroom Hne le Hle.
      destruct (Hin Hroom) as (lo & hi & Hout & Hh). destruct (Hh le Hle) as [->|(i & Hi & ->)]; [done|].
      unfold le2socket, socket_link. rewrite Z.mul_comm, Z.div_mul by lia. intros ->. done.
    - injection Hg as <- <-. split; [done|]. intros _ Hne le Hle.
      destruct (apart_free _ _ K1 le Hle) as [->|]; done. }
  destruct room; cbn [negb] in Hr.
  2: { apply bind_run in Hr as (u & w3 & Hrel & [= <- <-]). split; [|by left].
       etrans; [exact O1|]. etrans; [exact O2|]. refine ((_ : keeps t _) _ _ _ Hrel). unfold release_sockets. preserve. }
  apply bind_run in Hr as (b' & w3 & (-> & n' & Hn' & Hb')%cells_empty_run & Hr).
  apply bind_run in Hr as (u & w3 & [He ->]%assert_run & Hr).
  apply bind_run in Hr as (le & w3 & [-> Hle]%cells_next_run & Hr).
  assert (le2socket le ≠ t) as Hne.
  { apply (K2 eq_refl); [|done]. rewrite Hn'. intros [= ->]. by rewrite Hb', bool_decide_eq_true_2 in He. }
  pose proof (keeps_memset _ Hne) as Hmem. set (c0 := le2socket le) in *. cbv zeta in Hr. split.
  - etrans; [exact O1|]. etrans; [exact O2|]. refine ((_ : keeps t _) _ _ _ Hr). unfold sock_wait_init, release_sockets. preserve.
  - right. assert (c = c0) as ->; [|done]. refine ((_ : gives (λ r, r = c0) _) _ _ _ Hr).
    repeat (apply gives_bind; intros ?). by apply gives_ret.
Qed.
Lemma gives_skop {B} (P : B → Prop) s (k : Z → Net E B) : gives P (k s) → gives P (skop_info s ≫= k).
Proof. intros Hk w b w' (s' & w1 & [-> ->]%skop_info_run & Hr)%bind_run. by eapply Hk. Qed.

Lemma gives_assert {B} (P : B → Prop) b (k : unit → Net E B) :
  (b = true → gives P (k tt)) → gives P (assert_ b ≫= k).
Proof. intros Hk w r w' ([] & w1 & [Hb ->]%assert_run & Hr)%bind_run. by eapply (Hk Hb). Qed.

(** Counting the children changes nothing: the lock it takes was free, and is free again. *)
Lemma backlog_run s w n w' : tcp_backlog_count (E := E) s w = Ok (n, w') → w' = w.
Proof.
  intros Hr. unfold tcp_backlog_count, acquire_tcp_list, release_tcp_list in Hr.
  apply bind_run in Hr as (u & w1 & Ha & Hr). apply bind_run in Ha as (l & wa & [= <- <-] & Ha).
  apply bind_run in Ha as (u' & wb & [Hl ->]%assert_run & [= _ <-]).
  apply bind_run in Hr as (r & w2 & Hwalk & Hr).
  assert (w2 = set_tcp_lock true w) as ->.
  { refine ((_ : preserves (λ w w', w' = w) _) _ _ _ Hwalk). clear.
    assert (PreOrder (λ w w' : netw E, w' = w)) as PO by (split; [done|by intros ??? -> ->]).
    assert (∀ l, preserves (λ w w', w' = w) (on_cells (E := E) (list_next l))) as Hn
      by (intros l w a w' [-> _]%cells_next_run; done).
    assert (∀ s, preserves (λ w w', w' = w) (skop_info (E := E) s)) as Hk
      by (intros l w a w' [_ ->]%skop_info_run; done).
    assert (∀ s, preserves (λ w w', w' = w) (get_tcp (E := E) s)) as Hg
      by (intros l w a w' [-> _]%get_tcp_run; done).
    unfold list_for_each, for_each. preserve. }
  apply bind_run in Hr as (u2 & w3 & Hrel & Hr). apply bind_run in Hrel as (l & wc & [= _ <-] & Hrel).
  apply bind_run in Hrel as (u3 & wd & [_ ->]%assert_run & [= _ <-]).
  destruct r as [count|[]]. injection Hr as _ <-. destruct w; cbn in Hl |- *.
  by apply negb_true_iff in Hl as ->.
Qed.

Lemma create_child_apart s sg w c w' :
  kept_apart t w → tcp_create_child SOCKET_P_PAGE s sg w = Ok (c, w') →
  same_obs tcp_state t w w' ∧ (c = 0 ∨ c ≠ t).
Proof.
  intros Hw Hr. unfold tcp_create_child in Hr. apply bind_run in Hr as (c0 & w1 & Hn & Hr).
  destruct (new_socket_apart _ _ _ Hw Hn) as [O1 Hc0].
  apply bind_run in Hr as (u & w2 & [Hz ->]%assert_run & Hr).
  assert (c0 ≠ t) as Hne by (destruct Hc0 as [->|]; [done|done]).
  pose proof (keeps_init_other t c0 Hne) as Hi. split.
  - etrans; [exact O1|]. refine ((_ : keeps t _) _ _ _ Hr). preserve.
  - refine ((_ : gives (λ r, r = 0 ∨ r ≠ t) _) _ _ _ Hr).
    do 3 (apply gives_bind; intros ?). apply gives_skop.
    case_match; [apply gives_ret; by left|]. repeat (apply gives_bind; intros ?). apply gives_ret. by right.
Qed.

Lemma listen_in_keeps s sg w r w' :
  kept_apart t w → tcp_listen_in SOCKET_P_PAGE s sg w = Ok (r, w') → same_obs tcp_state t w w'.
Proof.
  intros Hw Hr. unfold tcp_listen_in in Hr. apply bind_run in Hr as (seg & w1 & Hseg & Hr).
  assert (w1 = w) as ->.
  { revert Hseg. unfold get_seg, mbind, M_bind, gets, of_option. by destruct (n_segs w !! sg); intros [=]. }
  destruct (h_rst _); [by injection Hr as _ <-|]. destruct (h_fack _).
  { refine ((_ : keeps t _) _ _ _ Hr). preserve. }
  destruct (h_syn _); [|by injection Hr as _ <-].
  apply bind_run in Hr as (n & w1 & ->%backlog_run & Hr).
  apply bind_run in Hr as (v & w1 & [-> _]%get_tcp_run & Hr).
  destruct (_ <=? _); [by injection Hr as _ <-|].
  apply bind_run in Hr as (c & w1 & Hc & Hr). destruct (create_child_apart _ _ _ _ _ Hw Hc) as [O1 Hne].
  etrans; [exact O1|]. destruct (Z.eqb_spec c 0); [by injection Hr as _ <-|].
  destruct Hne as [?|Hne]; [done|]. pose proof (λ st, keeps_state_other t c Hne st).
  refine ((_ : keeps t _) _ _ _ Hr). preserve.
Qed.
End listen.

Lemma ends_ret_tt {A} t P Q (m : Net E A) : ends t P Q m → ends t P Q (m;; mret tt).
Proof. intros. eapply ends_bind; [done|intros ?]. by apply ends_ret. Qed.

(** *** The theorem *)

(** A segment in LISTEN makes a child in a fresh socket, which is not [t]. *)
Definition apart_if_listening (s t : Z) (c : tcp_call) (w : netw E) : Prop :=
  match c with
  | SegmentIn _ => state_of s w = Some TCP_STATE_LISTEN → kept_apart t w
  | _ => True
  end.

(** What a call on [s] may do to the state [st] of [t]. *)
Definition may_move (s t : Z) (c : tcp_call) (w : netw E) (st st' : Tcp_state) : Prop :=
  st' = st ∨ (s = t ∧ tcp_edge c st st') ∨
  (s ≠ t ∧ c = CallClose ∧ state_of s w = Some TCP_STATE_LISTEN ∧ observe tcp_parent t w = Some s ∧
   st' = TCP_STATE_FREE).

Lemma own_call t c w a w' st :
  state_of t w = Some st → apart_if_listening t t c w → run_call t c w = Ok (a, w') →
  ∃ st', state_of t w' = Some st' ∧ moved c st st'.
Proof.
  intros Hst Hap Hrun.
  assert ((∃ sg, c = SegmentIn sg ∧ st = TCP_STATE_LISTEN) ∨
    ∀ sg, c = SegmentIn sg → st ≠ TCP_STATE_LISTEN) as [(sg & -> & ->)|Hn].
  { destruct (decide (st = TCP_STATE_LISTEN)); [|by right]. destruct c; (by left; eauto) || by right. }
  { apply bind_run in Hrun as (v & w1 & (-> & sv & Hs & ->)%get_tcp_run & Hrun).
    unfold observe in Hst. rewrite Hs in Hst. injection Hst as El. rewrite El in Hrun.
    apply bind_run in Hrun as (r & w1 & Hr & [= _ <-]). exists TCP_STATE_LISTEN. split; [|by left].
    rewrite (listen_in_keeps t t sg w r w1); [unfold observe; by rewrite Hs, <- El| |exact Hr].
    apply Hap. unfold observe. by rewrite Hs, <- El. }
  assert (ends t (eq st) (moved c st) (run_call t c)) as H; [|by eapply H].
  destruct c; cbn [run_call] in *; try apply ends_ret_tt.
  - apply ends_init.
  - transitions.
  - apply ends_connect.
  - apply ends_listen.
  - transitions.
  - transitions.
  - transitions.
  - transitions.
  - apply ends_close.
  - apply ends_destory.
  - apply ends_get_tcp. intros v ->. apply ends_ret_tt, ends_segment. intros El. exact (Hn sg eq_refl El).
  - apply ends_out_timer.
  - apply ends_keep_timer.
  - transitions.
  - apply ends_timewait_tmo.
Qed.

Lemma other_call s t c w a w' st :
  s ≠ t → state_of t w = Some st → apart_if_listening s t c w → run_call s c w = Ok (a, w') →
  ∃ st', state_of t w' = Some st' ∧ may_move s t c w st st'.
Proof.
  intros Hne Hst Hap Hrun.
  assert (keeps t (run_call s c) → ∃ st', state_of t w' = Some st' ∧ may_move s t c w st st') as Hk.
  { intros Hk. exists st. split; [|by left]. rewrite <- Hst. by eapply Hk. }
  pose proof (keeps_timers_other t s Hne) as (? & ? & ?).
  pose proof (keeps_init_other t s Hne). pose proof (keeps_connect_other t s Hne).
  pose proof (keeps_listen_other t s Hne). pose proof (keeps_destory_other t s Hne).
  destruct c; try (apply Hk; cbn [run_call]; preserve; fail).
  - apply bind_run in Hrun as (r & w1 & Hr & [= _ <-]). apply (close_other t s w r w1 Hne) in Hr.
    case_decide as Hl; [|exists st; split; [by rewrite Hr|by left]].
    destruct Hr as [_ [Hr|[Hp Hr]]]; [exists st; split; [by rewrite Hr|by left]|].
    exists TCP_STATE_FREE. split; [done|]. right; right. by split_and!.
  - apply bind_run in Hrun as (v & w1 & (-> & sv & Hs & ->)%get_tcp_run & Hrun).
    apply bind_run in Hrun as (r & w1 & Hr & [= _ <-]). exists st. split; [|by left]. rewrite <- Hst.
    destruct (decide (tcp_state (sk_tcp sv) = TCP_STATE_LISTEN)) as [El|El].
    + rewrite El in Hr. eapply listen_in_keeps; [|exact Hr]. apply Hap. unfold observe. by rewrite Hs, <- El.
    + by eapply keeps_handler_other.
Qed.

(** C1: a call on connection [s] that returns (of the socket interface: opening, binding,
    connecting, listening, accepting, setting an option, sending, receiving, closing,
    destroying; a segment handled in the state of [s]; or one of its four timers),
    whatever the timers, the semaphores and the IP layer do, leaves every connection [t]
    in its state, except that [s] itself may move along an edge of the state diagram for
    that call, and that closing a listening connection frees its children; a segment in
    LISTEN, which takes a fresh socket for a child, is covered when [t] is not a free
    socket *)
Theorem tcp_transitions s t c w a w' st :
  state_of t w = Some st → apart_if_listening s t c w → run_call s c w = Ok (a, w') →
  ∃ st', state_of t w' = Some st' ∧ may_move s t c w st st'.
Proof.
  intros Hst Hap Hrun. destruct (decide (s = t)) as [->|Hne]; [|by eapply other_call].
  destruct (own_call t c w a w' st) as (st' & Hst' & Hm); [done..|]. exists st'. split; [done|].
  destruct Hm as [?|?]; [by left|right; by left].
Qed.
End transitions.

(** The connection closed by the program: a FIN goes out. *)
Lemma tcp_transitions_witness :
  let w := demo_net TCP_STATE_ESTABLISHED (demo_seg false false false true 5004) in
  ∃ w', run_call 4 1 CallClose w = Ok (tt, w') ∧
  ∃ st', state_of 1 w' = Some st' ∧ may_move 1 1 CallClose w TCP_STATE_ESTABLISHED st'.
Proof.
  intros w. destruct (run_call 4 1 CallClose w) as [[[] w']| | | |] eqn:E;
    [|vm_compute in E; discriminate E..].
  exists w'. split; [done|].
  apply (tcp_transitions 4 1 1 CallClose w tt w' TCP_STATE_ESTABLISHED); [done|exact I|exact E].
Defined.
