(* ===== verification/TcpWp.v ===== *)
(** * Total correctness for the TCP stack

    The rules of [wp] for the accessors of [NetState]: reading and updating a
    connection, stepping into the packets, the links and the surroundings. *)
From S2P Require Import Prelude Errors PacketIO Nettool ListH Ipaddr Pktbuf PktbufOps PktbufCursor PktbufSpec PktMem TcpBuf NetTypes NetState Sock TcpOut.

Section wp.
Context {E : Type}.
Implicit Types (t s sg : Z) (w : netw E).

(** The state with socket [s] replaced. *)
Definition set_sock s (v : Socket) w : netw E := set_socks (<[s := v]> (n_socks w)) w.

Lemma lookup_set_sock s v w : n_socks (set_sock s v w) !! s = Some v.
Proof. cbn. by rewrite lookup_insert_eq. Qed.

Lemma lookup_set_sock_ne s s' v w :
  s ≠ s' → n_socks (set_sock s v w) !! s' = n_socks w !! s'.
Proof. intros. cbn. by rewrite lookup_insert_ne. Qed.

Lemma set_set_sock s v v' w : set_sock s v' (set_sock s v w) = set_sock s v' w.
Proof. unfold set_sock, set_socks. cbn. by rewrite insert_insert_eq. Qed.

Lemma set_sock_id s v w : n_socks w !! s = Some v → set_sock s v w = w.
Proof. intros H. unfold set_sock, set_socks. rewrite insert_id by done. by destruct w. Qed.

Lemma wp_get_sk s v w (Q : Socket → netw E → Prop) :
  n_socks w !! s = Some v → Q v w → wp (get_sk s) w Q.
Proof.
  intros Hs HQ. unfold get_sk. apply wp_bind, wp_gets. rewrite Hs. by apply wp_of_option; eauto.
Qed.

Lemma wp_get_tcp t v w (Q : Tcp → netw E → Prop) :
  n_socks w !! t = Some v → Q (sk_tcp v) w → wp (get_tcp t) w Q.
Proof. intros Hs HQ. unfold get_tcp. apply wp_bind. by eapply wp_get_sk. Qed.

Lemma wp_upd_sk s f v w (Q : unit → netw E → Prop) :
  n_socks w !! s = Some v → Q tt (set_sock s (f v) w) → wp (upd_sk s f) w Q.
Proof.
  intros Hs HQ. unfold upd_sk. apply wp_bind. eapply wp_get_sk; [done|]. by apply wp_modify.
Qed.

Lemma wp_upd_tcp t f v w (Q : unit → netw E → Prop) :
  n_socks w !! t = Some v → Q tt (set_sock t (set_sk_tcp (f (sk_tcp v)) v) w) →
  wp (upd_tcp t f) w Q.
Proof. intros Hs HQ. unfold upd_tcp. by eapply wp_upd_sk. Qed.

Lemma wp_get_seg sg v w (Q : Tcp_seg → netw E → Prop) :
  n_segs w !! sg = Some v → Q v w → wp (get_seg sg) w Q.
Proof.
  intros Hs HQ. unfold get_seg. apply wp_bind, wp_gets. rewrite Hs. by apply wp_of_option; eauto.
Qed.

Lemma wp_on_pk {A} (m : M pworld A) w (Q : A → netw E → Prop) :
  wp m (n_pk w) (λ a p, Q a (set_pk_env (p, n_env w) w)) → wp (on_pk m) w Q.
Proof. unfold on_pk. by rewrite wp_zoom. Qed.

Lemma wp_on_env {A} (m : M E A) w (Q : A → netw E → Prop) :
  wp m (n_env w) (λ a e, Q a (set_pk_env (n_pk w, e) w)) → wp (on_env m) w Q.
Proof. unfold on_env. by rewrite wp_zoom. Qed.

Lemma wp_on_pk_env {A} (m : M (pworld * E) A) w (Q : A → netw E → Prop) :
  wp m (n_pk w, n_env w) (λ a p, Q a (set_pk_env p w)) → wp (on_pk_env m) w Q.
Proof. unfold on_pk_env. by rewrite wp_zoom. Qed.

Lemma wp_on_cells {A} (m : M heap A) w (Q : A → netw E → Prop) :
  wp m (n_cells w) (λ a h, Q a (set_cells h w)) → wp (on_cells m) w Q.
Proof. unfold on_cells. by rewrite wp_zoom. Qed.

(** The surroundings replaced. *)
Definition with_env (e : E) w : netw E := set_pk_env (n_pk w, e) w.

Lemma set_sock_env s v e w : set_sock s v (with_env e w) = with_env e (set_sock s v w).
Proof. done. Qed.
Lemma with_with_env e e' w : with_env e' (with_env e w) = with_env e' w.
Proof. done. Qed.

(** The run of [m] from [w] goes on as that of [m'] from a state in [Q]. *)
Definition goes_on {A} (m : Net E A) w (m' : Net E A) (Q : netw E → Prop) : Prop :=
  ∃ w', Q w' ∧ m w = m' w'.

Lemma goes_on_bind {A B} (m : Net E A) (k : A → Net E B) w (m' : Net E B) (Q : netw E → Prop) :
  wp m w (λ a w', goes_on (k a) w' m' Q) → goes_on (m ≫= k) w m' Q.
Proof.
  intros (a & w1 & E1 & w2 & HQ & E2)%wp_run. exists w2. split; [done|].
  unfold mbind, M_bind. by rewrite E1.
Qed.

Lemma goes_on_here {A} (m : Net E A) w (Q : netw E → Prop) : Q w → goes_on m w m Q.
Proof. intros. by exists w. Qed.
End wp.

(** Successive replacements of one socket and of the surroundings, gathered. *)
Create Rewrite HintDb netw.
#[export] Hint Rewrite @set_sock_env @with_with_env @set_set_sock : netw.
