(* ===== verification/TcpWire.v ===== *)
(** * Segments on the wire

    The header as RFC 793 draws it, in network order; that the record, its
    layout in memory and the conversions of [send_out] give it; and a segment in
    a packet: access to the header through the pointer [pktbuf_data] returns,
    and [send_out], which gives the IP layer the header in network order with a
    valid checksum, followed by the data. *)
From S2P Require Import Prelude Errors PacketIO Nettool ListH Ipaddr Pktbuf PktbufOps PktbufCursor PktbufSpec PktMem TcpBuf NetTypes NetState Sock TcpOut TcpWp.

(** ** The layout *)

Definition wire_flags (h : Tcp_hdr) : Z :=
  Z.b2z (h_fin h) + 2 * Z.b2z (h_syn h) + 4 * Z.b2z (h_rst h) + 8 * Z.b2z (h_psh h)
  + 16 * Z.b2z (h_fack h) + 32 * Z.b2z (h_urg h) + 64 * Z.b2z (h_ece h) + 128 * Z.b2z (h_cwr h).

(** The header of RFC 793; [sum] is the checksum field as two bytes in memory. *)
Definition wire_hdr (h : Tcp_hdr) (sum : Z) : bytes :=
  be16 (h_sport h) ++ be16 (h_dport h) ++ be32 (h_seq h) ++ be32 (h_ack h)
  ++ [16 * h_shdr h + h_resv h; wire_flags h] ++ be16 (h_win h) ++ le16 sum ++ be16 (h_urgptr h).

(** The fields fit their widths. *)
Record hdr_ok (h : Tcp_hdr) : Prop := {
  ok_sport : 0 ≤ h_sport h < 2 ^ 16;
  ok_dport : 0 ≤ h_dport h < 2 ^ 16;
  ok_seq : 0 ≤ h_seq h < 2 ^ 32;
  ok_ack : 0 ≤ h_ack h < 2 ^ 32;
  ok_resv : 0 ≤ h_resv h < 16;
  ok_shdr : 0 ≤ h_shdr h < 16;
  ok_win : 0 ≤ h_win h < 2 ^ 16;
  ok_sum : 0 ≤ h_checksum h < 2 ^ 16;
  ok_urgptr : 0 ≤ h_urgptr h < 2 ^ 16
}.

(** Assignments to fields keep the header in its widths. *)
Lemma ok_set_sport x h : 0 ≤ x < 2 ^ 16 → hdr_ok h → hdr_ok (set_h_sport x h).
Proof. intros ? []. by split. Qed.
Lemma ok_set_dport x h : 0 ≤ x < 2 ^ 16 → hdr_ok h → hdr_ok (set_h_dport x h).
Proof. intros ? []. by split. Qed.
Lemma ok_set_seq x h : 0 ≤ x < 2 ^ 32 → hdr_ok h → hdr_ok (set_h_seq x h).
Proof. intros ? []. by split. Qed.
Lemma ok_set_ack x h : 0 ≤ x < 2 ^ 32 → hdr_ok h → hdr_ok (set_h_ack x h).
Proof. intros ? []. by split. Qed.
Lemma ok_set_shdr x h : 0 ≤ x < 16 → hdr_ok h → hdr_ok (set_h_shdr x h).
Proof. intros ? []. by split. Qed.
Lemma ok_set_win x h : 0 ≤ x < 2 ^ 16 → hdr_ok h → hdr_ok (set_h_win x h).
Proof. intros ? []. by split. Qed.
Lemma ok_set_urgptr x h : 0 ≤ x < 2 ^ 16 → hdr_ok h → hdr_ok (set_h_urgptr x h).
Proof. intros ? []. by split. Qed.
Lemma ok_set_checksum x h : 0 ≤ x < 2 ^ 16 → hdr_ok h → hdr_ok (set_h_checksum x h).
Proof. intros ? []. by split. Qed.
Lemma ok_set_rst b h : hdr_ok h → hdr_ok (set_h_rst b h).
Proof. intros []. by split. Qed.
Lemma ok_set_fack b h : hdr_ok h → hdr_ok (set_h_fack b h).
Proof. intros []. by split. Qed.
Lemma ok_set_syn b h : hdr_ok h → hdr_ok (set_h_syn b h).
Proof. intros []. by split. Qed.
Lemma ok_set_fin b h : hdr_ok h → hdr_ok (set_h_fin b h).
Proof. intros []. by split. Qed.
Lemma ok_clear_flags h : hdr_ok h → hdr_ok (clear_flags h).
Proof. intros []. by split. Qed.
Lemma ok_u16 x : 0 ≤ u16 x < 2 ^ 16.
Proof. by apply (wrap_range 16). Qed.
Lemma ok_u32 x : 0 ≤ u32 x < 2 ^ 32.
Proof. by apply (wrap_range 32). Qed.
Create HintDb hdr discriminated.
#[export] Hint Resolve ok_set_sport ok_set_dport ok_set_seq ok_set_ack ok_set_shdr ok_set_win
  ok_set_urgptr ok_set_checksum ok_set_rst ok_set_fack ok_set_syn ok_set_fin ok_clear_flags
  ok_u16 ok_u32 ok_sport ok_dport ok_seq ok_ack ok_win : hdr.
#[export] Hint Extern 5 (0 ≤ _ < _) => (split; reflexivity || lia) : hdr.

Lemma b2z_range b : 0 ≤ Z.b2z b ≤ 1.
Proof. by destruct b. Qed.

Lemma hdr_flags_range h : hdr_ok h → 0 ≤ hdr_flags h < 2 ^ 16.
Proof.
  intros []. unfold hdr_flags.
  pose proof (b2z_range (h_fin h)). pose proof (b2z_range (h_syn h)).
  pose proof (b2z_range (h_rst h)). pose proof (b2z_range (h_psh h)).
  pose proof (b2z_range (h_fack h)). pose proof (b2z_range (h_urg h)).
  pose proof (b2z_range (h_ece h)). pose proof (b2z_range (h_cwr h)). lia.
Qed.

Lemma wire_flags_byte h : is_byte (wire_flags h).
Proof.
  unfold is_byte, wire_flags.
  pose proof (b2z_range (h_fin h)). pose proof (b2z_range (h_syn h)).
  pose proof (b2z_range (h_rst h)). pose proof (b2z_range (h_psh h)).
  pose proof (b2z_range (h_fack h)). pose proof (b2z_range (h_urg h)).
  pose proof (b2z_range (h_ece h)). pose proof (b2z_range (h_cwr h)). lia.
Qed.

Lemma le16_flags h : hdr_ok h → le16 (hdr_flags h) = [16 * h_shdr h + h_resv h; wire_flags h].
Proof.
  intros Hh. pose proof (wire_flags_byte h) as Hw. unfold is_byte in Hw.
  assert (hdr_flags h = 16 * h_shdr h + h_resv h + wire_flags h * 256) as ->
    by (unfold hdr_flags, wire_flags; lia).
  destruct Hh. unfold le16. rewrite Z_mod_plus_full, Z.div_add by lia.
  rewrite (Z.mod_small (16 * _ + _)), (Z.div_small (16 * _ + _)) by lia.
  by rewrite Z.add_0_l, (Z.mod_small (wire_flags h)) by lia.
Qed.

(** What [send_out] stores is the header in network order. *)
Lemma encode_swap h c : hdr_ok h → encode_hdr (set_h_checksum c (swap_hdr h)) = wire_hdr h c.
Proof.
  intros Hh. unfold wire_hdr. rewrite <- (le16_flags h Hh). destruct Hh.
  rewrite <- !le16_swap, <- !le32_swap by done. by destruct h.
Qed.

Lemma testbit_middle r b q n :
  0 ≤ n → 0 ≤ r < 2 ^ n → Z.testbit (r + 2 ^ n * Z.b2z b + 2 ^ (n + 1) * q) n = b.
Proof.
  intros Hn Hr. apply (Z.testbit_unique _ _ b r q); [done|].
  rewrite Z.pow_add_r by lia. lia.
Qed.

Lemma encode_length h : length (encode_hdr h) = 20%nat.
Proof. reflexivity. Qed.

Lemma encode_bytes h : Forall is_byte (encode_hdr h).
Proof. unfold encode_hdr. repeat (apply Forall_app; split); auto using le_bytes16, le_bytes32. Qed.

(** ** Reading what was written *)

(** [decode_hdr] reads the fields back. *)
Lemma decode_fields h rest :
  hdr_ok h → decode_hdr (encode_hdr h ++ rest) =
    let flags := hdr_flags h in
    mk_hdr (h_sport h) (h_dport h) (h_seq h) (h_ack h)
      (Z.land flags 15) (Z.land (Z.shiftr flags 4) 15)
      (Z.testbit flags 8) (Z.testbit flags 9) (Z.testbit flags 10) (Z.testbit flags 11)
      (Z.testbit flags 12) (Z.testbit flags 13) (Z.testbit flags 14) (Z.testbit flags 15)
      (h_win h) (h_checksum h) (h_urgptr h).
Proof.
  intros Hh. pose proof (hdr_flags_range h Hh) as Hf. destruct Hh. cbv zeta.
  unfold decode_hdr, encode_hdr. set (fl := hdr_flags h) in *.
  set (a := le16 (h_sport h)). set (b := le16 (h_dport h)). set (c := le32 (h_seq h)).
  set (d := le32 (h_ack h)). set (e := le16 fl). set (f := le16 (h_win h)).
  set (g := le16 (h_checksum h)). rewrite <- !app_assoc.
  rewrite (get_le16 _ (a ++ b ++ c ++ d) fl (f ++ g ++ le16 (h_urgptr h) ++ rest) 12)
    by (done || by rewrite <- !app_assoc).
  f_equal.
  - by eapply (get_le16 _ []).
  - by eapply (get_le16 _ a).
  - by eapply (get_le32 _ (a ++ b)); [| |rewrite <- !app_assoc].
  - by eapply (get_le32 _ (a ++ b ++ c)); [| |rewrite <- !app_assoc].
  - by eapply (get_le16 _ (a ++ b ++ c ++ d ++ e)); [| |rewrite <- !app_assoc].
  - by eapply (get_le16 _ (a ++ b ++ c ++ d ++ e ++ f)); [| |rewrite <- !app_assoc].
  - by eapply (get_le16 _ (a ++ b ++ c ++ d ++ e ++ f ++ g)); [| |rewrite <- !app_assoc].
Qed.

Lemma decode_encode h rest : hdr_ok h → decode_hdr (encode_hdr h ++ rest) = h.
Proof.
  intros Hh. rewrite decode_fields by done. cbv zeta. unfold hdr_flags.
  pose proof (ok_resv h Hh). pose proof (ok_shdr h Hh).
  destruct h as [sport dport seq ack resv shdr fin syn rst psh fack urg ece cwr win sum urgp].
  cbn [h_resv h_shdr h_fin h_syn h_rst h_psh h_fack h_urg h_ece h_cwr h_sport h_dport h_seq
       h_ack h_win h_checksum h_urgptr] in *.
  set (l := resv + 16 * shdr). assert (0 ≤ l < 256) by lia.
  assert (resv + 16 * shdr = l) as E by done.
  pose proof (b2z_range fin). pose proof (b2z_range syn). pose proof (b2z_range rst).
  pose proof (b2z_range psh). pose proof (b2z_range fack). pose proof (b2z_range urg).
  pose proof (b2z_range ece). pose proof (b2z_range cwr).
  set (F := _ + 32768 * Z.b2z cwr).
  assert (F = resv + 16 * (shdr + 16 * (Z.b2z fin + 2 * Z.b2z syn + 4 * Z.b2z rst
    + 8 * Z.b2z psh + 16 * Z.b2z fack + 32 * Z.b2z urg + 64 * Z.b2z ece + 128 * Z.b2z cwr))) as EF
    by (unfold F; lia).
  assert (∀ r b q n, F = r + 2 ^ n * Z.b2z b + 2 ^ (n + 1) * q → 0 ≤ n → 0 ≤ r < 2 ^ n →
    Z.testbit F n = b) as Hbit by (intros r b q n -> ??; by apply testbit_middle).
  f_equal.
  - change 15 with (2 ^ 4 - 1). rewrite land_ones_mod by lia. rewrite EF, (Z.mul_comm 16).
    change (2 ^ 4) with 16. rewrite Z_mod_plus_full. by apply Z.mod_small.
  - change 15 with (2 ^ 4 - 1). rewrite land_ones_mod, Z.shiftr_div_pow2 by lia.
    change (2 ^ 4) with 16. rewrite EF, (Z.mul_comm 16), Z.div_add, Z.div_small, Z.add_0_l by lia.
    rewrite (Z.mul_comm 16), Z_mod_plus_full. by apply Z.mod_small.
  - apply (Hbit l fin (Z.b2z syn + 2 * Z.b2z rst + 4 * Z.b2z psh + 8 * Z.b2z fack
      + 16 * Z.b2z urg + 32 * Z.b2z ece + 64 * Z.b2z cwr)); lia.
  - apply (Hbit (l + 256 * Z.b2z fin) syn (Z.b2z rst + 2 * Z.b2z psh + 4 * Z.b2z fack
      + 8 * Z.b2z urg + 16 * Z.b2z ece + 32 * Z.b2z cwr)); lia.
  - apply (Hbit (l + 256 * Z.b2z fin + 512 * Z.b2z syn) rst (Z.b2z psh + 2 * Z.b2z fack
      + 4 * Z.b2z urg + 8 * Z.b2z ece + 16 * Z.b2z cwr)); lia.
  - apply (Hbit (l + 256 * Z.b2z fin + 512 * Z.b2z syn + 1024 * Z.b2z rst) psh
      (Z.b2z fack + 2 * Z.b2z urg + 4 * Z.b2z ece + 8 * Z.b2z cwr)); lia.
  - apply (Hbit (l + 256 * Z.b2z fin + 512 * Z.b2z syn + 1024 * Z.b2z rst + 2048 * Z.b2z psh) fack
      (Z.b2z urg + 2 * Z.b2z ece + 4 * Z.b2z cwr)); lia.
  - apply (Hbit (l + 256 * Z.b2z fin + 512 * Z.b2z syn + 1024 * Z.b2z rst + 2048 * Z.b2z psh
      + 4096 * Z.b2z fack) urg (Z.b2z ece + 2 * Z.b2z cwr)); lia.
  - apply (Hbit (F - 16384 * Z.b2z ece - 32768 * Z.b2z cwr) ece (Z.b2z cwr)); unfold F; lia.
  - apply (Hbit (F - 32768 * Z.b2z cwr) cwr 0); unfold F; lia.
Qed.

(** ** The header in a packet *)

Abbreviation header_at := (head_at SIZEOF_TCP_HDR).
Abbreviation owns := (owns_head SIZEOF_TCP_HDR).

Lemma wp_hdr_load p b w v (Q : Tcp_hdr → pworld → Prop) :
  owns w b v p → Q (decode_hdr (content v)) w → wp (hdr_load p) w Q.
Proof.
  intros Ho HQ. unfold hdr_load. apply wp_bind.
  eapply wp_head_load; [exact Ho|unfold SIZEOF_TCP_HDR; lia..|]. rewrite wp_ret.
  assert (decode_hdr (slice (content v) 0 SIZEOF_TCP_HDR) = decode_hdr (content v)) as ->; [|done].
  unfold decode_hdr. by rewrite !get_le_head by (unfold SIZEOF_TCP_HDR; lia).
Qed.

Lemma wp_hdr_store p h b w v (Q : unit → pworld → Prop) :
  owns w b v p →
  (∀ v' w', updated w b v' w' → header_at b v' p → ref v' = ref v →
     total_size v' = total_size v →
     content v' = encode_hdr h ++ drop 20 (content v) → Q tt w') →
  wp (hdr_store p h) w Q.
Proof.
  intros Ho HQ. unfold hdr_store.
  eapply wp_head_store; [exact Ho|unfold SIZEOF_TCP_HDR; cbn; lia..|apply encode_bytes|].
  intros v' w' U Hat R T Ec _ _. by eapply HQ.
Qed.

(** Packet [b] is a segment under construction: header [h], then [data]. *)
Record seg_buf (w : pworld) (b : Z) (v : Pktbuf) (p : bptr) (h : Tcp_hdr) (data : bytes) : Prop := {
  sb_owns : owns w b v p;
  sb_content : content v = encode_hdr h ++ data;
  sb_ok : hdr_ok h
}.

Lemma wp_load_seg p b w v h data (Q : Tcp_hdr → pworld → Prop) :
  seg_buf w b v p h data → Q h w → wp (hdr_load p) w Q.
Proof.
  intros [Ho Ec Hh] HQ. eapply wp_hdr_load; [done|]. by rewrite Ec, decode_encode.
Qed.

Lemma wp_store_seg p b w v h h' data (Q : unit → pworld → Prop) :
  seg_buf w b v p h data → hdr_ok h' →
  (∀ v' w', updated w b v' w' → seg_buf w' b v' p h' data → ref v' = ref v →
     total_size v' = total_size v → Q tt w') →
  wp (hdr_store p h') w Q.
Proof.
  intros [Ho Ec Hh] Hh' HQ. eapply wp_hdr_store; [done|]. intros v' w' Hup Hat Hr Ht Ec'.
  eapply HQ; try done. split; [by eapply owns_updated| |done].
  by rewrite Ec', Ec, drop_app_length'.
Qed.

Lemma wp_upd_seg_hdr p f b w v h data (Q : unit → pworld → Prop) :
  seg_buf w b v p h data → hdr_ok (f h) →
  (∀ v' w', updated w b v' w' → seg_buf w' b v' p (f h) data → ref v' = ref v →
     total_size v' = total_size v → Q tt w') →
  wp (hdr_upd p f) w Q.
Proof.
  intros Hs Hf HQ. unfold hdr_upd. apply wp_bind. eapply wp_load_seg; [done|].
  by eapply wp_store_seg.
Qed.

(** ** Handing a segment to the IP layer *)

(** The bytes of a segment for the wire: the header in network order with a
    checksum with which the pseudo-header and the segment sum to zero. *)
Definition valid_segment (dest src : Ipaddr) (h : Tcp_hdr) (data bs : bytes) : Prop :=
  ∃ c, bs = wire_hdr h c ++ data ∧ 0 ≤ c < 2 ^ 16 ∧
    checksum16 0 (peso_bytes (a_addr dest) (a_addr src) NET_PROTOCOL_TCP bs)
      (12 + zlen bs) 0 true = Ok 0.

Definition addr_ok (a : Ipaddr) : Prop := zlen (a_addr a) = 4 ∧ Forall is_byte (a_addr a).

Lemma swap_hdr_ok h : hdr_ok h → hdr_ok (swap_hdr h).
Proof.
  intros []. destruct h; cbn in *. unfold swap_hdr, x_htons, x_htonl.
  pose proof swap_u16_range as H16. pose proof swap_u32_range as H32.
  split; cbn -[Z.pow swap_u16 swap_u32]; try done; first [apply H16|apply H32].
Qed.

Lemma set_checksum_ok c h : hdr_ok h → 0 ≤ c < 2 ^ 16 → hdr_ok (set_h_checksum c h).
Proof. intros [] ?. by split. Qed.

Lemma set_checksum_twice c c' h : set_h_checksum c (set_h_checksum c' h) = set_h_checksum c h.
Proof. done. Qed.

(** The header up to the checksum field, and from there. *)
Definition encode_front (h : Tcp_hdr) : bytes :=
  le16 (h_sport h) ++ le16 (h_dport h) ++ le32 (h_seq h) ++ le32 (h_ack h)
  ++ le16 (hdr_flags h) ++ le16 (h_win h).

Lemma encode_split h c :
  encode_hdr (set_h_checksum c h) = encode_front h ++ le16 c ++ le16 (h_urgptr h).
Proof. by destruct h. Qed.

(** The checksum computed over the field zeroed makes the segment valid. *)
Lemma checksum_field dest src protocol h data c :
  zlen dest = 4 → zlen src = 4 → Forall is_byte dest → Forall is_byte src → is_byte protocol →
  Forall is_byte data → zlen data < 65536 - 32 → hdr_ok h →
  let bs x := encode_hdr (set_h_checksum x h) ++ data in
  checksum16 0 (peso_bytes dest src protocol (bs 0)) (12 + zlen (bs 0)) 0 true = Ok c →
  0 ≤ c < 2 ^ 16 ∧
  checksum16 0 (peso_bytes dest src protocol (bs c)) (12 + zlen (bs c)) 0 true = Ok 0.
Proof.
  intros Hld Hls Hd Hs Hp Hda Hlen Hh bs Hc.
  assert (∀ x, zlen (bs x) = 20 + zlen data) as Hlb by (intros; unfold bs; rewrite length_app; cbn; lia).
  set (n := 20 + zlen data) in *.
  set (before := dest ++ src ++ [0; protocol] ++ [n / 256; n mod 256] ++ encode_front h).
  set (after := le16 (h_urgptr h) ++ data).
  assert (∀ x, peso_bytes dest src protocol (bs x) = before ++ le16 x ++ after) as Ebs.
  { intros x. unfold peso_bytes, before, after. rewrite Hlb. unfold bs. rewrite encode_split.
    by rewrite <- !app_assoc. }
  assert (is_byte (n / 256)) as Hn.
  { unfold is_byte. split; [apply Z.div_pos; lia|apply Z.div_lt_upper_bound; lia]. }
  assert (Forall is_byte before) as Hbef.
  { unfold before, encode_front. repeat (apply Forall_app; split); auto using le_bytes16, le_bytes32.
    - forall_elems; [unfold is_byte; lia|done].
    - forall_elems; [done|apply byte_mod]. }
  assert (Forall is_byte after) as Haft.
  { unfold after. apply Forall_app. split; [apply le_bytes16|done]. }
  assert (zlen before = 28) as Elb by (unfold before; rewrite !length_app; cbn; lia).
  assert (zlen after = 2 + zlen data) as Ela by (unfold after; rewrite !length_app; cbn; lia).
  rewrite !Ebs, Hlb in *.
  assert (12 + n = zlen before + 2 + zlen after) as En by lia. rewrite En in *.
  by apply checksum_fills; [| |exists 14|lia|].
Qed.

(** *** Headers read from any bytes *)

Lemma land_15_range x : 0 ≤ Z.land x 15 < 16.
Proof. change 15 with (2 ^ 4 - 1). rewrite land_ones_mod by lia. apply Z.mod_pos_bound. lia. Qed.

Lemma decode_ok l : Forall is_byte l → hdr_ok (decode_hdr l).
Proof.
  intros Hl. pose proof (λ off, get_le_range l off 2 Hl) as H2.
  pose proof (λ off, get_le_range l off 4 Hl) as H4.
  change (256 ^ Z.max 0 2) with (2 ^ 16) in H2. change (256 ^ Z.max 0 4) with (2 ^ 32) in H4.
  split; cbn [decode_hdr h_sport h_dport h_seq h_ack h_resv h_shdr h_win h_checksum h_urgptr];
    first [apply H2|apply H4|apply land_15_range].
Qed.

(** The first fields written into a packet just allocated. *)
Lemma wp_first_hdr p f b w v (Q : unit → pworld → Prop) :
  owns w b v p → hdr_ok (f (decode_hdr (content v))) →
  (∀ v' w', updated w b v' w' →
     seg_buf w' b v' p (f (decode_hdr (content v))) (drop 20 (content v)) → ref v' = ref v →
     total_size v' = total_size v → Q tt w') →
  wp (hdr_upd p f) w Q.
Proof.
  intros Ho Hf HQ. unfold hdr_upd. apply wp_bind. eapply wp_hdr_load; [done|].
  eapply wp_hdr_store; [done|]. intros v' w' Hup Hat Hr Ht Ec. eapply HQ; try done.
  split; [by eapply owns_updated|done|done].
Qed.

Lemma owned_decode w b v p : owns w b v p → hdr_ok (decode_hdr (content v)).
Proof.
  intros ((Hw & Hb) & _). apply decode_ok, content_bytes. apply (wf_bufs _ Hw _ _ Hb).
Qed.

Lemma set_hdr_size_20 h : tcp_set_hdr_size SIZEOF_TCP_HDR h = set_h_shdr 5 h.
Proof. done. Qed.

(** The checksum field of the header has no part in what is sent. *)
Lemma valid_any_checksum dest src h data bs c :
  valid_segment dest src (set_h_checksum c h) data bs → valid_segment dest src h data bs.
Proof. by destruct h. Qed.

Section send.
Context {E : Type} `{NE : !NetEnv E} `{K : !Kmalloc} `{KO : !KmallocOk}.
Implicit Types (w : netw E) (p : bptr).

(** The packets and the surroundings replaced. *)
Definition with_pk (pk : pworld) w : netw E := set_pk_env (pk, n_env w) w.

Lemma with_with_pk pk pk' w : with_pk pk' (with_pk pk w) = with_pk pk' w.
Proof. done. Qed.

(** Packet [b] given to the IP layer, and released when that does not take it. *)
Definition hand_over (b : Z) (dest src : Ipaddr) : Net E Z :=
  ret ← on_pk_env (ipv4_out NET_PROTOCOL_TCP dest src b);
  (if ret <? 0 then on_pk (pktbuf_free b) else mret tt);;
  mret ret.

(** [send_out] converts the header and fills in the checksum; then the bytes in
    the packet are those of the segment on the wire. *)
Lemma send_out_hands_over p b dest src v h data w (Q : netw E → Prop) :
  seg_buf (n_pk w) b v p h data → addr_ok dest → addr_ok src → zlen data < 65536 - 32 →
  (∀ v' pk', updated (n_pk w) b v' pk' → ref v' = ref v →
     valid_segment dest src h data (content v') → Q (with_pk pk' w)) →
  goes_on (send_out p b dest src) w (hand_over b dest src) Q.
Proof.
  intros Hs [Hld Hd] [Hls Hsr] Hlen HQ. pose proof Hs as [_ _ Hh].
  pose proof (swap_hdr_ok h Hh) as Hsw. unfold send_out.
  apply goes_on_bind, wp_on_pk. eapply wp_upd_seg_hdr; [done|done|]. intros v1 pk1 U1 Hs1 R1 T1.
  apply goes_on_bind, wp_on_pk. eapply wp_upd_seg_hdr; [done|by apply set_checksum_ok; [|lia]|].
  intros v2 pk2 U2 Hs2 R2 T2. pose proof Hs2 as [([Hw2 Hb2] & _) Ec2 _].
  pose proof (buf_total _ _ (wf_bufs _ Hw2 _ _ Hb2)) as Htot.
  pose proof (buf_blks _ _ (wf_bufs _ Hw2 _ _ Hb2)) as Hblks.
  assert (zlen (content v2) = 20 + zlen data) as El by (rewrite Ec2, length_app; cbn; lia).
  assert (Forall is_byte data) as Hdata.
  { pose proof (content_bytes _ Hblks) as Hc. fold (content v2) in Hc. rewrite Ec2 in Hc.
    by apply Forall_app in Hc as [_ ?]. }
  apply goes_on_bind, wp_on_pk.
  eapply wp_checksum_peso; [split; [exact Hw2|exact Hb2]|done..|unfold is_byte, NET_PROTOCOL_TCP; lia|lia|].
  intros v3 pk3 c U3 Hwi3 Ec3 _ R3 Hc. rewrite Ec2 in Hc.
  destruct (checksum_field (a_addr dest) (a_addr src) NET_PROTOCOL_TCP (swap_hdr h) data c)
    as [Hcr Hc0]; try done.
  apply goes_on_bind, wp_on_pk. eapply (wp_upd_seg_hdr p _ b pk3 v3 _ data).
  { split; [eapply owns_updated; [exact U3|]|by rewrite Ec3|by apply set_checksum_ok; [|lia]].
    eapply header_windows; [|exact Hwi3]. apply Hs2. }
  { apply set_checksum_ok; [|done]. apply set_checksum_ok; [done|lia]. }
  intros v4 pk4 U4 [_ Ec4 _] R4 _. exists (with_pk pk4 w). split; [|done].
  eapply HQ.
  - do 3 (eapply updated_trans; [eassumption|]). exact U4.
  - congruence.
  - exists c. rewrite Ec4.
    rewrite set_checksum_twice. rewrite encode_swap in Hc0 |- * by done. split; [done|split; [exact Hcr|exact Hc0]].
Qed.

(** ** A packet for a header *)

(** A new packet takes [n] bytes of the module's memory. *)
Record can_send (pk : pworld) (n : Z) : Prop := {
  cs_wf : wf pk;
  cs_addr : 0 < brk pk;
  cs_room : mem_size (phead pk) + n ≤ max_mem_size (phead pk)
}.

(** The only change to the packets is packet [b], new. *)
Definition new_packet (pk pk' : pworld) (b : Z) (v : Pktbuf) : Prop :=
  wf pk' ∧ bufs pk !! b = None ∧ bufs pk' = <[b := v]> (bufs pk) ∧ ref v = 1.

Lemma new_updated pk pk1 pk2 b v v' :
  new_packet pk pk1 b v → updated pk1 b v' pk2 → ref v' = ref v → new_packet pk pk2 b v'.
Proof.
  intros (_ & Hf & E1 & Hr) (Hw & E2 & _) Hr'. split_and!; [done|done| |congruence].
  by rewrite E2, E1, insert_insert_eq.
Qed.

Lemma wp_new_packet pk (Q : Z → pworld → Prop) :
  can_send pk SIZEOF_TCP_HDR →
  (∀ v p pk', new_packet pk pk' (brk pk) v → owns pk' (brk pk) v p → zlen (content v) = 20 →
     mem_size (phead pk') = mem_size (phead pk) + SIZEOF_TCP_HDR →
     max_mem_size (phead pk') = max_mem_size (phead pk) → Q (brk pk) pk') →
  wp (pktbuf_alloc SIZEOF_TCP_HDR) pk Q.
Proof.
  intros [Hw Ha Hr] HQ. eapply wp_alloc; [done|done|done|].
  intros v pk' Hw' Hn Eb Ec Er _ Em Emx Hone _.
  assert (bufs pk' !! brk pk = Some v) as Hb by (rewrite Eb; by rewrite lookup_insert_eq).
  destruct Hone as [k El]; [by unfold SIZEOF_TCP_HDR, PKTBUF_BLK_SIZE|].
  assert (blk_size k = 20) as Hk.
  { pose proof (buf_blks _ _ (wf_bufs _ Hw' _ _ Hb)) as Hbl. rewrite El in Hbl.
    apply Forall_cons_1 in Hbl as [Hk _]. pose proof (blk_bytes_len _ Hk) as Hl.
    unfold content in Ec. rewrite El in Ec. cbn in Ec. rewrite app_nil_r in Ec.
    unfold SIZEOF_TCP_HDR in Ec. lia. }
  apply (HQ v (mk_ptr (brk pk) (blk_id k) (blk_data k))); try done.
  split; [done|]. split; [done|]. exists k, []. split_and!; try done.
  unfold SIZEOF_TCP_HDR. lia.
Qed.

(** ** Segments without data *)

(** An acknowledgement, with or without RST. *)
Definition ack_segment (s : Socket) (seq : Z) (rst : bool) : Tcp_hdr :=
  mk_hdr (sk_local_port s) (sk_remote_port s) seq (rcv_nxt (sk_tcp s)) 0 5
    false false rst false true false false false
    (u16 (tb_size (rcv_buf (sk_tcp s)) - tb_count (rcv_buf (sk_tcp s)))) 0 0.

Definition ports_ok (s : Socket) : Prop :=
  0 ≤ sk_local_port s < 2 ^ 16 ∧ 0 ≤ sk_remote_port s < 2 ^ 16.

(** What is given to the IP layer: a new packet with the segment. *)
Definition segment_ready (w : netw E) (b : Z) (dest src : Ipaddr) (h : Tcp_hdr) (data : bytes)
    (w' : netw E) : Prop :=
  ∃ v pk', w' = with_pk pk' w ∧ new_packet (n_pk w) pk' b v ∧
    valid_segment dest src h data (content v).

Lemma send_ack_hdr_sends t seq rst dest src s w :
  n_socks w !! t = Some s → can_send (n_pk w) SIZEOF_TCP_HDR → addr_ok dest → addr_ok src →
  ports_ok s → 0 ≤ seq < 2 ^ 32 → 0 ≤ rcv_nxt (sk_tcp s) < 2 ^ 32 →
  tb_count (rcv_buf (sk_tcp s)) ≤ tb_size (rcv_buf (sk_tcp s)) →
  goes_on (send_ack_hdr t seq rst dest src) w (hand_over (brk (n_pk w)) dest src)
    (segment_ready w (brk (n_pk w)) dest src (ack_segment s seq rst) []).
Proof.
  intros Hs Hcs Hd Hsr [Hlp Hrp] Hseq Hack Hcnt. unfold send_ack_hdr.
  apply goes_on_bind, wp_on_pk. eapply wp_new_packet; [done|].
  intros v p pk1 Hn1 Ho1 Hl1 _ _. pose proof (cs_addr _ _ Hcs).
  destruct (Z.eqb_spec (brk (n_pk w)) 0); [lia|].
  apply goes_on_bind, wp_on_pk. eapply wp_hdr_ptr; [exact Ho1|].
  apply goes_on_bind. eapply wp_get_sk; [exact Hs|].
  apply goes_on_bind. eapply wp_get_tcp; [exact Hs|].
  apply goes_on_bind. unfold tcp_rcv_window. apply wp_bind. eapply wp_get_tcp; [exact Hs|].
  unfold tcp_buf_free_cnt. rewrite wp_bind, wp_assert. split; [by apply Z.leb_le|].
  rewrite wp_ret. apply goes_on_bind, wp_on_pk.
  pose proof (owned_decode _ _ _ _ Ho1) as Hdec.
  set (f := λ h : Tcp_hdr, _).
  set (sum := h_checksum (decode_hdr (content v))).
  assert (f (decode_hdr (content v)) = set_h_checksum sum (ack_segment s seq rst)) as Ef
    by (unfold f, sum; by destruct rst).
  eapply wp_first_hdr; [exact Ho1| |].
  { rewrite Ef. destruct Hdec. split; try done; try (cbn; lia). apply (wrap_range 16). lia. }
  intros v2 pk2 U2 Hs2 R2 _. rewrite Ef in Hs2.
  assert (drop 20 (content v) = []) as Edr by (apply drop_ge; lia). rewrite Edr in Hs2.
  eapply send_out_hands_over; [exact Hs2|done|done|cbn; lia|].
  intros v3 pk3 U3 R3 Hv3. exists v3, pk3. split_and!; [done| |].
  - eapply new_updated; [|exact U3|done]. by eapply new_updated.
  - by eapply valid_any_checksum.
Qed.
End send.

(** ** Both ways *)

Lemma swap_hdr_swap h : hdr_ok h → swap_hdr (swap_hdr h) = h.
Proof.
  intros []. destruct h; cbn in *. unfold swap_hdr, x_htons, x_htonl.
  cbn -[swap_u16 swap_u32].
  assert (∀ x, 0 ≤ x < 2 ^ 16 → swap_u16 (swap_u16 x) = x) as H16
    by (intros x Hx; by destruct (swap_involutive x 0 Hx)).
  assert (∀ x, 0 ≤ x < 2 ^ 32 → swap_u32 (swap_u32 x) = x) as H32
    by (intros x Hx; by destruct (swap_involutive 0 x)).
  by rewrite !H16, !H32.
Qed.

Lemma swap_set_checksum c h : swap_hdr (set_h_checksum c h) = set_h_checksum c (swap_hdr h).
Proof. by destruct h. Qed.

(** C34: a header converted and stored is the header of RFC 793 on the wire, and
    what the receiver loads from there and converts is the header sent, whatever
    follows it *)
Theorem tcp_hdr_roundtrip h c rest :
  hdr_ok h → 0 ≤ c < 2 ^ 16 →
  encode_hdr (set_h_checksum c (swap_hdr h)) = wire_hdr h c ∧
  swap_hdr (decode_hdr (wire_hdr h c ++ rest)) = set_h_checksum c h.
Proof.
  intros Hh Hc. pose proof (encode_swap h c Hh) as E. split; [done|].
  rewrite <- E, decode_encode by (apply set_checksum_ok; [by apply swap_hdr_ok|done]).
  by rewrite swap_set_checksum, swap_hdr_swap.
Qed.

(** A SYN from port 2000 to port 80. *)
Lemma tcp_hdr_roundtrip_witness :
  let h := mk_hdr 2000 80 305419896 0 0 5 false true false false false false false false 8192 0 0 in
  encode_hdr (set_h_checksum 7 (swap_hdr h)) =
    [7; 208; 0; 80; 18; 52; 86; 120; 0; 0; 0; 0; 80; 2; 32; 0; 7; 0; 0; 0] ∧
  swap_hdr (decode_hdr ([7; 208; 0; 80; 18; 52; 86; 120; 0; 0; 0; 0; 80; 2; 32; 0; 7; 0; 0; 0]
    ++ [1; 2; 3])) = set_h_checksum 7 h.
Proof.
  intros h. apply (tcp_hdr_roundtrip h 7 [1; 2; 3]); [by split|done].
Defined.
