(* ===== verification/TcpSend.v ===== *)
(** * What the stack sends

    The segments built by [net/tcp_out.c], byte for byte as they reach the IP
    layer: acknowledgements, resets and data; and how much a connection may send
    at a time. *)
From S2P Require Import Prelude Errors PacketIO Nettool ListH Ipaddr Pktbuf PktbufOps PktbufCursor PktbufSpec PktMem TcpBuf NetTypes NetState Sock TcpOut NetDemo TcpWp TcpWire.

(** An update of the flags of a socket's connection. *)
Definition on_sk_tcp_flags (f : Tcp_flags → Tcp_flags) (s : Socket) : Socket :=
  on_tcp (on_flags f) s.

Section send.
Context {E : Type} `{NE : !NetEnv E} `{K : !Kmalloc} `{KO : !KmallocOk}.
Implicit Types (w : netw E) (t sg : Z).

(** ** Reset *)

(** RFC 793, page 36: the number comes from the acknowledgement of the segment,
    or is zero and the segment is acknowledged. *)
Definition reset_segment (seg : Tcp_seg) : Tcp_hdr :=
  let h := sg_hdr seg in
  if h_fack h then mk_hdr (h_dport h) (h_sport h) (h_ack h) 0 0 5
    false false true false false false false false 0 0 0
  else mk_hdr (h_dport h) (h_sport h) 0 (u32 (h_seq h + sg_seq_len seg)) 0 5
    false false true false true false false false 0 0 0.

Lemma reset_segment_ok seg : hdr_ok (sg_hdr seg) → hdr_ok (reset_segment seg).
Proof.
  intros []. unfold reset_segment. pose proof (wrap_range 32 (h_seq (sg_hdr seg) + sg_seq_len seg)).
  destruct (h_fack _); split; cbn -[Z.pow wrap]; try done; lia.
Qed.

(** C29: a segment with RST is never answered; any other is answered by the reset
    of RFC 793, back to where it came from, with a valid checksum *)
Theorem tcp_send_reset_spec sg seg w :
  n_segs w !! sg = Some seg → hdr_ok (sg_hdr seg) → addr_ok (sg_remote_ip seg) →
  addr_ok (sg_local_ip seg) → can_send (n_pk w) SIZEOF_TCP_HDR →
  if h_rst (sg_hdr seg) then tcp_send_reset sg w = Ok (NET_OK, w)
  else ∃ w', segment_ready w (brk (n_pk w)) (sg_remote_ip seg) (sg_local_ip seg)
         (reset_segment seg) [] w' ∧
       tcp_send_reset sg w = hand_over (brk (n_pk w)) (sg_remote_ip seg) (sg_local_ip seg) w'.
Proof.
  intros Hsg Hh Hrem Hloc Hcs. destruct (h_rst (sg_hdr seg)) eqn:Er.
  { apply wp_result. unfold tcp_send_reset. apply wp_bind. eapply wp_get_seg; [done|].
    by rewrite Er. }
  change (goes_on (tcp_send_reset sg) w
    (hand_over (brk (n_pk w)) (sg_remote_ip seg) (sg_local_ip seg))
    (segment_ready w (brk (n_pk w)) (sg_remote_ip seg) (sg_local_ip seg) (reset_segment seg) [])).
  unfold tcp_send_reset. apply goes_on_bind. eapply wp_get_seg; [done|]. cbv zeta. rewrite Er.
  apply goes_on_bind, wp_on_pk. eapply wp_new_packet; [done|].
  intros v p pk1 Hn1 Ho1 Hl1 _ _. pose proof (cs_addr _ _ Hcs).
  destruct (Z.eqb_spec (brk (n_pk w)) 0); [lia|].
  apply goes_on_bind, wp_on_pk. eapply wp_hdr_ptr; [exact Ho1|].
  pose proof (owned_decode _ _ _ _ Ho1) as Hdec.
  apply goes_on_bind, wp_on_pk. eapply wp_first_hdr; [exact Ho1| |].
  { auto 10 with hdr. }
  assert (drop 20 (content v) = []) as -> by (apply drop_ge; lia).
  intros v2 pk2 U2 Hs2 R2 _. set (h2 := set_h_rst true _) in Hs2.
  pose proof (reset_segment_ok seg Hh) as Hres.
  apply goes_on_bind, wp_on_pk. eapply wp_upd_seg_hdr; [exact Hs2| |].
  { pose proof (sb_ok _ _ _ _ _ _ Hs2). destruct (h_fack (sg_hdr seg)); auto 10 with hdr. }
  intros v3 pk3 U3 Hs3 R3 _.
  apply goes_on_bind, wp_on_pk. eapply wp_upd_seg_hdr; [exact Hs3| |].
  { pose proof (sb_ok _ _ _ _ _ _ Hs3). rewrite set_hdr_size_20. auto 10 with hdr. }
  intros v4 pk4 U4 Hs4 R4 _.
  match type of Hs4 with seg_buf _ _ _ _ ?h _ =>
    assert (h = set_h_checksum (h_checksum (decode_hdr (content v))) (reset_segment seg)) as Eh
      by (unfold h2, reset_segment; by destruct (h_fack (sg_hdr seg)))
  end.
  rewrite Eh in Hs4. eapply send_out_hands_over; [exact Hs4|done|done|cbn; lia|].
  intros v5 pk5 U5 R5 Hv5. exists v5, pk5. split_and!; [done| |].
  - do 4 (eapply new_updated; [|eassumption|done]). exact Hn1.
  - by eapply valid_any_checksum.
Qed.

(** ** Acknowledgements *)

(** What a segment of a connection needs. *)
Record conn_ok (s : Socket) : Prop := {
  co_ports : ports_ok s;
  co_remote : addr_ok (sk_remote_ip s);
  co_local : addr_ok (sk_local_ip s);
  co_nxt : 0 ≤ snd_nxt (sk_tcp s) < 2 ^ 32;
  co_una : 0 ≤ una (sk_tcp s) < 2 ^ 32;
  co_rcv_nxt : 0 ≤ rcv_nxt (sk_tcp s) < 2 ^ 32;
  co_snd : tbuf_ok (snd_buf (sk_tcp s));
  co_rcv : tbuf_ok (rcv_buf (sk_tcp s))
}.

Lemma ack_sends t s seq rst dest src w :
  n_socks w !! t = Some s → conn_ok s → can_send (n_pk w) SIZEOF_TCP_HDR →
  addr_ok dest → addr_ok src → 0 ≤ seq < 2 ^ 32 →
  goes_on (send_ack_hdr t seq rst dest src) w (hand_over (brk (n_pk w)) dest src)
    (segment_ready w (brk (n_pk w)) dest src (ack_segment s seq rst) []).
Proof.
  intros Hs [] Hcs Hd Hsr Hseq. apply send_ack_hdr_sends; try done.
  by destruct co_rcv0 as [_ _ [? ?] _ _ _].
Qed.

(** A keepalive acknowledges the peer's stream from the number before the next
    to send; the abort's reset is sent at the next number; an acknowledgement due
    at once goes out at the next number and clears the delay.  Each is one new
    packet with the header of RFC 793 and a valid checksum *)
Theorem tcp_acks_spec t s w :
  n_socks w !! t = Some s → conn_ok s → can_send (n_pk w) SIZEOF_TCP_HDR →
  let b := brk (n_pk w) in
  let dest := sk_remote_ip s in
  let src := sk_local_ip s in
  let nxt := snd_nxt (sk_tcp s) in
  let s' := on_sk_tcp_flags (set_fl_ACK_delay false) s in
  (∃ w', segment_ready w b dest src (ack_segment s (u32 (nxt - 1)) false) [] w' ∧
     tcp_send_keepalive t w = hand_over b dest src w') ∧
  (∃ w', segment_ready w b dest src (ack_segment s nxt true) [] w' ∧
     tcp_send_reset_for_tcp t w = hand_over b dest src w') ∧
  (fl_ACK_delay (tcp_flags (sk_tcp s)) = true →
     ∃ w', segment_ready (set_sock t s' w) b dest src (ack_segment s nxt false) [] w' ∧
       tcp_send_win_update t w = hand_over b dest src w').
Proof.
  intros Hs Hok Hcs b dest src nxt s'. pose proof Hok as [].
  split_and!.
  - change (goes_on (tcp_send_keepalive t) w (hand_over b dest src)
      (segment_ready w b dest src (ack_segment s (u32 (nxt - 1)) false) [])).
    unfold tcp_send_keepalive. apply goes_on_bind. eapply wp_get_sk; [done|].
    apply goes_on_bind. eapply wp_get_tcp; [done|]. apply ack_sends; try done. apply ok_u32.
  - change (goes_on (tcp_send_reset_for_tcp t) w (hand_over b dest src)
      (segment_ready w b dest src (ack_segment s nxt true) [])).
    unfold tcp_send_reset_for_tcp. apply goes_on_bind. eapply wp_get_sk; [done|].
    apply goes_on_bind. eapply wp_get_tcp; [done|]. by apply ack_sends.
  - intros Hd. change (goes_on (tcp_send_win_update t) w (hand_over b dest src)
      (segment_ready (set_sock t s' w) b dest src (ack_segment s nxt false) [])).
    unfold tcp_send_win_update. apply goes_on_bind. unfold delay_ack.
    apply wp_bind. eapply wp_get_tcp; [done|]. rewrite Hd, wp_ret.
    apply goes_on_bind. eapply wp_upd_tcp; [done|].
    apply goes_on_bind. eapply wp_get_sk; [by rewrite lookup_set_sock|].
    apply goes_on_bind. eapply wp_get_tcp; [by rewrite lookup_set_sock|].
    change (ack_segment s nxt false) with (ack_segment s' nxt false).
    apply (ack_sends t s'); [by rewrite lookup_set_sock| |done..]. by split.
Qed.

(** ** How much to send *)

(** What the peer has not acknowledged yet. *)
Definition in_flight (v : Tcp) : Z := u32 (snd_nxt v - una v).

(** The window, the MSS and the comparison of the numbers are in range. *)
Record snd_ok (v : Tcp) : Prop := {
  so_buf : tbuf_ok (snd_buf v);
  so_win : 0 ≤ sd_win (tcp_snd v) < 2 ^ 32;
  so_cwin : 0 ≤ sd_cwin (tcp_snd v) < 2 ^ 32;
  so_mss : 0 ≤ tcp_mss v ≤ 65535 - 40;       (* an IP packet less the headers *)
  so_seq : TCP_SEQ_LT (snd_nxt v) (una v) = Ok false
}.

Lemma s64_u64_small x : - 2 ^ 62 ≤ x < 2 ^ 62 → s64 (u64 x) = x.
Proof.
  intros Hx. rewrite sint_wrap. unfold sint. change (64 - 1) with 63. rewrite Z.mod_small; lia.
Qed.

(** The data after what is in flight, cut to the MSS and the smaller window. *)
Definition send_len (v : Tcp) (doff : Z) : Z :=
  Z.min (Z.min (tcp_mss v) (tb_count (snd_buf v) - doff)) (usable_win (tcp_snd v) - doff).

Lemma wp_send_info t s w (Q : option (Z * Z) → netw E → Prop) :
  n_socks w !! t = Some s → snd_ok (sk_tcp s) →
  let v := sk_tcp s in
  let doff := if syn_out v then 0 else in_flight v in
  Q (Some (doff, if sd_win (tcp_snd v) =? 0 then 1 else send_len v doff)) w →
  wp (get_send_info t false false) w Q.
Proof.
  intros Hs [Hb Hw Hcw Hm Hseq] v doff HQ. unfold get_send_info.
  apply wp_bind. eapply wp_get_tcp; [done|]. fold v.
  apply wp_bind. eapply wp_of_ok; [exact Hseq|]. fold v.
  change (if syn_out v then 0 else u32 (snd_nxt v - una v)) with doff.
  destruct (Z.eqb_spec (sd_win (tcp_snd v)) 0) as [E0|E0]; [by rewrite wp_ret|].
  assert (0 ≤ doff < 2 ^ 32) as Hd.
  { unfold doff. destruct (syn_out v); [lia|apply ok_u32]. }
  assert (0 ≤ usable_win (tcp_snd v) < 2 ^ 32) as Hu by (unfold usable_win; zcases; done).
  destruct Hb as [Hb1 _ Hb2 _ _ _]. fold v in Hb1, Hb2, Hm. unfold tcp_buf_cnt.
  rewrite s64_u64_small by lia. unfold send_len in HQ. set (win := usable_win (tcp_snd v)) in *.
  set (cnt := tb_count (snd_buf v)) in *. set (mss := tcp_mss v) in *.
  set (l := if mss <? cnt - doff then mss else cnt - doff).
  assert (l = Z.min mss (cnt - doff)) as El by (unfold l; zcases; lia).
  rewrite (wrap_small 64 (l + doff)), (s64_u64_small (win - doff)), wp_ret by lia.
  rewrite <- El in HQ. destruct (Z.ltb_spec win (l + doff)).
  - by rewrite Z.min_r in HQ by lia.
  - by rewrite Z.min_l in HQ by lia.
Qed.

(** C32: with the window open, what is chosen for a new segment is in the buffer,
    not longer than the MSS, and ends in the smaller of the peer's and the
    congestion window; a closed window is probed with one byte *)
Theorem get_send_info_bounds t s w :
  n_socks w !! t = Some s → snd_ok (sk_tcp s) →
  ∃ doff dlen, get_send_info t false false w = Ok (Some (doff, dlen), w) ∧ 0 ≤ doff < 2 ^ 32 ∧
    let v := sk_tcp s in
    (sd_win (tcp_snd v) = 0 → dlen = 1) ∧
    (sd_win (tcp_snd v) ≠ 0 → 0 < dlen →
       dlen ≤ tcp_mss v ∧ doff + dlen ≤ tb_count (snd_buf v) ∧
       doff + dlen ≤ sd_win (tcp_snd v) ∧ doff + dlen ≤ sd_cwin (tcp_snd v)).
Proof.
  intros Hs Hok.
  assert (wp (get_send_info t false false) w (λ r w', w' = w ∧ ∃ doff dlen,
    r = Some (doff, dlen) ∧ 0 ≤ doff < 2 ^ 32 ∧
    let v := sk_tcp s in
    (sd_win (tcp_snd v) = 0 → dlen = 1) ∧
    (sd_win (tcp_snd v) ≠ 0 → 0 < dlen →
       dlen ≤ tcp_mss v ∧ doff + dlen ≤ tb_count (snd_buf v) ∧
       doff + dlen ≤ sd_win (tcp_snd v) ∧ doff + dlen ≤ sd_cwin (tcp_snd v))))
    as (r & w' & E1 & -> & doff & dlen & -> & H)%wp_run; [|by exists doff, dlen].
  eapply wp_send_info; [done..|]. split; [done|]. do 2 eexists. split; [reflexivity|].
  split; [destruct (syn_out _); [lia|apply ok_u32]|]. cbv zeta.
  destruct (Z.eqb_spec (sd_win (tcp_snd (sk_tcp s))) 0) as [E0|E0]; [by split|].
  split; [done|]. intros _ _. set (d := if syn_out _ then _ else _).
  assert (usable_win (tcp_snd (sk_tcp s)) ≤ sd_win (tcp_snd (sk_tcp s)) ∧
    usable_win (tcp_snd (sk_tcp s)) ≤ sd_cwin (tcp_snd (sk_tcp s))) by (unfold usable_win; zcases; lia).
  unfold send_len. lia.
Qed.

(** ** Data *)

Definition data_segment (s : Socket) : Tcp_hdr :=
  let v := sk_tcp s in
  mk_hdr (sk_local_port s) (sk_remote_port s) (snd_nxt v) (rcv_nxt v) 0 5
    false false false false (fl_irs_valid (tcp_flags v)) false false false
    (u16 (tb_size (rcv_buf v) - tb_count (rcv_buf v))) 0 0.

Lemma seg_first (pk : pworld) b v p h data :
  owns pk b v p → content v = encode_hdr h ++ data → hdr_ok h → seg_buf pk b v p h data.
Proof. by split. Qed.

Lemma seg_mem pk b v p h data v' pk' :
  seg_buf pk b v p h data → updated pk b v' pk' → total_size v' = total_size v →
  mem_size (phead pk') = mem_size (phead pk).
Proof.
  intros [([Hw Hb] & _) _ _] Hup Ht. rewrite (updated_mem _ _ _ _ _ Hw Hb Hup). lia.
Qed.

(** The header of a data segment is written into a new packet. *)
Lemma wp_open_segment t s w (Q : bptr * Z → netw E → Prop) :
  n_socks w !! t = Some s → conn_ok s → syn_out (sk_tcp s) = false →
  0 < tb_count (snd_buf (sk_tcp s)) → can_send (n_pk w) SIZEOF_TCP_HDR →
  (∀ p v pk', new_packet (n_pk w) pk' (brk (n_pk w)) v →
     seg_buf pk' (brk (n_pk w)) v p (data_segment s) [] → total_size v = 20 →
     mem_size (phead pk') = mem_size (phead (n_pk w)) + SIZEOF_TCP_HDR →
     max_mem_size (phead pk') = max_mem_size (phead (n_pk w)) →
     Q (p, brk (n_pk w)) (with_pk pk' w)) →
  wp (open_segment t (snd_nxt (sk_tcp s))) w Q.
Proof.
  intros Hs Hok Hsyn Hcnt Hcs HQ. pose proof Hok as [[Hlp Hrp] _ _ Hnxt _ Hrn _ Hrb].
  unfold open_segment. apply wp_bind. eapply wp_get_sk; [exact Hs|].
  apply wp_bind, wp_on_pk. eapply wp_new_packet; [done|].
  intros v0 p pk0 Hn0 Ho0 Hl0 Hm0 Hx0. pose proof (cs_addr _ _ Hcs).
  destruct (Z.eqb_spec (brk (n_pk w)) 0); [lia|].
  apply wp_bind, wp_on_pk. eapply wp_hdr_ptr; [exact Ho0|].
  assert (hdr_ok zero_hdr) as Hz by (split; done).
  apply wp_bind, wp_on_pk. eapply wp_hdr_store; [exact Ho0|].
  intros v1 pk1 U1 Hat1 R1 T1 Ec1.
  assert (drop 20 (content v0) = []) as Edr by (apply drop_ge; lia). rewrite Edr in Ec1.
  pose proof (seg_first _ _ _ _ _ _ (owns_updated _ _ _ _ _ _ U1 Hat1) Ec1 Hz) as Hs1.
  apply wp_bind. eapply wp_get_tcp; [exact Hs|]. rewrite Hsyn.
  apply wp_bind, wp_on_pk. eapply wp_upd_seg_hdr; [exact Hs1|auto 10 with hdr|].
  intros v2 pk2 U2 Hs2 R2 T2.
  apply wp_bind, wp_on_pk. eapply wp_load_seg; [exact Hs2|].
  match goal with |- context [h_syn ?h] => change (h_syn h) with false end.
  apply wp_bind. rewrite wp_ret. apply wp_bind.
  unfold tcp_rcv_window. apply wp_bind. eapply wp_get_tcp; [exact Hs|].
  unfold tcp_buf_free_cnt. destruct Hrb as [_ _ [_ Hrle] _ _ _].
  rewrite wp_bind, wp_assert. split; [by apply Z.leb_le|]. rewrite wp_ret.
  pose proof Hs2 as [([Hw2 Hb2] & _) Ec2 Hh2].
  assert (total_size v2 = 20) as Ht2.
  { rewrite (buf_total _ _ (wf_bufs _ Hw2 _ _ Hb2)), Ec2. by rewrite app_nil_r, encode_length. }
  apply wp_bind, wp_on_pk. eapply wp_get_buf; [exact Hb2|]. rewrite Ht2.
  unfold tcp_buf_cnt. destruct (Z.eqb_spec (tb_count (snd_buf (sk_tcp s))) 0); [lia|].
  apply wp_bind, wp_on_pk. eapply wp_upd_seg_hdr; [exact Hs2| |].
  { change 20 with SIZEOF_TCP_HDR. rewrite set_hdr_size_20. auto 10 with hdr. }
  intros v3 pk3 U3 Hs3 R3 T3. rewrite wp_ret.
  apply (HQ p v3 pk3).
  - do 3 (eapply new_updated; [|eassumption|done]). exact Hn0.
  - exact Hs3.
  - by rewrite T3.
  - rewrite (seg_mem _ _ _ _ _ _ _ _ Hs2 U3 T3), (seg_mem _ _ _ _ _ _ _ _ Hs1 U2 T2).
    destruct Ho0 as ([Hw0 Hb0] & _). rewrite (updated_mem _ _ _ _ _ Hw0 Hb0 U1). lia.
  - destruct U1 as (_ & _ & _ & X1), U2 as (_ & _ & _ & X2), U3 as (_ & _ & _ & X3).
    exact (eq_trans X3 (eq_trans X2 (eq_trans X1 Hx0))).
Qed.

(** A stream operation of a connection's buffer, together with the packets. *)
Lemma wp_on_stream {A} get put t (m : M (Tcp_buf * pworld) A) s w (Q : A → netw E → Prop) :
  n_socks w !! t = Some s →
  wp m (get (sk_tcp s), n_pk w) (λ a bp,
    Q a (set_sock t (set_sk_tcp (put bp.1 (sk_tcp s)) s) (with_pk bp.2 w))) →
  wp (on_stream get put t m) w Q.
Proof.
  intros Hs (a & [b pk] & E1 & HQ)%wp_run. unfold on_stream.
  apply wp_bind. eapply wp_get_tcp; [exact Hs|]. apply wp_bind, wp_on_pk.
  apply (wp_of_run _ _ (a, b) pk).
  { by rewrite E1. }
  apply wp_bind. eapply wp_upd_tcp; [exact Hs|]. by rewrite wp_ret.
Qed.

Lemma put_snd_buf_id s : set_sk_tcp (put_snd_buf (snd_buf (sk_tcp s)) (sk_tcp s)) s = s.
Proof. by destruct s as [[? ? ? ? ? [] ?]]. Qed.

(** The data goes behind the header. *)
Lemma wp_copy_send_data t b p h v s doff dlen w (Q : Z → netw E → Prop) :
  n_socks w !! t = Some s → seg_buf (n_pk w) b v p h [] → h_shdr h = 5 →
  tbuf_ok (snd_buf (sk_tcp s)) → 0 ≤ doff → 0 < dlen →
  doff + dlen ≤ tb_count (snd_buf (sk_tcp s)) → dlen < 2 ^ 32 →
  mem_size (phead (n_pk w)) + dlen ≤ max_mem_size (phead (n_pk w)) →
  (∀ v' pk', updated (n_pk w) b v' pk' → ref v' = ref v →
     seg_buf pk' b v' p h (slice (queue (snd_buf (sk_tcp s))) doff dlen) →
     Q dlen (with_pk pk' w)) →
  wp (copy_send_data t b doff dlen) w Q.
Proof.
  intros Hs Hsb Hsh Hbuf Hd0 Hl0 Hle Hl32 Hmem HQ.
  pose proof Hsb as [([Hw Hb] & Hat) Ec Hh]. pose proof Hbuf as [? _ ? _ _ _].
  assert (total_size v = 20) as Ht.
  { by rewrite (buf_total _ _ (wf_bufs _ Hw _ _ Hb)), Ec, app_nil_r, encode_length. }
  unfold copy_send_data. destruct (Z.eqb_spec dlen 0); [lia|].
  apply wp_bind. eapply wp_get_tcp; [exact Hs|]. cbv zeta.
  rewrite (wrap_small 64 (_ - doff)) by lia.
  destruct (Z.leb_spec dlen (tb_count (snd_buf (sk_tcp s)) - doff)); [|lia].
  destruct (Z.eqb_spec dlen 0); [lia|].
  apply wp_bind, wp_on_pk. eapply wp_get_buf; [exact Hb|]. rewrite Ht.
  rewrite (wrap_small 64 (20 + dlen)) by lia.
  apply wp_bind, wp_on_pk.
  eapply wp_resize_grow; [exact Hw|exact Hb|lia|cbn; rewrite Ht; lia|].
  intros v1 pk1 extra U1 Ec1 El1 R1 Hk1. cbn [Z.ltb Z.compare NET_OK].
  pose proof (header_grown _ _ _ _ _ Hat Hk1) as Hat1.
  pose proof (owns_updated _ _ _ _ _ _ U1 Hat1) as Ho1.
  rewrite Ec, app_nil_r in Ec1.
  pose proof (seg_first _ _ _ _ _ _ Ho1 Ec1 Hh) as Hs1.
  apply wp_bind, wp_on_pk. eapply wp_hdr_ptr; [exact Ho1|].
  apply wp_bind, wp_on_pk. eapply wp_load_seg; [exact Hs1|].
  unfold tcp_hdr_size. rewrite Hsh. change (5 * 4) with 20.
  pose proof Ho1 as ([Hw1 Hb1] & _).
  apply wp_bind, wp_on_pk. eapply wp_reset_acc; [exact Hw1|exact Hb1|]. intros pk2 U2.
  destruct (cursor_reset v1 (buf_chain _ _ (wf_bufs _ Hw1 _ _ Hb1))) as (Hc2 & Ep2 & Ec2).
  pose proof U2 as (Hw2 & Eb2 & _).
  assert (bufs pk2 !! b = Some (cursor_start v1)) as Hb2 by (rewrite Eb2; by rewrite lookup_insert_eq).
  destruct (cursor_start_blks v1) as (Ebl2 & Et2 & Er2 & _).
  assert (total_size v1 = 20 + dlen) as Ht1.
  { by rewrite (buf_total _ _ (wf_bufs _ Hw1 _ _ Hb1)), El1. }
  apply wp_bind, wp_on_pk. eapply (wp_seek b pk2 (cursor_start v1) Hw2 Hb2 Hc2).
  unfold seek_code. rewrite Ep2, Et2, Ht1. change (0 =? 20) with false.
  destruct (Z.leb_spec (20 + dlen) 20); [lia|]. cbn [Z.ltb Z.compare orb Z.eqb NET_OK].
  intros v3 pk3 U3 L3 Ec3 Ep3. set (c := encode_hdr h ++ extra) in *.
  assert (content v3 = c) as Ec3' by (by rewrite Ec3, Ec2).
  apply wp_bind. eapply wp_on_stream; [exact Hs|].
  pose proof (pktbuf_from_laws b pk2 (cursor_start v1)) as Laws.
  assert (zlen c = 20 + dlen) as Ecl by (rewrite Ec1 in El1; exact El1).
  eapply (wp_read_send (pktbuf_from b pk2 (cursor_start v1)) _ _ c 20);
    [exact Hbuf| |lia|lia|lia|].
  { exists v3. split_and!; [exact U3|exact L3|]. unfold flat_of. by rewrite Ec3', Ep3. }
  rewrite (Z.min_l dlen) by lia. intros pk4 (v4 & U4 & L4 & [= Ec4 Ep4]). rewrite wp_ret.
  cbn [fst snd]. rewrite put_snd_buf_id, set_sock_id by exact Hs.
  assert (header_at b v4 p) as Hat4.
  { eapply header_windows; [exact Hat1|]. by rewrite (like_windows _ _ L4), Ebl2. }
  apply (HQ v4 pk4).
  - do 2 (eapply updated_trans; [eassumption|]). exact U4.
  - rewrite (like_ref _ _ L4). congruence.
  - split; [by eapply owns_updated| |done]. rewrite Ec4. unfold splice, c.
    rewrite take_app_length' by done.
    rewrite drop_ge, app_nil_r; [done|]. fold c.
    pose proof (queue_length _ Hbuf). pose proof (slice_length (queue (snd_buf (sk_tcp s))) doff dlen).
    lia.
Qed.

(** The connection after [n] more bytes are sent. *)
Definition sent (n : Z) (s : Socket) : Socket :=
  on_tcp (on_snd (λ d, set_sd_nxt (u32 (sd_nxt d + n)) d)) s.

(** C2: a connection with data to send and an open window sends one segment: the
    header of RFC 793 from its state, then exactly the bytes of its stream that
    follow what is in flight, with a valid checksum; and the next number moves
    past them *)
Theorem tcp_transmit_spec t s w :
  n_socks w !! t = Some s → conn_ok s → snd_ok (sk_tcp s) →
  let v := sk_tcp s in
  let doff := in_flight v in
  let dlen := send_len v doff in
  sd_win (tcp_snd v) ≠ 0 → syn_out v = false → 0 < dlen → tcp_do_output_nagle v dlen = true →
  can_send (n_pk w) (SIZEOF_TCP_HDR + dlen) →
  let b := brk (n_pk w) in
  ∃ w', segment_ready (set_sock t (sent dlen s) w) b (sk_remote_ip s) (sk_local_ip s)
         (data_segment s) (slice (queue (snd_buf v)) doff dlen) w' ∧
       tcp_transmit t w = hand_over b (sk_remote_ip s) (sk_local_ip s) w'.
Proof.
  intros Hs Hok Hsnd v doff dlen Hwin Hsyn Hlen Hnag Hcs b.
  change (goes_on (tcp_transmit t) w (hand_over b (sk_remote_ip s) (sk_local_ip s))
    (segment_ready (set_sock t (sent dlen s) w) b (sk_remote_ip s) (sk_local_ip s)
         (data_segment s) (slice (queue (snd_buf v)) doff dlen))).
  assert (0 ≤ doff < 2 ^ 32) as Hd by apply ok_u32.
  assert (dlen ≤ tcp_mss v ∧ doff + dlen ≤ tb_count (snd_buf v)) as [Hmss Hcnt]
    by (unfold dlen, send_len; lia).
  pose proof (so_mss _ Hsnd) as Hm. fold v in Hm.
  unfold tcp_transmit. apply goes_on_bind. eapply wp_send_info; [done..|].
  fold v. rewrite Hsyn. destruct (Z.eqb_spec (sd_win (tcp_snd v)) 0); [done|].
  fold doff dlen. cbn [of_option]. apply goes_on_bind. rewrite wp_ret.
  apply goes_on_bind. eapply wp_get_tcp; [done|]. fold v. rewrite Hnag, Hsyn.
  destruct (Z.ltb_spec dlen 0); [lia|]. cbn [negb orb]. unfold tcp_buf_cnt.
  destruct (Z.eqb_spec (tb_count (snd_buf v)) 0); [lia|]. cbn [andb Z.b2z]. rewrite Z.add_0_r.
  destruct (Z.eqb_spec dlen 0); [lia|].
  destruct Hcs as [Hcw Hca Hcr]. unfold SIZEOF_TCP_HDR in Hcr.
  apply goes_on_bind. eapply wp_open_segment; [done|done|done|fold v; lia| |].
  { split; [done..|]. unfold SIZEOF_TCP_HDR. lia. }
  intros p v1 pk1 N1 Hs1 T1 M1 X1. fold b. destruct (Z.eqb_spec b 0); [unfold b in *; lia|].
  apply goes_on_bind. eapply (wp_copy_send_data t b p _ v1 s doff dlen);
    [done|exact Hs1|done|by apply Hok|lia|lia|done|lia| |].
  { cbn. rewrite M1, X1. unfold SIZEOF_TCP_HDR. lia. }
  intros v2 pk2 U2 R2 Hs2.
  apply goes_on_bind, wp_on_pk. eapply wp_load_seg; [exact Hs2|].
  apply goes_on_bind. eapply wp_upd_tcp; [exact Hs|].
  match goal with |- context [Z.b2z (h_syn ?h)] => change (Z.b2z (h_syn h)) with 0;
    change (Z.b2z (h_fin h)) with 0 end.
  apply goes_on_bind. eapply wp_get_sk; [by rewrite lookup_set_sock|].
  pose proof (slice_length (queue (snd_buf v)) doff dlen) as Hsl.
  pose proof (queue_length _ (co_snd _ Hok)) as Hql. fold v in Hql.
  eapply send_out_hands_over; [exact Hs2|apply Hok|apply Hok|fold v; lia|].
  intros v3 pk3 U3 R3 Hv3. exists v3, pk3. split_and!; [|..|exact Hv3].
  - unfold sent, on_tcp, on_snd. cbn. by rewrite !Z.add_0_r.
  - do 2 (eapply new_updated; [|eassumption|done]). exact N1.
Qed.
End send.

(** ** Concrete segments *)

Lemma demo_can_send n : 0 ≤ n ≤ 1000 → can_send demo_pk n.
Proof.
  intros Hn. split; [apply demo_pk_wf|done|].
  assert (mem_size (phead demo_pk) = 0) as -> by done.
  assert (1000 ≤ max_mem_size (phead demo_pk)) by by vm_compute. lia.
Qed.

Lemma demo_addr_ok : addr_ok demo_local ∧ addr_ok demo_remote.
Proof.
  split; (split; [done|]); vm_compute a_addr; forall_elems; by unfold is_byte.
Qed.

Lemma demo_conn_ok st : conn_ok (demo_sock st).
Proof.
  split; try done.
  - apply demo_addr_ok.
  - apply demo_addr_ok.
  - apply demo_buf_ok; [cbn; forall_elems; unfold is_byte; lia|done].
  - apply demo_buf_ok; [constructor|done].
Qed.

(** The SYN of a connection nobody listens for. *)
Lemma tcp_send_reset_spec_witness :
  let seg := demo_seg false true false false 0 in
  let w := demo_net TCP_STATE_ESTABLISHED seg in
  ∃ w', segment_ready w 100 demo_remote demo_local (reset_segment seg) [] w' ∧
    tcp_send_reset 9 w = hand_over 100 demo_remote demo_local w'.
Proof.
  intros seg w. apply (tcp_send_reset_spec 9 seg w); [done|by split| | |].
  - apply demo_addr_ok.
  - apply demo_addr_ok.
  - apply demo_can_send. unfold SIZEOF_TCP_HDR. lia.
Defined.

Lemma tcp_acks_spec_witness :
  let s := demo_sock TCP_STATE_ESTABLISHED in
  let w := demo_net TCP_STATE_ESTABLISHED (demo_seg false false false true 5004) in
  (∃ w', segment_ready w 100 demo_remote demo_local (ack_segment s 5003 false) [] w' ∧
     tcp_send_keepalive 1 w = hand_over 100 demo_remote demo_local w') ∧
  (∃ w', segment_ready w 100 demo_remote demo_local (ack_segment s 5004 true) [] w' ∧
     tcp_send_reset_for_tcp 1 w = hand_over 100 demo_remote demo_local w').
Proof.
  intros s w. destruct (tcp_acks_spec 1 s w) as (H1 & H2 & _); [done|apply demo_conn_ok| |].
  - apply demo_can_send. unfold SIZEOF_TCP_HDR. lia.
  - split; [exact H1|exact H2].
Defined.

Lemma get_send_info_bounds_witness :
  let s := demo_sock TCP_STATE_ESTABLISHED in
  let w := demo_net TCP_STATE_ESTABLISHED (demo_seg false false false true 5004) in
  ∃ doff dlen, get_send_info 1 false false w = Ok (Some (doff, dlen), w) ∧ 0 ≤ doff < 2 ^ 32 ∧
    let v := sk_tcp s in
    (sd_win (tcp_snd v) = 0 → dlen = 1) ∧
    (sd_win (tcp_snd v) ≠ 0 → 0 < dlen →
       dlen ≤ tcp_mss v ∧ doff + dlen ≤ tb_count (snd_buf v) ∧
       doff + dlen ≤ sd_win (tcp_snd v) ∧ doff + dlen ≤ sd_cwin (tcp_snd v)).
Proof.
  intros s w. apply (get_send_info_bounds 1 s w); [done|]. split; try done.
  apply demo_buf_ok; [cbn; forall_elems; unfold is_byte; lia|done].
Defined.

(** Nothing in flight: the ten bytes go out. *)
Lemma tcp_transmit_spec_witness :
  let s := on_tcp (on_snd (set_sd_nxt 5000)) (demo_sock TCP_STATE_ESTABLISHED) in
  let w := set_sock 1 s (demo_net TCP_STATE_ESTABLISHED (demo_seg false false false true 5000)) in
  ∃ w', segment_ready (set_sock 1 (sent 10 s) w) 100 demo_remote demo_local
         (data_segment s) [1; 2; 3; 4; 5; 6; 7; 8; 9; 10] w' ∧
       tcp_transmit 1 w = hand_over 100 demo_remote demo_local w'.
Proof.
  intros s w. apply (tcp_transmit_spec 1 s w); try done.
  - destruct (demo_conn_ok TCP_STATE_ESTABLISHED). by split.
  - split; try done. apply demo_buf_ok; [cbn; forall_elems; unfold is_byte; lia|done].
  - apply demo_can_send. unfold SIZEOF_TCP_HDR. by vm_compute.
Defined.
