(* ===== verification/TcpFind.v ===== *)
(** * Finding connections and ports

    The walks of the list of connections: [tcp_find] against its specification,
    and [alloc_port]. *)
From S2P Require Import Prelude Errors PacketIO Nettool ListH Ipaddr Pktbuf PktbufOps PktbufCursor PktbufSpec PktMem TcpBuf NetTypes NetState Sock TcpOut Tcp NetDemo TcpWp.

(** ** [list_for_each] over a ring *)

Section find.
Context {E : Type} `{NE : !NetEnv E}.
Implicit Types w : netw E.

Lemma set_cells_id w : set_cells (n_cells w) w = w.
Proof. by destruct w. Qed.

Lemma wp_for_each {L A} hd es (body : L → Z → Net E (L + A)) (f : L → Z → L + A) w l
    (Q : L + A → netw E → Prop) :
  is_list (n_cells w) hd es →
  (∀ l le, le ∈ es → body l le w = Ok (f l le, w)) →
  Q (walk f es l) w → wp (list_for_each hd body l) w Q.
Proof.
  intros Hl Hb HQ. pose proof (is_list_size _ _ _ Hl) as Hsz. unfold list_for_each.
  eapply (wp_for_each_read (n_cells w)); [done| |done|lia|done|done].
  intros a b Hab. apply wp_result, wp_on_cells. eapply wp_list_next; [done|].
  by rewrite set_cells_id.
Qed.

(** ** The list of connections *)

(** The connections in [ss], every one a socket in use. *)
Record conns_ok (ss : list Z) w : Prop := {
  conns_list : is_list (n_cells w) tcp_list (map socket_link ss);
  conns_open s : s ∈ ss → s ≠ 0 ∧ ∃ v, n_socks w !! s = Some v ∧
    sk_opened v = true ∧ sk_type v = SOCK_TCP
}.

Definition sock_at w s : Socket := default zero_socket (n_socks w !! s).

Lemma sock_at_eq w s v : n_socks w !! s = Some v → sock_at w s = v.
Proof. intros H. unfold sock_at. by rewrite H. Qed.

Lemma le2socket_link s : le2socket (socket_link s) = s.
Proof. unfold le2socket, socket_link. rewrite Z.mul_comm. by apply Z.div_mul. Qed.

Lemma walk_links {L A} (f : L → Z → L + A) ss l :
  walk (λ l le, f l (le2socket le)) (map socket_link ss) l = walk f ss l.
Proof.
  revert l. induction ss as [|s ss IH]; intros l; cbn; [done|]. rewrite le2socket_link.
  destruct (f l s); [apply IH|done].
Qed.

Lemma wp_for_each_conn {L A} ss (body : L → Z → Net E (L + A)) (f : L → Z → L + A) w l
    (Q : L + A → netw E → Prop) :
  conns_ok ss w →
  (∀ l s, s ∈ ss → body l (socket_link s) w = Ok (f l s, w)) →
  Q (walk f ss l) w → wp (list_for_each tcp_list body l) w Q.
Proof.
  intros [Hl _] Hb HQ.
  eapply (wp_for_each _ (map socket_link ss) _ (λ l le, f l (le2socket le))); [done| |].
  - intros l' le (s & -> & Hs)%list_elem_of_fmap. rewrite le2socket_link. by apply Hb.
  - by rewrite walk_links.
Qed.

Lemma skop_run ss w s : conns_ok ss w → s ∈ ss → skop_info s w = Ok (s, w).
Proof.
  intros Hok Hs. destruct (conns_open _ _ Hok s Hs) as (H0 & v & Hv & Ho & Ht).
  apply wp_result. unfold skop_info. rewrite wp_bind, wp_assert. split.
  { by rewrite (proj2 (Z.eqb_neq s 0)). }
  apply wp_bind. eapply wp_get_sk; [exact Hv|]. rewrite wp_bind, wp_assert, Ho, Ht. done.
Qed.

(** ** Ports *)

Definition ports w (ss : list Z) : list Z := map (λ s, sk_local_port (sock_at w s)) ss.

Lemma wp_port_used ss port w (Q : bool → netw E → Prop) :
  conns_ok ss w → Q (bool_decide (port ∈ ports w ss)) w → wp (port_used port) w Q.
Proof.
  intros Hok HQ. unfold port_used. apply wp_bind.
  eapply (wp_for_each_conn ss _ (λ (_ : unit) s,
    if sk_local_port (sock_at w s) =? port then inr tt else inl tt)); [done| |].
  - intros l s Hs. destruct (conns_open _ _ Hok s Hs) as (_ & v & Hv & _).
    apply wp_result. rewrite le2socket_link. apply wp_bind. eapply wp_get_sk; [exact Hv|].
    rewrite wp_ret, (sock_at_eq _ _ _ Hv). done.
  - rewrite wp_ret.
    assert (match walk (λ (_ : unit) s, if sk_local_port (sock_at w s) =? port
        then inr tt else inl tt) ss tt with inr _ => true | inl _ => false end
      = bool_decide (port ∈ ports w ss)) as ->; [|done].
    unfold ports. clear. induction ss as [|s ss IH]; cbn [walk map].
    + by rewrite bool_decide_eq_false_2 by apply not_elem_of_nil.
    + destruct (Z.eqb_spec (sk_local_port (sock_at w s)) port) as [E1|E1].
      * rewrite bool_decide_eq_true_2; [done|]. subst. by left.
      * rewrite IH. apply bool_decide_ext. rewrite elem_of_cons. naive_solver.
Qed.

(** The port [k] places after [p], going round. *)
Definition port_after (p : Z) (k : Z) : Z :=
  NET_PORT_DYN_START + (p - NET_PORT_DYN_START + k) mod (NET_PORT_DYN_END - NET_PORT_DYN_START).

Definition dyn_port (p : Z) : Prop := NET_PORT_DYN_START ≤ p < NET_PORT_DYN_END.

Lemma port_after_0 p : dyn_port p → port_after p 0 = p.
Proof.
  unfold dyn_port, port_after, NET_PORT_DYN_START, NET_PORT_DYN_END. intros.
  rewrite Z.add_0_r, Z.mod_small; lia.
Qed.

Lemma port_after_dyn p k : dyn_port (port_after p k).
Proof.
  unfold dyn_port, port_after, NET_PORT_DYN_START, NET_PORT_DYN_END.
  pose proof (Z.mod_pos_bound (p - 1024 + k) (65535 - 1024)). lia.
Qed.

Lemma port_after_next p :
  dyn_port p → (if NET_PORT_DYN_END <=? p + 1 then NET_PORT_DYN_START else p + 1) = port_after p 1.
Proof.
  unfold dyn_port, port_after, NET_PORT_DYN_START, NET_PORT_DYN_END. intros.
  destruct (Z.leb_spec 65535 (p + 1)).
  - assert (p = 65534) as -> by lia. done.
  - rewrite Z.mod_small; lia.
Qed.

Lemma port_after_after p j k : port_after (port_after p j) k = port_after p (j + k).
Proof.
  unfold port_after, NET_PORT_DYN_START, NET_PORT_DYN_END.
  rewrite Z.add_simpl_l, Zplus_mod_idemp_l. do 2 f_equal. lia.
Qed.

Lemma wp_port_scan ss n p w (Q : option Z → netw E → Prop) :
  conns_ok ss w → dyn_port p →
  (∀ o, match o with
        | Some q => dyn_port q ∧ q ∉ ports w ss
        | None => ∀ k, 0 ≤ k < Z.of_nat n → port_after p k ∈ ports w ss
        end → Q o w) →
  wp (port_scan n p) w Q.
Proof.
  intros Hok. revert p Q. induction n as [|n IH]; intros p Q Hp HQ; cbn [port_scan].
  { rewrite wp_ret. apply HQ. lia. }
  apply wp_bind. eapply wp_port_used; [done|]. cbv zeta. rewrite port_after_next by done.
  destruct (bool_decide_reflect (p ∈ ports w ss)) as [Hin|Hin].
  - apply IH; [apply port_after_dyn|]. intros [q|] Ho; apply HQ; [done|].
    intros k Hk. destruct (decide (k = 0)) as [->|]; [by rewrite port_after_0|].
    replace k with (1 + (k - 1)) by lia. rewrite <- port_after_after. apply Ho. lia.
  - rewrite wp_ret. by apply HQ.
Qed.

(** Every port of the range is some number of places after [p]. *)
Lemma port_reached p q : dyn_port p → dyn_port q →
  ∃ k, 0 ≤ k < NET_PORT_DYN_END - NET_PORT_DYN_START ∧ port_after p k = q.
Proof.
  unfold dyn_port, port_after, NET_PORT_DYN_START, NET_PORT_DYN_END. intros.
  exists ((q - p) mod (65535 - 1024)). split; [apply Z.mod_pos_bound; lia|].
  rewrite Zplus_mod_idemp_r. replace (p - 1024 + (q - p)) with (q - 1024) by lia.
  rewrite Z.mod_small; lia.
Qed.

(** [alloc_port] returns a port of the dynamic range that no connection
    uses, and gives up only when every one of them is in use; it changes nothing
    but the generator of random numbers *)
Theorem alloc_port_spec ss w r e :
  conns_ok ss w → n_tcp_lock w = false → rand (n_env w) = Ok (r, e) → 0 ≤ r →
  ∃ p, alloc_port w = Ok (p, with_env e w) ∧
    ((dyn_port p ∧ p ∉ ports w ss) ∨ (p = -1 ∧ ∀ q, dyn_port q → q ∈ ports w ss)).
Proof.
  intros Hok Hlk Hr Hr0.
  assert (dyn_port (s32 (Z.rem r 1000 + NET_PORT_DYN_START))) as Hdyn.
  { unfold dyn_port, sint. change (32 - 1) with 31. rewrite Z.rem_mod_nonneg by lia.
    pose proof (Z.mod_pos_bound r 1000 ltac:(lia)).
    unfold NET_PORT_DYN_START, NET_PORT_DYN_END. rewrite Z.mod_small; lia. }
  assert (conns_ok ss (set_tcp_lock true (with_env e w))) as Hok'.
  { destruct Hok. by split. }
  assert (wp alloc_port w (λ p w', w' = with_env e w ∧
    ((dyn_port p ∧ p ∉ ports w ss) ∨ (p = -1 ∧ ∀ q, dyn_port q → q ∈ ports w ss))))
    as (p & w' & E1 & -> & H)%wp_run; [|by exists p].
  unfold alloc_port. apply wp_bind, wp_on_env. eapply wp_of_run; [exact Hr|]. cbv zeta.
  apply wp_bind. unfold acquire_tcp_list. rewrite wp_bind, wp_gets, wp_bind, wp_assert.
  split; [cbn; by rewrite Hlk|]. rewrite wp_modify.
  apply wp_bind. eapply wp_port_scan; [exact Hok'|done|].
  intros o Ho. apply wp_bind. unfold release_tcp_list.
  rewrite wp_bind, wp_gets, wp_bind, wp_assert. split; [done|]. rewrite wp_modify, wp_ret.
  split; [by destruct w; cbn in *; subst|]. change (ports (set_tcp_lock true (with_env e w)) ss) with (ports w ss) in Ho.
  destruct o as [q|]; cbn; [by left|]. right. split; [done|]. intros q Hq.
  destruct (port_reached _ q Hdyn Hq) as (k & Hk & <-). apply Ho.
  unfold NET_PORT_DYN_START, NET_PORT_DYN_END in *. lia.
Qed.

(** ** Connections *)

(** The first element with [p], else the last with [q], else [l]. *)
Definition pick {A} (p q : A → bool) (ss : list A) (l : A) : A + A :=
  match find p ss with
  | Some s => inr s
  | None => inl (default l (find q (rev ss)))
  end.

Lemma find_app {A} (p : A → bool) l1 l2 :
  find p (l1 ++ l2) = match find p l1 with Some x => Some x | None => find p l2 end.
Proof. induction l1 as [|x l1 IH]; cbn; [done|]. by destruct (p x). Qed.

Lemma walk_pick (p q : Z → bool) (f : Z → Z → Z + Z) ss l :
  (∀ l s, f l s = if p s then inr s else if q s then inl s else inl l) →
  walk f ss l = pick p q ss l.
Proof.
  intros Hf. revert l. unfold pick. induction ss as [|s ss IH]; intros l; [done|].
  cbn [walk find rev]. rewrite Hf, find_app. cbn [find].
  destruct (p s); [done|]. destruct (q s); rewrite IH; destruct (find p ss); try done;
    by destruct (find q (rev ss)).
Qed.

(** What a socket must be for a segment from [rip:rport] to [lip:lport]. *)
Definition from_peer (lport rip rport : Z) (v : Socket) : bool :=
  (sk_local_port v =? lport) && (sk_remote_ip v =? rip) && (sk_remote_port v =? rport).
Definition listens (lport : Z) (v : Socket) : bool :=
  bool_decide (tcp_state (sk_tcp v) = TCP_STATE_LISTEN) && (sk_local_port v =? lport).
Definition bound_to (lip : Z) (v : Socket) : bool := sk_local_ip v =? lip.
Definition bound_to_any (v : Socket) : bool := sk_local_ip v =? 0.

(** The connection with the peer, at this address before at any; failing that,
    the listener, in the same order; failing that, none. *)
Definition find_spec w ss (lip lport rip rport : Z) : Z :=
  let has (p : Socket → bool) (s : Z) := p (sock_at w s) in
  match pick (has (λ v, from_peer lport rip rport v && bound_to lip v))
          (has (λ v, from_peer lport rip rport v && bound_to_any v)) ss 0 with
  | inr s => s
  | inl s =>
      if negb (s =? 0) then s else
      match pick (has (λ v, listens lport v && bound_to lip v))
              (has (λ v, listens lport v && bound_to_any v)) ss 0 with
      | inr s | inl s => s
      end
  end.

Lemma wp_find_connected ss lip lport rip rport w (Q : Z + Z → netw E → Prop) :
  conns_ok ss w →
  Q (pick (λ s, from_peer lport rip rport (sock_at w s) && bound_to lip (sock_at w s))
       (λ s, from_peer lport rip rport (sock_at w s) && bound_to_any (sock_at w s)) ss 0) w →
  wp (find_connected lip lport rip rport) w Q.
Proof.
  intros Hok HQ. unfold find_connected.
  set (f := λ (l s : Z), let v := sock_at w s in
    if from_peer lport rip rport v && bound_to lip v then inr s
    else if from_peer lport rip rport v && bound_to_any v then inl s else inl l : Z + Z).
  eapply (wp_for_each_conn ss _ f); [done| |].
  - intros l s Hs. pose proof (skop_run _ _ _ Hok Hs) as Hk.
    destruct (conns_open _ _ Hok s Hs) as (_ & v & Hv & _).
    apply wp_result. rewrite le2socket_link. apply wp_bind. eapply wp_get_sk; [exact Hv|].
    unfold f, from_peer, bound_to, bound_to_any, ipaddr_is_equal, ipaddr_is_any.
    rewrite (sock_at_eq _ _ _ Hv).
    destruct (_ && _ && _); cbn [andb]; [|by rewrite wp_ret].
    destruct (sk_local_ip v =? lip); [by apply wp_bind; eapply wp_of_run|].
    destruct (sk_local_ip v =? 0); [by apply wp_bind; eapply wp_of_run|by rewrite wp_ret].
  - erewrite walk_pick; [exact HQ|done].
Qed.

Lemma wp_find_listening ss lip lport w (Q : Z + Z → netw E → Prop) :
  conns_ok ss w →
  Q (pick (λ s, listens lport (sock_at w s) && bound_to lip (sock_at w s))
       (λ s, listens lport (sock_at w s) && bound_to_any (sock_at w s)) ss 0) w →
  wp (find_listening lip lport) w Q.
Proof.
  intros Hok HQ. unfold find_listening.
  set (f := λ (l s : Z), let v := sock_at w s in
    if listens lport v && bound_to lip v then inr s
    else if listens lport v && bound_to_any v then inl s else inl l : Z + Z).
  eapply (wp_for_each_conn ss _ f); [done| |].
  - intros l s Hs. pose proof (skop_run _ _ _ Hok Hs) as Hk.
    destruct (conns_open _ _ Hok s Hs) as (_ & v & Hv & _).
    apply wp_result. rewrite le2socket_link. apply wp_bind. eapply wp_of_run; [exact Hk|].
    apply wp_bind. eapply wp_get_tcp; [exact Hv|]. apply wp_bind. eapply wp_get_sk; [exact Hv|].
    unfold f, listens, bound_to, bound_to_any, ipaddr_is_equal, ipaddr_is_any.
    rewrite (sock_at_eq _ _ _ Hv).
    destruct (_ && _); cbn [andb]; [|by rewrite wp_ret].
    destruct (sk_local_ip v =? lip); [by rewrite wp_ret|].
    destruct (sk_local_ip v =? 0); by rewrite wp_ret.
  - erewrite walk_pick; [exact HQ|done].
Qed.

(** C30: [tcp_find] gives the connection its specification names, and leaves
    everything as it was *)
Theorem tcp_find_correct ss w lip lport rip rport :
  conns_ok ss w → n_tcp_lock w = false →
  tcp_find lip lport rip rport w = Ok (find_spec w ss lip lport rip rport, w).
Proof.
  intros Hok Hlk.
  assert (conns_ok ss (set_tcp_lock true w)) as Hok' by (destruct Hok; by split).
  assert (set_tcp_lock false (set_tcp_lock true w) = w) as Hback by (by destruct w; cbn in *; subst).
  assert (∀ (r : Z) Q, Q r w → wp (release_tcp_list;; mret r) (set_tcp_lock true w) Q) as Hrel.
  { intros r Q HQ. apply wp_bind. unfold release_tcp_list.
    rewrite wp_bind, wp_gets, wp_bind, wp_assert. split; [done|]. by rewrite wp_modify, wp_ret, Hback. }
  apply wp_result. unfold tcp_find. apply wp_bind. unfold acquire_tcp_list.
  rewrite wp_bind, wp_gets, wp_bind, wp_assert. split; [by rewrite Hlk|]. rewrite wp_modify.
  apply wp_bind. eapply wp_find_connected; [exact Hok'|].
  change (sock_at (set_tcp_lock true w)) with (sock_at w). unfold find_spec.
  destruct (pick _ _ ss 0) as [s|s]; [|by apply Hrel].
  destruct (negb (s =? 0)); [by apply Hrel|].
  apply wp_bind. eapply wp_find_listening; [exact Hok'|].
  change (sock_at (set_tcp_lock true w)) with (sock_at w).
  destruct (pick _ _ ss 0) as [r|r]; by apply (Hrel r).
Qed.
End find.

(** ** At a concrete list

    The connection of [NetDemo], alone in the list. *)
Lemma demo_conns : conns_ok [1] (demo_net TCP_STATE_ESTABLISHED (demo_seg false false false true 0)).
Proof.
  split.
  - split; [|cbn; unfold linked; by vm_compute].
    cbn. apply NoDup_cons. split; [|apply NoDup_singleton]. by intros ?%list_elem_of_singleton.
  - intros s ->%list_elem_of_singleton. split; [done|]. by eexists.
Qed.

Lemma alloc_port_spec_witness :
  let w := demo_net TCP_STATE_ESTABLISHED (demo_seg false false false true 0) in
  ∃ p, alloc_port w = Ok (p, with_env (mk_demo [] 50 0) w) ∧
    ((dyn_port p ∧ p ∉ [2000]) ∨ (p = -1 ∧ ∀ q, dyn_port q → q ∈ [2000])).
Proof. intros w. apply (alloc_port_spec [1] w 0); [apply demo_conns|done|done|done]. Defined.

Lemma tcp_find_correct_witness :
  let w := demo_net TCP_STATE_ESTABLISHED (demo_seg false false false true 0) in
  tcp_find demo_local 2000 demo_remote 80 w = Ok (1, w).
Proof.
  intros w. apply (tcp_find_correct [1] w demo_local 2000 demo_remote 80); [apply demo_conns|done].
Defined.
