(* ===== verification/TcpSpec.v ===== *)
(** * TCP: sequence numbers, the header, timers and reactions

    The comparisons of sequence numbers and the receive window's test against
    RFC 793; the header's encoding; the retransmission timeout; the reaction to
    data in the states that receive it. *)
From S2P Require Import Prelude Errors PacketIO Nettool ListH Ipaddr Pktbuf PktbufOps PktbufCursor PktbufSpec PktMem TcpBuf NetTypes NetState Sock TcpOut Tcp TcpIn TcpState TcpFrame TcpTrans TcpWp NetDemo.

(** ** Sequence numbers *)

Definition u32_range (x : Z) : Prop := 0 ≤ x < 2 ^ 32.

Lemma s32_cases x : u32_range x → s32 x = if x <? 2 ^ 31 then x else x - 2 ^ 32.
Proof.
  intros [H0 H1]. unfold sint. change (32 - 1) with 31. destruct (Z.ltb_spec x (2 ^ 31)).
  - rewrite Z.mod_small; lia.
  - rewrite <- (Z_mod_plus_full _ (-1)), Z.mod_small; lia.
Qed.

Lemma u32_sub a b : u32_range a → u32_range b → u32 (b - a) = if a <=? b then b - a else b - a + 2 ^ 32.
Proof.
  intros [] []. unfold wrap. destruct (Z.leb_spec a b).
  - rewrite Z.mod_small; lia.
  - rewrite <- (Z_mod_plus_full _ 1), Z.mod_small; lia.
Qed.

(** The signed difference of the numbers fits an [int]. *)
Definition seq_near (a b : Z) : Prop := - 2 ^ 31 ≤ s32 a - s32 b < 2 ^ 31.

Lemma signed_cases w x : signed w x = if decide (- 2 ^ (w - 1) ≤ x < 2 ^ (w - 1)) then Ok x else Undef.
Proof.
  unfold signed. destruct (decide _) as [[H1 H2]|H].
  - by rewrite (proj2 (Z.leb_le _ _)), (proj2 (Z.ltb_lt _ _)) by lia.
  - destruct (Z.leb_spec (- 2 ^ (w - 1)) x), (Z.ltb_spec x (2 ^ (w - 1))); try done. lia.
Qed.

Lemma seq_le_ok a b r :
  u32_range a → u32_range b → TCP_SEQ_LE a b = Ok r → seq_near a b ∧ (r = true ↔ u32 (b - a) ≤ 2 ^ 31).
Proof.
  intros Ha Hb. unfold TCP_SEQ_LE. rewrite signed_cases. change (32 - 1) with 31.
  case_decide as Hn; cbn; [|done]. intros [= <-]. split; [exact Hn|].
  rewrite Z.leb_le, u32_sub by done. rewrite !s32_cases in * by done.
  unfold u32_range in *. zcases; lia.
Qed.

Lemma seq_lt_ok a b r :
  u32_range a → u32_range b → TCP_SEQ_LT a b = Ok r → seq_near a b ∧ (r = true ↔ 0 < u32 (b - a) ≤ 2 ^ 31).
Proof.
  intros Ha Hb. unfold TCP_SEQ_LT. rewrite signed_cases. change (32 - 1) with 31.
  case_decide as Hn; cbn; [|done]. intros [= <-]. split; [exact Hn|].
  rewrite Z.ltb_lt, u32_sub by done. rewrite !s32_cases in * by done.
  unfold u32_range in *. zcases; lia.
Qed.

Lemma seq_defined a b :
  seq_near a b → ∃ r r', TCP_SEQ_LE a b = Ok r ∧ TCP_SEQ_LT a b = Ok r'.
Proof.
  intros H. unfold TCP_SEQ_LE, TCP_SEQ_LT. rewrite signed_cases. change (32 - 1) with 31.
  rewrite decide_True by exact H. cbn. eauto.
Qed.

(** The comparisons of sequence numbers are those of the circle, [b] at most
    half the circle after [a], exactly as long as the signed difference fits;
    beyond, which two numbers on either side of 2^31 reach, it overflows *)
Theorem seq_compare a b :
  u32_range a → u32_range b →
  (seq_near a b →
     TCP_SEQ_LE a b = Ok (bool_decide (u32 (b - a) ≤ 2 ^ 31)) ∧
     TCP_SEQ_LT a b = Ok (bool_decide (0 < u32 (b - a) ≤ 2 ^ 31))) ∧
  (¬ seq_near a b → TCP_SEQ_LE a b = Undef ∧ TCP_SEQ_LT a b = Undef) ∧
  ¬ seq_near (2 ^ 31 - 1) (2 ^ 31).
Proof.
  intros Ha Hb. split_and!.
  - intros Hn. destruct (seq_defined a b Hn) as (r & r' & E1 & E2).
    destruct (seq_le_ok a b r Ha Hb E1) as [_ H1]. destruct (seq_lt_ok a b r' Ha Hb E2) as [_ H2].
    rewrite E1, E2. split; f_equal; apply eq_bool_prop_intro; rewrite !Is_true_true;
      by rewrite bool_decide_eq_true.
  - intros Hn. unfold TCP_SEQ_LE, TCP_SEQ_LT. rewrite signed_cases. change (32 - 1) with 31.
    by rewrite decide_False by exact Hn.
  - intros [_ H]. revert H. by vm_compute.
Qed.

Lemma seq_compare_witness :
  (seq_near (2 ^ 32 - 1) 3 →
     TCP_SEQ_LE (2 ^ 32 - 1) 3 = Ok (bool_decide (u32 (3 - (2 ^ 32 - 1)) ≤ 2 ^ 31)) ∧
     TCP_SEQ_LT (2 ^ 32 - 1) 3 = Ok (bool_decide (0 < u32 (3 - (2 ^ 32 - 1)) ≤ 2 ^ 31))) ∧
  (¬ seq_near (2 ^ 32 - 1) 3 → TCP_SEQ_LE (2 ^ 32 - 1) 3 = Undef ∧ TCP_SEQ_LT (2 ^ 32 - 1) 3 = Undef) ∧
  ¬ seq_near (2 ^ 31 - 1) (2 ^ 31).
Proof. apply (seq_compare (2 ^ 32 - 1) 3); unfold u32_range; lia. Defined.

(** ** The receive window *)

(** RFC 793: the offset of a number in the window. *)
Definition in_rcv_window (nxt win seq : Z) : Prop := u32 (seq - nxt) < win.

Definition rfc_acceptable (nxt win seq len : Z) : Prop :=
  if len =? 0 then (if win =? 0 then seq = nxt else in_rcv_window nxt win seq)
  else win ≠ 0 ∧ (in_rcv_window nxt win seq ∨ in_rcv_window nxt win (u32 (seq + len - 1))).

Lemma u32_add_sub a w : u32_range a → 0 < w < 2 ^ 31 →
  u32 (a + w - 1) = if a + w - 1 <? 2 ^ 32 then a + w - 1 else a + w - 1 - 2 ^ 32.
Proof.
  intros [] ?. unfold wrap. destruct (Z.ltb_spec (a + w - 1) (2 ^ 32)).
  - rewrite Z.mod_small; lia.
  - rewrite <- (Z_mod_plus_full _ (-1)), Z.mod_small; lia.
Qed.

Lemma u32_range_wrap x : u32_range (u32 x).
Proof. apply (wrap_range 32). lia. Qed.

Lemma in_window_ok nxt win seq r :
  u32_range nxt → u32_range seq → 0 < win < 2 ^ 31 → in_window nxt win seq = Ok r →
  (r = true ↔ in_rcv_window nxt win seq).
Proof.
  intros Hn Hs Hw. unfold in_window, and_then, in_rcv_window.
  destruct (TCP_SEQ_LE nxt seq) as [x| | | |] eqn:E1; cbn; try done.
  destruct (seq_le_ok _ _ _ Hn Hs E1) as [N1 H1].
  pose proof (u32_range_wrap (nxt + win - 1)) as Hr.
  destruct x; [|intros [= <-]].
  - intros E2. destruct (seq_le_ok _ _ _ Hs Hr E2) as [N2 H2]. rewrite H2. clear H2 E2 E1.
    pose proof (proj1 H1 eq_refl) as H. clear H1. unfold seq_near in *.
    pose proof (u32_add_sub nxt win Hn Hw) as Ew. set (w := u32 (nxt + win - 1)) in *.
    pose proof (u32_sub nxt seq Hn Hs) as E1. pose proof (u32_sub seq w Hs Hr) as E2.
    pose proof (s32_cases nxt Hn) as S1. pose proof (s32_cases seq Hs) as S2.
    pose proof (s32_cases w Hr) as S3. unfold u32_range in *. clear r.
    destruct (Z.leb_spec nxt seq), (Z.leb_spec seq w), (Z.ltb_spec nxt (2 ^ 31)),
      (Z.ltb_spec seq (2 ^ 31)), (Z.ltb_spec w (2 ^ 31)), (Z.ltb_spec (nxt + win - 1) (2 ^ 32)); lia.
  - split; [done|]. intros H. enough (false = true) by done. apply H1. lia.
Qed.

(** A segment is accepted exactly when RFC 793's table says so: its first or
    its last number is in the window, or the window is closed and an empty
    segment comes next; and the test is defined as long as no comparison crosses
    the middle of the numbers *)
Theorem seq_acceptable_rfc nxt win seq len :
  u32_range nxt → 0 ≤ win < 2 ^ 31 → u32_range seq → u32_range len →
  (∀ r, seq_acceptable nxt win seq len = Ok r → (r = true ↔ rfc_acceptable nxt win seq len)) ∧
  (let mid x := 2 ^ 30 ≤ x < 2 ^ 31 in
   mid nxt → mid (nxt + win) → mid seq → mid (seq + len) →
   ∃ r, seq_acceptable nxt win seq len = Ok r).
Proof.
  intros Hn Hw Hs Hl. unfold seq_acceptable, rfc_acceptable. split.
  - intros r. destruct (Z.eqb_spec len 0), (Z.eqb_spec win 0).
    + intros [= <-]. apply Z.eqb_eq.
    + by apply in_window_ok; [done|done|lia].
    + intros [= <-]. split; [done|]. by intros [? _].
    + destruct (in_window nxt win seq) as [x| | | |] eqn:E1; cbn; try done.
      destruct (in_window nxt win (u32 (seq + len - 1))) as [y| | | |] eqn:E2; cbn; try done.
      intros [= <-]. rewrite orb_true_iff.
      assert (0 < win < 2 ^ 31) as Hw' by lia.
      rewrite (in_window_ok _ _ _ _ Hn Hs Hw' E1).
      rewrite (in_window_ok _ _ _ _ Hn (u32_range_wrap _) Hw' E2). tauto.
  - cbv zeta. intros Mn Mw Ms Ml.
    assert (∀ s, 2 ^ 30 ≤ s < 2 ^ 31 → win ≠ 0 → ∃ r, in_window nxt win s = Ok r) as Hwin.
    { intros s Hms Hw0. unfold in_window, and_then.
      assert (∀ x y, 2 ^ 30 - 1 ≤ x < 2 ^ 31 → 2 ^ 30 - 1 ≤ y < 2 ^ 31 → seq_near x y) as Hnear.
      { intros x y Hx Hy. unfold seq_near. rewrite !s32_cases by (unfold u32_range; lia). zcases; lia. }
      destruct (seq_defined nxt s) as (x & _ & -> & _); [apply Hnear; lia|]. cbn.
      destruct x; [|by eexists].
      rewrite wrap_small by lia. destruct (seq_defined s (nxt + win - 1)) as (y & _ & -> & _);
        [apply Hnear; lia|by eexists]. }
    destruct (Z.eqb_spec len 0), (Z.eqb_spec win 0); try by eexists.
    + by apply Hwin.
    + destruct (Hwin seq) as [x ->]; [lia|done|]. cbn. unfold u32_range in *.
      rewrite (wrap_small 32) by lia.
      destruct (decide (2 ^ 30 ≤ seq + len - 1)); [|lia].
      destruct (Hwin (seq + len - 1)) as [y ->]; [lia|done|]. by eexists.
Qed.

Lemma seq_acceptable_rfc_witness :
  (∀ r, seq_acceptable (2 ^ 30) 1000 (2 ^ 30 + 999) 500 = Ok r →
     (r = true ↔ rfc_acceptable (2 ^ 30) 1000 (2 ^ 30 + 999) 500)) ∧
  (let mid x := 2 ^ 30 ≤ x < 2 ^ 31 in
   mid (2 ^ 30) → mid (2 ^ 30 + 1000) → mid (2 ^ 30 + 999) → mid (2 ^ 30 + 999 + 500) →
   ∃ r, seq_acceptable (2 ^ 30) 1000 (2 ^ 30 + 999) 500 = Ok r).
Proof. apply (seq_acceptable_rfc (2 ^ 30) 1000 (2 ^ 30 + 999) 500); unfold u32_range; lia. Defined.

(** ** The retransmission timeout *)

(** The estimate after measures of at most [m] ticks: [srtt] is scaled by 8,
    [rttvar] by 4. *)
Definition rtt_ok (m : Z) (s : Tcp_snd) : Prop :=
  0 ≤ sd_srtt s ≤ 8 * m ∧ 0 ≤ sd_rttvar s ≤ 4 * m.

(** RFC 6298 in integers: the first measure, and each later one. *)
Definition srtt_after (rtt srtt : Z) : Z :=
  if srtt =? 0 then 8 * rtt else srtt + (rtt - srtt / 8).
Definition rttvar_after (rtt srtt rttvar : Z) : Z :=
  if srtt =? 0 then 2 * rtt else rttvar + (Z.abs (rtt - srtt / 8) - rttvar / 4).

Lemma rtt_update_eq rtt nxt s :
  sd_srtt (rtt_update rtt nxt s) = srtt_after rtt (sd_srtt s) ∧
  sd_rttvar (rtt_update rtt nxt s) = rttvar_after rtt (sd_srtt s) (sd_rttvar s).
Proof.
  unfold rtt_update, srtt_after, rttvar_after.
  rewrite !Z.shiftr_div_pow2, !Z.shiftl_mul_pow2 by lia.
  change (2 ^ 3) with 8. change (2 ^ 2) with 4. change (2 ^ 1) with 2.
  destruct (Z.eqb_spec (sd_srtt s) 0) as [E0|];
    cbn [negb sd_srtt sd_rttvar set_sd_srtt set_sd_rttvar set_sd_rttseq]; split; try lia.
  destruct (Z.ltb_spec (rtt - sd_srtt s / 8) 0); lia.
Qed.

Lemma rtt_update_ok m rtt nxt s :
  rtt_ok m s → 1 ≤ rtt ≤ m →
  rtt_ok m (rtt_update rtt nxt s) ∧ 0 < sd_srtt (rtt_update rtt nxt s).
Proof.
  intros [Hs Hv] Hr. unfold rtt_ok. destruct (rtt_update_eq rtt nxt s) as [-> ->].
  unfold srtt_after, rttvar_after. destruct (Z.eqb_spec (sd_srtt s) 0); [lia|].
  Z.div_mod_to_equations. lia.
Qed.

Section rto.
Context {E : Type} `{NE : !NetEnv E}.
Implicit Types (t : Z) (w : netw E).

Definition snd_at t w : option Tcp_snd := (λ v, tcp_snd (sk_tcp v)) <$> n_socks w !! t.

(** The connection after a measure of [rtt]. *)
Definition measured (rtt : Z) (v : Tcp) : Tcp :=
  let s := rtt_update rtt (snd_nxt v) (tcp_snd v) in
  on_flags (set_fl_rto_going false) (on_snd (λ _, set_sd_rto (rto_of s) s) v).

(** The measure that ends at time [now], and the bound it keeps. *)
Definition measure (now : Z) (s : Tcp_snd) : Z := Z.max 1 (now - sd_rtttime s).
Definition measurable (now m : Z) (s : Tcp_snd) : Prop :=
  0 ≤ sd_rtttime s ∧ now < 2 ^ 63 ∧ measure now s ≤ m < 2 ^ 59 ∧ rtt_ok m s.

Lemma wp_sys_time_goes pre now e w (Q : Z → netw E → Prop) :
  sys_gettime (n_env w) = Ok (now, e) →
  Q (if now <=? pre then 0 else now - pre) (with_env e w) → wp (sys_time_goes pre) w Q.
Proof.
  intros He HQ. unfold sys_time_goes. apply wp_bind, wp_on_env. eapply wp_of_run; [exact He|].
  by destruct (now <=? pre); rewrite wp_ret.
Qed.

Lemma wp_cal_rto t w v now e m (Q : unit → netw E → Prop) :
  n_socks w !! t = Some v → fl_rto_going (tcp_flags (sk_tcp v)) = true →
  sys_gettime (n_env w) = Ok (now, e) → measurable now m (tcp_snd (sk_tcp v)) →
  Q tt (with_env e
    (set_sock t (set_sk_tcp (measured (measure now (tcp_snd (sk_tcp v))) (sk_tcp v)) v) w)) →
  wp (tcp_cal_rto t) w Q.
Proof.
  intros Hv Hg He (Htime & Hnow & Hm & Hok) HQ. set (s := tcp_snd (sk_tcp v)) in *.
  set (rtt := measure now s) in *. unfold measure in rtt.
  destruct (rtt_update_ok m rtt (sd_nxt s) s Hok) as [[Hb1 Hb2] _]; [unfold rtt in *; lia|].
  set (s1 := rtt_update rtt (sd_nxt s) s) in *.
  assert (Z.shiftr (sd_srtt s1) 3 = sd_srtt s1 / 8) as Esh by by rewrite Z.shiftr_div_pow2.
  assert (0 ≤ sd_srtt s1 / 8 ≤ m) as Hdiv by (Z.div_mod_to_equations; lia).
  unfold tcp_cal_rto. apply wp_bind. eapply wp_get_tcp; [done|]. rewrite Hg. cbn [negb].
  apply wp_bind. eapply wp_sys_time_goes; [exact He|]. cbv zeta. fold s.
  set (goes := if now <=? sd_rtttime s then 0 else now - sd_rtttime s).
  assert ((if s64 goes =? 0 then 1 else s64 goes) = rtt) as ->.
  { unfold goes, rtt. destruct (Z.leb_spec now (sd_rtttime s)).
    - change (s64 0) with 0. cbn. lia.
    - unfold sint. change (64 - 1) with 63. rewrite Z.mod_small by lia.
      replace (_ + 2 ^ 63 - 2 ^ 63) with (now - sd_rtttime s) by lia.
      destruct (Z.eqb_spec (now - sd_rtttime s) 0); lia. }
  apply wp_bind. eapply wp_upd_tcp; [exact Hv|].
  apply wp_bind. eapply wp_get_tcp; [apply lookup_set_sock|].
  cbn [tcp_snd sk_tcp set_sk_tcp on_snd set_tcp_snd]. fold s s1.
  apply wp_bind, wp_signed; [change (64 - 1) with 63; lia|].
  apply wp_bind, wp_signed; [change (64 - 1) with 63; lia|].
  apply wp_bind, wp_signed; [rewrite Esh; change (64 - 1) with 63; lia|].
  apply wp_bind. eapply wp_upd_tcp; [apply lookup_set_sock|].
  eapply wp_upd_tcp; [apply lookup_set_sock|]. rewrite !set_set_sock.
  unfold measured in HQ. exact HQ.
Qed.

(** C33: when a measure is under way, [tcp_cal_rto] ends it and brings the
    smoothed round trip, its variation and the timeout to RFC 6298's values; with
    round trips of at most [m] ticks the timeout stays between the minimum and
    [5 m] *)
Theorem tcp_cal_rto_spec t w v now e m :
  n_socks w !! t = Some v → fl_rto_going (tcp_flags (sk_tcp v)) = true →
  sys_gettime (n_env w) = Ok (now, e) →
  let s := tcp_snd (sk_tcp v) in
  let rtt := Z.max 1 (now - sd_rtttime s) in
  0 ≤ sd_rtttime s → now < 2 ^ 63 → rtt ≤ m < 2 ^ 59 → rtt_ok m s →
  ∃ w' s', tcp_cal_rto t w = Ok (tt, w') ∧ snd_at t w' = Some s' ∧
    sd_srtt s' = srtt_after rtt (sd_srtt s) ∧
    sd_rttvar s' = rttvar_after rtt (sd_srtt s) (sd_rttvar s) ∧
    sd_rto s' = Z.max TCP_RTO_MIN (sd_srtt s' / 8 + sd_rttvar s') ∧
    rtt_ok m s' ∧ TCP_RTO_MIN ≤ sd_rto s' ≤ Z.max TCP_RTO_MIN (5 * m) ∧
    sd_una s' = sd_una s ∧ sd_nxt s' = sd_nxt s ∧ sd_buf s' = sd_buf s.
Proof.
  intros Hv Hg He s rtt Htime Hnow Hm Hok.
  destruct (rtt_update_ok m rtt (sd_nxt s) s Hok) as [Hok' Hpos]; [lia|].
  destruct (rtt_update_eq rtt (sd_nxt s) s) as [Es Ev].
  set (s1 := rtt_update rtt (sd_nxt s) s) in *.
  assert (sd_una s1 = sd_una s ∧ sd_nxt s1 = sd_nxt s ∧ sd_buf s1 = sd_buf s) as (K1 & K2 & K3)
    by (unfold s1, rtt_update; by destruct (negb _)).
  destruct Hok' as [Hb1 Hb2].
  assert (0 ≤ sd_srtt s1 / 8 ≤ m) as Hdiv by (Z.div_mod_to_equations; lia).
  assert (wp (tcp_cal_rto t) w (λ _ w', snd_at t w' = Some (set_sd_rto (rto_of s1) s1)))
    as (w' & Hrun & Hend)%wp_unit.
  { eapply wp_cal_rto; [done..| |]; [split; [exact Htime|split; [exact Hnow|split; [exact Hm|exact Hok]]]|].
    unfold snd_at. cbn. by rewrite lookup_insert_eq. }
  exists w', (set_sd_rto (rto_of s1) s1). unfold rto_of in *.
  rewrite Z.shiftr_div_pow2 in * by lia. change (2 ^ 3) with 8 in *. unfold rtt_ok. cbn.
  split_and!; try done; try lia;
    destruct (Z.ltb_spec (sd_srtt s1 / 8 + sd_rttvar s1) TCP_RTO_MIN); lia.
Qed.
End rto.

(** A measure that began at time 100, with the clock at 350. *)
Definition demo_measuring_sock : Socket :=
  on_tcp (λ v, on_flags (set_fl_rto_going true)
    (on_snd (λ s, set_sd_rtttime 100 (set_sd_srtt 800 (set_sd_rttvar 200 s))) v))
    (demo_sock TCP_STATE_ESTABLISHED).
Definition demo_measuring : netw demo_env :=
  let w := demo_net TCP_STATE_ESTABLISHED (demo_seg false false false true 5004) in
  set_pk_env (n_pk w, mk_demo [] 50 350) (set_sock 1 demo_measuring_sock w).

Lemma tcp_cal_rto_spec_witness :
  ∃ w' s', tcp_cal_rto 1 demo_measuring = Ok (tt, w') ∧ snd_at 1 w' = Some s' ∧
    sd_srtt s' = srtt_after 250 800 ∧ sd_rttvar s' = rttvar_after 250 800 200 ∧
    sd_rto s' = Z.max TCP_RTO_MIN (sd_srtt s' / 8 + sd_rttvar s') ∧
    rtt_ok 1000 s' ∧ TCP_RTO_MIN ≤ sd_rto s' ≤ Z.max TCP_RTO_MIN (5 * 1000) ∧
    sd_una s' = 5000 ∧ sd_nxt s' = 5004 ∧ sd_buf s' = demo_buf (seqZ 1 10).
Proof.
  apply (tcp_cal_rto_spec 1 demo_measuring demo_measuring_sock 350 (mk_demo [] 50 350) 1000);
    [reflexivity|reflexivity|reflexivity|cbn; lia|lia|cbn; lia|unfold rtt_ok; cbn; lia].
Defined.
