(* ===== verification/IpState.v ===== *)
(** * The state of the IP layer

    Headers, fragments, routes and interfaces as [net/ipv4.h] and [net/netif.h]
    declare them; the state the layer works on; what it calls outside itself; and
    the accessors its operations share.

    A [Ip_frag *], [Rentry *], [Netif *] or [Pktbuf *] is an address of a store;
    an address that is freed is not in its store any more, nor are its links, so
    a later use is undefined.  Messages and dumps are left out with the lock
    that orders them ([print_struct_lock]). *)
From S2P Require Import Prelude Errors PacketIO Nettool ListH Ipaddr Pktbuf PktbufOps PktbufCursor PktbufSpec PktMem.

Definition NET_VERSION_IPV4 : Z := 4.
Definition NET_IP_DEF_TTL : Z := 64.
Definition NET_PROTOCOL_ICMPv4 : Z := 1.
Definition NET_PROTOCOL_UDP : Z := 17.
Definition NET_PROTOCOL_TCP : Z := 6.
Definition IP_FRAGS_MAX_NR : Z := 20.
Definition IP_FRAG_MAX_BUF_NR : Z := 200.
Definition IP_FRAG_SCAN_PERIOD : Z := 1.
Definition IP_FRAG_TMO : Z := 5.
Definition IP_RTABLE_SIZE : Z := 32.
Definition SIZEOF_IPV4_HDR : Z := 20.

(** ** The header *)

(** Bit fields are numbers of their width, single bits booleans; an address is
    the word its four bytes make. *)
Record Ipv4_hdr := mk_iphdr {
  ih_shdr : Z;       (* 4 bits *)
  ih_version : Z;    (* 4 bits *)
  ih_tos : Z;        (* 8 bits *)
  ih_total_len : Z;
  ih_id : Z;
  ih_offset : Z;     (* 13 bits *)
  ih_more : bool;
  ih_disable : bool;
  ih_reserved : bool;
  ih_ttl : Z;
  ih_protocol : Z;
  ih_checksum : Z;
  ih_src : Ipaddr;
  ih_dest : Ipaddr
}.

Definition set_ih_shdr v (r : Ipv4_hdr) := mk_iphdr v (ih_version r) (ih_tos r) (ih_total_len r)
  (ih_id r) (ih_offset r) (ih_more r) (ih_disable r) (ih_reserved r) (ih_ttl r) (ih_protocol r)
  (ih_checksum r) (ih_src r) (ih_dest r).
Definition set_ih_version v (r : Ipv4_hdr) := mk_iphdr (ih_shdr r) v (ih_tos r) (ih_total_len r)
  (ih_id r) (ih_offset r) (ih_more r) (ih_disable r) (ih_reserved r) (ih_ttl r) (ih_protocol r)
  (ih_checksum r) (ih_src r) (ih_dest r).
Definition set_ih_tos v (r : Ipv4_hdr) := mk_iphdr (ih_shdr r) (ih_version r) v (ih_total_len r)
  (ih_id r) (ih_offset r) (ih_more r) (ih_disable r) (ih_reserved r) (ih_ttl r) (ih_protocol r)
  (ih_checksum r) (ih_src r) (ih_dest r).
Definition set_ih_total_len v (r : Ipv4_hdr) := mk_iphdr (ih_shdr r) (ih_version r) (ih_tos r) v
  (ih_id r) (ih_offset r) (ih_more r) (ih_disable r) (ih_reserved r) (ih_ttl r) (ih_protocol r)
  (ih_checksum r) (ih_src r) (ih_dest r).
Definition set_ih_id v (r : Ipv4_hdr) := mk_iphdr (ih_shdr r) (ih_version r) (ih_tos r)
  (ih_total_len r) v (ih_offset r) (ih_more r) (ih_disable r) (ih_reserved r) (ih_ttl r)
  (ih_protocol r) (ih_checksum r) (ih_src r) (ih_dest r).
Definition set_ih_offset v (r : Ipv4_hdr) := mk_iphdr (ih_shdr r) (ih_version r) (ih_tos r)
  (ih_total_len r) (ih_id r) v (ih_more r) (ih_disable r) (ih_reserved r) (ih_ttl r)
  (ih_protocol r) (ih_checksum r) (ih_src r) (ih_dest r).
Definition set_ih_more v (r : Ipv4_hdr) := mk_iphdr (ih_shdr r) (ih_version r) (ih_tos r)
  (ih_total_len r) (ih_id r) (ih_offset r) v (ih_disable r) (ih_reserved r) (ih_ttl r)
  (ih_protocol r) (ih_checksum r) (ih_src r) (ih_dest r).
Definition set_ih_disable v (r : Ipv4_hdr) := mk_iphdr (ih_shdr r) (ih_version r) (ih_tos r)
  (ih_total_len r) (ih_id r) (ih_offset r) (ih_more r) v (ih_reserved r) (ih_ttl r)
  (ih_protocol r) (ih_checksum r) (ih_src r) (ih_dest r).
Definition set_ih_reserved v (r : Ipv4_hdr) := mk_iphdr (ih_shdr r) (ih_version r) (ih_tos r)
  (ih_total_len r) (ih_id r) (ih_offset r) (ih_more r) (ih_disable r) v (ih_ttl r) (ih_protocol r)
  (ih_checksum r) (ih_src r) (ih_dest r).
Definition set_ih_ttl v (r : Ipv4_hdr) := mk_iphdr (ih_shdr r) (ih_version r) (ih_tos r)
  (ih_total_len r) (ih_id r) (ih_offset r) (ih_more r) (ih_disable r) (ih_reserved r) v
  (ih_protocol r) (ih_checksum r) (ih_src r) (ih_dest r).
Definition set_ih_protocol v (r : Ipv4_hdr) := mk_iphdr (ih_shdr r) (ih_version r) (ih_tos r)
  (ih_total_len r) (ih_id r) (ih_offset r) (ih_more r) (ih_disable r) (ih_reserved r) (ih_ttl r) v
  (ih_checksum r) (ih_src r) (ih_dest r).
Definition set_ih_checksum v (r : Ipv4_hdr) := mk_iphdr (ih_shdr r) (ih_version r) (ih_tos r)
  (ih_total_len r) (ih_id r) (ih_offset r) (ih_more r) (ih_disable r) (ih_reserved r) (ih_ttl r)
  (ih_protocol r) v (ih_src r) (ih_dest r).
Definition set_ih_src v (r : Ipv4_hdr) := mk_iphdr (ih_shdr r) (ih_version r) (ih_tos r)
  (ih_total_len r) (ih_id r) (ih_offset r) (ih_more r) (ih_disable r) (ih_reserved r) (ih_ttl r)
  (ih_protocol r) (ih_checksum r) v (ih_dest r).
Definition set_ih_dest v (r : Ipv4_hdr) := mk_iphdr (ih_shdr r) (ih_version r) (ih_tos r)
  (ih_total_len r) (ih_id r) (ih_offset r) (ih_more r) (ih_disable r) (ih_reserved r) (ih_ttl r)
  (ih_protocol r) (ih_checksum r) (ih_src r) v.

(** The unions [shdr_all] and [frag_all]. *)
Definition shdr_all (h : Ipv4_hdr) : Z := ih_shdr h + 16 * ih_version h + 256 * ih_tos h.
Definition frag_all (h : Ipv4_hdr) : Z :=
  ih_offset h + 8192 * Z.b2z (ih_more h) + 16384 * Z.b2z (ih_disable h)
  + 32768 * Z.b2z (ih_reserved h).

Definition set_shdr_all (x : Z) (h : Ipv4_hdr) : Ipv4_hdr :=
  set_ih_shdr (Z.land x 15) (set_ih_version (Z.land (Z.shiftr x 4) 15)
    (set_ih_tos (Z.land (Z.shiftr x 8) 255) h)).
Definition set_frag_all (x : Z) (h : Ipv4_hdr) : Ipv4_hdr :=
  set_ih_offset (Z.land x 8191) (set_ih_more (Z.testbit x 13)
    (set_ih_disable (Z.testbit x 14) (set_ih_reserved (Z.testbit x 15) h))).

Definition encode_ip (h : Ipv4_hdr) : bytes :=
  le16 (shdr_all h) ++ le16 (ih_total_len h) ++ le16 (ih_id h) ++ le16 (frag_all h)
  ++ [ih_ttl h mod 256; ih_protocol h mod 256] ++ le16 (ih_checksum h)
  ++ a_addr (ih_src h) ++ a_addr (ih_dest h).

Definition decode_ip (l : bytes) : Ipv4_hdr :=
  set_shdr_all (get_le l 0 2) (set_frag_all (get_le l 6 2)
    (mk_iphdr 0 0 0 (get_le l 2 2) (get_le l 4 2) 0 false false false
      (get_le l 8 1) (get_le l 9 1) (get_le l 10 2) (get_le l 12 4) (get_le l 16 4))).

Definition ipv4_hdr_size (h : Ipv4_hdr) : Z := ih_shdr h * 4.
Definition set_header_size (size : Z) (h : Ipv4_hdr) : Ipv4_hdr :=
  set_ih_shdr (Z.land (u16 (size / 4)) 15) h.
(** The difference is a [size_t]. *)
Definition get_data_size (h : Ipv4_hdr) : Z := u64 (ih_total_len h - ipv4_hdr_size h).
Definition get_frag_start (h : Ipv4_hdr) : Z := u16 (ih_offset h * 8).
Definition get_frag_end (h : Ipv4_hdr) : Z := u16 (get_frag_start h + get_data_size h).

Definition ip_load (p : bptr) : M pworld Ipv4_hdr :=
  l ← mem_load p 0 SIZEOF_IPV4_HDR; mret (decode_ip l).
Definition ip_store (p : bptr) (h : Ipv4_hdr) : M pworld unit := mem_store p 0 (encode_ip h).
Definition ip_upd (p : bptr) (f : Ipv4_hdr → Ipv4_hdr) : M pworld unit :=
  h ← ip_load p; ip_store p (f h).

(** ** Fragments, routes, interfaces *)

Record Ip_frag := mk_frag {
  fg_ip : Ipaddr;
  fg_id : Z;
  fg_tmo : Z;
  fg_lock : bool     (* ip_frag_buf_list_lock *)
}.

Definition set_fg_ip v (r : Ip_frag) := mk_frag v (fg_id r) (fg_tmo r) (fg_lock r).
Definition set_fg_id v (r : Ip_frag) := mk_frag (fg_ip r) v (fg_tmo r) (fg_lock r).
Definition set_fg_tmo v (r : Ip_frag) := mk_frag (fg_ip r) (fg_id r) v (fg_lock r).
Definition set_fg_lock v (r : Ip_frag) := mk_frag (fg_ip r) (fg_id r) (fg_tmo r) v.

Record Rentry := mk_rentry {
  re_net : Ipaddr;
  re_mask : Ipaddr;
  re_mask_1_cnt : Z;
  re_next_hop : Ipaddr;
  re_netif : Z
}.

Inductive Netif_state := NETIF_CLOSED | NETIF_OPENED | NETIF_ACTIVE.
#[export] Instance Netif_state_dec : EqDecision Netif_state.
Proof. solve_decision. Defined.

(** [netif_type]. *)
Definition NETIF_TYPE_NONE : Z := 0.
Definition NETIF_TYPE_ETHER : Z := 1.
Definition NETIF_TYPE_LOOP : Z := 2.
Definition NETIF_TYPE_SIZE : Z := 3.
Definition NETIF_MBOX_ID_NULL : Z := -1.

(** The name, which only messages show, is left out; [if_sem] is the value of
    the interface's semaphore. *)
Record Netif := mk_netif {
  if_hwaddr : bytes;
  if_hwaddr_len : Z;
  if_ipaddr : Ipaddr;
  if_netmask : Ipaddr;
  if_gateway : Ipaddr;
  if_state : Netif_state;
  if_type : Z;
  if_mtu : Z;
  if_ops : Z;
  if_ops_data : Z;
  if_link_layer : Z;   (* the address of its [Link_layer], 0 null *)
  if_tx_mbox_id : Z;
  if_rx_mbox_id : Z;
  if_sem : Z
}.

Definition set_if_hwaddr v (r : Netif) := mk_netif v (if_hwaddr_len r) (if_ipaddr r)
  (if_netmask r) (if_gateway r) (if_state r) (if_type r) (if_mtu r) (if_ops r) (if_ops_data r)
  (if_link_layer r) (if_tx_mbox_id r) (if_rx_mbox_id r) (if_sem r).
Definition set_if_hwaddr_len v (r : Netif) := mk_netif (if_hwaddr r) v (if_ipaddr r)
  (if_netmask r) (if_gateway r) (if_state r) (if_type r) (if_mtu r) (if_ops r) (if_ops_data r)
  (if_link_layer r) (if_tx_mbox_id r) (if_rx_mbox_id r) (if_sem r).
Definition set_if_ipaddr v (r : Netif) := mk_netif (if_hwaddr r) (if_hwaddr_len r) v
  (if_netmask r) (if_gateway r) (if_state r) (if_type r) (if_mtu r) (if_ops r) (if_ops_data r)
  (if_link_layer r) (if_tx_mbox_id r) (if_rx_mbox_id r) (if_sem r).
Definition set_if_netmask v (r : Netif) := mk_netif (if_hwaddr r) (if_hwaddr_len r) (if_ipaddr r)
  v (if_gateway r) (if_state r) (if_type r) (if_mtu r) (if_ops r) (if_ops_data r)
  (if_link_layer r) (if_tx_mbox_id r) (if_rx_mbox_id r) (if_sem r).
Definition set_if_gateway v (r : Netif) := mk_netif (if_hwaddr r) (if_hwaddr_len r) (if_ipaddr r)
  (if_netmask r) v (if_state r) (if_type r) (if_mtu r) (if_ops r) (if_ops_data r)
  (if_link_layer r) (if_tx_mbox_id r) (if_rx_mbox_id r) (if_sem r).
Definition set_if_state v (r : Netif) := mk_netif (if_hwaddr r) (if_hwaddr_len r) (if_ipaddr r)
  (if_netmask r) (if_gateway r) v (if_type r) (if_mtu r) (if_ops r) (if_ops_data r)
  (if_link_layer r) (if_tx_mbox_id r) (if_rx_mbox_id r) (if_sem r).
Definition set_if_type v (r : Netif) := mk_netif (if_hwaddr r) (if_hwaddr_len r) (if_ipaddr r)
  (if_netmask r) (if_gateway r) (if_state r) v (if_mtu r) (if_ops r) (if_ops_data r)
  (if_link_layer r) (if_tx_mbox_id r) (if_rx_mbox_id r) (if_sem r).
Definition set_if_mtu v (r : Netif) := mk_netif (if_hwaddr r) (if_hwaddr_len r) (if_ipaddr r)
  (if_netmask r) (if_gateway r) (if_state r) (if_type r) v (if_ops r) (if_ops_data r)
  (if_link_layer r) (if_tx_mbox_id r) (if_rx_mbox_id r) (if_sem r).
Definition set_if_ops v (r : Netif) := mk_netif (if_hwaddr r) (if_hwaddr_len r) (if_ipaddr r)
  (if_netmask r) (if_gateway r) (if_state r) (if_type r) (if_mtu r) v (if_ops_data r)
  (if_link_layer r) (if_tx_mbox_id r) (if_rx_mbox_id r) (if_sem r).
Definition set_if_ops_data v (r : Netif) := mk_netif (if_hwaddr r) (if_hwaddr_len r) (if_ipaddr r)
  (if_netmask r) (if_gateway r) (if_state r) (if_type r) (if_mtu r) (if_ops r) v (if_link_layer r)
  (if_tx_mbox_id r) (if_rx_mbox_id r) (if_sem r).
Definition set_if_link_layer v (r : Netif) := mk_netif (if_hwaddr r) (if_hwaddr_len r)
  (if_ipaddr r) (if_netmask r) (if_gateway r) (if_state r) (if_type r) (if_mtu r) (if_ops r)
  (if_ops_data r) v (if_tx_mbox_id r) (if_rx_mbox_id r) (if_sem r).
Definition set_if_tx_mbox_id v (r : Netif) := mk_netif (if_hwaddr r) (if_hwaddr_len r)
  (if_ipaddr r) (if_netmask r) (if_gateway r) (if_state r) (if_type r) (if_mtu r) (if_ops r)
  (if_ops_data r) (if_link_layer r) v (if_rx_mbox_id r) (if_sem r).
Definition set_if_rx_mbox_id v (r : Netif) := mk_netif (if_hwaddr r) (if_hwaddr_len r)
  (if_ipaddr r) (if_netmask r) (if_gateway r) (if_state r) (if_type r) (if_mtu r) (if_ops r)
  (if_ops_data r) (if_link_layer r) (if_tx_mbox_id r) v (if_sem r).
Definition set_if_sem v (r : Netif) := mk_netif (if_hwaddr r) (if_hwaddr_len r) (if_ipaddr r)
  (if_netmask r) (if_gateway r) (if_state r) (if_type r) (if_mtu r) (if_ops r) (if_ops_data r)
  (if_link_layer r) (if_tx_mbox_id r) (if_rx_mbox_id r) v.

(** ** Surroundings *)

(** The link layers and drivers ([netif->link_layer], [netif->ops]) get the
    interface they are called for, and may use the packets; the protocols above
    get a packet with its addresses. *)
Class IpEnv (E : Type) := {
  kmalloc_obj : M E Z;                               (* an object's address, or 0 *)
  frag_timer_add : Z → M E Z;                        (* timer_func_add of frag_tmo, the period *)
  link_open : Z → Z → M (pworld * E) Z;              (* layer, interface *)
  link_close : Z → Z → M (pworld * E) unit;
  link_out : Z → Z → Ipaddr → Z → M (pworld * E) Z;  (* layer, interface, next hop, packet *)
  drv_open : Z → Z → Netif → M (pworld * E) (Z * Netif);  (* ops, interface: result, its fields *)
  drv_close : Z → Z → M (pworld * E) unit;
  drv_xmit : Z → Z → M (pworld * E) Z;
  ipc_mbox_init : Z → M E Z;
  ipc_mbox_free : Z → M E Z;
  kernel_mbox_send : Z → Z → Z → M E Z;              (* mailbox, the pointer sent, time out *)
  kernel_mbox_recv : Z → Z → M E (Z * Z);            (* mailbox, time out: result, the pointer *)
  kmalloc_word : M E Z;                              (* 8 bytes for a pointer, or 0 *)
  kfree_word : Z → M E unit;
  mbox_slots : Z → M E Z;                            (* get_mbox(id)->slots *)
  exmsg_netif_in : Z → M E unit;
  udp_in : Z → Ipaddr → Ipaddr → M (pworld * E) Z;
  tcp_in : Z → Ipaddr → Ipaddr → M (pworld * E) Z;
  raw_in : Z → M (pworld * E) Z
}.

(** ** The state *)

Record ipw (E : Type) := mk_ip {
  i_frags : gmap Z Ip_frag;
  i_routes : gmap Z Rentry;
  i_netifs : gmap Z Netif;
  i_cells : heap;
  i_frag_lock : bool;      (* ip_frag_head.ip_frag_list_lock *)
  i_frag_count : Z;        (* ip_frag_head.count *)
  i_frag_timer : Z;        (* frag_timer *)
  i_rt_lock : bool;        (* rt_list_lock *)
  i_packet_id : Z;         (* packet_id *)
  i_netif_lock : bool;     (* netif_list_lock *)
  i_netif_default : Z;     (* netif_default, 0 null *)
  i_link_layers : list Z;  (* link_layers *)
  i_pk : pworld;
  i_env : E
}.
Arguments mk_ip {E}.
Arguments i_frags {E} _.
Arguments i_routes {E} _.
Arguments i_netifs {E} _.
Arguments i_cells {E} _.
Arguments i_frag_lock {E} _.
Arguments i_frag_count {E} _.
Arguments i_frag_timer {E} _.
Arguments i_rt_lock {E} _.
Arguments i_packet_id {E} _.
Arguments i_netif_lock {E} _.
Arguments i_netif_default {E} _.
Arguments i_link_layers {E} _.
Arguments i_pk {E} _.
Arguments i_env {E} _.

Section state.
Context {E : Type}.

Definition Ip : Type → Type := M (ipw E).

Definition set_i_frags v (r : ipw E) := mk_ip v (i_routes r) (i_netifs r) (i_cells r)
  (i_frag_lock r) (i_frag_count r) (i_frag_timer r) (i_rt_lock r) (i_packet_id r) (i_netif_lock r)
  (i_netif_default r) (i_link_layers r) (i_pk r) (i_env r).
Definition set_i_routes v (r : ipw E) := mk_ip (i_frags r) v (i_netifs r) (i_cells r)
  (i_frag_lock r) (i_frag_count r) (i_frag_timer r) (i_rt_lock r) (i_packet_id r) (i_netif_lock r)
  (i_netif_default r) (i_link_layers r) (i_pk r) (i_env r).
Definition set_i_netifs v (r : ipw E) := mk_ip (i_frags r) (i_routes r) v (i_cells r)
  (i_frag_lock r) (i_frag_count r) (i_frag_timer r) (i_rt_lock r) (i_packet_id r) (i_netif_lock r)
  (i_netif_default r) (i_link_layers r) (i_pk r) (i_env r).
Definition set_i_cells v (r : ipw E) := mk_ip (i_frags r) (i_routes r) (i_netifs r) v
  (i_frag_lock r) (i_frag_count r) (i_frag_timer r) (i_rt_lock r) (i_packet_id r) (i_netif_lock r)
  (i_netif_default r) (i_link_layers r) (i_pk r) (i_env r).
Definition set_i_frag_lock v (r : ipw E) := mk_ip (i_frags r) (i_routes r) (i_netifs r)
  (i_cells r) v (i_frag_count r) (i_frag_timer r) (i_rt_lock r) (i_packet_id r) (i_netif_lock r)
  (i_netif_default r) (i_link_layers r) (i_pk r) (i_env r).
Definition set_i_frag_count v (r : ipw E) := mk_ip (i_frags r) (i_routes r) (i_netifs r)
  (i_cells r) (i_frag_lock r) v (i_frag_timer r) (i_rt_lock r) (i_packet_id r) (i_netif_lock r)
  (i_netif_default r) (i_link_layers r) (i_pk r) (i_env r).
Definition set_i_frag_timer v (r : ipw E) := mk_ip (i_frags r) (i_routes r) (i_netifs r)
  (i_cells r) (i_frag_lock r) (i_frag_count r) v (i_rt_lock r) (i_packet_id r) (i_netif_lock r)
  (i_netif_default r) (i_link_layers r) (i_pk r) (i_env r).
Definition set_i_rt_lock v (r : ipw E) := mk_ip (i_frags r) (i_routes r) (i_netifs r) (i_cells r)
  (i_frag_lock r) (i_frag_count r) (i_frag_timer r) v (i_packet_id r) (i_netif_lock r)
  (i_netif_default r) (i_link_layers r) (i_pk r) (i_env r).
Definition set_i_packet_id v (r : ipw E) := mk_ip (i_frags r) (i_routes r) (i_netifs r)
  (i_cells r) (i_frag_lock r) (i_frag_count r) (i_frag_timer r) (i_rt_lock r) v (i_netif_lock r)
  (i_netif_default r) (i_link_layers r) (i_pk r) (i_env r).
Definition set_i_netif_lock v (r : ipw E) := mk_ip (i_frags r) (i_routes r) (i_netifs r)
  (i_cells r) (i_frag_lock r) (i_frag_count r) (i_frag_timer r) (i_rt_lock r) (i_packet_id r) v
  (i_netif_default r) (i_link_layers r) (i_pk r) (i_env r).
Definition set_i_netif_default v (r : ipw E) := mk_ip (i_frags r) (i_routes r) (i_netifs r)
  (i_cells r) (i_frag_lock r) (i_frag_count r) (i_frag_timer r) (i_rt_lock r) (i_packet_id r)
  (i_netif_lock r) v (i_link_layers r) (i_pk r) (i_env r).
Definition set_i_link_layers v (r : ipw E) := mk_ip (i_frags r) (i_routes r) (i_netifs r)
  (i_cells r) (i_frag_lock r) (i_frag_count r) (i_frag_timer r) (i_rt_lock r) (i_packet_id r)
  (i_netif_lock r) (i_netif_default r) v (i_pk r) (i_env r).
Definition set_i_pk_env (v : pworld * E) (r : ipw E) :=
  mk_ip (i_frags r) (i_routes r) (i_netifs r) (i_cells r) (i_frag_lock r) (i_frag_count r)
  (i_frag_timer r) (i_rt_lock r) (i_packet_id r) (i_netif_lock r) (i_netif_default r)
  (i_link_layers r) v.1 v.2.

Definition on_pk {A} (m : M pworld A) : Ip A := zoom i_pk (λ p w, set_i_pk_env (p, i_env w) w) m.
Definition on_env {A} (m : M E A) : Ip A := zoom i_env (λ e w, set_i_pk_env (i_pk w, e) w) m.
Definition on_pk_env {A} (m : M (pworld * E) A) : Ip A :=
  zoom (λ w, (i_pk w, i_env w)) set_i_pk_env m.
Definition on_cells {A} (m : M heap A) : Ip A := zoom i_cells set_i_cells m.

Definition get_frag (f : Z) : Ip Ip_frag := o ← gets (λ w, i_frags w !! f); of_option o.
Definition upd_frag (f : Z) (g : Ip_frag → Ip_frag) : Ip unit :=
  v ← get_frag f; modify (λ w, set_i_frags (<[f := g v]> (i_frags w)) w).
Definition get_route (r : Z) : Ip Rentry := o ← gets (λ w, i_routes w !! r); of_option o.
Definition get_netif (n : Z) : Ip Netif := o ← gets (λ w, i_netifs w !! n); of_option o.
Definition upd_netif (n : Z) (g : Netif → Netif) : Ip unit :=
  v ← get_netif n; modify (λ w, set_i_netifs (<[n := g v]> (i_netifs w)) w).

(** Links: [ip_frag_link] and the head [ip_frag_buf_list] of a fragment queue,
    [ip_frag_link] of a packet, [rentry_link] of a route, [netif_link] of an
    interface, and the module's list heads. *)
Definition frag_link (f : Z) : Z := 5 * f.
Definition ip_frag_buf_list (f : Z) : Z := 5 * f + 1.
Definition pkt_frag_link (b : Z) : Z := 5 * b + 2.
Definition rentry_link (r : Z) : Z := 5 * r + 3.
Definition netif_link (n : Z) : Z := 5 * n + 4.
Definition ip_frag_list : Z := -5.
Definition rt_list : Z := -4.
Definition netif_list : Z := -3.
(** [le2ip_frag], [le2pktbuf_ip_frag], [le2rentry], [le2netif]. *)
Definition le2obj (le : Z) : Z := le / 5.

(** Memory obtained and given back, with the links in it. *)
Definition new_cell (a : Z) : Ip unit := modify (λ w, set_i_cells (<[a := mk_entry 0 0]> (i_cells w)) w).
Definition drop_cell (a : Z) : Ip unit := modify (λ w, set_i_cells (delete a (i_cells w)) w).
Definition kfree_frag (f : Z) : Ip unit :=
  get_frag f;; modify (λ w, set_i_frags (delete f (i_frags w)) w);;
  drop_cell (frag_link f);; drop_cell (ip_frag_buf_list f).
Definition kfree_route (r : Z) : Ip unit :=
  get_route r;; modify (λ w, set_i_routes (delete r (i_routes w)) w);; drop_cell (rentry_link r).

(** [&buf->ip_frag_link]: part of the packet, so there as long as the packet is. *)
Definition buf_link (b : Z) : Ip Z :=
  on_pk (get_buf b);;
  h ← gets i_cells;
  match h !! pkt_frag_link b with
  | Some _ => mret tt
  | None => new_cell (pkt_frag_link b)
  end;;
  mret (pkt_frag_link b).
(** A packet that is gone took its link along. *)
Definition drop_link (b : Z) : Ip unit :=
  o ← gets (λ w, bufs (i_pk w) !! b);
  match o with Some _ => mret tt | None => drop_cell (pkt_frag_link b) end.

(** The spinlocks, as in [Pktbuf]. *)
Definition acquire_frags : Ip unit :=
  l ← gets i_frag_lock; assert_ (negb l);; modify (set_i_frag_lock true).
Definition release_frags : Ip unit :=
  l ← gets i_frag_lock; assert_ l;; modify (set_i_frag_lock false).
Definition acquire_routes : Ip unit :=
  l ← gets i_rt_lock; assert_ (negb l);; modify (set_i_rt_lock true).
Definition release_routes : Ip unit :=
  l ← gets i_rt_lock; assert_ l;; modify (set_i_rt_lock false).
Definition acquire_netifs : Ip unit :=
  l ← gets i_netif_lock; assert_ (negb l);; modify (set_i_netif_lock true).
Definition release_netifs : Ip unit :=
  l ← gets i_netif_lock; assert_ l;; modify (set_i_netif_lock false).
Definition acquire_frag (f : Z) : Ip unit :=
  v ← get_frag f; assert_ (negb (fg_lock v));; upd_frag f (set_fg_lock true).
Definition release_frag (f : Z) : Ip unit :=
  v ← get_frag f; assert_ (fg_lock v);; upd_frag f (set_fg_lock false).

Definition ip_for_each {L A} : Z → (L → Z → Ip (L + A)) → L → Ip (L + A) :=
  for_each (λ a, on_cells (list_next a)) (gets (λ w, size (i_cells w))).

(** The pointer is dereferenced, so it is not null. *)
Definition pkt_ptr (b : Z) : Ip bptr := on_pk (hdr_ptr b).
End state.
Arguments Ip : clear implicits.
