(* ===== verification/IpWp.v ===== *)
(** * Total correctness for the IP layer

    The rules of [wp] for the accessors of [IpState]. *)
From S2P Require Import Prelude Errors PacketIO Nettool ListH Ipaddr Pktbuf PktbufOps PktbufCursor PktbufSpec PktMem IpState.

Section wp.
Context {E : Type}.
Implicit Types (w : ipw E).

Lemma set_i_cells_id w : set_i_cells (i_cells w) w = w.
Proof. by destruct w. Qed.

Lemma wp_ip_pk {A} (m : M pworld A) w (Q : A → ipw E → Prop) :
  wp m (i_pk w) (λ a p, Q a (set_i_pk_env (p, i_env w) w)) → wp (on_pk m) w Q.
Proof. unfold on_pk. by rewrite wp_zoom. Qed.

Lemma wp_ip_env {A} (m : M E A) w (Q : A → ipw E → Prop) :
  wp m (i_env w) (λ a e, Q a (set_i_pk_env (i_pk w, e) w)) → wp (on_env m) w Q.
Proof. unfold on_env. by rewrite wp_zoom. Qed.

Lemma wp_ip_pk_env {A} (m : M (pworld * E) A) w (Q : A → ipw E → Prop) :
  wp m (i_pk w, i_env w) (λ a p, Q a (set_i_pk_env p w)) → wp (on_pk_env m) w Q.
Proof. unfold on_pk_env. by rewrite wp_zoom. Qed.

Lemma wp_ip_cells {A} (m : M heap A) w (Q : A → ipw E → Prop) :
  wp m (i_cells w) (λ a h, Q a (set_i_cells h w)) → wp (on_cells m) w Q.
Proof. unfold on_cells. by rewrite wp_zoom. Qed.

(** Reads of the cells leave the state alone. *)
Lemma wp_cells_read {A} (m : M heap A) w a (Q : A → ipw E → Prop) :
  m (i_cells w) = Ok (a, i_cells w) → Q a w → wp (on_cells m) w Q.
Proof.
  intros Hm HQ. apply wp_ip_cells. eapply wp_of_run; [done|]. by rewrite set_i_cells_id.
Qed.

Lemma next_run h a b : nxt h a = Some b → list_next a h = Ok (b, h).
Proof. intros Hn. apply wp_result. by eapply wp_list_next. Qed.

Lemma prev_run h a b : prv h b = Some a → list_prev b h = Ok (a, h).
Proof. intros Hn. apply wp_result. by eapply wp_list_prev. Qed.

Lemma count_run h hd es : is_list h hd es → list_count hd h = Ok (u64 (zlen es), h).
Proof. intros Hl. apply wp_result. by eapply wp_list_count. Qed.

Lemma empty_run h hd es : is_list h hd es → list_empty hd h = Ok (bool_decide (es = []), h).
Proof. intros Hl. apply wp_result. by eapply wp_list_empty. Qed.

Lemma wp_get_frag f v w (Q : Ip_frag → ipw E → Prop) :
  i_frags w !! f = Some v → Q v w → wp (get_frag f) w Q.
Proof.
  intros Hs HQ. unfold get_frag. apply wp_bind, wp_gets. rewrite Hs. by apply wp_of_option; eauto.
Qed.

Lemma wp_upd_frag f g v w (Q : unit → ipw E → Prop) :
  i_frags w !! f = Some v → Q tt (set_i_frags (<[f := g v]> (i_frags w)) w) →
  wp (upd_frag f g) w Q.
Proof.
  intros Hs HQ. unfold upd_frag. apply wp_bind. eapply wp_get_frag; [done|]. by apply wp_modify.
Qed.

Lemma wp_get_route r v w (Q : Rentry → ipw E → Prop) :
  i_routes w !! r = Some v → Q v w → wp (get_route r) w Q.
Proof.
  intros Hs HQ. unfold get_route. apply wp_bind, wp_gets. rewrite Hs. by apply wp_of_option; eauto.
Qed.

Lemma wp_get_netif n v w (Q : Netif → ipw E → Prop) :
  i_netifs w !! n = Some v → Q v w → wp (get_netif n) w Q.
Proof.
  intros Hs HQ. unfold get_netif. apply wp_bind, wp_gets. rewrite Hs. by apply wp_of_option; eauto.
Qed.

Lemma wp_upd_netif n g v w (Q : unit → ipw E → Prop) :
  i_netifs w !! n = Some v → Q tt (set_i_netifs (<[n := g v]> (i_netifs w)) w) →
  wp (upd_netif n g) w Q.
Proof.
  intros Hs HQ. unfold upd_netif. apply wp_bind. eapply wp_get_netif; [done|]. by apply wp_modify.
Qed.

Lemma wp_drop_cell a w (Q : unit → ipw E → Prop) :
  Q tt (set_i_cells (delete a (i_cells w)) w) → wp (drop_cell a) w Q.
Proof. intros HQ. by apply wp_modify. Qed.

Lemma wp_new_cell a w (Q : unit → ipw E → Prop) :
  Q tt (set_i_cells (<[a := mk_entry 0 0]> (i_cells w)) w) → wp (new_cell a) w Q.
Proof. intros HQ. by apply wp_modify. Qed.

Lemma wp_kfree_route r v w (Q : unit → ipw E → Prop) :
  i_routes w !! r = Some v →
  Q tt (set_i_cells (delete (rentry_link r) (i_cells w)) (set_i_routes (delete r (i_routes w)) w)) →
  wp (kfree_route r) w Q.
Proof.
  intros Hr HQ. unfold kfree_route. apply wp_bind. eapply wp_get_route; [done|].
  apply wp_bind, wp_modify. by apply wp_drop_cell.
Qed.

Lemma wp_acquire_routes w (Q : unit → ipw E → Prop) :
  i_rt_lock w = false → Q tt (set_i_rt_lock true w) → wp acquire_routes w Q.
Proof.
  intros Hl HQ. unfold acquire_routes. rewrite wp_bind, wp_gets, wp_bind, wp_assert, Hl.
  by rewrite wp_modify.
Qed.

Lemma wp_release_routes w (Q : unit → ipw E → Prop) :
  i_rt_lock w = true → Q tt (set_i_rt_lock false w) → wp release_routes w Q.
Proof.
  intros Hl HQ. unfold release_routes. rewrite wp_bind, wp_gets, wp_bind, wp_assert, Hl.
  by rewrite wp_modify.
Qed.

Lemma set_rt_lock_id w b : i_rt_lock w = b → set_i_rt_lock b w = w.
Proof. intros <-. by destruct w. Qed.

Lemma set_rt_lock_twice w a b : set_i_rt_lock a (set_i_rt_lock b w) = set_i_rt_lock a w.
Proof. done. Qed.

(** Walks of the lists. *)
Lemma wp_ip_for_each {L A} hd es (body : L → Z → Ip E (L + A)) (f : L → Z → L + A) w l
    (Q : L + A → ipw E → Prop) :
  is_list (i_cells w) hd es → (∀ l le, le ∈ es → body l le w = Ok (f l le, w)) →
  Q (walk f es l) w → wp (ip_for_each hd body l) w Q.
Proof.
  intros Hl Hb HQ. pose proof (is_list_size _ _ _ Hl) as Hsz. unfold ip_for_each.
  eapply (wp_for_each_read (i_cells w)); [done| |done|lia|done|done].
  intros a b Hab. apply wp_result. eapply wp_cells_read; [by apply next_run|done].
Qed.

Lemma wp_ip_for_each_inv {L A} hd es (body : L → Z → Ip E (L + A)) (P : list Z → L → Prop) w l
    (Q : L + A → ipw E → Prop) :
  is_list (i_cells w) hd es →
  (∀ l1 e l2 l, es = l1 ++ e :: l2 → P l1 l → wp (body l e) w (λ r w',
     match r with inl l' => w' = w ∧ P (l1 ++ [e]) l' | inr a => Q (inr a) w' end)) →
  (∀ l, P es l → Q (inl l) w) → P [] l → wp (ip_for_each hd body l) w Q.
Proof.
  intros Hl Hb HQ H0. pose proof (is_list_size _ _ _ Hl) as Hsz. unfold ip_for_each.
  eapply (wp_for_each_inv (i_cells w)); [done| |done|lia|done|done|done].
  intros a b Hab. apply wp_result. eapply wp_cells_read; [by apply next_run|done].
Qed.
End wp.

(** * Surroundings for examples

    A link layer that takes every packet: it notes the interface, the next hop and
    the bytes, and frees the packet; an allocator that counts up; mailboxes that
    take every message.  The witnesses of the IP layer's properties run on it. *)

Record wire := mk_wire {
  wi_next : Z;                          (* the next address *)
  wi_sent : list (Z * Ipaddr * bytes)   (* interface, next hop, packet *)
}.

Definition wire_alloc : M wire Z := λ e, Ok (wi_next e, mk_wire (wi_next e + 1) (wi_sent e)).

(** A packet is noted and given back. *)
Definition wire_take (n : Z) (ip : Ipaddr) (b : Z) : M (pworld * wire) Z := λ '(pk, e),
  match bufs pk !! b with
  | Some v =>
      '(_, pk') ← pktbuf_free b pk;
      Ok (NET_OK, (pk', mk_wire (wi_next e) (wi_sent e ++ [(n, ip, content v)])))
  | None => Undef
  end.

#[export] Instance wire_env : IpEnv wire := {
  kmalloc_obj := wire_alloc;
  frag_timer_add _ := wire_alloc;
  link_open _ _ := mret NET_OK;
  link_close _ _ := mret tt;
  link_out _ n ip b := wire_take n ip b;
  drv_open _ _ v := mret (NET_OK, set_if_type NETIF_TYPE_LOOP v);
  drv_close _ _ := mret tt;
  drv_xmit _ _ := mret NET_OK;
  ipc_mbox_init _ := wire_alloc;
  ipc_mbox_free _ := mret 0;
  kernel_mbox_send _ _ _ := mret 0;
  kernel_mbox_recv _ _ := mret (- E_MBX_EMPTY, 0);
  kmalloc_word := wire_alloc;
  kfree_word _ := mret tt;
  mbox_slots _ := mret 2;
  exmsg_netif_in _ := mret tt;
  udp_in b _ _ := mret (- E_NET_UNREACH);
  tcp_in b _ _ := mret NET_OK;
  raw_in _ := mret (- E_NET_MATCH)
}.

(** The module's list heads, empty. *)
Definition ip_heads : heap := list_to_map
  [(ip_frag_list, mk_entry ip_frag_list ip_frag_list); (rt_list, mk_entry rt_list rt_list);
   (netif_list, mk_entry netif_list netif_list)].

(** 192.168.1.2/24 on an Ethernet interface. *)
Definition demo_ip : Ipaddr := q_addr [192; 168; 1; 2].
Definition demo_mask : Ipaddr := q_addr [255; 255; 255; 0].
Definition demo_netif : Netif :=
  mk_netif [2; 0; 0; 0; 0; 1; 0; 0; 0; 0] 6 demo_ip demo_mask 0 NETIF_ACTIVE NETIF_TYPE_ETHER
    1500 1 0 1 0 1 1.

Definition demo_ipw (pk : pworld) : ipw wire :=
  mk_ip ∅ ∅ {[1 := demo_netif]} ip_heads false 0 0 false 7 false 1 [0; 1; 0] pk (mk_wire 100 []).
