(* ===== verification/Route.v ===== *)
(** * Routes: the routing table of [net/ipv4.c]

    The table is a list of [Rentry]s; [rt_find] is the longest matching prefix,
    the first of the list among prefixes of one length. *)
From S2P Require Import Prelude Errors PacketIO Nettool ListH Ipaddr Pktbuf PktbufOps PktbufCursor PktbufSpec PktMem IpState.

Section route.
Context {E : Type} `{IE : !IpEnv E}.

(** ** Operations *)

Definition rts_init : Ip E unit :=
  on_cells (list_init rt_list);; modify (set_i_rt_lock false).

Definition rt_has_exist (net mask : Ipaddr) : Ip E bool :=
  acquire_routes;;
  r ← ip_for_each rt_list (λ _ le,
    v ← get_route (le2obj le);
    if ipaddr_is_equal (re_net v) net && ipaddr_is_equal (re_mask v) mask then mret (inr true)
    else mret (inl tt)) tt;
  release_routes;;
  mret (match r with inr b => b | inl _ => false end).

(** On a full table the last entry is unlinked, and the entry before it freed. *)
Definition rt_add (net mask next_hop : Ipaddr) (netif : Z) : Ip E unit :=
  e ← rt_has_exist net mask;
  if (e : bool) then mret tt else
  rentry ← on_env kmalloc_obj;
  assert_ (negb (rentry =? 0));;
  cnt ← of_outcome (ipaddr_1_cnt mask);
  modify (λ w, set_i_routes (<[rentry := mk_rentry net mask cnt next_hop netif]> (i_routes w)) w);;
  new_cell (rentry_link rentry);;
  acquire_routes;;
  n ← on_cells (list_count rt_list);
  (if n =? IP_RTABLE_SIZE then
     e ← on_cells (list_empty rt_list);
     assert_ (negb e);;
     p ← on_cells (list_prev rt_list);
     on_cells (list_del p);;
     p ← on_cells (list_prev rt_list);
     kfree_route (le2obj p)
   else mret tt);;
  on_cells (list_add_after rt_list (rentry_link rentry));;
  release_routes.

(** The loop looks at the first entry, round after round, until that entry is
    the one to remove or the table is empty. *)
Definition rt_remove_loop (fuel : nat) (net mask : Ipaddr) : Ip E unit :=
  loop fuel (λ _ : unit,
    le ← on_cells (list_next rt_list);
    if le =? rt_list then mret (inr tt) else
    v ← get_route (le2obj le);
    if ipaddr_is_equal (re_net v) net && ipaddr_is_equal (re_mask v) mask then
      on_cells (list_del le);; kfree_route (le2obj le);; mret (inr tt)
    else mret (inl tt)) tt.

Definition rt_remove (fuel : nat) (net mask : Ipaddr) : Ip E unit :=
  acquire_routes;; rt_remove_loop fuel net mask;; release_routes.

(** The entry found, or 0. *)
Definition rt_find (ip : Ipaddr) : Ip E Z :=
  acquire_routes;;
  r ← ip_for_each rt_list (λ find_rentry le,
    let rentry := le2obj le in
    v ← get_route rentry;
    let net := ipaddr_get_net ip (re_mask v) in
    if negb (ipaddr_is_equal net (re_net v)) then mret (inl find_rentry)
    else if find_rentry =? 0 then mret (inl rentry)
    else
      fv ← get_route find_rentry;
      mret (inl (if re_mask_1_cnt fv <? re_mask_1_cnt v then rentry else find_rentry))) 0;
  release_routes;;
  mret (walked r).
End route.
