(* ===== verification/Netif.v ===== *)
(** * Interfaces: [net/netif.c], [net/netif.h]

    An interface is opened, given an address, made active (which allocates its
    two mailboxes and adds its routes) and inactive again.  Its semaphore orders
    these calls; packets go to its link layer, or straight to its mailbox. *)
From S2P Require Import Prelude Errors PacketIO Nettool ListH Ipaddr Pktbuf PktbufOps PktbufCursor PktbufSpec PktMem IpState Route.

Definition NETIF_HWADDR_SIZE : Z := 10.
Definition RX_TX_RX_MSG_CNT : Z := 2000.

Section netif.
Context {E : Type} `{IE : !IpEnv E}.

(** [down] and [up] on the interface's semaphore: with no other task, [down] on
    zero sleeps for good. *)
Definition lock_netif (n : Z) : Ip E unit :=
  v ← get_netif n;
  if 0 <? if_sem v then upd_netif n (set_if_sem (if_sem v - 1)) else block.
Definition unlock_netif (n : Z) : Ip E unit :=
  v ← get_netif n;
  s ← of_outcome (signed 32 (if_sem v + 1));
  upd_netif n (set_if_sem s).

Definition netif_init : Ip E Z :=
  on_cells (list_init netif_list);;
  modify (set_i_netif_lock false);;
  modify (set_i_netif_default 0);;
  modify (set_i_link_layers [0; 0; 0]);;
  mret NET_OK.

Definition netif_register_layer (type layer : Z) : Ip E Z :=
  if (type <? 0) || (NETIF_TYPE_SIZE <=? type) then mret (- E_NET_PARAM) else
  ls ← gets i_link_layers;
  l ← of_option (zlookup ls type);
  if negb (l =? 0) then mret (- E_NET_PARAM) else
  ls ← of_option (zset ls type layer);
  modify (set_i_link_layers ls);;
  mret NET_OK.

Definition netif_get_layer (type : Z) : Ip E Z :=
  if (type <? 0) || (NETIF_TYPE_SIZE <=? type) then mret 0 else
  ls ← gets i_link_layers;
  of_option (zlookup ls type).

(** What the memory of the structure holds before it is written has no part in
    the result. *)
Definition netif_open (ops ops_data : Z) : Ip E Z :=
  n ← on_env kmalloc_obj;
  assert_ (negb (n =? 0));;
  let v := mk_netif (replicate 10 0) 0 ipaddr_set_any ipaddr_set_any ipaddr_set_any NETIF_CLOSED
    NETIF_TYPE_NONE 0 ops ops_data 0 NETIF_MBOX_ID_NULL NETIF_MBOX_ID_NULL 1 in
  '(ret, v) ← on_pk_env (drv_open ops n v);
  modify (λ w, set_i_netifs (<[n := v]> (i_netifs w)) w);;
  new_cell (netif_link n);;
  assert_ ((ret =? NET_OK) && negb (if_type v =? NETIF_TYPE_NONE));;
  upd_netif n (set_if_tx_mbox_id NETIF_MBOX_ID_NULL);;
  upd_netif n (set_if_rx_mbox_id NETIF_MBOX_ID_NULL);;
  upd_netif n (set_if_state NETIF_OPENED);;
  layer ← netif_get_layer (if_type v);
  upd_netif n (set_if_link_layer layer);;
  (if (layer =? 0) && negb (if_type v =? NETIF_TYPE_LOOP) then panic else mret tt);;
  acquire_netifs;;
  on_cells (list_add netif_list (netif_link n));;
  release_netifs;;
  mret n.

(** A null address is [ipaddr_get_any()]. *)
Definition netif_set_addr (n : Z) (ip netmask gateway : option Ipaddr) : Ip E Z :=
  lock_netif n;;
  upd_netif n (set_if_ipaddr (default ipaddr_get_any ip));;
  upd_netif n (set_if_netmask (default ipaddr_get_any netmask));;
  upd_netif n (set_if_gateway (default ipaddr_get_any gateway));;
  unlock_netif n;;
  mret NET_OK.

Definition netif_set_hwaddr (n : Z) (hwaddr : bytes) (len : Z) : Ip E Z :=
  lock_netif n;;
  v ← get_netif n;
  src ← of_option (mem_read hwaddr 0 len);
  d ← of_option (mem_write (if_hwaddr v) 0 src);
  upd_netif n (set_if_hwaddr d);;
  upd_netif n (set_if_hwaddr_len (u8 len));;
  unlock_netif n;;
  mret NET_OK.

Definition netif_set_default_nolock (fuel : nat) (n : Z) : Ip E unit :=
  v ← get_netif n;
  (if negb (ipaddr_is_any (if_gateway v)) then
     d ← gets i_netif_default;
     (if negb (d =? 0) then rt_remove fuel ipaddr_get_any ipaddr_get_any else mret tt);;
     rt_add ipaddr_get_any ipaddr_get_any (if_gateway v) n
   else mret tt);;
  modify (set_i_netif_default n).

Definition netif_set_default (fuel : nat) (n : Z) : Ip E unit :=
  acquire_netifs;; netif_set_default_nolock fuel n;; release_netifs.

Definition netif_get_default : Ip E Z := gets i_netif_default.

Definition netif_set_active (fuel : nat) (n : Z) : Ip E Z :=
  lock_netif n;;
  v ← get_netif n;
  if negb (bool_decide (if_state v = NETIF_OPENED)) then unlock_netif n;; mret (- E_NET_STATE) else
  assert_ (if_tx_mbox_id v =? NETIF_MBOX_ID_NULL);;
  tx ← on_env (ipc_mbox_init RX_TX_RX_MSG_CNT);
  upd_netif n (set_if_tx_mbox_id tx);;
  v ← get_netif n;
  assert_ (if_rx_mbox_id v =? NETIF_MBOX_ID_NULL);;
  rx ← on_env (ipc_mbox_init RX_TX_RX_MSG_CNT);
  upd_netif n (set_if_rx_mbox_id rx);;
  upd_netif n (set_if_state NETIF_ACTIVE);;
  unlock_netif n;;
  ret ← (if negb (if_link_layer v =? 0) then on_pk_env (link_open (if_link_layer v) n)
         else mret NET_OK);
  if ret <? 0 then mret ret else
  let ip := ipaddr_get_net (if_ipaddr v) (if_netmask v) in
  rt_add ip (if_netmask v) ipaddr_get_any n;;
  rt_add (if_ipaddr v) ipaddr_set_all_1 ipaddr_get_any n;;
  acquire_netifs;;
  d ← gets i_netif_default;
  (if (d =? 0) && negb (if_type v =? NETIF_TYPE_LOOP) then netif_set_default_nolock fuel n
   else mret tt);;
  release_netifs;;
  mret NET_OK.

Definition close_link (n : Z) : Ip E unit :=
  v ← get_netif n;
  if negb (if_link_layer v =? 0) then on_pk_env (link_close (if_link_layer v) n) else mret tt.

Definition netif_set_inactive (fuel : nat) (n : Z) (force : bool) : Ip E Z :=
  if force then
    upd_netif n (set_if_state NETIF_OPENED);;
    close_link n;;
    v ← get_netif n;
    on_env (ipc_mbox_free (if_tx_mbox_id v));;
    upd_netif n (set_if_tx_mbox_id NETIF_MBOX_ID_NULL);;
    on_env (ipc_mbox_free (if_rx_mbox_id v));;
    upd_netif n (set_if_rx_mbox_id NETIF_MBOX_ID_NULL);;
    acquire_netifs;;
    d ← gets i_netif_default;
    (if d =? n then modify (set_i_netif_default 0) else mret tt);;
    release_netifs;;
    mret NET_OK
  else
    lock_netif n;;
    v ← get_netif n;
    if negb (bool_decide (if_state v = NETIF_ACTIVE)) then
      unlock_netif n;; mret (- E_NET_STATE)
    else
    r ← on_env (ipc_mbox_free (if_tx_mbox_id v));
    assert_ (r =? 0);;
    upd_netif n (set_if_tx_mbox_id NETIF_MBOX_ID_NULL);;
    r ← on_env (ipc_mbox_free (if_rx_mbox_id v));
    assert_ (r =? 0);;
    upd_netif n (set_if_rx_mbox_id NETIF_MBOX_ID_NULL);;
    upd_netif n (set_if_state NETIF_OPENED);;
    close_link n;;
    unlock_netif n;;
    let ip := ipaddr_get_net (if_ipaddr v) (if_netmask v) in
    rt_remove fuel ip (if_netmask v);;
    rt_remove fuel (if_ipaddr v) (if_netmask v);;
    acquire_netifs;;
    d ← gets i_netif_default;
    (if d =? n then
       modify (set_i_netif_default 0);; rt_remove fuel ipaddr_get_any ipaddr_get_any
     else mret tt);;
    release_netifs;;
    mret NET_OK.

Definition netif_close (n : Z) : Ip E Z :=
  lock_netif n;;
  v ← get_netif n;
  if bool_decide (if_state v = NETIF_ACTIVE) then unlock_netif n;; mret (- E_NET_STATE) else
  assert_ (if_tx_mbox_id v =? NETIF_MBOX_ID_NULL);;
  assert_ (if_rx_mbox_id v =? NETIF_MBOX_ID_NULL);;
  on_pk_env (drv_close (if_ops v) n);;
  upd_netif n (set_if_state NETIF_CLOSED);;
  unlock_netif n;;
  acquire_netifs;;
  on_cells (list_del (netif_link n));;
  release_netifs;;
  mret NET_OK.

(** [Mboxbuf]'s data: eight bytes for the pointer; [memcpy] writes to them. *)
Definition put_msg (mbox b tmo : Z) : Ip E (Z * Z) :=
  d ← on_env kmalloc_word;
  (if d =? 0 then undef else mret tt);;
  ret ← on_env (kernel_mbox_send mbox b tmo);
  assert_ ((ret =? 0) || (ret =? - E_TIMEOUT) || (ret =? -1) || (ret =? - E_MBX_FULL));;
  mret (ret, d).

(** A message that is not taken leaves its data allocated. *)
Definition netif_put_out (n b tmo : Z) : Ip E Z :=
  lock_netif n;;
  v ← get_netif n;
  if negb (bool_decide (if_state v = NETIF_ACTIVE)) then
    unlock_netif n;; mret (- E_NET_STATE)
  else
  assert_ (negb (if_tx_mbox_id v =? NETIF_MBOX_ID_NULL));;
  '(ret, d) ← put_msg (if_tx_mbox_id v) b tmo;
  if (ret =? - E_TIMEOUT) || (ret =? - E_MBX_FULL) then unlock_netif n;; mret ret else
  if ret =? -1 then unlock_netif n;; mret ret else
  on_env (kfree_word d);;
  unlock_netif n;;
  mret NET_OK.

Definition netif_put_in (n b tmo : Z) : Ip E Z :=
  lock_netif n;;
  v ← get_netif n;
  if negb (bool_decide (if_state v = NETIF_ACTIVE)) then
    unlock_netif n;; mret (- E_NET_STATE)
  else
  assert_ (negb (if_rx_mbox_id v =? NETIF_MBOX_ID_NULL));;
  '(ret, d) ← put_msg (if_rx_mbox_id v) b tmo;
  if (ret =? - E_TIMEOUT) || (ret =? - E_MBX_FULL) then unlock_netif n;; mret ret else
  if ret =? -1 then unlock_netif n;; mret ret else
  on_env (kfree_word d);;
  unlock_netif n;;
  slots ← on_env (mbox_slots (if_rx_mbox_id v));
  (if slots =? 1 then on_env (exmsg_netif_in n) else mret tt);;
  mret NET_OK.

(** A packet taken from a mailbox, its cursor at the start; 0 when there is none. *)
Definition get_msg (n mbox tmo : Z) : Ip E Z :=
  d ← on_env kmalloc_word;
  '(ret, b) ← on_env (kernel_mbox_recv mbox tmo);
  assert_ ((ret =? 0) || (ret =? - E_TIMEOUT) || (ret =? -1) || (ret =? - E_MBX_EMPTY));;
  if (ret =? - E_TIMEOUT) || (ret =? - E_MBX_EMPTY) then unlock_netif n;; mret 0 else
  if ret =? -1 then unlock_netif n;; mret 0 else
  (if d =? 0 then undef else mret tt);;
  on_pk (pktbuf_reset_acc b);;
  on_env (kfree_word d);;
  unlock_netif n;;
  mret b.

Definition netif_get_out (n tmo : Z) : Ip E Z :=
  lock_netif n;;
  v ← get_netif n;
  if negb (bool_decide (if_state v = NETIF_ACTIVE)) then unlock_netif n;; mret 0 else
  assert_ (negb (if_tx_mbox_id v =? NETIF_MBOX_ID_NULL));;
  get_msg n (if_tx_mbox_id v) tmo.

Definition netif_get_in (n tmo : Z) : Ip E Z :=
  lock_netif n;;
  v ← get_netif n;
  if negb (bool_decide (if_state v = NETIF_ACTIVE)) then unlock_netif n;; mret 0 else
  assert_ (negb (if_rx_mbox_id v =? NETIF_MBOX_ID_NULL));;
  get_msg n (if_rx_mbox_id v) tmo.

Definition netif_out (n : Z) (ip : Ipaddr) (b : Z) : Ip E Z :=
  v ← get_netif n;
  if negb (if_link_layer v =? 0) then
    ret ← on_pk_env (link_out (if_link_layer v) n ip b);
    mret (if ret <? 0 then ret else NET_OK)
  else
    ret ← netif_put_out n b (-1);
    if negb (ret =? 0) then mret ret else on_pk_env (drv_xmit (if_ops v) n).
End netif.
