(* ===== verification/IpOut.v ===== *)
(** * Sending datagrams: [ip_frag_out], [ipv4_out] of [net/ipv4.c] *)
From S2P Require Import Prelude Errors PacketIO Nettool ListH Ipaddr Pktbuf PktbufOps PktbufCursor PktbufSpec PktMem IpState Route Netif.

(** Network order, both ways: every one of the three words is swapped. *)
Definition iphdr_htons (h : Ipv4_hdr) : Ipv4_hdr :=
  set_frag_all (x_ntohs (frag_all h))
    (set_ih_id (x_htons (ih_id h)) (set_ih_total_len (x_htons (ih_total_len h)) h)).
Definition iphdr_ntohs (h : Ipv4_hdr) : Ipv4_hdr :=
  set_frag_all (x_ntohs (frag_all h))
    (set_ih_id (x_ntohs (ih_id h)) (set_ih_total_len (x_ntohs (ih_total_len h)) h)).

(** The fields of a new header, in the order both senders assign them; a null or
    unset source is the interface's address. *)
Definition fill_ip_header (total id protocol : Z) (dest : Ipaddr) (src : option Ipaddr) (v : Netif)
    (h : Ipv4_hdr) : Ipv4_hdr :=
  set_ih_dest dest
    (set_ih_src (match src with
                 | Some s => if ipaddr_is_any s then if_ipaddr v else s
                 | None => if_ipaddr v
                 end)
    (set_ih_checksum 0 (set_ih_protocol protocol (set_ih_ttl NET_IP_DEF_TTL
    (set_frag_all 0 (set_ih_id id (set_ih_total_len (u16 total)
    (set_header_size SIZEOF_IPV4_HDR (set_ih_version NET_VERSION_IPV4
    (set_shdr_all 0 h)))))))))).

Section out.
Context {E : Type} `{IE : !IpEnv E} `{K : !Kmalloc}.

(** What of [total] bytes the next fragment takes. *)
Definition frag_cut (mtu total : Z) : Z :=
  let room := u64 (mtu - SIZEOF_IPV4_HDR) in
  let cur_size := if room <? total then room else total in
  if cur_size <? total then Z.land cur_size (u64 (Z.lnot 7)) else cur_size.

(** Header order, checksum, and on to the interface. *)
Definition finish_header (b : Z) (pkt : bptr) : Ip E unit :=
  h ← on_pk (ip_load pkt);
  c ← on_pk (pktbuf_checksum16 b (ipv4_hdr_size h) 0 true);
  on_pk (ip_upd pkt (set_ih_checksum c)).

(** One round of the loop of [ip_frag_out]: [total] bytes are left, [offset] are
    sent; an error leaves the function. *)
Definition send_frag (protocol : Z) (dest : Ipaddr) (src : option Ipaddr) (b : Z) (next : Ipaddr)
    (n : Z) (total offset : Z) : Ip E ((Z * Z) + Z) :=
  v ← get_netif n;
  let cur_size := frag_cut (if_mtu v) total in
  dest_buf ← on_pk (pktbuf_alloc (u64 (cur_size + SIZEOF_IPV4_HDR)));
  assert_ (negb (dest_buf =? 0));;
  pkt ← pkt_ptr dest_buf;
  db ← on_pk (get_buf dest_buf);
  id ← gets i_packet_id;
  on_pk (ip_upd pkt (fill_ip_header (total_size db) id protocol dest src v));;
  on_pk (ip_upd pkt (set_ih_offset (Z.land (Z.shiftr offset 3) 8191)));;
  on_pk (ip_upd pkt (set_ih_more (cur_size <? total)));;
  on_pk (pktbuf_seek dest_buf SIZEOF_IPV4_HDR);;
  ret ← on_pk (pktbuf_copy dest_buf b cur_size);
  if ret <? 0 then on_pk (pktbuf_free dest_buf);; mret (inr ret) else
  on_pk (ip_upd pkt iphdr_htons);;
  on_pk (pktbuf_seek dest_buf 0);;
  finish_header dest_buf pkt;;
  ret ← netif_out n next dest_buf;
  if ret <? 0 then on_pk (pktbuf_free dest_buf);; mret (inr ret) else
  mret (inl (u64 (total - cur_size), u64 (offset + cur_size))).

(** Every round takes at least one byte when the MTU leaves room for eight. *)
Definition ip_frag_out (protocol : Z) (dest : Ipaddr) (src : option Ipaddr) (b : Z) (next : Ipaddr)
    (n : Z) : Ip E Z :=
  on_pk (pktbuf_reset_acc b);;
  v ← on_pk (get_buf b);
  r ← loop (S (Z.to_nat (total_size v))) (λ '(total, offset),
    if total =? 0 then mret (inr None) else
    r ← send_frag protocol dest src b next n total offset;
    match r with
    | inl l => mret (inl l)
    | inr ret => mret (inr (Some ret))
    end) (total_size v, 0);
  match r with
  | Some ret => mret ret
  | None =>
      id ← gets i_packet_id;
      modify (set_i_packet_id (u16 (id + 1)));;
      on_pk (pktbuf_free b);;
      mret NET_OK
  end.

Definition ipv4_out (protocol : Z) (dest : Ipaddr) (src : option Ipaddr) (b : Z) : Ip E Z :=
  r ← rt_find dest;
  if r =? 0 then mret (- E_NET_MATCH) else
  rt ← get_route r;
  let next_hop := if ipaddr_is_any (re_next_hop rt) then dest else re_next_hop rt in
  let n := re_netif rt in
  v ← get_netif n;
  pb ← on_pk (get_buf b);
  if negb (if_mtu v =? 0) && (if_mtu v <? u64 (total_size pb + SIZEOF_IPV4_HDR)) then
    ret ← ip_frag_out protocol dest src b next_hop n;
    mret (if ret <? 0 then ret else NET_OK)
  else
  ret ← on_pk (pktbuf_add_header b SIZEOF_IPV4_HDR true);
  if ret <? 0 then mret (- E_NET_SIZE) else
  pkt ← pkt_ptr b;
  pb ← on_pk (get_buf b);
  id ← gets i_packet_id;
  modify (set_i_packet_id (u16 (id + 1)));;
  on_pk (ip_upd pkt (fill_ip_header (total_size pb) id protocol dest src v));;
  on_pk (ip_upd pkt iphdr_htons);;
  on_pk (pktbuf_reset_acc b);;
  finish_header b pkt;;
  ret ← netif_out n next_hop b;
  mret (if ret <? 0 then ret else NET_OK).
End out.
