(* ===== verification/IpWire.v ===== *)
(** * The IP header on the wire

    The header as RFC 791 draws it, in network order; that the record, its layout
    in memory and [iphdr_htons] give it; access to the header in a packet through
    the pointer [pktbuf_data] returns. *)
From S2P Require Import Prelude Errors PacketIO Nettool ListH Ipaddr Pktbuf PktbufOps PktbufCursor PktbufSpec PktMem IpState IpWp Route Netif IpOut.

(** ** The layout *)

Definition wire_iphdr (h : Ipv4_hdr) (sum : Z) : bytes :=
  [16 * ih_version h + ih_shdr h; ih_tos h] ++ be16 (ih_total_len h) ++ be16 (ih_id h)
  ++ [128 * Z.b2z (ih_reserved h) + 64 * Z.b2z (ih_disable h) + 32 * Z.b2z (ih_more h)
      + ih_offset h / 256; ih_offset h mod 256]
  ++ [ih_ttl h; ih_protocol h] ++ le16 sum ++ a_addr (ih_src h) ++ a_addr (ih_dest h).

(** The fields fit their widths. *)
Record iphdr_ok (h : Ipv4_hdr) : Prop := {
  io_shdr : 0 ≤ ih_shdr h < 16;
  io_version : 0 ≤ ih_version h < 16;
  io_tos : 0 ≤ ih_tos h < 256;
  io_total_len : 0 ≤ ih_total_len h < 2 ^ 16;
  io_id : 0 ≤ ih_id h < 2 ^ 16;
  io_offset : 0 ≤ ih_offset h < 8192;
  io_ttl : 0 ≤ ih_ttl h < 256;
  io_protocol : 0 ≤ ih_protocol h < 256;
  io_checksum : 0 ≤ ih_checksum h < 2 ^ 16;
  io_src : 0 ≤ ih_src h < 2 ^ 32;
  io_dest : 0 ≤ ih_dest h < 2 ^ 32
}.

Lemma shdr_all_range h : iphdr_ok h → 0 ≤ shdr_all h < 2 ^ 16.
Proof. intros []. unfold shdr_all. lia. Qed.

Lemma frag_all_range h : iphdr_ok h → 0 ≤ frag_all h < 2 ^ 16.
Proof.
  intros []. unfold frag_all. destruct (ih_more h), (ih_disable h), (ih_reserved h); cbn; lia.
Qed.

Lemma set_shdr_all_id h : iphdr_ok h → set_shdr_all (shdr_all h) h = h.
Proof.
  intros []. destruct h as [s v t tl i o m d r tt p c sr de]. cbn in *.
  unfold set_shdr_all, shdr_all. cbn -[Z.mul Z.add]. rewrite !Z.shiftr_div_pow2 by lia.
  change 255 with (2 ^ 8 - 1). change 15 with (2 ^ 4 - 1). rewrite !land_ones_mod by lia.
  change (2 ^ 4) with 16. change (2 ^ 8) with 256.
  replace (s + 16 * v + 256 * t) with (s + (v + t * 16) * 16) by lia.
  rewrite Z_mod_plus_full, Z.div_add, (Z.div_small s), (Z.mod_small s) by lia.
  rewrite Z.add_0_l, Z_mod_plus_full, (Z.mod_small v) by lia.
  replace (s + (v + t * 16) * 16) with (s + 16 * v + t * 256) by lia.
  rewrite Z.div_add, (Z.div_small (s + 16 * v)), Z.add_0_l, (Z.mod_small t) by lia. done.
Qed.

Lemma set_frag_all_id h : iphdr_ok h → set_frag_all (frag_all h) h = h.
Proof.
  intros []. destruct h as [s v t tl i o m d r tt p c sr de]. cbn in *.
  unfold set_frag_all, frag_all. cbn -[Z.mul Z.add Z.testbit].
  change 8191 with (2 ^ 13 - 1). rewrite !land_ones_mod by lia. change (2 ^ 13) with 8192.
  set (F := _ + 32768 * _).
  assert (∀ q b x n, F = q + 2 ^ n * Z.b2z b + 2 ^ (n + 1) * x → 0 ≤ n → 0 ≤ q < 2 ^ n →
    Z.testbit F n = b) as Hbit.
  { intros q b x n -> Hn Hq. apply (Z.testbit_unique _ _ b q x); [done|].
    rewrite Z.pow_add_r by lia. lia. }
  assert (F mod 8192 = o) as ->.
  { unfold F. replace (o + 8192 * Z.b2z m + 16384 * Z.b2z d + 32768 * Z.b2z r)
      with (o + (Z.b2z m + 2 * Z.b2z d + 4 * Z.b2z r) * 8192) by lia.
    rewrite Z_mod_plus_full. by apply Z.mod_small. }
  rewrite (Hbit o m (Z.b2z d + 2 * Z.b2z r)) by (unfold F; lia).
  rewrite (Hbit (o + 8192 * Z.b2z m) d (Z.b2z r)) by (unfold F; destruct m; cbn; lia).
  by rewrite (Hbit (o + 8192 * Z.b2z m + 16384 * Z.b2z d) r 0)
    by (unfold F; destruct m, d; cbn; lia).
Qed.

(** The words stored are the words read back. *)
Lemma frag_all_set x h : 0 ≤ x < 2 ^ 16 → frag_all (set_frag_all x h) = x.
Proof.
  intros Hx. unfold set_frag_all, frag_all. cbn -[Z.mul Z.add Z.testbit Z.land].
  change 8191 with (2 ^ 13 - 1). rewrite land_ones_mod by lia.
  rewrite !Z.testbit_spec' by lia. change (2 ^ 13) with 8192. change (2 ^ 14) with 16384.
  change (2 ^ 15) with 32768. change (2 ^ 16) with 65536 in Hx.
  assert (x / 16384 = x / 8192 / 2) as -> by (by rewrite Z.div_div).
  assert (x / 32768 = x / 8192 / 2 / 2) as -> by (by rewrite !Z.div_div).
  pose proof (Z.div_mod x 8192). pose proof (Z.div_mod (x / 8192) 2).
  pose proof (Z.div_mod (x / 8192 / 2) 2).
  assert (0 ≤ x / 8192 / 2 / 2 < 2).
  { rewrite !Z.div_div by lia. split; [apply Z.div_pos; lia|apply Z.div_lt_upper_bound; lia]. }
  rewrite (Z.mod_small (x / 8192 / 2 / 2)) by lia. lia.
Qed.

Lemma set_frag_all_ok x h : 0 ≤ x < 2 ^ 16 → iphdr_ok h → iphdr_ok (set_frag_all x h).
Proof.
  intros Hx []. split; try done. cbn -[Z.land]. change 8191 with (2 ^ 13 - 1).
  rewrite land_ones_mod by lia. change 8192 with (2 ^ 13). by apply Z.mod_pos_bound.
Qed.

Lemma iphdr_htons_ok h : iphdr_ok h → iphdr_ok (iphdr_htons h).
Proof.
  intros Hh. unfold iphdr_htons. apply set_frag_all_ok; [apply swap_u16_range|].
  destruct Hh. split; try done; cbn -[swap_u16 Z.pow]; apply swap_u16_range.
Qed.

Lemma le16_pair a b : is_byte a → is_byte b → le16 (a + 256 * b) = [a; b].
Proof.
  unfold is_byte. intros. unfold le16. rewrite (Z.mul_comm 256), Z_mod_plus_full, Z.div_add by lia.
  by rewrite (Z.div_small a), Z.add_0_l, !Z.mod_small by lia.
Qed.

Lemma be16_frag h : iphdr_ok h → be16 (frag_all h) =
  [128 * Z.b2z (ih_reserved h) + 64 * Z.b2z (ih_disable h) + 32 * Z.b2z (ih_more h)
   + ih_offset h / 256; ih_offset h mod 256].
Proof.
  intros []. unfold be16.
  assert (0 ≤ ih_offset h / 256 < 32).
  { split; [by apply Z.div_pos; lia|apply Z.div_lt_upper_bound; lia]. }
  assert (frag_all h = ih_offset h mod 256 + (128 * Z.b2z (ih_reserved h)
    + 64 * Z.b2z (ih_disable h) + 32 * Z.b2z (ih_more h) + ih_offset h / 256) * 256) as ->.
  { unfold frag_all. pose proof (Z.div_mod (ih_offset h) 256). lia. }
  pose proof (Z.mod_pos_bound (ih_offset h) 256).
  rewrite Z.div_add, (Z.div_small (_ mod _)), Z.add_0_l, Z_mod_plus_full, Zmod_mod by lia.
  rewrite Z.mod_small; [done|].
  destruct (ih_reserved h), (ih_disable h), (ih_more h); cbn; lia.
Qed.

(** [iphdr_htons] turns the header in memory into that of RFC 791. *)
Lemma encode_htons h c : iphdr_ok h →
  encode_ip (set_ih_checksum c (iphdr_htons h)) = wire_iphdr h c.
Proof.
  intros Hh. unfold wire_iphdr. rewrite <- be16_frag by done. pose proof Hh as [].
  rewrite <- !le16_swap by (done || by apply frag_all_range).
  rewrite <- (le16_pair (16 * ih_version h + ih_shdr h) (ih_tos h)) by (unfold is_byte; lia).
  unfold encode_ip. cbn -[le16 swap_u16 frag_all shdr_all a_addr set_frag_all Z.modulo Z.mul Z.add].
  assert (∀ x y, frag_all (set_ih_checksum x y) = frag_all y) as -> by done.
  unfold iphdr_htons. rewrite frag_all_set by apply swap_u16_range.
  assert (∀ y, shdr_all (set_ih_checksum c (set_frag_all y (set_ih_id (x_htons (ih_id h))
    (set_ih_total_len (x_htons (ih_total_len h)) h)))) = 16 * ih_version h + ih_shdr h + 256 * ih_tos h)
    as -> by (intros; unfold shdr_all; cbn; lia).
  rewrite (Z.mod_small (ih_ttl h)), (Z.mod_small (ih_protocol h)) by lia. done.
Qed.

Lemma encode_ip_length h : length (encode_ip h) = 20%nat.
Proof. reflexivity. Qed.

Lemma encode_ip_bytes h : Forall is_byte (encode_ip h).
Proof.
  unfold encode_ip. pose proof (a_addr_bytes (ih_src h)) as [_ ?].
  pose proof (a_addr_bytes (ih_dest h)) as [_ ?].
  repeat (apply Forall_app; split); auto using le_bytes16. forall_elems; apply byte_mod.
Qed.

(** ** Reading what was written *)

Lemma get_byte l pre x post n :
  n = zlen pre → 0 ≤ x < 256 → l = pre ++ x :: post → get_le l n 1 = x.
Proof.
  intros -> Hx ->. unfold get_le, slice. rewrite drop_app_length' by lia.
  change (Z.to_nat 1) with 1%nat. cbn -[Z.mul Z.add]. rewrite take_0. cbn [foldr]. lia.
Qed.

Lemma decode_encode_ip h rest : iphdr_ok h → decode_ip (encode_ip h ++ rest) = h.
Proof.
  intros Hh. pose proof (shdr_all_range h Hh) as Hs. pose proof (frag_all_range h Hh) as Hf.
  pose proof (set_shdr_all_id h Hh) as Es. pose proof (set_frag_all_id h Hh) as Ef.
  unfold encode_ip.
  rewrite (Z.mod_small (ih_ttl h)), (Z.mod_small (ih_protocol h)) by (apply io_ttl || apply io_protocol; done).
  set (a := le16 (shdr_all h)). set (b := le16 (ih_total_len h)). set (c := le16 (ih_id h)).
  set (d := le16 (frag_all h)). set (e := [ih_ttl h; ih_protocol h]).
  set (f := le16 (ih_checksum h)). set (g := a_addr (ih_src h)).
  set (i := a_addr (ih_dest h)). set (l := (a ++ b ++ c ++ d ++ e ++ f ++ g ++ i) ++ rest).
  assert (l = a ++ b ++ c ++ d ++ e ++ f ++ g ++ i ++ rest) as El by (unfold l; by rewrite <- !app_assoc).
  clearbody l. destruct Hh.
  assert (get_le l 0 2 = shdr_all h) as E0 by (by eapply (get_le16 l [])).
  assert (get_le l 2 2 = ih_total_len h) as E2 by (by eapply (get_le16 l a)).
  assert (get_le l 4 2 = ih_id h) as E4
    by (by eapply (get_le16 l (a ++ b)); [| |rewrite El, <- !app_assoc]).
  assert (get_le l 6 2 = frag_all h) as E6
    by (by eapply (get_le16 l (a ++ b ++ c)); [| |rewrite El, <- !app_assoc]).
  assert (get_le l 8 1 = ih_ttl h) as E8
    by (by eapply (get_byte l (a ++ b ++ c ++ d)); [| |rewrite El, <- !app_assoc]).
  assert (get_le l 9 1 = ih_protocol h) as E9
    by (by eapply (get_byte l (a ++ b ++ c ++ d ++ [ih_ttl h])); [| |rewrite El, <- !app_assoc]).
  assert (get_le l 10 2 = ih_checksum h) as E10
    by (by eapply (get_le16 l (a ++ b ++ c ++ d ++ e)); [| |rewrite El, <- !app_assoc]).
  assert (get_le l 12 4 = ih_src h) as E12
    by (by eapply (get_le32 l (a ++ b ++ c ++ d ++ e ++ f)); [| |rewrite El, <- !app_assoc]).
  assert (get_le l 16 4 = ih_dest h) as E16
    by (by eapply (get_le32 l (a ++ b ++ c ++ d ++ e ++ f ++ g)); [| |rewrite El, <- !app_assoc]).
  unfold decode_ip. rewrite E0, E2, E4, E6, E8, E9, E10, E12, E16.
  trans (set_shdr_all (shdr_all h) (set_frag_all (frag_all h) h)); [done|]. by rewrite Ef, Es.
Qed.

Lemma shdr_all_swap h : shdr_all (iphdr_htons h) = shdr_all h.
Proof. done. Qed.

Lemma htons_htons h : iphdr_ok h → iphdr_htons (iphdr_htons h) = h.
Proof.
  intros Hh. pose proof (set_frag_all_id h Hh) as Ef. pose proof (frag_all_range h Hh) as Hf.
  destruct Hh. assert (∀ x, 0 ≤ x < 2 ^ 16 → swap_u16 (swap_u16 x) = x) as H16
    by (intros x Hx; by destruct (swap_involutive x 0 Hx)).
  unfold iphdr_htons at 1. set (h' := iphdr_htons h).
  assert (frag_all h' = swap_u16 (frag_all h)) as -> by (apply frag_all_set, swap_u16_range).
  assert (ih_id h' = swap_u16 (ih_id h)) as -> by done.
  assert (ih_total_len h' = swap_u16 (ih_total_len h)) as -> by done.
  unfold x_ntohs, x_htons. rewrite !H16 by done.
  trans (set_frag_all (frag_all h) h); [by destruct h|exact Ef].
Qed.

Lemma checksum_htons c h : set_ih_checksum c (iphdr_htons h) = iphdr_htons (set_ih_checksum c h).
Proof. by destruct h. Qed.

Lemma ntohs_is_htons h : iphdr_ntohs h = iphdr_htons h.
Proof. reflexivity. Qed.

(** Whatever the bytes, the fields read fit their widths. *)
Lemma land_range x n : 0 ≤ n → 0 ≤ Z.land x (2 ^ n - 1) < 2 ^ n.
Proof. intros. rewrite land_ones_mod by done. apply Z.mod_pos_bound. lia. Qed.

Lemma decode_ip_ok l : Forall is_byte l → iphdr_ok (decode_ip l).
Proof.
  intros Hl. pose proof (λ off, get_le_range l off 1 Hl) as H1.
  pose proof (λ off, get_le_range l off 2 Hl) as H2. pose proof (λ off, get_le_range l off 4 Hl) as H4.
  change (256 ^ Z.max 0 1) with 256 in H1.
  change (256 ^ Z.max 0 2) with (2 ^ 16) in H2. change (256 ^ Z.max 0 4) with (2 ^ 32) in H4.
  split; unfold decode_ip; cbn -[get_le Z.land Z.shiftr Z.pow];
    first [apply H1|apply H2|apply H4|apply (land_range _ 4); lia|apply (land_range _ 8); lia
          |apply (land_range _ 13); lia].
Qed.

(** ** The header in a packet *)

Abbreviation owns_ip := (owns_head SIZEOF_IPV4_HDR).

Lemma wp_ip_load p b w v (Q : Ipv4_hdr → pworld → Prop) :
  owns_ip w b v p → Q (decode_ip (content v)) w → wp (ip_load p) w Q.
Proof.
  intros Ho HQ. unfold ip_load. apply wp_bind.
  eapply wp_head_load; [exact Ho|unfold SIZEOF_IPV4_HDR; lia..|]. rewrite wp_ret.
  assert (decode_ip (slice (content v) 0 SIZEOF_IPV4_HDR) = decode_ip (content v)) as ->; [|done].
  unfold decode_ip. by rewrite !get_le_head by (unfold SIZEOF_IPV4_HDR; lia).
Qed.

Lemma wp_ip_upd p f b w v (Q : unit → pworld → Prop) :
  owns_ip w b v p →
  (∀ v' w', updated w b v' w' → head_at SIZEOF_IPV4_HDR b v' p → ref v' = ref v →
     total_size v' = total_size v →
     content v' = encode_ip (f (decode_ip (content v))) ++ drop 20 (content v) →
     (cursor_ok v → like v v') → pos v' = pos v → Q tt w') →
  wp (ip_upd p f) w Q.
Proof.
  intros Ho HQ. unfold ip_upd. apply wp_bind. eapply wp_ip_load; [exact Ho|]. unfold ip_store.
  eapply wp_head_store; [exact Ho|unfold SIZEOF_IPV4_HDR; cbn; lia..|apply encode_ip_bytes|].
  intros v' w' U Hat R T Ec L P. by eapply HQ.
Qed.

(** Packet [b] is a datagram: header [h], then [data]. *)
Record ip_buf (w : pworld) (b : Z) (v : Pktbuf) (p : bptr) (h : Ipv4_hdr) (data : bytes) : Prop := {
  ib_owns : owns_ip w b v p;
  ib_content : content v = encode_ip h ++ data;
  ib_ok : iphdr_ok h
}.

Lemma wp_load_ip p b w v h data (Q : Ipv4_hdr → pworld → Prop) :
  ip_buf w b v p h data → Q h w → wp (ip_load p) w Q.
Proof.
  intros [Ho Ec Hh] HQ. eapply wp_ip_load; [done|]. by rewrite Ec, decode_encode_ip.
Qed.

Lemma wp_upd_ip p f b w v h data (Q : unit → pworld → Prop) :
  ip_buf w b v p h data → iphdr_ok (f h) →
  (∀ v' w', updated w b v' w' → ip_buf w' b v' p (f h) data → ref v' = ref v →
     total_size v' = total_size v → (cursor_ok v → like v v') → pos v' = pos v → Q tt w') →
  wp (ip_upd p f) w Q.
Proof.
  intros [Ho Ec Hh] Hf HQ. eapply wp_ip_upd; [done|]. intros v' w' U Hat R T Ec' L P.
  eapply HQ; try done. split; [by eapply owns_updated| |done].
  by rewrite Ec', Ec, decode_encode_ip, drop_app_length' by done.
Qed.

(** Any packet with a whole header in its first block is one. *)
Lemma owned_ip w b v p :
  owns_ip w b v p → encode_ip (decode_ip (content v)) = take 20 (content v) →
  ip_buf w b v p (decode_ip (content v)) (drop 20 (content v)).
Proof.
  intros Ho Ee. split; [done|by rewrite Ee, take_drop|].
  destruct Ho as ((Hw & Hb) & _). apply decode_ip_ok, content_bytes, (wf_bufs _ Hw _ _ Hb).
Qed.

(** A header converted and stored is the header of RFC 791 on the wire, and
    what the receiver loads from there and converts is the header sent, whatever
    follows it *)
Theorem ip_hdr_roundtrip h c rest :
  iphdr_ok h → 0 ≤ c < 2 ^ 16 →
  encode_ip (set_ih_checksum c (iphdr_htons h)) = wire_iphdr h c ∧
  iphdr_ntohs (decode_ip (wire_iphdr h c ++ rest)) = set_ih_checksum c h.
Proof.
  intros Hh Hc. pose proof (encode_htons h c Hh) as E. split; [done|].
  assert (iphdr_ok (set_ih_checksum c h)) as Hhc by (by destruct Hh).
  rewrite <- E, checksum_htons, decode_encode_ip by (by apply iphdr_htons_ok).
  rewrite ntohs_is_htons. by apply htons_htons.
Qed.

(** The second fragment of a datagram of 40 bytes from 192.168.1.2 to 10.0.0.1. *)
Lemma ip_hdr_roundtrip_witness :
  let h := mk_iphdr 5 4 0 40 7 185 false false false 64 17 0 33663168 16777226 in
  encode_ip (set_ih_checksum 513 (iphdr_htons h)) =
    [69; 0; 0; 40; 0; 7; 0; 185; 64; 17; 1; 2; 192; 168; 1; 2; 10; 0; 0; 1] ∧
  iphdr_ntohs (decode_ip ([69; 0; 0; 40; 0; 7; 0; 185; 64; 17; 1; 2; 192; 168; 1; 2; 10; 0; 0; 1]
    ++ [1; 2; 3])) = set_ih_checksum 513 h.
Proof.
  intros h. assert (wire_iphdr h 513 = [69; 0; 0; 40; 0; 7; 0; 185; 64; 17; 1; 2; 192; 168; 1; 2;
    10; 0; 0; 1]) as <- by (vm_compute; reflexivity).
  apply (ip_hdr_roundtrip h 513 [1; 2; 3]); [by split|done].
Defined.
