(* ===== verification/Icmp.v ===== *)
(** * ICMP: [net/icmpv4.c], [net/icmpv4.h]

    The header is type, code and checksum, four bytes; it lies behind the IP
    header of a packet received, at the front of one to send. *)
From S2P Require Import Prelude Errors PacketIO Nettool ListH Ipaddr Pktbuf PktbufOps PktbufCursor PktbufSpec PktMem IpState Route Netif IpOut.

Definition ICMPv4_ECHO_REPLY : Z := 0.
Definition ICMPv4_ECHO_REQUEST : Z := 8.
Definition ICMPv4_UNREACH : Z := 3.
Definition ICMPv4_UNREACH_PORT : Z := 3.
Definition SIZEOF_ICMPV4_HDR : Z := 4.
Definition SIZEOF_ICMPV4_PKT : Z := 9.

(** Stores to the fields of the header at [pkt]. *)
Definition set_icmp_type (pkt : bptr) (t : Z) : M pworld unit := mem_store pkt 0 [t mod 256].
Definition set_icmp_code (pkt : bptr) (c : Z) : M pworld unit := mem_store pkt 1 [c mod 256].
Definition set_icmp_checksum (pkt : bptr) (c : Z) : M pworld unit := mem_store pkt 2 (le16 c).
Definition set_icmp_reverse (pkt : bptr) (x : Z) : M pworld unit := mem_store pkt 4 (le32 x).

Section icmp.
Context {E : Type} `{IE : !IpEnv E} `{K : !Kmalloc}.

Definition icmpv4_init : Ip E Z := mret NET_OK.

(** [is_pkt_ok] of [icmpv4.c]. *)
Definition icmp_is_pkt_ok (size b : Z) : Ip E Z :=
  if size <=? SIZEOF_ICMPV4_HDR then mret (- E_NET_SIZE) else
  checksum ← on_pk (pktbuf_checksum16 b size 0 true);
  mret (if checksum =? 0 then NET_OK else - E_NET_CHECKSUM).

Definition icmpv4_out (dest : Ipaddr) (src : option Ipaddr) (b : Z) : Ip E Z :=
  pkt ← pkt_ptr b;
  on_pk (pktbuf_reset_acc b);;
  v ← on_pk (get_buf b);
  c ← on_pk (pktbuf_checksum16 b (total_size v) 0 true);
  on_pk (set_icmp_checksum pkt c);;
  ipv4_out NET_PROTOCOL_ICMPv4 dest src b.

Definition icmpv4_echo_reply (dest : Ipaddr) (src : option Ipaddr) (b : Z) : Ip E Z :=
  pkt ← pkt_ptr b;
  on_pk (set_icmp_type pkt ICMPv4_ECHO_REPLY);;
  on_pk (set_icmp_checksum pkt 0);;
  icmpv4_out dest src b.

Definition icmpv4_in (src_ip netif_ip : Ipaddr) (b : Z) : Ip E Z :=
  ip_pkt ← pkt_ptr b;
  h ← on_pk (ip_load ip_pkt);
  let iphdr_size := ipv4_hdr_size h in
  ret ← on_pk (pktbuf_set_cont b (SIZEOF_ICMPV4_HDR + iphdr_size));
  if ret <? 0 then mret ret else
  ip_pkt ← pkt_ptr b;
  on_pk (pktbuf_seek b iphdr_size);;
  v ← on_pk (get_buf b);
  ret ← icmp_is_pkt_ok (total_size v) b;
  if negb (ret =? NET_OK) then mret ret else
  t ← on_pk (mem_load ip_pkt iphdr_size 1);
  if get_le t 0 1 =? ICMPv4_ECHO_REQUEST then
    ret ← on_pk (pktbuf_remove_header b iphdr_size);
    if ret <? 0 then mret (- E_NET_SIZE) else
    on_pk (pktbuf_reset_acc b);;
    icmpv4_echo_reply src_ip (Some netif_ip) b
  else
    ret ← on_pk_env (raw_in b);
    mret (if ret <? 0 then ret else NET_OK).

Definition icmpv4_out_unreach (dest_addr : Ipaddr) (src : option Ipaddr) (code ip_buf : Z) : Ip E Z :=
  pkt ← pkt_ptr ip_buf;
  h ← on_pk (ip_load pkt);
  v ← on_pk (get_buf ip_buf);
  let copy_size := ipv4_hdr_size h + 576 in
  let copy_size := if total_size v <? copy_size then total_size v else copy_size in
  new_buf ← on_pk (pktbuf_alloc (copy_size + SIZEOF_ICMPV4_HDR + 4));
  if new_buf =? 0 then mret (- E_NET_NONE) else
  ret ← on_pk (pktbuf_set_cont new_buf SIZEOF_ICMPV4_PKT);
  if ret <? 0 then mret (- E_NET_SIZE) else
  pkt ← pkt_ptr new_buf;
  on_pk (set_icmp_type pkt ICMPv4_UNREACH);;
  on_pk (set_icmp_code pkt code);;
  on_pk (set_icmp_checksum pkt 0);;
  on_pk (set_icmp_reverse pkt 0);;
  on_pk (pktbuf_reset_acc ip_buf);;
  on_pk (pktbuf_seek new_buf (SIZEOF_ICMPV4_HDR + 4));;
  ret ← on_pk (pktbuf_copy new_buf ip_buf copy_size);
  if ret <? 0 then on_pk (pktbuf_free new_buf);; mret ret else
  ret ← icmpv4_out dest_addr src new_buf;
  if ret <? 0 then on_pk (pktbuf_free new_buf);; mret ret else
  mret NET_OK.
End icmp.
