(* ===== verification/IpIn.v ===== *)
(** * Receiving datagrams: [ipv4_in] and the reassembly of [net/ipv4.c]

    The fragments of a datagram wait in a queue found by source and identifier,
    ordered by offset; when they are all there they are joined and delivered. *)
From S2P Require Import Prelude Errors PacketIO Nettool ListH Ipaddr Pktbuf PktbufOps PktbufCursor PktbufSpec PktMem IpState Route Netif IpOut Icmp.

Section ipin.
Context {E : Type} `{IE : !IpEnv E} `{K : !Kmalloc}.

(** The header at the front of a packet. *)
Definition pkt_hdr (b : Z) : Ip E Ipv4_hdr := p ← pkt_ptr b; on_pk (ip_load p).

(** [pktbuf_free] of a packet that may be in a queue. *)
Definition free_buf (b : Z) : Ip E unit := on_pk (pktbuf_free b);; drop_link b.

(** ** Queues of fragments *)

Definition frag_free_buf_list_nolock (f : Z) : Ip E unit :=
  fuel ← gets (λ w, size (i_cells w));
  loop (S fuel) (λ _ : unit,
    le ← on_cells (list_next (ip_frag_buf_list f));
    if le =? ip_frag_buf_list f then mret (inr tt) else
    on_cells (list_del le);;
    free_buf (le2obj le);;
    mret (inl tt)) tt.

Definition frag_free_buf_list (f : Z) : Ip E unit :=
  acquire_frag f;; frag_free_buf_list_nolock f;; release_frag f.

(** A queue taken from the end of the full list is unlinked and not linked again. *)
Definition frag_alloc_nolock : Ip E Z :=
  count ← gets i_frag_count;
  if count =? IP_FRAGS_MAX_NR then
    le ← on_cells (list_prev ip_frag_list);
    let f := le2obj le in
    frag_free_buf_list f;;
    on_cells (list_del le);;
    mret f
  else
    f ← on_env kmalloc_obj;
    assert_ (negb (f =? 0));;
    modify (λ w, set_i_frags (<[f := mk_frag 0 0 0 false]> (i_frags w)) w);;
    new_cell (frag_link f);; new_cell (ip_frag_buf_list f);;
    on_cells (list_init (ip_frag_buf_list f));;
    on_cells (list_add_after ip_frag_list (frag_link f));;
    count ← gets i_frag_count;
    modify (set_i_frag_count (u64 (count + 1)));;
    mret f.

Definition frag_alloc : Ip E Z :=
  acquire_frags;; f ← frag_alloc_nolock; release_frags;; mret f.

Definition frag_free_nolock (f : Z) : Ip E unit :=
  frag_free_buf_list f;;
  on_cells (list_del (frag_link f));;
  count ← gets i_frag_count;
  modify (set_i_frag_count (u64 (count - 1)));;
  kfree_frag f.

Definition frag_free (f : Z) : Ip E unit :=
  acquire_frags;; frag_free_nolock f;; release_frags.

(** The timer's function: every queue has one second less. *)
Definition frag_tmo : Ip E unit :=
  acquire_frags;;
  e ← on_cells (list_empty ip_frag_list);
  if (e : bool) then release_frags else
  le ← on_cells (list_next ip_frag_list);
  fuel ← gets (λ w, size (i_cells w));
  loop (S fuel) (λ le,
    if le =? ip_frag_list then mret (inr tt) else
    let f := le2obj le in
    le ← on_cells (list_next le);
    upd_frag f (λ v, set_fg_tmo (u64 (fg_tmo v - 1)) v);;
    v ← get_frag f;
    (if fg_tmo v =? 0 then frag_free_nolock f else mret tt);;
    mret (inl le)) le;;
  release_frags.

Definition frag_init : Ip E Z :=
  on_cells (list_init ip_frag_list);;
  modify (set_i_frag_lock false);;
  modify (set_i_frag_count 0);;
  t ← on_env (frag_timer_add (IP_FRAG_SCAN_PERIOD * 1000));
  modify (set_i_frag_timer t);;
  assert_ (negb (t =? 0));;
  mret NET_OK.

Definition ipv4_init : Ip E Z :=
  ret ← frag_init;
  if ret <? 0 then mret ret else
  rts_init;;
  mret NET_OK.

(** A queue that is found moves to the front. *)
Definition frag_find_nolock (ip : Ipaddr) (id : Z) : Ip E Z :=
  r ← ip_for_each ip_frag_list (λ _ le,
    let f := le2obj le in
    v ← get_frag f;
    if ipaddr_is_equal ip (fg_ip v) && (id =? fg_id v) then
      first ← on_cells (list_next ip_frag_list);
      (if negb (first =? frag_link f) then
         on_cells (list_del (frag_link f));;
         on_cells (list_add_after ip_frag_list (frag_link f))
       else mret tt);;
      mret (inr f)
    else mret (inl tt)) tt;
  mret (match r with inr f => f | inl _ => 0 end).

Definition frag_add (f : Z) (ip : Ipaddr) (id : Z) : Ip E unit :=
  upd_frag f (λ v, set_fg_id id (set_fg_tmo (IP_FRAG_TMO / IP_FRAG_SCAN_PERIOD)
    (set_fg_ip ip v))).

Definition frag_insert (f b : Z) (pkt : bptr) : Ip E Z :=
  acquire_frag f;;
  n ← on_cells (list_count (ip_frag_buf_list f));
  release_frag f;;
  if IP_FRAG_MAX_BUF_NR <=? n then frag_free f;; mret (- E_NET_FULL) else
  acquire_frag f;;
  r ← ip_for_each (ip_frag_buf_list f) (λ _ le,
    cur_pkt ← pkt_hdr (le2obj le);
    h ← on_pk (ip_load pkt);
    let cur_start := get_frag_start cur_pkt in
    if get_frag_start h =? cur_start then
      release_frag f;; mret (inr (- E_NET_EXIST))
    else if get_frag_end h <=? cur_start then
      l ← buf_link b;
      on_cells (list_add_before le l);;
      release_frag f;; mret (inr NET_OK)
    else mret (inl tt)) tt;
  match r with
  | inr ret => mret ret
  | inl _ =>
      l ← buf_link b;
      on_cells (list_add (ip_frag_buf_list f) l);;
      release_frag f;; mret NET_OK
  end.

(** [pkt] is the last header of the walk. *)
Definition frag_is_all_arrived (f : Z) : Ip E bool :=
  acquire_frag f;;
  r ← ip_for_each (ip_frag_buf_list f) (λ '(offset, pkt) le,
    pkt ← pkt_hdr (le2obj le);
    if negb (get_frag_start pkt =? offset) then mret (inr tt)
    else mret (inl (u64 (offset + get_data_size pkt), Some pkt))) (0, None);
  release_frag f;;
  mret (match r with
        | inr _ => false
        | inl (_, Some pkt) => negb (ih_more pkt)
        | inl (_, None) => false
        end).

Definition frag_join (f : Z) : Ip E Z :=
  acquire_frag f;;
  n ← on_cells (list_count (ip_frag_buf_list f));
  if n =? 0 then release_frag f;; frag_free f;; mret 0 else
  le ← on_cells (list_next (ip_frag_buf_list f));
  let target := le2obj le in
  fuel ← gets (λ w, size (i_cells w));
  loop (S fuel) (λ _ : unit,
    le ← on_cells (list_next (pkt_frag_link target));
    if le =? ip_frag_buf_list f then mret (inr tt) else
    let cur_buf := le2obj le in
    pkt ← pkt_hdr cur_buf;
    on_pk (pktbuf_remove_header cur_buf (ipv4_hdr_size pkt));;
    on_cells (list_del (pkt_frag_link cur_buf));;
    on_pk (pktbuf_join target cur_buf);;
    drop_link cur_buf;;
    mret (inl tt)) tt;;
  release_frag f;;
  v ← on_pk (get_buf target);
  ret_buf ← on_pk (pktbuf_alloc (total_size v));
  assert_ (negb (ret_buf =? 0));;
  on_pk (pktbuf_reset_acc target);;
  v ← on_pk (get_buf target);
  ret ← on_pk (pktbuf_copy ret_buf target (total_size v));
  assert_ (ret =? NET_OK);;
  frag_free f;;
  mret ret_buf.

(** ** Delivery *)

(** The header's length counts from the packet's memory, whose first block may
    hold less. *)
Definition is_pkt_ok (pkt : bptr) (size : Z) : Ip E Z :=
  h ← on_pk (ip_load pkt);
  if negb (ih_version h =? NET_VERSION_IPV4) then mret (- E_NET_NOT_SUPPORT) else
  let hdr_len := ipv4_hdr_size h in
  if hdr_len <? SIZEOF_IPV4_HDR then mret (- E_NET_SIZE) else
  let total := x_ntohs (ih_total_len h) in
  if (total <? SIZEOF_IPV4_HDR) || (s32 size <? total) then mret (- E_NET_SIZE) else
  if negb (ih_checksum h =? 0) then
    l ← on_pk (mem_load pkt 0 hdr_len);
    c ← of_outcome (checksum16 0 l hdr_len 0 true);
    mret (if c =? 0 then NET_OK else - E_NET_DATA)
  else mret NET_OK.

Definition ip_normal_in (n b : Z) (src dest : Ipaddr) : Ip E Z :=
  pkt ← pkt_ptr b;
  h ← on_pk (ip_load pkt);
  v ← get_netif n;
  if ih_protocol h =? NET_PROTOCOL_ICMPv4 then
    ret ← icmpv4_in src (if_ipaddr v) b;
    mret (if ret <? 0 then ret else NET_OK)
  else if ih_protocol h =? NET_PROTOCOL_UDP then
    ret ← on_pk_env (udp_in b src dest);
    if ret <? 0 then
      (if ret =? - E_NET_UNREACH then
         on_pk (ip_upd pkt iphdr_htons);;
         icmpv4_out_unreach src (Some (if_ipaddr v)) ICMPv4_UNREACH_PORT b;; mret tt
       else mret tt);;
      mret ret
    else mret NET_OK
  else if ih_protocol h =? NET_PROTOCOL_TCP then
    on_pk (pktbuf_remove_header b (ipv4_hdr_size h));;
    ret ← on_pk_env (tcp_in b src dest);
    mret (if ret <? 0 then ret else NET_OK)
  else on_pk_env (raw_in b).

Definition ip_frag_in (n b : Z) (src dest : Ipaddr) : Ip E Z :=
  cur ← pkt_ptr b;
  acquire_frags;;
  h ← on_pk (ip_load cur);
  f ← frag_find_nolock src (ih_id h);
  f ← (if f =? 0 then f ← frag_alloc_nolock; frag_add f src (ih_id h);; mret f else mret f);
  release_frags;;
  ret ← frag_insert f b cur;
  if ret <? 0 then mret ret else
  all ← frag_is_all_arrived f;
  if (all : bool) then
    full_buf ← frag_join f;
    if full_buf =? 0 then mret NET_OK else
    ret ← ip_normal_in n full_buf src dest;
    if ret <? 0 then on_pk (pktbuf_free full_buf);; mret NET_OK else mret NET_OK
  else mret NET_OK.

(** A packet that is broken is reported as taken. *)
Definition ipv4_in (n b : Z) : Ip E Z :=
  ret ← on_pk (pktbuf_set_cont b SIZEOF_IPV4_HDR);
  if ret <? 0 then mret ret else
  pkt ← pkt_ptr b;
  v ← on_pk (get_buf b);
  ok ← is_pkt_ok pkt (total_size v);
  if negb (ok =? NET_OK) then mret ret else
  on_pk (ip_upd pkt iphdr_ntohs);;
  h ← on_pk (ip_load pkt);
  ret ← on_pk (pktbuf_resize b (ih_total_len h));
  if ret <? 0 then mret ret else
  h ← on_pk (ip_load pkt);
  let dest_ip := ih_dest h in
  let src_ip := ih_src h in
  v ← get_netif n;
  if negb (ipaddr_is_match dest_ip (if_ipaddr v) (if_netmask v)) then mret (- E_NET_MATCH) else
  h ← on_pk (ip_load pkt);
  if negb (ih_offset h =? 0) || ih_more h then ip_frag_in n b src_ip dest_ip
  else ip_normal_in n b src_ip dest_ip.
End ipin.
