(* ===== verification/RouteSpec.v ===== *)
(** * Routes: what the routing table does

    [rt_find] is longest prefix match; adding and removing, and where they go
    wrong: [rt_remove] spins unless the first entry is the one to remove, and
    [rt_add] on a full table frees an entry that stays linked. *)
From S2P Require Import Prelude Errors PacketIO Nettool ListH Ipaddr Pktbuf PktbufOps PktbufCursor PktbufSpec PktMem IpState IpWp Route.

Definition no_route : Rentry := mk_rentry 0 0 0 0 0.

Section spec.
Context {E : Type} `{IE : !IpEnv E}.
Implicit Types (w : ipw E) (rs : list Z).

Definition route_at w (r : Z) : Rentry := default no_route (i_routes w !! r).

(** The table holds the routes [rs], in order. *)
Record routes_ok rs w : Prop := {
  ro_list : is_list (i_cells w) rt_list (map rentry_link rs);
  ro_entries r : r ∈ rs → r ≠ 0 ∧ is_Some (i_routes w !! r);
  ro_counts r : r ∈ rs → re_mask_1_cnt (route_at w r) = popcount (re_mask (route_at w r));
  ro_free : i_rt_lock w = false
}.

(** Does the route lead to [ip]? *)
Definition leads w (ip : Ipaddr) (r : Z) : bool :=
  ipaddr_is_equal (ipaddr_get_net ip (re_mask (route_at w r))) (re_net (route_at w r)).
Definition prefix_len w (r : Z) : Z := popcount (re_mask (route_at w r)).
Definition is_route w (net mask : Ipaddr) (r : Z) : bool :=
  ipaddr_is_equal (re_net (route_at w r)) net && ipaddr_is_equal (re_mask (route_at w r)) mask.

(** [r] leads to [ip], and no other route of the table has a longer prefix, nor
    one as long further in front. *)
Definition best_route w (ip : Ipaddr) rs (r : Z) : Prop :=
  ∃ l1 l2, rs = l1 ++ r :: l2 ∧ leads w ip r = true ∧
    (∀ r', r' ∈ l1 → leads w ip r' = true → prefix_len w r' < prefix_len w r) ∧
    (∀ r', r' ∈ l2 → leads w ip r' = true → prefix_len w r' ≤ prefix_len w r).

Lemma le2obj_rentry r : le2obj (rentry_link r) = r.
Proof. unfold le2obj, rentry_link. symmetry. apply (Z.div_unique_pos _ _ _ 3); lia. Qed.

#[export] Instance rentry_link_inj : Inj (=) (=) rentry_link.
Proof. intros x y. unfold rentry_link. lia. Qed.

Lemma map_rentry_inj l1 l2 : map rentry_link l1 = map rentry_link l2 → l1 = l2.
Proof. apply (inj (fmap rentry_link)). Qed.

Lemma get_route_run w r : is_Some (i_routes w !! r) → get_route r w = Ok (route_at w r, w).
Proof.
  intros [v Hv]. apply wp_result. eapply wp_get_route; [done|]. unfold route_at. by rewrite Hv.
Qed.

Lemma ok_locked rs w b : routes_ok rs w → is_list (i_cells (set_i_rt_lock b w)) rt_list (map rentry_link rs).
Proof. intros []. done. Qed.

(** ** Finding *)

Definition find_step w ip (acc le : Z) : Z + Empty_set :=
  let r := le2obj le in
  inl (if negb (leads w ip r) then acc
       else if acc =? 0 then r
       else if re_mask_1_cnt (route_at w acc) <? re_mask_1_cnt (route_at w r) then r else acc).

(** What has been found after the entries [l1]. *)
Definition found w ip l1 (acc : Z) : Prop :=
  acc = 0 ∧ (∀ r, r ∈ l1 → leads w ip r = false) ∨ acc ≠ 0 ∧ best_route w ip l1 acc.

Lemma best_in w ip rs r : best_route w ip rs r → r ∈ rs.
Proof. intros (l1 & l2 & -> & _). set_solver. Qed.

(** One more entry. *)
Lemma found_step w ip rs l1 r l2 acc :
  routes_ok rs w → rs = l1 ++ r :: l2 → found w ip l1 acc →
  found w ip (l1 ++ [r]) (if negb (leads w ip r) then acc
    else if acc =? 0 then r
    else if re_mask_1_cnt (route_at w acc) <? re_mask_1_cnt (route_at w r) then r else acc).
Proof.
  intros Hok Ers Hf. assert (r ∈ rs) as Hr by (rewrite Ers; set_solver).
  destruct (ro_entries _ _ Hok r Hr) as [Hr0 _]. destruct (leads w ip r) eqn:El; cbn [negb].
  - destruct (Z.eqb_spec acc 0) as [->|Ha].
    + destruct Hf as [[_ Hn]|[? _]]; [|done]. right. split; [done|]. exists l1, [].
      split_and!; [done|done| |set_solver]. intros r' Hr' Hl. by rewrite Hn in Hl.
    + destruct Hf as [[? _]|[_ Hb]]; [done|]. pose proof (best_in _ _ _ _ Hb) as Hin.
      destruct Hb as (a & b & El1 & Hacc & Hlt & Hle).
      rewrite !(ro_counts _ _ Hok) by (rewrite ?Ers; set_solver). fold (prefix_len w acc) (prefix_len w r).
      right. destruct (Z.ltb_spec (prefix_len w acc) (prefix_len w r)) as [Hcmp|Hcmp].
      * split; [done|]. exists l1, []. split_and!; [done|done| |set_solver].
        intros r' Hr' Hl. rewrite El1, elem_of_app, elem_of_cons in Hr'.
        destruct Hr' as [Hr'|[->|Hr']]; [specialize (Hlt _ Hr' Hl); lia|lia|specialize (Hle _ Hr' Hl); lia].
      * split; [done|]. exists a, (b ++ [r]). split_and!; [by rewrite El1, <- app_assoc|done|done|].
        intros r' [Hr'| ->%list_elem_of_singleton]%elem_of_app Hl; [by apply Hle|lia].
  - destruct Hf as [[-> Hn]|[Ha Hb]].
    + left. split; [done|]. intros r' [Hr'| ->%list_elem_of_singleton]%elem_of_app; [by apply Hn|done].
    + right. split; [done|]. destruct Hb as (a & b & -> & Hacc & Hlt & Hle).
      exists a, (b ++ [r]). split_and!; [by rewrite <- app_assoc|done|done|].
      intros r' [Hr'| ->%list_elem_of_singleton]%elem_of_app Hl; [by apply Hle|congruence].
Qed.

Lemma wp_rt_find ip rs w (Q : Z → ipw E → Prop) :
  routes_ok rs w → (∀ r, found w ip rs r → Q r w) → wp (rt_find ip) w Q.
Proof.
  intros Hok HQ. unfold rt_find. apply wp_bind, wp_acquire_routes; [apply Hok|]. apply wp_bind.
  eapply (wp_ip_for_each_inv rt_list (map rentry_link rs) _
    (λ ls acc, ∃ l1, ls = map rentry_link l1 ∧ found w ip l1 acc)).
  - by apply ok_locked.
  - intros ls e l2 acc E1 (l1 & -> & Hf).
    apply map_eq_app in E1 as (a & b & Ers & Ea & Eb). apply map_eq_cons in Eb as (r & l2' & -> & <- & <-).
    apply map_rentry_inj in Ea as ->.
    assert (r ∈ rs) as Hr by (rewrite Ers; set_solver).
    destruct (ro_entries _ _ Hok r Hr) as [_ Hsr]. rewrite le2obj_rentry.
    apply wp_bind. eapply (wp_of_run _ (set_i_rt_lock true w));
      [by apply (get_route_run (set_i_rt_lock true w))|].
    pose proof (found_step w ip rs l1 r l2' acc Hok Ers Hf) as Hst.
    change (route_at (set_i_rt_lock true w) r) with (route_at w r). fold (leads w ip r).
    assert (∀ x, found w ip (l1 ++ [r]) x → wp (mret (inl x) : Ip E (Z + Empty_set))
      (set_i_rt_lock true w) (λ r0 w', match r0 with
        | inl l' => w' = set_i_rt_lock true w ∧
            ∃ l0, map rentry_link l1 ++ [rentry_link r] = map rentry_link l0 ∧ found w ip l0 l'
        | inr a => match a with end end)) as Hret.
    { intros x Hx. rewrite wp_ret. split; [done|]. exists (l1 ++ [r]). by rewrite map_app. }
    destruct (leads w ip r); cbn [negb] in Hst |- *; [|by apply Hret].
    destruct (Z.eqb_spec acc 0) as [->|Ha]; [by apply Hret|].
    destruct Hf as [[? _]|[_ Hb]]; [done|]. apply best_in in Hb.
    apply wp_bind. eapply (wp_of_run _ (set_i_rt_lock true w)); [|by apply Hret].
    apply (get_route_run (set_i_rt_lock true w)), (ro_entries _ _ Hok). rewrite Ers. set_solver.
  - intros acc (l1 & El1 & Hf).
    apply map_rentry_inj in El1 as <-.
    cbn. apply wp_bind, wp_release_routes; [done|]. rewrite set_rt_lock_twice, set_rt_lock_id by apply Hok.
    rewrite wp_ret. by apply HQ.
  - exists []. split; [done|]. left. split; [done|set_solver].
Qed.
(** ** Adding *)

Lemma wp_rt_has_exist net mask rs w (Q : bool → ipw E → Prop) :
  routes_ok rs w → Q (existsb (is_route w net mask) rs) w → wp (rt_has_exist net mask) w Q.
Proof.
  intros Hok HQ. unfold rt_has_exist. apply wp_bind, wp_acquire_routes; [apply Hok|]. apply wp_bind.
  set (w1 := set_i_rt_lock true w).
  eapply (wp_ip_for_each rt_list (map rentry_link rs) _
    (λ _ le, if is_route w net mask (le2obj le) then inr true else inl tt)); [by apply ok_locked| |].
  - intros [] le (r & -> & Hr)%list_elem_of_fmap. rewrite le2obj_rentry.
    apply wp_result. apply wp_bind. eapply (wp_of_run _ w1).
    { apply (get_route_run w1), (ro_entries _ _ Hok r Hr). }
    unfold is_route. change (route_at w1 r) with (route_at w r).
    destruct (_ && _); by rewrite wp_ret.
  - apply wp_bind, wp_release_routes; [done|]. unfold w1.
    rewrite set_rt_lock_twice, set_rt_lock_id, wp_ret by apply Hok.
    assert (∀ l, match walk (λ (_ : unit) le, if is_route w net mask (le2obj le)
        then inr true else inl tt) (map rentry_link l) tt with inr b => b | inl _ => false end
      = existsb (is_route w net mask) l) as ->; [|done].
    induction l as [|r l IH]; cbn; [done|]. rewrite le2obj_rentry.
    by destruct (is_route w net mask r).
Qed.

(** The allocator has an address that no route of the table has. *)
Definition fresh_route rs w (r : Z) (e' : E) : Prop :=
  kmalloc_obj (i_env w) = Ok (r, e') ∧ r ≠ 0 ∧ r ∉ rs.

(** The state with the new entry, before it is linked. *)
Definition with_entry w (e' : E) (r : Z) (v : Rentry) : ipw E :=
  set_i_cells (<[rentry_link r := mk_entry 0 0]> (i_cells w))
    (set_i_routes (<[r := v]> (i_routes w)) (set_i_pk_env (i_pk w, e') w)).

Lemma link_not_head r : rentry_link r ≠ rt_list.
Proof. unfold rentry_link, rt_list. lia. Qed.

Lemma link_not_in r rs : r ∉ rs → rentry_link r ∉ rt_list :: map rentry_link rs.
Proof.
  intros Hr. rewrite not_elem_of_cons. split; [apply link_not_head|].
  intros (r' & ?%rentry_link_inj & ?)%list_elem_of_fmap. by subst.
Qed.

Lemma with_entry_ok rs w e' r v : routes_ok rs w → r ∉ rs → routes_ok rs (with_entry w e' r v).
Proof.
  intros [Hl He Hc Hf] Hr.
  assert (∀ r', r' ∈ rs → route_at (with_entry w e' r v) r' = route_at w r') as Hat.
  { intros r' Hr'. unfold route_at. cbn. rewrite lookup_insert_ne by set_solver. done. }
  split; [| | |done].
  - cbn. eapply is_list_same; [done|]. intros u Hu. rewrite lookup_insert_ne; [done|].
    intros <-. by apply (link_not_in r rs).
  - intros r' Hr'. destruct (He r' Hr') as [? Hs]. split; [done|]. cbn.
    rewrite lookup_insert_ne by set_solver. done.
  - intros r' Hr'. rewrite Hat by done. by apply Hc.
Qed.

(** [rt_add] up to the lock. *)
Lemma wp_rt_add_entry net mask next_hop n rs w r e' (Q : unit → ipw E → Prop) :
  routes_ok rs w → existsb (is_route w net mask) rs = false → 0 ≤ mask < 2 ^ 32 →
  fresh_route rs w r e' →
  wp (acquire_routes;; c ← on_cells (list_count rt_list);
      (if c =? IP_RTABLE_SIZE then
         e ← on_cells (list_empty rt_list);
         assert_ (negb e);;
         p ← on_cells (list_prev rt_list);
         on_cells (list_del p);;
         p ← on_cells (list_prev rt_list);
         kfree_route (le2obj p)
       else mret tt);;
      on_cells (list_add_after rt_list (rentry_link r));;
      release_routes) (with_entry w e' r (mk_rentry net mask (popcount mask) next_hop n)) Q →
  wp (rt_add net mask next_hop n) w Q.
Proof.
  intros Hok Hex Hm (Hk & Hr0 & Hr) HQ. unfold rt_add. apply wp_bind.
  eapply wp_rt_has_exist; [done|]. rewrite Hex. apply wp_bind, wp_ip_env. eapply wp_of_run; [done|].
  rewrite wp_bind, wp_assert. split; [by rewrite (proj2 (Z.eqb_neq r 0))|].
  apply wp_bind. eapply wp_of_ok; [by apply count_ones_word|].
  apply wp_bind, wp_modify. by apply wp_bind, wp_new_cell.
Qed.
(** ** The properties *)

(** C18: [rt_find] is longest prefix match: it returns the route of the table that
    leads to the address and has the longest prefix, the first among equals, or
    null when no route leads there; the table stays as it is *)
Theorem rt_find_spec ip rs w :
  routes_ok rs w →
  ∃ r, rt_find ip w = Ok (r, w) ∧
    (r = 0 ∧ (∀ r', r' ∈ rs → leads w ip r' = false) ∨ r ≠ 0 ∧ best_route w ip rs r).
Proof.
  intros Hok.
  assert (wp (rt_find ip) w (λ r w', found w ip rs r ∧ w' = w)) as (r & w' & Hr & Hf & ->)%wp_run
    by (by eapply wp_rt_find).
  by exists r.
Qed.

(** A route to add that is in the table changes nothing; another one becomes
    the first entry of a table with room, with the length of its prefix counted *)
Theorem rt_add_spec net mask next_hop n rs w r e' :
  routes_ok rs w → 0 ≤ mask < 2 ^ 32 → zlen rs < IP_RTABLE_SIZE → fresh_route rs w r e' →
  ∃ w', rt_add net mask next_hop n w = Ok (tt, w') ∧
    if existsb (is_route w net mask) rs then w' = w
    else routes_ok (r :: rs) w' ∧
      route_at w' r = mk_rentry net mask (popcount mask) next_hop n ∧
      (∀ r', r' ∈ rs → route_at w' r' = route_at w r') ∧
      i_pk w' = i_pk w ∧ i_env w' = e' ∧ i_netifs w' = i_netifs w ∧ i_frags w' = i_frags w.
Proof.
  intros Hok Hm Hlen Hfr. apply wp_unit. destruct (existsb _ rs) eqn:Hex.
  { unfold rt_add. apply wp_bind. eapply wp_rt_has_exist; [done|]. by rewrite Hex. }
  eapply wp_rt_add_entry; [done..|].
  destruct Hfr as (_ & Hr0 & Hr). set (v := mk_rentry _ _ _ _ _). set (w1 := with_entry w e' r v).
  pose proof (with_entry_ok rs w e' r v Hok Hr) as Hok1. fold w1 in Hok1.
  apply wp_bind, wp_acquire_routes; [apply Hok1|].
  apply wp_bind. eapply wp_cells_read; [apply count_run, Hok1|].
  rewrite length_map. unfold IP_RTABLE_SIZE in *. rewrite (wrap_small 64) by lia.
  rewrite (proj2 (Z.eqb_neq (zlen rs) 32)) by lia. apply wp_bind. rewrite wp_ret.
  apply wp_bind, wp_ip_cells.
  apply (wp_list_add_after rt_list [] (map rentry_link rs)); [apply Hok1|by apply link_not_in| |].
  { cbn. rewrite dom_insert. set_solver. }
  cbn [app last default]. intros h' Hl' _. apply wp_release_routes; [done|].
  assert (∀ r', r' ∈ rs → i_routes w1 !! r' = i_routes w !! r') as Hlk.
  { intros r' Hr'. cbn. rewrite lookup_insert_ne by set_solver. done. }
  split_and!; try done.
  - split; [done| | |done].
    + intros r' [-> |Hr']%elem_of_cons.
      * split; [done|]. cbn. rewrite lookup_insert_eq. eauto.
      * destruct (ro_entries _ _ Hok r' Hr') as [? Hs]. split; [done|]. cbn. by rewrite Hlk.
    + intros r' [-> |Hr']%elem_of_cons; unfold route_at; cbn.
      * by rewrite lookup_insert_eq.
      * rewrite Hlk by done. by apply Hok.
  - unfold route_at. cbn. by rewrite lookup_insert_eq.
  - intros r' Hr'. unfold route_at. cbn. by rewrite Hlk.
Qed.

(** C19: [rt_remove] leaves an empty table alone and removes the first entry when that is
    the one named; when the table has entries and the first is another, its loop never
    ends, whatever the number of rounds, with the table's lock held *)
Theorem rt_remove_spec net mask rs w :
  routes_ok rs w →
  match rs with
  | [] => rt_remove 1 net mask w = Ok (tt, w)
  | r :: rs' =>
      if is_route w net mask r then
        ∃ w', rt_remove 1 net mask w = Ok (tt, w') ∧ i_routes w' = delete r (i_routes w) ∧
          (NoDup rs → routes_ok rs' w')
      else ∀ fuel, rt_remove fuel net mask w = NoFuel
  end.
Proof.
  intros Hok. pose proof Hok as [[Hnd Hs] He _ Hf].
  set (w1 := set_i_rt_lock true w).
  assert (∀ fuel, rt_remove fuel net mask w =
    (rt_remove_loop fuel net mask;; release_routes) w1) as Hrun.
  { intros fuel. unfold rt_remove. unfold mbind at 1, M_bind at 1, acquire_routes.
    unfold mbind, M_bind, gets. rewrite Hf. done. }
  destruct rs as [|r rs].
  - rewrite Hrun. apply wp_result. apply wp_bind. unfold rt_remove_loop. cbn [loop].
    apply wp_bind, wp_bind. eapply (wp_cells_read _ w1); [apply next_run; by apply lseg_first in Hs|].
    rewrite Z.eqb_refl, wp_ret, wp_ret. apply wp_release_routes; [done|].
    unfold w1. by rewrite set_rt_lock_twice, set_rt_lock_id.
  - destruct (He r) as [Hr0 [v Hv]]; [set_solver|].
    assert (route_at w r = v) as Hat by (unfold route_at; by rewrite Hv).
    assert (∀ fuel, rt_remove_loop (S fuel) net mask w1 =
      (if is_route w net mask r then
         on_cells (list_del (rentry_link r));; kfree_route r
       else rt_remove_loop fuel net mask) w1) as Hstep.
    { intros fuel. unfold rt_remove_loop. cbn [loop].
      assert (on_cells (list_next rt_list) w1 = Ok (rentry_link r, w1)) as Hn.
      { apply wp_result. eapply wp_cells_read; [apply next_run; by apply lseg_first in Hs|done]. }
      unfold mbind at 1, M_bind at 1. unfold mbind at 1, M_bind at 1. rewrite Hn.
      rewrite (proj2 (Z.eqb_neq _ _) (link_not_head r)), le2obj_rentry.
      assert (get_route r w1 = Ok (v, w1)) as Hg by (apply wp_result; by eapply wp_get_route).
      unfold mbind at 1, M_bind at 1. rewrite Hg. unfold is_route. rewrite Hat.
      destruct (_ && _); [|done].
      unfold mbind, M_bind.
      destruct (on_cells (list_del (rentry_link r)) w1) as [[[] w2]| | | |]; try done.
      by destruct (kfree_route r w2) as [[[] w3]| | | |]. }
    destruct (is_route w net mask r) eqn:Hm.
    + rewrite Hrun. apply wp_unit. unfold wp, mbind, M_bind. rewrite Hstep.
      change (wp ((on_cells (list_del (rentry_link r));; kfree_route r);; release_routes) w1
        (λ _ w', i_routes w' = delete r (i_routes w) ∧ (NoDup (r :: rs) → routes_ok rs w'))).
      apply wp_bind, wp_bind, wp_ip_cells.
      apply (wp_list_del rt_list [] (rentry_link r) (map rentry_link rs)); [done|].
      cbn [app]. intros h' Hl' Ht. eapply wp_kfree_route; [done|].
      apply wp_release_routes; [done|]. split; [done|].
      intros [Hr _]%NoDup_cons.
      assert (∀ r', r' ∈ rs → delete r (i_routes w) !! r' = i_routes w !! r') as Hlk.
      { intros r' Hr'. rewrite lookup_delete_ne by set_solver. done. }
      split; [| | |done].
      * cbn. eapply is_list_same; [done|]. intros u Hu. rewrite lookup_delete_ne; [done|].
        intros <-. by apply (link_not_in r rs).
      * intros r' Hr'. destruct (He r') as [? Hsr]; [set_solver|]. split; [done|]. cbn. by rewrite Hlk.
      * intros r' Hr'. unfold route_at. cbn. rewrite Hlk by done. apply Hok. set_solver.
    + intros fuel. rewrite Hrun. unfold mbind, M_bind.
      assert (rt_remove_loop fuel net mask w1 = NoFuel) as ->; [|done].
      induction fuel as [|fuel IH]; [done|]. by rewrite Hstep.
Qed.
(** A lookup that comes to an entry freed. *)
Lemma rt_find_dangling ip fr y w :
  i_rt_lock w = false → path (i_cells w) rt_list (map rentry_link (fr ++ [y])) →
  NoDup (fr ++ [y]) → (∀ r, r ∈ fr → is_Some (i_routes w !! r)) → i_routes w !! y = None →
  rt_find ip w = Undef.
Proof.
  intros Hf Hp Hnd He Hy. unfold rt_find. unfold mbind at 1, M_bind at 1.
  assert (acquire_routes w = Ok (tt, set_i_rt_lock true w)) as ->
    by (apply wp_result; by apply wp_acquire_routes).
  set (w1 := set_i_rt_lock true w). unfold mbind, M_bind. unfold ip_for_each.
  rewrite map_app in Hp. cbn [map] in Hp.
  assert (∀ l, rt_list ∉ map rentry_link l) as Hno.
  { intros l (r & Er & _)%list_elem_of_fmap. by apply (link_not_head r). }
  erewrite (for_each_undef (i_cells w1) w1 _ _ _ rt_list (map rentry_link fr) (rentry_link y) _
    (λ l, l = 0 ∨ l ∈ fr)); [done|exact Hp| | |done| | | |by left].
  - specialize (Hno (fr ++ [y])). by rewrite map_app in Hno.
  - intros a b Hab. apply wp_result. eapply wp_cells_read; [by apply next_run|done].
  - change (i_cells w1) with (i_cells w). apply Nat.lt_le_incl. eapply path_size; [exact Hp|].
    apply NoDup_cons. split; [apply Hno|]. apply NoDup_app in Hnd as [Hnd _].
    by apply (NoDup_fmap_2 rentry_link).
  - intros l a (r & -> & Hr)%list_elem_of_fmap Hl. rewrite le2obj_rentry.
    assert (∀ l', l' ∈ fr → get_route l' w1 = Ok (route_at w1 l', w1)) as Hg
      by (intros; by apply (get_route_run w1), He).
    rewrite (Hg _ Hr). destruct (negb _); [by eauto|].
    destruct (Z.eqb_spec l 0) as [->|Hl0]; [by eauto|]. destruct Hl as [?|Hl]; [done|].
    rewrite (Hg _ Hl). eexists. split; [done|]. destruct (_ <? _); by right.
  - intros l _. rewrite le2obj_rentry. unfold get_route, mbind, M_bind, gets. cbn. by rewrite Hy.
Qed.

(** The last entry [x] is unlinked and the one before, [y], freed: the links still
    lead to [y]. *)
Lemma wp_evict rs y x w (Q : unit → ipw E → Prop) :
  is_list (i_cells w) rt_list (map rentry_link ((rs ++ [y]) ++ [x])) → is_Some (i_routes w !! y) →
  (∀ h, path h rt_list (map rentry_link rs ++ [rentry_link y]) →
     (∀ u, u ≠ rentry_link y → u ∈ dom (i_cells w) → u ∈ dom h) →
     Q tt (set_i_cells h (set_i_routes (delete y (i_routes w)) w))) →
  wp (p ← on_cells (list_prev rt_list); on_cells (list_del p);;
      p ← on_cells (list_prev rt_list); kfree_route (le2obj p)) w Q.
Proof.
  intros Hl [vy Hvy] HQ. rewrite !map_app in Hl. cbn [map] in Hl.
  assert (∀ l z h, is_list h rt_list (l ++ [z]) → list_prev rt_list h = Ok (z, h)) as Hlast.
  { intros l z h [_ Hs]. apply prev_run. apply lseg_last in Hs. by rewrite last_snoc in Hs. }
  apply wp_bind. eapply wp_cells_read; [by eapply Hlast|].
  apply wp_bind, wp_ip_cells. eapply wp_list_del; [exact Hl|].
  rewrite app_nil_r. intros h2 Hl2 Ht2.
  apply wp_bind. eapply wp_cells_read; [by eapply Hlast|].
  rewrite le2obj_rentry. eapply wp_kfree_route; [exact Hvy|].
  destruct Hl2 as [Hnd2 Hs2]. pose proof (lseg_path _ _ _ _ Hs2) as Hp2. apply HQ; cbn.
  - eapply path_same; [exact Hp2| |done]. intros u _ Hu. unfold nxt.
    rewrite lookup_delete_ne; [done|]. intros <-. apply Hu. by rewrite app_comm_cons, last_snoc.
  - intros u Hu Hd. rewrite dom_delete_L, (proj1 Ht2). set_solver.
Qed.

(** C36: Adding to a full table a route it does not have frees the entry before the
    last while that stays linked: the call returns, and then every lookup reads
    freed memory *)
Theorem rt_add_full_dangles net mask next_hop n rs w r e' :
  routes_ok rs w → 0 ≤ mask < 2 ^ 32 → zlen rs = IP_RTABLE_SIZE →
  existsb (is_route w net mask) rs = false → fresh_route rs w r e' →
  ∃ w', rt_add net mask next_hop n w = Ok (tt, w') ∧ ∀ ip, rt_find ip w' = Undef.
Proof.
  intros Hok Hm Hlen Hex Hfr. apply wp_unit. eapply wp_rt_add_entry; [done..|].
  destruct Hfr as (_ & Hr0 & Hr). set (v := mk_rentry _ _ _ _ _). set (w1 := with_entry w e' r v).
  pose proof (with_entry_ok rs w e' r v Hok Hr) as Hok1. fold w1 in Hok1.
  destruct rs as [|x rs _] using rev_ind; [done|]. destruct rs as [|y rs _] using rev_ind; [done|].
  apply wp_bind, wp_acquire_routes; [apply Hok1|].
  apply wp_bind. eapply wp_cells_read; [apply count_run, Hok1|].
  rewrite length_map, Hlen. unfold IP_RTABLE_SIZE. rewrite (wrap_small 64) by lia. cbn [Z.eqb Pos.eqb].
  rewrite wp_bind, wp_bind. eapply wp_cells_read; [apply empty_run, Hok1|].
  rewrite wp_bind, wp_assert. split; [by rewrite bool_decide_eq_false_2 by (by destruct rs)|].
  unfold IP_RTABLE_SIZE in Hlen. rewrite !length_app in Hlen. cbn in Hlen.
  apply (wp_evict rs y x); [apply Hok1|apply (ro_entries _ _ Hok1); set_solver|]. intros h Hp Hd.
  pose proof (ro_list _ _ Hok) as [Hnd _]. rewrite !map_app in Hnd. cbn [map] in Hnd.
  pose proof (link_not_in r _ Hr) as Hnl. rewrite !map_app in Hnl. cbn [map] in Hnl.
  assert (NoDup (rs ++ [y])) as Hnd'.
  { rewrite app_comm_cons in Hnd. apply NoDup_app in Hnd as [[_ Hnd]%NoDup_cons _].
    apply (NoDup_fmap_1 rentry_link). by rewrite fmap_app. }
  apply wp_bind, wp_ip_cells. eapply wp_list_add_after_path; [exact Hp|..].
  - rewrite app_comm_cons in Hnd. by apply NoDup_app in Hnd as [? _].
  - by destruct rs; [cbn in Hlen; lia|].
  - set_solver.
  - apply Hd; [set_solver|]. cbn. rewrite dom_insert. set_solver.
  - intros h' Hp'. apply wp_release_routes; [done|]. intros ip.
    apply (rt_find_dangling _ (r :: rs) y); [done| | | |].
    + cbn [app map]. by rewrite map_app.
    + apply NoDup_cons. split; [set_solver|done].
    + intros l Hl. cbn. rewrite lookup_delete_ne.
      * rewrite lookup_insert_is_Some. destruct (decide (r = l)); [by left|]. right. split; [done|].
        apply (ro_entries _ _ Hok). set_solver.
      * intros <-. apply NoDup_app in Hnd' as (_ & Hx & _). set_solver.
    + cbn. apply lookup_delete_eq.
Qed.
End spec.

(** ** Examples *)

(** A table to start from: the default route through 192.168.1.1, and the routes
    to 192.168.1.0/24 and to 10.0.0.0/8, added in this order. *)
Definition add_all (l : list (Ipaddr * Ipaddr * Ipaddr)) (w : ipw wire) : ipw wire :=
  foldl (λ w '(net, mask, hop), run_state (rt_add net mask hop 1) w) w l.
Definition gw_ip : Ipaddr := q_addr [192; 168; 1; 1].
Definition demo_routes : ipw wire := Eval vm_compute in
  add_all [(0, 0, gw_ip); (q_addr [192; 168; 1; 0], demo_mask, 0);
           (q_addr [10; 0; 0; 0], q_addr [255; 0; 0; 0], gw_ip)] (demo_ipw empty_world).
(** Thirty-two host routes. *)
Definition full_routes : ipw wire := Eval vm_compute in
  add_all (map (λ i, (q_addr [10; 0; 0; Z.of_nat i], ipaddr_set_all_1, gw_ip)) (seq 1 32))
    (demo_ipw empty_world).

Lemma routes_ok_check {E : Type} rs (w : ipw E) :
  bool_decide (is_list (i_cells w) rt_list (map rentry_link rs)) = true →
  forallb (λ r, negb (r =? 0) && bool_decide (is_Some (i_routes w !! r)) &&
    (re_mask_1_cnt (route_at w r) =? popcount (re_mask (route_at w r)))) rs = true →
  i_rt_lock w = false → routes_ok rs w.
Proof.
  intros Hl He Hf. rewrite forallb_forall in He.
  assert (∀ r, r ∈ rs → (r ≠ 0 ∧ is_Some (i_routes w !! r)) ∧
    re_mask_1_cnt (route_at w r) = popcount (re_mask (route_at w r))) as Hr.
  { intros r Hr%list_elem_of_In. specialize (He r Hr).
    apply andb_prop in He as [[H0%negb_true_iff%Z.eqb_neq H1%bool_decide_eq_true]%andb_prop H2%Z.eqb_eq].
    done. }
  split; [by apply bool_decide_eq_true in Hl|apply Hr|apply Hr|done].
Qed.

Lemma demo_routes_ok : routes_ok [102; 101; 100] demo_routes.
Proof. by apply routes_ok_check; vm_compute. Qed.

Lemma full_routes_ok : routes_ok (rev (map (λ i, 99 + Z.of_nat i) (seq 1 32))) full_routes.
Proof. by apply routes_ok_check; vm_compute. Qed.

Lemma demo_fresh : fresh_route [102; 101; 100] demo_routes 103 (mk_wire 104 []).
Proof. by split_and!; [|done|vm_compute; set_solver]. Qed.

Lemma rt_find_spec_witness :
  ∃ r, rt_find (q_addr [10; 1; 2; 3]) demo_routes = Ok (r, demo_routes) ∧
    (r = 0 ∧ (∀ r', r' ∈ [102; 101; 100] → leads demo_routes (q_addr [10; 1; 2; 3]) r' = false) ∨
     r ≠ 0 ∧ best_route demo_routes (q_addr [10; 1; 2; 3]) [102; 101; 100] r).
Proof. apply rt_find_spec, demo_routes_ok. Defined.

Example rt_find_demo :
  rt_find (q_addr [10; 1; 2; 3]) demo_routes = Ok (102, demo_routes) ∧
  rt_find (q_addr [8; 8; 8; 8]) demo_routes = Ok (100, demo_routes).
Proof. split; vm_compute; reflexivity. Qed.

Lemma rt_add_spec_witness :
  ∃ w', rt_add (q_addr [10; 1; 0; 0]) (q_addr [255; 255; 0; 0]) gw_ip 1 demo_routes = Ok (tt, w') ∧
    routes_ok [103; 102; 101; 100] w' ∧
    route_at w' 103 = mk_rentry (q_addr [10; 1; 0; 0]) (q_addr [255; 255; 0; 0]) 16 gw_ip 1 ∧
    (∀ r', r' ∈ [102; 101; 100] → route_at w' r' = route_at demo_routes r') ∧
    i_pk w' = i_pk demo_routes ∧ i_env w' = mk_wire 104 [] ∧
    i_netifs w' = i_netifs demo_routes ∧ i_frags w' = i_frags demo_routes.
Proof.
  apply (rt_add_spec (q_addr [10; 1; 0; 0]) (q_addr [255; 255; 0; 0]) gw_ip 1 _ _ 103
    (mk_wire 104 []) demo_routes_ok);
    [by split; vm_compute|done|apply demo_fresh].
Defined.

Lemma rt_remove_spec_witness :
  (∃ w', rt_remove 1 (q_addr [10; 0; 0; 0]) (q_addr [255; 0; 0; 0]) demo_routes = Ok (tt, w') ∧
     i_routes w' = delete 102 (i_routes demo_routes) ∧
     (NoDup [102; 101; 100] → routes_ok [101; 100] w')) ∧
  ∀ fuel, rt_remove fuel 0 0 demo_routes = NoFuel.
Proof.
  split.
  - apply (rt_remove_spec (q_addr [10; 0; 0; 0]) (q_addr [255; 0; 0; 0]) _ _ demo_routes_ok).
  - apply (rt_remove_spec 0 0 _ _ demo_routes_ok).
Defined.

Lemma rt_add_full_dangles_witness :
  ∃ w', rt_add 0 0 gw_ip 1 full_routes = Ok (tt, w') ∧ ∀ ip, rt_find ip w' = Undef.
Proof.
  apply (rt_add_full_dangles 0 0 gw_ip 1 _ _ 132 (mk_wire 133 []) full_routes_ok);
    [done|done|by vm_compute|].
  split_and!; [done|done|]. by apply (bool_decide_unpack _); vm_compute.
Defined.
