(* ===== verification/IpOutSpec.v ===== *)
(** * Sending datagrams: what [ipv4_out] does

    A datagram goes to the link layer of the best route's interface, whole when it fits
    the interface's MTU and in fragments when not; every packet has the header of RFC 791
    with a valid checksum, and the fragments' data are the datagram's, in order.  A packet
    the link layer refuses ends the sending with the link layer's result. *)
From S2P Require Import Prelude Errors PacketIO Nettool ListH Ipaddr Pktbuf PktbufOps PktbufCursor PktbufSpec PktMem IpState IpWp Route Netif IpOut IpWire RouteSpec.

(** ** Headers sent *)

Definition new_hdr (len id off : Z) (more : bool) (protocol : Z) (src dest : Ipaddr) : Ipv4_hdr :=
  mk_iphdr 5 4 0 len id off more false false 64 protocol 0 src dest.

(** The address a datagram is sent from. *)
Definition source_ip (v : Netif) (src : option Ipaddr) : Ipaddr :=
  match src with
  | Some s => if ipaddr_is_any s then if_ipaddr v else s
  | None => if_ipaddr v
  end.

(** The bytes of a packet for the wire. *)
Definition valid_datagram (h : Ipv4_hdr) (data bs : bytes) : Prop :=
  ∃ c, bs = wire_iphdr h c ++ data ∧ 0 ≤ c < 2 ^ 16 ∧
    checksum16 0 (wire_iphdr h c) 20 0 true = Ok 0.

Lemma fill_eq total id protocol dest src v h :
  fill_ip_header total id protocol dest src v h =
    new_hdr (u16 total) id 0 false protocol (source_ip v src) dest.
Proof. by destruct h, src. Qed.

Definition addr_range (a : Ipaddr) : Prop := 0 ≤ a < 2 ^ 32.

Lemma new_hdr_ok len id off more protocol src dest :
  0 ≤ len < 2 ^ 16 → 0 ≤ id < 2 ^ 16 → 0 ≤ off < 8192 → 0 ≤ protocol < 256 →
  addr_range src → addr_range dest → iphdr_ok (new_hdr len id off more protocol src dest).
Proof. intros. by split. Qed.

Lemma source_range v src :
  addr_range (if_ipaddr v) → (∀ s, src = Some s → addr_range s) → addr_range (source_ip v src).
Proof. intros Hv Hs. destruct src as [s|]; [|done]. cbn. destruct (ipaddr_is_any s); auto. Qed.

(** ** The checksum of the header *)

Lemma wire_split h c : wire_iphdr h c =
  take 10 (wire_iphdr h 0) ++ le16 c ++ drop 12 (wire_iphdr h 0).
Proof. done. Qed.

Lemma wire_iphdr_bytes h c : iphdr_ok h → Forall is_byte (wire_iphdr h c).
Proof. intros Hh. rewrite <- encode_htons by done. apply encode_ip_bytes. Qed.

Lemma hdr_checksum h c :
  iphdr_ok h → checksum16 0 (wire_iphdr h 0) 20 0 true = Ok c →
  0 ≤ c < 2 ^ 16 ∧ checksum16 0 (wire_iphdr h c) 20 0 true = Ok 0.
Proof.
  intros Hh. pose proof (wire_iphdr_bytes h 0 Hh) as Hb.
  rewrite (wire_split h 0), (wire_split h c). apply checksum_fills.
  - by apply Forall_take.
  - by apply Forall_drop.
  - by exists 5.
  - done.
Qed.

(** ** The link layer *)

(** A packet handed to it: interface, next hop, bytes, and the result. *)
Abbreviation attempt := (Z * Ipaddr * bytes * Z)%type.

(** What is relied on: [tried] records the packets handed over, with the bytes they have
    then; a packet refused, by a negative result, stays the caller's; other packets
    stay, and at most [slack] bytes of the packets' memory are taken for the link's own
    header. *)
Class LinkLayer (E : Type) `{IE : !IpEnv E} (tried : E → list attempt) (slack : Z) := {
  link_slack : 0 ≤ slack;
  link_tries l n ip b v pk e :
    live pk b v → mem_size (phead pk) + slack ≤ max_mem_size (phead pk) →
    wp (link_out l n ip b) (pk, e) (λ r '(pk', e'),
      wf pk' ∧
      (∀ b', b' ≠ b → b' < brk pk → bufs pk' !! b' = bufs pk !! b') ∧
      mem_size (phead pk') ≤ mem_size (phead pk) + slack ∧
      max_mem_size (phead pk') = max_mem_size (phead pk) ∧
      tried e' = tried e ++ [(n, ip, content v, r)] ∧
      (r < 0 → is_Some (bufs pk' !! b)))
}.

(** ** Cutting *)

Lemma land_not7 x : 0 ≤ x < 2 ^ 64 → Z.land x (u64 (Z.lnot 7)) = x / 8 * 8.
Proof.
  intros Hx. unfold wrap. rewrite <- Z.land_ones, Z.land_assoc by lia.
  change (Z.land x (Z.lnot 7)) with (Z.land x (Z.lnot (Z.ones 3))).
  rewrite <- Z.ldiff_land, Z.ldiff_ones_r, Z.shiftl_mul_pow2, Z.shiftr_div_pow2 by lia.
  change (2 ^ 3) with 8. rewrite Z.land_ones by lia. apply Z.mod_small.
  pose proof (Z.div_mod x 8). pose proof (Z.mod_pos_bound x 8). split; [|lia].
  apply Z.mul_nonneg_nonneg; [apply Z.div_pos|]; lia.
Qed.

Lemma frag_cut_ok mtu total :
  28 ≤ mtu < 2 ^ 32 → 0 < total < 2 ^ 32 →
  let c := frag_cut mtu total in
  0 < c ≤ total ∧ c + SIZEOF_IPV4_HDR ≤ mtu ∧ (c < total → c mod 8 = 0).
Proof.
  intros Hm Ht. unfold frag_cut, SIZEOF_IPV4_HDR. rewrite (wrap_small 64 (mtu - 20)) by lia. cbv zeta.
  assert (∀ x, 0 ≤ x < 2 ^ 32 → Z.land x (u64 (Z.lnot 7)) = x / 8 * 8) as Hl
    by (intros; apply land_not7; lia).
  destruct (Z.ltb_spec (mtu - 20) total).
  - rewrite (proj2 (Z.ltb_lt _ _)), Hl by lia.
    pose proof (Z.div_mod (mtu - 20) 8). pose proof (Z.mod_pos_bound (mtu - 20) 8).
    pose proof (Z.div_le_lower_bound (mtu - 20) 8 1). split_and!; try lia. intros _. apply Z_mod_mult.
  - rewrite Z.ltb_irrefl. split_and!; lia.
Qed.

Section out.
Context {E : Type} `{IE : !IpEnv E} `{K : !Kmalloc} `{KO : !KmallocOk}.
Implicit Types (w : ipw E) (e : E).

Definition with_pk (pk : pworld) w : ipw E := set_i_pk_env (pk, i_env w) w.

(** Packet [b] holds header [h] with its checksum field zero; afterwards the bytes
    are a datagram for the wire. *)
Lemma wp_finish_header b v p h data pk w (Q : unit → ipw E → Prop) :
  i_pk w = pk → ip_buf pk b v p (iphdr_htons h) data → iphdr_ok h → ih_checksum h = 0 →
  ih_shdr h = 5 → cursor_ok v → pos v = 0 → total_size v < 2 ^ 31 →
  (∀ v' pk', updated pk b v' pk' → valid_datagram h data (content v') → ref v' = ref v →
     Q tt (with_pk pk' w)) →
  wp (finish_header b p) w Q.
Proof.
  intros <- Hi Hh Hc0 H5 Hcur Hpos H31 HQ. unfold finish_header.
  apply wp_bind, wp_ip_pk. eapply wp_load_ip; [exact Hi|].
  assert (ipv4_hdr_size (iphdr_htons h) = 20) as -> by (unfold ipv4_hdr_size; cbn; lia).
  pose proof Hi as [([Hw Hb] & Hat) Ec _].
  pose proof (buf_total _ _ (wf_bufs _ Hw _ _ Hb)) as Htot.
  assert (content v = wire_iphdr h 0 ++ data) as Ew.
  { rewrite Ec. rewrite <- encode_htons by done. do 2 f_equal. destruct h. cbn in *. by subst. }
  assert (slice (content v) 0 20 = wire_iphdr h 0) as Esl by (by rewrite Ew).
  pose proof (wire_iphdr_bytes h 0 Hh) as Hby. assert (zlen (wire_iphdr h 0) = 20) as H20 by done.
  pose proof (wsum_take_bound false _ 20 Hby ltac:(lia)) as Hsb. rewrite take_ge in Hsb by lia.
  assert (20 ≤ total_size v) by (rewrite Htot, Ew, length_app; cbn; lia).
  apply wp_bind, wp_ip_pk. change (set_i_pk_env (i_pk w, i_env w) w) with (with_pk (i_pk w) w).
  eapply (wp_checksum b (i_pk w) v); [done..|lia|lia|lia|lia|].
  intros v1 pk1 U1 L1 Ec1 _. cbv zeta. rewrite Hpos, Esl.
  assert (checksum16 0 (wire_iphdr h 0) 20 0 true =
    Ok (65535 - norm (0 + wsum false (wire_iphdr h 0)))) as Hsum.
  { rewrite checksum16_run; change (Z.odd 0) with false; rewrite ?take_ge by lia; try done; lia. }
  destruct (hdr_checksum h _ Hh Hsum) as [Hcr Hc]. set (c := 65535 - _) in *.
  apply wp_ip_pk. eapply (wp_upd_ip p _ b pk1 v1 (iphdr_htons h) data).
  { split; [eapply owns_updated; [exact U1|]|by rewrite Ec1|by apply iphdr_htons_ok].
    by eapply header_windows; [|apply L1]. }
  { rewrite checksum_htons. apply iphdr_htons_ok. by destruct Hh. }
  intros v2 pk2 U2 [_ Ec2 _] R2 _ _ _. eapply HQ.
  - by eapply updated_trans.
  - exists c. split; [|done]. by rewrite Ec2, encode_htons.
  - rewrite R2. apply L1.
Qed.

(** A new packet of [n] bytes; its first block is the one that is not full, and
    the header has to fit there. *)
Lemma wp_new_dgram n pk (Q : Z → pworld → Prop) :
  wf pk → 0 < n → mem_size (phead pk) + n ≤ max_mem_size (phead pk) →
  (∀ v k r pk', wf pk' → bufs pk !! brk pk = None → bufs pk' = <[brk pk := v]> (bufs pk) →
     pktblk_list v = k :: r → blk_size k = first_size n →
     blk_data k = PKTBUF_BLK_SIZE - first_size n →
     zlen (content v) = n → ref v = 1 → cursor_ok v → pos v = 0 →
     mem_size (phead pk') = mem_size (phead pk) + n →
     max_mem_size (phead pk') = max_mem_size (phead pk) → Q (brk pk) pk') →
  wp (pktbuf_alloc n) pk Q.
Proof.
  intros Hw Hn Hr HQ. eapply wp_alloc; [done|lia|done|].
  intros v pk' Hw' Hno Eb Ec Er Es Em Emx _ Hfb.
  destruct (Hfb Hn) as (k & r & El & Ek & Ed).
  assert (bufs pk' !! brk pk = Some v) as Hb by (rewrite Eb; by rewrite lookup_insert_eq).
  pose proof (buf_chain _ _ (wf_bufs _ Hw' _ _ Hb)) as Hch.
  destruct (cursor_reset v Hch) as (Hcur & Hpos & _). rewrite Es in Hcur, Hpos.
  by apply (HQ v k r).
Qed.

(** One fragment: the packet's content under the cursor, behind a header. *)
Section fragment.
Context (tried : E → list attempt) (slack : Z) `{LT : !LinkLayer E tried slack}.
Context (protocol : Z) (dest : Ipaddr) (src : option Ipaddr) (b : Z) (next : Ipaddr) (n : Z).
Context (v : Netif).

(** The interface has a link layer, and the header's fields their widths. *)
Record can_send (w : ipw E) : Prop := {
  cs_netif : i_netifs w !! n = Some v;
  cs_link : if_link_layer v ≠ 0;
  cs_ip : addr_range (if_ipaddr v);
  cs_src s : src = Some s → addr_range s;
  cs_dest : addr_range dest;
  cs_protocol : 0 ≤ protocol < 256;
  cs_id : 0 ≤ i_packet_id w < 2 ^ 16
}.

(** And its MTU leaves room for a header and eight bytes. *)
Record can_frag (w : ipw E) : Prop := {
  cf_send : can_send w;
  cf_mtu : 28 ≤ if_mtu v < 2 ^ 32
}.

(** The header of the fragment of [len] bytes at offset [off]. *)
Definition frag_hdr (id off len : Z) (more : bool) : Ipv4_hdr :=
  new_hdr (20 + len) id (off / 8) more protocol (source_ip v src) dest.

(** The state after a packet was handed to the link layer; packet [b] is [s']. *)
Record handed w (s : Pktbuf) (len : Z) (p : Z) (bs : bytes) (s' : Pktbuf) (w' : ipw E) : Prop := {
  hd_rest : w' = set_i_pk_env (i_pk w', i_env w') w;
  hd_ready : ready (i_pk w') b s';
  hd_content : content s' = content s;
  hd_pos : pos s' = p;
  hd_like : like s s';
  hd_mem : mem_size (phead (i_pk w')) ≤ mem_size (phead (i_pk w)) + len + slack;
  hd_max : max_mem_size (phead (i_pk w')) = max_mem_size (phead (i_pk w));
  hd_sent : ∃ r, 0 ≤ r ∧ tried (i_env w') = tried (i_env w) ++ [(n, next, bs, r)]
}.

(** And when it was refused with [r]. *)
Record refused w (bs : bytes) (r : Z) (w' : ipw E) : Prop := {
  rd_rest : w' = set_i_pk_env (i_pk w', i_env w') w;
  rd_wf : wf (i_pk w');
  rd_own : is_Some (bufs (i_pk w') !! b);
  rd_sent : tried (i_env w') = tried (i_env w) ++ [(n, next, bs, r)];
  rd_neg : r < 0
}.

(** Handing over packet [d], with packet [b] untouched by the link layer. *)
Lemma wp_netif_out d vd w (Q : Z → ipw E → Prop) :
  i_netifs w !! n = Some v → if_link_layer v ≠ 0 → live (i_pk w) d vd →
  mem_size (phead (i_pk w)) + slack ≤ max_mem_size (phead (i_pk w)) →
  (∀ r pk' e', wf pk' →
     (∀ b', b' ≠ d → b' < brk (i_pk w) → bufs pk' !! b' = bufs (i_pk w) !! b') →
     mem_size (phead pk') ≤ mem_size (phead (i_pk w)) + slack →
     max_mem_size (phead pk') = max_mem_size (phead (i_pk w)) →
     tried e' = tried (i_env w) ++ [(n, next, content vd, r)] →
     (r < 0 → is_Some (bufs pk' !! d)) →
     Q (if r <? 0 then r else NET_OK) (set_i_pk_env (pk', e') w)) →
  wp (netif_out n next d) w Q.
Proof.
  intros Hn Hl Hd Hm HQ. unfold netif_out. apply wp_bind. eapply wp_get_netif; [exact Hn|].
  rewrite (proj2 (Z.eqb_neq _ _) Hl). cbn [negb]. apply wp_bind, wp_ip_pk_env.
  eapply wp_conseq; [by apply link_tries|]. intros r [pk' e'] (Hw' & Hk & Hme & Hmx & Hse & Hown).
  rewrite wp_ret. by apply HQ.
Qed.

(** The fragment's header is written field by field. *)
Lemma wp_frag_hdr {A} d vd len off more w (m : bptr → Ip E A) (Q : A → ipw E → Prop) :
  can_send w → live (i_pk w) d vd → cursor_ok vd → pos vd = 0 → total_size vd = 20 + len →
  0 ≤ len < 2 ^ 16 - 20 → 0 ≤ off < 2 ^ 16 → (∃ p, head_at SIZEOF_IPV4_HDR d vd p) →
  (∀ p v' pk', updated (i_pk w) d v' pk' →
     ip_buf pk' d v' p (frag_hdr (i_packet_id w) off len more) (drop 20 (content vd)) → like vd v' → pos v' = 0 →
     wp (m p) (with_pk pk' w) Q) →
  wp (pkt ← pkt_ptr d;
      db ← on_pk (get_buf d);
      id ← gets i_packet_id;
      on_pk (ip_upd pkt (fill_ip_header (total_size db) id protocol dest src v));;
      on_pk (ip_upd pkt (set_ih_offset (Z.land (Z.shiftr off 3) 8191)));;
      on_pk (ip_upd pkt (set_ih_more more));; m pkt) w Q.
Proof.
  intros Hf [Hw Hd] Hcur Hpos Htot Hlen Hoff [p Hat] HQ.
  destruct Hf as [_ _ Hip Hsrc Hdest Hpr Hid].
  assert (owns_ip (i_pk w) d vd p) as Ho by (by split; [split|]).
  apply wp_bind, wp_ip_pk. eapply wp_hdr_ptr; [exact Ho|].
  apply wp_bind, wp_ip_pk. eapply wp_get_buf; [exact Hd|]. apply wp_bind, wp_gets.
  pose proof (source_range v src Hip Hsrc) as Hsr.
  assert (∀ o b, 0 ≤ o < 8192 → iphdr_ok (new_hdr (20 + len) (i_packet_id w) o b protocol
    (source_ip v src) dest)) as Hok by (intros; apply new_hdr_ok; [lia|done..]).
  assert (Z.land (Z.shiftr off 3) 8191 = off / 8) as ->.
  { change 8191 with (Z.ones 13). rewrite Z.land_ones, Z.shiftr_div_pow2 by lia.
    apply Z.mod_small. split; [apply Z.div_pos|apply Z.div_lt_upper_bound]; lia. }
  assert (0 ≤ off / 8 < 8192) as Ho8 by (split; [apply Z.div_pos|apply Z.div_lt_upper_bound]; lia).
  apply wp_bind, wp_ip_pk. eapply (wp_ip_upd p _ d (i_pk w) vd); [exact Ho|].
  intros v1 pk1 U1 Hat1 R1 T1 E1 L1 P1. rewrite fill_eq, Htot, (wrap_small 16) in E1 by lia.
  assert (ip_buf pk1 d v1 p (frag_hdr (i_packet_id w) 0 len false) (drop 20 (content vd))) as B1
    by (split; [by eapply owns_updated|exact E1|by apply (Hok 0 false)]).
  apply wp_bind, wp_ip_pk. eapply (wp_upd_ip p _ d pk1 v1); [exact B1|by apply (Hok (off / 8) false)|].
  intros v2 pk2 U2 B2 R2 T2 L2 P2.
  apply wp_bind, wp_ip_pk. eapply (wp_upd_ip p _ d pk2 v2); [exact B2|by apply (Hok (off / 8) more)|].
  intros v3 pk3 U3 B3 R3 T3 L3 P3. specialize (L1 Hcur).
  specialize (L2 (like_cursor _ _ L1)). specialize (L3 (like_cursor _ _ L2)).
  eapply HQ; [by do 2 (eapply updated_trans; [eassumption|])|exact B3| |congruence].
  by do 2 (eapply like_trans; [eassumption|]).
Qed.

(** The data follows, then network order and the checksum. *)
Lemma wp_frag_data d vd p h data s c w (m : Ip E (Z * Z + Z)) (Q : Z * Z + Z → ipw E → Prop) :
  d ≠ b → ip_buf (i_pk w) d vd p h data → zlen data = c → cursor_ok vd → pos vd = 0 →
  iphdr_ok h → ih_checksum h = 0 → ih_shdr h = 5 → ready (i_pk w) b s →
  0 < c ≤ total_size s - pos s → c < 2 ^ 16 →
  (∀ vd' s' pk', wf pk' → bufs pk' = <[d := vd']> (<[b := s']> (bufs (i_pk w))) →
     mem_size (phead pk') = mem_size (phead (i_pk w)) →
     max_mem_size (phead pk') = max_mem_size (phead (i_pk w)) → like s s' →
     content s' = content s → pos s' = pos s + c →
     valid_datagram h (slice (content s) (pos s) c) (content vd') → wp m (with_pk pk' w) Q) →
  wp (on_pk (pktbuf_seek d SIZEOF_IPV4_HDR);;
      ret ← on_pk (pktbuf_copy d b c);
      if ret <? 0 then on_pk (pktbuf_free d);; mret (inr ret) else
      on_pk (ip_upd p iphdr_htons);;
      on_pk (pktbuf_seek d 0);;
      finish_header d p;; m) w Q.
Proof.
  intros Hne Hi Hdl Hcd Hpd Hh Hc0 H5 (_ & Hb & Hcb) Hc Hc16 HQ.
  pose proof Hi as [([Hw Hd] & Hat) Ec _].
  assert (total_size vd = 20 + c) as Ht.
  { rewrite (buf_total _ _ (wf_bufs _ Hw _ _ Hd)), Ec, length_app, encode_ip_length. lia. }
  apply wp_bind, wp_ip_pk. eapply (wp_seek d _ vd Hw Hd Hcd). unfold seek_code.
  rewrite Hpd, Ht. change SIZEOF_IPV4_HDR with 20. change (0 =? 20) with false.
  destruct (Z.leb_spec (20 + c) 20); [lia|]. cbn [Z.ltb Z.compare orb Z.eqb NET_OK].
  intros v1 pk1 U1 L1 E1 P1. pose proof U1 as (Hw1 & Eb1 & _ & Em1).
  assert (bufs pk1 !! d = Some v1) as Hd1 by (rewrite Eb1; by rewrite lookup_insert_eq).
  assert (bufs pk1 !! b = Some s) as Hb1 by (rewrite Eb1; by rewrite lookup_insert_ne).
  pose proof (like_total _ _ L1) as T1.
  apply wp_bind, wp_ip_pk.
  eapply (wp_copy d b pk1 v1 s Hw1 Hne Hd1 Hb1 (like_cursor _ _ L1) Hcb); [lia|lia|].
  intros v2 s' pk2 Hw2 Eb2 Eh2 L2 Ls Ec2 Es Ep2 Eps. cbn [Z.ltb Z.compare NET_OK].
  assert (bufs pk2 !! d = Some v2) as Hd2 by (rewrite Eb2; by rewrite lookup_insert_eq).
  pose proof (cursor_pos s (buf_chain _ _ (wf_bufs _ Hw _ _ Hb)) Hcb) as Hps.
  pose proof (buf_total _ _ (wf_bufs _ Hw _ _ Hb)) as Hts.
  assert (zlen (slice (content s) (pos s) c) = c) as Hsl by (apply slice_length; lia).
  assert (ip_buf pk2 d v2 p h (slice (content s) (pos s) c)) as B2.
  { split; [split; [by split|]| |done].
    - eapply header_windows; [exact Hat|].
      by rewrite (like_windows _ _ L2), (like_windows _ _ L1).
    - rewrite Ec2, P1, E1, Ec. unfold splice. rewrite take_app_length' by done.
      rewrite (drop_ge (encode_ip h ++ data)), app_nil_r; [done|].
      rewrite length_app, encode_ip_length. lia. }
  apply wp_bind, wp_ip_pk. eapply (wp_upd_ip p _ d pk2 v2); [exact B2|by apply iphdr_htons_ok|].
  intros v3 pk3 U3 B3 R3 T3 L3 P3. specialize (L3 (like_cursor _ _ L2)).
  pose proof (ib_owns _ _ _ _ _ _ B3) as [[Hw3 Hd3] Hat3].
  apply wp_bind, wp_ip_pk. eapply (wp_seek d pk3 v3 Hw3 Hd3 (like_cursor _ _ L3)). unfold seek_code.
  rewrite P3, Ep2, P1, T3, (like_total _ _ L2), T1, Ht.
  destruct (Z.eqb_spec (20 + c) 0); [lia|]. destruct (Z.leb_spec (20 + c) 0); [lia|].
  cbn [Z.ltb Z.compare orb Z.eqb NET_OK]. intros v4 pk4 U4 L4 E4 P4.
  assert (ip_buf pk4 d v4 p (iphdr_htons h) (slice (content s) (pos s) c)) as B4.
  { destruct B3 as [_ Ec3 Hok3]. split; [eapply owns_updated; [exact U4|]|by rewrite E4|done].
    eapply header_windows; [exact Hat3|by apply like_windows]. }
  apply wp_bind. eapply (wp_finish_header d v4 p h); [reflexivity|exact B4|done..|apply L4|done| |].
  { rewrite (like_total _ _ L4), T3, (like_total _ _ L2), T1. lia. }
  intros v5 pk5 U5 Hv5 R5. pose proof (updated_trans _ _ _ _ _ _ (updated_trans _ _ _ _ _ _ U3 U4) U5) as U.
  pose proof U as (Hw5 & Eb5 & _ & Em5).
  pose proof (ib_owns _ _ _ _ _ _ B4) as [[Hw4 Hd4] _].
  pose proof (updated_mem _ _ _ _ _ Hw Hd U1). pose proof (updated_mem _ _ _ _ _ Hw2 Hd2 U) as M5.
  assert (total_size v5 = 20 + c) as T5.
  { destruct Hv5 as (ck & Ev & _). destruct U5 as (_ & Eb5' & _).
    rewrite (buf_total (brk pk5) v5), Ev, length_app; [|by apply (wf_bufs _ Hw5 d); rewrite Eb5; rewrite lookup_insert_eq].
    change (length (wire_iphdr h ck)) with 20%nat. lia. }
  eapply (HQ v5 s' pk5); try done.
  - rewrite Eb5, Eb2, Eb1.
    rewrite insert_insert_eq. rewrite (insert_insert_ne _ b d) by done. by rewrite insert_insert_eq.
  - rewrite (like_total _ _ L2) in M5. rewrite Eh2 in M5. lia.
  - by rewrite Em5, Eh2, Em1.
Qed.

(** Freeing a packet leaves the others. *)
Lemma wp_free_other d vd pk (Q : unit → pworld → Prop) :
  wf pk → bufs pk !! d = Some vd →
  (∀ pk', wf pk' → (∀ b', b' ≠ d → bufs pk' !! b' = bufs pk !! b') → Q tt pk') →
  wp (pktbuf_free d) pk Q.
Proof.
  intros Hw Hd HQ. eapply wp_free; [exact Hw|exact Hd|..].
  - intros _ pk' Hw' Eb _ _. apply HQ; [done|]. intros b' Hne. rewrite Eb. by rewrite lookup_delete_ne.
  - intros _ pk' (Hw' & Eb & _). apply HQ; [done|]. intros b' Hne. rewrite Eb. by rewrite lookup_insert_ne.
Qed.

(** One round: the next [frag_cut] bytes leave behind a header, the cursor moves. *)
Lemma wp_send_frag s w total off (Q : Z * Z + Z → ipw E → Prop) :
  can_frag w → ready (i_pk w) b s → 0 < b → pos s = off → 0 < total → total_size s = off + total →
  total_size s < 2 ^ 16 - 20 →
  let c := frag_cut (if_mtu v) total in
  20 ≤ first_size (20 + c) →
  mem_size (phead (i_pk w)) + (20 + c) + slack ≤ max_mem_size (phead (i_pk w)) →
  (∀ s' w' bs, valid_datagram (frag_hdr (i_packet_id w) off c (c <? total)) (slice (content s) off c) bs →
     handed w s (20 + c) (off + c) bs s' w' → Q (inl (total - c, off + c)) w') →
  (∀ w' bs r, valid_datagram (frag_hdr (i_packet_id w) off c (c <? total)) (slice (content s) off c) bs →
     refused w bs r w' → Q (inr r) w') →
  wp (send_frag protocol dest src b next n total off) w Q.
Proof.
  intros Hf (Hw & Hb & Hcb) Hb0 Hpos Ht Hts H16 c Hfirst Hmem HQ HQr. pose proof Hf as [[Hn Hl _ _ _ _ _] Hm].
  pose proof (cursor_pos s (buf_chain _ _ (wf_bufs _ Hw _ _ Hb)) Hcb) as Hps.
  destruct (frag_cut_ok (if_mtu v) total Hm) as (Hc & _ & _); [lia|]. fold c in Hc.
  pose proof (link_slack (LinkLayer := LT)) as Hslack.
  assert (b < brk (i_pk w)) as Hbb by (apply (wf_old _ Hw), (wf_dom _ Hw); eauto).
  unfold send_frag. apply wp_bind. eapply wp_get_netif; [exact Hn|]. cbv zeta. fold c.
  change SIZEOF_IPV4_HDR with 20. rewrite (wrap_small 64 (c + 20)), (Z.add_comm c) by lia.
  apply wp_bind, wp_ip_pk. apply wp_new_dgram; [done|lia|lia|].
  intros vd k r pk1 Hw1 Hno Eb1 Ebl Ek Ed El1 R1 C1 P1 M1 X1. set (d := brk (i_pk w)) in *.
  assert (bufs pk1 !! d = Some vd) as Hd by (rewrite Eb1; by rewrite lookup_insert_eq).
  assert (bufs pk1 !! b = Some s) as Hb1 by (rewrite Eb1; by rewrite lookup_insert_ne by lia).
  assert (total_size vd = 20 + c) as Ht1 by (by rewrite (buf_total _ _ (wf_bufs _ Hw1 _ _ Hd))).
  apply wp_bind. rewrite wp_assert. split; [by destruct (Z.eqb_spec d 0); [lia|]|].
  set (w1 := set_i_pk_env (pk1, i_env w) w).
  eapply (wp_frag_hdr d vd c off (c <? total) w1); [by destruct Hf as [[]]|by split|done..|lia|lia| |].
  { exists (mk_ptr d (blk_id k) (blk_data k)). split; [done|]. exists k, r. split_and!; try done.
    unfold SIZEOF_IPV4_HDR. lia. }
  intros p v2 pk2 U2 B2 L2 P2. pose proof U2 as (Hw2 & Eb2 & _ & X2).
  assert (bufs pk2 !! b = Some s) as Hb2 by (rewrite Eb2; by rewrite lookup_insert_ne by lia).
  eapply (wp_frag_data d v2 p (frag_hdr (i_packet_id w) off c (c <? total)) _ s c);
    [lia|exact B2|rewrite length_drop; lia|apply L2|done|apply B2|done..|by split|lia|lia|].
  intros v3 s' pk3 Hw3 Eb3 M3 X3 Ls Es Eps Hv.
  pose proof (updated_mem _ _ _ _ _ Hw1 Hd U2) as M2. rewrite (like_total _ _ L2) in M2.
  cbn [i_pk set_i_pk_env fst w1 with_pk] in M2, M3, X2, X3, Eb3.
  apply wp_bind. eapply (wp_netif_out d v3); [exact Hn|done| |cbn; lia|].
  { split; [exact Hw3|]. cbn. rewrite Eb3. by rewrite lookup_insert_eq. }
  cbn [i_pk set_i_pk_env fst with_pk]. intros r4 pk4 e4 Hw4 Eb4 M4 X4 S4 O4.
  rewrite Hpos in Hv, Eps.
  assert (bufs pk3 !! b = Some s') as Hb3 by (rewrite Eb3; by rewrite lookup_insert_ne, lookup_insert_eq by lia).
  assert (bufs pk4 !! b = Some s') as Hb4.
  { rewrite <- Hb3. apply Eb4; [lia|]. apply (wf_old _ Hw3), (wf_dom _ Hw3). eauto. }
  destruct (Z.ltb_spec r4 0) as [Hneg|Hok].
  - rewrite (proj2 (Z.ltb_lt _ _)) by done. destruct (O4 Hneg) as [v4 Hd4].
    apply wp_bind, wp_ip_pk. eapply wp_free_other; [exact Hw4|exact Hd4|]. intros pk5 Hw5 Eb5.
    rewrite wp_ret. apply (HQr _ (content v3)); [exact Hv|].
    split; cbn; [done|done|rewrite Eb5 by lia; by eexists|exact S4|done].
  - cbn [Z.ltb Z.compare NET_OK]. rewrite wp_ret, !(wrap_small 64) by lia.
    eapply (HQ s' _ (content v3)); [exact Hv|]. split; cbn; try done; try lia; [|by exists r4].
    split_and!; [done|done|apply Ls].
Qed.

(** ** All the fragments *)

(** The packets [l] carry the first [off] bytes of [data]: each a datagram of its part, that
    fits the MTU, at an offset of eight bytes, marked unless it is the last. *)
Inductive fragments (id : Z) (data : bytes) : Z → list bytes → Prop :=
  | fragments_none : fragments id data 0 []
  | fragments_next off len bs l :
      fragments id data off l → 0 < len → 20 + len ≤ if_mtu v → off mod 8 = 0 → off + len ≤ zlen data →
      valid_datagram (frag_hdr id off len (off + len <? zlen data)) (slice data off len) bs →
      fragments id data (off + len) (l ++ [bs]).

(** A packet on its way to the next hop, with the link layer's result. *)
Definition hand (x : bytes * Z) : attempt := (n, next, x.1, x.2).
Definition accepted (x : bytes * Z) : Prop := 0 ≤ x.2.

(** The data of a fragment that is not the last. *)
Definition full_cut : Z := (if_mtu v - 20) / 8 * 8.

(** The headers fit the first blocks, and the packets the memory. *)
Record room_for_frags (pk : pworld) (size : Z) : Prop := {
  rf_first k : 0 ≤ k → 0 < size - k * full_cut →
    20 ≤ first_size (20 + frag_cut (if_mtu v) (size - k * full_cut));
  rf_size : 0 < size < 2 ^ 16 - 20;
  rf_mem : mem_size (phead pk) + size + (size / full_cut + 1) * (20 + slack) ≤ max_mem_size (phead pk)
}.

Lemma frag_cut_full total :
  28 ≤ if_mtu v < 2 ^ 32 → 0 < total < 2 ^ 32 →
  frag_cut (if_mtu v) total < total → frag_cut (if_mtu v) total = full_cut.
Proof.
  intros Hm Ht. unfold frag_cut, SIZEOF_IPV4_HDR, full_cut. rewrite (wrap_small 64 (_ - 20)) by lia.
  cbv zeta. destruct (Z.ltb_spec (if_mtu v - 20) total).
  - rewrite (proj2 (Z.ltb_lt _ _)) by lia. intros _. apply land_not7. lia.
  - rewrite Z.ltb_irrefl. lia.
Qed.

Lemma full_cut_ok : 28 ≤ if_mtu v → 8 ≤ full_cut ∧ full_cut mod 8 = 0.
Proof.
  intros Hm. unfold full_cut. split; [|apply Z_mod_mult].
  pose proof (Z.div_le_lower_bound (if_mtu v - 20) 8 1). lia.
Qed.

(** Where the loop is after [k] rounds with bytes left. *)
Record sending w s (total off : Z) (w' : ipw E) : Prop := {
  sg_rest : w' = set_i_pk_env (i_pk w', i_env w') w;
  sg_max : max_mem_size (phead (i_pk w')) = max_mem_size (phead (i_pk w));
  sg_left : 0 ≤ total ∧ 0 ≤ off ∧ off + total = total_size s;
  sg_buf : ∃ s', ready (i_pk w') b s' ∧ content s' = content s ∧ pos s' = off ∧ like s s';
  sg_round : 0 < total → ∃ k, 0 ≤ k ∧ off = k * full_cut ∧
    mem_size (phead (i_pk w')) ≤ mem_size (phead (i_pk w)) + off + k * (20 + slack);
  sg_sent : ∃ l, tried (i_env w') = tried (i_env w) ++ map hand l ∧ Forall accepted l ∧
    fragments (i_packet_id w) (content s) off l.*1
}.

(** Where it is when the link layer refused a packet with [r]: the last of those tried. *)
Record stopped w s (r : Z) (w' : ipw E) : Prop := {
  st_rest : w' = set_i_pk_env (i_pk w', i_env w') w;
  st_wf : wf (i_pk w');
  st_own : is_Some (bufs (i_pk w') !! b);
  st_neg : r < 0;
  st_sent : ∃ l bs off, tried (i_env w') = tried (i_env w) ++ map hand (l ++ [(bs, r)]) ∧ Forall accepted l ∧
    fragments (i_packet_id w) (content s) off (l ++ [(bs, r)]).*1
}.

(** The next packet of those after [off] bytes. *)
Lemma next_fragment w s total off w1 s1 l bs :
  let c := frag_cut (if_mtu v) total in
  can_frag w → live (i_pk w) b s → 0 < total < 2 ^ 32 → sending w s total off w1 → content s1 = content s →
  fragments (i_packet_id w) (content s) off l →
  valid_datagram (frag_hdr (i_packet_id w1) off c (c <? total)) (slice (content s1) off c) bs →
  fragments (i_packet_id w) (content s) (off + c) (l ++ [bs]).
Proof.
  intros c Hf Hl Ht [Hr _ Hleft _ Hk _] Es Hfr Hv.
  pose proof (cf_mtu _ Hf) as Hm. destruct (frag_cut_ok (if_mtu v) total) as (Hc & Hcm & _); [done|done|].
  fold c in Hc, Hcm. destruct (full_cut_ok ltac:(lia)) as [Hfc Hfc8].
  destruct Hl as [Hw Hb]. pose proof (buf_total _ _ (wf_bufs _ Hw _ _ Hb)) as Hts.
  destruct (Hk ltac:(lia)) as (k & Hk0 & Hoff & _).
  apply fragments_next; try done; try lia.
  - unfold SIZEOF_IPV4_HDR in Hcm. lia.
  - rewrite Hoff, Z.mul_mod, Hfc8, Z.mul_0_r by lia. done.
  - rewrite Es, Hr in Hv. cbn in Hv.
    replace (off + c <? zlen (content s)) with (c <? total); [done|].
    destruct (Z.ltb_spec c total), (Z.ltb_spec (off + c) (zlen (content s))); try done; lia.
Qed.

(** A round goes on. *)
Lemma sending_step w s total off w1 s1 w2 s2 bs :
  let c := frag_cut (if_mtu v) total in
  can_frag w → live (i_pk w) b s → 0 < total < 2 ^ 32 → sending w s total off w1 →
  like s s1 → content s1 = content s →
  valid_datagram (frag_hdr (i_packet_id w1) off c (c <? total)) (slice (content s1) off c) bs →
  handed w1 s1 (20 + c) (off + c) bs s2 w2 → sending w s (total - c) (off + c) w2.
Proof.
  intros c Hf Hl Ht Hs Hls Es Hv Hh. pose proof Hs as [Hr Hx Hleft _ Hk (l & Hse & Hacc & Hfr)].
  pose proof (next_fragment w s total off w1 s1 _ bs Hf Hl Ht Hs Es Hfr Hv) as Hnext. fold c in Hnext.
  pose proof (cf_mtu _ Hf) as Hm. destruct (frag_cut_ok (if_mtu v) total) as (Hc & Hcm & Hc8); [done|done|].
  fold c in Hc, Hcm, Hc8. destruct (full_cut_ok ltac:(lia)) as [Hfc Hfc8]. destruct Hh as [Hr2 Hb2 Ec2 P2 L2 M2 X2 (r & Hr0 & S2)].
  destruct Hl as [Hw Hb]. pose proof (buf_total _ _ (wf_bufs _ Hw _ _ Hb)) as Hts.
  destruct (Hk ltac:(lia)) as (k & Hk0 & Hoff & Hmem). split; try lia.
  - rewrite Hr2 at 1. rewrite Hr. done.
  - exists s2. split_and!; [done|congruence|done|by eapply like_trans].
  - intros Hlt. exists (k + 1). pose proof (frag_cut_full total Hm Ht) as Hfull. fold c in Hfull.
    specialize (Hfull ltac:(lia)). split_and!; lia.
  - exists (l ++ [(bs, r)]). rewrite map_app, app_assoc, <- Hse, fmap_app. split_and!; [exact S2| |exact Hnext].
    apply Forall_app. split; [done|]. by repeat constructor.
Qed.

(** A round that was refused is the last. *)
Lemma sending_stop w s total off w1 s1 w2 bs r :
  let c := frag_cut (if_mtu v) total in
  can_frag w → live (i_pk w) b s → 0 < total < 2 ^ 32 → sending w s total off w1 → content s1 = content s →
  valid_datagram (frag_hdr (i_packet_id w1) off c (c <? total)) (slice (content s1) off c) bs →
  refused w1 bs r w2 → stopped w s r w2.
Proof.
  intros c Hf Hl Ht Hs Es Hv [Hr2 Hw2 Hb2 S2 Hneg]. pose proof Hs as [Hr _ _ _ _ (l & Hse & Hacc & Hfr)].
  pose proof (next_fragment w s total off w1 s1 _ bs Hf Hl Ht Hs Es Hfr Hv) as Hnext.
  split; [|done..|].
  - rewrite Hr2 at 1. by rewrite Hr.
  - exists l, bs, (off + c). rewrite map_app, app_assoc, <- Hse, fmap_app. by split_and!.
Qed.

Lemma sending_start s w :
  ready (i_pk w) b s → pos s = 0 → 0 ≤ total_size s → sending w s (total_size s) 0 w.
Proof.
  intros Hr Hp H0. pose proof (link_slack (LinkLayer := LT)). split; try done.
  - by destruct w.
  - exists s. split_and!; try done. destruct Hr as (Hw & Hb & Hc).
    apply like_refl; [apply (buf_chain _ _ (wf_bufs _ Hw _ _ Hb))|done].
  - exists 0. lia.
  - exists []. rewrite app_nil_r. split_and!; [done..|constructor].
Qed.

(** The loop sends everything. *)
Lemma wp_frag_loop s w fuel (Q : option Z → ipw E → Prop) :
  can_frag w → ready (i_pk w) b s → 0 < b → pos s = 0 → room_for_frags (i_pk w) (total_size s) →
  (Z.to_nat (total_size s) < fuel)%nat →
  (∀ w', sending w s 0 (total_size s) w' → Q None w') →
  (∀ r w', stopped w s r w' → Q (Some r) w') →
  wp (loop fuel (λ '(total, offset),
    if total =? 0 then mret (inr None) else
    r ← send_frag protocol dest src b next n total offset;
    match r with inl l => mret (inl l) | inr ret => mret (inr (Some ret)) end)
    (total_size s, 0)) w Q.
Proof.
  intros Hf Hr Hb0 Hpos [Hfirst [Hsz0 Hsz] Hmem] Hfuel HQ HQr.
  apply (wp_loop _ (λ '(total, off) w', sending w s total off w') (λ '(total, _) _, Z.to_nat total));
    [|apply sending_start; try done; lia|done].
  intros [total off] w' Hs. destruct (Z.eqb_spec total 0) as [->|Hnz].
  { rewrite wp_ret. pose proof (sg_left _ _ _ _ _ Hs) as (_ & _ & Eo). apply HQ.
    replace (total_size s) with off by lia. done. }
  pose proof Hs as [Er X (H0 & H1 & Eo) (s' & Hs' & Ec' & Ep' & Hl') Hk _].
  destruct (Hk ltac:(lia)) as (k & Hk0 & Hoff & Hme). pose proof (cf_mtu _ Hf) as Hm.
  destruct (full_cut_ok ltac:(lia)) as [Hfc _]. pose proof (like_total _ _ Hl') as Ht'.
  destruct (frag_cut_ok (if_mtu v) total) as (Hc & _); [done|lia|].
  pose proof (link_slack (LinkLayer := LT)) as Hslack.
  assert (k ≤ total_size s / full_cut) as Hkq by (apply Z.div_le_lower_bound; lia).
  apply wp_bind. eapply (wp_send_frag s').
  - rewrite Er. by destruct Hf as [[]].
  - done.
  - done.
  - done.
  - lia.
  - lia.
  - lia.
  - replace total with (total_size s - k * full_cut) by lia. apply Hfirst; lia.
  - rewrite X. etransitivity; [|exact Hmem].
    assert (k * (20 + slack) ≤ total_size s / full_cut * (20 + slack)) by (apply Z.mul_le_mono_nonneg_r; lia).
    lia.
  - intros s2 w2 bs Hv Hh. rewrite wp_ret. split; [|lia].
    destruct Hr as (Hw & Hb & _). by eapply (sending_step w s total off w' s' w2 s2 bs); try done; lia.
  - intros w2 bs r Hv Hh. rewrite wp_ret. apply HQr.
    destruct Hr as (Hw & Hb & _). by eapply (sending_stop w s total off w' s' w2 bs); try done; lia.
Qed.

(** What is left of packet [b] once it is given back. *)
Definition given_back (r : Z) (pk : pworld) : Prop :=
  wf pk ∧ match bufs pk !! b with Some s => ref s = r - 1 | None => r = 1 end.

Lemma wp_give_back pk s (Q : unit → pworld → Prop) :
  live pk b s → (∀ pk', given_back (ref s) pk' → Q tt pk') → wp (pktbuf_free b) pk Q.
Proof.
  intros [Hw Hb] HQ. eapply wp_free; [exact Hw|exact Hb|..].
  - intros Hr pk' Hw' Eb _ _. apply HQ. split; [done|]. rewrite Eb. by rewrite lookup_delete_eq.
  - intros Hr pk' (Hw' & Eb & _). apply HQ. split; [done|]. rewrite Eb. by rewrite lookup_insert_eq.
Qed.

Lemma wp_ip_frag_out s w (Q : Z → ipw E → Prop) :
  can_frag w → live (i_pk w) b s → 0 < b → room_for_frags (i_pk w) (total_size s) →
  (∀ pk e l, tried e = tried (i_env w) ++ map hand l → Forall accepted l →
     fragments (i_packet_id w) (content s) (total_size s) l.*1 → given_back (ref s) pk →
     Q NET_OK (set_i_packet_id (u16 (i_packet_id w + 1)) (set_i_pk_env (pk, e) w))) →
  (∀ r w', stopped w s r w' → Q r w') →
  wp (ip_frag_out protocol dest src b next n) w Q.
Proof.
  intros Hf [Hw Hb] Hb0 Hroom HQ HQr. unfold ip_frag_out.
  destruct (cursor_reset s (buf_chain _ _ (wf_bufs _ Hw _ _ Hb))) as (Hc & Hp & Ec).
  destruct (cursor_start_blks s) as (_ & Et & Er & _).
  apply wp_bind, wp_ip_pk. eapply wp_reset_acc; [exact Hw|exact Hb|]. intros pk1 U1.
  pose proof U1 as (Hw1 & Eb1 & _ & X1). pose proof (updated_mem _ _ _ _ _ Hw Hb U1) as M1.
  assert (bufs pk1 !! b = Some (cursor_start s)) as Hb1 by (rewrite Eb1; by rewrite lookup_insert_eq).
  apply wp_bind, wp_ip_pk. eapply wp_get_buf; [exact Hb1|]. apply wp_bind.
  set (w1 := set_i_pk_env _ _). eapply (wp_frag_loop (cursor_start s) w1); try done.
  - by destruct Hf as [[]].
  - rewrite Et. destruct Hroom as [? ? Hmem]. split; try done. cbn. lia.
  - lia.
  - intros w2 [Er2 _ _ (s2 & (Hw2 & Hb2 & _) & _ & _ & L2) _ (l & Es & Hacc & Hfr)].
    apply wp_bind, wp_gets, wp_bind, wp_modify, wp_bind, wp_ip_pk.
    eapply wp_give_back; [split; [exact Hw2|exact Hb2]|]. intros pk3 Hg. rewrite wp_ret.
    rewrite (like_ref _ _ L2), Er in Hg. rewrite Et, Ec in Hfr.
    specialize (HQ pk3 (i_env w2) l Es Hacc Hfr Hg). rewrite Er2. exact HQ.
  - intros r w2 [Er2 Hw2 Hb2 Hneg (l & bs & off & Es & Hacc & Hfr)]. rewrite wp_ret. rewrite Ec in Hfr.
    apply HQr. split; [exact Er2|done..|]. by exists l, bs, off.
Qed.

(** ** A datagram sent whole *)

Definition whole_hdr w (s : Pktbuf) : Ipv4_hdr :=
  new_hdr (20 + total_size s) (i_packet_id w) 0 false protocol (source_ip v src) dest.

Lemma wp_send_whole s w (Q : Z → ipw E → Prop) :
  can_send w → live (i_pk w) b s → 0 < total_size s < 2 ^ 16 - 20 →
  mem_size (phead (i_pk w)) + 20 + slack ≤ max_mem_size (phead (i_pk w)) →
  (∀ pk e bs r, tried e = tried (i_env w) ++ [(n, next, bs, r)] →
     valid_datagram (whole_hdr w s) (content s) bs → wf pk → (r < 0 → is_Some (bufs pk !! b)) →
     Q (if r <? 0 then r else NET_OK) (set_i_packet_id (u16 (i_packet_id w + 1)) (set_i_pk_env (pk, e) w))) →
  wp (ret ← on_pk (pktbuf_add_header b SIZEOF_IPV4_HDR true);
      if ret <? 0 then mret (- E_NET_SIZE) else
      pkt ← pkt_ptr b;
      pb ← on_pk (get_buf b);
      id ← gets i_packet_id;
      modify (set_i_packet_id (u16 (id + 1)));;
      on_pk (ip_upd pkt (fill_ip_header (total_size pb) id protocol dest src v));;
      on_pk (ip_upd pkt iphdr_htons);;
      on_pk (pktbuf_reset_acc b);;
      finish_header b pkt;;
      ret ← netif_out n next b;
      mret (if ret <? 0 then ret else NET_OK)) w Q.
Proof.
  intros [Hn Hl Hip Hsrc Hdest Hpr Hid] [Hw Hb] Hsz Hmem HQ.
  pose proof (link_slack (LinkLayer := LT)) as Hslack.
  pose proof (buf_total _ _ (wf_bufs _ Hw _ _ Hb)) as Ht. change SIZEOF_IPV4_HDR with 20.
  apply wp_bind, wp_ip_pk. eapply (wp_add_header b 20 true _ s); [done|done| |lia|lia|done|done|].
  { intros E0. rewrite E0 in Ht. cbn in Ht. lia. }
  intros v1 pk1 hdr U1 Hlh Ec1 Hk R1. destruct Hk as (k & l & El & Hk); [done|lia|].
  pose proof U1 as (Hw1 & Eb1 & _ & X1).
  assert (owns_ip pk1 b v1 (mk_ptr b (blk_id k) (blk_data k))) as Ho.
  { eapply owns_updated; [exact U1|]. split; [done|]. exists k, l. by split_and!. }
  set (p := mk_ptr _ _ _) in *. pose proof Ho as [[_ Hb1] _].
  assert (total_size v1 = 20 + total_size s) as Ht1.
  { rewrite (buf_total _ _ (wf_bufs _ Hw1 _ _ Hb1)), Ec1, length_app. lia. }
  pose proof (updated_mem _ _ _ _ _ Hw Hb U1) as M1. cbn [Z.ltb Z.compare NET_OK].
  apply wp_bind, wp_ip_pk. eapply wp_hdr_ptr; [exact Ho|].
  apply wp_bind, wp_ip_pk. eapply wp_get_buf; [exact Hb1|]. apply wp_bind, wp_gets.
  apply wp_bind, wp_modify. pose proof (source_range v src Hip Hsrc) as Hsr.
  assert (iphdr_ok (whole_hdr w s)) as Hok by (apply new_hdr_ok; [lia|done|lia|done..]).
  apply wp_bind, wp_ip_pk. eapply (wp_ip_upd p _ b pk1 v1); [exact Ho|].
  intros v2 pk2 U2 Hat2 R2 T2 E2 _ _.
  rewrite fill_eq, Ht1, (wrap_small 16), Ec1, drop_app_length' in E2 by lia.
  assert (ip_buf pk2 b v2 p (whole_hdr w s) (content s)) as B2
    by (split; [by eapply owns_updated|exact E2|done]).
  apply wp_bind, wp_ip_pk. eapply (wp_upd_ip p _ b pk2 v2); [exact B2|by apply iphdr_htons_ok|].
  intros v3 pk3 U3 [[[Hw3 Hb3] Hat3] Ec3 _] R3 T3 _ _.
  apply wp_bind, wp_ip_pk. eapply wp_reset_acc; [exact Hw3|exact Hb3|]. intros pk4 U4.
  destruct (cursor_reset v3 (buf_chain _ _ (wf_bufs _ Hw3 _ _ Hb3))) as (C4 & P4 & Ec4).
  destruct (cursor_start_blks v3) as (Ebl4 & T4 & R4 & _).
  assert (ip_buf pk4 b (cursor_start v3) p (iphdr_htons (whole_hdr w s)) (content s)) as B4.
  { split; [eapply owns_updated; [exact U4|]|by rewrite Ec4|by apply iphdr_htons_ok].
    eapply header_windows; [exact Hat3|by rewrite Ebl4]. }
  apply wp_bind. eapply wp_finish_header; [reflexivity|exact B4|done..|lia|].
  intros v5 pk5 U5 Hv5 R5.
  pose proof (updated_trans _ _ _ _ _ _ U2 (updated_trans _ _ _ _ _ _ U3
    (updated_trans _ _ _ _ _ _ U4 U5))) as U. pose proof U as (Hw5 & Eb5 & _ & X5).
  pose proof (updated_mem _ _ _ _ _ Hw1 Hb1 U) as M5.
  assert (bufs pk5 !! b = Some v5) as Hb5 by (rewrite Eb5; by rewrite lookup_insert_eq).
  assert (total_size v5 = 20 + total_size s) as T5.
  { destruct Hv5 as (ck & Ev & _). rewrite (buf_total _ _ (wf_bufs _ Hw5 _ _ Hb5)), Ev, length_app.
    change (length (wire_iphdr (whole_hdr w s) ck)) with 20%nat. lia. }
  apply wp_bind. eapply (wp_netif_out b v5); [exact Hn|done|by split|cbn; lia|].
  intros r6 pk6 e6 Hw6 _ _ _ S6 O6. rewrite wp_ret.
  replace (if (if r6 <? 0 then r6 else NET_OK) <? 0 then _ else NET_OK) with (if r6 <? 0 then r6 else NET_OK)
    by (by destruct (r6 <? 0) eqn:E6; rewrite ?E6).
  exact (HQ pk6 e6 _ r6 S6 Hv5 Hw6 O6).
Qed.

Lemma drop_wire h c data : drop 20 (wire_iphdr h c ++ data) = data.
Proof. done. Qed.

Lemma fragments_concat id data off l :
  fragments id data off l →
  0 ≤ off ≤ zlen data ∧ concat (map (drop 20) l) = take (Z.to_nat off) data.
Proof.
  induction 1 as [|off len bs l _ [IH0 IH] Hl Hm H8 Hle (c & -> & _)]; [split; [lia|done]|].
  split; [lia|]. rewrite map_app, concat_app, IH. cbn [map concat]. rewrite drop_wire, app_nil_r.
  unfold slice. rewrite Z2Nat.inj_add by lia. by rewrite take_take_drop.
Qed.
End fragment.

Lemma best_route_unique w ip rs r r' : best_route w ip rs r → best_route w ip rs r' → r = r'.
Proof.
  intros (l1 & l2 & -> & H1 & Hlt1 & Hle1) (m1 & m2 & E2 & H2 & Hlt2 & Hle2).
  apply app_eq_app in E2 as ([|x k] & [[-> Eq]|[-> Eq]]); injection Eq as -> ->; try done.
  - pose proof (Hlt1 x ltac:(set_solver) H2). pose proof (Hle2 r ltac:(set_solver) H1). lia.
  - pose proof (Hlt2 x ltac:(set_solver) H1). pose proof (Hle1 r' ltac:(set_solver) H2). lia.
Qed.

(** ** The properties *)

(** Does a packet with [s] behind a header fit the interface? An MTU of 0 is none. *)
Definition fits (v : Netif) (s : Pktbuf) : bool :=
  (if_mtu v =? 0) || (20 + total_size s <=? if_mtu v).

(** The next hop of a route to [dest]. *)
Definition next_hop_of (rt : Rentry) (dest : Ipaddr) : Ipaddr :=
  if ipaddr_is_any (re_next_hop rt) then dest else re_next_hop rt.

Section spec.
Context (tried : E → list attempt) (slack : Z) `{LT : !LinkLayer E tried slack}.

(** The packets [l] carry the first [off] bytes of the datagram. *)
Definition begun (v : Netif) (s : Pktbuf) (id protocol : Z) (dest : Ipaddr) (src : option Ipaddr)
    (off : Z) (l : list bytes) : Prop :=
  concat (map (drop 20) l) = take (Z.to_nat off) (content s) ∧
  if fits v s then off = total_size s ∧ ∃ bs, l = [bs] ∧
    valid_datagram (new_hdr (20 + total_size s) id 0 false protocol (source_ip v src) dest)
      (content s) bs
  else fragments protocol dest src v id (content s) off l.

Definition room_for (v : Netif) (s : Pktbuf) (pk : pworld) : Prop :=
  0 < total_size s < 2 ^ 16 - 20 ∧
  if fits v s then mem_size (phead pk) + 20 + slack ≤ max_mem_size (phead pk)
  else 28 ≤ if_mtu v < 2 ^ 32 ∧ room_for_frags slack v pk (total_size s).

(** The identification moves on, but for a fragment that was refused. *)
Definition next_id (v : Netif) (s : Pktbuf) (ret id : Z) : Z :=
  if fits v s || (ret =? NET_OK) then u16 (id + 1) else id.

(** What was handed over, and the result. *)
Definition outcome_of (v : Netif) (s : Pktbuf) (id protocol : Z) (dest : Ipaddr) (src : option Ipaddr)
    (b ret : Z) (pk : pworld) (l : list (bytes * Z)) : Prop :=
  (ret = NET_OK ∧ Forall accepted l ∧ begun v s id protocol dest src (total_size s) l.*1) ∨
  (ret < 0 ∧ is_Some (bufs pk !! b) ∧ ∃ l0 bs off, l = l0 ++ [(bs, ret)] ∧ Forall accepted l0 ∧
     begun v s id protocol dest src off l.*1).

(** C17: a datagram that has a route, whose interface has a link layer and, if it does not
    fit, an MTU of at least 28, that is not empty and shorter than 2^16 - 20, with memory
    for its packets, the header of each in the packet's first block, goes by the best route
    to its next hop: whole if it fits the MTU, else as fragments, every packet with a
    valid header and the data of all of them the datagram's; the result is NET_OK and the
    identification moves on.  If the link layer refuses one of the packets, the result is
    the link layer's, the packets before it were the first part of the datagram, none
    follows, and the datagram stays the caller's *)
Theorem ipv4_out_spec protocol dest src b s rs r v w :
  let n := re_netif (route_at w r) in
  let next := next_hop_of (route_at w r) dest in
  routes_ok rs w → best_route w dest rs r → can_send protocol dest src n v w →
  live (i_pk w) b s → 0 < b → room_for v s (i_pk w) →
  ∃ ret pk e l, ipv4_out protocol dest src b w =
      Ok (ret, set_i_packet_id (next_id v s ret (i_packet_id w)) (set_i_pk_env (pk, e) w)) ∧
    wf pk ∧ tried e = tried (i_env w) ++ map (hand next n) l ∧
    outcome_of v s (i_packet_id w) protocol dest src b ret pk l.
Proof.
  intros n next Hok Hbest Hs Hlive Hb0 [Hsz Hroom].
  assert (wp (ipv4_out protocol dest src b) w (λ ret w', ∃ pk e l,
    w' = set_i_packet_id (next_id v s ret (i_packet_id w)) (set_i_pk_env (pk, e) w) ∧ wf pk ∧
    tried e = tried (i_env w) ++ map (hand next n) l ∧
    outcome_of v s (i_packet_id w) protocol dest src b ret pk l))
    as (ret & w' & Hr & pk & e & l & -> & H)%wp_run; [|by exists ret, pk, e, l].
  unfold ipv4_out. apply wp_bind. eapply wp_rt_find; [exact Hok|]. intros r' Hf.
  assert (r ∈ rs) as Hin by by eapply best_in.
  assert (r' = r ∧ r ≠ 0) as [-> Hr0].
  { destruct (ro_entries _ _ Hok r Hin) as [Hr0 _]. destruct Hf as [[_ Hn]|[_ Hb]].
    - destruct Hbest as (? & ? & ? & Hl & _). by rewrite Hn in Hl.
    - split; [by eapply best_route_unique|done]. }
  rewrite (proj2 (Z.eqb_neq _ _) Hr0). apply wp_bind.
  eapply (wp_of_run _ w); [by apply get_route_run, (ro_entries _ _ Hok)|]. fold n.
  fold (next_hop_of (route_at w r) dest) next.
  apply wp_bind. eapply wp_get_netif; [apply Hs|].
  apply wp_bind, wp_ip_pk. pose proof Hlive as [Hw Hb]. eapply wp_get_buf; [exact Hb|].
  replace (set_i_pk_env (i_pk w, i_env w) w) with w by by destruct w.
  change SIZEOF_IPV4_HDR with 20. rewrite (wrap_small 64) by lia.
  pose proof (buf_total _ _ (wf_bufs _ Hw _ _ Hb)) as Hts.
  unfold outcome_of, begun, next_id. unfold fits in *.
  replace (if_mtu v <? total_size s + 20) with (negb (20 + total_size s <=? if_mtu v))
    by (rewrite Z.ltb_antisym; do 2 f_equal; lia).
  rewrite <- negb_orb. destruct (_ || _); cbn [negb orb].
  - eapply (wp_send_whole tried slack protocol dest src b next n v s); [done..|].
    intros pk e bs r1 Hse Hv Hw' Hown. exists pk, e, [(bs, r1)]. split_and!; try done.
    assert (concat (map (drop 20) [bs]) = take (Z.to_nat (total_size s)) (content s)) as Hcat.
    { destruct Hv as (c & -> & _). cbn [map concat]. rewrite drop_wire, app_nil_r, take_ge; [done|lia]. }
    destruct (Z.ltb_spec r1 0) as [Hneg|Hacc]; [right|left].
    + split_and!; [done|by apply Hown|]. exists [], bs, (total_size s). split_and!; try done. by exists bs.
    + split_and!; try done; [by repeat constructor|]. by exists bs.
  - destruct Hroom as [Hm Hroom]. apply wp_bind.
    eapply (wp_ip_frag_out tried slack protocol dest src b next n v s); [by split|done|done|done|..].
    + intros pk e l Hse Hacc Hfr [Hw' _]. rewrite wp_ret. exists pk, e, l. split_and!; try done.
      left. destruct (fragments_concat _ _ _ _ _ _ _ _ Hfr) as [_ Hcat]. by split_and!.
    + intros r1 w1 [Er Hw1 Hown Hneg (l & bs & off & Hse & Hacc & Hfr)]. rewrite wp_ret.
      rewrite (proj2 (Z.ltb_lt _ _)) by done. exists (i_pk w1), (i_env w1), (l ++ [(bs, r1)]).
      assert ((r1 =? NET_OK) = false) as -> by (apply Z.eqb_neq; unfold NET_OK; lia).
      split; [rewrite Er at 1; by destruct w|]. split; [done|]. split; [done|]. right.
      split; [done|]. split; [done|].
      exists l, bs, off. split_and!; try done. by destruct (fragments_concat _ _ _ _ _ _ _ _ Hfr).
Qed.

(** A fragment that leaves less than a header's bytes for the packet's first
    block is written past that block: the first block of a new packet is the one
    that is not full, and nobody asks for a contiguous header *)
Theorem send_frag_overruns protocol dest src b next n v total off w :
  i_netifs w !! n = Some v → wf (i_pk w) → 0 < brk (i_pk w) → 0 < total < 2 ^ 32 →
  28 ≤ if_mtu v < 2 ^ 32 →
  let c := frag_cut (if_mtu v) total in
  first_size (20 + c) < 20 →
  mem_size (phead (i_pk w)) + (20 + c) ≤ max_mem_size (phead (i_pk w)) →
  send_frag protocol dest src b next n total off w = Undef.
Proof.
  intros Hn Hw Hb0 Ht Hm c Hfirst Hmem. destruct (frag_cut_ok _ _ Hm Ht) as (Hc & _). fold c in Hc.
  unfold send_frag. apply undef_after. eapply wp_get_netif; [exact Hn|]. fold c.
  change SIZEOF_IPV4_HDR with 20. rewrite (wrap_small 64 (c + 20)), (Z.add_comm c) by lia.
  apply undef_after, wp_ip_pk, wp_new_dgram; [done|lia|done|].
  intros vd k r pk1 Hw1 _ Eb1 El Ek Ed _ _ _ _ _ _. set (d := brk (i_pk w)) in *.
  assert (bufs pk1 !! d = Some vd) as Hd by (rewrite Eb1; by rewrite lookup_insert_eq).
  apply undef_after. rewrite wp_assert. split; [by destruct (Z.eqb_spec d 0); [lia|]|].
  apply undef_after, wp_ip_pk. unfold hdr_ptr, pktbuf_data.
  apply wp_bind, wp_bind. eapply wp_get_buf; [exact Hd|]. rewrite El, wp_ret. cbn [of_option]. rewrite wp_ret.
  apply undef_after, wp_ip_pk. eapply wp_get_buf; [exact Hd|]. apply undef_after, wp_gets.
  apply undef_here. cbn [i_pk i_env set_i_pk_env fst snd].
  unfold on_pk, zoom. cbn [i_pk set_i_pk_env fst].
  assert (chain_ok vd) as Hch by apply (buf_chain _ _ (wf_bufs _ Hw1 _ _ Hd)).
  pose proof (chain_blks _ Hch) as Hbl. rewrite El in Hbl. apply Forall_cons_1 in Hbl as [Hk _].
  assert (∀ f, ip_upd (mk_ptr d (blk_id k) (blk_data k)) f pk1 = Undef) as ->; [|done].
  intros f. unfold ip_upd, ip_load, mem_load. do 2 apply undef_here. cbn [p_buf p_blk p_off].
  apply undef_after. eapply wp_get_buf; [exact Hd|]. apply undef_after.
  rewrite (find_blk_at vd [] k r) by done. cbn [of_option]. rewrite wp_ret.
  unfold mem_read. destruct Hk as [_ _ Hlen _]. unfold PKTBUF_BLK_SIZE in *.
  rewrite (proj2 (Z.leb_gt (blk_data k + 0 + SIZEOF_IPV4_HDR) _)) by (unfold SIZEOF_IPV4_HDR; lia).
  by rewrite andb_false_r.
Qed.
End spec.
End out.

(** ** A concrete interface *)

(** The packets taken, all of them accepted. *)
Definition wire_tried (e : wire) : list attempt := map (λ x, (x, NET_OK)) (wi_sent e).

#[export] Instance wire_link : LinkLayer wire wire_tried 0.
Proof.
  split; [done|]. intros l n ip b v pk e Hl _. pose proof Hl as [Hw Hb].
  change (link_out l n ip b) with (wire_take n ip b). unfold wire_take, wp. rewrite Hb.
  assert (wp (pktbuf_free b) pk (λ _ pk', wf pk' ∧
    (∀ b', b' ≠ b → bufs pk' !! b' = bufs pk !! b') ∧
    mem_size (phead pk') ≤ mem_size (phead pk) ∧
    max_mem_size (phead pk') = max_mem_size (phead pk))) as Hf.
  { eapply wp_free; [exact Hw|exact Hb|..].
    - intros _ pk' Hw' Eb Em Ex. pose proof (buf_total_nonneg _ _ (wf_bufs _ Hw _ _ Hb)).
      split_and!; [done| |lia|done]. intros b' Hne. rewrite Eb. by rewrite lookup_delete_ne.
    - intros _ pk' U. pose proof (updated_mem _ _ _ _ _ Hw Hb U) as Em. cbn [total_size set_ref] in Em.
      destruct U as (Hw' & Eb & _ & Ex). split_and!; [done| |lia|done].
      intros b' Hne. rewrite Eb. by rewrite lookup_insert_ne. }
  unfold wp in Hf. destruct (pktbuf_free b pk) as [[u pk']| | | |]; try done.
  destruct Hf as (Hw' & Hbs & Hm & Hx). cbn. split_and!; [done|auto|lia|done| |done].
  unfold wire_tried. cbn. by rewrite map_app.
Qed.

(** A packet of 2600 bytes: two fragments on an Ethernet. *)
Definition large_pk : pworld := result_world (pktbuf_alloc 2600 demo_pk).

Definition with_routes (pk : pworld) : ipw wire := set_i_pk_env (pk, mk_wire 200 []) demo_routes.

Lemma alloc_live n : 0 ≤ n ≤ 10000 →
  live (result_world (pktbuf_alloc n demo_pk)) 100 (packet (result_world (pktbuf_alloc n demo_pk)) 100).
Proof.
  intros Hn. assert (wp (pktbuf_alloc n) demo_pk (λ _ w, live w 100 (packet w 100))) as H.
  { eapply wp_alloc; [apply demo_pk_wf|lia| |].
    - assert (mem_size (phead demo_pk) = 0) as -> by done.
      assert (10000 ≤ max_mem_size (phead demo_pk)) by by vm_compute. lia.
    - intros v w1 Hw1 _ Eb _ _ _ _ _ _ _. assert (bufs w1 !! brk demo_pk = Some v) as Hb
        by (rewrite Eb; by rewrite lookup_insert_eq).
      split; [done|]. unfold packet. change 100 with (brk demo_pk). by rewrite Hb. }
  unfold wp in H. destruct (pktbuf_alloc n demo_pk) as [[? ?]| | | |]; [exact H|destruct H..].
Qed.

Lemma large_room : room_for 0 demo_netif (packet large_pk 100) large_pk.
Proof.
  assert (total_size (packet large_pk 100) = 2600) as Ht by (vm_compute; reflexivity).
  assert (mem_size (phead large_pk) = 2600) as Em by (vm_compute; reflexivity).
  assert (10000 ≤ max_mem_size (phead large_pk)) as Ex by (by vm_compute).
  unfold room_for, fits. rewrite Ht. split; [lia|].
  change ((if_mtu demo_netif =? 0) || (20 + 2600 <=? if_mtu demo_netif)) with false. cbv iota.
  split; [cbn; lia|].
  split; [|lia|rewrite Em; change (2600 / full_cut demo_netif) with 1; lia].
  intros k Hk. change (full_cut demo_netif) with 1480. intros Hlt.
  assert (k = 0 ∨ k = 1) as [-> | ->] by lia; by vm_compute.
Qed.

Lemma demo_sendable pk : can_send 17 (q_addr [8; 8; 8; 8]) None 1 demo_netif (with_routes pk).
Proof. by split. Qed.

Lemma demo_best pk : best_route (with_routes pk) (q_addr [8; 8; 8; 8]) [102; 101; 100] 100.
Proof.
  exists [102; 101], []. split_and!; [done|by vm_compute| |set_solver].
  intros r Hr. assert (r = 102 ∨ r = 101) as [-> | ->] by set_solver; by vm_compute.
Qed.

Lemma ipv4_out_spec_witness :
  ∃ ret pk e l, ipv4_out 17 (q_addr [8; 8; 8; 8]) None 100 (with_routes large_pk) =
      Ok (ret, set_i_packet_id (next_id demo_netif (packet large_pk 100) ret 7)
        (set_i_pk_env (pk, e) (with_routes large_pk))) ∧
    wf pk ∧ wire_tried e = [] ++ map (hand gw_ip 1) l ∧
    outcome_of demo_netif (packet large_pk 100) 7 17 (q_addr [8; 8; 8; 8]) None 100 ret pk l.
Proof.
  apply (ipv4_out_spec wire_tried 0 17 (q_addr [8; 8; 8; 8]) None 100 (packet large_pk 100)
    [102; 101; 100] 100 demo_netif (with_routes large_pk)).
  - by destruct demo_routes_ok.
  - apply demo_best.
  - apply demo_sendable.
  - apply (alloc_live 2600). lia.
  - lia.
  - apply large_room.
Defined.

(** The last 500 bytes of a datagram. *)
Lemma send_frag_overruns_witness :
  send_frag 17 (q_addr [8; 8; 8; 8]) None 100 gw_ip 1 500 1480 (with_routes demo_pk) = Undef.
Proof.
  apply (send_frag_overruns 17 (q_addr [8; 8; 8; 8]) None 100 gw_ip 1 demo_netif 500 1480
    (with_routes demo_pk)); [done|apply demo_pk_wf|done|done|done|by vm_compute|by vm_compute].
Defined.
