(* ===== verification/Rbtree.v ===== *)
(** * Red-black trees: [util/rbtree.c], [util/rbtree.h]

    Nodes live in a store, as [Rb_node *] points to them; a node that was freed is
    not in it, so a later use is undefined.  The macros that take [_left] and
    [_right] take a direction here.  The comparison is the function the tree was
    created with: it reads the structures around the nodes, which no operation of
    the tree writes. *)
From S2P Require Import Prelude.

Record Rb_node := mk_rb { red : bool; rb_parent : Z; rb_left : Z; rb_right : Z }.

Definition set_red v (n : Rb_node) := mk_rb v (rb_parent n) (rb_left n) (rb_right n).
Definition set_parent v (n : Rb_node) := mk_rb (red n) v (rb_left n) (rb_right n).
Definition set_left v (n : Rb_node) := mk_rb (red n) (rb_parent n) v (rb_right n).
Definition set_right v (n : Rb_node) := mk_rb (red n) (rb_parent n) (rb_left n) v.

Record Rb_tree := mk_tree { rb_compare : Z → Z → Z; rb_nil : Z; rb_root : Z }.

(** The pair of fields a macro is expanded with. *)
Inductive dir := DL | DR.
#[export] Instance dir_eq_dec : EqDecision dir.
Proof. solve_decision. Defined.
Definition flip (d : dir) : dir := match d with DL => DR | DR => DL end.
Definition child (d : dir) (n : Rb_node) : Z := match d with DL => rb_left n | DR => rb_right n end.
Definition set_child (d : dir) (v : Z) (n : Rb_node) : Rb_node :=
  match d with DL => set_left v n | DR => set_right v n end.

(** ** The store *)

Abbreviation rbheap := (gmap Z Rb_node).

Definition rb_get (a : Z) : M rbheap Rb_node := o ← gets (lookup a); of_option o.
Definition rb_upd (a : Z) (f : Rb_node → Rb_node) : M rbheap unit :=
  n ← rb_get a; modify (<[a := f n]>).

(** ** Rotation: [FUNC_ROTATE] *)

(** [d] is [_left]. *)
Definition rb_rotate (d : dir) (t : Rb_tree) (x : Z) : M rbheap unit :=
  nx ← rb_get x;
  let y := child (flip d) nx in
  assert_ (negb (x =? rb_root t) && negb (x =? rb_nil t) && negb (y =? rb_nil t));;
  ny ← rb_get y;
  rb_upd x (set_child (flip d) (child d ny));;
  ny ← rb_get y;
  (if negb (child d ny =? rb_nil t) then rb_upd (child d ny) (set_parent x) else mret tt);;
  nx ← rb_get x;
  rb_upd y (set_parent (rb_parent nx));;
  nx ← rb_get x;
  np ← rb_get (rb_parent nx);
  (if x =? child d np then rb_upd (rb_parent nx) (set_child d y)
   else rb_upd (rb_parent nx) (set_child (flip d) y));;
  rb_upd y (set_child d x);;
  rb_upd x (set_parent y);;
  nn ← rb_get (rb_nil t);
  assert_ (negb (red nn)).

(** ** Insertion *)

(** Every round goes one level down. *)
Definition rb_insert_binary (t : Rb_tree) (z : Z) : M rbheap unit :=
  rb_upd z (λ n, set_left (rb_nil t) (set_right (rb_nil t) n));;
  nr ← rb_get (rb_root t);
  fuel ← gets size;
  y ← loop (S fuel) (λ '(x, y),
    if x =? rb_nil t then mret (inr y) else
    nx ← rb_get x;
    mret (inl (if 0 <? rb_compare t x z then rb_left nx else rb_right nx, x)))
    (rb_left nr, rb_root t);
  rb_upd z (set_parent y);;
  (if (y =? rb_root t) || (0 <? rb_compare t y z) then rb_upd y (set_left z)
   else rb_upd y (set_right z)).

(** [x->parent->parent]. *)
Definition grand (x : Z) : M rbheap Z := nx ← rb_get x; np ← rb_get (rb_parent nx); mret (rb_parent np).
Definition parent_of (x : Z) : M rbheap Z := nx ← rb_get x; mret (rb_parent nx).

(** [RB_INSERT_SUB(d, flip d)]: the node the loop goes on with. *)
Definition rb_insert_sub (d : dir) (t : Rb_tree) (x : Z) : M rbheap Z :=
  g ← grand x;
  ng ← rb_get g;
  let y := child (flip d) ng in
  ny ← rb_get y;
  if red ny then
    p ← parent_of x; rb_upd p (set_red false);;
    rb_upd y (set_red false);;
    g ← grand x; rb_upd g (set_red true);;
    grand x
  else
    p ← parent_of x;
    np ← rb_get p;
    x ← (if x =? child (flip d) np then rb_rotate d t p;; mret p else mret x);
    p ← parent_of x; rb_upd p (set_red false);;
    g ← grand x; rb_upd g (set_red true);;
    g ← grand x; rb_rotate (flip d) t g;;
    mret x.

Definition rb_insert (t : Rb_tree) (node : Z) : M rbheap unit :=
  rb_insert_binary t node;;
  rb_upd node (set_red true);;
  fuel ← gets size;
  loop (S fuel) (λ x,
    p ← parent_of x;
    np ← rb_get p;
    if negb (red np) then mret (inr tt) else
    ng ← rb_get (rb_parent np);
    x ← (if p =? rb_left ng then rb_insert_sub DL t x else rb_insert_sub DR t x);
    mret (inl x)) node;;
  nr ← rb_get (rb_root t);
  rb_upd (rb_left nr) (set_red false);;
  nn ← rb_get (rb_nil t);
  nr ← rb_get (rb_root t);
  assert_ (negb (red nn) && negb (red nr)).

(** ** Neighbours and search *)

(** [while (y->_left != nil) y = y->_left]. *)
Definition rb_extreme (d : dir) (t : Rb_tree) (y : Z) : M rbheap Z :=
  fuel ← gets size;
  loop (S fuel) (λ y,
    ny ← rb_get y;
    if child d ny =? rb_nil t then mret (inr y) else mret (inl (child d ny))) y.

Definition rb_tree_successor (t : Rb_tree) (x : Z) : M rbheap Z :=
  nx ← rb_get x;
  if negb (rb_right nx =? rb_nil t) then rb_extreme DL t (rb_right nx) else
  fuel ← gets size;
  y ← loop (S fuel) (λ '(x, y),
    ny ← rb_get y;
    if negb (x =? rb_right ny) then mret (inr y) else mret (inl (y, rb_parent ny)))
    (x, rb_parent nx);
  mret (if y =? rb_root t then rb_nil t else y).

Definition rb_tree_predecessor (t : Rb_tree) (x : Z) : M rbheap Z :=
  nx ← rb_get x;
  if negb (rb_left nx =? rb_nil t) then rb_extreme DR t (rb_left nx) else
  fuel ← gets size;
  loop (S fuel) (λ '(x, y),
    ny ← rb_get y;
    if negb (x =? rb_left ny) then mret (inr y)
    else if y =? rb_root t then mret (inr (rb_nil t))
    else mret (inl (y, rb_parent ny)))
    (x, rb_parent nx).

(** [compare] takes a node and the key looked for. *)
Definition rb_search (t : Rb_tree) (compare : Z → Z) : M rbheap (option Z) :=
  nr ← rb_get (rb_root t);
  fuel ← gets size;
  x ← loop (S fuel) (λ x,
    if x =? rb_nil t then mret (inr x) else
    let r := compare x in
    if r =? 0 then mret (inr x) else
    nx ← rb_get x;
    mret (inl (if 0 <? r then rb_left nx else rb_right nx))) (rb_left nr);
  mret (if x =? rb_nil t then None else Some x).

(** A null pointer for [nil]. *)
Definition or_null (t : Rb_tree) (x : Z) : option Z := if x =? rb_nil t then None else Some x.
Definition rb_node_prev (t : Rb_tree) (x : Z) : M rbheap (option Z) :=
  p ← rb_tree_predecessor t x; mret (or_null t p).
Definition rb_node_next (t : Rb_tree) (x : Z) : M rbheap (option Z) :=
  p ← rb_tree_successor t x; mret (or_null t p).
Definition rb_node_root (t : Rb_tree) : M rbheap (option Z) :=
  nr ← rb_get (rb_root t); mret (or_null t (rb_left nr)).
Definition rb_node_left (t : Rb_tree) (x : Z) : M rbheap (option Z) :=
  n ← rb_get x; mret (or_null t (rb_left n)).
Definition rb_node_right (t : Rb_tree) (x : Z) : M rbheap (option Z) :=
  n ← rb_get x; mret (or_null t (rb_right n)).
Definition rb_tree_empty (t : Rb_tree) : M rbheap bool :=
  nr ← rb_get (rb_root t); mret (rb_left nr =? rb_nil t).

(** ** Deletion *)

(** [RB_DELETE_FIXUP_SUB(d, flip d)]; [root] is the top node on entry. *)
Definition rb_delete_fixup_sub (d : dir) (t : Rb_tree) (root x : Z) : M rbheap Z :=
  p ← parent_of x;
  np ← rb_get p;
  let w := child (flip d) np in
  nw ← rb_get w;
  w ← (if red nw then
         rb_upd w (set_red false);;
         p ← parent_of x; rb_upd p (set_red true);;
         p ← parent_of x; rb_rotate d t p;;
         p ← parent_of x; np ← rb_get p; mret (child (flip d) np)
       else mret w);
  nw ← rb_get w;
  nl ← rb_get (child d nw);
  nr ← rb_get (child (flip d) nw);
  if negb (red nl) && negb (red nr) then
    rb_upd w (set_red true);;
    parent_of x
  else
    w ← (if negb (red nr) then
           rb_upd (child d nw) (set_red false);;
           rb_upd w (set_red true);;
           rb_rotate (flip d) t w;;
           p ← parent_of x; np ← rb_get p; mret (child (flip d) np)
         else mret w);
    p ← parent_of x;
    np ← rb_get p;
    rb_upd w (set_red (red np));;
    p ← parent_of x; rb_upd p (set_red false);;
    nw ← rb_get w;
    rb_upd (child (flip d) nw) (set_red false);;
    p ← parent_of x; rb_rotate d t p;;
    mret root.

Definition rb_delete_fixup (t : Rb_tree) (node : Z) : M rbheap unit :=
  nr ← rb_get (rb_root t);
  let root := rb_left nr in
  fuel ← gets size;
  x ← loop (S (S fuel)) (λ x,
    if x =? root then mret (inr x) else
    nx ← rb_get x;
    if red nx then mret (inr x) else
    np ← rb_get (rb_parent nx);
    x ← (if x =? rb_left np then rb_delete_fixup_sub DL t root x
         else rb_delete_fixup_sub DR t root x);
    mret (inl x)) node;
  rb_upd x (set_red false).

Definition rb_delete (t : Rb_tree) (z : Z) : M rbheap unit :=
  nz ← rb_get z;
  y ← (if (rb_left nz =? rb_nil t) || (rb_right nz =? rb_nil t) then mret z
       else rb_tree_successor t z);
  ny ← rb_get y;
  let x := if negb (rb_left ny =? rb_nil t) then rb_left ny else rb_right ny in
  assert_ (negb (y =? rb_root t) && negb (y =? rb_nil t));;
  rb_upd x (set_parent (rb_parent ny));;
  ny ← rb_get y;
  np ← rb_get (rb_parent ny);
  (if y =? rb_left np then rb_upd (rb_parent ny) (set_left x)
   else rb_upd (rb_parent ny) (set_right x));;
  let need_fixup := negb (red ny) in
  (if negb (y =? z) then
     nz ← rb_get z;
     np ← rb_get (rb_parent nz);
     (if z =? rb_left np then rb_upd (rb_parent nz) (set_left y)
      else rb_upd (rb_parent nz) (set_right y));;
     nz ← rb_get z;
     rb_upd (rb_right nz) (set_parent y);;
     rb_upd (rb_left nz) (set_parent y);;
     nz ← rb_get z;
     rb_upd y (λ _, nz)
   else mret tt);;
  (if need_fixup then rb_delete_fixup t x else mret tt).

(** ** Creation *)

(** The memory the allocator hands out: nodes, and the tree structures themselves. *)
Record rbmem := mk_rbmem { rm_nodes : rbheap; rm_trees : gmap Z Rb_tree }.
Definition set_rm_nodes v (w : rbmem) := mk_rbmem v (rm_trees w).
Definition set_rm_trees v (w : rbmem) := mk_rbmem (rm_nodes w) v.

(** [kmalloc] of a tree and of a node: the address of an object in memory, or 0. *)
Class RbKmalloc := { kmalloc_tree : M rbmem Z; rb_node_create : M rbmem Z }.

Section create.
Context `{RK : !RbKmalloc}.

Definition on_nodes {A} (m : M rbheap A) : M rbmem A := zoom rm_nodes set_rm_nodes m.
Definition get_tree (a : Z) : M rbmem Rb_tree := o ← gets (λ w, rm_trees w !! a); of_option o.
Definition kfree_node (a : Z) : M rbmem unit :=
  on_nodes (rb_get a);; modify (λ w, set_rm_nodes (delete a (rm_nodes w)) w).
Definition kfree_tree (a : Z) : M rbmem unit :=
  get_tree a;; modify (λ w, set_rm_trees (delete a (rm_trees w)) w).
Definition put_tree (a : Z) (f : Rb_tree → Rb_tree) : M rbmem unit :=
  t ← get_tree a; modify (λ w, set_rm_trees (<[a := f t]> (rm_trees w)) w).

(** Both clean-up labels free [nil]. *)
Definition rb_tree_create (compare : Z → Z → Z) : M rbmem Z :=
  tree ← kmalloc_tree;
  if tree =? 0 then mret 0 else
  put_tree tree (λ t, mk_tree compare (rb_nil t) (rb_root t));;
  nil ← rb_node_create;
  if nil =? 0 then kfree_node nil;; mret 0 else
  on_nodes (rb_upd nil (λ _, mk_rb false nil nil nil));;
  put_tree tree (λ t, mk_tree (rb_compare t) nil (rb_root t));;
  root ← rb_node_create;
  if root =? 0 then kfree_node nil;; kfree_node nil;; mret 0 else
  on_nodes (rb_upd root (λ _, mk_rb false nil nil nil));;
  put_tree tree (λ t, mk_tree (rb_compare t) (rb_nil t) root);;
  mret tree.

Definition rb_tree_destroy (tree : Z) : M rbmem unit :=
  t ← get_tree tree;
  kfree_node (rb_root t);; kfree_node (rb_nil t);; kfree_tree tree.
End create.
