(* ===== verification/RbRep.v ===== *)
(** * Red-black trees in the store

    A tree in the store is the cells of a functional tree; a place in it is the
    path to it.  Pointer writes update cells of the list, and rotations and
    recolourings are steps between functional trees, one proof for both
    directions. *)
From S2P Require Import Prelude Rbtree.

(** ** Functional trees *)

Inductive tree := Leaf | Node (c : bool) (l : tree) (a : Z) (r : tree).
#[export] Instance tree_eq_dec : EqDecision tree.
Proof. solve_decision. Defined.

Fixpoint inorder (t : tree) : list Z :=
  match t with Leaf => [] | Node _ l a r => inorder l ++ a :: inorder r end.

(** A node with [t] in direction [d] and [s] in the other. *)
Definition branch (d : dir) (c : bool) (a : Z) (t s : tree) : tree :=
  match d with DL => Node c t a s | DR => Node c s a t end.

Definition color (t : tree) : bool := match t with Leaf => false | Node c _ _ _ => c end.

(** A step of a path: at node [fa], of colour [fc], the way goes in direction [fd]
    and leaves the subtree [fs] on the other side. *)
Record frame := mk_frame { fd : dir; fc : bool; fa : Z; fs : tree }.

Fixpoint plug (k : list frame) (t : tree) : tree :=
  match k with
  | [] => t
  | f :: k' => plug k' (branch (fd f) (fc f) (fa f) t (fs f))
  end.

Lemma plug_app k1 k2 t : plug (k1 ++ k2) t = plug k2 (plug k1 t).
Proof. revert t. induction k1 as [|f k1 IH]; intros t; [done|]. apply IH. Qed.

Lemma flip_flip d : flip (flip d) = d.
Proof. by destruct d. Qed.

Lemma branch_flip d c a t s : branch (flip d) c a t s = branch d c a s t.
Proof. by destruct d. Qed.

(** What the subtree at a place of the order contributes. *)
Definition beside (d : dir) (u v : list Z) : list Z := match d with DL => u ++ v | DR => v ++ u end.

Lemma inorder_branch d c a t s : inorder (branch d c a t s) = beside d (inorder t) (beside d [a] (inorder s)).
Proof. destruct d; cbn; [done|]. by rewrite <- app_assoc. Qed.

Lemma inorder_plug_eq k t t' : inorder t = inorder t' → inorder (plug k t) = inorder (plug k t').
Proof.
  revert t t'. induction k as [|f k IH]; intros t t' E; [done|]. cbn. apply IH.
  by rewrite !inorder_branch, E.
Qed.

(** The order around a place. *)
Fixpoint before (k : list frame) : list Z :=
  match k with
  | [] => []
  | f :: k' => match fd f with DL => before k' | DR => before k' ++ inorder (fs f) ++ [fa f] end
  end.
Fixpoint after (k : list frame) : list Z :=
  match k with
  | [] => []
  | f :: k' => match fd f with DL => fa f :: inorder (fs f) ++ after k' | DR => after k' end
  end.

Lemma inorder_plug k t : inorder (plug k t) = before k ++ inorder t ++ after k.
Proof.
  revert t. induction k as [|f k IH]; intros t; [cbn; by rewrite app_nil_r|].
  cbn. rewrite IH. destruct f as [[] c a s]; cbn; rewrite <- ?app_assoc; cbn; by rewrite <- ?app_assoc.
Qed.

(** ** Red-black trees *)

(** Of black height [n], with the root's colour. *)
Inductive rb : bool → nat → tree → Prop :=
  | rb_Leaf : rb false 0 Leaf
  | rb_red n l a r : rb false n l → rb false n r → rb true n (Node true l a r)
  | rb_black n c1 c2 l a r : rb c1 n l → rb c2 n r → rb false (S n) (Node false l a r).

(** The tree around a place takes there a tree of black height [n], and a red one
    only if [c]. *)
Inductive rb_ctx : bool → nat → list frame → Prop :=
  | rb_top n : rb_ctx false n []
  | rb_under_black n c c' d a s k :
      rb c n s → rb_ctx c' (S n) k → rb_ctx true n (mk_frame d false a s :: k)
  | rb_under_red n d a s k :
      rb false n s → rb_ctx true n k → rb_ctx false n (mk_frame d true a s :: k).

Lemma rb_color c n t : rb c n t → color t = c.
Proof. by inversion 1. Qed.

Lemma rb_branch d (c : bool) n a t s ct cs :
  rb ct n t → rb cs n s → (c = true → ct = false ∧ cs = false) →
  rb c (if c then n else S n) (branch d c a t s).
Proof.
  intros Ht Hs Hc. destruct c.
  - destruct (Hc eq_refl) as [-> ->]. destruct d; by constructor.
  - destruct d; by econstructor.
Qed.

Lemma rb_ctx_plug c n k c' t :
  rb c n t → rb_ctx c' n k → (c = true → c' = true) → ∃ m, rb false m (plug k t).
Proof.
  intros Ht Hk. revert c t Ht. induction Hk as [n|n cs c' d a s k Hs Hk IH|n d a s k Hs Hk IH];
    intros c t Ht Hc.
  - destruct c; [by discriminate (Hc eq_refl)|]. by exists n.
  - cbn. apply (IH false); [|done]. by apply (rb_branch d false n a t s c cs).
  - cbn. destruct c; [by discriminate (Hc eq_refl)|].
    apply (IH true); [|done]. by apply (rb_branch d true n a t s false false).
Qed.

(** Every place of a red-black tree has such a surrounding. *)
Lemma rb_plug_ctx k t m c : rb c m (plug k t) → c = false →
  ∃ ct n c', rb ct n t ∧ rb_ctx c' n k ∧ (ct = true → c' = true).
Proof.
  revert t. induction k as [|[d fc0 a s] k IH]; intros t Ht Hc.
  - subst. cbn in Ht. exists false, m, false. split_and!; [done|constructor|done].
  - cbn in Ht. destruct (IH _ Ht Hc) as (cn & n & c' & Hn & Hk & Hcc).
    assert (∃ ct cs n', rb ct n' t ∧ rb cs n' s ∧ n = (if fc0 then n' else S n') ∧ cn = fc0 ∧
      (fc0 = true → ct = false ∧ cs = false)) as (ct & cs & n' & Ht' & Hs' & -> & -> & Hred).
    { destruct d; cbn in Hn; inversion Hn; subst; do 3 eexists; split_and!; eauto; done. }
    destruct fc0.
    + destruct (Hred eq_refl) as [-> ->]. rewrite (Hcc eq_refl) in Hk.
      exists false, n', false. split_and!; [done|by constructor|done].
    + exists ct, n', true. split_and!; [done|by econstructor|done].
Qed.

(** ** Cells *)

(** The node of colour [c] with parent [p], [v] in direction [d], and [s] in the other. *)
Definition node_of (d : dir) (c : bool) (p v s : Z) : Rb_node :=
  match d with DL => mk_rb c p v s | DR => mk_rb c p s v end.

Lemma child_here d c p v s : child d (node_of d c p v s) = v.
Proof. by destruct d. Qed.
Lemma child_there d c p v s : child (flip d) (node_of d c p v s) = s.
Proof. by destruct d. Qed.
Lemma set_here d c p v s v' : set_child d v' (node_of d c p v s) = node_of d c p v' s.
Proof. by destruct d. Qed.
Lemma set_other d c p v s v' : set_child (flip d) v' (node_of d c p v s) = node_of d c p v v'.
Proof. by destruct d. Qed.
Lemma parent_node d c p v s : rb_parent (node_of d c p v s) = p.
Proof. by destruct d. Qed.
Lemma red_node d c p v s : red (node_of d c p v s) = c.
Proof. by destruct d. Qed.
Lemma recolor_node d c p v s c' : set_red c' (node_of d c p v s) = node_of d c' p v s.
Proof. by destruct d. Qed.
Lemma reparent_node d c p v s p' : set_parent p' (node_of d c p v s) = node_of d c p' v s.
Proof. by destruct d. Qed.
Lemma node_flip d c p v s : node_of (flip d) c p v s = node_of d c p s v.
Proof. by destruct d. Qed.
Create Rewrite HintDb rbn.
#[export] Hint Rewrite child_here child_there set_here set_other parent_node red_node recolor_node
  reparent_node : rbn.

Section rep.
Context (tr : Rb_tree).

Definition ptr (t : tree) : Z := match t with Leaf => rb_nil tr | Node _ _ a _ => a end.

(** The cells of [t] under parent [p]. *)
Fixpoint cells (p : Z) (t : tree) : list (Z * Rb_node) :=
  match t with
  | Leaf => []
  | Node c l a r => (a, mk_rb c p (ptr l) (ptr r)) :: cells a l ++ cells a r
  end.

(** The parent of a place; the head node's left subtree is the tree. *)
Definition up (k : list frame) : Z := match k with [] => rb_root tr | f :: _ => fa f end.

(** The parent's cell, with [v] at the place, and the rest of what is around it. *)
Definition hole (k : list frame) (v : Z) : Z * Rb_node :=
  (up k, match k with
         | [] => mk_rb false (rb_nil tr) v (rb_nil tr)
         | f :: k' => node_of (fd f) (fc f) (up k') v (ptr (fs f))
         end).
Fixpoint around (k : list frame) : list (Z * Rb_node) :=
  match k with
  | [] => []
  | f :: k' => cells (fa f) (fs f) ++ hole k' (fa f) :: around k'
  end.

(** The nil node, whose parent may be anything. *)
Definition nil_cell (np : Z) : Z * Rb_node := (rb_nil tr, mk_rb false np (rb_nil tr) (rb_nil tr)).

Definition all_cells (np : Z) (k : list frame) (t : tree) : list (Z * Rb_node) :=
  nil_cell np :: hole k (ptr t) :: around k ++ cells (up k) t.

Lemma cells_branch p d c a t s :
  cells p (branch d c a t s) ≡ₚ (a, node_of d c p (ptr t) (ptr s)) :: cells a t ++ cells a s.
Proof. destruct d; cbn; [done|]. by rewrite (Permutation_app_comm (cells a s)). Qed.

Lemma ptr_branch d c a t s : ptr (branch d c a t s) = a.
Proof. by destruct d. Qed.

(** Going down or up one step. *)
Lemma all_cells_zoom np f k t :
  all_cells np (f :: k) t ≡ₚ all_cells np k (branch (fd f) (fc f) (fa f) t (fs f)).
Proof.
  unfold all_cells. cbn [around]. rewrite cells_branch, ptr_branch. cbn [hole up]. solve_Permutation.
Qed.

Lemma all_cells_plug np k t : all_cells np k t ≡ₚ all_cells np [] (plug k t).
Proof.
  revert t. induction k as [|f k IH]; intros t; [done|]. rewrite all_cells_zoom. apply IH.
Qed.

Lemma cells_addrs p t : (cells p t).*1 ≡ₚ inorder t.
Proof.
  revert p. induction t as [|c l IHl a r IHr]; intros p; [done|]. cbn.
  rewrite fmap_app, IHl, IHr. by rewrite Permutation_middle.
Qed.

(** A subtree's top cell is the only one that knows its parent. *)
Definition top_cell (p : Z) (t : tree) : list (Z * Rb_node) :=
  match t with Leaf => [] | Node c l a r => [(a, mk_rb c p (ptr l) (ptr r))] end.
Definition below (t : tree) : list (Z * Rb_node) :=
  match t with Leaf => [] | Node c l a r => cells a l ++ cells a r end.

Lemma cells_top p t : cells p t = top_cell p t ++ below t.
Proof. by destruct t. Qed.

(** ** The store *)

(** The operation may write the cells of [L]; the rest of the store is that of [h0]. *)
Context (L : list Z) (h0 : rbheap).

Record holds (h : rbheap) (l : list (Z * Rb_node)) : Prop := {
  ho_nodup : NoDup l.*1;
  ho_cells a n : (a, n) ∈ l → h !! a = Some n;
  ho_in a : a ∈ l.*1 → a ∈ L;
  ho_frame a : a ∉ L → h !! a = h0 !! a
}.

Lemma holds_perm h l l' : l ≡ₚ l' → holds h l → holds h l'.
Proof.
  intros Hp [Hn Hc Hi Hf]. split; [by rewrite <- Hp| | |done].
  - intros a n. rewrite <- Hp. apply Hc.
  - intros a. rewrite <- Hp. apply Hi.
Qed.

Lemma holds_at h l i a n : holds h l → l !! i = Some (a, n) → h !! a = Some n.
Proof. intros Hh Hl. apply (ho_cells _ _ Hh). by eapply list_elem_of_lookup_2. Qed.

Lemma holds_insert h l i a n n' :
  holds h l → l !! i = Some (a, n) → holds (<[a := n']> h) (<[i := (a, n')]> l).
Proof.
  intros [Hn Hc Hi Hf] Hl. assert ((<[i := (a, n')]> l).*1 = l.*1) as E1.
  { rewrite list_fmap_insert. apply list_insert_id. by rewrite list_lookup_fmap, Hl. }
  split; rewrite ?E1; [done| |done|].
  - intros b m (j & Hj)%list_elem_of_lookup_1. destruct (decide (j = i)) as [->|Hne].
    + rewrite list_lookup_insert_eq in Hj by by eapply lookup_lt_Some.
      injection Hj as <- <-. apply lookup_insert_eq.
    + rewrite list_lookup_insert_ne in Hj by done.
      rewrite lookup_insert_ne; [apply Hc; by eapply list_elem_of_lookup_2|].
      intros <-. apply Hne. eapply (NoDup_lookup _ _ _ a Hn); by rewrite list_lookup_fmap, ?Hj, ?Hl.
  - intros b Hb. rewrite lookup_insert_ne; [by apply Hf|]. intros <-. apply Hb, Hi.
    apply (list_elem_of_lookup_2 _ i).
    by rewrite list_lookup_fmap, Hl.
Qed.

Lemma wp_rb_get i a n h l (Q : Rb_node → rbheap → Prop) :
  holds h l → l !! i = Some (a, n) → Q n h → wp (rb_get a) h Q.
Proof.
  intros Hh Hl HQ. unfold rb_get. apply wp_bind, wp_gets. rewrite (holds_at _ _ _ _ _ Hh Hl).
  apply wp_of_option. eauto.
Qed.

Lemma wp_rb_upd i a n f h l (Q : unit → rbheap → Prop) :
  holds h l → l !! i = Some (a, n) →
  (∀ h', holds h' (<[i := (a, f n)]> l) → Q tt h') → wp (rb_upd a f) h Q.
Proof.
  intros Hh Hl HQ. unfold rb_upd. apply wp_bind. eapply wp_rb_get; [done..|].
  apply wp_modify, HQ. by eapply holds_insert.
Qed.

(** Two places of the list are two addresses. *)
Lemma holds_ne h l i j a b n m :
  holds h l → l !! i = Some (a, n) → l !! j = Some (b, m) → i ≠ j → a ≠ b.
Proof.
  intros Hh Hi Hj Hne ->. apply Hne. eapply (NoDup_lookup _ _ _ b (ho_nodup _ _ Hh));
    by rewrite list_lookup_fmap, ?Hi, ?Hj.
Qed.

(** The tree has [t] at place [k]. *)
Definition placed (h : rbheap) (np : Z) (k : list frame) (t : tree) : Prop :=
  holds h (all_cells np k t).

Lemma placed_zoom h np f k t :
  placed h np (f :: k) t ↔ placed h np k (branch (fd f) (fc f) (fa f) t (fs f)).
Proof. split; apply holds_perm; [|symmetry]; apply all_cells_zoom. Qed.

Lemma placed_plug h np k t : placed h np k t ↔ placed h np [] (plug k t).
Proof. split; apply holds_perm; [|symmetry]; apply all_cells_plug. Qed.

(** What is on the other side of the place. *)
Definition sib (k : list frame) : Z := match k with [] => rb_nil tr | f :: _ => ptr (fs f) end.

Lemma ptr_in t : t ≠ Leaf → ptr t ∈ inorder t.
Proof. destruct t; [done|]. intros _. cbn. set_solver. Qed.

Lemma all_addrs np k t :
  (all_cells np k t).*1 ≡ₚ rb_nil tr :: up k :: (around k).*1 ++ inorder t.
Proof. unfold all_cells. cbn. by rewrite fmap_app, cells_addrs. Qed.

Lemma placed_nodup h np k t :
  placed h np k t → NoDup (rb_nil tr :: up k :: (around k).*1 ++ inorder t).
Proof. intros Hp. rewrite <- all_addrs. apply (ho_nodup _ _ Hp). Qed.

Lemma sib_in k : sib k = rb_nil tr ∨ sib k ∈ (around k).*1.
Proof.
  destruct k as [|[d c a [|c' l b r]] k]; cbn; [by left..|]. right. set_solver.
Qed.

Lemma root_in k : rb_root tr = up k ∨ rb_root tr ∈ (around k).*1.
Proof.
  induction k as [|[d c a s] k IH]; [by left|]. right. cbn. rewrite fmap_app, elem_of_app. right.
  cbn. rewrite elem_of_cons. tauto.
Qed.

(** No node of the subtree is the nil node, the head, the parent or the sibling. *)
Lemma placed_ne h np k t a :
  placed h np k t → a ∈ inorder t → a ≠ rb_nil tr ∧ a ≠ up k ∧ a ≠ sib k ∧ a ≠ rb_root tr.
Proof.
  intros Hp%placed_nodup Ha.
  apply NoDup_cons in Hp as [Hn [Hu Hd]%NoDup_cons]. apply NoDup_app in Hd as (_ & Hd & _).
  assert (a ≠ rb_nil tr) as H1.
  { intros ->. apply Hn, elem_of_cons. right. apply elem_of_app. by right. }
  assert (a ≠ up k) as H2 by (intros ->; apply Hu, elem_of_app; by right).
  assert (a ∉ (around k).*1) as H3 by (intros Hin; by apply (Hd a)).
  split_and!; [done..| |].
  - destruct (sib_in k) as [-> | Hi]; [done|]. by intros ->.
  - destruct (root_in k) as [-> | Hi]; [done|]. by intros ->.
Qed.

(** [if (t != nil) t->parent = p]. *)
Lemma wp_reparent_opt i p q t l1 l2 h (Q : unit → rbheap → Prop) :
  holds h (l1 ++ top_cell q t ++ l2) → i = length l1 → ptr t ≠ rb_nil tr ∨ t = Leaf →
  (∀ h', holds h' (l1 ++ top_cell p t ++ l2) → Q tt h') →
  wp (if negb (ptr t =? rb_nil tr) then rb_upd (ptr t) (set_parent p) else mret tt) h Q.
Proof.
  intros Hh -> Hn HQ. destruct t as [|c l a r]; cbn [ptr] in *.
  - rewrite Z.eqb_refl. cbn [negb]. rewrite wp_ret. by apply HQ.
  - destruct Hn as [Hn|?]; [|done]. rewrite (proj2 (Z.eqb_neq _ _) Hn). cbn [negb top_cell app] in *.
    eapply (wp_rb_upd (length l1)); [exact Hh|by apply list_lookup_middle|].
    intros h' Hh'. rewrite insert_app_r_alt, Nat.sub_diag in Hh' by done. by apply HQ.
Qed.

(** The link to a place is redirected, whichever direction is tried first. *)
Lemma relink_node d k v v' : v ≠ sib k →
  let n := (hole k v).2 in
  (up k, if v =? child d n then set_child d v' n else set_child (flip d) v' n) = hole k v'.
Proof.
  intros Hv n. destruct k as [|[[] c a s] k], d; cbn in *;
    rewrite ?Z.eqb_refl, ?(proj2 (Z.eqb_neq _ _) Hv); done.
Qed.

Lemma wp_relink {X} i d k v v' h l (m : M rbheap X) (Q : X → rbheap → Prop) :
  holds h l → l !! i = Some (hole k v) → v ≠ sib k →
  (∀ h', holds h' (<[i := hole k v']> l) → wp m h' Q) →
  wp (np ← rb_get (up k);
      (if v =? child d np then rb_upd (up k) (set_child d v')
       else rb_upd (up k) (set_child (flip d) v'));; m) h Q.
Proof.
  intros Hh Hl Hv HQ. pose proof (relink_node d k v v' Hv) as Hn. cbv zeta in Hn.
  assert (l !! i = Some (up k, (hole k v).2)) as Hl' by by rewrite Hl; destruct k.
  apply wp_bind. eapply wp_rb_get; [exact Hh|exact Hl'|]. apply wp_bind.
  destruct (v =? child d _); (eapply wp_rb_upd; [exact Hh|exact Hl'|]); rewrite Hn; exact HQ.
Qed.

(** ** Rotation *)

Lemma wp_rotate d h np k c x A c' y B C (Q : unit → rbheap → Prop) :
  placed h np k (branch d c x A (branch d c' y B C)) →
  (∀ h', placed h' np k (branch d c' y (branch d c x A B) C) → Q tt h') →
  wp (rb_rotate d tr x) h Q.
Proof.
  intros Hp HQ.
  destruct (placed_ne _ _ _ _ x Hp) as (Hxn & Hxu & Hsib & Hxr); [rewrite inorder_branch; destruct d; cbn; set_solver|].
  destruct (placed_ne _ _ _ _ y Hp) as (Hyn & _); [rewrite !inorder_branch; destruct d; cbn; set_solver|].
  assert (ptr B ≠ rb_nil tr ∨ B = Leaf) as HB.
  { destruct (decide (B = Leaf)) as [?|HB]; [by right|]. left. apply ptr_in in HB.
    eapply placed_ne; [exact Hp|]. rewrite !inorder_branch. destruct d; cbn; set_solver. }
  set (R := below B ++ cells x A ++ cells y C ++ around k).
  assert (holds h ((x, node_of d c (up k) (ptr A) y) :: (y, node_of d c' x (ptr B) (ptr C)) ::
    nil_cell np :: hole k x :: top_cell y B ++ R)) as Hh.
  { eapply holds_perm; [|exact Hp]. unfold all_cells, R.
    rewrite cells_branch, ptr_branch, cells_branch, ptr_branch, (cells_top y B). solve_Permutation. }
  unfold rb_rotate.
  apply wp_bind. eapply (wp_rb_get 0); [exact Hh|done|]. autorewrite with rbn.
  apply wp_bind, wp_assert. rewrite !(proj2 (Z.eqb_neq _ _)) by done. split; [done|].
  apply wp_bind. eapply (wp_rb_get 1); [exact Hh|done|]. autorewrite with rbn.
  apply wp_bind. eapply (wp_rb_upd 0); [exact Hh|done|]. autorewrite with rbn.
  clear h Hp Hh. intros h Hh. cbn [list_insert insert] in Hh.
  apply wp_bind. eapply (wp_rb_get 1); [exact Hh|done|]. autorewrite with rbn.
  apply wp_bind. eapply (wp_reparent_opt 4 x y B [_; _; _; _] R); [exact Hh|done|exact HB|].
  clear h Hh. intros h Hh. cbn [app] in Hh.
  apply wp_bind. eapply (wp_rb_get 0); [exact Hh|done|]. autorewrite with rbn.
  apply wp_bind. eapply (wp_rb_upd 1); [exact Hh|done|]. autorewrite with rbn.
  clear h Hh. intros h Hh. cbn [list_insert insert] in Hh.
  apply wp_bind. eapply (wp_rb_get 0); [exact Hh|done|]. autorewrite with rbn.
  eapply (wp_relink 3 d k x y); [exact Hh|done|done|].
  clear h Hh. intros h Hh. cbn [list_insert insert] in Hh.
  apply wp_bind. eapply (wp_rb_upd 1); [exact Hh|done|]. autorewrite with rbn.
  clear h Hh. intros h Hh. cbn [list_insert insert] in Hh.
  apply wp_bind. eapply (wp_rb_upd 0); [exact Hh|done|]. autorewrite with rbn.
  clear h Hh. intros h Hh. cbn [list_insert insert] in Hh.
  apply wp_bind. eapply (wp_rb_get 2); [exact Hh|done|]. apply wp_assert. split; [done|].
  apply HQ. eapply holds_perm; [|exact Hh]. unfold all_cells, R.
  rewrite cells_branch, ptr_branch, cells_branch, ptr_branch, (cells_top x B). solve_Permutation.
Qed.

(** ** Reading at a place *)

Lemma holds_tail h e l : holds h (e :: l) → holds h l.
Proof.
  intros [Hn Hc Hi Hf]. split; [by apply NoDup_cons in Hn as [_ ?]| | |done]; set_solver.
Qed.

Lemma wp_rb_at a n h (Q : Rb_node → rbheap → Prop) : h !! a = Some n → Q n h → wp (rb_get a) h Q.
Proof. intros Ha HQ. unfold rb_get. apply wp_bind, wp_gets. rewrite Ha. by apply wp_of_option; eauto. Qed.

Lemma placed_cell h np k t a n : placed h np k t → (a, n) ∈ cells (up k) t → h !! a = Some n.
Proof. intros Hp Ha. apply (ho_cells _ _ Hp). unfold all_cells. set_solver. Qed.

Lemma placed_node h np k d c a t s :
  placed h np k (branch d c a t s) → h !! a = Some (node_of d c (up k) (ptr t) (ptr s)).
Proof. intros Hp. eapply placed_cell; [done|]. rewrite cells_branch. set_solver. Qed.

Lemma placed_up h np k t : placed h np k t → h !! up k = Some (hole k (ptr t)).2.
Proof.
  intros Hp. apply (ho_cells _ _ Hp). unfold all_cells.
  assert (hole k (ptr t) = (up k, (hole k (ptr t)).2)) as <- by by destruct k. set_solver.
Qed.

Lemma placed_nil h np k t : placed h np k t → h !! rb_nil tr = Some (mk_rb false np (rb_nil tr) (rb_nil tr)).
Proof. intros Hp. apply (ho_cells _ _ Hp). unfold all_cells, nil_cell. set_solver. Qed.

Lemma placed_root h np k t : placed h np k t →
  h !! rb_root tr = Some (mk_rb false (rb_nil tr) (ptr (plug k t)) (rb_nil tr)).
Proof. intros Hp%placed_plug. by apply placed_up in Hp. Qed.

(** A subtree's own colour and parent. *)
Lemma placed_ptr h np k t : placed h np k t → ∃ n, h !! ptr t = Some n ∧ red n = color t ∧
  rb_parent n = if decide (t = Leaf) then np else up k.
Proof.
  intros Hp. destruct t as [|c l a r].
  - eexists. split; [by eapply placed_nil|done].
  - eexists. split; [by apply (placed_node h np k DL c a l r)|done].
Qed.

Lemma placed_real h np k t : placed h np k t → t ≠ Leaf → ptr t ≠ rb_nil tr.
Proof. intros Hp Ht. apply (placed_ne _ _ _ _ (ptr t) Hp), ptr_in. done. Qed.

(** Which child a place is. *)
Lemma placed_side h np f k t d : placed h np (f :: k) t → t ≠ Leaf →
  (ptr t =? child d (node_of (fd f) (fc f) (up k) (ptr t) (ptr (fs f)))) = bool_decide (d = fd f).
Proof.
  intros Hp Ht. destruct (placed_ne _ _ _ _ (ptr t) Hp (ptr_in t Ht)) as (_ & _ & Hs & _).
  destruct f as [d' c a s]. cbn in *. destruct d, d'; cbn; rewrite ?Z.eqb_refl; try done;
    by rewrite (proj2 (Z.eqb_neq _ _)).
Qed.

(** ** Recolouring *)

Lemma wp_recolor h np k c c' l a r (Q : unit → rbheap → Prop) :
  placed h np k (Node c l a r) → (∀ h', placed h' np k (Node c' l a r) → Q tt h') →
  wp (rb_upd a (set_red c')) h Q.
Proof.
  intros Hp HQ. eapply (wp_rb_upd 0).
  - eapply (holds_perm _ _ ((a, mk_rb c (up k) (ptr l) (ptr r)) :: nil_cell np :: hole k a ::
      around k ++ cells a l ++ cells a r)); [|exact Hp]. unfold all_cells. cbn. solve_Permutation.
  - done.
  - intros h' Hh. apply HQ. eapply holds_perm; [|exact Hh]. unfold all_cells. cbn. solve_Permutation.
Qed.

Lemma wp_recolor_branch h np k d c c' a t s (Q : unit → rbheap → Prop) :
  placed h np k (branch d c a t s) → (∀ h', placed h' np k (branch d c' a t s) → Q tt h') →
  wp (rb_upd a (set_red c')) h Q.
Proof. destruct d; apply wp_recolor. Qed.

(** The parent of a place is recoloured. *)
Lemma wp_recolor_up h np f k c' t (Q : unit → rbheap → Prop) :
  placed h np (f :: k) t →
  (∀ h', placed h' np (mk_frame (fd f) c' (fa f) (fs f) :: k) t → Q tt h') →
  wp (rb_upd (fa f) (set_red c')) h Q.
Proof.
  intros Hp%placed_zoom HQ. eapply wp_recolor_branch; [exact Hp|]. intros h' Hp'.
  apply HQ. by apply placed_zoom.
Qed.

(** Enough fuel: the places and nodes are in the store. *)
Lemma placed_size h np k t : placed h np k t → (length k + length (inorder t) < size h)%nat.
Proof.
  intros Hp. pose proof (placed_nodup _ _ _ _ Hp) as Hn.
  assert (size (list_to_set (rb_nil tr :: up k :: (around k).*1 ++ inorder t) : gset Z) ≤ size (dom h))%nat as Hs.
  { apply subseteq_size. intros a Ha%elem_of_list_to_set. apply elem_of_dom.
    rewrite <- all_addrs in Ha. apply list_elem_of_fmap in Ha as ([b n] & -> & Hb).
    apply (ho_cells _ _ Hp) in Hb. cbn. by rewrite Hb. }
  rewrite size_list_to_set, size_dom in Hs by done. cbn in Hs. rewrite length_app, length_fmap in Hs.
  assert (length k ≤ length (around k))%nat; [|lia].
  clear. induction k as [|f k IH]; cbn; [done|]. rewrite length_app. cbn. lia.
Qed.
End rep.
