(* ===== verification/RbSpec.v ===== *)
(** * Red-black trees: insertion keeps order and balance

    [rb_insert_ok] is the statement the other files use. *)
From Stdlib Require Import Sorted.
From S2P Require Import Prelude Rbtree RbRep.

(** The tree with a black root. *)
Definition blacken (t : tree) : tree :=
  match t with Leaf => Leaf | Node _ l a r => Node false l a r end.

Lemma inorder_blacken t : inorder (blacken t) = inorder t.
Proof. by destruct t. Qed.

Lemma branch_cases t : t ≠ Leaf → ∀ d, ∃ s s', t = branch d (color t) (match t with Node _ _ a _ => a | Leaf => 0 end) s s'.
Proof. intros Ht [|]; destruct t as [|c l a r]; try done; by eexists _, _. Qed.

Section insert.
Context (tr : Rb_tree) (L : list Z) (h0 : rbheap).
Abbreviation placed := (placed tr L h0).
Abbreviation holds := (holds L h0).
Abbreviation up := (up tr).
Abbreviation ptr := (ptr tr).

(** Steps from a place to its neighbours. *)
Lemma wp_parent_of h np k t (Q : Z → rbheap → Prop) :
  placed h np k t → t ≠ Leaf → Q (up k) h → wp (parent_of (ptr t)) h Q.
Proof.
  intros Hp Ht HQ. destruct (placed_ptr _ _ _ _ _ _ _ Hp) as (n & Hn & _ & Hpa).
  unfold parent_of. apply wp_bind. eapply wp_rb_at; [exact Hn|]. rewrite wp_ret, Hpa.
  by rewrite decide_False.
Qed.

Lemma wp_grand h np f k t (Q : Z → rbheap → Prop) :
  placed h np (f :: k) t → t ≠ Leaf → Q (up k) h → wp (grand (ptr t)) h Q.
Proof.
  intros Hp Ht HQ. destruct (placed_ptr _ _ _ _ _ _ _ Hp) as (n & Hn & _ & Hpa).
  unfold grand. apply wp_bind. eapply wp_rb_at; [exact Hn|]. rewrite Hpa, decide_False by done.
  apply wp_bind. eapply wp_rb_at; [by apply (placed_up _ _ _ _ _ _ _ Hp)|]. rewrite wp_ret.
  cbn. by rewrite parent_node.
Qed.

(** The other child of the grandparent. *)
Lemma placed_uncle h np f1 d c g u k t :
  placed h np (f1 :: mk_frame d c g u :: k) t →
  h !! g = Some (node_of d c (up k) (fa f1) (ptr u)).
Proof.
  intros Hp%placed_zoom. apply placed_up in Hp. cbn in Hp. by rewrite ptr_branch in Hp.
Qed.

(** The sibling subtree's top node. *)
Lemma placed_sibling h np f k t : placed h np (f :: k) t → ∃ np', placed h np' (mk_frame (flip (fd f)) (fc f) (fa f) t :: k) (fs f).
Proof.
  intros Hp%placed_zoom. exists np. apply placed_zoom. cbn. by rewrite branch_flip.
Qed.

(** *** One round *)

(** What a round leaves: the uncle was red and the trouble moves up, or it is over. *)
Definition after_sub d1 d2 p s1 g u k t (y : Z) (np : Z) (h' : rbheap) : Prop :=
  if color u then
    y = g ∧ placed h' np k (branch d2 true g (branch d1 false p t s1) (blacken u))
  else ∃ p' t' s', y = ptr t' ∧
    placed h' np (mk_frame d2 false p' (branch d2 true g s' u) :: k) t' ∧
    (d1 = d2 ∧ p' = p ∧ t' = t ∧ s' = s1 ∨
     d1 = flip d2 ∧ ∃ B, t = branch d2 true p' B s' ∧ t' = branch d2 true p s1 B).

Lemma wp_insert_red d1 d2 p s1 g cu ul ua ur k h np t (Q : Z → rbheap → Prop) :
  t ≠ Leaf →
  placed h np (mk_frame d1 true p s1 :: mk_frame d2 false g (Node cu ul ua ur) :: k) t →
  (∀ h', placed h' np k (branch d2 true g (branch d1 false p t s1) (Node false ul ua ur)) → Q g h') →
  wp (p ← parent_of (ptr t); rb_upd p (set_red false);;
      rb_upd ua (set_red false);;
      g ← grand (ptr t); rb_upd g (set_red true);;
      grand (ptr t)) h Q.
Proof.
  intros Ht Hp HQ. apply wp_bind. eapply wp_parent_of; [exact Hp|done|].
  apply wp_bind. eapply wp_recolor_up; [exact Hp|]. clear h Hp. intros h Hp. cbn in Hp.
  apply wp_bind. assert (placed h np (mk_frame (flip d2) false g (branch d1 false p t s1) :: k)
    (Node cu ul ua ur)) as Hu.
  { apply placed_zoom in Hp. cbn in Hp. apply placed_zoom in Hp. apply placed_zoom. cbn in *.
    by rewrite branch_flip. }
  eapply wp_recolor; [exact Hu|]. clear h Hp Hu. intros h Hu.
  assert (placed h np (mk_frame d1 false p s1 :: mk_frame d2 false g (Node false ul ua ur) :: k) t) as Hp.
  { apply placed_zoom, placed_zoom. apply placed_zoom in Hu. cbn in *. by rewrite branch_flip in Hu. }
  apply wp_bind. eapply wp_grand; [exact Hp|done|]. apply placed_zoom in Hp.
  apply wp_bind. eapply (wp_recolor_up _ _ _ _ _ (mk_frame d2 false g _)); [exact Hp|].
  clear h Hp Hu. intros h Hp. apply placed_zoom in Hp.
  eapply wp_grand; [exact Hp|done|]. apply HQ. apply placed_zoom in Hp. cbn in Hp.
  by apply placed_zoom in Hp.
Qed.

(** The parent black, the grandparent red and rotated away. *)
Lemma wp_insert_outer d p s1 g u k h np t (Q : Z → rbheap → Prop) :
  t ≠ Leaf →
  placed h np (mk_frame d true p s1 :: mk_frame d false g u :: k) t →
  (∀ h', placed h' np (mk_frame d false p (branch d true g s1 u) :: k) t → Q (ptr t) h') →
  wp (p ← parent_of (ptr t); rb_upd p (set_red false);;
      g ← grand (ptr t); rb_upd g (set_red true);;
      g ← grand (ptr t); rb_rotate (flip d) tr g;;
      mret (ptr t)) h Q.
Proof.
  intros Ht Hp HQ. apply wp_bind. eapply wp_parent_of; [exact Hp|done|].
  apply wp_bind. eapply wp_recolor_up; [exact Hp|]. clear h Hp. intros h Hp. cbn in Hp.
  apply wp_bind. eapply wp_grand; [exact Hp|done|]. apply placed_zoom in Hp.
  apply wp_bind. eapply (wp_recolor_up _ _ _ _ _ (mk_frame d false g _)); [exact Hp|].
  clear h Hp. intros h Hp. apply placed_zoom in Hp.
  apply wp_bind. eapply wp_grand; [exact Hp|done|]. cbn in Hp.
  apply placed_zoom in Hp. cbn in Hp. apply placed_zoom in Hp. cbn in Hp.
  rewrite <- branch_flip, <- (branch_flip d) in Hp.
  apply wp_bind. eapply wp_rotate; [exact Hp|]. clear h Hp. intros h Hp. rewrite wp_ret. apply HQ.
  apply placed_zoom. cbn. by rewrite !branch_flip in Hp.
Qed.

Lemma wp_insert_black d1 d2 p s1 g u k h np t (Q : Z → rbheap → Prop) :
  color t = true → color u = false →
  placed h np (mk_frame d1 true p s1 :: mk_frame d2 false g u :: k) t →
  (∀ y h', after_sub d1 d2 p s1 g u k t y np h' → Q y h') →
  wp (p ← parent_of (ptr t);
      np ← rb_get p;
      x ← (if ptr t =? child (flip d2) np then rb_rotate d2 tr p;; mret p else mret (ptr t));
      p ← parent_of x; rb_upd p (set_red false);;
      g ← grand x; rb_upd g (set_red true);;
      g ← grand x; rb_rotate (flip d2) tr g;;
      mret x) h Q.
Proof.
  intros Hc Hu Hp HQ. assert (t ≠ Leaf) as Ht by by intros ->.
  unfold after_sub in HQ. rewrite Hu in HQ.
  apply wp_bind. eapply wp_parent_of; [exact Hp|done|].
  apply wp_bind. eapply wp_rb_at; [by apply (placed_up _ _ _ _ _ _ _ Hp)|]. cbn [hole snd].
  rewrite (placed_side _ _ _ _ _ _ _ _ _ Hp Ht). apply wp_bind. case_bool_decide as Hd; cbn [fd] in Hd.
  - subst d1. destruct (branch_cases t Ht d2) as (B & C & Et). set (x := match t with Node _ _ a _ => a | Leaf => 0 end) in *.
    apply placed_zoom in Hp. cbn in Hp. rewrite branch_flip in Hp. rewrite Et in Hp.
    apply wp_bind. eapply wp_rotate; [exact Hp|]. clear h Hp. intros h Hp. rewrite wp_ret.
    rewrite <- (ptr_branch tr d2 true p s1 B). eapply (wp_insert_outer d2 x C g u k _ np).
    + by destruct d2.
    + apply placed_zoom. cbn. by rewrite Hc in Hp.
    + intros h' Hp'. apply HQ. exists x, (branch d2 true p s1 B), C. split_and!; [done|done|].
      right. split; [done|]. exists B. by rewrite Hc in Et.
  - assert (d1 = d2) as -> by by destruct d1, d2. rewrite wp_ret.
    eapply wp_insert_outer; [done|exact Hp|]. intros h' Hp'. apply HQ.
    exists p, t, s1. split_and!; [done|done|]. by left.
Qed.

Lemma wp_insert_sub d1 d2 p s1 g u k h np t (Q : Z → rbheap → Prop) :
  color t = true →
  placed h np (mk_frame d1 true p s1 :: mk_frame d2 false g u :: k) t →
  (∀ y h', after_sub d1 d2 p s1 g u k t y np h' → Q y h') →
  wp (rb_insert_sub d2 tr (ptr t)) h Q.
Proof.
  intros Hc Hp HQ. assert (t ≠ Leaf) as Ht by by intros ->. unfold rb_insert_sub.
  apply wp_bind. eapply wp_grand; [exact Hp|done|].
  apply wp_bind. eapply wp_rb_at; [by apply (placed_uncle _ _ _ _ _ _ _ _ _ Hp)|].
  rewrite child_there. assert (∃ np' k', placed h np' k' u) as (np' & k' & Hu).
  { apply placed_zoom in Hp. apply placed_sibling in Hp as [np' Hp]. eauto. }
  destruct (placed_ptr _ _ _ _ _ _ _ Hu) as (n & Hn & Hcu & _).
  apply wp_bind. eapply wp_rb_at; [exact Hn|]. rewrite Hcu.
  destruct (color u) eqn:Hcol.
  - destruct u as [|cu ul ua ur]; [done|]. eapply wp_insert_red; [done|exact Hp|].
    intros h' Hp'. apply HQ. unfold after_sub. by rewrite Hcol.
  - eapply wp_insert_black; [done|exact Hcol|exact Hp|done].
Qed.

(** *** The loop *)

(** The node at place [k] is red, and only its parent may be red too; the order is [w]. *)
Definition fixing (w : list Z) (k : list frame) (t : tree) : Prop :=
  ∃ n c l a r, t = Node true l a r ∧ rb false n l ∧ rb false n r ∧ rb_ctx c n k ∧
    inorder (plug k t) = w.

Lemma fixing_red w f k t : fixing w (f :: k) t → fc f = true →
  ∃ d1 p s1 d2 g u k2, f = mk_frame d1 true p s1 ∧ k = mk_frame d2 false g u :: k2.
Proof.
  intros (n & c & l & a & r & -> & _ & _ & Hk & _) Hf. inversion Hk; subst; [done|].
  match goal with H : rb_ctx true _ _ |- _ => inversion H; subst end.
  eexists _, _, _, _, _, _, _. split; reflexivity.
Qed.

(** A round moves up or ends below a black node. *)
Lemma fixing_step w d1 p s1 d2 g u k t y np h' :
  fixing w (mk_frame d1 true p s1 :: mk_frame d2 false g u :: k) t →
  after_sub d1 d2 p s1 g u k t y np h' →
  ∃ k' t', y = ptr t' ∧ placed h' np k' t' ∧ fixing w k' t' ∧ (length k' < S (S (length k)))%nat.
Proof.
  intros (n & c & l & a & r & Et & Hl & Hr & Hk & Ew) Ha.
  inversion Hk as [| |? ? ? ? ? Hs Hk1]; subst. inversion Hk1 as [|? cu c' ? ? ? ? Hu Hk2|]; subst.
  unfold after_sub in Ha. assert (rb true n (Node true l a r)) as Ht by by constructor.
  destruct (color u) eqn:Hcu.
  - destruct Ha as [-> Hp]. destruct u as [|cu' ul ua ur]; [done|].
    assert (rb false (S n) (branch d1 false p (Node true l a r) s1)) as H1
      by (eapply (rb_branch d1 false); [exact Ht|exact Hs|done]).
    assert (rb false (S n) (Node false ul ua ur)) as H2
      by (cbn in Hcu; subst; inversion Hu; subst; by econstructor).
    exists k, (branch d2 true g (branch d1 false p (Node true l a r) s1) (Node false ul ua ur)).
    split_and!; [by destruct d2|exact Hp| |cbn; lia].
    exists (S n), c'. destruct d2; do 3 eexists; (split_and!; [reflexivity|done..|]);
      cbn [plug fd fc fa fs]; apply inorder_plug_eq; by rewrite !inorder_branch.
  - destruct Ha as (p' & t' & s' & -> & Hp & Hcase).
    assert (cu = false) as -> by (by rewrite (rb_color _ _ _ Hu) in Hcu).
    assert (rb true n t' ∧ rb false n s' ∧
      inorder (branch d2 true g (branch d1 true p (Node true l a r) s1) u) =
      inorder (branch d2 false p' t' (branch d2 true g s' u))) as (Ht' & Hs' & Ein).
    { destruct Hcase as [(-> & -> & -> & ->)|(-> & B & EB & ->)].
      - split_and!; [done..|]. rewrite !inorder_branch. destruct d2; cbn; by rewrite <- ?app_assoc.
      - assert (rb false n B ∧ rb false n s') as [HB Hs']
          by (destruct d2; injection EB; intros; by subst).
        split_and!; [by apply (rb_branch d2 true n p s1 B false false)|done|].
        rewrite EB, !inorder_branch. destruct d2; cbn; by rewrite <- ?app_assoc. }
    exists (mk_frame d2 false p' (branch d2 true g s' u) :: k), t'.
    split_and!; [done|exact Hp| |cbn; lia].
    assert (rb true n (branch d2 true g s' u)) as Hg by by apply (rb_branch d2 true n g s' u false false).
    inversion Ht' as [|? l' a' r' Hl' Hr'|]; subst. exists n, true, l', a', r'.
    split_and!; [done..|by econstructor|].
    cbn [plug fd fc fa fs]. apply inorder_plug_eq. rewrite <- Ein. by rewrite !inorder_branch.
Qed.

(** At a place that may be red, blackening the root is all that is left. *)
Lemma fixing_done w k t : fixing w k t → (match k with [] => true | f :: _ => negb (fc f) end) →
  inorder (blacken (plug k t)) = w ∧ ∃ m, rb false m (blacken (plug k t)).
Proof.
  intros (n & c & l & a & r & -> & Hl & Hr & Hk & Ew) Hc. rewrite inorder_blacken. split; [done|].
  destruct k as [|f k]; [exists (S n); by econstructor|].
  destruct (rb_ctx_plug true n (f :: k) c (Node true l a r)) as [m Hm]; [by constructor|done| |].
  - intros _. by inversion Hk; subst.
  - exists m. destruct (plug _ _) as [|[] ? ? ?]; try done; by inversion Hm.
Qed.

Lemma wp_insert_loop w k t h np fuel (Q : unit → rbheap → Prop) :
  placed h np k t → fixing w k t → (length k < fuel)%nat →
  (∀ W h', placed h' np [] W → inorder (blacken W) = w → (∃ m, rb false m (blacken W)) →
     W ≠ Leaf → Q tt h') →
  wp (loop fuel (λ x,
    p ← parent_of x;
    np ← rb_get p;
    if negb (red np) then mret (inr tt) else
    ng ← rb_get (rb_parent np);
    x ← (if p =? rb_left ng then rb_insert_sub DL tr x else rb_insert_sub DR tr x);
    mret (inl x)) (ptr t)) h Q.
Proof.
  intros Hp Hfx Hfuel HQ. revert k t h Hp Hfx Hfuel.
  induction fuel as [|fuel IH]; intros k t h Hp Hfx Hfuel; [lia|]. cbn [loop].
  pose proof Hfx as (n & c & l & a & r & Et & _). assert (t ≠ Leaf) as Ht by by subst.
  assert (color t = true) as Hct by by subst.
  apply wp_bind, wp_bind. eapply wp_parent_of; [exact Hp|done|].
  apply wp_bind. eapply wp_rb_at; [by apply (placed_up _ _ _ _ _ _ _ Hp)|].
  destruct (red (hole tr k (ptr t)).2) eqn:Hred.
  - destruct k as [|f k1]; [done|]. cbn [hole snd] in Hred. rewrite red_node in Hred.
    destruct (fixing_red _ _ _ _ Hfx Hred) as (d1 & p & s1 & d2 & g & u & k2 & -> & ->).
    cbn [hole snd negb]. rewrite parent_node. cbn [up fd fc fa fs].
    apply wp_bind. eapply wp_rb_at; [by apply (placed_uncle _ _ _ _ _ _ _ _ _ Hp)|].
    pose proof Hp as Hz. apply placed_zoom in Hz. cbn [fd fc fa fs] in Hz.
    pose proof (placed_side _ _ _ _ _ _ _ _ DL Hz ltac:(by destruct d1)) as Hside.
    cbn [fd fc fa fs child] in Hside. rewrite ptr_branch in Hside. cbn [fa]. rewrite Hside.
    assert (wp (if bool_decide (DL = d2) then rb_insert_sub DL tr (ptr t) else rb_insert_sub DR tr (ptr t)) h
      (λ y h', after_sub d1 d2 p s1 g u k2 t y np h')) as Hsub.
    { case_bool_decide as Hd; [subst d2|assert (d2 = DR) as -> by by destruct d2];
        (eapply wp_insert_sub; [done|exact Hp|auto]). }
    apply wp_bind. eapply wp_conseq; [exact Hsub|]. intros y h' Ha. rewrite wp_ret.
    destruct (fixing_step _ _ _ _ _ _ _ _ _ _ _ _ Hfx Ha) as (k' & t' & -> & Hp' & Hfx' & Hlen).
    apply (IH k' t' h'); [done|done|]. cbn in Hfuel. lia.
  - cbn [negb]. rewrite wp_ret. rewrite wp_ret.
    destruct (fixing_done _ _ _ Hfx) as [Ew Hm].
    { destruct k as [|f k]; [done|]. cbn [hole snd] in Hred. rewrite red_node in Hred. by rewrite Hred. }
    apply (HQ (plug k t)); [by apply -> placed_plug|done|done|].
    intros E0. apply (f_equal (λ t, length (inorder t))) in E0.
    rewrite inorder_plug, Et, !length_app in E0. cbn in E0. rewrite length_app in E0. cbn in E0. lia.
Qed.

(** ** Going down *)

Context (z : Z).
Abbreviation cmp := (rb_compare tr).

(** On the way down to where [z] belongs. *)
Fixpoint descent (k : list frame) : Prop :=
  match k with
  | [] => True
  | f :: k' => fd f = (if 0 <? cmp (fa f) z then DL else DR) ∧ descent k'
  end.

Lemma wp_descend k t h np fuel (Q : Z → rbheap → Prop) :
  placed h np k t → descent k → (length (inorder t) < fuel)%nat →
  (∀ k', plug k' Leaf = plug k t → descent k' → Q (up k') h) →
  wp (loop fuel (λ '(x, y),
    if x =? rb_nil tr then mret (inr y) else
    nx ← rb_get x;
    mret (inl (if 0 <? cmp x z then rb_left nx else rb_right nx, x))) (ptr t, up k)) h Q.
Proof.
  revert k fuel. induction t as [|c l IHl a r IHr]; intros k fuel Hp Hd Hfuel HQ;
    (destruct fuel as [|fuel]; [lia|]); cbn [loop]; apply wp_bind.
  - cbn [ptr]. rewrite Z.eqb_refl, wp_ret, wp_ret. by apply HQ.
  - pose proof (placed_real _ _ _ _ _ _ _ Hp ltac:(done)) as Hreal. cbn [ptr] in *.
    rewrite (proj2 (Z.eqb_neq _ _) Hreal). apply wp_bind.
    eapply wp_rb_at; [by apply (placed_node tr L h0 h np k DL c a l r)|].
    rewrite wp_ret. cbn in Hfuel. rewrite length_app in Hfuel. cbn in Hfuel.
    cbn [rb_left rb_right node_of]. destruct (0 <? cmp a z) eqn:Hc.
    + apply (IHl (mk_frame DL c a r :: k)); [by apply placed_zoom| |lia|done].
      split; [cbn; by rewrite Hc|done].
    + apply (IHr (mk_frame DR c a l :: k)); [by apply placed_zoom| |lia|done].
      split; [cbn; by rewrite Hc|done].
Qed.

(** [z] is linked in at the end of the way. *)
Lemma wp_insert_binary nz np W h (Q : unit → rbheap → Prop) :
  holds h ((z, nz) :: all_cells tr np [] W) →
  (∀ k c h', plug k Leaf = W → descent k → placed h' np k (Node c Leaf z Leaf) → Q tt h') →
  wp (rb_insert_binary tr z) h Q.
Proof.
  intros Hh HQ. unfold rb_insert_binary.
  apply wp_bind. eapply (wp_rb_upd _ _ 0); [exact Hh|done|]. clear h Hh. intros h Hh.
  cbn [list_insert insert] in Hh. pose proof (holds_tail _ _ _ _ _ Hh) as Hp.
  apply wp_bind. eapply wp_rb_at; [by apply (placed_root tr L h0 h np [] W Hp)|]. cbn [plug rb_left].
  apply wp_bind, wp_gets, wp_bind.
  eapply (wp_descend [] W); [exact Hp|done|pose proof (placed_size _ _ _ _ _ _ _ Hp); cbn; lia|].
  intros k EW Hd. cbn [plug] in EW.
  assert (holds h ((z, set_left (rb_nil tr) (set_right (rb_nil tr) nz)) :: hole tr k (rb_nil tr) ::
    nil_cell tr np :: around tr k)) as Hk.
  { eapply holds_perm; [|exact Hh]. apply Permutation_cons; [done|].
    rewrite <- EW, <- all_cells_plug. unfold all_cells. cbn [cells ptr]. solve_Permutation. }
  apply wp_bind. eapply (wp_rb_upd _ _ 0); [exact Hk|done|]. clear h Hh Hp Hk. intros h Hh.
  cbn [list_insert insert set_parent set_left set_right rb_left rb_right red] in Hh.
  assert (∀ h', holds h' ((z, mk_rb (red nz) (up k) (rb_nil tr) (rb_nil tr)) :: hole tr k z ::
    nil_cell tr np :: around tr k) → Q tt h') as Hend.
  { intros h' Hh'. apply (HQ k (red nz)); [done|done|]. eapply holds_perm; [|exact Hh'].
    unfold all_cells. cbn [cells ptr app]. solve_Permutation. }
  destruct k as [|f k]; cbn [up]; rewrite ?Z.eqb_refl; cbn [orb].
  - eapply (wp_rb_upd _ _ 1); [exact Hh|done|]. exact Hend.
  - assert ((fa f =? rb_root tr) = false) as ->.
    { apply Z.eqb_neq. intros E0. pose proof (ho_nodup _ _ _ _ Hh) as Hnd. cbn in Hnd.
      apply NoDup_cons in Hnd as [_ [Hf _]%NoDup_cons]. apply Hf.
      rewrite E0, elem_of_cons. right. destruct (root_in tr k) as [Er|Er];
        rewrite fmap_app, elem_of_app; right; cbn; [|by right]. rewrite Er. by left. }
    destruct Hd as [Hdf _]. cbn [orb]. destruct f as [d c a s]. cbn [fd fa] in *. subst d.
    destruct (0 <? cmp a z); (eapply (wp_rb_upd _ _ 1); [exact Hh|done|]); exact Hend.
Qed.

(** ** Insertion *)

Lemma wp_rb_insert nz np W m h (Q : unit → rbheap → Prop) :
  holds h ((z, nz) :: all_cells tr np [] W) → rb false m W →
  (∀ k W' h', plug k Leaf = W → descent k → placed h' np [] W' →
     inorder W' = before k ++ z :: after k → (∃ m', rb false m' W') → Q tt h') →
  wp (rb_insert tr z) h Q.
Proof.
  intros Hh Hm HQ. unfold rb_insert. apply wp_bind. eapply wp_insert_binary; [exact Hh|].
  clear h Hh. intros k c h EW Hd Hp.
  apply wp_bind. eapply wp_recolor; [exact Hp|]. clear h Hp. intros h Hp.
  assert (fixing (before k ++ z :: after k) k (Node true Leaf z Leaf)) as Hfx.
  { destruct (rb_plug_ctx k Leaf m false) as (ct & n & c' & Hl & Hk & _); [by rewrite EW|done|].
    inversion Hl; subst. exists 0%nat, c', Leaf, z, Leaf.
    split_and!; [done|constructor|constructor|done|]. by rewrite inorder_plug. }
  apply wp_bind, wp_gets, wp_bind.
  eapply (wp_insert_loop _ k (Node true Leaf z Leaf)); [exact Hp|exact Hfx| |].
  { pose proof (placed_size _ _ _ _ _ _ _ Hp). lia. }
  clear h Hp. intros W1 h Hp Ew Hm1 Hne.
  apply wp_bind. eapply wp_rb_at; [by apply (placed_root tr L h0 h np [] W1 Hp)|]. cbn [plug rb_left].
  destruct W1 as [|c1 l1 a1 r1]; [done|].
  apply wp_bind. eapply wp_recolor; [exact Hp|]. clear h Hp. intros h Hp.
  apply wp_bind. eapply wp_rb_at; [by eapply placed_nil|].
  apply wp_bind. eapply wp_rb_at; [by apply (placed_root tr L h0 h np [] _ Hp)|].
  apply wp_assert. split; [done|]. by apply (HQ k (Node false l1 a1 r1)).
Qed.
End insert.

(** ** The order *)

(** What a comparison function promises. *)
Class CompareOk (cmp : Z → Z → Z) := {
  cmp_flip a b : 0 < cmp a b → cmp b a ≤ 0;
  cmp_trans a b c : cmp a b ≤ 0 → cmp b c ≤ 0 → cmp a c ≤ 0
}.

Definition rb_sorted (cmp : Z → Z → Z) : list Z → Prop := StronglySorted (λ a b, cmp a b ≤ 0).

Lemma sorted_app cmp l1 l2 : rb_sorted cmp (l1 ++ l2) ↔
  rb_sorted cmp l1 ∧ rb_sorted cmp l2 ∧ ∀ a b, a ∈ l1 → b ∈ l2 → cmp a b ≤ 0.
Proof.
  unfold rb_sorted. induction l1 as [|a l1 IH]; cbn.
  - split; [|tauto]. intros Hs. split_and!; [constructor|done|]. by intros ?? ?%elem_of_nil.
  - split.
    + intros [Hs Hf]%StronglySorted_inv. apply IH in Hs as (H1 & H2 & H3).
      rewrite Forall_app, !Forall_forall in Hf. destruct Hf as [Hf1 Hf2].
      split_and!; [constructor; [done|by apply Forall_forall]|done|].
      intros x y [->|Hx]%elem_of_cons Hy; auto.
    + intros ([H1 Hf]%StronglySorted_inv & H2 & H3). constructor.
      * apply IH. split_and!; [done..|]. intros x y Hx Hy. apply H3; [by right|done].
      * apply Forall_app. split; [done|]. apply Forall_forall. intros y Hy. apply H3; [by left|done].
Qed.

Section order.
Context (tr : Rb_tree) `{CO : !CompareOk (rb_compare tr)} (z : Z).
Abbreviation cmp := (rb_compare tr).

Lemma sorted_cons_iff a l : rb_sorted cmp (a :: l) ↔ rb_sorted cmp l ∧ ∀ b, b ∈ l → cmp a b ≤ 0.
Proof.
  rewrite (sorted_app cmp [a] l). split.
  - intros (_ & H1 & H2). split; [done|]. intros b Hb. by apply H2; [left|].
  - intros [H1 H2]. split_and!; [by repeat constructor|done|]. intros x b ->%list_elem_of_singleton Hb; by apply H2.
Qed.

(** The way down splits the order at [z]. *)
Lemma descent_split k m :
  rb_sorted cmp (before k ++ m ++ after k) → descent tr z k →
  (∀ b, b ∈ before k → cmp b z ≤ 0) ∧ (∀ b, b ∈ after k → 0 < cmp b z).
Proof.
  revert m. induction k as [|[d c a s] k IH]; intros m Hs Hd; [split; by intros b ?%elem_of_nil|].
  destruct Hd as [Hda Hd]. cbn [fd fa] in Hda. cbn in *. destruct (Z.ltb_spec 0 (cmp a z)); subst d.
  - destruct (IH (m ++ a :: inorder s)) as [IH1 IH2]; [by rewrite <- app_assoc|done|].
    split; [done|]. intros b Hb.
    apply sorted_app in Hs as (_ & Hs & _). apply sorted_app in Hs as (_ & Hs & _).
    apply sorted_cons_iff in Hs as [_ Hs]. rewrite elem_of_cons in Hb. destruct Hb as [->|Hb]; [done|].
    specialize (Hs b Hb). destruct (Z.ltb_spec 0 (cmp b z)); [done|]. exfalso.
    pose proof (cmp_trans a b z Hs). lia.
  - destruct (IH (inorder s ++ a :: m)) as [IH1 IH2]; [|done|].
    { rewrite <- !app_assoc in Hs. cbn in *. by rewrite <- app_assoc. }
    split; [|done]. intros b. rewrite !elem_of_app, list_elem_of_singleton.
    intros [Hb|[Hb| ->]]; [by apply IH1| |done].
    apply (cmp_trans b a z); [|done]. apply sorted_app in Hs as (Hs & _).
    rewrite app_assoc in Hs. apply sorted_app in Hs as (_ & _ & Hs).
    apply Hs; [set_solver|by left].
Qed.

Lemma sorted_insert l1 l2 :
  rb_sorted cmp (l1 ++ l2) → (∀ b, b ∈ l1 → cmp b z ≤ 0) → (∀ b, b ∈ l2 → 0 < cmp b z) →
  rb_sorted cmp (l1 ++ z :: l2).
Proof.
  intros (H1 & H2 & H3)%sorted_app Hl Hr. apply sorted_app. split_and!; [done| |].
  - apply sorted_cons_iff. split; [done|]. intros b Hb. apply cmp_flip, Hr, Hb.
  - intros a b Ha [->|Hb]%elem_of_cons; [by apply Hl|by apply H3].
Qed.
End order.

(** The store holds a red-black tree of the nodes [l], in order. *)
Definition rb_rep (tr : Rb_tree) (h : rbheap) (l : list Z) : Prop :=
  ∃ np W, placed tr (rb_nil tr :: rb_root tr :: l) h h np [] W ∧ inorder W = l ∧ ∃ m, rb false m W.

Lemma rb_insert_ok tr `{!CompareOk (rb_compare tr)} h l z :
  rb_rep tr h l → rb_sorted (rb_compare tr) l → is_Some (h !! z) → z ∉ rb_nil tr :: rb_root tr :: l →
  ∃ h' l1 l2, rb_insert tr z h = Ok (tt, h') ∧ l = l1 ++ l2 ∧ rb_rep tr h' (l1 ++ z :: l2) ∧
    rb_sorted (rb_compare tr) (l1 ++ z :: l2) ∧
    (∀ b, b ∈ l1 → rb_compare tr b z ≤ 0) ∧ (∀ b, b ∈ l2 → 0 < rb_compare tr b z) ∧
    (∀ a, a ∉ rb_nil tr :: rb_root tr :: z :: l → h' !! a = h !! a).
Proof.
  intros (np & W & Hp & EW & m & Hm) Hs [nz Hz] Hn.
  assert (wp (rb_insert tr z) h (λ _ h', ∃ l1 l2, l = l1 ++ l2 ∧ rb_rep tr h' (l1 ++ z :: l2) ∧
    rb_sorted (rb_compare tr) (l1 ++ z :: l2) ∧
    (∀ b, b ∈ l1 → rb_compare tr b z ≤ 0) ∧ (∀ b, b ∈ l2 → 0 < rb_compare tr b z) ∧
    (∀ a, a ∉ rb_nil tr :: rb_root tr :: z :: l → h' !! a = h !! a)))
    as (h' & Hr & l1 & l2 & H)%wp_unit; [|by exists h', l1, l2].
  eapply (wp_rb_insert tr (rb_nil tr :: rb_root tr :: z :: l) h z nz np W m); [|done|].
  { destruct Hp as [Hnd Hc Hi _]. split.
    - apply NoDup_cons. split; [|done]. intros Hin. by apply Hn, Hi.
    - intros a n. rewrite elem_of_cons. intros [[= -> ->]|Ha]; auto.
    - intros a. cbn [fmap list_fmap fst]. rewrite elem_of_cons. intros [->|Ha%Hi]; set_solver.
    - done. }
  intros k W' h' Ek Hd [Hnd Hc Hi Hf] EW' Hm'.
  assert (l = before k ++ after k) as El by by rewrite <- EW, <- Ek, inorder_plug.
  destruct (descent_split tr z k [] ltac:(by rewrite El in Hs) Hd) as [H1 H2].
  exists (before k), (after k). split_and!; try done.
  - exists np, W'. split; [|by rewrite EW']. split; try done.
    intros a Ha. apply Hi in Ha. rewrite El in Ha. set_solver.
  - apply sorted_insert; [done|by rewrite <- El|done..].
Qed.

(** ** A concrete tree *)

(** The store that has the cells of a tree. *)
Lemma rep_of_cells tr np W m h l :
  NoDup (all_cells tr np [] W).*1 → list_to_map (all_cells tr np [] W) ⊆ h → rb false m W → inorder W = l →
  rb_rep tr h l.
Proof.
  intros Hn Hsub Hm <-. exists np, W. split; [|by split; [|exists m]]. split; [done| | |done].
  - intros a n Ha. eapply lookup_weaken; [|exact Hsub]. by apply elem_of_list_to_map_1.
  - intros a. by rewrite (all_addrs tr np [] W).
Qed.

(** Nodes compare by address; 20 is black, 10, 30 and 40 red or black below it, and
    25 is a node not in the tree yet. *)
Definition demo_tree : Rb_tree := mk_tree Z.sub 1 2.
Definition demo_shape : tree :=
  Node false (Node false Leaf 10 Leaf) 20 (Node false Leaf 30 (Node true Leaf 40 Leaf)).
Definition demo_nodes : rbheap :=
  <[25 := mk_rb false 0 0 0]> (list_to_map (all_cells demo_tree 7 [] demo_shape)).

#[export] Instance sub_CompareOk : CompareOk Z.sub.
Proof. split; lia. Qed.

Lemma demo_nodup : NoDup (all_cells demo_tree 7 [] demo_shape).*1.
Proof. refine (bool_decide_unpack _ _). vm_compute. exact I. Qed.

Lemma demo_rep : rb_rep demo_tree demo_nodes [10; 20; 30; 40].
Proof.
  apply (rep_of_cells demo_tree 7 demo_shape 2); [exact demo_nodup| |repeat econstructor|done].
  apply insert_subseteq. by vm_compute.
Qed.

Lemma demo_sorted : rb_sorted Z.sub [10; 20; 30; 40].
Proof. repeat constructor; lia. Qed.
