(* ===== verification/RbDelete.v ===== *)
(** * Red-black trees: deletion

    A node leaves the order it is in; the tree stays red-black, and the rest of
    the store as it is. *)
From Stdlib Require Import Sorted.
From S2P Require Import Prelude Rbtree RbRep RbSpec.

Section fixup.
Context (tr : Rb_tree) (L : list Z) (h0 : rbheap) (root0 : Z).
Abbreviation placed := (placed tr L h0).
Abbreviation holds := (holds L h0).
Abbreviation up := (up tr).
Abbreviation ptr := (ptr tr).

(** A place whose node may be [nil]: then [nil] knows its parent. *)
Definition at_place (h : rbheap) (np : Z) (k : list frame) (t : tree) : Prop :=
  placed h np k t ∧ (t = Leaf → np = up k).

Lemma wp_parent_at h np k t (Q : Z → rbheap → Prop) :
  at_place h np k t → Q (up k) h → wp (parent_of (ptr t)) h Q.
Proof.
  intros [Hp Hl] HQ. destruct (placed_ptr _ _ _ _ _ _ _ Hp) as (n & Hn & _ & Hpa).
  unfold parent_of. apply wp_bind. eapply wp_rb_at; [exact Hn|]. rewrite wp_ret, Hpa.
  destruct (decide _); [|done]. by rewrite Hl.
Qed.

(** The sibling's address, read through the parent. *)
Lemma wp_sibling_of {X} h np d pc p s k t (m : Z → M rbheap X) (Q : X → rbheap → Prop) :
  at_place h np (mk_frame d pc p s :: k) t → wp (m (ptr s)) h Q →
  wp (p ← parent_of (ptr t); np ← rb_get p; m (child (flip d) np)) h Q.
Proof.
  intros Hp HQ. apply wp_bind. eapply wp_parent_at; [exact Hp|]. destruct Hp as [Hp _].
  apply wp_bind. eapply wp_rb_at; [by apply (placed_up _ _ _ _ _ _ _ Hp)|]. cbn [hole snd].
  cbn [fd fc fa fs]. by rewrite child_there.
Qed.

(** The sibling's subtree as a place of its own, and back. *)
Lemma to_sibling h np d pc p s k t :
  placed h np (mk_frame d pc p s :: k) t ↔ placed h np (mk_frame (flip d) pc p t :: k) s.
Proof. rewrite !placed_zoom. cbn. by rewrite branch_flip. Qed.

(** Colours of a subtree's children. *)
Lemma placed_colors h np k d c a t s : placed h np k (branch d c a t s) →
  (∃ n, h !! ptr t = Some n ∧ red n = color t) ∧ (∃ n, h !! ptr s = Some n ∧ red n = color s).
Proof.
  intros Hp. pose proof Hp as Hs. rewrite <- (branch_flip d) in Hs.
  apply (placed_zoom _ _ _ h np (mk_frame d c a s) k t) in Hp.
  apply (placed_zoom _ _ _ h np (mk_frame (flip d) c a t) k s) in Hs.
  destruct (placed_ptr _ _ _ _ _ _ _ Hp) as (n & ? & ? & _).
  destruct (placed_ptr _ _ _ _ _ _ _ Hs) as (m & ? & ? & _). split; eauto.
Qed.

(** *** The sibling is black *)

(** The far child red: the trouble ends. *)
Lemma wp_fix_far d pc p wc w wl fl fa0 fr k t h np (Q : Z → rbheap → Prop) :
  at_place h np (mk_frame d pc p (branch d wc w wl (Node true fl fa0 fr)) :: k) t →
  (∀ h', placed h' np k (branch d pc w (branch d false p t wl) (Node false fl fa0 fr)) → Q root0 h') →
  wp (p ← parent_of (ptr t);
      np ← rb_get p;
      rb_upd w (set_red (red np));;
      p ← parent_of (ptr t); rb_upd p (set_red false);;
      nw ← rb_get w;
      rb_upd (child (flip d) nw) (set_red false);;
      p ← parent_of (ptr t); rb_rotate d tr p;;
      mret root0) h Q.
Proof.
  intros Hp HQ. apply wp_bind. eapply wp_parent_at; [exact Hp|]. destruct Hp as [Hp Hl].
  apply wp_bind. eapply wp_rb_at; [by apply (placed_up _ _ _ _ _ _ _ Hp)|].
  cbn [hole snd fd fc fa fs up]. rewrite red_node. apply to_sibling in Hp.
  apply wp_bind. eapply wp_recolor_branch; [exact Hp|]. clear h Hp. intros h Hp.
  apply to_sibling in Hp. rewrite ?flip_flip in Hp.
  apply wp_bind. eapply wp_parent_at; [by split; [exact Hp|exact Hl]|].
  apply wp_bind. eapply wp_recolor_up; [exact Hp|]. clear h Hp. intros h Hp. cbn in Hp.
  apply to_sibling in Hp. pose proof (placed_node _ _ _ _ _ _ _ _ _ _ _ Hp) as Hw.
  apply wp_bind. eapply wp_rb_at; [exact Hw|]. rewrite child_there. cbn [ptr].
  rewrite <- (branch_flip d) in Hp.
  apply (placed_zoom _ _ _ h np (mk_frame (flip d) pc w wl)) in Hp.
  apply wp_bind. eapply wp_recolor; [exact Hp|]. clear h Hp Hw. intros h Hp.
  apply placed_zoom in Hp. cbn in Hp. rewrite branch_flip in Hp.
  apply to_sibling in Hp. rewrite ?flip_flip in Hp.
  apply wp_bind. eapply wp_parent_at; [by split; [exact Hp|exact Hl]|].
  apply placed_zoom in Hp. cbn in Hp. apply wp_bind. eapply wp_rotate; [exact Hp|].
  clear h Hp. intros h Hp. rewrite wp_ret. by apply HQ.
Qed.

(** The near child red: a rotation makes it the sibling, with a red far child. *)
Lemma wp_fix_near {X} d pc p w nl na nr wr k t h np (m : Z → M rbheap X) (Q : X → rbheap → Prop) :
  at_place h np (mk_frame d pc p (branch d false w (branch d true na nl nr) wr) :: k) t →
  (∀ h', at_place h' np (mk_frame d pc p (branch d false na nl (branch d true w nr wr)) :: k) t →
     wp (m na) h' Q) →
  wp (rb_upd na (set_red false);;
      rb_upd w (set_red true);;
      rb_rotate (flip d) tr w;;
      p ← parent_of (ptr t); np ← rb_get p; m (child (flip d) np)) h Q.
Proof.
  intros [Hp Hl] HQ. apply to_sibling in Hp.
  apply (placed_zoom _ _ _ h np (mk_frame d false w wr)) in Hp.
  apply wp_bind. eapply wp_recolor_branch; [exact Hp|]. clear h Hp. intros h Hp.
  apply placed_zoom in Hp. cbn in Hp.
  apply wp_bind. eapply wp_recolor_branch; [exact Hp|]. clear h Hp. intros h Hp.
  rewrite <- branch_flip, <- (branch_flip d) in Hp.
  apply wp_bind. eapply wp_rotate; [exact Hp|]. clear h Hp. intros h Hp.
  rewrite !branch_flip in Hp. apply to_sibling in Hp. rewrite ?flip_flip in Hp.
  eapply wp_sibling_of; [by split; [exact Hp|exact Hl]|]. rewrite ptr_branch.
  apply HQ. by split.
Qed.

(** *** What a round leaves *)

(** One black node too few, which a red top can make up for. *)
Definition short (n : nat) (t : tree) : Prop :=
  rb false n t ∨ color t = true ∧ rb false (S n) (blacken t).

(** The loop goes on at [x]. *)
Definition going (w : list Z) (x : Z) (h : rbheap) np k t : Prop :=
  ∃ n cc, x = ptr t ∧ at_place h np k t ∧ short n t ∧ rb_ctx cc (S n) k ∧
    inorder (plug k t) = w ∧ (root0 = ptr (plug k t) ∨ color t = true).

(** The tree is as it should be; the loop leaves by its [root] test. *)
Definition finished (w : list Z) (h : rbheap) : Prop :=
  ∃ np W n, placed h np [] W ∧ (∃ m, rb false m W) ∧ inorder W = w ∧
    h !! root0 = Some n ∧ red n = false.

Lemma ptr_plug k t t' : ptr t = ptr t' → ptr (plug k t) = ptr (plug k t').
Proof.
  revert t t'. induction k as [|f k IH]; intros t t' Et; [done|]. cbn. apply IH. by rewrite !ptr_branch.
Qed.

Lemma ptr_plug_cons f k t t' : ptr (plug (f :: k) t) = ptr (plug (f :: k) t').
Proof. cbn. apply ptr_plug. by rewrite !ptr_branch. Qed.

Lemma blacken_branch d c a t s : blacken (branch d c a t s) = branch d false a t s.
Proof. by destruct d. Qed.
Lemma color_branch d c a t s : color (branch d c a t s) = c.
Proof. by destruct d. Qed.

(** The heights at a place with a sibling. *)
Record sided n pc cc cl cr wl wr t k : Prop := {
  sd_t : rb false n t;
  sd_wl : rb cl n wl;
  sd_wr : rb cr n wr;
  sd_ctx : rb_ctx cc (if pc : bool then S n else S (S n)) k;
  sd_pc : pc = true → cc = true
}.

(** The end: everything is in place. *)
Lemma far_finishes w0 d pc cc cl n p w wl fl fa0 fr k t h np :
  sided n pc cc cl true wl (Node true fl fa0 fr) t k →
  inorder (plug k (branch d pc p t (branch d false w wl (Node true fl fa0 fr)))) = w0 →
  root0 = p ∨ (∃ f k', k = f :: k' ∧ root0 = ptr (plug k t)) →
  placed h np k (branch d pc w (branch d false p t wl) (Node false fl fa0 fr)) → finished w0 h.
Proof.
  intros [Ht Hl Hr Hk Hpc] Ew Hroot Hp.
  assert (rb false (S n) (branch d false p t wl)) as H1 by by eapply (rb_branch d false).
  assert (rb false (S n) (Node false fl fa0 fr)) as H2 by (inversion Hr; subst; by econstructor).
  set (t' := branch d pc w _ _) in *.
  destruct (rb_ctx_plug pc (if pc then S n else S (S n)) k cc t') as [m Hm]; [|done|done|].
  { pose proof (rb_branch d pc (S n) w _ _ false false H1 H2 ltac:(done)) as H3. by destruct pc. }
  assert (∃ n, h !! root0 = Some n ∧ red n = false) as (nd & Hn & Hred).
  { destruct Hroot as [-> |(f & k' & -> & ->)].
    - apply (placed_zoom _ _ _ h np (mk_frame d pc w (Node false fl fa0 fr)) k) in Hp.
      eexists. split; [by eapply placed_node|by rewrite red_node].
    - rewrite (ptr_plug_cons f k' t t'). apply placed_plug in Hp.
      destruct (placed_ptr _ _ _ _ _ _ _ Hp) as (nd & Hn & Hc & _). exists nd. split; [done|].
      by rewrite Hc, (rb_color _ _ _ Hm). }
  exists np, (plug k t'), nd. split_and!; [by apply -> placed_plug|by exists m| |done|done].
  rewrite <- Ew. apply inorder_plug_eq. unfold t'. rewrite !inorder_branch.
  destruct d; cbn; by rewrite <- ?app_assoc.
Qed.

(** Both children black: the sibling turns red and the parent is short. *)
Lemma near_goes_up w0 d pc cc n p w wl wr k t h np :
  sided n pc cc false false wl wr t k →
  inorder (plug k (branch d pc p t (branch d false w wl wr))) = w0 →
  pc = true ∨ root0 = ptr (plug k (branch d pc p t (branch d false w wl wr))) →
  placed h np k (branch d pc p t (branch d true w wl wr)) →
  going w0 p h np k (branch d pc p t (branch d true w wl wr)).
Proof.
  intros [Ht Hl Hr Hk Hpc] Ew Hroot Hp.
  assert (rb true n (branch d true w wl wr)) as H1 by by apply (rb_branch d true n w wl wr false false).
  assert (rb false (S n) (branch d false p t (branch d true w wl wr))) as H2
    by by eapply (rb_branch d false).
  exists (if pc then n else S n), cc. split_and!.
  - by rewrite ptr_branch.
  - split; [done|by destruct d].
  - unfold short. destruct pc; [right|by left]. rewrite color_branch, blacken_branch. by split.
  - by destruct pc.
  - rewrite <- Ew. apply inorder_plug_eq. by rewrite !inorder_branch.
  - rewrite color_branch. destruct pc; [by right|]. destruct Hroot as [?|Hroot]; [done|]. left.
    rewrite Hroot. apply ptr_plug. by rewrite !ptr_branch.
Qed.

(** *** The rest of a round, the sibling black *)

Definition sibling_black (d : dir) (x w : Z) : M rbheap Z :=
  nw ← rb_get w;
  nl ← rb_get (child d nw);
  nr ← rb_get (child (flip d) nw);
  if negb (red nl) && negb (red nr) then
    rb_upd w (set_red true);;
    parent_of x
  else
    w ← (if negb (red nr) then
           rb_upd (child d nw) (set_red false);;
           rb_upd w (set_red true);;
           rb_rotate (flip d) tr w;;
           p ← parent_of x; np ← rb_get p; mret (child (flip d) np)
         else mret w);
    p ← parent_of x;
    np ← rb_get p;
    rb_upd w (set_red (red np));;
    p ← parent_of x; rb_upd p (set_red false);;
    nw ← rb_get w;
    rb_upd (child (flip d) nw) (set_red false);;
    p ← parent_of x; rb_rotate d tr p;;
    mret root0.

Lemma wp_sibling_black w0 d pc cc cl cr n p w wl wr k t h np (Q : Z → rbheap → Prop) :
  at_place h np (mk_frame d pc p (branch d false w wl wr) :: k) t →
  sided n pc cc cl cr wl wr t k →
  inorder (plug k (branch d pc p t (branch d false w wl wr))) = w0 →
  root0 = p ∨ (∃ f k', k = f :: k' ∧ root0 = ptr (plug k t)) →
  pc = true ∨ root0 = ptr (plug k (branch d pc p t (branch d false w wl wr))) →
  (∀ h', finished w0 h' → Q root0 h') →
  (∀ h' t', color t' = pc → going w0 p h' np k t' → Q p h') →
  wp (sibling_black d (ptr t) w) h Q.
Proof.
  intros Ha Hs Ew Hr1 Hr2 HQ1 HQ2. pose proof Ha as [Hp Hl]. apply to_sibling in Hp.
  pose proof (placed_node _ _ _ _ _ _ _ _ _ _ _ Hp) as Hw.
  destruct (placed_colors _ _ _ _ _ _ _ _ Hp) as [(nl & Hnl & Hcl) (nr & Hnr & Hcr)].
  unfold sibling_black. apply wp_bind. eapply wp_rb_at; [exact Hw|].
  rewrite child_here, child_there. apply wp_bind. eapply wp_rb_at; [exact Hnl|].
  apply wp_bind. eapply wp_rb_at; [exact Hnr|]. rewrite Hcl, Hcr.
  rewrite (rb_color _ _ _ (sd_wl _ _ _ _ _ _ _ _ _ Hs)), (rb_color _ _ _ (sd_wr _ _ _ _ _ _ _ _ _ Hs)).
  destruct cr; [|destruct cl]; cbn [negb andb]; rewrite ?andb_false_r.
  - apply wp_bind. rewrite wp_ret. destruct wr as [|c fl f fr]; [by inversion Hs as [_ _ Hx]; inversion Hx|].
    assert (c = true) as -> by (apply (rb_color _ _ _ (sd_wr _ _ _ _ _ _ _ _ _ Hs))).
    eapply wp_fix_far; [exact Ha|]. intros h' Hp'. apply HQ1. by eapply far_finishes.
  - destruct (branch_cases wl) with (d := d) as (nl' & nr' & El).
    { intros ->. by inversion Hs as [_ Hx _]; inversion Hx. }
    set (na := match wl with Leaf => 0 | Node _ _ a _ => a end) in *. clearbody na.
    assert (rb true n wl) as Hwl by apply Hs. rewrite (rb_color _ _ _ Hwl) in El. subst wl.
    assert (rb false n nl' ∧ rb false n nr') as [Hnl' Hnr'] by (destruct d; by inversion Hwl).
    rewrite ptr_branch. apply wp_bind. eapply (wp_fix_near d pc p w nl' na nr' wr k t h np mret); [exact Ha|].
    clear h Ha Hp Hw Hnl Hnr Hcl Hcr. intros h Ha. rewrite wp_ret.
    assert (∃ fl f fr, branch d true w nr' wr = Node true fl f fr) as (fl & f & fr & Ef)
      by (destruct d; cbn; eauto).
    rewrite Ef in Ha. eapply wp_fix_far; [exact Ha|]. intros h' Hp'. apply HQ1.
    eapply (far_finishes w0 d pc cc false n p na nl'); [|  |exact Hr1|exact Hp'].
    + destruct Hs as [H1 _ H3 H4 H5]. split; try done. rewrite <- Ef.
      by apply (rb_branch d true n w nr' wr false false).
    + rewrite <- Ew, <- Ef. apply inorder_plug_eq. rewrite !inorder_branch.
      destruct d; cbn; by rewrite <- ?app_assoc.
  - apply wp_bind. eapply wp_recolor_branch; [exact Hp|]. clear h Ha Hp Hw Hnl Hnr Hcl Hcr. intros h Hp.
    apply to_sibling in Hp. rewrite ?flip_flip in Hp.
    eapply (wp_parent_at h np (mk_frame d pc p _ :: k)); [by split; [exact Hp|exact Hl]|]. cbn [up fa].
    apply placed_zoom in Hp. eapply HQ2; [|by eapply near_goes_up]. by rewrite color_branch.
Qed.

(** *** A round *)

Lemma root_cases d pc p s k t (X : tree) :
  root0 = ptr (plug (mk_frame d pc p s :: k) t) →
  root0 = p ∨ ∃ f k', k = f :: k' ∧ root0 = ptr (plug k X).
Proof.
  intros ->. destruct k as [|f k]; [left; cbn; by rewrite ptr_branch|]. right. exists f, k.
  split; [done|]. apply (ptr_plug_cons f k (branch d pc p t s) X).
Qed.

Lemma fixup_sub_eq d x : rb_delete_fixup_sub d tr root0 x =
  (p ← parent_of x;
   np ← rb_get p;
   nw ← rb_get (child (flip d) np);
   w ← (if red nw then
          rb_upd (child (flip d) np) (set_red false);;
          p ← parent_of x; rb_upd p (set_red true);;
          p ← parent_of x; rb_rotate d tr p;;
          p ← parent_of x; np ← rb_get p; mret (child (flip d) np)
        else mret (child (flip d) np));
   sibling_black d x w).
Proof. done. Qed.

(** A red sibling is rotated up, over the parent, which turns red. *)
Lemma wp_fix_red d p w wl wr k t h np (Q : Z → rbheap → Prop) :
  at_place h np (mk_frame d false p (branch d true w wl wr) :: k) t →
  (∀ h', at_place h' np (mk_frame d true p wl :: mk_frame d false w wr :: k) t → Q (ptr wl) h') →
  wp (rb_upd w (set_red false);;
      p ← parent_of (ptr t); rb_upd p (set_red true);;
      p ← parent_of (ptr t); rb_rotate d tr p;;
      p ← parent_of (ptr t); np ← rb_get p; mret (child (flip d) np)) h Q.
Proof.
  intros [Hp Hl] HQ. apply to_sibling in Hp.
  apply wp_bind. eapply wp_recolor_branch; [exact Hp|]. clear h Hp. intros h Hp.
  apply to_sibling in Hp. rewrite ?flip_flip in Hp.
  apply wp_bind. eapply wp_parent_at; [by split; [exact Hp|exact Hl]|].
  apply wp_bind. eapply wp_recolor_up; [exact Hp|]. clear h Hp. intros h Hp. cbn [fd fc fa fs] in Hp.
  apply wp_bind. eapply (wp_parent_at h np (mk_frame d true p _ :: k)); [by split; [exact Hp|exact Hl]|].
  apply placed_zoom in Hp. cbn [fd fc fa fs] in Hp.
  apply wp_bind. eapply wp_rotate; [exact Hp|]. clear h Hp. intros h Hp.
  apply (placed_zoom _ _ _ h np (mk_frame d false w wr) k) in Hp.
  apply (placed_zoom _ _ _ h np (mk_frame d true p wl)) in Hp.
  eapply wp_sibling_of; [by split; [exact Hp|exact Hl]|]. rewrite wp_ret. apply HQ. by split.
Qed.

Lemma wp_fixup_sub w0 d pc p ws k t h np n cc (Q : Z → rbheap → Prop) :
  at_place h np (mk_frame d pc p ws :: k) t → rb false n t →
  rb_ctx cc (S n) (mk_frame d pc p ws :: k) →
  inorder (plug (mk_frame d pc p ws :: k) t) = w0 →
  root0 = ptr (plug (mk_frame d pc p ws :: k) t) →
  (∀ h', finished w0 h' → Q root0 h') →
  (∀ h' y k' t', going w0 y h' np k' t' → color t' = true ∨ k' = k → Q y h') →
  wp (rb_delete_fixup_sub d tr root0 (ptr t)) h Q.
Proof.
  intros Ha Ht Hk Ew Hroot HQ1 HQ2. pose proof Ha as [Hp Hl]. rewrite fixup_sub_eq.
  apply wp_bind. eapply wp_parent_at; [exact Ha|].
  apply wp_bind. eapply wp_rb_at; [by apply (placed_up _ _ _ _ _ _ _ Hp)|].
  cbn [hole snd fd fc fa fs up]. rewrite child_there.
  assert (∃ cw c', rb cw (S n) ws ∧ rb_ctx c' (if pc then S n else S (S n)) k ∧
    (pc = true → c' = true ∧ cw = false)) as (cw & c' & Hws & Hk1 & Hpc).
  { inversion Hk; subst; eexists _, _; (split_and!; [done|done|]); [done|by split]. }
  destruct (branch_cases ws) with (d := d) as (wl & wr & Ews); [intros ->; by inversion Hws|].
  set (w := match ws with Leaf => 0 | Node _ _ a _ => a end) in *. clearbody w.
  rewrite (rb_color _ _ _ Hws) in Ews. subst ws. rewrite ptr_branch.
  pose proof Hp as Hp'. apply to_sibling in Hp'. pose proof (placed_node _ _ _ _ _ _ _ _ _ _ _ Hp') as Hw.
  apply wp_bind. eapply wp_rb_at; [exact Hw|]. rewrite red_node. apply wp_bind. destruct cw.
  - assert (pc = false) as -> by (destruct pc; [by destruct (Hpc eq_refl)|done]).
    assert (rb false (S n) wl ∧ rb false (S n) wr) as [Hwl Hwr] by (destruct d; by inversion Hws).
    eapply wp_fix_red; [exact Ha|]. clear h Ha Hp Hl Hp' Hw. intros h Ha.
    destruct (branch_cases wl) with (d := d) as (a & b & El); [intros ->; by inversion Hwl|].
    set (w2 := match wl with Leaf => 0 | Node _ _ a _ => a end) in *. clearbody w2.
    rewrite (rb_color _ _ _ Hwl) in El. subst wl. rewrite ptr_branch.
    assert (∃ ca cb, rb ca n a ∧ rb cb n b) as (ca & cb & Hra & Hrb)
      by (destruct d; inversion Hwl; subst; eauto).
    eapply (wp_sibling_black w0 d true true ca cb n p w2 a b); [exact Ha| | | |by left|exact HQ1|].
    + split; try done. by econstructor.
    + rewrite <- Ew. cbn [plug fd fc fa fs]. apply inorder_plug_eq. rewrite !inorder_branch.
      destruct d; cbn; repeat (rewrite <- app_assoc; cbn); done.
    + destruct (root_cases d false p _ k t (branch d false w t wr) Hroot) as [->|(f & k' & -> & ->)];
        [by left|right]. eexists _, _. split; [done|]. done.
    + intros h' t' Hc Hg. eapply HQ2; [exact Hg|by left].
  - rewrite wp_ret.
    assert (∃ ca cb, rb ca n wl ∧ rb cb n wr) as (ca & cb & Hra & Hrb)
      by (destruct d; inversion Hws; subst; eauto).
    eapply (wp_sibling_black w0 d pc c' ca cb n p w wl wr); [exact Ha| |exact Ew| | |exact HQ1|].
    + split; try done. intros Hx. by apply Hpc.
    + by apply (root_cases d pc p (branch d false w wl wr) k t).
    + by right.
    + intros h' t' Hc Hg. eapply HQ2; [exact Hg|by right].
Qed.

(** ** The loop *)

Definition rounds (k : list frame) (t : tree) : nat := if color t then 1 else S (S (length k)).

Lemma top_around f k t : ptr (plug (f :: k) t) ∈ before (f :: k) ++ after (f :: k).
Proof.
  revert f t. induction k as [|g k IH]; intros f t.
  - cbn. rewrite ptr_branch. destruct f as [[] c a s]; cbn; set_solver.
  - specialize (IH g (branch (fd f) (fc f) (fa f) t (fs f))). revert IH.
    change (plug (f :: g :: k) t) with (plug (g :: k) (branch (fd f) (fc f) (fa f) t (fs f))).
    generalize (ptr (plug (g :: k) (branch (fd f) (fc f) (fa f) t (fs f)))) as a.
    generalize (g :: k) as k'. intros k' a. cbn [before after].
    destruct f as [[] c b s]; cbn [fd fs fa]; rewrite !elem_of_app, ?elem_of_cons, ?elem_of_app; tauto.
Qed.

Lemma top_ne h np f k t : placed h np (f :: k) t → ptr (plug (f :: k) t) ≠ ptr t.
Proof.
  intros Hp Et. pose proof (top_around f k t) as Hin. rewrite Et in Hin.
  apply placed_plug in Hp. destruct (decide (t = Leaf)) as [->|Ht].
  - apply (placed_real _ _ _ _ _ _ _ Hp); [|done]. intros E0.
    apply (f_equal inorder) in E0. rewrite inorder_plug in E0. cbn [inorder app] in E0.
    pose proof (top_around f k Leaf) as Hin'. rewrite E0 in Hin'. by apply elem_of_nil in Hin'.
  - pose proof (placed_nodup _ _ _ _ _ _ _ Hp) as Hn. cbn [around up fmap list_fmap app] in Hn.
    rewrite inorder_plug in Hn. apply NoDup_cons in Hn as [_ [_ Hn]%NoDup_cons].
    apply (ptr_in tr) in Ht. apply NoDup_app in Hn as (_ & H1 & H2).
    apply NoDup_app in H2 as (_ & H2 & _). apply elem_of_app in Hin as [Hin|Hin].
    + apply (H1 _ Hin). apply elem_of_app. by left.
    + by apply (H2 _ Ht).
Qed.

(** Which child the place is, [nil] or not. *)
Lemma side_at h np d pc p s k t : placed h np (mk_frame d pc p s :: k) t → s ≠ Leaf →
  (ptr t =? rb_left (node_of d pc (up k) (ptr t) (ptr s))) = bool_decide (DL = d).
Proof.
  intros Hp Hs. destruct (decide (t = Leaf)) as [->|Ht].
  - apply to_sibling in Hp. pose proof (placed_real _ _ _ _ _ _ _ Hp Hs) as Hr.
    destruct d; cbn; rewrite ?Z.eqb_refl; [done|]. by apply Z.eqb_neq.
  - apply (placed_side _ _ _ _ _ _ _ _ DL Hp Ht).
Qed.

Definition fixup_round : Z → M rbheap (Z + Z) :=
  (λ x,
    if x =? root0 then mret (inr x) else
    nx ← rb_get x;
    if red nx then mret (inr x) else
    np ← rb_get (rb_parent nx);
    x ← (if x =? rb_left np then rb_delete_fixup_sub DL tr root0 x
         else rb_delete_fixup_sub DR tr root0 x);
    mret (inl x)).

Lemma fixup_round_eq x : fixup_round x =
  (if x =? root0 then mret (inr x) else
   nx ← rb_get x;
   if red nx then mret (inr x) else
   np ← rb_get (rb_parent nx);
   x ← (if x =? rb_left np then rb_delete_fixup_sub DL tr root0 x
        else rb_delete_fixup_sub DR tr root0 x);
   mret (inl x)).
Proof. done. Qed.

Lemma wp_fixup_loop w0 x h np k t fuel (Q : Z → rbheap → Prop) :
  going w0 x h np k t → (rounds k t ≤ fuel)%nat →
  (∀ h', finished w0 h' → Q root0 h') →
  (∀ h' np' k' t' n cc, at_place h' np' k' t' → short n t' → rb_ctx cc (S n) k' →
     inorder (plug k' t') = w0 → k' = [] ∨ color t' = true → Q (ptr t') h') →
  wp (loop fuel fixup_round x) h Q.
Proof.
  intros Hg Hfuel HQ1 HQ2. revert x h np k t Hg Hfuel. induction fuel as [|fuel IH]; intros x h np k t Hg Hfuel.
  { unfold rounds in Hfuel. destruct (color t); lia. }
  pose proof Hg as (n & cc & -> & Ha & Hsh & Hk & Ew & Hroot). pose proof Ha as [Hp Hl].
  cbn [loop]. rewrite fixup_round_eq. apply wp_bind. destruct (Z.eqb_spec (ptr t) root0) as [Er|Hne].
  { rewrite wp_ret, wp_ret. eapply HQ2; [exact Ha|exact Hsh|exact Hk|done|].
    destruct Hroot as [Hroot|?]; [|by right]. left. destruct k as [|f k]; [done|].
    apply top_ne in Hp. by rewrite <- Hroot in Hp. }
  destruct (placed_ptr _ _ _ _ _ _ _ Hp) as (nx & Hnx & Hcx & Hpx).
  apply wp_bind. eapply wp_rb_at; [exact Hnx|]. rewrite Hcx. destruct (color t) eqn:Hct.
  { rewrite wp_ret, wp_ret. eapply HQ2; [exact Ha|exact Hsh|exact Hk|done|by right]. }
  destruct Hroot as [Hroot|?]; [|done]. destruct Hsh as [Ht|[? _]]; [|congruence].
  destruct k as [|[d pc p ws] k]; [by rewrite Hroot in Hne|].
  assert (rb_parent nx = p) as -> by (rewrite Hpx; destruct (decide _); [by apply Hl|done]).
  apply wp_bind. eapply wp_rb_at; [by apply (placed_up _ _ _ _ _ _ _ Hp)|]. cbn [hole snd fd fc fa fs].
  rewrite (side_at _ _ _ _ _ _ _ _ Hp) by by (intros ->; inversion Hk; subst;
    match goal with H : rb _ (S n) Leaf |- _ => inversion H end).
  unfold rounds in Hfuel. rewrite Hct in Hfuel. cbn [length] in Hfuel.
  assert (wp (rb_delete_fixup_sub d tr root0 (ptr t)) h (λ y h', wp (loop fuel fixup_round y) h' Q)) as Hround.
  { eapply wp_fixup_sub; [exact Ha|exact Ht|exact Hk|exact Ew|exact Hroot| |].
    - intros h' Hf. destruct fuel as [|fuel]; [lia|]. cbn [loop]. rewrite fixup_round_eq.
      apply wp_bind. rewrite Z.eqb_refl, wp_ret, wp_ret. by apply HQ1.
    - intros h' y k' t' Hg' Hcase. apply (IH _ _ np k' t' Hg').
      unfold rounds. destruct Hcase as [-> | ->]; [lia|]. destruct (color t'); lia. }
  apply wp_bind. eapply wp_conseq; [destruct d; exact Hround|]. intros y h' Hy. by rewrite wp_ret.
Qed.
End fixup.

Section delete.
Context (tr : Rb_tree) (L : list Z) (h0 : rbheap).
Abbreviation placed := (placed tr L h0).
Abbreviation holds := (holds L h0).
Abbreviation at_place := (at_place tr L h0).
Abbreviation up := (up tr).
Abbreviation ptr := (ptr tr).

Lemma wp_rb_same a n f h (Q : unit → rbheap → Prop) :
  h !! a = Some n → f n = n → Q tt h → wp (rb_upd a f) h Q.
Proof.
  intros Ha Hf HQ. unfold rb_upd. apply wp_bind. eapply wp_rb_at; [exact Ha|].
  apply wp_modify. by rewrite Hf, insert_id.
Qed.

(** Blackening the node the loop ends at. *)
Lemma wp_blacken h np k t n cc (Q : unit → rbheap → Prop) :
  at_place h np k t → short n t → rb_ctx cc (S n) k → k = [] ∨ color t = true →
  (∀ h', placed h' np [] (plug k (blacken t)) → (∃ m, rb false m (plug k (blacken t))) → Q tt h') →
  wp (rb_upd (ptr t) (set_red false)) h Q.
Proof.
  intros [Hp _] Hs Hk Hc HQ.
  assert (∃ m, rb false m (plug k (blacken t))) as Hm.
  { destruct Hs as [Hs|[_ Hs]]; [|by eapply rb_ctx_plug].
    rewrite (rb_color _ _ _ Hs) in Hc. destruct Hc as [->|?]; [|done].
    destruct t as [|[] l a r]; [by exists n| |by exists n]. by inversion Hs. }
  destruct t as [|c l a r].
  - eapply wp_rb_same; [by eapply placed_nil|done|]. apply HQ; [|done]. by apply -> placed_plug.
  - eapply wp_recolor; [exact Hp|]. intros h' Hp'. apply HQ; [|done]. by apply -> placed_plug.
Qed.

Lemma wp_rb_delete_fixup h np k t n cc (Q : unit → rbheap → Prop) :
  at_place h np k t → short n t → rb_ctx cc (S n) k →
  (∀ h' np' W, placed h' np' [] W → (∃ m, rb false m W) → inorder W = inorder (plug k t) → Q tt h') →
  wp (rb_delete_fixup tr (ptr t)) h Q.
Proof.
  intros Ha Hs Hk HQ. pose proof Ha as [Hp _]. unfold rb_delete_fixup.
  apply wp_bind. eapply wp_rb_at; [by apply (placed_root _ _ _ _ _ _ _ Hp)|]. cbn [rb_left].
  apply wp_bind, wp_gets, wp_bind. pose proof (placed_size _ _ _ _ _ _ _ Hp) as Hsz.
  eapply (wp_fixup_loop tr L h0 (ptr (plug k t)) (inorder (plug k t)) (ptr t) h np k t);
    [by exists n, cc; split_and!; eauto|unfold rounds; destruct (color t); lia| |].
  - intros h' (np' & W & nd & HW & Hm & Ew & Hn & Hr). eapply wp_rb_same; [exact Hn|by destruct nd; cbn in *; subst|].
    by eapply HQ.
  - intros h' np' k' t' n' cc' Ha' Hs' Hk' Ew Hc. eapply wp_blacken; [exact Ha'|exact Hs'|exact Hk'|exact Hc|].
    intros h2 Hp2 Hm2. eapply HQ; [exact Hp2|exact Hm2|]. rewrite <- Ew.
    apply inorder_plug_eq, inorder_blacken.
Qed.

(** ** Taking a node out *)

(** [x], the only child of the node taken out, has its place. *)
Lemma wp_finish_delete h np k X cy cx cc (Q : unit → rbheap → Prop) :
  at_place h np k X → rb cx 0 X → rb_ctx cc (if cy : bool then 0 else 1)%nat k → (cy = true → cx = false) →
  (∀ h' np' W, placed h' np' [] W → (∃ m, rb false m W) → inorder W = inorder (plug k X) → Q tt h') →
  wp (if negb cy then rb_delete_fixup tr (ptr X) else mret tt) h Q.
Proof.
  intros Ha HX Hk Hc HQ. destruct cy; cbn [negb].
  - rewrite wp_ret. eapply HQ; [by apply -> placed_plug; apply Ha| |done].
    eapply rb_ctx_plug; [exact HX|exact Hk|]. by rewrite Hc.
  - eapply wp_rb_delete_fixup; [exact Ha| |exact Hk|exact HQ]. destruct cx; [right|by left].
    inversion HX; subst. split; [done|]. by econstructor.
Qed.

(** The parent field of a subtree, or of [nil], is written. *)
Lemma wp_reparent i q p t l1 l2 np h (Q : unit → rbheap → Prop) :
  holds h (nil_cell tr np :: l1 ++ top_cell tr q t ++ l2) → i = S (length l1) →
  (∀ h', holds h' (nil_cell tr (if decide (t = Leaf) then p else np) :: l1 ++ top_cell tr p t ++ l2) → Q tt h') →
  wp (rb_upd (ptr t) (set_parent p)) h Q.
Proof.
  intros Hh -> HQ. destruct t as [|c l a r]; cbn [RbRep.ptr top_cell app] in *.
  - eapply (wp_rb_upd _ _ 0); [exact Hh|done|]. intros h' Hh'. by apply HQ.
  - eapply (wp_rb_upd _ _ (S (length l1))); [exact Hh|by cbn; apply list_lookup_middle|].
    intros h' Hh'. apply HQ. cbn [decide]. refine (eq_ind _ (holds h') Hh' _ _).
    rewrite app_comm_cons, insert_app_r_alt, Nat.sub_diag by done. done.
Qed.

Lemma wp_unlink {A} d c y X k h np (m : bool → M rbheap A) (Q : A → rbheap → Prop) :
  placed h np k (branch d c y X Leaf) →
  (∀ h', holds h' ((y, node_of d c (up k) (ptr X) (rb_nil tr)) ::
     all_cells tr (if decide (X = Leaf) then up k else np) k X) → wp (m (negb c)) h' Q) →
  wp (rb_upd (ptr X) (set_parent (up k));;
      ny ← rb_get y;
      np ← rb_get (rb_parent ny);
      (if y =? rb_left np then rb_upd (rb_parent ny) (set_left (ptr X))
       else rb_upd (rb_parent ny) (set_right (ptr X)));; m (negb (red ny))) h Q.
Proof.
  intros Hp HQ. destruct (placed_ne _ _ _ _ _ _ _ y Hp) as (Hyn & _ & Hsib & _);
    [rewrite inorder_branch; destruct d; cbn; set_solver|].
  assert (holds h (nil_cell tr np :: [(y, node_of d c (up k) (ptr X) (rb_nil tr)); hole tr k y] ++
    top_cell tr y X ++ below tr X ++ around tr k)) as Hh.
  { eapply holds_perm; [|exact Hp]. unfold all_cells.
    rewrite cells_branch, ptr_branch, (cells_top tr y X). cbn. solve_Permutation. }
  apply wp_bind. eapply (wp_reparent 3 y (up k)); [exact Hh|done|].
  clear h Hh Hp. intros h Hh. cbn [app] in Hh.
  apply wp_bind. eapply (wp_rb_get _ _ 1); [exact Hh|done|]. rewrite parent_node, red_node.
  eapply (wp_relink _ _ _ 2 DL k y (ptr X)); [exact Hh|done|done|].
  clear h Hh. intros h Hh. cbn [list_insert insert] in Hh. apply HQ.
  eapply holds_perm; [|exact Hh]. unfold all_cells. rewrite (cells_top tr (up k) X). solve_Permutation.
Qed.

(** [y] takes the place, the children and the colour of [z]. *)
Lemma wp_replace z y ny c l r k h np (Q : unit → rbheap → Prop) :
  holds h ((y, ny) :: all_cells tr np k (Node c l z r)) → l ≠ Leaf →
  (∀ h', holds h' ((z, mk_rb c (up k) (ptr l) (ptr r)) ::
     all_cells tr (if decide (r = Leaf) then y else np) k (Node c l y r)) → Q tt h') →
  wp (nz ← rb_get z;
      np ← rb_get (rb_parent nz);
      (if z =? rb_left np then rb_upd (rb_parent nz) (set_left y)
       else rb_upd (rb_parent nz) (set_right y));;
      nz ← rb_get z;
      rb_upd (rb_right nz) (set_parent y);;
      rb_upd (rb_left nz) (set_parent y);;
      nz ← rb_get z;
      rb_upd y (λ _, nz)) h Q.
Proof.
  intros Hh Hl HQ. assert (z ≠ sib tr k) as Hsib.
  { apply holds_tail in Hh. eapply placed_ne; [exact Hh|]. cbn. set_solver. }
  set (nz := mk_rb c (up k) (ptr l) (ptr r)) in *.
  set (R := below tr l ++ below tr r ++ around tr k).
  assert (holds h (nil_cell tr np :: [(z, nz); (y, ny); hole tr k z] ++ top_cell tr z r ++
    top_cell tr z l ++ R)) as H1.
  { eapply holds_perm; [|exact Hh]. unfold all_cells, R. cbn [cells RbRep.ptr].
    rewrite (cells_top tr z l), (cells_top tr z r). solve_Permutation. }
  clear Hh. apply wp_bind. eapply (wp_rb_get _ _ 1); [exact H1|done|].
  eapply (wp_relink _ _ _ 3 DL k z y); [exact H1|done|done|].
  clear h H1. intros h H1. cbn [list_insert insert app] in H1.
  apply wp_bind. eapply (wp_rb_get _ _ 1); [exact H1|done|]. cbn [nz rb_right rb_left].
  apply wp_bind. eapply (wp_reparent 4 z y r [_; _; _]); [exact H1|done|].
  clear h H1. intros h H1. cbn [app] in H1.
  assert (holds h (nil_cell tr (if decide (r = Leaf) then y else np) ::
    ([(z, nz); (y, ny); hole tr k y] ++ top_cell tr y r) ++ top_cell tr z l ++ R)) as H2
    by (eapply holds_perm; [|exact H1]; solve_Permutation).
  apply wp_bind. eapply (wp_reparent _ z y l); [exact H2|reflexivity|].
  clear h H1 H2. intros h H1. rewrite (decide_False (P := l = Leaf)) in H1 by done. cbn [app] in H1.
  apply wp_bind. eapply (wp_rb_get _ _ 1); [exact H1|done|].
  eapply (wp_rb_upd _ _ 2); [exact H1|done|].
  clear h H1. intros h H1. cbn [list_insert insert] in H1. apply HQ.
  eapply holds_perm; [|exact H1]. unfold all_cells, R. cbn [cells RbRep.ptr].
  rewrite (cells_top tr y l), (cells_top tr y r). solve_Permutation.
Qed.

(** ** The successor *)

(** The end of a subtree in a direction. *)
Lemma wp_extreme d t k h np (Q : Z → rbheap → Prop) :
  placed h np k t → t ≠ Leaf →
  (∀ kl c y s, plug kl (branch d c y Leaf s) = t → Forall (λ f, fd f = d) kl → Q y h) →
  wp (rb_extreme d tr (ptr t)) h Q.
Proof.
  intros Hp Ht HQ. unfold rb_extreme. apply wp_bind, wp_gets.
  assert (length (inorder t) ≤ S (size h))%nat as Hfuel
    by (pose proof (placed_size _ _ _ _ _ _ _ Hp); lia).
  revert Hfuel. generalize (S (size h)) as fuel. intros fuel.
  assert (∀ kl t', plug kl t' = t → Forall (λ f, fd f = d) kl → t' ≠ Leaf →
    placed h np (kl ++ k) t' → (length (inorder t') ≤ fuel)%nat →
    wp (loop fuel (λ y, ny ← rb_get y;
      if child d ny =? rb_nil tr then mret (inr y) else mret (inl (child d ny))) (ptr t')) h Q) as H;
    [|by apply (H [] t)].
  induction fuel as [|fuel IH]; intros kl t' Ek Hd Ht' Hp' Hfuel.
  { destruct t' as [|c l a r]; [done|]. cbn in Hfuel. rewrite length_app in Hfuel. cbn in Hfuel. lia. }
  destruct (branch_cases t' Ht' d) as (u & s & Et). set (a := match t' with Leaf => 0 | Node _ _ a _ => a end) in *.
  clearbody a. set (c := color t') in *. clearbody c. subst t'. rewrite ptr_branch. cbn [loop].
  apply wp_bind, wp_bind. eapply wp_rb_at; [by eapply placed_node|]. rewrite child_here.
  apply (placed_zoom _ _ _ h np (mk_frame d c a s) (kl ++ k) u) in Hp'.
  destruct (decide (u = Leaf)) as [->|Hu].
  - cbn [RbRep.ptr]. rewrite Z.eqb_refl, wp_ret, wp_ret. by eapply HQ.
  - pose proof (placed_real _ _ _ _ _ _ _ Hp' Hu) as Hr. rewrite (proj2 (Z.eqb_neq _ _) Hr), wp_ret.
    apply (IH (mk_frame d c a s :: kl) u); [done|by constructor|done|exact Hp'|].
    rewrite inorder_branch in Hfuel. destruct d; cbn in Hfuel; rewrite !length_app in Hfuel; cbn in Hfuel; lia.
Qed.

Lemma find_place z W : z ∈ inorder W → ∃ k c l r, W = plug k (Node c l z r).
Proof.
  induction W as [|c l IHl a r IHr]; cbn; [by intros ?%elem_of_nil|].
  rewrite elem_of_app, elem_of_cons. intros [Hz|[->|Hz]].
  - destruct (IHl Hz) as (k & c' & l' & r' & ->). exists (k ++ [mk_frame DL c a r]), c', l', r'.
    by rewrite plug_app.
  - by exists [], c, l, r.
  - destruct (IHr Hz) as (k & c' & l' & r' & ->). exists (k ++ [mk_frame DR c a l]), c', l', r'.
    by rewrite plug_app.
Qed.

Lemma rb_ctx_rename c n kl d c0 a b s k :
  rb_ctx c n (kl ++ mk_frame d c0 a s :: k) → rb_ctx c n (kl ++ mk_frame d c0 b s :: k).
Proof.
  revert c n. induction kl as [|f kl IH]; intros c n; cbn; intros Hk; inversion Hk; subst;
    econstructor; eauto.
Qed.

(** ** Deletion *)

(** [rb_delete] once [y] is chosen and unlinked. *)
Definition delete_rest (z y x : Z) (need_fixup : bool) : M rbheap unit :=
  (if negb (y =? z) then
     nz ← rb_get z;
     np ← rb_get (rb_parent nz);
     (if z =? rb_left np then rb_upd (rb_parent nz) (set_left y)
      else rb_upd (rb_parent nz) (set_right y));;
     nz ← rb_get z;
     rb_upd (rb_right nz) (set_parent y);;
     rb_upd (rb_left nz) (set_parent y);;
     nz ← rb_get z;
     rb_upd y (λ _, nz)
   else mret tt);;
  (if need_fixup then rb_delete_fixup tr x else mret tt).

Definition delete_node (z y : Z) : M rbheap unit :=
  ny ← rb_get y;
  let x := if negb (rb_left ny =? rb_nil tr) then rb_left ny else rb_right ny in
  assert_ (negb (y =? rb_root tr) && negb (y =? rb_nil tr));;
  rb_upd x (set_parent (rb_parent ny));;
  ny ← rb_get y;
  np ← rb_get (rb_parent ny);
  (if y =? rb_left np then rb_upd (rb_parent ny) (set_left x)
   else rb_upd (rb_parent ny) (set_right x));;
  delete_rest z y x (negb (red ny)).

Lemma rb_delete_eq z : rb_delete tr z =
  (nz ← rb_get z;
   y ← (if (rb_left nz =? rb_nil tr) || (rb_right nz =? rb_nil tr) then mret z
        else rb_tree_successor tr z);
   delete_node z y).
Proof. done. Qed.

Lemma wp_delete_node z d c y X k h np (Q : unit → rbheap → Prop) :
  placed h np k (branch d c y X Leaf) →
  (∀ h', holds h' ((y, node_of d c (up k) (ptr X) (rb_nil tr)) ::
     all_cells tr (if decide (X = Leaf) then up k else np) k X) →
     wp (delete_rest z y (ptr X) (negb c)) h' Q) →
  wp (delete_node z y) h Q.
Proof.
  intros Hp HQ. destruct (placed_ne _ _ _ _ _ _ _ y Hp) as (Hyn & _ & _ & Hyr);
    [rewrite inorder_branch; destruct d; cbn; set_solver|].
  unfold delete_node. apply wp_bind. eapply wp_rb_at; [by eapply placed_node|]. cbv zeta.
  assert ((if negb (rb_left (node_of d c (up k) (ptr X) (ptr Leaf)) =? rb_nil tr)
    then rb_left (node_of d c (up k) (ptr X) (ptr Leaf))
    else rb_right (node_of d c (up k) (ptr X) (ptr Leaf))) = ptr X) as ->.
  { destruct d; cbn; [destruct (Z.eqb_spec (ptr X) (rb_nil tr)) as [->|]; done|]. by rewrite Z.eqb_refl. }
  apply wp_bind, wp_assert. rewrite !(proj2 (Z.eqb_neq _ _)) by done. split; [done|].
  rewrite parent_node. eapply wp_unlink; [exact Hp|exact HQ].
Qed.

Lemma rb_one_child d c z X ct n : rb ct n (branch d c z X Leaf) →
  ∃ cx, rb cx 0 X ∧ n = (if c then 0 else 1)%nat ∧ ct = c ∧ (c = true → cx = false).
Proof.
  intros Hn. assert (∃ cx cl n', rb cx n' X ∧ rb cl n' Leaf ∧ ct = c ∧ n = (if c then n' else S n') ∧
    (c = true → cx = false)) as (cx & cl & n' & HX & Hl & -> & -> & Hc).
  { destruct d; cbn in Hn; inversion Hn; subst; do 3 eexists; split_and!; eauto; done. }
  inversion Hl; subst. by exists cx.
Qed.

(** A node with at most one child is taken out itself. *)
Lemma wp_delete_self z d c X k h np m (Q : unit → rbheap → Prop) :
  placed h np k (branch d c z X Leaf) → rb false m (plug k (branch d c z X Leaf)) →
  (∀ h' np' W, placed h' np' [] W → (∃ m, rb false m W) → inorder W = inorder (plug k X) → Q tt h') →
  wp (delete_node z z) h Q.
Proof.
  intros Hp Hm HQ. eapply wp_delete_node; [exact Hp|]. clear h Hp. intros h Hh. unfold delete_rest.
  rewrite Z.eqb_refl. cbn [negb]. apply wp_bind. rewrite wp_ret. apply holds_tail in Hh.
  destruct (rb_plug_ctx k _ _ _ Hm eq_refl) as (ct & n & c' & Hn & Hk & Hcc).
  destruct (rb_one_child _ _ _ _ _ _ Hn) as (cx & HX & -> & -> & Hcx).
  eapply wp_finish_delete; [|exact HX|exact Hk|exact Hcx|exact HQ]. split; [exact Hh|].
  intros ->. by rewrite decide_True.
Qed.

Lemma all_cells_app np kl k t : all_cells tr np (kl ++ k) t ≡ₚ all_cells tr np k (plug kl t).
Proof.
  revert t. induction kl as [|f kl IH]; intros t; [done|]. cbn [app plug].
  rewrite all_cells_zoom. apply IH.
Qed.

Lemma placed_app h np kl k t : placed h np (kl ++ k) t ↔ placed h np k (plug kl t).
Proof. split; apply holds_perm; [|symmetry]; apply all_cells_app. Qed.

(** The first node to the right of an inner node takes its place. *)
Lemma wp_delete_inner z c l kl cy y ry k h np m (Q : unit → rbheap → Prop) :
  let ky a := kl ++ mk_frame DR c a l :: k in
  placed h np (ky z) (branch DR cy y ry Leaf) → l ≠ Leaf →
  rb false m (plug (ky z) (branch DR cy y ry Leaf)) →
  (∀ h' np' W, placed h' np' [] W → (∃ m, rb false m W) → inorder W = inorder (plug (ky y) ry) → Q tt h') →
  wp (delete_node z y) h Q.
Proof.
  intros ky Hp Hl Hm HQ. assert (y ≠ z) as Hyz.
  { pose proof (placed_nodup _ _ _ _ _ _ _ (proj1 (placed_app h np kl _ _) Hp)) as Hn.
    apply NoDup_cons in Hn as [_ [Hu _]%NoDup_cons]. intros <-. apply Hu, elem_of_app. right. cbn.
    rewrite inorder_plug. cbn. set_solver. }
  eapply wp_delete_node; [exact Hp|]. clear h Hp. intros h Hh. unfold delete_rest.
  rewrite (proj2 (Z.eqb_neq _ _) Hyz). cbn [negb].
  set (np1 := if decide _ then _ else _) in Hh.
  assert (holds h ((y, node_of DR cy (up (ky z)) (ptr ry) (rb_nil tr)) ::
    all_cells tr np1 k (Node c l z (plug kl ry)))) as H1.
  { eapply holds_perm; [|exact Hh]. unfold ky. rewrite all_cells_app, all_cells_zoom. done. }
  apply wp_bind. eapply wp_replace; [exact H1|exact Hl|]. clear h Hh H1. intros h Hh%holds_tail.
  destruct (rb_plug_ctx _ _ _ _ Hm eq_refl) as (ct & n & c' & Hn & Hk & _).
  destruct (rb_one_child _ _ _ _ _ _ Hn) as (cx & HX & -> & -> & Hcx).
  eapply wp_finish_delete; [|exact HX|eapply rb_ctx_rename; exact Hk|exact Hcx|exact HQ].
  set (np2 := if decide _ then _ else _) in Hh.
  assert (placed h np2 (ky y) ry) as Hp2 by (apply placed_app, placed_zoom; exact Hh).
  split; [exact Hp2|]. intros ->. unfold np2, np1, ky. destruct kl as [|f kl]; [done|].
  rewrite decide_False; [done|]. cbn [plug]. intros E0. apply (f_equal inorder) in E0.
  rewrite inorder_plug, inorder_branch in E0. cbn [inorder] in E0.
  destruct (fd f); cbn in E0; [|destruct (before kl), (inorder (fs f)); done].
  destruct (before kl); done.
Qed.

Lemma wp_rb_delete z k c l r h np m (Q : unit → rbheap → Prop) :
  placed h np k (Node c l z r) → rb false m (plug k (Node c l z r)) →
  (∀ h' np' W, placed h' np' [] W → (∃ m, rb false m W) →
     inorder W = (before k ++ inorder l) ++ inorder r ++ after k → Q tt h') →
  wp (rb_delete tr z) h Q.
Proof.
  intros Hp Hm HQ. rewrite rb_delete_eq. apply wp_bind.
  eapply wp_rb_at; [by apply (placed_node tr L h0 h np k DL)|]. cbn [node_of rb_left rb_right].
  destruct (decide (l = Leaf)) as [->|Hl].
  { cbn [RbRep.ptr]. rewrite Z.eqb_refl. cbn [orb]. apply wp_bind. rewrite wp_ret.
    eapply (wp_delete_self z DR c r); [exact Hp|exact Hm|]. intros h' np' W HW HmW Ew.
    eapply HQ; [exact HW|exact HmW|]. rewrite Ew, inorder_plug. cbn. by rewrite app_nil_r. }
  destruct (decide (r = Leaf)) as [->|Hr].
  { cbn [RbRep.ptr]. rewrite Z.eqb_refl, orb_true_r. apply wp_bind. rewrite wp_ret.
    eapply (wp_delete_self z DL c l); [exact Hp|exact Hm|]. intros h' np' W HW HmW Ew.
    eapply HQ; [exact HW|exact HmW|]. rewrite Ew, inorder_plug. cbn. by rewrite app_assoc. }
  pose proof (proj2 (placed_zoom _ _ _ h np (mk_frame DL c z r) k l) Hp) as Hpl.
  pose proof (proj2 (placed_zoom _ _ _ h np (mk_frame DR c z l) k r) Hp) as Hpr.
  pose proof (placed_real _ _ _ _ _ _ _ Hpl Hl) as Hln. pose proof (placed_real _ _ _ _ _ _ _ Hpr Hr) as Hrn.
  rewrite (proj2 (Z.eqb_neq _ _) Hln), (proj2 (Z.eqb_neq _ _) Hrn). cbn [orb].
  apply wp_bind. unfold rb_tree_successor. apply wp_bind.
  eapply wp_rb_at; [by apply (placed_node tr L h0 h np k DL)|]. cbn [node_of rb_right].
  rewrite (proj2 (Z.eqb_neq _ _) Hrn). cbn [negb].
  eapply wp_extreme; [exact Hpr|exact Hr|]. intros kl cy y ry Er Hd.
  eapply (wp_delete_inner z c l kl cy y ry k); [|exact Hl| |].
  - apply placed_app. cbn [branch] in *. by rewrite Er.
  - rewrite plug_app. cbn [plug fd fc fa fs branch] in *. rewrite Er. exact Hm.
  - intros h' np' W HW HmW Ew. eapply HQ; [exact HW|exact HmW|]. rewrite Ew, plug_app.
    assert (before kl = []) as Eb.
    { clear -Hd. induction Hd as [|f kl Hf _ IH]; [done|]. cbn. by rewrite Hf. }
    cbn [plug branch fd fc fa fs]. rewrite inorder_plug. cbn [inorder].
    rewrite <- Er, !inorder_plug, Eb. cbn. rewrite <- !app_assoc. cbn. by rewrite <- app_assoc.
Qed.
End delete.

Lemma holds_weaken tr L L' h0 h np W :
  placed tr L h0 h np [] W → (∀ a, a ∈ rb_nil tr :: rb_root tr :: inorder W → a ∈ L') →
  placed tr L' h h np [] W.
Proof.
  intros [Hn Hc Hi Hf] HL. split; [done..| |done]. intros a Ha. apply HL.
  by rewrite <- (all_addrs tr np [] W).
Qed.

Lemma rb_delete_ok tr h l z :
  rb_rep tr h l → z ∈ l →
  ∃ h' l1 l2, rb_delete tr z h = Ok (tt, h') ∧ l = l1 ++ z :: l2 ∧ rb_rep tr h' (l1 ++ l2) ∧
    (∀ a, a ∉ rb_nil tr :: rb_root tr :: l → h' !! a = h !! a).
Proof.
  intros (np & W & Hp & EW & m & Hm) Hz. rewrite <- EW in Hz.
  destruct (find_place z W Hz) as (k & c & lt & rt & ->).
  assert (l = (before k ++ inorder lt) ++ z :: inorder rt ++ after k) as El
    by (rewrite <- EW, inorder_plug; cbn; by rewrite <- !app_assoc).
  assert (wp (rb_delete tr z) h (λ _ h', ∃ l1 l2, l = l1 ++ z :: l2 ∧ rb_rep tr h' (l1 ++ l2) ∧
    (∀ a, a ∉ rb_nil tr :: rb_root tr :: l → h' !! a = h !! a)))
    as (h' & Hr & l1 & l2 & H)%wp_unit; [|by exists h', l1, l2].
  eapply wp_rb_delete; [by apply placed_plug; exact Hp|exact Hm|]. intros h' np' W HW HmW Ew.
  exists (before k ++ inorder lt), (inorder rt ++ after k). split_and!; [done| |apply HW].
  exists np', W. split; [|done]. eapply holds_weaken; [exact HW|]. by rewrite Ew.
Qed.
