(* ===== verification/RbRefine.v ===== *)
(** * Red-black trees refine sorted lists

    Whatever calls of [rb_insert] and [rb_delete] are made, the nodes of the tree
    in order are what the same calls make of a list: an insertion goes behind the
    nodes that do not compare greater, a deletion takes the node out. *)
From S2P Require Import Prelude Rbtree RbRep RbSpec RbDelete.

Inductive rb_op := RbInsert (z : Z) | RbDelete (z : Z).

(** ** The abstract sequence *)

Fixpoint sorted_insert (cmp : Z → Z → Z) (z : Z) (l : list Z) : list Z :=
  match l with
  | [] => [z]
  | b :: l' => if 0 <? cmp b z then z :: l else b :: sorted_insert cmp z l'
  end.

Definition list_op (cmp : Z → Z → Z) (o : rb_op) (l : list Z) : list Z :=
  match o with
  | RbInsert z => sorted_insert cmp z l
  | RbDelete z => filter (λ a, a ≠ z) l
  end.

(** The calls the users of a tree make: a node is inserted when it is in no tree, and
    deleted when it is in this one. *)
Fixpoint legal (tr : Rb_tree) (h : rbheap) (os : list rb_op) (l : list Z) : Prop :=
  match os with
  | [] => True
  | o :: os' => match o with
                | RbInsert z => is_Some (h !! z) ∧ z ∉ rb_nil tr :: rb_root tr :: l
                | RbDelete z => z ∈ l
                end ∧ legal tr h os' (list_op (rb_compare tr) o l)
  end.

Definition do_rb_op (tr : Rb_tree) (o : rb_op) : M rbheap unit :=
  match o with RbInsert z => rb_insert tr z | RbDelete z => rb_delete tr z end.

Fixpoint do_rb_ops (tr : Rb_tree) (os : list rb_op) : M rbheap unit :=
  match os with [] => mret tt | o :: os' => do_rb_op tr o;; do_rb_ops tr os' end.

(** ** The abstract operations on split lists *)

Lemma sorted_insert_split cmp z l1 l2 :
  (∀ b, b ∈ l1 → cmp b z ≤ 0) → (∀ b, b ∈ l2 → 0 < cmp b z) →
  sorted_insert cmp z (l1 ++ l2) = l1 ++ z :: l2.
Proof.
  intros H1 H2. induction l1 as [|b l1 IH]; cbn.
  - destruct l2 as [|b l2]; [done|]. cbn. by rewrite (proj2 (Z.ltb_lt _ _)) by (apply H2; left).
  - rewrite (proj2 (Z.ltb_ge _ _)) by (apply H1; left). by rewrite IH by (intros; apply H1; by right).
Qed.

Lemma filter_out (z : Z) (l : list Z) : z ∉ l → filter (λ a, a ≠ z) l = l.
Proof.
  induction l as [|b l IH]; [done|]. intros Hz. rewrite filter_cons_True by set_solver.
  f_equal. apply IH. set_solver.
Qed.

Lemma filter_split (z : Z) (l1 l2 : list Z) : NoDup (l1 ++ z :: l2) → filter (λ a, a ≠ z) (l1 ++ z :: l2) = l1 ++ l2.
Proof.
  intros (_ & H1 & [H2 _]%NoDup_cons)%NoDup_app.
  assert (z ∉ l1) by (intros Hz; apply (H1 z Hz); left).
  rewrite filter_app, filter_cons_False by (intros Hne; by apply Hne).
  by rewrite !filter_out by set_solver.
Qed.

Lemma rep_nodup tr h l : rb_rep tr h l → NoDup l.
Proof.
  intros (np & W & Hp & <- & _). apply placed_nodup in Hp.
  apply NoDup_cons in Hp as [_ [_ Hp]%NoDup_cons]. by apply NoDup_app in Hp as (_ & _ & Hp).
Qed.

Lemma sorted_drop cmp l1 z l2 : rb_sorted cmp (l1 ++ z :: l2) → rb_sorted cmp (l1 ++ l2).
Proof.
  rewrite (sorted_app cmp l1 (z :: l2)), (sorted_app cmp l1 l2), (sorted_app cmp [z] l2).
  intros (H1 & (_ & H2 & _) & H3). split_and!; [done..|]. intros a b Ha Hb. apply H3; [done|by right].
Qed.

(** ** No node comes or goes *)

Definition keeps_dom {A} (m : M rbheap A) : Prop := ∀ h a h', m h = Ok (a, h') → dom h' = dom h.

Create HintDb keeps_dom.

Lemma keeps_dom_ret {A} (a : A) : keeps_dom (mret a).
Proof. by intros h ? ? [= <- <-]. Qed.

Lemma keeps_dom_gets {A} (f : rbheap → A) : keeps_dom (gets f).
Proof. by intros h ? ? [= <- <-]. Qed.

Lemma keeps_dom_option {A} (o : option A) : keeps_dom (of_option o).
Proof. intros h a h'. destruct o; cbn; [|done]. by intros [= <- <-]. Qed.

Lemma keeps_dom_bind {A B} (m : M rbheap A) (k : A → M rbheap B) :
  keeps_dom m → (∀ a, keeps_dom (k a)) → keeps_dom (m ≫= k).
Proof.
  intros Hm Hk h b h'. unfold mbind, M_bind. destruct (m h) as [[a h1]| | | |] eqn:E; try done.
  intros Hb. rewrite (Hk _ _ _ _ Hb). by eapply Hm.
Qed.

Lemma keeps_dom_assert b : keeps_dom (assert_ b).
Proof. intros h a h'. destruct b; cbn; [|done]. by intros [= <- <-]. Qed.

Lemma keeps_dom_loop {L A} fuel (body : L → M rbheap (L + A)) l :
  (∀ l, keeps_dom (body l)) → keeps_dom (loop fuel body l).
Proof.
  intros Hb. revert l. induction fuel as [|fuel IH]; intros l; [done|].
  cbn. apply keeps_dom_bind; [done|]. intros [l'|a]; [done|apply keeps_dom_ret].
Qed.

Lemma keeps_dom_upd a f : keeps_dom (rb_upd a f).
Proof.
  intros h u h'. unfold rb_upd, rb_get, mbind, M_bind. cbn. destruct (h !! a) as [n|] eqn:E; [|done].
  cbn. intros [= <- <-]. rewrite dom_insert_L. apply elem_of_dom_2 in E. set_solver.
Qed.

#[export] Hint Resolve keeps_dom_ret keeps_dom_gets keeps_dom_option keeps_dom_assert keeps_dom_upd : keeps_dom.

Ltac dom_step :=
  match goal with
  | |- keeps_dom (mbind _ _) => apply keeps_dom_bind; [|intros ?]
  | |- keeps_dom (loop _ _ _) => apply keeps_dom_loop; intros ?
  | |- keeps_dom (if ?b then _ else _) => destruct b
  | |- keeps_dom (match ?x with (_, _) => _ end) => destruct x
  | |- _ => solve [eauto with keeps_dom]
  end.

Lemma keeps_dom_get a : keeps_dom (rb_get a).
Proof. unfold rb_get. repeat dom_step. Qed.
#[export] Hint Resolve keeps_dom_get : keeps_dom.

Lemma keeps_dom_parent a : keeps_dom (parent_of a).
Proof. unfold parent_of. repeat dom_step. Qed.

Lemma keeps_dom_grand a : keeps_dom (grand a).
Proof. unfold grand. repeat dom_step. Qed.

Lemma keeps_dom_rotate d t x : keeps_dom (rb_rotate d t x).
Proof. unfold rb_rotate. repeat dom_step. Qed.
#[export] Hint Resolve keeps_dom_parent keeps_dom_grand keeps_dom_rotate : keeps_dom.

Lemma keeps_dom_insert_sub d t x : keeps_dom (rb_insert_sub d t x).
Proof. unfold rb_insert_sub. repeat dom_step. Qed.

Lemma keeps_dom_delete_sub d t r x : keeps_dom (rb_delete_fixup_sub d t r x).
Proof. unfold rb_delete_fixup_sub. repeat dom_step. Qed.
#[export] Hint Resolve keeps_dom_insert_sub keeps_dom_delete_sub : keeps_dom.

Lemma keeps_dom_successor t x : keeps_dom (rb_tree_successor t x).
Proof. unfold rb_tree_successor, rb_extreme. repeat dom_step. Qed.
#[export] Hint Resolve keeps_dom_successor : keeps_dom.

Lemma keeps_dom_insert t z : keeps_dom (rb_insert t z).
Proof. unfold rb_insert, rb_insert_binary. repeat dom_step. Qed.

Lemma keeps_dom_delete t z : keeps_dom (rb_delete t z).
Proof. unfold rb_delete, rb_delete_fixup. repeat dom_step. Qed.

Lemma legal_dom tr h h' os l : dom h' = dom h → legal tr h os l → legal tr h' os l.
Proof.
  intros Hd. revert l. induction os as [|[z|z] os IH]; intros l; cbn; [done| |].
  - rewrite <- !elem_of_dom, Hd. naive_solver.
  - naive_solver.
Qed.

(** ** Refinement *)

Lemma rb_op_refines tr `{!CompareOk (rb_compare tr)} h l o os :
  rb_rep tr h l → rb_sorted (rb_compare tr) l → legal tr h (o :: os) l →
  ∃ h', do_rb_op tr o h = Ok (tt, h') ∧ rb_rep tr h' (list_op (rb_compare tr) o l) ∧
    rb_sorted (rb_compare tr) (list_op (rb_compare tr) o l) ∧ dom h' = dom h ∧
    ∀ a, a ∉ rb_nil tr :: rb_root tr :: l → o ≠ RbInsert a → h' !! a = h !! a.
Proof.
  intros Hr Hs [Ho _]. destruct o as [z|z]; cbn [do_rb_op list_op] in *.
  - destruct Ho as [Hz Hn].
    destruct (rb_insert_ok tr h l z Hr Hs Hz Hn) as (h' & l1 & l2 & E & -> & Hr' & Hs' & H1 & H2 & Hf).
    exists h'. rewrite sorted_insert_split by done. split_and!; [done..|by eapply keeps_dom_insert|].
    intros a Ha Hne. apply Hf. assert (a ≠ z) by congruence. set_solver.
  - destruct (rb_delete_ok tr h l z Hr Ho) as (h' & l1 & l2 & E & -> & Hr' & Hf).
    exists h'. rewrite filter_split by by eapply rep_nodup. split_and!; [done..| | |].
    + by eapply sorted_drop.
    + by eapply keeps_dom_delete.
    + intros a Ha _. by apply Hf.
Qed.

(** C8: every sequence of insertions and deletions returns, and leaves a red-black
    tree whose order is what the same sequence makes of a sorted list *)
Theorem rb_refines_sorted_list tr `{!CompareOk (rb_compare tr)} h l os :
  rb_rep tr h l → rb_sorted (rb_compare tr) l → legal tr h os l →
  ∃ h', do_rb_ops tr os h = Ok (tt, h') ∧
    rb_rep tr h' (foldl (λ l o, list_op (rb_compare tr) o l) l os) ∧
    rb_sorted (rb_compare tr) (foldl (λ l o, list_op (rb_compare tr) o l) l os).
Proof.
  revert h l. induction os as [|o os IH]; intros h l Hr Hs Hl; [by exists h|].
  destruct (rb_op_refines tr h l o os Hr Hs Hl) as (h1 & E & Hr1 & Hs1 & Hd & _).
  destruct (IH h1 _ Hr1 Hs1) as (h' & E' & H); [by eapply legal_dom, Hl|].
  exists h'. split; [|done]. cbn. unfold mbind, M_bind. by rewrite E.
Qed.

(** A new node goes between two others, and the one at the root goes. *)
Lemma rb_refines_sorted_list_witness :
  legal demo_tree demo_nodes [RbInsert 25; RbDelete 20; RbDelete 10; RbInsert 20] [10; 20; 30; 40] ∧
  ∃ h', do_rb_ops demo_tree [RbInsert 25; RbDelete 20; RbDelete 10; RbInsert 20] demo_nodes = Ok (tt, h') ∧
    rb_rep demo_tree h' [20; 25; 30; 40] ∧ rb_sorted Z.sub [20; 25; 30; 40].
Proof.
  assert (legal demo_tree demo_nodes [RbInsert 25; RbDelete 20; RbDelete 10; RbInsert 20] [10; 20; 30; 40]) as Hl.
  { split_and!; cbn; try done; try (by eexists); refine (bool_decide_unpack _ _); vm_compute; exact I. }
  split; [exact Hl|].
  exact (rb_refines_sorted_list demo_tree demo_nodes [10; 20; 30; 40] _ demo_rep demo_sorted Hl).
Defined.
