(* ===== verification/RbSearch.v ===== *)
(** * Red-black trees: search, neighbours, height and creation *)
From S2P Require Import Prelude Rbtree RbRep RbSpec RbDelete.

Section read.
Context (tr : Rb_tree) (L : list Z) (h0 : rbheap).
Abbreviation placed := (placed tr L h0).
Abbreviation up := (up tr).
Abbreviation ptr := (ptr tr).

(** ** Search *)

Context (compare : Z → Z).

(** The keys before one that is not too large are too small, and those after one
    that is not too small are too large. *)
Definition splits (l : list Z) : Prop := ∀ l1 a l2, l = l1 ++ a :: l2 →
  (0 < compare a → ∀ b, b ∈ l2 → 0 < compare b) ∧ (compare a < 0 → ∀ b, b ∈ l1 → compare b < 0).

Lemma splits_app l1 a l2 : splits (l1 ++ a :: l2) →
  splits l1 ∧ splits l2 ∧ (0 < compare a → ∀ b, b ∈ l2 → 0 < compare b) ∧
  (compare a < 0 → ∀ b, b ∈ l1 → compare b < 0).
Proof.
  intros Hs. split_and!; [| |by apply (Hs l1 a l2)..].
  - intros m1 b m2 ->. destruct (Hs m1 b (m2 ++ a :: l2)) as [H1 H2]; [by rewrite <- app_assoc|].
    split; [|done]. intros Hb c Hc. apply H1; [done|]. apply elem_of_app. by left.
  - intros m1 b m2 ->. destruct (Hs (l1 ++ a :: m1) b m2) as [H1 H2]; [by rewrite <- app_assoc|].
    split; [done|]. intros Hb c Hc. apply H2; [done|]. set_solver.
Qed.

(** What a search answers. *)
Definition found (l : list Z) (o : option Z) : Prop :=
  match o with Some x => x ∈ l ∧ compare x = 0 | None => ∀ x, x ∈ l → compare x ≠ 0 end.

Lemma wp_search_loop k t h np fuel (Q : Z → rbheap → Prop) :
  placed h np k t → splits (inorder t) → (length (inorder t) < fuel)%nat →
  (∀ x, found (inorder t) (or_null tr x) → Q x h) →
  wp (loop fuel (λ x,
    if x =? rb_nil tr then mret (inr x) else
    let r := compare x in
    if r =? 0 then mret (inr x) else
    nx ← rb_get x;
    mret (inl (if 0 <? r then rb_left nx else rb_right nx))) (ptr t)) h Q.
Proof.
  revert k fuel. induction t as [|c l IHl a r IHr]; intros k fuel Hp Hs Hfuel HQ;
    (destruct fuel as [|fuel]; [lia|]); cbn [loop]; apply wp_bind.
  { cbn [RbRep.ptr]. rewrite Z.eqb_refl, wp_ret, wp_ret. apply HQ. unfold or_null. rewrite Z.eqb_refl.
    by intros x ?%elem_of_nil. }
  pose proof (placed_real _ _ _ _ _ _ _ Hp ltac:(done)) as Hreal. cbn [RbRep.ptr] in *.
  rewrite (proj2 (Z.eqb_neq _ _) Hreal). cbv zeta. cbn [inorder] in *. rewrite length_app in Hfuel. cbn in Hfuel.
  destruct (splits_app _ _ _ Hs) as (Hsl & Hsr & Hgt & Hlt).
  destruct (Z.eqb_spec (compare a) 0) as [Hz|Hz].
  { rewrite wp_ret, wp_ret. apply HQ. unfold or_null. rewrite (proj2 (Z.eqb_neq _ _) Hreal).
    split; [set_solver|done]. }
  apply wp_bind. eapply wp_rb_at; [by apply (placed_node tr L h0 h np k DL c a l r)|].
  rewrite wp_ret. cbn [rb_left rb_right node_of]. destruct (Z.ltb_spec 0 (compare a)) as [Hc|Hc].
  - apply (IHl (mk_frame DL c a r :: k)); [by apply placed_zoom|done|lia|].
    intros x Hx. apply HQ. destruct (or_null tr x) as [y|].
    + destruct Hx. split; [set_solver|done].
    + intros y. rewrite elem_of_app, elem_of_cons. intros [?|[->|Hy]]; [by apply Hx|done|].
      pose proof (Hgt Hc y Hy). lia.
  - apply (IHr (mk_frame DR c a l :: k)); [by apply placed_zoom|done|lia|].
    intros x Hx. apply HQ. destruct (or_null tr x) as [y|].
    + destruct Hx. split; [set_solver|done].
    + intros y. rewrite elem_of_app, elem_of_cons. intros [Hy|[->|?]]; [|done|by apply Hx].
      pose proof (Hlt ltac:(lia) y Hy). lia.
Qed.

End read.

(** ** Neighbours *)

Section climb.
Context (tr : Rb_tree) (L : list Z) (h0 : rbheap).
Abbreviation placed := (placed tr L h0).
Abbreviation up := (up tr).
Abbreviation ptr := (ptr tr).

(** Upwards until the way comes from the other side. *)
Lemma wp_climb k t h np fuel (Q : Z → rbheap → Prop) :
  placed h np k t → t ≠ Leaf → (length k < fuel)%nat →
  Q (match head (after k) with Some y => y | None => rb_root tr end) h →
  wp (loop fuel (λ '(x, y),
    ny ← rb_get y;
    if negb (x =? rb_right ny) then mret (inr y) else mret (inl (y, rb_parent ny))) (ptr t, up k)) h Q.
Proof.
  revert t fuel. induction k as [|[d c a s] k IH]; intros t fuel Hp Ht Hfuel HQ;
    (destruct fuel as [|fuel]; [lia|]); cbn [loop]; apply wp_bind, wp_bind;
    (eapply wp_rb_at; [by apply (placed_up _ _ _ _ _ _ _ Hp)|]); cbn [hole snd fd fc fa fs].
  - pose proof (placed_real _ _ _ _ _ _ _ Hp Ht) as Hr. cbn [rb_right].
    rewrite (proj2 (Z.eqb_neq _ _) Hr). cbn [negb]. by rewrite wp_ret, wp_ret.
  - pose proof (placed_side _ _ _ _ _ _ _ _ DR Hp Ht) as Hside. cbn [fd fc fa fs child] in Hside.
    rewrite Hside. cbn [up]. destruct d; cbn [bool_decide decide negb] in *.
    + rewrite bool_decide_eq_false_2 by done. cbn [negb]. by rewrite wp_ret, wp_ret.
    + rewrite bool_decide_eq_true_2 by done. cbn [negb]. rewrite wp_ret, parent_node.
      apply placed_zoom in Hp. cbn [fd fc fa fs] in Hp.
      specialize (IH _ fuel Hp ltac:(done)). cbn [branch RbRep.ptr] in IH.
      apply IH; [cbn in Hfuel; lia|]. exact HQ.
Qed.

(** The node before the place, in the words of [rb_tree_predecessor]. *)
Lemma wp_climb_prev k t h np fuel (Q : Z → rbheap → Prop) :
  placed h np k t → t ≠ Leaf → (length k < fuel)%nat →
  Q (default (rb_nil tr) (last (before k))) h →
  wp (loop fuel (λ '(x, y),
    ny ← rb_get y;
    if negb (x =? rb_left ny) then mret (inr y)
    else if y =? rb_root tr then mret (inr (rb_nil tr))
    else mret (inl (y, rb_parent ny))) (ptr t, up k)) h Q.
Proof.
  revert t fuel. induction k as [|[d c a s] k IH]; intros t fuel Hp Ht Hfuel HQ;
    (destruct fuel as [|fuel]; [lia|]); cbn [loop]; apply wp_bind, wp_bind;
    (eapply wp_rb_at; [by apply (placed_up _ _ _ _ _ _ _ Hp)|]); cbn [hole snd fd fc fa fs].
  - cbn [rb_left up]. rewrite !Z.eqb_refl. cbn [negb]. by rewrite wp_ret, wp_ret.
  - pose proof (placed_side _ _ _ _ _ _ _ _ DL Hp Ht) as Hside. cbn [fd fc fa fs child] in Hside.
    rewrite Hside. cbn [up]. apply placed_zoom in Hp. cbn [fd fc fa fs] in Hp. destruct d.
    + rewrite bool_decide_eq_true_2 by done. cbn [negb fa].
      assert (a ≠ rb_root tr) as Ha by (eapply placed_ne; [exact Hp|cbn; set_solver]).
      rewrite (proj2 (Z.eqb_neq _ _) Ha), wp_ret, parent_node.
      specialize (IH _ fuel Hp ltac:(done)). cbn [branch RbRep.ptr] in IH.
      apply IH; [cbn in Hfuel; lia|]. exact HQ.
    + rewrite bool_decide_eq_false_2 by done. cbn [negb fa]. rewrite wp_ret, wp_ret.
      cbn in HQ. rewrite app_assoc, last_snoc in HQ. exact HQ.
Qed.
End climb.

(** One occurrence splits a list in one way. *)
Lemma nodup_split (z : Z) l1 l2 m1 m2 :
  NoDup (l1 ++ z :: l2) → l1 ++ z :: l2 = m1 ++ z :: m2 → l1 = m1 ∧ l2 = m2.
Proof.
  revert m1. induction l1 as [|a l1 IH]; intros [|b m1] Hn El; cbn in *.
  - by injection El.
  - injection El as -> ->. apply NoDup_cons in Hn as [Hn _]. set_solver.
  - injection El as -> <-. apply NoDup_cons in Hn as [Hn _]. set_solver.
  - injection El as -> El. apply NoDup_cons in Hn as [_ Hn]. by destruct (IH _ Hn El) as [-> ->].
Qed.

(** A node of a tree, at its place. *)
Lemma rep_place tr h l1 x l2 : rb_rep tr h (l1 ++ x :: l2) →
  ∃ L np k c l r, placed tr L h h np k (Node c l x r) ∧
    l1 = before k ++ inorder l ∧ l2 = inorder r ++ after k.
Proof.
  intros (np & W & Hp & EW & _). destruct (find_place x W) as (k & c & l & r & ->); [rewrite EW; set_solver|].
  assert (NoDup (l1 ++ x :: l2)) as Hn.
  { rewrite <- EW. apply placed_nodup in Hp. cbn in Hp.
    by apply NoDup_cons in Hp as [_ [_ Hp]%NoDup_cons]. }
  assert (l1 ++ x :: l2 = (before k ++ inorder l) ++ x :: inorder r ++ after k) as El
    by (rewrite <- EW, inorder_plug; cbn; by rewrite <- !app_assoc).
  destruct (nodup_split _ _ _ _ _ Hn El) as [-> ->].
  exists (rb_nil tr :: rb_root tr :: (before k ++ inorder l) ++ x :: inorder r ++ after k), np, k, c, l, r.
  split; [|done]. by apply placed_plug.
Qed.

(** The other nodes of a tree are neither [nil] nor the head. *)
Lemma rep_real tr h l a : rb_rep tr h l → a ∈ l → a ≠ rb_nil tr ∧ a ≠ rb_root tr.
Proof.
  intros (np & W & Hp & EW & _) Ha. rewrite <- EW in Ha.
  destruct (placed_ne _ _ _ _ _ _ _ _ Hp Ha) as (? & ? & _). done.
Qed.

(** A search finds a node of the tree that compares equal, and nothing only if
    there is none *)
Theorem rb_search_spec tr compare h l :
  rb_rep tr h l → splits compare l →
  ∃ o, rb_search tr compare h = Ok (o, h) ∧ found compare l o.
Proof.
  intros (np & W & Hp & EW & _) Hs. rewrite <- EW in Hs.
  assert (wp (rb_search tr compare) h (λ o h', found compare l o ∧ h' = h))
    as (o & h' & Hr & Hf & ->)%wp_run; [|by exists o].
  unfold rb_search. apply wp_bind.
  eapply wp_rb_at; [by apply (placed_root _ _ _ h np [] W Hp)|]. cbn [plug rb_left].
  apply wp_bind, wp_gets, wp_bind.
  eapply (wp_search_loop tr _ h compare []); [exact Hp|done| |].
  - pose proof (placed_size _ _ _ _ _ _ _ Hp). lia.
  - intros x Hx. rewrite wp_ret. by rewrite <- EW.
Qed.

(** The next node is the one that follows in the order, and none after the last *)
Theorem rb_node_next_spec tr h l1 x l2 :
  rb_rep tr h (l1 ++ x :: l2) → rb_node_next tr x h = Ok (head l2, h).
Proof.
  intros Hrep. destruct (rep_place _ _ _ _ _ Hrep) as (L & np & k & c & l & r & Hp & _ & E2).
  apply wp_result. unfold rb_node_next, rb_tree_successor. apply wp_bind, wp_bind.
  assert (∀ y h', h' = h → y = match head l2 with Some y => y | None => rb_nil tr end →
    wp (mret (or_null tr y)) h' (λ a s', a = head l2 ∧ s' = h)) as Hend.
  { intros y h' -> ->. rewrite wp_ret. split; [|done]. unfold or_null. destruct (head l2) as [a|] eqn:Ea.
    - rewrite (proj2 (Z.eqb_neq _ _)); [done|]. apply (rep_real _ _ _ _ Hrep).
      destruct l2; [done|]. cbn in Ea. injection Ea as ->. set_solver.
    - by rewrite Z.eqb_refl. }
  eapply wp_rb_at; [by apply (placed_node tr L h h np k DL c x l r)|]. cbn [rb_right rb_parent node_of].
  destruct (decide (r = Leaf)) as [->|Hr].
  - cbn [RbRep.ptr]. rewrite Z.eqb_refl. cbn [negb]. apply wp_bind, wp_gets, wp_bind.
    apply (wp_climb tr L h k (Node c l x Leaf) h np); [exact Hp|done|pose proof (placed_size _ _ _ _ _ _ _ Hp); lia|].
    rewrite wp_ret. apply Hend; [done|]. cbn [inorder app] in E2. rewrite <- E2.
    destruct (head l2) as [a|] eqn:Ea; [|by rewrite Z.eqb_refl].
    rewrite (proj2 (Z.eqb_neq _ _)); [done|]. apply (rep_real _ _ _ _ Hrep).
    destruct l2; [done|]. cbn in Ea. injection Ea as ->. set_solver.
  - apply (placed_zoom _ _ _ h np (mk_frame DR c x l)) in Hp. pose proof (placed_real _ _ _ _ _ _ _ Hp Hr) as Hn.
    rewrite (proj2 (Z.eqb_neq _ _) Hn). cbn [negb].
    eapply wp_extreme; [exact Hp|exact Hr|]. intros kl cy y s Er Hd. apply Hend; [done|].
    rewrite E2, <- Er, inorder_plug. cbn [branch inorder app].
    assert (before kl = []) as ->; [|done].
    clear -Hd. induction Hd as [|f kl Hf _ IH]; [done|]. cbn. by rewrite Hf.
Qed.

(** The previous node is the one before in the order, and none before the first *)
Theorem rb_node_prev_spec tr h l1 x l2 :
  rb_rep tr h (l1 ++ x :: l2) → rb_node_prev tr x h = Ok (last l1, h).
Proof.
  intros Hrep. destruct (rep_place _ _ _ _ _ Hrep) as (L & np & k & c & l & r & Hp & E1 & _).
  apply wp_result. unfold rb_node_prev, rb_tree_predecessor. apply wp_bind, wp_bind.
  assert (∀ y h', h' = h → y = default (rb_nil tr) (last l1) →
    wp (mret (or_null tr y)) h' (λ a s', a = last l1 ∧ s' = h)) as Hend.
  { intros y h' -> ->. rewrite wp_ret. split; [|done]. unfold or_null. destruct (last l1) as [a|] eqn:Ea; cbn.
    - rewrite (proj2 (Z.eqb_neq _ _)); [done|]. apply (rep_real _ _ _ _ Hrep).
      apply last_Some_elem_of in Ea. set_solver.
    - by rewrite Z.eqb_refl. }
  eapply wp_rb_at; [by apply (placed_node tr L h h np k DL c x l r)|]. cbn [rb_left rb_parent node_of].
  destruct (decide (l = Leaf)) as [->|Hl].
  - cbn [RbRep.ptr]. rewrite Z.eqb_refl. cbn [negb]. apply wp_bind, wp_gets.
    apply (wp_climb_prev tr L h k (Node c Leaf x r) h np); [exact Hp|done|pose proof (placed_size _ _ _ _ _ _ _ Hp); lia|].
    apply Hend; [done|]. cbn [inorder] in E1. by rewrite E1, app_nil_r.
  - apply (placed_zoom _ _ _ h np (mk_frame DL c x r)) in Hp. pose proof (placed_real _ _ _ _ _ _ _ Hp Hl) as Hn.
    rewrite (proj2 (Z.eqb_neq _ _) Hn). cbn [negb].
    eapply wp_extreme; [exact Hp|exact Hl|]. intros kl cy y s El Hd. apply Hend; [done|].
    rewrite E1, <- El, inorder_plug. cbn [branch inorder app].
    assert (after kl = []) as ->.
    { clear -Hd. induction Hd as [|f kl Hf _ IH]; [done|]. cbn. by rewrite Hf. }
    by rewrite app_nil_r, !app_assoc, last_snoc.
Qed.

(** ** Height *)

Fixpoint height (t : tree) : nat :=
  match t with Leaf => 0 | Node _ l _ r => S (height l `max` height r) end.

Lemma rb_height c n t : rb c n t →
  (2 ^ n ≤ S (length (inorder t)) ∧ height t ≤ 2 * n + (if c then 1 else 0))%nat.
Proof.
  induction 1 as [|n l a r Hl [IHl1 IHl2] Hr [IHr1 IHr2]|n c1 c2 l a r Hl [IHl1 IHl2] Hr [IHr1 IHr2]];
    cbn [inorder height length]; [cbn; lia|..]; rewrite length_app; cbn [length].
  - lia.
  - rewrite Nat.pow_succ_r'. destruct c1, c2; lia.
Qed.

(** The tree in the store is balanced: no path from the root is longer than twice
    the logarithm of the number of nodes *)
Theorem rb_height_bound tr h l : rb_rep tr h l →
  ∃ np W, placed tr (rb_nil tr :: rb_root tr :: l) h h np [] W ∧ inorder W = l ∧
    (height W ≤ 2 * Nat.log2 (S (length l)))%nat.
Proof.
  intros (np & W & Hp & EW & m & Hm). exists np, W. split_and!; [done..|].
  destruct (rb_height _ _ _ Hm) as [H1 H2]. rewrite EW in H1.
  assert (m ≤ Nat.log2 (S (length l)))%nat by (apply Nat.log2_le_pow2; lia). lia.
Qed.

(** ** Creation *)

(** What [kmalloc] promises: a fresh object, or 0 and nothing done. *)
Class RbAlloc `{RK : !RbKmalloc} := {
  kmalloc_tree_ok w : ∃ t w', kmalloc_tree w = Ok (t, w') ∧
    (t = 0 ∧ w' = w ∨
     t ≠ 0 ∧ rm_trees w !! t = None ∧ ∃ v, w' = set_rm_trees (<[t := v]> (rm_trees w)) w);
  rb_node_create_ok w : ∃ a w', rb_node_create w = Ok (a, w') ∧
    (a = 0 ∧ w' = w ∨
     a ≠ 0 ∧ rm_nodes w !! a = None ∧ ∃ v, w' = set_rm_nodes (<[a := v]> (rm_nodes w)) w)
}.

Section create_spec.
Context `{RA : RbAlloc}.

Lemma wp_put_tree a f w t (Q : unit → rbmem → Prop) :
  rm_trees w !! a = Some t → Q tt (set_rm_trees (<[a := f t]> (rm_trees w)) w) → wp (put_tree a f) w Q.
Proof.
  intros Ha HQ. unfold put_tree, get_tree. apply wp_bind, wp_bind, wp_gets. rewrite Ha.
  apply wp_of_option. exists t. split; [done|]. by apply wp_modify.
Qed.

Lemma wp_put_node a n w (Q : unit → rbmem → Prop) :
  is_Some (rm_nodes w !! a) → Q tt (set_rm_nodes (<[a := n]> (rm_nodes w)) w) →
  wp (on_nodes (rb_upd a (λ _, n))) w Q.
Proof.
  intros [m Ha] HQ. unfold on_nodes. apply wp_zoom. unfold rb_upd. apply wp_bind.
  eapply wp_rb_at; [exact Ha|]. by apply wp_modify.
Qed.

Lemma kfree_undef a w : rm_nodes w !! a = None → kfree_node a w = Undef.
Proof.
  intros Ha. unfold kfree_node, on_nodes. apply undef_here. unfold zoom, rb_get, mbind, M_bind, gets.
  cbn. by rewrite Ha.
Qed.

(** Memory with a tree [t] of [nil] and head, and nothing in it. *)
Definition empty_tree (cmp : Z → Z → Z) (t : Z) (w w' : rbmem) : Prop :=
  rm_trees w !! t = None ∧ ∃ nil root, rm_nodes w !! nil = None ∧ rm_nodes w !! root = None ∧
    rm_trees w' = <[t := mk_tree cmp nil root]> (rm_trees w) ∧
    rb_rep (mk_tree cmp nil root) (rm_nodes w') [] ∧ rm_nodes w ⊆ rm_nodes w'.

(** A node the allocator gives is set up. *)
Lemma wp_new_node {A} a w w' n (m : M rbmem A) (Q : A → rbmem → Prop) :
  (∃ v, w' = set_rm_nodes (<[a := v]> (rm_nodes w)) w) →
  wp m (set_rm_nodes (<[a := n]> (rm_nodes w)) w) Q → wp (on_nodes (rb_upd a (λ _, n));; m) w' Q.
Proof.
  intros [v ->] HQ. apply wp_bind, wp_put_node; [by eexists; apply lookup_insert_eq|].
  cbn. by rewrite insert_insert_eq.
Qed.

(** It returns with [Q], or is undefined and [R]. *)
Definition wp_or {A} (m : M rbmem A) (w : rbmem) (Q : A → rbmem → Prop) (R : Prop) : Prop :=
  wp m w Q ∨ m w = Undef ∧ R.

Lemma wp_or_bind {A B} (m : M rbmem A) (k : A → M rbmem B) w Q R :
  wp m w (λ a w', wp_or (k a) w' Q R) → wp_or (m ≫= k) w Q R.
Proof.
  intros (a & w' & Em & [HQ|[Hu HR]])%wp_run; [left|right].
  - apply wp_bind. by eapply wp_of_run.
  - split; [|done]. apply undef_after. by eapply wp_of_run.
Qed.

Lemma wp_or_new_node {A} a w w' n (m : M rbmem A) Q R :
  (∃ v, w' = set_rm_nodes (<[a := v]> (rm_nodes w)) w) →
  wp_or m (set_rm_nodes (<[a := n]> (rm_nodes w)) w) Q R → wp_or (on_nodes (rb_upd a (λ _, n));; m) w' Q R.
Proof.
  intros [v ->] HQ. apply wp_or_bind, wp_put_node; [by eexists; apply lookup_insert_eq|].
  cbn. by rewrite insert_insert_eq.
Qed.

Lemma empty_tree_made cmp (nil root : Z) (w : rbheap) :
  nil ≠ root →
  rb_rep (mk_tree cmp nil root)
    (<[root := mk_rb false nil nil nil]> (<[nil := mk_rb false nil nil nil]> w)) [].
Proof.
  intros Hne. apply (rep_of_cells _ nil Leaf 0); [|  |constructor|done].
  - cbn. apply NoDup_cons. split; [by rewrite list_elem_of_singleton|by apply NoDup_singleton].
  - cbn. rewrite (insert_insert_ne w) by done. by repeat apply insert_mono; apply map_empty_subseteq.
Qed.

Definition no_node : Prop := ∃ w', rb_node_create w' = Ok (0, w').

Lemma wp_create_root cmp (t : Z) w0 w nil (tr0 : Rb_tree) :
  rm_trees w0 !! t = None → rm_trees w = <[t := tr0]> (rm_trees w0) → rb_compare tr0 = cmp → rb_nil tr0 = nil →
  rm_nodes w = <[nil := mk_rb false nil nil nil]> (rm_nodes w0) → rm_nodes w0 !! nil = None →
  wp_or (root ← rb_node_create;
    if root =? 0 then kfree_node nil;; kfree_node nil;; mret 0 else
    on_nodes (rb_upd root (λ _, mk_rb false nil nil nil));;
    put_tree t (λ t, mk_tree (rb_compare t) (rb_nil t) root);;
    mret t) w (λ a w', a = t ∧ empty_tree cmp t w0 w') no_node.
Proof.
  intros Hft Ht Hc Hn Hnodes Hfn. destruct (rb_node_create_ok w) as (root & w1 & Er & [[-> ->]|(Hr & Hf & Hw)]).
  - right. split; [|by exists w]. apply undef_after. eapply wp_of_run; [exact Er|]. cbn [Z.eqb].
    apply undef_after. unfold kfree_node, on_nodes. apply wp_bind, wp_zoom.
    eapply wp_rb_at; [rewrite Hnodes; apply lookup_insert_eq|].
    apply wp_modify. apply undef_here. apply kfree_undef. cbn. apply lookup_delete_eq.
  - apply wp_or_bind. eapply wp_of_run; [exact Er|]. rewrite (proj2 (Z.eqb_neq _ _) Hr).
    eapply wp_or_new_node; [exact Hw|]. left. apply wp_bind.
    eapply wp_put_tree; [cbn; rewrite Ht; apply lookup_insert_eq|].
    rewrite wp_ret, Hc, Hn. split; [done|]. split; [done|]. exists nil, root. cbn. rewrite Ht, insert_insert_eq, Hnodes.
    rewrite Hnodes in Hf. apply lookup_insert_None in Hf as [Hfr Hne]. split_and!; [done..|by apply empty_tree_made|].
    apply insert_subseteq_r; [done|]. by apply insert_subseteq.
Qed.

(** Creating a tree gives an empty one and leaves the nodes there were alone, or
    0 with nothing done when there is no memory for the tree; when there is none for a
    node, the clean-up frees what is not allocated *)
Theorem rb_tree_create_spec cmp w :
  rm_nodes w !! 0 = None →
  rb_tree_create cmp w = Ok (0, w) ∧ kmalloc_tree w = Ok (0, w) ∨
  (∃ t w', rb_tree_create cmp w = Ok (t, w') ∧ t ≠ 0 ∧ empty_tree cmp t w w') ∨
  rb_tree_create cmp w = Undef ∧ no_node.
Proof.
  intros H0. unfold rb_tree_create. destruct (kmalloc_tree_ok w) as (t & w1 & Et & [[-> ->]|(Ht & Hf & v & ->)]).
  { left. split; [|done]. apply wp_result, wp_bind. eapply wp_of_run; [exact Et|]. cbn [Z.eqb]. by rewrite wp_ret. }
  right. match goal with |- context [?m w = Undef] =>
    assert (wp_or m w (λ a w', a = t ∧ empty_tree cmp t w w') no_node) as
      [(a & w' & Hr & -> & He)%wp_run|?]; [|left; by exists t, w'|by right] end.
  apply wp_or_bind. eapply wp_of_run; [exact Et|]. rewrite (proj2 (Z.eqb_neq _ _) Ht).
  apply wp_or_bind. eapply wp_put_tree; [apply lookup_insert_eq|]. cbn. rewrite insert_insert_eq.
  set (w2 := set_rm_trees _ _).
  destruct (rb_node_create_ok w2) as (nil & w3 & En & [[-> ->]|(Hn & Hfn & Hw)]).
  { right. split; [|by exists w2]. apply undef_after. eapply wp_of_run; [exact En|]. cbn [Z.eqb].
    apply undef_here, kfree_undef, H0. }
  apply wp_or_bind. eapply wp_of_run; [exact En|]. rewrite (proj2 (Z.eqb_neq _ _) Hn).
  eapply wp_or_new_node; [exact Hw|]. apply wp_or_bind.
  eapply wp_put_tree; [apply lookup_insert_eq|]. cbn. rewrite insert_insert_eq.
  eapply wp_create_root; [exact Hf|reflexivity|done|done|done|exact Hfn].
Qed.

(** Where there is always memory for a node. *)
Lemma wp_rb_tree_create cmp w (Q : Z → rbmem → Prop) :
  ¬ no_node → Q 0 w → (∀ t w', t ≠ 0 → empty_tree cmp t w w' → Q t w') → wp (rb_tree_create cmp) w Q.
Proof.
  intros Hno H0 HQ. unfold rb_tree_create.
  destruct (kmalloc_tree_ok w) as (t & w1 & Et & [[-> ->]|(Ht & Hf & v & ->)]); apply wp_bind;
    (eapply wp_of_run; [exact Et|]); [by cbn [Z.eqb]; rewrite wp_ret|].
  rewrite (proj2 (Z.eqb_neq _ _) Ht). apply wp_bind. eapply wp_put_tree; [apply lookup_insert_eq|].
  cbn. rewrite insert_insert_eq. set (w2 := set_rm_trees _ _).
  destruct (rb_node_create_ok w2) as (nil & w3 & En & [[-> ->]|(Hn & Hfn & Hw)]); [by destruct Hno; exists w2|].
  apply wp_bind. eapply wp_of_run; [exact En|]. rewrite (proj2 (Z.eqb_neq _ _) Hn).
  eapply wp_new_node; [exact Hw|]. apply wp_bind. eapply wp_put_tree; [apply lookup_insert_eq|].
  cbn. rewrite insert_insert_eq. match goal with |- wp _ ?s _ =>
    destruct (wp_create_root cmp t w s nil (mk_tree cmp nil (rb_root v)) Hf eq_refl eq_refl eq_refl eq_refl Hfn)
      as [(a & w' & E & -> & He)%wp_run|[_ ?]] end; [|done].
  eapply wp_of_run; [exact E|]. by apply HQ.
Qed.
End create_spec.

(** ** Concrete runs *)

(** An allocator that has a fresh address as long as there are few objects. *)
Definition new_addr {A} (m : gmap Z A) : Z :=
  if (size m <? 64)%nat then fresh (dom m ∪ {[0]} : gset Z) else 0.

Lemma new_addr_ok {A} (m : gmap Z A) : new_addr m = 0 ∨ new_addr m ≠ 0 ∧ m !! new_addr m = None.
Proof.
  unfold new_addr. destruct (_ <? _)%nat; [right|by left].
  pose proof (is_fresh (dom m ∪ {[0]} : gset Z)) as Hf. revert Hf. generalize (fresh (dom m ∪ {[0]} : gset Z)).
  intros a [Ha1 Ha2]%not_elem_of_union. split; [by intros ->; apply Ha2, elem_of_singleton|].
  by apply not_elem_of_dom.
Qed.

#[local] Instance demo_kmalloc : RbKmalloc := {|
  kmalloc_tree w :=
    let a := new_addr (rm_trees w) in
    Ok (a, if a =? 0 then w else set_rm_trees (<[a := mk_tree Z.sub 0 0]> (rm_trees w)) w);
  rb_node_create w :=
    let a := new_addr (rm_nodes w) in
    Ok (a, if a =? 0 then w else set_rm_nodes (<[a := mk_rb true 0 0 0]> (rm_nodes w)) w)
|}.

#[local] Instance demo_alloc : RbAlloc.
Proof.
  split; intros w; (do 2 eexists; split; [reflexivity|]);
    [destruct (new_addr_ok (rm_trees w)) as [-> | [Hn Hf]]|destruct (new_addr_ok (rm_nodes w)) as [-> | [Hn Hf]]];
    try by left.
  all: right; split_and!; [done..|]; rewrite (proj2 (Z.eqb_neq _ _) Hn); by eexists.
Qed.

Definition demo_mem : rbmem := mk_rbmem demo_nodes ∅.

Lemma rb_tree_create_spec_witness : rm_nodes demo_mem !! 0 = None ∧
  (rb_tree_create Z.sub demo_mem = Ok (0, demo_mem) ∧ kmalloc_tree demo_mem = Ok (0, demo_mem) ∨
   (∃ t w', rb_tree_create Z.sub demo_mem = Ok (t, w') ∧ t ≠ 0 ∧ empty_tree Z.sub t demo_mem w') ∨
   rb_tree_create Z.sub demo_mem = Undef ∧ no_node).
Proof.
  assert (rm_nodes demo_mem !! 0 = None) as H0 by (vm_compute; reflexivity).
  split; [exact H0|]. apply (rb_tree_create_spec Z.sub demo_mem), H0.
Defined.

(** The tree is found to have 30. *)
Lemma demo_splits : splits (λ a, a - 30) [10; 20; 30; 40].
Proof.
  intros l1 a l2 El. assert (rb_sorted Z.sub (l1 ++ a :: l2)) as Hs by (rewrite <- El; exact demo_sorted).
  split; intros Ha b Hb.
  - apply sorted_app in Hs as (_ & Hs & _). apply (sorted_cons_iff demo_tree) in Hs as [_ Hs].
    specialize (Hs b Hb). cbn in Hs. lia.
  - apply sorted_app in Hs as (_ & _ & Hs). specialize (Hs b a Hb). rewrite elem_of_cons in Hs.
    specialize (Hs ltac:(by left)). lia.
Qed.

Lemma rb_search_spec_witness : rb_rep demo_tree demo_nodes [10; 20; 30; 40] ∧
  ∃ o, rb_search demo_tree (λ a, a - 30) demo_nodes = Ok (o, demo_nodes) ∧
    found (λ a, a - 30) [10; 20; 30; 40] o.
Proof.
  split; [exact demo_rep|].
  apply (rb_search_spec demo_tree (λ a, a - 30) demo_nodes [10; 20; 30; 40]); [exact demo_rep|exact demo_splits].
Defined.

Lemma rb_node_next_spec_witness : rb_rep demo_tree demo_nodes ([10] ++ 20 :: [30; 40]) ∧
  rb_node_next demo_tree 20 demo_nodes = Ok (Some 30, demo_nodes).
Proof.
  split; [exact demo_rep|]. apply (rb_node_next_spec demo_tree demo_nodes [10] 20 [30; 40]), demo_rep.
Defined.

Lemma rb_node_prev_spec_witness : rb_rep demo_tree demo_nodes ([] ++ 10 :: [20; 30; 40]) ∧
  rb_node_prev demo_tree 10 demo_nodes = Ok (None, demo_nodes).
Proof.
  split; [exact demo_rep|]. apply (rb_node_prev_spec demo_tree demo_nodes [] 10 [20; 30; 40]), demo_rep.
Defined.

Lemma rb_height_bound_witness : rb_rep demo_tree demo_nodes [10; 20; 30; 40] ∧
  ∃ np W, placed demo_tree [1; 2; 10; 20; 30; 40] demo_nodes demo_nodes np [] W ∧
    inorder W = [10; 20; 30; 40] ∧ (height W ≤ 4)%nat.
Proof.
  split; [exact demo_rep|]. apply (rb_height_bound demo_tree demo_nodes [10; 20; 30; 40]), demo_rep.
Defined.

(** * Red-black trees: what a client needs to know of the store

    No operation of a tree removes a node from the store, and a tree depends on its
    own nodes only. *)

Definition grows {A} (m : M rbheap A) : Prop :=
  ∀ h a h', m h = Ok (a, h') → ∀ x, is_Some (h !! x) → is_Some (h' !! x).

Lemma grows_ret {A} (a : A) : grows (mret a).
Proof. by intros h b h' [= <- <-]. Qed.
Lemma grows_bind {A B} (m : M rbheap A) (k : A → M rbheap B) :
  grows m → (∀ a, grows (k a)) → grows (m ≫= k).
Proof.
  intros Hm Hk h b h' E. unfold mbind, M_bind in E. destruct (m h) as [[a h1]| | | |] eqn:E1; try done.
  intros x Hx. eapply Hk; [exact E|]. by eapply Hm.
Qed.
Lemma grows_gets {A} (f : rbheap → A) : grows (gets f).
Proof. by intros h b h' [= <- <-]. Qed.
Lemma grows_panic {A} : grows (A := A) panic.
Proof. done. Qed.
Lemma grows_assert b : grows (assert_ b).
Proof. destruct b; [apply grows_ret|done]. Qed.
Lemma grows_option {A} (o : option A) : grows (of_option o).
Proof. destruct o; [apply grows_ret|done]. Qed.
Lemma grows_get a : grows (rb_get a).
Proof. apply grows_bind; [apply grows_gets|intros; apply grows_option]. Qed.
Lemma grows_upd a f : grows (rb_upd a f).
Proof.
  apply grows_bind; [apply grows_get|]. intros n h [] h' [= <-] x Hx. destruct (decide (a = x)) as [<-|].
  - rewrite lookup_insert_eq. by eexists.
  - by rewrite lookup_insert_ne.
Qed.
Lemma grows_loop {L A} fuel (body : L → M rbheap (L + A)) l : (∀ l, grows (body l)) → grows (loop fuel body l).
Proof.
  intros Hb. revert l. induction fuel as [|fuel IH]; intros l; [done|]. cbn [loop].
  apply grows_bind; [apply Hb|]. intros [l'|a]; [apply IH|apply grows_ret].
Qed.
Create HintDb grows.
#[export] Hint Resolve grows_ret grows_gets grows_assert grows_get grows_upd grows_panic : grows.
Ltac grow := repeat first
  [ progress cbv zeta | solve [auto with grows nocore] | apply grows_loop; intros
  | apply grows_bind; [|intros] | case_match ].

Lemma rotate_grows d t x : grows (rb_rotate d t x).
Proof. unfold rb_rotate. grow. Qed.
#[export] Hint Resolve rotate_grows : grows.
Lemma insert_grows t z : grows (rb_insert t z).
Proof. unfold rb_insert, rb_insert_binary, rb_insert_sub, parent_of, grand. grow. Qed.
Lemma delete_grows t z : grows (rb_delete t z).
Proof.
  unfold rb_delete, rb_delete_fixup, rb_delete_fixup_sub, rb_tree_successor, rb_extreme, parent_of. grow.
Qed.

(** ** What a tree depends on *)

Lemma rep_same t h h' l : rb_rep t h l → (∀ a, a ∈ rb_nil t :: rb_root t :: l → h' !! a = h !! a) → rb_rep t h' l.
Proof.
  intros (np & W & [Hn Hc Hi _] & EW & Hm) Hh. exists np, W. split; [|done]. split; [done| |done|done].
  intros a n Ha. rewrite Hh; [by apply Hc|]. apply Hi. by apply (list_elem_of_fmap_2 fst _ (a, n)).
Qed.

Lemma rep_is_node t h l n : rb_rep t h l → n ∈ rb_nil t :: rb_root t :: l → is_Some (h !! n).
Proof.
  intros (np & W & Hp & <- & _) Hn. pose proof (all_addrs t np [] W) as Ha. cbn in Ha.
  assert (n ∈ (all_cells t np [] W).*1) as ([n' y] & -> & Hy)%list_elem_of_fmap by (by rewrite Ha).
  eexists. by apply (ho_cells _ _ _ _ Hp).
Qed.
