(* ===== verification/Sched.v ===== *)
(** * The scheduler: [schedule/sched.c], [sched_CFS.c], [sched_RR.c], [sched_FCFS.c]

    Processes and CPUs are structures in a store; [run_link] and [list_link] are
    cells of the link store, and [rb_link] a node of the node store, in which the
    trees' own nodes live too.  A process is its address, a CPU its index.  The tree
    of a run queue compares the [vruntime]s the processes have at the time. *)
From S2P Require Import Prelude ListH Rbtree.

Inductive Proc_state := UNUSED | SLEEPING | RUNNABLE | RUNNING | ZOMBIE.
#[export] Instance Proc_state_eq_dec : EqDecision Proc_state.
Proof. solve_decision. Defined.

(** The scheduler's part of a process. *)
Record Proc := mk_proc {
  state : Proc_state;
  p_cpu : option Z;
  p_set_cpu : option Z;
  runs : Z;
  time_slice : Z;
  alloc_time_slice : Z;
  need_resched : bool;
  priority : Z;
  vruntime : Z;
  p_lock : bool;
  p_chan : Z;
  p_wait_state : Z
}.

Definition set_state v p := mk_proc v (p_cpu p) (p_set_cpu p) (runs p) (time_slice p) (alloc_time_slice p) (need_resched p) (priority p) (vruntime p) (p_lock p) (p_chan p) (p_wait_state p).
Definition set_p_cpu v p := mk_proc (state p) v (p_set_cpu p) (runs p) (time_slice p) (alloc_time_slice p) (need_resched p) (priority p) (vruntime p) (p_lock p) (p_chan p) (p_wait_state p).
Definition set_set_cpu v p := mk_proc (state p) (p_cpu p) v (runs p) (time_slice p) (alloc_time_slice p) (need_resched p) (priority p) (vruntime p) (p_lock p) (p_chan p) (p_wait_state p).
Definition set_runs v p := mk_proc (state p) (p_cpu p) (p_set_cpu p) v (time_slice p) (alloc_time_slice p) (need_resched p) (priority p) (vruntime p) (p_lock p) (p_chan p) (p_wait_state p).
Definition set_time_slice v p := mk_proc (state p) (p_cpu p) (p_set_cpu p) (runs p) v (alloc_time_slice p) (need_resched p) (priority p) (vruntime p) (p_lock p) (p_chan p) (p_wait_state p).
Definition set_alloc_slice v p := mk_proc (state p) (p_cpu p) (p_set_cpu p) (runs p) (time_slice p) v (need_resched p) (priority p) (vruntime p) (p_lock p) (p_chan p) (p_wait_state p).
Definition set_need_resched v p := mk_proc (state p) (p_cpu p) (p_set_cpu p) (runs p) (time_slice p) (alloc_time_slice p) v (priority p) (vruntime p) (p_lock p) (p_chan p) (p_wait_state p).
Definition set_vruntime v p := mk_proc (state p) (p_cpu p) (p_set_cpu p) (runs p) (time_slice p) (alloc_time_slice p) (need_resched p) (priority p) v (p_lock p) (p_chan p) (p_wait_state p).
Definition set_p_lock v p := mk_proc (state p) (p_cpu p) (p_set_cpu p) (runs p) (time_slice p) (alloc_time_slice p) (need_resched p) (priority p) (vruntime p) v (p_chan p) (p_wait_state p).
Definition set_p_chan v p := mk_proc (state p) (p_cpu p) (p_set_cpu p) (runs p) (time_slice p) (alloc_time_slice p) (need_resched p) (priority p) (vruntime p) (p_lock p) v (p_wait_state p).
Definition set_p_wait v p := mk_proc (state p) (p_cpu p) (p_set_cpu p) (runs p) (time_slice p) (alloc_time_slice p) (need_resched p) (priority p) (vruntime p) (p_lock p) (p_chan p) v.

(** [Sched_class]: which structure of functions [cpu->sc] points to. *)
Inductive Sched_class := CFS_sched_class | RR_sched_class | FCFS_sched_class.
#[export] Instance Sched_class_eq_dec : EqDecision Sched_class.
Proof. solve_decision. Defined.

(** [Cpu] and its [Run_queue]. *)
Record Cpu := mk_cpu {
  proc_num : Z;
  max_time_slice : Z;
  min_time_slice : Z;
  proc_vruntime_rbtree : Z;
  cpu_load : list Z;
  sc : option Sched_class;
  cpu_lock : bool
}.
Definition set_proc_num v c := mk_cpu v (max_time_slice c) (min_time_slice c) (proc_vruntime_rbtree c) (cpu_load c) (sc c) (cpu_lock c).
Definition set_slices mx mn c := mk_cpu (proc_num c) mx mn (proc_vruntime_rbtree c) (cpu_load c) (sc c) (cpu_lock c).
Definition set_tree v c := mk_cpu (proc_num c) (max_time_slice c) (min_time_slice c) v (cpu_load c) (sc c) (cpu_lock c).
Definition set_cpu_load v c := mk_cpu (proc_num c) (max_time_slice c) (min_time_slice c) (proc_vruntime_rbtree c) v (sc c) (cpu_lock c).
Definition set_sc v c := mk_cpu (proc_num c) (max_time_slice c) (min_time_slice c) (proc_vruntime_rbtree c) (cpu_load c) v (cpu_lock c).
Definition set_cpu_lock v c := mk_cpu (proc_num c) (max_time_slice c) (min_time_slice c) (proc_vruntime_rbtree c) (cpu_load c) (sc c) v.

Record sworld := mk_sworld {
  s_procs : gmap Z Proc;
  s_cpus : gmap Z Cpu;
  s_links : heap;
  s_mem : rbmem;
  s_me : Z;         (* the CPU this runs on *)
  s_cpus_num : Z;
  s_procs_lock : bool
}.
Definition set_s_procs v w := mk_sworld v (s_cpus w) (s_links w) (s_mem w) (s_me w) (s_cpus_num w) (s_procs_lock w).
Definition set_s_cpus v w := mk_sworld (s_procs w) v (s_links w) (s_mem w) (s_me w) (s_cpus_num w) (s_procs_lock w).
Definition set_s_links v w := mk_sworld (s_procs w) (s_cpus w) v (s_mem w) (s_me w) (s_cpus_num w) (s_procs_lock w).
Definition set_s_mem v w := mk_sworld (s_procs w) (s_cpus w) (s_links w) v (s_me w) (s_cpus_num w) (s_procs_lock w).

Definition set_s_procs_lock v w := mk_sworld (s_procs w) (s_cpus w) (s_links w) (s_mem w) (s_me w) (s_cpus_num w) v.

Definition NCPU : Z := 8.
Definition MAX_TIME_SLICE : Z := 200.
Definition MIN_TIME_SLICE : Z := 5.
Definition CPU_LOAD_IDX_MAX : Z := 5.
Definition load_balance_proc_num_threshold : Z := 10.
Definition load_balance_diff_threshold : Z := 4.

Abbreviation Sched := (M sworld).

(** Links: of a process, the heads of the run queues, and [proc_list]. *)
Definition run_link (p : Z) : Z := 4 * p.
Definition list_link (p : Z) : Z := 4 * p + 1.
Definition run_list (c : Z) : Z := 4 * c + 2.
Definition proc_list : Z := 3.
Definition le2proc (le : Z) : Z := le / 4.
(** [rb_link] in the node store. *)
Definition rb_link (p : Z) : Z := 2 * p + 1.
Definition rbn2proc (node : Z) : Z := node / 2.

Definition get_proc (p : Z) : Sched Proc := o ← gets (λ w, s_procs w !! p); of_option o.
Definition upd_proc (p : Z) (f : Proc → Proc) : Sched unit :=
  v ← get_proc p; modify (λ w, set_s_procs (<[p := f v]> (s_procs w)) w).
Definition get_cpu (c : Z) : Sched Cpu := o ← gets (λ w, s_cpus w !! c); of_option o.
Definition upd_cpu (c : Z) (f : Cpu → Cpu) : Sched unit :=
  v ← get_cpu c; modify (λ w, set_s_cpus (<[c := f v]> (s_cpus w)) w).
Definition on_links {A} (m : M heap A) : Sched A := zoom s_links set_s_links m.
Definition on_mem {A} (m : M rbmem A) : Sched A := zoom s_mem set_s_mem m.
Definition on_rb {A} (m : M rbheap A) : Sched A := on_mem (on_nodes m).
(** [proc->cpu->...] and [proc->set_cpu], which must point to one. *)
Definition proc_cpu (p : Z) : Sched Z := v ← get_proc p; of_option (p_cpu v).
Definition for_each_link {L A} : Z → (L → Z → Sched (L + A)) → L → Sched (L + A) :=
  for_each (λ a, on_links (list_next a)) (gets (λ w, size (s_links w))).

Definition acquire_cpu (c : Z) : Sched unit :=
  v ← get_cpu c; assert_ (negb (cpu_lock v));; upd_cpu c (set_cpu_lock true).
Definition release_cpu (c : Z) : Sched unit :=
  v ← get_cpu c; assert_ (cpu_lock v);; upd_cpu c (set_cpu_lock false).
Definition acquire_proc (p : Z) : Sched unit :=
  v ← get_proc p; assert_ (negb (p_lock v));; upd_proc p (set_p_lock true).
Definition release_proc (p : Z) : Sched unit :=
  v ← get_proc p; assert_ (p_lock v);; upd_proc p (set_p_lock false).

Definition acquire_procs : Sched unit :=
  l ← gets s_procs_lock; assert_ (negb l);; modify (set_s_procs_lock true).
Definition release_procs : Sched unit :=
  l ← gets s_procs_lock; assert_ l;; modify (set_s_procs_lock false).

(** [atomic_inc] and [atomic_dec] of a [long]. *)
Definition atomic_inc (c : Z) : Sched unit := upd_cpu c (λ v, set_proc_num (sint 64 (proc_num v + 1)) v).
Definition atomic_dec (c : Z) : Sched unit := upd_cpu c (λ v, set_proc_num (sint 64 (proc_num v - 1)) v).

(** [proc_vruntime_compare_node] on the processes there are. *)
Definition proc_vruntime_compare_node (procs : gmap Z Proc) (node1 node2 : Z) : Z :=
  let v n := from_option vruntime 0 (procs !! rbn2proc n) in
  if v node2 <? v node1 then 1 else if v node1 <? v node2 then -1 else 0.

(** The tree of a run queue, as its operations find it. *)
Definition rq_tree (c : Z) : Sched Rb_tree :=
  v ← get_cpu c;
  t ← on_mem (get_tree (proc_vruntime_rbtree v));
  procs ← gets s_procs;
  mret (mk_tree (proc_vruntime_compare_node procs) (rb_nil t) (rb_root t)).

(** Unsigned division: by zero it is undefined. *)
Definition udiv (x y : Z) : Sched Z := if y =? 0 then undef else mret (x / y).

Definition sched_nice_to_weight : list Z := [
  88761; 71755; 56483; 46273; 36291;
  29154; 23254; 18705; 14949; 11916;
  9548; 7620; 6100; 4904; 3906;
  3121; 2501; 1991; 1586; 1277;
  1024; 820; 655; 526; 423;
  335; 272; 215; 172; 137;
  110; 87; 70; 56; 45;
  36; 29; 23; 18; 15 ].
Definition NICE_OFFSET : Z := 20.
Definition PRIO_0_WEIGHT : Z := 1024.

(** [sched_nice_to_weight[priority + NICE_OFFSET]]. *)
Definition weight_of (prio : Z) : Sched Z :=
  let i := prio + NICE_OFFSET in
  if i <? 0 then undef else of_option (sched_nice_to_weight !! Z.to_nat i).

Record Rq_run_info := mk_info { rq_total_value : Z; proc_count : Z; rq_total_vruntime : Z }.

(** ** The completely fair class *)

Section sched.
Context `{RK : !RbKmalloc}.

Definition CFS_init (cpu : Z) : Sched unit :=
  on_links (list_init (run_list cpu));;
  upd_cpu cpu (set_proc_num 0);;
  procs ← gets s_procs;
  t ← on_mem (rb_tree_create (proc_vruntime_compare_node procs));
  upd_cpu cpu (set_tree t);;
  assert_ (negb (t =? 0)).

Definition CFS_get_rq_run_info (cpu : Z) : Sched Rq_run_info :=
  r ← for_each_link (A := Empty_set) (run_list cpu) (λ info le,
    let next := le2proc le in
    n ← get_proc next;
    if decide (state n = RUNNABLE) then
      wt ← weight_of (priority n);
      mret (inl (mk_info (u64 (rq_total_value info + wt)) (u64 (proc_count info + 1))
        (u64 (rq_total_vruntime info + vruntime n))))
    else mret (inl info)) (mk_info 0 0 0);
  mret (walked r).

(** [time_slice] and [alloc_time_slice] from the weight, for [count] processes, kept
    between the bounds; the queue's own sum counts in the quotient. *)
Definition set_slice (c proc count : Z) (info : Rq_run_info) : Sched unit :=
  q ← get_cpu c;
  let total_time_lantency := u64 (u64 (min_time_slice q + max_time_slice q) * count) / 2 in
  p ← get_proc proc;
  wt ← weight_of (priority p);
  s ← udiv (u64 (total_time_lantency * wt)) (u64 (rq_total_value info + 1));
  upd_proc proc (λ p, set_alloc_slice s (set_time_slice s p));;
  c' ← proc_cpu proc; q ← get_cpu c';
  p ← get_proc proc;
  (if time_slice p <? min_time_slice q
   then upd_proc proc (λ p, set_alloc_slice (min_time_slice q) (set_time_slice (min_time_slice q) p))
   else mret tt);;
  p ← get_proc proc;
  (if max_time_slice q <? time_slice p
   then upd_proc proc (λ p, set_alloc_slice (max_time_slice q) (set_time_slice (max_time_slice q) p))
   else mret tt).

(** Where a queue ordered by decreasing [key] takes a process of key [k]. *)
Definition find_place_by (key : Proc → Z) (cpu k : Z) : Sched Z :=
  r ← for_each_link (run_list cpu) (λ _ le,
    n ← get_proc (le2proc le);
    if key n <? k then mret (inr le) else mret (inl tt)) tt;
  mret (match r with inl _ => run_list cpu | inr le => le end).

Definition CFS_enqueue (cpu proc : Z) : Sched unit :=
  p ← get_proc proc;
  assert_ ((-20 <=? priority p) && (priority p <=? 19));;
  e ← on_links (list_empty (run_link proc));
  assert_ e;;
  le ← find_place_by priority cpu (priority p);
  on_links (list_add_before le (run_link proc));;
  info ← CFS_get_rq_run_info cpu;
  set_slice cpu proc (proc_count info) info;;
  v ← udiv (rq_total_vruntime info) (u64 (proc_count info + 1));
  upd_proc proc (set_vruntime v);;
  p ← get_proc proc;
  (if decide (state p = RUNNABLE) then t ← rq_tree cpu; on_rb (rb_insert t (rb_link proc)) else mret tt);;
  atomic_inc cpu.

Definition CFS_dequeue (cpu proc : Z) : Sched unit :=
  e ← on_links (list_empty (run_link proc));
  assert_ (negb e);;
  on_links (list_del_init (run_link proc));;
  p ← get_proc proc;
  (if decide (state p = RUNNABLE) then t ← rq_tree cpu; on_rb (rb_delete t (rb_link proc)) else mret tt);;
  atomic_dec cpu.

Definition CFS_remove_rbtree (proc : Z) : Sched unit :=
  c ← proc_cpu proc;
  t ← rq_tree c;
  on_rb (rb_delete t (rb_link proc));;
  info ← CFS_get_rq_run_info c;
  set_slice c proc (u64 (proc_count info + 1)) info.

(** Down the left links from the root. *)
Definition leftmost (t : Rb_tree) (node : Z) : M rbheap Z :=
  fuel ← gets size;
  loop (S fuel) (λ '(node, prev_node),
    if node =? rb_nil t then mret (inr prev_node) else
    n ← rb_get node; mret (inl (rb_left n, node))) (node, node).

Definition CFS_pick_next (cpu : Z) : Sched (option Z) :=
  t ← rq_tree cpu;
  node ← on_rb (rb_node_root t);
  match node with
  | None => mret None
  | Some node =>
      prev_node ← on_rb (leftmost t node);
      let next := rbn2proc prev_node in
      n ← get_proc next;
      assert_ (bool_decide (state n = RUNNABLE));;
      CFS_remove_rbtree next;;
      upd_proc next (set_state RUNNING);;
      mret (Some next)
  end.

(** [get_proc]: the first process that may go elsewhere, taken off the queue. *)
Definition get_proc_by (ok : Proc → bool) (dequeue : Z → Z → Sched unit) (cpu : Z) : Sched (option Z) :=
  r ← for_each_link (run_list cpu) (λ _ le,
    let next := le2proc le in
    n ← get_proc next;
    if ok n then dequeue cpu next;; mret (inr next) else mret (inl tt)) tt;
  mret (match r with inl _ => None | inr p => Some p end).

Definition CFS_get_proc : Z → Sched (option Z) :=
  get_proc_by (λ n, bool_decide (state n = RUNNABLE) && bool_decide (p_set_cpu n ≠ None)) CFS_dequeue.

Definition CFS_insert_rbtree (proc : Z) : Sched unit :=
  p ← get_proc proc;
  assert_ (bool_decide (state p = RUNNING) || bool_decide (state p = SLEEPING));;
  (if decide (state p = RUNNING) then
     wt ← weight_of (priority p);
     d ← udiv (u64 (u64 (alloc_time_slice p - time_slice p) * PRIO_0_WEIGHT)) wt;
     upd_proc proc (λ p, set_vruntime (u64 (vruntime p + d)) p);;
     c ← proc_cpu proc; t ← rq_tree c; on_rb (rb_insert t (rb_link proc))
   else if decide (state p = SLEEPING) then
     c ← proc_cpu proc;
     info ← CFS_get_rq_run_info c;
     v ← udiv (rq_total_vruntime info) (u64 (proc_count info + 1));
     upd_proc proc (set_vruntime v);;
     t ← rq_tree c; on_rb (rb_insert t (rb_link proc))
   else mret tt);;
  upd_proc proc (set_state RUNNABLE).

Definition CFS_proc_tick (proc : Z) : Sched unit :=
  upd_proc proc (λ p, set_runs (u64 (runs p + 1)) p);;
  p ← get_proc proc;
  (if 0 <? time_slice p then upd_proc proc (λ p, set_time_slice (time_slice p - 1) p) else mret tt);;
  p ← get_proc proc;
  (if time_slice p =? 0 then upd_proc proc (set_need_resched true) else mret tt).

(** ** Round robin, first come first served *)

(** [RR_init] and [FCFS_init]. *)
Definition RR_init (cpu : Z) : Sched unit :=
  on_links (list_init (run_list cpu));; upd_cpu cpu (set_proc_num 0).

Definition RR_enqueue (cpu proc : Z) : Sched unit :=
  e ← on_links (list_empty (run_link proc));
  assert_ e;;
  p ← get_proc proc;
  le ← find_place_by time_slice cpu (time_slice p);
  on_links (list_add_before le (run_link proc));;
  q ← get_cpu cpu;
  (if (time_slice p =? 0) || (max_time_slice q <? time_slice p)
   then upd_proc proc (set_time_slice (max_time_slice q))
   else if time_slice p <? max_time_slice q then upd_proc proc (set_time_slice (min_time_slice q))
   else mret tt);;
  atomic_inc cpu.

(** [RR_dequeue] and [FCFS_dequeue]. *)
Definition RR_dequeue (cpu proc : Z) : Sched unit :=
  e ← on_links (list_empty (run_link proc));
  assert_ (negb e);;
  on_links (list_del_init (run_link proc));;
  atomic_dec cpu.

(** [RR_pick_next] and [FCFS_pick_next]: the first runnable process goes to the end. *)
Definition RR_pick_next (cpu : Z) : Sched (option Z) :=
  r ← for_each_link (run_list cpu) (λ _ le,
    let next := le2proc le in
    n ← get_proc next;
    if decide (state n = RUNNABLE) then
      on_links (list_del_init (run_link next));;
      on_links (list_add_before (run_list cpu) (run_link next));;
      mret (inr next)
    else mret (inl tt)) tt;
  mret (match r with inl _ => None | inr p => Some p end).

Definition RR_proc_tick (proc : Z) : Sched unit :=
  p ← get_proc proc;
  (if 0 <? time_slice p then upd_proc proc (λ p, set_time_slice (time_slice p - 1) p) else mret tt);;
  p ← get_proc proc;
  (if time_slice p =? 0 then
     upd_proc proc (set_need_resched true);;
     c ← proc_cpu proc; q ← get_cpu c;
     upd_proc proc (set_time_slice (max_time_slice q))
   else mret tt).

Definition RR_get_proc : Z → Sched (option Z) :=
  get_proc_by (λ n, bool_decide (state n = RUNNABLE)) RR_dequeue.

(** [rq_total_vruntime] is not written: [junk] is what the stack has there. *)
Definition RR_get_rq_run_info (junk cpu : Z) : Sched Rq_run_info :=
  r ← for_each_link (A := Empty_set) (run_list cpu) (λ info le,
    let next := le2proc le in
    n ← get_proc next;
    if decide (state n = RUNNABLE ∧ state n = RUNNING) then
      mret (inl (mk_info (u64 (rq_total_value info + alloc_time_slice n)) (u64 (proc_count info + 1))
        (rq_total_vruntime info)))
    else mret (inl info)) (mk_info 0 0 junk);
  mret (walked r).

(** The same code as in round robin, in functions of its own. *)
Definition FCFS_init : Z → Sched unit := RR_init.
Definition FCFS_dequeue : Z → Z → Sched unit := RR_dequeue.
Definition FCFS_pick_next : Z → Sched (option Z) := RR_pick_next.
Definition FCFS_enqueue (cpu proc : Z) : Sched unit :=
  e ← on_links (list_empty (run_link proc));
  assert_ e;;
  on_links (list_add_before (run_list cpu) (run_link proc));;
  atomic_inc cpu.
Definition FCFS_proc_tick (proc : Z) : Sched unit := mret tt.

(** ** The class a CPU has *)

(** [cpu->sc]: dereferenced, so not null. *)
Definition cpu_sc (c : Z) : Sched Sched_class := v ← get_cpu c; of_option (sc v).
Definition is_CFS (c : Z) : Sched bool := v ← get_cpu c; mret (bool_decide (sc v = Some CFS_sched_class)).
Definition mycpu : Sched Z := gets s_me.

Definition class_init (k : Sched_class) : Z → Sched unit :=
  match k with CFS_sched_class => CFS_init | RR_sched_class => RR_init | FCFS_sched_class => FCFS_init end.
Definition class_enqueue (k : Sched_class) : Z → Z → Sched unit :=
  match k with CFS_sched_class => CFS_enqueue | RR_sched_class => RR_enqueue | FCFS_sched_class => FCFS_enqueue end.
Definition class_dequeue (k : Sched_class) : Z → Z → Sched unit :=
  match k with CFS_sched_class => CFS_dequeue | RR_sched_class => RR_dequeue | FCFS_sched_class => FCFS_dequeue end.
Definition class_pick_next (k : Sched_class) : Z → Sched (option Z) :=
  match k with CFS_sched_class => CFS_pick_next | RR_sched_class => RR_pick_next | FCFS_sched_class => FCFS_pick_next end.
Definition class_proc_tick (k : Sched_class) : Z → Sched unit :=
  match k with CFS_sched_class => CFS_proc_tick | RR_sched_class => RR_proc_tick | FCFS_sched_class => FCFS_proc_tick end.
(** The members a class leaves out are null pointers. *)
Definition class_get_rq_run_info (k : Sched_class) (junk : Z) : Z → Sched Rq_run_info :=
  match k with CFS_sched_class => CFS_get_rq_run_info | RR_sched_class => RR_get_rq_run_info junk
  | FCFS_sched_class => λ _, undef end.
Definition class_insert_rbtree (k : Sched_class) : Z → Sched unit :=
  match k with CFS_sched_class => CFS_insert_rbtree | _ => λ _, undef end.
Definition class_remove_rbtree (k : Sched_class) : Z → Sched unit :=
  match k with CFS_sched_class => CFS_remove_rbtree | _ => λ _, undef end.
Definition class_get_proc (k : Sched_class) : Z → Sched (option Z) :=
  match k with CFS_sched_class => CFS_get_proc | RR_sched_class => RR_get_proc | FCFS_sched_class => λ _, undef end.

Definition sched_init : Sched unit :=
  cpu ← mycpu;
  upd_cpu cpu (set_sc (Some CFS_sched_class));;
  upd_cpu cpu (set_cpu_lock false);;
  upd_cpu cpu (set_slices MAX_TIME_SLICE MIN_TIME_SLICE);;
  k ← cpu_sc cpu; class_init k cpu;;
  upd_cpu cpu (set_cpu_load (replicate (Z.to_nat CPU_LOAD_IDX_MAX) 0)).

(** The CPU with the fewest processes, the first of them. *)
Definition least_loaded : Sched Z :=
  c0 ← get_cpu 0;
  r ← loop (S (Z.to_nat NCPU)) (λ '(i, min_proc_num, idx),
    if i <? NCPU then
      c ← get_cpu i;
      mret (inl (if bool_decide (sc c ≠ None) && (proc_num c <? min_proc_num)
                 then (i + 1, proc_num c, i) else (i + 1, min_proc_num, idx)))
    else mret (inr idx)) (1, proc_num c0, 0);
  mret r.

Definition sched_class_enqueue (proc : Z) : Sched unit :=
  p ← get_proc proc;
  cpu ← (match p_set_cpu p with Some c => mret c | None => least_loaded end);
  upd_proc proc (set_p_cpu (Some cpu));;
  acquire_cpu cpu;;
  k ← cpu_sc cpu; class_enqueue k cpu proc;;
  release_cpu cpu.

Definition sched_class_dequeue (proc : Z) : Sched unit :=
  cpu ← proc_cpu proc;
  acquire_cpu cpu;;
  k ← cpu_sc cpu; class_dequeue k cpu proc;;
  release_cpu cpu.

Definition sched_class_pick_next : Sched (option Z) :=
  cpu ← mycpu;
  acquire_cpu cpu;;
  k ← cpu_sc cpu; proc ← class_pick_next k cpu;
  release_cpu cpu;; mret proc.

Definition sched_class_insert_rbtree (proc : Z) : Sched unit :=
  cpu ← proc_cpu proc;
  acquire_cpu cpu;;
  k ← cpu_sc cpu; class_insert_rbtree k proc;;
  release_cpu cpu.

Definition sched_class_remove_rbtree (proc : Z) : Sched unit :=
  cpu ← proc_cpu proc;
  acquire_cpu cpu;;
  k ← cpu_sc cpu; class_remove_rbtree k proc;;
  release_cpu cpu.

Definition sched_class_proc_tick (proc : Z) : Sched unit :=
  cpu ← mycpu; k ← cpu_sc cpu; class_proc_tick k proc.

Definition sched_class_get_rq_run_info (junk cpu : Z) : Sched Rq_run_info :=
  acquire_cpu cpu;;
  k ← cpu_sc cpu; info ← class_get_rq_run_info k junk cpu;
  release_cpu cpu;; mret info.

Definition sched_class_get_proc (cpu : Z) : Sched (option Z) :=
  acquire_cpu cpu;;
  k ← cpu_sc cpu; proc ← class_get_proc k cpu;
  release_cpu cpu;; mret proc.

(** ** Balancing the load *)

(** One average: [(old_load * (scale - 1) + new_load) >> j], with [new_load] rounded up. *)
Definition next_load (old_load total : Z) (j : nat) : Z :=
  let scale := 2 ^ Z.of_nat j in
  let new_load := if old_load <? total then u64 (total + (scale - 1)) else total in
  Z.shiftr (u64 (u64 (old_load * (scale - 1)) + new_load)) (Z.of_nat j).

Definition load_at (c : Z) (j : nat) : Sched Z := v ← get_cpu c; of_option (cpu_load v !! j).

Definition updata_cpu_rq_load (junk : Z) : Sched unit :=
  local_cpus_num ← gets s_cpus_num;
  assert_ ((0 <? local_cpus_num) && (local_cpus_num <=? NCPU));;
  loop (S (Z.to_nat local_cpus_num)) (λ i,
    if i <? local_cpus_num then
      loop (S (Z.to_nat CPU_LOAD_IDX_MAX)) (λ j,
        if Z.of_nat j <? CPU_LOAD_IDX_MAX then
          old_load ← load_at i j;
          info ← sched_class_get_rq_run_info junk i;
          upd_cpu i (λ v, set_cpu_load (<[j := next_load old_load (rq_total_value info) j]> (cpu_load v)) v);;
          mret (inl (j + 1)%nat)
        else mret (inr tt)) 0%nat;;
      mret (inl (i + 1))
    else mret (inr tt)) 0.

(** [set_proc_cpu] and [clear_proc_setcpu] of [kernel/proc.c]. *)
Definition set_proc_cpu (proc cpu : Z) : Sched unit :=
  acquire_proc proc;;
  upd_proc proc (set_set_cpu (Some cpu));;
  p ← get_proc proc;
  assert_ (bool_decide (p_cpu p ≠ None));;
  if decide (p_cpu p = p_set_cpu p) then release_proc proc else
  e ← on_links (list_empty (run_link proc));
  (if negb e then sched_class_dequeue proc else mret tt);;
  sched_class_enqueue proc;;
  release_proc proc.

Definition clear_proc_setcpu (proc : Z) : Sched unit :=
  acquire_proc proc;; upd_proc proc (set_set_cpu None);; release_proc proc.

(** The least and the most loaded CPU, the first of each. *)
Definition load_extremes (j : nat) : Sched (Z * Z * Z * Z) :=
  local_cpus_num ← gets s_cpus_num;
  loop (S (Z.to_nat local_cpus_num)) (λ '(i, min, min_index, max, max_index),
    if i <? local_cpus_num then
      l ← load_at i j;
      let '(min, min_index) := if l <? min then (l, i) else (min, min_index) in
      let '(max, max_index) := if max <? l then (l, i) else (max, max_index) in
      mret (inl (i + 1, min, min_index, max, max_index))
    else mret (inr (min, min_index, max, max_index))) (0, 2 ^ 64 - 1, 0, 0, 0).

(** Every round moves a process. *)
Definition load_balance (cpu_load_index : nat) : Sched unit :=
  '(min, min_index, max, max_index) ← load_extremes cpu_load_index;
  if min_index =? max_index then mret tt else
  assert_ (min <? max);;
  fuel ← gets (λ w, size (s_links w));
  loop (S fuel) (λ '(max, min),
    q ← get_cpu max_index;
    if (u64 (max_time_slice q * load_balance_proc_num_threshold) <? max)
       && (max / load_balance_diff_threshold <? u64 (max - min)) then
      proc ← sched_class_get_proc max_index;
      match proc with
      | None => mret (inr tt)
      | Some proc =>
          p ← get_proc proc;
          assert_ (bool_decide (state p = RUNNABLE));;
          c ← proc_cpu proc; k ← cpu_sc c;
          load_value ← (match k with
                        | CFS_sched_class => mret (u64 (priority p))
                        | RR_sched_class => mret (alloc_time_slice p)
                        | FCFS_sched_class => panic
                        end);
          set_proc_cpu proc min_index;;
          clear_proc_setcpu proc;;
          let max := u64 (max - load_value) in
          let min := u64 (min + load_value) in
          if max <? min then mret (inr tt) else mret (inl (max, min))
      end
    else mret (inr tt)) (max, min).

(** ** Yielding and waking: [kernel/proc.c] *)

(** A process made runnable, by the rules of its CPU's class. *)
Definition make_runnable (p : Z) : Sched unit :=
  c ← proc_cpu p;
  cfs ← is_CFS c;
  if (cfs : bool) then sched_class_insert_rbtree p else upd_proc p (set_state RUNNABLE).

(** [do_yield] up to the switch to the scheduler. *)
Definition do_yield (p : Z) : Sched unit :=
  v ← get_proc p;
  assert_ (bool_decide (state v = RUNNING));;
  acquire_proc p;;
  make_runnable p;;
  upd_proc p (set_need_resched false).

Definition do_wakeup (chan : Z) : Sched unit :=
  acquire_procs;;
  for_each_link (A := Empty_set) proc_list (λ _ le,
    let p := le2proc le in
    acquire_proc p;;
    v ← get_proc p;
    (if bool_decide (state v = SLEEPING) && (p_chan v =? chan) then make_runnable p else mret tt);;
    release_proc p;;
    mret (inl tt)) tt;;
  release_procs.

Definition wakeup_proc (proc : Z) : Sched unit :=
  acquire_proc proc;;
  v ← get_proc proc;
  assert_ (bool_decide (state v ≠ ZOMBIE) && bool_decide (state v ≠ UNUSED));;
  (if (p_chan v =? proc) && bool_decide (state v = SLEEPING) then
     make_runnable proc;; upd_proc proc (set_p_wait 0)
   else mret tt);;
  release_proc proc.

(** [scheduler]: one round up to the switch; [None] when there is nothing to run. *)
Definition scheduler_round : Sched (option Z) :=
  me ← mycpu;
  next ← sched_class_pick_next;
  match next with
  | None => mret None
  | Some p =>
      v ← get_proc p;
      assert_ (bool_decide (state v = RUNNING) && bool_decide (p_cpu v = Some me));;
      acquire_proc p;; mret (Some p)
  end.
End sched.
