(* ===== verification/SchedRep.v ===== *)
(** * Run queues in the store

    A run queue of the fair class is its processes in order of priority and, of
    those, the runnable ones in order of [vruntime].  What an operation on one
    queue may touch is a frame, so that the other queues stay as they are. *)
From Stdlib Require Import Sorted.
From S2P Require Import Prelude ListH Rbtree RbRep RbSpec RbDelete RbSearch Sched.

Definition NPROC : Z := 2000.
Definition no_proc : Proc := mk_proc UNUSED None None 0 0 0 false 0 0 false 0 0.
Definition proc_at (w : sworld) (p : Z) : Proc := default no_proc (s_procs w !! p).
Definition vr (w : sworld) (p : Z) : Z := vruntime (proc_at w p).
Definition prio (w : sworld) (p : Z) : Z := priority (proc_at w p).
Definition runnable (w : sworld) (p : Z) : Prop := state (proc_at w p) = RUNNABLE.
#[export] Instance runnable_dec w p : Decision (runnable w p).
Proof. unfold runnable. apply _. Defined.

(** ** Links and nodes of processes *)

Lemma le2proc_run_link p : le2proc (run_link p) = p.
Proof. unfold le2proc, run_link. rewrite Z.mul_comm. by apply Z.div_mul. Qed.
Lemma le2proc_list_link p : le2proc (list_link p) = p.
Proof. unfold le2proc, list_link. symmetry. apply (Z.div_unique_pos _ _ _ 1); lia. Qed.
Lemma rbn2proc_rb_link p : rbn2proc (rb_link p) = p.
Proof. unfold rbn2proc, rb_link. symmetry. apply (Z.div_unique_pos _ _ _ 1); lia. Qed.
#[export] Instance run_link_inj : Inj (=) (=) run_link.
Proof. intros x y. unfold run_link. lia. Qed.
#[export] Instance rb_link_inj : Inj (=) (=) rb_link.
Proof. intros x y. unfold rb_link. lia. Qed.
Lemma run_link_list p c : run_link p ≠ run_list c.
Proof. unfold run_link, run_list. lia. Qed.

(** ** Queues *)

(** The tree of the queue with the comparison on the processes there are. *)
Definition cur_tree (w : sworld) (t : Rb_tree) : Rb_tree :=
  mk_tree (proc_vruntime_compare_node (s_procs w)) (rb_nil t) (rb_root t).

(** The tree of CPU [c] has the nodes of [rs], by [vruntime]. *)
Record rq_in_tree (c : Z) (q : Cpu) (t : Rb_tree) (rs : list Z) (w : sworld) : Prop := {
  rc_cpu : s_cpus w !! c = Some q;
  rc_tree : rm_trees (s_mem w) !! proc_vruntime_rbtree q = Some t;
  rc_rep : rb_rep t (rm_nodes (s_mem w)) (map rb_link rs);
  rc_order : StronglySorted (λ a b, vr w a ≤ vr w b) rs
}.

(** Its queue has the processes [ps], by priority. *)
Record rq_in_list (c : Z) (ps : list Z) (w : sworld) : Prop := {
  rc_list : is_list (s_links w) (run_list c) (map run_link ps);
  rc_prio : StronglySorted (λ a b, prio w b ≤ prio w a) ps;
  rc_len : zlen ps ≤ NPROC;
  rc_procs p : p ∈ ps → ∃ v, s_procs w !! p = Some v ∧ p_cpu v = Some c ∧ -20 ≤ priority v ≤ 19
}.

(** The queue and the tree, which has the runnable processes. *)
Record rq_ok (c : Z) (q : Cpu) (t : Rb_tree) (ps rs : list Z) (w : sworld) : Prop := {
  ro_tree : rq_in_tree c q t rs w;
  ro_list : rq_in_list c ps w;
  ro_runnable : rs ≡ₚ filter (runnable w) ps;
  ro_num : proc_num q = zlen ps;
  ro_sc : sc q = Some CFS_sched_class;
  ro_slices : min_time_slice q = MIN_TIME_SLICE ∧ max_time_slice q = MAX_TIME_SLICE
}.

Lemma sorted_weaken {A} (R R' : A → A → Prop) l :
  StronglySorted R l → (∀ a b, a ∈ l → b ∈ l → R a b → R' a b) → StronglySorted R' l.
Proof.
  induction l as [|a l IH]; intros Hs HR; [constructor|]. apply StronglySorted_inv in Hs as [Hs Hf].
  constructor; [apply IH; [done|]; intros; apply HR; [by right..|done]|].
  rewrite Forall_forall in *. intros b Hb. apply HR; [by left|by right|by apply Hf].
Qed.

(** What a queue depends on. *)
Lemma in_tree_same c q t rs w w' :
  rq_in_tree c q t rs w → s_cpus w' !! c = Some q → rm_trees (s_mem w') = rm_trees (s_mem w) →
  rm_nodes (s_mem w') = rm_nodes (s_mem w) → (∀ p, p ∈ rs → vr w' p = vr w p) → rq_in_tree c q t rs w'.
Proof.
  intros [Hc Ht Hr Ho] Ec Et En Ev. split; [done|by rewrite Et|by rewrite En|].
  eapply sorted_weaken; [exact Ho|]. intros a b Ha Hb. by rewrite !Ev.
Qed.

Lemma in_list_same c ps w w' :
  rq_in_list c ps w → s_links w' = s_links w →
  (∀ p v, p ∈ ps → s_procs w !! p = Some v →
     ∃ v', s_procs w' !! p = Some v' ∧ p_cpu v' = p_cpu v ∧ priority v' = priority v) →
  rq_in_list c ps w'.
Proof.
  intros [Hl Hs Hn Hp] El Ep. assert (∀ p, p ∈ ps → prio w' p = prio w p) as Epr.
  { intros p Hin. destruct (Hp p Hin) as (v & Hv & _). destruct (Ep p v Hin Hv) as (v' & Hv' & _ & E).
    unfold prio, proc_at. by rewrite Hv, Hv'. }
  split; [by rewrite El| |done|].
  - eapply sorted_weaken; [exact Hs|]. intros a b Ha Hb. by rewrite !Epr.
  - intros p Hin. destruct (Hp p Hin) as (v & Hv & Hc & Hr). destruct (Ep p v Hin Hv) as (v' & Hv' & Ec & Ev).
    exists v'. by rewrite Ec, Ev.
Qed.

(** Nothing but the processes [xs], the queue of CPU [c] and its tree [t] differs. *)
Record frame (c : Z) (t : Rb_tree) (xs : list Z) (w w' : sworld) : Prop := {
  fr_procs p : p ∉ xs → s_procs w' !! p = s_procs w !! p;
  fr_pdom p : is_Some (s_procs w !! p) → is_Some (s_procs w' !! p);
  fr_cpus c' : c' ≠ c → s_cpus w' !! c' = s_cpus w !! c';
  fr_ldom : dom (s_links w') = dom (s_links w);
  fr_links u : u ≠ run_list c → u ∉ map run_link xs → s_links w' !! u = s_links w !! u;
  fr_nodes a : a ≠ rb_nil t → a ≠ rb_root t → a ∉ map rb_link xs →
    rm_nodes (s_mem w') !! a = rm_nodes (s_mem w) !! a;
  fr_ndom a : is_Some (rm_nodes (s_mem w) !! a) → is_Some (rm_nodes (s_mem w') !! a);
  fr_trees : rm_trees (s_mem w') = rm_trees (s_mem w);
  fr_me : s_me w' = s_me w;
  fr_cnum : s_cpus_num w' = s_cpus_num w;
  fr_plock : s_procs_lock w' = s_procs_lock w
}.

Lemma frame_refl c t xs w : frame c t xs w w.
Proof. by split. Qed.

Lemma frame_trans c t xs w1 w2 w3 : frame c t xs w1 w2 → frame c t xs w2 w3 → frame c t xs w1 w3.
Proof.
  intros [A1 A2 A3 A4 A5 A6 A7 A8 A9 A10 A11] [B1 B2 B3 B4 B5 B6 B7 B8 B9 B10 B11].
  split; intros; try congruence; try (rewrite B1, A1; done); try (rewrite B3, A3; done);
    try (rewrite B5, A5; done); try (rewrite B6, A6; done); auto.
Qed.

(** ** Steps *)

Section steps.
Implicit Types (w : sworld).

Lemma wp_get_proc p v w (Q : Proc → sworld → Prop) :
  s_procs w !! p = Some v → Q v w → wp (get_proc p) w Q.
Proof. intros Hp HQ. unfold get_proc. apply wp_bind, wp_gets. rewrite Hp. apply wp_of_option. eauto. Qed.

Lemma wp_upd_proc p v f w (Q : unit → sworld → Prop) :
  s_procs w !! p = Some v → Q tt (set_s_procs (<[p := f v]> (s_procs w)) w) → wp (upd_proc p f) w Q.
Proof. intros Hp HQ. unfold upd_proc. apply wp_bind. eapply wp_get_proc; [done|]. by apply wp_modify. Qed.

Lemma wp_get_cpu c q w (Q : Cpu → sworld → Prop) :
  s_cpus w !! c = Some q → Q q w → wp (get_cpu c) w Q.
Proof. intros Hc HQ. unfold get_cpu. apply wp_bind, wp_gets. rewrite Hc. apply wp_of_option. eauto. Qed.

Lemma wp_upd_cpu c q f w (Q : unit → sworld → Prop) :
  s_cpus w !! c = Some q → Q tt (set_s_cpus (<[c := f q]> (s_cpus w)) w) → wp (upd_cpu c f) w Q.
Proof. intros Hc HQ. unfold upd_cpu. apply wp_bind. eapply wp_get_cpu; [done|]. by apply wp_modify. Qed.

Lemma wp_proc_cpu p v c w (Q : Z → sworld → Prop) :
  s_procs w !! p = Some v → p_cpu v = Some c → Q c w → wp (proc_cpu p) w Q.
Proof.
  intros Hp Hc HQ. unfold proc_cpu. apply wp_bind. eapply wp_get_proc; [done|]. rewrite Hc.
  apply wp_of_option. eauto.
Qed.

Lemma wp_on_links {A} (m : M heap A) w (Q : A → sworld → Prop) :
  wp m (s_links w) (λ a h, Q a (set_s_links h w)) → wp (on_links m) w Q.
Proof. intros H. unfold on_links. by apply wp_zoom. Qed.

Definition set_nodes (h : rbheap) w : sworld := set_s_mem (set_rm_nodes h (s_mem w)) w.

Lemma wp_on_rb {A} (m : M rbheap A) w (Q : A → sworld → Prop) :
  wp m (rm_nodes (s_mem w)) (λ a h, Q a (set_nodes h w)) → wp (on_rb m) w Q.
Proof. intros H. unfold on_rb, on_mem, on_nodes. by apply wp_zoom, wp_zoom. Qed.

Lemma wp_udiv x y w (Q : Z → sworld → Prop) : y ≠ 0 → Q (x / y) w → wp (udiv x y) w Q.
Proof. intros Hy HQ. unfold udiv. rewrite (proj2 (Z.eqb_neq _ _) Hy). by rewrite wp_ret. Qed.

Lemma wp_rq_tree c q t rs w (Q : Rb_tree → sworld → Prop) :
  rq_in_tree c q t rs w → Q (cur_tree w t) w → wp (rq_tree c) w Q.
Proof.
  intros Hq HQ. unfold rq_tree. apply wp_bind. eapply wp_get_cpu; [apply Hq|].
  apply wp_bind. unfold on_mem, get_tree. apply wp_zoom, wp_bind, wp_gets.
  rewrite (rc_tree _ _ _ _ _ Hq). apply wp_of_option. eexists. split; [done|].
  apply wp_bind, wp_gets. rewrite wp_ret. by destruct w.
Qed.

(** ** Weights *)

Definition weight (w : sworld) (p : Z) : Z := default 0 (sched_nice_to_weight !! Z.to_nat (prio w p + NICE_OFFSET)).

Lemma weight_lookup x : -20 ≤ x ≤ 19 →
  ∃ wt, sched_nice_to_weight !! Z.to_nat (x + NICE_OFFSET) = Some wt ∧ 15 ≤ wt ≤ 88761.
Proof.
  intros Hx. assert (forallb (λ i, match sched_nice_to_weight !! i with
    | Some wt => (15 <=? wt) && (wt <=? 88761) | None => false end) (seq 0 40) = true) as H by done.
  rewrite forallb_forall in H. specialize (H (Z.to_nat (x + NICE_OFFSET))).
  unfold NICE_OFFSET in *. destruct (sched_nice_to_weight !! _) as [wt|].
  - exists wt. split; [done|]. specialize (H ltac:(apply in_seq; lia)).
    apply andb_prop in H as [?%Z.leb_le ?%Z.leb_le]. lia.
  - by discriminate H; apply in_seq; lia.
Qed.

Lemma wp_weight_of x w (Q : Z → sworld → Prop) : -20 ≤ x ≤ 19 →
  (∀ wt, sched_nice_to_weight !! Z.to_nat (x + NICE_OFFSET) = Some wt → 15 ≤ wt ≤ 88761 → Q wt w) →
  wp (weight_of x) w Q.
Proof.
  intros Hx HQ. destruct (weight_lookup x Hx) as (wt & Hwt & Hr). unfold weight_of.
  assert ((x + NICE_OFFSET <? 0) = false) as -> by (apply Z.ltb_ge; unfold NICE_OFFSET; lia).
  rewrite Hwt. apply wp_of_option. eauto.
Qed.

(** ** The sums over a queue *)

Definition info_add w (info : Rq_run_info) (p : Z) : Rq_run_info :=
  if decide (runnable w p)
  then mk_info (u64 (rq_total_value info + weight w p)) (u64 (proc_count info + 1))
    (u64 (rq_total_vruntime info + vr w p))
  else info.
Definition run_info w (ps : list Z) : Rq_run_info := foldl (info_add w) (mk_info 0 0 0) ps.

Lemma walk_inl {L A} (g : L → Z → L) es l : walk (A := A) (λ l e, inl (g l e)) es l = inl (foldl g l es).
Proof. revert l. induction es as [|e es IH]; intros l; [done|]. cbn. apply IH. Qed.

Lemma foldl_map_link g (ps : list Z) (i : Rq_run_info) :
  foldl (λ i e, g i (le2proc e)) i (map run_link ps) = foldl g i ps.
Proof. revert i. induction ps as [|p ps IH]; intros i; [done|]. cbn. by rewrite le2proc_run_link, IH. Qed.

Lemma links_next w a b : nxt (s_links w) a = Some b → on_links (list_next a) w = Ok (b, w).
Proof.
  intros Hn. apply wp_result, wp_on_links. eapply wp_list_next; [done|]. by destruct w.
Qed.

Lemma is_list_bound w hd es : is_list (s_links w) hd es → (length es ≤ size (s_links w))%nat.
Proof. intros Hl%is_list_size. lia. Qed.

Lemma wp_run_info c w ps (Q : Rq_run_info → sworld → Prop) :
  is_list (s_links w) (run_list c) (map run_link ps) →
  (∀ p, p ∈ ps → ∃ v, s_procs w !! p = Some v ∧ -20 ≤ priority v ≤ 19) →
  Q (run_info w ps) w → wp (CFS_get_rq_run_info c) w Q.
Proof.
  intros Hl Hps HQ. unfold CFS_get_rq_run_info. apply wp_bind. unfold for_each_link.
  eapply (wp_for_each_read (s_links w) w _ _ _ _ _ _ (λ i le, inl (info_add w i (le2proc le))));
    [exact Hl|by apply links_next|by apply wp_result, wp_gets|by apply (is_list_bound w _ _ Hl)| |].
  - intros i le (p & -> & Hp)%list_elem_of_fmap. rewrite le2proc_run_link.
    destruct (Hps p Hp) as (v & Hv & Hpr). apply wp_result, wp_bind. eapply wp_get_proc; [done|].
    assert (proc_at w p = v) as Hat by (unfold proc_at; by rewrite Hv).
    unfold info_add. destruct (decide (state v = RUNNABLE)) as [Hr|Hr].
    + rewrite (decide_True (P := runnable w p)) by (unfold runnable; by rewrite Hat).
      apply wp_bind, wp_weight_of; [done|]. intros wt Hwt _. rewrite wp_ret.
      unfold weight, vr, prio. by rewrite Hat, Hwt.
    + rewrite (decide_False (P := runnable w p)) by (unfold runnable; by rewrite Hat). by apply wp_ret.
  - rewrite walk_inl, foldl_map_link. cbn [walked]. by rewrite wp_ret.
Qed.

(** What the sums are. *)
Definition sum_of (f : Z → Z) (ps : list Z) : Z := foldr (λ p s, f p + s) 0 ps.

Lemma run_info_sums w ps : run_info w ps =
  mk_info (u64 (sum_of (weight w) (filter (runnable w) ps))) (u64 (zlen (filter (runnable w) ps)))
    (u64 (sum_of (vr w) (filter (runnable w) ps))).
Proof.
  assert (∀ a b c, foldl (info_add w) (mk_info (u64 a) (u64 b) (u64 c)) ps =
    mk_info (u64 (a + sum_of (weight w) (filter (runnable w) ps)))
      (u64 (b + zlen (filter (runnable w) ps)))
      (u64 (c + sum_of (vr w) (filter (runnable w) ps)))) as H; [|apply (H 0 0 0)].
  induction ps as [|p ps IH]; intros a b c; cbn [foldl]; [cbn; by rewrite !Z.add_0_r|].
  unfold info_add at 2. rewrite filter_cons. destruct (decide (runnable w p)) as [Hr|Hr]; [|apply IH].
  cbn [rq_total_value proc_count rq_total_vruntime]. rewrite !wrap_add_l, IH.
  cbn [sum_of foldr length]. f_equal; f_equal; unfold sum_of; lia.
Qed.

(** ** The tree of a queue *)

Lemma compare_le w a b : proc_vruntime_compare_node (s_procs w) a b ≤ 0 ↔ vr w (rbn2proc a) ≤ vr w (rbn2proc b).
Proof.
  unfold proc_vruntime_compare_node, vr, proc_at.
  assert (∀ p, from_option vruntime 0 (s_procs w !! p) = vruntime (default no_proc (s_procs w !! p))) as E
    by (intros p; by destruct (s_procs w !! p)).
  rewrite !E. destruct (Z.ltb_spec (vruntime (default no_proc (s_procs w !! rbn2proc b)))
    (vruntime (default no_proc (s_procs w !! rbn2proc a)))); [lia|]. case_match; lia.
Qed.

#[export] Instance compare_ok w t : CompareOk (rb_compare (cur_tree w t)).
Proof.
  split; cbn; [|intros a b c; rewrite !compare_le; lia]. intros a b Hab. apply compare_le.
  destruct (decide (vr w (rbn2proc a) ≤ vr w (rbn2proc b))) as [Hle|]; [apply compare_le in Hle; lia|lia].
Qed.

Lemma compare_gt w a b : 0 < proc_vruntime_compare_node (s_procs w) a b ↔ vr w (rbn2proc b) < vr w (rbn2proc a).
Proof. pose proof (compare_le w a b). lia. Qed.

Lemma sorted_links w t rs : rb_sorted (rb_compare (cur_tree w t)) (map rb_link rs) ↔
  StronglySorted (λ a b, vr w a ≤ vr w b) rs.
Proof.
  unfold rb_sorted. cbn. induction rs as [|p rs IH]; cbn [map]; [split; constructor|].
  split; intros [Hs Hf]%StronglySorted_inv; constructor; try (by apply IH); rewrite Forall_forall in *.
  - intros b Hb. specialize (Hf (rb_link b) ltac:(by apply list_elem_of_fmap_2)).
    rewrite compare_le, !rbn2proc_rb_link in Hf. done.
  - intros b (b' & -> & Hb)%list_elem_of_fmap. rewrite compare_le, !rbn2proc_rb_link. by apply Hf.
Qed.

Lemma map_rb_link_app rs l1 l2 : map rb_link rs = l1 ++ l2 →
  ∃ r1 r2, rs = r1 ++ r2 ∧ l1 = map rb_link r1 ∧ l2 = map rb_link r2.
Proof. intros (r1 & r2 & -> & <- & <-)%map_eq_app. by exists r1, r2. Qed.

(** The comparison is not part of the representation. *)
Lemma rep_cur w t h l : rb_rep (cur_tree w t) h l ↔ rb_rep t h l.
Proof. by destruct t. Qed.

Lemma not_in_links p rs t : p ∉ rs → rb_link p ≠ rb_nil t → rb_link p ≠ rb_root t →
  rb_link p ∉ rb_nil t :: rb_root t :: map rb_link rs.
Proof.
  intros Hp Hn Hr. rewrite !elem_of_cons. intros [?|[?|(p' & Ep & Hp')%list_elem_of_fmap]]; [done..|].
  apply (inj rb_link) in Ep as ->. done.
Qed.

Lemma wp_tree_insert c q t rs w p (Q : unit → sworld → Prop) :
  rq_in_tree c q t rs w → p ∉ rs → is_Some (rm_nodes (s_mem w) !! rb_link p) →
  rb_link p ≠ rb_nil t → rb_link p ≠ rb_root t →
  (∀ h l1 l2, rs = l1 ++ l2 → rb_rep t h (map rb_link (l1 ++ p :: l2)) →
     StronglySorted (λ a b, vr w a ≤ vr w b) (l1 ++ p :: l2) →
     (∀ b, b ∈ l1 → vr w b ≤ vr w p) → (∀ b, b ∈ l2 → vr w p < vr w b) →
     (∀ a, a ∉ rb_nil t :: rb_root t :: map rb_link (p :: rs) → h !! a = rm_nodes (s_mem w) !! a) →
     (∀ a, is_Some (rm_nodes (s_mem w) !! a) → is_Some (h !! a)) → Q tt (set_nodes h w)) →
  wp (t ← rq_tree c; on_rb (rb_insert t (rb_link p))) w Q.
Proof.
  intros Hq Hp Hnode Hn Hr HQ. apply wp_bind. eapply wp_rq_tree; [exact Hq|]. apply wp_on_rb.
  destruct (rb_insert_ok (cur_tree w t) (rm_nodes (s_mem w)) (map rb_link rs) (rb_link p))
    as (h & l1 & l2 & Hrun & El & Hrep & Hs & Hb1 & Hb2 & Hf);
    [by apply rep_cur, Hq|by apply sorted_links, Hq|done|by apply not_in_links|].
  eapply wp_of_run; [exact Hrun|]. apply map_rb_link_app in El as (r1 & r2 & -> & -> & ->).
  assert (map rb_link r1 ++ rb_link p :: map rb_link r2 = map rb_link (r1 ++ p :: r2)) as E
    by by rewrite map_app.
  rewrite E in *. apply (HQ h r1 r2); [done|by apply rep_cur in Hrep|by apply sorted_links in Hs| | |exact Hf|by eapply insert_grows].
  - intros b Hb. specialize (Hb1 (rb_link b) ltac:(by apply list_elem_of_fmap_2)).
    cbn in Hb1. by rewrite compare_le, !rbn2proc_rb_link in Hb1.
  - intros b Hb. specialize (Hb2 (rb_link b) ltac:(by apply list_elem_of_fmap_2)).
    cbn in Hb2. by rewrite compare_gt, !rbn2proc_rb_link in Hb2.
Qed.

Lemma wp_tree_delete c q t rs w p (Q : unit → sworld → Prop) :
  rq_in_tree c q t rs w → p ∈ rs →
  (∀ h l1 l2, rs = l1 ++ p :: l2 → rb_rep t h (map rb_link (l1 ++ l2)) →
     (∀ a, a ∉ rb_nil t :: rb_root t :: map rb_link rs → h !! a = rm_nodes (s_mem w) !! a) →
     (∀ a, is_Some (rm_nodes (s_mem w) !! a) → is_Some (h !! a)) → Q tt (set_nodes h w)) →
  wp (t ← rq_tree c; on_rb (rb_delete t (rb_link p))) w Q.
Proof.
  intros Hq Hp HQ. apply wp_bind. eapply wp_rq_tree; [exact Hq|]. apply wp_on_rb.
  destruct (rb_delete_ok (cur_tree w t) (rm_nodes (s_mem w)) (map rb_link rs) (rb_link p))
    as (h & l1 & l2 & Hrun & El & Hrep & Hf); [by apply rep_cur, Hq|by apply list_elem_of_fmap_2|].
  eapply wp_of_run; [exact Hrun|].
  apply map_rb_link_app in El as (r1 & r2 & -> & -> & Er). destruct r2 as [|p' r2]; [done|].
  injection Er as Ep ->. apply (inj rb_link) in Ep as <-.
  rewrite <- map_app in Hrep. apply (HQ h r1 r2); [done|by apply rep_cur in Hrep|exact Hf|by eapply delete_grows].
Qed.
End steps.
