(* ===== verification/SchedSpec.v ===== *)
(** * The fair class: what its operations do to a queue *)
From Stdlib Require Import Sorted.
From S2P Require Import Prelude ListH Rbtree RbRep RbSpec RbDelete RbSearch Sched SchedRep.

Section spec.
Implicit Types (w : sworld).

(** ** Pieces *)

Lemma sint_small x : - 2 ^ 63 ≤ x < 2 ^ 63 → sint 64 x = x.
Proof. intros Hx. unfold sint. rewrite Z.mod_small; lia. Qed.

Definition new_slice (info : Rq_run_info) (count wt : Z) : Z :=
  let s := u64 (u64 (u64 (MIN_TIME_SLICE + MAX_TIME_SLICE) * count) / 2 * wt) / u64 (rq_total_value info + 1) in
  if s <? MIN_TIME_SLICE then MIN_TIME_SLICE else if MAX_TIME_SLICE <? s then MAX_TIME_SLICE else s.

Lemma new_slice_bounds info count wt : MIN_TIME_SLICE ≤ new_slice info count wt ≤ MAX_TIME_SLICE.
Proof.
  unfold new_slice. cbv zeta. destruct (Z.ltb_spec (u64 (u64 (u64 (MIN_TIME_SLICE + MAX_TIME_SLICE) * count) / 2 * wt) /
    u64 (rq_total_value info + 1)) MIN_TIME_SLICE); [unfold MIN_TIME_SLICE, MAX_TIME_SLICE; lia|].
  destruct (Z.ltb_spec MAX_TIME_SLICE (u64 (u64 (u64 (MIN_TIME_SLICE + MAX_TIME_SLICE) * count) / 2 * wt) /
    u64 (rq_total_value info + 1))); unfold MIN_TIME_SLICE, MAX_TIME_SLICE in *; lia.
Qed.

(** The process with that slice. *)
Definition with_slice s (v : Proc) : Proc := set_alloc_slice s (set_time_slice s v).

Lemma set_procs_twice p v1 v2 w :
  set_s_procs (<[p := v2]> (s_procs (set_s_procs (<[p := v1]> (s_procs w)) w))) (set_s_procs (<[p := v1]> (s_procs w)) w) =
  set_s_procs (<[p := v2]> (s_procs w)) w.
Proof. unfold set_s_procs. cbn. by rewrite insert_insert_eq. Qed.

Lemma with_slice_twice s s' v : set_alloc_slice s' (set_time_slice s' (with_slice s v)) = with_slice s' v.
Proof. done. Qed.

Lemma wp_set_slice c q p v count info w (Q : unit → sworld → Prop) :
  s_cpus w !! c = Some q → min_time_slice q = MIN_TIME_SLICE ∧ max_time_slice q = MAX_TIME_SLICE →
  s_procs w !! p = Some v → p_cpu v = Some c → -20 ≤ priority v ≤ 19 → u64 (rq_total_value info + 1) ≠ 0 →
  Q tt (set_s_procs (<[p := with_slice (new_slice info count (weight w p)) v]> (s_procs w)) w) →
  wp (set_slice c p count info) w Q.
Proof.
  intros Hq [Hmn Hmx] Hv Hc Hpr Hdiv HQ. unfold set_slice.
  apply wp_bind. eapply wp_get_cpu; [exact Hq|]. cbv zeta. rewrite Hmn, Hmx.
  apply wp_bind. eapply wp_get_proc; [exact Hv|]. apply wp_bind, wp_weight_of; [done|]. intros wt Hwt _.
  assert (weight w p = wt) as Ewt by (unfold weight, prio, proc_at; by rewrite Hv; cbn; rewrite Hwt).
  rewrite Ewt in HQ. apply wp_bind, wp_udiv; [done|]. unfold new_slice in HQ. cbv zeta in HQ.
  set (s := _ / _) in *.
  apply wp_bind. eapply wp_upd_proc; [exact Hv|]. fold (with_slice s v).
  apply wp_bind. eapply (wp_proc_cpu _ (with_slice s v)); [cbn; apply lookup_insert_eq|exact Hc|].
  apply wp_bind. eapply wp_get_cpu; [exact Hq|]. rewrite Hmn, Hmx.
  apply wp_bind. eapply wp_get_proc; [cbn; apply lookup_insert_eq|]. cbn [with_slice set_alloc_slice set_time_slice time_slice].
  destruct (Z.ltb_spec s MIN_TIME_SLICE).
  - apply wp_bind. eapply wp_upd_proc; [cbn; apply lookup_insert_eq|]. rewrite set_procs_twice.
    apply wp_bind. eapply wp_get_proc; [cbn; apply lookup_insert_eq|].
    cbn [with_slice set_alloc_slice set_time_slice time_slice].
    assert ((MAX_TIME_SLICE <? MIN_TIME_SLICE) = false) as -> by done. by rewrite wp_ret.
  - apply wp_bind. rewrite wp_ret. apply wp_bind. eapply wp_get_proc; [cbn; apply lookup_insert_eq|].
    cbn [with_slice set_alloc_slice set_time_slice time_slice].
    destruct (Z.ltb_spec MAX_TIME_SLICE s); [|by rewrite wp_ret].
    eapply wp_upd_proc; [cbn; apply lookup_insert_eq|]. by rewrite set_procs_twice.
Qed.

Lemma wp_find_place (key : Proc → Z) c k ps w (Q : Z → sworld → Prop) :
  is_list (s_links w) (run_list c) (map run_link ps) → (∀ p, p ∈ ps → is_Some (s_procs w !! p)) →
  (∀ l1 l2, ps = l1 ++ l2 → (∀ p, p ∈ l1 → k ≤ key (proc_at w p)) →
     (∀ p, head l2 = Some p → key (proc_at w p) < k) →
     Q (default (run_list c) (head (map run_link l2))) w) →
  wp (find_place_by key c k) w Q.
Proof.
  intros Hl Hps HQ. unfold find_place_by. apply wp_bind. unfold for_each_link.
  eapply (wp_for_each_inv (s_links w) w _ _ _ _ _ _
    (λ ls _, ∃ l1, ls = map run_link l1 ∧ ∀ p, p ∈ l1 → k ≤ key (proc_at w p)));
    [exact Hl|by apply links_next|by apply wp_result, wp_gets|by apply (is_list_bound w _ _ Hl)| | |].
  - intros ls e l2 [] E1 (l1 & -> & Hk).
    apply map_eq_app in E1 as (a & b & Eps & Ea & Eb). apply map_eq_cons in Eb as (p & l2' & -> & <- & <-).
    apply (inj (fmap run_link)) in Ea as ->. rewrite le2proc_run_link.
    destruct (Hps p) as [v Hv]; [rewrite Eps; set_solver|]. apply wp_bind. eapply wp_get_proc; [exact Hv|].
    assert (proc_at w p = v) as Hat by (unfold proc_at; by rewrite Hv).
    destruct (Z.ltb_spec (key v) k) as [Hlt|Hge]; rewrite wp_ret.
    + rewrite wp_ret. apply (HQ l1 (p :: l2')); [done|done|]. intros p' [= <-]. by rewrite Hat.
    + split; [done|]. exists (l1 ++ [p]). split; [by rewrite map_app|].
      intros p' [Hp'| ->%list_elem_of_singleton]%elem_of_app; [by apply Hk|by rewrite Hat].
  - intros [] (l1 & El & Hk). apply (inj (fmap run_link)) in El as <-. rewrite wp_ret.
    apply (HQ ps []); [by rewrite app_nil_r|done|done].
  - exists []. split; [done|]. by intros p ?%elem_of_nil.
Qed.

(** ** Sums *)

Lemma sum_bounds f a b (l : list Z) : (∀ p, p ∈ l → a ≤ f p ≤ b) → a * zlen l ≤ sum_of f l ≤ b * zlen l.
Proof.
  induction l as [|p l IH]; intros Hf; [cbn; lia|]. cbn [sum_of foldr length].
  specialize (IH ltac:(intros; apply Hf; by right)). pose proof (Hf p ltac:(by left)). unfold sum_of in *. lia.
Qed.

Lemma zlen_filter (P : Z → Prop) `{!∀ x, Decision (P x)} l : 0 ≤ zlen (filter P l) ≤ zlen l.
Proof. pose proof (length_filter P l). lia. Qed.

(** The processes of a queue, or about to be. *)
Definition fit (ps : list Z) w : Prop :=
  zlen ps ≤ NPROC ∧ ∀ p, p ∈ ps → ∃ v, s_procs w !! p = Some v ∧ -20 ≤ priority v ≤ 19.

Lemma fit_info ps w : fit ps w →
  proc_count (run_info w ps) = zlen (filter (runnable w) ps) ∧
  rq_total_value (run_info w ps) = sum_of (weight w) (filter (runnable w) ps) ∧
  rq_total_vruntime (run_info w ps) = u64 (sum_of (vr w) (filter (runnable w) ps)) ∧
  u64 (rq_total_value (run_info w ps) + 1) ≠ 0 ∧ u64 (proc_count (run_info w ps) + 1) ≠ 0.
Proof.
  intros [Hn Hp]. rewrite run_info_sums. cbn [proc_count rq_total_value rq_total_vruntime].
  pose proof (zlen_filter (runnable w) ps) as Hz. unfold NPROC in Hn.
  assert (15 * zlen (filter (runnable w) ps) ≤ sum_of (weight w) (filter (runnable w) ps) ≤
    88761 * zlen (filter (runnable w) ps)) as Hs.
  { apply sum_bounds. intros p [_ Hin]%list_elem_of_filter. destruct (Hp p Hin) as (v & Hv & Hpr).
    destruct (weight_lookup _ Hpr) as (wt & Hwt & Hb). unfold weight, prio, proc_at. rewrite Hv. cbn.
    by rewrite Hwt. }
  assert (u64 (zlen (filter (runnable w) ps)) = zlen (filter (runnable w) ps)) as E1 by (apply wrap_small; lia).
  assert (u64 (sum_of (weight w) (filter (runnable w) ps)) = sum_of (weight w) (filter (runnable w) ps)) as E2
    by (apply wrap_small; lia).
  rewrite E1, E2. split_and!; [done..| |]; rewrite wrap_small by lia; lia.
Qed.

(** ** Entering a queue *)

(** What the process becomes. *)
Definition enqueued w ps p v : Proc :=
  let info := run_info w ps in
  set_vruntime (rq_total_vruntime info / u64 (proc_count info + 1))
    (with_slice (new_slice info (proc_count info) (weight w p)) v).

Lemma proc_at_insert w p v p' : s_procs w !! p = Some v →
  ∀ v' w', s_procs w' = <[p := v']> (s_procs w) → proc_at w' p' = if decide (p' = p) then v' else proc_at w p'.
Proof.
  intros Hv v' w' E. unfold proc_at. rewrite E. destruct (decide (p' = p)) as [->|Hne].
  - by rewrite lookup_insert_eq.
  - by rewrite lookup_insert_ne.
Qed.

Lemma frame_of c t xs w w' p v h :
  s_procs w !! p = Some v → p ∈ xs →
  (∃ v', s_procs w' = <[p := v']> (s_procs w) ∨ s_procs w' = s_procs w) →
  (∀ c', c' ≠ c → s_cpus w' !! c' = s_cpus w !! c') →
  touches (run_list c :: map run_link xs) (s_links w) (s_links w') →
  s_mem w' = set_rm_nodes h (s_mem w) →
  (∀ a, a ∉ rb_nil t :: rb_root t :: map rb_link xs → h !! a = rm_nodes (s_mem w) !! a) →
  (∀ a, is_Some (rm_nodes (s_mem w) !! a) → is_Some (h !! a)) →
  s_me w' = s_me w → s_cpus_num w' = s_cpus_num w → s_procs_lock w' = s_procs_lock w →
  frame c t xs w w'.
Proof.
  intros Hv Hin [v' Hp] Hc [Hd Hl] Hm Hn Hnd H1 H2 H3. split; try done.
  - intros p' Hp'. destruct Hp as [-> | ->]; [|done]. rewrite lookup_insert_ne; [done|]. by intros ->.
  - intros p' Hp'. destruct Hp as [-> | ->]; [|done]. destruct (decide (p = p')) as [<-|].
    + rewrite lookup_insert_eq. by eexists.
    + by rewrite lookup_insert_ne.
  - intros u Hu1 Hu2. apply Hl. rewrite elem_of_cons. tauto.
  - intros a Ha1 Ha2 Ha3. rewrite Hm. apply Hn. rewrite !elem_of_cons. tauto.
  - intros a Ha. rewrite Hm. by apply Hnd.
  - by rewrite Hm.
Qed.

Lemma wp_link_empty hd es w (Q : bool → sworld → Prop) :
  is_list (s_links w) hd es → Q (bool_decide (es = [])) w → wp (on_links (list_empty hd)) w Q.
Proof. intros Hl HQ. apply wp_on_links. eapply wp_list_empty; [exact Hl|]. by destruct w. Qed.

Lemma in_list_fit c ps w : rq_in_list c ps w → fit ps w.
Proof.
  intros [_ _ Hn Hp]. split; [done|]. intros p Hin. destruct (Hp p Hin) as (v & ? & _ & ?). by exists v.
Qed.

(** A process not in any queue, which may enter the queue of [c]. *)
Record outside (c : Z) (t : Rb_tree) (ps : list Z) (p : Z) (v : Proc) (w : sworld) : Prop := {
  os_proc : s_procs w !! p = Some v;
  os_cpu : p_cpu v = Some c;
  os_prio : -20 ≤ priority v ≤ 19;
  os_new : p ∉ ps;
  os_link : is_list (s_links w) (run_link p) [];
  os_node : is_Some (rm_nodes (s_mem w) !! rb_link p);
  os_real : rb_link p ≠ rb_nil t ∧ rb_link p ≠ rb_root t
}.

(** The sorted queue with one more. *)
Lemma sorted_place {A} (f : A → Z) l1 l2 p :
  StronglySorted (λ a b, f b ≤ f a) (l1 ++ l2) → (∀ a, a ∈ l1 → f p ≤ f a) →
  (∀ b, head l2 = Some b → f b < f p) → StronglySorted (λ a b, f b ≤ f a) (l1 ++ p :: l2).
Proof.
  induction l1 as [|a l1 IH]; cbn [app]; intros Hs H1 H2.
  - constructor; [done|]. destruct l2 as [|b l2]; [constructor|]. specialize (H2 b eq_refl).
    apply StronglySorted_inv in Hs as [_ Hf]. constructor; [lia|].
    rewrite Forall_forall in *. intros x Hx. specialize (Hf x Hx). lia.
  - apply StronglySorted_inv in Hs as [Hs Hf]. constructor; [apply IH; [done| |done]; intros; apply H1; by right|].
    rewrite !Forall_app, Forall_cons in *. destruct Hf as [Hf1 Hf2]. split_and!; [done| |done]. apply H1. by left.
Qed.

Lemma filter_middle (P : Z → Prop) `{!∀ x, Decision (P x)} l1 (p : Z) l2 :
  filter P (l1 ++ p :: l2) ≡ₚ (if decide (P p) then [p] else []) ++ filter P (l1 ++ l2).
Proof.
  rewrite !filter_app, filter_cons. destruct (decide (P p)); cbn; [|done]. by rewrite Permutation_middle.
Qed.

Lemma filter_same (P P' : Z → Prop) `{!∀ x, Decision (P x), !∀ x, Decision (P' x)} (l : list Z) :
  (∀ x, x ∈ l → P x ↔ P' x) → filter P l = filter P' l.
Proof.
  induction l as [|x l IH]; intros Hx; [done|]. rewrite !filter_cons.
  rewrite (decide_ext (P x) (P' x)), IH; [done| |]; [intros; apply Hx; by right|apply Hx; by left].
Qed.

(** The list part: [p] in its place. *)
Lemma wp_enqueue_list {A} c p v ps w (m : Sched A) (Q : A → sworld → Prop) :
  rq_in_list c ps w → zlen ps < NPROC → s_procs w !! p = Some v → p_cpu v = Some c → -20 ≤ priority v ≤ 19 →
  p ∉ ps → is_list (s_links w) (run_link p) [] →
  (∀ l1 l2 h, ps = l1 ++ l2 → touches (run_list c :: map run_link (p :: ps)) (s_links w) h →
     rq_in_list c (l1 ++ p :: l2) (set_s_links h w) → wp m (set_s_links h w) Q) →
  wp (le ← find_place_by priority c (priority v); on_links (list_add_before le (run_link p));; m) w Q.
Proof.
  intros [Hl Hs Hn Hp] Hlen Hv Hc Hpr Hnew Hlp HQ. apply wp_bind.
  eapply wp_find_place; [exact Hl|intros p' Hin; destruct (Hp p' Hin) as (? & ? & _); eauto|].
  intros l1 l2 -> Hk1 Hk2. rewrite map_app in Hl.
  apply wp_bind, wp_on_links. eapply (wp_list_add_before_at _ (map run_link l1) (map run_link l2)); [exact Hl| | |].
  - rewrite <- map_app, elem_of_cons. intros [?%run_link_list|(p' & Ep & Hin)%list_elem_of_fmap]; [done|].
    apply (inj run_link) in Ep as ->. done.
  - destruct Hlp as [_ Hlp]. eapply lseg_dom; [exact Hlp|by left].
  - intros h Hl' Ht. apply (HQ l1 l2); [done| |].
    + destruct Ht as [Hd Ht]. split; [done|]. intros u Hu. apply Ht. rewrite <- map_app.
      cbn [map] in Hu. set_solver.
    + split.
      * cbn. by rewrite map_app.
      * apply (sorted_place (prio (set_s_links h w))); [exact Hs| |].
        -- intros a Ha. specialize (Hk1 a Ha). unfold prio at 1. unfold proc_at. cbn. by rewrite Hv.
        -- intros b Hb. specialize (Hk2 b Hb). unfold prio at 2. unfold proc_at. cbn. by rewrite Hv.
      * rewrite length_app in *. cbn [length]. unfold NPROC in *. lia.
      * intros p' Hin. rewrite elem_of_app, elem_of_cons in Hin. cbn.
        destruct Hin as [?|[->|?]]; [apply Hp; set_solver|eauto|apply Hp; set_solver].
Qed.

Lemma wp_atomic_inc c q w (Q : unit → sworld → Prop) :
  s_cpus w !! c = Some q → 0 ≤ proc_num q ≤ NPROC →
  Q tt (set_s_cpus (<[c := set_proc_num (proc_num q + 1) q]> (s_cpus w)) w) → wp (atomic_inc c) w Q.
Proof.
  intros Hc Hn HQ. unfold atomic_inc. eapply wp_upd_cpu; [exact Hc|]. rewrite sint_small; [done|].
  unfold NPROC in Hn. lia.
Qed.
Lemma wp_atomic_dec c q w (Q : unit → sworld → Prop) :
  s_cpus w !! c = Some q → 0 < proc_num q ≤ NPROC →
  Q tt (set_s_cpus (<[c := set_proc_num (proc_num q - 1) q]> (s_cpus w)) w) → wp (atomic_dec c) w Q.
Proof.
  intros Hc Hn HQ. unfold atomic_dec. eapply wp_upd_cpu; [exact Hc|]. rewrite sint_small; [done|].
  unfold NPROC in Hn. lia.
Qed.

(** *** [CFS_enqueue] *)

Section enqueue.
Context (c : Z) (q : Cpu) (t : Rb_tree) (ps rs : list Z) (p : Z) (v : Proc) (w : sworld).
Context (Hok : rq_ok c q t ps rs w) (Hout : outside c t ps p v w) (Hlen : zlen ps < NPROC).

Definition entered (w' : sworld) : Prop :=
  ∃ l1 l2 rs', ps = l1 ++ l2 ∧ rq_ok c (set_proc_num (proc_num q + 1) q) t (l1 ++ p :: l2) rs' w' ∧
    frame c t (p :: ps) w w' ∧
    s_procs w' = <[p := enqueued w (l1 ++ p :: l2) p v]> (s_procs w) ∧
    s_cpus w' = <[c := set_proc_num (proc_num q + 1) q]> (s_cpus w).

Lemma rs_new : p ∉ rs.
Proof.
  intros Hp. apply (os_new _ _ _ _ _ _ Hout). rewrite (ro_runnable _ _ _ _ _ _ Hok) in Hp.
  by apply list_elem_of_filter in Hp as [_ ?].
Qed.

(** The end: the tree is as it should be, and the process is counted. *)
Lemma enqueue_finish l1 l2 h hn rs' :
  ps = l1 ++ l2 → touches (run_list c :: map run_link (p :: ps)) (s_links w) h →
  rq_in_list c (l1 ++ p :: l2) (set_s_links h w) →
  let w3 := set_s_procs (<[p := enqueued w (l1 ++ p :: l2) p v]> (s_procs w)) (set_s_links h w) in
  rb_rep t hn (map rb_link rs') → StronglySorted (λ a b, vr w3 a ≤ vr w3 b) rs' →
  rs' ≡ₚ (if decide (state v = RUNNABLE) then [p] else []) ++ rs →
  (∀ a, a ∉ rb_nil t :: rb_root t :: map rb_link (p :: ps) → hn !! a = rm_nodes (s_mem w) !! a) →
  (∀ a, is_Some (rm_nodes (s_mem w) !! a) → is_Some (hn !! a)) →
  wp (atomic_inc c) (set_nodes hn w3) (λ _, entered).
Proof.
  intros Eps Ht Hl w3 Hrep Hs Hrs Hf Hg. pose proof Hout as [Hv Hc Hpr Hnew _ _ _].
  destruct Hok as [[Hcpu Htr _ Ho] Hli Hr Hnum Hsc Hsl].
  eapply (wp_atomic_inc c q); [exact Hcpu|rewrite Hnum; unfold NPROC; unfold NPROC in Hlen; lia|].
  exists l1, l2, rs'. split_and!; [done| | |done|done].
  2: { eapply (frame_of _ _ _ _ _ p v hn); try done; [by left|by eexists; left| ].
       intros c' Hc'. cbn. by rewrite lookup_insert_ne. }
  split; cbn [set_proc_num proc_num sc min_time_slice max_time_slice proc_vruntime_rbtree]; try done.
  - split; [apply lookup_insert_eq|exact Htr|exact Hrep|exact Hs].
  - eapply (in_list_same _ _ (set_s_links h w)); [exact Hl|done|]. intros p' v' _ Hv'. cbn in *.
    destruct (decide (p' = p)) as [->|Hne].
    + rewrite lookup_insert_eq. rewrite Hv in Hv'. injection Hv' as <-. by eexists.
    + rewrite lookup_insert_ne by done. by exists v'.
  - rewrite Hrs, filter_middle, Hr, Eps.
    assert (∀ x, runnable (set_s_cpus (<[c:=set_proc_num (proc_num q + 1) q]>
      (s_cpus (set_nodes hn w3))) (set_nodes hn w3)) x ↔ runnable w x) as E.
    { intros x. unfold runnable, proc_at. cbn. destruct (decide (x = p)) as [->|Hne].
      - by rewrite lookup_insert_eq, Hv.
      - by rewrite lookup_insert_ne. }
    assert (state v = RUNNABLE ↔ runnable w p) as Ev by (unfold runnable, proc_at; by rewrite Hv).
    rewrite (decide_ext (state v = RUNNABLE) (runnable w p)) by done.
    rewrite (decide_ext (runnable (set_s_cpus _ _) p) (runnable w p)) by apply E.
    by rewrite (filter_same (runnable (set_s_cpus _ _)) (runnable w)) by (intros; apply E).
  - rewrite Hnum, Eps, !length_app. cbn [length]. lia.
Qed.

Lemma wp_CFS_enqueue : wp (CFS_enqueue c p) w (λ _, entered).
Proof.
  pose proof Hout as [Hv Hc Hpr Hnew Hlp Hnode [Hrn Hrr]].
  pose proof (ro_list _ _ _ _ _ _ Hok) as Hli. pose proof (ro_tree _ _ _ _ _ _ Hok) as Hti.
  unfold CFS_enqueue. apply wp_bind. eapply wp_get_proc; [exact Hv|].
  apply wp_bind, wp_assert. split; [apply andb_true_intro; split; apply Z.leb_le; lia|].
  apply wp_bind. eapply wp_link_empty; [exact Hlp|]. apply wp_bind, wp_assert. split; [done|].
  eapply wp_enqueue_list; [exact Hli|exact Hlen|exact Hv|exact Hc|exact Hpr|exact Hnew|exact Hlp|].
  intros l1 l2 h Eps Ht Hl1. set (w1 := set_s_links h w) in *.
  pose proof (in_list_fit _ _ _ Hl1) as Hfit. destruct (fit_info _ _ Hfit) as (_ & _ & _ & Hd1 & Hd2).
  apply wp_bind. eapply wp_run_info; [apply Hl1|apply Hfit|].
  apply wp_bind. eapply (wp_set_slice c q p v); [apply Hti|apply Hok|exact Hv|exact Hc|exact Hpr|exact Hd1|].
  apply wp_bind, wp_udiv; [exact Hd2|]. apply wp_bind. eapply wp_upd_proc; [cbn; apply lookup_insert_eq|].
  rewrite set_procs_twice. fold (enqueued w1 (l1 ++ p :: l2) p v).
  change (enqueued w1 (l1 ++ p :: l2) p v) with (enqueued w (l1 ++ p :: l2) p v).
  change (s_procs w1) with (s_procs w). set (w3 := set_s_procs _ w1).
  apply wp_bind. eapply wp_get_proc; [cbn; apply lookup_insert_eq|].
  assert (∀ x, x ∈ rs → vr w3 x = vr w x) as Evr.
  { intros x Hx. unfold vr, proc_at. cbn. rewrite lookup_insert_ne; [done|]. intros <-. by apply rs_new. }
  cbn [enqueued set_vruntime with_slice set_alloc_slice set_time_slice state].
  assert (rq_in_tree c q t rs w3) as Hti3 by (eapply in_tree_same; [exact Hti|apply Hti|done..|exact Evr]).
  apply wp_bind. destruct (decide (state v = RUNNABLE)) as [Hst|Hst].
  - eapply wp_tree_insert; [exact Hti3|apply rs_new|exact Hnode|exact Hrn|exact Hrr|].
    intros hn r1 r2 Er Hrep Hs _ _ Hf Hg. eapply (enqueue_finish l1 l2 h hn (r1 ++ p :: r2)); try done.
    + rewrite decide_True by done. rewrite Er. cbn. by rewrite Permutation_middle.
    + intros a Ha. apply Hf. intros Hin. apply Ha. revert Hin. rewrite !elem_of_cons. cbn [map].
      rewrite !elem_of_cons. intros [?|[?|[?|(x & -> & Hx)%list_elem_of_fmap]]]; [tauto..|].
      right. right. right. apply list_elem_of_fmap_2. rewrite (ro_runnable _ _ _ _ _ _ Hok) in Hx.
      by apply list_elem_of_filter in Hx as [_ ?].
  - rewrite wp_ret. assert (w3 = set_nodes (rm_nodes (s_mem w)) w3) as E3 by (by destruct w as [? ? ? [] ? ? ?]).
    rewrite E3. eapply (enqueue_finish l1 l2 h _ rs); try done; [apply Hti|apply Hti3|].
    by rewrite decide_False.
Qed.
End enqueue.

(** *** [CFS_dequeue] *)

Lemma wp_link_member hd l1 e l2 w (Q : bool → sworld → Prop) :
  is_list (s_links w) hd (l1 ++ e :: l2) → Q false w → wp (on_links (list_empty e)) w Q.
Proof.
  intros [Hnd Hs] HQ. unfold list_empty. apply wp_on_links, wp_bind.
  eapply wp_list_next; [by eapply lseg_walk|]. rewrite wp_ret.
  rewrite bool_decide_eq_false_2; [by destruct w|]. destruct l2 as [|x l2]; cbn [head default].
  - intros ->. apply NoDup_cons in Hnd as [Hn _]. set_solver.
  - cbn. intros ->. apply NoDup_cons in Hnd as [_ Hn]. apply NoDup_app in Hn as (_ & _ & Hn).
    apply NoDup_cons in Hn as [Hn _]. set_solver.
Qed.

Lemma sorted_remove {A} (R : A → A → Prop) l1 x l2 : StronglySorted R (l1 ++ x :: l2) → StronglySorted R (l1 ++ l2).
Proof.
  induction l1 as [|a l1 IH]; cbn [app]; intros [Hs Hf]%StronglySorted_inv; [done|].
  constructor; [by apply IH|]. rewrite !Forall_app, Forall_cons in *. tauto.
Qed.

Lemma in_list_remove c l1 p l2 w h :
  rq_in_list c (l1 ++ p :: l2) w → is_list h (run_list c) (map run_link (l1 ++ l2)) →
  rq_in_list c (l1 ++ l2) (set_s_links h w).
Proof.
  intros [Hl Hs Hn Hp] Hl'. split; [done|by eapply sorted_remove| |].
  - rewrite length_app in *. cbn [length] in Hn. lia.
  - intros x Hx. apply Hp. set_solver.
Qed.

Section dequeue.
Context (c : Z) (q : Cpu) (t : Rb_tree) (l1 l2 rs : list Z) (p : Z) (w : sworld).
Context (Hok : rq_ok c q t (l1 ++ p :: l2) rs w).

Definition left_queue (w' : sworld) : Prop :=
  ∃ rs', rq_ok c (set_proc_num (proc_num q - 1) q) t (l1 ++ l2) rs' w' ∧
    frame c t (l1 ++ p :: l2) w w' ∧ is_list (s_links w') (run_link p) [] ∧
    s_procs w' = s_procs w ∧ s_cpus w' = <[c := set_proc_num (proc_num q - 1) q]> (s_cpus w).

Lemma dequeue_finish h hn rs' :
  touches (run_list c :: map run_link (l1 ++ p :: l2)) (s_links w) h →
  rq_in_list c (l1 ++ l2) (set_s_links h w) → is_list h (run_link p) [] →
  rb_rep t hn (map rb_link rs') → StronglySorted (λ a b, vr w a ≤ vr w b) rs' →
  rs' ≡ₚ filter (runnable w) (l1 ++ l2) →
  (∀ a, a ∉ rb_nil t :: rb_root t :: map rb_link (l1 ++ p :: l2) → hn !! a = rm_nodes (s_mem w) !! a) →
  (∀ a, is_Some (rm_nodes (s_mem w) !! a) → is_Some (hn !! a)) →
  wp (atomic_dec c) (set_nodes hn (set_s_links h w)) (λ _, left_queue).
Proof.
  intros Ht Hl Hp Hrep Hs Hrs Hf Hg. destruct Hok as [[Hcpu Htr _ Ho] Hli Hr Hnum Hsc Hsl].
  pose proof (rc_len _ _ _ Hli) as Hlen. rewrite length_app in Hnum, Hlen. cbn [length] in Hnum, Hlen.
  eapply (wp_atomic_dec c q); [exact Hcpu|lia|]. exists rs'. split_and!; [| |done|done|done].
  2: { destruct (rc_procs _ _ _ Hli p ltac:(set_solver)) as (v & Hv & _).
       eapply (frame_of _ _ _ _ _ p v hn); try done; [set_solver|by exists v; right| ].
       intros c' Hc'. cbn. by rewrite lookup_insert_ne. }
  split; cbn [set_proc_num proc_num sc min_time_slice max_time_slice proc_vruntime_rbtree]; try done.
  - split; [apply lookup_insert_eq|exact Htr|exact Hrep|exact Hs].
  - eapply (in_list_same _ _ (set_s_links h w)); [exact Hl|done|]. intros p' v' _ Hv'. by exists v'.
  - rewrite Hnum, length_app. lia.
Qed.

Lemma wp_CFS_dequeue : wp (CFS_dequeue c p) w (λ _, left_queue).
Proof.
  pose proof (ro_list _ _ _ _ _ _ Hok) as Hli. pose proof (ro_tree _ _ _ _ _ _ Hok) as Hti.
  destruct (rc_procs _ _ _ Hli p ltac:(set_solver)) as (v & Hv & _).
  pose proof (rc_list _ _ _ Hli) as Hl. rewrite map_app in Hl. cbn [map] in Hl.
  unfold CFS_dequeue. apply wp_bind. eapply wp_link_member; [exact Hl|]. apply wp_bind, wp_assert. split; [done|].
  apply wp_bind, wp_on_links. eapply wp_list_del_init; [exact Hl|]. intros h Hl' Hp [Hd Ht].
  rewrite <- map_app in Hl'. pose proof (in_list_remove c l1 p l2 w h Hli Hl') as Hli'.
  assert (touches (run_list c :: map run_link (l1 ++ p :: l2)) (s_links w) h) as Htouch.
  { split; [done|]. intros u Hu. apply Ht. rewrite map_app in Hu. cbn [map] in Hu. set_solver. }
  set (w1 := set_s_links h w) in *.
  apply wp_bind. eapply wp_get_proc; [exact Hv|].
  assert (state v = RUNNABLE ↔ runnable w p) as Ev by (unfold runnable, proc_at; by rewrite Hv).
  pose proof (ro_runnable _ _ _ _ _ _ Hok) as Hrs. rewrite filter_middle in Hrs.
  apply wp_bind. destruct (decide (state v = RUNNABLE)) as [Hst|Hst].
  - rewrite decide_True in Hrs by by apply Ev.
    assert (rq_in_tree c q t rs w1) as Hti1 by (eapply in_tree_same; [exact Hti|apply Hti|done..]).
    eapply wp_tree_delete; [exact Hti1|rewrite Hrs; by left|].
    intros hn r1 r2 Er Hrep Hf Hg. eapply (dequeue_finish h hn (r1 ++ r2)); try done.
    + pose proof (rc_order _ _ _ _ _ Hti) as Ho. rewrite Er in Ho. by eapply sorted_remove.
    + rewrite Er, <- Permutation_middle in Hrs. by apply (Permutation_cons_inv (a := p)) in Hrs.
    + intros a Ha. apply Hf. intros Hin. apply Ha. revert Hin. rewrite !elem_of_cons.
      intros [?|[?|(x & -> & Hx)%list_elem_of_fmap]]; [tauto..|].
      right. right. apply list_elem_of_fmap_2. rewrite (ro_runnable _ _ _ _ _ _ Hok) in Hx.
      by apply list_elem_of_filter in Hx as [_ ?].
  - rewrite decide_False in Hrs by by rewrite <- Ev.
    rewrite wp_ret. assert (w1 = set_nodes (rm_nodes (s_mem w)) w1) as E1 by (by destruct w as [? ? ? [] ? ? ?]).
    rewrite E1. eapply (dequeue_finish h _ rs); try done; apply Hti.
Qed.
End dequeue.

(** *** [CFS_pick_next] *)

Lemma wp_leftmost_loop tr L h0 t k h np fuel prev (Q : Z → rbheap → Prop) :
  placed tr L h0 h np k t → (length (inorder t) < fuel)%nat →
  Q (match head (inorder t) with Some x => x | None => prev end) h →
  wp (loop fuel (λ '(node, prev_node),
    if node =? rb_nil tr then mret (inr prev_node) else
    n ← rb_get node; mret (inl (rb_left n, node))) (ptr tr t, prev)) h Q.
Proof.
  revert k fuel prev. induction t as [|c l IHl a r _]; intros k fuel prev Hp Hfuel HQ;
    (destruct fuel as [|fuel]; [lia|]); cbn [loop]; apply wp_bind.
  - cbn [ptr]. by rewrite Z.eqb_refl, wp_ret, wp_ret.
  - pose proof (placed_real _ _ _ _ _ _ _ Hp ltac:(done)) as Hreal. cbn [ptr] in *.
    rewrite (proj2 (Z.eqb_neq _ _) Hreal). apply wp_bind.
    eapply wp_rb_at; [by apply (placed_node tr L h0 h np k DL c a l r)|]. rewrite wp_ret.
    cbn [rb_left node_of inorder] in *. rewrite length_app in Hfuel. cbn in Hfuel.
    apply (IHl (mk_frame DL c a r :: k)); [by apply placed_zoom|lia|].
    destruct (inorder l); [exact HQ|exact HQ].
Qed.

Lemma rep_leftmost tr h l : rb_rep tr h l →
  match l with
  | [] => rb_node_root tr h = Ok (None, h)
  | x :: _ => ∃ node, rb_node_root tr h = Ok (Some node, h) ∧ leftmost tr node h = Ok (x, h)
  end.
Proof.
  intros (np & W & Hp & EW & _). assert (wp (rb_node_root tr) h (λ o h', o = or_null tr (ptr tr W) ∧ h' = h)) as Hroot.
  { unfold rb_node_root. apply wp_bind. eapply wp_rb_at; [by apply (placed_root _ _ _ _ _ _ _ Hp)|]. by rewrite wp_ret. }
  apply wp_result in Hroot. rewrite Hroot. unfold or_null. destruct W as [|c lt a rt].
  - cbn in EW. subst l. cbn [ptr]. by rewrite Z.eqb_refl.
  - pose proof (placed_real _ _ _ _ _ _ _ Hp ltac:(done)) as Hreal. rewrite (proj2 (Z.eqb_neq _ _) Hreal).
    destruct l as [|x l]; [cbn in EW; by destruct (inorder lt)|]. eexists. split; [done|].
    apply wp_result. unfold leftmost. apply wp_bind, wp_gets.
    eapply (wp_leftmost_loop _ _ _ (Node c lt a rt) []); [exact Hp| |].
    + pose proof (placed_size _ _ _ _ _ _ _ Hp). lia.
    + by rewrite EW.
Qed.

Lemma wp_reassoc {A B C} (m : Sched A) (k : A → Sched B) (k' : B → Sched C) w Q :
  wp ((m ≫= k) ≫= k') w Q → wp (m ≫= λ x, k x ≫= k') w Q.
Proof.
  intros H. apply (proj1 (wp_bind _ _ _ _)), (proj1 (wp_bind _ _ _ _)) in H. apply wp_bind.
  eapply wp_conseq; [exact H|]. intros a w' Ha. by apply wp_bind.
Qed.

(** What a process becomes that leaves the tree: [count] counts it twice when it is
    runnable, as the queue's sum does once. *)
Definition picked w ps p v : Proc :=
  let info := run_info w ps in with_slice (new_slice info (u64 (proc_count info + 1)) (weight w p)) v.

Lemma wp_remove_rbtree c q t ps rs p v w (Q : unit → sworld → Prop) :
  rq_in_tree c q t rs w → rq_in_list c ps w → p ∈ ps → p ∈ rs → s_procs w !! p = Some v →
  min_time_slice q = MIN_TIME_SLICE ∧ max_time_slice q = MAX_TIME_SLICE →
  (∀ hn r1 r2, rs = r1 ++ p :: r2 → rb_rep t hn (map rb_link (r1 ++ r2)) →
     (∀ a, a ∉ rb_nil t :: rb_root t :: map rb_link rs → hn !! a = rm_nodes (s_mem w) !! a) →
     (∀ a, is_Some (rm_nodes (s_mem w) !! a) → is_Some (hn !! a)) →
     Q tt (set_s_procs (<[p := picked w ps p v]> (s_procs w)) (set_nodes hn w))) →
  wp (CFS_remove_rbtree p) w Q.
Proof.
  intros Hti Hli Hps Hrs Hv Hsl HQ. destruct (rc_procs _ _ _ Hli p Hps) as (v' & Hv' & Hc & Hpr).
  rewrite Hv in Hv'. injection Hv' as <-.
  unfold CFS_remove_rbtree. apply wp_bind. eapply wp_proc_cpu; [exact Hv|exact Hc|].
  apply wp_reassoc, wp_bind. eapply wp_tree_delete; [exact Hti|exact Hrs|].
  intros hn r1 r2 Er Hrep Hf Hg. set (w1 := set_nodes hn w).
  pose proof (in_list_fit _ _ _ Hli) as Hfit. destruct (fit_info _ _ Hfit) as (_ & _ & _ & Hd1 & _).
  apply wp_bind. eapply (wp_run_info _ w1); [apply Hli|apply Hfit|].
  change (run_info w1 ps) with (run_info w ps).
  eapply (wp_set_slice c q p v _ _ w1); [apply Hti|done|exact Hv|exact Hc|exact Hpr|exact Hd1|].
  change (weight w1 p) with (weight w p). by apply (HQ hn r1 r2).
Qed.

Section pick.
Context (c : Z) (q : Cpu) (t : Rb_tree) (ps rs : list Z) (w : sworld).
Context (Hok : rq_ok c q t ps rs w).

Lemma ps_nodup : NoDup ps.
Proof.
  pose proof (rc_list _ _ _ (ro_list _ _ _ _ _ _ Hok)) as [Hn _]. apply NoDup_cons in Hn as [_ Hn].
  by apply (NoDup_fmap_1 run_link).
Qed.

Lemma rs_nodup : NoDup rs.
Proof. rewrite (ro_runnable _ _ _ _ _ _ Hok). apply NoDup_filter, ps_nodup. Qed.

(** The process to run next, and what is left. *)
Definition chosen (p : Z) (rs' : list Z) (w' : sworld) : Prop :=
  ∃ v, s_procs w !! p = Some v ∧ state v = RUNNABLE ∧ rs = p :: rs' ∧
    (∀ p', p' ∈ ps → runnable w p' → vr w p ≤ vr w p') ∧
    rq_ok c q t ps rs' w' ∧ frame c t ps w w' ∧
    s_procs w' = <[p := set_state RUNNING (picked w ps p v)]> (s_procs w) ∧ s_cpus w' = s_cpus w.

Lemma pick_ok p v hn rs' : rs = p :: rs' → p ∈ ps → s_procs w !! p = Some v → state v = RUNNABLE →
  rb_rep t hn (map rb_link rs') →
  (∀ a, a ∉ rb_nil t :: rb_root t :: map rb_link rs → hn !! a = rm_nodes (s_mem w) !! a) →
  (∀ a, is_Some (rm_nodes (s_mem w) !! a) → is_Some (hn !! a)) →
  chosen p rs' (set_s_procs (<[p := set_state RUNNING (picked w ps p v)]> (s_procs w)) (set_nodes hn w)).
Proof.
  intros Er Hp Hv Hst Hrep Hf Hg. set (w' := set_s_procs _ _). pose proof rs_nodup as Hnd.
  pose proof Hok as [[Hcpu Htr _ Ho] Hli Hr Hnum Hsc Hsl]. rewrite Er in Ho, Hnd.
  apply StronglySorted_inv in Ho as [Ho Hmin]. rewrite Forall_forall in Hmin. apply NoDup_cons in Hnd as [Hpn Hnd].
  assert (∀ x, x ∈ ps → x ∈ rs ↔ runnable w x) as Hin by (intros x Hx; rewrite Hr, list_elem_of_filter; tauto).
  assert (∀ x, x ≠ p → proc_at w' x = proc_at w x) as Eat.
  { intros x Hx. unfold proc_at, w'. cbn. by rewrite lookup_insert_ne. }
  exists v. split_and!; [done..| | | |done|done].
  - intros p' Hp' Hrun. apply Hin in Hrun; [|done]. rewrite Er in Hrun. apply elem_of_cons in Hrun as [->|Hx]; [done|].
    by apply Hmin.
  - split; try done.
    + split; [done|done|done|]. eapply sorted_weaken; [exact Ho|]. intros a b Ha Hb.
      unfold vr. rewrite !Eat; [done|by intros ->..].
    + eapply in_list_same; [exact Hli|done|]. intros x vx Hx Hvx. cbn. destruct (decide (x = p)) as [->|Hne].
      * rewrite lookup_insert_eq. rewrite Hv in Hvx. injection Hvx as <-. by eexists.
      * rewrite lookup_insert_ne by done. by exists vx.
    + apply NoDup_Permutation; [done|apply NoDup_filter, ps_nodup|]. intros x. rewrite list_elem_of_filter.
      destruct (decide (x = p)) as [->|Hne].
      * split; [done|]. intros [Hx _]. unfold runnable, proc_at, w' in Hx. cbn in Hx. by rewrite lookup_insert_eq in Hx.
      * unfold runnable. rewrite Eat by done. fold (runnable w x). split.
        -- intros Hx. assert (x ∈ rs) as Hx' by (rewrite Er; by right). rewrite Hr in Hx'.
           by apply list_elem_of_filter in Hx'.
        -- intros [Hx1 Hx2]. assert (x ∈ rs) as Hx' by by apply Hin. rewrite Er in Hx'. set_solver.
  - eapply (frame_of _ _ _ _ _ p v hn); try done; [by eexists; left|].
    intros a Ha. apply Hf. intros Hx. apply Ha. revert Hx. rewrite !elem_of_cons.
    intros [?|[?|(x & -> & Hx)%list_elem_of_fmap]]; [tauto..|]. right. right. apply list_elem_of_fmap_2.
    rewrite Hr in Hx. by apply list_elem_of_filter in Hx as [_ ?].
Qed.

Lemma wp_CFS_pick_next : wp (CFS_pick_next c) w (λ o w',
  match o with
  | None => rs = [] ∧ w' = w
  | Some p => ∃ rs', chosen p rs' w'
  end).
Proof.
  pose proof (ro_list _ _ _ _ _ _ Hok) as Hli. pose proof (ro_tree _ _ _ _ _ _ Hok) as Hti.
  unfold CFS_pick_next. apply wp_bind. eapply wp_rq_tree; [exact Hti|].
  pose proof (rep_leftmost (cur_tree w t) _ _ (proj2 (rep_cur w t _ _) (rc_rep _ _ _ _ _ Hti))) as Hlm.
  assert (rs = [] ∨ ∃ p rs', rs = p :: rs') as [Er|(p & rs' & Er)] by (destruct rs; eauto);
    rewrite Er in Hlm; cbn [map] in Hlm.
  { apply wp_bind, wp_on_rb. eapply wp_of_run; [exact Hlm|]. rewrite wp_ret. split; [done|].
    by destruct w as [? ? ? [] ? ? ?]. }
  destruct Hlm as (node & Hroot & Hleft). apply wp_bind, wp_on_rb. eapply wp_of_run; [exact Hroot|].
  assert (set_nodes (rm_nodes (s_mem w)) w = w) as Ew by (by destruct w as [? ? ? [] ? ? ?]). rewrite Ew.
  apply wp_bind, wp_on_rb. eapply wp_of_run; [exact Hleft|]. rewrite Ew. cbv zeta. rewrite rbn2proc_rb_link.
  pose proof (ro_runnable _ _ _ _ _ _ Hok) as Hrs.
  assert (runnable w p ∧ p ∈ ps) as [Hrun Hp] by (apply -> (list_elem_of_filter (runnable w)); rewrite <- Hrs, Er; by left).
  destruct (rc_procs _ _ _ Hli p Hp) as (v & Hv & _).
  assert (state v = RUNNABLE) as Hst by (unfold runnable, proc_at in Hrun; by rewrite Hv in Hrun).
  apply wp_bind. eapply wp_get_proc; [exact Hv|].
  apply wp_bind, wp_assert. rewrite bool_decide_eq_true_2 by done. split; [done|].
  apply wp_bind. eapply wp_remove_rbtree; [exact Hti|exact Hli|exact Hp|rewrite Er; by left|exact Hv|apply Hok|].
  intros hn r1 r2 E12 Hrep Hf Hg. pose proof rs_nodup as Hnd. rewrite Er in Hnd, E12.
  destruct (nodup_split p [] rs' r1 r2 Hnd E12) as [<- <-].
  apply wp_bind. eapply wp_upd_proc; [cbn; apply lookup_insert_eq|]. rewrite wp_ret.
  cbn [s_procs set_s_procs set_nodes]. change (s_procs (set_nodes hn w)) with (s_procs w).
  exists rs'. cbn. rewrite insert_insert_eq. by apply pick_ok.
Qed.
End pick.

(** *** [CFS_insert_rbtree] *)

(** The [vruntime] to enter the tree with: the time used, weighted, is added when
    the process ran; a sleeper starts at the average. *)
Definition entry_vruntime w ps p v : Z :=
  if decide (state v = RUNNING)
  then u64 (vruntime v + u64 (u64 (alloc_time_slice v - time_slice v) * PRIO_0_WEIGHT) / weight w p)
  else let info := run_info w ps in rq_total_vruntime info / u64 (proc_count info + 1).

Section wake.
Context (c : Z) (q : Cpu) (t : Rb_tree) (ps rs : list Z) (p : Z) (v : Proc) (w : sworld).
Context (Hok : rq_ok c q t ps rs w) (Hp : p ∈ ps) (Hv : s_procs w !! p = Some v).
Context (Hst : state v = RUNNING ∨ state v = SLEEPING).
Context (Hnode : is_Some (rm_nodes (s_mem w) !! rb_link p)) (Hreal : rb_link p ≠ rb_nil t ∧ rb_link p ≠ rb_root t).

Definition woken (w' : sworld) : Prop :=
  ∃ rs', rq_ok c q t ps rs' w' ∧ frame c t ps w w' ∧
    s_procs w' = <[p := set_state RUNNABLE (set_vruntime (entry_vruntime w ps p v) v)]> (s_procs w) ∧
    s_cpus w' = s_cpus w.

Lemma not_runnable_in : p ∉ rs.
Proof.
  intros Hin. rewrite (ro_runnable _ _ _ _ _ _ Hok) in Hin. apply list_elem_of_filter in Hin as [Hr _].
  unfold runnable, proc_at in Hr. rewrite Hv in Hr. cbn in Hr. destruct Hst; congruence.
Qed.

Lemma wake_finish x (Q : unit → sworld → Prop) :
  x = entry_vruntime w ps p v → (∀ w', woken w' → Q tt w') →
  wp ((t ← rq_tree c; on_rb (rb_insert t (rb_link p)));; upd_proc p (set_state RUNNABLE))
    (set_s_procs (<[p := set_vruntime x v]> (s_procs w)) w) Q.
Proof.
  intros Ex HQ. set (w1 := set_s_procs _ w). destruct Hok as [Hti Hli Hr Hnum Hsc Hsl].
  assert (∀ y, y ≠ p → proc_at w1 y = proc_at w y) as Eat.
  { intros y Hy. unfold proc_at, w1. cbn. by rewrite lookup_insert_ne. }
  assert (rq_in_tree c q t rs w1) as Hti1.
  { eapply in_tree_same; [exact Hti|apply Hti|done..|]. intros y Hy. unfold vr. rewrite Eat; [done|].
    intros ->. by apply not_runnable_in. }
  apply wp_bind. eapply wp_tree_insert; [exact Hti1|apply not_runnable_in|exact Hnode|apply Hreal|apply Hreal|].
  intros hn r1 r2 Er Hrep Hs _ _ Hf Hg. eapply wp_upd_proc; [cbn; apply lookup_insert_eq|]. apply HQ.
  assert (r1 ++ p :: r2 ≡ₚ p :: rs) as Ers by (rewrite Er; by rewrite Permutation_middle).
  exists (r1 ++ p :: r2). cbn. rewrite insert_insert_eq, <- Ex. split_and!; [| |done|done].
  - set (w2 := set_s_procs _ _).
    assert (∀ y, proc_at w2 y = if decide (y = p) then set_state RUNNABLE (set_vruntime x v) else proc_at w y) as Eat2.
    { intros y. by apply (proc_at_insert w p v). }
    split; try done.
    + split; [apply Hti|apply Hti|exact Hrep|]. eapply sorted_weaken; [exact Hs|]. intros a b _ _.
      assert (∀ y, vr w2 y = vr w1 y) as Evr; [|by rewrite !Evr].
      intros y. unfold vr. rewrite Eat2. destruct (decide (y = p)) as [->|]; [|by rewrite Eat].
      unfold w1, proc_at. cbn. by rewrite lookup_insert_eq.
    + eapply in_list_same; [exact Hli|done|]. intros y vy Hy Hvy. cbn. destruct (decide (y = p)) as [->|Hne].
      * rewrite lookup_insert_eq. rewrite Hv in Hvy. injection Hvy as <-. by eexists.
      * rewrite lookup_insert_ne by done. by exists vy.
    + assert (NoDup ps) as Hnd by exact (ps_nodup _ _ _ _ _ _ Hok).
      apply NoDup_Permutation; [|by apply NoDup_filter|].
      * rewrite Ers. apply NoDup_cons. split; [apply not_runnable_in|]. exact (rs_nodup _ _ _ _ _ _ Hok).
      * intros y. rewrite Ers, elem_of_cons, list_elem_of_filter. unfold runnable. rewrite Eat2.
        destruct (decide (y = p)) as [->|Hne]; [split; [done|by left]|].
        rewrite Hr, list_elem_of_filter. unfold runnable. tauto.
  - eapply (frame_of _ _ _ _ _ p v hn); try done; [by eexists; left|].
    intros a Ha. apply Hf. intros Hx. apply Ha. revert Hx. rewrite !elem_of_cons. cbn [map]. rewrite !elem_of_cons.
    intros [?|[?|[->|(y & -> & Hy)%list_elem_of_fmap]]]; [tauto..| |]; right; right; apply list_elem_of_fmap_2; [done|].
    rewrite Hr in Hy. by apply list_elem_of_filter in Hy as [_ ?].
Qed.

Lemma wp_CFS_insert_rbtree : wp (CFS_insert_rbtree p) w (λ _, woken).
Proof.
  pose proof (ro_list _ _ _ _ _ _ Hok) as Hli.
  destruct (rc_procs _ _ _ Hli p Hp) as (v' & Hv' & Hc & Hpr). rewrite Hv in Hv'. injection Hv' as <-.
  unfold CFS_insert_rbtree. apply wp_bind. eapply wp_get_proc; [exact Hv|].
  apply wp_bind, wp_assert. split.
  { destruct Hst as [Hs|Hs]; rewrite Hs; reflexivity. }
  destruct (decide (state v = RUNNING)) as [Hrun|Hrun].
  - apply wp_bind, wp_bind, wp_weight_of; [done|]. intros wt Hwt Hb.
    apply wp_bind, wp_udiv; [lia|]. apply wp_bind. eapply wp_upd_proc; [exact Hv|].
    apply wp_bind. eapply wp_proc_cpu; [cbn; apply lookup_insert_eq|exact Hc|].
    apply (proj1 (wp_bind _ _ _ _)). apply wake_finish; [|done].
    unfold entry_vruntime. rewrite decide_True by done. unfold weight, prio, proc_at. rewrite Hv. cbn. by rewrite Hwt.
  - destruct Hst as [?|Hsl]; [done|]. rewrite decide_True by done.
    pose proof (in_list_fit _ _ _ Hli) as Hfit. destruct (fit_info _ _ Hfit) as (_ & _ & _ & _ & Hd2).
    apply wp_bind, wp_bind. eapply wp_proc_cpu; [exact Hv|exact Hc|].
    apply wp_bind. eapply wp_run_info; [apply Hli|apply Hfit|]. apply wp_bind, wp_udiv; [exact Hd2|].
    apply wp_bind. eapply wp_upd_proc; [exact Hv|].
    apply (proj1 (wp_bind _ _ _ _)). apply wake_finish; [|done].
    unfold entry_vruntime. by rewrite decide_False.
Qed.
End wake.
End spec.
