(* ===== verification/SchedSys.v ===== *)
(** * All run queues together

    The invariant of the scheduler: every CPU in use has a queue and a tree that
    agree, no process is in two queues, and those in none are unlinked.  The
    operations other parts of the kernel call keep it and always return. *)
From Stdlib Require Import Sorted.
From S2P Require Import Prelude ListH Rbtree RbRep RbSpec RbDelete RbSearch Sched SchedRep SchedSpec.

(** The tree, the queue and the order in the tree of every CPU in use. *)
Abbreviation queues := (gmap Z (Rb_tree * list Z * list Z)).

(** In no queue. *)
Definition loose (Q : queues) (p : Z) : Prop := ∀ c t ps rs, Q !! c = Some (t, ps, rs) → p ∉ ps.

(** The tree's own two nodes are no process's. *)
Definition own_nodes (t : Rb_tree) : Prop := ∀ p, rb_link p ≠ rb_nil t ∧ rb_link p ≠ rb_root t.
Definition apart (t1 t2 : Rb_tree) : Prop :=
  ∀ a, a ∈ [rb_nil t1; rb_root t1] → a ∉ [rb_nil t2; rb_root t2].

Record sched_ok (Q : queues) (w : sworld) : Prop := {
  so_queue c t ps rs : Q !! c = Some (t, ps, rs) →
    ∃ q, rq_ok c q t ps rs w ∧ cpu_lock q = false ∧ own_nodes t;
  so_apart c1 c2 t1 t2 ps1 ps2 rs1 rs2 : c1 ≠ c2 →
    Q !! c1 = Some (t1, ps1, rs1) → Q !! c2 = Some (t2, ps2, rs2) → apart t1 t2;
  so_used c q : s_cpus w !! c = Some q → sc q ≠ None → is_Some (Q !! c);
  so_cpus c : 0 ≤ c < NCPU → is_Some (s_cpus w !! c);
  so_boot : is_Some (Q !! 0);
  so_nodes p : is_Some (s_procs w !! p) → is_Some (rm_nodes (s_mem w) !! rb_link p);
  so_loose p : is_Some (s_procs w !! p) → loose Q p → is_list (s_links w) (run_link p) []
}.

(** ** One queue changes *)


Lemma rq_frame c t xs c2 q2 t2 ps2 rs2 w w' :
  frame c t xs w w' → c2 ≠ c → rq_ok c2 q2 t2 ps2 rs2 w → (∀ x, x ∈ ps2 → x ∉ xs) →
  own_nodes t → own_nodes t2 → apart t2 t → rq_ok c2 q2 t2 ps2 rs2 w'.
Proof.
  intros [A1 A2 A3 A4 A5 A6 A7 A8 A9 A10 A11] Hne [[Hc Ht Hr Ho] [Hl Hs Hn Hp] Hrs Hnum Hsc Hsl] Hx Hon Hon2 Hap.
  assert (∀ x, x ∈ ps2 → proc_at w' x = proc_at w x) as Eat by (intros x Hin; unfold proc_at; by rewrite A1 by auto).
  assert (∀ x, x ∈ rs2 → x ∈ ps2) as Hsub
    by (intros x Hin; rewrite Hrs in Hin; by apply list_elem_of_filter in Hin as [_ ?]).
  split; try done.
  - split; [by rewrite A3|by rewrite A8| |].
    + eapply rep_same; [exact Hr|]. intros a. rewrite !elem_of_cons. intros Ha. apply A6.
      * intros ->. destruct Ha as [Ha|[Ha|(x & Ex & _)%list_elem_of_fmap]].
        -- apply (Hap (rb_nil t2)); [by left|]. rewrite <- Ha. by left.
        -- apply (Hap (rb_root t2)); [by right; left|]. rewrite <- Ha. by left.
        -- by destruct (Hon x).
      * intros ->. destruct Ha as [Ha|[Ha|(x & Ex & _)%list_elem_of_fmap]].
        -- apply (Hap (rb_nil t2)); [by left|]. rewrite <- Ha. by right; left.
        -- apply (Hap (rb_root t2)); [by right; left|]. rewrite <- Ha. by right; left.
        -- by destruct (Hon x).
      * intros (y & -> & Hy)%list_elem_of_fmap. destruct Ha as [Ha|[Ha|(x & Ex & Hin)%list_elem_of_fmap]];
          [by destruct (Hon2 y)|by destruct (Hon2 y)|]. apply (inj rb_link) in Ex as ->. by apply (Hx x); auto.
    + eapply sorted_weaken; [exact Ho|]. intros a b Ha Hb. unfold vr. by rewrite !Eat by auto.
  - split.
    + eapply is_list_same; [exact Hl|]. intros u. rewrite elem_of_cons. intros Hu. apply A5.
      * destruct Hu as [->|(x & -> & _)%list_elem_of_fmap]; [unfold run_list; lia|apply run_link_list].
      * intros (y & -> & Hy)%list_elem_of_fmap. destruct Hu as [Hu|(x & Ex & Hin)%list_elem_of_fmap];
          [by apply run_link_list in Hu|]. apply (inj run_link) in Ex as ->. by apply (Hx x).
    + eapply sorted_weaken; [exact Hs|]. intros a b Ha Hb. unfold prio. by rewrite !Eat.
    + done.
    + intros p Hin. rewrite A1 by auto. by apply Hp.
  - rewrite Hrs. rewrite (filter_same (runnable w') (runnable w)); [done|].
    intros x Hin. unfold runnable. by rewrite Eat.
Qed.

Lemma queue_cpu Q w c t ps rs x : sched_ok Q w → Q !! c = Some (t, ps, rs) → x ∈ ps →
  ∃ v, s_procs w !! x = Some v ∧ p_cpu v = Some c ∧ -20 ≤ priority v ≤ 19.
Proof.
  intros Hs HQ Hx. destruct (so_queue _ _ Hs _ _ _ _ HQ) as (q & Hok & _).
  by apply (rc_procs _ _ _ (ro_list _ _ _ _ _ _ Hok)).
Qed.

Lemma one_queue Q w c1 c2 t1 t2 ps1 ps2 rs1 rs2 x : sched_ok Q w →
  Q !! c1 = Some (t1, ps1, rs1) → Q !! c2 = Some (t2, ps2, rs2) → x ∈ ps1 → x ∈ ps2 → c1 = c2.
Proof.
  intros Hs H1 H2 Hx1 Hx2. destruct (queue_cpu _ _ _ _ _ _ _ Hs H1 Hx1) as (v1 & Hv1 & Hc1 & _).
  destruct (queue_cpu _ _ _ _ _ _ _ Hs H2 Hx2) as (v2 & Hv2 & Hc2 & _). congruence.
Qed.

Lemma sched_ok_step Q w c t ps rs ps' rs' q' w' xs :
  sched_ok Q w → Q !! c = Some (t, ps, rs) → frame c t xs w w' →
  (∀ x, x ∈ xs → x ∈ ps ∨ loose Q x) → rq_ok c q' t ps' rs' w' → cpu_lock q' = false →
  (∀ x, x ∈ ps → x ∈ xs) → (∀ x, x ∈ ps' → x ∈ xs) →
  (∀ x, x ∈ xs → x ∉ ps' → is_list (s_links w') (run_link x) []) →
  (∀ x, x ∉ xs → s_procs w' !! x = s_procs w !! x) →
  (∀ x, is_Some (s_procs w' !! x) → is_Some (s_procs w !! x)) →
  sched_ok (<[c := (t, ps', rs')]> Q) w'.
Proof.
  intros Hs HQ Hf Hxs Hok' Hlock Hps Hps' Hempty _ Hdom. pose proof Hf as [A1 A2 A3 A4 A5 A6 A7 A8 A9 A10 A11].
  destruct (so_queue _ _ Hs _ _ _ _ HQ) as (q & Hok & _ & Hown). split.
  - intros c2 t2 ps2 rs2. destruct (decide (c2 = c)) as [->|Hne].
    + intros HQ2; rewrite lookup_insert_eq in HQ2; injection HQ2 as <- <- <-. by exists q'.
    + intros HQ2; rewrite lookup_insert_ne in HQ2 by done. destruct (so_queue _ _ Hs _ _ _ _ HQ2) as (q2 & Hok2 & Hl2 & Hown2).
      exists q2. split_and!; [|done|done]. eapply rq_frame; [exact Hf|done|exact Hok2| |done|done|].
      * intros x Hx Hin. destruct (Hxs x Hin) as [Hin'|Hl]; [|by apply (Hl _ _ _ _ HQ2)].
        apply Hne. by eapply (one_queue Q w).
      * by eapply (so_apart _ _ Hs c2 c).
  - intros c1 c2 t1 t2 ps1 ps2 rs1 rs2 Hne. destruct (decide (c1 = c)) as [->|H1], (decide (c2 = c)) as [->|H2];
      rewrite ?lookup_insert_eq, ?lookup_insert_ne by done; try done.
    + intros [= <- <- <-]. by eapply (so_apart _ _ Hs).
    + intros HQ1 [= <- <- <-]. by eapply (so_apart _ _ Hs).
    + by eapply (so_apart _ _ Hs).
  - intros c2 q2 Hc2 Hsc. destruct (decide (c2 = c)) as [->|Hne]; [rewrite lookup_insert_eq; by eexists|].
    rewrite lookup_insert_ne by done. rewrite A3 in Hc2 by done. by eapply so_used.
  - intros c2 Hc2. destruct (decide (c2 = c)) as [->|Hne]; [|rewrite A3 by done; by apply (so_cpus _ _ Hs)].
    eexists. apply Hok'.
  - destruct (decide (0 = c)) as [<-|Hne]; [rewrite lookup_insert_eq; by eexists|].
    rewrite lookup_insert_ne by done. apply Hs.
  - intros p Hp. apply A7, (so_nodes _ _ Hs), Hdom, Hp.
  - intros p Hp Hl. assert (p ∉ ps') as Hp' by (apply (Hl c t ps' rs'), lookup_insert_eq).
    destruct (decide (p ∈ xs)) as [Hin|Hin]; [by apply Hempty|].
    assert (loose Q p) as Hloose.
    { intros c2 t2 ps2 rs2 HQ2. destruct (decide (c2 = c)) as [->|Hne].
      - rewrite HQ in HQ2. injection HQ2 as <- <- <-. intros Hx. by apply Hin, Hps.
      - eapply (Hl c2). by rewrite lookup_insert_ne. }
    eapply is_list_same; [apply (so_loose _ _ Hs); [by apply Hdom|done]|]. intros u ->%list_elem_of_singleton.
    apply A5; [apply run_link_list|]. intros (y & Ey & Hy)%list_elem_of_fmap. by apply (inj run_link) in Ey as ->.
Qed.

(** ** A process changes *)

Lemma rq_proc c q t ps rs w p v v' :
  rq_ok c q t ps rs w → s_procs w !! p = Some v →
  (p ∈ ps → p_cpu v' = p_cpu v ∧ priority v' = priority v ∧ vruntime v' = vruntime v ∧
     (state v' = RUNNABLE ↔ state v = RUNNABLE)) →
  rq_ok c q t ps rs (set_s_procs (<[p := v']> (s_procs w)) w).
Proof.
  intros [Hti Hli Hr Hnum Hsc Hsl] Hv Hsame. set (w' := set_s_procs _ _).
  assert (∀ x, proc_at w' x = if decide (x = p) then v' else proc_at w x) as Eat by (intros x; by apply (proc_at_insert w p v)).
  assert (proc_at w p = v) as Ev by (unfold proc_at; by rewrite Hv).
  assert (∀ x, x ∈ rs → x ∈ ps) as Hsub
    by (intros x Hin; rewrite Hr in Hin; by apply list_elem_of_filter in Hin as [_ ?]).
  split; try done.
  - eapply in_tree_same; [exact Hti|apply Hti|done..|]. intros x Hx. unfold vr. rewrite Eat.
    destruct (decide (x = p)) as [->|]; [|done]. rewrite Ev. by apply Hsame, Hsub.
  - eapply in_list_same; [exact Hli|done|]. intros x vx Hx Hvx. unfold w'. cbn. destruct (decide (x = p)) as [->|Hne].
    + rewrite lookup_insert_eq. exists v'. rewrite Hv in Hvx. injection Hvx as <-.
      destruct (Hsame Hx) as (? & ? & _). done.
    + rewrite lookup_insert_ne by done. by exists vx.
  - rewrite Hr. rewrite (filter_same (runnable w) (runnable w')); [done|]. intros x Hx. unfold runnable.
    rewrite Eat. destruct (decide (x = p)) as [->|]; [|done]. rewrite Ev. symmetry. by apply Hsame.
Qed.

Lemma sched_ok_proc Q w p v v' :
  sched_ok Q w → s_procs w !! p = Some v →
  (loose Q p ∨ p_cpu v' = p_cpu v ∧ priority v' = priority v ∧ vruntime v' = vruntime v ∧
     (state v' = RUNNABLE ↔ state v = RUNNABLE)) →
  sched_ok Q (set_s_procs (<[p := v']> (s_procs w)) w).
Proof.
  intros Hs Hv Hcase. assert (∀ x, is_Some (<[p := v']> (s_procs w) !! x) → is_Some (s_procs w !! x)) as Hdom.
  { intros x. destruct (decide (p = x)) as [<-|]; [rewrite Hv; by eexists|by rewrite lookup_insert_ne]. }
  split; try apply Hs.
  - intros c t ps rs HQ. destruct (so_queue _ _ Hs _ _ _ _ HQ) as (q & Hok & Hl & Hown). exists q.
    split_and!; [|done|done]. eapply rq_proc; [exact Hok|exact Hv|]. intros Hp.
    destruct Hcase as [Hlo|?]; [by destruct (Hlo _ _ _ _ HQ)|done].
  - intros x Hx. apply (so_nodes _ _ Hs). by apply Hdom.
  - intros x Hx. apply (so_loose _ _ Hs). by apply Hdom.
Qed.

(** ** Locks *)

Definition with_cpu c q w : sworld := set_s_cpus (<[c := q]> (s_cpus w)) w.

Lemma rq_lock b c q t ps rs w : rq_ok c q t ps rs w → rq_ok c (set_cpu_lock b q) t ps rs (with_cpu c (set_cpu_lock b q) w).
Proof.
  intros [[Hc Ht Hr Ho] [Hl Hs Hn Hp] Hrs Hnum Hsc Hsl].
  split; [split; [apply lookup_insert_eq|done..]|by split|done..].
Qed.

Lemma frame_cpu c t xs q w : frame c t xs w (with_cpu c q w).
Proof. split; try done. intros c' Hc'. cbn. by rewrite lookup_insert_ne. Qed.

Lemma wp_acquire_cpu c q w (Q : unit → sworld → Prop) :
  s_cpus w !! c = Some q → cpu_lock q = false → Q tt (with_cpu c (set_cpu_lock true q) w) → wp (acquire_cpu c) w Q.
Proof.
  intros Hc Hl HQ. unfold acquire_cpu. apply wp_bind. eapply wp_get_cpu; [exact Hc|].
  apply wp_bind, wp_assert. rewrite Hl. split; [done|]. by eapply wp_upd_cpu.
Qed.

Lemma wp_release_cpu c q w (Q : unit → sworld → Prop) :
  s_cpus w !! c = Some q → cpu_lock q = true → Q tt (with_cpu c (set_cpu_lock false q) w) → wp (release_cpu c) w Q.
Proof.
  intros Hc Hl HQ. unfold release_cpu. apply wp_bind. eapply wp_get_cpu; [exact Hc|].
  apply wp_bind, wp_assert. rewrite Hl. split; [done|]. by eapply wp_upd_cpu.
Qed.

Lemma wp_cpu_sc {A} c q k (m : Sched_class → Sched A) w (Q : A → sworld → Prop) :
  s_cpus w !! c = Some q → sc q = Some k → wp (m k) w Q → wp (k ← cpu_sc c; m k) w Q.
Proof.
  intros Hc Hk HQ. unfold cpu_sc. apply wp_bind, wp_bind. eapply wp_get_cpu; [exact Hc|]. rewrite Hk.
  apply wp_of_option. eauto.
Qed.

(** An operation of the class under the lock. *)
Lemma wp_locked {A} c q t ps rs w (m : Sched_class → Sched A) (P : A → sworld → Prop) (Q : A → sworld → Prop) :
  rq_ok c q t ps rs w → cpu_lock q = false →
  wp (m CFS_sched_class) (with_cpu c (set_cpu_lock true q) w) P →
  (∀ a w1, P a w1 → ∃ q1, s_cpus w1 !! c = Some q1 ∧ cpu_lock q1 = true ∧
     Q a (with_cpu c (set_cpu_lock false q1) w1)) →
  wp (acquire_cpu c;; k ← cpu_sc c; a ← m k; release_cpu c;; mret a) w Q.
Proof.
  intros Hok Hl Hm HQ. apply wp_bind. eapply wp_acquire_cpu; [apply Hok|exact Hl|].
  eapply (wp_cpu_sc _ (set_cpu_lock true q)); [apply lookup_insert_eq|apply Hok|].
  apply wp_bind. eapply wp_conseq; [exact Hm|]. intros a w1 Ha. destruct (HQ a w1 Ha) as (q1 & Hq1 & Hl1 & HQ1).
  apply wp_bind. eapply wp_release_cpu; [exact Hq1|exact Hl1|]. by rewrite wp_ret.
Qed.

Lemma wp_locked_unit c q t ps rs w (m : Sched_class → Sched unit) (P : unit → sworld → Prop) (Q : unit → sworld → Prop) :
  rq_ok c q t ps rs w → cpu_lock q = false →
  wp (m CFS_sched_class) (with_cpu c (set_cpu_lock true q) w) P →
  (∀ w1, P tt w1 → ∃ q1, s_cpus w1 !! c = Some q1 ∧ cpu_lock q1 = true ∧
     Q tt (with_cpu c (set_cpu_lock false q1) w1)) →
  wp (acquire_cpu c;; k ← cpu_sc c; m k;; release_cpu c) w Q.
Proof.
  intros Hok Hl Hm HQ. apply wp_bind. eapply wp_acquire_cpu; [apply Hok|exact Hl|].
  eapply (wp_cpu_sc _ (set_cpu_lock true q)); [apply lookup_insert_eq|apply Hok|].
  apply wp_bind. eapply wp_conseq; [exact Hm|]. intros [] w1 Ha. destruct (HQ w1 Ha) as (q1 & Hq1 & Hl1 & HQ1).
  by eapply wp_release_cpu.
Qed.

(** ** The operations *)

Lemma frame_locked c t xs q w w1 q1 : frame c t xs (with_cpu c q w) w1 → frame c t xs w (with_cpu c q1 w1).
Proof. intros Hf. eapply frame_trans; [apply frame_cpu|]. eapply frame_trans; [exact Hf|apply frame_cpu]. Qed.

Definition in_queue (Q : queues) (c : Z) (ps : list Z) (p : Z) : Prop := ∃ t rs, Q !! c = Some (t, ps, rs) ∧ p ∈ ps.

Lemma wp_class_dequeue Q w c t ps rs p :
  sched_ok Q w → Q !! c = Some (t, ps, rs) → p ∈ ps →
  wp (sched_class_dequeue p) w (λ _ w', ∃ l1 l2 rs', ps = l1 ++ p :: l2 ∧
    sched_ok (<[c := (t, l1 ++ l2, rs')]> Q) w' ∧ loose (<[c := (t, l1 ++ l2, rs')]> Q) p ∧ s_procs w' = s_procs w).
Proof.
  intros Hs HQ Hp. destruct (queue_cpu _ _ _ _ _ _ _ Hs HQ Hp) as (v & Hv & Hc & _).
  destruct (so_queue _ _ Hs _ _ _ _ HQ) as (q & Hok & Hl & Hown).
  unfold sched_class_dequeue. apply wp_bind. eapply wp_proc_cpu; [exact Hv|exact Hc|].
  apply list_elem_of_split in Hp as (l1 & l2 & ->).
  eapply (wp_locked_unit _ _ _ _ _ _ (λ k, class_dequeue k c p)); [exact Hok|exact Hl| |].
  { eapply wp_CFS_dequeue, rq_lock, Hok. }
  intros w1 (rs' & Hok1 & Hf & Hring & Epr & Ecpu). eexists. split; [apply Hok1|]. split; [done|].
  exists l1, l2, rs'. pose proof (ps_nodup _ _ _ _ _ _ Hok) as Hnd.
  assert (p ∉ l1 ++ l2) as Hpn by (rewrite <- Permutation_middle in Hnd; by apply NoDup_cons in Hnd as [? _]).
  split_and!; [done| | |exact Epr].
  - eapply (sched_ok_step _ w _ _ _ _ _ _ _ _ (l1 ++ p :: l2) Hs HQ); [by eapply frame_locked|by intros x; left|
      eapply rq_lock; exact Hok1|done|done|set_solver| |intros x _; change (s_procs w1 !! x = s_procs w !! x); by rewrite Epr|
      intros x; change (is_Some (s_procs w1 !! x) → is_Some (s_procs w !! x)); by rewrite Epr].
    intros x Hx Hx'. assert (x = p) as -> by set_solver. exact Hring.
  - intros c2 t2 ps2 rs2. destruct (decide (c2 = c)) as [->|Hne].
    + rewrite lookup_insert_eq. by intros [= <- <- <-].
    + rewrite lookup_insert_ne by done. intros HQ2 Hin. apply Hne. eapply (one_queue Q w); [exact Hs|exact HQ2|exact HQ|exact Hin|].
      apply elem_of_app. by right; left.
Qed.

Lemma wp_class_insert Q w c t ps rs p v :
  sched_ok Q w → Q !! c = Some (t, ps, rs) → p ∈ ps → s_procs w !! p = Some v →
  state v = RUNNING ∨ state v = SLEEPING →
  wp (sched_class_insert_rbtree p) w (λ _ w', ∃ rs', sched_ok (<[c := (t, ps, rs')]> Q) w' ∧ frame c t ps w w' ∧
    s_procs w' = <[p := set_state RUNNABLE (set_vruntime (entry_vruntime w ps p v) v)]> (s_procs w)).
Proof.
  intros Hs HQ Hp Hv Hst. destruct (queue_cpu _ _ _ _ _ _ _ Hs HQ Hp) as (v' & Hv' & Hc & _).
  rewrite Hv in Hv'. injection Hv' as <-.
  destruct (so_queue _ _ Hs _ _ _ _ HQ) as (q & Hok & Hl & Hown).
  unfold sched_class_insert_rbtree. apply wp_bind. eapply wp_proc_cpu; [exact Hv|exact Hc|].
  eapply (wp_locked_unit _ _ _ _ _ _ (λ k, class_insert_rbtree k p)); [exact Hok|exact Hl| |].
  { eapply (wp_CFS_insert_rbtree c _ t ps rs p v); [apply rq_lock, Hok|done|exact Hv|done| |apply Hown].
    apply (so_nodes _ _ Hs). by eexists. }
  intros w1 (rs' & Hok1 & Hf & Epr & Ecpu). eexists. split; [apply Hok1|]. split; [done|].
  exists rs'. split_and!; [|by eapply frame_locked|exact Epr].
  eapply (sched_ok_step _ w _ _ _ _ _ _ _ _ ps Hs HQ); [by eapply frame_locked|by intros x; left|
    eapply rq_lock; exact Hok1|done|done|done|done|apply (fr_procs _ _ _ _ _ (frame_locked _ _ _ _ _ _ q Hf))|].
  intros x. change (is_Some (s_procs w1 !! x) → is_Some (s_procs w !! x)). rewrite Epr. cbn.
  destruct (decide (p = x)) as [<-|]; [intros _; by exists v|by rewrite lookup_insert_ne].
Qed.

Lemma wp_class_pick Q w t ps rs :
  sched_ok Q w → Q !! s_me w = Some (t, ps, rs) →
  wp sched_class_pick_next w (λ o w', match o with
    | None => rs = [] ∧ sched_ok Q w' ∧ s_procs w' = s_procs w
    | Some p => ∃ rs' v, rs = p :: rs' ∧ s_procs w !! p = Some v ∧ state v = RUNNABLE ∧
        (∀ p', p' ∈ ps → runnable w p' → vr w p ≤ vr w p') ∧
        sched_ok (<[s_me w := (t, ps, rs')]> Q) w' ∧
        s_procs w' = <[p := set_state RUNNING (picked w ps p v)]> (s_procs w)
    end).
Proof.
  intros Hs HQ. destruct (so_queue _ _ Hs _ _ _ _ HQ) as (q & Hok & Hl & Hown).
  unfold sched_class_pick_next, mycpu. apply wp_bind, wp_gets.
  eapply (wp_locked _ _ _ _ _ _ (λ k, class_pick_next k (s_me w))); [exact Hok|exact Hl| |].
  { eapply wp_CFS_pick_next, rq_lock, Hok. }
  intros [p|] w1.
  - intros (rs' & v & Hv & Hst & Er & Hmin & Hok1 & Hf & Epr & Ecpu). eexists. split; [apply Hok1|]. split; [done|].
    exists rs', v. split_and!; [done..| |exact Epr].
    eapply (sched_ok_step _ w _ _ _ _ _ _ _ _ ps Hs HQ); [by eapply frame_locked|by intros x; left|
      eapply rq_lock; exact Hok1|done|done|done|done|apply (fr_procs _ _ _ _ _ (frame_locked _ _ _ _ _ _ q Hf))|].
    intros x. change (is_Some (s_procs w1 !! x) → is_Some (s_procs w !! x)). rewrite Epr. cbn.
  destruct (decide (p = x)) as [<-|]; [intros _; by exists v|by rewrite lookup_insert_ne].
  - intros [Er ->]. eexists. split; [apply lookup_insert_eq|]. split; [done|]. split_and!; [done| |done].
    assert (with_cpu (s_me w) (set_cpu_lock false (set_cpu_lock true q)) (with_cpu (s_me w) (set_cpu_lock true q) w) = w) as ->;
      [|done].
    unfold with_cpu, set_s_cpus. cbn. rewrite insert_insert_eq, insert_id; [by destruct w|].
    rewrite (rc_cpu _ _ _ _ _ (ro_tree _ _ _ _ _ _ Hok)). destruct q; cbn in *; by subst.
Qed.

(** The length of a CPU's queue. *)
Definition queue_len (Q : queues) (c : Z) : option Z := (λ x, zlen x.1.2) <$> Q !! c.

(** [c] is the first CPU in use with the shortest queue, of the first [i]. *)
Definition least_of (Q : queues) (i c : Z) : Prop :=
  0 ≤ c < i ∧ ∃ n, queue_len Q c = Some n ∧
    (∀ c' n', 0 ≤ c' < i → queue_len Q c' = Some n' → n ≤ n') ∧
    (∀ c' n', 0 ≤ c' < c → queue_len Q c' = Some n' → n < n').

Lemma queue_num Q w c : sched_ok Q w → 0 ≤ c < NCPU →
  ∃ q, s_cpus w !! c = Some q ∧ (bool_decide (sc q ≠ None) = true → queue_len Q c = Some (proc_num q)) ∧
    (bool_decide (sc q ≠ None) = false → queue_len Q c = None).
Proof.
  intros Hs Hc. destruct (so_cpus _ _ Hs c Hc) as [q Hq]. exists q. split; [done|]. unfold queue_len.
  split; intros Hsc%bool_decide_eq_true_1 || intros Hsc%bool_decide_eq_false_1.
  - destruct (so_used _ _ Hs _ _ Hq Hsc) as [[[t ps] rs] HQ]. rewrite HQ. cbn.
    destruct (so_queue _ _ Hs _ _ _ _ HQ) as (q' & Hok & _).
    pose proof (rc_cpu _ _ _ _ _ (ro_tree _ _ _ _ _ _ Hok)) as Hq'. rewrite Hq in Hq'. injection Hq' as <-.
    by rewrite (ro_num _ _ _ _ _ _ Hok).
  - destruct (Q !! c) as [[[t ps] rs]|] eqn:HQ; [|done]. exfalso. apply Hsc.
    destruct (so_queue _ _ Hs _ _ _ _ HQ) as (q' & Hok & _).
    pose proof (rc_cpu _ _ _ _ _ (ro_tree _ _ _ _ _ _ Hok)) as Hq'. rewrite Hq in Hq'. injection Hq' as <-.
    by rewrite (ro_sc _ _ _ _ _ _ Hok).
Qed.

Lemma wp_least_loaded Q w (P : Z → sworld → Prop) :
  sched_ok Q w → (∀ c, least_of Q NCPU c → P c w) → wp least_loaded w P.
Proof.
  intros Hs HP. unfold least_loaded. destruct (queue_num Q w 0 Hs ltac:(unfold NCPU; lia)) as (q0 & Hq0 & H1 & _).
  assert (queue_len Q 0 = Some (proc_num q0)) as H0.
  { destruct (so_boot _ _ Hs) as [[[t ps] rs] HQ]. destruct (so_queue _ _ Hs _ _ _ _ HQ) as (q & Hok & _).
    pose proof (rc_cpu _ _ _ _ _ (ro_tree _ _ _ _ _ _ Hok)) as Hq. rewrite Hq0 in Hq. injection Hq as <-.
    apply H1. apply bool_decide_eq_true_2. by rewrite (ro_sc _ _ _ _ _ _ Hok). }
  apply wp_bind. eapply wp_get_cpu; [exact Hq0|]. apply wp_bind.
  assert (∀ n i m c, NCPU - i ≤ Z.of_nat n → 1 ≤ i ≤ NCPU → least_of Q i c → queue_len Q c = Some m →
    wp (loop (S n) (λ '(i, min_proc_num, idx),
      if i <? NCPU then
        c ← get_cpu i;
        mret (inl (if bool_decide (sc c ≠ None) && (proc_num c <? min_proc_num)
                   then (i + 1, proc_num c, i) else (i + 1, min_proc_num, idx)))
      else mret (inr idx)) (i, m, c)) w (λ r w', wp (mret r) w' P)) as Hgen.
  { induction n as [|n IH]; intros i m c Hn Hi Hl Hm; cbn [loop]; apply wp_bind;
      (destruct (Z.ltb_spec i NCPU) as [Hlt0|Hge0];
        [|rewrite wp_ret, wp_ret, wp_ret; apply HP; by replace NCPU with i by lia]).
    - lia.
    -       destruct (queue_num Q w i Hs ltac:(lia)) as (q & Hq & Hq1 & Hq2).
      apply wp_bind. eapply wp_get_cpu; [exact Hq|]. rewrite wp_ret.
      destruct Hl as (Hc & n' & Hn' & Hle & Hlt). rewrite Hm in Hn'. injection Hn' as <-.
      destruct (bool_decide (sc q ≠ None)) eqn:Hsc; cbn [andb]; [specialize (Hq1 eq_refl)|specialize (Hq2 eq_refl)].
      + destruct (Z.ltb_spec (proc_num q) m) as [Hlt'|Hge].
        * apply IH; [lia|lia| |done]. split; [lia|]. exists (proc_num q). split_and!; [done| |].
          -- intros c' n' Hc' Hl'. destruct (decide (c' = i)) as [->|]; [rewrite Hq1 in Hl'; by injection Hl' as <-|].
             specialize (Hle c' n' ltac:(lia) Hl'). lia.
          -- intros c' n' Hc' Hl'. specialize (Hle c' n' ltac:(lia) Hl'). lia.
        * apply IH; [lia|lia| |done]. split; [lia|]. exists m. split_and!; [done| |done].
          intros c' n' Hc' Hl'. destruct (decide (c' = i)) as [->|]; [rewrite Hq1 in Hl'; by injection Hl' as <-|].
          apply (Hle c' n'); [lia|done].
      + apply IH; [lia|lia| |done]. split; [lia|]. exists m. split_and!; [done| |done].
        intros c' n' Hc' Hl'. destruct (decide (c' = i)) as [->|]; [congruence|]. apply (Hle c' n'); [lia|done]. }
  apply (Hgen 8%nat); [done|unfold NCPU; lia| |done]. split; [lia|]. exists (proc_num q0). split_and!; [done| |lia].
  intros c' n' Hc' Hl'. assert (c' = 0) as -> by lia. rewrite H0 in Hl'. by injection Hl' as <-.
Qed.

Lemma run_info_same w w' ps :
  (∀ x, x ∈ ps → state (proc_at w' x) = state (proc_at w x) ∧ priority (proc_at w' x) = priority (proc_at w x) ∧
     vruntime (proc_at w' x) = vruntime (proc_at w x)) → run_info w' ps = run_info w ps.
Proof.
  unfold run_info. generalize (mk_info 0 0 0). induction ps as [|p ps IH]; intros i Hx; [done|]. cbn [foldl].
  destruct (Hx p ltac:(by left)) as (E1 & E2 & E3).
  assert (info_add w' i p = info_add w i p) as ->; [|apply IH; intros; apply Hx; by right].
  unfold info_add, weight, vr, prio. rewrite E2, E3.
  rewrite (decide_ext (runnable w' p) (runnable w p)) by (unfold runnable; by rewrite E1). done.
Qed.

(** Which CPU a process is put on. *)
Definition goes_to (Q : queues) (v : Proc) (c : Z) : Prop :=
  match p_set_cpu v with Some c' => c = c' | None => least_of Q NCPU c end.

Lemma wp_class_enqueue Q w p v :
  sched_ok Q w → s_procs w !! p = Some v → loose Q p → -20 ≤ priority v ≤ 19 →
  (∀ c, p_set_cpu v = Some c → is_Some (Q !! c)) → (∀ c n, queue_len Q c = Some n → n < NPROC) →
  wp (sched_class_enqueue p) w (λ _ w', ∃ c t l1 l2 rs rs', goes_to Q v c ∧ Q !! c = Some (t, l1 ++ l2, rs) ∧
    sched_ok (<[c := (t, l1 ++ p :: l2, rs')]> Q) w' ∧
    s_procs w' = <[p := enqueued w (l1 ++ p :: l2) p (set_p_cpu (Some c) v)]> (s_procs w)).
Proof.
  intros Hs Hv Hlo Hpr Hset Hroom. unfold sched_class_enqueue. apply wp_bind. eapply wp_get_proc; [exact Hv|].
  apply wp_bind. assert (wp (match p_set_cpu v with Some c => mret c | None => least_loaded end) w
    (λ c w', w' = w ∧ goes_to Q v c ∧ is_Some (Q !! c))) as Hcpu.
  { unfold goes_to. destruct (p_set_cpu v) as [c|]; [rewrite wp_ret; auto|].
    eapply (wp_least_loaded Q); [exact Hs|]. intros c Hl. split_and!; [done..|].
    destruct Hl as (_ & n & Hn & _). unfold queue_len in Hn. destruct (Q !! c); [by eexists|done]. }
  eapply wp_conseq; [exact Hcpu|]. intros c ? (-> & Hgo & [[t ps] rs] & HQ). clear Hcpu.
  apply wp_bind. eapply wp_upd_proc; [exact Hv|]. set (v1 := set_p_cpu (Some c) v). set (w1 := set_s_procs _ w).
  assert (sched_ok Q w1) as Hs1 by (eapply sched_ok_proc; [exact Hs|exact Hv|by left]).
  destruct (so_queue _ _ Hs1 _ _ _ _ HQ) as (q & Hok & Hl & Hown).
  assert (s_procs w1 !! p = Some v1) as Hv1 by apply lookup_insert_eq.
  eapply (wp_locked_unit _ _ _ _ _ _ (λ k, class_enqueue k c p)); [exact Hok|exact Hl| |].
  { eapply (wp_CFS_enqueue c _ t ps rs p v1); [apply rq_lock, Hok| |].
    - split; [exact Hv1|done|exact Hpr|by apply (Hlo c t ps rs)| | |apply Hown].
      + apply (so_loose _ _ Hs1); [by eexists|exact Hlo].
      + apply (so_nodes _ _ Hs1). by eexists.
    - apply (Hroom c). unfold queue_len. by rewrite HQ. }
  intros w2 (l1 & l2 & rs' & -> & Hok2 & Hf & Epr & Ecpu). eexists. split; [apply Hok2|]. split; [done|].
  exists c, t, l1, l2, rs, rs'. split_and!; [done|done| |].
  - eapply (sched_ok_step _ w1 _ _ _ _ _ _ _ _ (p :: l1 ++ l2) Hs1 HQ); [by eapply frame_locked| |
      eapply rq_lock; exact Hok2|done|by right| | |apply (fr_procs _ _ _ _ _ (frame_locked _ _ _ _ _ _ q Hf))|].
    + intros x [->|Hx]%elem_of_cons; [by right|by left].
    + intros x. rewrite <- Permutation_middle. done.
    + intros x Hx Hx'. exfalso. apply Hx'. by rewrite <- Permutation_middle.
    + intros x. change (is_Some (s_procs w2 !! x) → is_Some (s_procs w1 !! x)). rewrite Epr. cbn.
      destruct (decide (p = x)) as [<-|]; [rewrite lookup_insert_eq; by eexists|by rewrite lookup_insert_ne].
  - change (s_procs w2 = <[p:=enqueued w (l1 ++ p :: l2) p v1]> (s_procs w)). rewrite Epr. cbn.
    rewrite insert_insert_eq. f_equal.
    change (enqueued w1 (l1 ++ p :: l2) p v1 = enqueued w (l1 ++ p :: l2) p v1).
    assert (∀ x, proc_at w1 x = if decide (x = p) then v1 else proc_at w x) as Eat by (intros x; by apply (proc_at_insert w p v)).
    assert (proc_at w p = v) as Ev by (unfold proc_at; by rewrite Hv).
    unfold enqueued. rewrite (run_info_same w w1).
    2: { intros x _. rewrite Eat. destruct (decide (x = p)) as [->|]; [by rewrite Ev|done]. }
    do 3 f_equal. unfold weight, prio. rewrite Eat, decide_True, Ev by done. done.
Qed.

(** ** What the rest of the kernel does to the scheduler *)

(** A tick changes nothing the queues depend on. *)
Lemma wp_CFS_proc_tick Q w p v :
  sched_ok Q w → s_procs w !! p = Some v →
  wp (CFS_proc_tick p) w (λ _ w', sched_ok Q w' ∧
    let left := if 0 <? time_slice v then time_slice v - 1 else time_slice v in
    s_procs w' = <[p := set_need_resched ((left =? 0) || need_resched v)
      (set_time_slice left (set_runs (u64 (runs v + 1)) v))]> (s_procs w)).
Proof.
  intros Hs Hv. unfold CFS_proc_tick.
  assert (∀ v' w', w' = set_s_procs (<[p := v']> (s_procs w)) w → p_cpu v' = p_cpu v → priority v' = priority v →
    vruntime v' = vruntime v → state v' = state v → sched_ok Q w') as Hok.
  { intros v' w' -> E1 E2 E3 E4. eapply sched_ok_proc; [exact Hs|exact Hv|]. right. rewrite E4. done. }
  apply wp_bind. eapply wp_upd_proc; [exact Hv|]. set (v1 := set_runs _ v). set (w1 := set_s_procs _ w).
  apply wp_bind. eapply wp_get_proc; [apply lookup_insert_eq|].
  set (left := if 0 <? time_slice v then time_slice v - 1 else time_slice v).
  apply wp_bind. assert (∀ Q0 : unit → sworld → Prop, Q0 tt (set_s_procs (<[p := set_time_slice left v1]> (s_procs w)) w) →
    wp (if 0 <? time_slice v1 then upd_proc p (λ p, set_time_slice (time_slice p - 1) p) else mret tt) w1 Q0) as Hdec.
  { intros Q0 H0. cbn [v1 set_runs time_slice]. subst left. destruct (0 <? time_slice v).
    - eapply wp_upd_proc; [apply lookup_insert_eq|]. cbn. rewrite insert_insert_eq. exact H0.
    - rewrite wp_ret. by destruct v. }
  apply Hdec. apply wp_bind. eapply wp_get_proc; [apply lookup_insert_eq|].
  cbn [set_time_slice time_slice]. destruct (left =? 0) eqn:Hz.
  - eapply wp_upd_proc; [apply lookup_insert_eq|]. rewrite set_procs_twice. split; [|done]. by eapply Hok.
  - rewrite wp_ret. split; [by eapply Hok|]. cbn [orb]. by destruct v.
Qed.

Inductive sched_op :=
  | Enqueue (p : Z)  (* [sched_class_enqueue] *)
  | Dequeue (p : Z)
  | Insert (p : Z)   (* [sched_class_insert_rbtree]: a yield or a wake-up *)
  | Pick
  | Tick (p : Z)
  | Sleep (p : Z).   (* [sleeping]: the process stays in the queue *)

Definition do_op (o : sched_op) : Sched unit :=
  match o with
  | Enqueue p => sched_class_enqueue p
  | Dequeue p => sched_class_dequeue p
  | Insert p => sched_class_insert_rbtree p
  | Pick => sched_class_pick_next;; mret tt
  | Tick p => sched_class_proc_tick p
  | Sleep p => upd_proc p (set_state SLEEPING)
  end.

(** How the kernel calls them. *)
Definition may (Q : queues) (w : sworld) (o : sched_op) : Prop :=
  match o with
  | Enqueue p => ∃ v, s_procs w !! p = Some v ∧ loose Q p ∧ -20 ≤ priority v ≤ 19 ∧
      (∀ c, p_set_cpu v = Some c → is_Some (Q !! c)) ∧ (∀ c n, queue_len Q c = Some n → n < NPROC)
  | Dequeue p => ∃ c ps, in_queue Q c ps p
  | Insert p => (∃ c ps, in_queue Q c ps p) ∧ (state (proc_at w p) = RUNNING ∨ state (proc_at w p) = SLEEPING)
  | Pick => is_Some (Q !! s_me w)
  | Tick p => is_Some (Q !! s_me w) ∧ is_Some (s_procs w !! p)
  | Sleep p => (∃ c ps, in_queue Q c ps p) ∧ state (proc_at w p) = RUNNING
  end.

Lemma queued_proc Q w c ps p : sched_ok Q w → in_queue Q c ps p → s_procs w !! p = Some (proc_at w p).
Proof.
  intros Hs (t & rs & HQ & Hp). destruct (queue_cpu _ _ _ _ _ _ _ Hs HQ Hp) as (v & Hv & _).
  unfold proc_at. by rewrite Hv.
Qed.

Lemma wp_do_op Q w o : sched_ok Q w → may Q w o → wp (do_op o) w (λ _ w', ∃ Q', sched_ok Q' w').
Proof.
  intros Hs. destruct o as [p|p|p| |p|p]; cbn [may do_op].
  - intros (v & Hv & Hlo & Hpr & Hset & Hroom). eapply wp_conseq; [by eapply wp_class_enqueue|].
    intros _ w' (c & t & l1 & l2 & rs & rs' & _ & _ & H & _). by eexists.
  - intros (c & ps & t & rs & HQ & Hp). eapply wp_conseq; [by eapply wp_class_dequeue|].
    intros _ w' (l1 & l2 & rs' & _ & H & _). by eexists.
  - intros [(c & ps & Hq) Hst]. pose proof (queued_proc _ _ _ _ _ Hs Hq) as Hv. destruct Hq as (t & rs & HQ & Hp).
    eapply wp_conseq; [by eapply wp_class_insert|]. intros _ w' (rs' & H & _). by eexists.
  - intros [[[t ps] rs] HQ]. apply wp_bind. eapply wp_conseq; [by eapply wp_class_pick|].
    intros [p|] w'; rewrite wp_ret.
    + intros (rs' & v & _ & _ & _ & _ & H & _). by eexists.
    + intros (_ & H & _). by eexists.
  - intros [[[[t ps] rs] HQ] [v Hv]]. destruct (so_queue _ _ Hs _ _ _ _ HQ) as (q & Hok & _).
    unfold sched_class_proc_tick, mycpu. apply wp_bind, wp_gets.
    eapply (wp_cpu_sc _ q CFS_sched_class (λ k, class_proc_tick k p)); [apply Hok|apply Hok|].
    eapply wp_conseq; [by eapply wp_CFS_proc_tick|]. intros _ w' [H _]. by eexists.
  - intros [(c & ps & Hq) Hst]. pose proof (queued_proc _ _ _ _ _ Hs Hq) as Hv.
    eapply wp_upd_proc; [exact Hv|]. exists Q. eapply sched_ok_proc; [exact Hs|exact Hv|].
    right. split_and!; [done..|]. rewrite Hst. cbn. by split.
Qed.

Fixpoint do_ops (os : list sched_op) : Sched unit :=
  match os with [] => mret tt | o :: os' => do_op o;; do_ops os' end.

(** Every call is one the kernel may make where it is made. *)
Fixpoint allowed (os : list sched_op) (w : sworld) : Prop :=
  match os with
  | [] => True
  | o :: os' => (∀ Q, sched_ok Q w → may Q w o) ∧ ∀ w', do_op o w = Ok (tt, w') → allowed os' w'
  end.

(** C3: whatever calls the kernel makes, each under the conditions it makes it, they
    return and leave the queues, the trees and the counts in agreement *)
Theorem sched_invariant Q w os :
  sched_ok Q w → allowed os w → ∃ w' Q', do_ops os w = Ok (tt, w') ∧ sched_ok Q' w'.
Proof.
  revert Q w. induction os as [|o os IH]; intros Q w Hs Ha; [by exists w, Q|]. destruct Ha as [Hmay Ha].
  pose proof (wp_do_op Q w o Hs (Hmay Q Hs)) as (w1 & Hr & Q1 & Hs1)%wp_unit.
  destruct (IH Q1 w1 Hs1 (Ha w1 Hr)) as (w' & Q' & Hr' & Hs'). exists w', Q'. split; [|done].
  cbn [do_ops]. unfold mbind, M_bind. by rewrite Hr.
Qed.

(** C11: the process picked is a runnable one of this CPU's queue with the least
    [vruntime]; it leaves the tree, runs, and has a slice within the bounds; none is
    picked only when none is runnable *)
Theorem pick_next_spec Q w t ps rs :
  sched_ok Q w → Q !! s_me w = Some (t, ps, rs) →
  ∃ o w', sched_class_pick_next w = Ok (o, w') ∧
    match o with
    | None => (∀ p, p ∈ ps → ¬ runnable w p) ∧ sched_ok Q w' ∧ s_procs w' = s_procs w
    | Some p => ∃ rs' v s, rs = p :: rs' ∧ p ∈ ps ∧ s_procs w !! p = Some v ∧ state v = RUNNABLE ∧
        (∀ p', p' ∈ ps → runnable w p' → vr w p ≤ vr w p') ∧
        sched_ok (<[s_me w := (t, ps, rs')]> Q) w' ∧ MIN_TIME_SLICE ≤ s ≤ MAX_TIME_SLICE ∧
        s_procs w' = <[p := set_state RUNNING (with_slice s v)]> (s_procs w)
    end.
Proof.
  intros Hs HQ. destruct (so_queue _ _ Hs _ _ _ _ HQ) as (q & Hok & _).
  pose proof (ro_runnable _ _ _ _ _ _ Hok) as Hrs.
  pose proof (wp_class_pick Q w t ps rs Hs HQ) as (o & w' & Hr & H)%wp_run. exists o, w'. split; [done|].
  destruct o as [p|].
  - destruct H as (rs' & v & Er & Hv & Hst & Hmin & Hs' & Epr).
    assert (p ∈ ps) as Hp.
    { assert (p ∈ rs) as Hin by (rewrite Er; by left). rewrite Hrs in Hin.
      by apply list_elem_of_filter in Hin as [_ ?]. }
    exists rs', v, (new_slice (run_info w ps) (u64 (proc_count (run_info w ps) + 1)) (weight w p)).
    split_and!; [done..|apply new_slice_bounds|apply new_slice_bounds|exact Epr].
  - destruct H as (Er & Hs' & Epr). split_and!; [|done..]. intros p Hp Hrun.
    assert (p ∈ rs) as Hin by (rewrite Hrs; by apply list_elem_of_filter). rewrite Er in Hin.
    by apply elem_of_nil in Hin.
Qed.

(** A process enters the queue of the CPU it is pinned to, or else of the first
    with the shortest queue, behind the processes of its priority or higher; it gets
    the average [vruntime] and a slice within the bounds *)
Theorem enqueue_spec Q w p v :
  sched_ok Q w → s_procs w !! p = Some v → loose Q p → -20 ≤ priority v ≤ 19 →
  (∀ c, p_set_cpu v = Some c → is_Some (Q !! c)) → (∀ c n, queue_len Q c = Some n → n < NPROC) →
  ∃ w' c t l1 l2 rs rs' s, sched_class_enqueue p w = Ok (tt, w') ∧ goes_to Q v c ∧
    Q !! c = Some (t, l1 ++ l2, rs) ∧ sched_ok (<[c := (t, l1 ++ p :: l2, rs')]> Q) w' ∧
    MIN_TIME_SLICE ≤ s ≤ MAX_TIME_SLICE ∧
    let info := run_info w (l1 ++ p :: l2) in
    s_procs w' = <[p := set_vruntime (rq_total_vruntime info / u64 (proc_count info + 1))
      (with_slice s (set_p_cpu (Some c) v))]> (s_procs w).
Proof.
  intros Hs Hv Hlo Hpr Hset Hroom. pose proof (wp_class_enqueue Q w p v Hs Hv Hlo Hpr Hset Hroom)
    as (w' & Hr & c & t & l1 & l2 & rs & rs' & Hgo & HQ & Hs' & Epr)%wp_unit.
  exists w', c, t, l1, l2, rs, rs', (new_slice (run_info w (l1 ++ p :: l2))
    (proc_count (run_info w (l1 ++ p :: l2))) (weight w p)).
  split_and!; [done..|apply new_slice_bounds|apply new_slice_bounds|exact Epr].
Qed.

(** A process that yields or wakes is runnable again, in its queue as before and
    in the tree by its new [vruntime] *)
Theorem insert_rbtree_spec Q w c t ps rs p v :
  sched_ok Q w → Q !! c = Some (t, ps, rs) → p ∈ ps → s_procs w !! p = Some v →
  state v = RUNNING ∨ state v = SLEEPING →
  ∃ w' rs', sched_class_insert_rbtree p w = Ok (tt, w') ∧ sched_ok (<[c := (t, ps, rs')]> Q) w' ∧
    rs' ≡ₚ p :: rs ∧ s_procs w' = <[p := set_state RUNNABLE (set_vruntime (entry_vruntime w ps p v) v)]> (s_procs w).
Proof.
  intros Hs HQ Hp Hv Hst. pose proof (wp_class_insert Q w c t ps rs p v Hs HQ Hp Hv Hst)
    as (w' & Hr & rs' & Hs' & _ & Epr)%wp_unit. exists w', rs'. split_and!; [done..| |done].
  destruct (so_queue _ _ Hs _ _ _ _ HQ) as (q & Hok & _).
  destruct (so_queue _ _ Hs' c t ps rs' (lookup_insert_eq _ _ _)) as (q' & Hok' & _).
  rewrite (ro_runnable _ _ _ _ _ _ Hok'), (ro_runnable _ _ _ _ _ _ Hok).
  apply list_elem_of_split in Hp as (l1 & l2 & ->). rewrite !filter_middle.
  pose proof (proc_at_insert w p v) as Hat.
  assert (∀ x, proc_at w' x = if decide (x = p) then set_state RUNNABLE (set_vruntime (entry_vruntime w (l1 ++ p :: l2) p v) v)
    else proc_at w x) as Eat by (intros x; by apply Hat).
  assert (p ∉ l1 ++ l2) as Hpn.
  { pose proof (ps_nodup _ _ _ _ _ _ Hok) as Hnd. rewrite <- Permutation_middle in Hnd.
    by apply NoDup_cons in Hnd as [? _]. }
  rewrite decide_True by (unfold runnable; rewrite Eat, decide_True by done; done).
  rewrite (decide_False (P := runnable w p)) by (unfold runnable, proc_at; rewrite Hv; cbn; destruct Hst; congruence).
  cbn [app]. rewrite (filter_same (runnable w') (runnable w)); [done|].
  intros x Hx. unfold runnable. rewrite Eat, decide_False; [done|]. by intros ->.
Qed.

(** ** A concrete system *)

(** CPU 0 with process 5 in its queue, runnable or running; process 6 is about to be
    put there. *)
Definition demo_cpu : Cpu := mk_cpu 1 MAX_TIME_SLICE MIN_TIME_SLICE 40 [0; 0; 0; 0; 0] (Some CFS_sched_class) false.
Definition idle_cpu : Cpu := mk_cpu 0 0 0 0 [] None false.
Definition demo_proc st cpu : Proc := mk_proc st cpu None 0 10 20 false 0 7 false 0 0.
Definition sched_tree : Rb_tree := mk_tree Z.sub 0 2.
Definition demo_world (st : Proc_state) (W : tree) : sworld := mk_sworld
  (list_to_map [(5, demo_proc st (Some 0)); (6, demo_proc RUNNABLE None)])
  (list_to_map [(0, demo_cpu); (1, idle_cpu); (2, idle_cpu); (3, idle_cpu); (4, idle_cpu); (5, idle_cpu);
    (6, idle_cpu); (7, idle_cpu)])
  (list_to_map [(run_list 0, mk_entry (run_link 5) (run_link 5)); (run_link 5, mk_entry (run_list 0) (run_list 0));
    (run_link 6, mk_entry (run_link 6) (run_link 6)); (proc_list, mk_entry (list_link 6) (list_link 5));
    (list_link 5, mk_entry proc_list (list_link 6)); (list_link 6, mk_entry (list_link 5) proc_list)])
  (mk_rbmem (list_to_map (all_cells sched_tree 0 [] W ++ [(rb_link 5, mk_rb false 0 0 0); (rb_link 6, mk_rb false 0 0 0)]))
    {[40 := sched_tree]})
  0 1 false.
Definition demo_sched : sworld := demo_world RUNNABLE (Node false Leaf (rb_link 5) Leaf).
Definition demo_running : sworld := demo_world RUNNING Leaf.
Definition demo_asleep : sworld := demo_world SLEEPING Leaf.
Definition demo_queues (rs : list Z) : queues := {[0 := (sched_tree, [5], rs)]}.

Lemma demo_queue_cases rs c x : demo_queues rs !! c = Some x → c = 0 ∧ x = (sched_tree, [5], rs).
Proof. unfold demo_queues. intros H. apply lookup_singleton_Some in H as [<- <-]. done. Qed.

Lemma demo_proc_cases st W p : is_Some (s_procs (demo_world st W) !! p) → p = 5 ∨ p = 6.
Proof.
  intros [v H%elem_of_list_to_map_2]. cbn in H. rewrite !elem_of_cons in H.
  destruct H as [[= -> _]|[[= -> _]|H]]; [by left|by right|by apply elem_of_nil in H].
Qed.

Lemma demo_cpu_cases st W c q : s_cpus (demo_world st W) !! c = Some q → sc q ≠ None → c = 0.
Proof.
  intros H%elem_of_list_to_map_2. cbn in H. rewrite !elem_of_cons in H.
  repeat (destruct H as [[= -> ->]|H]; [done|]). by apply elem_of_nil in H.
Qed.

Lemma demo_of_ok st W rs :
  rb_rep sched_tree (rm_nodes (s_mem (demo_world st W))) (map rb_link rs) →
  StronglySorted (λ a b, vr (demo_world st W) a ≤ vr (demo_world st W) b) rs →
  rs ≡ₚ filter (runnable (demo_world st W)) [5] →
  (∀ p, p = 5 ∨ p = 6 → is_Some (rm_nodes (s_mem (demo_world st W)) !! rb_link p)) →
  sched_ok (demo_queues rs) (demo_world st W).
Proof.
  intros Hrep Hs Hrs Hn. assert (rq_ok 0 demo_cpu sched_tree [5] rs (demo_world st W)) as Hrq.
  { split; [by split| |done|done|done|done]. split; [|by repeat constructor|done|].
    - refine (bool_decide_unpack _ _). vm_compute. exact I.
    - intros p ->%list_elem_of_singleton. eexists. split; [done|]. split; [done|]. cbn. lia. }
  split.
  - intros c t ps rs' HQ. apply demo_queue_cases in HQ as [-> [= -> -> ->]]. exists demo_cpu.
    split_and!; [exact Hrq|done|]. intros p. unfold rb_link, sched_tree. cbn. lia.
  - intros c1 c2 t1 t2 ps1 ps2 rs1 rs2 Hne H1 H2. apply demo_queue_cases in H1 as [-> _].
    by apply demo_queue_cases in H2 as [-> _].
  - intros c q Hc Hsc. rewrite (demo_cpu_cases _ _ c q Hc Hsc). by eexists.
  - intros c Hc. unfold NCPU in Hc.
    assert (c = 0 ∨ c = 1 ∨ c = 2 ∨ c = 3 ∨ c = 4 ∨ c = 5 ∨ c = 6 ∨ c = 7) as H by lia.
    repeat (destruct H as [->|H]; [by eexists|]). subst. by eexists.
  - by eexists.
  - intros p Hp. apply Hn. by eapply demo_proc_cases.
  - intros p Hp Hl. destruct (demo_proc_cases _ _ p Hp) as [->| ->].
    + exfalso. apply (Hl 0 sched_tree [5] rs); [done|by left].
    + refine (bool_decide_unpack _ _). vm_compute. exact I.
Qed.

Lemma demo_sched_ok : sched_ok (demo_queues [5]) demo_sched.
Proof.
  apply demo_of_ok; [|by repeat constructor|by vm_compute|by intros p [->| ->]; eexists].
  apply (rep_of_cells sched_tree 0 (Node false Leaf (rb_link 5) Leaf) 1); [| |repeat econstructor|done].
  - refine (bool_decide_unpack _ _). vm_compute. exact I.
  - unfold demo_world. cbn [rm_nodes s_mem]. rewrite list_to_map_app. apply map_union_subseteq_l.
Qed.

Lemma demo_asleep_ok : sched_ok (demo_queues []) demo_asleep.
Proof.
  apply demo_of_ok; [|by repeat constructor|by vm_compute|by intros p [->| ->]; eexists].
  apply (rep_of_cells sched_tree 0 Leaf 0); [| |repeat econstructor|done].
  - refine (bool_decide_unpack _ _). vm_compute. exact I.
  - unfold demo_world. cbn [rm_nodes s_mem]. rewrite list_to_map_app. apply map_union_subseteq_l.
Qed.

Lemma demo_running_ok : sched_ok (demo_queues []) demo_running.
Proof.
  apply demo_of_ok; [|by repeat constructor|by vm_compute|by intros p [->| ->]; eexists].
  apply (rep_of_cells sched_tree 0 Leaf 0); [| |repeat econstructor|done].
  - refine (bool_decide_unpack _ _). vm_compute. exact I.
  - unfold demo_world. cbn [rm_nodes s_mem]. rewrite list_to_map_app. apply map_union_subseteq_l.
Qed.

Lemma demo_loose : loose (demo_queues [5]) 6.
Proof.
  intros c t ps rs HQ. apply demo_queue_cases in HQ as [-> [= -> -> ->]]. intros Hx%list_elem_of_singleton. done.
Qed.

Lemma demo_room c n : queue_len (demo_queues [5]) c = Some n → n < NPROC.
Proof.
  unfold queue_len. destruct (demo_queues [5] !! c) as [x|] eqn:E; [|done].
  apply demo_queue_cases in E as [-> ->]. by intros [= <-].
Qed.

Lemma pick_next_spec_witness : sched_ok (demo_queues [5]) demo_sched ∧
  ∃ o w', sched_class_pick_next demo_sched = Ok (o, w') ∧
    match o with
    | None => (∀ p, p ∈ [5] → ¬ runnable demo_sched p) ∧ sched_ok (demo_queues [5]) w' ∧ s_procs w' = s_procs demo_sched
    | Some p => ∃ rs' v s, [5] = p :: rs' ∧ p ∈ [5] ∧ s_procs demo_sched !! p = Some v ∧ state v = RUNNABLE ∧
        (∀ p', p' ∈ [5] → runnable demo_sched p' → vr demo_sched p ≤ vr demo_sched p') ∧
        sched_ok (<[0 := (sched_tree, [5], rs')]> (demo_queues [5])) w' ∧ MIN_TIME_SLICE ≤ s ≤ MAX_TIME_SLICE ∧
        s_procs w' = <[p := set_state RUNNING (with_slice s v)]> (s_procs demo_sched)
    end.
Proof.
  split; [exact demo_sched_ok|].
  apply (pick_next_spec (demo_queues [5]) demo_sched sched_tree [5] [5]); [exact demo_sched_ok|reflexivity].
Defined.

Lemma enqueue_spec_witness : sched_ok (demo_queues [5]) demo_sched ∧
  ∃ w' c t l1 l2 rs rs' s, sched_class_enqueue 6 demo_sched = Ok (tt, w') ∧
    goes_to (demo_queues [5]) (demo_proc RUNNABLE None) c ∧
    (demo_queues [5]) !! c = Some (t, l1 ++ l2, rs) ∧ sched_ok (<[c := (t, l1 ++ 6 :: l2, rs')]> (demo_queues [5])) w' ∧
    MIN_TIME_SLICE ≤ s ≤ MAX_TIME_SLICE ∧
    let info := run_info demo_sched (l1 ++ 6 :: l2) in
    s_procs w' = <[6 := set_vruntime (rq_total_vruntime info / u64 (proc_count info + 1))
      (with_slice s (set_p_cpu (Some c) (demo_proc RUNNABLE None)))]> (s_procs demo_sched).
Proof.
  split; [exact demo_sched_ok|].
  apply (enqueue_spec (demo_queues [5]) demo_sched 6 (demo_proc RUNNABLE None));
    [exact demo_sched_ok|reflexivity|exact demo_loose|cbn; lia|discriminate|exact demo_room].
Defined.

Lemma insert_rbtree_spec_witness : sched_ok (demo_queues []) demo_running ∧
  ∃ w' rs', sched_class_insert_rbtree 5 demo_running = Ok (tt, w') ∧
    sched_ok (<[0 := (sched_tree, [5], rs')]> (demo_queues [])) w' ∧ rs' ≡ₚ [5] ∧
    s_procs w' = <[5 := set_state RUNNABLE (set_vruntime
      (entry_vruntime demo_running [5] 5 (demo_proc RUNNING (Some 0))) (demo_proc RUNNING (Some 0)))]> (s_procs demo_running).
Proof.
  split; [exact demo_running_ok|].
  apply (insert_rbtree_spec (demo_queues []) demo_running 0 sched_tree [5] [] 5 (demo_proc RUNNING (Some 0)));
    [exact demo_running_ok|reflexivity|by left|reflexivity|by left].
Defined.

Lemma loose_or_queued (Q : queues) p : loose Q p ∨ ∃ c ps, in_queue Q c ps p.
Proof.
  destruct (decide (map_Exists (λ _ (x : Rb_tree * list Z * list Z), p ∈ x.1.2) Q)) as [(c & [[t ps] rs] & HQ & Hp)|Hn];
    [right; by exists c, ps, t, rs|left]. intros c t ps rs HQ Hp. apply Hn. by exists c, (t, ps, rs).
Qed.

(** The process picked runs for a tick and yields. *)
Lemma demo_allowed : allowed [Pick; Tick 5; Insert 5] demo_sched.
Proof.
  assert (∀ Q w, sched_ok Q w → s_cpus w !! 0 = Some demo_cpu → is_Some (Q !! 0)) as Hused
    by (intros Q w Hs Hc; by apply (so_used _ _ Hs 0 demo_cpu)).
  split; [intros Q Hs; by eapply Hused|]. intros w1 Hr1. vm_compute in Hr1. injection Hr1 as <-.
  split; [intros Q Hs; split; [by eapply Hused|by eexists]|]. intros w2 Hr2. vm_compute in Hr2. injection Hr2 as <-.
  split; [|done]. intros Q Hs. split; [|by left].
  destruct (loose_or_queued Q 5) as [Hl|Hq]; [|done]. exfalso.
  assert (¬ is_list (s_links demo_sched) (run_link 5) []) as Hn
    by (refine (bool_decide_unpack _ _); vm_compute; exact I).
  apply Hn. apply (so_loose _ _ Hs 5); [by eexists|done].
Qed.

Lemma sched_invariant_witness : sched_ok (demo_queues [5]) demo_sched ∧
  ∃ w' Q', do_ops [Pick; Tick 5; Insert 5] demo_sched = Ok (tt, w') ∧ sched_ok Q' w'.
Proof.
  split; [exact demo_sched_ok|].
  apply (sched_invariant (demo_queues [5]) demo_sched [Pick; Tick 5; Insert 5]); [exact demo_sched_ok|exact demo_allowed].
Defined.
