(* ===== verification/SchedLoad.v ===== *)
(** * Load averages, balancing and waking up *)
From Stdlib Require Import Sorted.
From S2P Require Import Prelude ListH Rbtree RbRep RbSpec RbDelete RbSearch Sched SchedRep SchedSpec SchedSys.

Lemma walk_skip {L A} es (l : L) : walk (A := A) (λ l _, inl l) es l = inl l.
Proof. induction es as [|e es IH]; [done|]. exact IH. Qed.

(** ** One average *)

Lemma next_load_eq old total j : 0 ≤ old < 2 ^ 58 → 0 ≤ total < 2 ^ 58 → (j < 5)%nat →
  let s := 2 ^ Z.of_nat j in
  next_load old total j = (old * (s - 1) + (if old <? total then total + (s - 1) else total)) / s.
Proof.
  intros Ho Ht Hj s. assert (1 ≤ s ≤ 16) as Hs.
  { unfold s. destruct j as [|[|[|[|[|]]]]]; cbn; lia. }
  unfold next_load. fold s. cbv zeta. rewrite Z.shiftr_div_pow2 by lia. fold s.
  assert (u64 (total + (s - 1)) = total + (s - 1)) as -> by (apply wrap_small; lia).
  assert (u64 (old * (s - 1)) = old * (s - 1)) as -> by (apply wrap_small; nia).
  rewrite wrap_small; [done|]. destruct (old <? total); nia.
Qed.

(** An average of a run queue moves strictly towards the load there is, never
    past it, and stays once it is reached *)
Theorem next_load_converges old total j :
  0 ≤ old < 2 ^ 58 → 0 ≤ total < 2 ^ 58 → (j < Z.to_nat CPU_LOAD_IDX_MAX)%nat →
  (old < total → old < next_load old total j ≤ total) ∧
  (total < old → total ≤ next_load old total j < old) ∧
  (old = total → next_load old total j = total).
Proof.
  intros Ho Ht Hj. rewrite next_load_eq by done. set (s := 2 ^ Z.of_nat j). assert (1 ≤ s) as Hs.
  { unfold s. pose proof (Z.pow_pos_nonneg 2 (Z.of_nat j)). lia. }
  destruct (Z.ltb_spec old total).
  - split; [|lia]. intros _. split.
    + assert (old + 1 ≤ (old * (s - 1) + (total + (s - 1))) / s); [|lia]. apply Z.div_le_lower_bound; nia.
    + assert ((old * (s - 1) + (total + (s - 1))) / s < total + 1); [|lia]. apply Z.div_lt_upper_bound; nia.
  - split; [lia|]. split.
    + intros Hlt. split; [apply Z.div_le_lower_bound; nia|apply Z.div_lt_upper_bound; nia].
    + intros ->. symmetry. apply (Z.div_unique_pos _ _ _ 0); nia.
Qed.

Lemma next_load_converges_witness : (0 ≤ 100 < 2 ^ 58 ∧ 0 ≤ 1124 < 2 ^ 58) ∧
  (100 < 1124 → 100 < next_load 100 1124 3 ≤ 1124) ∧ (1124 < 100 → 1124 ≤ next_load 100 1124 3 < 100) ∧
  (100 = 1124 → next_load 100 1124 3 = 1124).
Proof. split; [lia|]. apply (next_load_converges 100 1124 3); [lia|lia|unfold CPU_LOAD_IDX_MAX; lia]. Defined.

(** ** The averages of all CPUs *)

Definition total_load (Q : queues) (w : sworld) (c : Z) : Z :=
  match Q !! c with Some (_, ps, _) => rq_total_value (run_info w ps) | None => 0 end.

Definition averaged (n : nat) (total : Z) (q : Cpu) : Cpu :=
  set_cpu_load (imap (λ j old, if (j <? n)%nat then next_load old total j else old) (cpu_load q)) q.

Lemma averaged_all total q : length (cpu_load q) = 5%nat →
  averaged 5 total q = set_cpu_load (imap (λ j old, next_load old total j) (cpu_load q)) q.
Proof.
  intros Hl. unfold averaged. f_equal. apply imap_ext. intros j old Hj.
  apply lookup_lt_Some in Hj. rewrite Hl in Hj. by rewrite (proj2 (Nat.ltb_lt j 5) Hj).
Qed.

Lemma rq_load c q t ps rs w l : rq_ok c q t ps rs w →
  rq_ok c (set_cpu_load l q) t ps rs (with_cpu c (set_cpu_load l q) w).
Proof.
  intros [[Hc Ht Hr Ho] [Hl Hs Hn Hp] Hrs Hnum Hsc Hsl].
  split; [split; [apply lookup_insert_eq|done..]|by split|done..].
Qed.

(** The CPUs the averages are kept for. *)
Definition booted (Q : queues) (w : sworld) : Prop :=
  0 < s_cpus_num w ≤ NCPU ∧
  ∀ c, 0 ≤ c < s_cpus_num w → is_Some (Q !! c) ∧ ∀ q, s_cpus w !! c = Some q → length (cpu_load q) = 5%nat.

Lemma sched_ok_load Q w c q l : sched_ok Q w → s_cpus w !! c = Some q → is_Some (Q !! c) →
  sched_ok Q (with_cpu c (set_cpu_load l q) w).
Proof.
  intros Hs Hq [[[t ps] rs] HQ]. destruct (so_queue _ _ Hs _ _ _ _ HQ) as (q' & Hok & Hl & Hown).
  pose proof (rc_cpu _ _ _ _ _ (ro_tree _ _ _ _ _ _ Hok)) as Hq'. rewrite Hq in Hq'. injection Hq' as <-.
  rewrite <- (insert_id Q c _ HQ).
  eapply (sched_ok_step Q w _ _ _ _ _ _ _ _ ps Hs HQ); [apply frame_cpu|by left|by apply rq_load|done|done|done| |done|done].
  intros x Hx Hx'. done.
Qed.

Lemma wp_class_info junk Q w c t ps rs (P : Rq_run_info → sworld → Prop) :
  sched_ok Q w → Q !! c = Some (t, ps, rs) → P (run_info w ps) w → wp (sched_class_get_rq_run_info junk c) w P.
Proof.
  intros Hs HQ HP. destruct (so_queue _ _ Hs _ _ _ _ HQ) as (q & Hok & Hl & Hown).
  unfold sched_class_get_rq_run_info.
  eapply (wp_locked _ _ _ _ _ _ (λ k, class_get_rq_run_info k junk c) (λ a w1, a = run_info w ps ∧
    w1 = with_cpu c (set_cpu_lock true q) w)); [exact Hok|exact Hl| |].
  - pose proof (ro_list _ _ _ _ _ _ Hok) as Hli. eapply wp_run_info; [apply Hli|apply (in_list_fit _ _ _ Hli)|done].
  - intros a w1 [-> ->]. eexists. split; [apply lookup_insert_eq|]. split; [done|].
    assert (with_cpu c (set_cpu_lock false (set_cpu_lock true q)) (with_cpu c (set_cpu_lock true q) w) = w) as ->; [|done].
    unfold with_cpu, set_s_cpus. cbn. rewrite insert_insert_eq, insert_id; [by destruct w|].
    rewrite (rc_cpu _ _ _ _ _ (ro_tree _ _ _ _ _ _ Hok)). destruct q; cbn in *; by subst.
Qed.

Lemma averaged_0 total q : averaged 0 total q = q.
Proof.
  unfold averaged. destruct q as [a b c d l e f]. unfold set_cpu_load. cbn. f_equal.
  apply list_eq. intros i. rewrite list_lookup_imap. by destruct (l !! i).
Qed.

Lemma averaged_lookup n total q j : cpu_load (averaged n total q) !! j =
  (λ old, if (j <? n)%nat then next_load old total j else old) <$> cpu_load q !! j.
Proof. unfold averaged. cbn. by rewrite list_lookup_imap. Qed.

Lemma averaged_step n total q old : cpu_load q !! n = Some old →
  set_cpu_load (<[n := next_load old total n]> (cpu_load (averaged n total q))) (averaged n total q) =
  averaged (S n) total q.
Proof.
  intros Hn. unfold averaged, set_cpu_load. cbn [cpu_load proc_num max_time_slice min_time_slice proc_vruntime_rbtree sc cpu_lock]. f_equal. apply list_eq. intros j.
  rewrite list_lookup_imap. destruct (decide (j = n)) as [->|Hne].
  - rewrite list_lookup_insert_eq by (rewrite length_imap; by eapply lookup_lt_Some). rewrite Hn. cbn [fmap option_fmap option_map].
    f_equal. destruct (Nat.ltb_spec n (S n)); [done|lia].
  - rewrite list_lookup_insert_ne by done. rewrite list_lookup_imap. destruct (cpu_load q !! j); [|done]. cbn [fmap option_fmap option_map].
    f_equal. destruct (Nat.ltb_spec j n), (Nat.ltb_spec j (S n)); lia || done.
Qed.

Lemma with_cpu_twice c q1 q2 w : with_cpu c q2 (with_cpu c q1 w) = with_cpu c q2 w.
Proof. unfold with_cpu, set_s_cpus. cbn. by rewrite insert_insert_eq. Qed.

(** One CPU's averages. *)
Lemma wp_average junk Q w i t ps rs q (P : unit → sworld → Prop) :
  sched_ok Q w → Q !! i = Some (t, ps, rs) → s_cpus w !! i = Some q → length (cpu_load q) = 5%nat →
  P tt (with_cpu i (averaged 5 (rq_total_value (run_info w ps)) q) w) →
  wp (loop (S (Z.to_nat CPU_LOAD_IDX_MAX)) (λ j,
    if Z.of_nat j <? CPU_LOAD_IDX_MAX then
      old_load ← load_at i j;
      info ← sched_class_get_rq_run_info junk i;
      upd_cpu i (λ v, set_cpu_load (<[j := next_load old_load (rq_total_value info) j]> (cpu_load v)) v);;
      mret (inl (j + 1)%nat)
    else mret (inr tt)) 0%nat) w P.
Proof.
  intros Hs HQ Hq Hlen HP. set (total := rq_total_value (run_info w ps)) in *.
  assert (∀ n j, (j + n = 5)%nat → wp (loop (S n) (λ j,
    if Z.of_nat j <? CPU_LOAD_IDX_MAX then
      old_load ← load_at i j;
      info ← sched_class_get_rq_run_info junk i;
      upd_cpu i (λ v, set_cpu_load (<[j := next_load old_load (rq_total_value info) j]> (cpu_load v)) v);;
      mret (inl (j + 1)%nat)
    else mret (inr tt)) j) (with_cpu i (averaged j total q) w) P) as Hgen.
  { induction n as [|n IH]; intros j Hj; cbn [loop]; apply wp_bind.
    - assert (j = 5%nat) as -> by lia. assert ((Z.of_nat 5 <? CPU_LOAD_IDX_MAX) = false) as -> by done.
      by rewrite wp_ret, wp_ret.
    - assert ((Z.of_nat j <? CPU_LOAD_IDX_MAX) = true) as -> by (apply Z.ltb_lt; unfold CPU_LOAD_IDX_MAX; lia).
      destruct (lookup_lt_is_Some_2 (cpu_load q) j ltac:(lia)) as [old Hold].
      set (wj := with_cpu i (averaged j total q) w).
      assert (s_cpus wj !! i = Some (averaged j total q)) as Hqj by apply lookup_insert_eq.
      apply wp_bind. unfold load_at. apply wp_bind. eapply wp_get_cpu; [exact Hqj|].
      rewrite averaged_lookup, Hold. cbn [fmap option_fmap option_map]. rewrite Nat.ltb_irrefl.
      apply wp_of_option. exists old. split; [done|]. apply wp_bind.
      eapply (wp_class_info _ Q); [by apply sched_ok_load|exact HQ|].
      apply wp_bind. eapply wp_upd_cpu; [exact Hqj|].
      change (rq_total_value (run_info wj ps)) with total. rewrite averaged_step by done.
      rewrite wp_ret. fold (with_cpu i (averaged (S j) total q) wj). unfold wj. rewrite with_cpu_twice.
      replace (j + 1)%nat with (S j) by lia. apply IH. lia. }
  specialize (Hgen 5%nat 0%nat eq_refl). rewrite averaged_0 in Hgen.
  assert (with_cpu i q w = w) as Ew by (unfold with_cpu, set_s_cpus; rewrite insert_id by done; by destruct w).
  rewrite Ew in Hgen. exact Hgen.
Qed.

(** The CPUs below [n] have new averages. *)
Definition loads_updated (Q : queues) (w : sworld) (n : Z) (m : gmap Z Cpu) : Prop :=
  ∀ c, m !! c = if (0 <=? c) && (c <? n) then averaged 5 (total_load Q w c) <$> s_cpus w !! c else s_cpus w !! c.

Lemma wp_updata junk Q w :
  sched_ok Q w → booted Q w →
  wp (updata_cpu_rq_load junk) w (λ _ w', ∃ m, w' = set_s_cpus m w ∧ sched_ok Q w' ∧ loads_updated Q w (s_cpus_num w) m).
Proof.
  intros Hs [Hn Hb]. unfold updata_cpu_rq_load. apply wp_bind, wp_gets. apply wp_bind, wp_assert.
  split; [apply andb_true_intro; split; [apply Z.ltb_lt|apply Z.leb_le]; lia|].
  assert (∀ n i w', s_cpus_num w - i ≤ Z.of_nat n → 0 ≤ i ≤ s_cpus_num w →
    (∃ m, w' = set_s_cpus m w ∧ sched_ok Q w' ∧ loads_updated Q w i m) →
    wp (loop (S n) (λ i,
      if i <? s_cpus_num w then
        loop (S (Z.to_nat CPU_LOAD_IDX_MAX)) (λ j,
          if Z.of_nat j <? CPU_LOAD_IDX_MAX then
            old_load ← load_at i j;
            info ← sched_class_get_rq_run_info junk i;
            upd_cpu i (λ v, set_cpu_load (<[j := next_load old_load (rq_total_value info) j]> (cpu_load v)) v);;
            mret (inl (j + 1)%nat)
          else mret (inr tt)) 0%nat;;
        mret (inl (i + 1))
      else mret (inr tt)) i) w' (λ _ w', ∃ m, w' = set_s_cpus m w ∧ sched_ok Q w' ∧ loads_updated Q w (s_cpus_num w) m)) as Hgen.
  { induction n as [|n IH]; intros i w' Hni Hi Hw'; cbn [loop]; apply wp_bind;
      (destruct (Z.ltb_spec i (s_cpus_num w)) as [Hlt|Hge];
        [|rewrite wp_ret, wp_ret; by replace (s_cpus_num w) with i by lia]); [lia|].
    destruct Hw' as (m & -> & Hs' & Hm). destruct (Hb i ltac:(lia)) as [[[[t ps] rs] HQ] Hlen].
    destruct (so_queue _ _ Hs' _ _ _ _ HQ) as (q & Hok & _).
    pose proof (rc_cpu _ _ _ _ _ (ro_tree _ _ _ _ _ _ Hok)) as Hq. cbn in Hq.
    assert (s_cpus w !! i = Some q) as Hq0.
    { rewrite Hm in Hq. by rewrite (proj2 (Z.ltb_ge i i)), andb_false_r in Hq by lia. }
    apply wp_bind. eapply (wp_average _ Q); [exact Hs'|exact HQ|exact Hq|by apply Hlen|].
    rewrite wp_ret. apply IH; [lia|lia|].
    change (rq_total_value (run_info (set_s_cpus m w) ps)) with (rq_total_value (run_info w ps)).
    eexists. split; [reflexivity|]. split; [by apply sched_ok_load|].
    intros c. cbn. destruct (decide (c = i)) as [->|Hne].
    - rewrite lookup_insert_eq, Hq0. unfold total_load. rewrite HQ.
      by rewrite (proj2 (Z.leb_le 0 i)), (proj2 (Z.ltb_lt i (i + 1))) by lia.
    - rewrite lookup_insert_ne, Hm by done.
      assert ((c <? i + 1) = (c <? i)) as -> by (destruct (Z.ltb_spec c i), (Z.ltb_spec c (i + 1)); lia || done). done. }
  apply Hgen; [lia|lia|]. exists (s_cpus w). split; [by destruct w|]. split; [done|].
  intros c. by rewrite (proj2 (andb_false_iff (0 <=? c) (c <? 0))) by (destruct (Z.ltb_spec c 0), (Z.leb_spec 0 c); lia || tauto).
Qed.

(** The averages of every CPU in use move by its total weight, and nothing else
    changes *)
Theorem updata_cpu_rq_load_spec junk Q w :
  sched_ok Q w → booted Q w →
  ∃ m, updata_cpu_rq_load junk w = Ok (tt, set_s_cpus m w) ∧ sched_ok Q (set_s_cpus m w) ∧
    ∀ c, 0 ≤ c < s_cpus_num w →
      m !! c = (λ q, set_cpu_load (imap (λ j old, next_load old (total_load Q w c) j) (cpu_load q)) q) <$> s_cpus w !! c.
Proof.
  intros Hs Hb. pose proof (wp_updata junk Q w Hs Hb) as (w' & Hr & m & -> & Hs' & Hm)%wp_unit.
  exists m. split_and!; [done..|]. intros c Hc. rewrite Hm.
  rewrite (proj2 (Z.leb_le 0 c)), (proj2 (Z.ltb_lt c _)) by lia. cbn [andb].
  destruct Hb as [_ Hb]. destruct (s_cpus w !! c) as [q|] eqn:Hq; [|done]. cbn. f_equal.
  apply averaged_all. by apply (Hb c Hc).
Qed.

(** ** Balancing *)

(** The load average [j] of CPU [c]. *)
Definition avg_of (w : sworld) (j : nat) (c : Z) : option Z := q ← s_cpus w !! c; cpu_load q !! j.

(** Loads there are, in their type. *)
Definition loads_ok (w : sworld) (j : nat) : Prop :=
  ∀ c, 0 ≤ c < s_cpus_num w → ∃ l, avg_of w j c = Some l ∧ 0 ≤ l < 2 ^ 64.

Lemma wp_load_at w c j l (P : Z → sworld → Prop) : avg_of w j c = Some l → P l w → wp (load_at c j) w P.
Proof.
  unfold avg_of. intros (q & Hq & Hl)%bind_Some HP. unfold load_at. apply wp_bind.
  eapply wp_get_cpu; [exact Hq|]. rewrite Hl. apply wp_of_option. eauto.
Qed.

(** Two different CPUs are found only if their loads differ. *)
Lemma wp_load_extremes w j (P : Z * Z * Z * Z → sworld → Prop) :
  0 < s_cpus_num w → loads_ok w j →
  (∀ mn mi mx xi, 0 ≤ xi < s_cpus_num w → mi ≠ xi → mn < mx → P (mn, mi, mx, xi) w) →
  (∀ mn mi mx xi, mi = xi → P (mn, mi, mx, xi) w) →
  wp (load_extremes j) w P.
Proof.
  intros Hn Hl HP1 HP2. unfold load_extremes. apply wp_bind, wp_gets.
  eapply (wp_loop _ (λ '(i, mn, mi, mx, xi) w', w' = w ∧ 0 ≤ i ≤ s_cpus_num w ∧ 0 ≤ xi < s_cpus_num w ∧
    0 ≤ mx ∧ mn ≤ 2 ^ 64 - 1 ∧ (0 < i → mn ≤ mx) ∧ (mn < mx ∨ mi = 0 ∧ xi = 0) ∧ (i = 0 → mn = 2 ^ 64 - 1 ∧ mx = 0))
    (λ '(i, _, _, _, _) _, Z.to_nat (s_cpus_num w - i))); [|split_and!; try done; try lia; by right|lia].
  intros [[[[i mn] mi] mx] xi] w' (-> & Hi & Hxi & Hmx & Hmn & Hle & Hcase & Hz).
  destruct (Z.ltb_spec i (s_cpus_num w)) as [Hlt|Hge].
  - destruct (Hl i ltac:(lia)) as (l & Hav & Hlb). apply wp_bind. eapply wp_load_at; [exact Hav|].
    destruct (Z.ltb_spec l mn), (Z.ltb_spec mx l); rewrite wp_ret;
      (split; [|lia]); split_and!; try done; try lia.
    all: destruct (decide (i = 0)) as [->|Hi0]; [destruct (Hz eq_refl) as [-> ->]|specialize (Hle ltac:(lia))];
      first [right; lia|left; lia|tauto].
  - rewrite wp_ret. assert (i = s_cpus_num w) as -> by lia.
    destruct (decide (mi = xi)) as [->|Hne]; [by apply HP2|apply HP1; [lia|done|]].
    destruct Hcase as [?|[-> ->]]; [done|done].
Qed.

Lemma wp_class_get_none Q w c t ps rs (P : option Z → sworld → Prop) :
  sched_ok Q w → Q !! c = Some (t, ps, rs) → (∀ p, p ∈ ps → p_set_cpu (proc_at w p) = None) →
  P None w → wp (sched_class_get_proc c) w P.
Proof.
  intros Hs HQ Hnone HP. destruct (so_queue _ _ Hs _ _ _ _ HQ) as (q & Hok & Hl & Hown).
  unfold sched_class_get_proc.
  eapply (wp_locked _ _ _ _ _ _ (λ k, class_get_proc k c) (λ a w1, a = None ∧
    w1 = with_cpu c (set_cpu_lock true q) w)); [exact Hok|exact Hl| |].
  - set (wl := with_cpu c _ w). pose proof (ro_list _ _ _ _ _ _ Hok) as Hli. unfold class_get_proc, CFS_get_proc, get_proc_by.
    apply wp_bind. eapply (wp_for_each_read (s_links wl) wl _ _ _ _ _ _ (λ u _, inl u));
      [apply Hli|by apply links_next|by apply wp_result, wp_gets|by apply (is_list_bound wl _ _ (rc_list _ _ _ Hli))| |].
    + intros [] le (p & -> & Hp)%list_elem_of_fmap. rewrite le2proc_run_link.
      destruct (rc_procs _ _ _ Hli p Hp) as (v & Hv & _). apply wp_result, wp_bind. eapply wp_get_proc; [exact Hv|].
      specialize (Hnone p Hp). unfold proc_at in Hnone. rewrite Hv in Hnone. cbn in Hnone. rewrite Hnone.
      rewrite (bool_decide_eq_false_2 (None ≠ None)) by tauto. rewrite andb_false_r. by rewrite wp_ret.
    + rewrite walk_skip. by rewrite wp_ret.
  - intros a w1 [-> ->]. eexists. split; [apply lookup_insert_eq|]. split; [done|].
    assert (with_cpu c (set_cpu_lock false (set_cpu_lock true q)) (with_cpu c (set_cpu_lock true q) w) = w) as ->; [|done].
    rewrite with_cpu_twice. unfold with_cpu, set_s_cpus. rewrite insert_id; [by destruct w|].
    rewrite (rc_cpu _ _ _ _ _ (ro_tree _ _ _ _ _ _ Hok)). destruct q; cbn in *; by subst.
Qed.

(** Only pinned processes are ever moved: with none, balancing changes nothing,
    however uneven the loads are *)
Theorem load_balance_moves_pinned Q w j :
  sched_ok Q w → booted Q w → loads_ok w j →
  (∀ c t ps rs p, Q !! c = Some (t, ps, rs) → p ∈ ps → p_set_cpu (proc_at w p) = None) →
  load_balance j w = Ok (tt, w).
Proof.
  intros Hs [Hn Hb] Hl Hnone. apply wp_result. unfold load_balance. apply wp_bind.
  apply wp_load_extremes; [lia|exact Hl| |].
  - intros mn mi mx xi Hxi Hne Hlt. rewrite (proj2 (Z.eqb_neq _ _) Hne).
    apply wp_bind, wp_assert. split; [by apply Z.ltb_lt|]. apply wp_bind, wp_gets. cbn [loop].
    destruct (Hb xi Hxi) as [[[[t ps] rs] HQ] _]. destruct (so_queue _ _ Hs _ _ _ _ HQ) as (q & Hok & _).
    apply wp_bind, wp_bind. eapply wp_get_cpu; [apply Hok|]. case_match.
    + apply wp_bind. eapply wp_class_get_none; [exact Hs|exact HQ|intros p Hp; by eapply Hnone|].
      by rewrite wp_ret, wp_ret.
    + by rewrite wp_ret, wp_ret.
  - intros mn mi mx xi ->. by rewrite Z.eqb_refl, wp_ret.
Qed.

(** ** Round robin's sums *)

(** No process is runnable and running at once, so the sums of a round-robin
    queue are always zero, and the third is whatever was on the stack *)
Theorem RR_info_counts_none junk w c ps :
  is_list (s_links w) (run_list c) (map run_link ps) → (∀ p, p ∈ ps → is_Some (s_procs w !! p)) →
  RR_get_rq_run_info junk c w = Ok (mk_info 0 0 junk, w).
Proof.
  intros Hl Hps. apply wp_result. unfold RR_get_rq_run_info. apply wp_bind.
  eapply (wp_for_each_read (s_links w) w _ _ _ _ _ _ (λ i _, inl i));
    [exact Hl|by apply links_next|by apply wp_result, wp_gets|by apply (is_list_bound w _ _ Hl)| |].
  - intros i le (p & -> & Hp)%list_elem_of_fmap. rewrite le2proc_run_link. destruct (Hps p Hp) as [v Hv].
    apply wp_result, wp_bind. eapply wp_get_proc; [exact Hv|]. rewrite decide_False by (intros [E1 E2]; congruence).
    by apply wp_ret.
  - rewrite walk_skip. by rewrite wp_ret.
Qed.

(** ** Waking up *)

Definition sleeps_on (chan : Z) (v : Proc) : bool := bool_decide (state v = SLEEPING) && (p_chan v =? chan).

(** The processes of [l1] that slept on [chan] are awake, and nothing else differs. *)
Definition awake (chan : Z) (l1 : list Z) (w w' : sworld) : Prop :=
  ∀ p, if bool_decide (p ∈ l1) && sleeps_on chan (proc_at w p)
    then ∃ x, s_procs w' !! p = Some (set_state RUNNABLE (set_vruntime x (proc_at w p)))
    else s_procs w' !! p = s_procs w !! p.

(** The list of all processes. *)
Record all_procs (Q : queues) (all : list Z) (chan : Z) (w : sworld) : Prop := {
  ap_list : is_list (s_links w) proc_list (map list_link all);
  ap_proc p : p ∈ all → ∃ v, s_procs w !! p = Some v ∧ p_lock v = false ∧
    (sleeps_on chan v = true → ∃ c ps, in_queue Q c ps p)
}.

#[export] Instance list_link_inj : Inj (=) (=) list_link.
Proof. intros p p'. unfold list_link. lia. Qed.

Lemma wp_acquire_proc p v w (Q : unit → sworld → Prop) :
  s_procs w !! p = Some v → p_lock v = false → Q tt (set_s_procs (<[p := set_p_lock true v]> (s_procs w)) w) →
  wp (acquire_proc p) w Q.
Proof.
  intros Hp Hl HQ. unfold acquire_proc. apply wp_bind. eapply wp_get_proc; [exact Hp|].
  apply wp_bind, wp_assert. rewrite Hl. split; [done|]. by eapply wp_upd_proc.
Qed.
Lemma wp_release_proc p v w (Q : unit → sworld → Prop) :
  s_procs w !! p = Some v → p_lock v = true → Q tt (set_s_procs (<[p := set_p_lock false v]> (s_procs w)) w) →
  wp (release_proc p) w Q.
Proof.
  intros Hp Hl HQ. unfold release_proc. apply wp_bind. eapply wp_get_proc; [exact Hp|].
  apply wp_bind, wp_assert. rewrite Hl. split; [done|]. by eapply wp_upd_proc.
Qed.

Lemma frame_list c t ps w w' all : frame c t ps w w' →
  is_list (s_links w) proc_list (map list_link all) → is_list (s_links w') proc_list (map list_link all).
Proof.
  intros Hf Hl. eapply is_list_same; [exact Hl|]. intros u Hu.
  assert (u = 3 ∨ ∃ p, u = list_link p) as Hc.
  { rewrite elem_of_cons in Hu. destruct Hu as [->|(p & -> & _)%list_elem_of_fmap]; [by left|right; by exists p]. }
  apply (fr_links _ _ _ _ _ Hf).
  - unfold run_list, list_link in *. destruct Hc as [->|[p ->]]; lia.
  - intros (y & Ey & _)%list_elem_of_fmap. unfold run_link, list_link in *. destruct Hc as [->|[p ->]]; lia.
Qed.

(** A sleeper in a queue becomes runnable. *)
Lemma wp_make_runnable Q w c t ps rs p v :
  sched_ok Q w → Q !! c = Some (t, ps, rs) → p ∈ ps → s_procs w !! p = Some v →
  state v = RUNNING ∨ state v = SLEEPING →
  wp (make_runnable p) w (λ _ w', ∃ rs' x, sched_ok (<[c := (t, ps, rs')]> Q) w' ∧ frame c t ps w w' ∧
    s_procs w' = <[p := set_state RUNNABLE (set_vruntime x v)]> (s_procs w)).
Proof.
  intros Hs HQ Hp Hv Hst. destruct (queue_cpu _ _ _ _ _ _ _ Hs HQ Hp) as (v' & Hv' & Hc & _).
  rewrite Hv in Hv'. injection Hv' as <-. destruct (so_queue _ _ Hs _ _ _ _ HQ) as (q & Hok & _).
  unfold make_runnable. apply wp_bind. eapply wp_proc_cpu; [exact Hv|exact Hc|].
  apply wp_bind. unfold is_CFS. apply wp_bind. eapply wp_get_cpu; [apply Hok|]. rewrite wp_ret.
  rewrite bool_decide_eq_true_2 by apply Hok.
  eapply wp_conseq; [by eapply wp_class_insert|]. intros _ w' (rs' & H1 & H2 & H3). by exists rs', (entry_vruntime w ps p v).
Qed.

(** The same processes in the same queues. *)
Definition same_queues (Q Q' : queues) : Prop := ∀ c ps p, in_queue Q c ps p → in_queue Q' c ps p.

Lemma same_queues_insert Q c t ps rs rs' : Q !! c = Some (t, ps, rs) → same_queues Q (<[c := (t, ps, rs')]> Q).
Proof.
  intros HQ c' ps' p (t' & rs1 & HQ' & Hp). destruct (decide (c' = c)) as [->|Hne].
  - rewrite HQ in HQ'. injection HQ' as <- <- <-. exists t, rs'. by rewrite lookup_insert_eq.
  - exists t', rs1. by rewrite lookup_insert_ne.
Qed.

Lemma sched_ok_plock Q w b : sched_ok Q w → sched_ok Q (set_s_procs_lock b w).
Proof.
  intros Hs. split; try apply Hs. intros c t ps rs HQ. destruct (so_queue _ _ Hs _ _ _ _ HQ) as (q & Hok & Hl & Hown).
  exists q. split_and!; [|done|done]. destruct Hok as [[Hc Ht Hr Ho] [Hli Hso Hn Hp] Hrs Hnum Hsc Hsl].
  split; [by split|by split|done..].
Qed.

(** What a round of the walk leaves. *)
Definition woke_one (Q : queues) (all : list Z) (chan p : Z) (v : Proc) (w w' : sworld) : Prop :=
  ∃ Q', sched_ok Q' w' ∧ same_queues Q Q' ∧ is_list (s_links w') proc_list (map list_link all) ∧
    s_procs_lock w' = s_procs_lock w ∧
    if sleeps_on chan v then ∃ x, s_procs w' = <[p := set_state RUNNABLE (set_vruntime x v)]> (s_procs w)
    else s_procs w' = s_procs w.

Lemma wp_wake_one Q all chan p v w :
  sched_ok Q w → is_list (s_links w) proc_list (map list_link all) → s_procs w !! p = Some v → p_lock v = false →
  (sleeps_on chan v = true → ∃ c ps, in_queue Q c ps p) →
  wp (acquire_proc p;;
      v ← get_proc p;
      (if bool_decide (state v = SLEEPING) && (p_chan v =? chan) then make_runnable p else mret tt);;
      release_proc p;;
      mret (inl tt : unit + Empty_set)) w (λ r w', r = inl tt ∧ woke_one Q all chan p v w w').
Proof.
  intros Hs Hall Hv Hl Hq. apply wp_bind. eapply wp_acquire_proc; [exact Hv|exact Hl|].
  set (v1 := set_p_lock true v). set (w1 := set_s_procs _ w).
  assert (s_procs w1 !! p = Some v1) as Hv1 by apply lookup_insert_eq.
  assert (sched_ok Q w1) as Hs1 by (eapply sched_ok_proc; [exact Hs|exact Hv|right; done]).
  apply wp_bind. eapply wp_get_proc; [exact Hv1|]. change (bool_decide (state v1 = SLEEPING) && (p_chan v1 =? chan))
    with (sleeps_on chan v). unfold woke_one. apply wp_bind. destruct (sleeps_on chan v) eqn:Hsl.
  - destruct (Hq eq_refl) as (c & ps & t & rs & HQ & Hp).
    assert (state v1 = SLEEPING) as Hst by (by apply andb_prop in Hsl as [?%bool_decide_eq_true_1 _]).
    eapply wp_conseq; [by eapply wp_make_runnable; [exact Hs1|exact HQ|exact Hp|exact Hv1|right]|].
    intros _ w2 (rs' & x & Hs2 & Hf & Epr).
    assert (s_procs w2 !! p = Some (set_state RUNNABLE (set_vruntime x v1))) as Hv2 by (rewrite Epr; apply lookup_insert_eq).
    apply wp_bind. eapply wp_release_proc; [exact Hv2|done|]. rewrite wp_ret. split; [done|].
    exists (<[c := (t, ps, rs')]> Q). split_and!.
    + eapply sched_ok_proc; [exact Hs2|exact Hv2|right; done].
    + by eapply same_queues_insert.
    + exact (frame_list _ _ _ _ _ all Hf Hall).
    + apply (fr_plock _ _ _ _ _ Hf).
    + exists x. cbn. rewrite Epr. cbn. rewrite !insert_insert_eq. f_equal.
      destruct v as [? ? ? ? ? ? ? ? ? [] ? ?]; done.
  - rewrite wp_ret. apply wp_bind. eapply wp_release_proc; [exact Hv1|done|]. rewrite wp_ret. split; [done|].
    assert (set_s_procs (<[p := set_p_lock false v1]> (s_procs w1)) w1 = w) as ->.
    { unfold w1. rewrite set_procs_twice. unfold set_s_procs. rewrite insert_id; [by destruct w|].
      rewrite Hv. by destruct v as [? ? ? ? ? ? ? ? ? [] ? ?]. }
    exists Q. by split_and!; [|intros ???|..].
Qed.

(** C31: [do_wakeup] makes every process that sleeps on the channel runnable, in its
    tree, and touches no other *)
Theorem do_wakeup_spec Q all chan w :
  sched_ok Q w → all_procs Q all chan w → s_procs_lock w = false →
  ∃ w' Q', do_wakeup chan w = Ok (tt, w') ∧ sched_ok Q' w' ∧ same_queues Q Q' ∧ awake chan all w w'.
Proof.
  intros Hs [Hall Hproc] Hlock.
  assert (wp (do_wakeup chan) w (λ _ w', ∃ Q', sched_ok Q' w' ∧ same_queues Q Q' ∧ awake chan all w w'))
    as (w' & Hr & Q' & H)%wp_unit; [|by exists w', Q'].
  assert (NoDup all) as Hnd.
  { destruct Hall as [Hn _]. apply NoDup_cons in Hn as [_ Hn]. by apply (NoDup_fmap_1 list_link). }
  unfold do_wakeup. apply wp_bind. unfold acquire_procs. apply wp_bind, wp_gets, wp_bind, wp_assert.
  rewrite Hlock. split; [done|]. apply wp_modify, wp_bind.
  eapply (wp_for_each_state s_links _ _ _ _ _ (λ ls _ w1, ∃ l1 Q1, ls = map list_link l1 ∧ sched_ok Q1 w1 ∧ same_queues Q Q1 ∧
    is_list (s_links w1) proc_list (map list_link all) ∧ s_procs_lock w1 = true ∧ awake chan l1 w w1)).
  - by intros l1 l w1 (? & ? & _ & _ & _ & ? & _).
  - by apply links_next.
  - apply wp_gets. split; [done|]. by apply (is_list_bound w _ _ Hall).
  - intros ls e l2 [] w1 E1 (l1 & Q1 & -> & Hs1 & Hsame & Hl1 & Hlk & Haw).
    apply map_eq_app in E1 as (a & b & Eall & Ea & Eb). apply map_eq_cons in Eb as (p & l2' & -> & <- & <-).
    apply (inj (fmap list_link)) in Ea as ->. rewrite le2proc_list_link.
    destruct (Hproc p) as (v & Hv & Hpl & Hq); [rewrite Eall; set_solver|].
    assert (proc_at w p = v) as Hat by (unfold proc_at; by rewrite Hv).
    assert (p ∉ l1) as Hnew by (rewrite Eall, <- Permutation_middle in Hnd; apply NoDup_cons in Hnd as [? _]; set_solver).
    assert (s_procs w1 !! p = Some v) as Hv1.
    { specialize (Haw p). by rewrite bool_decide_eq_false_2, Hv in Haw. }
    eapply wp_conseq; [apply (wp_wake_one Q1 all chan p v w1); [done|done|done|done|]|].
    { intros Hsl. destruct (Hq Hsl) as (c & ps & Hin). exists c, ps. by apply Hsame. }
    intros r w2 [-> (Q2 & Hs2 & Hsame2 & Hl2 & Hlk2 & Hcase)]. exists (l1 ++ [p]), Q2.
    split_and!; [by rewrite map_app|done|intros ???; auto|done|by rewrite Hlk2|].
    intros y. specialize (Haw y). destruct (decide (y = p)) as [->|Hne].
    + rewrite bool_decide_eq_true_2 by set_solver. rewrite Hat. cbn [andb]. destruct (sleeps_on chan v).
      * destruct Hcase as [x ->]. exists x. apply lookup_insert_eq.
      * by rewrite Hcase, Hv.
    + assert (bool_decide (y ∈ l1 ++ [p]) = bool_decide (y ∈ l1)) as -> by (apply bool_decide_ext; set_solver).
      assert (s_procs w2 !! y = s_procs w1 !! y) as ->; [|exact Haw].
      destruct (sleeps_on chan v); [destruct Hcase as [x ->]; by rewrite lookup_insert_ne|by rewrite Hcase].
  - intros [] w1 (l1 & Q1 & El & Hs1 & Hsame & Hl1 & Hlk & Haw).
    apply (inj (fmap list_link)) in El as <-. unfold release_procs.
    apply wp_bind, wp_gets, wp_bind, wp_assert. rewrite Hlk. split; [done|]. apply wp_modify.
    exists Q1. split_and!; [by apply sched_ok_plock|done|exact Haw].
  - exists [], Q. split_and!; [done|by apply sched_ok_plock|by intros ???|done|done|].
    intros p. by rewrite (bool_decide_eq_false_2 (p ∈ [])) by (by intros ?%elem_of_nil).
Qed.

(** ** Concrete runs *)

Lemma demo_booted : booted (demo_queues [5]) demo_sched.
Proof.
  split; [done|]. intros c Hc. assert (c = 0) as -> by (cbn in Hc; lia). split; [by eexists|].
  intros q. by intros [= <-].
Qed.

Lemma updata_cpu_rq_load_spec_witness : (sched_ok (demo_queues [5]) demo_sched ∧ booted (demo_queues [5]) demo_sched) ∧
  ∃ m, updata_cpu_rq_load 0 demo_sched = Ok (tt, set_s_cpus m demo_sched) ∧
    sched_ok (demo_queues [5]) (set_s_cpus m demo_sched) ∧
    ∀ c, 0 ≤ c < 1 →
      m !! c = (λ q, set_cpu_load (imap (λ j old, next_load old (total_load (demo_queues [5]) demo_sched c) j) (cpu_load q)) q)
        <$> s_cpus demo_sched !! c.
Proof.
  split; [exact (conj demo_sched_ok demo_booted)|].
  apply (updata_cpu_rq_load_spec 0 (demo_queues [5]) demo_sched); [exact demo_sched_ok|exact demo_booted].
Defined.

Lemma load_balance_moves_pinned_witness : sched_ok (demo_queues [5]) demo_sched ∧
  load_balance 3 demo_sched = Ok (tt, demo_sched).
Proof.
  split; [exact demo_sched_ok|].
  apply (load_balance_moves_pinned (demo_queues [5]) demo_sched 3); [exact demo_sched_ok|exact demo_booted| |].
  - intros c Hc. assert (c = 0) as -> by (cbn in Hc; lia). exists 0. split; [reflexivity|lia].
  - intros c t ps rs p HQ Hp. apply demo_queue_cases in HQ as [-> [= -> -> ->]].
    apply list_elem_of_singleton in Hp as ->. reflexivity.
Defined.

Lemma RR_info_counts_none_witness : is_list (s_links demo_sched) (run_list 0) (map run_link [5]) ∧
  RR_get_rq_run_info 77 0 demo_sched = Ok (mk_info 0 0 77, demo_sched).
Proof.
  assert (is_list (s_links demo_sched) (run_list 0) (map run_link [5])) as Hl
    by (refine (bool_decide_unpack _ _); vm_compute; exact I).
  split; [exact Hl|]. apply (RR_info_counts_none 77 demo_sched 0 [5]); [exact Hl|].
  intros p ->%list_elem_of_singleton. by eexists.
Defined.

Lemma demo_all : all_procs (demo_queues []) [5; 6] 0 demo_asleep.
Proof.
  split; [refine (bool_decide_unpack _ _); vm_compute; exact I|].
  intros p. rewrite !elem_of_cons. intros [->|[->|?%elem_of_nil]]; [| |done]; eexists; (split; [reflexivity|split; [done|]]).
  - intros _. exists 0, [5], sched_tree, []. split; [done|by left].
  - by vm_compute.
Qed.

Lemma do_wakeup_spec_witness : (sched_ok (demo_queues []) demo_asleep ∧ all_procs (demo_queues []) [5; 6] 0 demo_asleep) ∧
  ∃ w' Q', do_wakeup 0 demo_asleep = Ok (tt, w') ∧ sched_ok Q' w' ∧ same_queues (demo_queues []) Q' ∧
    awake 0 [5; 6] demo_asleep w'.
Proof.
  split; [exact (conj demo_asleep_ok demo_all)|].
  apply (do_wakeup_spec (demo_queues []) [5; 6] 0 demo_asleep); [exact demo_asleep_ok|exact demo_all|reflexivity].
Defined.
