(* ===== verification/Timer.v ===== *)
(** * Timers: the timer list of [kernel/proc.c]

    Pending timers are in a list in order of expiry; [expires] of a timer is the time
    from the expiry of the one before.  [run_timer_list], on every tick, wakes the
    processes whose timers expire and moves the function timers to a list of their own,
    which [exec_timer_func] runs later.  A timer is its address, null is 0; its link is
    a cell of the store of links, and so are the heads of the lists, the three on the
    stack of a function included.  The rest of the kernel is a member of a class; a
    function a timer calls is a tree of its steps there and its calls of this file. *)
From S2P Require Import Prelude Errors ListH.

Inductive Timer_type := TIMER_PROC | TIMER_FUNC.
#[export] Instance Timer_type_eq_dec : EqDecision Timer_type.
Proof. solve_decision. Defined.

(** [target] is the union of [proc] and [func]. *)
Record Timer := mk_timer {
  timer_type : Timer_type; expires : Z; target : Z; t_arg : Z; reload : Z; t_flags : Z }.
Definition set_expires v x := mk_timer (timer_type x) v (target x) (t_arg x) (reload x) (t_flags x).

Definition TIMER_RELOAD : Z := 1.
Definition WT_INTERAUPTED : Z := 2147483648.
Definition WT_TIMER : Z := 2147483650.

(** The structures of this file, the two locks, and the rest of the kernel. *)
Record tworld {E : Type} := mk_tw {
  t_timers : gmap Z Timer;
  t_links : heap;
  t_lock : bool;       (* [timer_lock] *)
  tf_lock : bool;      (* [timer_func_lock] *)
  t_init : bool;       (* [timer_init_ok] *)
  t_ticks : Z;
  t_env : E }.
Arguments tworld : clear implicits.

Section setters.
Context {E : Type}.
Implicit Type w : tworld E.
Definition set_timers v w := mk_tw E v (t_links w) (t_lock w) (tf_lock w) (t_init w) (t_ticks w) (t_env w).
Definition set_tlinks v w := mk_tw E (t_timers w) v (t_lock w) (tf_lock w) (t_init w) (t_ticks w) (t_env w).
Definition set_tlock v w := mk_tw E (t_timers w) (t_links w) v (tf_lock w) (t_init w) (t_ticks w) (t_env w).
Definition set_tflock v w := mk_tw E (t_timers w) (t_links w) (t_lock w) v (t_init w) (t_ticks w) (t_env w).
Definition set_tinit v w := mk_tw E (t_timers w) (t_links w) (t_lock w) (tf_lock w) v (t_ticks w) (t_env w).
Definition set_tenv v w := mk_tw E (t_timers w) (t_links w) (t_lock w) (tf_lock w) (t_init w) (t_ticks w) v.
End setters.

(** Links of timers and the heads of the lists. *)
Definition timer_link (t : Z) : Z := 8 * t.
Definition le2timer (le : Z) : Z := le / 8.
Definition timer_list : Z := 1.
Definition timer_func_list : Z := 2.
Definition expired_list : Z := 3.       (* [free_list] of [run_timer_list] *)
Definition done_list : Z := 4.          (* [free_list] of [exec_timer_func] *)
Definition do_func_timer_list : Z := 5.

(** A function that a timer calls: it has the argument from the timer it is given, and
    of the functions here it calls the two for function timers. *)
Inductive callback (E : Type) :=
  | CB_done
  | CB_env (c : M E Z) (k : Z → callback E)
  | CB_add (func arg time flags : Z) (k : Z → callback E)     (* [timer_func_add] *)
  | CB_del (t : Z) (k : callback E).                         (* [del_func_timer] *)
Arguments CB_done {E}.
Arguments CB_env {E} c k.
Arguments CB_add {E} func arg time flags k.
Arguments CB_del {E} t k.

(** What is called and is not of this file's part: [wakeup_proc], [sleeping] up to the
    switch, in the two steps around the release of the lock it is given, [wait_state] of
    a process, the functions timers point to, and the allocator. *)
Class TimerEnv (E : Type) := {
  te_wakeup : Z → M E unit;
  te_sleep_lock : Z → M E unit;
  te_sleep : Z → M E unit;
  te_wait_state : Z → M E Z;
  te_set_wait_state : Z → Z → M E unit;
  te_code : Z → Z → callback E;      (* of a function, for its argument *)
  kmalloc_timer : M (tworld E) Z }.

Section timer.
Context `{TE : TimerEnv E}.
Abbreviation Tm := (M (tworld E)).

(** ** Access *)

Definition get_timer (t : Z) : Tm Timer := o ← gets (λ w, t_timers w !! t); of_option o.
Definition upd_timer (t : Z) (f : Timer → Timer) : Tm unit :=
  x ← get_timer t; modify (λ w, set_timers (<[t := f x]> (t_timers w)) w).
Definition on_tlinks {A} (c : M heap A) : Tm A := zoom t_links set_tlinks c.
Definition on_tenv {A} (c : M E A) : Tm A := zoom t_env set_tenv c.
Definition link_bound : Tm nat := gets (λ w, size (t_links w)).

Definition acquire_timer : Tm unit := l ← gets t_lock; assert_ (negb l);; modify (set_tlock true).
Definition release_timer : Tm unit := l ← gets t_lock; assert_ l;; modify (set_tlock false).
Definition acquire_tfunc : Tm unit := l ← gets tf_lock; assert_ (negb l);; modify (set_tflock true).
Definition release_tfunc : Tm unit := l ← gets tf_lock; assert_ l;; modify (set_tflock false).

(** Variables on the stack: a timer with its link, and the head of a list. *)
Definition local_timer (t : Z) : Tm unit :=
  modify (λ w, set_timers (<[t := mk_timer TIMER_PROC 0 0 0 0 0]> (t_timers w)) w);;
  modify (λ w, set_tlinks (<[timer_link t := mk_entry 0 0]> (t_links w)) w).
Definition local_list (a : Z) : Tm unit :=
  modify (λ w, set_tlinks (<[a := mk_entry 0 0]> (t_links w)) w);; on_tlinks (list_init a).

Definition kfree_timer (t : Z) : Tm unit :=
  get_timer t;;
  modify (λ w, set_timers (delete t (t_timers w)) w);;
  modify (λ w, set_tlinks (delete (timer_link t) (t_links w)) w).

(** ** Making, adding, deleting *)

Definition timer_start_init : Tm unit :=
  on_tlinks (list_init timer_list);;
  on_tlinks (list_init timer_func_list);;
  modify (set_tlock false);; modify (set_tflock false);;
  modify (set_tinit true).

Definition timer_proc_init (t proc time : Z) : Tm unit :=
  upd_timer t (λ x, mk_timer TIMER_PROC time proc (t_arg x) (reload x) (t_flags x));;
  on_tlinks (list_init (timer_link t)).

Definition timer_func_init (t func arg time flags : Z) : Tm unit :=
  upd_timer t (λ _, mk_timer TIMER_FUNC time func arg time flags);;
  on_tlinks (list_init (timer_link t)).

Definition add_timer (t : Z) : Tm unit :=
  x ← get_timer t;
  assert_ (0 <=? expires x);;
  e ← on_tlinks (list_empty (timer_link t));
  assert_ e;;
  le ← on_tlinks (list_next timer_list);
  fuel ← link_bound;
  le ← loop (S fuel) (λ le,
    if le =? timer_list then mret (inr le) else
    let next := le2timer le in
    x ← get_timer t; n ← get_timer next;
    if expires x <? expires n then
      upd_timer next (set_expires (u64 (expires n - expires x)));; mret (inr le)
    else
      (if expires x <? expires n then upd_timer t (set_expires 0)
       else upd_timer t (set_expires (u64 (expires x - expires n))));;
      le' ← on_tlinks (list_next le); mret (inl le')) le;
  on_tlinks (list_add_before le (timer_link t)).

Definition del_timer (t : Z) : Tm unit :=
  e ← on_tlinks (list_empty (timer_link t));
  if (e : bool) then mret tt else
  x ← get_timer t;
  (if expires x =? 0 then mret tt else
    le ← on_tlinks (list_next (timer_link t));
    if le =? timer_list then mret tt else
    upd_timer (le2timer le) (λ n, set_expires (u64 (expires n + expires x)) n));;
  on_tlinks (list_del_init (timer_link t)).

(** ** The tick *)

Definition wake (proc : Z) : M E unit :=
  ws ← te_wait_state proc;
  (if ws =? 0 then mret tt else assert_ (negb (Z.land ws WT_INTERAUPTED =? 0)));;
  te_wakeup proc.

(** What the loop does to a timer that expires. *)
Definition expire (t : Z) : Tm unit :=
  x ← get_timer t;
  match timer_type x with
  | TIMER_PROC => on_tenv (wake (target x));; on_tlinks (list_del_init (timer_link t))
  | TIMER_FUNC =>
      on_tlinks (list_del_init (timer_link t));;
      on_tlinks (list_add_after expired_list (timer_link t))
  end.

Definition expire_all (le : Z) : Tm unit :=
  let timer := le2timer le in
  x ← get_timer timer;
  (if 0 <? expires x then upd_timer timer (set_expires (expires x - 1)) else mret tt);;
  fuel ← link_bound;
  loop (S fuel) (λ '(le, timer),
    x ← get_timer timer;
    if negb (expires x =? 0) then mret (inr tt) else
    le' ← on_tlinks (list_next le);
    expire timer;;
    if le' =? timer_list then mret (inr tt) else mret (inl (le', le2timer le'))) (le, timer).

(** [while((le = list_next(&from)) != &from)] with a body that takes [le] out. *)
Definition drain (from : Z) (body : Z → Tm unit) : Tm unit :=
  fuel ← link_bound;
  loop (S fuel) (λ _,
    le ← on_tlinks (list_next from);
    if le =? from then mret (inr tt) else body le;; mret (inl tt)) tt.

Definition run_timer_list : Tm unit :=
  i ← gets t_init;
  if negb i then mret tt else
  local_list expired_list;;
  acquire_timer;;
  le ← on_tlinks (list_next timer_list);
  (if le =? timer_list then mret tt else expire_all le);;
  release_timer;;
  acquire_tfunc;;
  drain expired_list (λ le, on_tlinks (list_del le);; on_tlinks (list_add_after timer_func_list le));;
  release_tfunc.

(** ** Sleeping, function timers, and timers of the synchronisation calls *)

(** [do_sleep] up to the switch, with its timer at [t]; false: it returns at once. *)
Definition do_sleep_begin (current t time : Z) : Tm bool :=
  if time =? 0 then mret false else
  acquire_timer;;
  local_timer t;;
  timer_proc_init t current time;;
  on_tenv (te_set_wait_state current WT_TIMER);;
  add_timer t;;
  on_tenv (te_sleep_lock current);;
  release_timer;;
  on_tenv (te_sleep current);;
  mret true.

(** [do_sleep] from where [sleeping] takes the lock again. *)
Definition do_sleep_end (t : Z) : Tm Z :=
  acquire_timer;;
  del_timer t;;
  release_timer;;
  mret 0.

Definition timer_func_add (func arg time flags : Z) : Tm Z :=
  if time =? 0 then mret 0 else
  t ← kmalloc_timer;
  assert_ (negb (t =? 0));;
  acquire_timer;;
  timer_func_init t func arg time flags;;
  add_timer t;;
  release_timer;;
  mret t.

Definition del_func_timer (t : Z) : Tm unit :=
  acquire_timer;;
  acquire_tfunc;;
  del_timer t;;
  release_tfunc;;
  release_timer;;
  x ← get_timer t;
  assert_ (bool_decide (timer_type x = TIMER_FUNC));;
  kfree_timer t.

Fixpoint run_cb (cb : callback E) : Tm unit :=
  match cb with
  | CB_done => mret tt
  | CB_env c k => a ← on_tenv c; run_cb (k a)
  | CB_add func arg time flags k => t ← timer_func_add func arg time flags; run_cb (k t)
  | CB_del t k => del_func_timer t;; run_cb k
  end.

(** [timer->func(timer)] *)
Definition call_func (t : Z) : Tm unit := x ← get_timer t; run_cb (te_code (target x) (t_arg x)).

(** [*do_func_timer = *timer], the link with it. *)
Definition copy_timer (c t : Z) : Tm unit :=
  x ← get_timer t;
  upd_timer c (λ _, x);;
  o ← gets (λ w, t_links w !! timer_link t); e ← of_option o;
  modify (λ w, set_tlinks (<[timer_link c := e]> (t_links w)) w).

(** The three loops of [exec_timer_func]: the timers are taken from the list, each with a
    copy; the copies are called; the periodic ones start again. *)
Definition exec_collect : Tm unit :=
  local_list done_list;;
  local_list do_func_timer_list;;
  acquire_tfunc;;
  drain timer_func_list (λ le,
    on_tlinks (list_del_init le);;
    on_tlinks (list_add done_list le);;
    c ← kmalloc_timer;
    assert_ (negb (c =? 0));;
    copy_timer c (le2timer le);;
    on_tlinks (list_add do_func_timer_list (timer_link c)));;
  release_tfunc.

Definition exec_calls : Tm unit :=
  drain do_func_timer_list (λ le,
    let timer := le2timer le in
    x ← get_timer timer;
    assert_ (bool_decide (timer_type x = TIMER_FUNC) && (expires x =? 0));;
    call_func timer;;
    on_tlinks (list_del le);;
    kfree_timer timer).

Definition exec_again : Tm unit :=
  acquire_timer;;
  drain done_list (λ le,
    let timer := le2timer le in
    x ← get_timer timer;
    on_tlinks (list_del_init le);;
    (if negb (Z.land (t_flags x) TIMER_RELOAD =? 0) then
       upd_timer timer (λ x, set_expires (reload x) x);; add_timer timer
     else mret tt));;
  release_timer.

Definition exec_timer_func : Tm unit := exec_collect;; exec_calls;; exec_again.

Definition ipc_add_timer (t : Z) : Tm unit :=
  if t =? 0 then mret tt else acquire_timer;; add_timer t;; release_timer.
Definition ipc_del_timer (t : Z) : Tm unit :=
  if t =? 0 then mret tt else acquire_timer;; del_timer t;; release_timer.

(** The timer, or null for none, and [*saved_ticks]. *)
Definition ipc_timer_init (current timeout t : Z) : Tm (Z * option Z) :=
  if timeout =? 0 then mret (0, None) else
  ticks ← gets t_ticks;
  timer_proc_init t current timeout;;
  mret (t, Some ticks).

Definition ipc_check_timeout (timeout saved_ticks : Z) : Tm Z :=
  ticks ← gets t_ticks;
  if timeout =? 0 then mret (-1) else
  if u64 (timeout - 1) <=? u64 (ticks - saved_ticks) then mret (- E_TIMEOUT) else mret (-1).
End timer.
