(* ===== verification/TimerRep.v ===== *)
(** * The timer list as a list of deadlines

    What the differences in the list stand for: each pending timer with the tick at which
    it is due, in order, those due at one tick in the order they were added. *)
From S2P Require Import Prelude Errors ListH Timer.

(** A pending timer: its address, the tick it is due at, and what it does. *)
Record pending := mk_pd { pd_timer : Z; pd_due : Z; pd_what : Timer }.

Definition pd_link (p : pending) : Z := timer_link (pd_timer p).

#[export] Instance timer_link_inj : Inj (=) (=) timer_link.
Proof. intros x y. unfold timer_link. lia. Qed.
Lemma le2timer_link t : le2timer (timer_link t) = t.
Proof. unfold le2timer, timer_link. rewrite Z.mul_comm. by apply Z.div_mul. Qed.

(** The heads of the lists are no links. *)
Definition is_head (a : Z) : Prop := a ∈ [timer_list; timer_func_list; expired_list; done_list; do_func_timer_list].
Lemma timer_not_head t a : is_head a → timer_link t ≠ a.
Proof. unfold is_head, timer_link. intros Ha Ht. subst a. repeat (apply elem_of_cons in Ha as [Ha|Ha]; [unfold timer_list, timer_func_list, expired_list, done_list, do_func_timer_list in Ha; lia|]). by apply elem_of_nil in Ha. Qed.

(** The differences from [base] on. *)
Fixpoint timed (base : Z) (ds : list pending) (ts : gmap Z Timer) : Prop :=
  match ds with
  | [] => True
  | p :: ds' => ts !! pd_timer p = Some (set_expires (pd_due p - base) (pd_what p)) ∧ base ≤ pd_due p ∧
      timed (pd_due p) ds' ts
  end.

(** The tick before which nothing after [ds] is due. *)
Definition last_due (base : Z) (ds : list pending) : Z := default base (pd_due <$> last ds).

Lemma last_due_snoc base ds p : last_due base (ds ++ [p]) = pd_due p.
Proof. unfold last_due. by rewrite last_snoc. Qed.

Lemma last_due_cons base p ds : last_due base (p :: ds) = last_due (pd_due p) ds.
Proof. unfold last_due. destruct ds as [|q ds _] using rev_ind; [done|]. by rewrite app_comm_cons, !last_snoc. Qed.

Lemma last_due_le base ds b : base ≤ b → (∀ p, p ∈ ds → pd_due p ≤ b) → last_due base ds ≤ b.
Proof. destruct ds as [|q ds _] using rev_ind; [done|]. rewrite last_due_snoc. intros _ H. apply H. set_solver. Qed.

Lemma timed_app base ds1 ds2 ts : timed base (ds1 ++ ds2) ts ↔ timed base ds1 ts ∧ timed (last_due base ds1) ds2 ts.
Proof.
  revert base. induction ds1 as [|p ds1 IH]; intros base; [cbn; tauto|]. cbn [app timed]. rewrite IH, last_due_cons. tauto.
Qed.

Lemma timed_le base ds ts p : timed base ds ts → p ∈ ds → base ≤ pd_due p.
Proof.
  revert base. induction ds as [|q ds IH]; intros base H Hp; [by apply elem_of_nil in Hp|]. destruct H as (_ & Hle & H).
  apply elem_of_cons in Hp as [->|Hp]; [done|]. specialize (IH _ H Hp). lia.
Qed.

Lemma timed_last base ds ts : timed base ds ts → base ≤ last_due base ds.
Proof.
  revert base. induction ds as [|q ds IH]; intros base H; [done|]. destruct H as (_ & Hle & H). rewrite last_due_cons.
  specialize (IH _ H). lia.
Qed.

Lemma timed_same base ds ts ts' : timed base ds ts → (∀ p, p ∈ ds → ts' !! pd_timer p = ts !! pd_timer p) → timed base ds ts'.
Proof.
  revert base. induction ds as [|q ds IH]; intros base H He; [done|]. destruct H as (H1 & H2 & H3). split; [|split; [done|]].
  - rewrite He; [done|by left].
  - apply IH; [done|]. intros p Hp. apply He. by right.
Qed.

(** A timer's place: behind those due no later. *)
Fixpoint enqueue (p : pending) (ds : list pending) : list pending :=
  match ds with
  | [] => [p]
  | q :: ds' => if pd_due p <? pd_due q then p :: ds else q :: enqueue p ds'
  end.

Lemma enqueue_split p ds : ∃ d1 d2, ds = d1 ++ d2 ∧ enqueue p ds = d1 ++ p :: d2.
Proof.
  induction ds as [|q ds IH]; [by exists [], []|]. cbn. case_match; [by exists [], (q :: ds)|].
  destruct IH as (d1 & d2 & -> & ->). by exists (q :: d1), d2.
Qed.

(** The timers of a list with their descriptions. *)
Definition holds_fired (fs : list (Z * Timer)) (ts : gmap Z Timer) : Prop :=
  ∀ t x, (t, x) ∈ fs → timer_type x = TIMER_FUNC ∧ ts !! t = Some (set_expires 0 x).

Section rep.
Context {E : Type}.
Implicit Type w : tworld E.

(** The pending timers [ds] at the tick [now] and the function timers [fs] that have expired. *)
Record tqueue (now : Z) (ds : list pending) (fs : list (Z * Timer)) w : Prop := {
  tq_list : is_list (t_links w) timer_list (map pd_link ds);
  tq_func : is_list (t_links w) timer_func_list (map timer_link fs.*1);
  tq_timed : timed now ds (t_timers w);
  tq_due p : p ∈ ds → now < pd_due p < now + 2 ^ 64;
  tq_fired : holds_fired fs (t_timers w);
  tq_apart t : t ∈ map pd_timer ds → t ∉ fs.*1 }.

Record timers_ok (now : Z) (ds : list pending) (fs : list (Z * Timer)) w : Prop := {
  tk_queue : tqueue now ds fs w;
  tk_lock : t_lock w = false;
  tk_flock : tf_lock w = false;
  tk_init : t_init w = true }.

Lemma tqueue_ext now ds fs w w' : tqueue now ds fs w → t_links w' = t_links w → t_timers w' = t_timers w → tqueue now ds fs w'.
Proof. intros [H1 H2 H3 H4 H5 H6] E1 E2. by split; rewrite ?E1, ?E2. Qed.

(** ** Access *)

Lemma wp_get_timer `{TE : TimerEnv E} t x w (Q : Timer → tworld E → Prop) :
  t_timers w !! t = Some x → Q x w → wp (get_timer t) w Q.
Proof. intros Ht HQ. unfold get_timer. rewrite wp_bind, wp_gets, wp_of_option. eauto. Qed.
Lemma wp_upd_timer `{TE : TimerEnv E} t f x w (Q : unit → tworld E → Prop) :
  t_timers w !! t = Some x → Q tt (set_timers (<[t := f x]> (t_timers w)) w) → wp (upd_timer t f) w Q.
Proof. intros Ht HQ. unfold upd_timer. apply wp_bind. eapply wp_get_timer; [done|]. by rewrite wp_modify. Qed.
Lemma wp_tlinks `{TE : TimerEnv E} {A} (c : M heap A) w (Q : A → tworld E → Prop) :
  wp c (t_links w) (λ a h, Q a (set_tlinks h w)) → wp (on_tlinks c) w Q.
Proof. intros H. by apply wp_zoom. Qed.
Lemma set_tlinks_id w : set_tlinks (t_links w) w = w.
Proof. by destruct w. Qed.
Lemma set_timers_id w : set_timers (t_timers w) w = w.
Proof. by destruct w. Qed.
Lemma wp_tnext `{TE : TimerEnv E} a b w (Q : Z → tworld E → Prop) :
  nxt (t_links w) a = Some b → Q b w → wp (on_tlinks (list_next a)) w Q.
Proof. intros Hn HQ. apply wp_tlinks. eapply wp_list_next; [exact Hn|]. by rewrite set_tlinks_id. Qed.

(** The cell at a place of a ring. *)
Lemma nxt_first h hd es : is_list h hd es → nxt h hd = Some (default hd (head es)).
Proof. intros [_ Hs]. by apply lseg_first in Hs. Qed.

Lemma nxt_at h hd l1 x l2 : is_list h hd (l1 ++ x :: l2) → nxt h x = Some (default hd (head l2)).
Proof. intros [_ Hs]. by apply lseg_walk in Hs. Qed.
End rep.

(** ** [add_timer] *)

Section add.
Context `{TE : TimerEnv E}.
Implicit Type w : tworld E.

(** The walk: the time from the expiry of the last timer passed is left in the timer. *)
Lemma wp_add_loop now t x e d1 d2 w fuel (Q : Z → tworld E → Prop) :
  is_list (t_links w) timer_list (map pd_link (d1 ++ d2)) → timed now (d1 ++ d2) (t_timers w) →
  (∀ p, p ∈ d1 ++ d2 → pd_timer p ≠ t) → NoDup (map pd_timer (d1 ++ d2)) → (∀ p, p ∈ d1 → pd_due p ≤ now + e) →
  (∀ p, p ∈ d2 → pd_due p < now + 2 ^ 64) → 0 ≤ e < 2 ^ 64 →
  t_timers w !! t = Some (set_expires (now + e - last_due now d1) x) → (length d2 < fuel)%nat →
  (∀ k1 k2 ts, d2 = k1 ++ k2 → enqueue (mk_pd t (now + e) x) d2 = k1 ++ mk_pd t (now + e) x :: k2 →
     timed now ((d1 ++ k1) ++ mk_pd t (now + e) x :: k2) ts → (∀ u, u ≠ t → u ∉ map pd_timer (d1 ++ d2) → ts !! u = t_timers w !! u) →
     Q (default timer_list (head (map pd_link k2))) (set_timers ts w)) →
  wp (loop fuel (λ le,
    if le =? timer_list then mret (inr le) else
    let next := le2timer le in
    x ← get_timer t; n ← get_timer next;
    if expires x <? expires n then
      upd_timer next (set_expires (u64 (expires n - expires x)));; mret (inr le)
    else
      (if expires x <? expires n then upd_timer t (set_expires 0)
       else upd_timer t (set_expires (u64 (expires x - expires n))));;
      le' ← on_tlinks (list_next le); mret (inl le')) (default timer_list (head (map pd_link d2)))) w Q.
Proof.
  revert d1 w fuel. induction d2 as [|p d2 IH]; intros d1 w fuel Hl Ht Hne Hnd Hd1 Hd2 He Hx Hf HQ;
    (destruct fuel as [|fuel]; [cbn in Hf; lia|]); cbn [loop head map default from_option id]; apply wp_bind.
  { rewrite Z.eqb_refl, wp_ret, wp_ret. rewrite app_nil_r in Ht. specialize (HQ [] [] (t_timers w) eq_refl eq_refl).
    rewrite set_timers_id in HQ. apply HQ; [|done]. rewrite app_nil_r. apply timed_app. split; [done|]. split; [done|]. split; [|done].
    cbn. apply last_due_le; [lia|done]. }
  rewrite (proj2 (Z.eqb_neq _ _)) by (apply timer_not_head; by left). cbv zeta. change (le2timer (pd_link p)) with (le2timer (timer_link (pd_timer p))). rewrite le2timer_link.
  pose proof Ht as (Ht1 & (Hp & Hle & Ht2))%timed_app. apply wp_bind. eapply wp_get_timer; [exact Hx|].
  apply wp_bind. eapply wp_get_timer; [exact Hp|]. cbn [expires set_expires].
  assert (pd_timer p ≠ t) as Hpt by (apply Hne; set_solver). pose proof (Hd2 p ltac:(by left)) as Hdp.
  pose proof (timed_last _ _ _ Ht1) as Hbase.
  assert (last_due now d1 ≤ now + e) as Hle2 by (apply last_due_le; [lia|done]).
  destruct (Z.ltb_spec (now + e - last_due now d1) (pd_due p - last_due now d1)) as [Hlt|Hge].
  - apply wp_bind. eapply wp_upd_timer; [exact Hp|]. rewrite wp_ret, wp_ret. cbn [set_expires expires].
    apply (HQ [] (p :: d2)); [done| | |].
    + cbn. by rewrite (proj2 (Z.ltb_lt _ _)) by lia.
    + rewrite app_nil_r. rewrite map_app in Hnd. cbn in Hnd. rewrite <- Permutation_middle in Hnd. apply NoDup_cons in Hnd as [Hnp _].
      assert (∀ q, q ∈ d1 ++ d2 → pd_timer q ≠ pd_timer p) as Hother.
      { intros q Hq Eq. apply Hnp. rewrite <- map_app, <- Eq. by apply list_elem_of_fmap_2. }
      apply timed_app. split; [eapply timed_same; [exact Ht1|]|].
      { intros q Hq. rewrite lookup_insert_ne; [done|]. apply not_eq_sym, Hother. set_solver. }
      cbn [timed pd_timer pd_due pd_what]. rewrite lookup_insert_ne by done. split; [exact Hx|]. split; [done|].
      rewrite lookup_insert_eq. split; [|split; [lia|]].
      * f_equal. rewrite wrap_small by lia. unfold set_expires. cbn. f_equal. lia.
      * eapply timed_same; [exact Ht2|]. intros q Hq. rewrite lookup_insert_ne; [done|]. apply not_eq_sym, Hother. set_solver.
    + intros u Hu Hni. rewrite lookup_insert_ne; [done|]. intros <-. apply Hni. rewrite map_app. set_solver.
  - apply wp_bind. eapply wp_upd_timer; [exact Hx|]. apply wp_bind. eapply wp_tnext.
    { cbn [t_links set_timers]. rewrite map_app in Hl. by eapply nxt_at. }
    rewrite wp_ret. cbn [set_expires expires timer_type target t_arg reload t_flags].
    assert (u64 (now + e - last_due now d1 - (pd_due p - last_due now d1)) = now + e - pd_due p) as Ew.
    { rewrite wrap_small; lia. }
    eapply (IH (d1 ++ [p])); rewrite <- ?app_assoc; [done| |done|done| | |done| | |].
    + eapply timed_same; [exact Ht|]. intros q Hq. cbn. rewrite lookup_insert_ne; [done|]. by apply not_eq_sym, Hne.
    + intros q [Hq| ->%list_elem_of_singleton]%elem_of_app; [by apply Hd1|lia].
    + intros q Hq. apply Hd2. by right.
    + rewrite last_due_snoc. cbn. rewrite lookup_insert_eq. f_equal. unfold set_expires. cbn. by rewrite Ew.
    + cbn in Hf. lia.
    + intros k1 k2 ts -> Eq Hts Hother. apply (HQ (p :: k1) k2); [done| | |].
      * cbn. rewrite (proj2 (Z.ltb_ge _ _)) by lia. by rewrite Eq.
      * by rewrite <- (app_assoc d1 [p] k1) in Hts.
      * intros u Hu Hni. rewrite Hother by done. cbn. by rewrite lookup_insert_ne.
Qed.

Lemma tqueue_nodup now ds fs w : tqueue now ds fs w → NoDup (map pd_timer ds).
Proof.
  intros [[[_ Hn]%NoDup_cons _] _ _ _ _ _]. replace (map pd_link ds) with (map timer_link (map pd_timer ds)) in Hn by apply map_map.
  by apply NoDup_fmap_1 in Hn.
Qed.

Lemma link_in_queue t ds : timer_link t ∈ map pd_link ds ↔ t ∈ map pd_timer ds.
Proof.
  split; intros (p & Ep & Hp)%list_elem_of_fmap.
  - apply (inj timer_link) in Ep as ->. by apply list_elem_of_fmap_2.
  - subst t. by apply (list_elem_of_fmap_2 pd_link).
Qed.

Lemma link_in_fired t ts : timer_link t ∈ map timer_link ts → t ∈ ts.
Proof. intros (u & Eu & Hu)%list_elem_of_fmap. by apply (inj timer_link) in Eu as ->. Qed.

(** A ring on the other list is not touched. *)
Lemma fired_frame h h' ts cells a : is_head a → a ∉ cells → is_list h a (map timer_link ts) → touches cells h h' →
  (∀ t, t ∈ ts → timer_link t ∉ cells) → is_list h' a (map timer_link ts).
Proof.
  intros Ha Hn Hl Ht Hts. eapply is_list_frame; [exact Hl|exact Ht|]. intros u [->|(t & -> & Hin)%list_elem_of_fmap]%elem_of_cons; auto.
Qed.

Lemma wp_add_timer now ds fs w t x e (Q : unit → tworld E → Prop) :
  tqueue now ds fs w → t_timers w !! t = Some (set_expires e x) → 0 < e < 2 ^ 64 → t ∉ map pd_timer ds → t ∉ fs.*1 →
  is_list (t_links w) (timer_link t) [] →
  (∀ ts h, let w' := set_timers ts (set_tlinks h w) in tqueue now (enqueue (mk_pd t (now + e) x) ds) fs w' →
     touches (timer_link t :: timer_list :: map pd_link ds) (t_links w) h →
     (∀ u, u ≠ t → u ∉ map pd_timer ds → ts !! u = t_timers w !! u) → Q tt w') →
  wp (add_timer t) w Q.
Proof.
  intros Hq Hx He Hnt Hnf Hlt HQ. pose proof (tqueue_nodup _ _ _ _ Hq) as Hnd. destruct Hq as [H1 H2 H3 H4 H5 H6].
  unfold add_timer. apply wp_bind. eapply wp_get_timer; [exact Hx|]. cbn [expires set_expires].
  rewrite wp_bind, wp_assert. split; [apply Z.leb_le; lia|]. apply wp_bind, wp_tlinks. eapply wp_list_empty; [exact Hlt|].
  rewrite set_tlinks_id, bool_decide_true by done. rewrite wp_bind, wp_assert. split; [done|].
  apply wp_bind. eapply wp_tnext; [by apply nxt_first|]. unfold link_bound. rewrite wp_bind, wp_gets.
  assert (∀ p, p ∈ ds → pd_timer p ≠ t) as Hne by (intros p Hp <-; by apply Hnt, list_elem_of_fmap_2).
  apply wp_bind. eapply (wp_add_loop now t x e [] ds); [exact H1|exact H3|exact Hne|exact Hnd| | |lia| | |].
  { intros p Hp. by apply elem_of_nil in Hp. }
  { intros p Hp. by apply H4. }
  { rewrite Hx. f_equal. f_equal. unfold last_due. cbn. lia. }
  { pose proof (is_list_size _ _ _ H1) as Hs. rewrite length_map in Hs. lia. }
  intros k1 k2 ts Ed Eq Hts Hother. cbn [app] in Hts. rewrite Eq in HQ. subst ds. rewrite map_app in H1.
  apply wp_tlinks. eapply (wp_list_add_before_at timer_list (map pd_link k1) (map pd_link k2)); [exact H1| | |].
  { rewrite <- map_app. intros [Ht|Ht]%elem_of_cons; [by apply timer_not_head in Ht; [|by left]|by apply link_in_queue in Ht]. }
  { destruct Hlt as [_ Hlt]. eapply lseg_dom; [exact Hlt|by left]. }
  intros h Hl' Htch. apply (HQ ts h).
  - assert (timer_list ≠ timer_func_list) as Hhd by done.
    split; cbn; [by rewrite map_app| |exact Hts| | |].
    + eapply fired_frame; [right; by left| |exact H2|exact Htch|].
      * rewrite <- map_app. intros [Ht|[Ht|(p & Ht & _)%list_elem_of_fmap]%elem_of_cons]%elem_of_cons; [|done|];
          symmetry in Ht; revert Ht; apply timer_not_head; right; by left.
      * intros u Hu. rewrite <- map_app. intros [Ht%(inj timer_link)|[Ht|Ht%link_in_queue]%elem_of_cons]%elem_of_cons.
        -- congruence.
        -- by apply timer_not_head in Ht; [|by left].
        -- by apply (H6 u).
    + intros p. rewrite elem_of_app, elem_of_cons. intros Hp. assert (p ∈ k1 ++ k2 ∨ p = mk_pd t (now + e) x) as [Hp'| ->] by set_solver;
        [by apply H4|cbn; lia].
    + intros u y Hu. destruct (H5 u y Hu) as [Hk Hy]. split; [done|]. apply (list_elem_of_fmap_2 fst) in Hu. cbn in Hu.
      rewrite Hother; [done|congruence|]. intros Hin. by apply (H6 u).
    + intros u. rewrite map_app. cbn. intros Hu Hf. assert (u ∈ map pd_timer (k1 ++ k2) ∨ u = t) as [Hu'| ->] by (rewrite map_app; set_solver);
        [by apply (H6 u)|done].
  - by rewrite map_app.
  - done.
Qed.

(** ** [del_timer] *)

(** The difference goes to the timer behind. *)
Lemma wp_give_on now d1 p d2 w (Q : unit → tworld E → Prop) :
  is_list (t_links w) timer_list (map pd_link (d1 ++ p :: d2)) → timed now (d1 ++ p :: d2) (t_timers w) →
  NoDup (map pd_timer (d1 ++ p :: d2)) → (∀ q, q ∈ d2 → pd_due q < now + 2 ^ 64) →
  (∀ ts, timed now (d1 ++ d2) ts → (∀ u, u ∉ map pd_timer d2 → ts !! u = t_timers w !! u) → Q tt (set_timers ts w)) →
  wp (x ← get_timer (pd_timer p);
      if expires x =? 0 then mret tt else
      le ← on_tlinks (list_next (timer_link (pd_timer p)));
      if le =? timer_list then mret tt else
      upd_timer (le2timer le) (λ n, set_expires (u64 (expires n + expires x)) n)) w Q.
Proof.
  intros Hl Ht Hnd Hd HQ. apply timed_app in Ht as (Ht1 & Hp & Hle & Ht2). apply wp_bind. eapply wp_get_timer; [exact Hp|].
  cbn [expires set_expires]. pose proof (timed_last _ _ _ Ht1) as Hb. destruct (Z.eqb_spec (pd_due p - last_due now d1) 0) as [E0|E0].
  - rewrite wp_ret. rewrite <- (set_timers_id w). apply HQ; [|done]. apply timed_app. split; [done|].
    by replace (last_due now d1) with (pd_due p) by lia.
  - rewrite map_app in Hl. cbn in Hl. apply wp_bind. eapply wp_tnext; [by eapply nxt_at|].
    destruct d2 as [|q d2]; cbn [map head default from_option id].
    { rewrite Z.eqb_refl, wp_ret. rewrite <- (set_timers_id w). apply HQ; [|done]. by rewrite app_nil_r. }
    rewrite (proj2 (Z.eqb_neq _ _)) by (apply timer_not_head; by left).
    change (le2timer (pd_link q)) with (le2timer (timer_link (pd_timer q))). rewrite le2timer_link.
    destruct Ht2 as (Hq & Hle2 & Ht3). pose proof (Hd q ltac:(by left)) as Hdq.
    eapply wp_upd_timer; [exact Hq|]. cbn [expires set_expires timer_type target t_arg reload t_flags]. apply HQ.
    + rewrite map_app in Hnd. cbn in Hnd.
      assert (∀ r, r ∈ d1 ++ d2 → pd_timer r ≠ pd_timer q) as Hother.
      { intros r Hr Er. rewrite (Permutation_swap (pd_timer q)), <- Permutation_middle in Hnd. apply NoDup_cons in Hnd as [Hn _]. apply Hn.
        rewrite elem_of_app, elem_of_cons. apply elem_of_app in Hr as [Hr|Hr]; apply (list_elem_of_fmap_2 pd_timer) in Hr; rewrite <- Er; auto. }
      apply timed_app. split; [eapply timed_same; [exact Ht1|]|split; [|split; [lia|]]].
      * intros r Hr. rewrite lookup_insert_ne; [done|]. apply not_eq_sym, Hother. set_solver.
      * rewrite lookup_insert_eq. f_equal. rewrite wrap_small by lia. unfold set_expires. cbn. f_equal. lia.
      * eapply timed_same; [exact Ht3|]. intros r Hr. rewrite lookup_insert_ne; [done|]. apply not_eq_sym, Hother. set_solver.
    + intros u Hu. rewrite lookup_insert_ne; [done|]. intros <-. apply Hu. by left.
Qed.

Lemma wp_del_pending now d1 p d2 fs w (Q : unit → tworld E → Prop) :
  tqueue now (d1 ++ p :: d2) fs w →
  (∀ ts h, let w' := set_timers ts (set_tlinks h w) in tqueue now (d1 ++ d2) fs w' → is_list h (pd_link p) [] →
     touches (timer_list :: map pd_link (d1 ++ p :: d2)) (t_links w) h →
     (∀ u, u ∉ map pd_timer d2 → ts !! u = t_timers w !! u) → Q tt w') →
  wp (del_timer (pd_timer p)) w Q.
Proof.
  intros Hq HQ. pose proof (tqueue_nodup _ _ _ _ Hq) as Hnd. destruct Hq as [H1 H2 H3 H4 H5 H6].
  pose proof H1 as Hl. rewrite map_app in Hl. cbn in Hl. unfold del_timer. apply wp_bind, wp_tlinks. unfold list_empty.
  apply wp_bind. eapply wp_list_next; [by eapply nxt_at|]. rewrite wp_ret, set_tlinks_id.
  assert (default timer_list (head (map pd_link d2)) ≠ pd_link p) as Hne.
  { destruct Hl as [Hn _]. destruct d2 as [|q d2]; cbn.
    - apply not_eq_sym, timer_not_head. by left.
    - intros Eq. rewrite <- Permutation_middle, Permutation_swap in Hn. apply NoDup_cons in Hn as [Hn _]. apply Hn. rewrite <- Eq. set_solver. }
  rewrite bool_decide_false by done.
  enough (wp ((x ← get_timer (pd_timer p);
    if expires x =? 0 then mret tt else
    le ← on_tlinks (list_next (timer_link (pd_timer p)));
    if le =? timer_list then mret tt else
    upd_timer (le2timer le) (λ n, set_expires (u64 (expires n + expires x)) n));;
    on_tlinks (list_del_init (timer_link (pd_timer p)))) w Q) as Hgoal.
  { apply wp_bind. rewrite wp_bind, wp_bind in Hgoal. eapply wp_conseq; [exact Hgoal|]. intros x w1 Hx. by apply wp_bind. }
  apply wp_bind. eapply wp_give_on; [exact H1|exact H3|exact Hnd| |].
  { intros q Hqi. apply H4. set_solver. }
  intros ts Hts Hother. apply wp_tlinks. eapply wp_list_del_init; [exact Hl|]. intros h Hl' Hal Htch.
  assert (∀ u, u ∈ map pd_timer (d1 ++ d2) → u ∈ map pd_timer (d1 ++ p :: d2)) as Hsub by (intros u; rewrite !map_app; set_solver).
  apply (HQ ts h); [|exact Hal| |exact Hother].
  - split; cbn; [by rewrite map_app| |exact Hts| | |].
    + eapply fired_frame; [right; by left| |exact H2|exact Htch|].
      * rewrite <- map_app. intros [Ht|[Ht|(q & Ht & _)%list_elem_of_fmap]%elem_of_cons]%elem_of_cons; [|done|];
          symmetry in Ht; revert Ht; apply timer_not_head; right; by left.
      * intros u Hu. rewrite <- map_app. assert (∀ v, v ∈ map pd_timer (d1 ++ p :: d2) → u ≠ v) as Hx by (intros v Hv ->; by apply (H6 v)).
        intros [Ht%(inj timer_link)|[Ht|Ht%link_in_queue]%elem_of_cons]%elem_of_cons.
        -- apply (Hx (pd_timer p)); [|done]. rewrite map_app. set_solver.
        -- by apply timer_not_head in Ht; [|by left].
        -- by apply (Hx u); [apply Hsub|].
    + intros q Hqi. apply H4. set_solver.
    + intros u y Hu. destruct (H5 u y Hu) as [Hk Hy]. split; [done|]. rewrite Hother; [done|]. intros Hin.
      apply (H6 u); [rewrite map_app; set_solver|]. by apply (list_elem_of_fmap_2 fst _ (u, y)).
    + intros u Hu. by apply H6, Hsub.
  - destruct Htch as [D T]. split; [done|]. intros u Hu. apply T. rewrite map_app in Hu. set_solver.
Qed.

(** A timer that has expired, or is in no list. *)
Lemma wp_del_fired now ds f1 t x f2 w (Q : unit → tworld E → Prop) :
  tqueue now ds (f1 ++ (t, x) :: f2) w →
  (∀ h, let w' := set_tlinks h w in tqueue now ds (f1 ++ f2) w' → is_list h (timer_link t) [] →
     touches (timer_func_list :: map timer_link (f1 ++ (t, x) :: f2).*1) (t_links w) h → Q tt w') →
  wp (del_timer t) w Q.
Proof.
  intros [H1 H2 H3 H4 H5 H6] HQ. pose proof H2 as Hl. rewrite fmap_app, map_app in Hl. cbn in Hl.
  unfold del_timer. apply wp_bind, wp_tlinks. unfold list_empty. apply wp_bind. eapply wp_list_next; [by eapply nxt_at|].
  rewrite wp_ret, set_tlinks_id.
  assert (default timer_func_list (head (map timer_link f2.*1)) ≠ timer_link t) as Hne.
  { destruct Hl as [Hn _]. destruct f2 as [|q f2]; cbn.
    - apply not_eq_sym, timer_not_head. right. by left.
    - intros Eq. rewrite <- Permutation_middle, Permutation_swap in Hn. apply NoDup_cons in Hn as [Hn _]. apply Hn. rewrite <- Eq. set_solver. }
  rewrite bool_decide_false by done. destruct (H5 t x ltac:(set_solver)) as [Hk Hx]. apply wp_bind.
  eapply wp_get_timer; [exact Hx|]. cbn [expires set_expires]. rewrite Z.eqb_refl. apply wp_bind. rewrite wp_ret.
  apply wp_tlinks. eapply wp_list_del_init; [exact Hl|]. intros h Hl' Hal Htch. rewrite <- map_app, <- fmap_app in Hl', Htch.
  assert (∀ u, u ∈ (f1 ++ f2).*1 → u ∈ (f1 ++ (t, x) :: f2).*1) as Hsub by (intros u; rewrite !fmap_app; set_solver).
  apply (HQ h); [|exact Hal|].
  - split; cbn; [|exact Hl'|exact H3|exact H4| |].
    + replace (map pd_link ds) with (map timer_link (map pd_timer ds)) in * by apply map_map.
      eapply fired_frame; [by left| |exact H1|exact Htch|].
      * intros [Ht|[Ht|(q & Ht & _)%list_elem_of_fmap]%elem_of_cons]%elem_of_cons; [|done|];
          symmetry in Ht; revert Ht; apply timer_not_head; by left.
      * intros u Hu. assert (∀ v, v ∈ (f1 ++ (t, x) :: f2).*1 → u ≠ v) as Hy by (intros v Hv ->; by apply (H6 v)).
        intros [Ht%(inj timer_link)|[Ht|Ht%link_in_fired]%elem_of_cons]%elem_of_cons.
        -- apply (Hy t); [|done]. rewrite fmap_app. set_solver.
        -- by apply timer_not_head in Ht; [|right; left].
        -- by apply (Hy u); [apply Hsub|].
    + intros u y Hu. apply H5. set_solver.
    + intros u Hu Hin. by apply (H6 u), Hsub.
  - destruct Htch as [D T]. split; [done|]. intros u Hu. apply T. rewrite fmap_app, map_app in Hu. rewrite fmap_app, map_app. set_solver.
Qed.

Lemma wp_del_loose t w (Q : unit → tworld E → Prop) : is_list (t_links w) (timer_link t) [] → Q tt w → wp (del_timer t) w Q.
Proof.
  intros Hl HQ. unfold del_timer. apply wp_bind, wp_tlinks. eapply wp_list_empty; [exact Hl|].
  by rewrite set_tlinks_id, bool_decide_true by done.
Qed.
End add.
