(* ===== verification/TimerTick.v ===== *)
(** * The tick: [run_timer_list] *)
From S2P Require Import Prelude Errors ListH Timer TimerRep.

(** The processes to wake and the function timers, of those that expire. *)
Definition procs_of (ds : list pending) : list Z :=
  ds ≫= (λ p, match timer_type (pd_what p) with TIMER_PROC => [target (pd_what p)] | TIMER_FUNC => [] end).
Definition funcs_of (ds : list pending) : list (Z * Timer) :=
  ds ≫= (λ p, match timer_type (pd_what p) with TIMER_PROC => [] | TIMER_FUNC => [(pd_timer p, pd_what p)] end).

Section tick.
Context `{TE : TimerEnv E}.
Implicit Type w : tworld E.

Fixpoint wake_all (ps : list Z) : M E unit :=
  match ps with [] => mret tt | p :: ps' => wake p;; wake_all ps' end.

Lemma set_tenv_id w : set_tenv (t_env w) w = w.
Proof. by destruct w. Qed.

(** One timer leaves the list. *)
Definition expired_by (p : pending) (ex : list Z) : list Z :=
  match timer_type (pd_what p) with TIMER_PROC => ex | TIMER_FUNC => pd_timer p :: ex end.

Lemma wp_expire p ds ex x w e' (Q : unit → tworld E → Prop) :
  is_list (t_links w) timer_list (map pd_link (p :: ds)) → is_list (t_links w) expired_list (map timer_link ex) →
  NoDup (map pd_timer (p :: ds) ++ ex) → t_timers w !! pd_timer p = Some (set_expires x (pd_what p)) →
  wake_all (procs_of [p]) (t_env w) = Ok (tt, e') →
  (∀ h, is_list h timer_list (map pd_link ds) → is_list h expired_list (map timer_link (expired_by p ex)) →
     (timer_type (pd_what p) = TIMER_PROC → is_list h (pd_link p) []) →
     touches (timer_list :: expired_list :: map pd_link (p :: ds) ++ map timer_link ex) (t_links w) h →
     Q tt (set_tlinks h (set_tenv e' w))) →
  wp (expire (pd_timer p)) w Q.
Proof.
  intros Hl He Hnd Hx Hw HQ. unfold expire. apply wp_bind. eapply wp_get_timer; [exact Hx|]. cbn [timer_type set_expires target].
  unfold expired_by in HQ. unfold procs_of in Hw. cbn in Hw.
  assert (∀ h, touches (pd_link p :: timer_list :: map pd_link ds) (t_links w) h → is_list h expired_list (map timer_link ex)) as Hex.
  { intros h Ht. eapply fired_frame; [right; right; by left| |exact He|exact Ht|].
    - intros [Eq|[Eq|(q & Eq & _)%list_elem_of_fmap]%elem_of_cons]%elem_of_cons; [|done|];
        symmetry in Eq; revert Eq; apply timer_not_head; right; right; by left.
    - intros u Hu. apply NoDup_app in Hnd as (_ & Hd & _). intros [Eq|[Eq|Eq%link_in_queue]%elem_of_cons]%elem_of_cons.
      + apply (inj timer_link) in Eq as ->. by apply (Hd (pd_timer p)); [left|].
      + by apply timer_not_head in Eq; [|left].
      + by apply (Hd u); [right|]. }
  destruct (timer_type (pd_what p)).
  - apply wp_bind, wp_zoom. cbn in Hw. assert (wake (target (pd_what p)) (t_env w) = Ok (tt, e')) as Hw1.
    { revert Hw. unfold mbind, M_bind. by destruct (wake _ _) as [[[] ?]| | | |]. }
    eapply wp_of_run; [exact Hw1|]. apply wp_tlinks. eapply (wp_list_del_init timer_list [] (pd_link p)); [exact Hl|].
    intros h H1 H2 Ht. apply HQ; [exact H1|by apply Hex|done|]. destruct Ht as [D T]. split; [done|]. intros u Hu. apply T. set_solver.
  - injection Hw as <-. rewrite set_tenv_id in HQ. apply wp_bind, wp_tlinks.
    eapply (wp_list_del_init timer_list [] (pd_link p)); [exact Hl|]. intros h H1 H2 Ht.
    assert ((pd_timer p ∉ ex) ∧ (pd_timer p ∉ map pd_timer ds)) as [Hpe Hpd].
    { cbn in Hnd. apply NoDup_cons in Hnd as [Hn _]. set_solver. }
    apply wp_tlinks. eapply (wp_list_add_after expired_list [] (map timer_link ex)); [by apply Hex| | |].
    { intros [Eq|Eq]%elem_of_cons; [by apply timer_not_head in Eq; [|right; right; left]|by apply link_in_fired in Eq]. }
    { destruct H2 as [_ H2]. eapply lseg_dom; [exact H2|by left]. }
    intros h2 H3 Ht2. cbn [t_links set_tlinks] in *. apply HQ; [|exact H3|done|].
    + eapply is_list_frame; [exact H1|exact Ht2|]. intros u [->|(q & -> & Hq)%list_elem_of_fmap]%elem_of_cons.
      * intros [Eq|[Eq|(q & Eq & _)%list_elem_of_fmap]%elem_of_cons]%elem_of_cons; [|done|];
          symmetry in Eq; revert Eq; apply timer_not_head; by left.
      * apply NoDup_app in Hnd as (_ & Hd & _). intros [Eq|[Eq|Eq%link_in_fired]%elem_of_cons]%elem_of_cons.
        -- apply (inj timer_link) in Eq. apply Hpd. rewrite <- Eq. by apply list_elem_of_fmap_2.
        -- by apply timer_not_head in Eq; [|right; right; left].
        -- apply (Hd (pd_timer q)); [|done]. right. by apply list_elem_of_fmap_2.
    + destruct Ht as [D1 T1], Ht2 as [D2 T2]. split; [congruence|]. intros u Hu. rewrite T2, T1; [done|set_solver..].
Qed.

Lemma wake_all_app ps qs : ∀ e, wake_all (ps ++ qs) e = (wake_all ps;; wake_all qs) e.
Proof.
  induction ps as [|p ps IH]; intros e; [done|]. cbn. unfold mbind, M_bind in *. destruct (wake p e) as [[[] e1]| | | |]; [|done..].
  rewrite IH. by destruct (wake_all ps e1) as [[[] ?]| | | |].
Qed.

Definition fired_list (f : list pending) (ex : list Z) : list Z := rev (funcs_of f).*1 ++ ex.

Lemma fired_list_cons p f ex : fired_list (p :: f) ex = fired_list f (expired_by p ex).
Proof.
  unfold fired_list, expired_by, funcs_of. cbn. destruct (timer_type (pd_what p)); [done|]. cbn. by rewrite <- app_assoc.
Qed.

Lemma procs_of_cons p f : procs_of (p :: f) = procs_of [p] ++ procs_of f.
Proof. unfold procs_of. cbn. by rewrite app_nil_r. Qed.

(** Timers that are in no list. *)
Definition apart_links (ps : list pending) (h : heap) : Prop :=
  ∀ p, p ∈ ps → timer_type (pd_what p) = TIMER_PROC → is_list h (pd_link p) [].

(** The loop of the tick: all of [f], which are due, and none of [r]. *)
Lemma wp_expire_loop n p f r ex e' w fuel (Q : unit → tworld E → Prop) :
  is_list (t_links w) timer_list (map pd_link (p :: f ++ r)) → is_list (t_links w) expired_list (map timer_link ex) →
  NoDup (map pd_timer (p :: f ++ r) ++ ex) → timed n (p :: f ++ r) (t_timers w) →
  (∀ q, q ∈ p :: f → pd_due q = n) → (∀ q, q ∈ r → n < pd_due q) →
  wake_all (procs_of (p :: f)) (t_env w) = Ok (tt, e') → (length (f ++ r) < fuel)%nat →
  (∀ h, is_list h timer_list (map pd_link r) → is_list h expired_list (map timer_link (fired_list (p :: f) ex)) →
     apart_links (p :: f) h →
     touches (timer_list :: expired_list :: map pd_link (p :: f ++ r) ++ map timer_link ex) (t_links w) h →
     Q tt (set_tlinks h (set_tenv e' w))) →
  wp (loop fuel (λ '(le, timer),
    x ← get_timer timer;
    if negb (expires x =? 0) then mret (inr tt) else
    le' ← on_tlinks (list_next le);
    expire timer;;
    if le' =? timer_list then mret (inr tt) else mret (inl (le', le2timer le'))) (pd_link p, pd_timer p)) w Q.
Proof.
  revert p ex w fuel. induction f as [|q f IH]; intros p ex w fuel Hl He Hnd Ht Hf Hr Hw Hfu HQ;
    (destruct fuel as [|fuel]; [cbn in Hfu; lia|]); cbn [loop]; apply wp_bind; pose proof Ht as (Hx & _ & Ht2);
    (apply wp_bind; eapply wp_get_timer; [exact Hx|]); rewrite (Hf p) in Hx, Ht2 |- * by (by left);
    cbn [expires set_expires]; rewrite Z.sub_diag; cbn [negb Z.eqb]; rewrite Z.sub_diag in Hx;
    (apply wp_bind; eapply wp_tnext; [by eapply (nxt_at _ timer_list [])|]); rewrite procs_of_cons in Hw;
    rewrite wake_all_app in Hw; unfold mbind at 1, M_bind at 1 in Hw;
    destruct (wake_all (procs_of [p]) (t_env w)) as [[[] e1]| | | |] eqn:Hw1; try done.
  - cbn [app] in *. injection Hw as ->. apply wp_bind. eapply wp_expire; [exact Hl|exact He|exact Hnd|exact Hx|exact Hw1|].
    intros h H1 H2 H3 H4. destruct r as [|q r]; cbn [map head default from_option id].
    + rewrite Z.eqb_refl, wp_ret, wp_ret. apply HQ; [done|by rewrite fired_list_cons| |done].
      intros q ->%list_elem_of_singleton. done.
    + rewrite (proj2 (Z.eqb_neq _ _)) by (apply timer_not_head; by left). rewrite wp_ret.
      destruct fuel as [|fuel]; [cbn in Hfu; lia|]. cbn [loop]. change (le2timer (pd_link q)) with (le2timer (timer_link (pd_timer q))).
      rewrite le2timer_link. destruct Ht2 as (Hq & _ & _). apply wp_bind, wp_bind. eapply wp_get_timer; [exact Hq|].
      cbn [expires set_expires]. rewrite (proj2 (Z.eqb_neq _ _)) by (pose proof (Hr q ltac:(by left)); lia). cbn [negb].
      rewrite wp_ret, wp_ret. apply HQ; [done|by rewrite fired_list_cons| |done].
      intros u ->%list_elem_of_singleton. done.
  - cbn [app] in *. apply wp_bind. eapply wp_expire; [exact Hl|exact He|exact Hnd|exact Hx|exact Hw1|].
    intros h H1 H2 H3 H4. cbn [map head default from_option id].
    rewrite (proj2 (Z.eqb_neq _ _)) by (apply timer_not_head; by left). rewrite wp_ret.
    change (le2timer (pd_link q)) with (le2timer (timer_link (pd_timer q))). rewrite le2timer_link.
    eapply (IH q (expired_by p ex) (set_tlinks h (set_tenv e1 w))); [exact H1|exact H2| |exact Ht2| |exact Hr|exact Hw| |].
    + unfold expired_by. cbn in Hnd |- *. destruct (timer_type (pd_what p)); [by apply NoDup_cons in Hnd as [_ ?]|].
      rewrite app_comm_cons, <- Permutation_middle. exact Hnd.
    + intros u Hu. apply Hf. by right.
    + cbn in Hfu. lia.
    + intros h2 K1 K2 K3 K4. cbn [t_links set_tlinks set_tenv] in K4. apply (HQ h2); [exact K1|by rewrite fired_list_cons| |].
      * intros u [->|Hu]%elem_of_cons Hk; [|by apply K3]. eapply is_list_frame; [by apply H3|exact K4|].
        intros c ->%list_elem_of_singleton. unfold expired_by. rewrite Hk. cbn in Hnd. apply NoDup_cons in Hnd as [Hn _].
        rewrite !elem_of_cons, elem_of_app. intros [Eq|[Eq|[[Eq|Eq%link_in_queue]%elem_of_cons|Eq%link_in_fired]]].
        -- by apply timer_not_head in Eq; [|left].
        -- by apply timer_not_head in Eq; [|right; right; left].
        -- apply (inj timer_link) in Eq. apply Hn. rewrite Eq. by left.
        -- apply Hn. right. apply elem_of_app. by left.
        -- apply Hn. right. apply elem_of_app. by right.
      * destruct H4 as [D1 T1], K4 as [D2 T2]. split; [congruence|]. intros u Hu. rewrite T2, T1; [done|set_solver|].
        unfold expired_by. cbn in Hu |- *. destruct (timer_type (pd_what p)); cbn; set_solver.
Qed.

(** ** The whole tick *)

Lemma wp_expire_all now f r ex e' w (Q : unit → tworld E → Prop) :
  is_list (t_links w) timer_list (map pd_link (f ++ r)) → is_list (t_links w) expired_list (map timer_link ex) → f ++ r ≠ [] →
  NoDup (map pd_timer (f ++ r) ++ ex) → timed now (f ++ r) (t_timers w) →
  (∀ q, q ∈ f → pd_due q = now + 1) → (∀ q, q ∈ r → now + 1 < pd_due q) →
  wake_all (procs_of f) (t_env w) = Ok (tt, e') →
  (∀ ts h, is_list h timer_list (map pd_link r) → is_list h expired_list (map timer_link (fired_list f ex)) → apart_links f h →
     touches (timer_list :: expired_list :: map pd_link (f ++ r) ++ map timer_link ex) (t_links w) h →
     timed (now + 1) (f ++ r) ts → (∀ u, u ∉ map pd_timer (f ++ r) → ts !! u = t_timers w !! u) →
     Q tt (set_timers ts (set_tlinks h (set_tenv e' w)))) →
  wp (expire_all (default timer_list (head (map pd_link (f ++ r))))) w Q.
Proof.
  intros Hl He Hne Hnd Ht Hf Hr Hw HQ. destruct (f ++ r) as [|p ds] eqn:Eds; [done|]. cbn [head map default from_option id].
  unfold expire_all. change (le2timer (pd_link p)) with (le2timer (timer_link (pd_timer p))). rewrite le2timer_link.
  pose proof Ht as (Hp & _ & Ht2). assert (p ∈ f ∨ p ∈ r) as Hin by (apply elem_of_app; rewrite Eds; by left).
  assert (now + 1 ≤ pd_due p) as Hdue by (destruct Hin as [Hin|Hin]; [rewrite (Hf p Hin)|specialize (Hr p Hin)]; lia).
  apply wp_bind. eapply wp_get_timer; [exact Hp|]. cbn [expires set_expires]. rewrite (proj2 (Z.ltb_lt _ _)) by lia.
  apply wp_bind. eapply wp_upd_timer; [exact Hp|]. unfold link_bound. rewrite wp_bind, wp_gets.
  set (ts := <[pd_timer p := _]> (t_timers w)). assert (timed (now + 1) (p :: ds) ts) as Hts.
  { split; [|split; [lia|]]; unfold ts.
    - rewrite lookup_insert_eq. f_equal. unfold set_expires. cbn. f_equal. lia.
    - eapply timed_same; [exact Ht2|]. intros q Hq. rewrite lookup_insert_ne; [done|]. intros Eq. cbn in Hnd.
      apply NoDup_cons in Hnd as [Hn _]. apply Hn. rewrite Eq. apply elem_of_app. left. by apply list_elem_of_fmap_2. }
  assert (∀ u, u ∉ map pd_timer (p :: ds) → ts !! u = t_timers w !! u) as Hother.
  { intros u Hu. unfold ts. rewrite lookup_insert_ne; [done|]. intros <-. apply Hu. by left. }
  destruct f as [|p' f].
  - cbn [app] in Eds. subst r. cbn [loop]. rewrite wp_bind. apply wp_bind. eapply wp_get_timer; [apply Hts|].
    cbn [expires set_expires]. rewrite (proj2 (Z.eqb_neq _ _)) by (pose proof (Hr p ltac:(by left)); lia). cbn [negb].
    rewrite wp_ret, wp_ret. cbn in Hw. injection Hw as <-.
    specialize (HQ ts (t_links w)). rewrite set_tenv_id, set_tlinks_id in HQ. apply HQ; try done.
    intros q Hq. by apply elem_of_nil in Hq.
  - cbn [app] in Eds. injection Eds as -> <-.
    eapply (wp_expire_loop (now + 1) p f r ex e' (set_timers ts w)); [exact Hl|exact He|exact Hnd|exact Hts|done|done|exact Hw| |].
    + pose proof (is_list_size _ _ _ Hl) as Hs. rewrite length_map in Hs. cbn in Hs |- *. lia.
    + intros h K1 K2 K3 K4. by apply (HQ ts h).
Qed.

(** The timers that expired go to the front of the list of function timers. *)
Lemma wp_requeue ex fs w fuel (Q : unit → tworld E → Prop) :
  is_list (t_links w) expired_list (map timer_link ex) → is_list (t_links w) timer_func_list (map timer_link fs) →
  NoDup (ex ++ fs) → (length ex < fuel)%nat →
  (∀ h, is_list h timer_func_list (map timer_link (rev ex ++ fs)) →
     touches (expired_list :: timer_func_list :: map timer_link (ex ++ fs)) (t_links w) h → Q tt (set_tlinks h w)) →
  wp (loop fuel (λ _ : unit,
    le ← on_tlinks (list_next expired_list);
    if le =? expired_list then mret (inr tt)
    else (on_tlinks (list_del le);; on_tlinks (list_add_after timer_func_list le));; mret (inl tt)) tt) w Q.
Proof.
  revert fs w fuel. induction ex as [|t ex IH]; intros fs w fuel He Hl Hnd Hf HQ; (destruct fuel as [|fuel]; [cbn in Hf; lia|]);
    cbn [loop]; (apply wp_bind, wp_bind; eapply wp_tnext; [by apply nxt_first|]); cbn [map head default from_option id].
  { rewrite Z.eqb_refl, wp_ret, wp_ret. specialize (HQ (t_links w)). rewrite set_tlinks_id in HQ. by apply HQ. }
  rewrite (proj2 (Z.eqb_neq _ _)) by (apply timer_not_head; right; right; by left).
  assert ((t ∉ ex) ∧ (t ∉ fs)) as [Hte Htf] by (cbn in Hnd; apply NoDup_cons in Hnd as [Hn _]; set_solver).
  apply wp_bind, wp_bind, wp_tlinks. eapply (wp_list_del expired_list [] (timer_link t)); [exact He|].
  intros h He1 Ht1. apply wp_tlinks. cbn [t_links set_tlinks].
  assert (is_list h timer_func_list (map timer_link fs)) as Hl1.
  { eapply fired_frame; [right; by left| |exact Hl|exact Ht1|].
    - intros [Eq|(q & Eq & _)%list_elem_of_fmap]%elem_of_cons; [done|]. symmetry in Eq; revert Eq; apply timer_not_head. right; by left.
    - intros u Hu [Eq|Eq%link_in_fired]%elem_of_cons; [by apply timer_not_head in Eq; [|right; right; left]|].
      apply NoDup_app in Hnd as (_ & Hd & _). by apply (Hd u); [right|]. }
  eapply (wp_list_add_after timer_func_list [] (map timer_link fs)); [exact Hl1| | |].
  { intros [Eq|Eq%link_in_fired]%elem_of_cons; [by apply timer_not_head in Eq; [|right; left]|done]. }
  { destruct Ht1 as [D _]. rewrite D. destruct He as [_ Hs]. eapply lseg_dom; [exact Hs|]. right. by left. }
  intros h2 Hl2 Ht2. rewrite wp_ret. eapply (IH (t :: fs)); cbn [t_links set_tlinks].
  - eapply fired_frame; [right; right; by left| |exact He1|exact Ht2|].
    + intros [Eq|[Eq|(q & Eq & _)%list_elem_of_fmap]%elem_of_cons]%elem_of_cons; [|done|];
        symmetry in Eq; revert Eq; apply timer_not_head; right; right; by left.
    + intros u Hu [Eq%(inj timer_link)|[Eq|Eq%link_in_fired]%elem_of_cons]%elem_of_cons; [by subst|by apply timer_not_head in Eq; [|right; left]|].
      apply NoDup_app in Hnd as (_ & Hd & _). by apply (Hd u); [right|].
  - exact Hl2.
  - rewrite <- Permutation_middle. exact Hnd.
  - cbn in Hf. lia.
  - intros h3 K1 K2. apply HQ.
    + cbn. by rewrite <- app_assoc.
    + destruct Ht1 as [D1 T1], Ht2 as [D2 T2], K2 as [D3 T3]. cbn [t_links set_tlinks] in *. split; [congruence|]. intros u Hu.
      rewrite T3, T2, T1; [done|..]; cbn in Hu; rewrite map_app in *; cbn; set_solver.
Qed.

Lemma wp_local_list a w (Q : unit → tworld E → Prop) :
  (∀ h, is_list h a [] → (∀ u, u ≠ a → h !! u = t_links w !! u) → Q tt (set_tlinks h w)) → wp (local_list a) w Q.
Proof.
  intros HQ. unfold local_list. rewrite wp_bind, wp_modify. apply wp_tlinks. cbn [t_links set_tlinks].
  apply wp_list_init; [apply elem_of_dom; rewrite lookup_insert_eq; by eexists|]. intros h Hl [D T]. apply (HQ h); [exact Hl|].
  intros u Hu. rewrite T by (by intros ->%list_elem_of_singleton). by rewrite lookup_insert_ne.
Qed.

Lemma wp_acquire_timer w (Q : unit → tworld E → Prop) : t_lock w = false → Q tt (set_tlock true w) → wp acquire_timer w Q.
Proof. intros Hl HQ. unfold acquire_timer. by rewrite wp_bind, wp_gets, wp_bind, wp_assert, Hl, wp_modify. Qed.
Lemma wp_release_timer w (Q : unit → tworld E → Prop) : t_lock w = true → Q tt (set_tlock false w) → wp release_timer w Q.
Proof. intros Hl HQ. unfold release_timer. by rewrite wp_bind, wp_gets, wp_bind, wp_assert, Hl, wp_modify. Qed.
Lemma wp_acquire_tfunc w (Q : unit → tworld E → Prop) : tf_lock w = false → Q tt (set_tflock true w) → wp acquire_tfunc w Q.
Proof. intros Hl HQ. unfold acquire_tfunc. by rewrite wp_bind, wp_gets, wp_bind, wp_assert, Hl, wp_modify. Qed.
Lemma wp_release_tfunc w (Q : unit → tworld E → Prop) : tf_lock w = true → Q tt (set_tflock false w) → wp release_tfunc w Q.
Proof. intros Hl HQ. unfold release_tfunc. by rewrite wp_bind, wp_gets, wp_bind, wp_assert, Hl, wp_modify. Qed.

Lemma funcs_in f t : t ∈ (funcs_of f).*1 → t ∈ map pd_timer f.
Proof.
  intros ([u x] & -> & (p & Hp & Hin)%list_elem_of_bind)%list_elem_of_fmap. destruct (timer_type (pd_what p)); [by apply elem_of_nil in Hp|].
  apply list_elem_of_singleton in Hp as [= -> ->]. cbn. by apply (list_elem_of_fmap_2 pd_timer).
Qed.

(** Cells of the lists and their heads. *)
Definition list_cells (ds : list pending) (fs : list (Z * Timer)) : list Z :=
  timer_list :: timer_func_list :: expired_list :: map pd_link ds ++ map timer_link fs.*1.

Lemma timed_zero b f ts : timed b f ts → (∀ p, p ∈ f → pd_due p = b) →
  last_due b f = b ∧ ∀ p, p ∈ f → ts !! pd_timer p = Some (set_expires 0 (pd_what p)).
Proof.
  induction f as [|q f IH]; intros Ht Hf; [split; [done|]; intros p Hp; by apply elem_of_nil in Hp|].
  destruct Ht as (H1 & _ & H2). rewrite last_due_cons. rewrite (Hf q) in H1, H2 |- * by (by left). rewrite Z.sub_diag in H1.
  destruct (IH H2) as [E1 H3]; [intros p Hp; apply Hf; by right|]. split; [done|]. intros p [->|Hp]%elem_of_cons; [done|by apply H3].
Qed.

(** What the loop of the tick leaves, from the world [w] before it. *)
Record ticked now (f r : list pending) (fs : list (Z * Timer)) w (ts : gmap Z Timer) (h : heap) : Prop := {
  ti_list : is_list h timer_list (map pd_link r);
  ti_expired : is_list h expired_list (map timer_link (fired_list f []));
  ti_func : is_list h timer_func_list (map timer_link fs.*1);
  ti_apart : apart_links f h;
  ti_timed : timed (now + 1) r ts;
  ti_zero p : p ∈ f → ts !! pd_timer p = Some (set_expires 0 (pd_what p));
  ti_timers u : u ∉ map pd_timer (f ++ r) → ts !! u = t_timers w !! u;
  ti_cells u : u ∉ list_cells (f ++ r) fs → h !! u = t_links w !! u }.

(** The second half moves the function timers. *)
Definition moved (f : list pending) (fs : list (Z * Timer)) (h h2 : heap) : Prop :=
  is_list h2 timer_func_list (map timer_link (funcs_of f ++ fs).*1) ∧
  ∀ u, u ∉ expired_list :: timer_func_list :: map timer_link (funcs_of f ++ fs).*1 → h2 !! u = h !! u.

Lemma funcs_other f p q : NoDup (map pd_timer f) → p ∈ f → q ∈ f → pd_timer p = pd_timer q → p = q.
Proof.
  intros Hnd Hp Hq Eq. apply list_elem_of_lookup in Hp as [i Hi], Hq as [j Hj].
  assert (i = j) as ->; [|congruence]. eapply NoDup_lookup; [exact Hnd| |]; rewrite list_lookup_fmap, ?Hi, ?Hj; cbn; by rewrite ?Eq.
Qed.

Lemma moved_apart now f r fs w ts h h2 : tqueue now (f ++ r) fs w → ticked now f r fs w ts h → moved f fs h h2 → apart_links f h2.
Proof.
  intros Hq Ht [_ Hm] p Hp Hk. pose proof (tqueue_nodup _ _ _ _ Hq) as Hnd. rewrite map_app in Hnd. apply NoDup_app in Hnd as (Hnd & _ & _).
  eapply is_list_same; [by apply (ti_apart _ _ _ _ _ _ _ Ht)|]. intros u ->%list_elem_of_singleton. apply Hm.
  intros [Eq|[Eq|Hin%link_in_fired]%elem_of_cons]%elem_of_cons.
  - by apply timer_not_head in Eq; [|right; right; left].
  - by apply timer_not_head in Eq; [|right; left].
  - rewrite fmap_app in Hin. apply elem_of_app in Hin as [([t x] & Eq & Hin)%list_elem_of_fmap|Hin].
    + cbn in Eq. subst t. apply list_elem_of_bind in Hin as (q & Hin & Hqf). destruct (timer_type (pd_what q)) eqn:Hk2; [by apply elem_of_nil in Hin|].
      apply list_elem_of_singleton in Hin as [= Eq ->]. rewrite (funcs_other f p q) in Hk by done. congruence.
    + apply (tq_apart _ _ _ _ Hq (pd_timer p)); [|done]. rewrite map_app. apply elem_of_app. left. by apply list_elem_of_fmap_2.
Qed.

Lemma moved_tqueue now f r fs w ts h h2 w' : tqueue now (f ++ r) fs w → ticked now f r fs w ts h → moved f fs h h2 →
  (∀ p, p ∈ r → now + 1 < pd_due p) → t_timers w' = ts → t_links w' = h2 → tqueue (now + 1) r (funcs_of f ++ fs) w'.
Proof.
  intros Hq [K1 K2 K3 K4 K5 K6 K7 _] [L1 L2] Hr <- <-. pose proof (tqueue_nodup _ _ _ _ Hq) as Hnd. destruct Hq as [H1 H2 H3 H4 H5 H6].
  rewrite map_app in Hnd. pose proof Hnd as (_ & Hd & _)%NoDup_app.
  assert (∀ t, t ∈ map pd_timer r → t ∉ (funcs_of f ++ fs).*1) as Hdis.
  { intros t Ht. rewrite fmap_app. intros [Hin%funcs_in|Hin]%elem_of_app; [by apply (Hd t)|].
    apply (H6 t); [|done]. rewrite map_app. apply elem_of_app. by right. }
  split; [|exact L1|exact K5| | |exact Hdis].
  - eapply is_list_same; [exact K1|]. intros u Hu. apply L2.
    assert (∀ a, is_head a → a ≠ timer_list → u ≠ a) as Hhd.
    { intros a Ha Hne ->. apply elem_of_cons in Hu as [?|(p & Eq & _)%list_elem_of_fmap]; [done|]. symmetry in Eq. revert Eq. by apply timer_not_head. }
    intros [->|[->|Hin]%elem_of_cons]%elem_of_cons.
    + by apply (Hhd expired_list); [right; right; left| |].
    + by apply (Hhd timer_func_list); [right; left| |].
    + apply elem_of_cons in Hu as [->|(p & -> & Hp)%list_elem_of_fmap].
      * apply list_elem_of_fmap in Hin as (t & Eq & _). symmetry in Eq. revert Eq. apply timer_not_head. by left.
      * apply link_in_fired in Hin. apply (Hdis (pd_timer p)); [|done]. by apply list_elem_of_fmap_2.
  - intros p Hp. specialize (Hr p Hp). specialize (H4 p ltac:(set_solver)). lia.
  - intros t x [Hin|Hin]%elem_of_app.
    + apply list_elem_of_bind in Hin as (p & Hin & Hp). destruct (timer_type (pd_what p)) eqn:Hk; [by apply elem_of_nil in Hin|].
      apply list_elem_of_singleton in Hin as [= -> ->]. split; [done|]. by apply K6.
    + destruct (H5 t x Hin) as [Hk Hx]. split; [done|]. rewrite K7; [done|]. intros Ht. apply (H6 t); [done|].
      by apply (list_elem_of_fmap_2 fst _ (t, x)).
Qed.

Lemma wp_tick_move now f r fs w ts h w1 (Q : unit → tworld E → Prop) :
  tqueue now (f ++ r) fs w → ticked now f r fs w ts h → t_links w1 = h → t_lock w1 = true → tf_lock w1 = false →
  (∀ h2, moved f fs h h2 → Q tt (set_tlock false (set_tflock false (set_tlinks h2 w1)))) →
  wp (release_timer;; acquire_tfunc;;
      drain expired_list (λ le, on_tlinks (list_del le);; on_tlinks (list_add_after timer_func_list le));;
      release_tfunc) w1 Q.
Proof.
  intros Hq Ht <- Hl Hfl HQ. apply wp_bind, wp_release_timer; [done|]. apply wp_bind, wp_acquire_tfunc; [done|].
  apply wp_bind. unfold drain, link_bound. rewrite wp_bind, wp_gets.
  pose proof (ti_expired _ _ _ _ _ _ _ Ht) as K2. pose proof (ti_func _ _ _ _ _ _ _ Ht) as K3. unfold fired_list in K2. rewrite app_nil_r in K2.
  eapply wp_requeue; [exact K2|exact K3| | |].
  - apply NoDup_app. split_and!.
    + destruct K2 as [[_ Hn]%NoDup_cons _]. by apply NoDup_fmap_1 in Hn.
    + intros t Hin%list_elem_of_In. rewrite <- in_rev in Hin. apply list_elem_of_In, funcs_in in Hin.
      apply (tq_apart _ _ _ _ Hq). rewrite map_app. apply elem_of_app. by left.
    + destruct K3 as [[_ Hn]%NoDup_cons _]. by apply NoDup_fmap_1 in Hn.
  - pose proof (is_list_size _ _ _ K2) as Hs. rewrite length_map in Hs. cbn. lia.
  - intros h2 L1 [_ L2]. rewrite rev_involutive, <- fmap_app in L1. apply wp_release_tfunc; [done|].
    replace (set_tflock false _) with (set_tlock false (set_tflock false (set_tlinks h2 w1))) by (destruct w1; cbn in *; by subst).
    apply HQ. split; [exact L1|]. intros u Hu. apply L2. intros Hin. apply Hu. revert Hin.
    rewrite fmap_app, !map_app, map_rev, !elem_of_cons, !elem_of_app.
    intros [?|[?|[Hin%list_elem_of_In|?]]]; auto. right; right; left. rewrite <- in_rev in Hin. by apply list_elem_of_In.
Qed.

Lemma wp_run_timer_list now f r fs w e' (Q : unit → tworld E → Prop) :
  timers_ok now (f ++ r) fs w → (∀ p, p ∈ f → pd_due p = now + 1) → (∀ p, p ∈ r → now + 1 < pd_due p) →
  wake_all (procs_of f) (t_env w) = Ok (tt, e') →
  (∀ ts h, let w' := set_timers ts (set_tlinks h (set_tenv e' w)) in timers_ok (now + 1) r (funcs_of f ++ fs) w' → apart_links f h →
     (∀ p, p ∈ f → ts !! pd_timer p = Some (set_expires 0 (pd_what p))) →
     (∀ u, u ∉ list_cells (f ++ r) fs → h !! u = t_links w !! u) →
     (∀ u, u ∉ map pd_timer (f ++ r) → ts !! u = t_timers w !! u) → Q tt w') →
  wp run_timer_list w Q.
Proof.
  intros [Hq Hl Hfl Hi] Hf Hr Hw HQ. pose proof (tqueue_nodup _ _ _ _ Hq) as Hnd. pose proof Hq as [H1 H2 H3 H4 H5 H6].
  unfold run_timer_list. rewrite wp_bind, wp_gets, Hi. cbn [negb]. apply wp_bind, wp_local_list. intros h0 He0 T0.
  apply wp_bind, wp_acquire_timer; [exact Hl|].
  assert (is_list h0 timer_list (map pd_link (f ++ r))) as Hl0.
  { eapply is_list_same; [exact H1|]. intros u [->|(p & -> & _)%list_elem_of_fmap]%elem_of_cons; apply T0; [done|].
    apply timer_not_head. right; right; by left. }
  assert (is_list h0 timer_func_list (map timer_link fs.*1)) as Hf0.
  { eapply is_list_same; [exact H2|]. intros u [->|(p & -> & _)%list_elem_of_fmap]%elem_of_cons; apply T0; [done|].
    apply timer_not_head. right; right; by left. }
  apply wp_bind. eapply wp_tnext; [by apply nxt_first|]. apply wp_bind.
  assert (∀ ts h, ticked now f r fs w ts h →
    wp (release_timer;; acquire_tfunc;;
        drain expired_list (λ le, on_tlinks (list_del le);; on_tlinks (list_add_after timer_func_list le));;
        release_tfunc) (set_timers ts (set_tlinks h (set_tenv e' (set_tlock true w)))) Q) as Hgoal.
  { intros ts h Ht. eapply wp_tick_move; [exact Hq|exact Ht|done..|]. intros h2 Hm.
    replace (set_tlock false _) with (set_timers ts (set_tlinks h2 (set_tenv e' w))) by (destruct w; cbn in *; by subst).
    apply HQ; [split; [by eapply moved_tqueue|done..]|by eapply moved_apart|apply Ht| |apply Ht]. intros u Hu.
    rewrite (proj2 Hm); [by apply (ti_cells _ _ _ _ _ _ _ Ht)|]. unfold list_cells in Hu.
    rewrite !not_elem_of_cons, not_elem_of_app in Hu. destruct Hu as (U1 & U2 & U3 & U4 & U5).
    rewrite !not_elem_of_cons. split_and!; [done..|]. rewrite fmap_app, map_app. apply not_elem_of_app. split; [|done].
    intros (t & -> & Ht2%funcs_in)%list_elem_of_fmap. apply U4. apply link_in_queue. rewrite map_app. apply elem_of_app. by left. }
  destruct (decide (f ++ r = [])) as [E0|E0].
  - apply app_eq_nil in E0 as E1. destruct E1 as [-> ->]. cbn [map head default from_option id]. rewrite Z.eqb_refl, wp_ret.
    injection Hw as <-. specialize (Hgoal (t_timers w) h0).
    replace (set_timers _ _) with (set_tlock true (set_tlinks h0 w)) in Hgoal by (by destruct w). apply Hgoal.
    split; try done; [intros p Hp; by apply elem_of_nil in Hp..|]. intros u Hu. apply T0. intros ->. apply Hu. right; right; by left.
  - destruct (f ++ r) as [|p ds] eqn:Eds; [done|]. rewrite (proj2 (Z.eqb_neq _ _)) by (apply timer_not_head; by left). rewrite <- Eds in *.
    replace (pd_link p) with (default timer_list (head (map pd_link (f ++ r)))) by (by rewrite Eds).
    eapply (wp_expire_all now f r [] e'); [exact Hl0|exact He0|done|by rewrite app_nil_r|exact H3|exact Hf|exact Hr|exact Hw|].
    intros ts h K1 K2 K3 [_ K4] K5 K6. cbn [t_links set_tlinks set_tlock map] in *. rewrite app_nil_r in K4.
    replace (set_timers _ _) with (set_timers ts (set_tlinks h (set_tenv e' (set_tlock true w)))) by (by destruct w). apply Hgoal.
    apply timed_app in K5 as [K5 K5']. assert (∀ u, u ∉ timer_list :: expired_list :: map pd_link (f ++ r) → h !! u = h0 !! u) as T1 by (intros u; apply K4).
    split; [exact K1|exact K2| |exact K3| | |exact K6|].
    + eapply is_list_same; [exact Hf0|]. intros u Hu. apply T1.
      assert (∀ a, is_head a → a ≠ timer_func_list → u ≠ a) as Hhd.
      { intros a Ha Hne ->. apply elem_of_cons in Hu as [?|(t & Eq & _)%list_elem_of_fmap]; [done|]. symmetry in Eq. revert Eq. by apply timer_not_head. }
      intros [->|[->|Hin]%elem_of_cons]%elem_of_cons; [by apply (Hhd timer_list); [left|..]|by apply (Hhd expired_list); [right; right; left|..]|].
      apply elem_of_cons in Hu as [->|(t & -> & Ht)%list_elem_of_fmap].
      * apply list_elem_of_fmap in Hin as (q & Eq & _). symmetry in Eq. revert Eq. apply timer_not_head. right; by left.
      * apply link_in_queue in Hin. by apply (H6 t).
    + destruct (timed_zero _ _ _ K5 Hf) as [E1 _]. by rewrite E1 in K5'.
    + exact (proj2 (timed_zero _ _ _ K5 Hf)).
    + intros u Hu. unfold list_cells in Hu. rewrite !not_elem_of_cons, not_elem_of_app in Hu. destruct Hu as (U1 & U2 & U3 & U4 & U5).
      rewrite T1; [by apply T0|]. rewrite !not_elem_of_cons. by split_and!.
Qed.
End tick.
