(* ===== verification/TimerSpec.v ===== *)
(** * Timers: the contract

    The timers are a queue of deadlines.  Whatever calls are made, a timer stays in it
    until the tick it is due at, or until it is deleted. *)
From S2P Require Import Prelude Errors ListH Timer TimerRep TimerTick.

(** What is asked of the rest of the kernel: waking a process that can have timers
    returns, and memory for a timer is a new one, for when there is none the assertion
    after [kmalloc] stops the kernel.  [te_step] is what the functions timers call may do
    to the rest of the kernel. *)
Class TimerEnvOk `{TE : TimerEnv E} := {
  te_ok : E → Prop;
  te_known : Z → Prop;
  teo_wake e p : te_ok e → te_known p → wp (wake p) e (λ _ e', te_ok e');
  te_step : E → E → Prop;
  teo_kmalloc (w : tworld E) : ∃ t x e, t ≠ 0 ∧ t_timers w !! t = None ∧ t_links w !! timer_link t = None ∧
    kmalloc_timer w = Ok (t, set_timers (<[t := x]> (t_timers w)) (set_tlinks (<[timer_link t := e]> (t_links w)) w)) }.
Arguments TimerEnvOk E {TE}.

(** ** The abstract state *)

(** The tick, the pending timers, the function timers that have expired, and timers in
    no list. *)
Record clock := mk_clock { k_now : Z; k_ds : list pending; k_fs : list (Z * Timer); k_ls : list (Z * Timer) }.

Definition listed (k : clock) (t : Z) : Prop := t ∈ map pd_timer (k_ds k) ∨ t ∈ (k_fs k).*1.

Section spec.
Context `{TO : TimerEnvOk E}.
Implicit Type w : tworld E.

(** A process that can be woken; a time to start again with. *)
Definition good_timer (x : Timer) : Prop :=
  match timer_type x with TIMER_PROC => te_known (target x) | TIMER_FUNC => 0 < reload x < 2 ^ 64 end.
Definition goods (ds : list pending) (fs : list (Z * Timer)) : Prop :=
  (∀ p, p ∈ ds → good_timer (pd_what p)) ∧ ∀ t x, (t, x) ∈ fs → good_timer x.

Record clock_rep (k : clock) w : Prop := {
  cr_timers : timers_ok (k_now k) (k_ds k) (k_fs k) w;
  cr_loose t x : (t, x) ∈ k_ls k → ¬ listed k t ∧ is_list (t_links w) (timer_link t) [] ∧ ∃ v, t_timers w !! t = Some (set_expires v x);
  cr_known : goods (k_ds k) (k_fs k);
  cr_env : te_ok (t_env w) }.

(** ** The calls *)

Inductive timer_op :=
  | Wait (t proc timeout : Z)        (* [ipc_timer_init] and [ipc_add_timer], the timer on the stack at [t] *)
  | Unwait (t : Z)                   (* [ipc_del_timer] *)
  | Add (func arg time flags : Z)    (* [timer_func_add] *)
  | Del (t : Z)                      (* [del_func_timer] *)
  | Tick                             (* [run_timer_list] *)
  | Exec.                            (* [exec_timer_func] *)

Definition do_timer (o : timer_op) : M (tworld E) Z :=
  match o with
  | Wait t p e => local_timer t;; '(t', _) ← ipc_timer_init p e t; ipc_add_timer t';; mret t'
  | Unwait t => ipc_del_timer t;; mret 0
  | Add f a e fl => timer_func_add f a e fl
  | Del t => del_func_timer t;; mret 0
  | Tick => run_timer_list;; mret 0
  | Exec => exec_timer_func;; mret 0
  end.

Definition in_state (k : clock) (t : Z) (ty : Timer_type) : Prop :=
  (∃ p, p ∈ k_ds k ∧ pd_timer p = t ∧ timer_type (pd_what p) = ty) ∨ (∃ x, (t, x) ∈ k_fs k ∧ timer_type x = ty) ∨
  ∃ x, (t, x) ∈ k_ls k ∧ timer_type x = ty.

(** How the kernel calls them, [exec_timer_func] apart. *)
Definition may_op (k : clock) (o : timer_op) : Prop :=
  match o with
  | Wait t p e => t ≠ 0 ∧ ¬ listed k t ∧ te_known p ∧ 0 < e < 2 ^ 64
  | Unwait t => t ≠ 0 ∧ in_state k t TIMER_PROC
  | Add f a e fl => 0 < e < 2 ^ 64
  | Del t => in_state k t TIMER_FUNC ∧ ¬ in_state k t TIMER_PROC
  | Tick | Exec => True
  end.

Definition without (t : Z) (xs : list (Z * Timer)) : list (Z * Timer) := filter (λ p, p.1 ≠ t) xs.
Definition undue (t : Z) (ds : list pending) : list pending := filter (λ p, pd_timer p ≠ t) ds.

Definition loose_of (ds : list pending) : list (Z * Timer) :=
  ds ≫= (λ p, match timer_type (pd_what p) with TIMER_PROC => [(pd_timer p, pd_what p)] | TIMER_FUNC => [] end).

(** Where the function timers go when they have been called. *)
Definition periodic (x : Timer) : bool := negb (Z.land (t_flags x) TIMER_RELOAD =? 0).
Fixpoint rearmed (now : Z) (xs : list (Z * Timer)) (ds : list pending) : list pending :=
  match xs with
  | [] => ds
  | (t, x) :: xs' => rearmed now xs' (if periodic x then enqueue (mk_pd t (now + reload x) x) ds else ds)
  end.
Fixpoint once_of (xs ls : list (Z * Timer)) : list (Z * Timer) :=
  match xs with [] => ls | (t, x) :: xs' => once_of xs' (if periodic x then ls else (t, x) :: ls) end.

(** What each call makes of the state; a tick wakes processes in the rest of the kernel. *)
Inductive op_step : clock → E → timer_op → Z → clock → E → Prop :=
  | step_wait now ds fs ls e t p time x : timer_type x = TIMER_PROC → target x = p →
      op_step (mk_clock now ds fs ls) e (Wait t p time) t
        (mk_clock now (enqueue (mk_pd t (now + time) x) ds) fs (without t ls)) e
  | step_unwait now ds fs ls e t x : (t, x) ∈ ls ∨ (∃ p, p ∈ ds ∧ pd_timer p = t ∧ pd_what p = x) →
      op_step (mk_clock now ds fs ls) e (Unwait t) 0 (mk_clock now (undue t ds) fs ((t, x) :: without t ls)) e
  | step_add now ds fs ls e f a time fl t : t ∉ map pd_timer ds → t ∉ fs.*1 → t ∉ ls.*1 →
      op_step (mk_clock now ds fs ls) e (Add f a time fl) t
        (mk_clock now (enqueue (mk_pd t (now + time) (mk_timer TIMER_FUNC time f a time fl)) ds) fs ls) e
  | step_del now ds fs ls e t :
      op_step (mk_clock now ds fs ls) e (Del t) 0 (mk_clock now (undue t ds) (without t fs) (without t ls)) e
  | step_tick now f r fs ls e e' : (∀ p, p ∈ f → pd_due p = now + 1) → (∀ p, p ∈ r → now + 1 < pd_due p) →
      wake_all (procs_of f) e = Ok (tt, e') →
      op_step (mk_clock now (f ++ r) fs ls) e Tick 0 (mk_clock (now + 1) r (funcs_of f ++ fs) (loose_of f ++ ls)) e'.

(** What a function that is called does: [k_fs] are the timers whose functions are being
    called. *)
Inductive cb_run : callback E → clock → E → clock → E → Prop :=
  | run_done k e : cb_run CB_done k e k e
  | run_env c g k e a e1 k2 e2 : c e = Ok (a, e1) → te_step e e1 → cb_run (g a) k e1 k2 e2 → cb_run (CB_env c g) k e k2 e2
  | run_add f a time fl g k e t k1 k2 e2 : op_step k e (Add f a time fl) t k1 e → cb_run (g t) k1 e k2 e2 →
      cb_run (CB_add f a time fl g) k e k2 e2
  | run_del t g k e k1 k2 e2 : op_step k e (Del t) 0 k1 e → cb_run g k1 e k2 e2 → cb_run (CB_del t g) k e k2 e2.

(** When it may be called. *)
Fixpoint cb_may (cb : callback E) (k : clock) (e : E) : Prop :=
  match cb with
  | CB_done => True
  | CB_env c g => wp c e (λ a e', te_ok e' ∧ te_step e e' ∧ cb_may (g a) k e')
  | CB_add f a time fl g => may_op k (Add f a time fl) ∧ ∀ t k', op_step k e (Add f a time fl) t k' e → cb_may (g t) k' e
  | CB_del t g => may_op k (Del t) ∧ ∀ k', op_step k e (Del t) 0 k' e → cb_may g k' e
  end.

(** One after the other, whatever becomes of the timers meanwhile. *)
Definition code_of (x : Timer) : callback E := te_code (target x) (t_arg x).
Fixpoint calls (xs : list Timer) (k : clock) (e : E) (k' : clock) (e' : E) : Prop :=
  match xs with
  | [] => k' = k ∧ e' = e
  | x :: xs' => ∃ k1 e1, cb_run (code_of x) k e k1 e1 ∧ calls xs' k1 e1 k' e'
  end.
Fixpoint calls_may (xs : list Timer) (k : clock) (e : E) : Prop :=
  match xs with
  | [] => True
  | x :: xs' => cb_may (code_of x) k e ∧ ∀ k1 e1, cb_run (code_of x) k e k1 e1 → calls_may xs' k1 e1
  end.

(** All the calls. *)
Definition after_calls (k : clock) : clock :=
  mk_clock (k_now k) (rearmed (k_now k) (k_fs k) (k_ds k)) [] (once_of (k_fs k) (k_ls k)).
Inductive clock_step : clock → E → timer_op → Z → clock → E → Prop :=
  | step_op k e o r k' e' : op_step k e o r k' e' → clock_step k e o r k' e'
  | step_exec k e k' e' : calls (k_fs k).*2 k e k' e' → clock_step k e Exec 0 (after_calls k') e'.

Definition may_timer (k : clock) (e : E) (o : timer_op) : Prop :=
  match o with Exec => calls_may (k_fs k).*2 k e | _ => may_op k o end.

(** ** Each call *)

Definition loose_timer (k : clock) w (t : Z) (x : Timer) : Prop :=
  ¬ listed k t ∧ is_list (t_links w) (timer_link t) [] ∧ ∃ v, t_timers w !! t = Some (set_expires v x).

Lemma loose_same k w k' w' t x : loose_timer k w t x → ¬ listed k' t → t_links w' !! timer_link t = t_links w !! timer_link t →
  t_timers w' !! t = t_timers w !! t → loose_timer k' w' t x.
Proof.
  intros (_ & Hl & v & Hx) Hn El Et. split; [done|]. split; [|by exists v; rewrite Et].
  eapply is_list_same; [exact Hl|]. by intros u ->%list_elem_of_singleton.
Qed.

Lemma not_listed_link k t : ¬ listed k t → timer_link t ∉ timer_list :: timer_func_list :: expired_list :: map pd_link (k_ds k) ++ map timer_link (k_fs k).*1.
Proof.
  intros Hn. rewrite !not_elem_of_cons, not_elem_of_app.
  split_and!; [apply timer_not_head; by left|apply timer_not_head; right; by left|apply timer_not_head; right; right; by left| |].
  - intros Hin%link_in_queue. apply Hn. by left.
  - intros Hin%link_in_fired. apply Hn. by right.
Qed.

Lemma enqueue_in p q ds : q ∈ enqueue p ds ↔ q = p ∨ q ∈ ds.
Proof.
  induction ds as [|r ds IH]; cbn; [rewrite list_elem_of_singleton; split; [by left|by intros [?|?%elem_of_nil]]|].
  case_match; rewrite !elem_of_cons, ?IH; tauto.
Qed.

Lemma enqueue_timers p t ds : t ∈ map pd_timer (enqueue p ds) ↔ t = pd_timer p ∨ t ∈ map pd_timer ds.
Proof.
  split.
  - intros (q & -> & [->|Hq]%enqueue_in)%list_elem_of_fmap; [by left|right]. by apply list_elem_of_fmap_2.
  - intros [->|(q & -> & Hq)%list_elem_of_fmap]; apply list_elem_of_fmap_2, enqueue_in; auto.
Qed.

(** A new timer with its link is nothing the lists know. *)
Lemma tqueue_fresh now ds fs w ts h : tqueue now ds fs w → (∀ u, u ∈ map pd_timer ds ∨ u ∈ fs.*1 → ts !! u = t_timers w !! u) →
  (∀ a, a ∈ timer_list :: timer_func_list :: map pd_link ds ++ map timer_link fs.*1 → h !! a = t_links w !! a) →
  tqueue now ds fs (set_timers ts (set_tlinks h w)).
Proof.
  intros [H1 H2 H3 H4 H5 H6] Ht Hh. split; cbn; [| | |exact H4| |exact H6].
  - eapply is_list_same; [exact H1|]. intros u Hu. apply Hh. set_solver.
  - eapply is_list_same; [exact H2|]. intros u Hu. apply Hh. set_solver.
  - eapply timed_same; [exact H3|]. intros p Hp. apply Ht. left. by apply list_elem_of_fmap_2.
  - intros t x Hin. destruct (H5 t x Hin) as [Hk Hx]. split; [done|]. rewrite Ht; [done|]. right. by apply (list_elem_of_fmap_2 fst _ (t, x)).
Qed.

(** [add_timer] under the lock, on a timer that is in no list. *)
Lemma wp_add_locked k w t x e (Q : unit → tworld E → Prop) :
  tqueue (k_now k) (k_ds k) (k_fs k) w → t_lock w = true → tf_lock w = false → t_init w = true → te_ok (t_env w) →
  (∀ u y, (u, y) ∈ k_ls k → loose_timer k w u y) → t ∉ (k_ls k).*1 →
  goods (k_ds k) (k_fs k) → good_timer x →
  ¬ listed k t → t_timers w !! t = Some (set_expires e x) → is_list (t_links w) (timer_link t) [] → 0 < e < 2 ^ 64 →
  (∀ w', clock_rep (mk_clock (k_now k) (enqueue (mk_pd t (k_now k + e) x) (k_ds k)) (k_fs k) (k_ls k)) w' → t_env w' = t_env w → Q tt w') →
  wp (add_timer t;; release_timer) w Q.
Proof.
  intros Hq Hl Hfl Hi Hok Hlo Hnl Hkn Hkx Hn Hx Hal He HQ. assert ((t ∉ map pd_timer (k_ds k)) ∧ (t ∉ (k_fs k).*1)) as [Hn1 Hn2].
  { split; intros ?; apply Hn; [by left|by right]. }
  apply wp_bind. eapply wp_add_timer; [exact Hq|exact Hx|exact He|exact Hn1|exact Hn2|exact Hal|]. intros ts h w' Hq' [_ Ht] Hts.
  apply wp_release_timer; [done|]. apply HQ; [|done]. split; cbn.
  - split; [by eapply tqueue_ext|done..].
  - intros u y Hu. pose proof (Hlo u y Hu) as (Hnu & _). assert (u ≠ t) as Hut.
    { intros ->. apply Hnl. by apply (list_elem_of_fmap_2 fst _ (t, y)). }
    eapply (loose_same k w (mk_clock _ _ _ _) (set_tlock false w') u y); [by apply Hlo| | |].
    + intros [[->|Hin]%enqueue_timers|Hin]; [done|apply Hnu; by left|apply Hnu; by right].
    + apply Ht. pose proof (not_listed_link k u Hnu) as Hc. rewrite !not_elem_of_cons, not_elem_of_app in Hc.
      rewrite !not_elem_of_cons. split_and!; [by intros ?%(inj timer_link)|tauto..].
    + apply Hts; [done|]. intros Hin. apply Hnu. by left.
  - split; [|apply Hkn]. intros p [->|Hp]%enqueue_in; [exact Hkx|by apply Hkn].
  - done.
Qed.

Lemma without_in t u x xs : (u, x) ∈ without t xs ↔ u ≠ t ∧ (u, x) ∈ xs.
Proof. unfold without. by rewrite list_elem_of_filter. Qed.

(** A timer made anew where none is listed, under the lock. *)
Definition fresh_world w (t : Z) (x : Timer) (h : heap) : tworld E := set_timers (<[t := x]> (t_timers w)) (set_tlinks h (set_tlock true w)).

Lemma fresh_timer k w t x h : clock_rep k w → ¬ listed k t → is_list h (timer_link t) [] →
  (∀ u, u ≠ timer_link t → h !! u = t_links w !! u) →
  let w1 := fresh_world w t x h in
  tqueue (k_now k) (k_ds k) (k_fs k) w1 ∧ ∀ u y, (u, y) ∈ without t (k_ls k) → loose_timer k w1 u y.
Proof.
  intros [[Hq Hl Hfl Hi] Hlo Hkn Hok] Hn Hal Hh w1. split.
  - eapply tqueue_ext; [eapply (tqueue_fresh _ _ _ w (<[t := x]> (t_timers w)) h Hq)|done..].
    + intros u Hu. rewrite lookup_insert_ne; [done|]. by intros <-.
    + intros a Ha. apply Hh. intros ->. pose proof (not_listed_link k t Hn) as Hc. set_solver.
  - intros u y [Hne Hu]%without_in. eapply (loose_same k w k w1); [by apply Hlo|exact (proj1 (Hlo u y Hu))| |].
    + cbn. apply Hh. by intros ?%(inj timer_link).
    + cbn. by rewrite lookup_insert_ne.
Qed.

Lemma without_none t xs : t ∉ (without t xs).*1.
Proof. intros ([u x] & -> & [Hne _]%without_in)%list_elem_of_fmap. done. Qed.

Lemma wait_run k w t p e : clock_rep k w → may_op k (Wait t p e) →
  wp (do_timer (Wait t p e)) w (λ r w', ∃ k', op_step k (t_env w) (Wait t p e) r k' (t_env w') ∧ clock_rep k' w').
Proof.
  intros Hr (Ht & Hn & Hkp & He). cbn [do_timer]. unfold local_timer. rewrite wp_bind, wp_bind, wp_modify, wp_modify.
  unfold ipc_timer_init. rewrite (proj2 (Z.eqb_neq e 0)) by lia. rewrite wp_bind, wp_bind, wp_gets. apply wp_bind.
  unfold timer_proc_init. apply wp_bind. eapply wp_upd_timer; [apply lookup_insert_eq|]. cbn [t_timers set_tlinks set_timers t_arg reload t_flags].
  rewrite insert_insert_eq. apply wp_tlinks. cbn [t_links set_timers set_tlinks].
  apply wp_list_init; [apply elem_of_dom; rewrite lookup_insert_eq; by eexists|]. intros h Hal [_ Hh]. rewrite wp_ret.
  unfold ipc_add_timer. rewrite (proj2 (Z.eqb_neq t 0)) by done. apply wp_bind, wp_bind, wp_acquire_timer; [apply Hr|].
  set (x := mk_timer TIMER_PROC e p 0 0 0).
  match goal with |- wp _ ?w1 _ => replace w1 with (fresh_world w t x h) by (by destruct w) end.
  destruct (fresh_timer k w t x h Hr Hn Hal) as [Hq Hlo].
  { intros u Hu. rewrite Hh by (by intros ->%list_elem_of_singleton). by rewrite lookup_insert_ne. }
  apply (wp_add_locked (mk_clock (k_now k) (k_ds k) (k_fs k) (without t (k_ls k))) (fresh_world w t x h) t x e); try done.
  - apply Hr.
  - apply Hr.
  - apply Hr.
  - apply without_none.
  - apply Hr.
  - apply lookup_insert_eq.
  - intros w' Hr' Ee. rewrite wp_ret. eexists. split; [|exact Hr']. rewrite Ee. destruct k. by apply step_wait.
Qed.

Lemma add_run k w f a e fl : clock_rep k w → may_op k (Add f a e fl) →
  wp (do_timer (Add f a e fl)) w (λ r w', ∃ k', op_step k (t_env w) (Add f a e fl) r k' (t_env w') ∧ clock_rep k' w').
Proof.
  intros Hr He. cbn in He. cbn [do_timer]. unfold timer_func_add. rewrite (proj2 (Z.eqb_neq e 0)) by lia. apply wp_bind.
  destruct (teo_kmalloc w) as (t & x0 & e0 & Ht & U1 & U2 & Hk). eapply wp_of_run; [exact Hk|].
  rewrite wp_bind, wp_assert, (proj2 (Z.eqb_neq _ _) Ht). split; [done|]. apply wp_bind, wp_acquire_timer; [apply Hr|].
  assert (¬ listed k t) as Hn.
  { pose proof (cr_timers _ _ Hr) as [Hq _ _ _]. intros [(p & -> & Hp)%list_elem_of_fmap|([u y] & -> & Hu)%list_elem_of_fmap].
    - apply list_elem_of_split in Hp as (d1 & d2 & Ed). pose proof (tq_timed _ _ _ _ Hq) as Hti. rewrite Ed in Hti.
      apply timed_app in Hti as (_ & Hx & _). congruence.
    - destruct (tq_fired _ _ _ _ Hq u y Hu) as [_ Hx]. cbn in *. congruence. }
  assert (t ∉ (k_ls k).*1) as Hnl.
  { intros ([u y] & -> & Hu)%list_elem_of_fmap. destruct (cr_loose _ _ Hr u y Hu) as (_ & _ & v & Hv). cbn in *. congruence. }
  unfold timer_func_init. apply wp_bind, wp_bind. eapply wp_upd_timer; [apply lookup_insert_eq|]. cbn [t_timers set_tlinks set_timers set_tlock].
  rewrite insert_insert_eq. apply wp_tlinks. cbn [t_links set_timers set_tlinks set_tlock].
  apply wp_list_init; [apply elem_of_dom; rewrite lookup_insert_eq; by eexists|]. intros h Hal [_ Hh].
  set (x := mk_timer TIMER_FUNC e f a e fl).
  match goal with |- wp _ ?w1 _ => replace w1 with (fresh_world w t x h) by (by destruct w) end.
  destruct (fresh_timer k w t x h Hr Hn Hal) as [Hq Hlo].
  { intros u Hu. rewrite Hh by (by intros ->%list_elem_of_singleton). by rewrite lookup_insert_ne. }
  enough (wp (add_timer t;; release_timer) (fresh_world w t x h) (λ _ w', wp (mret t) w' (λ r w', ∃ k', op_step k (t_env w) (Add f a e fl) r k' (t_env w') ∧ clock_rep k' w'))) as Hgoal.
  { apply wp_bind. rewrite wp_bind in Hgoal. eapply wp_conseq; [exact Hgoal|]. intros [] w1 H1. by apply wp_bind. }
  apply (wp_add_locked (mk_clock (k_now k) (k_ds k) (k_fs k) (k_ls k)) (fresh_world w t x h) t x e); try done.
  - apply Hr.
  - apply Hr.
  - apply Hr.
  - intros u y Hu. apply Hlo, without_in. split; [|done]. intros ->. apply Hnl. by apply (list_elem_of_fmap_2 fst _ (t, y)).
  - apply Hr.
  - apply lookup_insert_eq.
  - intros w' Hr' Ee. rewrite wp_ret. eexists. split; [|exact Hr']. rewrite Ee. destruct k. apply step_add; [..|done]; intros ?; apply Hn; [by left|by right].
Qed.

(** ** Taking a timer out *)

Lemma filter_all {A} (P : A → Prop) `{!∀ x, Decision (P x)} (l : list A) : (∀ x, x ∈ l → P x) → filter P l = l.
Proof.
  induction l as [|x l IH]; intros Hl; [done|]. rewrite filter_cons_True by (apply Hl; by left). f_equal. apply IH. intros y Hy. apply Hl. by right.
Qed.

Lemma filter_one {A} (P : A → Prop) `{!∀ x, Decision (P x)} (l1 : list A) a l2 : (∀ x, x ∈ l1 ++ l2 → P x) → ¬ P a → filter P (l1 ++ a :: l2) = l1 ++ l2.
Proof.
  intros Hl Ha. rewrite filter_app, filter_cons_False by done. rewrite !filter_all; [done|..]; intros x Hx; apply Hl; set_solver.
Qed.

Lemma undue_none t ds : t ∉ map pd_timer ds → undue t ds = ds.
Proof. intros Hn. apply filter_all. intros p Hp <-. by apply Hn, list_elem_of_fmap_2. Qed.
Lemma without_id t (xs : list (Z * Timer)) : t ∉ xs.*1 → without t xs = xs.
Proof. intros Hn. apply filter_all. intros [u x] Hp <-. apply Hn. by apply (list_elem_of_fmap_2 fst _ (u, x)). Qed.

Lemma undue_split d1 p d2 : NoDup (map pd_timer (d1 ++ p :: d2)) → undue (pd_timer p) (d1 ++ p :: d2) = d1 ++ d2.
Proof.
  intros Hnd. rewrite map_app in Hnd. cbn in Hnd. rewrite <- Permutation_middle in Hnd. apply NoDup_cons in Hnd as [Hn _].
  apply filter_one; [|by intros Hx]. intros q Hq Eq. apply Hn. rewrite <- map_app, <- Eq. by apply list_elem_of_fmap_2.
Qed.

Lemma without_split f1 t x f2 : NoDup (f1 ++ (t, x) :: f2).*1 → without t (f1 ++ (t, x) :: f2) = f1 ++ f2.
Proof.
  intros Hnd. rewrite fmap_app in Hnd. cbn in Hnd. rewrite <- Permutation_middle in Hnd. apply NoDup_cons in Hnd as [Hn _].
  apply filter_one; [|by intros Hx]. intros [u y] Hq Eq. cbn in Eq. apply Hn. rewrite <- fmap_app, <- Eq. by apply (list_elem_of_fmap_2 fst _ (u, y)).
Qed.

(** Where the timer is before. *)
Definition comes_from (k : clock) (t : Z) (x : Timer) : Prop :=
  (t, x) ∈ k_ls k ∨ (∃ p, p ∈ k_ds k ∧ pd_timer p = t ∧ pd_what p = x) ∨ (t, x) ∈ k_fs k.

Lemma in_state_comes k t ty : in_state k t ty → ∃ x, comes_from k t x ∧ timer_type x = ty.
Proof. unfold comes_from. intros [(p & ? & ? & ?)|[(x & ? & ?)|(x & ? & ?)]]; [exists (pd_what p)|exists x..]; eauto 10. Qed.

Lemma wp_del_any k w t x (Q : unit → tworld E → Prop) :
  tqueue (k_now k) (k_ds k) (k_fs k) w → (∀ u y, (u, y) ∈ k_ls k → loose_timer k w u y) → comes_from k t x →
  (∀ ts h, let w' := set_timers ts (set_tlinks h w) in tqueue (k_now k) (undue t (k_ds k)) (without t (k_fs k)) w' →
     is_list h (timer_link t) [] → (∃ v, ts !! t = Some (set_expires v x)) →
     (∀ u, ¬ listed k u → u ≠ t → h !! timer_link u = t_links w !! timer_link u ∧ ts !! u = t_timers w !! u) → Q tt w') →
  wp (del_timer t) w Q.
Proof.
  intros Hq Hlo Hx HQ. pose proof (tqueue_nodup _ _ _ _ Hq) as Hnd. pose proof (tq_apart _ _ _ _ Hq) as Hap.
  destruct Hx as [Hx|[(p & Hp & <- & <-)|Hx]].
  - destruct (Hlo t x Hx) as (Hn & Hal & Hv). eapply wp_del_loose; [exact Hal|].
    specialize (HQ (t_timers w) (t_links w)). rewrite set_tlinks_id, set_timers_id, undue_none, without_id in HQ.
    + by apply HQ.
    + intros ?. apply Hn. by right.
    + intros ?. apply Hn. by left.
  - assert (pd_timer p ∉ (k_fs k).*1) as Hnf by (apply Hap; by apply list_elem_of_fmap_2).
    rewrite without_id in HQ by done. apply list_elem_of_split in Hp as (d1 & d2 & Ed). rewrite Ed in Hq, Hnd, HQ.
    rewrite undue_split in HQ by done. eapply wp_del_pending; [exact Hq|]. intros ts h w' Hq' Hal [_ Ht] Hts.
    assert (pd_timer p ∉ map pd_timer d2) as Hn2.
    { rewrite map_app in Hnd. apply NoDup_app in Hnd as (_ & _ & [Hn _]%NoDup_cons). done. }
    apply HQ; [exact Hq'|exact Hal| |].
    + pose proof (tq_timed _ _ _ _ Hq) as (_ & Hx & _)%timed_app. eexists. rewrite Hts by done. exact Hx.
    + intros u Hu _. unfold listed in Hu. rewrite Ed in Hu. split.
      * apply Ht. rewrite not_elem_of_cons. split; [apply timer_not_head; by left|]. intros Hin%link_in_queue. apply Hu. by left.
      * apply Hts. intros Hin. apply Hu. left. rewrite map_app. set_solver.
  - assert (t ∈ (k_fs k).*1) as Hin by (by apply (list_elem_of_fmap_2 fst _ (t, x))).
    rewrite undue_none in HQ by (intros ?; by apply (Hap t)). pose proof (tq_func _ _ _ _ Hq) as [[_ Hnf]%NoDup_cons _].
    apply NoDup_fmap_1 in Hnf. apply list_elem_of_split in Hx as (f1 & f2 & Ef). rewrite Ef in Hq, Hnf, HQ.
    rewrite without_split in HQ by done. eapply wp_del_fired; [exact Hq|]. intros h w' Hq' Hal [_ Ht].
    specialize (HQ (t_timers w) h). apply HQ.
    + by eapply tqueue_ext.
    + exact Hal.
    + destruct (tq_fired _ _ _ _ Hq t x ltac:(set_solver)) as [_ Hx]. by exists 0.
    + intros u Hu _. split; [|done]. apply Ht. unfold listed in Hu. rewrite Ef in Hu. rewrite not_elem_of_cons.
      split; [apply timer_not_head; right; by left|]. intros Hin2%link_in_fired. apply Hu. by right.
Qed.
(** The state with the timer out of the lists. *)
Definition taken (k : clock) (t : Z) : clock := mk_clock (k_now k) (undue t (k_ds k)) (without t (k_fs k)) (without t (k_ls k)).

Lemma undue_in t p ds : p ∈ undue t ds ↔ pd_timer p ≠ t ∧ p ∈ ds.
Proof. unfold undue. by rewrite list_elem_of_filter. Qed.

Lemma taken_not_listed k t : ¬ listed (taken k t) t.
Proof.
  intros [(p & -> & [Hne _]%undue_in)%list_elem_of_fmap|([u x] & -> & [Hne _]%without_in)%list_elem_of_fmap]; by apply Hne.
Qed.

Lemma taken_listed k t u : listed (taken k t) u → listed k u.
Proof.
  intros [(p & -> & [_ Hp]%undue_in)%list_elem_of_fmap|([v x] & -> & [_ Hp]%without_in)%list_elem_of_fmap]; [left|right].
  - by apply list_elem_of_fmap_2.
  - by apply (list_elem_of_fmap_2 fst _ (v, x)).
Qed.

(** [del_timer] between taking the locks and releasing them. *)
Lemma wp_del_locked k w w0 t x (Q : unit → tworld E → Prop) :
  clock_rep k w0 → t_timers w = t_timers w0 → t_links w = t_links w0 → comes_from k t x →
  (∀ ts h, let w' := set_timers ts (set_tlinks h w) in let k' := taken k t in
     tqueue (k_now k') (k_ds k') (k_fs k') w' → loose_timer k' w' t x → (∀ u y, (u, y) ∈ k_ls k' → loose_timer k' w' u y) →
     goods (k_ds k') (k_fs k') → Q tt w') →
  wp (del_timer t) w Q.
Proof.
  intros [[Hq _ _ _] Hlo Hkn _] Et El Hx HQ.
  eapply (wp_del_any k w t x); [by eapply tqueue_ext|intros u y Hu; destruct (Hlo u y Hu) as (A1 & A2 & A3); split; rewrite ?Et, ?El; auto|exact Hx|].
  intros ts h w' Hq' Hal Hv Hsame. apply HQ; [exact Hq'|split; [apply taken_not_listed|by split]| |].
  - intros u y [Hne Hu]%without_in. pose proof (Hlo u y Hu) as Hl. destruct (Hsame u (proj1 Hl) Hne) as [S1 S2]. rewrite El in S1. rewrite Et in S2.
    eapply (loose_same k w0); [exact Hl| |exact S1|exact S2]. intros ?%taken_listed. by apply (proj1 Hl).
  - split; [intros p [_ Hp]%undue_in; by apply Hkn|]. intros u y [_ Hu]%without_in. by eapply (proj2 Hkn).
Qed.

Lemma unwait_run k w t : clock_rep k w → may_op k (Unwait t) →
  wp (do_timer (Unwait t)) w (λ r w', ∃ k', op_step k (t_env w) (Unwait t) r k' (t_env w') ∧ clock_rep k' w').
Proof.
  intros Hr [Ht Hin]. apply in_state_comes in Hin as (x & Hx & Hk). cbn [do_timer]. unfold ipc_del_timer.
  rewrite (proj2 (Z.eqb_neq t 0)) by done. apply wp_bind, wp_bind, wp_acquire_timer; [apply Hr|]. apply wp_bind.
  assert ((t ∉ (k_fs k).*1) ∧ ((t, x) ∈ k_ls k ∨ ∃ p, p ∈ k_ds k ∧ pd_timer p = t ∧ pd_what p = x)) as [Hnf Hx'].
  { pose proof (tk_queue _ _ _ _ (cr_timers _ _ Hr)) as Hq. destruct Hx as [Hx|[(p & Hp & <- & <-)|Hx]].
    - split; [|by left]. intros Hf. apply (proj1 (cr_loose _ _ Hr t x Hx)). by right.
    - split; [|right; by exists p]. apply (tq_apart _ _ _ _ Hq). by apply list_elem_of_fmap_2.
    - destruct (tq_fired _ _ _ _ Hq t x Hx). congruence. }
  eapply (wp_del_locked k _ w t x); [exact Hr|done..|]. intros ts h w' k' Hq' Hlt Hlo Hkn.
  apply wp_release_timer; [done|]. rewrite wp_ret.
  exists (mk_clock (k_now k) (undue t (k_ds k)) (k_fs k) ((t, x) :: without t (k_ls k))). split.
  - destruct k. by apply step_unwait with (x := x).
  - assert (k_fs k' = k_fs k) as E1 by (by apply without_id).
    split; cbn; [split; [rewrite <- E1; by eapply tqueue_ext|done|apply Hr|apply Hr]| |rewrite <- E1; exact Hkn|apply Hr].
    intros u y Hu. assert (loose_timer k' w' u y) as (A1 & A2 & A3) by (apply elem_of_cons in Hu as [[= -> ->]|Hu]; [exact Hlt|by apply Hlo]).
    split; [|by split]. unfold listed in *. by rewrite E1 in A1.
Qed.

(** The memory of a timer in no list is given back. *)
Lemma kfree_run k w t : tqueue (k_now k) (k_ds k) (k_fs k) w → ¬ listed k t → t ∉ (k_ls k).*1 →
  (∀ u y, (u, y) ∈ k_ls k → loose_timer k w u y) →
  let w' := set_tlinks (delete (timer_link t) (t_links w)) (set_timers (delete t (t_timers w)) w) in
  tqueue (k_now k) (k_ds k) (k_fs k) w' ∧ ∀ u y, (u, y) ∈ k_ls k → loose_timer k w' u y.
Proof.
  intros Hq Hn Hnl Hlo w'. split.
  - eapply tqueue_ext; [eapply (tqueue_fresh _ _ _ w (delete t (t_timers w)) (delete (timer_link t) (t_links w)) Hq)|done..].
    + intros u Hu. rewrite lookup_delete_ne; [done|]. by intros <-.
    + intros a Ha. rewrite lookup_delete_ne; [done|]. intros <-. pose proof (not_listed_link k t Hn) as Hc. set_solver.
  - intros u y Hu. assert (t ≠ u) as Hne by (intros ->; apply Hnl; by apply (list_elem_of_fmap_2 fst _ (u, y))).
    eapply (loose_same k w k w'); [by apply Hlo|exact (proj1 (Hlo u y Hu))| |]; cbn; rewrite lookup_delete_ne; try done.
    by intros ?%(inj timer_link).
Qed.

Lemma del_run k w t : clock_rep k w → may_op k (Del t) →
  wp (do_timer (Del t)) w (λ r w', ∃ k', op_step k (t_env w) (Del t) r k' (t_env w') ∧ clock_rep k' w').
Proof.
  intros Hr [Hin _]. apply in_state_comes in Hin as (x & Hx & Hk). cbn [do_timer]. unfold del_func_timer.
  apply wp_bind, wp_bind, wp_acquire_timer; [apply Hr|]. apply wp_bind, wp_acquire_tfunc; [apply Hr|]. apply wp_bind.
  eapply (wp_del_locked k _ w t x); [exact Hr|done..|]. intros ts h w' k' Hq' (Hnl & Hal & v & Hv) Hlo Hkn.
  apply wp_bind, wp_release_tfunc; [done|]. apply wp_bind, wp_release_timer; [done|]. apply wp_bind. eapply wp_get_timer; [exact Hv|].
  cbn [timer_type set_expires]. rewrite wp_bind, wp_assert, bool_decide_true by done. split; [done|]. unfold kfree_timer.
  apply wp_bind. eapply wp_get_timer; [exact Hv|]. rewrite wp_bind, wp_modify, wp_modify, wp_ret. exists k'. split.
  - destruct k as [now ds fs ls]. apply step_del.
  - destruct (kfree_run k' w' t Hq' Hnl (without_none t _) Hlo) as [K1 K2].
    split; [split; [by eapply tqueue_ext|done..|apply Hr]| |exact Hkn|apply Hr]. intros u y Hu.
    destruct (K2 u y Hu) as (A1 & A2 & A3). by split.
Qed.

(** ** The tick *)

Lemma due_sorted base ds ts : timed base ds ts → (∀ p, p ∈ ds → base < pd_due p) →
  ∃ f r, ds = f ++ r ∧ (∀ p, p ∈ f → pd_due p = base + 1) ∧ ∀ p, p ∈ r → base + 1 < pd_due p.
Proof.
  intros Ht Hd. assert (∀ b ds, timed b ds ts → ∃ f r, ds = f ++ r ∧ (∀ p, p ∈ f → pd_due p ≤ base + 1) ∧ ∀ p, p ∈ r → base + 1 < pd_due p) as H.
  { clear. intros b ds. revert b. induction ds as [|p ds IH]; intros b Ht; [by exists [], []; split_and!; try intros ? ?%elem_of_nil|].
    pose proof Ht as (_ & _ & Ht2). destruct (decide (pd_due p ≤ base + 1)) as [Hp|Hp].
    - destruct (IH _ Ht2) as (f & r & -> & Hf & Hr). exists (p :: f), r. split_and!; [done| |done]. by intros q [->|Hq]%elem_of_cons; [|apply Hf].
    - exists [], (p :: ds). split_and!; [done|by intros ? ?%elem_of_nil|]. intros q [->|Hq]%elem_of_cons; [lia|].
      pose proof (timed_le _ _ _ _ Ht2 Hq). lia. }
  destruct (H _ _ Ht) as (f & r & -> & Hf & Hr). exists f, r. split_and!; [done| |done]. intros p Hp.
  specialize (Hf p Hp). specialize (Hd p ltac:(set_solver)). lia.
Qed.

Lemma wp_wake_all ps : ∀ e, te_ok e → (∀ p, p ∈ ps → te_known p) → wp (wake_all ps) e (λ _ e', te_ok e').
Proof.
  induction ps as [|p ps IH]; intros e He Hp; [by apply wp_ret|]. cbn. apply wp_bind.
  eapply wp_conseq; [apply teo_wake; [done|]|]; [apply Hp; by left|]. intros [] e1 H1. apply IH; [done|]. intros q Hq. apply Hp. by right.
Qed.

Lemma procs_in f p : p ∈ procs_of f → ∃ q, q ∈ f ∧ timer_type (pd_what q) = TIMER_PROC ∧ target (pd_what q) = p.
Proof.
  intros (q & Hp & Hq)%list_elem_of_bind. exists q. destruct (timer_type (pd_what q)); [|by apply elem_of_nil in Hp].
  by apply list_elem_of_singleton in Hp as ->.
Qed.

Lemma loose_in f t x : (t, x) ∈ loose_of f → ∃ p, p ∈ f ∧ pd_timer p = t ∧ pd_what p = x ∧ timer_type x = TIMER_PROC.
Proof.
  intros (q & Hp & Hq)%list_elem_of_bind. destruct (timer_type (pd_what q)) eqn:Hk; [|by apply elem_of_nil in Hp].
  apply list_elem_of_singleton in Hp as [= -> ->]. by exists q.
Qed.

Lemma tick_goods f r fs : goods (f ++ r) fs → goods r (funcs_of f ++ fs).
Proof.
  intros [H1 H2]. split; [intros p Hp; apply H1; set_solver|]. intros t x [Hx|Hx]%elem_of_app; [|by eapply H2].
  apply list_elem_of_bind in Hx as (p & Hx & Hp). specialize (H1 p ltac:(set_solver)).
  destruct (timer_type (pd_what p)) eqn:Hk; [by apply elem_of_nil in Hx|]. by apply list_elem_of_singleton in Hx as [= -> ->].
Qed.

Lemma apart_loose k w f r fs x t w' : clock_rep k w → k_ds k = f ++ r → k_fs k = fs → (t, x) ∈ loose_of f →
  apart_links f (t_links w') → (∀ u, u ∈ f → t_timers w' !! pd_timer u = Some (set_expires 0 (pd_what u))) →
  let k' := mk_clock (k_now k + 1) r (funcs_of f ++ fs) (loose_of f ++ k_ls k) in loose_timer k' w' t x.
Proof.
  intros [[Hq _ _ _] _ _ _] Ed Ef Hx Ha Hz k'. apply loose_in in Hx as (p & Hp & <- & <- & Hk). rewrite Ed, Ef in Hq.
  pose proof (tqueue_nodup _ _ _ _ Hq) as Hnd. rewrite map_app in Hnd. apply NoDup_app in Hnd as (Hnd & Hd & _).
  split; [|split; [by apply Ha|]].
  - cbn. intros [Hin|Hin]; cbn in Hin.
    + by apply (Hd (pd_timer p)); [apply list_elem_of_fmap_2|].
    + rewrite fmap_app in Hin. apply elem_of_app in Hin as [Hin|Hin].
      * apply list_elem_of_fmap in Hin as ([u y] & Eu & (q & Hy & Hqf)%list_elem_of_bind). cbn in Eu.
        destruct (timer_type (pd_what q)) eqn:Hkq; [by apply elem_of_nil in Hy|]. apply list_elem_of_singleton in Hy as [= -> ->].
        rewrite (funcs_other f p q) in Hk by done. congruence.
      * apply (tq_apart _ _ _ _ Hq (pd_timer p)); [|done]. rewrite map_app. apply elem_of_app. left. by apply list_elem_of_fmap_2.
  - exists 0. by apply Hz.
Qed.

Lemma tick_run k w : clock_rep k w →
  wp (do_timer Tick) w (λ r w', ∃ k', op_step k (t_env w) Tick r k' (t_env w') ∧ clock_rep k' w').
Proof.
  intros Hr. pose proof Hr as [[Hq Hl Hfl Hi] Hlo Hkn Hok]. destruct k as [now ds fs ls]. cbn in *.
  destruct (due_sorted _ _ _ (tq_timed _ _ _ _ Hq)) as (f & r & -> & Hf & Hrd).
  { intros p Hp. by destruct (tq_due _ _ _ _ Hq p Hp). }
  assert (wp (wake_all (procs_of f)) (t_env w) (λ _ e', te_ok e')) as (e' & Hw & Hok')%wp_unit.
  { apply wp_wake_all; [exact Hok|]. intros p (q & Hqf & Hk & <-)%procs_in. pose proof (proj1 Hkn q ltac:(set_solver)) as Hg.
    unfold good_timer in Hg. by rewrite Hk in Hg. }
  apply wp_bind. eapply (wp_run_timer_list now f r fs w e'); [by split|exact Hf|exact Hrd|exact Hw|].
  intros ts h w' Hok2 Ha Hz Hcells Hts. rewrite wp_ret. eexists. split; [by apply step_tick|].
  split; cbn; [exact Hok2| | |exact Hok'].
  - intros t x [Hx|Hx]%elem_of_app; [exact (apart_loose _ w f r fs x t w' Hr eq_refl eq_refl Hx Ha Hz)|].
    pose proof (Hlo t x Hx) as Hl0. apply (loose_same (mk_clock now (f ++ r) fs ls) w (mk_clock (now + 1) r (funcs_of f ++ fs) (loose_of f ++ ls)) w' t x); [exact Hl0| | |].
    + intros [Hin|Hin]; cbn in Hin; apply Hl0; [left; cbn; rewrite map_app; set_solver|].
      rewrite fmap_app in Hin. apply elem_of_app in Hin as [Hin%funcs_in|Hin]; [left; cbn; rewrite map_app; set_solver|by right].
    + apply Hcells, (not_listed_link (mk_clock now (f ++ r) fs ls)), Hl0.
    + apply Hts. intros Hin. apply Hl0. by left.
  - by apply tick_goods.
Qed.
End spec.
