(* ===== verification/TimerExec.v ===== *)
(** * Function timers that have expired: [exec_timer_func] *)
From S2P Require Import Prelude Errors ListH Timer TimerRep TimerTick TimerSpec.

(** ** Rings that are not touched *)

Ltac head_tac := unfold is_head; rewrite !elem_of_cons; tauto.

Lemma pd_links ds : map pd_link ds = map timer_link (map pd_timer ds).
Proof. by rewrite map_map. Qed.

Lemma link_apart hd t vs u : is_head hd → u ≠ t → u ∉ vs → timer_link u ∉ timer_link t :: hd :: map timer_link vs.
Proof.
  intros Hh Ht Hv. rewrite !not_elem_of_cons. split_and!; [by intros ?%(inj timer_link)|by apply timer_not_head|].
  by intros ?%link_in_fired.
Qed.

Lemma head_apart hd t vs a : is_head a → a ≠ hd → a ∉ timer_link t :: hd :: map timer_link vs.
Proof.
  intros Ha Hne. rewrite !not_elem_of_cons. split_and!; [by apply not_eq_sym, timer_not_head|done|].
  intros (u & Eu & _)%list_elem_of_fmap. symmetry in Eu. revert Eu. by apply timer_not_head.
Qed.

Lemma ring_kept a us h h' hd t vs : is_list h a (map timer_link us) → touches (timer_link t :: hd :: map timer_link vs) h h' →
  is_head a → is_head hd → a ≠ hd → t ∉ us → (∀ u, u ∈ us → u ∉ vs) → is_list h' a (map timer_link us).
Proof.
  intros Hl Ht Ha Hh Hne Hn Hv. eapply is_list_frame; [exact Hl|exact Ht|]. intros u [->|(v & -> & Hin)%list_elem_of_fmap]%elem_of_cons.
  - by apply head_apart.
  - apply link_apart; [done|by intros ->|by apply Hv].
Qed.

Lemma lone_kept u h h' hd t vs : is_list h (timer_link u) [] → touches (timer_link t :: hd :: map timer_link vs) h h' →
  is_head hd → u ≠ t → u ∉ vs → is_list h' (timer_link u) [].
Proof. intros Hl Ht Hh Hne Hv. eapply is_list_frame; [exact Hl|exact Ht|]. intros a ->%list_elem_of_singleton. by apply link_apart. Qed.

Lemma touches_cons e cells h h' : touches cells h h' → touches (e :: cells) h h'.
Proof. intros [D T]. split; [done|]. intros u Hu. apply T. set_solver. Qed.

Section exec.
Context `{TO : TimerEnvOk E}.
Implicit Type w : tworld E.

(** ** The state while the calls are made *)

(** [ys] are the timers taken from the list, [cs] the copies still to call. *)
Definition names (ds : list pending) (fs ys cs : list (Z * Timer)) : list Z := map pd_timer ds ++ fs.*1 ++ ys.*1 ++ cs.*1.

Record batch (now : Z) (ds : list pending) (fs ys cs ls : list (Z * Timer)) w : Prop := {
  bt_queue : tqueue now ds fs w;
  bt_done : is_list (t_links w) done_list (map timer_link ys.*1);
  bt_do : is_list (t_links w) do_func_timer_list (map timer_link cs.*1);
  bt_ys : holds_fired ys (t_timers w);
  bt_cs : holds_fired cs (t_timers w);
  bt_apart : NoDup (names ds fs ys cs);
  bt_loose t x : (t, x) ∈ ls → (t ∉ names ds fs ys cs) ∧ is_list (t_links w) (timer_link t) [] ∧ ∃ v, t_timers w !! t = Some (set_expires v x) }.

Lemma names_not u ds fs ys cs : u ∉ names ds fs ys cs ↔ (u ∉ map pd_timer ds) ∧ (u ∉ fs.*1) ∧ (u ∉ ys.*1) ∧ u ∉ cs.*1.
Proof. unfold names. by rewrite !not_elem_of_app. Qed.

Lemma names_apart ds fs ys cs : NoDup (names ds fs ys cs) →
  (∀ u, u ∈ map pd_timer ds → (u ∉ fs.*1) ∧ (u ∉ ys.*1) ∧ u ∉ cs.*1) ∧
  (∀ u, u ∈ fs.*1 → (u ∉ ys.*1) ∧ u ∉ cs.*1) ∧ ∀ u, u ∈ ys.*1 → u ∉ cs.*1.
Proof.
  intros (_ & D1 & (_ & D2 & (_ & D3 & _)%NoDup_app)%NoDup_app)%NoDup_app. split_and!; [| |exact D3]; intros u Hu.
  - specialize (D1 u Hu). by rewrite !not_elem_of_app in D1.
  - specialize (D2 u Hu). by rewrite not_elem_of_app in D2.
Qed.

Lemma in_fst (t : Z) (x : Timer) (xs : list (Z * Timer)) : (t, x) ∈ xs → t ∈ xs.*1.
Proof. intros H. by apply (list_elem_of_fmap_2 fst _ (t, x)). Qed.

Lemma batch_has now ds fs ys cs ls w t : batch now ds fs ys cs ls w → t ∈ names ds fs ys cs ∨ t ∈ ls.*1 → is_Some (t_timers w !! t).
Proof.
  intros [Hq _ _ Hy Hc _ Hlo] [Hin|([u x] & -> & Hu)%list_elem_of_fmap].
  - unfold names in Hin. rewrite !elem_of_app in Hin. destruct Hin as [(p & -> & Hp)%list_elem_of_fmap|[([u x] & -> & Hu)%list_elem_of_fmap|[([u x] & -> & Hu)%list_elem_of_fmap|([u x] & -> & Hu)%list_elem_of_fmap]]].
    + apply list_elem_of_split in Hp as (d1 & d2 & ->). pose proof (tq_timed _ _ _ _ Hq) as (_ & Hx & _)%timed_app. by eexists.
    + destruct (tq_fired _ _ _ _ Hq u x Hu). by eexists.
    + destruct (Hy u x Hu). by eexists.
    + destruct (Hc u x Hu). by eexists.
  - destruct (Hlo u x Hu) as (_ & _ & v & Hv). by eexists.
Qed.

(** What happens at a name that is not in it. *)
Lemma batch_other now ds fs ys cs ls w c ts h : batch now ds fs ys cs ls w → c ∉ names ds fs ys cs → c ∉ ls.*1 →
  (∀ u, u ≠ c → ts !! u = t_timers w !! u) → (∀ a, a ≠ timer_link c → h !! a = t_links w !! a) →
  batch now ds fs ys cs ls (set_timers ts (set_tlinks h w)).
Proof.
  intros [Hq Hd Hdo Hy Hc Ha Hlo] Hn Hnl Ht Hh. unfold names in Hn. rewrite !not_elem_of_app in Hn. destruct Hn as (N1 & N2 & N3 & N4).
  assert (∀ a us, is_head a → c ∉ us → is_list (t_links w) a (map timer_link us) → is_list h a (map timer_link us)) as Hring.
  { intros a us Hhd Hc' Hl. eapply is_list_same; [exact Hl|]. intros u [->|(v & -> & Hv)%list_elem_of_fmap]%elem_of_cons; apply Hh.
    - by apply not_eq_sym, timer_not_head.
    - intros ->%(inj timer_link). done. }
  assert (∀ xs, c ∉ xs.*1 → holds_fired xs (t_timers w) → holds_fired xs ts) as Hfired.
  { intros xs Hc' Hx t x Hin. destruct (Hx t x Hin) as [Hk Htx]. split; [done|]. rewrite Ht; [done|]. intros ->. by apply Hc', (in_fst c x). }
  split; cbn; [|apply Hring; [head_tac|done|exact Hd]|apply Hring; [head_tac|done|exact Hdo]|by apply Hfired|by apply Hfired|exact Ha|].
  - eapply tqueue_fresh; [exact Hq| |].
    + intros u Hu. apply Ht. intros ->. by destruct Hu.
    + intros a Hin. apply Hh. intros ->. rewrite !elem_of_cons, elem_of_app in Hin. destruct Hin as [Hin|[Hin|[Hin|Hin]]].
      * by apply timer_not_head in Hin; [|left].
      * by apply timer_not_head in Hin; [|right; left].
      * by apply link_in_queue in Hin.
      * by apply link_in_fired in Hin.
  - intros t x Hx. destruct (Hlo t x Hx) as (H1 & H2 & v & H3). split; [exact H1|]. assert (t ≠ c) as Hne by (intros ->; by apply Hnl, (in_fst c x)).
    split; [|exists v; by rewrite Ht]. eapply is_list_same; [exact H2|]. intros a ->%list_elem_of_singleton. apply Hh. by intros ?%(inj timer_link).
Qed.

(** ** Collecting the timers *)

Lemma wp_collect_timer now ds t x fs ys cs ls w (Q : unit → tworld E → Prop) :
  batch now ds ((t, x) :: fs) ys cs ls w →
  (∀ h, batch now ds fs (ys ++ [(t, x)]) cs ls (set_tlinks h w) → Q tt (set_tlinks h w)) →
  wp (on_tlinks (list_del_init (timer_link t));; on_tlinks (list_add done_list (timer_link t))) w Q.
Proof.
  intros [Hq Hd Hdo Hy Hc Ha Hlo] HQ. pose proof Ha as Ha'. unfold names in Ha'. change (((t, x) :: fs).*1) with (t :: fs.*1) in Ha'. cbn [app] in Ha'.
  rewrite <- Permutation_middle in Ha'. apply NoDup_cons in Ha' as [(N1 & N2 & N3 & N4)%names_not (D1 & D2 & D3)%names_apart].
  destruct Hq as [H1 H2 H3 H4 H5 H6]. rewrite pd_links in H1.
  apply wp_bind, wp_tlinks. eapply (wp_list_del_init timer_func_list [] (timer_link t)); [exact H2|]. intros h1 K1 K2 K3.
  change (touches (timer_link t :: timer_func_list :: map timer_link fs.*1) (t_links w) h1) in K3.
  assert (∀ a us, is_head a → a ≠ timer_func_list → t ∉ us → (∀ u, u ∈ us → u ∉ fs.*1) →
    is_list (t_links w) a (map timer_link us) → is_list h1 a (map timer_link us)) as Hk1.
  { intros a us A1 A2 A3 A4 A5. eapply ring_kept; [exact A5|exact K3|done|head_tac|done..]. }
  assert (is_list h1 done_list (map timer_link ys.*1)) as Hd1.
  { apply Hk1; [head_tac|done|done| |exact Hd]. intros u Hu Hu2. by destruct (D2 u Hu2). }
  apply wp_tlinks. cbn [t_links set_tlinks]. unfold list_add. eapply wp_list_add_before; [exact Hd1| | |].
  { rewrite not_elem_of_cons. split; [apply timer_not_head; head_tac|]. by intros ?%link_in_fired. }
  { destruct K2 as [_ K2]. eapply lseg_dom; [exact K2|by left]. }
  intros h2 L1 L2.
  assert (∀ a us, is_head a → a ≠ done_list → t ∉ us → (∀ u, u ∈ us → u ∉ ys.*1) →
    is_list h1 a (map timer_link us) → is_list h2 a (map timer_link us)) as Hk2.
  { intros a us A1 A2 A3 A4 A5. eapply ring_kept; [exact A5|exact L2|done|head_tac|done..]. }
  assert (names ds fs (ys ++ [(t, x)]) cs ≡ₚ names ds ((t, x) :: fs) ys cs) as Hperm.
  { unfold names. rewrite fmap_app. change ([(t, x)].*1) with [t]. change (((t, x) :: fs).*1) with (t :: fs.*1). solve_Permutation. }
  apply (HQ h2). split; cbn.
  - split; cbn; [rewrite pd_links| |exact H3|exact H4| |].
    + apply Hk2; [head_tac|done|done| |apply Hk1; [head_tac|done|done| |exact H1]]; intros u Hu; apply (D1 u Hu).
    + apply Hk2; [head_tac|done|done| |exact K1]. intros u Hu. apply (D2 u Hu).
    + intros u y Hu. apply H5. by right.
    + intros u Hu Hu2. apply (H6 u Hu). by right.
  - rewrite fmap_app, map_app. exact L1.
  - apply Hk2; [head_tac|done|done| |apply Hk1; [head_tac|done|done| |exact Hdo]]; intros u Hu Hu2.
    + by apply (D3 u).
    + by destruct (D2 u Hu2).
  - intros u y [Hu| [= -> ->]%list_elem_of_singleton]%elem_of_app; [by apply Hy|]. apply H5. by left.
  - exact Hc.
  - by rewrite Hperm.
  - intros u y Hu. destruct (Hlo u y Hu) as (B1 & B2 & B3). split; [by rewrite Hperm|]. split; [|exact B3].
    apply names_not in B1 as (_ & B1 & B4 & _). apply not_elem_of_cons in B1 as [Hne B1].
    by eapply lone_kept; [eapply lone_kept; [exact B2|exact K3|head_tac|..]|exact L2|head_tac|..].
Qed.
(** A copy of the last one, and its place behind the others. *)
Lemma wp_copy_timer now ds t x fs ys cs ls w (Q : unit → tworld E → Prop) :
  batch now ds fs (ys ++ [(t, x)]) cs ls w →
  (∀ c ts h, let w' := set_timers ts (set_tlinks h w) in batch now ds fs (ys ++ [(t, x)]) (cs ++ [(c, x)]) ls w' → Q tt w') →
  wp (c ← kmalloc_timer; assert_ (negb (c =? 0));; copy_timer c t;; on_tlinks (list_add do_func_timer_list (timer_link c))) w Q.
Proof.
  intros Hb HQ. destruct (teo_kmalloc w) as (c & x0 & e0 & Hc & U1 & U2 & Hk). apply wp_bind. eapply wp_of_run; [exact Hk|].
  rewrite wp_bind, wp_assert, (proj2 (Z.eqb_neq _ _) Hc). split; [done|].
  assert ((c ∉ names ds fs (ys ++ [(t, x)]) cs) ∧ (c ∉ ls.*1)) as [Hn Hnl].
  { split; intros Hin; destruct (batch_has _ _ _ _ _ _ _ c Hb) as [y Hy]; [by left|congruence|by right|congruence]. }
  destruct (bt_ys _ _ _ _ _ _ _ Hb t x) as [Hkx Hx]; [apply elem_of_app; right; by left|]. assert (t ≠ c) as Htc by congruence.
  unfold copy_timer. apply wp_bind, wp_bind. eapply wp_get_timer; [cbn; rewrite lookup_insert_ne by done; exact Hx|].
  apply wp_bind. eapply wp_upd_timer; [apply lookup_insert_eq|]. rewrite wp_bind, wp_gets. cbn [t_timers t_links set_timers set_tlinks].
  assert (is_Some (t_links w !! timer_link t)) as [e1 He1].
  { pose proof (bt_done _ _ _ _ _ _ _ Hb) as [_ Hl]. apply elem_of_dom. eapply lseg_dom; [exact Hl|].
    rewrite fmap_app, map_app, elem_of_cons, !elem_of_app. right. left. right. by left. }
  rewrite lookup_insert_ne by (intros ?%(inj timer_link); congruence). rewrite He1. rewrite wp_bind, wp_of_option. exists e1. split; [done|].
  rewrite wp_modify. cbn [t_timers t_links set_timers set_tlinks]. rewrite !insert_insert_eq.
  match goal with |- wp _ ?w1 _ => replace w1 with (set_timers (<[c := set_expires 0 x]> (t_timers w)) (set_tlinks (<[timer_link c := e1]> (t_links w)) w)) by (by destruct w) end.
  apply wp_tlinks. cbn [t_links set_tlinks set_timers].
  pose proof (batch_other _ _ _ _ _ _ w c (<[c := set_expires 0 x]> (t_timers w)) (<[timer_link c := e1]> (t_links w)) Hb Hn Hnl) as Hb1.
  ospecialize* Hb1; [intros u Hu; by rewrite lookup_insert_ne|intros a Ha; by rewrite lookup_insert_ne|].
  destruct Hb1 as [Hq Hd Hdo Hy Hcs Ha Hlo]. cbn [t_links t_timers set_tlinks set_timers] in *.
  unfold list_add. eapply wp_list_add_before; [exact Hdo| | |].
  { rewrite not_elem_of_cons. split; [apply timer_not_head; head_tac|]. intros ?%link_in_fired. apply names_not in Hn. by apply Hn. }
  { rewrite elem_of_dom, lookup_insert_eq. by eexists. }
  intros h L1 L2. specialize (HQ c (<[c := set_expires 0 x]> (t_timers w)) h). apply HQ. clear HQ.
  pose proof Hn as (N1 & N2 & N3 & N4)%names_not. pose proof Ha as (D1 & D2 & D3)%names_apart.
  assert (∀ a us, is_head a → a ≠ do_func_timer_list → c ∉ us → (∀ u, u ∈ us → u ∉ cs.*1) →
    is_list (<[timer_link c := e1]> (t_links w)) a (map timer_link us) → is_list h a (map timer_link us)) as Hk2.
  { intros a us A1 A2 A3 A4 A5. eapply ring_kept; [exact A5|exact L2|done|head_tac|done..]. }
  assert (names ds fs (ys ++ [(t, x)]) (cs ++ [(c, x)]) ≡ₚ c :: names ds fs (ys ++ [(t, x)]) cs) as Hperm.
  { unfold names. rewrite (fmap_app _ cs). change ([(c, x)].*1) with [c]. solve_Permutation. }
  split; cbn [t_links t_timers set_tlinks set_timers].
  - destruct Hq as [H1 H2 H3 H4 H5 H6]. split; [| |exact H3|exact H4|exact H5|exact H6]; cbn [t_links t_timers set_tlinks set_timers] in *.
    + rewrite pd_links in *. apply Hk2; [head_tac|done|done| |exact H1]. intros u Hu. apply (D1 u Hu).
    + apply Hk2; [head_tac|done|done| |exact H2]. intros u Hu. apply (D2 u Hu).
  - apply Hk2; [head_tac|done|done| |exact Hd]. exact D3.
  - rewrite fmap_app, map_app. exact L1.
  - exact Hy.
  - intros u y [Hu| [= -> ->]%list_elem_of_singleton]%elem_of_app; [by apply Hcs|]. split; [done|]. apply lookup_insert_eq.
  - rewrite Hperm. by apply NoDup_cons.
  - intros u y Hu. destruct (Hlo u y Hu) as (B1 & B2 & B3). assert (u ≠ c) as Hne by (intros ->; by apply Hnl, (in_fst c y)).
    split; [rewrite Hperm, not_elem_of_cons; done|]. split; [|exact B3].
    eapply lone_kept; [exact B2|exact L2|head_tac|done|]. apply names_not in B1. apply B1.
Qed.

Lemma wp_take_timer now ds t x fs ys cs ls w (Q : unit → tworld E → Prop) :
  batch now ds ((t, x) :: fs) ys cs ls w →
  (∀ c ts h, let w' := set_timers ts (set_tlinks h w) in batch now ds fs (ys ++ [(t, x)]) (cs ++ [(c, x)]) ls w' → Q tt w') →
  wp (on_tlinks (list_del_init (timer_link t));; on_tlinks (list_add done_list (timer_link t));;
      c ← kmalloc_timer; assert_ (negb (c =? 0));; copy_timer c t;; on_tlinks (list_add do_func_timer_list (timer_link c))) w Q.
Proof.
  intros Hb HQ. enough (wp (on_tlinks (list_del_init (timer_link t));; on_tlinks (list_add done_list (timer_link t))) w (λ _ w1,
    wp (c ← kmalloc_timer; assert_ (negb (c =? 0));; copy_timer c t;; on_tlinks (list_add do_func_timer_list (timer_link c))) w1 Q)) as Hgoal.
  { rewrite wp_bind in Hgoal. apply wp_bind. eapply wp_conseq; [exact Hgoal|]. intros [] w1 H1. by apply wp_bind. }
  eapply wp_collect_timer; [exact Hb|]. intros h Hb1. eapply wp_copy_timer; [exact Hb1|]. intros c ts h2 w' Hb2.
  specialize (HQ c ts h2). replace (set_timers ts (set_tlinks h2 w)) with w' in HQ by (by destruct w). by apply HQ.
Qed.

(** ** Starting again *)

Lemma wp_uncollect now ds y1 t x y2 fs cs ls w (Q : unit → tworld E → Prop) :
  batch now ds fs (y1 ++ (t, x) :: y2) cs ls w →
  (∀ h, batch now ds fs (y1 ++ y2) cs ((t, x) :: ls) (set_tlinks h w) → t ∉ names ds fs (y1 ++ y2) cs → t ∉ ls.*1 →
     is_list h (timer_link t) [] → Q tt (set_tlinks h w)) →
  wp (on_tlinks (list_del_init (timer_link t))) w Q.
Proof.
  intros [Hq Hd Hdo Hy Hc Ha Hlo] HQ.
  assert (names ds fs (y1 ++ (t, x) :: y2) cs ≡ₚ t :: names ds fs (y1 ++ y2) cs) as Hperm.
  { unfold names. rewrite !fmap_app. change (((t, x) :: y2).*1) with (t :: y2.*1). solve_Permutation. }
  rewrite Hperm in Ha. apply NoDup_cons in Ha as [Hn Ha].
  pose proof Hn as (N1 & N2 & N3 & N4)%names_not. pose proof Ha as (D1 & D2 & D3)%names_apart.
  rewrite fmap_app, map_app in Hd.
  apply wp_tlinks. eapply (wp_list_del_init done_list (map timer_link y1.*1) (timer_link t)); [exact Hd|]. intros h L1 L0 L2.
  rewrite <- map_app in L2. change (touches (timer_link t :: done_list :: map timer_link (y1.*1 ++ y2.*1)) (t_links w) h) in L2.
  rewrite <- fmap_app in L2. change (map timer_link ((t, x) :: y2).*1) with (timer_link t :: map timer_link y2.*1) in Hd.
  assert (∀ a us, is_head a → a ≠ done_list → t ∉ us → (∀ u, u ∈ us → u ∉ (y1 ++ y2).*1) →
    is_list (t_links w) a (map timer_link us) → is_list h a (map timer_link us)) as Hk2.
  { intros a us A1 A2 A3 A4 A5. eapply ring_kept; [exact A5|exact L2|done|head_tac|done..]. }
  apply HQ; [|exact Hn| |exact L0].
  - split; cbn [t_links t_timers set_tlinks].
    + destruct Hq as [H1 H2 H3 H4 H5 H6]. split; [| |exact H3|exact H4|exact H5|exact H6]; cbn [t_links t_timers set_tlinks] in *.
      * rewrite pd_links in *. apply Hk2; [head_tac|done|done| |exact H1]. intros u Hu. apply (D1 u Hu).
      * apply Hk2; [head_tac|done|done| |exact H2]. intros u Hu. apply (D2 u Hu).
    + rewrite fmap_app, map_app. exact L1.
    + apply Hk2; [head_tac|done|done| |exact Hdo]. intros u Hu Hu2. by apply (D3 u).
    + intros u y Hu. apply Hy. apply elem_of_app in Hu as [Hu|Hu]; apply elem_of_app; [by left|right; by right].
    + exact Hc.
    + exact Ha.
    + intros u y [[= -> ->]|Hu]%elem_of_cons.
      * split; [exact Hn|]. split; [exact L0|]. exists 0. apply Hy. apply elem_of_app. right. by left.
      * destruct (Hlo u y Hu) as (B1 & B2 & B3). rewrite Hperm, not_elem_of_cons in B1. destruct B1 as [B0 B1].
        split; [exact B1|]. split; [|exact B3]. eapply lone_kept; [exact B2|exact L2|head_tac|done|]. apply names_not in B1. apply B1.
  - intros ([u y] & -> & Hu)%list_elem_of_fmap. destruct (Hlo u y Hu) as (B1 & _). rewrite Hperm, not_elem_of_cons in B1. destruct B1 as [B1 _]. by apply B1.
Qed.

Lemma batch_less now ds fs ys cs p ls w : batch now ds fs ys cs (p :: ls) w → batch now ds fs ys cs ls w.
Proof. intros [H1 H2 H3 H4 H5 H6 H7]. split; [done..|]. intros t x Hx. apply H7. by right. Qed.

Lemma wp_batch_add now ds t x e ys cs ls w (Q : unit → tworld E → Prop) :
  batch now ds [] ys cs ls w → t ∉ names ds [] ys cs → t ∉ ls.*1 → is_list (t_links w) (timer_link t) [] →
  t_timers w !! t = Some (set_expires e x) → 0 < e < 2 ^ 64 →
  (∀ ts h, let w' := set_timers ts (set_tlinks h w) in batch now (enqueue (mk_pd t (now + e) x) ds) [] ys cs ls w' → Q tt w') →
  wp (add_timer t) w Q.
Proof.
  intros Hb1 Hn Hnl Hal Hx Hre HQ. pose proof Hn as (N1 & N2 & N3 & N4)%names_not.
  eapply (wp_add_timer now ds []); [apply Hb1|exact Hx|exact Hre|exact N1|exact N2|exact Hal|].
  intros ts h w' Hq' L2 Hts. rewrite pd_links in L2. apply (HQ ts h). clear HQ.
  destruct Hb1 as [_ Hd Hdo Hy Hc Ha Hlo]. pose proof Ha as (D1 & D2 & D3)%names_apart.
  assert (∀ a us, is_head a → a ≠ timer_list → t ∉ us → (∀ u, u ∈ us → u ∉ map pd_timer ds) →
    is_list (t_links w) a (map timer_link us) → is_list h a (map timer_link us)) as Hk2.
  { intros a us A1 A2 A3 A4 A5. eapply ring_kept; [exact A5|exact L2|done|head_tac|done..]. }
  destruct (enqueue_split (mk_pd t (now + e) x) ds) as (d1 & d2 & Ed & Ee).
  assert (names (enqueue (mk_pd t (now + e) x) ds) [] ys cs ≡ₚ t :: names ds [] ys cs) as Hperm.
  { unfold names. rewrite Ee, Ed, !map_app. cbn [map pd_timer]. solve_Permutation. }
  assert (∀ u, u ∈ map pd_timer ds → (u ∉ ys.*1) ∧ u ∉ cs.*1) as Hdy by (intros u Hu; apply (D1 u Hu)).
  assert (∀ xs, t ∉ xs.*1 → (∀ u, u ∈ map pd_timer ds → u ∉ xs.*1) → holds_fired xs (t_timers w) → holds_fired xs ts) as Hfired.
  { intros xs Hnx Hdx Hxs u y Hu. destruct (Hxs u y Hu) as [Hk Huy]. split; [done|]. apply in_fst in Hu.
    rewrite Hts; [done|by intros ->|]. intros Hin. by apply (Hdx u). }
  split; cbn [t_links t_timers set_timers set_tlinks w'].
  - exact Hq'.
  - apply Hk2; [head_tac|done|done| |exact Hd]. intros u Hu Hu2. by destruct (Hdy u Hu2).
  - apply Hk2; [head_tac|done|done| |exact Hdo]. intros u Hu Hu2. by destruct (Hdy u Hu2).
  - apply Hfired; [done| |exact Hy]. intros u Hu. apply (Hdy u Hu).
  - apply Hfired; [done| |exact Hc]. intros u Hu. apply (Hdy u Hu).
  - rewrite Hperm. by apply NoDup_cons.
  - intros u y Hu. destruct (Hlo u y Hu) as (B1 & B2 & v & B3). assert (u ≠ t) as Hne by (intros ->; by apply Hnl, (in_fst t y)).
    split; [rewrite Hperm, not_elem_of_cons; done|]. apply names_not in B1 as (B1 & _). split.
    + by eapply lone_kept; [exact B2|exact L2|head_tac|done|].
    + exists v. by rewrite Hts.
Qed.

Lemma wp_rearm now ds t x ys cs ls w (Q : unit → tworld E → Prop) :
  batch now ds [] ys cs ls w → t ∉ names ds [] ys cs → t ∉ ls.*1 → is_list (t_links w) (timer_link t) [] →
  t_timers w !! t = Some (set_expires 0 x) → 0 < reload x < 2 ^ 64 →
  (∀ ts h, let w' := set_timers ts (set_tlinks h w) in batch now (enqueue (mk_pd t (now + reload x) x) ds) [] ys cs ls w' → Q tt w') →
  wp (upd_timer t (λ x, set_expires (reload x) x);; add_timer t) w Q.
Proof.
  intros Hb Hn Hnl Hal Hx Hre HQ. apply wp_bind. eapply wp_upd_timer; [exact Hx|].
  change (set_expires (reload (set_expires 0 x)) (set_expires 0 x)) with (set_expires (reload x) x).
  pose proof (batch_other _ _ _ _ _ _ w t (<[t := set_expires (reload x) x]> (t_timers w)) (t_links w) Hb Hn Hnl) as Hb1.
  ospecialize* Hb1; [intros u Hu; by rewrite lookup_insert_ne|done|]. rewrite set_tlinks_id in Hb1.
  eapply wp_batch_add; [exact Hb1|exact Hn|exact Hnl|exact Hal|apply lookup_insert_eq|exact Hre|].
  intros ts h w' Hb2. exact (HQ ts h Hb2).
Qed.

(** ** Deleting one *)

Lemma batch_sub now ds fs ys cs ls ls' w : batch now ds fs ys cs ls w → ls' ⊆ ls → batch now ds fs ys cs ls' w.
Proof. intros [H1 H2 H3 H4 H5 H6 H7] Hs. split; [done..|]. intros t x Hx. apply H7. by apply Hs. Qed.

Lemma without_sub t (xs : list (Z * Timer)) : without t xs ⊆ xs.
Proof. intros [u y] [_ Hu]%without_in. done. Qed.

Lemma names_without t ds ys cs : t ∉ names ds [] ys cs → undue t ds = ds ∧ without t ys = ys.
Proof. intros (N1 & _ & N3 & _)%names_not. by rewrite undue_none, without_id. Qed.

Lemma wp_batch_unqueue now d1 p d2 ys cs ls w (Q : unit → tworld E → Prop) :
  batch now (d1 ++ p :: d2) [] ys cs ls w →
  (∀ ts h, let w' := set_timers ts (set_tlinks h w) in batch now (d1 ++ d2) [] ys cs ls w' → pd_timer p ∉ names (d1 ++ d2) [] ys cs →
     (∃ v, ts !! pd_timer p = Some (set_expires v (pd_what p))) → Q tt w') →
  wp (del_timer (pd_timer p)) w Q.
Proof.
  intros [Hq Hd Hdo Hy Hc Ha Hlo] HQ. assert (names (d1 ++ p :: d2) [] ys cs ≡ₚ pd_timer p :: names (d1 ++ d2) [] ys cs) as Hperm.
  { unfold names. rewrite !map_app. cbn [map]. solve_Permutation. }
  rewrite Hperm in Ha. apply NoDup_cons in Ha as [Hn Ha].
  pose proof Hn as (N1 & N2 & N3 & N4)%names_not. pose proof Ha as (D1 & D2 & D3)%names_apart.
  pose proof (tq_timed _ _ _ _ Hq) as (_ & Hx & _)%timed_app.
  eapply wp_del_pending; [exact Hq|]. intros ts h w' Hq' Hal L2 Hts. rewrite pd_links in L2. apply (touches_cons (pd_link p)) in L2.
  assert (∀ u, u ∈ map pd_timer (d1 ++ p :: d2) → u = pd_timer p ∨ u ∈ map pd_timer (d1 ++ d2)) as Hcase.
  { intros u. rewrite !map_app, !elem_of_app. cbn [map]. rewrite elem_of_cons. tauto. }
  assert (∀ u, u ∈ map pd_timer d2 → u ∈ map pd_timer (d1 ++ d2)) as Hin2 by (intros u Hu; rewrite map_app, elem_of_app; by right).
  assert (∀ a us, is_head a → a ≠ timer_list → (∀ u, u ∈ us → u ≠ pd_timer p ∧ u ∉ map pd_timer (d1 ++ d2)) →
    is_list (t_links w) a (map timer_link us) → is_list h a (map timer_link us)) as Hk2.
  { intros a us A1 A2 A4 A5. eapply ring_kept; [exact A5|exact L2|done|head_tac|done| |].
    - intros Hin. by destruct (A4 _ Hin).
    - intros u Hu Hin. destruct (A4 u Hu) as [B1 B2]. by destruct (Hcase u Hin). }
  assert (∀ xs, pd_timer p ∉ xs.*1 → (∀ u, u ∈ map pd_timer (d1 ++ d2) → u ∉ xs.*1) → holds_fired xs (t_timers w) → holds_fired xs ts) as Hfired.
  { intros xs Hnx Hdx Hxs u y Hu. destruct (Hxs u y Hu) as [Hk Huy]. split; [done|]. apply in_fst in Hu.
    rewrite Hts; [done|]. intros Hin. by apply (Hdx u); [apply Hin2|]. }
  assert (∀ u, u ∈ map pd_timer (d1 ++ d2) → (u ∉ ys.*1) ∧ u ∉ cs.*1) as Hdy by (intros u Hu; apply (D1 u Hu)).
  apply (HQ ts h); [|exact Hn|].
  - split; cbn [t_links t_timers set_timers set_tlinks w'].
    + exact Hq'.
    + apply Hk2; [head_tac|done| |exact Hd]. intros u Hu. split; [by intros ->|]. intros Hin. by destruct (Hdy u Hin).
    + apply Hk2; [head_tac|done| |exact Hdo]. intros u Hu. split; [by intros ->|]. intros Hin. by destruct (Hdy u Hin).
    + apply Hfired; [done| |exact Hy]. intros u Hu. apply (Hdy u Hu).
    + apply Hfired; [done| |exact Hc]. intros u Hu. apply (Hdy u Hu).
    + exact Ha.
    + intros u y Hu. destruct (Hlo u y Hu) as (B1 & B2 & v & B3). rewrite Hperm, not_elem_of_cons in B1. destruct B1 as [B0 B1].
      split; [exact B1|]. apply names_not in B1 as (B1 & _). split.
      * eapply lone_kept; [exact B2|exact L2|head_tac|done|]. intros Hin. by destruct (Hcase u Hin).
      * exists v. rewrite Hts; [done|]. intros Hin. by apply B1, Hin2.
  - eexists. rewrite Hts; [exact Hx|]. intros Hin. by apply N1, Hin2.
Qed.

Lemma wp_del_collected now ds y1 t x y2 cs ls w (Q : unit → tworld E → Prop) :
  batch now ds [] (y1 ++ (t, x) :: y2) cs ls w →
  (∀ h, batch now ds [] (y1 ++ y2) cs ls (set_tlinks h w) → t ∉ names ds [] (y1 ++ y2) cs → Q tt (set_tlinks h w)) →
  wp (del_timer t) w Q.
Proof.
  intros Hb HQ. destruct (bt_ys _ _ _ _ _ _ _ Hb t x) as [Hk Hx]; [apply elem_of_app; right; by left|].
  pose proof (bt_done _ _ _ _ _ _ _ Hb) as Hl. rewrite fmap_app, map_app in Hl.
  change (map timer_link ((t, x) :: y2).*1) with (timer_link t :: map timer_link y2.*1) in Hl.
  unfold del_timer. apply wp_bind, wp_tlinks. unfold list_empty. apply wp_bind. eapply wp_list_next; [by eapply nxt_at|].
  rewrite wp_ret, set_tlinks_id.
  assert (default done_list (head (map timer_link y2.*1)) ≠ timer_link t) as Hne.
  { destruct Hl as [Hn _]. destruct y2 as [|q y2]; cbn.
    - apply not_eq_sym, timer_not_head. head_tac.
    - intros Eq. rewrite <- Permutation_middle, Permutation_swap in Hn. apply NoDup_cons in Hn as [Hn _]. apply Hn. rewrite <- Eq. set_solver. }
  rewrite bool_decide_false by done. apply wp_bind. eapply wp_get_timer; [exact Hx|]. cbn [expires set_expires]. rewrite Z.eqb_refl.
  apply wp_bind. rewrite wp_ret. eapply wp_uncollect; [exact Hb|]. intros h Hb1 Hn _ _. apply HQ; [|exact Hn]. by eapply batch_less.
Qed.

(** Wherever the timer is. *)
Lemma wp_batch_del k cs w t x (Q : unit → tworld E → Prop) :
  batch (k_now k) (k_ds k) [] (k_fs k) cs (k_ls k) w → comes_from k t x →
  (∀ ts h, let w' := set_timers ts (set_tlinks h w) in let k' := taken k t in
     batch (k_now k') (k_ds k') [] (k_fs k') cs (k_ls k') w' → t ∉ names (k_ds k') [] (k_fs k') cs →
     (∃ v, ts !! t = Some (set_expires v x)) → Q tt w') →
  wp (del_timer t) w Q.
Proof.
  intros Hb Hx HQ. unfold taken in HQ. cbn [k_now k_ds k_fs k_ls] in HQ. destruct Hx as [Hx|[(p & Hp & <- & <-)|Hx]].
  - destruct (bt_loose _ _ _ _ _ _ _ Hb t x Hx) as (Hn & Hal & Hv). eapply wp_del_loose; [exact Hal|].
    specialize (HQ (t_timers w) (t_links w)). rewrite set_tlinks_id, set_timers_id in HQ.
    destruct (names_without _ _ _ _ Hn) as [E1 E2]. rewrite E1, E2 in HQ. apply HQ; [|done..]. eapply batch_sub; [exact Hb|apply without_sub].
  - apply list_elem_of_split in Hp as (d1 & d2 & Ed). rewrite Ed in Hb, HQ.
    rewrite undue_split in HQ by apply (tqueue_nodup _ _ _ _ (bt_queue _ _ _ _ _ _ _ Hb)).
    eapply wp_batch_unqueue; [exact Hb|]. intros ts h w' Hb1 Hn Hv. pose proof Hn as (_ & _ & N3 & _)%names_not.
    apply (HQ ts h); rewrite ?(without_id _ (k_fs k)) by done; [|done..]. eapply batch_sub; [exact Hb1|apply without_sub].
  - pose proof (bt_ys _ _ _ _ _ _ _ Hb t x Hx) as [_ Htx]. apply list_elem_of_split in Hx as (y1 & y2 & Ey). rewrite Ey in Hb, HQ.
    pose proof (bt_apart _ _ _ _ _ _ _ Hb) as (_ & _ & (_ & _ & (Hny & _)%NoDup_app)%NoDup_app)%NoDup_app.
    rewrite without_split in HQ by done. eapply wp_del_collected; [exact Hb|]. intros h Hb1 Hn. pose proof Hn as (N1 & _)%names_not.
    specialize (HQ (t_timers w) h). replace (set_timers (t_timers w) (set_tlinks h w)) with (set_tlinks h w) in HQ by done.
    apply HQ; rewrite ?(undue_none _ (k_ds k)) by done; [|done|by exists 0]. eapply batch_sub; [exact Hb1|apply without_sub].
Qed.

(** ** A function that is called *)

Record calling (k : clock) (cs : list (Z * Timer)) w : Prop := {
  cg_batch : batch (k_now k) (k_ds k) [] (k_fs k) cs (k_ls k) w;
  cg_lock : t_lock w = false;
  cg_flock : tf_lock w = false;
  cg_init : t_init w = true;
  cg_goods : goods (k_ds k) (k_fs k);
  cg_env : te_ok (t_env w) }.

Lemma batch_rest now ds fs ys cs ls w w' : batch now ds fs ys cs ls w → t_links w' = t_links w → t_timers w' = t_timers w → batch now ds fs ys cs ls w'.
Proof. intros [H1 K1 K2 K3 K4 K5 K6] E1 E2. split; rewrite ?E1, ?E2; [by eapply tqueue_ext|done..]. Qed.

Lemma calling_del k cs w t : calling k cs w → may_op k (Del t) →
  wp (del_func_timer t) w (λ _ w', op_step k (t_env w) (Del t) 0 (taken k t) (t_env w') ∧ calling (taken k t) cs w' ∧ t_env w' = t_env w).
Proof.
  intros [Hb Hl Hfl Hi Hg Hok] [Hin _]. apply in_state_comes in Hin as (x & Hx & Hk). unfold del_func_timer.
  apply wp_bind, wp_acquire_timer; [exact Hl|]. apply wp_bind, wp_acquire_tfunc; [exact Hfl|]. apply wp_bind.
  eapply (wp_batch_del k cs _ t x); [by eapply batch_rest|exact Hx|]. intros ts h w' k' Hb1 Hn (v & Hv).
  apply wp_bind, wp_release_tfunc; [done|]. apply wp_bind, wp_release_timer; [done|]. apply wp_bind. eapply wp_get_timer; [exact Hv|].
  cbn [timer_type set_expires]. rewrite wp_bind, wp_assert, bool_decide_true by done. split; [done|]. unfold kfree_timer.
  apply wp_bind. eapply wp_get_timer; [exact Hv|]. rewrite wp_bind, wp_modify, wp_modify.
  split; [destruct k; apply step_del|]. split; [|done]. split; try done.
  - pose proof (batch_other _ _ _ _ _ _ w' t (delete t ts) (delete (timer_link t) h) Hb1 Hn (without_none t _)) as Hb2.
    eapply batch_rest; [apply Hb2|done..]; [intros u Hu; by rewrite lookup_delete_ne|intros a Ha; by rewrite lookup_delete_ne].
  - destruct Hg as [G1 G2]. split; [intros p [_ Hp]%undue_in; by apply G1|]. intros u y [_ Hu]%without_in. by eapply G2.
Qed.

Lemma calling_add k cs w f a e fl : calling k cs w → may_op k (Add f a e fl) →
  wp (timer_func_add f a e fl) w (λ t w', ∃ k', op_step k (t_env w) (Add f a e fl) t k' (t_env w') ∧ calling k' cs w' ∧ t_env w' = t_env w).
Proof.
  intros [Hb Hl Hfl Hi Hg Hok] He. cbn in He. unfold timer_func_add. rewrite (proj2 (Z.eqb_neq e 0)) by lia. apply wp_bind.
  destruct (teo_kmalloc w) as (t & x0 & e0 & Ht & U1 & U2 & Hk). eapply wp_of_run; [exact Hk|].
  rewrite wp_bind, wp_assert, (proj2 (Z.eqb_neq _ _) Ht). split; [done|]. apply wp_bind, wp_acquire_timer; [exact Hl|].
  assert ((t ∉ names (k_ds k) [] (k_fs k) cs) ∧ (t ∉ (k_ls k).*1)) as [Hn Hnl].
  { split; intros Hin; destruct (batch_has _ _ _ _ _ _ _ t Hb) as [y Hy]; [by left|congruence|by right|congruence]. }
  unfold timer_func_init. apply wp_bind, wp_bind. eapply wp_upd_timer; [apply lookup_insert_eq|]. cbn [t_timers set_tlinks set_timers set_tlock].
  rewrite insert_insert_eq. apply wp_tlinks. cbn [t_links set_timers set_tlinks set_tlock].
  apply wp_list_init; [apply elem_of_dom; rewrite lookup_insert_eq; by eexists|]. intros h Hal [_ Hh].
  set (x := mk_timer TIMER_FUNC e f a e fl). apply wp_bind.
  pose proof (batch_other _ _ _ _ _ _ w t (<[t := x]> (t_timers w)) h Hb Hn Hnl) as Hb1.
  ospecialize* Hb1.
  { intros u Hu. by rewrite lookup_insert_ne. }
  { intros b Hne. rewrite Hh by (by intros ->%list_elem_of_singleton). by rewrite lookup_insert_ne. }
  eapply (wp_batch_add (k_now k) (k_ds k) t x e (k_fs k) cs (k_ls k)); [by eapply batch_rest|exact Hn|exact Hnl|exact Hal|apply lookup_insert_eq|exact He|].
  intros ts h2 w' Hb2. apply wp_bind, wp_release_timer; [done|]. rewrite wp_ret.
  exists (mk_clock (k_now k) (enqueue (mk_pd t (k_now k + e) x) (k_ds k)) (k_fs k) (k_ls k)). split; [|split; [|done]].
  - pose proof Hn as (N1 & _ & N3 & _)%names_not. destruct k. by apply step_add.
  - split; try done; [by eapply batch_rest|]. destruct Hg as [G1 G2]. split; [|exact G2].
    intros p [->|Hp]%enqueue_in; [exact He|by apply G1].
Qed.

Lemma wp_run_cb cb : ∀ k cs w, calling k cs w → cb_may cb k (t_env w) →
  wp (run_cb cb) w (λ _ w', ∃ k', cb_run cb k (t_env w) k' (t_env w') ∧ calling k' cs w').
Proof.
  induction cb as [|c g IH|f a tm fl g IH|t g IH]; intros k cs w Hc Hm; cbn [run_cb cb_may] in *.
  - rewrite wp_ret. exists k. by split; [constructor|].
  - apply wp_bind, wp_zoom. apply wp_run in Hm as (a & e1 & Hr & Hok & Hst & Hm). eapply wp_of_run; [exact Hr|].
    eapply wp_conseq; [apply (IH a k cs (set_tenv e1 w)); [|exact Hm]|].
    + destruct Hc as [Hb H2 H3 H4 H5 _]. split; [by eapply batch_rest|done..].
    + intros [] w' (k' & H1 & H2). exists k'. split; [|exact H2]. by econstructor.
  - destruct Hm as [Hm Hk]. apply wp_bind. eapply wp_conseq; [by apply calling_add|]. intros t w1 (k1 & Hs & Hc1 & Ee).
    rewrite Ee in Hs. eapply wp_conseq; [apply (IH t k1 cs w1); [exact Hc1|]|].
    + rewrite Ee. by apply Hk.
    + intros [] w' (k' & H1 & H2). exists k'. split; [|exact H2]. rewrite Ee in H1. by econstructor.
  - destruct Hm as [Hm Hk]. apply wp_bind. eapply wp_conseq; [by apply calling_del|]. intros [] w1 (Hs & Hc1 & Ee).
    rewrite Ee in Hs. eapply wp_conseq; [apply (IH (taken k t) cs w1); [exact Hc1|]|].
    + rewrite Ee. by apply Hk.
    + intros [] w' (k' & H1 & H2). exists k'. split; [|exact H2]. rewrite Ee in H1. by econstructor.
Qed.

(** ** Calling one, and forgetting its copy *)

Lemma wp_forget now ds c x fs ys cs ls w (Q : unit → tworld E → Prop) :
  batch now ds fs ys ((c, x) :: cs) ls w →
  (∀ ts h, let w' := set_timers ts (set_tlinks h w) in batch now ds fs ys cs ls w' → Q tt w') →
  wp (on_tlinks (list_del (timer_link c));; kfree_timer c) w Q.
Proof.
  intros [Hq Hd Hdo Hy Hcs Ha Hlo] HQ. destruct (Hcs c x ltac:(by left)) as [Hk Hx].
  apply wp_bind, wp_tlinks. eapply (wp_list_del do_func_timer_list [] (timer_link c)); [exact Hdo|]. intros h L1 L2.
  apply (touches_cons (timer_link c)) in L2. change (touches (timer_link c :: do_func_timer_list :: map timer_link cs.*1) (t_links w) h) in L2.
  unfold kfree_timer. apply wp_bind. eapply wp_get_timer; [exact Hx|]. rewrite wp_bind, wp_modify, wp_modify.
  cbn [t_timers t_links set_timers set_tlinks].
  match goal with |- Q tt ?w1 => replace w1 with (set_timers (delete c (t_timers w)) (set_tlinks (delete (timer_link c) h) w)) by (by destruct w) end.
  apply HQ. clear HQ.
  assert (names ds fs ys ((c, x) :: cs) ≡ₚ c :: names ds fs ys cs) as Hperm.
  { unfold names. change (((c, x) :: cs).*1) with (c :: cs.*1). solve_Permutation. }
  rewrite Hperm in Ha. apply NoDup_cons in Ha as [Hn Ha].
  pose proof Hn as (N1 & N2 & N3 & N4)%names_not. pose proof Ha as (D1 & D2 & D3)%names_apart.
  assert (∀ a us, is_head a → a ≠ do_func_timer_list → c ∉ us → (∀ u, u ∈ us → u ∉ cs.*1) →
    is_list (t_links w) a (map timer_link us) → is_list h a (map timer_link us)) as Hk2.
  { intros a us A1 A2 A3 A4 A5. eapply ring_kept; [exact A5|exact L2|done|head_tac|done..]. }
  assert (batch now ds fs ys cs ls (set_tlinks h w)) as Hb1.
  { split; cbn [t_links t_timers set_tlinks].
    - destruct Hq as [H1 H2 H3 H4 H5 H6]. split; [| |exact H3|exact H4|exact H5|exact H6]; cbn [t_links t_timers set_tlinks] in *.
      + rewrite pd_links in *. apply Hk2; [head_tac|done|done| |exact H1]. intros u Hu. apply (D1 u Hu).
      + apply Hk2; [head_tac|done|done| |exact H2]. intros u Hu. apply (D2 u Hu).
    - apply Hk2; [head_tac|done|done|exact D3|exact Hd].
    - exact L1.
    - exact Hy.
    - intros u y Hu. apply Hcs. by right.
    - exact Ha.
    - intros u y Hu. destruct (Hlo u y Hu) as (B1 & B2 & B3). rewrite Hperm, not_elem_of_cons in B1. destruct B1 as [B0 B1].
      split; [exact B1|]. split; [|exact B3]. eapply lone_kept; [exact B2|exact L2|head_tac|done|]. apply names_not in B1. apply B1. }
  apply (batch_other _ _ _ _ _ _ _ c (delete c (t_timers w)) (delete (timer_link c) h) Hb1 Hn).
  - intros ([u y] & -> & Hu)%list_elem_of_fmap. destruct (Hlo u y Hu) as (B1 & _). rewrite Hperm, not_elem_of_cons in B1. destruct B1 as [B1 _]. by apply B1.
  - intros u Hu. by rewrite lookup_delete_ne.
  - intros a Ha'. by rewrite lookup_delete_ne.
Qed.

Lemma wp_call_one k c x cs w (Q : unit → tworld E → Prop) :
  calling k ((c, x) :: cs) w → cb_may (code_of x) k (t_env w) →
  (∀ k' w', cb_run (code_of x) k (t_env w) k' (t_env w') → calling k' cs w' → Q tt w') →
  wp (x ← get_timer c; assert_ (bool_decide (timer_type x = TIMER_FUNC) && (expires x =? 0));;
      call_func c;; on_tlinks (list_del (timer_link c));; kfree_timer c) w Q.
Proof.
  intros Hc Hm HQ. destruct (bt_cs _ _ _ _ _ _ _ (cg_batch _ _ _ Hc) c x ltac:(by left)) as [Hk Hx].
  apply wp_bind. eapply wp_get_timer; [exact Hx|]. cbn [timer_type expires set_expires].
  rewrite wp_bind, wp_assert, bool_decide_true by done. split; [done|]. apply wp_bind. unfold call_func. apply wp_bind.
  eapply wp_get_timer; [exact Hx|]. eapply wp_conseq; [by apply (wp_run_cb (code_of x))|]. intros [] w1 (k' & H1 & [Hb1 H2 H3 H4 H5 H6]).
  eapply wp_forget; [exact Hb1|]. intros ts h w' Hb2. by apply (HQ k' w').
Qed.

(** ** The three loops *)

(** What the loops leave alone. *)
Definition same_rest w w' : Prop := t_env w' = t_env w ∧ t_lock w' = t_lock w ∧ tf_lock w' = tf_lock w ∧ t_init w' = t_init w.

Lemma wp_collect_timers now ds fs : ∀ ys cs ls w fuel (Q : unit → tworld E → Prop),
  batch now ds fs ys cs ls w → ys.*2 = cs.*2 → (length fs < fuel)%nat →
  (∀ cs' w', batch now ds [] (ys ++ fs) cs' ls w' → (ys ++ fs).*2 = cs'.*2 → same_rest w w' → Q tt w') →
  wp (loop fuel (λ _ : unit,
    le ← on_tlinks (list_next timer_func_list);
    if le =? timer_func_list then mret (inr tt)
    else (on_tlinks (list_del_init le);; on_tlinks (list_add done_list le);;
          c ← kmalloc_timer; assert_ (negb (c =? 0));; copy_timer c (le2timer le);;
          on_tlinks (list_add do_func_timer_list (timer_link c)));; mret (inl tt)) tt) w Q.
Proof.
  induction fs as [|[t x] fs IH]; intros ys cs ls w fuel Q Hb He Hf HQ; (destruct fuel as [|fuel]; [cbn in Hf; lia|]);
    cbn [loop]; (apply wp_bind, wp_bind; eapply wp_tnext; [apply nxt_first, Hb|]).
  { cbn [fmap list_fmap map head default from_option id]. rewrite Z.eqb_refl, wp_ret, wp_ret. apply (HQ cs w); [by rewrite app_nil_r|by rewrite app_nil_r|by split]. }
  cbn [fmap list_fmap map head default from_option id fst]. rewrite (proj2 (Z.eqb_neq _ _)) by (apply timer_not_head; head_tac).
  rewrite le2timer_link. apply wp_bind.
  eapply wp_take_timer; [exact Hb|]. intros c ts h w' Hb2. rewrite wp_ret. eapply (IH _ _ _ w'); [exact Hb2| |cbn in Hf; lia|].
  - rewrite !fmap_app. by rewrite He.
  - intros cs' w2 H1 H2 (R1 & R2 & R3 & R4). rewrite <- app_assoc in H1, H2. apply (HQ cs' w2); [exact H1|exact H2|by split].
Qed.

Lemma wp_call_loop cs : ∀ k w fuel (Q : unit → tworld E → Prop),
  calling k cs w → calls_may cs.*2 k (t_env w) → (length cs < fuel)%nat →
  (∀ k' w', calling k' [] w' → calls cs.*2 k (t_env w) k' (t_env w') → Q tt w') →
  wp (loop fuel (λ _ : unit,
    le ← on_tlinks (list_next do_func_timer_list);
    if le =? do_func_timer_list then mret (inr tt)
    else (let timer := le2timer le in
          x ← get_timer timer;
          assert_ (bool_decide (timer_type x = TIMER_FUNC) && (expires x =? 0));;
          call_func timer;; on_tlinks (list_del le);; kfree_timer timer);; mret (inl tt)) tt) w Q.
Proof.
  induction cs as [|[c x] cs IH]; intros k w fuel Q Hc Hm Hf HQ; (destruct fuel as [|fuel]; [cbn in Hf; lia|]);
    cbn [loop]; (apply wp_bind, wp_bind; eapply wp_tnext; [apply nxt_first, Hc|]).
  { cbn [fmap list_fmap map head default from_option id]. rewrite Z.eqb_refl, wp_ret, wp_ret. by apply (HQ k w). }
  cbn [fmap list_fmap map head default from_option id fst]. rewrite (proj2 (Z.eqb_neq _ _)) by (apply timer_not_head; head_tac).
  cbv zeta. rewrite le2timer_link. destruct Hm as [Hm1 Hm]. apply wp_bind. eapply wp_call_one; [exact Hc|exact Hm1|].
  intros k1 w1 Hr Hc1. rewrite wp_ret. eapply (IH k1 w1); [exact Hc1|by apply Hm|cbn in Hf; lia|].
  intros k2 w2 H1 H2. apply (HQ k2 w2); [exact H1|]. by exists k1, (t_env w1).
Qed.

Lemma wp_rearm_loop now ys : ∀ ds ls w fuel (Q : unit → tworld E → Prop),
  batch now ds [] ys [] ls w → (∀ t x, (t, x) ∈ ys → 0 < reload x < 2 ^ 64) → (length ys < fuel)%nat →
  (∀ w', batch now (rearmed now ys ds) [] [] [] (once_of ys ls) w' → same_rest w w' → Q tt w') →
  wp (loop fuel (λ _ : unit,
    le ← on_tlinks (list_next done_list);
    if le =? done_list then mret (inr tt)
    else (let timer := le2timer le in
          x ← get_timer timer;
          on_tlinks (list_del_init le);;
          (if negb (Z.land (t_flags x) TIMER_RELOAD =? 0) then
             upd_timer timer (λ x, set_expires (reload x) x);; add_timer timer
           else mret tt));; mret (inl tt)) tt) w Q.
Proof.
  induction ys as [|[t x] ys IH]; intros ds ls w fuel Q Hb Hre Hf HQ; (destruct fuel as [|fuel]; [cbn in Hf; lia|]);
    cbn [loop]; (apply wp_bind, wp_bind; eapply wp_tnext; [apply nxt_first, Hb|]).
  { cbn [fmap list_fmap map head default from_option id]. rewrite Z.eqb_refl, wp_ret, wp_ret. by apply (HQ w). }
  cbn [fmap list_fmap map head default from_option id fst]. rewrite (proj2 (Z.eqb_neq _ _)) by (apply timer_not_head; head_tac).
  cbv zeta. rewrite le2timer_link. destruct (bt_ys _ _ _ _ _ _ _ Hb t x ltac:(by left)) as [Hk Hx].
  apply wp_bind, wp_bind. eapply wp_get_timer; [exact Hx|]. cbn [t_flags set_expires]. fold (periodic x).
  apply wp_bind. eapply (wp_uncollect _ _ []); [exact Hb|]. intros h Hb1 Hn Hnl Hal. cbn [rearmed once_of] in HQ. destruct (periodic x) eqn:Hp.
  - eapply wp_rearm; [by eapply batch_less|exact Hn|exact Hnl|exact Hal|exact Hx|apply (Hre t); by left|].
    intros ts h2 w' Hb2. rewrite wp_ret. eapply (IH _ _ w'); [exact Hb2|intros u y Hu; apply (Hre u); by right|cbn in Hf; lia|].
    intros w2 H1 (R1 & R2 & R3 & R4). apply (HQ w2); [exact H1|by split].
  - rewrite wp_ret, wp_ret. eapply (IH _ _ (set_tlinks h w)); [exact Hb1|intros u y Hu; apply (Hre u); by right|cbn in Hf; lia|].
    intros w2 H1 (R1 & R2 & R3 & R4). apply (HQ w2); [exact H1|by split].
Qed.
(** ** The whole call *)

Lemma rearmed_goods now xs : ∀ ds, goods ds xs → (∀ t x, (t, x) ∈ xs → timer_type x = TIMER_FUNC) → goods (rearmed now xs ds) [].
Proof.
  induction xs as [|[t x] xs IH]; intros ds [H1 H2] Hk; [by split; [|intros ?? ?%elem_of_nil]|]. cbn. apply IH.
  - split; [|intros u y Hu; apply (H2 u); by right]. intros p Hp. destruct (periodic x); [|by apply H1].
    apply enqueue_in in Hp as [->|Hp]; [|by apply H1]. apply (H2 t). by left.
  - intros u y Hu. apply (Hk u). by right.
Qed.

Lemma rearmed_in now p xs : ∀ ds, p ∈ ds → p ∈ rearmed now xs ds.
Proof. induction xs as [|[t x] xs IH]; intros ds Hp; [done|]. cbn. apply IH. destruct (periodic x); [|done]. apply enqueue_in. by right. Qed.
Lemma once_in (p : Z * Timer) xs : ∀ ls, p ∈ ls → p ∈ once_of xs ls.
Proof. induction xs as [|[t x] xs IH]; intros ls Hp; [done|]. cbn. apply IH. destruct (periodic x); [done|by right]. Qed.

Lemma start_batch k w h : clock_rep k w → is_list h done_list [] → is_list h do_func_timer_list [] →
  (∀ u, u ≠ done_list → u ≠ do_func_timer_list → h !! u = t_links w !! u) →
  batch (k_now k) (k_ds k) (k_fs k) [] [] (k_ls k) (set_tlinks h w).
Proof.
  intros [[Hq _ _ _] Hlo _ _] L1 L2 Hh. assert (∀ u, h !! timer_link u = t_links w !! timer_link u) as Hlink.
  { intros u. apply Hh; apply timer_not_head; head_tac. }
  split; cbn; [|exact L1|exact L2|by intros ?? ?%elem_of_nil|by intros ?? ?%elem_of_nil| |].
  - pose proof (tqueue_fresh _ _ _ w (t_timers w) h Hq) as Hq1. eapply tqueue_ext; [apply Hq1|done..]; [done|].
    intros a Ha. apply Hh; intros ->; rewrite !elem_of_cons, elem_of_app in Ha; destruct Ha as [?|[?|[(p & Ep & _)%list_elem_of_fmap|(t & Et & _)%list_elem_of_fmap]]]; try done;
      [symmetry in Ep; revert Ep|symmetry in Et; revert Et|symmetry in Ep; revert Ep|symmetry in Et; revert Et]; apply timer_not_head; head_tac.
  - unfold names. cbn. rewrite app_nil_r. apply NoDup_app. split_and!; [by eapply tqueue_nodup|apply Hq|].
    pose proof (tq_func _ _ _ _ Hq) as [[_ Hn]%NoDup_cons _]. by apply NoDup_fmap_1 in Hn.
  - intros t x Hx. destruct (Hlo t x Hx) as (H1 & H2 & H3). split; [|split; [|exact H3]].
    + apply names_not. split_and!; [intros ?; apply H1; by left|intros ?; apply H1; by right|by intros ?%elem_of_nil..].
    + eapply is_list_same; [exact H2|]. by intros u ->%list_elem_of_singleton.
Qed.

Lemma ring_bound (a : Z) (xs : list (Z * Timer)) h : is_list h a (map timer_link xs.*1) → (length xs < S (size h))%nat.
Proof. intros Hl%is_list_size. rewrite length_map, length_fmap in Hl. lia. Qed.

Lemma wp_exec_collect k w : clock_rep k w →
  wp exec_collect w (λ _ w1, ∃ cs, calling k cs w1 ∧ (k_fs k).*2 = cs.*2 ∧ t_env w1 = t_env w).
Proof.
  intros Hr. pose proof Hr as [[Hq Hl Hfl Hi] Hlo Hgo Hok]. unfold exec_collect.
  apply wp_bind, wp_local_list. intros h1 A1 B1. apply wp_bind, wp_local_list. intros h2 A2 B2. cbn [t_links set_tlinks] in *.
  assert (is_list h2 done_list []) as A1'.
  { eapply is_list_same; [exact A1|]. intros u ->%list_elem_of_singleton. by apply B2. }
  pose proof (start_batch k w h2 Hr A1' A2 ltac:(intros u U1 U2; rewrite B2, B1; done)) as Hb.
  apply wp_bind, wp_acquire_tfunc; [exact Hfl|]. apply wp_bind. unfold drain, link_bound. rewrite wp_bind, wp_gets.
  eapply wp_collect_timers; [by eapply batch_rest|done| |].
  { eapply ring_bound. cbn. apply (tq_func _ _ _ _ (bt_queue _ _ _ _ _ _ _ Hb)). }
  intros cs w1 Hb1 Ecs (R1 & R2 & R3 & R4). cbn in R1, R2, R3, R4, Hb1, Ecs. apply wp_release_tfunc; [exact R3|]. exists cs.
  split; [|done]. split; cbn; [by eapply batch_rest|by rewrite R2|done|by rewrite R4|exact Hgo|by rewrite R1].
Qed.

Lemma wp_exec_calls k cs w : calling k cs w → calls_may cs.*2 k (t_env w) →
  wp exec_calls w (λ _ w', ∃ k', calling k' [] w' ∧ calls cs.*2 k (t_env w) k' (t_env w')).
Proof.
  intros Hc Hm. unfold exec_calls, drain, link_bound. rewrite wp_bind, wp_gets.
  eapply (wp_call_loop cs k); [exact Hc|exact Hm| |].
  { eapply ring_bound. apply (bt_do _ _ _ _ _ _ _ (cg_batch _ _ _ Hc)). }
  intros k' w' H1 H2. by exists k'.
Qed.

Lemma wp_exec_again k w : calling k [] w → wp exec_again w (λ _ w', clock_rep (after_calls k) w' ∧ t_env w' = t_env w).
Proof.
  intros [Hb2 S2 S3 S4 Hgo2 Hok2]. unfold exec_again. apply wp_bind, wp_acquire_timer; [exact S2|].
  apply wp_bind. unfold drain, link_bound. rewrite wp_bind, wp_gets.
  assert (∀ t x, (t, x) ∈ k_fs k → timer_type x = TIMER_FUNC) as Hk by (intros t x Hx; by destruct (bt_ys _ _ _ _ _ _ _ Hb2 t x Hx)).
  eapply wp_rearm_loop; [by eapply batch_rest| | |].
  { intros t x Hx. pose proof (proj2 Hgo2 t x Hx) as Hg. unfold good_timer in Hg. by rewrite (Hk t x Hx) in Hg. }
  { eapply ring_bound. apply (bt_done _ _ _ _ _ _ _ Hb2). }
  intros w3 Hb3 (T1 & T2 & T3 & T4). cbn in T1, T2, T3, T4. apply wp_release_timer; [exact T2|]. split; [|exact T1].
  destruct Hb3 as [Hq3 _ _ _ _ _ Hlo3]. split; cbn.
  - split; cbn; [by eapply tqueue_ext|done|by rewrite T3|by rewrite T4].
  - intros t x Hx. destruct (Hlo3 t x Hx) as (H1 & H2). split; [|exact H2]. apply names_not in H1 as (H1 & _). by intros [?|?%elem_of_nil].
  - by apply rearmed_goods.
  - by rewrite T1.
Qed.

Lemma wp_exec_timer_func k w : clock_rep k w → calls_may (k_fs k).*2 k (t_env w) →
  wp exec_timer_func w (λ _ w', ∃ k', calls (k_fs k).*2 k (t_env w) k' (t_env w') ∧ clock_rep (after_calls k') w').
Proof.
  intros Hr Hm. unfold exec_timer_func. apply wp_bind. eapply wp_conseq; [by apply wp_exec_collect|].
  intros [] w1 (cs & Hc & Ecs & Ee). apply wp_bind. rewrite <- Ee in Hm |- *. rewrite Ecs in Hm |- *.
  eapply wp_conseq; [by apply wp_exec_calls|]. intros [] w2 (k' & Hc2 & Hcalls).
  eapply wp_conseq; [by apply wp_exec_again|]. intros [] w3 [Hr3 E3]. exists k'. by rewrite E3.
Qed.

Lemma exec_run k w : clock_rep k w → calls_may (k_fs k).*2 k (t_env w) →
  wp (do_timer Exec) w (λ r w', ∃ k', clock_step k (t_env w) Exec r k' (t_env w') ∧ clock_rep k' w').
Proof.
  intros Hr Hm. cbn [do_timer]. apply wp_bind. eapply wp_conseq; [by apply wp_exec_timer_func|].
  intros [] w' (k' & H1 & H2). rewrite wp_ret. exists (after_calls k'). by split; [apply step_exec|].
Qed.

(** ** A timer deleted too late *)

(** The function of the second timer is called though that of the first deletes it. *)
Lemma exec_calls_deleted k w t1 x1 t2 x2 fs c g : clock_rep k w → k_fs k = (t1, x1) :: (t2, x2) :: fs →
  code_of x1 = CB_del t2 CB_done → code_of x2 = CB_env c g → c (t_env w) = Undef → exec_timer_func w = Undef.
Proof.
  intros Hr Ef E1 E2 Hu. apply undef_after. eapply wp_conseq; [by apply wp_exec_collect|].
  intros [] w1 (cs & Hc & Ecs & Ee). apply undef_here. rewrite Ef in Ecs. destruct cs as [|[c1 y1] [|[c2 y2] cs]]; [done|done|].
  injection Ecs as <- <- _. unfold exec_calls, drain, link_bound. apply undef_after. rewrite wp_gets.
  pose proof (bt_do _ _ _ _ _ _ _ (cg_batch _ _ _ Hc)) as Hdo. pose proof (is_list_size _ _ _ Hdo) as Hsz.
  cbn [length fmap list_fmap map] in Hsz. destruct (size (t_links w1)) as [|n]; [lia|].
  assert (may_op k (Del t2)) as Hm.
  { pose proof (tk_queue _ _ _ _ (cr_timers _ _ Hr)) as Hq. assert ((t2, x2) ∈ k_fs k) as Hin by (rewrite Ef; right; by left).
    destruct (tq_fired _ _ _ _ Hq t2 x2 Hin) as [Hk Hx]. split; [right; left; by exists x2|].
    intros [(p & Hp & <- & Hkp)|[(y & Hy & Hky)|(y & Hy & Hky)]].
    - apply (tq_apart _ _ _ _ Hq (pd_timer p)); [by apply list_elem_of_fmap_2|by apply (in_fst _ x2)].
    - destruct (tq_fired _ _ _ _ Hq t2 y Hy). congruence.
    - apply (proj1 (cr_loose _ _ Hr t2 y Hy)). right. by apply (in_fst _ x2). }
  cbn [loop]. apply undef_after, wp_bind. eapply wp_tnext; [by apply nxt_first|].
  cbn [fmap list_fmap map head default from_option id fst]. rewrite (proj2 (Z.eqb_neq _ _)) by (apply timer_not_head; head_tac).
  cbv zeta. rewrite le2timer_link. apply wp_bind. eapply wp_call_one; [exact Hc| |].
  { rewrite E1. split; [exact Hm|done]. }
  intros k' w2 Hrun Hc2. rewrite wp_ret. assert (t_env w2 = t_env w1) as Ee2.
  { rewrite E1 in Hrun. inversion Hrun as [| | |? ? ? ? ? ? ? Hs Hr2]; subst. inversion Hr2; subst. done. }
  apply undef_here, undef_after. eapply wp_tnext; [apply nxt_first, Hc2|].
  cbn [fmap list_fmap map head default from_option id fst]. rewrite (proj2 (Z.eqb_neq _ _)) by (apply timer_not_head; head_tac).
  cbv zeta. rewrite le2timer_link. destruct (bt_cs _ _ _ _ _ _ _ (cg_batch _ _ _ Hc2) c2 x2 ltac:(by left)) as [Hk2 Hx2].
  apply undef_here, undef_after. eapply wp_get_timer; [exact Hx2|]. cbn [timer_type expires set_expires].
  rewrite bool_decide_true by done. apply undef_after. rewrite wp_assert. split; [done|]. apply undef_here. unfold call_func. apply undef_after. eapply wp_get_timer; [exact Hx2|].
  change (te_code _ _) with (code_of x2). rewrite E2. cbn [run_cb]. apply undef_here. unfold on_tenv, zoom. by rewrite Ee2, Ee, Hu.
Qed.
End exec.

(** * Timers: histories *)

Section run.
Context `{TO : TimerEnvOk E}.
Implicit Type w : tworld E.

Fixpoint run_timers (os : list timer_op) : M (tworld E) (list Z) :=
  match os with [] => mret [] | o :: os' => r ← do_timer o; rs ← run_timers os'; mret (r :: rs) end.

Inductive clock_runs : clock → E → list timer_op → list Z → clock → E → Prop :=
  | runs_done k e : clock_runs k e [] [] k e
  | runs_step k e o r k1 e1 os rs k2 e2 : clock_step k e o r k1 e1 → clock_runs k1 e1 os rs k2 e2 →
      clock_runs k e (o :: os) (r :: rs) k2 e2.

(** Each call is one the kernel makes, whatever addresses the calls before returned. *)
Fixpoint legal (k : clock) (e : E) (os : list timer_op) : Prop :=
  match os with [] => True | o :: os' => may_timer k e o ∧ ∀ r k' e', clock_step k e o r k' e' → legal k' e' os' end.

Lemma wp_do_timer k w o : clock_rep k w → may_timer k (t_env w) o →
  wp (do_timer o) w (λ r w', ∃ k', clock_step k (t_env w) o r k' (t_env w') ∧ clock_rep k' w').
Proof.
  intros Hr. destruct o; intros Hm; cbn [may_timer] in Hm; [..|by apply exec_run];
    (eapply wp_conseq; [first [by apply wait_run|by apply unwait_run|by apply add_run|by apply del_run|by apply tick_run]|]);
    intros r' w' (k' & H1 & H2); exists k'; (split; [by apply step_op|exact H2]).
Qed.

Lemma wp_run_timers os : ∀ k w, clock_rep k w → legal k (t_env w) os →
  wp (run_timers os) w (λ rs w', ∃ k', clock_runs k (t_env w) os rs k' (t_env w') ∧ clock_rep k' w').
Proof.
  induction os as [|o os IH]; intros k w Hr Hl; cbn [run_timers].
  { rewrite wp_ret. exists k. by split; [constructor|]. }
  destruct Hl as [Hm Hl]. apply wp_bind. eapply wp_conseq; [by apply wp_do_timer|]. intros r w1 (k1 & Hs & Hr1).
  apply wp_bind. eapply wp_conseq; [apply (IH k1 w1); eauto|]. intros rs w2 (k2 & Hrs & Hr2). rewrite wp_ret.
  exists k2. split; [|exact Hr2]. by econstructor.
Qed.

(** The state [timer_start_init] makes. *)
Lemma wp_timer_start_init now w : timer_list ∈ dom (t_links w) → timer_func_list ∈ dom (t_links w) → te_ok (t_env w) →
  wp timer_start_init w (λ _ w', clock_rep (mk_clock now [] [] []) w').
Proof.
  intros H1 H2 Hok. unfold timer_start_init. apply wp_bind, wp_tlinks, wp_list_init; [exact H1|]. intros h1 L1 [D1 T1].
  apply wp_bind, wp_tlinks, wp_list_init; [cbn; by rewrite D1|]. intros h2 L2 [D2 T2]. cbn [t_links set_tlinks] in *.
  rewrite wp_bind, wp_modify, wp_bind, wp_modify, wp_modify. split; cbn; [split; [split; cbn|done..]|..].
  - eapply is_list_same; [exact L1|]. intros u ->%list_elem_of_singleton. apply T2. by intros ?%list_elem_of_singleton.
  - exact L2.
  - done.
  - by intros ? ?%elem_of_nil.
  - by intros ?? ?%elem_of_nil.
  - by intros ? ?%elem_of_nil.
  - by intros ?? ?%elem_of_nil.
  - split; [by intros ? ?%elem_of_nil|by intros ?? ?%elem_of_nil].
  - exact Hok.
Qed.

(** ** What the steps keep *)

Definition clock_ok (k : clock) (e : E) : Prop :=
  te_ok e ∧ goods (k_ds k) (k_fs k) ∧ ∀ t x, (t, x) ∈ k_fs k → timer_type x = TIMER_FUNC.

Lemma rep_clock_ok k w : clock_rep k w → clock_ok k (t_env w).
Proof.
  intros Hr. split; [apply Hr|]. split; [apply Hr|]. intros t x Hx.
  by destruct (tq_fired _ _ _ _ (tk_queue _ _ _ _ (cr_timers _ _ Hr)) t x Hx).
Qed.

Lemma wake_all_ok ps e e' : te_ok e → (∀ p, p ∈ ps → te_known p) → wake_all ps e = Ok (tt, e') → te_ok e'.
Proof. intros He Hp Hw. pose proof (wp_wake_all ps e He Hp) as H. unfold wp in H. by rewrite Hw in H. Qed.
Lemma wake_all_cons p ps e e' : wake_all (p :: ps) e = Ok (tt, e') → ∃ e1, wake p e = Ok (tt, e1) ∧ wake_all ps e1 = Ok (tt, e').
Proof. cbn. unfold mbind, M_bind. destruct (wake p e) as [[[] e1]| | | |]; [|done..]. intros H. by exists e1. Qed.
Lemma procs_known f r fs p : goods (f ++ r) fs → p ∈ procs_of f → te_known p.
Proof.
  intros [Hg _] (q & Hq & Ht & <-)%procs_in. specialize (Hg q ltac:(set_solver)). unfold good_timer in Hg. by rewrite Ht in Hg.
Qed.

Lemma op_step_ok k e o r k' e' : clock_ok k e → may_op k o → op_step k e o r k' e' → clock_ok k' e'.
Proof.
  intros (He & [Hd Hf] & Hk) Hm Hs. destruct Hs; unfold clock_ok, goods in *; cbn [k_ds k_fs] in *.
  - destruct Hm as (_ & _ & Hp & _). split_and!; [done| |done..]. intros q [->|Hq]%enqueue_in; [|by apply Hd].
    unfold good_timer. cbn. match goal with H : timer_type x = _ |- _ => rewrite H end. congruence.
  - split_and!; [done| |done..]. intros q [_ Hq]%undue_in. by apply Hd.
  - split_and!; [done| |done..]. intros q [->|Hq]%enqueue_in; [exact Hm|by apply Hd].
  - split_and!; [done| | |]; [intros q [_ Hq]%undue_in; by apply Hd|intros u y [_ Hu]%without_in; by eapply Hf|intros u y [_ Hu]%without_in; by eapply Hk].
  - assert (goods (f ++ r) fs) as Hg by done. split_and!; [|apply (tick_goods _ _ _ Hg)..|].
    + eapply wake_all_ok; [exact He| |done]. intros p. by apply (procs_known _ _ _ _ Hg).
    + intros t x [Hx|Hx]%elem_of_app; [|by eapply Hk]. apply list_elem_of_bind in Hx as (p & Hx & _).
      destruct (timer_type (pd_what p)) eqn:Hkp; [by apply elem_of_nil in Hx|]. by apply list_elem_of_singleton in Hx as [= -> ->].
Qed.

(** What the functions that are called keep. *)
Section keeps.
Context (J : clock → E → Prop).
Hypothesis J_add : ∀ k e f a time fl t k', clock_ok k e → may_op k (Add f a time fl) → op_step k e (Add f a time fl) t k' e → J k e → J k' e.
Hypothesis J_del : ∀ k e t k', clock_ok k e → may_op k (Del t) → op_step k e (Del t) 0 k' e → J k e → J k' e.
Hypothesis J_env : ∀ k e e', clock_ok k e → te_ok e' → te_step e e' → J k e → J k e'.

Lemma cb_keeps cb : ∀ k e k' e', clock_ok k e → cb_may cb k e → cb_run cb k e k' e' → J k e → clock_ok k' e' ∧ J k' e'.
Proof.
  induction cb as [|c g IH|f a tm fl g IH|t g IH]; intros k e k' e' Hok Hm Hr HJ; inversion Hr; subst; cbn [cb_may] in Hm; [done|..].
  - match goal with H : c e = _ |- _ => pose proof H as Hc end. unfold wp in Hm. rewrite Hc in Hm. destruct Hm as (M1 & M2 & Hm).
    eapply (IH _ k); [|exact Hm|done|by eapply J_env]. destruct Hok as (_ & M3 & M4). by split_and!.
  - destruct Hm as [Hm Hk]. match goal with H : op_step _ _ _ _ _ _ |- _ => pose proof H as Hs end.
    eapply IH; [by eapply op_step_ok|by apply Hk|done|by eapply J_add].
  - destruct Hm as [Hm Hk]. match goal with H : op_step _ _ _ _ _ _ |- _ => pose proof H as Hs end.
    eapply IH; [by eapply op_step_ok|by apply Hk|done|by eapply J_del].
Qed.

Lemma calls_keep xs : ∀ k e k' e', clock_ok k e → calls_may xs k e → calls xs k e k' e' → J k e → clock_ok k' e' ∧ J k' e'.
Proof.
  induction xs as [|x xs IH]; intros k e k' e' Hok Hm Hr HJ; [by destruct Hr as [-> ->]|].
  destruct Hr as (k1 & e1 & Hr1 & Hr), Hm as [Hm1 Hm]. destruct (cb_keeps _ _ _ _ _ Hok Hm1 Hr1 HJ) as [Hok1 HJ1].
  eapply IH; [exact Hok1|by apply Hm|exact Hr|exact HJ1].
Qed.
End keeps.

Lemma after_calls_ok k e : clock_ok k e → clock_ok (after_calls k) e.
Proof.
  intros (He & Hg & Hk). assert (goods (rearmed (k_now k) (k_fs k) (k_ds k)) []) as [G1 G2] by (by apply rearmed_goods).
  split_and!; [done|done..|by intros ?? ?%elem_of_nil].
Qed.

Lemma step_ok k e o r k' e' : clock_ok k e → may_timer k e o → clock_step k e o r k' e' → clock_ok k' e'.
Proof.
  intros Hok Hm Hs. destruct Hs as [k e o r k' e' Hs|k e k' e' Hc].
  - eapply op_step_ok; [exact Hok| |exact Hs]. by destruct o.
  - apply after_calls_ok. by eapply (calls_keep (λ _ _, True)).
Qed.

Definition is_tick (o : timer_op) : bool := match o with Tick => true | _ => false end.
Definition ticks (os : list timer_op) : nat := length (filter is_tick os).

(** A property with the number of ticks left. *)
Lemma runs_inv (J : nat → clock → E → Prop) (P : timer_op → Prop) :
  (∀ n k e o r k' e', clock_ok k e → may_timer k e o → P o → clock_step k e o r k' e' → J n k e →
     J (if is_tick o then Nat.pred n else n) k' e') →
  ∀ os n k e rs k' e', clock_ok k e → legal k e os → Forall P os → clock_runs k e os rs k' e' → J n k e →
  J (n - ticks os)%nat k' e' ∧ clock_ok k' e'.
Proof.
  intros Hstep. induction os as [|o os IH]; intros n k e rs k' e' Hok Hl HP Hr HJ; inversion Hr; subst.
  { by rewrite Nat.sub_0_r. }
  destruct Hl as [Hm Hl]. apply Forall_cons in HP as [Ho HP].
  match goal with H : clock_step _ _ _ _ ?k1 ?e1, H2 : clock_runs ?k1 ?e1 _ _ _ _ |- _ => rename H into Hs; rename H2 into Hr2 end.
  pose proof (Hstep _ _ _ _ _ _ _ Hok Hm Ho Hs HJ) as HJ1.
  destruct (IH _ _ _ _ _ _ (step_ok _ _ _ _ _ _ Hok Hm Hs) (Hl _ _ _ Hs) HP Hr2 HJ1) as [H1 H2]. split; [|done].
  unfold ticks in *. rewrite filter_cons. destruct o; cbn in *; try exact H1. rewrite decide_True by done. cbn [length].
  assert (∀ m, (n - S m = Nat.pred n - m)%nat) as E1 by lia. by rewrite E1.
Qed.

(** A timer that is not taken out, nor its memory used for another. *)
Definition keeps (t : Z) (o : timer_op) : Prop := o ≠ Unwait t ∧ ∀ p e, o ≠ Wait t p e.

(** It is pending until [n] is 0, and the tick that makes it 0 is the one that wakes. *)
Definition waits (q : pending) (n : nat) (k : clock) : Prop := (0 < n)%nat → q ∈ k_ds k ∧ pd_due q = k_now k + Z.of_nat n.

Lemma waits_op q n k e o r k' e' : timer_type (pd_what q) = TIMER_PROC → may_op k o → keeps (pd_timer q) o → op_step k e o r k' e' →
  waits q n k → waits q (if is_tick o then Nat.pred n else n) k'.
Proof.
  intros Ht Hm [Hu _] Hs Hq. destruct Hs; cbn [is_tick] in *; unfold waits in *; cbn [k_ds k_now] in *; intros Hn.
  - destruct (Hq Hn) as [Hin Ed]. split; [|done]. apply enqueue_in. by right.
  - destruct (Hq Hn) as [Hin Ed]. split; [|done]. apply undue_in. split; [congruence|done].
  - destruct (Hq Hn) as [Hin Ed]. split; [|done]. apply enqueue_in. by right.
  - destruct (Hq Hn) as [Hin Ed]. split; [|done]. apply undue_in. split; [|done]. intros Et. apply (proj2 Hm). left. by exists q.
  - destruct (Hq ltac:(lia)) as [Hin Ed]. split; [|lia]. apply elem_of_app in Hin as [Hin|Hin]; [|done].
    match goal with H : ∀ p, p ∈ f → _ |- _ => specialize (H q Hin) end. lia.
Qed.

(** Then it is in no list. *)
Definition parked (q : pending) (n : nat) (k : clock) : Prop := n = 0%nat → (pd_timer q, pd_what q) ∈ k_ls k.

Lemma loose_of_in f q : q ∈ f → timer_type (pd_what q) = TIMER_PROC → (pd_timer q, pd_what q) ∈ loose_of f.
Proof. intros Hq Ht. apply list_elem_of_bind. exists q. rewrite Ht. split; [by apply list_elem_of_singleton|done]. Qed.

Lemma parked_op q n k e o r k' e' : timer_type (pd_what q) = TIMER_PROC → may_op k o → keeps (pd_timer q) o → op_step k e o r k' e' →
  waits q n k → parked q n k → parked q (if is_tick o then Nat.pred n else n) k'.
Proof.
  intros Ht Hm (Hu & Hw) Hs Hq Hp. destruct Hs; cbn [is_tick] in *; unfold parked, waits in *; cbn [k_ls k_ds k_now] in *; intros Hn.
  - apply without_in. split; [|by apply Hp]. intros Et. eapply Hw. by rewrite Et.
  - apply elem_of_cons. right. apply without_in. split; [congruence|by apply Hp].
  - by apply Hp.
  - apply without_in. split; [|by apply Hp]. intros Et. apply (proj2 Hm). right; right. exists (pd_what q). rewrite <- Et. by split; [apply Hp|].
  - destruct n as [|n]; [apply elem_of_app; right; by apply Hp|]. destruct (Hq ltac:(lia)) as [Hin Ed].
    cbn in Hn. subst n. apply elem_of_app. left. apply loose_of_in; [|done]. apply elem_of_app in Hin as [Hin|Hin]; [done|].
    match goal with H : ∀ p, p ∈ r → _ |- _ => specialize (H q Hin) end. lia.
Qed.

(** Both, for any call. *)
Definition rests (q : pending) (n : nat) (k : clock) : Prop := waits q n k ∧ parked q n k.

Lemma rests_op q n k e o r k' e' : timer_type (pd_what q) = TIMER_PROC → may_op k o → keeps (pd_timer q) o → op_step k e o r k' e' →
  rests q n k → rests q (if is_tick o then Nat.pred n else n) k'.
Proof. intros Ht Hm Hk Hs [H1 H2]. split; [by eapply waits_op|by eapply parked_op]. Qed.

Lemma rests_after q n k : rests q n k → rests q n (after_calls k).
Proof.
  intros [H1 H2]. split; intros Hn; cbn.
  - destruct (H1 Hn) as [Hin Ed]. split; [by apply rearmed_in|done].
  - apply once_in. by apply H2.
Qed.

Lemma rests_step q n k e o r k' e' : timer_type (pd_what q) = TIMER_PROC → clock_ok k e → may_timer k e o → keeps (pd_timer q) o →
  clock_step k e o r k' e' → rests q n k → rests q (if is_tick o then Nat.pred n else n) k'.
Proof.
  intros Ht Hok Hm Hk Hs Hq. destruct Hs as [k e o r k' e' Hs|k e k' e' Hc].
  - eapply rests_op; [exact Ht| |exact Hk|exact Hs|exact Hq]. by destruct o.
  - apply rests_after. eapply (calls_keep (λ k _, rests q n k)); [| | |exact Hok|exact Hm|exact Hc|exact Hq]; [..|done].
    + intros k1 e1 f a tm fl t k2 _ Hm1 Hs Hr. by eapply (rests_op q n k1 _ (Add f a tm fl)); [done|exact Hm1|split|exact Hs|exact Hr].
    + intros k1 e1 t k2 _ Hm1 Hs Hr. by eapply (rests_op q n k1 _ (Del t)); [done|exact Hm1|split|exact Hs|exact Hr].
Qed.

Lemma procs_split f q : q ∈ f → timer_type (pd_what q) = TIMER_PROC → ∃ ps1 ps2, procs_of f = ps1 ++ target (pd_what q) :: ps2.
Proof.
  intros Hq Ht. apply list_elem_of_split, list_elem_of_bind. exists q. rewrite Ht. split; [by apply list_elem_of_singleton|done].
Qed.

Lemma last_tick q k e r k' e' : waits q 1 k → timer_type (pd_what q) = TIMER_PROC → op_step k e Tick r k' e' →
  (q ∉ k_ds k') ∧ ∃ ps1 ps2, wake_all (ps1 ++ target (pd_what q) :: ps2) e = Ok (tt, e').
Proof.
  intros Hq Ht Hs. inversion Hs; subst. destruct (Hq ltac:(lia)) as [Hin Ed]. cbn [k_ds k_now] in *.
  match goal with H : ∀ p, p ∈ r0 → _ |- _ => assert (q ∉ r0) as Hn by (intros Hin2; specialize (H q Hin2); lia) end.
  split; [exact Hn|]. apply elem_of_app in Hin as [Hin|?]; [|done]. destruct (procs_split f q Hin Ht) as (ps1 & ps2 & E1).
  exists ps1, ps2. by rewrite <- E1.
Qed.
End run.
