(* ===== verification/TimerSched.v ===== *)
(** * Timers over the scheduler

    The members of [TimerEnv] by the operations of [Sched], and the laws they keep: the
    processes timers are for are in run queues, neither zombies nor unused, and wait for
    nothing that may not be interrupted. *)
From S2P Require Import Prelude Errors ListH Rbtree RbRep RbSpec Sched SchedRep SchedSpec SchedSys SchedLoad Timer TimerRep TimerTick TimerSpec TimerExec.

(** [sleeping] with a process as the channel, up to where the scheduler releases its lock. *)
Definition sleep_on (p : Z) : Sched unit :=
  upd_proc p (set_p_chan p);; upd_proc p (set_state SLEEPING);; release_proc p.

Definition wait_state (p : Z) : Sched Z := v ← get_proc p; mret (p_wait_state v).

(** The functions timers call and memory stay arguments. *)
Class TimerRest := {
  tr_code : Z → Z → callback sworld;
  tr_kmalloc : M (tworld sworld) Z;
  tr_known : list Z }.

#[export] Instance sched_timers `{TR : TimerRest} : TimerEnv sworld := {|
  te_wakeup := wakeup_proc; te_sleep_lock := acquire_proc; te_sleep := sleep_on;
  te_wait_state := wait_state; te_set_wait_state p v := upd_proc p (set_p_wait v);
  te_code := tr_code; kmalloc_timer := tr_kmalloc |}.

(** ** Waking a process *)

(** A process that timers may be for. *)
Definition wakeable (Q : queues) (w : sworld) (p : Z) : Prop :=
  ∃ c ps v, in_queue Q c ps p ∧ s_procs w !! p = Some v ∧ state v ≠ ZOMBIE ∧ state v ≠ UNUSED ∧ p_lock v = false ∧
    (p_wait_state v = 0 ∨ Z.land (p_wait_state v) WT_INTERAUPTED ≠ 0).

Definition woken_up (x : Z) (v : Proc) : Proc := set_p_wait 0 (set_state RUNNABLE (set_vruntime x v)).

Definition wakes_proc (p : Z) (v : Proc) (w w' : sworld) : Prop :=
  if sleeps_on p v then ∃ x, s_procs w' = <[p := woken_up x v]> (s_procs w) else s_procs w' = s_procs w.

Lemma wp_wakeup_proc Q w c ps p v :
  sched_ok Q w → in_queue Q c ps p → s_procs w !! p = Some v → p_lock v = false → state v ≠ ZOMBIE → state v ≠ UNUSED →
  wp (wakeup_proc p) w (λ _ w', ∃ Q', sched_ok Q' w' ∧ same_queues Q Q' ∧ wakes_proc p v w w').
Proof.
  intros Hs (t & rs & HQ & Hp) Hv Hl Hz Hu. unfold wakeup_proc. apply wp_bind. eapply wp_acquire_proc; [exact Hv|exact Hl|].
  set (v1 := set_p_lock true v). set (w1 := set_s_procs _ w).
  assert (s_procs w1 !! p = Some v1) as Hv1 by apply lookup_insert_eq.
  assert (sched_ok Q w1) as Hs1 by (eapply sched_ok_proc; [exact Hs|exact Hv|right; done]).
  apply wp_bind. eapply wp_get_proc; [exact Hv1|]. rewrite wp_bind, wp_assert, !bool_decide_eq_true_2 by done. split; [done|].
  rewrite (andb_comm (p_chan v1 =? p)). change (bool_decide (state v1 = SLEEPING) && (p_chan v1 =? p)) with (sleeps_on p v).
  unfold wakes_proc. apply wp_bind. destruct (sleeps_on p v) eqn:Hsl.
  - assert (state v1 = SLEEPING) as Hst by (by apply andb_prop in Hsl as [?%bool_decide_eq_true_1 _]).
    apply wp_bind. eapply wp_conseq; [by eapply wp_make_runnable; [exact Hs1|exact HQ|exact Hp|exact Hv1|right]|].
    intros [] w2 (rs' & x & Hs2 & Hf & Epr).
    assert (s_procs w2 !! p = Some (set_state RUNNABLE (set_vruntime x v1))) as Hv2 by (rewrite Epr; apply lookup_insert_eq).
    eapply wp_upd_proc; [exact Hv2|]. eapply wp_release_proc; [apply lookup_insert_eq|done|].
    exists (<[c := (t, ps, rs')]> Q). split_and!.
    + rewrite set_procs_twice. eapply sched_ok_proc; [exact Hs2|exact Hv2|right; done].
    + by eapply same_queues_insert.
    + exists x. cbn. rewrite Epr. cbn. rewrite !insert_insert_eq. f_equal. destruct v as [? ? ? ? ? ? ? ? ? [] ? ?]; done.
  - rewrite wp_ret. eapply wp_release_proc; [exact Hv1|done|].
    assert (set_s_procs (<[p := set_p_lock false v1]> (s_procs w1)) w1 = w) as ->.
    { unfold w1. rewrite set_procs_twice. unfold set_s_procs. rewrite insert_id; [by destruct w|].
      rewrite Hv. by destruct v as [? ? ? ? ? ? ? ? ? [] ? ?]. }
    exists Q. by split_and!; [|intros ???|].
Qed.

Lemma wakeable_same Q Q' w w' p p' v v' : s_procs w !! p = Some v → wakeable Q w p' → same_queues Q Q' →
  s_procs w' = <[p := v']> (s_procs w) → state v' ≠ ZOMBIE → state v' ≠ UNUSED → p_lock v' = p_lock v →
  (p_wait_state v' = 0 ∨ Z.land (p_wait_state v') WT_INTERAUPTED ≠ 0) → wakeable Q' w' p'.
Proof.
  intros Hv (c & ps & v0 & Hin & Hv0 & H1 & H2 & H3 & H4) Hsame E Hz Hu Hl Hw. exists c, ps. destruct (decide (p' = p)) as [->|Hne].
  - rewrite Hv in Hv0. injection Hv0 as <-. exists v'. rewrite E, lookup_insert_eq, Hl. by split_and!; [apply Hsame|..].
  - exists v0. rewrite E, lookup_insert_ne by done. by split_and!; [apply Hsame|..].
Qed.

Section laws.
Context `{TR : TimerRest}.

Definition procs_ok (w : sworld) : Prop := ∃ Q, sched_ok Q w ∧ ∀ p, p ∈ tr_known → wakeable Q w p.

(** How it leaves its process. *)
Lemma wp_wakeup_known w p : procs_ok w → p ∈ tr_known → ∃ v, s_procs w !! p = Some v ∧
  (p_wait_state v = 0 ∨ Z.land (p_wait_state v) WT_INTERAUPTED ≠ 0) ∧
  wp (wakeup_proc p) w (λ _ w', procs_ok w' ∧ wakes_proc p v w w').
Proof.
  intros (Q & Hs & Hk) Hp. destruct (Hk p Hp) as (c & ps & v & Hin & Hv & Hz & Hu & Hl & Hwt). exists v. split_and!; [done..|].
  eapply wp_conseq; [by eapply wp_wakeup_proc|]. intros _ w' (Q' & Hs' & Hsame & Hw). split; [|exact Hw].
  exists Q'. split; [exact Hs'|]. intros p' Hp'. unfold wakes_proc in Hw. destruct (sleeps_on p v).
  - destruct Hw as [x Hw]. eapply (wakeable_same Q Q' w w' p); [exact Hv|by apply Hk|exact Hsame|exact Hw|done..|by left].
  - destruct (Hk p' Hp') as (c' & ps' & v' & H1 & H2). exists c', ps', v'. rewrite Hw. split; [by apply Hsame|done].
Qed.

Lemma wp_wake_proc w p : procs_ok w → p ∈ tr_known → ∃ v, s_procs w !! p = Some v ∧
  wp (wake p) w (λ _ w', procs_ok w' ∧ wakes_proc p v w w').
Proof.
  intros Hok Hp. destruct (wp_wakeup_known w p Hok Hp) as (v & Hv & Hwt & H). exists v. split; [done|].
  unfold wake. cbn [te_wait_state te_wakeup sched_timers]. unfold wait_state. rewrite wp_bind. apply wp_bind.
  eapply wp_get_proc; [exact Hv|]. rewrite wp_ret. apply wp_bind. case_match; [by rewrite wp_ret|]. rewrite wp_assert. split; [|exact H].
  apply Bool.negb_true_iff, Z.eqb_neq. destruct Hwt as [E|]; [by rewrite E in *|done].
Qed.

(** A function that is called may wake processes that timers are for. *)
Definition may_wake (e e' : sworld) : Prop := ∀ p v, p ∈ tr_known → s_procs e !! p = Some v →
  s_procs e' !! p = Some v ∨ sleeps_on p v = true ∧ ∃ x, s_procs e' !! p = Some (woken_up x v).

Lemma wakes_may_wake p v w w' : s_procs w !! p = Some v → wakes_proc p v w w' → may_wake w w'.
Proof.
  intros Hv Hw p' v' _ Hv'. unfold wakes_proc in Hw. destruct (sleeps_on p v) eqn:Hsl; [|left; by rewrite Hw].
  destruct Hw as [x Hw]. rewrite Hw. destruct (decide (p' = p)) as [->|Hne].
  - right. rewrite Hv in Hv'. injection Hv' as <-. split; [done|]. exists x. apply lookup_insert_eq.
  - left. by rewrite lookup_insert_ne.
Qed.
End laws.

(** Memory for a timer is new. *)
Class TimerRestOk `{TR : TimerRest} :=
  tr_fresh (w : tworld sworld) : ∃ t x e, t ≠ 0 ∧ t_timers w !! t = None ∧ t_links w !! timer_link t = None ∧
    tr_kmalloc w = Ok (t, set_timers (<[t := x]> (t_timers w)) (set_tlinks (<[timer_link t := e]> (t_links w)) w)).

#[export] Program Instance sched_timers_ok `{TO : TimerRestOk} : TimerEnvOk sworld := {|
  te_ok := procs_ok; te_known p := p ∈ tr_known; te_step := may_wake |}.
Next Obligation.
  intros TR TO e p He Hp. destruct (wp_wake_proc e p He Hp) as (v & _ & H). eapply wp_conseq; [exact H|]. by intros _ e' [? _].
Qed.
Next Obligation. intros TR TO w. apply tr_fresh. Qed.

(** * Sleeping for a time: [do_sleep] over the scheduler *)

(** A running process once it has gone to sleep. *)
Definition sleeper (p : Z) (v : Proc) : Proc := set_state SLEEPING (set_p_chan p (set_p_wait WT_TIMER v)).
Definition put_proc (p : Z) (v : Proc) (w : sworld) : sworld := set_s_procs (<[p := v]> (s_procs w)) w.

Section sleep.
Context `{TO : TimerRestOk}.
Implicit Type w : tworld sworld.

Lemma procs_ok_put e p v v' : procs_ok e → s_procs e !! p = Some v → p_cpu v' = p_cpu v → priority v' = priority v →
  vruntime v' = vruntime v → (state v' = RUNNABLE ↔ state v = RUNNABLE) → state v' ≠ ZOMBIE → state v' ≠ UNUSED →
  p_lock v' = p_lock v → (p_wait_state v' = 0 ∨ Z.land (p_wait_state v') WT_INTERAUPTED ≠ 0) → procs_ok (put_proc p v' e).
Proof.
  intros (Q & Hs & Hk) Hv E1 E2 E3 E4 Hz Hu El Hw. exists Q. split; [by eapply sched_ok_proc; [exact Hs|exact Hv|right]|].
  intros p' Hp'. by eapply (wakeable_same Q Q e); [exact Hv|apply Hk|intros ???| | | | |].
Qed.

Lemma known_proc e p v : procs_ok e → p ∈ tr_known → s_procs e !! p = Some v → state v ≠ ZOMBIE ∧ state v ≠ UNUSED ∧ p_lock v = false.
Proof. intros (Q & _ & Hk) Hp Hv. destruct (Hk p Hp) as (c & ps & v' & _ & Hv' & H1 & H2 & H3 & _). rewrite Hv in Hv'. by injection Hv' as <-. Qed.

(** Going to sleep, when the process waits for the timer already. *)
Lemma wp_sleep_lock e p v (Q : unit → sworld → Prop) : s_procs e !! p = Some v → p_lock v = false →
  Q tt (put_proc p (set_state SLEEPING (set_p_chan p v)) e) → wp (acquire_proc p;; sleep_on p) e Q.
Proof.
  intros Hv Hl HQ. apply wp_bind. eapply wp_acquire_proc; [exact Hv|exact Hl|]. unfold sleep_on.
  apply wp_bind. eapply wp_upd_proc; [apply lookup_insert_eq|]. rewrite set_procs_twice.
  apply wp_bind. eapply wp_upd_proc; [apply lookup_insert_eq|]. rewrite set_procs_twice.
  eapply wp_release_proc; [apply lookup_insert_eq|done|]. rewrite set_procs_twice.
  replace (set_p_lock false _) with (set_state SLEEPING (set_p_chan p v)); [exact HQ|]. by destruct v as [? ? ? ? ? ? ? ? ? [] ? ?].
Qed.

(** Steps on the rest of the kernel may be put after the release of the lock. *)
Lemma wp_unlock_after {A} (c : M sworld unit) (k : M (tworld sworld) A) w (Q : A → tworld sworld → Prop) :
  wp (release_timer;; on_tenv c;; k) w Q → wp (on_tenv c;; release_timer;; k) w Q.
Proof.
  unfold release_timer, on_tenv, zoom, gets, modify, assert_, wp, mbind, M_bind, mret, M_ret. destruct (t_lock w) eqn:El; cbn; [|done].
  destruct (c (t_env w)) as [[[] e]| | | |]; cbn; [|done..]. by rewrite El.
Qed.

Lemma rep_env k w e : clock_rep k w → procs_ok e → clock_rep k (set_tenv e w).
Proof. intros [[H1 H2 H3 H4] H5 H6 _] He. split; [split; [by eapply tqueue_ext|done..]|exact H5|exact H6|exact He]. Qed.

Definition nap (p e : Z) : Timer := mk_timer TIMER_PROC e p 0 0 0.
Definition napping (k : clock) (t p e : Z) : clock :=
  mk_clock (k_now k) (enqueue (mk_pd t (k_now k + e) (nap p e)) (k_ds k)) (k_fs k) (without t (k_ls k)).

Lemma wp_sleep_begin k w t p e v : clock_rep k w → ¬ listed k t → 0 < e < 2 ^ 64 → p ∈ tr_known →
  s_procs (t_env w) !! p = Some v → state v = RUNNING →
  wp (do_sleep_begin p t e) w (λ b w', b = true ∧ clock_rep (napping k t p e) w' ∧ t_env w' = put_proc p (sleeper p v) (t_env w)).
Proof.
  intros Hr Hn He Hp Hv Hst. destruct (known_proc _ _ _ (cr_env _ _ Hr) Hp Hv) as (_ & _ & Hl).
  set (v1 := set_p_wait WT_TIMER v). set (e1 := put_proc p v1 (t_env w)).
  assert (procs_ok e1) as He1 by (eapply procs_ok_put; [apply Hr|exact Hv|done..|cbn; congruence|cbn; congruence|done|right; done]).
  unfold do_sleep_begin. rewrite (proj2 (Z.eqb_neq e 0)) by lia. apply wp_bind, wp_acquire_timer; [apply Hr|].
  unfold local_timer. rewrite wp_bind, wp_bind, wp_modify, wp_modify. unfold timer_proc_init. apply wp_bind, wp_bind.
  eapply wp_upd_timer; [apply lookup_insert_eq|]. cbn [t_timers set_tlinks set_timers set_tlock t_arg reload t_flags].
  rewrite insert_insert_eq. apply wp_tlinks. cbn [t_links set_timers set_tlinks set_tlock].
  apply wp_list_init; [apply elem_of_dom; rewrite lookup_insert_eq; by eexists|]. intros h Hal [_ Hh].
  apply wp_bind, wp_zoom. cbn [te_set_wait_state sched_timers]. eapply wp_upd_proc; [exact Hv|].
  match goal with |- wp _ ?w1 _ => replace w1 with (fresh_world (set_tenv e1 w) t (nap p e) h) by (by destruct w) end.
  pose proof (rep_env k w e1 Hr He1) as Hr1.
  destruct (fresh_timer k (set_tenv e1 w) t (nap p e) h Hr1 Hn Hal) as [Hq Hlo].
  { intros u Hu. cbn. rewrite Hh by (by intros ->%list_elem_of_singleton). by rewrite lookup_insert_ne. }
  assert (wp (add_timer t;; release_timer) (fresh_world (set_tenv e1 w) t (nap p e) h) (λ _ w', clock_rep (napping k t p e) w' ∧ t_env w' = e1)) as Hadd.
  { apply (wp_add_locked (mk_clock (k_now k) (k_ds k) (k_fs k) (without t (k_ls k))) _ t (nap p e) e); try done.
    - apply Hr.
    - apply Hr.
    - apply without_none.
    - apply Hr.
    - apply lookup_insert_eq. }
  rewrite wp_bind in Hadd. apply wp_bind. eapply wp_conseq; [exact Hadd|]. intros [] w2 Hrel. apply wp_unlock_after, wp_bind.
  eapply wp_conseq; [exact Hrel|]. intros [] w3 [Hr3 Ee].
  enough (wp (acquire_proc p;; sleep_on p) (t_env w3) (λ _ e', clock_rep (napping k t p e) (set_tenv e' w3) ∧ e' = put_proc p (sleeper p v) (t_env w))) as Hs.
  { rewrite wp_bind in Hs. apply wp_bind, wp_zoom. eapply wp_conseq; [exact Hs|]. intros [] e2 H2. apply wp_bind, wp_zoom.
    cbn [t_env set_tenv]. eapply wp_conseq; [exact H2|]. intros [] e3 [H3 ->]. rewrite wp_ret. split; [done|]. by split. }
  rewrite Ee. eapply (wp_sleep_lock e1 p v1); [apply lookup_insert_eq|exact Hl|].
  assert (put_proc p (set_state SLEEPING (set_p_chan p v1)) e1 = put_proc p (sleeper p v) (t_env w)) as -> by apply set_procs_twice.
  split; [|done]. apply rep_env; [exact Hr3|]. eapply procs_ok_put; [apply Hr|exact Hv|done..| |done|done|done|by right].
  cbn. rewrite Hst. done.
Qed.

(** ** Until it wakes *)

(** The process [p], which fell asleep as [v]. *)
Definition up (p : Z) (v : Proc) (e : sworld) : Prop := ∃ x, s_procs e !! p = Some (woken_up x v).
Definition asleep_or_up (p : Z) (v : Proc) (e : sworld) : Prop := s_procs e !! p = Some v ∨ up p v e.

Lemma wake_step p v e p' e' : procs_ok e → p' ∈ tr_known → sleeps_on p v = true → asleep_or_up p v e → wake p' e = Ok (tt, e') →
  procs_ok e' ∧ asleep_or_up p v e' ∧ (p' = p ∨ up p v e → up p v e').
Proof.
  intros He Hp Hsl Hv Hw. destruct (wp_wake_proc e p' He Hp) as (v' & Hv' & Hwp). unfold wp in Hwp. rewrite Hw in Hwp.
  destruct Hwp as [He' Hwk]. split; [exact He'|]. unfold wakes_proc in Hwk. destruct (decide (p' = p)) as [->|Hne].
  - enough (up p v e') by (by split; [right|]). destruct Hv as [Hv|[x Hv]]; rewrite Hv in Hv'; injection Hv' as <-.
    + rewrite Hsl in Hwk. destruct Hwk as [x Ex]. exists x. rewrite Ex. apply lookup_insert_eq.
    + exists x. by rewrite Hwk.
  - assert (s_procs e' !! p = s_procs e !! p) as E1.
    { destruct (sleeps_on p' v'); [destruct Hwk as [x ->]; by rewrite lookup_insert_ne|by rewrite Hwk]. }
    unfold asleep_or_up, up. rewrite E1. split; [exact Hv|]. by intros [?|].
Qed.

Lemma wake_all_step p v ps : ∀ e e', procs_ok e → (∀ p', p' ∈ ps → p' ∈ tr_known) → sleeps_on p v = true → asleep_or_up p v e →
  wake_all ps e = Ok (tt, e') → asleep_or_up p v e' ∧ (p ∈ ps ∨ up p v e → up p v e').
Proof.
  induction ps as [|p1 ps IH]; intros e e' He Hps Hsl Hv Hw.
  { injection Hw as <-. split; [exact Hv|]. by intros [?%elem_of_nil|]. }
  apply wake_all_cons in Hw as (e1 & H1 & Hw).
  destruct (wake_step p v e p1 e1) as (He1 & Hv1 & Hup1); [done|apply Hps; by left|done..|].
  destruct (IH e1 e' He1) as [H2 H3]; [intros q Hq; apply Hps; by right|done..|]. split; [exact H2|].
  intros [[->|Hin]%elem_of_cons|Hu]; apply H3; auto.
Qed.

Lemma may_wake_step p v e e' : p ∈ tr_known → sleeps_on p v = true → may_wake e e' → asleep_or_up p v e →
  asleep_or_up p v e' ∧ (up p v e → up p v e').
Proof.
  intros Hp Hsl Hs Hv. assert (up p v e → up p v e') as Hup.
  { intros [x Hx]. exists x. by destruct (Hs p _ Hp Hx) as [?|[? _]]. }
  split; [|exact Hup]. destruct Hv as [Hv|Hv]; [|right; by apply Hup].
  destruct (Hs p v Hp Hv) as [?|[_ ?]]; [by left|by right].
Qed.

(** With [n] ticks to go the timer of a sleeper is pending; with none it is awake. *)
Definition sleeping_for (q : pending) (v : Proc) (n : nat) (k : clock) (e : sworld) : Prop :=
  rests q n k ∧ asleep_or_up (target (pd_what q)) v e ∧ (n = 0%nat → up (target (pd_what q)) v e).

Lemma sleeping_tick q v n k r e k' e' : timer_type (pd_what q) = TIMER_PROC → sleeps_on (target (pd_what q)) v = true →
  clock_ok k e → op_step k e Tick r k' e' → sleeping_for q v n k e →
  asleep_or_up (target (pd_what q)) v e' ∧ (Nat.pred n = 0%nat → up (target (pd_what q)) v e').
Proof.
  intros Ht Hsl [He [Hg _]] Hs ([H1 _] & H3 & H4). inversion Hs as [| | | |now f r0 fs ls ? ? Hf Hr Hw]; subst.
  destruct (wake_all_step (target (pd_what q)) v (procs_of f) e e') as [H5 H6]; [exact He| |exact Hsl|exact H3|exact Hw|].
  { intros p'. by apply (procs_known _ _ _ _ Hg). }
  split; [exact H5|]. intros Hn. apply H6. destruct n as [|n]; [right; by apply H4|left]. cbn in Hn. subst n.
  destruct (H1 ltac:(lia)) as [Hin Ed]. cbn in Hin, Ed. apply elem_of_app in Hin as [Hin|Hin]; [|specialize (Hr q Hin); lia].
  destruct (procs_split f q Hin Ht) as (ps1 & ps2 & ->). set_solver.
Qed.

Lemma op_env k e o r k' e' : o ≠ Tick → op_step k e o r k' e' → e' = e.
Proof. intros Hne Hs. by destruct Hs. Qed.

Lemma sleeping_step q v n k e o r k' e' : timer_type (pd_what q) = TIMER_PROC → target (pd_what q) ∈ tr_known →
  sleeps_on (target (pd_what q)) v = true → clock_ok k e → may_timer k e o → keeps (pd_timer q) o → clock_step k e o r k' e' →
  sleeping_for q v n k e → sleeping_for q v (if is_tick o then Nat.pred n else n) k' e'.
Proof.
  intros Ht Hkn Hsl Hok Hm Hke Hs Hq. split; [by eapply rests_step; [..|apply Hq]|].
  destruct Hs as [k e o r k' e' Hs|k e k' e' Hc].
  - destruct (decide (is_tick o)) as [Htk|Htk].
    + destruct o; try done. by eapply sleeping_tick.
    + rewrite (op_env k e o r k' e'); [|by intros ->|done]. destruct (is_tick o); [by destruct Htk|]. apply Hq.
  - destruct Hq as (_ & H1 & H2).
    eapply (calls_keep (λ _ e, asleep_or_up (target (pd_what q)) v e ∧ (n = 0%nat → up (target (pd_what q)) v e))); [| | |exact Hok|exact Hm|exact Hc|by split].
    + by intros.
    + by intros.
    + intros k1 e1 e2 _ _ Hst [J1 J2]. destruct (may_wake_step _ _ _ _ Hkn Hsl Hst J1) as [J3 J4]. split; [exact J3|]. intros Hn. by apply J4, J2.
Qed.

Lemma wp_sleep_end k w t x : clock_rep k w → comes_from k t x → timer_type x = TIMER_PROC →
  wp (do_sleep_end t) w (λ r w', r = 0 ∧ t_env w' = t_env w ∧ ∃ k', clock_rep k' w' ∧ ¬ listed k' t).
Proof.
  intros Hr Hx Hk. unfold do_sleep_end. apply wp_bind, wp_acquire_timer; [apply Hr|]. apply wp_bind.
  eapply (wp_del_locked k _ w t x); [exact Hr|done..|]. intros ts h w' k' Hq' Hlt Hlo Hkn.
  apply wp_bind, wp_release_timer; [done|]. rewrite wp_ret. split; [done|]. split; [done|]. exists k'. split; [|apply Hlt].
  split; [split; [by eapply tqueue_ext|done|apply Hr|apply Hr]|exact Hlo|exact Hkn|apply Hr].
Qed.
End sleep.
