(* ===== verification/TimerTop.v ===== *)
(** * Timers: the theorems *)
From S2P Require Import Prelude Errors ListH Rbtree RbRep RbSpec Sched SchedRep SchedSpec SchedSys SchedLoad Timer TimerRep TimerTick TimerSpec TimerExec TimerSched.

Section top.
Context `{TO : TimerEnvOk E}.
Implicit Type w : tworld E.

(** C9: Whatever calls are made, where the kernel may make them, they return, and the list
    with its differences stays the queue of deadlines: each tick takes out exactly the
    timers that are due at it *)
Theorem timers_refine k w os :
  clock_rep k w → legal k (t_env w) os →
  ∃ rs w' k', run_timers os w = Ok (rs, w') ∧ clock_runs k (t_env w) os rs k' (t_env w') ∧ clock_rep k' w'.
Proof.
  intros Hr Hl. pose proof (wp_run_timers os k w Hr Hl) as (rs & w' & Hrun & k' & H)%wp_run. by exists rs, w', k'.
Qed.

(** C28: The function timers that have expired are called once each, in the order of the
    list of expired timers, where each tick puts its own in front of those of earlier
    ticks; the functions may add and delete timers meanwhile, under the conditions of
    these calls; the periodic timers that are not deleted are pending again after their
    period *)
Theorem exec_timer_func_spec k w :
  clock_rep k w → calls_may (k_fs k).*2 k (t_env w) →
  ∃ w' k', exec_timer_func w = Ok (tt, w') ∧ calls (k_fs k).*2 k (t_env w) k' (t_env w') ∧
    clock_rep (mk_clock (k_now k') (rearmed (k_now k') (k_fs k') (k_ds k')) [] (once_of (k_fs k') (k_ls k'))) w'.
Proof.
  intros Hr Hm. assert (wp exec_timer_func w (λ _ w', ∃ k', calls (k_fs k).*2 k (t_env w) k' (t_env w') ∧ clock_rep (after_calls k') w')) as (w' & Hrun & k' & H)%wp_unit
    by (by apply wp_exec_timer_func). by exists w', k'.
Qed.

(** C37: A timer that is deleted by the function of another that expired with it is called
    all the same: from its copy.  If what its function uses went with it, that is
    undefined *)
Theorem deleted_timer_called k w t1 x1 t2 x2 fs c g :
  clock_rep k w → k_fs k = (t1, x1) :: (t2, x2) :: fs → code_of x1 = CB_del t2 CB_done → code_of x2 = CB_env c g →
  c (t_env w) = Undef → exec_timer_func w = Undef.
Proof. apply exec_calls_deleted. Qed.
End top.

Section sleep.
Context `{TO : TimerRestOk}.
Implicit Type w : tworld sworld.

(** C10: A process that sleeps for [e] ticks stays in the list for as many, whatever else is
    done with timers, and the tick that is the last of them makes it runnable; its own
    part of the sleep then returns 0 *)
Theorem do_sleep_wakes k w t p e v :
  clock_rep k w → ¬ listed k t → 0 < e < 2 ^ 64 → p ∈ tr_known →
  s_procs (t_env w) !! p = Some v → state v = RUNNING →
  ∃ w1, do_sleep_begin p t e w = Ok (true, w1) ∧ clock_rep (napping k t p e) w1 ∧
    s_procs (t_env w1) !! p = Some (sleeper p v) ∧
    ∀ os, legal (napping k t p e) (t_env w1) os → Forall (keeps t) os →
      ∃ rs k2 w2, run_timers os w1 = Ok (rs, w2) ∧ clock_rep k2 w2 ∧
        if decide (Z.of_nat (ticks os) < e)
        then ∃ q, q ∈ k_ds k2 ∧ pd_timer q = t ∧ pd_due q = k_now k2 + (e - Z.of_nat (ticks os))
        else (∃ x, s_procs (t_env w2) !! p = Some (woken_up x (sleeper p v))) ∧
             ∃ w3 k3, do_sleep_end t w2 = Ok (0, w3) ∧ clock_rep k3 w3 ∧ ¬ listed k3 t ∧ t_env w3 = t_env w2.
Proof.
  intros Hr Hn He Hp Hv Hst. pose proof (wp_sleep_begin k w t p e v Hr Hn He Hp Hv Hst) as (b & w1 & Hrun & -> & Hr1 & Ee)%wp_run.
  exists w1. split; [exact Hrun|]. split; [exact Hr1|]. split; [rewrite Ee; apply lookup_insert_eq|]. intros os Hl Hk.
  pose proof (wp_run_timers os _ _ Hr1 Hl) as (rs & w2 & Hrun2 & k2 & Hruns & Hr2)%wp_run. exists rs, k2, w2.
  split; [exact Hrun2|]. split; [exact Hr2|]. set (q := mk_pd t (k_now k + e) (nap p e)).
  assert (sleeping_for q (sleeper p v) (Z.to_nat e - ticks os) k2 (t_env w2)) as ([H1 H2] & H3 & H4).
  { refine (proj1 (runs_inv (sleeping_for q (sleeper p v)) (keeps t) _ os (Z.to_nat e) _ _ rs k2 _ (rep_clock_ok _ _ Hr1) Hl Hk Hruns _)).
    - intros n k0 e0 o r k' e' Hok Hm Hke Hs Hq. eapply sleeping_step; [done|exact Hp| |exact Hok|exact Hm|exact Hke|exact Hs|exact Hq].
      unfold sleeps_on. cbn. by rewrite Z.eqb_refl.
    - split; [split|split]; cbn.
      + intros _. split; [apply enqueue_in; by left|]. cbn. lia.
      + intros Hz. lia.
      + left. rewrite Ee. apply lookup_insert_eq.
      + lia. }
  case_decide as Hd.
  - destruct (H1 ltac:(lia)) as [Hin Ed]. exists q. split_and!; [exact Hin|done|]. rewrite Ed. lia.
  - assert (Z.to_nat e - ticks os = 0)%nat as En by lia. split; [by apply H4|].
    pose proof (wp_sleep_end k2 w2 t (nap p e) Hr2 (or_introl (H2 En)) eq_refl) as (r & w3 & Hrun3 & -> & E3 & k3 & H5 & H6)%wp_run.
    by exists w3, k3.
Qed.
End sleep.

(** ** A concrete system *)

Definition demo_free (w : tworld sworld) : Z :=
  1 + foldr Z.max 0 (elements (dom (t_timers w)) ++ elements (dom (t_links w))).

Lemma foldr_max_le (l : list Z) x : x ∈ l → x ≤ foldr Z.max 0 l.
Proof. induction l as [|y l IH]; [by intros ?%elem_of_nil|]. intros [->|Hx]%elem_of_cons; cbn; [lia|]. specialize (IH Hx). lia. Qed.
Lemma foldr_max_pos (l : list Z) : 0 ≤ foldr Z.max 0 l.
Proof. induction l; cbn; lia. Qed.

(** Function 1 wakes process 5, 2 deletes the timer it is given, 3 uses memory that is
    gone, and any other starts a timer. *)
#[local] Instance demo_rest : TimerRest := {|
  tr_code f a :=
    if f =? 1 then CB_env (wakeup_proc 5;; mret 0) (λ _, CB_done)
    else if f =? 2 then CB_del a CB_done
    else if f =? 3 then CB_env undef (λ _, CB_done)
    else CB_add 1 0 3 0 (λ _, CB_done);
  tr_kmalloc w := let t := demo_free w in
    Ok (t, set_timers (<[t := mk_timer TIMER_PROC 0 0 0 0 0]> (t_timers w)) (set_tlinks (<[timer_link t := mk_entry 0 0]> (t_links w)) w));
  tr_known := [5] |}.

#[local] Instance demo_rest_ok : TimerRestOk.
Proof.
  intros w. exists (demo_free w), (mk_timer TIMER_PROC 0 0 0 0 0), (mk_entry 0 0).
  pose proof (foldr_max_pos (elements (dom (t_timers w)) ++ elements (dom (t_links w)))) as Hpos.
  assert (∀ x, x ∈ elements (dom (t_timers w)) ++ elements (dom (t_links w)) → x < demo_free w) as Hlt.
  { intros x Hx%foldr_max_le. unfold demo_free. lia. }
  split_and!; [unfold demo_free; lia| | |done].
  - apply not_elem_of_dom. intros Hin. specialize (Hlt (demo_free w)). rewrite elem_of_app, !elem_of_elements in Hlt. lia || (specialize (Hlt (or_introl Hin)); lia).
  - apply not_elem_of_dom. intros Hin. specialize (Hlt (timer_link (demo_free w))). rewrite elem_of_app, !elem_of_elements in Hlt.
    specialize (Hlt (or_intror Hin)). unfold timer_link in Hlt. unfold demo_free in *. lia.
Qed.

Lemma demo_procs : procs_ok demo_running.
Proof.
  exists (demo_queues []). split; [exact demo_running_ok|]. intros p ->%list_elem_of_singleton.
  exists 0, [5], (demo_proc RUNNING (Some 0)). split; [exists sched_tree, []; by split; [|left]|]. split_and!; [done..|by left].
Qed.

(** Nothing pending, and the function timers [fs] expired. *)
Definition demo_clock (fs : list (Z * Timer)) : clock := mk_clock 7 [] fs [].
Definition demo_timers (ts : list (Z * Timer)) (ls : list (Z * List_entry)) : tworld sworld :=
  mk_tw _ (list_to_map ts) (list_to_map ls) false false true 0 demo_running.

Lemma demo_clock_rep fs ts ls : is_list (list_to_map ls) timer_list [] → is_list (list_to_map ls) timer_func_list (map timer_link fs.*1) →
  holds_fired fs (list_to_map ts) → goods [] fs → clock_rep (demo_clock fs) (demo_timers ts ls).
Proof.
  intros H1 H2 H3 H4. split; [split; [|done..]| |exact H4|exact demo_procs].
  - split; cbn; [exact H1|exact H2|done| |exact H3|]; by intros ? ?%elem_of_nil.
  - by intros ?? ?%elem_of_nil.
Qed.

Definition demo_idle : tworld sworld := demo_timers [] [(1, mk_entry 1 1); (2, mk_entry 2 2)].
Lemma demo_idle_rep : clock_rep (demo_clock []) demo_idle.
Proof.
  apply demo_clock_rep; [refine (bool_decide_unpack _ _); vm_compute; exact I..| |split]; by intros ? ?%elem_of_nil || intros ? ? ?%elem_of_nil.
Qed.

Definition demo_func (f a fl : Z) : Timer := mk_timer TIMER_FUNC 0 f a 4 fl.
Definition demo_fired : list (Z * Timer) := [(10, demo_func 2 11 TIMER_RELOAD); (11, demo_func 3 0 0)].
Definition demo_due (fs : list (Z * Timer)) : tworld sworld := demo_timers fs
  [(1, mk_entry 1 1); (2, mk_entry 88 80); (80, mk_entry 2 88); (88, mk_entry 80 2)].
Definition demo_periodic : list (Z * Timer) := [(10, demo_func 4 0 TIMER_RELOAD); (11, demo_func 1 5 0)].

Lemma demo_due_rep fs : map fst fs = [10; 11] → holds_fired fs (list_to_map fs) → goods [] fs → clock_rep (demo_clock fs) (demo_due fs).
Proof.
  intros E1 H1 H2. apply demo_clock_rep; [refine (bool_decide_unpack _ _); vm_compute; exact I| |exact H1|exact H2].
  change (fs.*1) with (map fst fs). rewrite E1. refine (bool_decide_unpack _ _). vm_compute. exact I.
Qed.

Lemma demo_pair_rep x1 x2 : timer_type x1 = TIMER_FUNC → timer_type x2 = TIMER_FUNC → expires x1 = 0 → expires x2 = 0 →
  reload x1 = 4 → reload x2 = 4 → clock_rep (demo_clock [(10, x1); (11, x2)]) (demo_due [(10, x1); (11, x2)]).
Proof.
  intros K1 K2 E1 E2 R1 R2. apply demo_due_rep; [done| |split; [by intros ? ?%elem_of_nil|]].
  - intros t x. rewrite !elem_of_cons. intros [[= -> ->]|[[= -> ->]|?%elem_of_nil]]; [| |done]; (split; [done|]); cbn.
    + rewrite lookup_insert_eq. f_equal. destruct x1; cbn in *. by subst.
    + rewrite lookup_insert_ne by done. rewrite lookup_insert_eq. f_equal. destruct x2; cbn in *. by subst.
  - intros t x. rewrite !elem_of_cons. intros [[= -> ->]|[[= -> ->]|?%elem_of_nil]]; [| |done]; unfold good_timer; rewrite ?K1, ?K2, ?R1, ?R2; lia.
Qed.

Lemma demo_fired_rep : clock_rep (demo_clock demo_fired) (demo_due demo_fired).
Proof. by apply demo_pair_rep. Qed.
Lemma demo_periodic_rep : clock_rep (demo_clock demo_periodic) (demo_due demo_periodic).
Proof. by apply demo_pair_rep. Qed.

Definition demo_ops : list timer_op := [Wait 100 5 2; Add 1 5 1 TIMER_RELOAD; Tick; Tick].
Lemma demo_not_listed t : ¬ listed (demo_clock []) t.
Proof. by intros [?%elem_of_nil|?%elem_of_nil]. Qed.
Lemma demo_timer_legal : legal (demo_clock []) (t_env demo_idle) demo_ops.
Proof.
  split; [split_and!; [done|apply demo_not_listed|by left|done..]|]. intros r k' e' _. split; [done|].
  intros r1 k1 e1 _. split; [done|]. by intros.
Qed.

Lemma demo_may : calls_may (k_fs (demo_clock demo_periodic)).*2 (demo_clock demo_periodic) (t_env (demo_due demo_periodic)).
Proof.
  split; [by split|]. intros k1 e1 Hr. assert (e1 = demo_running) as ->.
  { change (code_of _) with (CB_add (E := sworld) 1 0 3 0 (λ _, CB_done)) in Hr. inversion Hr as [| |? ? ? ? ? ? ? ? ? ? ? ? Hr2|]; subst. by inversion Hr2. }
  split; [|done]. cbn [cb_may code_of te_code sched_timers tr_code demo_rest].
  destruct (wp_wakeup_known demo_running 5 demo_procs ltac:(by left)) as (v & Hv & _ & H).
  change (code_of _) with (CB_env (wakeup_proc 5;; mret 0) (λ _, CB_done (E := sworld))). cbn [cb_may]. apply wp_bind.
  eapply wp_conseq; [exact H|]. intros [] e' [H1 H2]. rewrite wp_ret. split; [exact H1|]. split; [|done]. by eapply wakes_may_wake.
Qed.

Lemma timers_refine_witness : (clock_rep (demo_clock []) demo_idle ∧ legal (demo_clock []) (t_env demo_idle) demo_ops) ∧
  ∃ rs w' k', run_timers demo_ops demo_idle = Ok (rs, w') ∧ clock_runs (demo_clock []) (t_env demo_idle) demo_ops rs k' (t_env w') ∧ clock_rep k' w'.
Proof.
  split; [exact (conj demo_idle_rep demo_timer_legal)|]. exact (timers_refine (demo_clock []) demo_idle demo_ops demo_idle_rep demo_timer_legal).
Defined.

Lemma exec_timer_func_spec_witness :
  (clock_rep (demo_clock demo_periodic) (demo_due demo_periodic) ∧
   calls_may (k_fs (demo_clock demo_periodic)).*2 (demo_clock demo_periodic) (t_env (demo_due demo_periodic))) ∧
  ∃ w' k', exec_timer_func (demo_due demo_periodic) = Ok (tt, w') ∧
    calls (k_fs (demo_clock demo_periodic)).*2 (demo_clock demo_periodic) (t_env (demo_due demo_periodic)) k' (t_env w') ∧
    clock_rep (mk_clock (k_now k') (rearmed (k_now k') (k_fs k') (k_ds k')) [] (once_of (k_fs k') (k_ls k'))) w'.
Proof.
  split; [exact (conj demo_periodic_rep demo_may)|].
  exact (exec_timer_func_spec (demo_clock demo_periodic) (demo_due demo_periodic) demo_periodic_rep demo_may).
Defined.

Lemma deleted_timer_called_witness :
  clock_rep (demo_clock demo_fired) (demo_due demo_fired) ∧ code_of (demo_func 2 11 TIMER_RELOAD) = CB_del 11 CB_done ∧
  exec_timer_func (demo_due demo_fired) = Undef.
Proof.
  split; [exact demo_fired_rep|]. split; [reflexivity|].
  apply (deleted_timer_called (demo_clock demo_fired) (demo_due demo_fired) 10 (demo_func 2 11 TIMER_RELOAD) 11 (demo_func 3 0 0) []
    undef (λ _, CB_done)); [exact demo_fired_rep|reflexivity..].
Defined.

Lemma do_sleep_wakes_witness :
  (clock_rep (demo_clock []) demo_idle ∧ 5 ∈ tr_known ∧ s_procs (t_env demo_idle) !! 5 = Some (demo_proc RUNNING (Some 0))) ∧
  ∃ w1, do_sleep_begin 5 100 2 demo_idle = Ok (true, w1) ∧ clock_rep (napping (demo_clock []) 100 5 2) w1 ∧
    s_procs (t_env w1) !! 5 = Some (sleeper 5 (demo_proc RUNNING (Some 0))) ∧
    ∀ os, legal (napping (demo_clock []) 100 5 2) (t_env w1) os → Forall (keeps 100) os →
      ∃ rs k2 w2, run_timers os w1 = Ok (rs, w2) ∧ clock_rep k2 w2 ∧
        if decide (Z.of_nat (ticks os) < 2)
        then ∃ q, q ∈ k_ds k2 ∧ pd_timer q = 100 ∧ pd_due q = k_now k2 + (2 - Z.of_nat (ticks os))
        else (∃ x, s_procs (t_env w2) !! 5 = Some (woken_up x (sleeper 5 (demo_proc RUNNING (Some 0))))) ∧
             ∃ w3 k3, do_sleep_end 100 w2 = Ok (0, w3) ∧ clock_rep k3 w3 ∧ ¬ listed k3 100 ∧ t_env w3 = t_env w2.
Proof.
  split; [split; [exact demo_idle_rep|split; [by left|reflexivity]]|].
  apply (do_sleep_wakes (demo_clock []) demo_idle 100 5 2 (demo_proc RUNNING (Some 0)));
    [exact demo_idle_rep|apply demo_not_listed|lia|by left|reflexivity|reflexivity].
Defined.
