(* ===== verification/SfsBuf.v ===== *)
(** * The disk and its buffer cache: [fs/sfs/buf_io.c], [fs/devs/dev_disk0.c], [fs/iobuf.c]

    The device is its contents at the start and the blocks written since, in order:
    what a crash leaves behind is what a prefix of the writes made of it.  A block
    is written as a whole, and a read gives what was last written, which is what the
    virtio device and its driver promise [disk0_io].

    Buffers are structures in a store, found through a ring of links.  Execution is
    sequential: [sem] is the value of the buffer's semaphore, nobody waits in its
    queue, and going to sleep is [Block]. *)
From S2P Require Import Prelude Errors PacketIO ListH.

Definition SFS_BSIZE : Z := 4096.
Definition SFS_LOGSIZE : Z := 300.
Definition SFS_MAXOPBLOCKS : Z := 30.
Definition SFS_NBUF : Z := 300.
Definition SFS_BLKBITS : Z := SFS_BSIZE * 8.
Definition DISK0_BLKSIZE : Z := SFS_BSIZE.

(** ** Data *)

Record Disk_buf := mk_buf {
  valid : bool; dev : Z; blockno : Z;
  sem : Z;              (* [sem.value] *)
  refcnt : Z; data : bytes }.

Definition set_valid v b := mk_buf v (dev b) (blockno b) (sem b) (refcnt b) (data b).
Definition set_sem v b := mk_buf (valid b) (dev b) (blockno b) v (refcnt b) (data b).
Definition set_refcnt v b := mk_buf (valid b) (dev b) (blockno b) (sem b) v (data b).
Definition set_data v b := mk_buf (valid b) (dev b) (blockno b) (sem b) (refcnt b) v.
Definition retarget d n b := mk_buf false d n (sem b) 1 (data b).

Record Superblock := mk_sb {
  magic : Z; sb_size : Z; nblocks : Z; ninodes : Z; nlog : Z; logstart : Z; inodestart : Z; bmapstart : Z }.

Record Log_header := mk_lh { log_num : Z; block_nos : list Z }.

Record Log := mk_log { log_lock : bool; outstanding : Z; committing : bool; lh : Log_header }.

(** The device: the contents it had and the writes since. *)
Record disk := mk_disk { d_blocks : Z; d_base : gmap Z bytes; d_writes : list (Z * bytes) }.

Definition apply_writes (m : gmap Z bytes) (ws : list (Z * bytes)) : gmap Z bytes :=
  foldl (λ m w, <[w.1 := w.2]> m) m ws.
Definition contents (d : disk) : gmap Z bytes := apply_writes (d_base d) (d_writes d).

Record fsworld := mk_fs {
  f_disk : disk;
  f_bufs : gmap Z Disk_buf;
  f_links : heap;
  f_dev : Z; f_sb : Superblock;     (* [sfs->dev], [sfs->sb] *)
  buffer_list_lock : bool;
  f_log : Log }.

Definition set_f_disk v w := mk_fs v (f_bufs w) (f_links w) (f_dev w) (f_sb w) (buffer_list_lock w) (f_log w).
Definition set_f_bufs v w := mk_fs (f_disk w) v (f_links w) (f_dev w) (f_sb w) (buffer_list_lock w) (f_log w).
Definition set_f_links v w := mk_fs (f_disk w) (f_bufs w) v (f_dev w) (f_sb w) (buffer_list_lock w) (f_log w).
Definition set_list_lock v w := mk_fs (f_disk w) (f_bufs w) (f_links w) (f_dev w) (f_sb w) v (f_log w).
Definition set_f_log v w := mk_fs (f_disk w) (f_bufs w) (f_links w) (f_dev w) (f_sb w) (buffer_list_lock w) v.

Abbreviation Fs := (M fsworld).

(** The link of the buffer at [a], the ring's head, and back. *)
Definition link (a : Z) : Z := a.
Definition buffer_list : Z := 0.
Definition le2disk_buf (le : Z) : Z := le.

Definition get_buf (a : Z) : Fs Disk_buf := o ← gets (λ w, f_bufs w !! a); of_option o.
Definition upd_buf (a : Z) (f : Disk_buf → Disk_buf) : Fs unit :=
  v ← get_buf a; modify (λ w, set_f_bufs (<[a := f v]> (f_bufs w)) w).
Definition on_links {A} (m : M heap A) : Fs A := zoom f_links set_f_links m.

Definition acquire_list : Fs unit :=
  l ← gets buffer_list_lock; assert_ (negb l);; modify (set_list_lock true).
Definition release_list : Fs unit :=
  l ← gets buffer_list_lock; assert_ l;; modify (set_list_lock false).

(** ** Input and output *)

Record Iobuf := mk_iob { io_base : Z; io_offset : Z; io_len : Z; io_resid : Z }.

Definition iobuf_init (base len offset : Z) : Iobuf := mk_iob base offset len len.

Definition iobuf_skip (iob : Iobuf) (n : Z) : outcome Iobuf :=
  if n <=? io_resid iob then Ok (mk_iob (io_base iob + n) (io_offset iob + n) (io_len iob) (io_resid iob - n))
  else Panic.

(** [io_base] is the data of a buffer; the device has a block at each address. *)
Definition disk0fs_read (iob : Iobuf) : Fs unit :=
  o ← gets (λ w, contents (f_disk w) !! (io_offset iob / DISK0_BLKSIZE));
  bs ← of_option o;
  upd_buf (io_base iob) (set_data bs).
Definition disk0fs_write (iob : Iobuf) : Fs unit :=
  v ← get_buf (io_base iob);
  modify (λ w, set_f_disk (mk_disk (d_blocks (f_disk w)) (d_base (f_disk w))
    (d_writes (f_disk w) ++ [(io_offset iob / DISK0_BLKSIZE, data v)])) w).

Definition disk0_io (iob : Iobuf) (write : bool) : Fs Z :=
  let offset := io_offset iob in
  let resid := io_resid iob in
  let blkno := u32 (offset / DISK0_BLKSIZE) in
  let nblks := u32 (resid / DISK0_BLKSIZE) in
  if negb (offset mod DISK0_BLKSIZE =? 0) || negb (resid mod DISK0_BLKSIZE =? 0) then mret (- E_INVAL) else
  n ← gets (λ w, d_blocks (f_disk w));
  if n <? u32 (blkno + nblks) then mret (- E_INVAL) else
  if nblks =? 0 then mret 0 else
  assert_ (io_resid iob =? io_len iob);;
  (if write then disk0fs_write iob else disk0fs_read iob);;
  mret 0.

(** ** The cache *)

Definition lock_disk_buf (a : Z) : Fs unit :=
  v ← get_buf a; if 0 <? sem v then upd_buf a (set_sem (sem v - 1)) else block.
Definition unlock_disk_buf (a : Z) : Fs unit :=
  v ← get_buf a; upd_buf a (set_sem (sem v + 1)).

Definition for_each_buf {A} (nx : Z → M heap Z) (body : Z → Fs (option A)) : Fs (option A) :=
  r ← for_each (λ a, on_links (nx a)) (gets (λ w, size (f_links w))) buffer_list
    (λ _ le, o ← body (le2disk_buf le); mret (match o with Some a => inr a | None => inl tt end)) tt;
  mret (match r with inl _ => None | inr a => Some a end).

(** Nobody but another process can wake this one, to [try_again]. *)
Definition disk_buf_wait {A} : Fs A := block.

(** The queue of waiting processes is empty. *)
Definition disk_buf_wakeup : Fs unit := acquire_list;; release_list.

Definition buf_get (blk : Z) : Fs Z :=
  acquire_list;;
  dv ← gets f_dev;
  found ← for_each_buf list_next (λ a,
    v ← get_buf a;
    if (dev v =? dv) && (blockno v =? blk) then
      upd_buf a (set_refcnt (sint 64 (refcnt v + 1)));; mret (Some a)
    else mret None);
  match found with
  | Some a => release_list;; lock_disk_buf a;; mret a
  | None =>
      free ← for_each_buf list_prev (λ a,
        v ← get_buf a;
        if refcnt v =? 0 then upd_buf a (retarget dv blk);; mret (Some a) else mret None);
      match free with
      | Some a => release_list;; lock_disk_buf a;; mret a
      | None => release_list;; disk_buf_wait
      end
  end.

Definition buf_iob (a blk : Z) : Iobuf := iobuf_init a SFS_BSIZE (u32 (blk * SFS_BSIZE)).

Definition buf_read (blk : Z) : Fs Z :=
  a ← buf_get blk;
  v ← get_buf a;
  (if valid v then mret tt else
     disk0_io (buf_iob a (blockno v)) false;;
     upd_buf a (set_valid true));;
  mret a.

Definition buf_write (a : Z) : Fs unit :=
  v ← get_buf a;
  assert_ (sem v =? 0);;
  disk0_io (buf_iob a (blockno v)) true;;
  upd_buf a (set_valid true).

Definition buf_release (a : Z) : Fs unit :=
  v ← get_buf a;
  assert_ (sem v =? 0);;
  unlock_disk_buf a;;
  acquire_list;;
  v ← get_buf a;
  upd_buf a (set_refcnt (sint 64 (refcnt v - 1)));;
  (if sint 64 (refcnt v - 1) =? 0 then
     on_links (list_del (link a));; on_links (list_add_before buffer_list (link a))
   else mret tt);;
  release_list;;
  disk_buf_wakeup.
