(* ===== verification/SfsLog.v ===== *)
(** * The log of the file system: [fs/sfs/log.c], and the block map of [fs/sfs/sfs_inode.c]

    A system call's updates are made in the cache and written to the log; when the
    last call that is active ends, the log is committed to its place on the disk
    and then installed.  The log's header is a block of the disk: the number of
    logged blocks and their numbers, little-endian. *)
From S2P Require Import Prelude Errors PacketIO PktMem ListH SfsBuf.

Definition get_log : Fs Log := gets f_log.
Definition upd_log (f : Log → Log) : Fs unit := modify (λ w, set_f_log (f (f_log w)) w).
Definition set_log_lock v l := mk_log v (outstanding l) (committing l) (lh l).
Definition set_outstanding v l := mk_log (log_lock l) v (committing l) (lh l).
Definition set_committing v l := mk_log (log_lock l) (outstanding l) v (lh l).
Definition set_lh v l := mk_log (log_lock l) (outstanding l) (committing l) v.
Definition set_log_num v l := set_lh (mk_lh v (block_nos (lh l))) l.
Definition set_block_nos v l := set_lh (mk_lh (log_num (lh l)) v) l.

Definition log_start : Fs Z := gets (λ w, logstart (f_sb w)).
Definition log_size : Fs Z := gets (λ w, nlog (f_sb w)).

(** [log.lh.block[i]], within the array. *)
Definition get_block (i : Z) : Fs Z := l ← get_log; of_option (zlookup (block_nos (lh l)) i).
Definition put_block (i v : Z) : Fs unit :=
  l ← get_log; bs ← of_option (zset (block_nos (lh l)) i v); upd_log (set_block_nos bs).

(** [for (int i = 0; i < log.lh.log_num; i++)]. *)
Definition for_logged (body : Z → Fs unit) : Fs unit :=
  l ← get_log;
  loop (S (Z.to_nat (log_num (lh l)))) (λ i,
    l ← get_log;
    if i <? log_num (lh l) then body i;; mret (inl (i + 1)) else mret (inr tt)) 0.

Definition acquire_log : Fs unit :=
  l ← get_log; assert_ (negb (log_lock l));; upd_log (set_log_lock true).
Definition release_log : Fs unit :=
  l ← get_log; assert_ (log_lock l);; upd_log (set_log_lock false).

(** [memmove(to->data, from->data, SFS_BSIZE)]. *)
Definition move_data (to from : Z) : Fs unit := v ← get_buf from; upd_buf to (set_data (data v)).

(** The words of a [Log_header] in a buffer. *)
Definition load32 (a off : Z) : Fs Z :=
  v ← get_buf a; bs ← of_option (mem_read (data v) off 4); mret (get_le bs 0 4).
Definition store32 (a off x : Z) : Fs unit :=
  v ← get_buf a; d ← of_option (mem_write (data v) off (le32 x)); upd_buf a (set_data d).

(** ** Installing and recovering *)

Definition install_trans (recovering : bool) : Fs unit :=
  start ← log_start;
  for_logged (λ tail,
    lbuf ← buf_read (u32 (start + tail + 1));
    b ← get_block tail;
    dbuf ← buf_read b;
    move_data dbuf lbuf;;
    buf_write dbuf;;
    (if recovering then mret tt
     else v ← get_buf dbuf; upd_buf dbuf (set_refcnt (sint 64 (refcnt v - 1))));;
    buf_release lbuf;;
    buf_release dbuf).

Definition read_head : Fs unit :=
  start ← log_start;
  buf ← buf_read start;
  n ← load32 buf 0;
  upd_log (set_log_num (sint 32 n));;
  for_logged (λ i, b ← load32 buf (4 + 4 * i); put_block i b);;
  buf_release buf.

Definition write_head : Fs unit :=
  start ← log_start;
  buf ← buf_read start;
  l ← get_log;
  store32 buf 0 (u32 (log_num (lh l)));;
  for_logged (λ i, b ← get_block i; store32 buf (4 + 4 * i) b);;
  buf_write buf;;
  buf_release buf.

Definition recover_from_log : Fs unit :=
  read_head;;
  install_trans true;;
  upd_log (set_log_num 0);;
  write_head.

Definition initlog : Fs unit :=
  upd_log (set_log_lock false);;
  upd_log (set_committing false);;
  recover_from_log.

(** ** Transactions *)

(** The process sleeps, and no other one wakes it. *)
Definition log_wait_nolock {A} : Fs A := block.

Definition begin_op : Fs unit :=
  acquire_log;;
  l ← get_log;
  if committing l then log_wait_nolock else
  if SFS_LOGSIZE <? log_num (lh l) + (outstanding l + 1) * SFS_MAXOPBLOCKS then log_wait_nolock else
  upd_log (set_outstanding (outstanding l + 1));;
  release_log.

Definition write_log : Fs unit :=
  start ← log_start;
  for_logged (λ tail,
    to ← buf_read (u32 (start + tail + 1));
    b ← get_block tail;
    from ← buf_read b;
    move_data to from;;
    buf_write to;;
    buf_release from;;
    buf_release to).

Definition commit : Fs unit :=
  l ← get_log;
  if 0 <? log_num (lh l) then
    write_log;;
    write_head;;
    install_trans false;;
    upd_log (set_log_num 0);;
    write_head
  else mret tt.

Definition end_op : Fs unit :=
  acquire_log;;
  l ← get_log;
  upd_log (set_outstanding (outstanding l - 1));;
  assert_ (negb (committing l));;
  l ← get_log;
  let do_commit := outstanding l =? 0 in
  (if do_commit then upd_log (set_committing true) else mret tt);;
  release_log;;
  if do_commit then
    commit;;
    acquire_log;;
    upd_log (set_committing false);;
    release_log
  else mret tt.

(** Where the block is in the log, or [log_num]. *)
Definition log_index (b : Z) : Fs Z :=
  l ← get_log;
  loop (S (Z.to_nat (log_num (lh l)))) (λ i,
    l ← get_log;
    if i <? log_num (lh l) then
      c ← get_block i; mret (if c =? b then inr i else inl (i + 1))
    else mret (inr i)) 0.

Definition log_write (a : Z) : Fs unit :=
  l ← get_log;
  size ← log_size;
  (if u32 (size - 1) <=? u32 (log_num (lh l)) then panic else mret tt);;
  assert_ (1 <=? outstanding l);;
  acquire_log;;
  v ← get_buf a;
  i ← log_index (blockno v);
  put_block i (blockno v);;
  (if i =? log_num (lh l) then
     upd_buf a (set_refcnt (sint 64 (refcnt v + 1)));;
     upd_log (set_log_num (log_num (lh l) + 1))
   else mret tt);;
  release_log.

(** ** The map of free blocks *)

Definition buf_zero (blk : Z) : Fs unit :=
  buf ← buf_read blk;
  upd_buf buf (set_data (replicate (Z.to_nat SFS_BSIZE) 0));;
  log_write buf;;
  buf_release buf.

Definition block2map_block (b : Z) : Fs Z := sb ← gets f_sb; mret (u32 (b / SFS_BLKBITS + bmapstart sb)).

Definition get_byte (a i : Z) : Fs Z := v ← get_buf a; of_option (zlookup (data v) i).
Definition put_byte (a i x : Z) : Fs unit :=
  v ← get_buf a; d ← of_option (zset (data v) i x); upd_buf a (set_data d).

(** The first free bit of the block's map, from [blk] on. *)
Definition scan_map (buf blk : Z) : Fs (option Z) :=
  sb ← gets f_sb;
  loop (S (Z.to_nat SFS_BLKBITS)) (λ bit,
    if (bit <? SFS_BLKBITS) && (u32 (blk + bit) <? sb_size sb) then
      x ← get_byte buf (bit / 8);
      mret (if Z.land x (Z.shiftl 1 (bit mod 8)) =? 0 then inr (Some bit) else inl (bit + 1))
    else mret (inr None)) 0.

(** The buffer of a full map block is not released before the next one is read. *)
Definition blk_alloc : Fs Z :=
  sb ← gets f_sb;
  r ← loop (S (Z.to_nat (sb_size sb))) (λ '(blk, buf),
    if blk <? sb_size sb then
      m ← block2map_block blk;
      buf ← buf_read m;
      free ← scan_map buf blk;
      match free with
      | Some bit =>
          x ← get_byte buf (bit / 8);
          put_byte buf (bit / 8) (Z.lor x (Z.shiftl 1 (bit mod 8)));;
          log_write buf;;
          buf_release buf;;
          buf_zero (u32 (blk + bit));;
          mret (inr (inl (u32 (blk + bit))))
      | None => mret (inl (u32 (blk + SFS_BLKBITS), Some buf))
      end
    else mret (inr (inr buf))) (0, None);
  match r with
  | inl b => mret b
  | inr o => buf ← of_option o; buf_release buf;; panic
  end.

Definition blk_free (b : Z) : Fs unit :=
  m ← block2map_block b;
  buf ← buf_read m;
  let bit := b mod SFS_BLKBITS in
  x ← get_byte buf (bit / 8);
  (if Z.land x (Z.shiftl 1 (bit mod 8)) =? 0 then panic else mret tt);;
  put_byte buf (bit / 8) (Z.land x (u8 (Z.lnot (Z.shiftl 1 (bit mod 8)))));;
  log_write buf;;
  buf_release buf.
