(* ===== verification/SfsCache.v ===== *)
(** * The buffer cache in the store

    A cache is, for those who use it, what it shows of every block, how many hold a
    reference to it, and which buffers are locked; what no buffer shows is what is
    on the disk. *)
From S2P Require Import Prelude Errors PacketIO ListH SfsBuf.

Record cache := mk_cache {
  c_view : Z → bytes;       (* the contents of a block *)
  c_refs : gmap Z Z;        (* the references, where there are any *)
  c_held : gmap Z Z }.      (* the buffers locked, by their blocks *)

Definition refs_of (c : cache) (b : Z) : Z := default 0 (c_refs c !! b).
Definition full (x : bytes) : Prop := zlen x = SFS_BSIZE.

Record buf_ok (c : cache) (dv : Z) (v : Disk_buf) : Prop := {
  bo_dev : dev v = dv;
  bo_full : full (data v);
  bo_refs : refcnt v = refs_of c (blockno v);
  bo_sem : sem v = match c_held c !! blockno v with Some _ => 0 | None => 1 end;
  bo_data : valid v = true → blockno v ≠ 0 → data v = c_view c (blockno v) }.

Record cache_at (es : list Z) (c : cache) (w : fsworld) : Prop := {
  ca_ring : is_list (f_links w) buffer_list es;
  ca_buf a : a ∈ es → ∃ v, f_bufs w !! a = Some v ∧ buf_ok c (f_dev w) v;
  ca_uniq a a' v v' : a ∈ es → a' ∈ es → f_bufs w !! a = Some v → f_bufs w !! a' = Some v' →
    blockno v = blockno v' → blockno v ≠ 0 → a = a';
  ca_refs b m : c_refs c !! b = Some m → 0 < m ∧ 0 < b < d_blocks (f_disk w) ∧
    ∃ a v, a ∈ es ∧ f_bufs w !! a = Some v ∧ blockno v = b ∧ valid v = true;
  ca_held b a : c_held c !! b = Some a → a ∈ es ∧ is_Some (c_refs c !! b) ∧
    ∃ v, f_bufs w !! a = Some v ∧ blockno v = b;
  ca_disk b : 0 < b < d_blocks (f_disk w) → c_refs c !! b = None →
    contents (f_disk w) !! b = Some (c_view c b);
  ca_full b : 0 < b < d_blocks (f_disk w) → full (c_view c b);
  ca_size : d_blocks (f_disk w) < 2 ^ 20;
  ca_lock : buffer_list_lock w = false }.

(** A cache of [n] buffers. *)
Definition cache_ok (n : nat) (c : cache) (w : fsworld) : Prop := ∃ es, length es = n ∧ cache_at es c w.

(** What the cache leaves alone. *)
Definition keeps_rest (w w' : fsworld) : Prop :=
  f_disk w' = f_disk w ∧ f_log w' = f_log w ∧ f_sb w' = f_sb w.

Lemma keeps_rest_trans w1 w2 w3 : keeps_rest w1 w2 → keeps_rest w2 w3 → keeps_rest w1 w3.
Proof. unfold keeps_rest. intuition congruence. Qed.

(** ** One buffer changes *)

(** The buffer [a] takes up, or keeps, the block [b]; only [b] looks different. *)
Record changes (es : list Z) (c c' : cache) (w w' : fsworld) (a b : Z) (v v' : Disk_buf) : Prop := {
  ch_bufs : f_bufs w' = <[a := v']> (f_bufs w);
  ch_links : f_links w' = f_links w;
  ch_dev : f_dev w' = f_dev w;
  ch_blocks : d_blocks (f_disk w') = d_blocks (f_disk w);
  ch_lock : buffer_list_lock w' = false;
  ch_old : blockno v = b ∨
    c_refs c !! blockno v = None ∧ ∀ a' u, a' ∈ es → f_bufs w !! a' = Some u → blockno u ≠ b;
  ch_new : blockno v' = b;
  ch_range : 0 < b < d_blocks (f_disk w);
  ch_others x : x ≠ b → c_view c' x = c_view c x ∧ c_refs c' !! x = c_refs c !! x ∧
    c_held c' !! x = c_held c !! x ∧ contents (f_disk w') !! x = contents (f_disk w) !! x;
  ch_ok : buf_ok c' (f_dev w) v';
  ch_refs m : c_refs c' !! b = Some m → 0 < m ∧ valid v' = true;
  ch_held a' : c_held c' !! b = Some a' → a' = a ∧ is_Some (c_refs c' !! b);
  ch_disk : c_refs c' !! b = None → contents (f_disk w') !! b = Some (c_view c' b);
  ch_full : full (c_view c' b) }.

Lemma refs_of_other c c' x : c_refs c' !! x = c_refs c !! x → refs_of c' x = refs_of c x.
Proof. unfold refs_of. by intros ->. Qed.

Section change.
Context (es : list Z) (c c' : cache) (w w' : fsworld) (a b : Z) (v v' : Disk_buf).
Hypothesis Hc : cache_at es c w.
Hypothesis Ha : a ∈ es.
Hypothesis Hv : f_bufs w !! a = Some v.
Hypothesis Hch : changes es c c' w w' a b v v'.

(** Another buffer has another block. *)
Lemma other_block a' u : a' ∈ es → a' ≠ a → f_bufs w !! a' = Some u → blockno u ≠ b.
Proof.
  intros Ha' Hne Hu Hb. destruct (ch_old _ _ _ _ _ _ _ _ _ Hch) as [Ho|[_ Ho]]; [|by eapply Ho].
  apply Hne. eapply (ca_uniq _ _ _ Hc a' a u v); [done..|congruence|].
  pose proof (ch_range _ _ _ _ _ _ _ _ _ Hch). lia.
Qed.

Lemma change_buf a' : a' ∈ es → ∃ u, f_bufs w' !! a' = Some u ∧ buf_ok c' (f_dev w') u.
Proof.
  intros Ha'. rewrite (ch_bufs _ _ _ _ _ _ _ _ _ Hch), (ch_dev _ _ _ _ _ _ _ _ _ Hch).
  destruct (decide (a' = a)) as [->|Hne].
  { exists v'. rewrite lookup_insert_eq. split; [done|apply Hch]. }
  rewrite lookup_insert_ne by done. destruct (ca_buf _ _ _ Hc a' Ha') as (u & Hu & [H1 H2 H3 H4 H5]).
  exists u. split; [done|].
  destruct (ch_others _ _ _ _ _ _ _ _ _ Hch (blockno u)) as (E1 & E2 & E3 & _); [by eapply other_block|].
  split; [done..| | |].
  - by rewrite (refs_of_other c).
  - by rewrite E3.
  - by rewrite E1.
Qed.

Lemma change_uniq a1 a2 u1 u2 : a1 ∈ es → a2 ∈ es → f_bufs w' !! a1 = Some u1 → f_bufs w' !! a2 = Some u2 →
  blockno u1 = blockno u2 → blockno u1 ≠ 0 → a1 = a2.
Proof.
  intros H1 H2. rewrite (ch_bufs _ _ _ _ _ _ _ _ _ Hch), !lookup_insert_Some.
  pose proof (ch_new _ _ _ _ _ _ _ _ _ Hch) as Hn.
  intros [[<- <-]|[N1 U1]] [[<- <-]|[N2 U2]] Eb Hne; [done| | |].
  - exfalso. eapply (other_block a2); [done|done|exact U2|congruence].
  - exfalso. eapply (other_block a1); [done|done|exact U1|congruence].
  - by eapply (ca_uniq _ _ _ Hc a1 a2).
Qed.

Lemma change_refs x m : c_refs c' !! x = Some m → 0 < m ∧ 0 < x < d_blocks (f_disk w') ∧
  ∃ a1 u, a1 ∈ es ∧ f_bufs w' !! a1 = Some u ∧ blockno u = x ∧ valid u = true.
Proof.
  rewrite (ch_bufs _ _ _ _ _ _ _ _ _ Hch), (ch_blocks _ _ _ _ _ _ _ _ _ Hch). intros Hx.
  destruct (decide (x = b)) as [->|Hne].
  - destruct (ch_refs _ _ _ _ _ _ _ _ _ Hch _ Hx) as [? ?].
    split; [done|]. split; [apply Hch|]. exists a, v'. rewrite lookup_insert_eq. split_and!; try done. apply Hch.
  - destruct (ch_others _ _ _ _ _ _ _ _ _ Hch x Hne) as (_ & E2 & _). rewrite E2 in Hx.
    destruct (ca_refs _ _ _ Hc x m Hx) as (Hm & Hr & a1 & u & H1 & H2 & H3 & H4).
    split; [done|]. split; [done|]. exists a1, u. rewrite lookup_insert_ne; [done|]. intros <-.
    destruct (ch_old _ _ _ _ _ _ _ _ _ Hch) as [Ho|[Ho _]]; simplify_eq; congruence.
Qed.

Lemma change_held x a1 : c_held c' !! x = Some a1 → a1 ∈ es ∧ is_Some (c_refs c' !! x) ∧
  ∃ u, f_bufs w' !! a1 = Some u ∧ blockno u = x.
Proof.
  rewrite (ch_bufs _ _ _ _ _ _ _ _ _ Hch). intros Hx. destruct (decide (x = b)) as [->|Hne].
  - destruct (ch_held _ _ _ _ _ _ _ _ _ Hch _ Hx) as [-> ?].
    split; [done|]. split; [done|]. exists v'. rewrite lookup_insert_eq. split; [done|apply Hch].
  - destruct (ch_others _ _ _ _ _ _ _ _ _ Hch x Hne) as (_ & E2 & E3 & _). rewrite E3 in Hx. rewrite E2.
    destruct (ca_held _ _ _ Hc x a1 Hx) as (H1 & [m Hm] & u & H2 & H3).
    split; [done|]. split; [by eexists|]. exists u. rewrite lookup_insert_ne; [done|]. intros <-.
    destruct (ch_old _ _ _ _ _ _ _ _ _ Hch) as [Ho|[Ho _]]; simplify_eq; congruence.
Qed.

Lemma cache_change : cache_at es c' w'.
Proof.
  split.
  - rewrite (ch_links _ _ _ _ _ _ _ _ _ Hch). apply Hc.
  - apply change_buf.
  - apply change_uniq.
  - apply change_refs.
  - apply change_held.
  - intros x Hx Hr. rewrite (ch_blocks _ _ _ _ _ _ _ _ _ Hch) in Hx.
    destruct (decide (x = b)) as [->|Hne]; [by apply Hch|].
    destruct (ch_others _ _ _ _ _ _ _ _ _ Hch x Hne) as (E1 & E2 & _ & E4).
    rewrite E4, E1. apply Hc; [done|congruence].
  - intros x Hx. rewrite (ch_blocks _ _ _ _ _ _ _ _ _ Hch) in Hx.
    destruct (decide (x = b)) as [->|Hne]; [by apply Hch|].
    destruct (ch_others _ _ _ _ _ _ _ _ _ Hch x Hne) as (E1 & _). rewrite E1. by apply Hc.
  - rewrite (ch_blocks _ _ _ _ _ _ _ _ _ Hch). apply Hc.
  - apply Hch.
Qed.
End change.

(** * The buffer cache: what its operations do

    Reading a block takes a reference to it and locks it; what is shown of the
    blocks does not change, whichever buffer is taken for it. *)

(** ** Accessors *)

Lemma wp_get_dbuf a v w (Q : Disk_buf → fsworld → Prop) :
  f_bufs w !! a = Some v → Q v w → wp (get_buf a) w Q.
Proof.
  intros Hv HQ. unfold get_buf. rewrite wp_bind, wp_gets, wp_of_option. by exists v.
Qed.

Lemma wp_upd_dbuf a f v w (Q : unit → fsworld → Prop) :
  f_bufs w !! a = Some v → Q tt (set_f_bufs (<[a := f v]> (f_bufs w)) w) → wp (upd_buf a f) w Q.
Proof.
  intros Hv HQ. unfold upd_buf. apply wp_bind. eapply wp_get_dbuf; [done|]. exact HQ.
Qed.

Lemma wp_fs_links {A} (m : M heap A) w (Q : A → fsworld → Prop) :
  wp m (f_links w) (λ a h, Q a (set_f_links h w)) → wp (on_links m) w Q.
Proof. intros H. unfold on_links. by apply wp_zoom. Qed.

Lemma wp_acquire_list w (Q : unit → fsworld → Prop) :
  buffer_list_lock w = false → Q tt (set_list_lock true w) → wp acquire_list w Q.
Proof.
  intros Hl HQ. unfold acquire_list. rewrite wp_bind, wp_gets, wp_bind, wp_assert, Hl. done.
Qed.

Lemma wp_release_list w (Q : unit → fsworld → Prop) :
  buffer_list_lock w = true → Q tt (set_list_lock false w) → wp release_list w Q.
Proof.
  intros Hl HQ. unfold release_list. rewrite wp_bind, wp_gets, wp_bind, wp_assert, Hl. done.
Qed.

(** ** The ring read backwards *)

Definition mirror (h : heap) : heap := (λ e, mk_entry (next e) (prev e)) <$> h.

Lemma nxt_mirror h a : nxt (mirror h) a = prv h a.
Proof. unfold nxt, prv, mirror. rewrite lookup_fmap. by destruct (h !! a). Qed.

Lemma prv_mirror h a : prv (mirror h) a = nxt h a.
Proof. unfold nxt, prv, mirror. rewrite lookup_fmap. by destruct (h !! a). Qed.

Lemma linked_mirror h a b : linked h a b → linked (mirror h) b a.
Proof. unfold linked. rewrite nxt_mirror, prv_mirror. naive_solver. Qed.

Lemma lseg_mirror h a es b : lseg h a es b → lseg (mirror h) b (reverse es) a.
Proof.
  revert a. induction es as [|e es IH]; intros a; cbn [lseg]; [apply linked_mirror|].
  rewrite reverse_cons. intros [Hl Hs]. apply lseg_app. split; [by apply IH|]. cbn. by apply linked_mirror.
Qed.

Lemma is_list_mirror h hd es : is_list h hd es → is_list (mirror h) hd (reverse es).
Proof.
  intros [Hn Hs]. split; [|by apply lseg_mirror].
  apply NoDup_cons in Hn as [H1 H2]. apply NoDup_cons. rewrite elem_of_reverse.
  split; [done|]. by rewrite reverse_Permutation.
Qed.

(** ** Looking for a buffer *)

(** A walk that takes the first buffer with [p] and changes nothing before. *)
Lemma wp_for_each_buf {A} (nx : Z → M heap Z) (body : Z → Fs (option A)) h es w (p : Z → bool)
    (Q : option A → fsworld → Prop) :
  is_list h buffer_list es → (∀ a b, nxt h a = Some b → on_links (nx a) w = Ok (b, w)) →
  (length es ≤ size (f_links w))%nat →
  (∀ a, a ∈ es → p a = false → wp (body a) w (λ o w', o = None ∧ w' = w)) →
  (∀ a, a ∈ es → p a = true → wp (body a) w (λ o w', is_Some o ∧ Q o w')) →
  ((∀ a, a ∈ es → p a = false) → Q None w) →
  wp (for_each_buf nx body) w Q.
Proof.
  intros Hl Hnx Hn Hf Ht HQ. unfold for_each_buf. apply wp_bind.
  eapply (wp_for_each_inv h w _ _ (size (f_links w)) buffer_list es _
    (λ l1 _, ∀ a, a ∈ l1 → p a = false)); [done..|lia| | |set_solver].
  - intros l1 a l2 [] -> HP. unfold le2disk_buf. apply wp_bind.
    destruct (p a) eqn:E.
    + eapply wp_conseq; [apply Ht; [set_solver|done]|]. intros o w' [[x ->] HQ']. rewrite wp_ret. exact HQ'.
    + eapply wp_conseq; [apply Hf; [set_solver|done]|]. intros o w' [-> ->]. rewrite wp_ret.
      split; [done|]. intros a' [?| ->%list_elem_of_singleton]%elem_of_app; auto.
  - intros _ HP. rewrite wp_ret. by apply HQ.
Qed.

Lemma fs_links_next w a b : nxt (f_links w) a = Some b → on_links (list_next a) w = Ok (b, w).
Proof. intros Hn. apply wp_result, wp_fs_links. eapply wp_list_next; [done|]. by destruct w. Qed.

Lemma fs_links_prev w a b : nxt (mirror (f_links w)) a = Some b → on_links (list_prev a) w = Ok (b, w).
Proof.
  rewrite nxt_mirror. intros Hn. apply wp_result, wp_fs_links. eapply wp_list_prev; [done|]. by destruct w.
Qed.

(** ** Taking a buffer *)

Section get.
Context (es : list Z) (c : cache) (w : fsworld).
Hypothesis Hc : cache_at es c w.

(** What is read of the buffer at [a]. *)
Definition buf_at (a : Z) : Disk_buf := default (mk_buf false 0 0 0 0 []) (f_bufs w !! a).

Lemma buf_at_ok a : a ∈ es → f_bufs w !! a = Some (buf_at a) ∧ buf_ok c (f_dev w) (buf_at a).
Proof. intros Ha. destruct (ca_buf _ _ _ Hc a Ha) as (v & Hv & Hok). unfold buf_at. by rewrite Hv. Qed.

Lemma ring_size : (length es ≤ size (f_links w))%nat.
Proof. pose proof (is_list_size _ _ _ (ca_ring _ _ _ Hc)). lia. Qed.

Lemma no_refs b : refs_of c b = 0 → c_refs c !! b = None.
Proof.
  unfold refs_of. destruct (c_refs c !! b) as [m|] eqn:E; [|done].
  pose proof (ca_refs _ _ _ Hc b m E) as [? _]. cbn. lia.
Qed.

Lemma free_sem v : buf_ok c (f_dev w) v → refcnt v = 0 → sem v = 1.
Proof.
  intros [_ _ Hr Hs _] H0. rewrite Hr in H0. apply no_refs in H0.
  rewrite Hs. destruct (c_held c !! blockno v) as [a|] eqn:E; [|done].
  destruct (ca_held _ _ _ Hc _ _ E) as (_ & [m Hm] & _). congruence.
Qed.

(** Some buffer is free: each of the others has a block of its own. *)
Lemma free_exists : (size (c_refs c) < length es)%nat → ∃ a, a ∈ es ∧ refcnt (buf_at a) = 0.
Proof.
  intros Hlt. destruct (decide (Exists (λ a, refcnt (buf_at a) = 0) es)) as [H|H].
  { apply Exists_exists in H as (a & ? & ?). by exists a. }
  exfalso. apply not_Exists_Forall in H; [|apply _]. rewrite Forall_forall in H.
  assert (∀ a, a ∈ es → is_Some (c_refs c !! blockno (buf_at a))) as Hr.
  { intros a Ha. specialize (H a Ha). cbn in H. destruct (buf_at_ok a Ha) as [_ [_ _ E _ _]].
    rewrite E in H. unfold refs_of in H. by destruct (c_refs c !! blockno (buf_at a)). }
  assert (NoDup ((λ a, blockno (buf_at a)) <$> es)) as Hnd.
  { apply NoDup_fmap_2_strong; [|by destruct (ca_ring _ _ _ Hc) as [[_ ?]%NoDup_cons _]].
    intros a a' Ha Ha' E. destruct (Hr a Ha) as [m Hm].
    destruct (buf_at_ok a Ha) as [H1 _]. destruct (buf_at_ok a' Ha') as [H2 _].
    eapply (ca_uniq _ _ _ Hc a a'); [done..|].
    destruct (ca_refs _ _ _ Hc _ _ Hm) as (_ & ? & _). lia. }
  assert ((λ a, blockno (buf_at a)) <$> es ⊆ elements (dom (c_refs c))) as Hsub.
  { intros b (a & -> & Ha)%list_elem_of_fmap. apply elem_of_elements, elem_of_dom. by apply Hr. }
  pose proof (submseteq_length _ _ (NoDup_submseteq _ _ Hnd Hsub)) as Hle.
  rewrite length_fmap in Hle. change (length (elements (dom (c_refs c)))) with (size (dom (c_refs c))) in Hle.
  rewrite size_dom in Hle. lia.
Qed.

Lemma wp_lock_disk_buf a v (w' : fsworld) (Q : unit → fsworld → Prop) :
  f_bufs w' !! a = Some v → sem v = 1 → Q tt (set_f_bufs (<[a := set_sem 0 v]> (f_bufs w')) w') →
  wp (lock_disk_buf a) w' Q.
Proof.
  intros Hv Hs HQ. unfold lock_disk_buf. apply wp_bind. eapply wp_get_dbuf; [done|]. rewrite Hs. cbn.
  eapply wp_upd_dbuf; [done|]. exact HQ.
Qed.

Lemma set_bufs_twice a v1 v2 :
  set_f_bufs (<[a := v2]> (f_bufs (set_list_lock false (set_f_bufs (<[a := v1]> (f_bufs (set_list_lock true w))) (set_list_lock true w)))))
    (set_list_lock false (set_f_bufs (<[a := v1]> (f_bufs (set_list_lock true w))) (set_list_lock true w))) =
  set_f_bufs (<[a := v2]> (f_bufs w)) w.
Proof.
  pose proof (ca_lock _ _ _ Hc) as Hl. clear Hc. destruct w. cbn in *. subst. unfold set_f_bufs. cbn.
  by rewrite insert_insert_eq.
Qed.

Definition is_of (b : Z) (a : Z) : bool := (dev (buf_at a) =? f_dev w) && (blockno (buf_at a) =? b).

Lemma is_of_spec b a : a ∈ es → is_of b a = bool_decide (blockno (buf_at a) = b).
Proof.
  intros Ha. destruct (buf_at_ok a Ha) as [_ [Hd _ _ _ _]]. unfold is_of. rewrite Hd, Z.eqb_refl. cbn.
  destruct (Z.eqb_spec (blockno (buf_at a)) b); [by rewrite bool_decide_true|by rewrite bool_decide_false].
Qed.

(** A buffer that has the block, or a free one none has. *)
Lemma wp_buf_get b (Q : Z → fsworld → Prop) :
  (is_Some (c_refs c !! b) ∨ (size (c_refs c) < length es)%nat) → c_held c !! b = None → refs_of c b < 2 ^ 62 →
  (∀ a, a ∈ es → blockno (buf_at a) = b →
    Q a (set_f_bufs (<[a := set_sem 0 (set_refcnt (refs_of c b + 1) (buf_at a))]> (f_bufs w)) w)) →
  (∀ a, a ∈ es → refcnt (buf_at a) = 0 → (∀ a', a' ∈ es → blockno (buf_at a') ≠ b) →
    Q a (set_f_bufs (<[a := set_sem 0 (retarget (f_dev w) b (buf_at a))]> (f_bufs w)) w)) →
  wp (buf_get b) w Q.
Proof.
  intros Hfree Hh Hlt Hhit Hmiss. unfold buf_get. pose proof ring_size as Hn.
  apply wp_bind, wp_acquire_list; [apply Hc|]. rewrite wp_bind, wp_gets. apply wp_bind.
  assert (∀ a, a ∈ es → f_bufs (set_list_lock true w) !! a = Some (buf_at a)) as Hat by (intros; by apply buf_at_ok).
  eapply (wp_for_each_buf list_next _ (f_links w) es (set_list_lock true w) (is_of b)); [apply Hc| |exact Hn|..].
  { intros x y. apply (fs_links_next (set_list_lock true w)). }
  { intros a Ha E. unfold is_of in E. apply wp_bind. eapply wp_get_dbuf; [by apply Hat|].
    cbn [f_dev set_list_lock]. rewrite E. by rewrite wp_ret. }
  - intros a Ha E. pose proof E as E'. unfold is_of in E'. apply wp_bind. eapply wp_get_dbuf; [by apply Hat|].
    cbn [f_dev set_list_lock]. rewrite E'. rewrite is_of_spec in E by done. apply bool_decide_eq_true in E.
    apply wp_bind. eapply wp_upd_dbuf; [by apply Hat|]. rewrite wp_ret. split; [by eexists|]. cbn beta iota.
    apply wp_bind, wp_release_list; [done|]. apply wp_bind.
    destruct (buf_at_ok a Ha) as [_ [_ _ Er Es _]].
    eapply (wp_lock_disk_buf a); [cbn; by rewrite lookup_insert_eq|by rewrite E, Hh in Es; cbn|].
    rewrite wp_ret, set_bufs_twice. rewrite Er, E.
    assert (0 ≤ refs_of c b) by (unfold refs_of; destruct (c_refs c !! b) eqn:Em; [apply (ca_refs _ _ _ Hc) in Em as [? _]|]; cbn; lia).
    replace (sint 64 (refs_of c b + 1)) with (refs_of c b + 1); [by apply Hhit|].
    unfold sint. rewrite Z.mod_small; lia.
  - intros Hno. apply wp_bind.
    assert (∀ a, a ∈ es → blockno (buf_at a) ≠ b) as Hne.
    { intros a Ha. specialize (Hno a Ha). rewrite is_of_spec in Hno by done. by apply bool_decide_eq_false in Hno. }
    destruct Hfree as [[m Hm]|Hfree].
    { destruct (ca_refs _ _ _ Hc _ _ Hm) as (_ & _ & a & v & Ha & Hv & Eb & _).
      destruct (Hne a Ha). unfold buf_at. by rewrite Hv. }
    assert (∀ a, a ∈ reverse es → a ∈ es) as Hrev by (intros a; apply elem_of_reverse).
    eapply (wp_for_each_buf list_prev _ (mirror (f_links w)) (reverse es) (set_list_lock true w) (λ a, refcnt (buf_at a) =? 0));
      [apply is_list_mirror, Hc| |by rewrite length_reverse|..].
    { intros x y. apply (fs_links_prev (set_list_lock true w)). }
    { intros a Ha E. apply Hrev in Ha. apply wp_bind. eapply wp_get_dbuf; [by apply Hat|]. rewrite E. by rewrite wp_ret. }
    + intros a Ha E. apply Hrev in Ha. apply wp_bind. eapply wp_get_dbuf; [by apply Hat|]. rewrite E.
      apply Z.eqb_eq in E. apply wp_bind. eapply wp_upd_dbuf; [by apply Hat|]. rewrite wp_ret. split; [by eexists|].
      cbn beta iota. apply wp_bind, wp_release_list; [done|]. apply wp_bind.
      eapply (wp_lock_disk_buf a); [cbn; by rewrite lookup_insert_eq|cbn; apply free_sem; [by apply buf_at_ok|done]|].
      rewrite wp_ret, set_bufs_twice. by apply Hmiss.
    + intros Hall. exfalso. destruct (free_exists Hfree) as (a & Ha & E).
      specialize (Hall a ltac:(by apply elem_of_reverse)). cbn in Hall. by rewrite E in Hall.
Qed.
End get.

(** ** The device *)

Lemma iob_offset a b : 0 < b < 2 ^ 20 → io_offset (buf_iob a b) = b * 4096.
Proof. intros Hb. unfold buf_iob, iobuf_init. cbn [io_offset]. unfold SFS_BSIZE. apply wrap_small. lia. Qed.

Lemma wp_disk0_io write a b w (Q : Z → fsworld → Prop) :
  0 < b < d_blocks (f_disk w) → d_blocks (f_disk w) < 2 ^ 20 →
  wp (if write : bool then disk0fs_write (buf_iob a b) else disk0fs_read (buf_iob a b)) w (λ _, Q 0) →
  wp (disk0_io (buf_iob a b) write) w Q.
Proof.
  intros Hb Hd HQ. unfold disk0_io. rewrite iob_offset by lia.
  change (io_resid (buf_iob a b)) with 4096. change (io_len (buf_iob a b)) with 4096. unfold DISK0_BLKSIZE, SFS_BSIZE.
  rewrite Z.mod_mul, Z.div_mul by lia. change (4096 mod 4096) with 0. change (4096 / 4096) with 1.
  cbn [Z.eqb negb orb]. rewrite wp_bind, wp_gets.
  rewrite (wrap_small 32 b), (wrap_small 32 1), (wrap_small 32 (b + 1)) by lia.
  rewrite (proj2 (Z.ltb_ge _ _)) by lia. cbn [Z.eqb]. rewrite wp_bind, wp_assert. split; [done|].
  apply wp_bind. destruct write; exact HQ.
Qed.

Lemma wp_disk_read a b v x w (Q : Z → fsworld → Prop) :
  0 < b < d_blocks (f_disk w) → d_blocks (f_disk w) < 2 ^ 20 →
  f_bufs w !! a = Some v → contents (f_disk w) !! b = Some x →
  Q 0 (set_f_bufs (<[a := set_data x v]> (f_bufs w)) w) → wp (disk0_io (buf_iob a b) false) w Q.
Proof.
  intros Hb Hd Hv Hx HQ. apply wp_disk0_io; [done..|]. unfold disk0fs_read. rewrite iob_offset by lia.
  unfold DISK0_BLKSIZE, SFS_BSIZE. rewrite Z.div_mul by lia.
  rewrite wp_bind, wp_gets, Hx, wp_bind. apply wp_of_option. exists x. split; [done|].
  eapply wp_upd_dbuf; [exact Hv|exact HQ].
Qed.

(** The device after one more write. *)
Definition written (d : disk) (b : Z) (x : bytes) : disk :=
  mk_disk (d_blocks d) (d_base d) (d_writes d ++ [(b, x)]).

#[global] Arguments written : simpl never.

Lemma contents_written d b x : contents (written d b x) = <[b := x]> (contents d).
Proof. unfold contents, apply_writes, written. cbn. by rewrite foldl_app. Qed.

Lemma wp_disk_write a b v w (Q : Z → fsworld → Prop) :
  0 < b < d_blocks (f_disk w) → d_blocks (f_disk w) < 2 ^ 20 →
  f_bufs w !! a = Some v → Q 0 (set_f_disk (written (f_disk w) b (data v)) w) →
  wp (disk0_io (buf_iob a b) true) w Q.
Proof.
  intros Hb Hd Hv HQ. apply wp_disk0_io; [done..|]. unfold disk0fs_write.
  apply wp_bind. eapply wp_get_dbuf; [exact Hv|]. rewrite wp_modify, iob_offset by lia.
  unfold DISK0_BLKSIZE, SFS_BSIZE. rewrite Z.div_mul by lia. exact HQ.
Qed.

(** ** Reading a block *)

Definition c_read (b a : Z) (c : cache) : cache :=
  mk_cache (c_view c) (<[b := refs_of c b + 1]> (c_refs c)) (<[b := a]> (c_held c)).

Lemma refs_nonneg es c w b : cache_at es c w → 0 ≤ refs_of c b.
Proof.
  intros Hc. unfold refs_of. destruct (c_refs c !! b) as [m|] eqn:E; cbn; [|done].
  apply (ca_refs _ _ _ Hc) in E as [? _]. lia.
Qed.

Lemma buf_ok_read c b a v dv : dev v = dv → full (data v) → blockno v = b → sem v = 0 →
  refcnt v = refs_of c b + 1 → (valid v = true → data v = c_view c b) → buf_ok (c_read b a c) dv v.
Proof.
  intros Hd Hf Hb Hs Hr Hv. split; [done|done| | |]; rewrite Hb.
  - unfold refs_of at 1. cbn. by rewrite lookup_insert_eq.
  - cbn. by rewrite lookup_insert_eq.
  - intros. by apply Hv.
Qed.

(** The buffer taken up for the block shows it. *)
Lemma read_changes es c w a b v v' :
  cache_at es c w → a ∈ es → 0 < b < d_blocks (f_disk w) →
  (blockno v = b ∨ c_refs c !! blockno v = None ∧ ∀ a' u, a' ∈ es → f_bufs w !! a' = Some u → blockno u ≠ b) →
  dev v' = f_dev w → full (data v') → blockno v' = b → sem v' = 0 → refcnt v' = refs_of c b + 1 →
  valid v' = true → data v' = c_view c b → f_bufs w !! a = Some v →
  cache_at es (c_read b a c) (set_f_bufs (<[a := v']> (f_bufs w)) w).
Proof.
  intros Hc Ha Hb Ho Hd Hf Hb' Hs Hr Hv Hx Hw.
  eapply (cache_change es c _ w _ a b v v'); [done..|]. split; try done; cbn.
  - apply Hc.
  - intros x Hx'. by rewrite !lookup_insert_ne.
  - apply buf_ok_read; auto.
  - rewrite lookup_insert_eq. intros m [= <-]. pose proof (refs_nonneg _ _ _ b Hc). split; [lia|done].
  - rewrite lookup_insert_eq. intros a' [= <-]. rewrite lookup_insert_eq. by split.
  - by rewrite lookup_insert_eq.
  - by apply Hc.
Qed.

Lemma wp_buf_read n c b w (Q : Z → fsworld → Prop) :
  cache_ok n c w → 0 < b < d_blocks (f_disk w) → c_held c !! b = None → refs_of c b < 2 ^ 62 →
  (is_Some (c_refs c !! b) ∨ (size (c_refs c) < n)%nat) →
  (∀ a w', cache_ok n (c_read b a c) w' → keeps_rest w w' → Q a w') → wp (buf_read b) w Q.
Proof.
  intros (es & <- & Hc) Hb Hh Hr Hfree HQ. unfold buf_read. apply wp_bind.
  pose proof (ca_size _ _ _ Hc) as Hsz.
  eapply (wp_buf_get es c w Hc); [done..| |].
  - intros a Ha Eb. destruct (buf_at_ok es c w Hc a Ha) as [Hv [H1 H2 H3 H4 H5]]. rewrite Eb in H5.
    apply wp_bind. eapply wp_get_dbuf; [cbn; by rewrite lookup_insert_eq|]. cbn [valid set_sem set_refcnt].
    apply wp_bind. destruct (valid (buf_at w a)) eqn:Ev; rewrite ?wp_ret.
    + apply HQ; [|done]. exists es. split; [done|]. eapply (read_changes es c w a b (buf_at w a)); try done.
      * by left.
      * apply H5; [done|lia].
    + cbn [blockno set_sem set_refcnt]. rewrite Eb. destruct (c_refs c !! b) as [m|] eqn:Em.
      { destruct (ca_refs _ _ _ Hc _ _ Em) as (_ & _ & a' & v' & Ha' & Hv' & Eb' & Ev').
        assert (a' = a) as -> by (eapply (ca_uniq _ _ _ Hc a' a); [done..|congruence|lia]). congruence. }
      apply wp_bind. eapply wp_disk_read; [done|done|cbn; by rewrite lookup_insert_eq|by apply (ca_disk _ _ _ Hc)|].
      eapply wp_upd_dbuf; [cbn; by rewrite lookup_insert_eq|]. cbn [f_bufs set_f_bufs]. rewrite wp_ret, !insert_insert_eq.
      apply HQ; [|done]. exists es. split; [done|]. eapply (read_changes es c w a b (buf_at w a)); try done.
      * by left.
      * by apply (ca_full _ _ _ Hc).
  - intros a Ha H0 Hno. destruct (buf_at_ok es c w Hc a Ha) as [Hv [H1 H2 H3 H4 H5]].
    assert (c_refs c !! b = None) as Em.
    { destruct (c_refs c !! b) as [m|] eqn:Em; [|done].
      destruct (ca_refs _ _ _ Hc _ _ Em) as (_ & _ & a' & v' & Ha' & Hv' & Eb' & Ev').
      destruct (Hno a' Ha'). unfold buf_at. by rewrite Hv'. }
    apply wp_bind. eapply wp_get_dbuf; [cbn; by rewrite lookup_insert_eq|]. cbn [valid set_sem retarget blockno].
    apply wp_bind, wp_bind. eapply wp_disk_read; [done|done|cbn; by rewrite lookup_insert_eq|by apply (ca_disk _ _ _ Hc)|].
    eapply wp_upd_dbuf; [cbn; by rewrite lookup_insert_eq|]. cbn [f_bufs set_f_bufs]. rewrite wp_ret, !insert_insert_eq.
    apply HQ; [|done]. exists es. split; [done|]. eapply (read_changes es c w a b (buf_at w a)); try done.
    + right. split; [apply (no_refs es c w Hc); congruence|].
      intros a' u Ha' Hu. specialize (Hno a' Ha'). unfold buf_at in Hno. by rewrite Hu in Hno.
    + by apply (ca_full _ _ _ Hc).
    + cbn. unfold refs_of. by rewrite Em.
Qed.

(** ** A buffer that is held *)

Definition c_set (b : Z) (x : bytes) (c : cache) : cache :=
  mk_cache (λ y, if decide (y = b) then x else c_view c y) (c_refs c) (c_held c).
Definition c_count (b m : Z) (c : cache) : cache := mk_cache (c_view c) (<[b := m]> (c_refs c)) (c_held c).
Definition c_drop (b : Z) (c : cache) : cache :=
  mk_cache (c_view c)
    (if decide (refs_of c b = 1) then delete b (c_refs c) else <[b := refs_of c b - 1]> (c_refs c))
    (delete b (c_held c)).

(** What the holder sees of it. *)
Record held_buf (c : cache) (b : Z) (w : fsworld) (v : Disk_buf) : Prop := {
  hb_block : blockno v = b;
  hb_sem : sem v = 0;
  hb_valid : valid v = true;
  hb_data : data v = c_view c b;
  hb_refs : c_refs c !! b = Some (refcnt v);
  hb_pos : 0 < refcnt v;
  hb_dev : dev v = f_dev w;
  hb_full : full (data v);
  hb_range : 0 < b < d_blocks (f_disk w);
  hb_size : d_blocks (f_disk w) < 2 ^ 20 }.

Lemma held_get es c w b a : cache_at es c w → c_held c !! b = Some a →
  a ∈ es ∧ ∃ v, f_bufs w !! a = Some v ∧ held_buf c b w v.
Proof.
  intros Hc Hh. destruct (ca_held _ _ _ Hc _ _ Hh) as (Ha & [m Hm] & v & Hv & Eb).
  split; [done|]. exists v. split; [done|].
  destruct (ca_buf _ _ _ Hc a Ha) as (v' & Hv' & [H1 H2 H3 H4 H5]). simplify_eq.
  destruct (ca_refs _ _ _ Hc _ _ Hm) as (Hp & Hr & a' & u & Ha' & Hu & Eb & Ev).
  assert (a' = a) as -> by (eapply (ca_uniq _ _ _ Hc a' a); [done..|lia]). simplify_eq.
  unfold refs_of in H3. rewrite Hm in H3. cbn in H3. rewrite Hh in H4.
  split; try done; [|by rewrite H3|lia|apply Hc]. apply H5; [done|lia].
Qed.

Section held.
Context (n : nat) (c : cache) (w : fsworld) (b a : Z).
Hypothesis Hc : cache_ok n c w.
Hypothesis Hh : c_held c !! b = Some a.

Lemma wp_held (Q : Disk_buf → fsworld → Prop) :
  (∀ v, held_buf c b w v → Q v w) → wp (get_buf a) w Q.
Proof.
  destruct Hc as (es & _ & Hc'). intros HQ.
  destruct (held_get _ _ _ _ _ Hc' Hh) as (_ & v & Hv & Hb). eapply wp_get_dbuf; [done|by apply HQ].
Qed.

(** The holder changes its buffer, or what lies on the disk. *)
Lemma held_change es c' w' v v' :
  cache_at es c w → f_bufs w !! a = Some v → held_buf c b w v →
  f_bufs w' = <[a := v']> (f_bufs w) → f_links w' = f_links w → f_dev w' = f_dev w →
  d_blocks (f_disk w') = d_blocks (f_disk w) → buffer_list_lock w' = false →
  blockno v' = b → dev v' = dev v → valid v' = true → sem v' = 0 → data v' = c_view c' b → full (c_view c' b) →
  c_refs c' = <[b := refcnt v']> (c_refs c) → 0 < refcnt v' → c_held c' = c_held c →
  (∀ x, x ≠ b → c_view c' x = c_view c x ∧ contents (f_disk w') !! x = contents (f_disk w) !! x) →
  cache_ok (length es) c' w'.
Proof.
  intros Hc' Hv [] Eb El Ed En Hl Hb Hd Hva Hs Hda Hf Hr Hp Hhe Hx. exists es. split; [done|].
  eapply (cache_change es c c' w w' a b v v'); [done|by apply (held_get _ _ _ _ _ Hc' Hh)|done|]. split; try done.
  - by left.
  - intros x Hne. destruct (Hx x Hne). rewrite Hr, Hhe, lookup_insert_ne by done. done.
  - split; [congruence|by rewrite Hda| | |by intros; rewrite Hb].
    + unfold refs_of. by rewrite Hb, Hr, lookup_insert_eq.
    + by rewrite Hb, Hhe, Hh.
  - intros m. rewrite Hr, lookup_insert_eq. by intros [= <-].
  - intros a'. rewrite Hhe, Hh, Hr, lookup_insert_eq. intros [= <-]. split; [done|by eexists].
  - by rewrite Hr, lookup_insert_eq.
Qed.

Lemma wp_set_data x (Q : unit → fsworld → Prop) :
  full x → (∀ w', cache_ok n (c_set b x c) w' → keeps_rest w w' → Q tt w') →
  wp (upd_buf a (set_data x)) w Q.
Proof.
  destruct Hc as (es & <- & Hc'). intros Hx HQ.
  destruct (held_get _ _ _ _ _ Hc' Hh) as (_ & v & Hv & Hb). eapply wp_upd_dbuf; [done|].
  apply HQ; [|done]. pose proof Hb as [].
  eapply (held_change es _ _ v (set_data x v)); try done; cbn.
  - apply Hc'.
  - by rewrite decide_True.
  - by rewrite decide_True.
  - by rewrite insert_id.
  - intros y Hy. by rewrite decide_False.
Qed.

Lemma wp_set_count m (Q : unit → fsworld → Prop) :
  0 < m → (∀ w', cache_ok n (c_count b m c) w' → keeps_rest w w' → Q tt w') →
  wp (upd_buf a (set_refcnt m)) w Q.
Proof.
  destruct Hc as (es & <- & Hc'). intros Hm HQ.
  destruct (held_get _ _ _ _ _ Hc' Hh) as (_ & v & Hv & Hb). eapply wp_upd_dbuf; [done|].
  apply HQ; [|done]. pose proof Hb as [].
  eapply (held_change es _ _ v (set_refcnt m v)); try done; cbn; [apply Hc'|].
  apply (ca_full _ _ _ Hc'). done.
Qed.

Lemma wp_buf_write (Q : unit → fsworld → Prop) :
  (∀ w', cache_ok n c w' → f_disk w' = written (f_disk w) b (c_view c b) →
    f_log w' = f_log w → f_sb w' = f_sb w → Q tt w') →
  wp (buf_write a) w Q.
Proof.
  destruct Hc as (es & <- & Hc'). intros HQ.
  destruct (held_get _ _ _ _ _ Hc' Hh) as (_ & v & Hv & Hb). pose proof Hb as [].
  unfold buf_write. apply wp_bind. eapply wp_get_dbuf; [done|]. rewrite wp_bind, wp_assert, hb_sem0. split; [done|].
  rewrite hb_block0. apply wp_bind. eapply wp_disk_write; [done..|].
  eapply wp_upd_dbuf; [exact Hv|]. apply HQ; cbn; [|by rewrite hb_data0|done..].
  eapply (held_change es _ _ v (set_valid true v)); try done; cbn.
  - apply Hc'.
  - by rewrite <- hb_data0.
  - by rewrite insert_id.
  - intros x Hx. split; [done|]. by rewrite contents_written, lookup_insert_ne.
Qed.
End held.

(** ** Letting a buffer go *)

Lemma ring_reinsert es1 a es2 w (Q : unit → fsworld → Prop) :
  is_list (f_links w) buffer_list (es1 ++ a :: es2) →
  (∀ h, is_list h buffer_list (es1 ++ es2 ++ [a]) → Q tt (set_f_links h w)) →
  wp (on_links (list_del (link a));; on_links (list_add_before buffer_list (link a))) w Q.
Proof.
  intros Hl HQ. unfold link. apply wp_bind, wp_fs_links. eapply wp_list_del; [exact Hl|].
  intros h1 H1 [D1 _]. destruct Hl as [Hnd Hs]. apply wp_fs_links. cbn [f_links set_f_links].
  eapply wp_list_add_before; [exact H1| | |].
  - rewrite <- Permutation_middle in Hnd. apply NoDup_cons in Hnd as [Hb [Ha _]%NoDup_cons]. set_solver.
  - rewrite D1. eapply (lseg_dom _ _ _ _ _ Hs). set_solver.
  - intros h2 H2 _. rewrite <- app_assoc in H2. apply (HQ h2) in H2. by destruct w.
Qed.

Section release.
Context (es : list Z) (c : cache) (w : fsworld) (b a : Z) (v : Disk_buf).
Hypothesis Hc : cache_at es c w.
Hypothesis Hh : c_held c !! b = Some a.
Hypothesis Hv : f_bufs w !! a = Some v.
Hypothesis Hb : held_buf c b w v.

Definition let_go : Disk_buf := set_refcnt (refcnt v - 1) (set_sem 1 v).

Lemma release_changes :
  (refcnt v = 1 → contents (f_disk w) !! b = Some (c_view c b)) →
  cache_at es (c_drop b c) (set_f_bufs (<[a := let_go]> (f_bufs w)) w).
Proof.
  intros Hd. destruct Hb. assert (refs_of c b = refcnt v) as Er by (unfold refs_of; by rewrite hb_refs0).
  eapply (cache_change es c _ w _ a b v let_go); [done|by apply (held_get _ _ _ _ _ Hc Hh)|done|].
  split; try done; cbn.
  - apply Hc.
  - by left.
  - intros x Hx. rewrite lookup_delete_ne by done. split_and!; try done.
    case_decide; [by rewrite lookup_delete_ne|by rewrite lookup_insert_ne].
  - split; cbn; [done|done| | |by rewrite hb_block0].
    + unfold refs_of at 1. cbn. rewrite hb_block0, Er. case_decide as E.
      * rewrite lookup_delete_eq. cbn. lia.
      * by rewrite lookup_insert_eq.
    + by rewrite hb_block0, lookup_delete_eq.
  - intros m. rewrite Er. case_decide as E; [by rewrite lookup_delete_eq|].
    rewrite lookup_insert_eq. intros [= <-]. split; [lia|done].
  - by rewrite lookup_delete_eq.
  - rewrite Er. case_decide as E; [by intros; apply Hd|by rewrite lookup_insert_eq].
  - by rewrite <- hb_data0.
Qed.
End release.

Lemma cache_reorder es es' c w h : es' ≡ₚ es → is_list h buffer_list es' →
  cache_at es c w → cache_at es' c (set_f_links h w).
Proof.
  intros Hp Hl [H1 H2 H3 H4 H5 H6 H7 H8 H9]. split; try done; setoid_rewrite Hp; done.
Qed.

Lemma wp_buf_release n c w b a (Q : unit → fsworld → Prop) :
  cache_ok n c w → c_held c !! b = Some a → refs_of c b < 2 ^ 62 →
  (refs_of c b = 1 → contents (f_disk w) !! b = Some (c_view c b)) →
  (∀ w', cache_ok n (c_drop b c) w' → keeps_rest w w' → Q tt w') →
  wp (buf_release a) w Q.
Proof.
  intros (es & <- & Hc) Hh Hlt Hd HQ.
  destruct (held_get _ _ _ _ _ Hc Hh) as (Ha & v & Hv & Hb). pose proof Hb as [].
  assert (refs_of c b = refcnt v) as Er by (unfold refs_of; by rewrite hb_refs0). rewrite Er in *.
  pose proof (release_changes es c w b a v Hc Hh Hv Hb Hd) as Hc'.
  unfold buf_release. apply wp_bind. eapply wp_get_dbuf; [exact Hv|].
  rewrite wp_bind, wp_assert, hb_sem0. split; [done|]. unfold unlock_disk_buf.
  apply wp_bind, wp_bind. eapply wp_get_dbuf; [exact Hv|]. rewrite hb_sem0. change (0 + 1) with 1.
  eapply wp_upd_dbuf; [exact Hv|]. apply wp_bind, wp_acquire_list; [apply Hc|].
  apply wp_bind. eapply wp_get_dbuf; [cbn; by rewrite lookup_insert_eq|]. apply wp_bind.
  eapply wp_upd_dbuf; [cbn; by rewrite lookup_insert_eq|].
  assert (sint 64 (refcnt v - 1) = refcnt v - 1) as Es by (unfold sint; rewrite Z.mod_small; lia).
  cbn [refcnt set_sem]. rewrite Es. cbn [f_bufs set_f_bufs set_list_lock]. rewrite insert_insert_eq.
  change (set_refcnt (refcnt v - 1) (set_sem 1 v)) with (let_go v).
  assert (∀ w', cache_ok (length es) (c_drop b c) w' → keeps_rest w w' → buffer_list_lock w' = false →
    wp disk_buf_wakeup w' Q) as Hend.
  { intros w' Hok Hk Hl. unfold disk_buf_wakeup. apply wp_bind, wp_acquire_list; [done|].
    apply wp_release_list; [done|]. destruct w'. cbn in Hl. subst. by apply HQ. }
  pose proof (ca_lock _ _ _ Hc) as Hl.
  apply wp_bind. destruct (Z.eqb_spec (refcnt v - 1) 0) as [E|E].
  - apply list_elem_of_split in Ha as (es1 & es2 & ->).
    eapply (ring_reinsert es1 a es2); [apply (ca_ring _ _ _ Hc)|]. intros h Hr.
    apply wp_bind, wp_release_list; [done|]. apply Hend; [|done|done].
    exists (es1 ++ es2 ++ [a]). split; [rewrite !length_app; cbn; lia|].
    pose proof (cache_reorder _ (es1 ++ es2 ++ [a]) _ _ h ltac:(by rewrite (Permutation_app_comm es2 [a])) Hr Hc') as H.
    destruct w. cbn in Hl. subst. exact H.
  - rewrite wp_ret. apply wp_bind, wp_release_list; [done|]. apply Hend; [|done|done].
    exists es. split; [done|]. destruct w. cbn in Hl. subst. exact Hc'.
Qed.
