(* ===== verification/SfsLogSpec.v ===== *)
(** * The log: what its parts do to the cache and to the disk *)
From S2P Require Import Prelude Errors PacketIO PktMem ListH SfsBuf SfsLog SfsCache.

(** Two descriptions of the same cache. *)
Lemma cache_ok_ext n c c' w :
  (∀ x, c_view c' x = c_view c x) → c_refs c' = c_refs c → c_held c' = c_held c →
  cache_ok n c w → cache_ok n c' w.
Proof.
  intros Ev Er Eh (es & Hn & [H1 H2 H3 H4 H5 H6 H7 H8 H9]). exists es. split; [done|].
  split; rewrite ?Er, ?Eh; try done.
  - intros a Ha. destruct (H2 a Ha) as (v & Hv & [B1 B2 B3 B4 B5]). exists v. split; [done|].
    split; [done|done| | |by rewrite Ev]; unfold refs_of in *; by rewrite ?Er, ?Eh.
  - intros b. rewrite Ev. apply H6.
  - intros b. rewrite Ev. apply H7.
Qed.

Lemma cache_ok_log n c w l : cache_ok n c w → cache_ok n c (set_f_log l w).
Proof. intros (es & Hn & [H1 H2 H3 H4 H5 H6 H7 H8 H9]). exists es. split; [done|]. by split. Qed.

Lemma cache_view_full n c w b : cache_ok n c w → 0 < b < d_blocks (f_disk w) → full (c_view c b).
Proof. intros (es & _ & Hc). apply Hc. Qed.

Lemma cache_on_disk n c w b : cache_ok n c w → 0 < b < d_blocks (f_disk w) → c_refs c !! b = None →
  contents (f_disk w) !! b = Some (c_view c b).
Proof. intros (es & _ & Hc). apply Hc. Qed.

(** The log in memory and the layout of the disk stay. *)
Definition same_log (w w' : fsworld) : Prop := f_log w' = f_log w ∧ f_sb w' = f_sb w.

Lemma keeps_disk w w' : keeps_rest w w' → f_disk w' = f_disk w.
Proof. by intros (? & _). Qed.
Lemma keeps_log w w' : keeps_rest w w' → same_log w w'.
Proof. by intros (_ & ? & ?). Qed.
Lemma same_log_trans w1 w2 w3 : same_log w1 w2 → same_log w2 w3 → same_log w1 w3.
Proof. unfold same_log. intuition congruence. Qed.

(** ** Counting references *)

Lemma refs_of_lookup c b m : c_refs c !! b = Some m → refs_of c b = m.
Proof. unfold refs_of. by intros ->. Qed.
Lemma refs_of_none c b : c_refs c !! b = None → refs_of c b = 0.
Proof. unfold refs_of. by intros ->. Qed.

Lemma refs_read c b a x :
  c_refs (c_read b a c) !! x = if decide (x = b) then Some (refs_of c b + 1) else c_refs c !! x.
Proof. cbn. case_decide as E; [by rewrite E, lookup_insert_eq|by rewrite lookup_insert_ne]. Qed.

Lemma refs_drop c b x : c_refs (c_drop b c) !! x =
  if decide (x = b) then (if decide (refs_of c b = 1) then None else Some (refs_of c b - 1)) else c_refs c !! x.
Proof.
  cbn. case_decide as E; case_decide as E'.
  - by rewrite E', lookup_delete_eq.
  - by rewrite lookup_delete_ne.
  - by rewrite E', lookup_insert_eq.
  - by rewrite lookup_insert_ne.
Qed.

Lemma refs_count c b m x : c_refs (c_count b m c) !! x = if decide (x = b) then Some m else c_refs c !! x.
Proof. cbn. case_decide as E; [by rewrite E, lookup_insert_eq|by rewrite lookup_insert_ne]. Qed.

Lemma refs_set c b v x : c_refs (c_set b v c) !! x = c_refs c !! x.
Proof. done. Qed.

Lemma refs_of_read c b a x : refs_of (c_read b a c) x = if decide (x = b) then refs_of c b + 1 else refs_of c x.
Proof. unfold refs_of at 1. rewrite refs_read. by case_decide. Qed.

Lemma refs_of_drop c b x : refs_of (c_drop b c) x = if decide (x = b) then refs_of c b - 1 else refs_of c x.
Proof. unfold refs_of at 1. rewrite refs_drop. repeat case_decide; cbn; try done; lia. Qed.

Lemma refs_of_count c b m x : refs_of (c_count b m c) x = if decide (x = b) then m else refs_of c x.
Proof. unfold refs_of at 1. rewrite refs_count. by case_decide. Qed.

Lemma refs_of_set c b v x : refs_of (c_set b v c) x = refs_of c x.
Proof. done. Qed.

Lemma held_read c b a x : c_held (c_read b a c) !! x = if decide (x = b) then Some a else c_held c !! x.
Proof. cbn. case_decide as E; [by rewrite E, lookup_insert_eq|by rewrite lookup_insert_ne]. Qed.

Lemma held_drop c b x : c_held (c_drop b c) !! x = if decide (x = b) then None else c_held c !! x.
Proof. cbn. case_decide as E; [by rewrite E, lookup_delete_eq|by rewrite lookup_delete_ne]. Qed.

Lemma held_set c b v : c_held (c_set b v c) = c_held c.
Proof. done. Qed.
Lemma held_count c b m : c_held (c_count b m c) = c_held c.
Proof. done. Qed.

Lemma view_read c b a : c_view (c_read b a c) = c_view c.
Proof. done. Qed.
Lemma view_drop c b : c_view (c_drop b c) = c_view c.
Proof. done. Qed.
Lemma view_count c b m : c_view (c_count b m c) = c_view c.
Proof. done. Qed.
Lemma view_set c b v x : c_view (c_set b v c) x = if decide (x = b) then v else c_view c x.
Proof. done. Qed.

Create Rewrite HintDb bufcache.
#[export] Hint Rewrite refs_read refs_drop refs_count refs_set refs_of_read refs_of_drop refs_of_count refs_of_set
  held_read held_drop held_set held_count view_read view_drop view_count view_set : bufcache.

Ltac cache_simpl :=
  autorewrite with bufcache;
  repeat match goal with
  | |- context [decide ?P] => first [rewrite (decide_True (P := P)) by (done || lia) | rewrite (decide_False (P := P)) by (done || lia)]
  end.

(** ** One block copied to another *)

Section rounds.
Context (n : nat).

Lemma wp_move_data c w b1 a1 b2 a2 (Q : unit → fsworld → Prop) :
  cache_ok n c w → c_held c !! b1 = Some a1 → c_held c !! b2 = Some a2 →
  (∀ w', cache_ok n (c_set b1 (c_view c b2) c) w' → keeps_rest w w' → Q tt w') →
  wp (move_data a1 a2) w Q.
Proof.
  intros Hc H1 H2 HQ. unfold move_data. apply wp_bind.
  eapply (wp_held n c w b2 a2 Hc H2). intros v Hv. rewrite (hb_data _ _ _ _ Hv).
  eapply (wp_set_data n c w b1 a1 Hc H1); [|exact HQ]. rewrite <- (hb_data _ _ _ _ Hv). apply Hv.
Qed.

Lemma wp_get_block t b w (Q : Z → fsworld → Prop) :
  zlookup (block_nos (lh (f_log w))) t = Some b → Q b w → wp (get_block t) w Q.
Proof. intros Hb HQ. unfold get_block, get_log. rewrite wp_bind, wp_gets, wp_of_option. by exists b. Qed.

(** Two buffers that nobody holds, of block [b1] and then of the logged [b2]. *)
Lemma wp_read_two c w b1 t b2 m2 (k : Z → Z → Fs unit) (Q : unit → fsworld → Prop) :
  cache_ok n c w → c_held c = ∅ → b1 ≠ b2 → zlookup (block_nos (lh (f_log w))) t = Some b2 →
  0 < b1 < d_blocks (f_disk w) → 0 < b2 < d_blocks (f_disk w) →
  c_refs c !! b1 = None → refs_of c b2 = m2 → m2 < 2 ^ 60 →
  (size (c_refs c) < n)%nat → (is_Some (c_refs c !! b2) ∨ (S (size (c_refs c)) < n)%nat) →
  (∀ a1 a2 w', cache_ok n (c_read b2 a2 (c_read b1 a1 c)) w' → keeps_rest w w' → wp (k a1 a2) w' Q) →
  wp (a1 ← buf_read b1; b ← get_block t; a2 ← buf_read b; k a1 a2) w Q.
Proof.
  intros Hc Hh Hne Ht R1 R2 N1 E2 Hm2 Hn Hn2 Hk. apply wp_bind.
  eapply (wp_buf_read n c b1); [exact Hc|done|by rewrite Hh|rewrite refs_of_none by done; lia|by right|].
  intros a1 w1 Hc1 K1. pose proof K1 as (D1 & L1 & _). apply wp_bind, (wp_get_block t b2); [by rewrite L1|].
  apply wp_bind. eapply (wp_buf_read n (c_read b1 a1 c) b2); [exact Hc1|by rewrite D1|..].
  - cache_simpl. by rewrite Hh.
  - cache_simpl. lia.
  - cache_simpl. destruct Hn2 as [?|?]; [by left|right].
    cbn [c_refs c_read]. rewrite map_size_insert_None by done. lia.
  - intros a2 w2 Hc2 K2. apply Hk; [done|]. by eapply keeps_rest_trans.
Qed.

(** The cache as it was, but for one block's contents. *)
Lemma drop_both c b1 b2 a1 a2 x m :
  c_held c = ∅ → b1 ≠ b2 → c_refs c !! b1 = None → c_refs c !! b2 = Some m → 0 < m →
  let c' := c_drop b1 (c_drop b2 (c_set b1 x (c_read b2 a2 (c_read b1 a1 c)))) in
  c_refs c' = c_refs c ∧ c_held c' = ∅.
Proof.
  intros Hh Hne N1 N2 Hm. pose proof (refs_of_lookup _ _ _ N2) as E2. pose proof (refs_of_none _ _ N1) as E1.
  split; apply map_eq; intros y; cache_simpl.
  - destruct (decide (y = b1)) as [->|H1]; cache_simpl; [done|].
    destruct (decide (y = b2)) as [->|H2]; cache_simpl; [|done].
    rewrite N2, E2. f_equal. lia.
  - rewrite Hh, lookup_empty. by repeat case_decide.
Qed.

(** A round of [write_log]: the logged block [b] goes to its place [p] in the log. *)
Lemma wp_log_round c w p t b (Q : unit → fsworld → Prop) :
  cache_ok n c w → c_held c = ∅ → p ≠ b → zlookup (block_nos (lh (f_log w))) t = Some b → 0 < p < d_blocks (f_disk w) →
  c_refs c !! p = None → c_refs c !! b = Some 1 → (size (c_refs c) < n)%nat →
  (∀ w', cache_ok n (c_set p (c_view c b) c) w' → f_disk w' = written (f_disk w) p (c_view c b) →
    same_log w w' → Q tt w') →
  wp (to ← buf_read p; b ← get_block t; from ← buf_read b; move_data to from;; buf_write to;; buf_release from;; buf_release to) w Q.
Proof.
  intros Hc Hh Hne Ht Rp Np Nb Hn HQ.
  assert (0 < b < d_blocks (f_disk w)) as Rb by (destruct Hc as (es & _ & Hc); by apply (ca_refs _ _ _ Hc) in Nb as (_ & ? & _)).
  eapply (wp_read_two c w p t b 1); try done; [by apply refs_of_lookup|by left; eexists|].
  intros a1 a2 w1 Hc1 K1. pose proof (keeps_disk _ _ K1) as D1. set (c1 := c_read b a2 (c_read p a1 c)) in *.
  pose proof (refs_of_lookup _ _ _ Nb) as Eb. pose proof (refs_of_none _ _ Np) as Ep.
  assert (c_held c1 !! p = Some a1) as H1 by (unfold c1; by cache_simpl).
  assert (c_held c1 !! b = Some a2) as H2 by (unfold c1; by cache_simpl).
  apply wp_bind. eapply (wp_move_data c1 w1 p a1 b a2); [done..|]. intros w2 Hc2 K2.
  pose proof (keeps_disk _ _ K2) as D2. set (c2 := c_set p (c_view c1 b) c1) in *.
  apply wp_bind. eapply (wp_buf_write n c2 w2 p a1); [done..|]. intros w3 Hc3 D3 L3 S3.
  assert (c_view c2 p = c_view c b) as Ex by (unfold c2, c1; by cache_simpl).
  assert (refs_of c2 b = 2) as R2 by (unfold c2, c1; cache_simpl; lia).
  assert (refs_of c2 p = 1) as R1 by (unfold c2, c1; cache_simpl; lia).
  apply wp_bind. eapply (wp_buf_release n c2 w3 b a2); [done|done|lia|lia|].
  intros w4 Hc4 K4. pose proof (keeps_disk _ _ K4) as D4.
  eapply (wp_buf_release n _ w4 p a1); [exact Hc4|by cache_simpl|cache_simpl; lia| |].
    + intros _. rewrite D4, D3, contents_written, lookup_insert_eq. done.
    + intros w5 Hc5 K5. apply HQ.
      * destruct (drop_both c p b a1 a2 (c_view c1 b) 1 Hh Hne Np Nb ltac:(lia)) as [E1 E2].
        eapply cache_ok_ext; [..|exact Hc5]; [done|exact (eq_sym E1)|rewrite held_set, Hh; exact (eq_sym E2)].
      * rewrite (keeps_disk _ _ K5), D4, D3, D2, D1, Ex. done.
      * apply (same_log_trans w w3); [|eapply same_log_trans; by apply keeps_log].
        unfold same_log. rewrite L3, S3. eapply same_log_trans; by apply keeps_log.
Qed.

(** A round of [install_trans]: the block [b] takes what is in the log at [p]. *)
Definition c_install (b : Z) (x : bytes) (c : cache) : cache :=
  mk_cache (λ y, if decide (y = b) then x else c_view c y) (delete b (c_refs c)) ∅.

Lemma install_end c p b a1 a2 x m :
  c_held c = ∅ → p ≠ b → c_refs c !! p = None →
  let c' := c_drop b (c_drop p (c_count b 1 (c_set b x (c_read b m (c_read p a1 c))))) in
  let c'' := c_drop b (c_drop p (c_set b x (c_read b a2 (c_read p a1 c)))) in
  c_refs c' = delete b (c_refs c) ∧ c_held c' = ∅ ∧
  (c_refs c !! b = None → c_refs c'' = delete b (c_refs c) ∧ c_held c'' = ∅).
Proof.
  intros Hh Hne N1. pose proof (refs_of_none _ _ N1) as E1.
  assert (∀ y, y = b ∨ y ≠ b ∧ (y = p ∨ y ≠ p)) as Hy by (intros y; destruct (decide (y = b)), (decide (y = p)); auto).
  split_and!; [| |intros N2; pose proof (refs_of_none _ _ N2) as E2; split]; apply map_eq; intros y;
    rewrite ?lookup_delete, ?lookup_empty;
    (destruct (Hy y) as [->|[H2 [->|H1]]]; cache_simpl; rewrite ?Hh; done).
Qed.

Lemma wp_install_round (recovering : bool) c w p t b (Q : unit → fsworld → Prop) :
  cache_ok n c w → c_held c = ∅ → p ≠ b → zlookup (block_nos (lh (f_log w))) t = Some b →
  0 < p < d_blocks (f_disk w) → 0 < b < d_blocks (f_disk w) →
  c_refs c !! p = None → c_refs c !! b = (if recovering then None else Some 1) →
  ((if recovering then S (size (c_refs c)) else size (c_refs c)) < n)%nat →
  (∀ w', cache_ok n (c_install b (c_view c p) c) w' → f_disk w' = written (f_disk w) b (c_view c p) →
    same_log w w' → Q tt w') →
  wp (lbuf ← buf_read p; b ← get_block t; dbuf ← buf_read b; move_data dbuf lbuf;; buf_write dbuf;;
    (if recovering then mret tt else v ← get_buf dbuf; upd_buf dbuf (set_refcnt (sint 64 (refcnt v - 1))));;
    buf_release lbuf;; buf_release dbuf) w Q.
Proof.
  intros Hc Hh Hne Ht Rp Rb Np Nb Hn HQ. pose proof (refs_of_none _ _ Np) as Ep.
  assert (refs_of c b = if recovering then 0 else 1) as Eb by (unfold refs_of; rewrite Nb; by destruct recovering).
  eapply (wp_read_two c w p t b (if recovering then 0 else 1)); try done;
    [by destruct recovering|destruct recovering; lia|destruct recovering; [by right|by left; eexists]|].
  intros a1 a2 w1 Hc1 K1. pose proof (keeps_disk _ _ K1) as D1. set (c1 := c_read b a2 (c_read p a1 c)) in *.
  assert (c_held c1 !! p = Some a1) as H1 by (unfold c1; by cache_simpl).
  assert (c_held c1 !! b = Some a2) as H2 by (unfold c1; by cache_simpl).
  apply wp_bind. eapply (wp_move_data c1 w1 b a2 p a1); [done..|]. intros w2 Hc2 K2.
  pose proof (keeps_disk _ _ K2) as D2. set (c2 := c_set b (c_view c1 p) c1) in *.
  apply wp_bind. eapply (wp_buf_write n c2 w2 b a2); [done..|]. intros w3 Hc3 D3 L3 S3.
  assert (c_view c2 b = c_view c p) as Ex by (unfold c2, c1; by cache_simpl).
  assert (∃ c3, (c3 = c2 ∧ recovering = true ∨ c3 = c_count b 1 c2 ∧ recovering = false) ∧
    refs_of c3 b = 1 ∧ refs_of c3 p = 1) as (c3 & Hc3' & R2 & R1).
  { destruct recovering; [exists c2|exists (c_count b 1 c2)]; (split; [by auto|]); unfold c2, c1; cache_simpl; lia. }
  apply wp_bind. apply (wp_conseq _ _ (λ _ w4, cache_ok n c3 w4 ∧ keeps_rest w3 w4)).
  { destruct Hc3' as [[-> ->]|[-> ->]]; [by rewrite wp_ret|]. apply wp_bind.
    eapply (wp_held n c2 w3 b a2 Hc3 H2). intros v Hv.
    assert (refcnt v = 2) as ->.
    { pose proof (refs_of_lookup _ _ _ (hb_refs _ _ _ _ Hv)) as E. revert E. unfold c2, c1. cache_simpl. lia. }
    eapply (wp_set_count n c2 w3 b a2 Hc3 H2); [done|]. auto. }
  intros _ w4 [Hc4 K4]. pose proof (keeps_disk _ _ K4) as D4.
  assert (c_held c3 = c_held c2 ∧ c_view c3 = c_view c2) as [Eh Ev] by (by destruct Hc3' as [[-> _]|[-> _]]).
  assert (contents (f_disk w) !! p = Some (c_view c p)) as Hp by (by eapply cache_on_disk).
  apply wp_bind. eapply (wp_buf_release n c3 w4 p a1); [done|by rewrite Eh|lia| |].
  { intros _. rewrite D4, D3, contents_written, lookup_insert_ne, D2, D1, Hp, Ev by done. unfold c2, c1. by cache_simpl. }
  intros w5 Hc5 K5. pose proof (keeps_disk _ _ K5) as D5.
  eapply (wp_buf_release n _ w5 b a2); [exact Hc5|rewrite held_drop, Eh; by cache_simpl|cache_simpl; lia| |].
  { intros _. by rewrite D5, D4, D3, contents_written, lookup_insert_eq, view_drop, Ev. }
  intros w6 Hc6 K6. apply HQ.
  - destruct (install_end c p b a1 a2 (c_view c1 p) a2 Hh Hne Np) as (E1 & E2 & E3).
    eapply cache_ok_ext; [..|exact Hc6]; destruct Hc3' as [[-> ->]|[-> ->]];
      first [done|by destruct (E3 Nb) as [? ?]].
  - by rewrite (keeps_disk _ _ K6), D5, D4, D3, D2, D1, Ex.
  - apply (same_log_trans w w2); [eapply same_log_trans; by apply keeps_log|].
    apply (same_log_trans w2 w3); [by split|]. apply (same_log_trans w3 w4); [by apply keeps_log|].
    eapply same_log_trans; by apply keeps_log.
Qed.
End rounds.
