(* ===== verification/SfsHead.v ===== *)
(** * The header of the log: what is written is what is read *)
From S2P Require Import Prelude Errors PacketIO PktMem ListH SfsBuf SfsLog SfsCache SfsLogSpec.

(** ** The bytes of a header *)

(** The blocks a header names, and a block with a header for [ns]. *)
Definition hdr_nos (x : bytes) : list Z :=
  (λ i, get_le x (4 + 4 * i) 4) <$> seqZ 0 (sint 32 (get_le x 0 4)).
Definition with_hdr (k : Z) (ns : list Z) (x : bytes) : bytes :=
  le32 (u32 k) ++ concat (le32 <$> ns) ++ drop (4 + 4 * length ns) x.

Definition block_no (b : Z) : Prop := 0 ≤ b < 2 ^ 32.

Lemma concat_le32_length ns : length (concat (le32 <$> ns)) = (4 * length ns)%nat.
Proof. induction ns as [|b ns IH]; [done|]. cbn [fmap list_fmap concat]. rewrite length_app, IH. cbn. lia. Qed.

Lemma with_hdr_length k ns x : (4 + 4 * length ns ≤ length x)%nat → length (with_hdr k ns x) = length x.
Proof. intros Hl. unfold with_hdr. rewrite !length_app, concat_le32_length, length_drop. cbn. lia. Qed.

Lemma hdr_nos_with ns x : Forall block_no ns → zlen ns < 2 ^ 31 → hdr_nos (with_hdr (zlen ns) ns x) = ns.
Proof.
  intros Hns Hl. unfold hdr_nos, with_hdr. rewrite (wrap_small 32) by lia.
  rewrite (get_le32 _ [] (zlen ns) (concat (le32 <$> ns) ++ drop (4 + 4 * length ns) x)) by (done || lia).
  assert (sint 32 (zlen ns) = zlen ns) as -> by (unfold sint; rewrite Z.mod_small; lia).
  apply list_eq. intros i. rewrite list_lookup_fmap.
  destruct (decide (i < length ns)%nat) as [Hi|Hi].
  - destruct (lookup_lt_is_Some_2 ns i Hi) as [b Hb]. rewrite lookup_seqZ_lt by lia. cbn [fmap option_fmap option_map].
    rewrite Hb. f_equal. apply list_elem_of_split_length in Hb as (l1 & l2 & -> & ->).
    eapply (get_le32 _ (le32 (zlen (l1 ++ b :: l2)) ++ concat (le32 <$> l1)) b).
    + rewrite length_app, concat_le32_length. cbn [length le32]. lia.
    + rewrite Forall_app in Hns. by destruct Hns as [_ [Hb _]%Forall_cons].
    + rewrite fmap_app, concat_app. cbn [fmap list_fmap concat]. by rewrite <- !app_assoc.
  - rewrite lookup_seqZ_ge by lia. symmetry. apply lookup_ge_None. lia.
Qed.

(** Storing one more number. *)
Lemma with_hdr_step k ns b x : (4 + 4 * S (length ns) ≤ length x)%nat →
  mem_write (with_hdr k ns x) (4 + 4 * zlen ns) (le32 b) = Some (with_hdr k (ns ++ [b]) x).
Proof.
  intros Hl. rewrite mem_write_eq; [|lia|rewrite with_hdr_length by lia; cbn [length le32]; lia].
  f_equal. set (h := le32 (u32 k) ++ concat (le32 <$> ns)).
  assert (with_hdr k ns x = h ++ drop (4 + 4 * length ns) x) as -> by apply app_assoc.
  assert (Z.to_nat (4 + 4 * zlen ns) = length h) as -> by (unfold h; rewrite length_app, concat_le32_length; cbn [length le32]; lia).
  rewrite take_app_length, drop_app_add', drop_drop by done.
  unfold with_hdr, h. rewrite fmap_app, concat_app, <- !app_assoc. cbn [fmap list_fmap concat]. rewrite app_nil_r.
  do 3 f_equal. f_equal. rewrite length_app. cbn [length le32]. lia.
Qed.

Lemma with_hdr_first k x : (4 ≤ length x)%nat → mem_write x 0 (le32 (u32 k)) = Some (with_hdr k [] x).
Proof. intros Hl. rewrite mem_write_eq; [done|done|cbn [length le32]; lia]. Qed.

(** ** Loops over the logged blocks *)

Lemma wp_for_logged (I : Z → fsworld → Prop) k body w (Q : unit → fsworld → Prop) :
  0 ≤ k → (∀ t w', I t w' → log_num (lh (f_log w')) = k) → I 0 w →
  (∀ t w', 0 ≤ t < k → I t w' → wp (body t) w' (λ _, I (t + 1))) →
  (∀ w', I k w' → Q tt w') → wp (for_logged body) w Q.
Proof.
  intros Hk Hn H0 Hb HQ. unfold for_logged, get_log. rewrite wp_bind, wp_gets.
  apply (wp_loop _ (λ t w', 0 ≤ t ≤ k ∧ I t w') (λ t _, Z.to_nat (k - t))).
  - intros t w' [Ht HI]. rewrite wp_bind, wp_gets, (Hn _ _ HI).
    destruct (Z.ltb_spec t k).
    + apply wp_bind. eapply wp_conseq; [apply Hb; [lia|done]|]. intros [] w'' HI'. rewrite wp_ret.
      split; [split; [lia|done]|lia].
    + rewrite wp_ret. assert (t = k) as -> by lia. by apply HQ.
  - split; [lia|done].
  - rewrite (Hn _ _ H0). lia.
Qed.

(** ** Words of a buffer that is held *)

Section words.
Context (n : nat) (c : cache) (w : fsworld) (b a : Z).
Hypothesis Hc : cache_ok n c w.
Hypothesis Hh : c_held c !! b = Some a.

Lemma held_full : full (c_view c b).
Proof.
  destruct Hc as (es & _ & Hc'). destruct (held_get _ _ _ _ _ Hc' Hh) as (_ & v & _ & Hb).
  rewrite <- (hb_data _ _ _ _ Hb). apply Hb.
Qed.

Lemma wp_load32 off (Q : Z → fsworld → Prop) :
  0 ≤ off ≤ SFS_BSIZE - 4 → Q (get_le (c_view c b) off 4) w → wp (load32 a off) w Q.
Proof.
  intros Ho HQ. pose proof held_full as Hf. unfold full in Hf. unfold load32. apply wp_bind. eapply (wp_held n c w b a); [done..|].
  intros v Hv. rewrite (hb_data _ _ _ _ Hv), wp_bind, wp_of_option, mem_read_eq by lia.
  eexists. split; [done|]. rewrite wp_ret. unfold get_le, slice in *. cbn [drop].
  rewrite drop_0, take_take. by rewrite Nat.min_id.
Qed.

Lemma wp_store32 off x y (Q : unit → fsworld → Prop) :
  mem_write (c_view c b) off (le32 x) = Some y →
  (∀ w', cache_ok n (c_set b y c) w' → keeps_rest w w' → Q tt w') → wp (store32 a off x) w Q.
Proof.
  intros Hy HQ. unfold store32. apply wp_bind. eapply (wp_held n c w b a); [done..|].
  intros v Hv. rewrite (hb_data _ _ _ _ Hv), wp_bind, wp_of_option. exists y. split; [done|].
  eapply (wp_set_data n c w b a); [done..| |exact HQ]. unfold full.
  rewrite (mem_write_length _ _ _ _ Hy). apply held_full.
Qed.
End words.

(** ** The header of the disk *)

(** The log in memory names the blocks [ns]. *)
Definition logged (ns : list Z) (l : Log) : Prop :=
  log_num (lh l) = zlen ns ∧ zlen (block_nos (lh l)) = SFS_LOGSIZE ∧
  ∀ i b, ns !! i = Some b → zlookup (block_nos (lh l)) (Z.of_nat i) = Some b.

Lemma zlookup_zset (l : list Z) i x : 0 ≤ i < zlen l →
  ∃ l', zset l i x = Some l' ∧ length l' = length l ∧
    ∀ j, 0 ≤ j → zlookup l' j = if decide (j = i) then Some x else zlookup l j.
Proof.
  intros Hi. exists (<[Z.to_nat i := x]> l). split_and!.
  - unfold zset. rewrite mem_write_eq by (cbn; lia). f_equal. rewrite insert_take_drop by lia.
    cbn. do 3 f_equal. lia.
  - by rewrite length_insert.
  - intros j Hj. unfold zlookup. rewrite (proj2 (Z.leb_le 0 j)) by done. case_decide as E.
    + rewrite E, list_lookup_insert_eq; [done|lia].
    + rewrite list_lookup_insert_ne; [done|lia].
Qed.

Lemma zlookup_nat {A} (l : list A) (i : nat) : zlookup l (Z.of_nat i) = l !! i.
Proof. unfold zlookup. rewrite (proj2 (Z.leb_le 0 _)) by lia. by rewrite Nat2Z.id. Qed.

Section head.
Context (n : nat).

Lemma refs_drop_read c b a : c_refs c !! b = None → c_held c = ∅ →
  c_refs (c_drop b (c_read b a c)) = c_refs c ∧ c_held (c_drop b (c_read b a c)) = ∅.
Proof.
  intros Hr Hh. pose proof (refs_of_none _ _ Hr) as E. split; apply map_eq; intros x.
  - destruct (decide (x = b)) as [->|Hne]; cache_simpl; done.
  - destruct (decide (x = b)) as [->|Hne]; cache_simpl; by rewrite ?Hh.
Qed.

(** A block read by itself. *)
Lemma wp_read_alone {A} c w b (k : Z → Fs A) (Q : A → fsworld → Prop) :
  cache_ok n c w → c_held c = ∅ → 0 < b < d_blocks (f_disk w) → c_refs c !! b = None → (size (c_refs c) < n)%nat →
  (∀ a w', cache_ok n (c_read b a c) w' → keeps_rest w w' → c_held (c_read b a c) !! b = Some a → wp (k a) w' Q) →
  wp (a ← buf_read b; k a) w Q.
Proof.
  intros Hc Hh Hb Hr Hn Hk. apply wp_bind.
  eapply (wp_buf_read n c b); [done..|by rewrite Hh|rewrite refs_of_none by done; lia|by right|].
  intros a w' Hc' K. eapply Hk; [exact Hc'|done|by cache_simpl].
Qed.

(** And released, the disk showing what it shows. *)
Lemma wp_release_alone c w b a x (Q : unit → fsworld → Prop) :
  cache_ok n (c_set b x (c_read b a c)) w → c_held c = ∅ → c_refs c !! b = None →
  contents (f_disk w) !! b = Some x →
  (∀ w', cache_ok n (c_set b x c) w' → keeps_rest w w' → Q tt w') → wp (buf_release a) w Q.
Proof.
  intros Hc Hh Hr Hd HQ. pose proof (refs_of_none _ _ Hr) as Er.
  eapply (wp_buf_release n _ w b a); [exact Hc|by cache_simpl|cache_simpl; lia|intros _; by cache_simpl|].
  intros w' Hc' K. apply HQ; [|done]. destruct (refs_drop_read c b a Hr Hh) as [E1 E2].
  eapply cache_ok_ext; [..|exact Hc']; [done|exact (eq_sym E1)|rewrite held_set, Hh; exact (eq_sym E2)].
Qed.

Lemma wp_write_head c w L ns (Q : unit → fsworld → Prop) :
  cache_ok n c w → c_held c = ∅ → c_refs c !! L = None → (size (c_refs c) < n)%nat →
  0 < L < d_blocks (f_disk w) → logstart (f_sb w) = L → logged ns (f_log w) →
  let x := with_hdr (zlen ns) ns (c_view c L) in
  (∀ w', cache_ok n (c_set L x c) w' → f_disk w' = written (f_disk w) L x → same_log w w' → Q tt w') →
  wp write_head w Q.
Proof.
  intros Hc Hh Hr Hn HL EL (Hl & Hlen & Hb) x HQ. unfold write_head, log_start.
  assert (full (c_view c L)) as Hf by (by eapply cache_view_full). unfold full, SFS_BSIZE, SFS_LOGSIZE in *.
  assert (zlen ns ≤ 300) as Hns.
  { destruct ns as [|b0 ns'] using rev_ind; [cbn; lia|]. clear IHns'. rewrite length_app. cbn [length].
    specialize (Hb (length ns') b0). rewrite lookup_app_r, Nat.sub_diag, zlookup_nat in Hb by lia.
    pose proof (lookup_lt_Some _ _ _ (Hb eq_refl)). lia. }
  rewrite wp_bind, wp_gets, EL.
  eapply (wp_read_alone c w L); [done..|]. intros a w1 Hc1 K1 Ha. pose proof K1 as (D1 & L1 & S1).
  set (c1 := c_read L a c) in *. unfold get_log. rewrite wp_bind, wp_gets, L1, Hl. apply wp_bind.
  eapply (wp_store32 n c1 w1 L a); [done|done|apply with_hdr_first; change (c_view c1 L) with (c_view c L); lia|].
  intros w2 Hc2 K2. apply wp_bind.
  apply (wp_for_logged (λ t w', cache_ok n (c_set L (with_hdr (zlen ns) (take (Z.to_nat t) ns) (c_view c L)) c1) w' ∧
    keeps_rest w w') (zlen ns)).
  - lia.
  - intros t w' [_ (_ & -> & _)]. exact Hl.
  - split; [exact Hc2|by eapply keeps_rest_trans].
  - intros t w' Ht [Hc' K']. destruct (lookup_lt_is_Some_2 ns (Z.to_nat t) ltac:(lia)) as [b Eb].
    pose proof (Hb _ _ Eb) as Eb'. rewrite Z2Nat.id in Eb' by lia.
    apply wp_bind. eapply wp_get_block; [by rewrite (proj1 (proj2 K'))|].
    assert (length (take (Z.to_nat t) ns) = Z.to_nat t) as Etk by (rewrite length_take; lia).
    eapply (wp_store32 n _ w' L a); [exact Hc'|done| |].
    + rewrite view_set, decide_True by done. replace (4 + 4 * t) with (4 + 4 * zlen (take (Z.to_nat t) ns)) by lia.
      apply with_hdr_step. lia.
    + intros w'' Hc'' K''. split; [|by eapply keeps_rest_trans].
      replace (Z.to_nat (t + 1)) with (S (Z.to_nat t)) by lia. rewrite (take_S_r _ _ b) by done.
      eapply cache_ok_ext; [..|exact Hc'']; [|done|done].
      intros y. cache_simpl. by case_decide.
  - intros w3 [Hc3 K3]. pose proof K3 as (D3 & L3 & S3). rewrite take_ge in Hc3 by lia. fold x in Hc3.
    apply wp_bind. eapply (wp_buf_write n _ w3 L a); [exact Hc3|done|]. intros w4 Hc4 D4 L4 S4.
    rewrite view_set, decide_True in D4 by done.
    eapply (wp_release_alone c w4 L a x); [exact Hc4|done..| |].
    { by rewrite D4, contents_written, lookup_insert_eq. }
    intros w5 Hc5 K5. pose proof K5 as (D5 & L5 & S5). apply HQ; [done|by rewrite D5, D4, D3|].
    split; [by rewrite L5, L4, L3|by rewrite S5, S4, S3].
Qed.

(** The first [i] of [ns] are in the array. *)
Definition names (ns : list Z) (i : Z) (l : Log) : Prop :=
  log_num (lh l) = zlen ns ∧ zlen (block_nos (lh l)) = SFS_LOGSIZE ∧
  ∀ (j : nat) b, Z.of_nat j < i → ns !! j = Some b → zlookup (block_nos (lh l)) (Z.of_nat j) = Some b.

Lemma wp_put_block w i b (Q : unit → fsworld → Prop) ns :
  names ns i (f_log w) → 0 ≤ i < SFS_LOGSIZE → ns !! Z.to_nat i = Some b →
  (∀ h, names ns (i + 1) (set_lh h (f_log w)) → Q tt (set_f_log (set_lh h (f_log w)) w)) →
  wp (put_block i b) w Q.
Proof.
  intros (H1 & H2 & H3) Hi Hb HQ. unfold put_block, get_log, upd_log.
  destruct (zlookup_zset (block_nos (lh (f_log w))) i b) as (l' & El & Ell & Hl); [lia|].
  rewrite wp_bind, wp_gets, wp_bind, wp_of_option. exists l'. split; [done|]. rewrite wp_modify.
  apply HQ. split; [done|]. split; [cbn; lia|]. cbn. intros j c Hj Hc. rewrite Hl by lia.
  case_decide as E; [|apply H3; [lia|done]]. rewrite <- E, Nat2Z.id in Hb. congruence.
Qed.

Lemma wp_read_head c w L (Q : unit → fsworld → Prop) :
  cache_ok n c w → c_held c = ∅ → c_refs c !! L = None → (size (c_refs c) < n)%nat →
  0 < L < d_blocks (f_disk w) → logstart (f_sb w) = L → zlen (block_nos (lh (f_log w))) = SFS_LOGSIZE →
  0 ≤ sint 32 (get_le (c_view c L) 0 4) ≤ SFS_LOGSIZE →
  (∀ w' h, cache_ok n c w' → f_disk w' = f_disk w → f_sb w' = f_sb w → f_log w' = set_lh h (f_log w) →
    logged (hdr_nos (c_view c L)) (f_log w') → Q tt w') →
  wp read_head w Q.
Proof.
  intros Hc Hh Hr Hn HL EL Hlen Hk HQ. unfold read_head, log_start. rewrite wp_bind, wp_gets, EL.
  eapply (wp_read_alone c w L); [done..|]. intros a w1 Hc1 K1 Ha. pose proof K1 as (D1 & L1 & S1).
  set (c1 := c_read L a c) in *. apply wp_bind.
  eapply (wp_load32 n c1 w1 L a); [done|done|unfold SFS_BSIZE; lia|].
  change (c_view c1 L) with (c_view c L). set (x := c_view c L) in *. set (k := sint 32 (get_le x 0 4)) in *.
  assert (zlen (hdr_nos x) = k) as Ek by (unfold hdr_nos; fold k; rewrite length_fmap, length_seqZ; lia).
  unfold upd_log. rewrite wp_bind, wp_modify, L1. apply wp_bind.
  apply (wp_for_logged (λ i w', cache_ok n c1 w' ∧ f_disk w' = f_disk w ∧ f_sb w' = f_sb w ∧
    names (hdr_nos x) i (f_log w') ∧ ∃ h, f_log w' = set_lh h (f_log w)) k).
  - lia.
  - intros t w' (_ & _ & _ & (-> & _) & _). done.
  - split_and!; [by apply cache_ok_log|done..| |by eexists].
    split_and!; [cbn; lia|done|lia].
  - intros i w' Hi (Hc' & D' & S' & Hnm & h & L'). apply wp_bind.
    eapply (wp_load32 n c1 w' L a); [done|done|unfold SFS_BSIZE, SFS_LOGSIZE in *; lia|].
    eapply wp_put_block; [exact Hnm|lia| |].
    + unfold hdr_nos. fold k. rewrite list_lookup_fmap, lookup_seqZ_lt by lia. cbn. do 2 f_equal. lia.
    + intros h' Hnm'. split_and!; [by apply cache_ok_log|done..|]. exists h'. cbn. by rewrite L'.
  - intros w2 (Hc2 & D2 & S2 & (N1 & N2 & N3) & h & L2).
    eapply (wp_release_alone c w2 L a x); [|done|done| |].
    { eapply cache_ok_ext; [..|exact Hc2]; [|done|done]. intros y. cache_simpl. case_decide as E; [by rewrite E|done]. }
    { rewrite D2. by eapply cache_on_disk. }
    intros w3 Hc3 (D3 & L3 & S3). apply (HQ w3 h).
    + eapply cache_ok_ext; [..|exact Hc3]; [|done|done]. intros y. cache_simpl. case_decide as E; [by rewrite E|done].
    + by rewrite D3.
    + by rewrite S3.
    + by rewrite L3.
    + rewrite L3. split_and!; [done|done|]. intros j b Hj. apply N3; [|done]. apply lookup_lt_Some in Hj. lia.
Qed.
End head.
