(* ===== verification/SfsCommit.v ===== *)
(** * Committing and recovering: the disk at every write

    An [image] is a disk from which recovery makes the blocks [g]: its header names
    the blocks that are to be taken from the log.  Every single write of a commit
    leaves an image of what there was before or of what there is after, and every
    write of a recovery an image of the same. *)
From S2P Require Import Prelude Errors PacketIO PktMem ListH SfsBuf SfsLog SfsCache SfsLogSpec SfsHead.

(** ** Crashes *)

(** From [d] to [d'], and [P] at every write on the way. *)
Definition crashes (P : gmap Z bytes → Prop) (d d' : disk) : Prop :=
  d_blocks d' = d_blocks d ∧ d_base d' = d_base d ∧
  ∃ ws, d_writes d' = d_writes d ++ ws ∧
    ∀ k, (k ≤ length ws)%nat → P (apply_writes (contents d) (take k ws)).

Lemma apply_writes_app m ws1 ws2 : apply_writes m (ws1 ++ ws2) = apply_writes (apply_writes m ws1) ws2.
Proof. apply foldl_app. Qed.

Lemma crashes_refl (P : gmap Z bytes → Prop) d : P (contents d) → crashes P d d.
Proof.
  intros HP. split; [done|]. split; [done|]. exists []. rewrite app_nil_r. split; [done|].
  intros k _. by rewrite take_nil.
Qed.

Lemma crashes_trans P d1 d2 d3 : crashes P d1 d2 → crashes P d2 d3 → crashes P d1 d3.
Proof.
  intros (B1 & E1 & ws1 & W1 & H1) (B2 & E2 & ws2 & W2 & H2).
  split; [congruence|]. split; [congruence|]. exists (ws1 ++ ws2). rewrite W2, W1, <- app_assoc.
  split; [done|]. intros k Hk. rewrite length_app in Hk.
  destruct (decide (k ≤ length ws1)%nat) as [Hle|Hgt].
  - rewrite take_app_le by done. by apply H1.
  - rewrite take_app_ge by lia. rewrite apply_writes_app.
    replace (apply_writes (contents d1) ws1) with (contents d2); [apply H2; lia|].
    unfold contents. by rewrite W1, E1, apply_writes_app.
Qed.

Lemma crashes_weaken (P P' : gmap Z bytes → Prop) d d' : (∀ m, P m → P' m) → crashes P d d' → crashes P' d d'.
Proof. intros HP (B & E & ws & W & H). split; [done|]. split; [done|]. exists ws. split; [done|]. auto. Qed.

Lemma crashes_end P d d' : crashes P d d' → P (contents d').
Proof.
  intros (_ & E & ws & W & H). specialize (H (length ws) (le_n _)).
  rewrite firstn_all in H. unfold contents in *. by rewrite W, E, apply_writes_app.
Qed.

Lemma crashes_written (P : gmap Z bytes → Prop) d b x :
  P (contents d) → P (<[b := x]> (contents d)) → crashes P d (written d b x).
Proof.
  intros H0 H1. split; [done|]. split; [done|]. exists [(b, x)]. split; [done|].
  intros [|[|k]] Hk; cbn in *; [done|done|lia].
Qed.

(** ** The first elements of a list *)

Lemma taken_S (ns : list Z) (t : nat) b y : ns !! t = Some b → y ∈ take (S t) ns ↔ y = b ∨ y ∈ take t ns.
Proof. intros Hb. rewrite (take_S_r _ _ _ Hb), elem_of_app, list_elem_of_singleton. tauto. Qed.

Lemma decide_taken {A} (ns : list Z) (t : nat) b y (x z : A) : ns !! t = Some b →
  (if decide (y ∈ take (S t) ns) then x else z) =
  (if decide (y = b) then x else if decide (y ∈ take t ns) then x else z).
Proof.
  intros Hb. pose proof (taken_S ns t b y Hb) as Ht.
  destruct (decide (y ∈ take (S t) ns)), (decide (y = b)), (decide (y ∈ take t ns)); tauto.
Qed.

Lemma not_taken (ns : list Z) (t : nat) b : NoDup ns → ns !! t = Some b → b ∉ take t ns.
Proof.
  intros Hnd Hb (j & Hj)%list_elem_of_lookup_1. apply lookup_take_Some in Hj as [Hj Hlt].
  pose proof (NoDup_lookup _ _ _ _ Hnd Hj Hb). lia.
Qed.

(** ** Images *)

Section log.
Context (n : nat) (L N dmax : Z).

(** A block that is not in the log. *)
Definition data_block (b : Z) : Prop := 0 < b < dmax ∧ ¬ (L ≤ b < L + N).

Record image (m : gmap Z bytes) (ns : list Z) (g : Z → bytes) : Prop := {
  im_hdr : ∃ x, m !! L = Some x ∧ full x ∧ hdr_nos x = ns ∧ sint 32 (get_le x 0 4) = zlen ns;
  im_log (t : nat) b : ns !! t = Some b → m !! (L + Z.of_nat t + 1) = Some (g b);
  im_data b : data_block b → b ∉ ns → m !! b = Some (g b);
  im_nodup : NoDup ns;
  im_blocks : Forall data_block ns;
  im_room : zlen ns < N }.

(** After a crash that leaves the disk [m], recovery shows [g]. *)
Definition recovers (m : gmap Z bytes) (g : Z → bytes) : Prop := ∃ ns, image m ns g.

Hypothesis HL : 0 < L.
Hypothesis HN : 1 ≤ N ≤ SFS_LOGSIZE.
Hypothesis Hmax : L + N ≤ dmax.
Hypothesis Hmax20 : dmax < 2 ^ 20.

Lemma image_log_write m g p x : L < p < L + N → image m [] g → image (<[p := x]> m) [] g.
Proof.
  intros Hp [(y & Hy & ?) H2 H3 H4 H5 H6]. split; try done.
  - exists y. rewrite lookup_insert_ne; [done|lia].
  - intros b [? Hb] Hn. rewrite lookup_insert_ne; [by apply H3|lia].
Qed.

Lemma with_hdr_head ns x : full x → zlen ns ≤ SFS_LOGSIZE → Forall block_no ns →
  let y := with_hdr (zlen ns) ns x in full y ∧ hdr_nos y = ns ∧ sint 32 (get_le y 0 4) = zlen ns.
Proof.
  unfold full, SFS_BSIZE, SFS_LOGSIZE. intros Hf Hl Hns. cbn zeta. split_and!.
  - rewrite with_hdr_length; lia.
  - apply hdr_nos_with; [done|lia].
  - unfold with_hdr. rewrite (wrap_small 32) by lia.
    rewrite (get_le32 _ [] (zlen ns) (concat (le32 <$> ns) ++ drop (4 + 4 * length ns) x)) by (done || lia).
    unfold sint. rewrite Z.mod_small; lia.
Qed.

Lemma data_block_no ns : Forall data_block ns → Forall block_no ns.
Proof. intros H. eapply Forall_impl; [exact H|]. intros b [? _]. unfold block_no. lia. Qed.

(** The write of the header is the commit. *)
Lemma image_head m g0 g ns x : image m [] g0 → full x → NoDup ns → Forall data_block ns → zlen ns < N →
  (∀ (t : nat) b, ns !! t = Some b → m !! (L + Z.of_nat t + 1) = Some (g b)) →
  (∀ b, data_block b → b ∉ ns → g0 b = g b) →
  image (<[L := with_hdr (zlen ns) ns x]> m) ns g.
Proof.
  intros [_ _ H3 _ _ _] Hx Hnd Hns Hl Ht Hg. split; try done.
  - exists (with_hdr (zlen ns) ns x). rewrite lookup_insert_eq. split; [done|].
    apply with_hdr_head; [done|lia|by apply data_block_no].
  - intros t b Hb. rewrite lookup_insert_ne by lia. by apply Ht.
  - intros b [? Hb] Hn. rewrite lookup_insert_ne by lia. rewrite <- Hg by done. by apply H3; [|set_solver].
Qed.

Lemma image_install m ns g b : image m ns g → b ∈ ns → image (<[b := g b]> m) ns g.
Proof.
  intros [(y & Hy & ?) H2 H3 H4 H5 H6] Hb. rewrite Forall_forall in H5. pose proof (H5 b Hb) as [? Hnb].
  split; try done; [| | |by apply Forall_forall].
  - exists y. rewrite lookup_insert_ne; [done|lia].
  - intros t b' Hb'. rewrite lookup_insert_ne; [by apply H2|]. apply lookup_lt_Some in Hb'. lia.
  - intros b' Hd Hn. rewrite lookup_insert_ne; [by apply H3|congruence].
Qed.

Lemma image_done m ns g x : image m ns g → full x → (∀ b, b ∈ ns → m !! b = Some (g b)) →
  image (<[L := with_hdr 0 [] x]> m) [] g.
Proof.
  intros [_ _ H3 H4 H5 H6] Hx Hg. split; [|by intros t b Hb; rewrite lookup_nil in Hb| |by constructor|by constructor|cbn; lia].
  - exists (with_hdr 0 [] x). rewrite lookup_insert_eq. split; [done|].
    apply (with_hdr_head []); [done|cbn; unfold SFS_LOGSIZE; lia|constructor].
  - intros b Hd _. pose proof Hd as [? Hb]. rewrite lookup_insert_ne by lia.
    destruct (decide (b ∈ ns)) as [Hin|Hni]; [by apply Hg|by apply H3].
Qed.

(** ** The loops *)

Definition laid_out (w : fsworld) : Prop :=
  logstart (f_sb w) = L ∧ nlog (f_sb w) = N ∧ d_blocks (f_disk w) = dmax.

Definition place (t : nat) : Z := L + Z.of_nat t + 1.

(** Blocks that can be logged, in a log that names them. *)
Record loggable (ns : list Z) : Prop := {
  lo_nodup : NoDup ns; lo_blocks : Forall data_block ns; lo_room : zlen ns < N }.

Lemma loggable_at ns (t : nat) b : loggable ns → ns !! t = Some b →
  data_block b ∧ L < place t < L + N ∧ place t ≠ b.
Proof.
  intros [_ H1 H2] Hb. rewrite Forall_forall in H1.
  assert (b ∈ ns) as Hin by (eapply list_elem_of_lookup_2; exact Hb). pose proof (H1 b Hin) as [Hr Hn].
  apply lookup_lt_Some in Hb. unfold place. split; [by split|lia].
Qed.

(** What [write_log] has done before round [t]. *)
Record wrote (P : gmap Z bytes → Prop) (ns : list Z) (c : cache) (w : fsworld) (t : Z) (w' : fsworld) : Prop := {
  wr_cache : ∃ c', cache_ok n c' w' ∧ c_refs c' = c_refs c ∧ c_held c' = ∅ ∧
    ∀ y, data_block y → c_view c' y = c_view c y;
  wr_placed (j : nat) b : Z.of_nat j < t → ns !! j = Some b → contents (f_disk w') !! place j = Some (c_view c b);
  wr_log : same_log w w';
  wr_crash : crashes P (f_disk w) (f_disk w') }.

Lemma wp_write_log P ns c w (Q : unit → fsworld → Prop) :
  (∀ m p x, P m → L < p < L + N → P (<[p := x]> m)) → P (contents (f_disk w)) →
  cache_ok n c w → c_held c = ∅ → (size (c_refs c) < n)%nat →
  (∀ p, L ≤ p < L + N → c_refs c !! p = None) → (∀ b, b ∈ ns → c_refs c !! b = Some 1) →
  laid_out w → logged ns (f_log w) → loggable ns →
  (∀ w', wrote P ns c w (zlen ns) w' → Q tt w') → wp write_log w Q.
Proof.
  intros HP HP0 Hc Hh Hn Hp Hb (EL & EN & Ed) (Hl1 & Hl2 & Hl3) Hlo HQ.
  unfold write_log, log_start. rewrite wp_bind, wp_gets, EL.
  apply (wp_for_logged (wrote P ns c w) (zlen ns)); [lia|intros t w' H; by rewrite (proj1 (wr_log _ _ _ _ _ _ H))| | |exact HQ].
  - split; [by exists c|lia|done|by apply crashes_refl].
  - intros t w' Ht [(c' & Hc' & Er & Hh' & Ev) Hpl [Hlg Hsb] Hcr].
    destruct (lookup_lt_is_Some_2 ns (Z.to_nat t) ltac:(lia)) as [b Hbt].
    destruct (loggable_at _ _ _ Hlo Hbt) as (Hd & Hpr & Hne). pose proof Hd as [Hdr _].
    pose proof (Hl3 _ _ Hbt) as Hz. rewrite Z2Nat.id in Hz by lia.
    pose proof (proj1 Hcr) as Bd. pose proof (lo_room _ Hlo) as Hroom. replace (u32 (L + t + 1)) with (place (Z.to_nat t))
      by (unfold place; rewrite Z2Nat.id, wrap_small by lia; done).
    eapply (wp_log_round n c' w' _ t b); try done; rewrite ?Bd, ?Ed, ?Er; try done; [by rewrite Hlg|lia|apply Hp; lia| |].
    { apply Hb. by eapply list_elem_of_lookup_2. }
    intros w'' Hc'' Hdk Hsl. split.
    + eexists. split; [exact Hc''|]. cbn. split_and!; [done|done|]. intros y Hy. rewrite decide_False; [by apply Ev|].
      destruct Hy. lia.
    + intros j b' Hj Hb'. rewrite Hdk, contents_written, Ev by done.
      destruct (decide (j = Z.to_nat t)) as [->|Hjt]; [rewrite lookup_insert_eq; congruence|].
      rewrite lookup_insert_ne; [apply Hpl; [lia|done]|]. unfold place. lia.
    + eapply same_log_trans; [by split|exact Hsl].
    + eapply crashes_trans; [exact Hcr|]. rewrite Hdk. pose proof (crashes_end _ _ _ Hcr).
      apply crashes_written; [done|]. by apply HP.
Qed.

(** What [install_trans] has done before round [t]: the first [t] blocks are [g]. *)
Record installed (P : gmap Z bytes → Prop) (ns : list Z) (g : Z → bytes) (c : cache) (w : fsworld)
    (t : Z) (w' : fsworld) : Prop := {
  in_cache : ∃ c', cache_ok n c' w' ∧ c_held c' = ∅ ∧
    (∀ y, c_refs c' !! y = if decide (y ∈ take (Z.to_nat t) ns) then None else c_refs c !! y) ∧
    ∀ y, c_view c' y = if decide (y ∈ take (Z.to_nat t) ns) then g y else c_view c y;
  in_disk y : contents (f_disk w') !! y =
    if decide (y ∈ take (Z.to_nat t) ns) then Some (g y) else contents (f_disk w) !! y;
  in_log : same_log w w';
  in_crash : crashes P (f_disk w) (f_disk w') }.

Lemma wp_install_trans (recovering : bool) P ns g c w (Q : unit → fsworld → Prop) :
  (∀ m b, P m → b ∈ ns → P (<[b := g b]> m)) → P (contents (f_disk w)) →
  cache_ok n c w → c_held c = ∅ → ((if recovering then S (size (c_refs c)) else size (c_refs c)) < n)%nat →
  (∀ p, L ≤ p < L + N → c_refs c !! p = None) →
  (∀ b, b ∈ ns → c_refs c !! b = if recovering then None else Some 1) →
  laid_out w → logged ns (f_log w) → loggable ns → (∀ (t : nat) b, ns !! t = Some b → c_view c (place t) = g b) →
  (∀ w', installed P ns g c w (zlen ns) w' → Q tt w') → wp (install_trans recovering) w Q.
Proof.
  intros HP HP0 Hc Hh Hn Hp Hb (EL & EN & Ed) (Hl1 & Hl2 & Hl3) Hlo Hg HQ.
  unfold install_trans, log_start. rewrite wp_bind, wp_gets, EL.
  apply (wp_for_logged (installed P ns g c w) (zlen ns)); [lia|intros t w' H; by rewrite (proj1 (in_log _ _ _ _ _ _ _ H))| | |exact HQ].
  - split; [by exists c|done|done|by apply crashes_refl].
  - intros t w' Ht [(c' & Hc' & Hh' & Er & Ev) Hdk [Hlg Hsb] Hcr].
    destruct (lookup_lt_is_Some_2 ns (Z.to_nat t) ltac:(lia)) as [b Hbt].
    destruct (loggable_at _ _ _ Hlo Hbt) as (Hd & Hpr & Hne). pose proof Hd as [Hdr _].
    pose proof (Hl3 _ _ Hbt) as Hz. rewrite Z2Nat.id in Hz by lia. pose proof (proj1 Hcr) as Bd. pose proof (lo_room _ Hlo) as Hroom.
    assert (place (Z.to_nat t) ∉ take (Z.to_nat t) ns) as Hpn.
    { intros Hin. apply elem_of_take in Hin as (j & Hj & _). destruct (loggable_at _ _ _ Hlo Hj) as ([_ ?] & _). lia. }
    assert (b ∉ take (Z.to_nat t) ns) as Hbn by (by eapply not_taken; [apply Hlo|]).
    assert (b ∈ ns) as Hin by (by eapply list_elem_of_lookup_2).
    replace (u32 (L + t + 1)) with (place (Z.to_nat t)) by (unfold place; rewrite Z2Nat.id, wrap_small by lia; done).
    assert (size (c_refs c') ≤ size (c_refs c))%nat as Hsz.
    { apply map_subseteq_size, map_subseteq_spec. intros y m. rewrite Er. by case_decide. }
    eapply (wp_install_round n recovering c' w' _ t b); try done; rewrite ?Bd, ?Ed, ?Er; try done;
      rewrite ?decide_False by done; [by rewrite Hlg|lia|apply Hp; lia|by apply Hb|by destruct recovering; lia|].
    rewrite Ev, decide_False, (Hg _ _ Hbt) by done. intros w'' Hc'' Hdk' Hsl.
    assert (Z.to_nat (t + 1) = S (Z.to_nat t)) as ES by lia. split; rewrite ?ES.
    + eexists. split; [exact Hc''|]. split; [done|]. split; intros y; cbn [c_refs c_view c_install].
      * rewrite lookup_delete, Er, (decide_taken _ _ b) by done. repeat case_decide; congruence.
      * rewrite Ev, (decide_taken _ _ b) by done. repeat case_decide; congruence.
    + intros y. rewrite Hdk', contents_written, lookup_insert, Hdk, (decide_taken _ _ b) by done.
      repeat case_decide; congruence.
    + eapply same_log_trans; [by split|exact Hsl].
    + eapply crashes_trans; [exact Hcr|]. rewrite Hdk'. pose proof (crashes_end _ _ _ Hcr).
      apply crashes_written; [done|]. by apply HP.
Qed.

(** ** Commit *)

(** Between calls: the blocks [ns] are logged and pinned, and the disk holds [g]. *)
Record ready (ns : list Z) (g : Z → bytes) (c : cache) (w : fsworld) : Prop := {
  rd_cache : cache_ok n c w;
  rd_held : c_held c = ∅;
  rd_refs b : c_refs c !! b = if decide (b ∈ ns) then Some 1 else None;
  rd_lay : laid_out w;
  rd_logged : logged ns (f_log w);
  rd_ns : loggable ns;
  rd_image : image (contents (f_disk w)) [] g }.

Hypothesis Hn : N ≤ Z.of_nat n.

Lemma ready_size ns g c w : ready ns g c w → (size (c_refs c) ≤ length ns)%nat.
Proof.
  intros Hr. rewrite <- (size_list_to_set (C := gset Z) ns) by apply (rd_ns _ _ _ _ Hr). rewrite <- size_dom.
  apply subseteq_size. intros b [m Hm]%elem_of_dom. rewrite (rd_refs _ _ _ _ Hr) in Hm.
  case_decide; [by apply elem_of_list_to_set|done].
Qed.

(** What is not logged is shown as it is on the disk. *)
Lemma ready_clean ns g c w b : ready ns g c w → data_block b → b ∉ ns → g b = c_view c b.
Proof.
  intros [Hc _ Hr (_ & _ & Ed) _ _ [_ _ H3 _ _ _]] Hd Hni. pose proof Hd as [Hdr _].
  pose proof (cache_on_disk n c w b Hc ltac:(by rewrite Ed) ltac:(by rewrite Hr, decide_False)).
  rewrite H3 in H by (done || set_solver). congruence.
Qed.

Definition either (g g' : Z → bytes) (m : gmap Z bytes) : Prop := recovers m g ∨ recovers m g'.

Lemma laid_out_same P w w' : laid_out w → same_log w w' → crashes P (f_disk w) (f_disk w') → laid_out w'.
Proof. intros (E1 & E2 & E3) [_ Es] (Eb & _). unfold laid_out. by rewrite Es, Eb. Qed.

Lemma laid_out_written w w' b x : laid_out w → same_log w w' → f_disk w' = written (f_disk w) b x → laid_out w'.
Proof. intros (E1 & E2 & E3) [_ Es] Eb. unfold laid_out. by rewrite Es, Eb. Qed.

(** The last write: the header names no block any more. *)
Lemma wp_clear_head ns g c w (Q : unit → fsworld → Prop) :
  (0 < n)%nat → cache_ok n c w → c_held c = ∅ → c_refs c = ∅ → laid_out w →
  zlen (block_nos (lh (f_log w))) = SFS_LOGSIZE → image (contents (f_disk w)) ns g →
  (∀ b, b ∈ ns → contents (f_disk w) !! b = Some (g b)) →
  (∀ c' w' h, ready [] g c' w' → (∀ b, data_block b → c_view c' b = c_view c b) →
    f_log w' = set_lh h (f_log w) → crashes (λ m, recovers m g) (f_disk w) (f_disk w') → Q tt w') →
  wp (upd_log (set_log_num 0);; write_head) w Q.
Proof.
  intros H0 Hc Hh Hr Hlay Hlen Him Hin HQ. pose proof Hlay as (EL & _ & Ed).
  unfold upd_log. rewrite wp_bind, wp_modify.
  assert (logged [] (set_log_num 0 (f_log w))) as Hlg.
  { split; [done|]. split; [done|]. intros i b Hb. by rewrite lookup_nil in Hb. }
  eapply (wp_write_head n c _ L []);
    [by apply cache_ok_log|done|by rewrite Hr|rewrite Hr, map_size_empty; lia|..]; cbn [f_disk f_sb f_log set_f_log].
  { lia. }
  { exact EL. }
  { exact Hlg. }
  change (zlen []) with 0. set (x := with_hdr 0 [] (c_view c L)).
  intros w2 Hc2 Hdk2 [Hl2 Hs2]. cbn [f_disk f_sb f_log set_f_log] in *.
  assert (image (contents (f_disk w2)) [] g) as Him2.
  { rewrite Hdk2, contents_written. apply (image_done _ ns); [done| |done]. eapply cache_view_full; [exact Hc|lia]. }
  apply (HQ (c_set L x c) w2 (lh (set_log_num 0 (f_log w)))).
  - split; try done.
    + intros b. by rewrite refs_set, Hr.
    + split; [by rewrite Hs2|]. split; [by rewrite Hs2; apply Hlay|]. by rewrite Hdk2.
    + by rewrite Hl2.
    + split; [constructor|constructor|cbn; lia].
  - intros b [_ Hb]. rewrite view_set, decide_False by lia. done.
  - by rewrite Hl2.
  - rewrite Hdk2. apply crashes_written; [by exists ns|]. exists []. by rewrite Hdk2, contents_written in Him2.
Qed.

(** The second half: the header is on the disk, the blocks are not. *)
Lemma wp_install_clear ns g c w (Q : unit → fsworld → Prop) :
  cache_ok n c w → c_held c = ∅ → (∀ b, c_refs c !! b = if decide (b ∈ ns) then Some 1 else None) →
  (size (c_refs c) < n)%nat → laid_out w → logged ns (f_log w) → loggable ns →
  image (contents (f_disk w)) ns g → (∀ b, data_block b → c_view c b = g b) →
  (∀ c' w' h, ready [] g c' w' → (∀ b, data_block b → c_view c' b = g b) →
    f_log w' = set_lh h (f_log w) → crashes (λ m, recovers m g) (f_disk w) (f_disk w') → Q tt w') →
  wp (install_trans false;; upd_log (set_log_num 0);; write_head) w Q.
Proof.
  intros Hc Hh Hr Hsz Hlay Hlg Hlo Him Hv HQ. pose proof Hlay as (EL & EN & Ed).
  assert (∀ p, L ≤ p < L + N → c_refs c !! p = None) as Hp.
  { intros p Hp. rewrite Hr, decide_False; [done|]. intros Hin. destruct Hlo as [_ Hb _].
    rewrite Forall_forall in Hb. destruct (Hb p Hin). lia. }
  apply wp_bind. eapply (wp_install_trans false (λ m, image m ns g) ns g c w); try done.
  { intros m b. apply image_install. }
  { intros b Hb. by rewrite Hr, decide_True. }
  { intros t b Hb. destruct (loggable_at _ _ _ Hlo Hb) as (_ & Hpl & _).
    pose proof (cache_on_disk n c w (place t) Hc ltac:(lia) ltac:(by apply Hp; lia)) as H1.
    pose proof (im_log _ _ _ Him t b Hb) as H2. unfold place in *. congruence. }
  intros w1 [(c1 & Hc1 & Hh1 & Er1 & Ev1) Hdk1 Hs1 Hcr1]. rewrite Nat2Z.id, firstn_all in *.
  assert (c_refs c1 = ∅) as E1.
  { apply map_eq. intros b. rewrite Er1, Hr, lookup_empty. by case_decide. }
  pose proof (laid_out_same _ _ _ Hlay Hs1 Hcr1) as Hlay1. pose proof Hlay1 as (EL1 & _ & Ed1).
  eapply (wp_clear_head ns g c1 w1); [lia|done..|by rewrite (proj1 Hs1); apply Hlg|exact (crashes_end _ _ _ Hcr1)| |].
  { intros b Hb. by rewrite Hdk1, decide_True. }
  intros c2 w2 h Hr2 Hv2 Hl2 Hcr2. apply (HQ c2 w2 h); [done| |by rewrite Hl2, (proj1 Hs1)|].
  - intros b Hb. rewrite Hv2, Ev1 by done. by case_decide; [|apply Hv].
  - eapply crashes_trans; [|exact Hcr2]. eapply crashes_weaken; [|exact Hcr1]. intros m Hm. by exists ns.
Qed.

(** The first half: up to the header. *)
Lemma wp_write_both ns g c w (Q : unit → fsworld → Prop) :
  ready ns g c w →
  (∀ c' w', cache_ok n c' w' → c_held c' = ∅ → c_refs c' = c_refs c → laid_out w' → f_log w' = f_log w →
    image (contents (f_disk w')) ns (c_view c) → (∀ b, data_block b → c_view c' b = c_view c b) →
    crashes (either g (c_view c)) (f_disk w) (f_disk w') → Q tt w') →
  wp (write_log;; write_head) w Q.
Proof.
  intros Hr HQ. pose proof Hr as [Hc Hh Hrf Hlay Hlg Hlo Him]. pose proof (ready_size _ _ _ _ Hr) as Hsz.
  pose proof (lo_room _ Hlo) as Hroom. pose proof Hlay as (EL & EN & Ed).
  assert (∀ p, L ≤ p < L + N → c_refs c !! p = None) as Hp.
  { intros p Hp. rewrite Hrf, decide_False; [done|]. intros Hin. destruct Hlo as [_ Hb _].
    rewrite Forall_forall in Hb. destruct (Hb p Hin). lia. }
  apply wp_bind. eapply (wp_write_log (λ m, image m [] g) ns c w); try done.
  { intros m p x Hm Hpr. apply image_log_write; [lia|done]. }
  { lia. }
  { intros b Hb. by rewrite Hrf, decide_True. }
  intros w1 [(c1 & Hc1 & Er1 & Hh1 & Ev1) Hpl Hs1 Hcr1].
  pose proof (laid_out_same _ _ _ Hlay Hs1 Hcr1) as Hlay1. pose proof Hlay1 as (EL1 & _ & Ed1).
  eapply (wp_write_head n c1 w1 L ns); [exact Hc1|done|by rewrite Er1; apply Hp; lia|rewrite Er1; lia|lia|done|
    by rewrite (proj1 Hs1)|].
  set (x := with_hdr (zlen ns) ns (c_view c1 L)). intros w2 Hc2 Hdk2 Hs2.
  assert (image (contents (f_disk w2)) ns (c_view c)) as Him2.
  { rewrite Hdk2, contents_written. eapply image_head; [exact (crashes_end _ _ _ Hcr1)|..]; try apply Hlo.
    - eapply cache_view_full; [exact Hc1|lia].
    - intros t b Hb. apply Hpl; [|done]. apply lookup_lt_Some in Hb. lia.
    - intros b Hd Hni. by eapply ready_clean. }
  apply (HQ (c_set L x c1) w2); try done.
  - by eapply laid_out_written.
  - by rewrite (proj1 Hs2), (proj1 Hs1).
  - intros b Hb. pose proof Hb as [_ Hb']. rewrite view_set, decide_False by lia. by apply Ev1.
  - eapply crashes_trans; [eapply crashes_weaken; [|exact Hcr1]; intros m Hm; left; by exists []|]. rewrite Hdk2.
    apply crashes_written; [left; exists []; exact (crashes_end _ _ _ Hcr1)|].
    right. exists ns. by rewrite Hdk2, contents_written in Him2.
Qed.

Lemma wp_commit ns g c w (Q : unit → fsworld → Prop) :
  ready ns g c w →
  (∀ c' w' h, ready [] (c_view c) c' w' → (∀ b, data_block b → c_view c' b = c_view c b) →
    f_log w' = set_lh h (f_log w) → crashes (either g (c_view c)) (f_disk w) (f_disk w') → Q tt w') →
  wp commit w Q.
Proof.
  intros Hr HQ. pose proof Hr as [Hc Hh Hrf Hlay Hlg Hlo Him]. pose proof (ready_size _ _ _ _ Hr) as Hsz.
  pose proof (lo_room _ Hlo) as Hroom. unfold commit, get_log. rewrite wp_bind, wp_gets, (proj1 Hlg).
  destruct ns as [|b0 ns'] eqn:Ens.
  - change (0 <? zlen []) with false. cbv iota. rewrite wp_ret. apply (HQ c w (lh (f_log w))); try done.
    + split; try done. destruct Him as [H1 H2 H3 H4 H5 H6]. split; try done.
      intros b Hd Hni. rewrite <- (ready_clean _ _ _ _ _ Hr Hd Hni). by apply H3.
    + by destruct (f_log w).
    + apply crashes_refl. left. by exists [].
  - rewrite <- Ens in *. rewrite (proj2 (Z.ltb_lt _ _)) by (rewrite Ens; cbn; lia).
    assert (∀ m, wp (write_log;; write_head) w (λ _ w', wp (install_trans false;; upd_log (set_log_num 0);; write_head) w' m) →
      wp (write_log;; write_head;; install_trans false;; upd_log (set_log_num 0);; write_head) w m) as Hsplit.
    { intros m. rewrite !wp_bind. intros H. eapply wp_conseq; [exact H|]. intros [] w'. cbn. rewrite !wp_bind. done. }
    apply Hsplit. eapply (wp_write_both ns g c w); [done|].
    intros c1 w1 Hc1 Hh1 Er1 Hlay1 Hl1 Him1 Hv1 Hcr1.
    eapply (wp_install_clear ns (c_view c) c1 w1); try done.
    { intros b. by rewrite Er1. }
    { rewrite Er1. lia. }
    { by rewrite Hl1. }
    intros c2 w2 h Hr2 Hv2 Hl2 Hcr2. apply (HQ c2 w2 h); [done|done|by rewrite Hl2, Hl1|].
    eapply crashes_trans; [exact Hcr1|]. eapply crashes_weaken; [|exact Hcr2]. intros m Hm. by right.
Qed.

(** ** Recovery *)

Lemma wp_recover_from_log g c w (Q : unit → fsworld → Prop) :
  (2 ≤ n)%nat → cache_ok n c w → c_held c = ∅ → c_refs c = ∅ → laid_out w →
  zlen (block_nos (lh (f_log w))) = SFS_LOGSIZE → recovers (contents (f_disk w)) g →
  (∀ c' w' h, ready [] g c' w' → f_log w' = set_lh h (f_log w) → crashes (λ m, recovers m g) (f_disk w) (f_disk w') → Q tt w') →
  wp recover_from_log w Q.
Proof.
  intros H2 Hc Hh Hr Hlay Hlen [ns Him] HQ. pose proof Hlay as (EL & EN & Ed).
  pose proof Him as [(x & Hx & Hxf & Hns & Hk) Hlg Hda Hnd Hbl Hroom].
  assert (loggable ns) as Hlo by done.
  assert (∀ b, 0 < b < dmax → contents (f_disk w) !! b = Some (c_view c b)) as Hcv.
  { intros b Hb. eapply cache_on_disk; [done|lia|by rewrite Hr]. }
  assert (c_view c L = x) as Evx by (pose proof (Hcv L); rewrite H in Hx by lia; congruence).
  unfold recover_from_log. apply wp_bind.
  eapply (wp_read_head n c w L); [done|done|by rewrite Hr|rewrite Hr, map_size_empty; lia|lia|done|done|rewrite Evx, Hk; lia|].
  intros w1 h1 Hc1 Hd1 Hs1 Hl1 Hlg1. rewrite Evx, Hns in Hlg1.
  assert (laid_out w1) as Hlay1 by (unfold laid_out; by rewrite Hs1, Hd1).
  apply wp_bind. eapply (wp_install_trans true (λ m, image m ns g) ns g c w1); try done.
  { intros m b. apply image_install. }
  { by rewrite Hd1. }
  { rewrite Hr, map_size_empty. lia. }
  { intros p _. by rewrite Hr. }
  { intros b _. by rewrite Hr. }
  { intros t b Hb. destruct (loggable_at _ _ _ Hlo Hb) as (_ & Hpl & _). pose proof (Hlg t b Hb) as E.
    unfold place in *. rewrite Hcv in E by lia. congruence. }
  intros w2 [(c2 & Hc2 & Hh2 & Er2 & Ev2) Hdk2 Hs2 Hcr2]. rewrite Nat2Z.id, firstn_all in *.
  assert (c_refs c2 = ∅) as E2 by (apply map_eq; intros b; rewrite Er2, Hr; by case_decide).
  pose proof (laid_out_same _ _ _ Hlay1 Hs2 Hcr2) as Hlay2. pose proof Hlay2 as (EL2 & _ & Ed2).
  eapply (wp_clear_head ns g c2 w2); [lia|done..|by rewrite (proj1 Hs2); apply Hlg1|exact (crashes_end _ _ _ Hcr2)| |].
  { intros b Hb. by rewrite Hdk2, decide_True. }
  intros c3 w3 h Hr3 Hv3 Hl3 Hcr3. apply (HQ c3 w3 h); [done|by rewrite Hl3, (proj1 Hs2), Hl1|].
  rewrite <- Hd1. eapply crashes_trans; [|exact Hcr3]. eapply crashes_weaken; [|exact Hcr2]. intros m Hm. by exists ns.
Qed.
End log.
