(* ===== verification/SfsCrash.v ===== *)
(** * Transactions, crashes and recovery

    The abstract file system is a count of the calls that are active, the blocks
    they logged, what the cache shows, and what the disk will show after a crash.
    The code runs as it does, every crash point of its writes holds what was committed
    after some of the calls, and [initlog] gives that back. *)
From S2P Require Import Prelude Errors PacketIO PktMem ListH SfsBuf SfsLog SfsCache SfsLogSpec SfsHead SfsCommit.

(** ** Calls *)

(** [begin_op], the update of a block as every caller of [log_write] makes it, and [end_op]. *)
Inductive fs_step := Begin | Update (b : Z) (f : bytes → bytes) | End_.

Definition update_block (b : Z) (f : bytes → bytes) : Fs unit :=
  buf ← buf_read b;
  v ← get_buf buf;
  upd_buf buf (set_data (f (data v)));;
  log_write buf;;
  buf_release buf.

Definition do_step (s : fs_step) : Fs unit :=
  match s with Begin => begin_op | Update b f => update_block b f | End_ => end_op end.

Fixpoint do_steps (ss : list fs_step) : Fs unit :=
  match ss with [] => mret tt | s :: ss' => do_step s;; do_steps ss' end.

(** ** The abstract file system *)

Record afs := mk_afs {
  a_out : Z;              (* calls between [begin_op] and [end_op] *)
  a_ns : list Z;          (* blocks logged and not committed *)
  a_view : Z → bytes;     (* what the cache shows *)
  a_disk : Z → bytes }.   (* what is committed *)

Definition a_step (s : afs) (o : fs_step) : afs :=
  match o with
  | Begin => mk_afs (a_out s + 1) (a_ns s) (a_view s) (a_disk s)
  | Update b f => mk_afs (a_out s) (if decide (b ∈ a_ns s) then a_ns s else a_ns s ++ [b])
      (λ y, if decide (y = b) then f (a_view s b) else a_view s y) (a_disk s)
  | End_ => if a_out s - 1 =? 0 then mk_afs 0 [] (a_view s) (a_view s)
           else mk_afs (a_out s - 1) (a_ns s) (a_view s) (a_disk s)
  end.

Definition a_steps : afs → list fs_step → afs := foldl a_step.

Section crash.
Context (n : nat) (L N dmax : Z).
Hypothesis HL : 0 < L.
Hypothesis HN : 1 ≤ N ≤ SFS_LOGSIZE.
Hypothesis Hmax : L + N ≤ dmax.
Hypothesis Hmax20 : dmax < 2 ^ 20.
Hypothesis Hn : N ≤ Z.of_nat n.
Abbreviation data_block := (data_block L N dmax).
Abbreviation image := (image L N dmax).
Abbreviation recovers := (recovers L N dmax).
Abbreviation ready := (ready n L N dmax).
Abbreviation loggable := (loggable L N dmax).

(** A call the callers may make: one more is let in only while its blocks still fit,
    and a block is logged by an active call, in a log that is not full. *)
Definition may (s : afs) (o : fs_step) : Prop :=
  match o with
  | Begin => zlen (a_ns s) + (a_out s + 1) * SFS_MAXOPBLOCKS ≤ SFS_LOGSIZE
  | Update b f => 1 ≤ a_out s ∧ data_block b ∧ zlen (a_ns s) < N - 1 ∧ ∀ x, full x → full (f x)
  | End_ => 1 ≤ a_out s
  end.

Fixpoint legal (s : afs) (ss : list fs_step) : Prop :=
  match ss with [] => True | o :: ss' => may s o ∧ legal (a_step s o) ss' end.

(** The kernel's state is the abstract one. *)
Record runs (s : afs) (w : fsworld) : Prop := {
  ru_cache : ∃ c, ready (a_ns s) (a_disk s) c w ∧ ∀ b, data_block b → c_view c b = a_view s b;
  ru_out : outstanding (f_log w) = a_out s;
  ru_lock : log_lock (f_log w) = false;
  ru_comm : committing (f_log w) = false }.

Lemma image_ext m ns g g' : (∀ b, data_block b → g b = g' b) → image m ns g → image m ns g'.
Proof.
  intros Hg [H1 H2 H3 H4 H5 H6]. split; try done.
  - intros t b Hb. rewrite <- Hg; [by apply H2|]. rewrite Forall_forall in H5. apply H5. by eapply list_elem_of_lookup_2.
  - intros b Hd Hni. rewrite <- Hg by done. by apply H3.
Qed.

Lemma recovers_ext m g g' : (∀ b, data_block b → g b = g' b) → recovers m g → recovers m g'.
Proof. intros Hg [ns Hm]. exists ns. by eapply image_ext. Qed.

Lemma ready_ext ns g g' c w : (∀ b, data_block b → g b = g' b) → ready ns g c w → ready ns g' c w.
Proof. intros Hg [H1 H2 H3 H4 H5 H6 H7]. split; try done. by eapply image_ext. Qed.

Lemma ready_log ns g c w l : lh l = lh (f_log w) → ready ns g c w → ready ns g c (set_f_log l w).
Proof.
  intros Hl [H1 H2 H3 H4 H5 H6 H7]. split; try done; [by apply cache_ok_log|].
  destruct H5 as (? & ? & ?). unfold logged. cbn. by rewrite Hl.
Qed.

(** ** The log's own lock *)

Lemma wp_acquire_log w (Q : unit → fsworld → Prop) :
  log_lock (f_log w) = false → Q tt (set_f_log (set_log_lock true (f_log w)) w) → wp acquire_log w Q.
Proof.
  intros Hl HQ. unfold acquire_log, get_log. rewrite wp_bind, wp_gets, wp_bind, wp_assert, Hl. done.
Qed.

Lemma wp_release_log w (Q : unit → fsworld → Prop) :
  log_lock (f_log w) = true → Q tt (set_f_log (set_log_lock false (f_log w)) w) → wp release_log w Q.
Proof.
  intros Hl HQ. unfold release_log, get_log. rewrite wp_bind, wp_gets, wp_bind, wp_assert, Hl. done.
Qed.

(** ** Beginning *)

Lemma wp_begin s w : runs s w → may s Begin → wp begin_op w (λ _ w', runs (a_step s Begin) w' ∧ f_disk w' = f_disk w).
Proof.
  intros [(c & Hr & Hv) Ho Hk Hc] Hm. cbn in Hm. unfold begin_op.
  apply wp_bind, wp_acquire_log; [done|]. unfold get_log. rewrite wp_bind, wp_gets. cbn [committing f_log set_f_log set_log_lock outstanding lh].
  rewrite Hc, Ho, (proj1 (rd_logged _ _ _ _ _ _ _ _ Hr)), (proj2 (Z.ltb_ge _ _)) by done.
  unfold upd_log. rewrite wp_bind, wp_modify. apply wp_release_log; [done|]. split; [|done]. split; try done.
  exists c. split; [|done]. repeat (apply ready_log; [done|]). exact Hr.
Qed.

(** ** Logging a block *)

Lemma wp_log_index ns b w (Q : Z → fsworld → Prop) :
  logged ns (f_log w) →
  (∀ i, 0 ≤ i ≤ zlen ns → (ns !! Z.to_nat i = Some b ∨ i = zlen ns ∧ b ∉ ns) → Q i w) → wp (log_index b) w Q.
Proof.
  intros (H1 & H2 & H3) HQ. unfold log_index, get_log. rewrite wp_bind, wp_gets, H1.
  apply (wp_loop _ (λ i w', w' = w ∧ 0 ≤ i ≤ zlen ns ∧ b ∉ take (Z.to_nat i) ns) (λ i _, Z.to_nat (zlen ns - i))).
  - intros i w' (-> & Hi & Hni). rewrite wp_bind, wp_gets, H1. destruct (Z.ltb_spec i (zlen ns)).
    + destruct (lookup_lt_is_Some_2 ns (Z.to_nat i) ltac:(lia)) as [x Hx].
      pose proof (H3 _ _ Hx) as Hz. rewrite Z2Nat.id in Hz by lia.
      apply wp_bind. eapply wp_get_block; [done|]. rewrite wp_ret. destruct (Z.eqb_spec x b) as [->|Hne].
      * apply HQ; [lia|by left].
      * split; [|lia]. split; [done|]. split; [lia|]. replace (Z.to_nat (i + 1)) with (S (Z.to_nat i)) by lia.
        rewrite (taken_S _ _ _ _ Hx). intros [->|?]; done.
    + rewrite wp_ret. assert (i = zlen ns) as -> by lia. apply HQ; [lia|]. right. split; [done|].
      by rewrite Nat2Z.id, firstn_all in Hni.
  - split; [done|]. split; [lia|]. cbn. set_solver.
  - lia.
Qed.

Lemma log_put l bs : log_lock l = false →
  set_log_lock false (set_block_nos bs (set_log_lock true l)) = set_lh (mk_lh (log_num (lh l)) bs) l.
Proof. destruct l. cbn. by intros ->. Qed.

Lemma log_grown l bs k : log_lock l = false →
  set_log_lock false (set_log_num k (set_block_nos bs (set_log_lock true l))) = set_lh (mk_lh k bs) l.
Proof. destruct l. cbn. by intros ->. Qed.

(** The block [b], held, joins the log, if it is not in it. *)
Lemma wp_log_write ns c w b a (Q : unit → fsworld → Prop) :
  cache_ok n c w → c_held c !! b = Some a → logged ns (f_log w) → zlen ns < N - 1 → nlog (f_sb w) = N →
  1 ≤ outstanding (f_log w) → log_lock (f_log w) = false → refs_of c b < 2 ^ 60 →
  (∀ c' w' h, cache_ok n c' w' → c' = (if decide (b ∈ ns) then c else c_count b (refs_of c b + 1) c) →
    f_disk w' = f_disk w → f_sb w' = f_sb w → f_log w' = set_lh h (f_log w) →
    logged (if decide (b ∈ ns) then ns else ns ++ [b]) (f_log w') → Q tt w') →
  wp (log_write a) w Q.
Proof.
  intros Hc Hh Hlg Hns HNs Ho Hk Hrb HQ. pose proof Hlg as (Hl1 & Hl2 & Hl3).
  unfold log_write, get_log, log_size. rewrite wp_bind, wp_gets, wp_bind, wp_gets, HNs, Hl1.
  pose proof HN as HN'. unfold SFS_LOGSIZE in Hl2, HN'. rewrite (wrap_small 32 (N - 1)), (wrap_small 32 (zlen ns)) by lia.
  rewrite (proj2 (Z.leb_gt (N - 1) (zlen ns))) by lia. rewrite wp_bind, wp_ret, wp_bind, wp_assert.
  split; [by apply Z.leb_le|]. apply wp_bind, wp_acquire_log; [done|]. set (l1 := set_log_lock true (f_log w)).
  assert (cache_ok n c (set_f_log l1 w)) as Hc1 by (by apply cache_ok_log).
  apply wp_bind. eapply (wp_held n c _ b a Hc1 Hh). intros v Hv. rewrite (hb_block _ _ _ _ Hv).
  apply wp_bind. eapply (wp_log_index ns b); [exact Hlg|]. intros i Hi Hor. apply wp_bind.
  destruct (zlookup_zset (block_nos (lh l1)) i b) as (bs & Ebs & Elen & Hbs); [cbn; lia|].
  change (length bs = length (block_nos (lh (f_log w)))) in Elen.
  unfold put_block, get_log, upd_log. rewrite wp_bind, wp_gets, wp_bind, wp_of_option. exists bs. split; [exact Ebs|].
  rewrite wp_modify. cbn [f_log set_f_log].
  destruct (decide (b ∈ ns)) as [Hin|Hni].
  - destruct Hor as [Hb|[_ ?]]; [|done]. rewrite (proj2 (Z.eqb_neq _ _)).
    2:{ pose proof (lookup_lt_Some _ _ _ Hb). lia. }
    rewrite wp_bind, wp_ret. apply wp_release_log; [done|]. apply (HQ c _ (mk_lh (zlen ns) bs)); try done.
    + by repeat apply cache_ok_log.
    + rewrite <- Hl1. by apply log_put.
    + split; [exact Hl1|]. split; [unfold SFS_LOGSIZE; cbn; lia|]. intros j x Hx. cbn. rewrite Hbs by lia. case_decide as E; [|by apply Hl3].
      subst i. rewrite Nat2Z.id in Hb. congruence.
  - destruct Hor as [Hb|[-> _]]; [by apply list_elem_of_lookup_2 in Hb|]. rewrite Z.eqb_refl.
    assert (refcnt v = refs_of c b) as Erv by (symmetry; apply refs_of_lookup, Hv).
    pose proof (hb_pos _ _ _ _ Hv) as Hpos.
    assert (sint 64 (refcnt v + 1) = refs_of c b + 1) as -> by (unfold sint; rewrite Z.mod_small; lia).
    apply wp_bind, wp_bind. eapply (wp_set_count n c _ b a); [by apply cache_ok_log|done|lia|].
    intros w2 Hc2 (D2 & L2 & S2). rewrite wp_modify. apply wp_release_log; [by cbn; rewrite L2|].
    apply (HQ (c_count b (refs_of c b + 1) c) _ (mk_lh (zlen ns + 1) bs)).
    + repeat apply cache_ok_log. exact Hc2.
    + done.
    + cbn. by rewrite D2.
    + cbn. by rewrite S2.
    + cbn [f_log set_f_log]. rewrite L2. by apply log_grown.
    + split; [cbn; rewrite length_app; cbn; lia|]. split; [unfold SFS_LOGSIZE; cbn; rewrite L2; cbn; lia|].
      intros j x Hx. cbn. rewrite L2. cbn. rewrite Hbs by lia. case_decide as E.
      * apply Nat2Z.inj in E as ->. rewrite lookup_app_r, Nat.sub_diag in Hx by lia. by injection Hx as ->.
      * apply Hl3. rewrite lookup_app_l in Hx; [done|]. apply lookup_lt_Some in Hx. rewrite length_app in Hx. cbn in Hx. lia.
Qed.

(** What a caller of [log_write] leaves: the block shows the new contents, and is pinned. *)
Lemma update_end c b a x (ns : list Z) :
  c_held c = ∅ → (∀ y, c_refs c !! y = if decide (y ∈ ns) then Some 1 else None) →
  let c1 := c_set b x (c_read b a c) in
  let c2 := c_drop b (if decide (b ∈ ns) then c1 else c_count b (refs_of c1 b + 1) c1) in
  c_held c2 = ∅ ∧
  (∀ y, c_refs c2 !! y = if decide (y ∈ if decide (b ∈ ns) then ns else ns ++ [b]) then Some 1 else None) ∧
  ∀ y, c_view c2 y = if decide (y = b) then x else c_view c y.
Proof.
  intros Hh Hr. cbn zeta. assert (refs_of c b = if decide (b ∈ ns) then 1 else 0) as Eb
    by (unfold refs_of; rewrite Hr; by case_decide).
  destruct (decide (b ∈ ns)) as [Hin|Hni].
  - split_and!; [apply map_eq; intros y|intros y|intros y]; cache_simpl.
    + rewrite Hh, lookup_empty. by repeat case_decide.
    + rewrite Hr. destruct (decide (y = b)) as [->|]; [|done]. rewrite Eb. by rewrite !decide_True.
    + done.
  - split_and!; [apply map_eq; intros y|intros y|intros y]; cache_simpl.
    + rewrite Hh, lookup_empty. by repeat case_decide.
    + rewrite Hr, Eb. destruct (decide (y = b)) as [->|Hne].
      * rewrite (decide_True (P := b ∈ ns ++ [b])) by set_solver. done.
      * destruct (decide (y ∈ ns)), (decide (y ∈ ns ++ [b])); set_solver.
    + done.
Qed.

Lemma wp_update s w b f : runs s w → may s (Update b f) →
  wp (update_block b f) w (λ _ w', runs (a_step s (Update b f)) w' ∧ f_disk w' = f_disk w).
Proof.
  intros [(c & Hr & Hv) Ho Hk Hcm] (Hout & Hb & Hroom & Hf). pose proof Hr as [Hc Hh Hrf Hlay Hlg Hlo Him].
  pose proof Hlay as (EL & EN & Ed). pose proof Hb as [Hbr Hbn]. pose proof (ready_size _ _ _ _ _ _ _ _ Hr) as Hsz.
  assert (refs_of c b = if decide (b ∈ a_ns s) then 1 else 0) as Eb by (unfold refs_of; rewrite Hrf; by case_decide).
  unfold update_block. apply wp_bind.
  eapply (wp_buf_read n c b); [done|lia|by rewrite Hh|rewrite Eb; by case_decide|right; lia|].
  intros a w1 Hc1 (D1 & L1 & S1). set (c1 := c_read b a c) in *.
  assert (c_held c1 !! b = Some a) as H1 by (unfold c1; by cache_simpl).
  apply wp_bind. eapply (wp_held n c1 w1 b a Hc1 H1). intros v Hvb. rewrite (hb_data _ _ _ _ Hvb).
  change (c_view c1 b) with (c_view c b). apply wp_bind.
  eapply (wp_set_data n c1 w1 b a Hc1 H1); [apply Hf; eapply cache_view_full; [exact Hc|lia]|].
  intros w2 Hc2 (D2 & L2 & S2). apply wp_bind.
  eapply (wp_log_write (a_ns s) _ w2 b a); [exact Hc2|exact H1|by rewrite L2, L1|lia|by rewrite S2, S1|
    by rewrite L2, L1, Ho|by rewrite L2, L1|unfold c1; cache_simpl; rewrite Eb; by case_decide|].
  intros c3 w3 h Hc3 E3 D3 S3 L3 Hlg3. rewrite L2, L1 in L3.
  assert (c_held c3 !! b = Some a ∧ refs_of c3 b = 2) as [H3 R3].
  { rewrite E3. case_decide; unfold c1; cache_simpl; rewrite Eb; split; done || lia. }
  eapply (wp_buf_release n c3 w3 b a); [exact Hc3|exact H3|lia|lia|]. intros w4 Hc4 (D4 & L4 & S4).
  destruct (update_end c b a (f (c_view c b)) (a_ns s) Hh Hrf) as (Eh & Er & Ev). fold c1 in Eh, Er, Ev.
  rewrite <- E3 in Eh, Er, Ev. split; [|by rewrite D4, D3, D2, D1]. cbn [a_step]. split; cbn [a_ns a_disk a_view a_out].
  - exists (c_drop b c3). split.
    + split; [done|done|exact Er| |by rewrite L4| |by rewrite D4, D3, D2, D1].
      * unfold laid_out. by rewrite S4, S3, S2, S1, D4, D3, D2, D1.
      * case_decide as Hd; [done|]. destruct Hlo as [N1 N2 N3]. split.
        -- apply NoDup_app. split; [done|]. split; [|by apply NoDup_singleton]. intros y Hy ->%list_elem_of_singleton. done.
        -- apply Forall_app. split; [done|]. by constructor.
        -- rewrite length_app. cbn. lia.
    + intros y Hy. rewrite Ev. destruct (decide (y = b)); [f_equal|]; by apply Hv.
  - by rewrite L4, L3.
  - by rewrite L4, L3.
  - by rewrite L4, L3.
Qed.

(** ** Ending *)

Lemma wp_end s w : runs s w → may s End_ →
  wp end_op w (λ _ w', runs (a_step s End_) w' ∧
    crashes (λ m, recovers m (a_disk s) ∨ recovers m (a_disk (a_step s End_))) (f_disk w) (f_disk w')).
Proof.
  intros [(c & Hr & Hv) Ho Hk Hc] Hm. cbn in Hm. unfold end_op.
  apply wp_bind, wp_acquire_log; [done|]. unfold get_log, upd_log. rewrite wp_bind, wp_gets, wp_bind, wp_modify.
  rewrite wp_bind, wp_assert. cbn [committing f_log set_f_log set_log_lock set_outstanding outstanding]. rewrite Hc.
  split; [done|]. rewrite wp_bind, wp_gets. cbn [outstanding f_log set_f_log set_outstanding]. rewrite Ho. cbn [a_step].
  assert (recovers (contents (f_disk w)) (a_disk s)) as Hrec by (exists []; apply Hr).
  destruct (Z.eqb_spec (a_out s - 1) 0) as [E|E].
  - rewrite wp_bind, wp_modify. apply wp_bind, wp_release_log; [done|]. apply wp_bind.
    eapply (wp_commit n L N dmax HL HN Hmax Hmax20 Hn (a_ns s) (a_disk s) c); [repeat (apply ready_log; [done|]); exact Hr|].
    intros c' w' h Hr' Hv' Hl' Hcr. cbn [f_disk set_f_log] in Hcr.
    apply wp_bind, wp_acquire_log; [by rewrite Hl'|]. rewrite wp_bind, wp_modify. apply wp_release_log; [done|].
    cbn [f_disk set_f_log]. split; cbn.
    + split; cbn; [|by rewrite Hl', E|done|done]. exists c'. split; [|intros b Hb; rewrite Hv' by done; by apply Hv].
      eapply ready_ext; [exact Hv|]. repeat (apply ready_log; [done|]). exact Hr'.
    + eapply crashes_weaken; [|exact Hcr]. intros m [Hm'|Hm']; [by left|right]. eapply recovers_ext; [|exact Hm']. apply Hv.
  - rewrite wp_bind, wp_ret. apply wp_bind, wp_release_log; [done|]. rewrite wp_ret. cbn [f_disk set_f_log]. split; cbn.
    + split; cbn; [|done|done|done]. exists c. split; [|done]. repeat (apply ready_log; [done|]). exact Hr.
    + apply crashes_refl. by left.
Qed.

(** ** Histories *)

(** What a crash may show: what is committed after some of the calls. *)
Definition some_prefix (s : afs) (ss : list fs_step) (m : gmap Z bytes) : Prop :=
  ∃ k, (k ≤ length ss)%nat ∧ recovers m (a_disk (a_steps s (take k ss))).

Lemma prefix_start s ss m : recovers m (a_disk s) → some_prefix s ss m.
Proof. intros H. exists 0%nat. split; [lia|]. by rewrite take_0. Qed.

Lemma wp_step s w o : runs s w → may s o →
  wp (do_step o) w (λ _ w', runs (a_step s o) w' ∧ crashes (some_prefix s [o]) (f_disk w) (f_disk w')).
Proof.
  intros Hr Hm. assert (recovers (contents (f_disk w)) (a_disk s)) as Hrec
    by (destruct (ru_cache _ _ Hr) as (c & Hc & _); exists []; apply Hc).
  destruct o as [|b f|]; cbn [do_step].
  - eapply wp_conseq; [by apply wp_begin|]. intros [] w' [H1 E]. split; [done|]. rewrite E.
    by apply crashes_refl, prefix_start.
  - eapply wp_conseq; [by apply wp_update|]. intros [] w' [H1 E]. split; [done|]. rewrite E.
    by apply crashes_refl, prefix_start.
  - eapply wp_conseq; [by apply wp_end|]. intros [] w' [H1 Hcr]. split; [done|].
    eapply crashes_weaken; [|exact Hcr]. intros m [H|H]; [by apply prefix_start|]. exists 1%nat. cbn. split; [lia|done].
Qed.

Lemma steps_ok s w ss : runs s w → legal s ss →
  ∃ w', do_steps ss w = Ok (tt, w') ∧ runs (a_steps s ss) w' ∧ crashes (some_prefix s ss) (f_disk w) (f_disk w').
Proof.
  revert s w. induction ss as [|o ss IH]; intros s w Hr Hl.
  - exists w. split; [done|]. split; [done|]. apply crashes_refl, prefix_start.
    destruct (ru_cache _ _ Hr) as (c & Hc & _). exists []. apply Hc.
  - destruct Hl as [Hm Hl]. destruct (proj1 (wp_run _ _ _) (wp_step s w o Hr Hm)) as ([] & w1 & E1 & Hr1 & Hcr1).
    destruct (IH _ _ Hr1 Hl) as (w2 & E2 & Hr2 & Hcr2). exists w2.
    split; [cbn; unfold mbind, M_bind; by rewrite E1|]. split; [done|].
    eapply crashes_trans; (eapply crashes_weaken; [|done]).
    + intros m (k & Hk & H). exists k. cbn in Hk |- *. split; [lia|].
      destruct k as [|[|k]]; [done|done|cbn in Hk; lia].
    + intros m (k & Hk & H). exists (S k). cbn. split; [lia|done].
Qed.

(** ** Mounting after a crash *)

(** The kernel starts anew on the disk: nothing is in use, the log is as the loader
    leaves static data. *)
Record boots (m : gmap Z bytes) (w : fsworld) : Prop := {
  bt_cache : ∃ c, cache_ok n c w ∧ c_held c = ∅ ∧ c_refs c = ∅;
  bt_disk : contents (f_disk w) = m;
  bt_lay : laid_out L N dmax w;
  bt_size : zlen (block_nos (lh (f_log w))) = SFS_LOGSIZE;
  bt_out : outstanding (f_log w) = 0 }.

Definition just_mounted (g : Z → bytes) : afs := mk_afs 0 [] g g.

Lemma initlog_ok m w g : (2 ≤ n)%nat → boots m w → recovers m g →
  ∃ w', initlog w = Ok (tt, w') ∧ runs (just_mounted g) w' ∧
    crashes (λ m', recovers m' g) (f_disk w) (f_disk w').
Proof.
  intros H2 [(c & Hc & Hh & Hr) Hd Hlay Hlen Ho] Hrec. apply wp_unit.
  unfold initlog, upd_log. rewrite wp_bind, wp_modify, wp_bind, wp_modify.
  eapply (wp_recover_from_log n L N dmax HL HN Hmax Hmax20 g c); try done; cbn [f_disk f_log set_f_log].
  { by repeat apply cache_ok_log. }
  { by rewrite Hd. }
  intros c' w' h Hr' Hl' Hcr. split; [|exact Hcr].
  split; cbn; rewrite ?Hl'; [|done|done|done]. exists c'. split; [done|].
  intros b Hb. symmetry. eapply ready_clean; [done..|]. set_solver.
Qed.
End crash.
