(* ===== verification/SfsMount.v ===== *)
(** * Mounting: [buffer_init], [check_superlock] and [sfs_do_mount] of [fs/sfs/sfs.c]

    The buffers are allocated, the superblock is read through them and the log is
    recovered.  The tables of inodes are left out. *)
From S2P Require Import Prelude Errors PacketIO PktMem ListH SfsBuf SfsLog SfsCache SfsLogSpec SfsHead SfsCommit SfsCrash.

Definition SFS_BLKN_SUPER : Z := 1.
Definition SFS_MAGIC : Z := 539166754. (* 0x20230822 *)

(** [kmalloc(sizeof(Disk_buf))]. *)
Class BufAlloc := kmalloc_buf : Fs Z.

(** The members [buffer_init] sets; [valid] and the data are what was there. *)
Definition new_buf (d : Z) (v : Disk_buf) : Disk_buf := mk_buf (valid v) d 0 1 0 (data v).

Definition buffer_init `{BufAlloc} : Fs unit :=
  loop (S (Z.to_nat SFS_NBUF)) (λ i,
    if i <? SFS_NBUF then
      a ← kmalloc_buf;
      assert_ (negb (a =? 0));;
      d ← gets f_dev;
      upd_buf a (new_buf d);;
      on_links (list_add buffer_list (link a));;
      mret (inl (i + 1))
    else mret (inr tt)) 0.

(** The superblock as it lies at the start of its block. *)
Definition decode_sb (x : bytes) : Superblock :=
  mk_sb (get_le x 0 4) (get_le x 4 4) (get_le x 8 4) (get_le x 12 4) (get_le x 16 4) (get_le x 20 4)
    (get_le x 24 4) (get_le x 28 4).
Definition set_f_sb v w := mk_fs (f_disk w) (f_bufs w) (f_links w) (f_dev w) v (buffer_list_lock w) (f_log w).

Definition check_superlock : Fs Z :=
  buf ← buf_read SFS_BLKN_SUPER;
  v ← get_buf buf;
  modify (set_f_sb (decode_sb (data v)));;
  sb ← gets f_sb;
  if negb (magic sb =? SFS_MAGIC) then mret (- E_INVAL) else
  buf_release buf;;
  mret 0.

Definition sfs_do_mount `{BufAlloc} : Fs Z :=
  on_links (list_init buffer_list);;
  buffer_init;;
  ret ← check_superlock;
  if negb (ret =? 0) then mret ret else
  modify (set_list_lock false);;
  initlog;;
  mret 0.

(** ** The buffers *)

(** [kmalloc] finds a free structure, with its link, and nothing else changes. *)
Class BufAllocOk `{BA : BufAlloc} := {
  kmalloc_buf_ok w : ∃ a v e, a ≠ 0 ∧ f_bufs w !! a = None ∧ f_links w !! a = None ∧ full (data v) ∧
    kmalloc_buf w = Ok (a, set_f_links (<[a := e]> (f_links w)) (set_f_bufs (<[a := v]> (f_bufs w)) w)) }.

Section mount.
Context `{BO : BufAllocOk}.

Definition idle_buf (d : Z) (v : Disk_buf) : Prop :=
  dev v = d ∧ blockno v = 0 ∧ sem v = 1 ∧ refcnt v = 0 ∧ full (data v).

(** [k] buffers are there, and nothing else has changed. *)
Record pool (w : fsworld) (k : Z) (w' : fsworld) : Prop := {
  pl_ring : ∃ es, zlen es = k ∧ is_list (f_links w') buffer_list es ∧
    (∀ a, a ∈ es → ∃ v, f_bufs w' !! a = Some v ∧ idle_buf (f_dev w) v);
  pl_keeps : keeps_rest w w';
  pl_dev : f_dev w' = f_dev w;
  pl_lock : buffer_list_lock w' = buffer_list_lock w }.

Lemma wp_new_buf w k w1 (Q : Z + unit → fsworld → Prop) :
  pool w k w1 → (∀ w2, pool w (k + 1) w2 → Q (inl (k + 1)) w2) →
  wp (a ← kmalloc_buf; assert_ (negb (a =? 0));; d ← gets f_dev; upd_buf a (new_buf d);;
    on_links (list_add buffer_list (link a));; mret (inl (k + 1))) w1 Q.
Proof.
  intros [(es & Hk & Hl & Hes) Hkeep Hdev Hlock] HQ.
  destruct (kmalloc_buf_ok w1) as (a & v & e & Ha0 & Hab & Hal & Hf & E).
  apply wp_bind. eapply wp_of_run; [exact E|]. rewrite wp_bind, wp_assert, (proj2 (Z.eqb_neq _ _)) by done.
  split; [done|]. rewrite wp_bind, wp_gets. apply wp_bind.
  eapply wp_upd_dbuf; [cbn; by rewrite lookup_insert_eq|]. apply wp_bind, wp_fs_links. cbn [f_links f_bufs f_dev set_f_bufs set_f_links].
  assert (a ∉ buffer_list :: es) as Hni.
  { intros [->|Hin]%elem_of_cons; [done|]. destruct Hl as [_ Hs].
    pose proof (lseg_dom _ _ _ _ a Hs ltac:(set_solver)) as Hd. by apply elem_of_dom in Hd as [? Hd]; congruence. }
  unfold list_add, link. eapply (wp_list_add_before buffer_list es).
  { eapply is_list_same; [exact Hl|]. intros u Hu. rewrite lookup_insert_ne; [done|]. by intros ->. }
  { done. }
  { apply elem_of_dom. by rewrite lookup_insert_eq. }
  intros h Hh _. rewrite wp_ret. apply HQ. split; [|done..].
  exists (es ++ [a]). split; [rewrite length_app; cbn; lia|]. split; [exact Hh|].
  intros a' [Hin| ->%list_elem_of_singleton]%elem_of_app; cbn; rewrite insert_insert_eq.
  - destruct (Hes a' Hin) as (v' & Hv' & Hi). exists v'. rewrite lookup_insert_ne by (intros ->; congruence). done.
  - exists (new_buf (f_dev w1) v). rewrite lookup_insert_eq. split; [done|]. by rewrite Hdev.
Qed.

Lemma wp_buffer_init w (Q : unit → fsworld → Prop) :
  is_list (f_links w) buffer_list [] → (∀ w', pool w SFS_NBUF w' → Q tt w') → wp buffer_init w Q.
Proof.
  intros Hl HQ. unfold buffer_init.
  apply (wp_loop _ (λ i w', 0 ≤ i ≤ SFS_NBUF ∧ pool w i w') (λ i _, Z.to_nat (SFS_NBUF - i))).
  - intros i w' [Hi Hp]. destruct (Z.ltb_spec i SFS_NBUF).
    + eapply wp_new_buf; [exact Hp|]. intros w2 Hp2. split; [split; [lia|done]|lia].
    + rewrite wp_ret. assert (i = SFS_NBUF) as -> by lia. by apply HQ.
  - split; [unfold SFS_NBUF; lia|]. split; [|done..]. exists []. split; [done|]. split; [done|]. set_solver.
  - lia.
Qed.

(** A disk with a block at every address. *)
Definition formatted (d : disk) : Prop :=
  d_blocks d < 2 ^ 20 ∧ ∀ b, 0 < b < d_blocks d → ∃ x, contents d !! b = Some x ∧ full x.

Definition shows_disk (d : disk) : cache := mk_cache (λ b, default [] (contents d !! b)) ∅ ∅.

Lemma pool_cache w w' : formatted (f_disk w) → buffer_list_lock w = false → pool w SFS_NBUF w' →
  cache_ok (Z.to_nat SFS_NBUF) (shows_disk (f_disk w')) w'.
Proof.
  intros [Hd Hf] Hlk [(es & Hk & Hl & Hes) (Ed & _) Edev Elk]. exists es. split; [lia|].
  split; cbn; rewrite ?Ed, ?Edev; try done.
  - intros a Ha. destruct (Hes a Ha) as (v & Hv & (H1 & H2 & H3 & H4 & H5)). exists v. split; [done|].
    split; try done; by rewrite H2.
  - intros a a' v v' Ha _ Hv _ _ Hne. destruct (Hes a Ha) as (u & Hu & (_ & H2 & _)). congruence.
  - intros b Hb _. destruct (Hf b Hb) as (x & Hx & _). by rewrite Hx.
  - intros b Hb. destruct (Hf b Hb) as (x & Hx & Hxf). by rewrite Hx.
  - congruence.
Qed.

(** ** The superblock *)

Lemma wp_check_superlock n c w x (Q : Z → fsworld → Prop) :
  cache_ok n c w → (0 < n)%nat → c_refs c = ∅ → c_held c = ∅ → 1 < d_blocks (f_disk w) →
  c_view c 1 = x →
  (∀ w', f_disk w' = f_disk w → f_log w' = f_log w → magic (decode_sb x) ≠ SFS_MAGIC → Q (- E_INVAL) w') →
  (∀ w', cache_ok n c w' → f_disk w' = f_disk w → f_log w' = f_log w → f_sb w' = decode_sb x →
    magic (decode_sb x) = SFS_MAGIC → Q 0 w') →
  wp check_superlock w Q.
Proof.
  intros Hc Hn Hr Hh Hd Hx Hbad Hgood. unfold check_superlock, SFS_BLKN_SUPER.
  eapply (wp_read_alone n c w 1); [done|done|lia|by rewrite Hr|rewrite Hr, map_size_empty; lia|].
  intros a w1 Hc1 (D1 & L1 & S1) Ha. apply wp_bind. eapply (wp_held n _ w1 1 a Hc1 Ha). intros v Hv.
  rewrite (hb_data _ _ _ _ Hv). change (c_view (c_read 1 a c) 1) with (c_view c 1). rewrite Hx.
  rewrite wp_bind, wp_modify, wp_bind, wp_gets. cbn [f_sb set_f_sb].
  destruct (Z.eqb_spec (magic (decode_sb x)) SFS_MAGIC) as [E|E]; cbn [negb]; [|rewrite wp_ret; by apply Hbad].
  assert (cache_ok n (c_set 1 x (c_read 1 a c)) (set_f_sb (decode_sb x) w1)) as Hc2.
  { destruct Hc1 as (es & He & [H1 H2 H3 H4 H5 H6 H7 H8 H9]). eapply cache_ok_ext; [..|exists es; split; [exact He|]; by split];
      [|done|done]. intros y. cbn. case_decide as Ey; [by rewrite Ey, Hx|done]. }
  apply wp_bind. eapply (wp_release_alone n c _ 1 a x); [exact Hc2|done|by rewrite Hr| |].
  { cbn [f_disk set_f_sb]. rewrite D1, <- Hx. eapply cache_on_disk; [exact Hc|lia|by rewrite Hr]. }
  intros w3 Hc3 (D3 & L3 & S3). rewrite wp_ret. apply Hgood; [|by rewrite D3|by rewrite L3|by rewrite S3|done].
  eapply cache_ok_ext; [..|exact Hc3]; [|done|done]. intros y. cbn. case_decide as Ey; [by rewrite Ey, Hx|done].
Qed.

Lemma cache_ok_lock n c w : cache_ok n c w → cache_ok n c (set_list_lock false w).
Proof. intros (es & Hn & [H1 H2 H3 H4 H5 H6 H7 H8 H9]). exists es. split; [done|]. by split. Qed.

(** What is asked of the machine: a formatted disk, and memory as the loader leaves it. *)
Record mountable (w : fsworld) (x : bytes) (g : Z → bytes) : Prop := {
  mt_disk : formatted (f_disk w);
  mt_lock : buffer_list_lock w = false;
  mt_head : is_Some (f_links w !! buffer_list);
  mt_super : 1 < d_blocks (f_disk w) ∧ contents (f_disk w) !! 1 = Some x;
  mt_start : 0 < logstart (decode_sb x);
  mt_size : 1 ≤ nlog (decode_sb x) ≤ SFS_LOGSIZE;
  mt_fits : logstart (decode_sb x) + nlog (decode_sb x) ≤ d_blocks (f_disk w);
  mt_names : zlen (block_nos (lh (f_log w))) = SFS_LOGSIZE;
  mt_out : outstanding (f_log w) = 0;
  mt_recovers : recovers (logstart (decode_sb x)) (nlog (decode_sb x)) (d_blocks (f_disk w)) (contents (f_disk w)) g }.

(** The file system of a machine, running. *)
Definition fs_runs (w0 : fsworld) (x : bytes) : afs → fsworld → Prop :=
  runs (Z.to_nat SFS_NBUF) (logstart (decode_sb x)) (nlog (decode_sb x)) (d_blocks (f_disk w0)).

Lemma wp_sfs_do_mount w x g (Q : Z → fsworld → Prop) :
  mountable w x g →
  (∀ w', f_disk w' = f_disk w → magic (decode_sb x) ≠ SFS_MAGIC → Q (- E_INVAL) w') →
  (∀ w', magic (decode_sb x) = SFS_MAGIC → fs_runs w x (just_mounted g) w' →
    crashes (λ m, recovers (logstart (decode_sb x)) (nlog (decode_sb x)) (d_blocks (f_disk w)) m g)
      (f_disk w) (f_disk w') → Q 0 w') →
  wp sfs_do_mount w Q.
Proof.
  intros [Hf Hlk Hhd [H1 Hx] HL HN Hmax Hlen Ho Hrec] Hbad Hgood.
  set (L := logstart _) in *. set (N := nlog _) in *.
  unfold sfs_do_mount. pose proof Hf as [Hd Hfull].
  apply wp_bind, wp_fs_links. eapply wp_list_init; [by apply elem_of_dom|]. intros h Hh _.
  apply wp_bind. eapply wp_buffer_init; [exact Hh|]. intros w1 Hp.
  pose proof Hp as [_ (D1 & L1 & S1) Edev Elk]. cbn in D1, L1, S1.
  pose proof (pool_cache (set_f_links h w) w1 Hf Hlk Hp) as Hc.
  apply wp_bind. eapply (wp_check_superlock (Z.to_nat SFS_NBUF) (shows_disk (f_disk w1)) w1 x);
    [exact Hc|unfold SFS_NBUF; lia|done|done|by rewrite D1|by cbn; rewrite D1, Hx|..].
  - intros w2 D2 _ E. apply Hbad; [|done]. by rewrite D2, D1.
  - intros w2 Hc2 D2 L2 S2 E. change (negb (0 =? 0)) with false. cbv iota. rewrite wp_bind, wp_modify.
    destruct (initlog_ok (Z.to_nat SFS_NBUF) L N (d_blocks (f_disk w)) HL HN Hmax Hd
      ltac:(unfold SFS_NBUF, SFS_LOGSIZE in *; lia) (contents (f_disk w)) (set_list_lock false w2) g)
      as (w3 & E3 & Hr3 & Hcr3).
    { unfold SFS_NBUF. lia. }
    { split; cbn; rewrite ?D2, ?D1, ?L2, ?L1; try done.
      - exists (shows_disk (f_disk w1)). split; [by apply cache_ok_lock|done].
      - unfold laid_out. cbn. by rewrite S2, D2, D1. }
    { done. }
    apply wp_bind. eapply wp_of_run; [exact E3|]. rewrite wp_ret. apply Hgood; [done|done|].
    cbn [f_disk set_list_lock] in Hcr3. by rewrite D2, D1 in Hcr3.
Qed.

Lemma mount_ok w x g : mountable w x g → magic (decode_sb x) = SFS_MAGIC →
  ∃ w', sfs_do_mount w = Ok (0, w') ∧ fs_runs w x (just_mounted g) w'.
Proof.
  intros Hm E. assert (wp sfs_do_mount w (λ r w', r = 0 ∧ fs_runs w x (just_mounted g) w')) as Hw
    by (apply (wp_sfs_do_mount w x g); [done|by intros|done]).
  apply wp_run in Hw as (r & w' & E' & -> & Hr). by exists w'.
Qed.

(** C25: mounting a disk, whatever crash it comes from, allocates the buffers, reads the
    superblock and recovers the log: the file system shows what the disk stands for,
    and a crash on the way leaves a disk that stands for the same; a disk without the
    magic number is refused, and nothing is written to it *)
Theorem sfs_do_mount_spec w x g :
  mountable w x g →
  ∃ ret w', sfs_do_mount w = Ok (ret, w') ∧
    if magic (decode_sb x) =? SFS_MAGIC then
      ret = 0 ∧ fs_runs w x (just_mounted g) w' ∧
      crashes (λ m, recovers (logstart (decode_sb x)) (nlog (decode_sb x)) (d_blocks (f_disk w)) m g)
        (f_disk w) (f_disk w')
    else ret = - E_INVAL ∧ f_disk w' = f_disk w.
Proof.
  intros Hm. apply wp_run. apply (wp_sfs_do_mount w x g); [done| |].
  - intros w' D E. by rewrite (proj2 (Z.eqb_neq _ _)).
  - intros w' E Hr Hcr. by rewrite E, Z.eqb_refl.
Qed.
End mount.

(** ** A disk that a crash left *)

(** Eight blocks: the superblock, a log of three, the first naming block 6, and data. *)
Definition blk (z : Z) : bytes := replicate 4096%nat z.
Definition demo_sb : bytes :=
  concat (le32 <$> [SFS_MAGIC; 8; 3; 0; 3; 2; 5; 5]) ++ replicate 4064%nat 0.
Definition demo_head : bytes := with_hdr 1 [6] (blk 0).
Definition demo_base : gmap Z bytes :=
  list_to_map [(1, demo_sb); (2, demo_head); (3, blk 1); (4, blk 0); (5, blk 0); (6, blk 0); (7, blk 7)].
Definition demo_fs : fsworld :=
  mk_fs (mk_disk 8 demo_base []) ∅ {[ 0 := mk_entry 0 0 ]} 5 (mk_sb 0 0 0 0 0 0 0 0) false
    (mk_log false 0 false (mk_lh 0 (replicate 300%nat 0))).
(** What it stands for. *)
Definition demo_shows (b : Z) : bytes := if b =? 6 then blk 1 else default [] (demo_base !! b).

#[export] Instance demo_alloc : BufAlloc := λ w,
  let a := fresh ({[0]} ∪ dom (f_bufs w) ∪ dom (f_links w)) in
  Ok (a, set_f_links (<[a := mk_entry 0 0]> (f_links w)) (set_f_bufs (<[a := mk_buf true 0 0 0 0 (blk 9)]> (f_bufs w)) w)).

#[export] Instance demo_alloc_ok : BufAllocOk.
Proof.
  split. intros w. set (X := {[0]} ∪ dom (f_bufs w) ∪ dom (f_links w)).
  pose proof (is_fresh X) as H. exists (fresh X), (mk_buf true 0 0 0 0 (blk 9)), (mk_entry 0 0).
  unfold X in H at 2. rewrite !not_elem_of_union, not_elem_of_singleton, !not_elem_of_dom in H.
  destruct H as [[H1 H2] H3]. done.
Qed.

Lemma demo_block b : 0 < b < 8 → ∃ x, demo_base !! b = Some x ∧ full x.
Proof.
  intros Hb. assert (b = 1 ∨ b = 2 ∨ b = 3 ∨ b = 4 ∨ b = 5 ∨ b = 6 ∨ b = 7) as Hc by lia.
  destruct Hc as [->|[->|[->|[->|[->|[->| ->]]]]]]; (eexists; split; [by vm_compute|]); vm_compute; done.
Qed.

Lemma demo_image : image 2 3 8 demo_base [6] demo_shows.
Proof.
  split.
  - exists demo_head. split; [by vm_compute|]. apply (with_hdr_head [6] (blk 0)).
    + by vm_compute.
    + unfold SFS_LOGSIZE. cbn. lia.
    + repeat constructor. unfold block_no. lia.
  - intros [|[|t]] b Hb; [|done..]. injection Hb as <-. by vm_compute.
  - intros b [Hb _] Hn. destruct (demo_block b Hb) as (x & Hx & _). unfold demo_shows.
    rewrite (proj2 (Z.eqb_neq _ _)) by set_solver. by rewrite Hx.
  - apply NoDup_singleton.
  - repeat constructor; lia.
  - cbn. lia.
Qed.

Lemma demo_mountable : mountable demo_fs demo_sb demo_shows.
Proof.
  assert (logstart (decode_sb demo_sb) = 2 ∧ nlog (decode_sb demo_sb) = 3) as [EL EN] by (split; by vm_compute).
  split; rewrite ?EL, ?EN; try done.
  - split; [done|]. exact demo_block.
  - exists [6]. exact demo_image.
Qed.

Lemma sfs_do_mount_spec_witness : mountable demo_fs demo_sb demo_shows ∧
  ∃ ret w', sfs_do_mount demo_fs = Ok (ret, w') ∧
    if magic (decode_sb demo_sb) =? SFS_MAGIC then
      ret = 0 ∧ fs_runs demo_fs demo_sb (just_mounted demo_shows) w' ∧
      crashes (λ m, recovers (logstart (decode_sb demo_sb)) (nlog (decode_sb demo_sb)) (d_blocks (f_disk demo_fs)) m demo_shows)
        (f_disk demo_fs) (f_disk w')
    else ret = - E_INVAL ∧ f_disk w' = f_disk demo_fs.
Proof. split; [exact demo_mountable|]. apply (sfs_do_mount_spec demo_fs demo_sb demo_shows), demo_mountable. Defined.
