(* ===== verification/SfsSafe.v ===== *)
(** * The file system survives crashes

    What the log promises to the rest of the file system: the calls made between
    [begin_op] and [end_op] are atomic with respect to a crash, and what [end_op]
    committed is found by the next mount.  The histories are the ones of [SfsCrash],
    and the demonstration starts from the disk that [SfsMount] mounts. *)
From S2P Require Import Prelude Errors PacketIO PktMem ListH SfsBuf SfsLog SfsCache SfsLogSpec SfsHead SfsCommit SfsCrash SfsMount.

Section safe.
Context (n : nat) (L N dmax : Z).
Hypothesis HL : 0 < L.
Hypothesis HN : 1 ≤ N ≤ SFS_LOGSIZE.
Hypothesis Hmax : L + N ≤ dmax.
Hypothesis Hmax20 : dmax < 2 ^ 20.
Hypothesis Hn : N ≤ Z.of_nat n.
Abbreviation runs := (runs n L N dmax).
Abbreviation legal := (legal L N dmax).
Abbreviation recovers := (recovers L N dmax).
Abbreviation boots := (boots n L N dmax).

(** C4: whatever calls are made, they return and the file system shows the updates;
    and wherever a crash stops the writes of the disk, a kernel that starts on what is
    there mounts it and shows what was committed after some of the calls: each
    transaction as a whole or not at all *)
Theorem fs_crash_safe s w ss :
  (2 ≤ n)%nat → runs s w → legal s ss →
  ∃ w', do_steps ss w = Ok (tt, w') ∧ runs (a_steps s ss) w' ∧
    ∃ ws, d_writes (f_disk w') = d_writes (f_disk w) ++ ws ∧
    ∀ i wb, (i ≤ length ws)%nat → boots (apply_writes (contents (f_disk w)) (take i ws)) wb →
      ∃ k wr, (k ≤ length ss)%nat ∧ initlog wb = Ok (tt, wr) ∧
        runs (just_mounted (a_disk (a_steps s (take k ss)))) wr.
Proof.
  intros H2 Hr Hl. destruct (steps_ok n L N dmax HL HN Hmax Hmax20 Hn s w ss Hr Hl) as (w' & E & Hr' & (_ & _ & ws & Hws & Hcr)).
  exists w'. split; [done|]. split; [done|]. exists ws. split; [done|]. intros i wb Hi Hb.
  destruct (Hcr i Hi) as (k & Hk & Hrec). exists k.
  destruct (initlog_ok n L N dmax HL HN Hmax Hmax20 Hn _ wb _ H2 Hb Hrec) as (wr & Ei & Hri & _). by exists wr.
Qed.

(** C5: what was committed stays: after the last call, and after a crash at any write
    of a recovery, mounting shows exactly what is committed *)
Theorem fs_durable s w ss w1 wb :
  (2 ≤ n)%nat → runs s w → legal s ss → do_steps ss w = Ok (tt, w1) →
  boots (contents (f_disk w1)) wb →
  ∃ wr, initlog wb = Ok (tt, wr) ∧ runs (just_mounted (a_disk (a_steps s ss))) wr ∧
    ∃ ws, d_writes (f_disk wr) = d_writes (f_disk wb) ++ ws ∧
    ∀ i wb', (i ≤ length ws)%nat → boots (apply_writes (contents (f_disk wb)) (take i ws)) wb' →
      ∃ wr', initlog wb' = Ok (tt, wr') ∧ runs (just_mounted (a_disk (a_steps s ss))) wr'.
Proof.
  intros H2 Hr Hl E1 Hb. destruct (steps_ok n L N dmax HL HN Hmax Hmax20 Hn s w ss Hr Hl) as (w' & E & Hr' & _). rewrite E1 in E. injection E as <-.
  assert (recovers (contents (f_disk w1)) (a_disk (a_steps s ss))) as Hrec
    by (destruct (ru_cache _ _ _ _ _ _ Hr') as (c & Hc & _); exists []; apply Hc).
  destruct (initlog_ok n L N dmax HL HN Hmax Hmax20 Hn _ wb _ H2 Hb Hrec) as (wr & Ei & Hri & (_ & _ & ws & Hws & Hcr)).
  exists wr. split; [done|]. split; [done|]. exists ws. split; [done|]. intros i wb' Hi Hb'.
  destruct (initlog_ok n L N dmax HL HN Hmax Hmax20 Hn _ wb' _ H2 Hb' (Hcr i Hi)) as (wr' & Ei' & Hri' & _). by exists wr'.
Qed.
End safe.

(** ** The histories of a mounted disk *)

Definition after {A} (c : Fs A) (w : fsworld) : fsworld := match c w with Ok (_, w') => w' | _ => w end.
Lemma after_ok {A} (c : Fs A) w x (P : fsworld → Prop) :
  (∃ w', c w = Ok (x, w') ∧ P w') → c w = Ok (x, after c w) ∧ P (after c w).
Proof. intros (w' & E & H). unfold after. by rewrite E. Qed.

Definition demo_mounted : fsworld := after sfs_do_mount demo_fs.

Lemma demo_runs : runs (Z.to_nat SFS_NBUF) 2 3 8 (just_mounted demo_shows) demo_mounted.
Proof.
  assert (logstart (decode_sb demo_sb) = 2 ∧ nlog (decode_sb demo_sb) = 3) as [EL EN] by (split; by vm_compute).
  rewrite <- EL, <- EN.
  refine (proj2 (after_ok sfs_do_mount demo_fs 0 (fs_runs demo_fs demo_sb (just_mounted demo_shows)) _)).
  apply (mount_ok demo_fs demo_sb demo_shows demo_mountable). by vm_compute.
Qed.

Lemma demo_bounds : 0 < 2 ∧ 1 ≤ 3 ≤ SFS_LOGSIZE ∧ 2 + 3 ≤ 8 ∧ 8 < 2 ^ 20 ∧ 3 ≤ Z.of_nat (Z.to_nat SFS_NBUF).
Proof. unfold SFS_LOGSIZE, SFS_NBUF. lia. Qed.

(** Two calls that overlap, a third that is not over. *)
Definition demo_calls : list fs_step :=
  [Begin; Update 6 (λ _, blk 2); Begin; Update 7 (λ _, blk 3); End_; End_; Begin; Update 6 (λ _, blk 4)].

Lemma legal_take L N dmax k s ss : legal L N dmax s ss → legal L N dmax s (take k ss).
Proof. revert k s. induction ss as [|o ss IH]; intros [|k] s; cbn; try done. intros [H1 H2]. auto. Qed.

Lemma demo_legal : legal 2 3 8 (just_mounted demo_shows) demo_calls.
Proof.
  assert (∀ z, full (blk z)) as Hf by (intros z; by vm_compute).
  assert (∀ b, 5 < b < 8 → data_block 2 3 8 b) as Hd by (intros b Hb; split; lia).
  assert (∀ s b z, 5 < b < 8 → (1 <=? a_out s) && (zlen (a_ns s) <? 2) = true → may 2 3 8 s (Update b (λ _, blk z))) as Hu.
  { intros s b z Hb [H1%Z.leb_le H2%Z.ltb_lt]%andb_prop.
    split; [exact H1|]. split; [by apply Hd|]. split; [lia|]. intros _ _. apply Hf. }
  unfold demo_calls. cbn [legal].
  split_and!; try done; first [apply Hu; [lia|vm_compute; reflexivity]|vm_compute; discriminate].
Qed.

(** A clean file system is what a kernel finds when it starts on its disk. *)
Lemma clean_boots n L N dmax s w : runs n L N dmax s w → a_ns s = [] → a_out s = 0 →
  zlen (block_nos (lh (f_log w))) = SFS_LOGSIZE → boots n L N dmax (contents (f_disk w)) w.
Proof.
  intros [(c & [Hc Hh Hr Hlay Hlg _ _] & _) Ho _ _] Hns Ha Hlen. rewrite Hns in Hr.
  split; [|done|done|done|congruence]. exists c. split; [done|]. split; [done|].
  apply map_eq. intros b. by rewrite Hr, lookup_empty, decide_False by set_solver.
Qed.

(** The calls that are over. *)
Definition demo_done : list fs_step := take 6 demo_calls.
Definition demo_after : fsworld := after (do_steps demo_done) demo_mounted.

Lemma demo_done_legal : legal 2 3 8 (just_mounted demo_shows) demo_done.
Proof. apply legal_take, demo_legal. Qed.

Lemma demo_after_ok : do_steps demo_done demo_mounted = Ok (tt, demo_after) ∧
  runs (Z.to_nat SFS_NBUF) 2 3 8 (a_steps (just_mounted demo_shows) demo_done) demo_after.
Proof.
  destruct demo_bounds as (H1 & H2 & H3 & H4 & H5).
  refine (after_ok (do_steps demo_done) demo_mounted tt
    (runs (Z.to_nat SFS_NBUF) 2 3 8 (a_steps (just_mounted demo_shows) demo_done)) _).
  destruct (steps_ok (Z.to_nat SFS_NBUF) 2 3 8 H1 H2 H3 H4 H5 _ demo_mounted demo_done demo_runs demo_done_legal) as (w & E & H & _).
  exists w. exact (conj E H).
Qed.

Lemma demo_boots : boots (Z.to_nat SFS_NBUF) 2 3 8 (contents (f_disk demo_after)) demo_after.
Proof.
  refine (clean_boots _ _ _ _ _ demo_after (proj2 demo_after_ok) _ _ _).
  all: vm_compute; reflexivity.
Qed.

Lemma fs_crash_safe_witness :
  ∃ w', do_steps demo_calls demo_mounted = Ok (tt, w') ∧ runs (Z.to_nat SFS_NBUF) 2 3 8 (a_steps (just_mounted demo_shows) demo_calls) w' ∧
    ∃ ws, d_writes (f_disk w') = d_writes (f_disk demo_mounted) ++ ws ∧
    ∀ i wb, (i ≤ length ws)%nat →
      boots (Z.to_nat SFS_NBUF) 2 3 8 (apply_writes (contents (f_disk demo_mounted)) (take i ws)) wb →
      ∃ k wr, (k ≤ length demo_calls)%nat ∧ initlog wb = Ok (tt, wr) ∧
        runs (Z.to_nat SFS_NBUF) 2 3 8 (just_mounted (a_disk (a_steps (just_mounted demo_shows) (take k demo_calls)))) wr.
Proof.
  destruct demo_bounds as (H1 & H2 & H3 & H4 & H5).
  exact (fs_crash_safe (Z.to_nat SFS_NBUF) 2 3 8 H1 H2 H3 H4 H5 (just_mounted demo_shows) demo_mounted demo_calls
    ltac:(unfold SFS_NBUF; lia) demo_runs demo_legal).
Defined.

Lemma fs_durable_witness :
  ∃ wr, initlog demo_after = Ok (tt, wr) ∧
    runs (Z.to_nat SFS_NBUF) 2 3 8 (just_mounted (a_disk (a_steps (just_mounted demo_shows) demo_done))) wr ∧
    ∃ ws, d_writes (f_disk wr) = d_writes (f_disk demo_after) ++ ws ∧
    ∀ i wb', (i ≤ length ws)%nat →
      boots (Z.to_nat SFS_NBUF) 2 3 8 (apply_writes (contents (f_disk demo_after)) (take i ws)) wb' →
      ∃ wr', initlog wb' = Ok (tt, wr') ∧
        runs (Z.to_nat SFS_NBUF) 2 3 8 (just_mounted (a_disk (a_steps (just_mounted demo_shows) demo_done))) wr'.
Proof.
  destruct demo_bounds as (H1 & H2 & H3 & H4 & H5).
  exact (fs_durable (Z.to_nat SFS_NBUF) 2 3 8 H1 H2 H3 H4 H5 (just_mounted demo_shows) demo_mounted demo_done
    demo_after demo_after ltac:(unfold SFS_NBUF; lia) demo_runs demo_done_legal (proj1 demo_after_ok) demo_boots).
Defined.
