(* ===== verification/Vmm.v ===== *)
(** * Address spaces: [mm/vmm.c], and the calls of [kernel/proc.c] on them

    An address space is a list of areas in order of addresses; from
    [RB_MIN_MAP_COUNT] areas on there is a red-black tree of them too, and the area
    found last is cached.  An area's links lie in the store of links, its tree node
    in the store of nodes; null is 0.  Page tables, the pages of shared memory and
    physical memory are members of a class; the copies between a process and the
    kernel ([mm/pmm.c]) go through them page by page. *)
From S2P Require Import Prelude Errors ListH Rbtree.

Definition PGSIZE : Z := 4096.
Definition MAXVA : Z := 2 ^ 38.
Definition NPROC : Z := 2000.
Definition TRAMPOLINE : Z := MAXVA - PGSIZE.
Definition TRAPFRAME (p : Z) : Z := TRAMPOLINE - (p + 1) * PGSIZE.
Definition RB_MIN_MAP_COUNT : Z := 32.

Definition PGROUNDDOWN (a : Z) : Z := Z.land a (u64 (Z.lnot (PGSIZE - 1))).
Definition PGROUNDUP (a : Z) : Z := Z.land (u64 (a + PGSIZE - 1)) (u64 (Z.lnot (PGSIZE - 1))).

Definition PTE_V : Z := 1.
Definition PTE2PA (pte : Z) : Z := u64 (Z.shiftl (Z.shiftr pte 10) 12).
Definition PGOFF (a : Z) : Z := Z.land a 4095.

Definition VM_READ : Z := 1.
Definition VM_WRITE : Z := 2.
Definition VM_EXEC : Z := 4.
Definition VM_STACK : Z := 8.
Definition VM_SHARE : Z := 16.
Definition VM_USER : Z := 32.
Definition MMAP_WRITE : Z := 256.
Definition MMAP_STACK : Z := 512.
(** [x & f]. *)
Definition flag (x f : Z) : bool := negb (Z.land x f =? 0).

(** ** Data *)

Record Vma_struct := mk_vma {
  vm_mm : Z; vm_start : Z; vm_end : Z; vm_flags : Z; shmem : Z; shmem_off : Z }.
Definition set_vm_mm v x := mk_vma v (vm_start x) (vm_end x) (vm_flags x) (shmem x) (shmem_off x).
Definition set_range s e x := mk_vma (vm_mm x) s e (vm_flags x) (shmem x) (shmem_off x).
Definition set_vm_flags v x := mk_vma (vm_mm x) (vm_start x) (vm_end x) v (shmem x) (shmem_off x).
Definition set_shmem s o x := mk_vma (vm_mm x) (vm_start x) (vm_end x) (vm_flags x) s o.

Record Mm_struct := mk_mm {
  mmap_tree : Z; mmap_cache : Z; pagetable : Z; map_count : Z; swap_address : Z;
  mm_count : Z; brk_start : Z; brk : Z; share : bool; mm_share_count : Z; locked_by : Z;
  mm_sem : Z }.
Definition set_tree v m := mk_mm v (mmap_cache m) (pagetable m) (map_count m) (swap_address m) (mm_count m)
  (brk_start m) (brk m) (share m) (mm_share_count m) (locked_by m) (mm_sem m).
Definition set_cache v m := mk_mm (mmap_tree m) v (pagetable m) (map_count m) (swap_address m) (mm_count m)
  (brk_start m) (brk m) (share m) (mm_share_count m) (locked_by m) (mm_sem m).
Definition set_map_count v m := mk_mm (mmap_tree m) (mmap_cache m) (pagetable m) v (swap_address m) (mm_count m)
  (brk_start m) (brk m) (share m) (mm_share_count m) (locked_by m) (mm_sem m).
Definition set_brk v m := mk_mm (mmap_tree m) (mmap_cache m) (pagetable m) (map_count m) (swap_address m) (mm_count m)
  (brk_start m) v (share m) (mm_share_count m) (locked_by m) (mm_sem m).
Definition set_locked_by v m := mk_mm (mmap_tree m) (mmap_cache m) (pagetable m) (map_count m) (swap_address m)
  (mm_count m) (brk_start m) (brk m) (share m) (mm_share_count m) v (mm_sem m).
Definition set_mm_sem v m := mk_mm (mmap_tree m) (mmap_cache m) (pagetable m) (map_count m) (swap_address m)
  (mm_count m) (brk_start m) (brk m) (share m) (mm_share_count m) (locked_by m) v.

Record Shmem_struct := mk_shm { shm_len : Z; shmem_ref : Z }.

(** The process that runs: its [pid], [mm] and [kernel_proc]. *)
Record Curproc := mk_cur { cp_pid : Z; cp_mm : Z; cp_kernel : bool }.

Record vworld {E : Type} := mk_vm {
  v_vmas : gmap Z Vma_struct;
  v_mms : gmap Z Mm_struct;
  v_links : heap;
  v_mem : rbmem;
  v_shm : gmap Z Shmem_struct;
  v_cur : option Curproc;      (* [myproc()] *)
  v_env : E }.
Arguments vworld : clear implicits.

Section setters.
Context {E : Type}.
Implicit Type w : vworld E.
Definition set_vmas v w := mk_vm E v (v_mms w) (v_links w) (v_mem w) (v_shm w) (v_cur w) (v_env w).
Definition set_mms v w := mk_vm E (v_vmas w) v (v_links w) (v_mem w) (v_shm w) (v_cur w) (v_env w).
Definition set_links v w := mk_vm E (v_vmas w) (v_mms w) v (v_mem w) (v_shm w) (v_cur w) (v_env w).
Definition set_mem v w := mk_vm E (v_vmas w) (v_mms w) (v_links w) v (v_shm w) (v_cur w) (v_env w).
Definition set_shm v w := mk_vm E (v_vmas w) (v_mms w) (v_links w) (v_mem w) v (v_cur w) (v_env w).
Definition set_env v w := mk_vm E (v_vmas w) (v_mms w) (v_links w) (v_mem w) (v_shm w) (v_cur w) v.
End setters.

(** What is called and not modelled here: page tables, by the address of the top one,
    the pages of a shared memory, physical memory, and the allocator. *)
Class VmEnv (E : Type) := {
  ve_unmap_range : Z → Z → Z → M E unit;
  ve_exit_range : Z → Z → Z → M E unit;
  ve_copy_range : Z → Z → Z → Z → bool → M E Z;
  ve_shmem_pages : Z → M E bool;            (* [alloc_pages] of [shmem_create] *)
  ve_shmem_free : Z → M E unit;             (* entries and pages of [shmem_destroy] *)
  ve_get_pte : E → Z → Z → option Z;        (* the entry [get_pte] finds, not allocating *)
  ve_byte : E → Z → Z;                      (* a byte at a physical address *)
  ve_put_byte : Z → Z → E → E;
  kernel_pagetable : Z;
  kmalloc_vma : M (vworld E) Z;
  kmalloc_mm : M (vworld E) Z;
  kmalloc_shmem : M (vworld E) Z;
  #[global] ve_rb :: RbKmalloc }.

Section vmm.
Context `{VE : VmEnv E}.
Abbreviation Vm := (M (vworld E)).

(** ** Access *)

(** Links: of an area, the heads of the lists, and the list on [mm_unmap]'s stack. *)
Definition list_link (a : Z) : Z := 3 * a.
Definition mmap_list (m : Z) : Z := 3 * m + 1.
Definition free_list : Z := 2.
Definition le2vma (le : Z) : Z := le / 3.
(** [rb_link], by the address of the area. *)
Definition rb_link (a : Z) : Z := a.
Definition rbn2vma (n : Z) : Z := n.

Definition get_vma (a : Z) : Vm Vma_struct := o ← gets (λ w, v_vmas w !! a); of_option o.
Definition upd_vma (a : Z) (f : Vma_struct → Vma_struct) : Vm unit :=
  x ← get_vma a; modify (λ w, set_vmas (<[a := f x]> (v_vmas w)) w).
Definition get_mm (m : Z) : Vm Mm_struct := o ← gets (λ w, v_mms w !! m); of_option o.
Definition upd_mm (m : Z) (f : Mm_struct → Mm_struct) : Vm unit :=
  x ← get_mm m; modify (λ w, set_mms (<[m := f x]> (v_mms w)) w).
Definition get_shm (s : Z) : Vm Shmem_struct := o ← gets (λ w, v_shm w !! s); of_option o.
Definition on_links {A} (c : M heap A) : Vm A := zoom v_links set_links c.
Definition on_mem {A} (c : M rbmem A) : Vm A := zoom v_mem set_mem c.
Definition on_rb {A} (c : M rbheap A) : Vm A := on_mem (on_nodes c).
Definition on_env {A} (c : M E A) : Vm A := zoom v_env set_env c.
Definition for_each_vma {L A} : (Z → M heap Z) → Z → (L → Z → Vm (L + A)) → L → Vm (L + A) :=
  λ nx, for_each (λ a, on_links (nx a)) (gets (λ w, size (v_links w))).

(** [kfree] of an area, with the link and the node in it. *)
Definition kfree_vma (a : Z) : Vm unit :=
  get_vma a;;
  modify (λ w, set_vmas (delete a (v_vmas w)) w);;
  modify (λ w, set_links (delete (list_link a) (v_links w)) w);;
  on_mem (modify (λ h, set_rm_nodes (delete (rb_link a) (rm_nodes h)) h)).
Definition kfree_mm (m : Z) : Vm unit :=
  get_mm m;;
  modify (λ w, set_mms (delete m (v_mms w)) w);;
  modify (λ w, set_links (delete (mmap_list m) (v_links w)) w).

(** ** Locks *)

Definition set_locker (mm : Z) : Vm unit :=
  c ← gets v_cur;
  match c with Some p => upd_mm mm (set_locked_by (cp_pid p)) | None => mret tt end.
Definition lock_mm (mm : Z) : Vm unit :=
  if mm =? 0 then mret tt else
  m ← get_mm mm;
  if 0 <? mm_sem m then upd_mm mm (set_mm_sem (mm_sem m - 1));; set_locker mm else block.
Definition unlock_mm (mm : Z) : Vm unit :=
  if mm =? 0 then mret tt else
  m ← get_mm mm;
  upd_mm mm (set_mm_sem (mm_sem m + 1));;
  upd_mm mm (set_locked_by 0).
Definition try_lock_mm (mm : Z) : Vm bool :=
  if mm =? 0 then mret true else
  m ← get_mm mm;
  if 0 <? mm_sem m then upd_mm mm (set_mm_sem (mm_sem m - 1));; set_locker mm;; mret true else mret false.

(** ** Shared memory *)

Definition upd_ref (s d : Z) : Vm Z :=
  x ← get_shm s;
  modify (λ w, set_shm (<[s := mk_shm (shm_len x) (sint 64 (shmem_ref x + d))]> (v_shm w)) w);;
  mret (sint 64 (shmem_ref x + d)).
Definition shmem_ref_inc (s : Z) : Vm Z := upd_ref s 1.
Definition shmem_ref_dec (s : Z) : Vm Z := upd_ref s (-1).

Definition shmem_create (len : Z) : Vm Z :=
  s ← kmalloc_shmem;
  if s =? 0 then mret 0 else
  modify (λ w, set_shm (<[s := mk_shm len 0]> (v_shm w)) w);;
  ok ← on_env (ve_shmem_pages s);
  assert_ ok;;
  mret s.
Definition shmem_destroy (s : Z) : Vm unit :=
  get_shm s;;
  on_env (ve_shmem_free s);;
  modify (λ w, set_shm (delete s (v_shm w)) w).

(** ** Areas *)

Definition vma_create (start end_ flags : Z) : Vm Z :=
  a ← kmalloc_vma;
  if a =? 0 then mret 0 else
  upd_vma a (λ x, set_shmem 0 0 (set_vm_flags flags (set_range start end_ x)));;
  mret a.

Definition vma_destroy (a : Z) : Vm unit :=
  x ← get_vma a;
  (if flag (vm_flags x) VM_SHARE then
     r ← shmem_ref_dec (shmem x);
     if r =? 0 then shmem_destroy (shmem x) else mret tt
   else mret tt);;
  kfree_vma a.

Definition mm_create : Vm Z :=
  m ← kmalloc_mm;
  if m =? 0 then mret 0 else
  on_links (list_init (mmap_list m));;
  upd_mm m (λ _, mk_mm 0 0 0 0 0 0 0 0 false 0 0 1);;
  mret m.

(** ** Look-up *)

(** [vma_compare] on the areas there are. *)
Definition vma_compare (vmas : gmap Z Vma_struct) (node1 node2 : Z) : Z :=
  let start n := from_option vm_start 0 (vmas !! rbn2vma n) in
  if start node1 <? start node2 then -1 else if start node2 <? start node1 then 1 else 0.

(** The tree at an address, as its operations find it. *)
Definition vma_tree (t : Z) : Vm Rb_tree :=
  tr ← on_mem (get_tree t);
  vmas ← gets v_vmas;
  mret (mk_tree (vma_compare vmas) (rb_nil tr) (rb_root tr)).

Definition find_vma_rb (tree addr : Z) : Vm Z :=
  t ← vma_tree tree;
  node ← on_rb (rb_node_root t);
  fuel ← gets (λ w, size (rm_nodes (v_mem w)));
  loop (S fuel) (λ '(node, vma),
    match node with
    | None => mret (inr vma)
    | Some n =>
        let tmp := rbn2vma n in
        x ← get_vma tmp;
        if addr <? vm_end x then
          if vm_start x <=? addr then mret (inr tmp) else
          l ← on_rb (rb_node_left t n); mret (inl (l, tmp))
        else r ← on_rb (rb_node_right t n); mret (inl (r, vma))
    end) (node, 0).

(** The list, up to the first area that ends behind [addr]. *)
Definition find_vma_list (mm addr : Z) : Vm Z :=
  r ← for_each_vma list_next (mmap_list mm) (λ _ le,
    x ← get_vma (le2vma le);
    mret (if addr <? vm_end x then inr (le2vma le) else inl tt)) tt;
  mret (match r with inl _ => 0 | inr a => a end).

Definition find_vma (mm addr : Z) : Vm Z :=
  if mm =? 0 then mret 0 else
  m ← get_mm mm;
  hit ← (if mmap_cache m =? 0 then mret false
         else x ← get_vma (mmap_cache m); mret ((vm_start x <=? addr) && (addr <? vm_end x)));
  vma ← (if hit : bool then mret (mmap_cache m)
         else if negb (mmap_tree m =? 0) then find_vma_rb (mmap_tree m) addr
         else find_vma_list mm addr);
  (if negb (vma =? 0) then upd_mm mm (set_cache vma) else mret tt);;
  mret vma.

Definition find_vma_intersection (mm start end_ : Z) : Vm Z :=
  vma ← find_vma mm start;
  if vma =? 0 then mret 0 else
  x ← get_vma vma;
  mret (if end_ <=? vm_start x then 0 else vma).

(** ** Insertion and removal *)

Definition check_vma_overlap (prev next : Z) : Vm unit :=
  p ← get_vma prev; n ← get_vma next;
  assert_ (vm_start p <? vm_end p);;
  assert_ (vm_end p <=? vm_start n);;
  assert_ (vm_start n <? vm_end n).

(** The area before the new one, when [want]. *)
Definition insert_vma_rb (tree vma : Z) (want : bool) : Vm (option Z) :=
  t ← vma_tree tree;
  on_rb (rb_insert t (rb_link vma));;
  if want then
    prev ← on_rb (rb_node_prev t (rb_link vma));
    mret (rbn2vma <$> prev)
  else mret None.

(** The link after which the new one goes. *)
Definition le_prev_in_list (mm vma : Z) : Vm Z :=
  v ← get_vma vma;
  r ← for_each_vma list_next (mmap_list mm) (λ le_prev le,
    x ← get_vma (le2vma le);
    mret (if vm_start v <? vm_start x then inr le_prev else inl le)) (mmap_list mm);
  mret (match r with inl l => l | inr l => l end).

Definition insert_vma_struct (mm vma : Z) : Vm unit :=
  v ← get_vma vma;
  assert_ (vm_start v <? vm_end v);;
  m ← get_mm mm;
  le_prev ← (if negb (mmap_tree m =? 0) then
      p ← insert_vma_rb (mmap_tree m) vma true;
      mret (match p with Some a => list_link a | None => mmap_list mm end)
    else le_prev_in_list mm vma);
  le_next ← on_links (list_next le_prev);
  (if negb (le_prev =? mmap_list mm) then check_vma_overlap (le2vma le_prev) vma else mret tt);;
  (if negb (le_next =? mmap_list mm) then check_vma_overlap vma (le2vma le_next) else mret tt);;
  upd_vma vma (set_vm_mm mm);;
  on_links (list_add_after le_prev (list_link vma));;
  m ← get_mm mm;
  n ← of_outcome (signed 32 (map_count m + 1));
  upd_mm mm (set_map_count n);;
  if (mmap_tree m =? 0) && (RB_MIN_MAP_COUNT <=? n) then
    vmas ← gets v_vmas;
    t ← on_mem (rb_tree_create (vma_compare vmas));
    upd_mm mm (set_tree t);;
    if negb (t =? 0) then
      for_each_vma (A := Empty_set) list_next (mmap_list mm)
        (λ _ le, insert_vma_rb t (le2vma le) false;; mret (inl tt)) tt;;
      mret tt
    else mret tt
  else mret tt.

Definition remove_vma_struct (mm vma : Z) : Vm Z :=
  v ← get_vma vma;
  assert_ (mm =? vm_mm v);;
  m ← get_mm mm;
  (if negb (mmap_tree m =? 0) then t ← vma_tree (mmap_tree m); on_rb (rb_delete t (rb_link vma)) else mret tt);;
  on_links (list_del (list_link vma));;
  (if vma =? mmap_cache m then upd_mm mm (set_cache 0) else mret tt);;
  n ← of_outcome (signed 32 (map_count m - 1));
  upd_mm mm (set_map_count n);;
  mret 0.

Definition remove_and_destroy_vma_struct (mm vma : Z) : Vm Z :=
  remove_vma_struct mm vma;;
  vma_destroy vma;;
  mret 0.

Definition mm_destroy (mm : Z) : Vm unit :=
  m ← get_mm mm;
  (if negb (mmap_tree m =? 0) then on_mem (rb_tree_destroy (mmap_tree m)) else mret tt);;
  fuel ← gets (λ w, size (v_links w));
  loop (S fuel) (λ _,
    le ← on_links (list_next (mmap_list mm));
    if le =? mmap_list mm then mret (inr tt) else
    on_links (list_del le);;
    vma_destroy (le2vma le);;
    mret (inl tt)) tt;;
  kfree_mm mm.

(** ** Mapping *)

(** The result and, when it is 0, the area stored in [vma_store]. *)
Definition mm_map (mm addr len flags : Z) : Vm (Z * Z) :=
  let start := PGROUNDDOWN addr in
  let end_ := PGROUNDUP (u64 (addr + len)) in
  assert_ (negb (mm =? 0));;
  vma ← find_vma mm start;
  overlap ← (if vma =? 0 then mret false else x ← get_vma vma; mret (vm_start x <? end_));
  if overlap : bool then mret (- E_INVAL, 0) else
  vma ← vma_create start end_ flags;
  if vma =? 0 then mret (- E_NO_MEM, 0) else
  insert_vma_struct mm vma;;
  mret (0, vma).

Definition mm_map_shmem (mm addr flags shm : Z) : Vm (Z * Z) :=
  if negb (addr mod PGSIZE =? 0) || (shm =? 0) then mret (- E_INVAL, 0) else
  shmem_ref_inc shm;;
  s ← get_shm shm;
  '(ret, vma) ← mm_map mm addr (shm_len s) flags;
  if negb (ret =? 0) then shmem_ref_dec shm;; mret (ret, 0) else
  upd_vma vma (λ x, set_vm_flags (Z.lor (vm_flags x) VM_SHARE) (set_shmem shm 0 x));;
  mret (0, vma).

Definition vma_resize (vma start end_ : Z) : Vm unit :=
  assert_ ((start mod PGSIZE =? 0) && (end_ mod PGSIZE =? 0));;
  x ← get_vma vma;
  assert_ ((vm_start x <=? start) && (start <? end_) && (end_ <=? vm_end x));;
  (if flag (vm_flags x) VM_SHARE
   then upd_vma vma (λ x, set_shmem (shmem x) (u64 (shmem_off x + u64 (start - vm_start x))) x)
   else mret tt);;
  upd_vma vma (set_range start end_).

(** The areas from [vma] on that start before [end_] go to the list on the stack. *)
Definition collect (mm vma end_ : Z) : Vm unit :=
  fuel ← gets (λ w, size (v_links w));
  loop (S fuel) (λ vma,
    x ← get_vma vma;
    if vm_start x <? end_ then
      le ← on_links (list_next (list_link vma));
      remove_vma_struct mm vma;;
      on_links (list_add free_list (list_link vma));;
      mret (if le =? mmap_list mm then inr tt else inl (le2vma le))
    else mret (inr tt)) vma.

(** One area of that list: what is outside goes back, and the range to unmap. *)
Definition cut_vma (mm vma start end_ : Z) : Vm (Z * Z) :=
  x ← get_vma vma;
  if vm_start x <? start then
    vma_resize vma (vm_start x) start;;
    insert_vma_struct mm vma;;
    mret (start, vm_end x)
  else if end_ <? vm_end x then
    vma_resize vma end_ (vm_end x);;
    insert_vma_struct mm vma;;
    mret (vm_start x, end_)
  else
    vma_destroy vma;;
    mret (vm_start x, vm_end x).

Definition unmap_collected (mm start end_ : Z) : Vm unit :=
  m ← get_mm mm;
  le ← on_links (list_next free_list);
  fuel ← gets (λ w, size (v_links w));
  loop (S fuel) (λ le,
    if le =? free_list then mret (inr tt) else
    let vma := le2vma le in
    le ← on_links (list_next le);
    '(un_start, un_end) ← cut_vma mm vma start end_;
    on_env (ve_unmap_range (pagetable m) un_start un_end);;
    mret (inl le)) le.

(** The list's head comes and goes with the call. *)
Definition with_free_list (c : Vm unit) : Vm unit :=
  modify (λ w, set_links (<[free_list := mk_entry 0 0]> (v_links w)) w);;
  on_links (list_init free_list);;
  c;;
  modify (λ w, set_links (delete free_list (v_links w)) w).

Definition mm_unmap (mm addr len : Z) : Vm Z :=
  let start := PGROUNDDOWN addr in
  let end_ := PGROUNDUP (u64 (addr + len)) in
  if negb ((addr <? MAXVA) && (u64 (addr + len) <? MAXVA)) then mret (- E_INVAL) else
  assert_ (negb (mm =? 0));;
  vma ← find_vma mm start;
  if vma =? 0 then mret 0 else
  x ← get_vma vma;
  if end_ <=? vm_start x then mret 0 else
  if (vm_start x <? start) && (end_ <? vm_end x) then
    nvma ← vma_create (vm_start x) start (vm_flags x);
    if nvma =? 0 then mret (- E_NO_MEM) else
    vma_resize vma end_ (vm_end x);;
    insert_vma_struct mm nvma;;
    m ← get_mm mm;
    on_env (ve_unmap_range (pagetable m) start end_);;
    mret 0
  else
    with_free_list (collect mm vma end_;; unmap_collected mm start end_);;
    mret 0.

Definition exit_mmap (mm : Z) : Vm unit :=
  assert_ (negb (mm =? 0));;
  m ← get_mm mm;
  for_each_vma (A := Empty_set) list_next (mmap_list mm) (λ _ le,
    x ← get_vma (le2vma le);
    on_env (ve_unmap_range (pagetable m) (vm_start x) (vm_end x));; mret (inl tt)) tt;;
  for_each_vma (A := Empty_set) list_next (mmap_list mm) (λ _ le,
    x ← get_vma (le2vma le);
    on_env (ve_exit_range (pagetable m) (vm_start x) (vm_end x));; mret (inl tt)) tt;;
  fuel ← gets (λ w, size (v_links w));
  loop (S fuel) (λ _,
    le ← on_links (list_next (mmap_list mm));
    if le =? mmap_list mm then mret (inr tt) else
    remove_and_destroy_vma_struct mm (le2vma le);;
    mret (inl tt)) tt.

(** One area of [from], copied. *)
Definition dup_vma (to from vma : Z) : Vm Z :=
  x ← get_vma vma;
  nvma ← vma_create (vm_start x) (vm_end x) (vm_flags x);
  if nvma =? 0 then mret (- E_NO_MEM) else
  (if flag (vm_flags x) VM_SHARE then
     upd_vma nvma (set_shmem (shmem x) (shmem_off x));;
     shmem_ref_inc (shmem x);; mret tt
   else mret tt);;
  insert_vma_struct to nvma;;
  t ← get_mm to; f ← get_mm from;
  r ← on_env (ve_copy_range (pagetable t) (pagetable f) (vm_start x) (vm_end x) (flag (vm_flags x) VM_SHARE));
  mret (if negb (r =? 0) then - E_NO_MEM else 0).

Definition dup_mmap (to from : Z) : Vm Z :=
  assert_ (negb (to =? 0) && negb (from =? 0));;
  e ← on_links (list_empty (mmap_list to));
  (if negb e then exit_mmap to else mret tt);;
  r ← for_each_vma list_next (mmap_list from) (λ _ le,
    r ← dup_vma to from (le2vma le);
    mret (if r =? 0 then inl tt else inr r)) tt;
  mret (match r with inl _ => 0 | inr r => r end).

(** ** Free ranges, checks and the heap *)

Definition get_unmapped_area (mm len : Z) : Vm Z :=
  if (len =? 0) || (TRAPFRAME NPROC <=? len) then mret 0 else
  r ← for_each_vma list_prev (mmap_list mm) (λ start le,
    x ← get_vma (le2vma le);
    mret (if vm_end x <=? start then inr start else inl (u64 (vm_start x - len))))
    (TRAPFRAME NPROC - len);
  mret (sint 64 (match r with inl s => s | inr s => s end)).

Definition user_mem_check (mm addr len : Z) (write : bool) : Vm bool :=
  if MAXVA <=? u64 (addr + len) then mret false else
  if mm =? 0 then mret false else
  fuel ← gets (λ w, size (v_vmas w));
  loop (S (S fuel)) (λ start,
    if start <? u64 (addr + len) then
      vma ← find_vma mm start;
      if vma =? 0 then mret (inr false) else
      x ← get_vma vma;
      mret (if start <? vm_start x then inr false
            else if negb (flag (vm_flags x) (if write then VM_WRITE else VM_READ)) then inr false
            else if write && flag (vm_flags x) VM_STACK && (start <? u64 (vm_start x + PGSIZE)) then inr false
            else inl (vm_end x))
    else mret (inr true)) addr.

Definition mm_brk (mm addr len : Z) : Vm Z :=
  m ← get_mm mm;
  assert_ (negb (pagetable m =? kernel_pagetable));;
  let start := PGROUNDDOWN addr in
  let end_ := PGROUNDUP (u64 (addr + len)) in
  ret ← mm_unmap mm start (u64 (end_ - start));
  if negb (ret =? 0) then mret ret else
  let flags := Z.lor (Z.lor VM_READ VM_WRITE) VM_USER in
  vma ← find_vma mm (u64 (start - 1));
  grow ← (if vma =? 0 then mret false
          else x ← get_vma vma; mret ((vm_end x =? start) && (vm_flags x =? flags)));
  if grow : bool then
    upd_vma vma (λ x, set_range (vm_start x) end_ x);; mret 0
  else
    vma ← vma_create start end_ flags;
    if vma =? 0 then mret (- E_NO_MEM) else
    insert_vma_struct mm vma;;
    mret 0.

(** ** Memory of the process *)

Definition va2pa (pt va : Z) : M E Z :=
  assert_ (va <? MAXVA);;
  o ← gets (λ e, ve_get_pte e pt va);
  pte ← match o with Some pte => mret pte | None => panic end;
  assert_ (flag pte PTE_V);;
  mret (u64 (PTE2PA pte + PGOFF va)).

(** [memmove] from and to a physical address. *)
Definition get_bytes (pa n : Z) (e : E) : list Z := (λ i, ve_byte e (pa + i)) <$> seqZ 0 n.
Fixpoint put_bytes (pa : Z) (bs : list Z) (e : E) : E :=
  match bs with [] => e | b :: bs' => put_bytes (pa + 1) bs' (ve_put_byte pa b e) end.

(** How much of [len] bytes lies in the page of [va]; each round takes some. *)
Definition page_part (va len : Z) : Z :=
  let n := u64 (PGSIZE - u64 (va - PGROUNDDOWN va)) in if len <? n then len else n.

(** A round of each loop: what is left to copy, and what was read. *)
Definition copy_in_round (pt : Z) '(srcva, len, dst) : M E (Z * Z * list Z + list Z) :=
  if len =? 0 then mret (inr dst) else
  let va0 := PGROUNDDOWN srcva in
  pa0 ← va2pa pt va0;
  let n := page_part srcva len in
  bs ← gets (get_bytes (u64 (pa0 + u64 (srcva - va0))) n);
  mret (inl (u64 (va0 + PGSIZE), len - n, dst ++ bs)).
Definition copy_user2kernel (pt srcva len : Z) : M E (list Z) :=
  loop (S (Z.to_nat len)) (copy_in_round pt) (srcva, len, []).

Definition copy_out_round (pt : Z) '(dstva, src) : M E (Z * list Z + unit) :=
  if decide (src = []) then mret (inr tt) else
  let va0 := PGROUNDDOWN dstva in
  pa0 ← va2pa pt va0;
  let n := page_part dstva (Z.of_nat (length src)) in
  modify (put_bytes (u64 (pa0 + u64 (dstva - va0))) (take (Z.to_nat n) src));;
  mret (inl (u64 (va0 + PGSIZE), drop (Z.to_nat n) src)).
Definition copy_kernel2user (pt dstva : Z) (src : list Z) : M E unit :=
  loop (S (length src)) (copy_out_round pt) (dstva, src).

(** A word, in the order of its bytes. *)
Definition load64 (pt a : Z) : M E Z :=
  bs ← copy_user2kernel pt a 8; mret (little_endian_to_Z 8 bs).
Definition store64 (pt a x : Z) : M E unit := copy_kernel2user pt a (Z_to_little_endian 8 8 x).

(** ** Calls of the process *)

Definition my_proc : Vm Curproc := c ← gets v_cur; of_option c.
(** [vm_flags] of a mapping. *)
Definition mmap_prot (mmap_flags : Z) : Z :=
  let f := Z.lor VM_READ VM_USER in
  let f := if flag mmap_flags MMAP_WRITE then Z.lor f VM_WRITE else f in
  if flag mmap_flags MMAP_STACK then Z.lor f VM_STACK else f.

Definition do_brk (brk_store : Z) : Vm Z :=
  c ← gets v_cur;
  assert_ (match c with Some _ => true | None => false end);;
  p ← my_proc;
  let mm := cp_mm p in
  if cp_kernel p then panic else
  if brk_store =? 0 then mret (- E_INVAL) else
  lock_mm mm;;
  m ← get_mm mm;
  b ← on_env (load64 (pagetable m) brk_store);
  (if b <? brk_start m then mret tt else
   let newbrk := PGROUNDUP b in
   let oldbrk := brk m in
   assert_ (oldbrk mod PGSIZE =? 0);;
   if newbrk =? oldbrk then mret tt else
   if newbrk <? oldbrk then
     r ← mm_unmap mm newbrk (u64 (oldbrk - newbrk));
     if negb (r =? 0) then mret tt else upd_mm mm (set_brk newbrk)
   else
     v ← find_vma_intersection mm oldbrk newbrk;
     if negb (v =? 0) then mret tt else
     r ← mm_brk mm oldbrk (u64 (newbrk - oldbrk));
     if negb (r =? 0) then mret tt else upd_mm mm (set_brk newbrk));;
  m ← get_mm mm;
  on_env (store64 (pagetable m) brk_store (brk m));;
  unlock_mm mm;;
  mret 0.

(** Where to map: the page asked for, or a free place for 0; the address is unsigned,
    so it is never found negative. *)
Definition map_place (mm addr_store len : Z) : Vm (Z * Z) :=
  m ← get_mm mm;
  addr ← on_env (load64 (pagetable m) addr_store);
  let start := PGROUNDDOWN addr in
  let end_ := PGROUNDUP (u64 (addr + len)) in
  let len := u64 (end_ - start) in
  addr ← (if start =? 0 then a ← get_unmapped_area mm len; mret (u64 a) else mret start);
  mret (addr, len).

Definition do_mmap (addr_store len mmap_flags : Z) : Vm Z :=
  p ← my_proc;
  let mm := cp_mm p in
  if mm =? 0 then panic else
  if (addr_store =? 0) || (len =? 0) then mret (- E_INVAL) else
  lock_mm mm;;
  '(addr, len) ← map_place mm addr_store len;
  '(ret, _) ← mm_map mm addr len (mmap_prot mmap_flags);
  (if ret =? 0 then m ← get_mm mm; on_env (store64 (pagetable m) addr_store addr) else mret tt);;
  unlock_mm mm;;
  mret ret.

Definition do_munmap (addr len : Z) : Vm Z :=
  p ← my_proc;
  let mm := cp_mm p in
  if mm =? 0 then panic else
  if len =? 0 then mret (- E_INVAL) else
  lock_mm mm;;
  ret ← mm_unmap mm addr len;
  unlock_mm mm;;
  mret ret.

Definition do_shmem (addr_store len mmap_flags : Z) : Vm Z :=
  p ← my_proc;
  let mm := cp_mm p in
  if mm =? 0 then panic else
  if (addr_store =? 0) || (len =? 0) then mret (- E_INVAL) else
  lock_mm mm;;
  '(addr, len) ← map_place mm addr_store len;
  s ← shmem_create len;
  ret ← (if s =? 0 then mret (- E_NO_MEM) else
    '(ret, _) ← mm_map_shmem mm addr (mmap_prot mmap_flags) s;
    if negb (ret =? 0) then
      x ← get_shm s;
      assert_ (shmem_ref x =? 0);;
      shmem_destroy s;; mret ret
    else
      m ← get_mm mm;
      on_env (store64 (pagetable m) addr_store addr);;
      mret ret);
  unlock_mm mm;;
  mret ret.
End vmm.
