(* ===== verification/VmmRep.v ===== *)
(** * Address spaces in the store, and look-up

    An address space is the list of its areas, each with its address: disjoint, in
    order, on pages.  The list in memory, the tree when there is one, the cache and
    the count agree with it. *)
From Stdlib Require Import Sorted.
From S2P Require Import Prelude Errors ListH Rbtree RbRep RbSpec RbDelete RbSearch Vmm.

(** ** Rounding *)

Lemma round_mask x : 0 ≤ x < 2 ^ 64 → Z.land x (u64 (Z.lnot (PGSIZE - 1))) = x - x mod PGSIZE.
Proof.
  intros Hx. assert (u64 (Z.lnot (PGSIZE - 1)) = Z.shiftl (Z.ones 52) 12) as -> by (by vm_compute).
  assert (x - x mod PGSIZE = Z.shiftl (Z.shiftr x 12) 12) as ->.
  { rewrite Z.shiftl_mul_pow2, Z.shiftr_div_pow2 by lia. change (2 ^ 12) with PGSIZE.
    pose proof (Z.div_mod x PGSIZE ltac:(by unfold PGSIZE)). lia. }
  apply Z.bits_inj'. intros i Hi. rewrite Z.land_spec. destruct (Z.ltb_spec i 12) as [Hl|Hl].
  - rewrite !Z.shiftl_spec_low by lia. by rewrite andb_false_r.
  - rewrite !Z.shiftl_spec, Z.shiftr_spec by lia. replace (i - 12 + 12) with i by lia.
    destruct (Z.ltb_spec i 64) as [Hh|Hh].
    + rewrite Z.ones_spec_low by lia. by rewrite andb_true_r.
    + rewrite (Z.bits_above_log2 x i); [done|lia|].
      destruct (Z.eq_dec x 0) as [->|]; [cbn; lia|]. apply Z.log2_lt_pow2; [lia|].
      pose proof (Z.pow_le_mono_r 2 64 i). lia.
Qed.

Lemma round_down a : 0 ≤ a < 2 ^ 64 → PGROUNDDOWN a = a - a mod PGSIZE.
Proof. apply round_mask. Qed.

Lemma round_down_spec a : 0 ≤ a < 2 ^ 64 →
  PGROUNDDOWN a mod PGSIZE = 0 ∧ PGROUNDDOWN a ≤ a < PGROUNDDOWN a + PGSIZE ∧ 0 ≤ PGROUNDDOWN a.
Proof.
  intros H. rewrite round_down by done. unfold PGSIZE in *. pose proof (Z.mod_pos_bound a 4096).
  split; [|pose proof (Z.mod_le a 4096); lia]. rewrite Zminus_mod_idemp_r. by rewrite Z.sub_diag.
Qed.

Lemma round_up_spec a : 0 ≤ a ≤ 2 ^ 64 - PGSIZE →
  PGROUNDUP a mod PGSIZE = 0 ∧ a ≤ PGROUNDUP a < a + PGSIZE.
Proof.
  intros H. unfold PGROUNDUP. assert (0 ≤ a + PGSIZE - 1 < 2 ^ 64) as Hr by (unfold PGSIZE in *; lia).
  rewrite wrap_small by exact Hr. rewrite round_mask by exact Hr. unfold PGSIZE in *.
  pose proof (Z.mod_pos_bound (a + 4096 - 1) 4096). split; [|lia].
  rewrite Zminus_mod_idemp_r. by rewrite Z.sub_diag.
Qed.

(** What is past the last page rounds up to nothing. *)
Lemma round_up_wraps a : 2 ^ 64 - PGSIZE < a < 2 ^ 64 → PGROUNDUP a = 0.
Proof.
  intros H. unfold PGROUNDUP, wrap. unfold PGSIZE in *.
  replace (a + 4096 - 1) with ((a + 4096 - 1 - 2 ^ 64) + 1 * 2 ^ 64) by lia.
  rewrite Z_mod_plus_full, (Z.mod_small (a + 4096 - 1 - 2 ^ 64)) by lia.
  pose proof (round_mask (a + 4096 - 1 - 2 ^ 64) ltac:(lia)) as E. unfold PGSIZE, wrap in E. rewrite E.
  rewrite Z.mod_small; lia.
Qed.

(** ** Links and nodes *)

Lemma lseg_next_at h a l1 l2 b : lseg h a (l1 ++ l2) b → nxt h (default a (last l1)) = Some (default b (head l2)).
Proof.
  destruct l1 as [|x l1 _] using rev_ind; intros Hs; [by apply lseg_first in Hs|].
  rewrite last_snoc. rewrite <- app_assoc in Hs. by apply lseg_walk in Hs.
Qed.

Section rep.
Context `{VE : VmEnv E}.
Implicit Type w : vworld E.

Lemma le2vma_link a : le2vma (list_link a) = a.
Proof. unfold le2vma, list_link. rewrite Z.mul_comm. by apply Z.div_mul. Qed.
#[export] Instance list_link_inj : Inj (=) (=) list_link.
Proof. intros x y. unfold list_link. lia. Qed.
Lemma link_ne_head a m : list_link a ≠ mmap_list m.
Proof. unfold list_link, mmap_list. lia. Qed.
Lemma link_ne_free a : list_link a ≠ free_list.
Proof. unfold list_link, free_list. lia. Qed.
Lemma head_ne_free m : mmap_list m ≠ free_list.
Proof. unfold mmap_list, free_list. lia. Qed.
Lemma link_in a es : list_link a ∈ map list_link es ↔ a ∈ es.
Proof.
  split; [|apply list_elem_of_fmap_2]. intros (b & E1 & Hb)%list_elem_of_fmap. by apply (inj list_link) in E1 as ->.
Qed.

(** ** The representation *)

Abbreviation area := (Z * Vma_struct)%type.

Record area_ok (x : Vma_struct) : Prop := {
  ao_range : 0 ≤ vm_start x < vm_end x;
  ao_top : vm_end x < 2 ^ 64;
  ao_start : vm_start x mod PGSIZE = 0;
  ao_end : vm_end x mod PGSIZE = 0;
  ao_off : 0 ≤ shmem_off x < 2 ^ 64;
  ao_private : flag (vm_flags x) VM_SHARE = false → shmem x = 0 ∧ shmem_off x = 0 }.

Definition ordered : list area → Prop := StronglySorted (λ p q, vm_end p.2 ≤ vm_start q.2).

(** The tree at [t], if there is one, has the nodes of [es] in order. *)
Definition in_tree (t : Z) (es : list Z) w : Prop :=
  t = 0 ∨ ∃ tr, rm_trees (v_mem w) !! t = Some tr ∧ rb_rep tr (rm_nodes (v_mem w)) es.

Record mm_rep (m : Z) (v : Mm_struct) (ps : list area) w : Prop := {
  mr_mm : v_mms w !! m = Some v;
  mr_list : is_list (v_links w) (mmap_list m) (map list_link ps.*1);
  mr_vmas a x : (a, x) ∈ ps → v_vmas w !! a = Some x ∧ a ≠ 0 ∧ vm_mm x = m ∧ area_ok x;
  mr_order : ordered ps;
  mr_nodes a : a ∈ ps.*1 → is_Some (rm_nodes (v_mem w) !! a);
  mr_tree : in_tree (mmap_tree v) ps.*1 w;
  mr_cache : mmap_cache v = 0 ∨ mmap_cache v ∈ ps.*1;
  mr_count : map_count v = zlen ps }.

Lemma rep_nodup_list h m (es : list Z) : is_list h (mmap_list m) (map list_link es) → NoDup es.
Proof. intros [[_ Hn]%NoDup_cons _]. by apply NoDup_fmap in Hn; [|apply _]. Qed.

Lemma mm_rep_nodup m v ps w : mm_rep m v ps w → NoDup ps.*1.
Proof. intros H. eapply rep_nodup_list, H. Qed.

Lemma rep_at m v ps w a : mm_rep m v ps w → a ∈ ps.*1 → ∃ x, (a, x) ∈ ps ∧ v_vmas w !! a = Some x ∧ a ≠ 0 ∧ vm_mm x = m ∧ area_ok x.
Proof.
  intros H ([a' x] & -> & Hp)%list_elem_of_fmap. exists x. split; [done|]. by apply (mr_vmas _ _ _ _ H).
Qed.

(** ** Access *)

Lemma wp_get_vma a x w (Q : Vma_struct → vworld E → Prop) : v_vmas w !! a = Some x → Q x w → wp (get_vma a) w Q.
Proof. intros Ha HQ. unfold get_vma. rewrite wp_bind, wp_gets, wp_of_option. eauto. Qed.
Lemma wp_upd_vma a f x w (Q : unit → vworld E → Prop) :
  v_vmas w !! a = Some x → Q tt (set_vmas (<[a := f x]> (v_vmas w)) w) → wp (upd_vma a f) w Q.
Proof. intros Ha HQ. unfold upd_vma. apply wp_bind. eapply wp_get_vma; [done|]. by rewrite wp_modify. Qed.
Lemma wp_get_mm m v w (Q : Mm_struct → vworld E → Prop) : v_mms w !! m = Some v → Q v w → wp (get_mm m) w Q.
Proof. intros Ha HQ. unfold get_mm. rewrite wp_bind, wp_gets, wp_of_option. eauto. Qed.
Lemma wp_upd_mm m f v w (Q : unit → vworld E → Prop) :
  v_mms w !! m = Some v → Q tt (set_mms (<[m := f v]> (v_mms w)) w) → wp (upd_mm m f) w Q.
Proof. intros Ha HQ. unfold upd_mm. apply wp_bind. eapply wp_get_mm; [done|]. by rewrite wp_modify. Qed.
Lemma wp_vm_links {A} (c : M heap A) w (Q : A → vworld E → Prop) :
  wp c (v_links w) (λ a h, Q a (set_links h w)) → wp (on_links c) w Q.
Proof. intros H. by apply wp_zoom. Qed.
Definition set_nodes (h : rbheap) w : vworld E := set_mem (set_rm_nodes h (v_mem w)) w.
Lemma wp_vm_rb {A} (c : M rbheap A) w (Q : A → vworld E → Prop) :
  wp c (rm_nodes (v_mem w)) (λ a h, Q a (set_nodes h w)) → wp (on_rb c) w Q.
Proof. intros H. unfold on_rb, on_mem, on_nodes. by apply wp_zoom, wp_zoom. Qed.
Lemma set_nodes_id w : set_nodes (rm_nodes (v_mem w)) w = w.
Proof. by destruct w as [? ? ? [] ? ? ?]. Qed.
Lemma set_links_id w : set_links (v_links w) w = w.
Proof. by destruct w. Qed.

(** The tree with the comparison on the areas there are. *)
Definition cur_tree w (tr : Rb_tree) : Rb_tree := mk_tree (vma_compare (v_vmas w)) (rb_nil tr) (rb_root tr).
Lemma wp_vma_tree t tr w (Q : Rb_tree → vworld E → Prop) :
  rm_trees (v_mem w) !! t = Some tr → Q (cur_tree w tr) w → wp (vma_tree t) w Q.
Proof.
  intros Ht HQ. unfold vma_tree, on_mem, get_tree. apply wp_bind, wp_zoom. rewrite wp_bind, wp_gets, Ht.
  apply wp_of_option. exists tr. split; [done|]. rewrite wp_bind, wp_gets, wp_ret. by destruct w.
Qed.
Lemma rep_any tr cmp h l : rb_rep (mk_tree cmp (rb_nil tr) (rb_root tr)) h l ↔ rb_rep tr h l.
Proof. by destruct tr. Qed.

(** ** Look-up *)

(** The first area that ends behind [addr]. *)
Fixpoint first_end (addr : Z) (ps : list area) : option Z :=
  match ps with
  | [] => None
  | p :: ps' => if addr <? vm_end p.2 then Some p.1 else first_end addr ps'
  end.

Lemma first_end_app addr p1 p2 :
  first_end addr (p1 ++ p2) = match first_end addr p1 with Some a => Some a | None => first_end addr p2 end.
Proof. induction p1 as [|p p1 IH]; [done|]. cbn. by destruct (_ <? _). Qed.

Lemma first_end_none addr ps : (∀ p, p ∈ ps → vm_end p.2 ≤ addr) → first_end addr ps = None.
Proof.
  induction ps as [|p ps IH]; intros H; [done|]. cbn. rewrite (proj2 (Z.ltb_ge _ _)) by (apply H; set_solver).
  apply IH. set_solver.
Qed.

Lemma first_end_split addr ps :
  (first_end addr ps = None ∧ ∀ p, p ∈ ps → vm_end p.2 ≤ addr) ∨
  ∃ p1 a x p2, ps = p1 ++ (a, x) :: p2 ∧ first_end addr ps = Some a ∧ addr < vm_end x ∧
    ∀ p, p ∈ p1 → vm_end p.2 ≤ addr.
Proof.
  induction ps as [|[a x] ps IH]; [by left; split; [|set_solver]|]. cbn. destruct (Z.ltb_spec addr (vm_end x)).
  - right. exists [], a, x, ps. set_solver.
  - destruct IH as [[-> Hn]|(p1 & b & y & p2 & -> & -> & Hb & Hp)]; [left|right].
    + split; [done|]. intros p [->|?]%elem_of_cons; [done|by apply Hn].
    + exists ((a, x) :: p1), b, y, p2. split_and!; [done..|]. intros p [->|?]%elem_of_cons; [done|by apply Hp].
Qed.

Lemma ordered_app ps qs : ordered (ps ++ qs) ↔
  ordered ps ∧ ordered qs ∧ ∀ p q, p ∈ ps → q ∈ qs → vm_end p.2 ≤ vm_start q.2.
Proof.
  unfold ordered. induction ps as [|p ps IH]; cbn.
  - split; [intros; split_and!; [constructor|done|set_solver]|tauto].
  - split.
    + intros [Hs Hf]%StronglySorted_inv. apply IH in Hs as (H1 & H2 & H3). apply Forall_app in Hf as [F1 F2].
      rewrite Forall_forall in F2. split_and!; [by constructor|done|]. intros x y [->|Hx]%elem_of_cons Hy; auto.
    + intros (H1 & H2 & H3). apply StronglySorted_inv in H1 as [H1 F1]. constructor.
      * apply IH. split_and!; [done..|]. intros x y Hx Hy. apply H3; [by right|done].
      * apply Forall_app. split; [done|]. apply Forall_forall. intros y Hy. apply H3; [by left|done].
Qed.

Lemma ordered_cons p ps : ordered (p :: ps) ↔ ordered ps ∧ ∀ q, q ∈ ps → vm_end p.2 ≤ vm_start q.2.
Proof.
  rewrite (ordered_app [p] ps). split.
  - intros (_ & H1 & H2). split; [done|]. intros q Hq. apply H2; [set_solver|done].
  - intros [H1 H2]. split_and!; [by repeat constructor|done|]. intros x y ->%list_elem_of_singleton Hy. by apply H2.
Qed.

(** The areas of [ps] are in the store. *)
Definition stored (ps : list area) w : Prop :=
  ∀ a x, (a, x) ∈ ps → v_vmas w !! a = Some x ∧ area_ok x.

Lemma rep_stored m v ps w : mm_rep m v ps w → stored ps w.
Proof. intros H a x Hp. by destruct (mr_vmas _ _ _ _ H a x Hp) as (? & _ & _ & ?). Qed.

(** The way down the tree. *)
Lemma wp_find_rb_loop tr L h0 k t np addr qs best w fuel (Q : Z → vworld E → Prop) :
  placed tr L h0 (rm_nodes (v_mem w)) np k t → qs.*1 = inorder t → ordered qs → stored qs w →
  (length qs < fuel)%nat →
  Q (default best (first_end addr qs)) w →
  wp (loop fuel (λ '(node, vma),
    match node with
    | None => mret (inr vma)
    | Some n =>
        let tmp := rbn2vma n in
        x ← get_vma tmp;
        if addr <? vm_end x then
          if vm_start x <=? addr then mret (inr tmp) else
          l ← on_rb (rb_node_left (cur_tree w tr) n); mret (inl (l, tmp))
        else r ← on_rb (rb_node_right (cur_tree w tr) n); mret (inl (r, vma))
    end) (or_null tr (ptr tr t), best)) w Q.
Proof.
  revert k qs best fuel. induction t as [|c l IHl a r IHr]; intros k qs best fuel Hp Eq Ho Hst Hf HQ;
    (destruct fuel as [|fuel]; [lia|]); cbn [loop]; apply wp_bind.
  { cbn [ptr]. unfold or_null. rewrite Z.eqb_refl, wp_ret, wp_ret. destruct qs; [done|discriminate]. }
  pose proof (placed_real _ _ _ _ _ _ _ Hp ltac:(done)) as Hreal. cbn [ptr] in *.
  unfold or_null at 1. rewrite (proj2 (Z.eqb_neq _ _) Hreal). cbn [inorder] in Eq.
  apply fmap_app_inv in Eq as (q1 & q2' & E1 & E2 & ->). destruct q2' as [|[a' x] q2]; [done|].
  injection E2 as <- E2. apply ordered_app in Ho as (Ho1 & Ho2 & H12). apply ordered_cons in Ho2 as [Ho2 Hx2].
  destruct (Hst a x ltac:(set_solver)) as [Ha Hax]. cbn in E2.
  assert (rm_nodes (v_mem w) !! a = Some (node_of DL c (up tr k) (ptr tr l) (ptr tr r))) as Hnode
    by (by apply (placed_node tr L h0 _ np k DL c a l r)).
  unfold rbn2vma. apply wp_bind. eapply wp_get_vma; [exact Ha|]. rewrite first_end_app in HQ. cbn in HQ.
  rewrite length_app in Hf. cbn in Hf. destruct (Z.ltb_spec addr (vm_end x)) as [He|He].
  - destruct (Z.leb_spec (vm_start x) addr) as [Hs|Hs].
    + rewrite wp_ret, wp_ret. rewrite first_end_none in HQ; [done|]. intros p Hin.
      pose proof (H12 p (a, x) Hin ltac:(set_solver)). cbn in *. lia.
    + apply wp_bind, wp_vm_rb. unfold rb_node_left. apply wp_bind. eapply wp_rb_at; [exact Hnode|].
      rewrite wp_ret, set_nodes_id, wp_ret. cbn [rb_left node_of].
      apply (IHl (mk_frame DL c a r :: k) q1); [by apply placed_zoom|done|done| |lia|].
      * intros b y Hb. apply Hst. set_solver.
      * by destruct (first_end addr q1).
  - apply wp_bind, wp_vm_rb. unfold rb_node_right. apply wp_bind. eapply wp_rb_at; [exact Hnode|].
    rewrite wp_ret, set_nodes_id, wp_ret. cbn [rb_right node_of].
    apply (IHr (mk_frame DR c a l :: k) q2); [by apply placed_zoom|done|done| |lia|].
    + intros b y Hb. apply Hst. set_solver.
    + rewrite (first_end_none addr q1) in HQ; [done|]. intros p Hin.
      pose proof (H12 p (a, x) Hin ltac:(set_solver)). pose proof (ao_range _ Hax). cbn in *. lia.
Qed.

Lemma wp_find_vma_rb t tr ps addr w (Q : Z → vworld E → Prop) :
  rm_trees (v_mem w) !! t = Some tr → rb_rep tr (rm_nodes (v_mem w)) ps.*1 → ordered ps → stored ps w →
  Q (default 0 (first_end addr ps)) w → wp (find_vma_rb t addr) w Q.
Proof.
  intros Ht (np & W & Hp & EW & _) Ho Hst HQ. unfold find_vma_rb. apply wp_bind. eapply wp_vma_tree; [exact Ht|].
  apply wp_bind, wp_vm_rb. unfold rb_node_root. apply wp_bind.
  eapply wp_rb_at; [by apply (placed_root _ _ _ _ np [] W Hp)|]. rewrite wp_ret, set_nodes_id, wp_bind, wp_gets.
  cbn [rb_left plug]. apply (wp_find_rb_loop tr _ _ [] W np addr ps 0 w _ Q Hp); [done|done|done| |done].
  pose proof (placed_size _ _ _ _ _ _ _ Hp) as Hs. rewrite EW, length_fmap in Hs. cbn in Hs. lia.
Qed.

Lemma wp_find_vma_list m v ps addr w (Q : Z → vworld E → Prop) :
  mm_rep m v ps w → Q (default 0 (first_end addr ps)) w → wp (find_vma_list m addr) w Q.
Proof.
  intros Hr HQ. pose proof (rep_stored _ _ _ _ Hr) as Hst. unfold find_vma_list, for_each_vma. apply wp_bind.
  eapply (wp_for_each_inv (v_links w) w _ _ (size (v_links w)) (mmap_list m) (map list_link ps.*1) _
    (λ l1 _, ∃ p1 p2, ps = p1 ++ p2 ∧ l1 = map list_link p1.*1 ∧ ∀ p, p ∈ p1 → vm_end p.2 ≤ addr)).
  - apply (mr_list _ _ _ _ Hr).
  - intros a b Hn. apply wp_result, wp_vm_links. eapply wp_list_next; [exact Hn|]. by rewrite set_links_id.
  - done.
  - pose proof (is_list_size _ _ _ (mr_list _ _ _ _ Hr)). lia.
  - intros l1 e l2 [] El (p1 & p2 & -> & -> & Hp1). rewrite fmap_app, map_app in El.
    apply app_inv_head in El. destruct p2 as [|[a x] p2]; [done|]. injection El as <- _.
    rewrite le2vma_link. destruct (Hst a x ltac:(set_solver)) as [Ha _]. apply wp_bind.
    eapply wp_get_vma; [exact Ha|]. rewrite wp_ret. destruct (Z.ltb_spec addr (vm_end x)) as [He|He].
    + rewrite wp_ret. rewrite first_end_app, first_end_none in HQ by done. cbn in HQ.
      by rewrite (proj2 (Z.ltb_lt _ _) He) in HQ.
    + split; [done|]. exists (p1 ++ [(a, x)]), p2. rewrite <- app_assoc, fmap_app, map_app. split_and!; [done..|].
      intros p [?| ->%list_elem_of_singleton]%elem_of_app; auto.
  - intros [] (p1 & p2 & E1 & E2 & Hp1). rewrite wp_ret. apply (f_equal length) in E2.
    rewrite !length_map, E1, length_app in E2. destruct p2; [|cbn in E2; lia].
    rewrite app_nil_r in E1. subst ps. by rewrite first_end_none in HQ.
  - exists [], ps. set_solver.
Qed.
End rep.
