(* ===== verification/VmmOps.v ===== *)
(** * Address spaces: finding, inserting and removing an area *)
From Stdlib Require Import Sorted.
From S2P Require Import Prelude Errors ListH Rbtree RbRep RbSpec RbDelete RbSearch Vmm VmmRep.

Section ops.
Context `{VE : VmEnv E}.
Implicit Type w : vworld E.
Abbreviation area := (Z * Vma_struct)%type.

(** ** Finding *)

Definition cached_mm (v : Mm_struct) (r : option Z) : Mm_struct :=
  match r with Some a => set_cache a v | None => v end.
Definition cached (m : Z) (v : Mm_struct) (r : option Z) w : vworld E :=
  match r with Some a => set_mms (<[m := set_cache a v]> (v_mms w)) w | None => w end.

Lemma first_end_in addr (ps : list area) a : first_end addr ps = Some a → a ∈ ps.*1.
Proof.
  destruct (first_end_split addr ps) as [[-> _]|(p1 & b & x & p2 & -> & -> & _)]; [done|].
  intros [= ->]. rewrite fmap_app. set_solver.
Qed.

Lemma rep_cached m v ps w addr : mm_rep m v ps w →
  mm_rep m (cached_mm v (first_end addr ps)) ps (cached m v (first_end addr ps) w).
Proof.
  intros H. destruct (first_end addr ps) as [a|] eqn:Ea; [|done]. destruct H as [H1 H2 H3 H4 H5 H6 H7 H8].
  split; cbn; try done; [apply lookup_insert_eq|]. right. by eapply first_end_in.
Qed.

Lemma first_end_cache ps w addr a x :
  stored ps w → ordered ps → (a, x) ∈ ps → vm_start x ≤ addr < vm_end x → first_end addr ps = Some a.
Proof.
  intros Hst Ho (p1 & p2 & ->)%list_elem_of_split Hx. apply ordered_app in Ho as (_ & _ & H12).
  rewrite first_end_app, first_end_none.
  - cbn. by rewrite (proj2 (Z.ltb_lt _ _)) by lia.
  - intros p Hp. pose proof (H12 p (a, x) Hp ltac:(set_solver)). cbn in *. lia.
Qed.

Lemma wp_find_vma m v ps addr w (Q : Z → vworld E → Prop) :
  mm_rep m v ps w → m ≠ 0 →
  Q (default 0 (first_end addr ps)) (cached m v (first_end addr ps) w) → wp (find_vma m addr) w Q.
Proof.
  intros Hr Hm HQ. pose proof (rep_stored _ _ _ _ Hr) as Hst. pose proof (mr_order _ _ _ _ Hr) as Ho.
  unfold find_vma. rewrite (proj2 (Z.eqb_neq _ _) Hm). apply wp_bind. eapply wp_get_mm; [apply Hr|].
  assert (∀ r, r = default 0 (first_end addr ps) →
    wp ((if negb (r =? 0) then upd_mm m (set_cache r) else mret tt);; mret r) w Q) as Hend.
  { intros r ->. destruct (first_end addr ps) as [a|] eqn:Ea; cbn.
    - assert (a ≠ 0) as Ha by (destruct (rep_at _ _ _ _ a Hr) as (x & _ & _ & ? & _); [by eapply first_end_in|done]).
      rewrite (proj2 (Z.eqb_neq _ _) Ha). apply wp_bind. eapply wp_upd_mm; [apply Hr|]. by rewrite wp_ret.
    - by rewrite wp_bind, wp_ret, wp_ret. }
  assert (wp (if negb (mmap_tree v =? 0) then find_vma_rb (mmap_tree v) addr else find_vma_list m addr) w
    (λ r w', r = default 0 (first_end addr ps) ∧ w' = w)) as Hslow.
  { destruct (Z.eqb_spec (mmap_tree v) 0) as [E0|E0]; cbn [negb].
    - by eapply wp_find_vma_list.
    - destruct (mr_tree _ _ _ _ Hr) as [?|(tr & Ht & Hrep)]; [done|]. by eapply wp_find_vma_rb. }
  apply wp_bind. destruct (Z.eqb_spec (mmap_cache v) 0) as [Ec|Ec].
  - rewrite wp_ret. apply wp_bind. eapply wp_conseq; [exact Hslow|]. intros r w' [-> ->]. by apply Hend.
  - destruct (mr_cache _ _ _ _ Hr) as [?|Hin]; [done|].
    destruct (rep_at _ _ _ _ _ Hr Hin) as (x & Hp & Hx & _). apply wp_bind. eapply wp_get_vma; [exact Hx|].
    rewrite wp_ret. apply wp_bind.
    destruct (Z.leb_spec (vm_start x) addr), (Z.ltb_spec addr (vm_end x)); cbn [andb];
      try (eapply wp_conseq; [exact Hslow|]; intros r w' [-> ->]; by apply Hend).
    rewrite wp_ret. apply Hend. by rewrite (first_end_cache ps w addr _ x Hst Ho Hp).
Qed.

(** ** The order of the tree *)

#[export] Instance vma_compare_ok vmas : CompareOk (vma_compare vmas).
Proof. split; intros *; unfold vma_compare; zcases; lia. Qed.

Lemma vma_compare_le vmas a b : vma_compare vmas a b ≤ 0 ↔
  from_option vm_start 0 (vmas !! a) ≤ from_option vm_start 0 (vmas !! b).
Proof. unfold vma_compare, rbn2vma. zcases; lia. Qed.
Lemma vma_compare_gt vmas a b : 0 < vma_compare vmas a b ↔
  from_option vm_start 0 (vmas !! b) < from_option vm_start 0 (vmas !! a).
Proof. unfold vma_compare, rbn2vma. zcases; lia. Qed.

Lemma tree_sorted ps w : stored ps w → ordered ps → rb_sorted (vma_compare (v_vmas w)) ps.*1.
Proof.
  intros Hst Ho. induction ps as [|[a x] ps IH]; [constructor|]. apply ordered_cons in Ho as [Ho Hx].
  constructor; [apply IH; [intros b y Hb; apply Hst; set_solver|done]|].
  apply Forall_forall. intros b ([b' y] & -> & Hb)%list_elem_of_fmap. apply vma_compare_le. cbn.
  destruct (Hst a x ltac:(set_solver)) as [-> Ha]. destruct (Hst b' y ltac:(set_solver)) as [-> _].
  specialize (Hx _ Hb). pose proof (ao_range _ Ha). cbn in *. lia.
Qed.

(** Two splits of a list by the same property are one. *)
Lemma split_unique {A} (P : A → Prop) (l1 l2 k1 k2 : list A) :
  l1 ++ l2 = k1 ++ k2 → (∀ x, x ∈ l1 → P x) → (∀ x, x ∈ l2 → ¬ P x) →
  (∀ x, x ∈ k1 → P x) → (∀ x, x ∈ k2 → ¬ P x) → l1 = k1 ∧ l2 = k2.
Proof.
  revert k1. induction l1 as [|x l1 IH]; intros [|y k1] E1 H1 H2 H3 H4; cbn in E1.
  - done.
  - exfalso. apply (H2 y); [rewrite E1; set_solver|apply H3; set_solver].
  - exfalso. apply (H4 x); [rewrite <- E1; set_solver|apply H1; set_solver].
  - injection E1 as -> E1. destruct (IH k1 E1) as [-> ->]; [set_solver..|done].
Qed.

(** ** What an operation on one address space leaves alone *)

Definition tree_nodes w (v : Mm_struct) : list Z :=
  if mmap_tree v =? 0 then [] else
  match rm_trees (v_mem w) !! mmap_tree v with Some tr => [rb_nil tr; rb_root tr] | None => [] end.

(** Only the list's own fields change. *)
Definition listing (v v' : Mm_struct) : Prop :=
  v' = set_map_count (map_count v') (set_tree (mmap_tree v') (set_cache (mmap_cache v') v)).

(** Objects there were are as they were, but for the areas of [own], the space [m]
    and its tree; a tree that comes is made of new nodes. *)
Record keeps (m : Z) (own : list Z) (v : Mm_struct) w (v' : Mm_struct) w' : Prop := {
  kp_listing : listing v v';
  kp_mms m' : m' ≠ m → v_mms w' !! m' = v_mms w !! m';
  kp_vmas a : a ∉ own → is_Some (v_vmas w !! a) → v_vmas w' !! a = v_vmas w !! a;
  kp_links l : l ≠ mmap_list m → l ∉ map list_link own → is_Some (v_links w !! l) →
    v_links w' !! l = v_links w !! l;
  kp_nodes n : n ∉ own → n ∉ tree_nodes w v → is_Some (rm_nodes (v_mem w) !! n) →
    rm_nodes (v_mem w') !! n = rm_nodes (v_mem w) !! n;
  kp_trees t : is_Some (rm_trees (v_mem w) !! t) → rm_trees (v_mem w') !! t = rm_trees (v_mem w) !! t;
  kp_tree n : n ∈ tree_nodes w' v' → n ∈ tree_nodes w v ∨ n ∈ own ∨ rm_nodes (v_mem w) !! n = None;
  kp_cur : v_cur w' = v_cur w }.

(** Nothing is at the address of an area. *)
Definition unused (a : Z) w : Prop :=
  v_vmas w !! a = None ∧ v_links w !! list_link a = None ∧ rm_nodes (v_mem w) !! a = None.

Lemma listing_refl v : listing v v.
Proof. by destruct v. Qed.
Lemma listing_trans v1 v2 v3 : listing v1 v2 → listing v2 v3 → listing v1 v3.
Proof. unfold listing. intros -> ->. by destruct v1. Qed.

Lemma keeps_refl m own v w : keeps m own v w v w.
Proof. split; auto. apply listing_refl. Qed.

Lemma keeps_trans m own own1 v w v1 w1 v2 w2 :
  keeps m own v w v1 w1 → keeps m own1 v1 w1 v2 w2 → (∀ a, a ∈ own1 → a ∈ own ∨ unused a w) →
  keeps m own v w v2 w2.
Proof.
  intros [A0 A1 A2 A3 A4 A5 A6 A7] [B0 B1 B2 B3 B4 B5 B6 B7] Hown.
  assert (∀ n, n ∉ own → n ∉ tree_nodes w v → is_Some (rm_nodes (v_mem w) !! n) → n ∉ tree_nodes w1 v1) as Ht
    by (intros n H1 H2 [y Hy] [?|[?|?]]%A6; congruence).
  split.
  - by eapply listing_trans.
  - intros m' Hm. by rewrite B1, A1.
  - intros a Ha Hs. rewrite <- (A2 a Ha Hs). apply B2; [|by rewrite A2].
    intros [?|(Hn & _)]%Hown; [done|]. destruct Hs; congruence.
  - intros l Hl Hlo Hs. rewrite <- (A3 l Hl Hlo Hs). apply B3; [done| |by rewrite A3].
    intros (a & -> & Ha)%list_elem_of_fmap. destruct (Hown a Ha) as [Ha'|(_ & Hn & _)].
    + by apply Hlo, list_elem_of_fmap_2.
    + destruct Hs; congruence.
  - intros n Hn Hnt Hs. rewrite <- (A4 n Hn Hnt Hs). apply B4; [|by apply Ht|by rewrite A4].
    intros [?|(_ & _ & Hnn)]%Hown; [done|]. destruct Hs; congruence.
  - intros t Hs. rewrite <- (A5 t Hs). apply B5. by rewrite A5.
  - intros n [H|[H|H]]%B6; [by apply A6|destruct (Hown n H) as [?|(_ & _ & ?)]; auto|].
    destruct (decide (n ∈ tree_nodes w v)); [by left|]. destruct (decide (n ∈ own)); [by right; left|].
    right; right. destruct (rm_nodes (v_mem w) !! n) eqn:En; [|done].
    rewrite A4 in H; [congruence|done|done|by eexists].
  - congruence.
Qed.

(** An area that is in no list and in no tree. *)
Record loose (v : Mm_struct) (a : Z) (x : Vma_struct) w : Prop := {
  lo_vma : v_vmas w !! a = Some x;
  lo_real : a ≠ 0;
  lo_link : is_Some (v_links w !! list_link a);
  lo_node : is_Some (rm_nodes (v_mem w) !! a);
  lo_tree : a ∉ tree_nodes w v }.

Lemma loose_keeps m own v v' w w' a x :
  keeps m own v w v' w' → a ∉ own → loose v a x w → loose v' a x w'.
Proof.
  intros K Ha [H1 H2 H3 H4 H5]. split.
  - by rewrite (kp_vmas _ _ _ _ _ _ K).
  - done.
  - rewrite (kp_links _ _ _ _ _ _ K); [done|apply link_ne_head|by rewrite link_in|done].
  - by rewrite (kp_nodes _ _ _ _ _ _ K).
  - intros [Hn|[Hn|Hn]]%(kp_tree _ _ _ _ _ _ K); [done..|]. destruct H4; congruence.
Qed.

(** The tree's own nodes are in the store. *)
Lemma tree_nodes_in m v ps w n : mm_rep m v ps w → n ∈ tree_nodes w v → is_Some (rm_nodes (v_mem w) !! n).
Proof.
  intros Hr. unfold tree_nodes. destruct (Z.eqb_spec (mmap_tree v) 0) as [E0|E0]; [set_solver|].
  destruct (mr_tree _ _ _ _ Hr) as [?|(tr & -> & (np & W & Hp & _))]; [done|].
  intros [->|[->|?%elem_of_nil]%elem_of_cons]%elem_of_cons; [| |done].
  - eexists. apply (ho_cells _ _ _ _ Hp). unfold all_cells, nil_cell. by left.
  - eexists. by apply (placed_root _ _ _ _ np [] W Hp).
Qed.

(** ** Inserting *)

Lemma wp_le_prev_in_list m v p1 p2 a x w (Q : Z → vworld E → Prop) :
  mm_rep m v (p1 ++ p2) w → v_vmas w !! a = Some x →
  (∀ p, p ∈ p1 → vm_start p.2 ≤ vm_start x) → (∀ p, p ∈ p2 → vm_start x < vm_start p.2) →
  Q (default (mmap_list m) (last (map list_link p1.*1))) w → wp (le_prev_in_list m a) w Q.
Proof.
  intros Hr Hx Hp1 Hp2 HQ. pose proof (rep_stored _ _ _ _ Hr) as Hst. unfold le_prev_in_list, for_each_vma.
  apply wp_bind. eapply wp_get_vma; [exact Hx|]. apply wp_bind.
  eapply (wp_for_each_inv (v_links w) w _ _ (size (v_links w)) (mmap_list m) (map list_link (p1 ++ p2).*1) _
    (λ l1 l, l = default (mmap_list m) (last l1) ∧ ∃ k1 k2, p1 ++ p2 = k1 ++ k2 ∧ l1 = map list_link k1.*1 ∧
      ∀ p, p ∈ k1 → vm_start p.2 ≤ vm_start x)).
  - apply (mr_list _ _ _ _ Hr).
  - intros b c Hn. apply wp_result, wp_vm_links. eapply wp_list_next; [exact Hn|]. by rewrite set_links_id.
  - done.
  - pose proof (is_list_size _ _ _ (mr_list _ _ _ _ Hr)). lia.
  - intros l1 e l2 l El (-> & k1 & k2 & Ek & -> & Hk1). rewrite Ek, fmap_app, map_app in El.
    apply app_inv_head in El. destruct k2 as [|[b y] k2]; [done|]. injection El as <- _.
    rewrite le2vma_link. destruct (Hst b y ltac:(rewrite Ek; set_solver)) as [Hb Hy]. apply wp_bind.
    eapply wp_get_vma; [exact Hb|]. rewrite wp_ret. destruct (Z.ltb_spec (vm_start x) (vm_start y)) as [Hlt|Hge].
    + rewrite wp_ret. destruct (split_unique (λ p : area, vm_start p.2 ≤ vm_start x) p1 p2 k1 ((b, y) :: k2) Ek)
        as [-> _]; try done.
      * intros p Hp. specialize (Hp2 p Hp). lia.
      * pose proof (mr_order _ _ _ _ Hr) as Ho. rewrite Ek in Ho. apply ordered_app in Ho as (_ & Ho & _).
        apply ordered_cons in Ho as [_ Ho]. pose proof (ao_range _ Hy).
        intros p [->|Hp]%elem_of_cons; [cbn; lia|]. specialize (Ho p Hp). cbn in Ho. lia.
    + split; [done|]. split; [by rewrite last_snoc|]. exists (k1 ++ [(b, y)]), k2.
      rewrite <- app_assoc, fmap_app, map_app. split_and!; [done..|].
      intros p [?| ->%list_elem_of_singleton]%elem_of_app; auto.
  - intros l (-> & k1 & k2 & Ek & El & Hk1). rewrite wp_ret. apply (f_equal length) in El.
    rewrite !length_map, Ek, length_app in El. destruct k2; [|cbn in El; lia].
    rewrite app_nil_r in Ek. destruct p2 as [|q p2]; [by rewrite app_nil_r|].
    pose proof (Hk1 q ltac:(rewrite <- Ek; set_solver)). pose proof (Hp2 q ltac:(set_solver)). lia.
  - split; [done|]. exists [], (p1 ++ p2). set_solver.
Qed.

(** The new node goes where the new area belongs; [want] asks for the one before. *)
Lemma wp_insert_vma_rb t tr p1 p2 a x w (want : bool) (Q : option Z → vworld E → Prop) :
  rm_trees (v_mem w) !! t = Some tr → rb_rep tr (rm_nodes (v_mem w)) (p1 ++ p2).*1 →
  stored (p1 ++ p2) w → ordered (p1 ++ p2) → v_vmas w !! a = Some x →
  is_Some (rm_nodes (v_mem w) !! a) → a ∉ [rb_nil tr; rb_root tr] → a ∉ (p1 ++ p2).*1 →
  (∀ p, p ∈ p1 → vm_start p.2 ≤ vm_start x) → (∀ p, p ∈ p2 → vm_start x < vm_start p.2) →
  (∀ h, rb_rep tr h (p1.*1 ++ a :: p2.*1) →
     (∀ n, n ∉ rb_nil tr :: rb_root tr :: a :: (p1 ++ p2).*1 → h !! n = rm_nodes (v_mem w) !! n) →
     (∀ n, is_Some (rm_nodes (v_mem w) !! n) → is_Some (h !! n)) →
     Q (if want then last p1.*1 else None) (set_nodes h w)) →
  wp (insert_vma_rb t a want) w Q.
Proof.
  intros Ht Hrep Hst Ho Hx Hn Hnt Hni Hp1 Hp2 HQ. unfold insert_vma_rb. apply wp_bind.
  eapply wp_vma_tree; [exact Ht|]. unfold rb_link. apply wp_bind, wp_vm_rb.
  destruct (rb_insert_ok (cur_tree w tr) (rm_nodes (v_mem w)) (p1 ++ p2).*1 a)
    as (h & l1 & l2 & Hrun & El & Hrep' & _ & Hb1 & Hb2 & Hf);
    [by apply rep_any|by apply tree_sorted|done|set_solver|]. cbn [rb_nil rb_root rb_compare cur_tree] in *.
  assert (∀ b y, (b, y) ∈ p1 ++ p2 → from_option vm_start 0 (v_vmas w !! b) = vm_start y) as Hget
    by (intros b y Hb; destruct (Hst b y Hb) as [-> _]; done).
  destruct (split_unique (λ b, vma_compare (v_vmas w) b a ≤ 0) l1 l2 p1.*1 p2.*1) as [-> ->]; try done.
  { by rewrite <- El, fmap_app. }
  { intros b Hb. specialize (Hb2 b Hb). lia. }
  { intros b ([b' y] & -> & Hb)%list_elem_of_fmap. apply vma_compare_le. cbn [fst]. rewrite Hx, (Hget b' y) by set_solver.
    apply (Hp1 _ Hb). }
  { intros b ([b' y] & -> & Hb)%list_elem_of_fmap. apply Z.lt_nge, vma_compare_gt. cbn [fst]. rewrite Hx, (Hget b' y) by set_solver.
    apply (Hp2 _ Hb). }
  eapply wp_of_run; [exact Hrun|]. apply rep_any in Hrep'. specialize (HQ h Hrep' Hf).
  assert (∀ n, is_Some (rm_nodes (v_mem w) !! n) → is_Some (h !! n)) as Hg by (by eapply insert_grows).
  destruct want.
  - apply wp_bind, wp_vm_rb. eapply wp_of_run; [apply (rb_node_prev_spec _ _ p1.*1 a p2.*1); by apply rep_any|].
    rewrite wp_ret. replace (rbn2vma <$> last p1.*1) with (last p1.*1) by (by destruct (last p1.*1)).
    change (rm_nodes (v_mem (set_nodes h w))) with h. by apply HQ.
  - rewrite wp_ret. by apply HQ.
Qed.
End ops.
