(* ===== verification/VmmInsert.v ===== *)
(** * Address spaces: [vma_create], [insert_vma_struct], [remove_vma_struct] *)
From Stdlib Require Import Sorted.
From S2P Require Import Prelude Errors ListH Rbtree RbRep RbSpec RbDelete RbSearch Vmm VmmRep VmmOps.

(** What is promised by the allocator and the page tables: a fresh area or null and
    nothing done; [unmap_range] takes the pages of its range out of one page table, and
    [exit_range] frees the table's own pages where none are left.
    There is always memory for the nodes of a tree. *)
Class VmEnvOk `{VE : VmEnv E} := {
  #[global] vo_rb :: @RbAlloc ve_rb;
  vo_nodes : ¬ @no_node ve_rb;
  vo_vma (w : vworld E) : kmalloc_vma w = Ok (0, w) ∨ ∃ a x e n, a ≠ 0 ∧ unused a w ∧
    kmalloc_vma w = Ok (a, set_vmas (<[a := x]> (v_vmas w)) (set_links (<[list_link a := e]> (v_links w))
      (set_nodes (<[a := n]> (rm_nodes (v_mem w))) w)));
  mapped : E → Z → Z → Prop;              (* the page table has the page *)
  vo_unmap (e : E) pt s t : s mod PGSIZE = 0 → t mod PGSIZE = 0 → 0 ≤ s < t → t ≤ MAXVA →
    ∃ e', ve_unmap_range pt s t e = Ok (tt, e') ∧
      (∀ va, mapped e' pt va ↔ mapped e pt va ∧ ¬ s ≤ va < t) ∧
      (∀ pt' va, pt' ≠ pt → mapped e' pt' va ↔ mapped e pt' va);
  vo_exit (e : E) pt s t : (∀ va, s ≤ va < t → ¬ mapped e pt va) →
    ∃ e', ve_exit_range pt s t e = Ok (tt, e') ∧ ∀ pt' va, mapped e' pt' va ↔ mapped e pt' va;
  vo_shmem_free (e : E) s : ∃ e', ve_shmem_free s e = Ok (tt, e') ∧ ∀ pt va, mapped e' pt va ↔ mapped e pt va }.
Arguments VmEnvOk E {VE}.

Section insert.
Context `{VO : VmEnvOk E}.
Implicit Type w : vworld E.
Abbreviation area := (Z * Vma_struct)%type.

(** ** Allocation *)

Definition no_vma_left : Prop := ∃ w, kmalloc_vma w = Ok (0, w).

Lemma wp_vma_create m v ps s t flags w (Q : Z → vworld E → Prop) :
  mm_rep m v ps w →
  (no_vma_left → Q 0 w) →
  (∀ a x w', a ≠ 0 → unused a w → loose v a (set_shmem 0 0 (set_vm_flags flags (set_range s t x))) w' →
     mm_rep m v ps w' → keeps m [] v w v w' → v_shm w' = v_shm w → v_env w' = v_env w →
     v_links w' !! free_list = v_links w !! free_list → Q a w') →
  wp (vma_create s t flags) w Q.
Proof.
  intros Hr H0 HQ. unfold vma_create. apply wp_bind.
  destruct (vo_vma w) as [E0|(a & x & e & n & Ha & (U1 & U2 & U3) & E0)]; (eapply wp_of_run; [exact E0|]).
  { cbn [Z.eqb]. rewrite wp_ret. apply H0. by exists w. }
  rewrite (proj2 (Z.eqb_neq _ _) Ha). apply wp_bind. eapply wp_upd_vma; [apply lookup_insert_eq|].
  rewrite wp_ret. cbn [v_vmas set_vmas]. rewrite insert_insert_eq.
  pose proof (rep_at _ _ _ _ a Hr) as Hat.
  assert (a ∉ ps.*1) as Hni by (intros (y & _ & Hy & _)%Hat; congruence).
  apply (HQ a x); [done|done|..|done|done|by cbn; rewrite lookup_insert_ne by apply link_ne_free].
  - split; cbn; [apply lookup_insert_eq|done|by rewrite lookup_insert_eq|by rewrite lookup_insert_eq|].
    intros Hn. pose proof (tree_nodes_in _ _ _ _ a Hr Hn) as [y Hy]. congruence.
  - destruct Hr as [H1 H2 H3 H4 H5 H6 H7 H8]. split; cbn; try done.
    + eapply is_list_same; [exact H2|]. intros l [->|Hl]%elem_of_cons; rewrite lookup_insert_ne; try done.
      * apply link_ne_head.
      * intros <-. apply Hni. by apply link_in.
    + intros b y Hb. rewrite lookup_insert_ne; [by apply H3|]. intros <-. apply Hni.
      by apply (list_elem_of_fmap_2 fst _ (a, y)).
    + intros b Hb. rewrite lookup_insert_ne; [by apply H5|]. by intros <-.
    + destruct H6 as [?|(tr & Ht & Hrep)]; [by left|right]. exists tr. split; [done|].
      cbn. eapply rep_same; [exact Hrep|]. intros b Hb. rewrite lookup_insert_ne; [done|]. intros <-.
      destruct (rep_is_node _ _ _ a Hrep Hb). congruence.
  - split; cbn; try done; [apply listing_refl|..].
    + intros b _ Hb. rewrite lookup_insert_ne; [done|]. intros <-. destruct Hb; congruence.
    + intros l _ _ Hl. rewrite lookup_insert_ne; [done|]. intros <-. destruct Hl; congruence.
    + intros b _ _ Hb. rewrite lookup_insert_ne; [done|]. intros <-. destruct Hb; congruence.
    + intros b Hb. by left.
Qed.

(** ** Insertion *)

(** The node of [a] is in the tree between those of [p1] and [p2], when there is one. *)
Record with_node (v : Mm_struct) (a : Z) (p1 p2 : list area) w (h : rbheap) : Prop := {
  wn_tree : in_tree (mmap_tree v) (p1.*1 ++ a :: p2.*1) (set_nodes h w);
  wn_same n : n ∉ a :: (p1 ++ p2).*1 → n ∉ tree_nodes w v → h !! n = rm_nodes (v_mem w) !! n;
  wn_grows n : is_Some (rm_nodes (v_mem w) !! n) → is_Some (h !! n) }.

Lemma tree_nodes_at v w tr : mmap_tree v ≠ 0 → rm_trees (v_mem w) !! mmap_tree v = Some tr →
  tree_nodes w v = [rb_nil tr; rb_root tr].
Proof. intros H0 Ht. unfold tree_nodes. by rewrite (proj2 (Z.eqb_neq _ _) H0), Ht. Qed.

Lemma wp_insert_place m v p1 p2 a x w (Q : Z → vworld E → Prop) :
  mm_rep m v (p1 ++ p2) w → loose v a x w → a ∉ (p1 ++ p2).*1 →
  (∀ p, p ∈ p1 → vm_start p.2 ≤ vm_start x) → (∀ p, p ∈ p2 → vm_start x < vm_start p.2) →
  (∀ h, with_node v a p1 p2 w h → Q (default (mmap_list m) (last (map list_link p1.*1))) (set_nodes h w)) →
  wp (if negb (mmap_tree v =? 0) then
      p ← insert_vma_rb (mmap_tree v) a true;
      mret (match p with Some b => list_link b | None => mmap_list m end)
    else le_prev_in_list m a) w Q.
Proof.
  intros Hr [Hx Ha Hal Han Hat] Hni Hp1 Hp2 HQ. destruct (Z.eqb_spec (mmap_tree v) 0) as [E0|E0]; cbn [negb].
  - eapply wp_le_prev_in_list; [exact Hr|exact Hx|done..|].
    specialize (HQ (rm_nodes (v_mem w))). rewrite set_nodes_id in HQ. apply HQ. split; [by left|done|done].
  - destruct (mr_tree _ _ _ _ Hr) as [?|(tr & Ht & Hrep)]; [done|].
    rewrite (tree_nodes_at _ _ tr) in Hat by done. apply wp_bind.
    eapply (wp_insert_vma_rb (mmap_tree v) tr p1 p2 a x w true); try done;
      [by eapply rep_stored|by eapply mr_order|].
    intros h Hrep' Hf Hg. rewrite wp_ret.
    replace (match last p1.*1 with Some b => list_link b | None => mmap_list m end)
      with (default (mmap_list m) (last (map list_link p1.*1)))
      by (change (map list_link p1.*1) with (list_link <$> p1.*1); rewrite fmap_last; by destruct (last p1.*1)).
    apply HQ. split; [|intros n Hn Hnt|done].
    + right. by exists tr.
    + rewrite (tree_nodes_at _ _ tr) in Hnt by done. apply Hf. set_solver.
Qed.

(** The neighbours do not overlap the new area. *)
Lemma wp_check_overlap a b x y w (Q : unit → vworld E → Prop) :
  v_vmas w !! a = Some x → v_vmas w !! b = Some y → area_ok x → area_ok y → vm_end x ≤ vm_start y →
  Q tt w → wp (check_vma_overlap a b) w Q.
Proof.
  intros Ha Hb [Hx _ _ _ _ _] [Hy _ _ _ _ _] H HQ. unfold check_vma_overlap. apply wp_bind. eapply wp_get_vma; [exact Ha|].
  apply wp_bind. eapply wp_get_vma; [exact Hb|]. rewrite wp_bind, wp_assert, wp_bind, wp_assert, wp_assert.
  split; [apply Z.ltb_lt; lia|]. split; [by apply Z.leb_le|]. split; [apply Z.ltb_lt; lia|done].
Qed.

Lemma wp_insert_checks {A} m p1 p2 a x w h (K : M (vworld E) A) (Q : A → vworld E → Prop) :
  stored (p1 ++ p2) w → v_vmas w !! a = Some x → area_ok x →
  (∀ p, p ∈ p1 → vm_end p.2 ≤ vm_start x) → (∀ p, p ∈ p2 → vm_end x ≤ vm_start p.2) →
  wp K (set_nodes h w) Q →
  wp ((if negb (default (mmap_list m) (last (map list_link p1.*1)) =? mmap_list m)
       then check_vma_overlap (le2vma (default (mmap_list m) (last (map list_link p1.*1)))) a else mret tt);;
      (if negb (default (mmap_list m) (head (map list_link p2.*1)) =? mmap_list m)
       then check_vma_overlap a (le2vma (default (mmap_list m) (head (map list_link p2.*1)))) else mret tt);;
      K) (set_nodes h w) Q.
Proof.
  intros Hst Hx Hax Hp1 Hp2 HQ. apply wp_bind.
  assert (wp ((if negb (default (mmap_list m) (head (map list_link p2.*1)) =? mmap_list m)
       then check_vma_overlap a (le2vma (default (mmap_list m) (head (map list_link p2.*1)))) else mret tt);; K)
    (set_nodes h w) Q) as Hnext.
  { apply wp_bind. destruct p2 as [|[b y] p2]; cbn; [by rewrite Z.eqb_refl|].
    rewrite (proj2 (Z.eqb_neq _ _)) by apply link_ne_head. cbn [negb]. rewrite le2vma_link.
    destruct (Hst b y ltac:(set_solver)) as [Hb Hy].
    eapply wp_check_overlap; [exact Hx|exact Hb|done..| |done]. by apply (Hp2 (b, y)); left. }
  destruct p1 as [|[b y] p1 _] using rev_ind; cbn [list_fmap fmap map last default].
  { cbn. by rewrite Z.eqb_refl. }
  rewrite fmap_app, map_app. cbn [list_fmap fmap map fst app]. rewrite last_snoc. cbn [default from_option id].
  rewrite (proj2 (Z.eqb_neq _ _)) by apply link_ne_head. cbn [negb]. rewrite le2vma_link.
  destruct (Hst b y ltac:(set_solver)) as [Hb Hy].
  eapply wp_check_overlap; [exact Hb|exact Hx|done..| |done]. apply (Hp1 (b, y)). set_solver.
Qed.

(** The area is in the list and in the tree. *)
Definition linked_world m v a x hl h w : vworld E :=
  set_mms (<[m := set_map_count (map_count v + 1) v]> (v_mms w))
    (set_links hl (set_vmas (<[a := set_vm_mm m x]> (v_vmas w)) (set_nodes h w))).

Lemma linked_rep m v p1 p2 a x hl h w :
  mm_rep m v (p1 ++ p2) w → loose v a x w → a ∉ (p1 ++ p2).*1 → area_ok x →
  (∀ p, p ∈ p1 → vm_end p.2 ≤ vm_start x) → (∀ p, p ∈ p2 → vm_end x ≤ vm_start p.2) →
  with_node v a p1 p2 w h → is_list hl (mmap_list m) (map list_link p1.*1 ++ list_link a :: map list_link p2.*1) →
  mm_rep m (set_map_count (map_count v + 1) v) (p1 ++ (a, set_vm_mm m x) :: p2) (linked_world m v a x hl h w).
Proof.
  intros [H1 H2 H3 H4 H5 H6 H7 H8] [L1 L2 L3 L4 L5] Hni Hax Hp1 Hp2 [W1 W2 W3] Hl.
  assert (area_ok (set_vm_mm m x)) as Hax' by (by destruct Hax).
  split; cbn; rewrite ?fmap_app; cbn; try done.
  - apply lookup_insert_eq.
  - intros b y Hb. rewrite elem_of_app, elem_of_cons in Hb.
    assert ((b, y) = (a, set_vm_mm m x) ∨ (b, y) ∈ p1 ++ p2) as [[= -> ->]|Hb'] by set_solver.
    + by rewrite lookup_insert_eq.
    + rewrite lookup_insert_ne; [by apply H3|]. intros <-. apply Hni. by apply (list_elem_of_fmap_2 fst _ (a, y)).
  - apply ordered_app in H4 as (O1 & O2 & O3). apply ordered_app. split_and!; [done|by apply ordered_cons|].
    intros p q Hp [->|Hq]%elem_of_cons; [by apply (Hp1 p)|by apply O3].
  - intros b Hb. apply W3. assert (b = a ∨ b ∈ (p1 ++ p2).*1) as [->|Hb'] by (rewrite fmap_app; set_solver); auto.
  - destruct H7 as [?|H7]; [by left|right]. rewrite fmap_app in H7. set_solver.
  - rewrite H8, !length_app. cbn. lia.
Qed.

Lemma linked_keeps m v p1 p2 a x hl h w :
  with_node v a p1 p2 w h → touches (list_link a :: mmap_list m :: map list_link (p1 ++ p2).*1) (v_links w) hl →
  keeps m (a :: (p1 ++ p2).*1) v w (set_map_count (map_count v + 1) v) (linked_world m v a x hl h w).
Proof.
  intros [W1 W2 W3] [_ Hl]. split; cbn; try done.
  - by intros m' Hm; rewrite lookup_insert_ne.
  - intros b Hb _. rewrite lookup_insert_ne; [done|]. intros <-. set_solver.
  - intros l Hm Hb _. apply Hl. change (list_link a :: map list_link (p1 ++ p2).*1)
      with (map list_link (a :: (p1 ++ p2).*1)) in *. cbn in Hb. rewrite !not_elem_of_cons in *. tauto.
  - intros n Hn Ht _. by apply W2.
  - intros n Hn. by left.
Qed.

Lemma wp_insert_link {A} m v p1 p2 a x w h (K : Mm_struct → Z → M (vworld E) A) (Q : A → vworld E → Prop) :
  mm_rep m v (p1 ++ p2) w → loose v a x w → a ∉ (p1 ++ p2).*1 → area_ok x →
  (∀ p, p ∈ p1 → vm_end p.2 ≤ vm_start x) → (∀ p, p ∈ p2 → vm_end x ≤ vm_start p.2) →
  with_node v a p1 p2 w h → zlen (p1 ++ p2) < 2 ^ 31 - 1 →
  (∀ hl, let v2 := set_map_count (map_count v + 1) v in let w2 := linked_world m v a x hl h w in
     mm_rep m v2 (p1 ++ (a, set_vm_mm m x) :: p2) w2 → keeps m (a :: (p1 ++ p2).*1) v w v2 w2 →
     hl !! free_list = v_links w !! free_list →
     wp (K v (map_count v + 1)) w2 Q) →
  wp (upd_vma a (set_vm_mm m);;
      on_links (list_add_after (default (mmap_list m) (last (map list_link p1.*1))) (list_link a));;
      mm ← get_mm m;
      n ← of_outcome (signed 32 (map_count mm + 1));
      upd_mm m (set_map_count n);;
      K mm n) (set_nodes h w) Q.
Proof.
  intros Hr Hlo Hni Hax Hp1 Hp2 Hw Hlen HK. pose proof Hr as [H1 H2 H3 H4 H5 H6 H7 H8].
  apply wp_bind. eapply wp_upd_vma; [apply Hlo|]. apply wp_bind, wp_vm_links.
  rewrite fmap_app, map_app in H2. eapply wp_list_add_after; [exact H2| |apply elem_of_dom, Hlo|].
  { rewrite not_elem_of_cons. split; [apply link_ne_head|]. rewrite <- map_app, <- fmap_app. by rewrite link_in. }
  intros hl Hl Ht. apply wp_bind. eapply wp_get_mm; [exact H1|]. apply wp_bind, wp_signed.
  { rewrite H8. lia. }
  apply wp_bind. eapply wp_upd_mm; [exact H1|]. apply (HK hl).
  - by apply linked_rep.
  - apply linked_keeps; [done|]. by rewrite fmap_app, map_app.
  - destruct Ht as [_ Ht]. apply Ht. rewrite <- map_app, !not_elem_of_cons. split_and!.
    + apply not_eq_sym, link_ne_free.
    + apply not_eq_sym, head_ne_free.
    + intros (b & E1 & _)%list_elem_of_fmap. by apply (link_ne_free b).
Qed.

(** *** The tree comes when there are many areas *)

Lemma wp_fill_tree m ps w t tr (Q : unit → vworld E → Prop) :
  is_list (v_links w) (mmap_list m) (map list_link ps.*1) → stored ps w → ordered ps →
  (∀ a, a ∈ ps.*1 → is_Some (rm_nodes (v_mem w) !! a) ∧ a ∉ [rb_nil tr; rb_root tr]) →
  rm_trees (v_mem w) !! t = Some tr → rb_rep tr (rm_nodes (v_mem w)) [] →
  (∀ h, rb_rep tr h ps.*1 →
     (∀ n, n ∉ rb_nil tr :: rb_root tr :: ps.*1 → h !! n = rm_nodes (v_mem w) !! n) →
     (∀ n, is_Some (rm_nodes (v_mem w) !! n) → is_Some (h !! n)) → Q tt (set_nodes h w)) →
  wp (for_each_vma (A := Empty_set) list_next (mmap_list m)
    (λ _ le, insert_vma_rb t (le2vma le) false;; mret (inl tt)) tt;; mret tt) w Q.
Proof.
  intros Hl Hst Ho Hn Ht Hrep HQ. apply wp_bind. unfold for_each_vma.
  pose proof (rep_nodup_list _ _ _ Hl) as Hnd.
  eapply (wp_for_each_state v_links _ _ (mmap_list m) (map list_link ps.*1) _
    (λ l1 _ w', ∃ k1 k2 h, ps = k1 ++ k2 ∧ l1 = map list_link k1.*1 ∧ w' = set_nodes h w ∧ rb_rep tr h k1.*1 ∧
      (∀ n, n ∉ rb_nil tr :: rb_root tr :: ps.*1 → h !! n = rm_nodes (v_mem w) !! n) ∧
      (∀ n, is_Some (rm_nodes (v_mem w) !! n) → is_Some (h !! n)))).
  - by intros l1 _ w' (k1 & k2 & h & _ & _ & -> & _).
  - intros w' a b Hab. apply wp_result, wp_vm_links. eapply wp_list_next; [exact Hab|]. by rewrite set_links_id.
  - rewrite wp_gets. split; [done|]. pose proof (is_list_size _ _ _ Hl). lia.
  - intros l1 e l2 [] w' El (k1 & k2 & h & -> & -> & -> & Hk & Hf & Hg). rewrite fmap_app, map_app in El.
    apply app_inv_head in El. destruct k2 as [|[a x] k2]; [done|]. injection El as <- _. rewrite le2vma_link.
    destruct (Hst a x ltac:(set_solver)) as [Ha Hax]. destruct (Hn a ltac:(set_solver)) as [Hna Hnt].
    pose proof Ho as (Ho1 & _ & H12)%ordered_app. apply wp_bind.
    eapply (wp_insert_vma_rb t tr k1 [] a x (set_nodes h w) false); rewrite ?app_nil_r; try done.
    + intros b y Hb. apply Hst. set_solver.
    + by apply Hg.
    + rewrite fmap_app in Hnd. apply NoDup_app in Hnd as (_ & Hnd & _). intros Hin. by apply (Hnd a Hin); left.
    + intros p Hp. pose proof (H12 p (a, x) Hp ltac:(set_solver)).
      destruct p as [b y]. destruct (Hst b y ltac:(set_solver)) as [_ [? _ _ _ _ _]]. cbn in *. lia.
    + set_solver.
    + intros h' Hrep' Hf' Hg'. rewrite wp_ret. exists (k1 ++ [(a, x)]), k2, h'.
      rewrite <- app_assoc, fmap_app, map_app. split_and!; [done..| |].
      * intros n Hn'. rewrite Hf'; [by apply Hf|]. rewrite fmap_app in Hn'. set_solver.
      * intros n Hs. by apply Hg', Hg.
  - intros [] w' (k1 & k2 & h & Ek & El & -> & Hk & Hf & Hg). rewrite wp_ret. apply (f_equal length) in El.
    rewrite !length_map, Ek, length_app in El. destruct k2; [|cbn in El; lia]. rewrite app_nil_r in Ek. subst k1.
    by apply HQ.
  - exists [], ps, (rm_nodes (v_mem w)). rewrite set_nodes_id. done.
Qed.

(** The state with a tree of all areas. *)
Definition treed_world m v t w mem h : vworld E := set_nodes h (set_mms (<[m := set_tree t v]> (v_mms w)) (set_mem mem w)).

Lemma treed_ok m v ps w t cmp mem tr h :
  mm_rep m v ps w → mmap_tree v = 0 → t ≠ 0 → empty_tree cmp t (v_mem w) mem → rm_trees mem !! t = Some tr →
  rb_rep tr h ps.*1 → (∀ n, n ∉ rb_nil tr :: rb_root tr :: ps.*1 → h !! n = rm_nodes mem !! n) →
  (∀ n, is_Some (rm_nodes mem !! n) → is_Some (h !! n)) →
  mm_rep m (set_tree t v) ps (treed_world m v t w mem h) ∧
  keeps m ps.*1 v w (set_tree t v) (treed_world m v t w mem h).
Proof.
  intros [H1 H2 H3 H4 H5 H6 H7 H8] H0 Ht (Hft & nil & root & Fn & Fr & Etr & _ & Hsub) Htr Hrep Hf Hg.
  rewrite Etr, lookup_insert_eq in Htr. injection Htr as <-. cbn in Hf.
  assert (∀ n, is_Some (rm_nodes (v_mem w) !! n) → is_Some (rm_nodes mem !! n)) as Hsub'
    by (intros n [y Hy]; eexists; by eapply lookup_weaken).
  split; split; cbn; try done.
  - apply lookup_insert_eq.
  - intros a Ha. by apply Hg, Hsub', H5.
  - right. eexists. split; [|exact Hrep]. cbn. by rewrite Etr, lookup_insert_eq.
  - intros m' Hm. by rewrite lookup_insert_ne.
  - intros n Hn _ [y Hy]. rewrite Hf; [by rewrite Hy; eapply lookup_weaken|].
    rewrite !not_elem_of_cons. split_and!; [congruence..|done].
  - intros t' [y Hy]. rewrite Etr, lookup_insert_ne; [done|congruence].
  - intros n. unfold tree_nodes. cbn. rewrite (proj2 (Z.eqb_neq _ _) Ht), Etr, lookup_insert_eq. cbn.
    intros [->|[->|?%elem_of_nil]%elem_of_cons]%elem_of_cons; [by right; right..|done].
Qed.

Lemma wp_grow_tree m v ps w n (Q : unit → vworld E → Prop) :
  mm_rep m v ps w → (mmap_tree v = 0 → ∀ a, a ∈ ps.*1 → is_Some (rm_nodes (v_mem w) !! a)) →
  (∀ v' w', mm_rep m v' ps w' → keeps m ps.*1 v w v' w' → mmap_cache v' = mmap_cache v →
     v_shm w' = v_shm w → v_env w' = v_env w → v_links w' = v_links w → Q tt w') →
  wp (if (mmap_tree v =? 0) && (RB_MIN_MAP_COUNT <=? n) then
    vmas ← gets v_vmas;
    t ← on_mem (rb_tree_create (vma_compare vmas));
    upd_mm m (set_tree t);;
    if negb (t =? 0) then
      for_each_vma (A := Empty_set) list_next (mmap_list m)
        (λ _ le, insert_vma_rb t (le2vma le) false;; mret (inl tt)) tt;;
      mret tt
    else mret tt
  else mret tt) w Q.
Proof.
  intros Hr Hn HQ. destruct (Z.eqb_spec (mmap_tree v) 0) as [E0|E0]; cbn [andb].
  2:{ rewrite wp_ret. apply (HQ v); try done. by apply keeps_refl. }
  destruct (RB_MIN_MAP_COUNT <=? n); [|rewrite wp_ret; apply (HQ v); try done; by apply keeps_refl].
  rewrite wp_bind, wp_gets. apply wp_bind, wp_zoom. apply wp_rb_tree_create; [exact vo_nodes| |].
  - apply wp_bind. eapply wp_upd_mm; [apply Hr|]. change (negb (0 =? 0)) with false. rewrite wp_ret.
    assert (set_tree 0 v = v) as E1 by (by destruct v; cbn in E0; rewrite E0).
    cbn [v_mms set_mem]. rewrite E1, insert_id by apply Hr. apply (HQ v); try done.
    + by destruct w.
    + destruct w. by apply keeps_refl.
  - intros t mem Ht He. apply wp_bind. eapply wp_upd_mm; [apply Hr|]. rewrite (proj2 (Z.eqb_neq _ _) Ht). cbn [negb v_mms set_mem].
    pose proof He as (Hft & nil & root & Fn & Fr & Etr & Hrep & Hsub).
    assert (rm_trees mem !! t = Some (mk_tree (vma_compare (v_vmas w)) nil root)) as Htr by by rewrite Etr, lookup_insert_eq.
    eapply (wp_fill_tree m ps _ t _); [apply Hr|exact (rep_stored _ _ _ _ Hr)|apply Hr| |exact Htr|exact Hrep|].
    + intros a Ha. destruct (mr_nodes _ _ _ _ Hr a Ha) as [y Hy]. split.
      * eexists. cbn. by eapply lookup_weaken.
      * cbn. rewrite !not_elem_of_cons. split_and!; [congruence..|set_solver].
    + intros h Hrep' Hf Hg.
      destruct (treed_ok m v ps w t _ mem _ h Hr E0 Ht He Htr Hrep' Hf Hg) as [R K].
      by apply (HQ (set_tree t v) (treed_world m v t w mem h)).
Qed.

Lemma wp_insert_vma m v p1 p2 a x w (Q : unit → vworld E → Prop) :
  mm_rep m v (p1 ++ p2) w → loose v a x w → a ∉ (p1 ++ p2).*1 → area_ok x →
  (∀ p, p ∈ p1 → vm_end p.2 ≤ vm_start x) → (∀ p, p ∈ p2 → vm_end x ≤ vm_start p.2) →
  zlen (p1 ++ p2) < 2 ^ 31 - 1 →
  (∀ v' w', mm_rep m v' (p1 ++ (a, set_vm_mm m x) :: p2) w' → keeps m (a :: (p1 ++ p2).*1) v w v' w' →
     mmap_cache v' = mmap_cache v → v_shm w' = v_shm w → v_env w' = v_env w →
     v_links w' !! free_list = v_links w !! free_list → Q tt w') →
  wp (insert_vma_struct m a) w Q.
Proof.
  intros Hr Hlo Hni Hax Hp1 Hp2 Hlen HQ. pose proof (rep_stored _ _ _ _ Hr) as Hst. pose proof (ao_range _ Hax) as Hrg.
  unfold insert_vma_struct. apply wp_bind. eapply wp_get_vma; [apply Hlo|]. rewrite wp_bind, wp_assert.
  split; [apply Z.ltb_lt; lia|]. apply wp_bind. eapply wp_get_mm; [apply Hr|]. apply wp_bind.
  eapply wp_insert_place; [exact Hr|exact Hlo|exact Hni| | |].
  { intros [b y] Hp. destruct (Hst b y ltac:(set_solver)) as [_ [? _ _ _ _ _]]. specialize (Hp1 _ Hp). cbn in *. lia. }
  { intros p Hp. specialize (Hp2 p Hp). lia. }
  intros h Hw. apply wp_bind, wp_vm_links.
  assert (nxt (v_links w) (default (mmap_list m) (last (map list_link p1.*1))) =
    Some (default (mmap_list m) (head (map list_link p2.*1)))) as Hnx.
  { pose proof (mr_list _ _ _ _ Hr) as [_ Hs]. rewrite fmap_app, map_app in Hs. by apply lseg_next_at in Hs. }
  eapply wp_list_next; [exact Hnx|]. rewrite set_links_id.
  eapply wp_insert_checks; [done|apply Hlo|done..|].
  eapply wp_insert_link; [exact Hr|exact Hlo|done..|]. cbv zeta. intros hl Hr2 K2 Hfl.
  refine (wp_grow_tree m _ _ _ (map_count v + 1) Q Hr2 _ _); [intros _; apply Hr2|].
  intros v' w' Hr3 K3 Hc Hs He Hl. apply (HQ v' w'); [done| |by rewrite Hc|by rewrite Hs|by rewrite He|by rewrite Hl].
  eapply keeps_trans; [exact K2|exact K3|]. intros b Hb. left. rewrite !fmap_app in Hb |- *. set_solver.
Qed.

(** ** Removal *)

Lemma wp_remove_node m v p1 p2 a x w (Q : unit → vworld E → Prop) :
  mm_rep m v (p1 ++ (a, x) :: p2) w →
  (∀ h, in_tree (mmap_tree v) (p1 ++ p2).*1 (set_nodes h w) →
     (∀ n, n ∉ (p1 ++ (a, x) :: p2).*1 → n ∉ tree_nodes w v → h !! n = rm_nodes (v_mem w) !! n) →
     (∀ n, is_Some (rm_nodes (v_mem w) !! n) → is_Some (h !! n)) → a ∉ tree_nodes w v → Q tt (set_nodes h w)) →
  wp (if negb (mmap_tree v =? 0) then t ← vma_tree (mmap_tree v); on_rb (rb_delete t (rb_link a)) else mret tt) w Q.
Proof.
  intros Hr HQ. destruct (Z.eqb_spec (mmap_tree v) 0) as [E0|E0]; cbn [negb].
  - rewrite wp_ret. specialize (HQ (rm_nodes (v_mem w))). rewrite set_nodes_id in HQ. apply HQ; try done; [by left|].
    unfold tree_nodes. rewrite E0. cbn. set_solver.
  - destruct (mr_tree _ _ _ _ Hr) as [?|(tr & Ht & Hrep)]; [done|]. apply wp_bind.
    eapply wp_vma_tree; [exact Ht|]. apply wp_vm_rb. unfold rb_link.
    destruct (rb_delete_ok (cur_tree w tr) (rm_nodes (v_mem w)) (p1 ++ (a, x) :: p2).*1 a)
      as (h & l1 & l2 & Hrun & El & Hrep' & Hf); [by apply rep_any|rewrite fmap_app; set_solver|].
    eapply wp_of_run; [exact Hrun|]. pose proof (mm_rep_nodup _ _ _ _ Hr) as Hnd. rewrite fmap_app in Hnd, El.
    cbn [fmap list_fmap fst] in Hnd, El. destruct (nodup_split a _ _ l1 l2 Hnd El) as [<- <-].
    rewrite (tree_nodes_at _ _ tr) in HQ by done. apply HQ.
    + right. exists tr. split; [done|]. apply rep_any in Hrep'. by rewrite fmap_app.
    + intros n Hn Hnt. apply Hf. cbn. rewrite !not_elem_of_cons in Hnt |- *. tauto.
    + by eapply delete_grows.
    + destruct (rep_real tr _ _ a Hrep) as [? ?]; [rewrite fmap_app; set_solver|]. set_solver.
Qed.

Definition unlisted v a : Mm_struct :=
  set_map_count (map_count v - 1) (if a =? mmap_cache v then set_cache 0 v else v).
#[local] Arguments unlisted : simpl never.

Lemma unlinked_ok m v p1 p2 a x hl h w :
  mm_rep m v (p1 ++ (a, x) :: p2) w → in_tree (mmap_tree v) (p1 ++ p2).*1 (set_nodes h w) →
  (∀ n, n ∉ (p1 ++ (a, x) :: p2).*1 → n ∉ tree_nodes w v → h !! n = rm_nodes (v_mem w) !! n) →
  (∀ n, is_Some (rm_nodes (v_mem w) !! n) → is_Some (h !! n)) → a ∉ tree_nodes w v →
  is_list hl (mmap_list m) (map list_link (p1 ++ p2).*1) →
  touches (mmap_list m :: map list_link (p1 ++ p2).*1) (v_links w) hl →
  let w' := set_mms (<[m := unlisted v a]> (v_mms w)) (set_links hl (set_nodes h w)) in
  mm_rep m (unlisted v a) (p1 ++ p2) w' ∧ keeps m (p1 ++ (a, x) :: p2).*1 v w (unlisted v a) w' ∧
  loose (unlisted v a) a x w'.
Proof.
  intros Hr Ht Hf Hg Hat Hl [Hld Hlt] w'. pose proof (mm_rep_nodup _ _ _ _ Hr) as Hnd. pose proof Hr as [H1 H2 H3 H4 H5 H6 H7 H8].
  assert (mmap_tree (unlisted v a) = mmap_tree v) as Etr by (unfold unlisted; by destruct (_ =? _)).
  assert (∀ b, b ∈ (p1 ++ p2).*1 → b ∈ (p1 ++ (a, x) :: p2).*1 ∧ b ≠ a) as Hsub.
  { intros b Hb. rewrite fmap_app in Hb, Hnd |- *. cbn in *. split; [set_solver|]. intros ->.
    apply NoDup_app in Hnd as (_ & Hd & Hn2). apply NoDup_cons in Hn2 as [Hn2 _].
    apply elem_of_app in Hb as [Hb|Hb]; [|done]. by apply (Hd a Hb); left. }
  assert (listing v (unlisted v a)) as Hlist by (unfold unlisted, listing; destruct v; by case_match).
  split; [|split].
  - split; cbn; try done.
    + apply lookup_insert_eq.
    + intros b y Hb. apply H3. set_solver.
    + apply ordered_app in H4 as (O1 & O2 & O3). apply ordered_cons in O2 as [O2 _]. apply ordered_app.
      split_and!; [done..|]. intros p q Hp Hq. apply O3; [done|by right].
    + intros b Hb. apply Hg, H5. by apply Hsub.
    + unfold in_tree in *. by rewrite Etr.
    + unfold unlisted. destruct (Z.eqb_spec a (mmap_cache v)) as [->|Hne]; cbn; [by left|].
      destruct H7 as [?|Hc]; [by left|right]. rewrite fmap_app in Hc |- *. cbn in Hc. set_solver.
    + change (map_count (unlisted v a)) with (map_count v - 1). rewrite H8, !length_app. cbn. lia.
  - split; cbn; try done.
    + intros m' Hm. by rewrite lookup_insert_ne.
    + intros l Hlm Hlo _. apply Hlt. rewrite not_elem_of_cons. split; [done|].
      intros (b & -> & Hb)%list_elem_of_fmap. by apply Hlo, list_elem_of_fmap_2, Hsub.
    + intros n Hn Hnt _. by apply Hf.
    + intros n Hn. left. unfold tree_nodes in *. cbn in Hn. by rewrite Etr in Hn.
  - destruct (H3 a x ltac:(set_solver)) as (Hx & Ha & _). split; cbn; try done.
    + rewrite Hlt.
      * apply elem_of_dom. destruct H2 as [_ Hs]. eapply lseg_dom; [exact Hs|]. rewrite fmap_app, map_app. set_solver.
      * rewrite not_elem_of_cons. split; [apply link_ne_head|]. rewrite link_in. intros Hb. by destruct (Hsub a Hb).
    + apply Hg, H5. rewrite fmap_app. set_solver.
    + intros Hn. apply Hat. unfold tree_nodes in *. cbn in Hn. by rewrite Etr in Hn.
Qed.

Lemma wp_remove_vma m v p1 p2 a x w (Q : Z → vworld E → Prop) :
  mm_rep m v (p1 ++ (a, x) :: p2) w → zlen (p1 ++ (a, x) :: p2) < 2 ^ 31 →
  (∀ v' w', mm_rep m v' (p1 ++ p2) w' → keeps m (p1 ++ (a, x) :: p2).*1 v w v' w' → loose v' a x w' →
     v_vmas w' = v_vmas w → v_shm w' = v_shm w → v_env w' = v_env w → v_links w' !! free_list = v_links w !! free_list → Q 0 w') →
  wp (remove_vma_struct m a) w Q.
Proof.
  intros Hr Hlen HQ. pose proof Hr as [H1 H2 H3 _ _ _ _ H8]. destruct (H3 a x ltac:(set_solver)) as (Hx & Ha & Hm & _).
  unfold remove_vma_struct. apply wp_bind. eapply wp_get_vma; [exact Hx|]. rewrite wp_bind, wp_assert, Hm, Z.eqb_refl.
  split; [done|]. apply wp_bind. eapply wp_get_mm; [exact H1|]. apply wp_bind. eapply wp_remove_node; [exact Hr|].
  intros h Ht Hf Hg Hat. apply wp_bind, wp_vm_links. rewrite fmap_app, map_app in H2. cbn [fmap list_fmap fst map] in H2.
  eapply wp_list_del; [exact H2|]. intros hl Hl Hlt. rewrite <- map_app, <- fmap_app in Hl, Hlt.
  destruct (unlinked_ok m v p1 p2 a x hl h w Hr Ht Hf Hg Hat Hl Hlt) as (R & K & L).
  assert (hl !! free_list = v_links w !! free_list) as Hfl.
  { destruct Hlt as [_ Hlt]. apply Hlt. rewrite not_elem_of_cons. split; [apply not_eq_sym, head_ne_free|].
    intros (b & E1 & _)%list_elem_of_fmap. by apply (link_ne_free b). }
  assert (∀ w1, wp (n ← of_outcome (signed 32 (map_count v - 1)); upd_mm m (set_map_count n);; mret 0) w1 Q ↔
    wp (upd_mm m (set_map_count (map_count v - 1));; mret 0) w1 Q) as Hn.
  { intros w1. rewrite wp_bind. unfold of_outcome, signed. rewrite (proj2 (Z.leb_le _ _)), (proj2 (Z.ltb_lt _ _)); [done|..];
      rewrite H8; lia. }
  apply wp_bind. unfold unlisted in R, K, L. destruct (Z.eqb_spec a (mmap_cache v)) as [Ec|Ec].
  - eapply wp_upd_mm; [exact H1|]. apply Hn, wp_bind. eapply wp_upd_mm; [apply lookup_insert_eq|].
    rewrite wp_ret. cbn [v_mms set_mms]. rewrite insert_insert_eq. by eapply HQ.
  - rewrite wp_ret. apply Hn, wp_bind. eapply wp_upd_mm; [exact H1|]. rewrite wp_ret. by eapply HQ.
Qed.
End insert.

(** * Address spaces: what is mapped where, [mm_map] and [vma_resize] *)

(** ** The contents of an address space *)

(** What is mapped at an address: the flags and, of shared memory, the place in it. *)
Definition mapping (x : Vma_struct) (va : Z) : Z * option (Z * Z) :=
  (vm_flags x, if flag (vm_flags x) VM_SHARE then Some (shmem x, u64 (shmem_off x + (va - vm_start x))) else None).

Definition covers (x : Vma_struct) (va : Z) : Prop := vm_start x ≤ va < vm_end x.
#[export] Instance covers_dec x va : Decision (covers x va).
Proof. unfold covers. apply _. Defined.

Fixpoint at_addr (xs : list Vma_struct) (va : Z) : option (Z * option (Z * Z)) :=
  match xs with
  | [] => None
  | x :: xs' => if decide (covers x va) then Some (mapping x va) else at_addr xs' va
  end.

Lemma at_addr_app xs ys va :
  at_addr (xs ++ ys) va = match at_addr xs va with Some r => Some r | None => at_addr ys va end.
Proof. induction xs as [|x xs IH]; [done|]. cbn. by case_decide. Qed.

Lemma at_addr_none xs va : (∀ x, x ∈ xs → ¬ covers x va) → at_addr xs va = None.
Proof.
  induction xs as [|x xs IH]; intros H; [done|]. cbn. rewrite decide_False by (apply H; set_solver).
  apply IH. set_solver.
Qed.

Lemma at_addr_some xs va r : at_addr xs va = Some r → ∃ x, x ∈ xs ∧ covers x va ∧ r = mapping x va.
Proof.
  induction xs as [|x xs IH]; [done|]. cbn. case_decide.
  - intros [= <-]. exists x. split; [by left|done].
  - intros (y & Hy & ?)%IH. exists y. split; [by right|done].
Qed.

(** Some area of the space is in the range. *)
Definition overlaps (s e : Z) (xs : list Vma_struct) : bool :=
  existsb (λ x, (vm_start x <? e) && (s <? vm_end x)) xs.

Lemma overlaps_true s e xs : overlaps s e xs = true ↔ ∃ x, x ∈ xs ∧ vm_start x < e ∧ s < vm_end x.
Proof.
  unfold overlaps. rewrite existsb_exists. split.
  - intros (x & Hx & [H1%Z.ltb_lt H2%Z.ltb_lt]%andb_prop). exists x. by rewrite list_elem_of_In.
  - intros (x & Hx & H1 & H2). exists x. rewrite <- list_elem_of_In. split; [done|].
    by rewrite (proj2 (Z.ltb_lt _ _)), (proj2 (Z.ltb_lt _ _)).
Qed.

(** An area with a part of its range: of shared memory, further on. *)
Definition resize (s e : Z) (x : Vma_struct) : Vma_struct :=
  set_range s e (if flag (vm_flags x) VM_SHARE
    then set_shmem (shmem x) (u64 (shmem_off x + u64 (s - vm_start x))) x else x).

Lemma mapping_resize s e x va : mapping (resize s e x) va = mapping x va.
Proof.
  unfold mapping, resize. destruct (flag (vm_flags x) VM_SHARE) eqn:Ef; cbn; rewrite Ef; [|done].
  do 3 f_equal. rewrite wrap_add_l. replace (shmem_off x + u64 (s - vm_start x) + (va - s))
    with (u64 (s - vm_start x) + (shmem_off x + (va - s))) by lia.
  rewrite wrap_add_l. f_equal. lia.
Qed.

Lemma resize_id x : area_ok x → resize (vm_start x) (vm_end x) x = x.
Proof.
  intros [_ _ _ _ Ho _]. unfold resize. destruct x as [m s e f h o]. cbn in *. rewrite Z.sub_diag.
  destruct (flag f VM_SHARE); [|done]. unfold set_range, set_shmem. cbn. by rewrite Z.add_0_r, wrap_small.
Qed.

Lemma resize_ok s e x : area_ok x → vm_start x ≤ s < e → e ≤ vm_end x →
  s mod PGSIZE = 0 → e mod PGSIZE = 0 → area_ok (resize s e x).
Proof.
  intros [H1 H2 H3 H4 H5 H6] Hs He Ms Me. unfold resize. destruct (flag (vm_flags x) VM_SHARE) eqn:Ef; split; cbn; try done; try lia.
  - apply wrap_range. lia.
  - by rewrite Ef.
Qed.

(** What is left of an area when a range is taken out. *)
Definition cut_area (s e : Z) (x : Vma_struct) : list Vma_struct :=
  (if vm_start x <? s then [resize (vm_start x) (s `min` vm_end x) x] else []) ++
  (if e <? vm_end x then [resize (e `max` vm_start x) (vm_end x) x] else []).
Definition cut (s e : Z) (xs : list Vma_struct) : list Vma_struct := xs ≫= cut_area s e.

Lemma cut_area_before s e x : area_ok x → s < e → vm_end x ≤ s → cut_area s e x = [x].
Proof.
  intros Ha Hse H. pose proof (ao_range _ Ha). unfold cut_area. rewrite (proj2 (Z.ltb_lt _ _)), (proj2 (Z.ltb_ge _ _)) by lia.
  rewrite Z.min_r, resize_id by done. done.
Qed.
Lemma cut_area_after s e x : area_ok x → s < e → e ≤ vm_start x → cut_area s e x = [x].
Proof.
  intros Ha Hse H. pose proof (ao_range _ Ha). unfold cut_area.
  rewrite (proj2 (Z.ltb_ge (vm_start x) s)), (proj2 (Z.ltb_lt e _)) by lia.
  rewrite Z.max_r, resize_id by done. done.
Qed.

Lemma cut_same s e xs : s < e → (∀ x, x ∈ xs → area_ok x ∧ (vm_end x ≤ s ∨ e ≤ vm_start x)) → cut s e xs = xs.
Proof.
  intros Hse. induction xs as [|x xs IH]; intros H; [done|]. unfold cut in *. rewrite bind_cons, IH by set_solver.
  destruct (H x ltac:(set_solver)) as [Ha [Hx|Hx]]; [by rewrite cut_area_before|by rewrite cut_area_after].
Qed.

Lemma at_cut_area s e x va : s < e → area_ok x →
  at_addr (cut_area s e x) va = if decide (s ≤ va < e) then None else at_addr [x] va.
Proof.
  intros Hse Ha. pose proof (ao_range _ Ha). unfold cut_area. rewrite at_addr_app. cbn [at_addr].
  destruct (Z.ltb_spec (vm_start x) s), (Z.ltb_spec e (vm_end x)); cbn [at_addr];
    repeat case_decide; rewrite ?mapping_resize; try done; unfold covers, resize in *;
    repeat match goal with H : context [if flag ?a ?b then _ else _] |- _ => destruct (flag a b) end; cbn in *; lia.
Qed.

Lemma at_cut s e xs va : s < e → (∀ x, x ∈ xs → area_ok x) →
  at_addr (cut s e xs) va = if decide (s ≤ va < e) then None else at_addr xs va.
Proof.
  intros Hse. induction xs as [|x xs IH]; intros H; [by case_decide|]. unfold cut in *.
  rewrite bind_cons, at_addr_app, IH, at_cut_area by set_solver. cbn. by repeat case_decide.
Qed.

(** ** [mm_map] *)

Section map.
Context `{VO : VmEnvOk E}.
Implicit Type w : vworld E.
Abbreviation area := (Z * Vma_struct)%type.

Lemma rep_ok m v ps w p : mm_rep m v ps w → p ∈ ps → area_ok p.2.
Proof. destruct p as [a x]. intros Hr Hp. by apply (mr_vmas _ _ _ _ Hr) in Hp as (_ & _ & _ & ?). Qed.

(** Where a range would go: an area of it is in the way, or it is between two. *)
Lemma first_end_place m v s e ps w : mm_rep m v ps w → s < e →
  (overlaps s e ps.*2 = true ∧ ∃ p1 a x p2, ps = p1 ++ (a, x) :: p2 ∧ first_end s ps = Some a ∧
     s < vm_end x ∧ vm_start x < e ∧ ∀ p, p ∈ p1 → vm_end p.2 ≤ s) ∨
  (overlaps s e ps.*2 = false ∧ ∃ p1 p2, ps = p1 ++ p2 ∧ first_end s ps = fst <$> head p2 ∧
     (∀ p, p ∈ p1 → vm_end p.2 ≤ s) ∧ (∀ p, p ∈ p2 → e ≤ vm_start p.2)).
Proof.
  intros Hr Hse. pose proof (mr_order _ _ _ _ Hr) as Ho.
  assert (∀ p1 p2, ps = p1 ++ p2 → (∀ p, p ∈ p1 → vm_end p.2 ≤ s) → (∀ p, p ∈ p2 → e ≤ vm_start p.2) →
    overlaps s e ps.*2 = false) as Hfree.
  { intros p1 p2 -> H1 H2. apply not_true_iff_false. intros (x & (p & -> & Hp)%list_elem_of_fmap & Hx)%overlaps_true.
    apply elem_of_app in Hp as [Hp|Hp]; [specialize (H1 p Hp)|specialize (H2 p Hp)]; lia. }
  destruct (first_end_split s ps) as [[E1 Hn]|(p1 & a & x & p2 & E1 & E2 & Hx & Hp1)].
  - right. split; [apply (Hfree ps []); [by rewrite app_nil_r|done|set_solver]|].
    exists ps, []. rewrite app_nil_r. split_and!; [done..|set_solver].
  - destruct (Z.lt_ge_cases (vm_start x) e) as [Hlt|Hge]; [left|right].
    + split; [|by exists p1, a, x, p2]. apply overlaps_true. exists x. split_and!; [|done..].
      rewrite E1, fmap_app. apply elem_of_app. right. by left.
    + assert (∀ p, p ∈ (a, x) :: p2 → e ≤ vm_start p.2) as H2.
      { rewrite E1 in Ho. apply ordered_app in Ho as (_ & Ho & _). apply ordered_cons in Ho as [_ Ho].
        pose proof (ao_range _ (rep_ok _ _ _ _ (a, x) Hr ltac:(set_solver))) as Hax. cbn in Hax.
        intros p [->|Hp]%elem_of_cons; [done|]. specialize (Ho p Hp). cbn in Ho. lia. }
      split; [by eapply Hfree|]. by exists p1, ((a, x) :: p2).
Qed.

Lemma keeps_cached m own v w r : keeps m own v w (cached_mm v r) (cached m v r w).
Proof.
  destruct r as [a|]; [|apply keeps_refl]. split; cbn; try done.
  - by intros m' Hm; rewrite lookup_insert_ne.
  - intros n Hn. by left.
Qed.

(** The range of a request, rounded to pages. *)
Lemma request_range addr len : 0 ≤ addr → 0 < len → addr + len ≤ 2 ^ 64 - PGSIZE →
  let s := PGROUNDDOWN addr in let e := PGROUNDUP (u64 (addr + len)) in
  0 ≤ s ≤ addr ∧ addr + len ≤ e < addr + len + PGSIZE ∧ s mod PGSIZE = 0 ∧ e mod PGSIZE = 0.
Proof.
  intros Ha Hl Ht. unfold PGSIZE in Ht. rewrite wrap_small by lia.
  pose proof (round_down_spec addr ltac:(lia)). pose proof (round_up_spec (addr + len) ltac:(unfold PGSIZE; lia)).
  cbv zeta. lia.
Qed.

Definition new_area (m s e flags : Z) : Vma_struct := mk_vma m s e flags 0 0.

Lemma wp_mm_map m v ps addr len flags w (Q : Z * Z → vworld E → Prop) :
  let s := PGROUNDDOWN addr in let e := PGROUNDUP (u64 (addr + len)) in
  mm_rep m v ps w → m ≠ 0 → 0 ≤ addr → 0 < len → addr + len ≤ 2 ^ 64 - PGSIZE →
  zlen ps < 2 ^ 31 - 1 →
  (∀ r v' w', mm_rep m v' ps w' → keeps m ps.*1 v w v' w' → v_shm w' = v_shm w → v_env w' = v_env w →
     v_links w' !! free_list = v_links w !! free_list →
     (overlaps s e ps.*2 = true ∧ r = - E_INVAL ∨ overlaps s e ps.*2 = false ∧ no_vma_left ∧ r = - E_NO_MEM) →
     Q (r, 0) w') →
  (∀ p1 p2 a v' w', overlaps s e ps.*2 = false → ps = p1 ++ p2 → a ≠ 0 → unused a w →
     mm_rep m v' (p1 ++ (a, new_area m s e flags) :: p2) w' → keeps m (a :: ps.*1) v w v' w' →
     v_shm w' = v_shm w → v_env w' = v_env w → v_links w' !! free_list = v_links w !! free_list → Q (0, a) w') →
  wp (mm_map m addr len flags) w Q.
Proof.
  intros s e Hr Hm Ha Hl Ht Hlen HQ1 HQ2. destruct (request_range addr len Ha Hl Ht) as (Hs1 & He1 & Hsm & Hem).
  fold s e in Hs1, He1, Hsm, Hem. unfold mm_map. fold s e. rewrite wp_bind, wp_assert, (proj2 (Z.eqb_neq _ _) Hm).
  split; [done|]. apply wp_bind. eapply wp_find_vma; [exact Hr|done|].
  pose proof (rep_cached m v ps w s Hr) as Hrc. pose proof (keeps_cached m ps.*1 v w (first_end s ps)) as Kc.
  assert (v_shm (cached m v (first_end s ps) w) = v_shm w ∧ v_env (cached m v (first_end s ps) w) = v_env w ∧
    v_links (cached m v (first_end s ps) w) = v_links w) as (Es & Ee & El)
    by (by destruct (first_end s ps)).
  set (v1 := cached_mm v (first_end s ps)) in *. set (w1 := cached m v (first_end s ps) w) in *.
  destruct (first_end_place m v s e ps w Hr ltac:(lia)) as [(Ov & p1 & a & x & p2 & Ep & Ef & _ & Hx & _)|
    (Ov & p1 & p2 & Ep & Ef & Hp1 & Hp2)].
  - rewrite Ef. cbn [default from_option id]. destruct (mr_vmas _ _ _ _ Hrc a x ltac:(rewrite Ep; set_solver)) as (Hxa & Ha0 & _).
    apply wp_bind. rewrite (proj2 (Z.eqb_neq _ _) Ha0). apply wp_bind. eapply wp_get_vma; [exact Hxa|].
    rewrite wp_ret, (proj2 (Z.ltb_lt _ _)), wp_ret by lia. eapply HQ1; try done; [by rewrite El|by left].
  - assert (wp (overlap ← (if default 0 (first_end s ps) =? 0 then mret false
        else x ← get_vma (default 0 (first_end s ps)); mret (vm_start x <? e));
      if overlap : bool then mret (- E_INVAL, 0) else
      vma ← vma_create s e flags;
      if vma =? 0 then mret (- E_NO_MEM, 0) else insert_vma_struct m vma;; mret (0, vma)) w1 Q ↔
      wp (vma ← vma_create s e flags;
      if vma =? 0 then mret (- E_NO_MEM, 0) else insert_vma_struct m vma;; mret (0, vma)) w1 Q) as ->.
    { rewrite wp_bind, Ef. destruct p2 as [|[b y] p2]; cbn; [done|].
      destruct (mr_vmas _ _ _ _ Hrc b y ltac:(rewrite Ep; set_solver)) as (Hyb & Hb0 & _).
      rewrite (proj2 (Z.eqb_neq _ _) Hb0), wp_bind. pose proof (Hp2 (b, y) ltac:(set_solver)) as Hy. cbn in Hy.
      unfold get_vma. rewrite wp_bind, wp_gets, Hyb. cbn [of_option]. rewrite !wp_ret.
      by rewrite (proj2 (Z.ltb_ge _ _)). }
    apply wp_bind. eapply wp_vma_create; [exact Hrc|..].
    { intros Hno. rewrite Z.eqb_refl, wp_ret. eapply HQ1; try done; [by rewrite El|by right]. }
    intros a x w2 Ha0 Hun Hlo Hr2 K2 Es2 Ee2 Ef2. rewrite (proj2 (Z.eqb_neq _ _) Ha0). apply wp_bind.
    assert (unused a w) as Hun' by (unfold w1, cached in Hun; destruct (first_end s ps); done).
    assert (a ∉ ps.*1) as Hni.
    { intros (y & _ & Hy & _)%(rep_at _ _ _ _ _ Hr). destruct Hun' as [Hun' _]. congruence. }
    rewrite Ep in Hr2. eapply (wp_insert_vma m v1 p1 p2 a); [exact Hr2|exact Hlo|by rewrite <- Ep|..].
    + split; cbn; try done; lia.
    + exact Hp1.
    + exact Hp2.
    + by rewrite <- Ep.
    + intros v3 w3 Hr3 K3 _ Es3 Ee3 Ef3. rewrite wp_ret. eapply (HQ2 p1 p2 a); try done.
      * eapply keeps_trans; [|exact K3|].
        -- eapply keeps_trans; [apply (keeps_cached m _ v w (first_end s ps))|exact K2|set_solver].
        -- rewrite <- Ep. intros b Hb. by left.
      * by rewrite Es3, Es2.
      * by rewrite Ee3, Ee2.
      * by rewrite Ef3, Ef2, El.
Qed.
End map.
