(* ===== verification/VmmPull.v ===== *)
(** * Address spaces: areas taken out, put back and destroyed *)
From Stdlib Require Import Sorted.
From S2P Require Import Prelude Errors ListH Rbtree RbRep RbSpec RbDelete RbSearch Vmm VmmRep VmmOps VmmInsert.

(** ** Shared memory *)

(** The areas of [xs] on the shared memory [s]. *)
Fixpoint refs (s : Z) (xs : list Vma_struct) : Z :=
  match xs with
  | [] => 0
  | x :: xs' => (if flag (vm_flags x) VM_SHARE && (shmem x =? s) then 1 else 0) + refs s xs'
  end.

Lemma refs_app s xs ys : refs s (xs ++ ys) = refs s xs + refs s ys.
Proof. induction xs as [|x xs IH]; cbn; lia. Qed.
Lemma refs_pos s xs : 0 ≤ refs s xs.
Proof. induction xs as [|x xs IH]; cbn; [done|]. case_match; lia. Qed.
Lemma refs_resize k s e x : refs k [resize s e x] = refs k [x].
Proof. unfold resize. destruct (flag (vm_flags x) VM_SHARE) eqn:Ef; cbn; by rewrite Ef. Qed.
Lemma refs_mm k m x : refs k [set_vm_mm m x] = refs k [x].
Proof. done. Qed.
Lemma refs_cons k x xs : refs k (x :: xs) = refs k [x] + refs k xs.
Proof. cbn. lia. Qed.

Section pull.
Context `{VO : VmEnvOk E}.
Implicit Type w : vworld E.
Abbreviation area := (Z * Vma_struct)%type.

(** The shared memories of [xs] are there and count at least these areas. *)
Definition shm_ok (xs : list Vma_struct) w : Prop :=
  ∀ s, 0 < refs s xs → ∃ c, v_shm w !! s = Some c ∧ refs s xs ≤ shmem_ref c < 2 ^ 63.

Lemma shm_ok_refs xs ys w w' : (∀ s, refs s ys = refs s xs) → v_shm w' = v_shm w → shm_ok xs w → shm_ok ys w'.
Proof. intros He Es H s. rewrite He, Es. apply H. Qed.

(** ** [vma_destroy] *)

Definition freed (a : Z) w : vworld E :=
  set_nodes (delete a (rm_nodes (v_mem w)))
    (set_links (delete (list_link a) (v_links w)) (set_vmas (delete a (v_vmas w)) w)).

Lemma wp_kfree_vma a x w (Q : unit → vworld E → Prop) :
  v_vmas w !! a = Some x → Q tt (freed a w) → wp (kfree_vma a) w Q.
Proof.
  intros Ha HQ. unfold kfree_vma. apply wp_bind. eapply wp_get_vma; [exact Ha|].
  rewrite wp_bind, wp_modify, wp_bind, wp_modify. unfold on_mem. by apply wp_zoom.
Qed.

Lemma wp_vma_destroy a x xs w (Q : unit → vworld E → Prop) :
  v_vmas w !! a = Some x → shm_ok (x :: xs) w →
  (∀ S e', let w' := freed a (set_shm S (set_env e' w)) in
     shm_ok xs w' → (∀ pt va, mapped e' pt va ↔ mapped (v_env w) pt va) → Q tt w') →
  wp (vma_destroy a) w Q.
Proof.
  intros Ha Hs HQ. unfold vma_destroy. apply wp_bind. eapply wp_get_vma; [exact Ha|]. apply wp_bind.
  destruct (flag (vm_flags x) VM_SHARE) eqn:Ef.
  - assert (∀ k, refs k (x :: xs) = (if shmem x =? k then 1 else 0) + refs k xs) as Ek by (intros k; cbn; by rewrite Ef).
    pose proof (refs_pos (shmem x) xs). destruct (Hs (shmem x)) as (c & Hc & Hr); [rewrite Ek, Z.eqb_refl; lia|].
    rewrite Ek, Z.eqb_refl in Hr. unfold shmem_ref_dec, upd_ref, get_shm. apply wp_bind, wp_bind, wp_bind.
    rewrite wp_gets, Hc. apply wp_of_option. exists c. split; [done|].
    assert (sint 64 (shmem_ref c + -1) = shmem_ref c - 1) as -> by (unfold sint; rewrite Z.mod_small; lia).
    rewrite wp_bind, wp_modify, wp_ret.
    assert (∀ S, (∀ k, k ≠ shmem x → S !! k = v_shm w !! k) →
      (0 < refs (shmem x) xs → S !! shmem x = Some (mk_shm (shm_len c) (shmem_ref c - 1))) →
      ∀ e', shm_ok xs (freed a (set_shm S (set_env e' w)))) as Hok.
    { intros S S1 S2 e' k Hk. cbn. destruct (decide (k = shmem x)) as [->|Hne].
      - rewrite S2 by done. eexists; split; [done|]. cbn. lia.
      - rewrite S1 by done. specialize (Hs k). rewrite Ek, (proj2 (Z.eqb_neq _ _) (not_eq_sym Hne)) in Hs. auto. }
    destruct (Z.eqb_spec (shmem_ref c - 1) 0) as [E0|E0].
    + unfold shmem_destroy, get_shm. apply wp_bind, wp_bind. rewrite wp_gets. cbn [v_shm set_shm]. rewrite lookup_insert_eq.
      apply wp_of_option. eexists. split; [done|]. cbn [v_env]. apply wp_bind, wp_zoom.
      destruct (vo_shmem_free (v_env w) (shmem x)) as (e' & He' & Hm). eapply wp_of_run; [exact He'|].
      rewrite wp_modify. eapply wp_kfree_vma; [exact Ha|]. cbn [v_shm set_shm set_env].
      rewrite delete_insert_eq. refine (HQ (delete (shmem x) (v_shm w)) e' _ Hm). apply Hok; [|lia].
      intros k Hk. by rewrite lookup_delete_ne.
    + rewrite wp_ret. eapply wp_kfree_vma; [exact Ha|].
      refine (HQ (<[shmem x := mk_shm (shm_len c) (shmem_ref c - 1)]> (v_shm w)) (v_env w) _ _); [|done].
      apply Hok; [|by rewrite lookup_insert_eq]. intros k Hk. by rewrite lookup_insert_ne.
  - rewrite wp_ret. eapply wp_kfree_vma; [exact Ha|]. refine (HQ (v_shm w) (v_env w) _ _); [|done].
    eapply shm_ok_refs; [|done|exact Hs]. intros k. cbn. by rewrite Ef.
Qed.

(** ** What does not matter to an address space *)

Lemma rep_eq m v ps w w' : mm_rep m v ps w → v_mms w' = v_mms w → v_links w' = v_links w →
  v_vmas w' = v_vmas w → v_mem w' = v_mem w → mm_rep m v ps w'.
Proof.
  intros [H1 H2 H3 H4 H5 H6 H7 H8] E1 E2 E3 E4. split; try done; [by rewrite E1|by rewrite E2|by rewrite E3|by rewrite E4|].
  unfold in_tree. by rewrite E4.
Qed.

(** Links that are not of the list. *)
Lemma rep_links m v ps w hl : mm_rep m v ps w →
  (∀ l, l ∈ mmap_list m :: map list_link ps.*1 → hl !! l = v_links w !! l) → mm_rep m v ps (set_links hl w).
Proof. intros [H1 H2 H3 H4 H5 H6 H7 H8] Hl. split; try done. by eapply is_list_same. Qed.

Lemma rep_freed m v ps w a : mm_rep m v ps w → a ∉ ps.*1 → a ∉ tree_nodes w v → mm_rep m v ps (freed a w).
Proof.
  intros [H1 H2 H3 H4 H5 H6 H7 H8] Ha Ht. split; cbn; try done.
  - eapply is_list_same; [exact H2|]. intros l [->|Hl]%elem_of_cons; rewrite lookup_delete_ne; try done.
    + apply link_ne_head.
    + intros <-. by apply Ha, link_in.
  - intros b y Hb. rewrite lookup_delete_ne; [by apply H3|]. intros <-. apply Ha. by apply (list_elem_of_fmap_2 fst _ (a, y)).
  - intros b Hb. rewrite lookup_delete_ne; [by apply H5|]. by intros <-.
  - destruct (decide (mmap_tree v = 0)) as [E0|E0]; [by left|]. destruct H6 as [?|(tr & Htr & Hrep)]; [by left|right].
    rewrite (tree_nodes_at _ _ tr) in Ht by done. exists tr. split; [done|]. cbn.
    eapply rep_same; [exact Hrep|]. intros b Hb. rewrite lookup_delete_ne; [done|]. intros <-. set_solver.
Qed.

Lemma loose_links v a x w hl : loose v a x w → is_Some (hl !! list_link a) → loose v a x (set_links hl w).
Proof. intros [H1 H2 H3 H4 H5] Hl. by split. Qed.

Lemma loose_freed v a b x w : loose v b x w → b ≠ a → loose v b x (freed a w).
Proof.
  intros [H1 H2 H3 H4 H5] Hb. split; cbn; try done; rewrite lookup_delete_ne; try done.
  by intros ?%(inj list_link).
Qed.

Lemma keeps_links m own v w v' w' hl : keeps m own v w v' w' →
  (∀ l, hl !! l = v_links w' !! l ∨ l = mmap_list m ∨ l ∈ map list_link own ∨ v_links w !! l = None) →
  keeps m own v w v' (set_links hl w').
Proof.
  intros [A0 A1 A2 A3 A4 A5 A6 A7] Hl. split; try done. intros l Hm Ho Hs. cbn.
  destruct (Hl l) as [->|[?|[?|Hn]]]; [by apply A3|done..|]. destruct Hs; congruence.
Qed.

Lemma keeps_freed m own v w v' w' a : keeps m own v w v' w' → a ∈ own → keeps m own v w v' (freed a w').
Proof.
  intros [A0 A1 A2 A3 A4 A5 A6 A7] Ha. split; cbn; try done.
  - intros b Hb Hs. rewrite lookup_delete_ne; [by apply A2|]. by intros <-.
  - intros l Hm Ho Hs. rewrite lookup_delete_ne; [by apply A3|]. intros <-. by apply Ho, link_in.
  - intros n Hn Ht Hs. rewrite lookup_delete_ne; [by apply A4|]. by intros <-.
Qed.

Lemma keeps_vma m own v w v' w' a y : keeps m own v w v' w' → a ∈ own →
  keeps m own v w v' (set_vmas (<[a := y]> (v_vmas w')) w').
Proof.
  intros [A0 A1 A2 A3 A4 A5 A6 A7] Ha. split; cbn; try done.
  intros b Hb Hs. rewrite lookup_insert_ne; [by apply A2|]. by intros <-.
Qed.

Lemma keeps_eq m own v w v' w' w2 : keeps m own v w v' w' → v_mms w2 = v_mms w' → v_links w2 = v_links w' →
  v_vmas w2 = v_vmas w' → v_mem w2 = v_mem w' → v_cur w2 = v_cur w' → keeps m own v w v' w2.
Proof.
  intros [A0 A1 A2 A3 A4 A5 A6 A7] E1 E2 E3 E4 E5. split; try done; rewrite ?E1, ?E2, ?E3, ?E4, ?E5; try done.
  unfold tree_nodes in *. by rewrite E4.
Qed.

Lemma keeps_own m own own' v w v' w' : keeps m own v w v' w' → own ⊆ own' → keeps m own' v w v' w'.
Proof.
  intros K Hs. eapply keeps_trans; [apply keeps_refl|exact K|]. intros a Ha. left. by apply Hs.
Qed.

(** ** [vma_resize] *)

Lemma wp_vma_resize a x s e w (Q : unit → vworld E → Prop) :
  v_vmas w !! a = Some x → s mod PGSIZE = 0 → e mod PGSIZE = 0 → vm_start x ≤ s < e → e ≤ vm_end x →
  Q tt (set_vmas (<[a := resize s e x]> (v_vmas w)) w) → wp (vma_resize a s e) w Q.
Proof.
  intros Ha Hs He Hr Ht HQ. unfold vma_resize. rewrite wp_bind, wp_assert, Hs, He. split; [done|]. apply wp_bind.
  eapply wp_get_vma; [exact Ha|]. rewrite wp_bind, wp_assert, (proj2 (Z.leb_le _ _)), (proj2 (Z.ltb_lt _ _)), (proj2 (Z.leb_le _ _)) by lia.
  split; [done|]. apply wp_bind. unfold resize in HQ. destruct (flag (vm_flags x) VM_SHARE).
  - eapply wp_upd_vma; [exact Ha|]. eapply wp_upd_vma; [apply lookup_insert_eq|]. cbn [v_vmas set_vmas]. by rewrite insert_insert_eq.
  - rewrite wp_ret. by eapply wp_upd_vma.
Qed.

(** A listed area that gets smaller. *)
Lemma rep_resize m v p1 p2 a x s e w : mm_rep m v (p1 ++ (a, x) :: p2) w →
  vm_start x ≤ s < e → e ≤ vm_end x → s mod PGSIZE = 0 → e mod PGSIZE = 0 →
  mm_rep m v (p1 ++ (a, resize s e x) :: p2) (set_vmas (<[a := resize s e x]> (v_vmas w)) w).
Proof.
  intros Hr Hs He Ms Me. pose proof (mm_rep_nodup _ _ _ _ Hr) as Hnd. destruct Hr as [H1 H2 H3 H4 H5 H6 H7 H8].
  assert ((p1 ++ (a, resize s e x) :: p2).*1 = (p1 ++ (a, x) :: p2).*1) as Efst by (by rewrite !fmap_app).
  destruct (H3 a x ltac:(set_solver)) as (Hx & Ha & Hm & Hok).
  assert (vm_start (resize s e x) = s ∧ vm_end (resize s e x) = e ∧ vm_mm (resize s e x) = m) as (Es & Ee & Em)
    by (unfold resize; by case_match).
  split; rewrite ?Efst; cbn; try done.
  - intros b y Hb. rewrite elem_of_app, elem_of_cons in Hb.
    assert ((b, y) = (a, resize s e x) ∨ (b, y) ∈ p1 ++ p2) as [[= -> ->]|Hb'] by set_solver.
    + rewrite lookup_insert_eq. split_and!; [done..|by apply resize_ok].
    + rewrite lookup_insert_ne; [apply H3; set_solver|]. intros <-.
      rewrite fmap_app in Hnd. cbn in Hnd. apply NoDup_app in Hnd as (_ & Hd & [Hn2 _]%NoDup_cons).
      apply elem_of_app in Hb' as [Hb'|Hb']; apply (list_elem_of_fmap_2 fst) in Hb'; cbn in Hb'; [|done].
      by apply (Hd a Hb'); left.
  - apply ordered_app in H4 as (O1 & [O2 O3]%ordered_cons & O4). apply ordered_app. split_and!; [done|..].
    + apply ordered_cons. split; [done|]. intros q Hq. cbn. specialize (O3 q Hq). cbn in O3. lia.
    + intros p q Hp [->|Hq]%elem_of_cons; [|apply O4; set_solver]. cbn.
      specialize (O4 p (a, x) Hp ltac:(set_solver)). cbn in O4. lia.
  - rewrite H8. f_equal. rewrite !length_app. done.
Qed.
End pull.

(** * Address spaces: [mm_unmap] *)

Section unmap.
Context `{VO : VmEnvOk E}.
Implicit Type w : vworld E.
Abbreviation area := (Z * Vma_struct)%type.

(** ** Areas on their way out *)

(** The areas [rest] are out of the space, which is [ps] now and was [v0] in [w0]. *)
Record pulled m own v0 w0 (ps rest : list area) v w : Prop := {
  pu_rep : mm_rep m v ps w;
  pu_keeps : keeps m own v0 w0 v w;
  pu_loose a x : (a, x) ∈ rest → loose v a x w ∧ vm_mm x = m ∧ area_ok x;
  pu_nodup : NoDup (ps ++ rest).*1;
  pu_own a : a ∈ (ps ++ rest).*1 → a ∈ own }.

Lemma nodup_perm (ps qs : list area) : ps ≡ₚ qs → NoDup ps.*1 → NoDup qs.*1.
Proof. intros Hp. by rewrite Hp. Qed.

Lemma pulled_remove m own v0 w0 p1 p2 a x r v w v' w' :
  pulled m own v0 w0 (p1 ++ (a, x) :: p2) r v w →
  mm_rep m v' (p1 ++ p2) w' → keeps m (p1 ++ (a, x) :: p2).*1 v w v' w' → loose v' a x w' →
  pulled m own v0 w0 (p1 ++ p2) (r ++ [(a, x)]) v' w'.
Proof.
  intros [H1 H2 H3 H4 H5] Hr K L.
  assert ((p1 ++ (a, x) :: p2) ++ r ≡ₚ (p1 ++ p2) ++ r ++ [(a, x)]) as Hperm.
  { rewrite <- Permutation_middle, <- (Permutation_cons_append r). cbn. by rewrite Permutation_middle. }
  destruct (mr_vmas _ _ _ _ H1 a x ltac:(set_solver)) as (_ & _ & Hm & Hok). split; [done|..].
  - eapply keeps_trans; [exact H2|exact K|]. intros b Hb. left. apply H5. rewrite fmap_app. apply elem_of_app. by left.
  - intros b y [Hb|[= -> ->]%list_elem_of_singleton]%elem_of_app; [|done].
    destruct (H3 b y Hb) as (Lb & Hmb & Hokb). split; [|done]. eapply loose_keeps; [exact K| |exact Lb].
    rewrite fmap_app in H4. apply NoDup_app in H4 as (_ & Hd & _). intros Hin. apply (Hd b Hin).
    by apply (list_elem_of_fmap_2 fst _ (b, y)).
  - by eapply nodup_perm.
  - intros b. rewrite <- Hperm. apply H5.
Qed.

(** An area that is out changes. *)
Lemma pulled_vma m own v0 w0 ps a x y r v w :
  pulled m own v0 w0 ps ((a, x) :: r) v w → vm_mm y = m → area_ok y →
  pulled m own v0 w0 ps ((a, y) :: r) v (set_vmas (<[a := y]> (v_vmas w)) w).
Proof.
  intros [H1 H2 H3 H4 H5] Hm Hok. rewrite fmap_app in H4. apply NoDup_app in H4 as (N1 & Hd & N2).
  cbn in N2. apply NoDup_cons in N2 as [Na N2]. assert (a ∉ ps.*1) as Hap by (intros Hin; by apply (Hd a Hin); left).
  split.
  - destruct H1 as [R1 R2 R3 R4 R5 R6 R7 R8]. split; cbn; try done.
    intros b z Hb. rewrite lookup_insert_ne; [by apply R3|]. intros <-. by apply Hap, (list_elem_of_fmap_2 fst _ (a, z)).
  - apply keeps_vma; [done|]. apply H5. rewrite fmap_app. set_solver.
  - intros b z [[= -> ->]|Hb]%elem_of_cons.
    + destruct (H3 a x ltac:(by left)) as ([L1 L2 L3 L4 L5] & _). split; [|done]. split; try done. apply lookup_insert_eq.
    + destruct (H3 b z ltac:(by right)) as ([L1 L2 L3 L4 L5] & ?). split; [|done]. split; try done. cbn.
      rewrite lookup_insert_ne; [done|]. intros <-. by apply Na, (list_elem_of_fmap_2 fst _ (a, z)).
  - rewrite fmap_app. cbn. apply NoDup_app. split_and!; [done..|]. by apply NoDup_cons.
  - intros b. rewrite fmap_app. intros Hb. apply H5. by rewrite fmap_app.
Qed.

(** It goes back. *)
Lemma pulled_insert m own v0 w0 p1 p2 a x r v w v' w' :
  pulled m own v0 w0 (p1 ++ p2) ((a, x) :: r) v w →
  mm_rep m v' (p1 ++ (a, set_vm_mm m x) :: p2) w' → keeps m (a :: (p1 ++ p2).*1) v w v' w' →
  pulled m own v0 w0 (p1 ++ (a, x) :: p2) r v' w' ∧
  ∀ b, b ∈ r.*1 → v_links w' !! list_link b = v_links w !! list_link b.
Proof.
  intros [H1 H2 H3 H4 H5] Hr K. destruct (H3 a x ltac:(by left)) as (La & Hm & Hok).
  assert (set_vm_mm m x = x) as Ex by (destruct x; cbn in Hm; by subst). rewrite Ex in Hr.
  assert ((p1 ++ (a, x) :: p2) ++ r ≡ₚ (p1 ++ p2) ++ (a, x) :: r) as Hperm
    by (by rewrite <- Permutation_middle, <- (Permutation_middle (p1 ++ p2) r)).
  assert (∀ b, b ∈ r.*1 → b ∉ a :: (p1 ++ p2).*1) as Hdis.
  { intros b Hb Hin. rewrite fmap_app in H4. apply NoDup_app in H4 as (_ & Hd & [Na _]%NoDup_cons).
    apply elem_of_cons in Hin as [->|Hin]; [done|]. by apply (Hd b Hin); right. }
  split; [split; [done|..]|].
  - eapply keeps_trans; [exact H2|exact K|]. intros b Hb. left. apply H5. rewrite fmap_app. cbn. set_solver.
  - intros b y Hb. destruct (H3 b y ltac:(by right)) as (Lb & ?). split; [|done].
    eapply loose_keeps; [exact K| |exact Lb]. by apply Hdis, (list_elem_of_fmap_2 fst _ (b, y)).
  - by eapply nodup_perm; [symmetry; exact Hperm|].
  - intros b. rewrite Hperm. apply H5.
  - intros b Hb. destruct (list_elem_of_fmap_1 _ _ _ Hb) as ([b' y] & -> & Hby). destruct (H3 b' y ltac:(by right)) as (Lb & _).
    apply (kp_links _ _ _ _ _ _ K); [apply link_ne_head| |apply Lb]. rewrite link_in. by apply Hdis.
Qed.

(** It is destroyed. *)
Lemma pulled_freed m own v0 w0 ps a x r v w S e' :
  pulled m own v0 w0 ps ((a, x) :: r) v w → pulled m own v0 w0 ps r v (freed a (set_shm S (set_env e' w))) ∧
  ∀ b, b ∈ r.*1 → v_links (freed a (set_shm S (set_env e' w))) !! list_link b = v_links w !! list_link b.
Proof.
  intros [H1 H2 H3 H4 H5]. destruct (H3 a x ltac:(by left)) as (La & _).
  rewrite fmap_app in H4. apply NoDup_app in H4 as (N1 & Hd & N2). cbn in N2. apply NoDup_cons in N2 as [Na N2].
  assert (a ∉ ps.*1) as Hap by (intros Hin; by apply (Hd a Hin); left).
  assert (a ∈ own) as Hao by (apply H5; rewrite fmap_app; set_solver).
  split; [split|].
  - apply rep_freed; [|done|apply La]. by eapply rep_eq.
  - apply keeps_freed; [|done]. by eapply keeps_eq.
  - intros b y Hb. destruct (H3 b y ltac:(by right)) as ([L1 L2 L3 L4 L5] & ?). split; [|done].
    apply loose_freed; [by split|]. intros ->. by apply Na, (list_elem_of_fmap_2 fst _ (a, y)).
  - rewrite fmap_app. apply NoDup_app. split_and!; [done| |done]. intros b Hb Hr. apply (Hd b Hb). by right.
  - intros b Hb. apply H5. rewrite fmap_app in Hb |- *. set_solver.
  - intros b Hb. cbn. rewrite lookup_delete_ne; [done|]. intros ?%(inj list_link). by subst.
Qed.

(** ** The list on the stack *)

Definition ring (r : list area) w : Prop := is_list (v_links w) free_list (map list_link r.*1).

Lemma free_ne_link a : free_list ≠ list_link a.
Proof. apply not_eq_sym, link_ne_free. Qed.

Lemma free_ring_no_area r : free_list ∉ map list_link r.
Proof. intros (b & E1 & _)%list_elem_of_fmap. by apply (free_ne_link b). Qed.

(** One area goes from the space to the list. *)
Lemma wp_collect_one {A} m own v0 w0 p1 p2 a x r v w (K : M (vworld E) A) (Q : A → vworld E → Prop) :
  pulled m own v0 w0 (p1 ++ (a, x) :: p2) r v w → ring r w → v_links w0 !! free_list = None →
  zlen (p1 ++ (a, x) :: p2) < 2 ^ 31 →
  (∀ v' w', pulled m own v0 w0 (p1 ++ p2) (r ++ [(a, x)]) v' w' → ring (r ++ [(a, x)]) w' →
     v_shm w' = v_shm w → v_env w' = v_env w → wp K w' Q) →
  wp (remove_vma_struct m a;; on_links (list_add free_list (list_link a));; K) w Q.
Proof.
  intros HP HR Hfree Hlen HQ. pose proof HP as [H1 H2 H3 H4 H5]. apply wp_bind.
  eapply wp_remove_vma; [exact H1|exact Hlen|]. intros v' w' Hr' KP L Ev Es Ee _.
  pose proof (pulled_remove _ _ _ _ _ _ _ _ _ _ _ _ _ HP Hr' KP L) as HP'.
  assert (∀ b, b ∈ r.*1 → b ∉ (p1 ++ (a, x) :: p2).*1) as Hdis.
  { rewrite fmap_app in H4. apply NoDup_app in H4 as (_ & Hd & _). intros b Hb Hin. by apply (Hd b Hin). }
  assert (ring r w') as HR'.
  { eapply is_list_same; [exact HR|]. intros l Hl.
    apply (kp_links _ _ _ _ _ _ KP).
    - apply elem_of_cons in Hl as [->|(b & -> & _)%list_elem_of_fmap]; [apply not_eq_sym, head_ne_free|apply link_ne_head].
    - apply elem_of_cons in Hl as [->|(b & -> & Hb)%list_elem_of_fmap]; [apply free_ring_no_area|].
      rewrite link_in. by apply Hdis.
    - destruct HR as [_ Hs]. apply elem_of_dom. eapply lseg_dom; [exact Hs|]. set_solver. }
  assert (a ∉ r.*1) as Har by (intros Hin; apply (Hdis a Hin); rewrite fmap_app; set_solver).
  apply wp_bind, wp_vm_links. unfold list_add. eapply wp_list_add_before; [exact HR'| |apply elem_of_dom, L|].
  { rewrite not_elem_of_cons, link_in. split; [apply link_ne_free|done]. }
  intros hl Hl [Hd Ht]. assert (map list_link r.*1 ++ [list_link a] = map list_link (r ++ [(a, x)]).*1) as Er
    by (by rewrite fmap_app, map_app). rewrite Er in Hl.
  assert (∀ l, hl !! l = v_links w' !! l ∨ l = free_list ∨ l ∈ map list_link (r ++ [(a, x)]).*1) as Hsame.
  { intros l. destruct (decide (l ∈ list_link a :: free_list :: map list_link r.*1)) as [Hin|Hn]; [right|left; by apply Ht].
    rewrite <- Er. set_solver. }
  pose proof HP' as [G1 G2 G3 G4 G5]. refine (HQ v' (set_links hl w') _ Hl Es Ee). split.
  - apply rep_links; [done|]. intros l Hin. destruct (Hsame l) as [?|[->|(b & -> & Hb)%list_elem_of_fmap]]; [done|..]; exfalso.
    + apply elem_of_cons in Hin as [?%eq_sym%head_ne_free|Hin]; [done|by apply free_ring_no_area in Hin].
    + rewrite elem_of_cons, link_in in Hin. destruct Hin as [?%link_ne_head|Hin]; [done|].
      rewrite fmap_app in G4. apply NoDup_app in G4 as (_ & Hd' & _). by apply (Hd' b).
  - apply keeps_links; [done|]. intros l. destruct (Hsame l) as [?|[->|(b & -> & Hb)%list_elem_of_fmap]]; [by left|by auto|].
    right; right; left. apply link_in, G5. rewrite fmap_app. apply elem_of_app. by right.
  - intros b y Hb. destruct (G3 b y Hb) as (Lb & ?). split; [|done]. apply loose_links; [done|].
    apply elem_of_dom. rewrite Hd. apply elem_of_dom, Lb.
  - done.
  - done.
Qed.

Lemma wp_collect_loop m own v0 w0 p1 p2 a x r v w e fuel (Q : unit → vworld E → Prop) :
  pulled m own v0 w0 (p1 ++ (a, x) :: p2) r v w → ring r w → v_links w0 !! free_list = None →
  zlen (p1 ++ (a, x) :: p2) < 2 ^ 31 → (length p2 < fuel)%nat →
  (∀ q p3 v' w', (a, x) :: p2 = q ++ p3 → (∀ p, p ∈ q → vm_start p.2 < e) → (∀ p, p ∈ p3 → e ≤ vm_start p.2) →
     pulled m own v0 w0 (p1 ++ p3) (r ++ q) v' w' → ring (r ++ q) w' → v_shm w' = v_shm w → v_env w' = v_env w → Q tt w') →
  wp (loop fuel (λ vma,
    x ← get_vma vma;
    if vm_start x <? e then
      le ← on_links (list_next (list_link vma));
      remove_vma_struct m vma;;
      on_links (list_add free_list (list_link vma));;
      mret (if le =? mmap_list m then inr tt else inl (le2vma le))
    else mret (inr tt)) a) w Q.
Proof.
  revert a x p2 r v w. induction fuel as [|fuel IH]; intros a x p2 r v w HP HR Hfree Hlen Hfuel HQ; [lia|].
  pose proof (pu_rep _ _ _ _ _ _ _ _ HP) as Hrep. pose proof (rep_stored _ _ _ _ Hrep) as Hst.
  destruct (Hst a x ltac:(set_solver)) as [Ha Hax]. cbn [loop]. apply wp_bind, wp_bind. eapply wp_get_vma; [exact Ha|].
  destruct (Z.ltb_spec (vm_start x) e) as [Hlt|Hge].
  2: { rewrite wp_ret, wp_ret. apply (HQ [] ((a, x) :: p2) v w); rewrite ?app_nil_r; try done; [set_solver|].
    pose proof (mr_order _ _ _ _ Hrep) as (_ & [_ Ho]%ordered_cons & _)%ordered_app. pose proof (ao_range _ Hax).
    intros p [->|Hp]%elem_of_cons; [done|]. specialize (Ho p Hp). cbn in Ho. lia. }
  apply wp_bind, wp_vm_links.
  assert (nxt (v_links w) (list_link a) = Some (default (mmap_list m) (head (map list_link p2.*1)))) as Hnx.
  { pose proof (mr_list _ _ _ _ Hrep) as [_ Hs]. rewrite fmap_app, map_app in Hs. by apply lseg_walk in Hs. }
  eapply wp_list_next; [exact Hnx|]. rewrite set_links_id.
  eapply wp_collect_one; [exact HP|exact HR|done..|]. intros v' w' HP' HR' Es Ee. rewrite wp_ret.
  destruct p2 as [|[b y] p2]; cbn [head map fmap list_fmap fst default from_option id].
  - rewrite Z.eqb_refl, wp_ret. apply (HQ [(a, x)] [] v' w'); try done; [|set_solver].
    by intros p ->%list_elem_of_singleton.
  - rewrite (proj2 (Z.eqb_neq _ _)) by apply link_ne_head. rewrite le2vma_link.
    cbn in Hfuel. eapply (IH b y p2 (r ++ [(a, x)]) v' w' HP' HR' Hfree); [|lia|].
    + rewrite !length_app in Hlen |- *. cbn in *. lia.
    + intros q p3 v2 w2 Eq Hq Hp3 HP2 HR2 Es2 Ee2. rewrite <- app_assoc in HP2, HR2.
      refine (HQ ((a, x) :: q) p3 v2 w2 _ _ Hp3 HP2 HR2 _ _); [by rewrite Eq| |congruence..].
      intros p [->|Hp]%elem_of_cons; [done|by apply Hq].
Qed.

Lemma wp_collect m own v0 w0 p1 p2 a x v w e (Q : unit → vworld E → Prop) :
  pulled m own v0 w0 (p1 ++ (a, x) :: p2) [] v w → ring [] w → v_links w0 !! free_list = None →
  zlen (p1 ++ (a, x) :: p2) < 2 ^ 31 →
  (∀ q p3 v' w', (a, x) :: p2 = q ++ p3 → (∀ p, p ∈ q → vm_start p.2 < e) → (∀ p, p ∈ p3 → e ≤ vm_start p.2) →
     pulled m own v0 w0 (p1 ++ p3) q v' w' → ring q w' → v_shm w' = v_shm w → v_env w' = v_env w → Q tt w') →
  wp (collect m a e) w Q.
Proof.
  intros HP HR Hfree Hlen HQ. unfold collect. rewrite wp_bind, wp_gets.
  eapply (wp_collect_loop m own v0 w0 p1 p2 a x []); try done.
  pose proof (is_list_size _ _ _ (mr_list _ _ _ _ (pu_rep _ _ _ _ _ _ _ _ HP))) as Hs.
  rewrite length_map, length_fmap, length_app in Hs. cbn in Hs. lia.
Qed.
End unmap.
