(* ===== verification/VmmCut.v ===== *)
(** * Address spaces: the second half of [mm_unmap], and its whole *)
From Stdlib Require Import Sorted.
From S2P Require Import Prelude Errors ListH Rbtree RbRep RbSpec RbDelete RbSearch Vmm VmmRep VmmOps VmmInsert VmmPull.

Section cut.
Context `{VO : VmEnvOk E}.
Implicit Type w : vworld E.
Abbreviation area := (Z * Vma_struct)%type.

(** The areas that are left, where they were. *)
Definition cut_one (s e : Z) (p : area) : list area := pair p.1 <$> cut_area s e p.2.
Definition cut_at (s e : Z) (ps : list area) : list area := ps ≫= cut_one s e.

Lemma cut_at_snd s e ps : (cut_at s e ps).*2 = cut s e ps.*2.
Proof.
  unfold cut_at, cut. induction ps as [|p ps IH]; [done|]. rewrite bind_cons, fmap_app, IH. cbn. f_equal.
  unfold cut_one. rewrite <- list_fmap_compose. by rewrite list_fmap_id.
Qed.

Lemma cut_at_app s e ps qs : cut_at s e (ps ++ qs) = cut_at s e ps ++ cut_at s e qs.
Proof. apply bind_app. Qed.

Lemma cut_at_same s e ps : s < e → (∀ p, p ∈ ps → area_ok p.2 ∧ (vm_end p.2 ≤ s ∨ e ≤ vm_start p.2)) → cut_at s e ps = ps.
Proof.
  intros Hse. induction ps as [|[a x] ps IH]; intros H; [done|]. unfold cut_at in *. rewrite bind_cons, IH by set_solver.
  unfold cut_one. destruct (H (a, x) ltac:(set_solver)) as [Ha [Hx|Hx]]; cbn in *;
    [by rewrite cut_area_before|by rewrite cut_area_after].
Qed.

(** ** One area *)

Lemma wp_put_back m own v0 w0 p1 p2 a x r v w (Q : unit → vworld E → Prop) :
  pulled m own v0 w0 (p1 ++ p2) ((a, x) :: r) v w →
  (∀ p, p ∈ p1 → vm_end p.2 ≤ vm_start x) → (∀ p, p ∈ p2 → vm_end x ≤ vm_start p.2) →
  zlen (p1 ++ p2) < 2 ^ 31 - 1 →
  (∀ v' w', pulled m own v0 w0 (p1 ++ (a, x) :: p2) r v' w' →
     (∀ b, b ∈ r.*1 → v_links w' !! list_link b = v_links w !! list_link b) →
     v_shm w' = v_shm w → v_env w' = v_env w → Q tt w') →
  wp (insert_vma_struct m a) w Q.
Proof.
  intros HP Hp1 Hp2 Hlen HQ. destruct (pu_loose _ _ _ _ _ _ _ _ HP a x ltac:(by left)) as (La & Hm & Hok).
  assert (a ∉ (p1 ++ p2).*1) as Hni.
  { pose proof (pu_nodup _ _ _ _ _ _ _ _ HP) as Hn. rewrite fmap_app in Hn.
    apply NoDup_app in Hn as (_ & Hd & _). intros Hin. by apply (Hd a Hin); left. }
  eapply wp_insert_vma; [apply HP|exact La|done..|]. intros v' w' Hr K _ Es Ee _.
  destruct (pulled_insert _ _ _ _ _ _ _ _ _ _ _ _ _ HP Hr K) as [HP' Hl]. by eapply HQ.
Qed.

(** The area has a part outside the range on one side at most. *)
Definition one_side (s e : Z) (x : Vma_struct) : Prop :=
  s < vm_end x ∧ vm_start x < e ∧ ¬ (vm_start x < s ∧ e < vm_end x).

Lemma cut_area_one s e x : one_side s e x →
  cut_area s e x = if vm_start x <? s then [resize (vm_start x) s x] else
    if e <? vm_end x then [resize e (vm_end x) x] else [].
Proof.
  intros (H1 & H2 & H3). unfold cut_area. rewrite Z.min_l, Z.max_l by lia. zcases; try done. lia.
Qed.

Lemma resize_start s e x : vm_start (resize s e x) = s.
Proof. unfold resize. by case_match. Qed.
Lemma resize_end s e x : vm_end (resize s e x) = e.
Proof. unfold resize. by case_match. Qed.
Lemma resize_mm s e x : vm_mm (resize s e x) = vm_mm x.
Proof. unfold resize. by case_match. Qed.

Lemma refs_cut_one s e k x : one_side s e x → refs k (cut_area s e x) ≤ refs k [x].
Proof.
  intros H. rewrite cut_area_one by done. pose proof (refs_pos k [x]). repeat case_match; rewrite ?refs_resize; cbn in *; lia.
Qed.

(** Resized and put back. *)
Lemma wp_keep_part m own v0 w0 p1 p2 a x r v w s e (Q : unit → vworld E → Prop) :
  pulled m own v0 w0 (p1 ++ p2) ((a, x) :: r) v w →
  vm_start x ≤ s < e → e ≤ vm_end x → s mod PGSIZE = 0 → e mod PGSIZE = 0 →
  (∀ p, p ∈ p1 → vm_end p.2 ≤ s) → (∀ p, p ∈ p2 → e ≤ vm_start p.2) →
  zlen (p1 ++ p2) < 2 ^ 31 - 1 →
  (∀ v' w', pulled m own v0 w0 (p1 ++ (a, resize s e x) :: p2) r v' w' →
     (∀ b, b ∈ r.*1 → v_links w' !! list_link b = v_links w !! list_link b) →
     v_shm w' = v_shm w → v_env w' = v_env w → Q tt w') →
  wp (vma_resize a s e;; insert_vma_struct m a) w Q.
Proof.
  intros HP Hs He Ms Me Hp1 Hp2 Hlen HQ. destruct (pu_loose _ _ _ _ _ _ _ _ HP a x ltac:(by left)) as (La & Hm & Hok).
  apply wp_bind. eapply wp_vma_resize; [apply La|done..|].
  eapply wp_put_back; [eapply pulled_vma; [exact HP|by rewrite resize_mm|by apply resize_ok]|..|exact HQ].
  - rewrite resize_start. exact Hp1.
  - rewrite resize_end. exact Hp2.
  - done.
Qed.

Lemma wp_cut_vma m own v0 w0 p1 p2 a x r v w s e (Q : Z * Z → vworld E → Prop) :
  pulled m own v0 w0 (p1 ++ p2) ((a, x) :: r) v w → one_side s e x → s mod PGSIZE = 0 → e mod PGSIZE = 0 →
  (∀ p, p ∈ p1 → vm_end p.2 ≤ vm_start x) → (∀ p, p ∈ p2 → vm_end x ≤ vm_start p.2) →
  zlen (p1 ++ p2) < 2 ^ 31 - 1 → shm_ok ((p1 ++ p2).*2 ++ x :: r.*2) w →
  (∀ v' w', pulled m own v0 w0 (p1 ++ cut_one s e (a, x) ++ p2) r v' w' →
     (∀ b, b ∈ r.*1 → v_links w' !! list_link b = v_links w !! list_link b) →
     shm_ok ((p1 ++ cut_one s e (a, x) ++ p2).*2 ++ r.*2) w' →
     (∀ pt va, mapped (v_env w') pt va ↔ mapped (v_env w) pt va) → Q (s `max` vm_start x, e `min` vm_end x) w') →
  wp (cut_vma m a s e) w Q.
Proof.
  intros HP Hone Ms Me Hp1 Hp2 Hlen Hshm HQ. destruct (pu_loose _ _ _ _ _ _ _ _ HP a x ltac:(by left)) as (La & Hm & Hok).
  pose proof (ao_range _ Hok) as Hrg. unfold cut_vma. apply wp_bind. eapply wp_get_vma; [apply La|].
  unfold cut_one in HQ. cbn [fst snd] in HQ. pose proof Hone as (H1 & H2 & H3).
  assert (∀ l, refs l ((p1 ++ p2).*2 ++ x :: r.*2) = refs l p1.*2 + refs l [x] + refs l p2.*2 + refs l r.*2) as Erefs
    by (intros l; rewrite fmap_app, !refs_app, refs_cons; lia).
  rewrite (cut_area_one _ _ _ Hone) in HQ. destruct (Z.ltb_spec (vm_start x) s) as [Hlt|Hge].
  - rewrite Z.max_l, Z.min_r in HQ by lia. apply wp_seq_ret.
    eapply wp_keep_part; [exact HP|lia|lia|apply Hok|exact Ms|exact Hp1| |exact Hlen|].
    { intros p Hp. specialize (Hp2 p Hp). lia. }
    intros v' w' HP' Hl Es Ee. apply (HQ v' w' HP' Hl); [|by rewrite Ee].
    eapply shm_ok_refs; [|exact Es|exact Hshm]. intros l. rewrite Erefs, !fmap_app, !refs_app. cbn [fmap list_fmap snd].
    rewrite refs_resize. lia.
  - rewrite Z.max_r in HQ by lia. destruct (Z.ltb_spec e (vm_end x)) as [Hlt'|Hge'].
    + rewrite Z.min_l in HQ by lia. apply wp_seq_ret.
      eapply wp_keep_part; [exact HP|lia|lia|exact Me|apply Hok| |exact Hp2|exact Hlen|].
      { intros p Hp. specialize (Hp1 p Hp). lia. }
      intros v' w' HP' Hl Es Ee. apply (HQ v' w' HP' Hl); [|by rewrite Ee].
      eapply shm_ok_refs; [|exact Es|exact Hshm]. intros l. rewrite Erefs, !fmap_app, !refs_app. cbn [fmap list_fmap snd].
      rewrite refs_resize. lia.
    + rewrite Z.min_r in HQ by lia. apply wp_bind. eapply (wp_vma_destroy a x ((p1 ++ p2).*2 ++ r.*2)); [apply La|..].
      { eapply shm_ok_refs; [|done|exact Hshm]. intros l. rewrite Erefs, refs_cons, fmap_app, !refs_app. lia. }
      intros S e' w' Hshm' Hmap. rewrite wp_ret. destruct (pulled_freed _ _ _ _ _ a x r v w S e' HP) as [HP' Hl].
      by apply (HQ v w' HP' Hl).
Qed.

(** ** All of them *)

(** The links lead from each of the areas to the next and then to the list's head. *)
Fixpoint trail (h : heap) (es : list Z) : Prop :=
  match es with
  | [] => True
  | a :: es' => nxt h (list_link a) = Some (default free_list (head (map list_link es'))) ∧ trail h es'
  end.

Lemma trail_same h h' es : (∀ a, a ∈ es → h' !! list_link a = h !! list_link a) → trail h es → trail h' es.
Proof.
  induction es as [|a es IH]; intros He; [done|]. cbn. intros [Hn Ht]. split; [|apply IH; set_solver].
  unfold nxt in *. by rewrite He by set_solver.
Qed.

Lemma ring_trail h (es : list Z) a : lseg h a (map list_link es) free_list → trail h es.
Proof.
  revert a. induction es as [|b es IH]; intros a; cbn; [done|]. intros [_ Hs]. split; [by apply lseg_first in Hs|].
  by eapply IH.
Qed.

Lemma pulled_env m own v0 w0 ps r v w e' : pulled m own v0 w0 ps r v w → pulled m own v0 w0 ps r v (set_env e' w).
Proof.
  intros [H1 H2 H3 H4 H5]. split; try done; [by eapply rep_eq|by eapply keeps_eq|].
  intros a x Hx. destruct (H3 a x Hx) as ([L1 L2 L3 L4 L5] & ?). split; [by split|done].
Qed.

Lemma cut_area_within s e x y : area_ok x → s < e → y ∈ cut_area s e x → vm_start x ≤ vm_start y ∧ vm_end y ≤ vm_end x.
Proof.
  intros Hok Hse. pose proof (ao_range _ Hok). unfold cut_area. zcases; cbn; intros Hy;
    repeat (apply elem_of_cons in Hy as [->|Hy]); try (by apply elem_of_nil in Hy); rewrite resize_start, resize_end; lia.
Qed.

(** The pages of the range in these areas are out of the page table. *)
Definition unmapped (pt s e : Z) (xs : list Vma_struct) (e1 e2 : E) : Prop :=
  ∀ pt' va, mapped e2 pt' va ↔ mapped e1 pt' va ∧ ¬ (pt' = pt ∧ s ≤ va < e ∧ ∃ x, x ∈ xs ∧ covers x va).

Lemma wp_unmap_env pt s e x w (Q : unit → vworld E → Prop) :
  area_ok x → s < vm_end x → vm_start x < e → s < e → s mod PGSIZE = 0 → e mod PGSIZE = 0 → e ≤ MAXVA →
  (∀ e', unmapped pt s e [x] (v_env w) e' → Q tt (set_env e' w)) →
  wp (on_env (ve_unmap_range pt (s `max` vm_start x) (e `min` vm_end x))) w Q.
Proof.
  intros [O1 O2 O3 O4 _ _] H1 H2 Hse Ms Me Ht HQ. apply wp_zoom.
  destruct (vo_unmap (v_env w) pt (s `max` vm_start x) (e `min` vm_end x)) as (e' & He & Hm & Hm'); [| |lia|lia|].
  - by destruct (Z.max_spec s (vm_start x)) as [[_ ->]|[_ ->]].
  - by destruct (Z.min_spec e (vm_end x)) as [[_ ->]|[_ ->]].
  - eapply wp_of_run; [exact He|]. apply HQ. intros pt' va. destruct (decide (pt' = pt)) as [->|Hne].
    + rewrite Hm. split; (intros [Hmp Hn]; split; [done|]).
      * intros (_ & Hva & y & ->%list_elem_of_singleton & Hc). unfold covers in Hc. lia.
      * intros Hva. apply Hn. split_and!; [done|lia..|]. exists x. split; [set_solver|]. unfold covers. lia.
    + rewrite Hm' by done. naive_solver.
Qed.

Lemma unmapped_app pt s e xs ys e1 e2 e3 : unmapped pt s e xs e1 e2 → unmapped pt s e ys e2 e3 → unmapped pt s e (xs ++ ys) e1 e3.
Proof.
  intros H1 H2 pt' va. rewrite (H2 pt' va), (H1 pt' va). split.
  - intros [[Hm Hx] Hy]. split; [done|]. intros (-> & Hva & x & [Hin|Hin]%elem_of_app & Hc); eauto 10.
  - intros [Hm Hn]. split; [split; [done|]|]; intros (Ept & Hva & x & Hin & Hc); apply Hn;
    (split; [done|split; [done|exists x]]); (split; [apply elem_of_app|done]); auto.
Qed.

Lemma unmapped_same pt s e xs e1 e1' e2 : (∀ pt va, mapped e1' pt va ↔ mapped e1 pt va) → unmapped pt s e xs e1' e2 → unmapped pt s e xs e1 e2.
Proof. intros Hs H pt' va. by rewrite (H pt' va), Hs. Qed.

Lemma wp_unmap_loop m own v0 w0 s e pt p1 p3 q k v w fuel (Q : unit → vworld E → Prop) :
  pulled m own v0 w0 (p1 ++ k ++ p3) q v w → trail (v_links w) q.*1 → ordered q →
  s < e → s mod PGSIZE = 0 → e mod PGSIZE = 0 → e ≤ MAXVA →
  (∀ p, p ∈ q → one_side s e p.2) →
  (∀ p p', p ∈ p1 ++ k → p' ∈ q → vm_end p.2 ≤ vm_start p'.2) →
  (∀ p p', p ∈ q → p' ∈ p3 → vm_end p.2 ≤ vm_start p'.2) →
  zlen (p1 ++ k ++ p3) + zlen q < 2 ^ 31 → shm_ok ((p1 ++ k ++ p3).*2 ++ q.*2) w → (length q < fuel)%nat →
  (∀ v' w', pulled m own v0 w0 (p1 ++ (k ++ cut_at s e q) ++ p3) [] v' w' →
     shm_ok (p1 ++ (k ++ cut_at s e q) ++ p3).*2 w' → unmapped pt s e q.*2 (v_env w) (v_env w') → Q tt w') →
  wp (loop fuel (λ le,
    if le =? free_list then mret (inr tt) else
    let vma := le2vma le in
    le ← on_links (list_next le);
    '(un_start, un_end) ← cut_vma m vma s e;
    on_env (ve_unmap_range pt un_start un_end);;
    mret (inl le)) (default free_list (head (map list_link q.*1)))) w Q.
Proof.
  intros HP Ht Ho Hse Ms Me Htop Hone Hb Ha Hlen Hshm Hf HQ.
  revert k v w fuel HP Ht Ho Hone Hb Ha Hlen Hshm Hf HQ.
  induction q as [|[a x] q IH]; intros k v w fuel HP Ht Ho Hone Hb Ha Hlen Hshm Hf HQ;
    (destruct fuel as [|fuel]; [lia|]); cbn [loop head map fmap list_fmap fst default from_option id]; apply wp_bind.
  { rewrite Z.eqb_refl, wp_ret, wp_ret. unfold cut_at in HQ. cbn in HQ. rewrite !app_nil_r in HQ. rewrite app_nil_r in Hshm.
    apply (HQ v w HP Hshm). intros pt' va. split; [|tauto]. intros Hm. split; [done|].
    intros (_ & _ & y & Hy & _). by apply elem_of_nil in Hy. }
  rewrite (proj2 (Z.eqb_neq _ _)) by apply link_ne_free. cbv zeta. rewrite le2vma_link.
  cbn [trail fmap list_fmap fst] in Ht. destruct Ht as [Hn Ht]. apply wp_bind, wp_vm_links.
  eapply wp_list_next; [exact Hn|]. rewrite set_links_id. apply wp_bind.
  pose proof (Hone (a, x) ltac:(by left)) as H1. cbn in H1. apply ordered_cons in Ho as [Ho Hx].
  destruct (pu_loose _ _ _ _ _ _ _ _ HP a x ltac:(by left)) as (La & Hm & Hok).
  rewrite app_assoc in HP, Hshm, Hlen. cbn [length] in Hlen.
  eapply wp_cut_vma; [exact HP|exact H1|done|done| | |lia|exact Hshm|].
  { intros p Hp. by apply (Hb p (a, x) Hp); left. }
  { intros p Hp. by apply (Ha (a, x) p); [left|]. }
  intros v1 w1 HP1 Hl Hshm1 Hmap. apply wp_bind.
  eapply wp_unmap_env; [exact Hok|apply H1|apply H1|done..|]. intros e' Hun. rewrite wp_ret.
  assert (∀ y, y ∈ cut_one s e (a, x) → vm_end y.2 ≤ vm_end x) as Hcut.
  { intros [b y] (y' & [= -> ->] & Hy)%list_elem_of_fmap. by apply (cut_area_within s e x y'). }
  assert (length (cut_one s e (a, x)) ≤ 1)%nat as Hc1.
  { unfold cut_one. rewrite length_fmap. cbn [snd]. rewrite cut_area_one by done. by repeat case_match; cbn; lia. }
  assert ((p1 ++ k) ++ cut_one s e (a, x) ++ p3 = p1 ++ (k ++ cut_one s e (a, x)) ++ p3) as Ek by (by rewrite <- !app_assoc).
  rewrite Ek in HP1, Hshm1.
  apply (IH (k ++ cut_one s e (a, x)) v1 (set_env e' w1)); try done.
  - by apply pulled_env.
  - eapply trail_same; [|exact Ht]. exact Hl.
  - intros p Hp. apply Hone. by right.
  - intros p p' Hp Hp'. rewrite app_assoc in Hp. apply elem_of_app in Hp as [Hp|Hp]; [apply Hb; [done|by right]|].
    specialize (Hcut p Hp). specialize (Hx p' Hp'). cbn in Hx. lia.
  - intros p p' Hp Hp'. apply Ha; [by right|done].
  - rewrite !length_app in Hlen |- *. rewrite (length_app k). lia.
  - cbn in Hf. lia.
  - intros v2 w2 HP2 Hshm2 Hun2. rewrite <- (app_assoc k) in HP2, Hshm2.
    change (cut_one s e (a, x) ++ cut_at s e q) with (cut_at s e ((a, x) :: q)) in HP2, Hshm2.
    refine (HQ v2 w2 HP2 Hshm2 (unmapped_app pt s e [x] q.*2 _ e' _ _ Hun2)).
    exact (unmapped_same pt s e [x] _ _ _ Hmap Hun).
Qed.

Lemma wp_unmap_collected m own v0 w0 s e p1 p3 q v w (Q : unit → vworld E → Prop) :
  pulled m own v0 w0 (p1 ++ p3) q v w → ring q w → ordered (p1 ++ q ++ p3) →
  s < e → s mod PGSIZE = 0 → e mod PGSIZE = 0 → e ≤ MAXVA → (∀ p, p ∈ q → one_side s e p.2) →
  zlen (p1 ++ p3) + zlen q < 2 ^ 31 → shm_ok ((p1 ++ p3).*2 ++ q.*2) w →
  (∀ v' w', pulled m own v0 w0 (p1 ++ cut_at s e q ++ p3) [] v' w' →
     shm_ok (p1 ++ cut_at s e q ++ p3).*2 w' → unmapped (pagetable v) s e q.*2 (v_env w) (v_env w') → Q tt w') →
  wp (unmap_collected m s e) w Q.
Proof.
  intros HP HR (_ & (Hoq & _ & Hq3)%ordered_app & H1)%ordered_app Hse Ms Me Ht Hone Hlen Hshm HQ.
  unfold unmap_collected. apply wp_bind. eapply wp_get_mm; [apply HP|]. apply wp_bind, wp_vm_links.
  pose proof HR as [_ Hs]. eapply wp_list_next; [by apply lseg_first in Hs|].
  rewrite set_links_id, wp_bind, wp_gets. pose proof (is_list_size _ _ _ HR) as Hsz. rewrite length_map, length_fmap in Hsz.
  eapply (wp_unmap_loop m own v0 w0 s e (pagetable v) p1 p3 q [] v w); try done; [by eapply ring_trail|..].
  - intros p p' Hp Hp'. rewrite app_nil_r in Hp. apply H1; [done|]. apply elem_of_app. by left.
  - lia.
Qed.

(** The list's head comes and goes. *)
Lemma wp_with_free_list m v ps w c (Q : unit → vworld E → Prop) :
  mm_rep m v ps w → v_links w !! free_list = None →
  (∀ w1, pulled m ps.*1 v w ps [] v w1 → ring [] w1 → v_shm w1 = v_shm w → v_env w1 = v_env w →
     wp c w1 (λ _ w2, ∃ v2 ps2, pulled m ps.*1 v w ps2 [] v2 w2 ∧
       let w3 := set_links (delete free_list (v_links w2)) w2 in
       (mm_rep m v2 ps2 w3 → keeps m ps.*1 v w v2 w3 → Q tt w3))) →
  wp (with_free_list c) w Q.
Proof.
  intros Hr Hfree Hc. unfold with_free_list. rewrite wp_bind, wp_modify. apply wp_bind, wp_vm_links. cbn [v_links set_links].
  apply wp_list_init; [rewrite dom_insert_L; set_solver|]. intros hl Hl [_ Ht]. apply wp_bind.
  assert (∀ l, l ≠ free_list → hl !! l = v_links w !! l) as Hsame.
  { intros l Hne. rewrite Ht by set_solver. by rewrite lookup_insert_ne. }
  assert (∀ l, l ∈ mmap_list m :: map list_link ps.*1 → l ≠ free_list) as Hlf.
  { intros l [->|(b & -> & _)%list_elem_of_fmap]%elem_of_cons; [apply head_ne_free|apply link_ne_free]. }
  refine (wp_conseq _ _ _ _ (Hc (set_links hl w) _ Hl eq_refl eq_refl) _).
  - split; rewrite ?app_nil_r; try done; [apply rep_links; [done|]; intros l Hin; by apply Hsame, Hlf| | |].
    + apply keeps_links; [apply keeps_refl|]. intros l. destruct (decide (l = free_list)) as [->|Hne]; [by auto|left; by apply Hsame].
    + intros a x Hx. by apply elem_of_nil in Hx.
    + by eapply mm_rep_nodup.
  - cbn beta. intros [] w2 (v2 & ps2 & HP & HQ). rewrite wp_modify. apply HQ.
    + apply rep_links; [apply HP|]. intros l [->|(b & -> & _)%list_elem_of_fmap]%elem_of_cons; rewrite lookup_delete_ne; try done.
      * apply not_eq_sym, head_ne_free.
      * apply free_ne_link.
    + apply keeps_links; [apply HP|]. intros l. destruct (decide (l = free_list)) as [->|Hne]; [by auto|left].
      by rewrite lookup_delete_ne.
Qed.

(** ** [mm_unmap] *)

Lemma unmapped_ext pt s e xs ys e1 e2 :
  (∀ va, s ≤ va < e → (∃ x, x ∈ xs ∧ covers x va) ↔ (∃ y, y ∈ ys ∧ covers y va)) →
  unmapped pt s e xs e1 e2 → unmapped pt s e ys e1 e2.
Proof.
  intros Hxy H pt' va. rewrite (H pt' va). split; (intros [Hm Hn]; split; [done|]; intros (-> & Hva & Hc); apply Hn);
    (split_and!; [done|lia..|by apply (Hxy va)]).
Qed.

Lemma unmapped_in pt s e (p1 q p3 : list area) e1 e2 : s < e →
  (∀ p, p ∈ p1 → vm_end p.2 ≤ s) → (∀ p, p ∈ p3 → e ≤ vm_start p.2) →
  unmapped pt s e q.*2 e1 e2 → unmapped pt s e (p1 ++ q ++ p3).*2 e1 e2.
Proof.
  intros Hse H1 H3. apply unmapped_ext. intros va Hva. split; intros (x & Hx & Hc); exists x; (split; [|done]).
  - rewrite !fmap_app. set_solver.
  - rewrite !fmap_app, !elem_of_app in Hx. unfold covers in Hc.
    destruct Hx as [(p & -> & Hp)%list_elem_of_fmap|[Hx|(p & -> & Hp)%list_elem_of_fmap]]; [specialize (H1 p Hp)|done|specialize (H3 p Hp)]; lia.
Qed.

Lemma cut_at_mid s e p1 q p3 m v w : mm_rep m v (p1 ++ q ++ p3) w → s < e →
  (∀ p, p ∈ p1 → vm_end p.2 ≤ s) → (∀ p, p ∈ p3 → e ≤ vm_start p.2) →
  cut_at s e (p1 ++ q ++ p3) = p1 ++ cut_at s e q ++ p3.
Proof.
  intros Hr Hse H1 H3. rewrite !cut_at_app, (cut_at_same s e p1), (cut_at_same s e p3); [done|done|..|done|];
    intros p Hp; (split; [eapply rep_ok; [exact Hr|]; set_solver|auto]).
Qed.

(** Every part of the range is at the end of an area. *)
Lemma wp_unmap_ends m v p1 a x p2 s e w (Q : unit → vworld E → Prop) :
  mm_rep m v (p1 ++ (a, x) :: p2) w → v_links w !! free_list = None → shm_ok (p1 ++ (a, x) :: p2).*2 w →
  s < e → s mod PGSIZE = 0 → e mod PGSIZE = 0 → e ≤ MAXVA → zlen (p1 ++ (a, x) :: p2) < 2 ^ 31 →
  (∀ p, p ∈ p1 → vm_end p.2 ≤ s) → one_side s e x →
  (∀ v' w' ps', let ps := p1 ++ (a, x) :: p2 in ps' = cut_at s e ps →
     mm_rep m v' ps' w' → keeps m ps.*1 v w v' w' → shm_ok ps'.*2 w' → v_links w' !! free_list = None →
     unmapped (pagetable v) s e ps.*2 (v_env w) (v_env w') → Q tt w') →
  wp (with_free_list (collect m a e;; unmap_collected m s e)) w Q.
Proof.
  intros Hr Hfree Hshm Hse Ms Me Ht Hlen Hp1 Hone HQ. cbv zeta in HQ. eapply wp_with_free_list; [exact Hr|done|].
  intros w1 HP HR Es Ee. apply wp_bind. pose proof (mr_order _ _ _ _ Hr) as Ho.
  assert (ordered ((a, x) :: p2)) as Ho2 by (by apply ordered_app in Ho as (_ & ? & _)).
  apply ordered_cons in Ho2 as [_ Hx2]. cbn in Hx2.
  eapply (wp_collect m _ v w p1 p2 a x v w1 e); [exact HP|exact HR|done..|].
  intros q p3 v2 w2 Eq Hq Hp3 HP2 HR2 Es2 Ee2. rewrite Eq in Ho, Hlen.
  assert (∀ p, p ∈ q → one_side s e p.2) as Hq1.
  { intros p Hp. destruct Hone as (O1 & O2 & O3). assert (p ∈ (a, x) :: p2) as [->|Hp2]%elem_of_cons by (rewrite Eq; set_solver).
    - done.
    - specialize (Hx2 p Hp2). pose proof (rep_ok _ _ _ _ p Hr ltac:(set_solver)) as [Hrg _ _ _ _ _].
      split_and!; [lia|by apply Hq|lia]. }
  assert (pagetable v2 = pagetable v) as Ept by (rewrite (kp_listing _ _ _ _ _ _ (pu_keeps _ _ _ _ _ _ _ _ HP2)); done).
  eapply (wp_unmap_collected m _ v w s e p1 p3 q v2 w2); [exact HP2|exact HR2|done..| | |].
  - rewrite (length_app p1 (q ++ p3)), (length_app q p3) in Hlen. rewrite (length_app p1 p3). lia.
  - eapply shm_ok_refs; [|transitivity (v_shm w1); [exact Es2|exact Es]|exact Hshm]. intros l. rewrite Eq, !fmap_app, !refs_app. lia.
  - intros v3 w3 HP3 Hshm3 Hun3. rewrite Eq in HQ, Hr. exists v3, (p1 ++ cut_at s e q ++ p3). split; [exact HP3|].
    cbv zeta. rewrite Eq. intros Hr3 K3. rewrite Ept, Ee2, Ee in Hun3. eapply HQ; [|exact Hr3|exact K3|exact Hshm3| |].
    + by rewrite (cut_at_mid s e p1 q p3 m v w).
    + cbn. apply lookup_delete_eq.
    + by apply unmapped_in.
Qed.

(** The range is inside an area; the lower part is a new one, of no shared memory. *)
Lemma wp_unmap_split m v p1 a x p2 s e w (Q : Z → vworld E → Prop) :
  mm_rep m v (p1 ++ (a, x) :: p2) w → v_links w !! free_list = None →
  s < e → s mod PGSIZE = 0 → e mod PGSIZE = 0 → e ≤ MAXVA → zlen (p1 ++ (a, x) :: p2) < 2 ^ 31 - 1 →
  vm_start x < s → e < vm_end x →
  (no_vma_left → Q (- E_NO_MEM) w) →
  (∀ b v' w', let ps := p1 ++ (a, x) :: p2 in
     mm_rep m v' (p1 ++ (b, new_area m (vm_start x) s (vm_flags x)) :: (a, resize e (vm_end x) x) :: p2) w' →
     keeps m ps.*1 v w v' w' → v_shm w' = v_shm w → v_links w' !! free_list = None →
     unmapped (pagetable v) s e [x] (v_env w) (v_env w') → Q 0 w') →
  wp (nvma ← vma_create (vm_start x) s (vm_flags x);
    if nvma =? 0 then mret (- E_NO_MEM) else
    vma_resize a e (vm_end x);;
    insert_vma_struct m nvma;;
    mm ← get_mm m;
    on_env (ve_unmap_range (pagetable mm) s e);;
    mret 0) w Q.
Proof.
  intros Hr Hfree Hse Ms Me Ht Hlen Hs He HQ0 HQ. cbv zeta in HQ.
  destruct (mr_vmas _ _ _ _ Hr a x ltac:(set_solver)) as (Hxa & Ha0 & Hm & Hok). pose proof (ao_range _ Hok) as Hrg.
  apply wp_bind. eapply wp_vma_create; [exact Hr|..].
  { intros Hno. rewrite Z.eqb_refl, wp_ret. by apply HQ0. }
  intros b z w1 Hb0 Hun [L1 L2 L3 L4 L5] Hr1 K1 Es1 Ee1 Ef1. rewrite (proj2 (Z.eqb_neq _ _) Hb0). apply wp_bind.
  assert (b ∉ (p1 ++ (a, x) :: p2).*1) as Hni.
  { intros (y & _ & Hy & _)%(rep_at _ _ _ _ _ Hr). destruct Hun as [Hun _]. congruence. }
  assert (b ≠ a) as Hba by (intros ->; apply Hni; rewrite fmap_app; set_solver).
  destruct (mr_vmas _ _ _ _ Hr1 a x ltac:(set_solver)) as (Hxa1 & _).
  eapply wp_vma_resize; [exact Hxa1|exact Me|apply Hok|lia..|].
  pose proof (rep_resize m v p1 p2 a x e (vm_end x) w1 Hr1 ltac:(lia) ltac:(lia) Me (ao_end _ Hok)) as Hr2.
  pose proof (mr_order _ _ _ _ Hr2) as Ho2. set (w2 := set_vmas _ w1) in *.
  assert (keeps m (p1 ++ (a, x) :: p2).*1 v w v w2) as K2.
  { apply keeps_vma; [|rewrite fmap_app; set_solver]. eapply keeps_own; [exact K1|set_solver]. }
  pose proof (mr_order _ _ _ _ Hr) as Ho. apply ordered_app in Ho as (_ & [_ Ho]%ordered_cons & Ho1).
  apply wp_bind. eapply (wp_insert_vma m v p1 ((a, resize e (vm_end x) x) :: p2) b); [exact Hr2|..].
  - split; try done. unfold w2. cbn. by rewrite lookup_insert_ne.
  - rewrite fmap_app in Hni |- *. exact Hni.
  - pose proof (ao_top _ Hok). split; cbn; try done; try lia. apply Hok.
  - intros p Hp. apply (Ho1 p (a, x) Hp). set_solver.
  - intros p [->|Hp]%elem_of_cons; cbn; [lia|]. specialize (Ho p Hp). cbn in Ho. lia.
  - rewrite length_app in Hlen |- *. exact Hlen.
  - intros v3 w3 Hr3 K3 _ Es3 Ee3 Ef3. apply wp_bind. eapply wp_get_mm; [apply Hr3|].
    assert (keeps m (p1 ++ (a, x) :: p2).*1 v w v3 w3) as K4.
    { eapply keeps_trans; [exact K2|exact K3|]. intros c [->|Hc]%elem_of_cons; [by right|left]. rewrite fmap_app in Hc |- *. exact Hc. }
    apply wp_bind. assert (ve_unmap_range (pagetable v3) s e = ve_unmap_range (pagetable v3) (s `max` vm_start x) (e `min` vm_end x)) as ->
      by (by rewrite Z.max_l, Z.min_l by lia).
    apply wp_unmap_env; [done|lia|lia|done..|]. intros e' Hu. rewrite wp_ret.
    apply (HQ b v3 (set_env e' w3)).
    + by eapply rep_eq.
    + by eapply keeps_eq.
    + transitivity (v_shm w1); [exact Es3|exact Es1].
    + transitivity (v_links w1 !! free_list); [exact Ef3|by rewrite Ef1].
    + assert (v_env w3 = v_env w) as Ee by (transitivity (v_env w1); [exact Ee3|exact Ee1]). rewrite Ee in Hu.
      assert (pagetable v3 = pagetable v) as Ept by (by rewrite (kp_listing _ _ _ _ _ _ K4)). by rewrite Ept in Hu.
Qed.

Lemma unmap_range_top addr len : 0 ≤ addr → 0 < len → addr + len < MAXVA →
  PGROUNDUP (u64 (addr + len)) ≤ MAXVA.
Proof.
  intros Ha Hl Ht. assert (addr + len ≤ 2 ^ 64 - PGSIZE) as Hw by (unfold MAXVA, PGSIZE in *; lia).
  destruct (request_range addr len Ha Hl Hw) as (_ & He & _ & [k Hk]%Z.mod_divide); [|done].
  rewrite Hk in He |- *. unfold MAXVA, PGSIZE in *. lia.
Qed.

(** The area found, when it is not one to cut. *)
Lemma wp_unmap_miss {A} m v ps p1 p2 e w (r : A) (K : Vma_struct → M (vworld E) A) (Q : A → vworld E → Prop) :
  mm_rep m v ps w → ps = p1 ++ p2 → (∀ p, p ∈ p2 → e ≤ vm_start p.2) → Q r w →
  wp (if default 0 (fst <$> head p2) =? 0 then mret r else
    x ← get_vma (default 0 (fst <$> head p2));
    if e <=? vm_start x then mret r else K x) w Q.
Proof.
  intros Hr -> Hp2 HQ. destruct p2 as [|[b y] p2]; cbn; [done|].
  destruct (mr_vmas _ _ _ _ Hr b y ltac:(set_solver)) as (Hyb & Hb0 & _).
  rewrite (proj2 (Z.eqb_neq _ _) Hb0). apply wp_bind. eapply wp_get_vma; [exact Hyb|].
  pose proof (Hp2 (b, y) ltac:(by left)) as Hy. cbn in Hy. by rewrite (proj2 (Z.leb_le _ _)), wp_ret.
Qed.

(** For an area that is not shared the two parts are those of [cut]. *)
Lemma split_parts m s e x : area_ok x → vm_mm x = m → flag (vm_flags x) VM_SHARE = false → vm_start x < s → e < vm_end x → s < e →
  cut_area s e x = [new_area m (vm_start x) s (vm_flags x); resize e (vm_end x) x].
Proof.
  intros [_ _ _ _ _ Hp] Hm Hf Hs He Hse. unfold cut_area. rewrite (proj2 (Z.ltb_lt _ _)), (proj2 (Z.ltb_lt _ _)), Z.min_l, Z.max_l by lia.
  cbn. f_equal. destruct (Hp Hf) as [E1 E2]. unfold resize. rewrite Hf. destruct x. cbn in *. by subst.
Qed.

(** What follows when an area is found that reaches into the range. *)
Definition unmap_found (m a : Z) (x : Vma_struct) (s e : Z) : M (vworld E) Z :=
  if (vm_start x <? s) && (e <? vm_end x) then
    nvma ← vma_create (vm_start x) s (vm_flags x);
    if nvma =? 0 then mret (- E_NO_MEM) else
    vma_resize a e (vm_end x);;
    insert_vma_struct m nvma;;
    mm ← get_mm m;
    on_env (ve_unmap_range (pagetable mm) s e);;
    mret 0
  else
    with_free_list (collect m a e;; unmap_collected m s e);;
    mret 0.

Lemma wp_unmap_find m v ps addr len w (Q : Z → vworld E → Prop) :
  let s := PGROUNDDOWN addr in let e := PGROUNDUP (u64 (addr + len)) in
  mm_rep m v ps w → m ≠ 0 → 0 ≤ addr → 0 < len → addr + len < MAXVA →
  let v1 := cached_mm v (first_end s ps) in let w1 := cached m v (first_end s ps) w in
  (∀ p1 a x p2, ps = p1 ++ (a, x) :: p2 → s < vm_end x → vm_start x < e → (∀ p, p ∈ p1 → vm_end p.2 ≤ s) →
     wp (unmap_found m a x s e) w1 Q) →
  (∀ p1 p2, ps = p1 ++ p2 → (∀ p, p ∈ p1 → vm_end p.2 ≤ s) → (∀ p, p ∈ p2 → e ≤ vm_start p.2) → Q 0 w1) →
  wp (mm_unmap m addr len) w Q.
Proof.
  intros s e Hr Hm Ha Hl Ht v1 w1 Hhit Hmiss.
  assert (addr + len ≤ 2 ^ 64 - PGSIZE) as Hw by (unfold MAXVA, PGSIZE in *; lia).
  destruct (request_range addr len Ha Hl Hw) as (Hs1 & He1 & _ & _). fold s e in Hs1, He1.
  unfold mm_unmap. rewrite (proj2 (Z.ltb_lt addr MAXVA)) by lia.
  rewrite (proj2 (Z.ltb_lt (u64 (addr + len)) MAXVA)) by (rewrite wrap_small; unfold MAXVA in *; lia). cbn [negb andb].
  fold s e. rewrite wp_bind, wp_assert, (proj2 (Z.eqb_neq _ _) Hm). split; [done|].
  apply wp_bind. eapply wp_find_vma; [exact Hr|done|]. fold w1. pose proof (rep_cached m v ps w s Hr) as Hrc. fold v1 w1 in Hrc.
  destruct (first_end_place m v s e ps w Hr ltac:(lia)) as [(_ & p1 & a & x & p2 & Ep & Ef & Hxe & Hxs & Hp1)|
    (_ & p1 & p2 & Ep & Ef & Hp1 & Hp2)].
  - rewrite Ef. cbn [default from_option id]. destruct (mr_vmas _ _ _ _ Hrc a x ltac:(rewrite Ep; set_solver)) as (Hxa & Ha0 & _).
    rewrite (proj2 (Z.eqb_neq _ _) Ha0). apply wp_bind. eapply wp_get_vma; [exact Hxa|].
    rewrite (proj2 (Z.leb_gt _ _)) by lia. by eapply Hhit.
  - rewrite Ef. eapply wp_unmap_miss; [exact Hrc|exact Ep|exact Hp2|by eapply Hmiss].
Qed.

(** No shared area has the range strictly inside. *)
Definition splittable (s e : Z) (xs : list Vma_struct) : Prop :=
  ∀ x, x ∈ xs → vm_start x < s → e < vm_end x → flag (vm_flags x) VM_SHARE = false.

Lemma wp_mm_unmap m v ps addr len w (Q : Z → vworld E → Prop) :
  let s := PGROUNDDOWN addr in let e := PGROUNDUP (u64 (addr + len)) in
  mm_rep m v ps w → m ≠ 0 → 0 ≤ addr → 0 < len → addr + len < MAXVA → v_links w !! free_list = None →
  shm_ok ps.*2 w → splittable s e ps.*2 → zlen ps < 2 ^ 31 - 1 →
  (∀ v' w', (∃ x, x ∈ ps.*2 ∧ vm_start x < s ∧ e < vm_end x) → no_vma_left → mm_rep m v' ps w' →
     keeps m ps.*1 v w v' w' → shm_ok ps.*2 w' → v_links w' !! free_list = None → v_env w' = v_env w → Q (- E_NO_MEM) w') →
  (∀ v' w' ps', ps'.*2 = cut s e ps.*2 → mm_rep m v' ps' w' → keeps m ps.*1 v w v' w' → shm_ok ps'.*2 w' → v_links w' !! free_list = None →
     unmapped (pagetable v) s e ps.*2 (v_env w) (v_env w') → Q 0 w') →
  wp (mm_unmap m addr len) w Q.
Proof.
  intros s e Hr Hm Ha Hl Ht Hfree Hshm Hsplit Hlen HQ0 HQ1. pose proof (unmap_range_top addr len Ha Hl Ht) as Htop.
  assert (addr + len ≤ 2 ^ 64 - PGSIZE) as Hw by (unfold MAXVA, PGSIZE in *; lia).
  destruct (request_range addr len Ha Hl Hw) as (Hs1 & He1 & Hsm & Hem). fold s e in Hs1, He1, Hsm, Hem, Htop.
  eapply wp_unmap_find; [exact Hr|done..| |]; fold s e.
  all: pose proof (rep_cached m v ps w s Hr) as Hrc; pose proof (keeps_cached m ps.*1 v w (first_end s ps)) as Kc.
  all: assert (v_shm (cached m v (first_end s ps) w) = v_shm w ∧ v_env (cached m v (first_end s ps) w) = v_env w ∧
    v_links (cached m v (first_end s ps) w) = v_links w) as (Es & Ee & El) by (by destruct (first_end s ps)).
  all: assert (pagetable (cached_mm v (first_end s ps)) = pagetable v) as Ept by (by rewrite (kp_listing _ _ _ _ _ _ Kc)).
  all: set (v1 := cached_mm v (first_end s ps)) in *; set (w1 := cached m v (first_end s ps) w) in *.
  all: assert (shm_ok ps.*2 w1) as Hshm1 by (by eapply shm_ok_refs).
  all: assert (∀ p, p ∈ ps → area_ok p.2) as Hok by (intros p; by eapply rep_ok).
  2: { intros p1 p2 Ep Hp1 Hp2. eapply (HQ1 v1 w1 ps); try done; [|by rewrite El|].
    - symmetry. apply cut_same; [lia|]. intros x (p & -> & Hp)%list_elem_of_fmap. split; [by apply Hok|].
      rewrite Ep in Hp. apply elem_of_app in Hp as [Hp|Hp]; auto.
    - rewrite Ee. intros pt' va. split; [|tauto]. intros Hmp. split; [done|].
      intros (_ & Hva & x & (p & -> & Hp)%list_elem_of_fmap & Hc). unfold covers in Hc.
      rewrite Ep in Hp. apply elem_of_app in Hp as [Hp|Hp]; [specialize (Hp1 p Hp)|specialize (Hp2 p Hp)]; lia. }
  intros p1 a x p2 Ep Hxe Hxs Hp1. unfold unmap_found. rewrite <- El in Hfree. rewrite <- Ee in HQ0, HQ1. rewrite Ep in Hrc.
  destruct (decide (vm_start x < s ∧ e < vm_end x)) as [[Hin1 Hin2]|Hout].
  - rewrite (proj2 (Z.ltb_lt _ _)), (proj2 (Z.ltb_lt _ _)) by lia. cbn [andb].
    assert (flag (vm_flags x) VM_SHARE = false) as Hf by (apply Hsplit; [rewrite Ep, fmap_app; set_solver|done..]).
    destruct (mr_vmas _ _ _ _ Hrc a x ltac:(set_solver)) as (_ & _ & Hmx & Hokx).
    assert (∀ p, p ∈ p2 → e ≤ vm_start p.2) as Hp2'.
    { pose proof (mr_order _ _ _ _ Hrc) as Ho. apply ordered_app in Ho as (_ & [_ Ho]%ordered_cons & _). intros p Hp. specialize (Ho p Hp). cbn in Ho. lia. }
    rewrite Ep in Hlen. eapply wp_unmap_split; [exact Hrc|done|lia|done|done|done|exact Hlen|done|done| |].
    + intros Hno. eapply (HQ0 v1 w1); try done; [|by rewrite Ep]. exists x. split; [rewrite Ep, fmap_app; set_solver|done].
    + intros b v2 w2 ps' Hr2 K2 Hs2 Hf2 Hu2. set (ps2 := p1 ++ (b, _) :: _) in Hr2.
      assert (ps2.*2 = (cut_at s e (p1 ++ [(a, x)] ++ p2)).*2) as Ecut.
      { rewrite (cut_at_mid s e p1 [(a, x)] p2 m v1 w1 Hrc ltac:(lia) Hp1 Hp2'). unfold ps2.
        rewrite !fmap_app, cut_at_snd. unfold cut. cbn. rewrite app_nil_r, (split_parts m s e x Hokx Hmx Hf); [done|lia..]. }
      eapply (HQ1 v2 w2 ps2); try done.
      * by rewrite Ecut, cut_at_snd, Ep.
      * eapply keeps_trans; [exact Kc|exact K2|]. rewrite Ep. intros c Hc. by left.
      * eapply shm_ok_refs; [|exact Hs2|exact Hshm1]. intros k. unfold ps2. rewrite Ep, !fmap_app, !refs_app.
        unfold resize. rewrite Hf. cbn. rewrite Hf. cbn. lia.
      * rewrite Ept in Hu2. rewrite Ep. apply (unmapped_in _ s e p1 [(a, x)] p2); [lia|done..].
  - assert ((vm_start x <? s) && (e <? vm_end x) = false) as -> by (zcases; cbn; try done; lia).
    apply wp_bind. rewrite Ep in Hshm1, Hlen. eapply wp_unmap_ends; [exact Hrc|done|exact Hshm1|lia|done..|lia|done|done|].
    intros v2 w2 ps2 ps' E2 Hr2 K2 Hs2 Hf2 Hu2. rewrite wp_ret. eapply (HQ1 v2 w2 ps2); try done.
    + by rewrite E2, Ep, cut_at_snd.
    + eapply keeps_trans; [exact Kc|exact K2|]. rewrite Ep. intros b Hb. by left.
    + rewrite Ept in Hu2. by rewrite Ep.
Qed.
End cut.
