(* ===== verification/VmmSpec.v ===== *)
(** * Address spaces: the contract of [mm_map] and [mm_unmap]

    An address space is a function from addresses to what is mapped there.  The calls
    change this function on the range asked for and nowhere else; no history of calls
    leaves a page of the process outside its areas. *)
From Stdlib Require Import Sorted.
From S2P Require Import Prelude Errors ListH Rbtree RbRep RbSpec RbDelete RbSearch Vmm VmmRep VmmOps VmmInsert VmmPull VmmCut.

Section spec.
Context `{VO : VmEnvOk E}.
Implicit Type w : vworld E.
Abbreviation area := (Z * Vma_struct)%type.

(** ** Address spaces in memory *)

(** The space at [m] has the areas [xs]; its page table has pages of them only. *)
Record space (m : Z) (v : Mm_struct) (xs : list Vma_struct) w : Prop := {
  sp_rep : ∃ ps, ps.*2 = xs ∧ mm_rep m v ps w;
  sp_shm : shm_ok xs w;
  sp_stack : v_links w !! free_list = None;
  sp_pages va : mapped (v_env w) (pagetable v) va → ∃ x, x ∈ xs ∧ covers x va;
  sp_real : m ≠ 0 }.

(** What is mapped at each address. *)
Abbreviation contents := (Z → option (Z * option (Z * Z))).

Definition free_in (f : contents) (s e : Z) : Prop := ∀ va, s ≤ va < e → f va = None.

Lemma at_addr_is_some xs va : at_addr xs va ≠ None ↔ ∃ x, x ∈ xs ∧ covers x va.
Proof.
  split.
  - destruct (at_addr xs va) as [r|] eqn:Er; [|done]. apply at_addr_some in Er as (x & ? & ? & _). eauto.
  - intros (x & Hx & Hc). induction xs as [|y xs IH]; [by apply elem_of_nil in Hx|]. cbn. case_decide as Hd; [done|].
    apply elem_of_cons in Hx as [->|Hx]; [done|by apply IH].
Qed.

Lemma overlaps_free s e xs : s < e → (∀ x, x ∈ xs → area_ok x) → overlaps s e xs = false ↔ free_in (at_addr xs) s e.
Proof.
  intros Hse Hok. split.
  - intros Hov va Hva. apply at_addr_none. intros x Hx Hc. unfold covers in Hc.
    assert (overlaps s e xs = true); [|congruence]. apply overlaps_true. exists x. split; [done|lia].
  - intros Hf. apply not_true_iff_false. intros (x & Hx & H1 & H2)%overlaps_true.
    pose proof (ao_range _ (Hok x Hx)). refine (proj2 (at_addr_is_some xs (s `max` vm_start x)) _ (Hf _ _)); [|lia].
    exists x. split; [done|]. unfold covers. lia.
Qed.

Lemma at_addr_new m s e flags (p1 p2 : list area) a va : flag flags VM_SHARE = false →
  (∀ p, p ∈ p1 → vm_end p.2 ≤ s ∨ e ≤ vm_start p.2) →
  at_addr (p1 ++ (a, new_area m s e flags) :: p2).*2 va =
    if decide (s ≤ va < e) then Some (flags, None) else at_addr (p1 ++ p2).*2 va.
Proof.
  intros Hf H1. rewrite !fmap_app, !at_addr_app. cbn. unfold covers, mapping, new_area. cbn. rewrite Hf. destruct (decide (s ≤ va < e)); [|done].
  rewrite at_addr_none; [done|]. intros x (p & -> & Hp)%list_elem_of_fmap Hc. specialize (H1 p Hp). unfold covers in Hc. lia.
Qed.

Lemma space_ok m v xs w x : space m v xs w → x ∈ xs → area_ok x.
Proof.
  intros [(ps & <- & Hr) _ _ _ _] (p & -> & Hp)%list_elem_of_fmap. by eapply rep_ok.
Qed.

Lemma ordered_snd (ps : list area) : ordered ps → StronglySorted (λ x y, vm_end x ≤ vm_start y) ps.*2.
Proof.
  induction ps as [|p ps IH]; intros Ho; [constructor|]. apply ordered_cons in Ho as [Ho Hp]. constructor; [by apply IH|].
  apply Forall_forall. intros x (q & -> & Hq)%list_elem_of_fmap. by apply Hp.
Qed.

(** Nothing is changed but this space's list and its areas. *)
Record others_kept (m : Z) (v : Mm_struct) w (v' : Mm_struct) w' : Prop := {
  fr_listing : listing v v';
  fr_cur : v_cur w' = v_cur w;
  fr_mms m' : m' ≠ m → v_mms w' !! m' = v_mms w !! m';
  fr_vmas a x : v_vmas w !! a = Some x → vm_mm x ≠ m → v_vmas w' !! a = Some x }.

Lemma keeps_others m own v ps w v' w' : mm_rep m v ps w → keeps m own v w v' w' →
  (∀ a, a ∈ own → a ∈ ps.*1 ∨ unused a w) → others_kept m v w v' w'.
Proof.
  intros Hr K Hown. split; [apply K..|]. intros a x Ha Hm. rewrite (kp_vmas _ _ _ _ _ _ K); [done| |by eexists].
  intros [Hin|[Hn _]]%Hown; [|congruence]. destruct (rep_at _ _ _ _ a Hr Hin) as (y & _ & Hy & _ & Hym & _). congruence.
Qed.

Lemma others_kept_trans m v w v1 w1 v2 w2 : others_kept m v w v1 w1 → others_kept m v1 w1 v2 w2 → others_kept m v w v2 w2.
Proof.
  intros [A1 A2 A3 A4] [B1 B2 B3 B4]. split; [by eapply listing_trans|congruence| |].
  - intros m' Hm. by rewrite B3, A3.
  - intros a x Ha Hm. apply B4; [by apply A4|done].
Qed.

(** ** [mm_map] *)

Definition map_result (f f' : contents) (s e flags r : Z) : Prop :=
  (r = 0 ∧ free_in f s e ∧ ∀ va, f' va = if decide (s ≤ va < e) then Some (flags, None) else f va) ∨
  (r = - E_INVAL ∧ ¬ free_in f s e ∧ ∀ va, f' va = f va) ∨
  (r = - E_NO_MEM ∧ no_vma_left ∧ free_in f s e ∧ ∀ va, f' va = f va).

Lemma mm_map_run m v xs addr len flags w : space m v xs w → 0 ≤ addr → 0 < len → addr + len ≤ 2 ^ 64 - PGSIZE →
  flag flags VM_SHARE = false → zlen xs < 2 ^ 31 - 1 →
  let s := PGROUNDDOWN addr in let e := PGROUNDUP (u64 (addr + len)) in
  wp (mm_map m addr len flags) w (λ ra w', ∃ v' xs', space m v' xs' w' ∧ others_kept m v w v' w' ∧ v_env w' = v_env w ∧
    (xs' = xs ∨ ∃ x1 x2, xs = x1 ++ x2 ∧ xs' = x1 ++ new_area m s e flags :: x2) ∧
    (ra.1 = 0 → v_vmas w' !! ra.2 = Some (new_area m s e flags)) ∧
    map_result (at_addr xs) (at_addr xs') s e flags ra.1).
Proof.
  intros Hsp Ha Hl Ht Hf Hlen s e. pose proof (λ x, space_ok m v xs w x Hsp) as Hok. destruct Hsp as [(ps & <- & Hr) Hshm Hfree Hpg Hm].
  destruct (request_range addr len Ha Hl Ht) as (Hs1 & He1 & _ & _). fold s e in Hs1, He1.
  assert (s < e) as Hse by lia. rewrite length_fmap in Hlen.
  assert (∀ v' w', keeps m ps.*1 v w v' w' → pagetable v' = pagetable v) as Hpt
    by (intros v' w' K; by rewrite (kp_listing _ _ _ _ _ _ K)).
  eapply wp_mm_map; [exact Hr|done..| |]; fold s e.
  - intros r v' w' Hr' K Es Ee El Hcase. exists v', ps.*2. split_and!; [|eapply keeps_others; [done..|by left]|done|by left| |].
    + split; [by exists ps|by eapply shm_ok_refs|by rewrite El| |done]. rewrite Ee, (Hpt v' w' K). exact Hpg.
    + cbn. destruct Hcase as [[_ ->]|(_ & _ & ->)]; done.
    + cbn. destruct Hcase as [[Hov ->]|(Hov & Hno & ->)]; right; [left|right]; split_and!; try done.
      * intros Hf'. apply overlaps_free in Hf'; [congruence|done..].
      * by apply overlaps_free.
  - intros p1 p2 a v' w' Hov Ep Ha0 Hun Hr' K Es Ee El. exists v', (p1 ++ (a, new_area m s e flags) :: p2).*2.
    assert (∀ p, p ∈ p1 → vm_end p.2 ≤ s ∨ e ≤ vm_start p.2) as Hp1.
    { intros p Hp. destruct (Z.le_gt_cases (vm_end p.2) s); [by left|right]. apply Z.nlt_ge. intros Hlt.
      assert (overlaps s e ps.*2 = true); [|congruence]. apply overlaps_true. exists p.2. split; [|done].
      rewrite Ep, fmap_app. apply elem_of_app. left. by apply list_elem_of_fmap_2. }
    assert (∀ va, at_addr (p1 ++ (a, new_area m s e flags) :: p2).*2 va =
      if decide (s ≤ va < e) then Some (flags, None) else at_addr ps.*2 va) as Hat.
    { intros va. rewrite Ep. by apply at_addr_new. }
    split_and!; [|eapply keeps_others; [exact Hr|exact K|]|done| | |].
    2: { intros b [->|Hb]%elem_of_cons; [by right|by left]. }
    + split; [by eexists| | |rewrite Ee| done].
      * eapply shm_ok_refs; [|exact Es|exact Hshm]. intros k. rewrite Ep, !fmap_app, !refs_app. cbn. by rewrite Hf.
      * by rewrite El.
      * assert (pagetable v' = pagetable v) as -> by (by rewrite (kp_listing _ _ _ _ _ _ K)).
        intros va Hva%Hpg. apply at_addr_is_some. rewrite Hat. case_decide; [done|]. by apply at_addr_is_some.
    + right. exists p1.*2, p2.*2. by rewrite Ep, !fmap_app.
    + intros _. cbn. by apply (mr_vmas _ _ _ _ Hr' a); set_solver.
    + left. split_and!; [done|by apply overlaps_free|exact Hat].
Qed.

(** ** [mm_unmap] *)

Definition unmap_result (f f' : contents) (s e r : Z) : Prop :=
  (r = 0 ∧ ∀ va, f' va = if decide (s ≤ va < e) then None else f va) ∨
  (r = - E_NO_MEM ∧ no_vma_left ∧ ∀ va, f' va = f va).

(** Pages of the range, of this page table, are gone; all others stay. *)
Definition pages_out (pt s e : Z) (e1 e2 : E) : Prop :=
  ∀ pt' va, mapped e2 pt' va ↔ mapped e1 pt' va ∧ ¬ (pt' = pt ∧ s ≤ va < e).

(** One area at most comes in two. *)
Lemma cut_length s e (ps : list area) : s < e → ordered ps → (∀ p, p ∈ ps → area_ok p.2) →
  (length (cut s e ps.*2) ≤ length ps + 1)%nat.
Proof.
  intros Hse. induction ps as [|[a x] ps IH]; intros Ho Hok; [cbn; lia|]. apply ordered_cons in Ho as [Ho Hx].
  unfold cut in *. rewrite fmap_cons, bind_cons, length_app. cbn [snd length].
  assert (∀ p, p ∈ ps → area_ok p.2) as Hok' by (intros p Hp; apply Hok; by right). specialize (IH Ho Hok').
  destruct (decide (vm_start x < s ∧ e < vm_end x)) as [[H1 H2]|Hout].
  - change (ps.*2 ≫= cut_area s e) with (cut s e ps.*2). rewrite cut_same; [|done|].
    + rewrite length_fmap. unfold cut_area. rewrite length_app. repeat case_match; cbn; lia.
    + intros y (p & -> & Hp)%list_elem_of_fmap. split; [by apply Hok'|]. right. specialize (Hx p Hp). cbn in Hx. lia.
  - assert (length (cut_area s e x) ≤ 1)%nat; [|lia]. unfold cut_area. zcases; cbn; lia.
Qed.

Lemma mm_unmap_run m v xs addr len w : space m v xs w → 0 ≤ addr → 0 < len → addr + len < MAXVA →
  zlen xs < 2 ^ 31 - 1 →
  let s := PGROUNDDOWN addr in let e := PGROUNDUP (u64 (addr + len)) in splittable s e xs →
  wp (mm_unmap m addr len) w (λ r w', ∃ v' xs', space m v' xs' w' ∧ others_kept m v w v' w' ∧ (xs' = xs ∨ xs' = cut s e xs) ∧
    (length xs' ≤ length xs + 1)%nat ∧ unmap_result (at_addr xs) (at_addr xs') s e r ∧
    (if r =? 0 then pages_out (pagetable v) s e (v_env w) (v_env w') else v_env w' = v_env w)).
Proof.
  intros Hsp Ha Hl Ht Hlen s e Hsplit. pose proof (λ x, space_ok m v xs w x Hsp) as Hok.
  destruct Hsp as [(ps & <- & Hr) Hshm Hfree Hpg Hm].
  assert (addr + len ≤ 2 ^ 64 - PGSIZE) as Hw by (unfold MAXVA, PGSIZE in *; lia).
  destruct (request_range addr len Ha Hl Hw) as (Hs1 & He1 & _ & _). fold s e in Hs1, He1.
  assert (s < e) as Hse by lia. rewrite length_fmap in Hlen |- *.
  assert (∀ v' w', keeps m ps.*1 v w v' w' → pagetable v' = pagetable v) as Hpt
    by (intros v' w' K; by rewrite (kp_listing _ _ _ _ _ _ K)).
  eapply wp_mm_unmap; [exact Hr|done..| |]; fold s e.
  - intros v' w' _ Hno Hr' K Hs' Hf' Ee. exists v', ps.*2. rewrite length_fmap. split_and!; [|eapply keeps_others; [done..|by left]|by left|lia| |done].
    + split; [by exists ps|done|done| |done]. by rewrite Ee, (Hpt v' w' K).
    + right. by split_and!.
  - intros v' w' ps' E' Hr' K Hs' Hf' Hu. exists v', ps'.*2.
    assert (∀ va, at_addr ps'.*2 va = if decide (s ≤ va < e) then None else at_addr ps.*2 va) as Hat
      by (intros va; rewrite E'; by apply at_cut).
    assert (pages_out (pagetable v) s e (v_env w) (v_env w')) as Hpo.
    { intros pt' va. rewrite (Hu pt' va). split; (intros [Hmp Hn]; split; [done|]).
      - intros [-> Hva]. apply Hn. split_and!; [done|lia..|by apply Hpg].
      - intros (-> & Hva & _). by apply Hn. }
    split_and!; [|eapply keeps_others; [done..|by left]|by right| |left; by split|exact Hpo].
    + split; [by eexists|done|done| |done]. rewrite (Hpt v' w' K). intros va [Hmp Hn]%Hpo. apply at_addr_is_some.
      rewrite Hat, decide_False by tauto. by apply at_addr_is_some, Hpg.
    + rewrite E'. apply cut_length; [done|apply Hr|]. intros p. by eapply rep_ok.
Qed.

Lemma covers_same (ps : list area) p q va : ordered ps → p ∈ ps → q ∈ ps → covers p.2 va → covers q.2 va → p = q.
Proof.
  unfold covers. induction ps as [|r ps IH]; intros Ho Hp Hq Hc Hd; [by apply elem_of_nil in Hp|].
  apply ordered_cons in Ho as [Ho Hr]. apply elem_of_cons in Hp as [->|Hp], Hq as [->|Hq]; [done|..|by apply IH].
  - specialize (Hr q Hq). lia.
  - specialize (Hr p Hp). lia.
Qed.

(** A range inside an area of shared memory: the lower part is left without it. *)
Lemma mm_unmap_inside m v ps a x addr len w : mm_rep m v ps w → m ≠ 0 → 0 ≤ addr → 0 < len → addr + len < MAXVA →
  v_links w !! free_list = None → zlen ps < 2 ^ 31 - 1 → ¬ no_vma_left →
  let s := PGROUNDDOWN addr in let e := PGROUNDUP (u64 (addr + len)) in
  (a, x) ∈ ps → vm_start x < s → e < vm_end x →
  wp (mm_unmap m addr len) w (λ r w', r = 0 ∧ v_shm w' = v_shm w ∧ ∃ b v' ps', mm_rep m v' ps' w' ∧
    (b, new_area m (vm_start x) s (vm_flags x)) ∈ ps').
Proof.
  intros Hr Hm Ha Hl Ht Hfree Hlen Hno s e Hin Hs He. pose proof (unmap_range_top addr len Ha Hl Ht) as Htop.
  assert (addr + len ≤ 2 ^ 64 - PGSIZE) as Hw by (unfold MAXVA, PGSIZE in *; lia).
  destruct (request_range addr len Ha Hl Hw) as (Hs1 & He1 & Hsm & Hem). fold s e in Hs1, He1, Hsm, Hem, Htop.
  pose proof (rep_cached m v ps w s Hr) as Hrc. pose proof (mr_order _ _ _ _ Hr) as Ho.
  eapply wp_unmap_find; [exact Hr|done..| |]; fold s e.
  2: { intros p1 p2 -> Hp1 Hp2. apply elem_of_app in Hin as [Hin|Hin]; [specialize (Hp1 _ Hin)|specialize (Hp2 _ Hin)]; cbn in *; lia. }
  intros p1 b y p2 Ep Hy1 Hy2 Hp1.
  assert ((a, x) = (b, y)) as [= <- <-].
  { apply (covers_same ps (a, x) (b, y) s); [done|done|rewrite Ep; set_solver|unfold covers; cbn; lia|].
    unfold covers. cbn. split; [|lia]. rewrite Ep in Hin, Ho. apply elem_of_app in Hin as [Hin|[[= <- <-]|Hin]%elem_of_cons]; [|lia|].
    - specialize (Hp1 _ Hin). cbn in Hp1. lia.
    - apply ordered_app in Ho as (_ & [_ Ho]%ordered_cons & _). specialize (Ho _ Hin). cbn in Ho.
      pose proof (ao_range _ (rep_ok _ _ _ _ (b, y) Hr ltac:(rewrite Ep; set_solver))). cbn in *. lia. }
  unfold unmap_found. rewrite (proj2 (Z.ltb_lt _ _)), (proj2 (Z.ltb_lt _ _)) by lia. cbn [andb]. rewrite Ep in Hrc, Hlen.
  eapply wp_unmap_split; [by rewrite Ep|destruct (first_end s ps); done|lia|done|done|done|exact Hlen|done|done|done|].
  intros c v2 w2 ps' Hr2 _ Es2 _ _. split; [done|]. split; [rewrite Es2; by destruct (first_end s ps)|].
  exists c, v2. eexists. split; [exact Hr2|]. set_solver.
Qed.

Lemma vma_destroy_null b x w : v_vmas w !! b = Some x → flag (vm_flags x) VM_SHARE = true → v_shm w !! shmem x = None →
  vma_destroy b w = Undef.
Proof.
  intros Hb Hf Hn. unfold vma_destroy. apply undef_after. eapply wp_get_vma; [exact Hb|]. rewrite Hf. apply undef_here.
  unfold shmem_ref_dec, upd_ref. do 2 apply undef_here. unfold get_shm. apply undef_after. by rewrite wp_gets, Hn.
Qed.

(** Beyond the top nothing is done. *)
Lemma mm_unmap_beyond m addr len w : 0 ≤ addr → 0 < len → MAXVA ≤ addr + len < 2 ^ 64 →
  mm_unmap m addr len w = Ok (- E_INVAL, w).
Proof.
  intros Ha Hl Ht. unfold mm_unmap. rewrite (wrap_small 64 (addr + len)) by lia.
  rewrite (proj2 (Z.ltb_ge (addr + len) MAXVA)), andb_false_r by lia. done.
Qed.

(** ** Histories *)

Inductive request := Map (addr len flags : Z) | Unmap (addr len : Z).

Definition serve (m : Z) (q : request) : M (vworld E) Z :=
  match q with Map addr len flags => '(r, _) ← mm_map m addr len flags; mret r | Unmap addr len => mm_unmap m addr len end.

Fixpoint serve_all (m : Z) (qs : list request) : M (vworld E) (list Z) :=
  match qs with [] => mret [] | q :: qs' => r ← serve m q; rs ← serve_all m qs'; mret (r :: rs) end.

(** The end does not wrap around; shared memory is mapped by another call. *)
Definition valid (q : request) : Prop :=
  match q with
  | Map addr len flags => 0 ≤ addr ∧ 0 < len ∧ addr + len ≤ 2 ^ 64 - PGSIZE ∧ flag flags VM_SHARE = false
  | Unmap addr len => 0 ≤ addr ∧ 0 < len ∧ addr + len < 2 ^ 64
  end.

(** The abstract step. *)
Definition astep (f : contents) (q : request) (r : Z) (f' : contents) : Prop :=
  match q with
  | Map addr len flags => map_result f f' (PGROUNDDOWN addr) (PGROUNDUP (u64 (addr + len))) flags r
  | Unmap addr len =>
      if addr + len <? MAXVA then unmap_result f f' (PGROUNDDOWN addr) (PGROUNDUP (u64 (addr + len))) r
      else r = - E_INVAL ∧ ∀ va, f' va = f va
  end.
Inductive asteps : contents → list request → list Z → contents → Prop :=
| asteps_nil f : asteps f [] [] f
| asteps_cons f q r f1 qs rs f2 : astep f q r f1 → asteps f1 qs rs f2 → asteps f (q :: qs) (r :: rs) f2.

(** No shared area has the range of an unmapping strictly inside, which would split it
    (see [mm_unmap_inside_shared]): not both neighbours of the range are shared. *)
Definition shared_at (f : contents) (va : Z) : Prop := ∃ fl o, f va = Some (fl, o) ∧ flag fl VM_SHARE = true.
Definition uncut (f : contents) (q : request) : Prop :=
  match q with
  | Map _ _ _ => True
  | Unmap addr len => ¬ (shared_at f (PGROUNDDOWN addr - 1) ∧ shared_at f (PGROUNDUP (u64 (addr + len))))
  end.
(** The same of every call of a history, whatever the calls before returned. *)
Definition never_cut (f : contents) (qs : list request) : Prop :=
  ∀ qs1 q qs2 rs f1, qs = qs1 ++ q :: qs2 → asteps f qs1 rs f1 → uncut f1 q.

Lemma never_cut_step f q qs r f1 : never_cut f (q :: qs) → astep f q r f1 → uncut f q ∧ never_cut f1 qs.
Proof.
  intros Hn Ha. split; [by eapply (Hn [] q qs); [|constructor]|].
  intros qs1 q1 qs2 rs f2 -> Has. eapply (Hn (q :: qs1)); [done|by econstructor].
Qed.

Lemma uncut_first f q qs : never_cut f (q :: qs) → uncut f q.
Proof. intros Hn. by eapply (Hn [] q qs); [|constructor]. Qed.

Lemma at_addr_in m v xs w x va : space m v xs w → x ∈ xs → covers x va → at_addr xs va = Some (mapping x va).
Proof.
  intros [(ps & <- & Hr) _ _ _ _] (p & -> & Hp)%list_elem_of_fmap Hc.
  destruct (at_addr ps.*2 va) as [r|] eqn:Ea.
  - apply at_addr_some in Ea as (y & (q & -> & Hq)%list_elem_of_fmap & Hcy & ->).
    by rewrite (covers_same ps p q va (mr_order _ _ _ _ Hr) Hp Hq Hc Hcy).
  - exfalso. apply (proj2 (at_addr_is_some ps.*2 va)); [|done]. exists p.2. split; [by apply list_elem_of_fmap_2|done].
Qed.

Lemma uncut_splittable m v xs w addr len : space m v xs w → 0 ≤ addr → 0 < len → addr + len < MAXVA →
  uncut (at_addr xs) (Unmap addr len) → splittable (PGROUNDDOWN addr) (PGROUNDUP (u64 (addr + len))) xs.
Proof.
  intros Hsp Ha Hl Ht Hu x Hx Hs He. destruct (flag (vm_flags x) VM_SHARE) eqn:Ef; [|done]. exfalso. apply Hu.
  destruct (request_range addr len Ha Hl ltac:(unfold MAXVA, PGSIZE in *; lia)) as (H1 & H2 & _ & _).
  split; (eexists _, _; split; [eapply at_addr_in; [exact Hsp|exact Hx|unfold covers; lia]|exact Ef]).
Qed.

Lemma serve_run m v xs q w : space m v xs w → uncut (at_addr xs) q → valid q → zlen xs < 2 ^ 31 - 1 →
  wp (serve m q) w (λ r w', ∃ v' xs', space m v' xs' w' ∧ (length xs' ≤ length xs + 1)%nat ∧
    astep (at_addr xs) q r (at_addr xs')).
Proof.
  intros Hsp Hun Hv Hlen. destruct q as [addr len flags|addr len]; cbn [valid serve astep] in Hv |- *.
  - destruct Hv as (H1 & H2 & H3 & H4). apply wp_bind. eapply wp_conseq; [by eapply mm_map_run|].
    intros [r a] w' (v' & xs' & Hsp' & _ & _ & Hxs & _ & Hres). rewrite wp_ret. exists v', xs'. split_and!; [done| |done].
    destruct Hxs as [->|(x1 & x2 & -> & ->)]; rewrite ?length_app; cbn; lia.
  - destruct Hv as (H1 & H2 & H3). destruct (Z.ltb_spec (addr + len) MAXVA) as [Hlt|Hge].
    2: { eapply wp_of_run; [by apply mm_unmap_beyond|]. exists v, xs. split_and!; try done. lia. }
    eapply wp_conseq; [eapply mm_unmap_run; try done; by eapply uncut_splittable|].
    intros r w' (v' & xs' & Hsp' & _ & Hxs & Hl & Hres & _). exists v', xs'. by split_and!.
Qed.

Lemma serve_all_run m v xs qs w : space m v xs w → never_cut (at_addr xs) qs → Forall valid qs →
  zlen xs + zlen qs < 2 ^ 31 - 1 →
  wp (serve_all m qs) w (λ rs w', ∃ v' xs', space m v' xs' w' ∧ asteps (at_addr xs) qs rs (at_addr xs')).
Proof.
  revert v xs w. induction qs as [|q qs IH]; intros v xs w Hsp Hun Hv Hlen; cbn [serve_all].
  - rewrite wp_ret. exists v, xs. split_and!; [done..|constructor].
  - apply Forall_cons in Hv as [Hq Hv]. cbn [length] in Hlen. apply wp_bind.
    eapply wp_conseq; [eapply serve_run; try done; [by eapply uncut_first|lia]|]. intros r w1 (v1 & xs1 & Hsp1 & Hl1 & Ha).
    apply wp_bind. eapply wp_conseq; [eapply IH; try done; [by eapply never_cut_step|lia]|].
    intros rs w2 (v2 & xs2 & Hsp2 & Has). rewrite wp_ret. exists v2, xs2. split_and!; [done..|]. by econstructor.
Qed.

(** Where nothing is shared nothing shared is cut. *)
Lemma unshared_never_cut f qs : (∀ va, ¬ shared_at f va) → Forall valid qs → never_cut f qs.
Proof.
  intros Hf Hv qs1 q qs2 rs f1 -> Has. apply Forall_app in Hv as [Hv1 _].
  assert (∀ va, ¬ shared_at f1 va) as Hf1.
  { induction Has as [f|f q1 r f1 qs1 rs f2 Ha Has IH]; [done|]. apply Forall_cons in Hv1 as [Hq Hv1]. apply IH; [|done].
    intros va (fl & o & E1 & E2). destruct q1 as [addr len flags|addr len]; cbn in Ha, Hq.
    - destruct Ha as [(_ & _ & Hn)|[(_ & _ & Hn)|(_ & _ & _ & Hn)]]; rewrite Hn in E1; [case_decide|..];
        try (by apply (Hf va); exists fl, o). injection E1 as <- <-. destruct Hq as (_ & _ & _ & Hq). congruence.
    - assert (f va = Some (fl, o)) as E0; [|by apply (Hf va); exists fl, o].
      case_match; [destruct Ha as [[_ Hn]|(_ & _ & Hn)]|destruct Ha as [_ Hn]]; rewrite Hn in E1; try done. by case_decide. }
  destruct q; [done|]. intros [Hs _]. by apply Hf1 in Hs.
Qed.
End spec.
