(* ===== verification/VmmFind.v ===== *)
(** * Address spaces: free ranges and checks of user memory *)
From Stdlib Require Import Sorted.
From S2P Require Import Prelude Errors ListH Rbtree RbRep RbSpec RbDelete RbSearch Vmm VmmRep VmmOps VmmInsert VmmPull VmmCut VmmSpec.

(** ** Lists read backwards *)

Definition flip_cell (e : List_entry) : List_entry := mk_entry (next e) (prev e).
Definition backward (h : heap) : heap := flip_cell <$> h.

Lemma nxt_backward h a : nxt (backward h) a = prv h a.
Proof. unfold nxt, prv, backward. rewrite lookup_fmap. by destruct (h !! a). Qed.
Lemma prv_backward h a : prv (backward h) a = nxt h a.
Proof. unfold nxt, prv, backward. rewrite lookup_fmap. by destruct (h !! a). Qed.

Lemma lseg_backward h a es b : lseg h a es b → lseg (backward h) b (reverse es) a.
Proof.
  revert a. induction es as [|e es IH]; intros a; cbn [lseg].
  - intros [H1 H2]. split; [by rewrite nxt_backward|by rewrite prv_backward].
  - intros [[H1 H2] Hs]. rewrite reverse_cons. apply lseg_app. split; [by apply IH|].
    split; [by rewrite nxt_backward|by rewrite prv_backward].
Qed.

Lemma is_list_backward h hd es : is_list h hd es → is_list (backward h) hd (reverse es).
Proof.
  intros [[Hh Hn]%NoDup_cons Hs]. split; [|by apply lseg_backward]. apply NoDup_cons. rewrite elem_of_reverse.
  split; [done|by rewrite reverse_Permutation].
Qed.

Section find.
Context `{VO : VmEnvOk E}.
Implicit Type w : vworld E.
Abbreviation area := (Z * Vma_struct)%type.

(** ** [get_unmapped_area] *)

Definition user_top : Z := TRAPFRAME NPROC.
(** A range of [len] bytes below the top with nothing in it. *)
Definition fits (ps : list area) (len a : Z) : Prop :=
  0 ≤ a ∧ a + len ≤ user_top ∧ ∀ p, p ∈ ps → vm_end p.2 ≤ a ∨ a + len ≤ vm_start p.2.

(** Where the areas [k2] begin. *)
Definition lowest (k2 : list area) : Z := match k2 with [] => user_top | p :: _ => vm_start p.2 end.

Definition best (ps : list area) (len r : Z) : Prop :=
  (fits ps len r ∨ r < 0) ∧ ∀ a, fits ps len a → a ≤ r.

Lemma user_top_range : PGSIZE ≤ user_top < 2 ^ 38 ∧ user_top mod PGSIZE = 0.
Proof. split; [split|]; by vm_compute. Qed.

Lemma sint64_small x : - 2 ^ 63 ≤ x < 2 ^ 63 → sint 64 (u64 x) = x.
Proof. intros H. rewrite sint_wrap. unfold sint. change (64 - 1) with 63. rewrite Z.mod_small; lia. Qed.

Lemma below_fits (k1 k2 : list area) len : ordered (k1 ++ k2) → (∀ p, p ∈ k1 ++ k2 → area_ok p.2) →
  0 < len → lowest k2 ≤ user_top → 0 ≤ lowest k2 - len → (∀ p, p ∈ k1 → vm_end p.2 ≤ lowest k2 - len) →
  fits (k1 ++ k2) len (lowest k2 - len).
Proof.
  intros (_ & Ho & _)%ordered_app Hok Hl Ht H0 Hk1. split; [done|]. split; [lia|].
  intros p [Hp|Hp]%elem_of_app; [left; by apply Hk1|right]. destruct k2 as [|q k2]; [by apply elem_of_nil in Hp|].
  cbn [lowest] in *. apply ordered_cons in Ho as [_ Hq]. pose proof (ao_range _ (Hok q ltac:(set_solver))).
  apply elem_of_cons in Hp as [->|Hp]; [lia|]. specialize (Hq p Hp). lia.
Qed.

Lemma lowest_range (k2 ps : list area) : k2 ⊆ ps → (∀ p, p ∈ ps → area_ok p.2 ∧ vm_start p.2 ≤ user_top) →
  0 ≤ lowest k2 ≤ user_top.
Proof.
  intros Hs Hok. pose proof user_top_range. unfold PGSIZE in *. destruct k2 as [|q k2]; cbn; [lia|].
  destruct (Hok q) as [[? _ _ _ _ _] ?]; [set_solver|lia].
Qed.

Lemma wp_get_unmapped_area m v ps len w (Q : Z → vworld E → Prop) :
  mm_rep m v ps w → (∀ p, p ∈ ps → vm_start p.2 ≤ user_top) → 0 < len < user_top →
  (∀ r, best ps len r → - len ≤ r → (len mod PGSIZE = 0 → r mod PGSIZE = 0) → Q r w) →
  wp (get_unmapped_area m len) w Q.
Proof.
  intros Hr Htop Hlen HQ. pose proof (rep_stored _ _ _ _ Hr) as Hst. pose proof (mr_order _ _ _ _ Hr) as Ho.
  assert (∀ p, p ∈ ps → area_ok p.2) as Hok by (intros p; by eapply rep_ok).
  pose proof user_top_range as [Hut Hum]. unfold get_unmapped_area. fold user_top.
  rewrite (proj2 (Z.eqb_neq len 0)), (proj2 (Z.leb_gt user_top len)) by lia. cbn [orb].
  assert (∀ k1 k2, ps = k1 ++ k2 → (∀ a, fits ps len a → a ≤ lowest k2 - len) →
    (lowest k2 - len < 0 ∨ ∀ p, p ∈ k1 → vm_end p.2 ≤ lowest k2 - len) → Q (sint 64 (u64 (lowest k2 - len))) w) as Hend.
  { intros k1 k2 E1 Hb Hk. assert (0 ≤ lowest k2 ≤ user_top) as Hlow
      by (apply (lowest_range k2 ps); [rewrite E1; set_solver|auto]).
    rewrite sint64_small by lia. apply HQ; [|lia|].
    - split; [|done]. destruct (Z.lt_ge_cases (lowest k2 - len) 0); [by right|left]. destruct Hk as [?|Hk]; [lia|].
      rewrite E1 in Ho, Hok |- *. apply below_fits; try done; lia.
    - intros Hm. assert (lowest k2 mod PGSIZE = 0) as Hlm.
      { destruct k2 as [|q k2]; [done|]. cbn. apply Hok. rewrite E1. set_solver. }
      rewrite Zminus_mod, Hlm, Hm. done. }
  unfold for_each_vma. apply wp_bind.
  eapply (wp_for_each_inv (backward (v_links w)) w _ _ (size (v_links w)) (mmap_list m) (reverse (map list_link ps.*1)) _
    (λ l1 start, ∃ k1 k2, ps = k1 ++ k2 ∧ l1 = reverse (map list_link k2.*1) ∧ start = u64 (lowest k2 - len) ∧
      ∀ a, fits ps len a → a ≤ lowest k2 - len)).
  - apply is_list_backward, Hr.
  - intros a b. rewrite nxt_backward. intros Hn. apply wp_result, wp_vm_links.
    eapply wp_list_prev; [exact Hn|]. by rewrite set_links_id.
  - done.
  - rewrite length_reverse. pose proof (is_list_size _ _ _ (mr_list _ _ _ _ Hr)). lia.
  - intros l1 e l2 start El (k1 & k2 & E1 & -> & -> & Hb).
    assert (map list_link ps.*1 = reverse l2 ++ e :: map list_link k2.*1) as El'.
    { apply (f_equal reverse) in El. rewrite reverse_involutive in El.
      rewrite El, reverse_app, reverse_cons, reverse_involutive, <- app_assoc. done. }
    destruct k1 as [|[a x] k1 _] using rev_ind.
    { exfalso. apply (f_equal length) in El'. rewrite E1 in El'. rewrite length_app in El'. cbn in El'. lia. }
    assert (e = list_link a) as ->.
    { rewrite E1, fmap_app, map_app, fmap_app, map_app, <- app_assoc in El'. cbn in El'.
      replace (reverse l2 ++ e :: map list_link k2.*1) with ((reverse l2 ++ [e]) ++ map list_link k2.*1) in El' by (by rewrite <- app_assoc).
      replace (map list_link k1.*1 ++ list_link a :: map list_link k2.*1)
        with ((map list_link k1.*1 ++ [list_link a]) ++ map list_link k2.*1) in El' by (by rewrite <- app_assoc).
      apply app_inv_tail in El'. by apply app_inj_2 in El' as [_ [= ->]]. }
    rewrite le2vma_link. destruct (Hst a x ltac:(rewrite E1; set_solver)) as [Ha Hax]. apply wp_bind.
    eapply wp_get_vma; [exact Ha|]. rewrite wp_ret.
    assert (0 ≤ lowest k2 ≤ user_top) as Hlow by (apply (lowest_range k2 ps); [rewrite E1; set_solver|auto]).
    assert (∀ p, p ∈ k1 → vm_end p.2 ≤ vm_start x) as Hk1.
    { intros p Hp. rewrite E1, <- app_assoc in Ho. apply ordered_app in Ho as (_ & _ & Ho). apply (Ho p (a, x) Hp). set_solver. }
    pose proof (ao_range _ Hax) as Hrg.
    destruct (Z.leb_spec (vm_end x) (u64 (lowest k2 - len))) as [Hle|Hgt].
    + rewrite wp_ret. apply (Hend (k1 ++ [(a, x)]) k2 E1 Hb).
      destruct (Z.lt_ge_cases (lowest k2 - len) 0); [by left|right]. rewrite wrap_small in Hle by lia.
      intros p [Hp| ->%list_elem_of_singleton]%elem_of_app; [|exact Hle]. specialize (Hk1 p Hp). lia.
    + split; [done|]. exists k1, ((a, x) :: k2). cbn [fmap list_fmap map fst lowest snd].
      split_and!; [by rewrite E1, <- app_assoc|by rewrite reverse_cons|done|].
      intros b Hfit. pose proof (Hb b Hfit) as Hb1. destruct Hfit as (Hb0 & _ & Hfit).
      assert (0 ≤ lowest k2 - len) as Hnn by lia. rewrite wrap_small in Hgt by lia.
      destruct (Hfit (a, x)) as [Hc|Hc]; [rewrite E1; set_solver|cbn in Hc; lia..].
  - intros start (k1 & k2 & E1 & E2 & -> & Hb). rewrite wp_ret. apply (Hend k1 k2 E1 Hb). right.
    apply (f_equal length) in E2. rewrite !length_reverse, !length_map, E1, length_app in E2.
    destruct k1 as [|? ?]; [|cbn in E2; lia]. intros p Hp. by apply elem_of_nil in Hp.
  - exists ps, []. rewrite app_nil_r. cbn [lowest]. split_and!; [done..| |].
    + rewrite wrap_small; [done|]. lia.
    + intros a (_ & ? & _). lia.
Qed.

(** ** [user_mem_check] *)

(** The access is allowed at an address: not on the first page of a stack. *)
Definition permits (x : Vma_struct) (write : bool) (va : Z) : Prop :=
  covers x va ∧ flag (vm_flags x) (if write then VM_WRITE else VM_READ) = true ∧
  (write = true → flag (vm_flags x) VM_STACK = true → vm_start x + PGSIZE ≤ va).
Definition permitted (xs : list Vma_struct) (write : bool) (va : Z) : Prop := ∃ x, x ∈ xs ∧ permits x write va.

(** One round: the area at [start] decides up to its end. *)
Lemma first_end_permits (ps : list area) (write : bool) start p1 a x p2 : ordered ps → (∀ p, p ∈ ps → area_ok p.2) →
  ps = p1 ++ (a, x) :: p2 → (∀ p, p ∈ p1 → vm_end p.2 ≤ start) → start < vm_end x →
  let ok := negb (start <? vm_start x) && flag (vm_flags x) (if write then VM_WRITE else VM_READ) &&
    negb (write && flag (vm_flags x) VM_STACK && (start <? u64 (vm_start x + PGSIZE))) in
  if ok then ∀ va, start ≤ va < vm_end x → permitted ps.*2 write va else ¬ permitted ps.*2 write start.
Proof.
  intros Ho Hok Ep Hp1 Hx ok. assert ((a, x) ∈ ps) as Hin by (rewrite Ep; set_solver).
  pose proof (Hok _ Hin) as [O1 O2 O3 O4 _ _]. cbn in *.
  assert (u64 (vm_start x + PGSIZE) = vm_start x + PGSIZE) as Eg.
  { apply wrap_small. apply Z.mod_divide in O3 as [i Hi]; [|done]. apply Z.mod_divide in O4 as [j Hj]; [|done].
    unfold PGSIZE in *. lia. }
  assert (permitted ps.*2 write start → permits x write start) as Honly.
  { intros (y & (q & -> & Hq)%list_elem_of_fmap & Hpy). destruct (Hpy) as [Hc _]. unfold covers in Hc.
    rewrite Ep in Hq. apply elem_of_app in Hq as [Hq|[->|Hq]%elem_of_cons]; [specialize (Hp1 q Hq); lia|done|].
    rewrite Ep in Ho. apply ordered_app in Ho as (_ & [_ Ho]%ordered_cons & _). specialize (Ho q Hq). cbn in Ho. lia. }
  unfold ok. rewrite Eg. destruct (Z.ltb_spec start (vm_start x)) as [Hlt|Hge]; cbn [negb andb].
  { intros [Hc _]%Honly. unfold covers in Hc. lia. }
  destruct (flag (vm_flags x) (if write then VM_WRITE else VM_READ)) eqn:Ef; cbn [negb andb].
  2: { intros (_ & Hf & _)%Honly. congruence. }
  destruct (write && flag (vm_flags x) VM_STACK) eqn:Es; cbn [negb andb].
  - apply andb_prop in Es as [-> Es]. destruct (Z.ltb_spec start (vm_start x + PGSIZE)); cbn [negb].
    + intros (_ & _ & Hg)%Honly. specialize (Hg eq_refl Es). lia.
    + intros va Hva. exists x. split; [by apply (list_elem_of_fmap_2 snd _ (a, x))|].
      split_and!; [unfold covers; lia|done|intros; lia].
  - intros va Hva. exists x. split; [by apply (list_elem_of_fmap_2 snd _ (a, x))|].
    split_and!; [unfold covers; lia|done|]. intros -> Hs. cbn in Es. congruence.
Qed.

(** The areas still to be passed. *)
Definition ahead (ps : list area) (start : Z) : nat := length (filter (λ p : area, start < vm_end p.2) ps).

Lemma ahead_less p1 a x p2 start : start < vm_end x →
  (ahead (p1 ++ (a, x) :: p2) (vm_end x) < ahead (p1 ++ (a, x) :: p2) start)%nat.
Proof.
  intros Hx. unfold ahead. rewrite !filter_app, !filter_cons. cbn.
  rewrite (decide_False (P := vm_end x < vm_end x)), (decide_True (P := start < vm_end x)) by lia.
  rewrite !length_app. cbn. assert (∀ l : list area,
    Nat.le (length (filter (λ p : area, vm_end x < vm_end p.2) l)) (length (filter (λ p : area, start < vm_end p.2) l))) as Hmono.
  { intros l. induction l as [|p l IH]; [done|]. rewrite !filter_cons. repeat case_decide; cbn; lia. }
  pose proof (Hmono p1). pose proof (Hmono p2). lia.
Qed.

Lemma rep_size m v ps w : mm_rep m v ps w → (length ps ≤ size (v_vmas w))%nat.
Proof.
  intros Hr. rewrite <- size_dom, <- (length_fmap fst). rewrite <- (size_list_to_set (C := gset Z)) by (by eapply mm_rep_nodup).
  apply subseteq_size. intros a Ha%elem_of_list_to_set. destruct (rep_at _ _ _ _ a Hr Ha) as (x & _ & Hx & _).
  by apply elem_of_dom.
Qed.

Lemma wp_user_mem_check m v ps addr len write w (Q : bool → vworld E → Prop) :
  mm_rep m v ps w → m ≠ 0 → 0 ≤ addr → 0 ≤ len → addr + len < MAXVA →
  (∀ b v' w', mm_rep m v' ps w' → keeps m [] v w v' w' → v_env w' = v_env w →
     (b = true ↔ ∀ va, addr ≤ va < addr + len → permitted ps.*2 write va) → Q b w') →
  wp (user_mem_check m addr len write) w Q.
Proof.
  intros Hr Hm Ha Hl Ht HQ. assert (u64 (addr + len) = addr + len) as Eend by (apply wrap_small; unfold MAXVA in Ht; lia).
  unfold user_mem_check. rewrite Eend. rewrite (proj2 (Z.leb_gt _ _)), (proj2 (Z.eqb_neq _ _) Hm) by lia.
  rewrite wp_bind, wp_gets. pose proof (mr_order _ _ _ _ Hr) as Ho.
  assert (∀ p, p ∈ ps → area_ok p.2) as Hok by (intros p; by eapply rep_ok).
  eapply (wp_loop _ (λ start w', ∃ v', mm_rep m v' ps w' ∧ keeps m [] v w v' w' ∧ v_env w' = v_env w ∧ addr ≤ start ∧
    ∀ va, addr ≤ va < start → permitted ps.*2 write va) (λ start _, ahead ps start)).
  2: { exists v. split_and!; [done|by apply keeps_refl|done|lia|]. intros va Hva. lia. }
  2: { pose proof (rep_size _ _ _ _ Hr). unfold ahead. pose proof (length_filter (λ p : area, addr < vm_end p.2) ps). lia. }
  intros start w1 (v1 & Hr1 & K1 & E1 & Hs & Hperm). destruct (Z.ltb_spec start (addr + len)) as [Hlt|Hge].
  2: { rewrite wp_ret. eapply HQ; [exact Hr1|exact K1|done|]. split; [|done]. intros _ va Hva. apply Hperm. lia. }
  apply wp_bind. eapply wp_find_vma; [exact Hr1|done|].
  pose proof (rep_cached m v1 ps w1 start Hr1) as Hr2. pose proof (keeps_cached m [] v1 w1 (first_end start ps)) as K2.
  assert (v_env (cached m v1 (first_end start ps) w1) = v_env w) as E2 by (by destruct (first_end start ps)).
  assert (keeps m [] v w (cached_mm v1 (first_end start ps)) (cached m v1 (first_end start ps) w1)) as K3
    by (eapply keeps_trans; [exact K1|exact K2|set_solver]).
  destruct (first_end_split start ps) as [[Ef Hn]|(p1 & a & x & p2 & Ep & Ef & Hx & Hp1)]; rewrite Ef in Hr2, K3, E2 |- *; cbn [default from_option id].
  - rewrite Z.eqb_refl, wp_ret. eapply HQ; [exact Hr2|exact K3|exact E2|]. split; [done|]. intros Hall.
    destruct (Hall start) as (y & (q & -> & Hq)%list_elem_of_fmap & [Hc _]); [lia|]. specialize (Hn q Hq). unfold covers in Hc. lia.
  - destruct (mr_vmas _ _ _ _ Hr2 a x ltac:(rewrite Ep; set_solver)) as (Hxa & Ha0 & _).
    rewrite (proj2 (Z.eqb_neq _ _) Ha0). apply wp_bind. eapply wp_get_vma; [exact Hxa|].
    pose proof (first_end_permits ps write start p1 a x p2 Ho Hok Ep Hp1 Hx) as Hfe. cbv zeta in Hfe. rewrite wp_ret.
    assert (¬ permitted ps.*2 write start → Q false (cached m v1 (Some a) w1)) as Hno.
    { intros Hnp. eapply HQ; [exact Hr2|exact K3|exact E2|]. split; [done|]. intros Hall. exfalso. apply Hnp, Hall. lia. }
    destruct (start <? vm_start x); cbn [negb andb] in Hfe; [by apply Hno|].
    destruct (flag (vm_flags x) (if write then VM_WRITE else VM_READ)); cbn [negb andb] in Hfe |- *; [|by apply Hno].
    destruct (write && flag (vm_flags x) VM_STACK && (start <? u64 (vm_start x + PGSIZE))); cbn [negb] in Hfe; [by apply Hno|].
    split.
    + eexists. split_and!; [exact Hr2|exact K3|exact E2|lia|]. intros va Hva.
      destruct (Z.lt_ge_cases va start); [apply Hperm; lia|apply Hfe; lia].
    + rewrite Ep. by apply ahead_less.
Qed.

(** A range that wraps around is never looked at. *)
Lemma user_mem_check_wrap_run m addr len write w :
  m ≠ 0 → 0 ≤ addr < 2 ^ 64 → 0 ≤ len < 2 ^ 64 → 2 ^ 64 ≤ addr + len < 2 ^ 64 + MAXVA →
  user_mem_check m addr len write w = Ok (true, w).
Proof.
  intros Hm Ha Hl Hw. assert (u64 (addr + len) = addr + len - 2 ^ 64) as E1.
  { unfold wrap. replace (addr + len) with (addr + len - 2 ^ 64 + 1 * 2 ^ 64) by lia.
    rewrite Z_mod_plus_full. unfold MAXVA in Hw. rewrite Z.mod_small; lia. }
  unfold user_mem_check. rewrite E1, (proj2 (Z.leb_gt _ _)), (proj2 (Z.eqb_neq _ _) Hm) by lia.
  apply wp_result. rewrite wp_bind, wp_gets. cbn [loop]. apply wp_bind. rewrite (proj2 (Z.ltb_ge _ _)) by lia.
  by rewrite !wp_ret.
Qed.
End find.

(** * Address spaces: [exit_mmap] *)

Section exit.
Context `{VO : VmEnvOk E}.
Implicit Type w : vworld E.
Abbreviation area := (Z * Vma_struct)%type.

(** A walk over the areas that changes no more than what is not modelled. *)
Lemma wp_each_vma m v ps w (c : Vma_struct → M E unit) (I : list area → E → Prop) (Q : unit + Empty_set → vworld E → Prop) :
  mm_rep m v ps w → I [] (v_env w) →
  (∀ k1 a x k2 e, ps = k1 ++ (a, x) :: k2 → I k1 e → wp (c x) e (λ _ e', I (k1 ++ [(a, x)]) e')) →
  (∀ e', I ps e' → Q (inl tt) (set_env e' w)) →
  wp (for_each_vma (A := Empty_set) list_next (mmap_list m) (λ _ le, x ← get_vma (le2vma le); on_env (c x);; mret (inl tt)) tt) w Q.
Proof.
  intros Hr H0 Hc HQ. pose proof (rep_stored _ _ _ _ Hr) as Hst. unfold for_each_vma.
  eapply (wp_for_each_state v_links _ _ (mmap_list m) (map list_link ps.*1) _
    (λ l1 _ w', ∃ k1 k2 e', ps = k1 ++ k2 ∧ l1 = map list_link k1.*1 ∧ w' = set_env e' w ∧ I k1 e')).
  - intros l1 _ w' (k1 & k2 & e' & _ & _ & -> & _). apply Hr.
  - intros w' a b Hab. apply wp_result, wp_vm_links. eapply wp_list_next; [exact Hab|]. by rewrite set_links_id.
  - rewrite wp_gets. split; [done|]. pose proof (is_list_size _ _ _ (mr_list _ _ _ _ Hr)). lia.
  - intros l1 e l2 [] w' El (k1 & k2 & e' & Ek & -> & -> & HI). rewrite Ek, fmap_app, map_app in El.
    apply app_inv_head in El. destruct k2 as [|[a x] k2]; [done|]. injection El as <- _. rewrite le2vma_link.
    destruct (Hst a x ltac:(rewrite Ek; set_solver)) as [Ha _]. apply wp_bind. eapply wp_get_vma; [exact Ha|].
    apply wp_bind, wp_zoom. eapply wp_conseq; [by eapply Hc|]. intros [] e2 HI2. rewrite wp_ret.
    exists (k1 ++ [(a, x)]), k2, e2. rewrite <- app_assoc, fmap_app, map_app. by split_and!.
  - intros [] w' (k1 & k2 & e' & Ek & El & -> & HI). apply (f_equal length) in El.
    rewrite !length_map, Ek, length_app in El. destruct k2; [|cbn in El; lia]. rewrite app_nil_r in Ek. subst k1. by apply HQ.
  - exists [], ps, (v_env w). by destruct w.
Qed.

(** All areas leave and are destroyed. *)
Lemma wp_exit_loop m own v0 w0 ps v w fuel (Q : unit → vworld E → Prop) :
  pulled m own v0 w0 ps [] v w → shm_ok ps.*2 w → zlen ps < 2 ^ 31 → (length ps < fuel)%nat →
  (∀ v' w', pulled m own v0 w0 [] [] v' w' → v_links w' !! free_list = v_links w !! free_list →
     (∀ pt va, mapped (v_env w') pt va ↔ mapped (v_env w) pt va) → Q tt w') →
  wp (loop fuel (λ _,
    le ← on_links (list_next (mmap_list m));
    if le =? mmap_list m then mret (inr tt) else
    remove_and_destroy_vma_struct m (le2vma le);;
    mret (inl tt)) tt) w Q.
Proof.
  revert v w fuel. induction ps as [|[a x] ps IH]; intros v w fuel HP Hshm Hlen Hf HQ; (destruct fuel as [|fuel]; [cbn in Hf; lia|]);
    cbn [loop]; apply wp_bind, wp_bind, wp_vm_links; pose proof (mr_list _ _ _ _ (pu_rep _ _ _ _ _ _ _ _ HP)) as [_ Hs];
    (eapply wp_list_next; [by apply lseg_first in Hs|]); rewrite set_links_id; cbn [head map fmap list_fmap fst default from_option id].
  - rewrite Z.eqb_refl, wp_ret, wp_ret. by apply (HQ v w).
  - rewrite (proj2 (Z.eqb_neq _ _)) by apply link_ne_head. rewrite le2vma_link. apply wp_bind.
    unfold remove_and_destroy_vma_struct. apply wp_bind.
    eapply (wp_remove_vma m v [] ps a x); [apply HP|exact Hlen|]. intros v1 w1 Hr1 K1 L1 Ev1 Es1 Ee1 Ef1.
    pose proof (pulled_remove _ _ _ _ [] ps a x [] v w v1 w1 HP Hr1 K1 L1) as HP1. cbn [app] in HP1.
    apply wp_bind. eapply (wp_vma_destroy a x ps.*2); [apply L1|by eapply shm_ok_refs|].
    intros S e' w2 Hshm2 Hm2. rewrite wp_ret, wp_ret. destruct (pulled_freed _ _ _ _ _ a x [] v1 w1 S e' HP1) as [HP2 _].
    cbn in Hlen, Hf. apply (IH v1 w2 fuel HP2 Hshm2); [lia|lia|]. intros v3 w3 HP3 Hf3 Hm3. apply (HQ v3 w3 HP3).
    + rewrite Hf3. unfold w2. cbn. rewrite lookup_delete_ne by apply link_ne_free. exact Ef1.
    + intros pt va. rewrite Hm3. change (v_env w2) with e'. by rewrite Hm2, Ee1.
Qed.

Lemma exit_mmap_run m v xs w : space m v xs w → (∀ x, x ∈ xs → vm_end x ≤ MAXVA) → zlen xs < 2 ^ 31 →
  wp (exit_mmap m) w (λ _ w', ∃ v', space m v' [] w' ∧ others_kept m v w v' w' ∧
    ∀ pt va, mapped (v_env w') pt va ↔ mapped (v_env w) pt va ∧ pt ≠ pagetable v).
Proof.
  intros [(ps & <- & Hr) Hshm Hst Hpg Hm] Htop Hlen. rewrite length_fmap in Hlen. unfold exit_mmap.
  rewrite wp_bind, wp_assert, (proj2 (Z.eqb_neq _ _) Hm). split; [done|]. apply wp_bind. eapply wp_get_mm; [apply Hr|].
  apply wp_bind. eapply (wp_each_vma m v ps w _ (λ k e, ∀ pt va,
    mapped e pt va ↔ mapped (v_env w) pt va ∧ ¬ (pt = pagetable v ∧ ∃ x, x ∈ k.*2 ∧ covers x va))); [exact Hr|..].
  { intros pt va. split; [|tauto]. intros Hmp. split; [done|]. intros (_ & x & Hx & _). by apply elem_of_nil in Hx. }
  { intros k1 a x k2 e Ek HI. assert ((a, x) ∈ ps) as Hin by (rewrite Ek; set_solver).
    pose proof (rep_ok _ _ _ _ _ Hr Hin) as [O1 _ O3 O4 _ _]. cbn in O1, O3, O4.
    destruct (vo_unmap e (pagetable v) (vm_start x) (vm_end x)) as (e' & He & H1 & H2); [done|done|lia|..].
    { apply Htop. by apply (list_elem_of_fmap_2 snd _ (a, x)). }
    eapply wp_of_run; [exact He|]. intros pt va. destruct (decide (pt = pagetable v)) as [->|Hne].
    - rewrite H1, HI, fmap_app. unfold covers. split.
      + intros [[Hmp Hn] Hva]. split; [done|]. intros (_ & y & [Hy|Hy]%elem_of_app & Hc); [apply Hn; eauto|].
        cbn in Hy. apply list_elem_of_singleton in Hy as ->. lia.
      + intros [Hmp Hn]. split; [split; [done|]|].
        * intros (_ & y & Hy & Hc). apply Hn. split; [done|]. exists y. split; [|done]. apply elem_of_app. by left.
        * intros Hva. apply Hn. split; [done|]. exists x. split; [|done]. apply elem_of_app. right. by left.
    - rewrite H2, HI by done. naive_solver. }
  intros e1 He1. assert (∀ pt va, mapped e1 pt va ↔ mapped (v_env w) pt va ∧ pt ≠ pagetable v) as Hout.
  { intros pt va. rewrite He1. split; (intros [Hmp Hn]; split; [done|]).
    - intros ->. apply Hn. split; [done|]. by apply Hpg.
    - by intros [? _]. }
  assert (mm_rep m v ps (set_env e1 w)) as Hr1 by (by eapply rep_eq).
  apply wp_bind. eapply (wp_each_vma m v ps _ _ (λ _ e, ∀ pt va, mapped e pt va ↔ mapped (v_env w) pt va ∧ pt ≠ pagetable v)); [exact Hr1|done|..].
  { intros k1 a x k2 e _ HI. destruct (vo_exit e (pagetable v) (vm_start x) (vm_end x)) as (e' & He & H1).
    - intros va _ [_ Hn]%HI. done.
    - eapply wp_of_run; [exact He|]. intros pt va. by rewrite H1. }
  intros e2 He2. rewrite wp_bind, wp_gets. set (w2 := set_env e2 (set_env e1 w)).
  assert (pulled m ps.*1 v w ps [] v w2) as HP.
  { split; rewrite ?app_nil_r; [by eapply rep_eq|by eapply keeps_eq; [apply keeps_refl|..]| |by eapply mm_rep_nodup|done].
    intros a x Hx. by apply elem_of_nil in Hx. }
  eapply (wp_exit_loop m ps.*1 v w ps v w2); [exact HP|by eapply shm_ok_refs|done|..].
  { pose proof (is_list_size _ _ _ (mr_list _ _ _ _ Hr)) as Hs. rewrite length_map, length_fmap in Hs. cbn. lia. }
  intros v3 w3 HP3 Hf3 Hm3. exists v3. split_and!.
  - split; [exists []; split; [done|apply HP3]|intros s Hs; cbn in Hs; lia|by rewrite Hf3| |done].
    rewrite (kp_listing _ _ _ _ _ _ (pu_keeps _ _ _ _ _ _ _ _ HP3)). intros va. rewrite Hm3. cbn. rewrite He2. by intros [_ ?].
  - eapply keeps_others; [exact Hr|apply HP3|by left].
  - intros pt va. rewrite Hm3. apply He2.
Qed.
End exit.
