(* ===== verification/VmmUser.v ===== *)
(** * Address spaces: memory of the process, [copy_user2kernel] and [copy_kernel2user]

    A copy goes page by page through the entries of the page table: it is what the
    pages hold when all of them are there, and stops the kernel when one is not. *)
From Stdlib Require Import Sorted.
From S2P Require Import Prelude Errors ListH Rbtree RbRep RbSpec RbDelete RbSearch Vmm VmmRep VmmOps VmmInsert.

(** The entries of a page table are valid where it has a page; memory holds bytes, and
    a byte written to a page of a process changes no page table. *)
Class UserMem `{VO : VmEnvOk E} := {
  um_pte (e : E) pt va : va mod PGSIZE = 0 → 0 ≤ va < MAXVA →
    mapped e pt va ↔ ∃ pte, ve_get_pte e pt va = Some pte ∧ flag pte PTE_V = true;
  um_byte (e : E) a : 0 ≤ ve_byte e a < 2 ^ 8;
  um_put (e : E) a b x : 0 ≤ b < 2 ^ 8 → ve_byte (ve_put_byte a b e) x = if x =? a then b else ve_byte e x;
  um_tables (e : E) pt va pte i b : va mod PGSIZE = 0 → 0 ≤ va < MAXVA →
    ve_get_pte e pt va = Some pte → flag pte PTE_V = true → 0 ≤ i < PGSIZE →
    let e' := ve_put_byte (PTE2PA pte + i) b e in
    (∀ pt' va', ve_get_pte e' pt' va' = ve_get_pte e pt' va') ∧ (∀ pt' va', mapped e' pt' va' ↔ mapped e pt' va') }.
Arguments UserMem E {VE VO}.

Section user.
Context `{UM : UserMem E}.
Implicit Types (e : E) (pt va a : Z).

(** The page of an address is there; the byte at the address. *)
Definition page_there e pt va : Prop := 0 ≤ va < MAXVA ∧ mapped e pt (PGROUNDDOWN va).
Definition user_byte e pt va : Z :=
  match ve_get_pte e pt (PGROUNDDOWN va) with Some pte => ve_byte e (PTE2PA pte + va mod PGSIZE) | None => 0 end.
(** A word and its pages. *)
Definition user_word e pt a : Z := little_endian_to_Z 8 (user_byte e pt <$> seqZ a 8).
Definition word_there e pt a : Prop := page_there e pt a ∧ page_there e pt (a + 7).

(** ** Addresses *)

Lemma pte_aligned pte : PTE2PA pte mod PGSIZE = 0 ∧ 0 ≤ PTE2PA pte ≤ 2 ^ 64 - PGSIZE.
Proof.
  unfold PTE2PA, wrap, PGSIZE. rewrite Z.shiftl_mul_pow2 by lia. set (k := Z.shiftr pte 10).
  change (2 ^ 12) with 4096. pose proof (Z.mod_pos_bound (k * 4096) (2 ^ 64) ltac:(lia)).
  assert ((k * 4096) mod 2 ^ 64 mod 4096 = 0) as Hm.
  { pose proof (Z.div_mod (k * 4096) (2 ^ 64) ltac:(lia)) as Hd.
    replace ((k * 4096) mod 2 ^ 64) with ((k - 2 ^ 52 * (k * 4096 / 2 ^ 64)) * 4096) by lia. apply Z_mod_mult. }
  split; [done|]. apply Z.mod_divide in Hm as [j Hj]; [|done]. lia.
Qed.

Lemma page_of va : 0 ≤ va < MAXVA → PGROUNDDOWN va mod PGSIZE = 0 ∧ 0 ≤ PGROUNDDOWN va < MAXVA ∧
  va = PGROUNDDOWN va + va mod PGSIZE ∧ 0 ≤ va mod PGSIZE < PGSIZE ∧ PGROUNDDOWN va + PGSIZE ≤ MAXVA.
Proof.
  intros Hv. unfold MAXVA in *. destruct (round_down_spec va ltac:(lia)) as (H1 & H2 & H3).
  rewrite round_down in * by lia. pose proof (Z.mod_pos_bound va PGSIZE ltac:(done)).
  apply Z.mod_divide in H1 as [k Hk]; [|done]. unfold PGSIZE in *. split; [rewrite Hk; apply Z_mod_mult|lia].
Qed.

Lemma same_page va d : 0 ≤ va < MAXVA → 0 ≤ d < PGSIZE - va mod PGSIZE →
  PGROUNDDOWN (va + d) = PGROUNDDOWN va ∧ (va + d) mod PGSIZE = va mod PGSIZE + d.
Proof.
  intros Hv Hd. destruct (page_of va Hv) as (H1 & H2 & H3 & H4 & H5). unfold MAXVA in *.
  assert ((va + d) mod PGSIZE = va mod PGSIZE + d) as Em.
  { rewrite <- Z.add_mod_idemp_l by done. apply Z.mod_small. lia. }
  rewrite !round_down by lia. lia.
Qed.

Lemma page_part_eq va len : 0 ≤ va < MAXVA → page_part va len = Z.min (PGSIZE - va mod PGSIZE) len.
Proof.
  intros Hv. destruct (page_of va Hv) as (_ & _ & H3 & H4 & _). unfold page_part, PGSIZE in *.
  rewrite (wrap_small 64 (va - _)) by lia. rewrite wrap_small by lia.
  destruct (Z.ltb_spec len (4096 - (va - PGROUNDDOWN va))); lia.
Qed.

(** ** The table *)

Lemma page_entry e pt va : page_there e pt va →
  ∃ pte, ve_get_pte e pt (PGROUNDDOWN va) = Some pte ∧ flag pte PTE_V = true.
Proof. intros [Hv Hm]. destruct (page_of va Hv) as (H1 & H2 & _). by apply um_pte. Qed.

Lemma wp_va2pa e pt va (Q : Z → E → Prop) :
  page_there e pt va →
  (∀ pte, ve_get_pte e pt (PGROUNDDOWN va) = Some pte → flag pte PTE_V = true → Q (PTE2PA pte) e) →
  wp (va2pa pt (PGROUNDDOWN va)) e Q.
Proof.
  intros Ht HQ. destruct (page_entry e pt va Ht) as (pte & Ep & Hf). pose proof Ht as [Hv _].
  destruct (page_of va Hv) as (H1 & H2 & _). unfold va2pa.
  rewrite wp_bind, wp_assert, (proj2 (Z.ltb_lt _ _)) by lia. split; [done|].
  rewrite wp_bind, wp_gets, Ep, wp_bind, wp_ret, wp_bind, wp_assert, Hf. split; [done|]. rewrite wp_ret.
  assert (PGOFF (PGROUNDDOWN va) = 0) as ->.
  { unfold PGOFF. change 4095 with (Z.ones 12). by rewrite Z.land_ones. }
  destruct (pte_aligned pte). rewrite Z.add_0_r, wrap_small by (unfold PGSIZE in *; lia). by apply HQ.
Qed.

Lemma va2pa_panics e pt va : 0 ≤ va < 2 ^ 64 → ¬ page_there e pt va → va2pa pt (PGROUNDDOWN va) e = Panic.
Proof.
  intros Hv Ht. destruct (round_down_spec va Hv) as (Hm & Hr & H0). unfold va2pa, mbind, M_bind, assert_, gets.
  destruct (Z.ltb_spec (PGROUNDDOWN va) MAXVA) as [Hlt|]; [|done]. cbn.
  assert (va < MAXVA) as Hva.
  { apply Z.mod_divide in Hm as [k Hk]; [|done]. unfold MAXVA, PGSIZE in *. lia. }
  destruct (ve_get_pte e pt (PGROUNDDOWN va)) as [pte|] eqn:Ep; [|done]. cbn.
  destruct (flag pte PTE_V) eqn:Ef; [|done]. exfalso. apply Ht. split; [lia|]. apply um_pte; [done|lia|eauto].
Qed.

(** ** From the process *)

Lemma get_bytes_page e pt va n pte : 0 ≤ va < MAXVA → 0 ≤ n ≤ PGSIZE - va mod PGSIZE →
  ve_get_pte e pt (PGROUNDDOWN va) = Some pte →
  get_bytes (u64 (PTE2PA pte + u64 (va - PGROUNDDOWN va))) n e = user_byte e pt <$> seqZ va n.
Proof.
  intros Hv Hn Ep. destruct (page_of va Hv) as (_ & _ & H3 & H4 & _). destruct (pte_aligned pte) as [_ Hp].
  replace (va - PGROUNDDOWN va) with (va mod PGSIZE) by lia.
  rewrite (wrap_small 64 (va mod _)), wrap_small by (unfold PGSIZE in *; lia).
  replace (seqZ va n) with (Z.add va <$> seqZ 0 n) by (rewrite fmap_add_seqZ; f_equal; lia).
  unfold get_bytes. rewrite <- list_fmap_compose. apply list_fmap_ext. intros j i Hi.
  apply list_elem_of_lookup_2, elem_of_seqZ in Hi. unfold user_byte. cbn.
  destruct (same_page va i Hv ltac:(lia)) as [-> ->]. rewrite Ep. f_equal. lia.
Qed.

Lemma wp_in_round e pt va n dst (Q : Z * Z * list Z + list Z → E → Prop) : page_there e pt va → 0 < n →
  (∀ k, k = Z.min (PGSIZE - va mod PGSIZE) n → 0 < k ≤ n →
     Q (inl (PGROUNDDOWN va + PGSIZE, n - k, dst ++ (user_byte e pt <$> seqZ va k))) e) →
  wp (copy_in_round pt (va, n, dst)) e Q.
Proof.
  intros Ht Hn HQ. pose proof Ht as [Hv _]. destruct (page_of va Hv) as (_ & _ & H3 & H4 & H5).
  unfold copy_in_round. rewrite (proj2 (Z.eqb_neq n 0)) by lia.
  apply wp_bind. eapply wp_va2pa; [exact Ht|]. intros pte Ep Hf. rewrite page_part_eq by done.
  rewrite wp_bind, wp_gets, (get_bytes_page e pt va _ pte), wp_ret by (try done; lia).
  rewrite wrap_small by (unfold MAXVA, PGSIZE in *; lia). apply HQ; [done|lia].
Qed.

Lemma wp_copy_in e pt a len (Q : list Z → E → Prop) :
  0 ≤ len → (∀ va, a ≤ va < a + len → page_there e pt va) →
  Q (user_byte e pt <$> seqZ a len) e → wp (copy_user2kernel pt a len) e Q.
Proof.
  intros Hlen Hp HQ. unfold copy_user2kernel.
  eapply (wp_loop _ (λ '(va, n, dst) s, s = e ∧ 0 ≤ n ≤ len ∧ (n ≠ 0 → va = a + (len - n)) ∧
    dst = user_byte e pt <$> seqZ a (len - n)) (λ '(_, n, _) _, Z.to_nat n)).
  - intros [[va n] dst] s (-> & Hn & Ha & ->). destruct (Z.eq_dec n 0) as [->|Hnz].
    { unfold copy_in_round. cbn [Z.eqb]. rewrite wp_ret. by rewrite Z.sub_0_r. }
    rewrite (Ha Hnz). clear va Ha. set (va := a + (len - n)). assert (page_there e pt va) as Ht by (apply Hp; lia).
    destruct (page_of va (proj1 Ht)) as (_ & _ & H3 & H4 & H5).
    eapply wp_in_round; [exact Ht|lia|]. intros k Ek Hk. split; [|lia]. split; [done|]. split; [lia|]. split; [intros; lia|].
    rewrite <- fmap_app. f_equal. unfold va. rewrite <- seqZ_app by lia. f_equal. lia.
  - split; [done|]. split; [lia|]. split; [intros _; lia|]. by rewrite Z.sub_diag.
  - lia.
Qed.

(** ** A word *)

Lemma word_range e pt a i : word_there e pt a → a ≤ i < a + 8 → page_there e pt i.
Proof.
  intros [[H1 M1] [H2 M2]] Hi. split; [lia|]. destruct (page_of a H1) as (_ & _ & Ea & Ra & _).
  destruct (Z.lt_ge_cases (i - a) (PGSIZE - a mod PGSIZE)) as [Hlt|Hge].
  - replace i with (a + (i - a)) by lia. by rewrite (proj1 (same_page a (i - a) H1 ltac:(lia))).
  - destruct (page_of i ltac:(lia)) as (Mi & _ & Ei & Ri & _).
    assert (0 ≤ a + 7 - i < PGSIZE - i mod PGSIZE) as Hd.
    { assert (i mod PGSIZE = a mod PGSIZE + (i - a) - PGSIZE) as ->; [|unfold PGSIZE in *; lia].
      rewrite <- (Z.mod_small (a mod PGSIZE + (i - a) - PGSIZE) PGSIZE) by (unfold PGSIZE in *; lia).
      rewrite <- (Z_mod_plus_full (a mod PGSIZE + (i - a) - PGSIZE) 1 PGSIZE).
      replace (a mod PGSIZE + (i - a) - PGSIZE + 1 * PGSIZE) with (a mod PGSIZE + (i - a)) by lia.
      rewrite Z.add_mod_idemp_l by done. f_equal. lia. }
    rewrite <- (proj1 (same_page i _ ltac:(lia) Hd)). by replace (i + (a + 7 - i)) with (a + 7) by lia.
Qed.

Lemma user_byte_range e pt va : 0 ≤ user_byte e pt va < 2 ^ 8.
Proof. unfold user_byte. destruct (ve_get_pte _ _ _); [apply um_byte|lia]. Qed.

Lemma user_word_range e pt a : 0 ≤ user_word e pt a < 2 ^ 64.
Proof.
  unfold user_word. pose proof (little_endian_to_Z_bound 8 (user_byte e pt <$> seqZ a 8)) as Hb.
  rewrite length_fmap, length_seqZ in Hb. change (8 * Z.of_nat (Z.to_nat 8)) with 64 in Hb. apply Hb; [lia|].
  apply Forall_fmap, Forall_true. intros i. apply user_byte_range.
Qed.

Lemma wp_load64 e pt a (Q : Z → E → Prop) : word_there e pt a → Q (user_word e pt a) e → wp (load64 pt a) e Q.
Proof.
  intros Ht HQ. unfold load64. apply wp_bind. apply wp_copy_in; [done|intros; by eapply word_range|]. by rewrite wp_ret.
Qed.

(** ** To the process *)

(** The tables are the same. *)
Definition same_tables e e' : Prop :=
  (∀ pt va, ve_get_pte e' pt va = ve_get_pte e pt va) ∧ (∀ pt va, mapped e' pt va ↔ mapped e pt va).

Lemma same_tables_trans e1 e2 e3 : same_tables e1 e2 → same_tables e2 e3 → same_tables e1 e3.
Proof. intros [A1 A2] [B1 B2]. split; [congruence|]. intros. by rewrite B2, A2. Qed.

Lemma there_same e e' pt va : same_tables e e' → page_there e pt va → page_there e' pt va.
Proof. intros [_ Hm] [H1 H2]. split; [done|]. by apply Hm. Qed.

Lemma put_bytes_page e pt va pte bs off : va mod PGSIZE = 0 → 0 ≤ va < MAXVA → ve_get_pte e pt va = Some pte →
  flag pte PTE_V = true → 0 ≤ off → off + Z.of_nat (length bs) ≤ PGSIZE → Forall (λ b, 0 ≤ b < 2 ^ 8) bs →
  let e' := put_bytes (PTE2PA pte + off) bs e in
  same_tables e e' ∧ ∀ x, ve_byte e' x =
    if decide (PTE2PA pte + off ≤ x) then default (ve_byte e x) (bs !! Z.to_nat (x - (PTE2PA pte + off))) else ve_byte e x.
Proof.
  intros Ha Hv Ep Hf. revert e off Ep. induction bs as [|b bs IH]; intros e off Ep Ho Hl Hb.
  { cbn. split; [done|]. intros x. by case_decide. }
  apply Forall_cons in Hb as [Hb Hbs]. cbn [put_bytes]. cbn [length] in Hl.
  destruct (um_tables e pt va pte off b Ha Hv Ep Hf ltac:(lia)) as [T1 T2]. set (e1 := ve_put_byte _ _ e) in *.
  replace (PTE2PA pte + off + 1) with (PTE2PA pte + (off + 1)) by lia.
  destruct (IH e1 (off + 1) ltac:(by rewrite T1) ltac:(lia) ltac:(lia) Hbs) as [T3 R].
  split; [by eapply same_tables_trans|]. intros x. rewrite R. unfold e1. rewrite um_put by done.
  destruct (Z.eqb_spec x (PTE2PA pte + off)) as [->|Hx].
  - rewrite decide_False, decide_True by lia. by rewrite Z.sub_diag.
  - destruct (decide (PTE2PA pte + off ≤ x)); [rewrite decide_True by lia|by rewrite decide_False by lia].
    replace (Z.to_nat (x - (PTE2PA pte + off))) with (S (Z.to_nat (x - (PTE2PA pte + (off + 1))))) by lia. done.
Qed.

Lemma far_apart a i j : 0 ≤ i < j → j < PGSIZE → (a + i) mod PGSIZE ≠ (a + j) mod PGSIZE.
Proof.
  intros Hi Hj He. assert (((a + j) - (a + i)) mod PGSIZE = 0) as Hm by (rewrite Zminus_mod, He, Z.sub_diag; done).
  rewrite Z.mod_small in Hm; lia.
Qed.

Lemma wp_out_round e pt va src (Q : Z * list Z + unit → E → Prop) :
  page_there e pt va → src ≠ [] → Forall (λ b, 0 ≤ b < 2 ^ 8) src →
  (∀ k e', k = Z.min (PGSIZE - va mod PGSIZE) (Z.of_nat (length src)) → 0 < k ≤ Z.of_nat (length src) → same_tables e e' →
     (∀ i, (i < Z.to_nat k)%nat → src !! i = Some (user_byte e' pt (va + Z.of_nat i))) →
     (∀ u, (∀ i, 0 ≤ i < k → u mod PGSIZE ≠ (va + i) mod PGSIZE) → user_byte e' pt u = user_byte e pt u) →
     Q (inl (PGROUNDDOWN va + PGSIZE, drop (Z.to_nat k) src)) e') →
  wp (copy_out_round pt (va, src)) e Q.
Proof.
  intros Ht Hne Hb HQ. pose proof Ht as [Hv _]. destruct (page_of va Hv) as (H1 & H2 & H3 & H4 & H5).
  assert (length src ≠ 0%nat) as Hlen by by destruct src.
  unfold copy_out_round. rewrite decide_False by done.
  apply wp_bind. eapply wp_va2pa; [exact Ht|]. intros pte Ep Hf. rewrite page_part_eq by done.
  set (k := Z.min _ _). assert (0 < k ≤ Z.of_nat (length src)) as Hk by lia. destruct (pte_aligned pte) as [Pm Pr].
  replace (va - PGROUNDDOWN va) with (va mod PGSIZE) by lia.
  rewrite (wrap_small 64 (va mod _)), (wrap_small 64 (PTE2PA _ + _)) by (unfold PGSIZE in *; lia).
  rewrite wp_bind, wp_modify, wp_ret, wrap_small by (unfold MAXVA, PGSIZE in *; lia).
  destruct (put_bytes_page e pt (PGROUNDDOWN va) pte (take (Z.to_nat k) src) (va mod PGSIZE)) as [Hs Hr];
    [done..|lia|rewrite length_take; lia|by apply Forall_take|]. set (e' := put_bytes _ _ e) in *.
  assert (length (take (Z.to_nat k) src) = Z.to_nat k) as Htk by (rewrite length_take; lia).
  apply HQ; [done|done|done|..].
  - intros i Hi. unfold user_byte. destruct (same_page va (Z.of_nat i) Hv ltac:(lia)) as [-> ->].
    rewrite (proj1 Hs), Ep, Hr, decide_True by lia.
    replace (Z.to_nat _) with i by lia. rewrite lookup_take_lt by lia.
    destruct (lookup_lt_is_Some_2 src i ltac:(lia)) as [b ->]. done.
  - intros u Hu. unfold user_byte. rewrite (proj1 Hs). destruct (ve_get_pte e pt (PGROUNDDOWN u)) as [p2|]; [|done].
    rewrite Hr. case_decide as Hx; [|done]. rewrite lookup_ge_None_2; [done|]. rewrite Htk.
    set (d := PTE2PA p2 + u mod PGSIZE - (PTE2PA pte + va mod PGSIZE)) in *.
    destruct (decide (d < k)) as [Hd|]; [|lia]. destruct (Hu d ltac:(lia)). unfold d.
    destruct (pte_aligned p2) as [P2 _]. symmetry. rewrite H3 at 1. 
    replace (PGROUNDDOWN va + va mod PGSIZE + _) with (PGROUNDDOWN va - PTE2PA pte + PTE2PA p2 + u mod PGSIZE) by lia.
    rewrite Z.add_mod, (Z.add_mod _ (PTE2PA p2)), Zminus_mod, H1, Pm, P2 by done. rewrite Z.mod_mod by done.
    change ((0 - 0) mod PGSIZE) with 0. change ((0 + 0) mod PGSIZE) with 0. by rewrite Z.add_0_l, Z.mod_mod.
Qed.

(** No more than a page's bytes, so that no two of them are one in memory. *)
Lemma wp_copy_out e pt a src (Q : unit → E → Prop) :
  Z.of_nat (length src) ≤ PGSIZE → Forall (λ b, 0 ≤ b < 2 ^ 8) src →
  (∀ va, a ≤ va < a + Z.of_nat (length src) → page_there e pt va) →
  (∀ e', same_tables e e' → user_byte e' pt <$> seqZ a (Z.of_nat (length src)) = src → Q tt e') →
  wp (copy_kernel2user pt a src) e Q.
Proof.
  intros Hl Hb Hp HQ. unfold copy_kernel2user.
  eapply (wp_loop _ (λ '(va, rest) s, same_tables e s ∧ ∃ n, rest = drop n src ∧ (n ≤ length src)%nat ∧
    (rest ≠ [] → va = a + Z.of_nat n) ∧ ∀ i, (i < n)%nat → src !! i = Some (user_byte s pt (a + Z.of_nat i)))
    (λ '(_, rest) _, length rest)).
  - intros [va rest] s (Hs & n & -> & Hn & Hva & Hd). destruct (decide (drop n src = [])) as [Ed|Hne].
    { unfold copy_out_round. rewrite decide_True, wp_ret by done. apply HQ; [done|].
      apply (f_equal length) in Ed. rewrite length_drop in Ed. cbn in Ed.
      apply list_eq. intros i. rewrite list_lookup_fmap. destruct (decide (i < length src)%nat) as [Hi|Hi].
      - rewrite (Hd i ltac:(lia)), lookup_seqZ_lt by lia. done.
      - rewrite lookup_seqZ_ge by lia. by rewrite lookup_ge_None_2 by lia. }
    rewrite (Hva Hne). clear va Hva. assert (0 < length (drop n src))%nat as Hpos by (destruct (drop n src); [done|cbn; lia]).
    rewrite length_drop in Hpos.
    eapply wp_out_round; [eapply there_same; [exact Hs|apply Hp; lia]|done|by apply Forall_drop|].
    rewrite length_drop. intros k e' Ek Hk Hs' Hnew Hold.
    split; [|rewrite !length_drop; lia]. split; [by eapply same_tables_trans|].
    exists (n + Z.to_nat k)%nat. rewrite drop_drop. split; [done|]. split; [lia|]. split.
    + intros Hr. destruct (decide (k = PGSIZE - (a + Z.of_nat n) mod PGSIZE)) as [E1|E1].
      * destruct (page_of (a + Z.of_nat n)) as (_ & _ & H3 & _); [apply Hp; lia|]. lia.
      * destruct Hr. apply drop_ge. lia.
    + intros i Hi. destruct (decide (i < n)%nat) as [Hin|Hin].
      * rewrite Hold; [by apply Hd|]. intros j Hj. rewrite <- Z.add_assoc. apply far_apart; lia.
      * specialize (Hnew (i - n)%nat ltac:(lia)). rewrite lookup_drop in Hnew.
        replace (n + (i - n))%nat with i in Hnew by lia. rewrite Hnew. do 2 f_equal. lia.
  - split; [done|]. exists 0%nat. split; [done|]. split; [lia|]. split; [intros _; lia|]. intros i. lia.
  - lia.
Qed.

Lemma wp_store64 e pt a x (Q : unit → E → Prop) : word_there e pt a → 0 ≤ x < 2 ^ 64 →
  (∀ e', same_tables e e' → user_word e' pt a = x → Q tt e') → wp (store64 pt a x) e Q.
Proof.
  intros Ht Hx HQ. unfold store64. pose proof (length_Z_to_little_endian 8 8 x ltac:(lia)) as Hl.
  assert (Z.of_nat (length (Z_to_little_endian 8 8 x)) = 8) as E8 by (rewrite Hl; lia).
  apply wp_copy_out; rewrite ?E8; [done|apply Z_to_little_endian_bound; lia|intros; by eapply word_range|].
  intros e' Hs Ew. apply HQ; [done|]. unfold user_word. rewrite Ew, little_endian_to_Z_to_little_endian by lia.
  by apply Z.mod_small.
Qed.

(** ** A page that is missing *)

Lemma in_round_panics e pt va n dst : 0 ≤ va < 2 ^ 64 → 0 < n → ¬ page_there e pt va →
  copy_in_round pt (va, n, dst) e = Panic.
Proof.
  intros Hv Hn Ht. unfold copy_in_round. rewrite (proj2 (Z.eqb_neq n 0)) by lia.
  unfold mbind, M_bind. by rewrite va2pa_panics.
Qed.

Lemma out_round_panics e pt va src : 0 ≤ va < 2 ^ 64 → src ≠ [] → ¬ page_there e pt va →
  copy_out_round pt (va, src) e = Panic.
Proof.
  intros Hv Hn Ht. unfold copy_out_round. rewrite decide_False by done. unfold mbind, M_bind. by rewrite va2pa_panics.
Qed.

(** A word that begins on a page that is there and is not all there ends on the next one. *)
Lemma word_split e pt a : page_there e pt a → ¬ page_there e pt (a + 7) →
  PGSIZE - a mod PGSIZE < 8 ∧ 0 ≤ PGROUNDDOWN a + PGSIZE < 2 ^ 64 ∧ ¬ page_there e pt (PGROUNDDOWN a + PGSIZE).
Proof.
  intros [Ha Ht] Hn. destruct (page_of a Ha) as (H1 & H2 & H3 & H4 & H5).
  assert (PGSIZE - a mod PGSIZE < 8) as Hlt.
  { destruct (Z.lt_ge_cases (PGSIZE - a mod PGSIZE) 8) as [|Hge]; [done|]. destruct Hn.
    split; [lia|]. by rewrite (proj1 (same_page a 7 Ha ltac:(lia))). }
  split; [done|]. split; [unfold MAXVA, PGSIZE in *; lia|]. intros [Hr Hm]. destruct Hn.
  destruct (same_page (PGROUNDDOWN a + PGSIZE) (a + 7 - (PGROUNDDOWN a + PGSIZE)) Hr) as [Eq _].
  - rewrite Z.add_mod, H1 by done. change ((0 + PGSIZE mod PGSIZE) mod PGSIZE) with 0. unfold PGSIZE in *. lia.
  - replace (PGROUNDDOWN a + PGSIZE + _) with (a + 7) in Eq by lia. split; [|by rewrite Eq].
    assert (PGROUNDDOWN a + PGSIZE ≤ MAXVA - PGSIZE); [|unfold PGSIZE in *; lia].
    apply Z.mod_divide in H1 as [k Hk]; [|done]. unfold MAXVA, PGSIZE in *. lia.
Qed.

Lemma loop_panics {S L A} fuel (body : L → M S (L + A)) l s : body l s = Panic → loop (Datatypes.S fuel) body l s = Panic.
Proof. intros Hb. cbn [loop]. unfold mbind, M_bind. by rewrite Hb. Qed.

Lemma loop_goes {S L A} fuel (body : L → M S (L + A)) l l' s s' : body l s = Ok (inl l', s') →
  loop (Datatypes.S fuel) body l s = loop fuel body l' s'.
Proof. intros Hb. cbn [loop]. unfold mbind, M_bind. by rewrite Hb. Qed.

#[global] Instance page_there_dec e pt va : Decision (page_there e pt va).
Proof.
  destruct (decide (0 ≤ va < MAXVA)) as [Hv|Hv]; [|right; by intros [? _]].
  destruct (page_of va Hv) as (H1 & H2 & _). destruct (ve_get_pte e pt (PGROUNDDOWN va)) as [pte|] eqn:Ep.
  - destruct (flag pte PTE_V) eqn:Ef; [left; split; [done|]; apply um_pte; eauto|].
    right. intros [_ (q & Eq & Hq)%um_pte]; [|done..]. congruence.
  - right. intros [_ (q & Eq & Hq)%um_pte]; [|done..]. congruence.
Defined.
#[global] Instance word_there_dec e pt a : Decision (word_there e pt a).
Proof. unfold word_there. apply _. Defined.

(** The two ways a word is not all there. *)
Lemma word_missing e pt a : ¬ word_there e pt a → ¬ page_there e pt a ∨ page_there e pt a ∧
  PGSIZE - a mod PGSIZE < 8 ∧ 0 ≤ PGROUNDDOWN a + PGSIZE < 2 ^ 64 ∧ ¬ page_there e pt (PGROUNDDOWN a + PGSIZE).
Proof.
  intros Hn. destruct (decide (page_there e pt a)) as [Ht|Ht]; [right|by left]. split; [done|].
  apply word_split; [done|]. intros H7. by destruct Hn.
Qed.

Lemma load64_panics e pt a : 0 ≤ a < 2 ^ 64 → ¬ word_there e pt a → load64 pt a e = Panic.
Proof.
  intros Ha Hn. assert (copy_user2kernel pt a 8 e = Panic) as Hc; [|unfold load64, mbind, M_bind; by rewrite Hc].
  unfold copy_user2kernel. destruct (word_missing e pt a Hn) as [Ht|(Ht & Hlt & Hr & Hn2)].
  - by apply loop_panics, in_round_panics.
  - assert (wp (copy_in_round pt (a, 8, [])) e (λ r e', ∃ n dst, r = inl (PGROUNDDOWN a + PGSIZE, n, dst) ∧ 0 < n ∧ e' = e))
      as (r & e' & Er & n & dst & -> & Hp & ->)%wp_run.
    { eapply wp_in_round; [done|lia|]. intros k Ek Hk. eexists _, _. split; [reflexivity|]. split; [lia|done]. }
    erewrite loop_goes by exact Er. apply loop_panics. by apply in_round_panics.
Qed.

Lemma store64_panics e pt a x : 0 ≤ a < 2 ^ 64 → 0 ≤ x < 2 ^ 64 → ¬ word_there e pt a → store64 pt a x e = Panic.
Proof.
  intros Ha Hx Hn. unfold store64, copy_kernel2user. pose proof (length_Z_to_little_endian 8 8 x ltac:(lia)) as Hl.
  assert (length (Z_to_little_endian 8 8 x) = 8%nat) as Hl8 by lia. rewrite Hl8.
  assert (Forall (λ b, 0 ≤ b < 2 ^ 8) (Z_to_little_endian 8 8 x)) as Hb by (apply Z_to_little_endian_bound; lia).
  set (src := Z_to_little_endian 8 8 x) in *. assert (src ≠ []) as Hne by by destruct src.
  destruct (word_missing e pt a Hn) as [Ht|(Ht & Hlt & Hr & Hn2)].
  - by apply loop_panics, out_round_panics.
  - assert (wp (copy_out_round pt (a, src)) e (λ r e', ∃ rest, r = inl (PGROUNDDOWN a + PGSIZE, rest) ∧ rest ≠ [] ∧ same_tables e e'))
      as (r & e' & Er & rest & -> & Hp & Hs)%wp_run.
    { eapply wp_out_round; [done|done|done|]. rewrite Hl8. intros k e' Ek Hk Hs _ _. eexists. split; [reflexivity|]. split; [|done].
      intros E0%(f_equal length). rewrite length_drop, Hl8 in E0. cbn in E0. lia. }
    erewrite loop_goes by exact Er. apply loop_panics. apply out_round_panics; [done|done|].
    intros [Hv Hm]. apply Hn2. split; [done|]. by apply Hs.
Qed.
End user.
