(* ===== verification/VmmProc.v ===== *)
(** * Address spaces: the calls of [kernel/proc.c], [do_mmap], [do_munmap], [do_brk] *)
From Stdlib Require Import Sorted.
From S2P Require Import Prelude Errors ListH Rbtree RbRep RbSpec RbDelete RbSearch Vmm VmmRep VmmOps VmmInsert VmmPull VmmCut VmmSpec VmmFind VmmUser.

Section proc.
Context `{UM : UserMem E}.
Implicit Type w : vworld E.
Abbreviation area := (Z * Vma_struct)%type.

(** ** Changes of a space that are not of its list *)

Lemma space_fields m v v' xs w : space m v xs w → mmap_tree v' = mmap_tree v → mmap_cache v' = mmap_cache v →
  map_count v' = map_count v → pagetable v' = pagetable v → space m v' xs (set_mms (<[m := v']> (v_mms w)) w).
Proof.
  intros [(ps & E1 & [H1 H2 H3 H4 H5 H6 H7 H8]) S2 S3 S4 S5] Et Ec En Ep. split; [|exact S2|exact S3|by rewrite Ep|exact S5].
  exists ps. split; [done|]. split; rewrite ?Et, ?Ec, ?En; try done. apply lookup_insert_eq.
Qed.

Lemma space_env m v xs w e' : space m v xs w → (∀ pt va, mapped e' pt va ↔ mapped (v_env w) pt va) → space m v xs (set_env e' w).
Proof.
  intros [(ps & E1 & Hr) S2 S3 S4 S5] Hm. split; [|exact S2|exact S3| |exact S5].
  - exists ps. split; [done|]. by eapply rep_eq.
  - intros va. cbn. rewrite Hm. apply S4.
Qed.

Lemma space_mm m v xs w : space m v xs w → v_mms w !! m = Some v.
Proof. intros [(ps & _ & Hr) _ _ _ _]. apply Hr. Qed.

(** The process that runs, and its space locked and unlocked. *)
Definition current (p : Curproc) w : Prop := v_cur w = Some p.
Definition held (p : Curproc) (v : Mm_struct) : Mm_struct := set_locked_by (cp_pid p) (set_mm_sem (mm_sem v - 1) v).
Definition released (v : Mm_struct) : Mm_struct := set_locked_by 0 (set_mm_sem (mm_sem v + 1) v).

Lemma wp_lock_mm m v xs p w (Q : unit → vworld E → Prop) :
  space m v xs w → current p w → 0 < mm_sem v →
  (space m (held p v) xs (set_mms (<[m := held p v]> (v_mms w)) w) → Q tt (set_mms (<[m := held p v]> (v_mms w)) w)) →
  wp (lock_mm m) w Q.
Proof.
  intros Hsp Hc Hs HQ. unfold lock_mm. rewrite (proj2 (Z.eqb_neq _ _) (sp_real _ _ _ _ Hsp)). apply wp_bind.
  eapply wp_get_mm; [by eapply space_mm|]. rewrite (proj2 (Z.ltb_lt _ _)) by done. apply wp_bind.
  eapply wp_upd_mm; [by eapply space_mm|]. unfold set_locker. rewrite wp_bind, wp_gets. cbn [v_cur set_mms]. rewrite Hc.
  eapply wp_upd_mm; [apply lookup_insert_eq|]. cbn [v_mms set_mms]. rewrite insert_insert_eq. apply HQ.
  by eapply space_fields.
Qed.

Lemma wp_unlock_mm m v xs w (Q : unit → vworld E → Prop) :
  space m v xs w → (space m (released v) xs (set_mms (<[m := released v]> (v_mms w)) w) →
    Q tt (set_mms (<[m := released v]> (v_mms w)) w)) →
  wp (unlock_mm m) w Q.
Proof.
  intros Hsp HQ. unfold unlock_mm. rewrite (proj2 (Z.eqb_neq _ _) (sp_real _ _ _ _ Hsp)). apply wp_bind.
  eapply wp_get_mm; [by eapply space_mm|]. apply wp_bind. eapply wp_upd_mm; [by eapply space_mm|].
  eapply wp_upd_mm; [apply lookup_insert_eq|]. cbn [v_mms set_mms]. rewrite insert_insert_eq. apply HQ.
  by eapply space_fields.
Qed.

Lemma wp_load_word pt a w (Q : Z → vworld E → Prop) :
  word_there (v_env w) pt a → Q (user_word (v_env w) pt a) w → wp (on_env (load64 pt a)) w Q.
Proof. intros Ht HQ. apply wp_zoom. eapply wp_load64; [done|]. by destruct w. Qed.

Lemma wp_store_word m v xs pt a x w (Q : unit → vworld E → Prop) : space m v xs w → word_there (v_env w) pt a → 0 ≤ x < 2 ^ 64 →
  (∀ e', user_word e' pt a = x → space m v xs (set_env e' w) → Q tt (set_env e' w)) → wp (on_env (store64 pt a x)) w Q.
Proof.
  intros Hsp Ht Hx HQ. apply wp_zoom. eapply wp_store64; [done|done|]. intros e' [_ Hm] Hw. apply HQ; [done|]. by apply space_env.
Qed.

(** ** Where the end wraps around *)

Lemma run_after {A B S} (m : M S A) (k : A → M S B) s r : wp m s (λ a s', k a s' = r) → (m ≫= k) s = r.
Proof. intros (a & s' & E1 & H)%wp_run. unfold mbind, M_bind. by rewrite E1. Qed.

Lemma panic_here {A B S} (m : M S A) (k : A → M S B) s : m s = Panic → (m ≫= k) s = Panic.
Proof. unfold mbind, M_bind. by intros ->. Qed.

Lemma insert_empty_range m a x w : v_vmas w !! a = Some x → vm_end x ≤ vm_start x → insert_vma_struct m a w = Panic.
Proof.
  intros Ha Hx. unfold insert_vma_struct. apply run_after. eapply wp_get_vma; [exact Ha|].
  unfold assert_. by rewrite (proj2 (Z.ltb_ge _ _)).
Qed.

(** A range that is empty when it is rounded, with no area in between: [mm_map] finds
    nothing in the way, and the new area is not one. *)
Lemma mm_map_empty_run m v xs addr len flags w :
  let s := PGROUNDDOWN addr in let e := PGROUNDUP (u64 (addr + len)) in
  space m v xs w → e ≤ s → (∀ x, x ∈ xs → s < vm_end x → e ≤ vm_start x) →
  (∃ w', mm_map m addr len flags w = Ok ((- E_NO_MEM, 0), w') ∧ no_vma_left) ∨ mm_map m addr len flags w = Panic.
Proof.
  intros s e [(ps & <- & Hr) _ _ _ Hm] Hse Hov. unfold mm_map. fold s e.
  pose proof (rep_cached m v ps w s Hr) as Hrc. set (w1 := cached m v (first_end s ps) w) in *.
  set (K := λ vma : Z, if vma =? 0 then mret (- E_NO_MEM, 0) else insert_vma_struct m vma;; mret (0, vma)).
  assert (∀ r, (vma ← vma_create s e flags; K vma) w1 = r → (assert_ (negb (m =? 0));;
    vma ← find_vma m s;
    overlap ← (if vma =? 0 then mret false else x ← get_vma vma; mret (vm_start x <? e));
    if overlap : bool then mret (- E_INVAL, 0) else vma ← vma_create s e flags; K vma) w = r) as Hpre.
  { intros r HK. apply run_after. rewrite wp_assert, (proj2 (Z.eqb_neq _ _) Hm). split; [done|].
    apply run_after. eapply wp_find_vma; [exact Hr|done|]. fold w1. apply run_after.
    destruct (first_end_split s ps) as [[Ef _]|(p1 & a & x & p2 & Ep & Ef & Hx & _)]; rewrite Ef; cbn [default from_option id].
    { by rewrite Z.eqb_refl, wp_ret. }
    destruct (mr_vmas _ _ _ _ Hrc a x ltac:(rewrite Ep; set_solver)) as (Hxa & Ha0 & _).
    rewrite (proj2 (Z.eqb_neq _ _) Ha0). apply wp_bind. eapply wp_get_vma; [exact Hxa|].
    rewrite wp_ret, (proj2 (Z.ltb_ge _ _)); [done|]. apply Hov; [|done]. rewrite Ep, fmap_app. apply elem_of_app. right. by left. }
  assert (wp (vma_create s e flags) w1 (λ a w2, K a w2 = Ok ((- E_NO_MEM, 0), w2) ∧ no_vma_left ∨ K a w2 = Panic))
    as (a & w2 & Ec & HK)%wp_run.
  { eapply wp_vma_create; [exact Hrc|..].
    - intros Hno. left. unfold K. by rewrite Z.eqb_refl.
    - intros a x w2 Ha0 _ [L1 _ _ _ _] _ _ _ _ _. right. unfold K. rewrite (proj2 (Z.eqb_neq _ _) Ha0).
      unfold mbind, M_bind. by rewrite (insert_empty_range m a _ w2 L1 Hse). }
  destruct HK as [[HK Hno]|HK]; [left; exists w2; split; [|done]|right]; apply Hpre; unfold mbind, M_bind; by rewrite Ec.
Qed.

(** ** [do_mmap] *)

Lemma mmap_prot_private f : flag (mmap_prot f) VM_SHARE = false.
Proof. unfold mmap_prot. by destruct (flag f MMAP_WRITE), (flag f MMAP_STACK). Qed.

Lemma round_down_aligned a : 0 ≤ a < 2 ^ 64 → a mod PGSIZE = 0 → PGROUNDDOWN a = a.
Proof. intros H1 H2. rewrite round_down by done. lia. Qed.
Lemma round_up_aligned a : 0 ≤ a < 2 ^ 64 → a mod PGSIZE = 0 → PGROUNDUP a = a.
Proof.
  intros H1 H2. assert (a ≤ 2 ^ 64 - PGSIZE) as Ht.
  { apply Z.mod_divide in H2 as [k Hk]; [|done]. unfold PGSIZE in *. lia. }
  destruct (round_up_spec a ltac:(lia)) as [[k Hk]%Z.mod_divide Hr]; [|done].
  apply Z.mod_divide in H2 as [j Hj]; [|done]. unfold PGSIZE in *. lia.
Qed.

(** The page asked for, and how many bytes from there. *)
Lemma wp_map_place_fixed m v w a len (Q : Z * Z → vworld E → Prop) : v_mms w !! m = Some v → word_there (v_env w) (pagetable v) a →
  let b := user_word (v_env w) (pagetable v) a in
  PGROUNDDOWN b ≠ 0 → Q (PGROUNDDOWN b, u64 (PGROUNDUP (u64 (b + len)) - PGROUNDDOWN b)) w → wp (map_place m a len) w Q.
Proof.
  intros Hv Hwt b Hb HQ. unfold map_place. apply wp_bind. eapply wp_get_mm; [exact Hv|]. apply wp_bind, wp_load_word; [exact Hwt|]. fold b.
  apply wp_bind. rewrite (proj2 (Z.eqb_neq _ _) Hb). by rewrite wp_ret, wp_ret.
Qed.

Lemma wp_map_place_free m v xs w a len (Q : Z * Z → vworld E → Prop) : space m v xs w → word_there (v_env w) (pagetable v) a →
  let b := user_word (v_env w) (pagetable v) a in let e := PGROUNDUP (u64 (b + len)) in
  PGROUNDDOWN b = 0 → (∀ x, x ∈ xs → vm_start x ≤ user_top) → 0 < e < user_top →
  (∀ ps r, ps.*2 = xs → best ps e r → - e ≤ r → (e mod PGSIZE = 0 → r mod PGSIZE = 0) → Q (u64 r, e) w) →
  wp (map_place m a len) w Q.
Proof.
  intros Hsp Hwt b e Hb Htop He HQ. unfold map_place. apply wp_bind. eapply wp_get_mm; [by eapply space_mm|].
  apply wp_bind, wp_load_word; [exact Hwt|]. fold b. fold e. apply wp_bind. rewrite Hb, Z.eqb_refl, Z.sub_0_r.
  pose proof user_top_range. rewrite (wrap_small 64 e) by lia. apply wp_bind. destruct Hsp as [(ps & E1 & Hr) _ _ _ _].
  eapply wp_get_unmapped_area; [exact Hr| |exact He|].
  { intros p Hp. apply Htop. rewrite <- E1. by apply list_elem_of_fmap_2. }
  intros r H1 H2 H3. rewrite wp_ret, wp_ret. by eapply HQ.
Qed.

(** The world in which a call works. *)
Definition locked (m : Z) (v : Mm_struct) (p : Curproc) w : vworld E := set_mms (<[m := held p v]> (v_mms w)) w.

Lemma run_do_mmap m v xs p w a len f s n r :
  space m v xs w → current p w → cp_mm p = m → 0 < mm_sem v → a ≠ 0 → len ≠ 0 →
  map_place m a len (locked m v p w) = Ok ((s, n), locked m v p w) →
  ('(ret, _) ← mm_map m s n (mmap_prot f);
   (if ret =? 0 then mm ← get_mm m; on_env (store64 (pagetable mm) a s) else mret tt);;
   unlock_mm m;; mret ret) (locked m v p w) = r →
  do_mmap a len f w = r.
Proof.
  intros Hsp Hc Hm Hs Ha Hl Hp HK. unfold do_mmap. apply run_after. unfold my_proc. rewrite wp_bind, wp_gets, Hc.
  apply wp_of_option. exists p. split; [done|]. cbv zeta. rewrite Hm, (proj2 (Z.eqb_neq _ _) (sp_real _ _ _ _ Hsp)).
  rewrite (proj2 (Z.eqb_neq _ _) Ha), (proj2 (Z.eqb_neq _ _) Hl). cbn [orb].
  apply run_after. eapply (wp_lock_mm m v xs p); [exact Hsp|exact Hc|exact Hs|]. intros _.
  apply run_after. eapply wp_of_run; [exact Hp|]. exact HK.
Qed.

Lemma space_locked m v xs p w : space m v xs w → space m (held p v) xs (locked m v p w).
Proof. intros Hsp. by eapply space_fields. Qed.

(** The call at a place: the result, the word and the lock. *)
Definition mmap_done (m : Z) (v : Mm_struct) (xs : list Vma_struct) a s e prot (r : Z) w' : Prop :=
  ∃ v' xs', space m v' xs' w' ∧ mm_sem v' = mm_sem v ∧ map_result (at_addr xs) (at_addr xs') s e prot r ∧
    (r = 0 → user_word (v_env w') (pagetable v) a = s).

Lemma do_mmap_at m v xs p w a len f s n :
  space m v xs w → current p w → cp_mm p = m → 0 < mm_sem v → a ≠ 0 → word_there (v_env w) (pagetable v) a → len ≠ 0 → zlen xs < 2 ^ 31 - 1 →
  map_place m a len (locked m v p w) = Ok ((s, n), locked m v p w) →
  0 ≤ s → s mod PGSIZE = 0 → 0 < n → n mod PGSIZE = 0 → s + n ≤ 2 ^ 64 - PGSIZE →
  ∃ r w', do_mmap a len f w = Ok (r, w') ∧ mmap_done m v xs a s (s + n) (mmap_prot f) r w'.
Proof.
  intros Hsp Hc Hm Hs Ha Hwt Hl Hlen Hp Hs0 Hsm Hn Hnm Ht. apply wp_run. unfold wp.
  enough (wp ('(ret, _) ← mm_map m s n (mmap_prot f);
    (if ret =? 0 then mm ← get_mm m; on_env (store64 (pagetable mm) a s) else mret tt);;
    unlock_mm m;; mret ret) (locked m v p w) (mmap_done m v xs a s (s + n) (mmap_prot f))) as (r & w' & Er & HQ)%wp_run.
  { by rewrite (run_do_mmap m v xs p w a len f s n _ Hsp Hc Hm Hs Ha Hl Hp Er). }
  pose proof (space_locked m v xs p w Hsp) as Hsp1.
  assert (PGROUNDDOWN s = s) as Es by (apply round_down_aligned; unfold PGSIZE in *; lia).
  assert (PGROUNDUP (u64 (s + n)) = s + n) as Ee.
  { rewrite wrap_small by (unfold PGSIZE in *; lia). apply round_up_aligned; [unfold PGSIZE in *; lia|].
    by rewrite Z.add_mod, Hsm, Hnm. }
  apply wp_bind. eapply wp_conseq; [eapply (mm_map_run m _ xs s n); [exact Hsp1|done..|by apply mmap_prot_private|done]|].
  intros [r b] w1 (v1 & xs1 & Hsp2 & Hfr & He1 & _ & _ & Hres). cbn [fst] in Hres. rewrite Es, Ee in Hres.
  assert (pagetable v1 = pagetable v ∧ mm_sem v1 = mm_sem v - 1) as [Ept Esem] by (by rewrite (fr_listing _ _ _ _ _ Hfr)).
  assert (∀ w2, space m v1 xs1 w2 → (r = 0 → user_word (v_env w2) (pagetable v) a = s) →
    wp (unlock_mm m;; mret r) w2 (mmap_done m v xs a s (s + n) (mmap_prot f))) as Hend.
  { intros w2 Hsp3 Hw. apply wp_bind. eapply wp_unlock_mm; [exact Hsp3|]. intros Hsp4. rewrite wp_ret.
    exists (released v1), xs1. split_and!; [done| |done|done]. cbn. lia. }
  apply wp_bind. destruct (Z.eqb_spec r 0) as [->|Hr].
  - apply wp_bind. eapply wp_get_mm; [by eapply space_mm|]. rewrite Ept. eapply wp_store_word; [exact Hsp2|by rewrite He1|unfold PGSIZE in *; lia|].
    intros e' Hw Hsp3. by apply Hend.
  - rewrite wp_ret. apply Hend; [done|]. by intros ?.
Qed.

(** The range is empty when it is rounded: the call stops the kernel. *)
Lemma do_mmap_stops m v xs p w a len f s n :
  space m v xs w → current p w → cp_mm p = m → 0 < mm_sem v → a ≠ 0 → len ≠ 0 → ¬ no_vma_left →
  map_place m a len (locked m v p w) = Ok ((s, n), locked m v p w) →
  let e := PGROUNDUP (u64 (s + n)) in
  0 ≤ s < 2 ^ 64 → s mod PGSIZE = 0 → e ≤ s → (∀ x, x ∈ xs → s < vm_end x → e ≤ vm_start x) →
  do_mmap a len f w = Panic.
Proof.
  intros Hsp Hc Hm Hs Ha Hl Hno Hp e Hs0 Hsm He Hx. pose proof (space_locked m v xs p w Hsp) as Hsp1.
  assert (PGROUNDDOWN s = s) as Es by (by apply round_down_aligned).
  pose proof (mm_map_empty_run m (held p v) xs s n (mmap_prot f) (locked m v p w) Hsp1) as Hrun.
  rewrite Es in Hrun. destruct (Hrun He Hx) as [(w1 & _ & Hn)|E1]; [done|].
  apply (run_do_mmap m v xs p w a len f s n); try done. unfold mbind, M_bind. by rewrite E1.
Qed.

Lemma do_mmap_fixed_run m v xs p w a len f :
  space m v xs w → current p w → cp_mm p = m → 0 < mm_sem v → a ≠ 0 → word_there (v_env w) (pagetable v) a → 0 < len → zlen xs < 2 ^ 31 - 1 →
  let b := user_word (v_env w) (pagetable v) a in
  let s := PGROUNDDOWN b in let e := PGROUNDUP (u64 (b + len)) in
  s ≠ 0 → b + len ≤ 2 ^ 64 - PGSIZE →
  ∃ r w', do_mmap a len f w = Ok (r, w') ∧ mmap_done m v xs a s e (mmap_prot f) r w'.
Proof.
  intros Hsp Hc Hm Hs Ha Hwt Hl Hlen b s e Hs0 Ht. pose proof (user_word_range (v_env w) (pagetable v) a) as Hb. fold b in Hb.
  destruct (request_range b len ltac:(lia) Hl Ht) as (Hs1 & He1 & Hsm & Hem). fold s in Hs1, Hsm. fold e in He1, Hem.
  assert (e < 2 ^ 64) as Hetop by (unfold PGSIZE in *; lia).
  replace e with (s + (e - s)) by lia. eapply (do_mmap_at m v xs p w a len f s (e - s)); try done; try lia.
  - apply wp_result. eapply wp_map_place_fixed; [apply lookup_insert_eq|exact Hwt|exact Hs0|]. change (user_word _ _ a) with b.
    fold s. fold e. rewrite (wrap_small 64 (e - s)); [done|lia].
  - rewrite Zminus_mod, Hsm, Hem. done.
  - replace (s + (e - s)) with e by lia. apply Z.mod_divide in Hem as [k Hk]; [|done]. unfold PGSIZE in *. lia.
Qed.

Lemma run_map_place_free m v xs p w a len : space m v xs w → word_there (v_env w) (pagetable v) a →
  let b := user_word (v_env w) (pagetable v) a in let e := PGROUNDUP (u64 (b + len)) in
  PGROUNDDOWN b = 0 → 0 < len → b + len < user_top - PGSIZE → (∀ x, x ∈ xs → vm_start x ≤ user_top) →
  0 < e < user_top ∧ e mod PGSIZE = 0 ∧
  ∃ ps r, ps.*2 = xs ∧ best ps e r ∧ - e ≤ r ∧ r mod PGSIZE = 0 ∧
    map_place m a len (locked m v p w) = Ok ((u64 r, e), locked m v p w).
Proof.
  intros Hsp Hwt b e Hb Hl Ht Htop. pose proof (user_word_range (v_env w) (pagetable v) a) as Hbr. fold b in Hbr.
  pose proof user_top_range as [Hu _].
  destruct (request_range b len ltac:(lia) Hl ltac:(unfold PGSIZE in *; lia)) as (_ & He1 & _ & Hem). fold e in He1, Hem.
  assert (0 < e < user_top) as He by lia. split_and!; [lia..|done|].
  pose proof (space_locked m v xs p w Hsp) as Hsp1.
  assert (wp (map_place m a len) (locked m v p w) (λ x w', w' = locked m v p w ∧ ∃ ps r, ps.*2 = xs ∧ best ps e r ∧ - e ≤ r ∧
    r mod PGSIZE = 0 ∧ x = (u64 r, e))) as (x & w' & E1 & -> & ps & r & H1 & H2 & H3 & H4 & ->)%wp_run.
  { eapply wp_map_place_free; [exact Hsp1|exact Hwt|exact Hb|done|exact He|]. intros ps r H1 H2 H3 H4. split; [done|]. exists ps, r. split_and!; [done..|by apply H4|done]. }
  exists ps, r. by split_and!.
Qed.

(** A place is found when there is one, and the highest. *)
Lemma do_mmap_free_run m v xs p w a len f :
  space m v xs w → current p w → cp_mm p = m → 0 < mm_sem v → a ≠ 0 → word_there (v_env w) (pagetable v) a → 0 < len → zlen xs < 2 ^ 31 - 1 →
  (∀ x, x ∈ xs → vm_end x ≤ user_top) →
  let b := user_word (v_env w) (pagetable v) a in let e := PGROUNDUP (u64 (b + len)) in
  PGROUNDDOWN b = 0 → b + len < user_top - PGSIZE →
  ∃ ps s, ps.*2 = xs ∧ best ps e s ∧
    if 0 <=? s then ∃ r w', do_mmap a len f w = Ok (r, w') ∧ mmap_done m v xs a s (s + e) (mmap_prot f) r w'
    else ¬ no_vma_left → do_mmap a len f w = Panic.
Proof.
  intros Hsp Hc Hm Hs Ha Hwt Hl Hlen Htop b e Hb Ht.
  destruct (run_map_place_free m v xs p w a len Hsp Hwt Hb Hl Ht) as (He & Hem & ps & s & E1 & Hbest & Hs38 & Hsm & Hrun).
  { intros x Hx. pose proof (ao_range _ (space_ok m v xs w x Hsp Hx)). specialize (Htop x Hx). lia. }
  fold b in He, Hem, Hbest, Hs38, Hrun. fold e in He, Hem, Hbest, Hs38, Hrun. pose proof user_top_range as [Hu Hum]. unfold PGSIZE in Hu.
  exists ps, s. split_and!; [done..|]. destruct (Z.leb_spec 0 s) as [Hs0|Hneg].
  - destruct Hbest as [[(_ & Hst & _)|?] _]; [|lia]. rewrite (wrap_small 64 s) in Hrun by lia.
    eapply (do_mmap_at m v xs p w a len f s e); try done; unfold PGSIZE; lia.
  - intros Hno. assert (u64 s = 2 ^ 64 + s) as Eu.
    { unfold wrap. rewrite <- (Z_mod_plus_full s 1). rewrite Z.mod_small; lia. }
    rewrite Eu in Hrun. assert (u64 (2 ^ 64 + s + e) = s + e) as E2.
    { unfold wrap. replace (2 ^ 64 + s + e) with (s + e + 1 * 2 ^ 64) by lia. rewrite Z_mod_plus_full, Z.mod_small; lia. }
    eapply (do_mmap_stops m v xs p w a len f (2 ^ 64 + s) e); try done; try lia.
    + by rewrite Z.add_mod, Hsm.
    + rewrite E2, round_up_aligned; [lia|lia|by rewrite Z.add_mod, Hsm, Hem].
    + intros x Hx Hlt. specialize (Htop x Hx). lia.
Qed.

(** A range asked for that ends in the last page of the address space. *)
Lemma do_mmap_wrap_run m v xs p w a len f :
  space m v xs w → current p w → cp_mm p = m → 0 < mm_sem v → a ≠ 0 → word_there (v_env w) (pagetable v) a → 0 < len → ¬ no_vma_left →
  let b := user_word (v_env w) (pagetable v) a in PGROUNDDOWN b ≠ 0 → 2 ^ 64 - PGSIZE < b + len < 2 ^ 64 →
  do_mmap a len f w = Panic.
Proof.
  intros Hsp Hc Hm Hs Ha Hwt Hl Hno b Hb Ht. pose proof (user_word_range (v_env w) (pagetable v) a) as Hbr. fold b in Hbr.
  destruct (round_down_spec b Hbr) as (Hsm & Hs1 & Hs0). set (s := PGROUNDDOWN b) in *.
  assert (PGROUNDUP (u64 (b + len)) = 0) as Ee by (rewrite wrap_small by lia; by apply round_up_wraps).
  assert (u64 (0 - s) = 2 ^ 64 - s) as En.
  { unfold wrap. rewrite <- (Z_mod_plus_full (0 - s) 1). rewrite Z.mod_small; lia. }
  eapply (do_mmap_stops m v xs p w a len f s (2 ^ 64 - s)); try done; try lia.
  - apply wp_result. eapply wp_map_place_fixed; [apply lookup_insert_eq|exact Hwt|exact Hb|]. change (user_word _ _ a) with b.
    fold s. by rewrite Ee, En.
  - replace (s + (2 ^ 64 - s)) with (2 ^ 64) by lia. change (PGROUNDUP (u64 (2 ^ 64))) with 0. lia.
  - intros x Hx _. replace (s + (2 ^ 64 - s)) with (2 ^ 64) by lia. change (PGROUNDUP (u64 (2 ^ 64))) with 0.
    apply (space_ok m v xs w x Hsp Hx).
Qed.
End proc.
