(* ===== verification/VmmBrk.v ===== *)
(** * Address spaces: the heap, [mm_brk] and [do_brk] *)
From Stdlib Require Import Sorted.
From S2P Require Import Prelude Errors ListH Rbtree RbRep RbSpec RbDelete RbSearch Vmm VmmRep VmmOps VmmInsert VmmPull VmmCut VmmSpec VmmFind VmmUser VmmProc.

Section brk.
Context `{UM : UserMem E}.
Implicit Type w : vworld E.
Abbreviation area := (Z * Vma_struct)%type.

Definition heap_flags : Z := Z.lor (Z.lor VM_READ VM_WRITE) VM_USER.

(** An area that gets longer at its end, where nothing follows. *)
Lemma rep_extend m v p1 a x p2 e w : mm_rep m v (p1 ++ (a, x) :: p2) w →
  vm_end x ≤ e → e mod PGSIZE = 0 → e < 2 ^ 64 → (∀ q, q ∈ p2 → e ≤ vm_start q.2) →
  let y := set_range (vm_start x) e x in let w' := set_vmas (<[a := y]> (v_vmas w)) w in
  mm_rep m v (p1 ++ (a, y) :: p2) w' ∧ keeps m (p1 ++ (a, x) :: p2).*1 v w v w'.
Proof.
  intros Hr He Me Ht Hp2 y w'. pose proof (mm_rep_nodup _ _ _ _ Hr) as Hnd.
  assert (a ∈ (p1 ++ (a, x) :: p2).*1) as Hin by (rewrite fmap_app; set_solver).
  split; [|by apply keeps_vma; [apply keeps_refl|]]. destruct Hr as [H1 H2 H3 H4 H5 H6 H7 H8].
  assert ((p1 ++ (a, y) :: p2).*1 = (p1 ++ (a, x) :: p2).*1) as Efst by (by rewrite !fmap_app).
  destruct (H3 a x ltac:(set_solver)) as (Hx & Ha & Hm & [O1 O2 O3 O4 O5 O6]).
  split; rewrite ?Efst; cbn; try done.
  - intros b z Hb. rewrite elem_of_app, elem_of_cons in Hb.
    assert ((b, z) = (a, y) ∨ (b, z) ∈ p1 ++ p2) as [[= -> ->]|Hb'] by set_solver.
    + rewrite lookup_insert_eq. split_and!; [done..|]. split; cbn; try done; lia.
    + rewrite lookup_insert_ne; [apply H3; set_solver|]. intros <-.
      rewrite fmap_app in Hnd. cbn in Hnd. apply NoDup_app in Hnd as (_ & Hd & [Hn2 _]%NoDup_cons).
      apply elem_of_app in Hb' as [Hb'|Hb']; apply (list_elem_of_fmap_2 fst) in Hb'; cbn in Hb'; [|done].
      by apply (Hd a Hb'); left.
  - apply ordered_app in H4 as (O & [Q1 Q2]%ordered_cons & Q3). apply ordered_app. split_and!; [done|by apply ordered_cons|].
    intros p q Hp [->|Hq]%elem_of_cons; [|apply Q3; set_solver]. apply (Q3 p (a, x) Hp). set_solver.
  - rewrite H8, !length_app. done.
Qed.

Lemma at_addr_extend (p1 p2 : list area) a x e va : area_ok x → vm_end x ≤ e → flag (vm_flags x) VM_SHARE = false →
  (∀ p, p ∈ p1 → vm_end p.2 ≤ vm_start x) →
  at_addr (p1 ++ (a, set_range (vm_start x) e x) :: p2).*2 va =
    if decide (vm_end x ≤ va < e) then Some (vm_flags x, None) else at_addr (p1 ++ (a, x) :: p2).*2 va.
Proof.
  intros [O1 _ _ _ _ _] He Hf Hp1. rewrite !fmap_app, !at_addr_app. cbn. unfold covers, mapping. cbn. rewrite Hf.
  destruct (decide (vm_end x ≤ va < e)) as [Hva|Hva].
  - rewrite at_addr_none.
    + by rewrite decide_True by lia.
    + intros y (p & -> & Hp)%list_elem_of_fmap Hc. specialize (Hp1 p Hp). unfold covers in Hc. lia.
  - destruct (at_addr p1.*2 va); [done|]. repeat case_decide; try done; lia.
Qed.

(** What [find_vma] finds just below the heap's end. *)
Lemma wp_brk_look {A} m v ps s w (K : bool → Z → M (vworld E) A) (R : A → vworld E → Prop) :
  mm_rep m v ps w → m ≠ 0 → (∀ v' w' vma g, mm_rep m v' ps w' → keeps m ps.*1 v w v' w' → v_shm w' = v_shm w → v_env w' = v_env w →
    v_links w' = v_links w →
    (if g : bool then ∃ p1 x p2, ps = p1 ++ (vma, x) :: p2 ∧ vm_end x = s ∧ vm_flags x = heap_flags else True) →
    wp (K g vma) w' R) →
  wp (vma ← find_vma m (s - 1);
      grow ← (if vma =? 0 then mret false else x ← get_vma vma; mret ((vm_end x =? s) && (vm_flags x =? heap_flags)));
      K grow vma) w R.
Proof.
  intros Hr Hm HK. apply wp_bind. eapply wp_find_vma; [exact Hr|done|]. apply wp_bind.
  pose proof (rep_cached m v ps w (s - 1) Hr) as Hrc. pose proof (keeps_cached m ps.*1 v w (first_end (s - 1) ps)) as Kc.
  assert (v_shm (cached m v (first_end (s - 1) ps) w) = v_shm w ∧ v_env (cached m v (first_end (s - 1) ps) w) = v_env w ∧
    v_links (cached m v (first_end (s - 1) ps) w) = v_links w) as (Es & Ee & El) by (by destruct (first_end (s - 1) ps)).
  destruct (first_end_split (s - 1) ps) as [[Ef _]|(p1 & a & x & p2 & Ep & Ef & _)];
    rewrite Ef in Hrc, Kc, Es, Ee, El |- *; cbn [default from_option id].
  - rewrite Z.eqb_refl, wp_ret. by eapply HK.
  - destruct (mr_vmas _ _ _ _ Hrc a x ltac:(rewrite Ep; set_solver)) as (Hxa & Ha0 & _).
    rewrite (proj2 (Z.eqb_neq _ _) Ha0). apply wp_bind. eapply wp_get_vma; [exact Hxa|]. rewrite wp_ret.
    eapply HK; [exact Hrc|exact Kc|done..|]. destruct (Z.eqb_spec (vm_end x) s), (Z.eqb_spec (vm_flags x) heap_flags); cbn [andb]; try done.
    by exists p1, x, p2.
Qed.

(** A new area where there is none. *)
Lemma wp_new_area m v ps s e flags w (Q : Z → vworld E → Prop) :
  mm_rep m v ps w → 0 ≤ s < e → e < 2 ^ 64 → s mod PGSIZE = 0 → e mod PGSIZE = 0 → flag flags VM_SHARE = false →
  overlaps s e ps.*2 = false → zlen ps < 2 ^ 31 - 1 →
  (no_vma_left → Q (- E_NO_MEM) w) →
  (∀ p1 p2 a v' w', ps = p1 ++ p2 → (∀ p, p ∈ p1 → vm_end p.2 ≤ s) → mm_rep m v' (p1 ++ (a, new_area m s e flags) :: p2) w' →
     keeps m ps.*1 v w v' w' → v_shm w' = v_shm w → v_env w' = v_env w → v_links w' !! free_list = v_links w !! free_list →
     Q 0 w') →
  wp (vma ← vma_create s e flags;
      if vma =? 0 then mret (- E_NO_MEM) else insert_vma_struct m vma;; mret 0) w Q.
Proof.
  intros Hr Hse Ht Ms Me Hf Hov Hlen HQ0 HQ. destruct (first_end_place m v s e ps w Hr ltac:(lia)) as [[? _]|(_ & p1 & p2 & Ep & _ & Hp1 & Hp2)];
    [congruence|]. apply wp_bind. eapply wp_vma_create; [exact Hr|..].
  { intros Hno. rewrite Z.eqb_refl, wp_ret. by apply HQ0. }
  intros a x w2 Ha0 Hun Hlo Hr2 K2 Es2 Ee2 Ef2. rewrite (proj2 (Z.eqb_neq _ _) Ha0). apply wp_bind.
  assert (a ∉ ps.*1) as Hni.
  { intros (y & _ & Hy & _)%(rep_at _ _ _ _ _ Hr). destruct Hun as [Hun _]. congruence. }
  rewrite Ep in Hr2. eapply (wp_insert_vma m v p1 p2 a); [exact Hr2|exact Hlo|by rewrite <- Ep| |exact Hp1|exact Hp2|by rewrite <- Ep|].
  { split; cbn; try done; lia. }
  intros v3 w3 Hr3 K3 _ Es3 Ee3 Ef3. rewrite wp_ret. apply (HQ p1 p2 a v3 w3 Ep Hp1 Hr3); [|congruence..].
  eapply keeps_trans; [eapply keeps_own; [exact K2|set_solver]|exact K3|]. rewrite <- Ep.
  intros b [->|Hb]%elem_of_cons; [by right|by left].
Qed.

Definition brk_grown (f f' : Z → option (Z * option (Z * Z))) (s e r : Z) : Prop :=
  (r = 0 ∧ ∀ va, f' va = if decide (s ≤ va < e) then Some (heap_flags, None) else f va) ∨
  (r = - E_NO_MEM ∧ no_vma_left ∧ ∀ va, f' va = f va).

Lemma brk_grown_at m v xs s e w : space m v xs w → 0 < s → s < e → e < 2 ^ 64 →
  s mod PGSIZE = 0 → e mod PGSIZE = 0 → free_in (at_addr xs) s e → zlen xs < 2 ^ 31 - 1 →
  wp (vma ← find_vma m (s - 1);
      grow ← (if vma =? 0 then mret false else x ← get_vma vma; mret ((vm_end x =? s) && (vm_flags x =? heap_flags)));
      if grow : bool then upd_vma vma (λ x, set_range (vm_start x) e x);; mret 0 else
      vma ← vma_create s e heap_flags;
      if vma =? 0 then mret (- E_NO_MEM) else insert_vma_struct m vma;; mret 0) w
    (λ r w', ∃ v' xs', space m v' xs' w' ∧ others_kept m v w v' w' ∧ v_env w' = v_env w ∧ brk_grown (at_addr xs) (at_addr xs') s e r).
Proof.
  intros Hsp Hs0 Hse Ht Ms Me Hfree Hlen. pose proof (λ x, space_ok m v xs w x Hsp) as Hok.
  pose proof (proj2 (overlaps_free s e xs Hse Hok) Hfree) as Hov. destruct Hsp as [(ps & <- & Hr) Hshm Hst Hpg Hm].
  rewrite length_fmap in Hlen. eapply wp_brk_look; [exact Hr|done|]. intros v1 w1 vma g Hr1 K1 Es1 Ee1 El1 Hg.
  assert (∀ v' w', keeps m ps.*1 v w v' w' → pagetable v' = pagetable v ∧ others_kept m v w v' w') as Hfr.
  { intros v' w' K. split; [by rewrite (kp_listing _ _ _ _ _ _ K)|]. eapply keeps_others; [exact Hr|exact K|by left]. }
  assert (∀ v' ps' w', mm_rep m v' ps' w' → keeps m ps.*1 v w v' w' → v_shm w' = v_shm w → v_env w' = v_env w →
    v_links w' !! free_list = v_links w !! free_list → (∀ k, refs k ps'.*2 = refs k ps.*2) →
    (∀ va, at_addr ps'.*2 va = if decide (s ≤ va < e) then Some (heap_flags, None) else at_addr ps.*2 va) →
    ∃ v' xs', space m v' xs' w' ∧ others_kept m v w v' w' ∧ v_env w' = v_env w ∧ brk_grown (at_addr ps.*2) (at_addr xs') s e 0) as Hok'.
  { intros v' ps' w' Hr' K' Es' Ee' El' Hrefs Hat. exists v', ps'.*2. destruct (Hfr v' w' K') as [Hpt Hf].
    split_and!; [|done|done|left; by split]. split; [by exists ps'|by eapply shm_ok_refs|by rewrite El'| |done].
    rewrite Hpt, Ee'. intros va Hva%Hpg. apply at_addr_is_some. rewrite Hat. case_decide; [done|]. by apply at_addr_is_some. }
  destruct g.
  - destruct Hg as (p1 & x & p2 & Ep & Ex & Ef). rewrite Ep in Hr1. destruct (mr_vmas _ _ _ _ Hr1 vma x ltac:(set_solver)) as (Hx & _ & _ & Hokx).
    assert (∀ q, q ∈ p2 → e ≤ vm_start q.2) as Hp2.
    { intros q Hq. pose proof (mr_order _ _ _ _ Hr1) as Ho. apply ordered_app in Ho as (_ & [_ Ho]%ordered_cons & _).
      specialize (Ho q Hq). cbn in Ho. apply Z.nlt_ge. intros Hlt. pose proof (ao_range _ (rep_ok _ _ _ _ q Hr1 ltac:(set_solver))).
      assert (overlaps s e ps.*2 = true); [|congruence]. apply overlaps_true. exists q.2. split; [|lia].
      rewrite Ep, fmap_app. apply elem_of_app. right. right. by apply list_elem_of_fmap_2. }
    apply wp_bind. eapply wp_upd_vma; [exact Hx|]. rewrite wp_ret.
    destruct (rep_extend m v1 p1 vma x p2 e w1 Hr1 ltac:(lia) Me Ht Hp2) as [Hr2 K2].
    eapply (Hok' v1 (p1 ++ (vma, set_range (vm_start x) e x) :: p2)); [exact Hr2| |done|done|cbn; by rewrite El1|..].
    + eapply keeps_trans; [exact K1|exact K2|]. rewrite Ep. intros b Hb. by left.
    + intros k. rewrite Ep, !fmap_app, !refs_app. done.
    + intros va. rewrite Ep, <- Ef, <- Ex. apply at_addr_extend; [done|lia|by rewrite Ef|].
      intros p Hp. pose proof (mr_order _ _ _ _ Hr1) as Ho. apply ordered_app in Ho as (_ & _ & Ho). apply (Ho p (vma, x) Hp). set_solver.
  - eapply (wp_new_area m v1 ps s e heap_flags w1); [exact Hr1|lia|done..| |].
    + intros Hno. exists v1, ps.*2. destruct (Hfr v1 w1 K1) as [Hpt Hf]. split_and!; [|done|done|right; by split_and!].
      split; [by exists ps|by eapply shm_ok_refs|by rewrite El1|by rewrite Ee1, Hpt|done].
    + intros p1 p2 a v2 w2 Ep Hp1 Hr2 K2 Es2 Ee2 El2.
      eapply (Hok' v2 (p1 ++ (a, new_area m s e heap_flags) :: p2)); [exact Hr2| |by rewrite Es2|by rewrite Ee2|by rewrite El2, El1|..].
      * eapply keeps_trans; [exact K1|exact K2|]. intros b Hb. by left.
      * intros k. rewrite Ep, !fmap_app, !refs_app. done.
      * intros va. rewrite Ep. apply at_addr_new; [done|]. intros p Hp. left. by apply Hp1.
Qed.

Lemma mm_brk_run m v xs s n w : space m v xs w → pagetable v ≠ kernel_pagetable → 0 < s → 0 < n →
  s mod PGSIZE = 0 → n mod PGSIZE = 0 → s + n < MAXVA → free_in (at_addr xs) s (s + n) → zlen xs < 2 ^ 31 - 2 →
  wp (mm_brk m s n) w (λ r w', ∃ v' xs', space m v' xs' w' ∧ others_kept m v w v' w' ∧
    (∀ pt va, mapped (v_env w') pt va ↔ mapped (v_env w) pt va) ∧ brk_grown (at_addr xs) (at_addr xs') s (s + n) r).
Proof.
  intros Hsp Hpt Hs Hn Ms Mn Ht Hfree Hlen. pose proof (λ x, space_ok m v xs w x Hsp) as Hok.
  set (e := s + n) in *. assert (e mod PGSIZE = 0) as Me by (by unfold e; rewrite Z.add_mod, Ms, Mn).
  assert (s < e ∧ e < 2 ^ 64) as [Hse He64] by (unfold e, MAXVA in *; lia).
  assert (PGROUNDDOWN s = s) as Es by (apply round_down_aligned; [lia|done]).
  assert (PGROUNDUP (u64 e) = e) as Ee by (rewrite wrap_small by lia; apply round_up_aligned; [lia|done]).
  unfold mm_brk. apply wp_bind. eapply wp_get_mm; [by eapply space_mm|]. rewrite wp_bind, wp_assert, (proj2 (Z.eqb_neq _ _) Hpt).
  split; [done|]. fold e. rewrite Es, Ee. replace (u64 (e - s)) with n by (rewrite wrap_small; unfold e in *; lia).
  rewrite (wrap_small 64 (s - 1)) by lia. apply wp_bind.
  assert (∀ x, x ∈ xs → vm_end x ≤ s ∨ e ≤ vm_start x) as Hout.
  { intros x Hx. pose proof (proj2 (overlaps_free s e xs Hse Hok) Hfree) as Hov.
    destruct (Z.le_gt_cases (vm_end x) s); [by left|right]. apply Z.nlt_ge. intros Hlt.
    assert (overlaps s e xs = true); [|congruence]. apply overlaps_true. by exists x. }
  eapply wp_conseq; [eapply (mm_unmap_run m v xs s n w Hsp ltac:(lia) Hn Ht ltac:(lia))|].
  { fold e. rewrite Es, Ee. intros x Hx H1 H2. destruct (Hout x Hx); lia. }
  cbv zeta. fold e. rewrite Es, Ee. intros r w1 (v1 & xs1 & Hsp1 & Hfr1 & _ & Hl1 & Hres & Hpages).
  assert (∀ va, at_addr xs1 va = at_addr xs va) as Hsame.
  { intros va. destruct Hres as [[_ Hf]|(_ & _ & Hf)]; rewrite Hf; [|done]. case_decide as Hva; [|done]. symmetry. by apply Hfree. }
  assert (∀ pt va, mapped (v_env w1) pt va ↔ mapped (v_env w) pt va) as Hmap.
  { destruct (r =? 0); [|by rewrite Hpages]. intros pt va. rewrite (Hpages pt va). split; [tauto|]. intros Hm. split; [done|].
    intros [-> Hva]. apply (proj2 (at_addr_is_some xs va)); [by eapply sp_pages|]. by apply Hfree. }
  destruct (Z.eqb_spec r 0) as [->|Hr0]; cbn [negb].
  - eapply wp_conseq; [eapply (brk_grown_at m v1 xs1 s e w1); try done; [|lia]; intros va Hva; rewrite Hsame; by apply Hfree|].
    intros r2 w2 (v2 & xs2 & Hsp2 & Hfr2 & Ee2 & Hg). exists v2, xs2. split_and!; [done|by eapply others_kept_trans|by rewrite Ee2|].
    destruct Hg as [[-> Hf]|(-> & Hno & Hf)]; [left|right]; split_and!; try done; intros va; by rewrite Hf, Hsame.
  - rewrite wp_ret. exists v1, xs1. split_and!; [done..|]. destruct Hres as [[? _]|(-> & Hno & _)]; [done|]. right. by split_and!.
Qed.

(** ** [do_brk] *)

(** The heap's end after the call: the one before, or the one asked for. *)
Definition brk_moved (f f' : Z → option (Z * option (Z * Z))) (start old b new : Z) : Prop :=
  let nb := PGROUNDUP b in
  (new = old ∧ (∀ va, f' va = f va) ∧
     (b < start ∨ nb = old ∨ no_vma_left ∨ old < nb ∧ (¬ free_in f old nb ∨ MAXVA ≤ nb))) ∨
  (new = nb ∧ start ≤ b ∧ nb < old ∧ ∀ va, f' va = if decide (nb ≤ va < old) then None else f va) ∨
  (new = nb ∧ start ≤ b ∧ old < nb ∧ free_in f old nb ∧
     ∀ va, f' va = if decide (old ≤ va < nb) then Some (heap_flags, None) else f va).

Lemma space_intersection m v xs s e w : space m v xs w → s < e →
  wp (find_vma_intersection m s e) w (λ r w', ∃ v', space m v' xs w' ∧ others_kept m v w v' w' ∧ v_env w' = v_env w ∧
    (r = 0 ↔ free_in (at_addr xs) s e)).
Proof.
  intros Hsp Hse. pose proof (λ x, space_ok m v xs w x Hsp) as Hok. destruct Hsp as [(ps & <- & Hr) Hshm Hst Hpg Hm].
  unfold find_vma_intersection. apply wp_bind. eapply wp_find_vma; [exact Hr|done|].
  pose proof (rep_cached m v ps w s Hr) as Hrc. pose proof (keeps_cached m ps.*1 v w (first_end s ps)) as Kc.
  assert (v_shm (cached m v (first_end s ps) w) = v_shm w ∧ v_env (cached m v (first_end s ps) w) = v_env w ∧
    v_links (cached m v (first_end s ps) w) = v_links w) as (Es & Ee & El) by (by destruct (first_end s ps)).
  set (v1 := cached_mm v (first_end s ps)) in *. set (w1 := cached m v (first_end s ps) w) in *.
  assert (space m v1 ps.*2 w1 ∧ others_kept m v w v1 w1) as [Hsp1 Hfr].
  { split; [|by eapply keeps_others; [exact Hr|exact Kc|left]].
    split; [by exists ps|by eapply shm_ok_refs|by rewrite El| |done]. rewrite Ee, (kp_listing _ _ _ _ _ _ Kc). exact Hpg. }
  assert (∀ r, (r = 0 ↔ overlaps s e ps.*2 = false) → ∃ v', space m v' ps.*2 w1 ∧ others_kept m v w v' w1 ∧ v_env w1 = v_env w ∧
    (r = 0 ↔ free_in (at_addr ps.*2) s e)) as Hend.
  { intros r Hro. exists v1. split_and!; try done. rewrite Hro. by apply overlaps_free. }
  destruct (first_end_place m v s e ps w Hr Hse) as [(Ov & p1 & a & x & p2 & Ep & Ef & _ & Hx & _)|
    (Ov & p1 & p2 & Ep & Ef & Hp1 & Hp2)]; rewrite Ov in Hend; rewrite Ef.
  - cbn [default from_option id]. destruct (mr_vmas _ _ _ _ Hrc a x ltac:(rewrite Ep; set_solver)) as (Hxa & Ha0 & _).
    rewrite (proj2 (Z.eqb_neq _ _) Ha0). apply wp_bind. eapply wp_get_vma; [exact Hxa|].
    rewrite wp_ret, (proj2 (Z.leb_gt _ _)) by lia. by apply Hend.
  - destruct p2 as [|[b y] p2]; cbn.
    + by apply Hend.
    + destruct (mr_vmas _ _ _ _ Hrc b y ltac:(rewrite Ep; set_solver)) as (Hyb & Hb0 & _).
      rewrite (proj2 (Z.eqb_neq _ _) Hb0). apply wp_bind. eapply wp_get_vma; [exact Hyb|].
      pose proof (Hp2 (b, y) ltac:(by left)) as Hy. cbn in Hy. rewrite (proj2 (Z.leb_le _ _)), wp_ret by done. by apply Hend.
Qed.

(** The body between the word read and the word written. *)
Definition brk_body (m a b : Z) : M (vworld E) unit :=
  mm ← get_mm m;
  if b <? brk_start mm then mret tt else
  let newbrk := PGROUNDUP b in
  let oldbrk := brk mm in
  assert_ (oldbrk mod PGSIZE =? 0);;
  if newbrk =? oldbrk then mret tt else
  if newbrk <? oldbrk then
    r ← mm_unmap m newbrk (u64 (oldbrk - newbrk));
    if negb (r =? 0) then mret tt else upd_mm m (set_brk newbrk)
  else
    v ← find_vma_intersection m oldbrk newbrk;
    if negb (v =? 0) then mret tt else
    r ← mm_brk m oldbrk (u64 (newbrk - oldbrk));
    if negb (r =? 0) then mret tt else upd_mm m (set_brk newbrk).

(** The pages given up when the end moves down. *)
Definition pages_below (v : Mm_struct) (nb : Z) (e e' : E) : Prop :=
  ∀ pt va, mapped e' pt va ↔ mapped e pt va ∧ ¬ (pt = pagetable v ∧ nb ≤ va < brk v).

Lemma pages_kept v nb e e' : brk v ≤ nb → (∀ pt va, mapped e' pt va ↔ mapped e pt va) → pages_below v nb e e'.
Proof. intros Hle Hm pt va. rewrite Hm. split; [|tauto]. intros ?. split; [done|lia]. Qed.

(** The space is there after the body, with the lock held and the end moved. *)
Definition body_done (m : Z) (v : Mm_struct) xs b (e : E) w' : Prop :=
  ∃ v' xs', space m v' xs' w' ∧ mm_sem v' = mm_sem v ∧ pagetable v' = pagetable v ∧
    brk_moved (at_addr xs) (at_addr xs') (brk_start v) (brk v) b (brk v') ∧
    pages_below v (brk v') e (v_env w').

Lemma body_stays m v xs b w v' xs' w' : others_kept m v w v' w' → space m v' xs' w' →
  brk_moved (at_addr xs) (at_addr xs') (brk_start v) (brk v) b (brk v) →
  (∀ pt va, mapped (v_env w') pt va ↔ mapped (v_env w) pt va) → body_done m v xs b (v_env w) w'.
Proof.
  intros Hfr Hsp Hm Hp. exists v', xs'. rewrite (fr_listing _ _ _ _ _ Hfr). split; [by rewrite <- (fr_listing _ _ _ _ _ Hfr)|].
  split_and!; [done..|]. by apply pages_kept.
Qed.

Lemma wp_body_set m v xs b w v' xs' w' nb : others_kept m v w v' w' → space m v' xs' w' →
  brk_moved (at_addr xs) (at_addr xs') (brk_start v) (brk v) b nb → pages_below v nb (v_env w) (v_env w') →
  wp (upd_mm m (set_brk nb)) w' (λ _, body_done m v xs b (v_env w)).
Proof.
  intros Hfr Hsp Hm Hp. eapply wp_upd_mm; [by eapply space_mm|]. exists (set_brk nb v'), xs'.
  split; [by eapply space_fields|]. rewrite (fr_listing _ _ _ _ _ Hfr). by split_and!.
Qed.

Lemma run_brk_body m v xs a b w : space m v xs w → pagetable v ≠ kernel_pagetable → 0 ≤ b < 2 ^ 64 →
  0 < brk v → brk v mod PGSIZE = 0 → brk v < MAXVA → splittable (PGROUNDUP b) (brk v) xs → zlen xs < 2 ^ 31 - 2 →
  wp (brk_body m a b) w (λ _, body_done m v xs b (v_env w)).
Proof.
  intros Hsp Hpt Hb H0 Ho Hot Hsplit Hlen. unfold brk_body. apply wp_bind. eapply wp_get_mm; [by eapply space_mm|].
  set (old := brk v) in *. set (nb := PGROUNDUP b) in *.
  assert (0 ≤ nb < 2 ^ 64 ∧ nb mod PGSIZE = 0) as [Hnb Mnb].
  { destruct (Z.le_gt_cases b (2 ^ 64 - PGSIZE)) as [Hle|Hgt].
    - destruct (round_up_spec b ltac:(lia)) as [Hm Hr]. fold nb in Hm, Hr. split; [|done].
      apply Z.mod_divide in Hm as [k Hk]; [|done]. unfold PGSIZE in *. lia.
    - unfold nb. rewrite round_up_wraps by lia. done. }
  assert (∀ v' xs' w', others_kept m v w v' w' → space m v' xs' w' → (∀ va, at_addr xs' va = at_addr xs va) →
    (∀ pt va, mapped (v_env w') pt va ↔ mapped (v_env w) pt va) →
    (b < brk_start v ∨ nb = old ∨ no_vma_left ∨ old < nb ∧ (¬ free_in (at_addr xs) old nb ∨ MAXVA ≤ nb)) →
    body_done m v xs b (v_env w) w') as Hstay.
  { intros v' xs' w' Hfr Hsp' Hs Hp Hc. eapply body_stays; [exact Hfr|exact Hsp'| |exact Hp]. left. by split_and!. }
  assert (others_kept m v w v w) as Hrefl by (split; try done; apply listing_refl).
  destruct (Z.ltb_spec b (brk_start v)) as [Hst|Hst]; [rewrite wp_ret; apply (Hstay v xs); auto|]. cbv zeta. fold old.
  rewrite wp_bind, wp_assert, Ho. split; [done|].
  destruct (Z.eqb_spec nb old) as [He|Hne]; [rewrite wp_ret; apply (Hstay v xs); auto|].
  destruct (Z.ltb_spec nb old) as [Hlt|Hge].
  - rewrite (wrap_small 64 (old - nb)) by (unfold MAXVA in *; lia). apply wp_bind.
    assert (PGROUNDDOWN nb = nb) as Ed by (by apply round_down_aligned).
    assert (PGROUNDUP (u64 (nb + (old - nb))) = old) as Eu.
    { replace (nb + (old - nb)) with old by lia. rewrite wrap_small by (unfold MAXVA in *; lia).
      apply round_up_aligned; [unfold MAXVA in *; lia|done]. }
    eapply wp_conseq; [eapply (mm_unmap_run m v xs nb (old - nb) w Hsp); try lia|].
    { by rewrite Ed, Eu. }
    cbv zeta. rewrite Ed, Eu. intros r w1 (v1 & xs1 & Hsp1 & Hfr & _ & _ & Hres & Hpages).
    destruct Hres as [[-> Hf]|(-> & Hno & Hf)]; cbn [Z.eqb negb].
    + eapply wp_body_set; [exact Hfr|exact Hsp1|right; left; by split_and!|exact Hpages].
    + change (negb (- E_NO_MEM =? 0)) with true. rewrite wp_ret. eapply Hstay; [exact Hfr|exact Hsp1|done|by rewrite Hpages|auto].
  - apply wp_bind. eapply wp_conseq; [by eapply (space_intersection m v xs old nb); [|lia]|].
    intros r w1 (v1 & Hsp1 & Hfr1 & Ee1 & Hr). destruct (Z.eqb_spec r 0) as [Hr0|Hr0]; cbn [negb].
    2: { rewrite wp_ret. apply (Hstay v1 xs); [done..|by rewrite Ee1|]. right; right; right. split; [lia|]. left. tauto. }
    apply Hr in Hr0. rewrite (wrap_small 64 (nb - old)) by lia. apply wp_bind.
    assert (pagetable v1 = pagetable v) as Ep by (by rewrite (fr_listing _ _ _ _ _ Hfr1)).
    destruct (Z.lt_ge_cases nb MAXVA) as [Htop|Htop].
    + assert ((nb - old) mod PGSIZE = 0) as Mn by (by rewrite Zminus_mod, Mnb, Ho).
      assert (pagetable v1 ≠ kernel_pagetable) as Hpt1 by (by rewrite Ep).
      assert (free_in (at_addr xs) old (old + (nb - old))) as Hfr0 by (by replace (old + (nb - old)) with nb by lia).
      eapply wp_conseq; [eapply (mm_brk_run m v1 xs old (nb - old) w1 Hsp1 Hpt1 H0 ltac:(lia) Ho Mn ltac:(lia) Hfr0 Hlen)|].
      * replace (old + (nb - old)) with nb by lia. intros r2 w2 (v2 & xs2 & Hsp2 & Hfr2 & Hmap & Hg). rewrite Ee1 in Hmap.
        assert (others_kept m v w v2 w2) as Hfr3 by (by eapply others_kept_trans).
        destruct Hg as [[-> Hf]|(-> & Hno & Hf)]; cbn [Z.eqb negb].
        -- eapply wp_body_set; [exact Hfr3|exact Hsp2|right; right; split_and!; try done; lia|]. by apply pages_kept; [fold old; lia|].
        -- change (negb (- E_NO_MEM =? 0)) with true. rewrite wp_ret. apply (Hstay v2 xs2); auto.
    + unfold mm_brk. assert (PGROUNDDOWN old = old) as Eo by (apply round_down_aligned; [unfold MAXVA in *; lia|done]).
      assert (PGROUNDUP (u64 (old + (nb - old))) = nb) as En.
      { replace (old + (nb - old)) with nb by lia. rewrite wrap_small by lia. by apply round_up_aligned. }
      rewrite Eo, En, (wrap_small 64 (nb - old)) by lia. apply wp_bind. eapply wp_get_mm; [by eapply space_mm|].
      rewrite wp_bind, wp_assert, Ep, (proj2 (Z.eqb_neq _ _) Hpt). split; [done|]. apply wp_bind.
      eapply wp_of_run; [apply mm_unmap_beyond; lia|]. change (negb (- E_INVAL =? 0)) with true. cbv iota.
      rewrite wp_ret. change (negb (- E_INVAL =? 0)) with true. cbv iota. rewrite wp_ret.
      apply (Hstay v1 xs); [done..|by rewrite Ee1|]. right; right; right. split; [lia|by right].
Qed.

(** The call up to where it stores the new end for the process. *)
Lemma do_brk_until m v xs p w a :
  space m v xs w → current p w → cp_mm p = m → cp_kernel p = false → 0 < mm_sem v → a ≠ 0 → word_there (v_env w) (pagetable v) a →
  pagetable v ≠ kernel_pagetable → 0 < brk v → brk v mod PGSIZE = 0 → brk v < MAXVA → zlen xs < 2 ^ 31 - 2 →
  let b := user_word (v_env w) (pagetable v) a in splittable (PGROUNDUP b) (brk v) xs →
  ∃ v1 xs1 w1, space m v1 xs1 w1 ∧ mm_sem v1 = mm_sem v - 1 ∧ pagetable v1 = pagetable v ∧
    brk_moved (at_addr xs) (at_addr xs1) (brk_start v) (brk v) b (brk v1) ∧ 0 ≤ brk v1 < 2 ^ 64 ∧
    pages_below v (brk v1) (v_env w) (v_env w1) ∧
    do_brk a w = (on_env (store64 (pagetable v) a (brk v1));; unlock_mm m;; mret 0) w1.
Proof.
  intros Hsp Hc Hm Hk Hs Ha Hwt Hpt H0 Ho Hot Hlen b Hsplit.
  pose proof (user_word_range (v_env w) (pagetable v) a) as Hb. fold b in Hb.
  pose proof (space_locked m v xs p w Hsp) as Hsp1.
  assert (wp (brk_body m a b) (locked m v p w) (λ _, body_done m (held p v) xs b (v_env (locked m v p w)))) as Hbody
    by (by apply run_brk_body).
  unfold brk_body in Hbody. apply wp_bind in Hbody. unfold get_mm in Hbody.
  rewrite wp_bind, wp_gets, (space_mm _ _ _ _ Hsp1) in Hbody. cbn [of_option] in Hbody. rewrite wp_ret in Hbody.
  apply wp_unit in Hbody as (w1 & Hrun & v1 & xs1 & Hsp2 & Esem & Ept & Hmv & Hpg).
  change (brk_start (held p v)) with (brk_start v) in Hmv. change (brk (held p v)) with (brk v) in Hmv.
  exists v1, xs1, w1. split_and!; [done|rewrite Esem; cbn; lia|by rewrite Ept|done|..|done|].
  1,2: assert (0 ≤ PGROUNDUP b < 2 ^ 64) by (unfold PGROUNDUP; rewrite round_mask by (apply wrap_range; lia);
    pose proof (wrap_range 64 (b + PGSIZE - 1) ltac:(lia)); pose proof (Z.mod_pos_bound (u64 (b + PGSIZE - 1)) PGSIZE ltac:(done));
    pose proof (Z.mod_le (u64 (b + PGSIZE - 1)) PGSIZE ltac:(lia) ltac:(done)); lia);
    unfold MAXVA in Hot; destruct Hmv as [[-> _]|[[-> _]|[-> _]]]; lia.
  unfold do_brk. apply run_after. rewrite wp_gets. apply run_after. rewrite wp_assert, Hc. split; [done|].
  apply run_after. unfold my_proc. rewrite wp_bind, wp_gets, Hc. apply wp_of_option. exists p. split; [done|]. cbv zeta.
  rewrite Hk, (proj2 (Z.eqb_neq _ _) Ha), Hm. apply run_after. eapply (wp_lock_mm m v xs p); [exact Hsp|exact Hc|exact Hs|].
  intros _. fold (locked m v p w) in *. apply run_after. eapply wp_get_mm; [by eapply space_mm|].
  apply run_after, wp_load_word; [exact Hwt|]. change (user_word (v_env (locked m v p w)) (pagetable (held p v)) a) with b.
  apply run_after. eapply wp_of_run; [exact Hrun|]. apply run_after. eapply wp_get_mm; [by eapply space_mm|].
  by rewrite Ept.
Qed.

(** The pages of a word are not in a range. *)
Definition word_outside (a s t : Z) : Prop := ¬ s ≤ PGROUNDDOWN a < t ∧ ¬ s ≤ PGROUNDDOWN (a + 7) < t.

Lemma do_brk_run m v xs p w a :
  space m v xs w → current p w → cp_mm p = m → cp_kernel p = false → 0 < mm_sem v → a ≠ 0 → word_there (v_env w) (pagetable v) a →
  pagetable v ≠ kernel_pagetable → 0 < brk v → brk v mod PGSIZE = 0 → brk v < MAXVA → zlen xs < 2 ^ 31 - 2 →
  let b := user_word (v_env w) (pagetable v) a in splittable (PGROUNDUP b) (brk v) xs → word_outside a (PGROUNDUP b) (brk v) →
  ∃ v' xs' w', do_brk a w = Ok (0, w') ∧ space m v' xs' w' ∧ mm_sem v' = mm_sem v ∧ pagetable v' = pagetable v ∧
    user_word (v_env w') (pagetable v) a = brk v' ∧
    brk_moved (at_addr xs) (at_addr xs') (brk_start v) (brk v) b (brk v').
Proof.
  intros Hsp Hc Hm Hk Hs Ha Hwt Hpt H0 Ho Hot Hlen b Hsplit [O1 O2].
  destruct (do_brk_until m v xs p w a Hsp Hc Hm Hk Hs Ha Hwt Hpt H0 Ho Hot Hlen Hsplit)
    as (v1 & xs1 & w1 & Hsp2 & Esem & Ept & Hmv & Hrange & Hpg & ->). fold b in Hmv.
  assert (word_there (v_env w1) (pagetable v) a) as Hwt1.
  { assert (∀ va, ¬ PGROUNDUP b ≤ va < brk v → mapped (v_env w) (pagetable v) va → mapped (v_env w1) (pagetable v) va) as Hkeep.
    { intros va Hva Hmp. apply Hpg. split; [done|]. intros [_ Hr]. destruct Hmv as [[E1 _]|[[E1 _]|[E1 _]]]; lia. }
    destruct Hwt as [[R1 M1] [R2 M2]]. split; (split; [done|by apply Hkeep]). }
  enough (wp (on_env (store64 (pagetable v) a (brk v1));; unlock_mm m;; mret 0) w1 (λ r w', r = 0 ∧ ∃ v', space m v' xs1 w' ∧
    mm_sem v' = mm_sem v ∧ pagetable v' = pagetable v ∧ brk v' = brk v1 ∧ user_word (v_env w') (pagetable v) a = brk v1))
    as (r & w' & -> & -> & v' & S1 & S2 & S3 & S4 & S5)%wp_run.
  { exists v', xs1, w'. rewrite S4. by split_and!. }
  apply wp_bind. eapply wp_store_word; [exact Hsp2|exact Hwt1|exact Hrange|]. intros e' Hw Hsp3.
  apply wp_bind. eapply wp_unlock_mm; [exact Hsp3|]. intros Hsp4. rewrite wp_ret. split; [done|].
  exists (released v1). split_and!; [done| |done..]. cbn. lia.
Qed.

(** The word itself was on a page given up. *)
Lemma do_brk_stops m v xs p w a :
  space m v xs w → current p w → cp_mm p = m → cp_kernel p = false → 0 < mm_sem v → a ≠ 0 → word_there (v_env w) (pagetable v) a →
  pagetable v ≠ kernel_pagetable → 0 < brk v → brk v mod PGSIZE = 0 → brk v < MAXVA → zlen xs < 2 ^ 31 - 2 →
  let b := user_word (v_env w) (pagetable v) a in splittable (PGROUNDUP b) (brk v) xs → ¬ word_outside a (PGROUNDUP b) (brk v) →
  brk_start v ≤ b → ¬ no_vma_left → do_brk a w = Panic.
Proof.
  intros Hsp Hc Hm Hk Hs Ha Hwt Hpt H0 Ho Hot Hlen b Hsplit Hin Hst Hno.
  destruct (do_brk_until m v xs p w a Hsp Hc Hm Hk Hs Ha Hwt Hpt H0 Ho Hot Hlen Hsplit)
    as (v1 & xs1 & w1 & Hsp2 & Esem & Ept & Hmv & Hrange & Hpg & ->). fold b in Hmv.
  assert (PGROUNDUP b < brk v) as Hlt.
  { destruct (Z.lt_ge_cases (PGROUNDUP b) (brk v)) as [|Hge]; [done|]. destruct Hin. split; lia. }
  assert (brk v1 = PGROUNDUP b) as Eb by (destruct Hmv as [(_ & _ & [?|[?|[?|[? _]]]])|[[? _]|[? _]]]; [lia|lia|done|lia|done|done]).
  assert (¬ word_there (v_env w1) (pagetable v) a) as Hn.
  { intros [[_ M1] [_ M2]]. apply Hpg in M1 as [_ M1]. apply Hpg in M2 as [_ M2]. apply Hin. rewrite Eb in *. split; tauto. }
  assert (store64 (pagetable v) a (brk v1) (v_env w1) = Panic) as Hst64.
  { apply store64_panics; [|done|done]. destruct Hwt as [[R _] _]. unfold MAXVA in R. lia. }
  apply panic_here. unfold on_env, zoom. by rewrite Hst64.
Qed.
End brk.
