(* ===== verification/VmmDup.v ===== *)
(** * Address spaces: [dup_mmap], the copy made by fork

    Two spaces lie in the stores at once: what one does to its own objects leaves the
    other as it is when they have no node in common. *)
From Stdlib Require Import Sorted.
From S2P Require Import Prelude Errors ListH Rbtree RbRep RbSpec RbDelete RbSearch Vmm VmmRep VmmOps VmmInsert VmmPull VmmCut VmmSpec.

(** What [copy_range] promises: the pages of the range come into a table that has
    none there, all of them unless there are no pages left for the table, and nothing
    else changes.  It stops at a stack page of an area that is shared, and at one
    there is no page left to copy to. *)
Class PageCopy `{VO : VmEnvOk E} := {
  no_page_left : Prop;
  stack_page : E → Z → Z → Prop;
  pc_copy (e : E) to from s t (sh : bool) : to ≠ from → s mod PGSIZE = 0 → t mod PGSIZE = 0 → 0 ≤ s < t → t ≤ MAXVA →
    (∀ va, s ≤ va < t → ¬ mapped e to va) →
    (sh = true ∨ no_page_left → ∀ va, s ≤ va < t → ¬ stack_page e from va) →
    ∃ r e', ve_copy_range to from s t sh e = Ok (r, e') ∧ (r ≠ 0 → no_page_left) ∧
      (∀ va, mapped e' to va → mapped e to va ∨ s ≤ va < t ∧ mapped e from va) ∧
      (r = 0 → ∀ va, mapped e to va ∨ s ≤ va < t ∧ mapped e from va → mapped e' to va) ∧
      (∀ pt va, pt ≠ to → mapped e' pt va ↔ mapped e pt va) ∧
      (∀ va, stack_page e' from va ↔ stack_page e from va) }.
Arguments PageCopy E {VE VO}.

Section dup.
Context `{PC : PageCopy E}.
Implicit Type w : vworld E.
Abbreviation area := (Z * Vma_struct)%type.

(** ** Two spaces *)

(** No node of the space [v] with the areas [ps] is an area of [own] or of the tree of [vt]. *)
Definition apart (v : Mm_struct) (ps : list area) (vt : Mm_struct) (own : list Z) w : Prop :=
  ∀ n, n ∈ ps.*1 ++ tree_nodes w v → n ∉ own ++ tree_nodes w vt.

Lemma rep_node_in m v ps w n : mm_rep m v ps w → n ∈ ps.*1 ++ tree_nodes w v → is_Some (rm_nodes (v_mem w) !! n).
Proof. intros Hr [Hn|Hn]%elem_of_app; [by apply Hr|by eapply tree_nodes_in]. Qed.

Lemma tree_nodes_kept m v ps w mt own vt vt' w' : mm_rep m v ps w → keeps mt own vt w vt' w' → tree_nodes w' v = tree_nodes w v.
Proof.
  intros Hr K. unfold tree_nodes. destruct (Z.eqb_spec (mmap_tree v) 0); [done|].
  destruct (mr_tree _ _ _ _ Hr) as [?|(tr & Ht & _)]; [done|]. by rewrite (kp_trees _ _ _ _ _ _ K), Ht by eauto.
Qed.

Lemma rep_other m v ps w mt own vt vt' w' : mm_rep m v ps w → keeps mt own vt w vt' w' → m ≠ mt → apart v ps vt own w → mm_rep m v ps w'.
Proof.
  intros Hr K Hm Hap. assert (∀ n, n ∈ ps.*1 ++ tree_nodes w v → rm_nodes (v_mem w') !! n = rm_nodes (v_mem w) !! n) as Hnode.
  { intros n Hn. pose proof (Hap n Hn) as [H1 H2]%not_elem_of_app. apply (kp_nodes _ _ _ _ _ _ K); [done..|].
    by eapply rep_node_in. }
  assert (∀ a, a ∈ ps.*1 → a ∉ own) as Hown by (intros a Ha Ho; refine (Hap a _ _); apply elem_of_app; by left).
  pose proof (tree_nodes_kept _ _ _ _ _ _ _ _ _ Hr K) as Et. destruct Hr as [H1 H2 H3 H4 H5 H6 H7 H8]. split; try done.
  - by rewrite (kp_mms _ _ _ _ _ _ K).
  - eapply is_list_same; [exact H2|]. intros u Hu. apply (kp_links _ _ _ _ _ _ K).
    + apply elem_of_cons in Hu as [->|(a & -> & _)%list_elem_of_fmap]; [unfold mmap_list; lia|apply link_ne_head].
    + intros (b & -> & Hb)%list_elem_of_fmap. apply elem_of_cons in Hu as [Hu|Hu]; [by apply link_ne_head in Hu|].
      apply (Hown b); [by apply link_in|done].
    + apply elem_of_dom. destruct H2 as [_ Hs]. eapply lseg_dom; [exact Hs|]. set_solver.
  - intros a x Ha. destruct (H3 a x Ha) as (Hx & ? & ? & ?). split_and!; [|done..].
    rewrite (kp_vmas _ _ _ _ _ _ K); [done| |by eexists]. apply Hown. by apply (list_elem_of_fmap_2 fst _ (a, x)).
  - intros a Ha. rewrite Hnode; [by apply H5|]. apply elem_of_app. by left.
  - destruct H6 as [?|(tr & Ht & Hrep)]; [by left|]. destruct (Z.eqb_spec (mmap_tree v) 0) as [E0|E0]; [by left|right].
    exists tr. rewrite (kp_trees _ _ _ _ _ _ K) by eauto. split; [done|]. eapply rep_same; [exact Hrep|].
    intros n Hn. apply Hnode. unfold tree_nodes. rewrite (proj2 (Z.eqb_neq _ _) E0), Ht. set_solver.
Qed.

(** The two are apart still, when what came to the second is new. *)
Lemma apart_kept m v ps w mt own vt vt' w' own' : mm_rep m v ps w → keeps mt own vt w vt' w' → apart v ps vt own w →
  (∀ a, a ∈ own' → a ∈ own ∨ rm_nodes (v_mem w) !! a = None) → apart v ps vt' own' w'.
Proof.
  intros Hr K Hap Hown n Hn. rewrite (tree_nodes_kept _ _ _ _ _ _ _ _ _ Hr K) in Hn. destruct (rep_node_in _ _ _ _ _ Hr Hn) as [y Hy].
  pose proof (Hap n Hn) as [H1 H2]%not_elem_of_app. apply not_elem_of_app. split.
  - intros [?|?]%Hown; congruence.
  - intros [?|[?|?]]%(kp_tree _ _ _ _ _ _ K); congruence.
Qed.

(** ** The references to shared memory *)

(** Each shared memory has as many references more as the areas [xs] have on it. *)
Definition counted (xs : list Vma_struct) w w' : Prop :=
  ∀ s, v_shm w' !! s = (λ c, mk_shm (shm_len c) (shmem_ref c + refs s xs)) <$> v_shm w !! s.

Lemma refs_le s xs : refs s xs ≤ zlen xs.
Proof. induction xs as [|x xs IH]; cbn; [done|]. case_match; lia. Qed.

Lemma refs_fmap s m xs : refs s (set_vm_mm m <$> xs) = refs s xs.
Proof. induction xs as [|x xs IH]; [done|]. cbn. by rewrite IH. Qed.

Lemma counted_nil w : counted [] w w.
Proof. intros s. destruct (v_shm w !! s) as [[l r]|]; [|done]. cbn -[Z.add]. by rewrite Z.add_0_r. Qed.

Lemma counted_snoc xs x w w1 w2 : counted xs w w1 → counted [x] w1 w2 → counted (xs ++ [x]) w w2.
Proof.
  intros H1 H2 s. rewrite H2, H1, refs_app. destruct (v_shm w !! s) as [c|]; [|done]. cbn -[refs Z.add]. by rewrite Z.add_assoc.
Qed.

(** The counts of two spaces hold the areas of both. *)
Lemma counted_ok xs k1 k2 m w w' : shm_ok xs w → counted k1 w w' → xs = k1 ++ k2 →
  (∀ s c, v_shm w !! s = Some c → shmem_ref c + zlen xs < 2 ^ 63) → shm_ok (xs ++ (set_vm_mm m <$> k1)) w'.
Proof.
  intros Hok Hc Ek Hb s. rewrite refs_app, refs_fmap. intros Hs.
  assert (refs s k1 ≤ refs s xs) as Hle by (rewrite Ek, refs_app; pose proof (refs_pos s k2); lia).
  destruct (Hok s) as (c & Ec & Hr); [lia|]. exists (mk_shm (shm_len c) (shmem_ref c + refs s k1)).
  split; [by rewrite Hc, Ec|]. cbn. specialize (Hb s c Ec). pose proof (refs_le s k1). subst xs. rewrite length_app in Hb. lia.
Qed.

Lemma shm_ok_sub xs ys w : shm_ok xs w → (∀ s, refs s ys ≤ refs s xs) → shm_ok ys w.
Proof. intros H Hle s Hs. specialize (Hle s). destruct (H s) as (c & ? & ?); [lia|]. exists c. split; [done|lia]. Qed.

(** ** One area *)

(** A new area takes the shared memory of the one it copies. *)
Lemma wp_dup_shared a x0 x mt vt qs w (Q : unit → vworld E → Prop) :
  loose vt a (set_shmem 0 0 (set_vm_flags (vm_flags x) (set_range (vm_start x) (vm_end x) x0))) w → area_ok x →
  mm_rep mt vt qs w → a ∉ qs.*1 →
  (flag (vm_flags x) VM_SHARE = true → ∃ c, v_shm w !! shmem x = Some c ∧ 0 ≤ shmem_ref c < 2 ^ 63 - 1) →
  (∀ y w', loose vt a y w' → set_vm_mm mt y = set_vm_mm mt x → area_ok y → mm_rep mt vt qs w' → keeps mt [a] vt w vt w' →
     counted [x] w w' → v_links w' = v_links w → v_env w' = v_env w → Q tt w') →
  wp (if flag (vm_flags x) VM_SHARE then
     upd_vma a (set_shmem (shmem x) (shmem_off x));;
     shmem_ref_inc (shmem x);; mret tt
   else mret tt) w Q.
Proof.
  intros Hlo Hax Hr Hni Hshm HQ. destruct Hax as [O1 O2 O3 O4 O5 O6]. destruct (flag (vm_flags x) VM_SHARE) eqn:Ef.
  - destruct (Hshm eq_refl) as (c & Hc & Hb). apply wp_bind. eapply wp_upd_vma; [apply Hlo|].
    unfold shmem_ref_inc, upd_ref, get_shm. apply wp_bind, wp_bind, wp_bind. rewrite wp_gets. cbn [v_shm set_vmas]. rewrite Hc.
    apply wp_of_option. exists c. split; [done|].
    assert (sint 64 (shmem_ref c + 1) = shmem_ref c + 1) as -> by (unfold sint; rewrite Z.mod_small; lia).
    rewrite wp_bind, wp_modify, wp_ret, wp_ret. set (y := set_shmem (shmem x) (shmem_off x) _).
    apply (HQ y); [| | | | | |done|done].
    + destruct Hlo as [L1 L2 L3 L4 L5]. split; cbn; try done. apply lookup_insert_eq.
    + by destruct x.
    + split; cbn; try done. by rewrite Ef.
    + destruct Hr as [H1 H2 H3 H4 H5 H6 H7 H8]. split; try done. cbn. intros b z Hin.
      rewrite lookup_insert_ne; [by apply H3|]. intros <-. apply Hni. by apply (list_elem_of_fmap_2 fst _ (a, z)).
    + eapply keeps_eq; [eapply (keeps_vma mt [a] vt w vt w a y); [apply keeps_refl|by left]|done..].
    + intros s. cbn. rewrite Ef. destruct (decide (s = shmem x)) as [->|Hne]; cbn.
      * by rewrite lookup_insert_eq, Hc, Z.eqb_refl.
      * rewrite lookup_insert_ne, (proj2 (Z.eqb_neq _ _)) by done. destruct (v_shm w !! s) as [[l r]|]; [|done].
        cbn -[Z.add]. by rewrite Z.add_0_r.
  - rewrite wp_ret. destruct (O6 eq_refl) as [E1 E2]. eapply HQ; [exact Hlo| | |done|apply keeps_refl| |done|done].
    + destruct x. cbn in *. by subst.
    + by split.
    + intros s. cbn. rewrite Ef. destruct (v_shm w !! s) as [[l r]|]; [|done]. cbn -[Z.add]. by rewrite Z.add_0_r.
Qed.

(** The pages of [x] in another table: [copy_range] can copy them, and has. *)
Definition copyable (e : E) (from : Z) (x : Vma_struct) : Prop :=
  flag (vm_flags x) VM_SHARE = true ∨ no_page_left → ∀ va, covers x va → ¬ stack_page e from va.

Record page_copy (r : Z) (x : Vma_struct) (to from : Z) (e e' : E) : Prop := {
  py_left : r ≠ 0 → no_page_left;
  py_some va : mapped e' to va → mapped e to va ∨ covers x va ∧ mapped e from va;
  py_all va : r = 0 → mapped e to va ∨ covers x va ∧ mapped e from va → mapped e' to va;
  py_others pt va : pt ≠ to → mapped e' pt va ↔ mapped e pt va;
  py_stack va : stack_page e' from va ↔ stack_page e from va }.

Lemma wp_copy_pages x to from w (Q : Z → vworld E → Prop) :
  area_ok x → to ≠ from → vm_end x ≤ MAXVA → (∀ va, covers x va → ¬ mapped (v_env w) to va) → copyable (v_env w) from x →
  (∀ r e', page_copy r x to from (v_env w) e' → Q r (set_env e' w)) →
  wp (on_env (ve_copy_range to from (vm_start x) (vm_end x) (flag (vm_flags x) VM_SHARE))) w Q.
Proof.
  intros [O1 _ O3 O4 _ _] Hne Ht Hto Hco HQ. apply wp_zoom.
  destruct (pc_copy (v_env w) to from (vm_start x) (vm_end x) _ Hne O3 O4 O1 Ht Hto Hco) as (r & e' & He & H1 & H2 & H3 & H4 & H5).
  eapply wp_of_run; [exact He|]. apply HQ. split; auto.
Qed.

Lemma wp_dup_vma mf vf ps b x mt vt qs w (Q : Z → vworld E → Prop) :
  mm_rep mf vf ps w → mm_rep mt vt qs w → mf ≠ mt → apart vf ps vt qs.*1 w → (b, x) ∈ ps →
  (∀ q, q ∈ qs → vm_end q.2 ≤ vm_start x) → zlen qs < 2 ^ 31 - 1 →
  (flag (vm_flags x) VM_SHARE = true → ∃ c, v_shm w !! shmem x = Some c ∧ 0 ≤ shmem_ref c < 2 ^ 63 - 1) →
  pagetable vt ≠ pagetable vf → vm_end x ≤ MAXVA → (∀ va, covers x va → ¬ mapped (v_env w) (pagetable vt) va) →
  copyable (v_env w) (pagetable vf) x →
  (no_vma_left → Q (- E_NO_MEM) w) →
  (∀ r a vt' w', unused a w → mm_rep mf vf ps w' → mm_rep mt vt' (qs ++ [(a, set_vm_mm mt x)]) w' → keeps mt qs.*1 vt w vt' w' →
     apart vf ps vt' (qs ++ [(a, set_vm_mm mt x)]).*1 w' → counted [x] w w' → v_links w' !! free_list = v_links w !! free_list →
     page_copy r x (pagetable vt) (pagetable vf) (v_env w) (v_env w') → Q (if r =? 0 then 0 else - E_NO_MEM) w') →
  wp (dup_vma mt mf b) w Q.
Proof.
  intros Hrf Hrt Hm Hap Hin Hqs Hlen Hshm Hpt Htop Hto Hco HQ0 HQ1. pose proof (rep_ok _ _ _ _ _ Hrf Hin) as Hax. cbn in Hax.
  unfold dup_vma. apply wp_bind. eapply wp_get_vma; [by apply (mr_vmas _ _ _ _ Hrf)|]. apply wp_bind.
  eapply (wp_vma_create mt vt qs); [exact Hrt|intros Hno; by apply HQ0|]. intros a x0 w1 Ha Hun Hlo1 Hr1 K1 Es1 Ee1 Ef1.
  rewrite (proj2 (Z.eqb_neq _ _) Ha). assert (a ∉ qs.*1) as Hni.
  { intros (y & _ & Hy & _)%(rep_at _ _ _ _ a Hrt). destruct Hun. congruence. }
  apply wp_bind. eapply (wp_dup_shared a x0 x mt vt qs); [exact Hlo1|exact Hax|exact Hr1|exact Hni|by rewrite Es1|].
  intros y w2 Hlo2 Ey Hay Hr2 K2 Hc2 El2 Ee2. assert (vm_start y = vm_start x) as Eys by (by destruct x, y; injection Ey).
  apply wp_bind. eapply (wp_insert_vma mt vt qs [] a y); rewrite ?app_nil_r; [done..| | |done|].
  { intros q Hq. rewrite Eys. by apply Hqs. }
  { set_solver. }
  intros v3 w3 Hr3 K3 _ Es3 Ee3 Ef3. rewrite Ey in Hr3.
  assert (keeps mt qs.*1 vt w v3 w3) as K.
  { eapply keeps_trans; [eapply keeps_own; [eapply keeps_trans; [exact K1|exact K2|]|]|exact K3|].
    - intros c ->%list_elem_of_singleton. by right.
    - intros c Hc%elem_of_nil. done.
    - intros c [->|Hc]%elem_of_cons; [by right|by left]. }
  pose proof (rep_other _ _ _ _ _ _ _ _ _ Hrf K Hm Hap) as Hrf3.
  apply wp_bind. eapply wp_get_mm; [apply Hr3|]. apply wp_bind. eapply wp_get_mm; [apply Hrf3|].
  assert (pagetable v3 = pagetable vt) as -> by (by rewrite (kp_listing _ _ _ _ _ _ K)).
  assert (v_env w3 = v_env w) as Ee by congruence. apply wp_bind, wp_copy_pages; rewrite ?Ee; [done..|]. intros r e' Hpy.
  rewrite wp_ret. enough (Q (if r =? 0 then 0 else - E_NO_MEM) (set_env e' w3)) by (by destruct (r =? 0)). apply (HQ1 r a v3); [exact Hun|by eapply rep_eq|by eapply rep_eq|by eapply keeps_eq| |..].
  - eapply (apart_kept _ _ _ w mt qs.*1 vt v3 (set_env e' w3)); [exact Hrf|by eapply keeps_eq|exact Hap|].
    intros c. rewrite fmap_app. intros [Hc| ->%list_elem_of_singleton]%elem_of_app; [by left|]. right. apply Hun.
  - intros s. cbn. rewrite Es3, Hc2. by rewrite Es1.
  - cbn. by rewrite Ef3, El2.
  - done.
Qed.

(** ** All areas *)

(** The areas [k] of the space are copied. *)
Record dup_part mf vf (ps : list area) mt vt w (k : list area) (vt' : Mm_struct) (w' : vworld E) : Prop := {
  du_from : mm_rep mf vf ps w';
  du_to : ∃ qs, qs.*2 = set_vm_mm mt <$> k.*2 ∧ mm_rep mt vt' qs w' ∧ apart vf ps vt' qs.*1 w' ∧ ∀ a, a ∈ qs.*1 → unused a w;
  du_keeps : keeps mt [] vt w vt' w';
  du_counted : counted k.*2 w w';
  du_free : v_links w' !! free_list = v_links w !! free_list;
  du_some va : mapped (v_env w') (pagetable vt) va → mapped (v_env w) (pagetable vf) va ∧ ∃ x, x ∈ k.*2 ∧ covers x va;
  du_others pt va : pt ≠ pagetable vt → mapped (v_env w') pt va ↔ mapped (v_env w) pt va;
  du_stack va : stack_page (v_env w') (pagetable vf) va ↔ stack_page (v_env w) (pagetable vf) va }.

Definition dup_full mf vf ps mt vt w k vt' w' : Prop :=
  dup_part mf vf ps mt vt w k vt' w' ∧
  ∀ x va, x ∈ k.*2 → covers x va → mapped (v_env w) (pagetable vf) va → mapped (v_env w') (pagetable vt) va.

(** What the source must be like. *)
Record dup_ready (mf : Z) vf (ps : list area) mt vt w : Prop := {
  dr_ne : mf ≠ mt;
  dr_new : mmap_tree vt = 0;
  dr_pt : pagetable vt ≠ pagetable vf;
  dr_len : zlen ps < 2 ^ 31 - 1;
  dr_shm : shm_ok ps.*2 w;
  dr_room s c : v_shm w !! s = Some c → shmem_ref c + zlen ps < 2 ^ 63;
  dr_areas x : x ∈ ps.*2 → vm_end x ≤ MAXVA ∧ copyable (v_env w) (pagetable vf) x }.

Lemma unused_before mt vt w v' w' a : keeps mt [] vt w v' w' → mmap_tree vt = 0 → unused a w' → unused a w.
Proof.
  intros K E0 (U1 & U2 & U3).
  assert (∀ {A} (o o' : option A), (is_Some o → o' = o) → o' = None → o = None) as Hb.
  { intros A [y|] o' Ho En; [|done]. by rewrite Ho in En. }
  split_and!; (eapply Hb; [|eassumption]); intros Hs.
  - by apply (kp_vmas _ _ _ _ _ _ K); [apply not_elem_of_nil|].
  - by apply (kp_links _ _ _ _ _ _ K); [apply link_ne_head|apply not_elem_of_nil|].
  - apply (kp_nodes _ _ _ _ _ _ K); [apply not_elem_of_nil| |done]. unfold tree_nodes. rewrite E0. apply not_elem_of_nil.
Qed.

Lemma dup_step mf vf ps mt vt w k1 b x k2 v1 w1 (Q : Z → vworld E → Prop) :
  dup_ready mf vf ps mt vt w → ps = k1 ++ (b, x) :: k2 → dup_full mf vf ps mt vt w k1 v1 w1 →
  (no_vma_left → Q (- E_NO_MEM) w1) →
  (∀ v2 w2, no_page_left → dup_part mf vf ps mt vt w (k1 ++ [(b, x)]) v2 w2 → Q (- E_NO_MEM) w2) →
  (∀ v2 w2, dup_full mf vf ps mt vt w (k1 ++ [(b, x)]) v2 w2 → Q 0 w2) →
  wp (dup_vma mt mf b) w1 Q.
Proof.
  intros [Hne Hnew Hpt Hlen Hshm Hroom Hxs] Ek [[Hf (qs & Eq & Ht & Hap & Hun) K Hc Hfr Hs Ho Hst] Hall] Q1 Q2 Q3.
  assert ((b, x) ∈ ps) as Hin by (rewrite Ek; set_solver). pose proof (rep_ok _ _ _ _ _ Hf Hin) as Hax. cbn in Hax.
  destruct (Hxs x) as [Htop Hco]; [by apply (list_elem_of_fmap_2 snd _ (b, x))|].
  pose proof (mr_order _ _ _ _ Hf) as Hord. rewrite Ek in Hord. apply ordered_app in Hord as (_ & _ & H12).
  assert (∀ z, z ∈ k1.*2 → vm_end z ≤ vm_start x) as Hbefore.
  { intros z (p & -> & Hp)%list_elem_of_fmap. apply (H12 p (b, x) Hp). by left. }
  assert (pagetable v1 = pagetable vt) as Ep by (by rewrite (kp_listing _ _ _ _ _ _ K)).
  assert (length qs = length k1) as El by (apply (f_equal length) in Eq; by rewrite !length_fmap in Eq).
  eapply (wp_dup_vma mf vf ps b x mt v1 qs w1); rewrite ?Ep; try done.
  - intros q Hq. apply (list_elem_of_fmap_2 snd) in Hq. rewrite Eq in Hq. apply list_elem_of_fmap in Hq as (z & -> & Hz).
    exact (Hbefore z Hz).
  - rewrite El. subst ps. rewrite length_app in Hlen. lia.
  - intros Esh. assert (0 < refs (shmem x) [x]) as Hpos by (cbn; rewrite Esh, Z.eqb_refl; done).
    assert (refs (shmem x) ps.*2 = refs (shmem x) k1.*2 + refs (shmem x) [x] + refs (shmem x) k2.*2) as Er.
    { rewrite Ek, fmap_app, refs_app. cbn [fmap list_fmap snd]. rewrite (refs_cons _ x). lia. }
    pose proof (refs_pos (shmem x) k1.*2). pose proof (refs_pos (shmem x) k2.*2).
    destruct (Hshm (shmem x)) as (c & Ec & Hb); [lia|]. pose proof (Hroom _ _ Ec) as Hrm. pose proof (refs_le (shmem x) k1.*2) as Hle.
    eexists. split; [by rewrite Hc, Ec|]. cbn [shmem_ref]. rewrite length_fmap in Hle. subst ps. rewrite length_app in Hrm.
    cbn [length] in Hrm. lia.
  - intros va Hva (_ & z & Hz & Hcz)%Hs. specialize (Hbefore z Hz). unfold covers in *. lia.
  - intros Hsn va Hva. rewrite Hst. by apply Hco.
  - intros r a v2 w2 Hua Hf2 Ht2 K2 Hap2 Hc2 Hfr2 [Y1 Y2 Y3 Y4 Y5].
    assert (dup_part mf vf ps mt vt w (k1 ++ [(b, x)]) v2 w2) as Hpart.
    { split; [done| | | |congruence|..].
      - exists (qs ++ [(a, set_vm_mm mt x)]). split_and!; [by rewrite !fmap_app, Eq|done..|].
        intros c. rewrite fmap_app. intros [Hc'| ->%list_elem_of_singleton]%elem_of_app; [by apply Hun|]. by eapply unused_before.
      - eapply keeps_trans; [exact K|exact K2|]. intros c Hc'. right. by apply Hun.
      - rewrite fmap_app. by eapply counted_snoc.
      - intros va Hva. rewrite fmap_app. setoid_rewrite elem_of_app. destruct (Y2 va Hva) as [(Hm & z & Hz & Hcz)%Hs|[Hcx Hm]].
        + split; [done|]. exists z. tauto.
        + split; [by apply Ho|]. exists x. split; [right; by left|done].
      - intros pt va Hn. by rewrite Y4, Ho.
      - intros va. by rewrite Y5, Hst. }
    destruct (Z.eqb_spec r 0) as [->|Hr]; [|by apply (Q2 v2); [apply Y1|]]. apply (Q3 v2). split; [done|].
    intros z va. rewrite fmap_app. intros [Hz|Hz]%elem_of_app Hcz Hm.
    + apply Y3; [done|]. left. by apply (Hall z).
    + apply list_elem_of_singleton in Hz as ->. apply Y3; [done|]. right. split; [done|]. by apply Ho.
Qed.

(** Both spaces after the call, with the areas [x1] copied. *)
Record dup_result mf vf (xs : list Vma_struct) mt vt w (x1 : list Vma_struct) (w' : vworld E) : Prop := {
  dd_from : space mf vf xs w';
  dd_to : ∃ vt', space mt vt' (set_vm_mm mt <$> x1) w' ∧ listing vt vt';
  dd_shm : shm_ok (xs ++ (set_vm_mm mt <$> x1)) w';
  dd_others pt va : pt ≠ pagetable vt → mapped (v_env w') pt va ↔ mapped (v_env w) pt va }.

Lemma dup_part_result mf vf ps mt vt w k1 k2 v1 w1 : space mf vf ps.*2 w → space mt vt [] w → dup_ready mf vf ps mt vt w →
  ps = k1 ++ k2 → dup_part mf vf ps mt vt w k1 v1 w1 → dup_result mf vf ps.*2 mt vt w k1.*2 w1.
Proof.
  intros Hsf Hst Hrd Ek [Hf (qs & Eq & Ht & _) K Hc Hfr Hs Ho _].
  assert (shm_ok (ps.*2 ++ (set_vm_mm mt <$> k1.*2)) w1) as Hshm.
  { apply (counted_ok ps.*2 k1.*2 k2.*2 mt w); [apply Hrd|done|by rewrite Ek, fmap_app|].
    intros s c Hsc. rewrite length_fmap. by apply (dr_room _ _ _ _ _ _ Hrd s). }
  split; [| |done|done].
  - split; [by exists ps| |rewrite Hfr; apply Hsf| |apply Hsf].
    + eapply shm_ok_sub; [exact Hshm|]. intros s. rewrite refs_app. pose proof (refs_pos s (set_vm_mm mt <$> k1.*2)). lia.
    + intros va. rewrite Ho; [apply Hsf|]. intros E1. by apply (dr_pt _ _ _ _ _ _ Hrd).
  - exists v1. split; [|apply K]. split; [by exists qs| |rewrite Hfr; apply Hst| |apply Hst].
    + eapply shm_ok_sub; [exact Hshm|]. intros s. rewrite refs_app. pose proof (refs_pos s ps.*2). lia.
    + assert (pagetable v1 = pagetable vt) as -> by (by rewrite (kp_listing _ _ _ _ _ _ K)).
      intros va (_ & x & Hx & Hcx)%Hs. exists (set_vm_mm mt x). split; [by apply list_elem_of_fmap_2|done].
Qed.

Lemma dup_mmap_run mf vf ps mt vt w : space mf vf ps.*2 w → mm_rep mf vf ps w → space mt vt [] w → dup_ready mf vf ps mt vt w →
  wp (dup_mmap mt mf) w (λ r w',
    (r = 0 ∧ dup_result mf vf ps.*2 mt vt w ps.*2 w' ∧
       ∀ va, mapped (v_env w') (pagetable vt) va ↔ mapped (v_env w) (pagetable vf) va) ∨
    (r = - E_NO_MEM ∧ (no_vma_left ∨ no_page_left) ∧
       ∃ x1 x2, ps.*2 = x1 ++ x2 ∧ dup_result mf vf ps.*2 mt vt w x1 w')).
Proof.
  intros Hsf Hrf Hst Hrd. pose proof (sp_rep _ _ _ _ Hst) as ([|] & Eq0 & Hrt); [|done].
  unfold dup_mmap. rewrite wp_bind, wp_assert, (proj2 (Z.eqb_neq _ _) (sp_real _ _ _ _ Hst)), (proj2 (Z.eqb_neq _ _) (sp_real _ _ _ _ Hsf)).
  split; [done|]. apply wp_bind, wp_vm_links. eapply wp_list_empty; [apply Hrt|]. rewrite set_links_id, bool_decide_true by done.
  cbn [negb]. apply wp_bind. rewrite wp_ret. apply wp_bind. unfold for_each_vma.
  eapply (wp_for_each_state v_links _ _ (mmap_list mf) (map list_link ps.*1) _
    (λ l1 _ w', ∃ k1 k2 v', ps = k1 ++ k2 ∧ l1 = map list_link k1.*1 ∧ dup_full mf vf ps mt vt w k1 v' w')).
  - intros l1 _ w' (k1 & k2 & v' & _ & _ & Hp & _). apply Hp.
  - intros w' a b Hab. apply wp_result, wp_vm_links. eapply wp_list_next; [exact Hab|]. by rewrite set_links_id.
  - rewrite wp_gets. split; [done|]. pose proof (is_list_size _ _ _ (mr_list _ _ _ _ Hrf)). lia.
  - intros l1 e l2 [] w' El (k1 & k2 & v' & Ek & -> & Hp). rewrite Ek, fmap_app, map_app in El.
    apply app_inv_head in El. destruct k2 as [|[b x] k2]; [done|]. injection El as <- _. rewrite le2vma_link.
    assert (ps = (k1 ++ [(b, x)]) ++ k2) as Ek2 by (by rewrite <- app_assoc).
    apply wp_bind. eapply dup_step; [exact Hrd|exact Ek|exact Hp|..].
    + intros Hno. rewrite wp_ret. cbn. right. split; [done|]. split; [by left|]. exists k1.*2, ((b, x) :: k2).*2.
      split; [by rewrite Ek, fmap_app|]. by eapply dup_part_result; [..|apply Hp].
    + intros v2 w2 Hno Hp2. rewrite wp_ret. cbn. right. split; [done|]. split; [by right|]. exists (k1 ++ [(b, x)]).*2, k2.*2.
      split; [by rewrite Ek2 at 1; rewrite fmap_app|]. by eapply dup_part_result.
    + intros v2 w2 Hp2. rewrite wp_ret. cbn. exists (k1 ++ [(b, x)]), k2, v2. split; [done|]. split; [|done].
      by rewrite fmap_app, map_app.
  - intros [] w' (k1 & k2 & v' & Ek & El & Hp & Hall). rewrite wp_ret. left. split; [done|]. apply (f_equal length) in El.
    rewrite !length_map, Ek, length_app in El. destruct k2; [|cbn in El; lia]. rewrite app_nil_r in Ek. subst k1.
    split; [by eapply dup_part_result; [..|exact Hp]; rewrite ?app_nil_r|]. intros va. split; [by intros [? _]%(du_some _ _ _ _ _ _ _ _ _ Hp)|].
    intros Hm. destruct (sp_pages _ _ _ _ Hsf va Hm) as (x & Hx & Hcx). by eapply Hall.
  - exists [], ps, vt. split; [done|]. split; [done|]. split; [|intros x va Hx; by apply elem_of_nil in Hx].
    assert (tree_nodes w vt = []) as Et by (unfold tree_nodes; by rewrite (dr_new _ _ _ _ _ _ Hrd)).
    split; [done| |apply keeps_refl|apply counted_nil|done| |done|done].
    + exists []. split; [done|]. split; [done|]. split; [|intros a Ha; by apply elem_of_nil in Ha].
      intros n _. rewrite Et. apply not_elem_of_nil.
    + intros va Hva. destruct (sp_pages _ _ _ _ Hst va Hva) as (x & Hx & _). by apply elem_of_nil in Hx.
Qed.
End dup.
