(* ===== verification/VmmDemo.v ===== *)
(** * Address spaces: a concrete environment and a process with two areas *)
From Stdlib Require Import Sorted.
From S2P Require Import Prelude Errors ListH Rbtree RbRep RbSpec RbDelete RbSearch Vmm VmmRep VmmOps VmmInsert VmmPull VmmCut VmmSpec VmmFind VmmUser VmmProc VmmDup.

(** An address above all that are in use. *)
Definition above {V} (m : gmap Z V) : Z := map_fold (λ k _ r, Z.max (k + 1) r) 1 m.

Lemma above_all {V} (m : gmap Z V) : 1 ≤ above m ∧ ∀ k, is_Some (m !! k) → k < above m.
Proof.
  apply (map_fold_weak_ind (λ r m, 1 ≤ r ∧ ∀ k, is_Some (m !! k) → k < r)).
  - split; [done|]. intros k [x Hx]. done.
  - intros i x m' r _ [H1 H2]. split; [lia|]. intros k. destruct (decide (k = i)) as [->|Hne]; [lia|].
    rewrite lookup_insert_ne by done. intros Hk%H2. lia.
Qed.

Lemma above_fresh {V} (m : gmap Z V) a : above m ≤ a → m !! a = None.
Proof. intros Ha. destruct (m !! a) eqn:Em; [|done]. pose proof (proj2 (above_all m) a ltac:(by eexists)). lia. Qed.

(** Pages by page table and address, and memory; the entry of a page is made of both. *)
Record pages := mk_pages { pg_in : gset (Z * Z); pg_mem : gmap Z Z }.
Definition demo_pte (pt va : Z) : Z := (pt * 2 ^ 26 + va / PGSIZE) * 1024 + PTE_V.

#[local] Instance demo_rb : RbKmalloc := {|
  kmalloc_tree w := Ok (above (rm_trees w), set_rm_trees (<[above (rm_trees w) := mk_tree Z.sub 0 0]> (rm_trees w)) w);
  rb_node_create w := Ok (above (rm_nodes w), set_rm_nodes (<[above (rm_nodes w) := mk_rb true 0 0 0]> (rm_nodes w)) w) |}.

#[local] Instance demo_rb_ok : RbAlloc.
Proof.
  split; intros w; (do 2 eexists; split; [reflexivity|right]); split_and!.
  - pose proof (proj1 (above_all (rm_trees w))). lia.
  - by apply above_fresh.
  - by eexists.
  - pose proof (proj1 (above_all (rm_nodes w))). lia.
  - by apply above_fresh.
  - by eexists.
Qed.

Definition new_vma (w : vworld pages) : Z :=
  Z.max (above (v_vmas w)) (Z.max (above (v_links w)) (above (rm_nodes (v_mem w)))).

#[local] Instance demo_env : VmEnv pages := {|
  ve_unmap_range pt s t e := Ok (tt, mk_pages (filter (λ p, ¬ (p.1 = pt ∧ s ≤ p.2 < t)) (pg_in e)) (pg_mem e));
  ve_exit_range _ _ _ := mret tt;
  ve_copy_range to from s t _ e := Ok (0, mk_pages (pg_in e ∪
    set_map (λ p, (to, p.2)) (filter (λ p, p.1 = from ∧ s ≤ p.2 < t) (pg_in e))) (pg_mem e));
  ve_shmem_pages _ := mret true;
  ve_shmem_free _ := mret tt;
  ve_get_pte e pt va := if decide ((pt, va) ∈ pg_in e) then Some (demo_pte pt va) else None;
  ve_byte e a := default 0 (pg_mem e !! a) mod 256;
  ve_put_byte a b e := mk_pages (pg_in e) (<[a := b]> (pg_mem e));
  kernel_pagetable := 1000;
  kmalloc_vma w :=
    let a := new_vma w in
    Ok (a, set_vmas (<[a := mk_vma 0 0 0 0 0 0]> (v_vmas w)) (set_links (<[list_link a := mk_entry 0 0]> (v_links w))
      (set_nodes (<[a := mk_rb true 0 0 0]> (rm_nodes (v_mem w))) w)));
  kmalloc_mm := mret 0;
  kmalloc_shmem := mret 0;
  ve_rb := demo_rb |}.

Lemma new_vma_unused w : new_vma w ≠ 0 ∧ unused (new_vma w) w.
Proof.
  pose proof (proj1 (above_all (v_vmas w))). unfold new_vma. split; [lia|]. split_and!; apply above_fresh; unfold list_link; lia.
Qed.

#[local] Instance demo_env_ok : VmEnvOk pages.
Proof.
  refine {| vo_rb := demo_rb_ok; mapped e pt va := (pt, va) ∈ pg_in e |}.
  - intros [w' Hw]. injection Hw as Hw _. pose proof (proj1 (above_all (rm_nodes w'))). lia.
  - intros w. right. destruct (new_vma_unused w) as [H1 H2]. eexists _, _, _, _. split; [exact H1|]. split; [exact H2|]. reflexivity.
  - intros e pt s t _ _ _ _. eexists. split; [reflexivity|]. cbn. split; intros *; [|intros Hne]; rewrite elem_of_filter; cbn; naive_solver.
  - intros e pt s t _. by exists e.
  - intros e s. by exists e.
Defined.

Lemma demo_pte_valid pt va : flag (demo_pte pt va) PTE_V = true.
Proof.
  unfold flag, demo_pte, PTE_V. change 1 with (Z.ones 1) at 2. rewrite Z.land_ones, Z.add_comm by lia.
  change (2 ^ 1) with 2. replace ((pt * 2 ^ 26 + va / PGSIZE) * 1024) with ((pt * 2 ^ 26 + va / PGSIZE) * 512 * 2) by lia.
  by rewrite Z_mod_plus_full.
Qed.

#[local] Instance demo_user_mem : UserMem pages.
Proof.
  split.
  - intros e pt va _ _. cbn. case_decide as Hd; [|by split; [|intros (? & ? & _)]]. split; [|done]. intros _.
    eexists. split; [done|]. apply demo_pte_valid.
  - intros e a. cbn. apply Z.mod_pos_bound. lia.
  - intros e a b x Hb. cbn. destruct (Z.eqb_spec x a) as [->|Hx]; [|by rewrite lookup_insert_ne].
    rewrite lookup_insert_eq. cbn. by apply Z.mod_small.
  - done.
Defined.

#[local] Instance demo_page_copy : PageCopy pages.
Proof.
  refine {| no_page_left := False; stack_page _ _ _ := False |}.
  intros e to from s t sh Hne _ _ _ _ _ _. eexists _, _. split; [reflexivity|]. cbn.
  assert (∀ pt va, (pt, va) ∈ pg_in e ∪ set_map (λ p, (to, p.2)) (filter (λ p, p.1 = from ∧ s ≤ p.2 < t) (pg_in e)) ↔
    (pt, va) ∈ pg_in e ∨ pt = to ∧ s ≤ va < t ∧ (from, va) ∈ pg_in e) as Hin.
  { intros pt va. rewrite elem_of_union, elem_of_map. apply or_iff_compat_l. split.
    - intros ([f a] & [= -> ->] & ((E1 & Ha) & Hp)%elem_of_filter). cbn in *. by subst.
    - intros (-> & Ha & Hp). exists (from, va). split; [done|]. by apply elem_of_filter. }
  split_and!; [done| | | |done].
  - intros va. rewrite Hin. tauto.
  - intros _ va. rewrite Hin. tauto.
  - intros pt va Hpt. rewrite Hin. tauto.
Defined.

Lemma demo_memory : ¬ @no_vma_left pages demo_env.
Proof. intros [w Hw]. injection Hw as Hw _. by destruct (new_vma_unused w). Qed.

(** The process 5, its space 7, its page table 50: an area to write and one to read, with a page each. *)
Definition demo_area1 : Vma_struct := mk_vma 7 4096 12288 35 0 0.
Definition demo_area2 : Vma_struct := mk_vma 7 20480 24576 33 0 0.
Definition demo_areas : list Vma_struct := [demo_area1; demo_area2].
Definition demo_mm : Mm_struct := mk_mm 0 0 50 2 0 1 4096 12288 false 1 0 1.
Definition demo_proc : Curproc := mk_cur 5 7 false.
(** [word]: what the process has at its addresses 4104 and 20488. *)
Definition demo_memory_of (word : Z) : gmap Z Z :=
  let put va e := put_bytes (PTE2PA (demo_pte 50 va) + 8) (Z_to_little_endian 8 8 word) e in
  pg_mem (put 4096 (put 20480 (mk_pages ∅ ∅))).
Definition demo_world (word : Z) : vworld pages := mk_vm pages
  {[1 := demo_area1; 2 := demo_area2]} {[7 := demo_mm]}
  {[22 := mk_entry 6 3; 3 := mk_entry 22 6; 6 := mk_entry 3 22]}
  (mk_rbmem {[1 := mk_rb true 0 0 0; 2 := mk_rb true 0 0 0]} ∅) ∅ (Some demo_proc)
  (mk_pages {[(50, 4096); (50, 20480); (60, 4096)]} (demo_memory_of word)).

(** The space 7 with its areas, in a world that may have more than it. *)
Lemma demo_space_at (w : vworld pages) : v_vmas w = v_vmas (demo_world 0) → v_mms w !! 7 = Some demo_mm →
  is_list (v_links w) (mmap_list 7) [3; 6] → v_links w !! free_list = None → v_mem w = v_mem (demo_world 0) →
  pg_in (v_env w) = pg_in (v_env (demo_world 0)) → space 7 demo_mm demo_areas w.
Proof.
  intros E1 E2 E3 E4 E5 E6. split; [|intros s Hs; by vm_compute in Hs|exact E4| |done].
  - exists [(1, demo_area1); (2, demo_area2)]. split; [done|]. split; rewrite ?E1, ?E5; try done.
    + intros a x Hx. repeat (apply elem_of_cons in Hx as [[= -> ->]|Hx]; [done|]). by apply elem_of_nil in Hx.
    + repeat constructor. vm_compute. congruence.
    + intros a Ha. repeat (apply elem_of_cons in Ha as [->|Ha]; [by eexists|]). by apply elem_of_nil in Ha.
    + by left.
    + by left.
  - intros va. cbn. rewrite E6. cbn. rewrite !elem_of_union, !elem_of_singleton. intros [[[= ->]|[= ->]]|?]; [| |done].
    + exists demo_area1. split; [by left|]. split; done.
    + exists demo_area2. split; [by right; left|]. split; done.
Qed.

Lemma demo_ring (h : heap) : h !! 22 = Some (mk_entry 6 3) → h !! 3 = Some (mk_entry 22 6) → h !! 6 = Some (mk_entry 3 22) →
  is_list h (mmap_list 7) [3; 6].
Proof.
  intros E1 E2 E3. split; [repeat constructor; set_solver|]. change (mmap_list 7) with 22. unfold lseg, linked, nxt, prv. by rewrite E1, E2, E3.
Qed.

Lemma demo_space word : space 7 demo_mm demo_areas (demo_world word).
Proof. by apply demo_space_at; [..|apply demo_ring| | |]. Qed.

(** The space 8 of a process being made, with the page table 70 and no area yet. *)
Definition demo_child : Mm_struct := mk_mm 0 0 70 0 0 0 0 0 false 0 0 1.
Definition demo_fork : vworld pages :=
  set_links {[22 := mk_entry 6 3; 3 := mk_entry 22 6; 6 := mk_entry 3 22; 25 := mk_entry 25 25]}
    (set_mms {[7 := demo_mm; 8 := demo_child]} (demo_world 0)).

Lemma demo_fork_child : space 8 demo_child [] demo_fork.
Proof.
  split; [|intros s Hs; by vm_compute in Hs|done| |done].
  - exists []. split; [done|]. split; try done.
    + vm_compute. split; [|repeat split]. repeat constructor; set_solver.
    + intros a x Ha. by apply elem_of_nil in Ha.
    + constructor.
    + intros a Ha. by apply elem_of_nil in Ha.
    + by left.
    + by left.
  - intros va. cbn. rewrite !elem_of_union, !elem_of_singleton. naive_solver.
Qed.

Lemma demo_fork_parent : space 7 demo_mm demo_areas demo_fork.
Proof. by apply demo_space_at; [..|apply demo_ring| | |]. Qed.
