(* ===== verification/VmmTop.v ===== *)
(** * Address spaces: what the calls promise, and where they fail

    The theorems about the functions of [Vmm], each a few lines from the lemmas of the other files of
    the part, and their witnesses in the concrete states of [VmmDemo]. *)
From Stdlib Require Import Sorted.
From S2P Require Import Prelude Errors ListH Rbtree RbRep RbSpec RbDelete RbSearch Vmm VmmRep VmmOps VmmInsert VmmPull VmmCut VmmSpec VmmFind VmmUser VmmProc VmmBrk VmmDup VmmDemo.

Section top.
Context `{VO : VmEnvOk E} {UM : UserMem E} {PC : PageCopy E}.
Implicit Type w : vworld E.



(** [mm_map] on one call: it makes an area for the rounded range with the flags when the range is
    free, refuses with [E_INVAL] when it is not, and fails with [E_NO_MEM] only when no area can be
    had; other spaces, their areas and the page tables are unchanged. *)
Theorem mm_map_spec m v xs addr len flags w :
  space m v xs w → 0 ≤ addr → 0 < len → addr + len ≤ 2 ^ 64 - PGSIZE → flag flags VM_SHARE = false → zlen xs < 2 ^ 31 - 1 →
  let s := PGROUNDDOWN addr in let e := PGROUNDUP (u64 (addr + len)) in
  ∃ r a v' xs' w', mm_map m addr len flags w = Ok ((r, a), w') ∧ space m v' xs' w' ∧ others_kept m v w v' w' ∧ v_env w' = v_env w ∧
    (r = 0 → v_vmas w' !! a = Some (new_area m s e flags)) ∧ map_result (at_addr xs) (at_addr xs') s e flags r.
Proof.
  intros Hsp Ha Hl Ht Hf Hlen s e. destruct (proj1 (wp_run _ _ _) (mm_map_run m v xs addr len flags w Hsp Ha Hl Ht Hf Hlen))
    as ([r a] & w' & Hrun & v' & xs' & H1 & H2 & H3 & _ & H4 & H5). by exists r, a, v', xs', w'.
Qed.

(** C12: [mm_unmap] of a range below [MAXVA] that no area of shared memory has strictly inside (for
    that case see [mm_unmap_inside_shared]) takes exactly the addresses of the rounded range out of the
    space, cutting areas at its ends, shared or not, splitting a private one that has it inside and
    dropping those within, and takes exactly these pages out of the page table; it fails only for want
    of memory for the second half of a split, and then neither the space nor the page table changes.
    Other spaces and their areas are left alone. *)
Theorem mm_unmap_spec m v xs addr len w :
  space m v xs w → 0 ≤ addr → 0 < len → addr + len < MAXVA → zlen xs < 2 ^ 31 - 1 →
  let s := PGROUNDDOWN addr in let e := PGROUNDUP (u64 (addr + len)) in splittable s e xs →
  ∃ r v' xs' w', mm_unmap m addr len w = Ok (r, w') ∧ space m v' xs' w' ∧ others_kept m v w v' w' ∧
    unmap_result (at_addr xs) (at_addr xs') s e r ∧
    (if r =? 0 then pages_out (pagetable v) s e (v_env w) (v_env w') else v_env w' = v_env w).
Proof.
  intros Hsp Ha Hl Ht Hlen s e Hsplit. destruct (proj1 (wp_run _ _ _) (mm_unmap_run m v xs addr len w Hsp Ha Hl Ht Hlen Hsplit))
    as (r & w' & Hrun & v' & xs' & H1 & H2 & _ & _ & H4 & H5). by exists r, v', xs', w'.
Qed.

(** C40: [mm_unmap] of a range strictly inside an area of shared memory returns 0 and leaves an area
    that carries the flag of shared memory and a null pointer to it; the next [vma_destroy] of this
    area dereferences the null pointer. *)
Theorem mm_unmap_inside_shared m v ps a x addr len w : mm_rep m v ps w → m ≠ 0 → 0 ≤ addr → 0 < len → addr + len < MAXVA →
  v_links w !! free_list = None → zlen ps < 2 ^ 31 - 1 → ¬ no_vma_left → v_shm w !! 0 = None →
  (a, x) ∈ ps → vm_start x < PGROUNDDOWN addr → PGROUNDUP (u64 (addr + len)) < vm_end x → flag (vm_flags x) VM_SHARE = true →
  ∃ b v' ps' w', mm_unmap m addr len w = Ok (0, w') ∧ mm_rep m v' ps' w' ∧
    (b, new_area m (vm_start x) (PGROUNDDOWN addr) (vm_flags x)) ∈ ps' ∧ vma_destroy b w' = Undef.
Proof.
  intros Hr Hm Ha Hl Ht Hfree Hlen Hno Hn Hin Hs He Hf.
  destruct (proj1 (wp_run _ _ _) (mm_unmap_inside m v ps a x addr len w Hr Hm Ha Hl Ht Hfree Hlen Hno Hin Hs He))
    as (r & w' & Hrun & -> & Es & b & v' & ps' & Hr' & Hb). exists b, v', ps', w'. split_and!; [done..|].
  eapply vma_destroy_null; [by apply (mr_vmas _ _ _ _ Hr')|done|]. by rewrite Es.
Qed.

(** C14: [dup_mmap] copies a space below [MAXVA] into a new, empty one. It returns if [copy_range] finds a
    page for every stack page there is to copy and no stack page in shared memory: there it stops in an
    assertion. If it succeeds, the new space
    has the same areas with the same access and the same shared memory, its page table has exactly
    the pages of the first, and the shared memories count the areas of both; if it fails, it does so
    for want of memory, and the new space is well formed with the areas copied so far. The space that
    is copied keeps its areas and pages, and so does every other page table. *)
Theorem dup_mmap_spec mf vf xs mt vt w :
  space mf vf xs w → space mt vt [] w → mmap_tree vt = 0 → mf ≠ mt → pagetable vt ≠ pagetable vf → zlen xs < 2 ^ 31 - 1 →
  (∀ x, x ∈ xs → vm_end x ≤ MAXVA ∧ copyable (v_env w) (pagetable vf) x) →
  (∀ s c, v_shm w !! s = Some c → shmem_ref c + zlen xs < 2 ^ 63) →
  ∃ r x1 x2 vt' w', dup_mmap mt mf w = Ok (r, w') ∧ xs = x1 ++ x2 ∧
    space mf vf xs w' ∧ space mt vt' (set_vm_mm mt <$> x1) w' ∧ listing vt vt' ∧
    shm_ok (xs ++ (set_vm_mm mt <$> x1)) w' ∧
    (∀ pt va, pt ≠ pagetable vt → mapped (v_env w') pt va ↔ mapped (v_env w) pt va) ∧
    (r = 0 ∧ x1 = xs ∧ (∀ va, mapped (v_env w') (pagetable vt) va ↔ mapped (v_env w) (pagetable vf) va) ∨
     r = - E_NO_MEM ∧ (no_vma_left ∨ no_page_left)).
Proof.
  intros Hsf Hst H1 H2 H3 Hlen Hxs Hroom. pose proof (sp_rep _ _ _ _ Hsf) as (ps & <- & Hrf). rewrite length_fmap in Hlen.
  assert (dup_ready mf vf ps mt vt w) as Hrd by (split; try done; [apply Hsf|intros s c; rewrite <- (length_fmap snd); apply Hroom]).
  destruct (proj1 (wp_run _ _ _) (dup_mmap_run mf vf ps mt vt w Hsf Hrf Hst Hrd)) as
    (r & w' & Hrun & [(-> & [D1 (v' & D2 & D3) D4 D5] & Hm)|(-> & Hno & x1 & x2 & Ex & [D1 (v' & D2 & D3) D4 D5])]).
  - exists 0, ps.*2, [], v', w'. rewrite app_nil_r. split_and!; try done. by left.
  - exists (- E_NO_MEM), x1, x2, v', w'. split_and!; try done. by right.
Qed.

(** C15: [exit_mmap] always returns; it leaves the space without areas and the page table of the
    space without pages, and changes no other space, none of its areas, and no other page table. *)
Theorem exit_mmap_spec m v xs w : space m v xs w → (∀ x, x ∈ xs → vm_end x ≤ MAXVA) → zlen xs < 2 ^ 31 →
  ∃ v' w', exit_mmap m w = Ok (tt, w') ∧ space m v' [] w' ∧ others_kept m v w v' w' ∧
    ∀ pt va, mapped (v_env w') pt va ↔ mapped (v_env w) pt va ∧ pt ≠ pagetable v.
Proof.
  intros Hsp Ht Hl. destruct (wp_unit _ _ _ (exit_mmap_run m v xs w Hsp Ht Hl)) as (w' & Hrun & v' & H). by exists v', w'.
Qed.

(** [find_vma] returns the first area that ends after the address and null when there is none, with
    the cached area, the list or the tree as the way there, and changes nothing but the cache and
    the count of uses; the space stays well formed. *)
Theorem find_vma_spec m v ps addr w : mm_rep m v ps w → m ≠ 0 →
  find_vma m addr w = Ok (default 0 (first_end addr ps), cached m v (first_end addr ps) w) ∧
  mm_rep m (cached_mm v (first_end addr ps)) ps (cached m v (first_end addr ps) w).
Proof. intros Hr Hm. split; [|by apply rep_cached]. apply wp_result. by eapply wp_find_vma. Qed.

(** [get_unmapped_area] changes nothing and returns the highest start of a free range of the length
    below the trap frames, aligned when the length is, and a negative number when there is no such
    range. *)
Theorem get_unmapped_area_spec m v ps len w :
  mm_rep m v ps w → (∀ p, p ∈ ps → vm_start p.2 ≤ user_top) → 0 < len < user_top →
  ∃ r, get_unmapped_area m len w = Ok (r, w) ∧ best ps len r ∧ (len mod PGSIZE = 0 → r mod PGSIZE = 0).
Proof.
  intros Hr Ht Hl. enough (wp (get_unmapped_area m len) w (λ r w', w' = w ∧ best ps len r ∧ (len mod PGSIZE = 0 → r mod PGSIZE = 0)))
    as (r & w' & Er & -> & H)%wp_run by eauto. eapply wp_get_unmapped_area; [exact Hr|done|done|]. intros r H1 _ H2. done.
Qed.

(** C27: for a range of user addresses that does not wrap around, [user_mem_check] returns, and says
    yes exactly when every byte of the range lies in an area that allows the access, writes to the
    first page of a stack area excepted. *)
Theorem user_mem_check_spec m v xs addr len write w :
  space m v xs w → 0 ≤ addr → 0 ≤ len → addr + len < MAXVA →
  ∃ b w', user_mem_check m addr len write w = Ok (b, w') ∧
    (b = true ↔ ∀ va, addr ≤ va < addr + len → permitted xs write va).
Proof.
  intros [(ps & <- & Hr) _ _ _ Hm] Ha Hl Ht.
  enough (wp (user_mem_check m addr len write) w (λ b _, b = true ↔ ∀ va, addr ≤ va < addr + len → permitted ps.*2 write va))
    as (b & w' & H)%wp_run by eauto. by eapply wp_user_mem_check.
Qed.

(** C38: for a range whose end wraps around to a low address, [user_mem_check] says yes without
    looking at any area, whatever is mapped. *)
Theorem user_mem_check_wraps m v xs addr len write w :
  space m v xs w → 0 ≤ addr < 2 ^ 64 → 0 ≤ len < 2 ^ 64 → 2 ^ 64 ≤ addr + len < 2 ^ 64 + MAXVA →
  user_mem_check m addr len write w = Ok (true, w).
Proof. intros Hsp. apply user_mem_check_wrap_run, Hsp. Qed.

(** [do_mmap] with an address other than the first page: the rounded range is mapped there or
    refused as [mm_map] does it, the start is stored for the process on success, and the lock is
    released. *)
Theorem do_mmap_at_spec m v xs p w a len f :
  space m v xs w → current p w → cp_mm p = m → 0 < mm_sem v → a ≠ 0 → word_there (v_env w) (pagetable v) a → 0 < len → zlen xs < 2 ^ 31 - 1 →
  let b := user_word (v_env w) (pagetable v) a in
  let s := PGROUNDDOWN b in let e := PGROUNDUP (u64 (b + len)) in
  s ≠ 0 → b + len ≤ 2 ^ 64 - PGSIZE →
  ∃ r w', do_mmap a len f w = Ok (r, w') ∧ mmap_done m v xs a s e (mmap_prot f) r w'.
Proof. apply do_mmap_fixed_run. Qed.


(** [do_mmap] of a range that ends in the last page of the 64-bit address space: the rounded end is
    0, and the kernel stops in an assertion. *)
Theorem do_mmap_wraps m v xs p w a len f :
  space m v xs w → current p w → cp_mm p = m → 0 < mm_sem v → a ≠ 0 → word_there (v_env w) (pagetable v) a → 0 < len → ¬ no_vma_left →
  let b := user_word (v_env w) (pagetable v) a in PGROUNDDOWN b ≠ 0 → 2 ^ 64 - PGSIZE < b + len < 2 ^ 64 →
  do_mmap a len f w = Panic.
Proof. apply do_mmap_wrap_run. Qed.

(** C13: [do_brk] returns 0 and moves the end of the heap to the rounded address asked for,
    unmapping exactly the pages between when the heap shrinks and mapping exactly these with the
    flags of the heap when it grows, for a process whose heap end is aligned and below [MAXVA], and an
    address read from a word of the process whose pages are mapped and not among those given up, with no
    area of shared memory that has the pages given up strictly inside; it leaves space and end alone for one of the reasons listed in
    [brk_moved] (the address lies below the start of the heap, is the old end, the pages are taken,
    or an unmapping or mapping fails). In each case the new end is stored for the process and the
    lock is released. *)
Theorem do_brk_spec m v xs p w a :
  space m v xs w → current p w → cp_mm p = m → cp_kernel p = false → 0 < mm_sem v → a ≠ 0 → word_there (v_env w) (pagetable v) a →
  pagetable v ≠ kernel_pagetable → 0 < brk v → brk v mod PGSIZE = 0 → brk v < MAXVA → zlen xs < 2 ^ 31 - 2 →
  let b := user_word (v_env w) (pagetable v) a in splittable (PGROUNDUP b) (brk v) xs →
  word_outside a (PGROUNDUP b) (brk v) →
  ∃ v' xs' w', do_brk a w = Ok (0, w') ∧ space m v' xs' w' ∧ mm_sem v' = mm_sem v ∧ pagetable v' = pagetable v ∧
    user_word (v_env w') (pagetable v) a = brk v' ∧
    brk_moved (at_addr xs) (at_addr xs') (brk_start v) (brk v) b (brk v').
Proof. apply do_brk_run. Qed.

(** C39: an end of the heap asked for in the last page of the address space rounds to 0: [do_brk]
    unmaps everything below the old end, text and data too. With the word the end is read from above
    the old end, on the stack say, it then returns 0 and the end of the heap is 0; with the word below
    the old end its own page is gone, and the kernel stops in an assertion as it stores the result. *)
Theorem do_brk_wraps m v xs p w a :
  space m v xs w → current p w → cp_mm p = m → cp_kernel p = false → 0 < mm_sem v → a ≠ 0 → word_there (v_env w) (pagetable v) a →
  pagetable v ≠ kernel_pagetable → 0 < brk v → brk v mod PGSIZE = 0 → brk v < MAXVA → zlen xs < 2 ^ 31 - 2 →
  ¬ no_vma_left → let b := user_word (v_env w) (pagetable v) a in 2 ^ 64 - PGSIZE < b → brk_start v ≤ b →
  if brk v <=? PGROUNDDOWN a then
    ∃ v' xs' w', do_brk a w = Ok (0, w') ∧ space m v' xs' w' ∧ brk v' = 0 ∧
      ∀ va, at_addr xs' va = if decide (0 ≤ va < brk v) then None else at_addr xs va
  else do_brk a w = Panic.
Proof.
  intros Hsp Hc Hm Hk Hs Ha Hwt Hpt H0 Ho Ht Hl Hno b Hb Hst.
  pose proof (user_word_range (v_env w) (pagetable v) a) as Hbr. fold b in Hbr.
  assert (PGROUNDUP b = 0) as Eb by (apply round_up_wraps; lia).
  assert (splittable (PGROUNDUP b) (brk v) xs) as Hsplit.
  { rewrite Eb. intros x Hx Hlt. pose proof (ao_range _ (space_ok m v xs w x Hsp Hx)). lia. }
  destruct (page_of a (proj1 (proj1 Hwt))) as (_ & R1 & _). destruct (page_of (a + 7) (proj1 (proj2 Hwt))) as (M2 & _ & E2 & R2 & _).
  destruct (Z.leb_spec (brk v) (PGROUNDDOWN a)) as [Hle|Hgt].
  - destruct (do_brk_run m v xs p w a Hsp Hc Hm Hk Hs Ha Hwt Hpt H0 Ho Ht Hl Hsplit) as (v' & xs' & w' & Hrun & Hsp' & _ & _ & _ & Hmv).
    { split; [lia|]. apply Z.mod_divide in Ho as [i Hi]; [|done]. apply Z.mod_divide in M2 as [k Hk2]; [|done].
      destruct (page_of a (proj1 (proj1 Hwt))) as (_ & _ & E1 & R3 & _). unfold PGSIZE in *. lia. }
    fold b in Hmv. unfold brk_moved in Hmv. rewrite Eb in Hmv. exists v', xs', w'. split; [done|]. split; [done|].
    destruct Hmv as [(_ & _ & [?|[?|[?|[? _]]]])|[(-> & _ & _ & Hf)|(_ & _ & ? & _)]]; try lia; done.
  - eapply do_brk_stops; try done. fold b. rewrite Eb. intros [Hn _]. lia.
Qed.
End top.

(** ** Concrete states *)

#[local] Existing Instance demo_env.
#[local] Existing Instance demo_env_ok.
#[local] Existing Instance demo_user_mem.
#[local] Existing Instance demo_page_copy.



Lemma demo_private x : x ∈ demo_areas → flag (vm_flags x) VM_SHARE = false.
Proof. intros Hx. repeat (apply elem_of_cons in Hx as [->|Hx]; [done|]). by apply elem_of_nil in Hx. Qed.


Lemma demo_word_low word : word_there (v_env (demo_world word)) 50 4104.
Proof. split; (split; [done|]); cbn; set_solver. Qed.
Lemma demo_word_high word : word_there (v_env (demo_world word)) 50 20488.
Proof. split; (split; [done|]); cbn; set_solver. Qed.


(** The first area in shared memory. *)
Definition demo_shared_area : Vma_struct := mk_vma 7 4096 16384 51 9 0.
Definition demo_shared : vworld pages :=
  set_shm {[9 := mk_shm 12288 1]} (set_vmas {[1 := demo_shared_area; 2 := demo_area2]} (demo_world 0)).

Lemma demo_ps_rep x (w : vworld pages) : v_mms w = v_mms (demo_world 0) → v_links w = v_links (demo_world 0) → v_mem w = v_mem (demo_world 0) →
  v_vmas w = {[1 := x; 2 := demo_area2]} → area_ok x → vm_mm x = 7 → vm_end x ≤ 20480 →
  mm_rep 7 demo_mm [(1, x); (2, demo_area2)] w.
Proof.
  intros E1 E2 E3 E4 Hok Hm He. split; rewrite ?E1, ?E2, ?E3, ?E4; try done.
  - vm_compute. split; [|repeat split]. repeat constructor; set_solver.
  - intros a y Hy. repeat (apply elem_of_cons in Hy as [[= -> ->]|Hy]; [done|]). by apply elem_of_nil in Hy.
  - by repeat constructor.
  - intros a Ha. repeat (apply elem_of_cons in Ha as [->|Ha]; [by eexists|]). by apply elem_of_nil in Ha.
  - by left.
  - by left.
Qed.

Definition demo_ps : list (Z * Vma_struct) := [(1, demo_area1); (2, demo_area2)].
Lemma demo_ps_here word : mm_rep 7 demo_mm demo_ps (demo_world word).
Proof. by apply demo_ps_rep. Qed.



Lemma exit_mmap_spec_witness : ∃ v' w', exit_mmap 7 (demo_world 0) = Ok (tt, w') ∧ space 7 v' [] w' ∧
  others_kept 7 demo_mm (demo_world 0) v' w' ∧
  ∀ pt va, mapped (v_env w') pt va ↔ mapped (v_env (demo_world 0)) pt va ∧ pt ≠ 50.
Proof.
  apply (exit_mmap_spec 7 demo_mm demo_areas (demo_world 0) (demo_space 0)); [|done].
  intros x Hx. repeat (apply elem_of_cons in Hx as [->|Hx]; [vm_compute; congruence|]). by apply elem_of_nil in Hx.
Defined.

Lemma dup_mmap_spec_witness : ∃ r x1 x2 vt' w', dup_mmap 8 7 demo_fork = Ok (r, w') ∧ demo_areas = x1 ++ x2 ∧
  space 7 demo_mm demo_areas w' ∧ space 8 vt' (set_vm_mm 8 <$> x1) w' ∧ listing demo_child vt' ∧
  shm_ok (demo_areas ++ (set_vm_mm 8 <$> x1)) w' ∧
  (∀ pt va, pt ≠ 70 → mapped (v_env w') pt va ↔ mapped (v_env demo_fork) pt va) ∧
  (r = 0 ∧ x1 = demo_areas ∧ (∀ va, mapped (v_env w') 70 va ↔ mapped (v_env demo_fork) 50 va) ∨
   r = - E_NO_MEM ∧ (no_vma_left ∨ no_page_left)).
Proof.
  apply (dup_mmap_spec 7 demo_mm demo_areas 8 demo_child demo_fork demo_fork_parent demo_fork_child); try done.
  intros x Hx. split; [|by intros _ va _ []].
  repeat (apply elem_of_cons in Hx as [->|Hx]; [vm_compute; congruence|]). by apply elem_of_nil in Hx.
Defined.

Lemma mm_map_spec_witness : ∃ r a v' xs' w', mm_map 7 12288 5000 3 (demo_world 0) = Ok ((r, a), w') ∧
  space 7 v' xs' w' ∧ others_kept 7 demo_mm (demo_world 0) v' w' ∧ v_env w' = v_env (demo_world 0) ∧
  (r = 0 → v_vmas w' !! a = Some (new_area 7 12288 20480 3)) ∧ map_result (at_addr demo_areas) (at_addr xs') 12288 20480 3 r.
Proof. by apply (mm_map_spec 7 demo_mm demo_areas 12288 5000 3 (demo_world 0) (demo_space 0)). Defined.

Lemma mm_unmap_spec_witness : ∃ r v' xs' w', mm_unmap 7 8192 16000 (demo_world 0) = Ok (r, w') ∧
  space 7 v' xs' w' ∧ others_kept 7 demo_mm (demo_world 0) v' w' ∧ unmap_result (at_addr demo_areas) (at_addr xs') 8192 24576 r ∧
  (if r =? 0 then pages_out 50 8192 24576 (v_env (demo_world 0)) (v_env w') else v_env w' = v_env (demo_world 0)).
Proof.
  apply (mm_unmap_spec 7 demo_mm demo_areas 8192 16000 (demo_world 0) (demo_space 0)); [done..|].
  intros x Hx _ _. by apply demo_private.
Defined.

Lemma mm_unmap_inside_shared_witness : ∃ b v' ps' w', mm_unmap 7 8192 4096 demo_shared = Ok (0, w') ∧ mm_rep 7 v' ps' w' ∧
  (b, new_area 7 4096 8192 51) ∈ ps' ∧ vma_destroy b w' = Undef.
Proof.
  apply (mm_unmap_inside_shared 7 demo_mm [(1, demo_shared_area); (2, demo_area2)] 1 demo_shared_area 8192 4096 demo_shared);
    try done; [by apply demo_ps_rep|exact demo_memory|by left].
Defined.

Lemma find_vma_spec_witness : mm_rep 7 demo_mm demo_ps (demo_world 0) ∧ find_vma 7 13000 (demo_world 0) =
  Ok (2, set_mms {[7 := set_cache 2 demo_mm]} (demo_world 0)).
Proof. split; [exact (demo_ps_here 0)|]. exact (proj1 (find_vma_spec 7 demo_mm demo_ps 13000 (demo_world 0) (demo_ps_here 0) ltac:(done))). Defined.

Lemma get_unmapped_area_spec_witness : ∃ r, get_unmapped_area 7 8192 (demo_world 0) = Ok (r, demo_world 0) ∧
  best demo_ps 8192 r ∧ (8192 mod PGSIZE = 0 → r mod PGSIZE = 0).
Proof.
  apply (get_unmapped_area_spec 7 demo_mm demo_ps 8192 (demo_world 0) (demo_ps_here 0)); [|done].
  intros p Hp. repeat (apply elem_of_cons in Hp as [->|Hp]; [vm_compute; congruence|]). by apply elem_of_nil in Hp.
Defined.

Lemma user_mem_check_spec_witness : ∃ b w', user_mem_check 7 5000 100 true (demo_world 0) = Ok (b, w') ∧
  (b = true ↔ ∀ va, 5000 ≤ va < 5000 + 100 → permitted demo_areas true va).
Proof. by apply (user_mem_check_spec 7 demo_mm demo_areas 5000 100 true (demo_world 0) (demo_space 0)). Defined.

Lemma user_mem_check_wraps_witness : user_mem_check 7 (2 ^ 64 - 4096) 8192 true (demo_world 0) = Ok (true, demo_world 0).
Proof. by apply (user_mem_check_wraps 7 demo_mm demo_areas (2 ^ 64 - 4096) 8192 true (demo_world 0) (demo_space 0)). Defined.

Lemma do_mmap_at_spec_witness : ∃ r w', do_mmap 4104 5000 256 (demo_world 30000) = Ok (r, w') ∧
  mmap_done 7 demo_mm demo_areas 4104 28672 36864 35 r w'.
Proof.
  assert (user_word (v_env (demo_world 30000)) 50 4104 = 30000) as Hb by (vm_compute; reflexivity).
  pose proof (do_mmap_at_spec 7 demo_mm demo_areas demo_proc (demo_world 30000) 4104 5000 256 (demo_space 30000) eq_refl eq_refl eq_refl ltac:(done)
    (demo_word_low _)) as H.
  cbv zeta in H. change (pagetable demo_mm) with 50 in H. rewrite Hb in H. clear Hb. by apply H.
Defined.


Lemma do_mmap_wraps_witness : do_mmap 4104 10 0 (demo_world (2 ^ 64 - 4096)) = Panic.
Proof.
  assert (user_word (v_env (demo_world (2 ^ 64 - 4096))) 50 4104 = 2 ^ 64 - 4096) as Hb by (vm_compute; reflexivity).
  pose proof (do_mmap_wraps 7 demo_mm demo_areas demo_proc (demo_world (2 ^ 64 - 4096)) 4104 10 0 (demo_space _) eq_refl eq_refl eq_refl ltac:(done)
    (demo_word_low _)) as H.
  cbv zeta in H. change (pagetable demo_mm) with 50 in H. rewrite Hb in H. clear Hb. apply H; [done|exact demo_memory|vm_compute; congruence|unfold PGSIZE; lia].
Defined.

Lemma do_brk_spec_witness : ∃ v' xs' w', do_brk 4104 (demo_world 20000) = Ok (0, w') ∧ space 7 v' xs' w' ∧
  mm_sem v' = 1 ∧ pagetable v' = 50 ∧ user_word (v_env w') 50 4104 = brk v' ∧
  brk_moved (at_addr demo_areas) (at_addr xs') 4096 12288 20000 (brk v').
Proof.
  assert (user_word (v_env (demo_world 20000)) 50 4104 = 20000) as Hb by (vm_compute; reflexivity).
  pose proof (do_brk_spec 7 demo_mm demo_areas demo_proc (demo_world 20000) 4104 (demo_space 20000) eq_refl eq_refl eq_refl eq_refl ltac:(done)
    (demo_word_low _)) as H.
  cbv zeta in H. change (pagetable demo_mm) with 50 in H. rewrite Hb in H. clear Hb. apply H; try done.
  - intros x Hx _ _. by apply demo_private.
  - split; vm_compute; intros []; congruence.
Defined.

Lemma do_brk_wraps_witness : ∃ v' xs' w', do_brk 20488 (demo_world (2 ^ 64 - 1)) = Ok (0, w') ∧ space 7 v' xs' w' ∧ brk v' = 0 ∧
  ∀ va, at_addr xs' va = if decide (0 ≤ va < 12288) then None else at_addr demo_areas va.
Proof.
  assert (user_word (v_env (demo_world (2 ^ 64 - 1))) 50 20488 = 2 ^ 64 - 1) as Hb by (vm_compute; reflexivity).
  pose proof (do_brk_wraps 7 demo_mm demo_areas demo_proc (demo_world (2 ^ 64 - 1)) 20488 (demo_space _) eq_refl eq_refl eq_refl eq_refl ltac:(done)
    (demo_word_high _)) as H.
  cbv zeta in H. change (pagetable demo_mm) with 50 in H. rewrite Hb in H. clear Hb.
  assert ((brk demo_mm <=? PGROUNDDOWN 20488) = true) as Hh by (vm_compute; reflexivity). rewrite Hh in H.
  apply H; try done. exact demo_memory.
Defined.
